(* ===== verification/_CoqProject ===== *)
-Q . S2P
Prelude.v
RustStr.v
Protocol.v
BTree.v
Keyset.v
Tx.v
Config.v
Routing.v
Health.v
Breaker.v
HealthProps.v
SourceUrl.v
Json.v
Redaction.v
Events.v
Incidents.v
IncidentProps.v
Ops.v
Cleanup.v
CleanupProps.v
CleanupDone.v
Catalog.v
Presets.v
PresetDiff.v
ModelCatalog.v
CatalogProps.v
CatalogTypes.v
Discovery.v
Snapshot.v
Capabilities.v
Usage.v
Thinking.v
Stream.v
StreamProps.v
Native.v
Frames.v
Observe.v
Accounting.v
EventFeed.v
F64.v
Http.v
VirtualKeys.v
Secrets.v
UsageReport.v
UsageReportProps.v
UsageSql.v
Quota.v
QuotaProps.v
Validation.v
ControlDb.v
Backup.v
ControlPlane.v
ModelRouting.v
Import.v
ControlReads.v
ControlProps.v
ControlTypes.v
ControlInvariants.v
ControlSnapshot.v
BackupProps.v
World.v
Auth.v
RequestAudit.v
AdminGate.v
AuditProps.v
KeysApi.v
AdminApi.v
AdminPublish.v
ProbeApi.v
OpsApi.v
ReportApi.v
Transport.v
Fallback.v
Policy.v
Proxy.v
ProxyProps.v
Settlement.v
Service.v
DataApi.v
Runtime.v
