(* ===== verification/Prelude.v ===== *)
(** * A verification development of my-ai-gateway

    The gateway is a Rust server in front of several LLM providers.  A client
    request goes through the data plane ([src/src/proxy]): it is checked and
    authorized, its model is resolved to a line (source, account, upstream
    model) by the published runtime snapshot, the line is tried under a
    candidate policy that consults and updates account health, the upstream
    answer is passed back (as JSON or as a live event stream), and the usage of
    the request is recorded.  The control plane publishes the snapshots; both
    planes share a PostgreSQL database.

    ** Files, in dependency order

    - [Prelude]: results and their notation, machine integers, hash maps as
      association lists, automation.  [RustStr]: the string functions of the
      Rust standard library the source uses, on bytes.
    - [Protocol], [Config], [Routing] model [src/src/domain/protocol.rs],
      [config.rs] and [routing.rs]: configuration records, [validate] with all
      its messages, capability lookup, the runtime and the legacy resolver.
    - [Health], [Breaker], [HealthProps] model [src/src/infra/health.rs] and
      [src/src/infra/db/health.rs]: one function per transition of the memory
      and of the row back end; [Breaker] is the abstract circuit breaker both
      refine, [HealthProps] what the gateway relies on.
    - [SourceUrl] models [src/src/source_url.rs]: which URLs, addresses and
      redirects outbound requests may use.
    - [Json] is the vocabulary of [serde_json] with a class for its parser and
      printer and a concrete instance for examples.
    - [BTree] is the ordered map of the standard library and PostgreSQL's
      [ORDER BY] on text; [Keyset] what lists have in common that are read page
      by page after a key; [Tx] the transaction monad: a computation on tables
      that either yields a value and new tables or an error and no tables.
    - [Catalog], [Presets], [PresetDiff], [ModelCatalog] model
      [src/src/domain/catalog.rs], [provider_preset.rs] and
      [src/src/control_plane/model_catalog.rs]: metadata with the source of
      each field, the built-in presets, the difference of two preset
      definitions, and every repository operation as a transaction on
      [CatalogDb].  [CatalogProps] and [CatalogTypes] prove what they do.
    - [Discovery] models [src/src/control_plane/model_discovery.rs]: the
      discovery and connection-test service, with its HTTP exchange as one
      recorded request and an arbitrary answer.
    - [Capabilities] models [src/src/domain/capabilities.rs], the matrix read
      off a published snapshot.
    - [Validation], [ControlDb], [ControlPlane], [ModelRouting], [Import] model
      the rest of [src/src/control_plane]: input checks and errors; the tables
      ([ControlDb] extends [CatalogDb]) with the statements, constraints and
      cascades of [src/migrations], the checks that read tables and the query
      of the snapshot; the operations on sources, accounts, models,
      capabilities, bindings and routes; the compiled routing of a model; and
      the import of a configuration.  [ControlReads] are the queries that
      only read.
    - [ControlProps], [ControlTypes], [ControlInvariants], [ControlSnapshot]
      prove what every [Operation] guarantees: [respects] decomposes a
      transaction into statements, each shown once to respect a relation.
    - [Redaction], [Ops], [Cleanup], [Backup] model [src/src/infra/ops.rs]:
      what is removed from exports and audit details; [Ops] is the monad of
      the operations, in which every statement or transaction is one step and
      other clients and database faults may come between any two (the class
      [OpsEnv]); retention cleanups with their rounds, cancellation and retry;
      export and restore of the control plane.  [CleanupProps], [CleanupDone]
      and [BackupProps] prove what they do, by showing each step once to keep a
      relation ([keeps]).
    - [Events] models the redaction of system events in
      [src/src/infra/events.rs] and the table they go to; [Incidents] its
      incident tracker, with every call as a sequence of atomic steps that
      interleave and may be dropped; [IncidentProps] the life of an outage;
      [EventFeed] the unified feed ([list]) with the query parser of
      [src/src/api/events.rs], and its reading page by page.
    - [F64] is [f64] on the bit-exact specification of the standard library;
      [Quota] models [src/src/control_plane/quota], [QuotaProps] proves what is
      asked of a provider and what is shown of its answer.
    - [Snapshot] models [src/src/control_plane/snapshot.rs] and the publication
      in [src/src/state.rs]: from the rows of one query to configuration,
      routes and model list.
    - [Usage], [Thinking] model the usage extraction of
      [src/src/proxy/usage.rs]; [Observe] its observation guard, a future that
      is polled, finished or dropped.
    - [Stream], [StreamProps], [Native], [Frames] model
      [src/src/proxy/stream.rs]: terminations, the byte-level event tracker, the
      polled body of a native stream (a step relation over upstream chunks and
      timers), and the closing error frames.
    - [Accounting] models [src/src/proxy/accounting.rs] and the insert of
      [src/src/infra/db/usage.rs].  [Http] models
      [src/src/http/response.rs].
    - [UsageReport] models the queries of [src/src/infra/db/usage.rs] and the
      parser and the export of [src/src/api/usage.rs]; [UsageReportProps] proves
      the pages, the reports and the CSV correct, and [UsageSql] reads the
      statements that are put together at run time as PostgreSQL does.
    - [VirtualKeys] models [src/src/infra/db/virtual_keys.rs]; [Auth] models
      [src/src/auth.rs] and [src/src/proxy/attribution.rs].
    - [RequestAudit] models [src/src/infra/audit.rs]; [AdminGate] the routes and layers
      of [src/src/app.rs], generic in the handlers; [AuditProps] proves the gate
      closed and the rows metadata only.
    - [KeysApi] models [src/src/api/keys.rs] on the table of [VirtualKeys],
      [AdminApi] the handlers of [src/src/api/admin.rs] and the helpers they
      share: a handler runs its transaction and either answers or has a snapshot
      to publish first ([Handling]).  [AdminPublish] lets the handlers
      interleave; [KeysApi] also follows a key from its creation to its reveal.
    - [OpsApi] models [src/src/api/ops.rs] on the jobs of [Cleanup] and [Backup],
      [ReportApi] the handlers that only read ([usage.rs], [events.rs],
      [filter_options.rs], [upstream_quota.rs] of [src/src/api]), [ProbeApi]
      probes, the health report and the discovery API ([health_admin.rs],
      [discovery.rs], [probe_account] of [src/src/infra/health.rs]) on one state
      of tables, registry and requests sent.  Each also proves what its
      handlers answer and change.
    - [Secrets] models [src/src/infra/secrets.rs]: key rings, credential
      envelopes and the resolution of an account's credential.
    - [World] defines the effects of the data plane: a state monad over the
      health registry, the key and usage tables and logs of what was sent,
      slept and handed to streams.  Clocks, the network and database faults are
      answered by the class [Env], indexed by the number of effects so far, so
      every theorem quantifies over all behaviours of the outside.
    - [Transport], [Fallback], [Policy], [Proxy], [ProxyProps] model
      [src/src/proxy/transport.rs], [forward.rs], [fallback.rs], [policy.rs],
      [attempt.rs], [weighted.rs], [ordered.rs] and [completion.rs].
    - [Settlement] models [src/src/proxy/settlement.rs] as a transition system
      over atomic actions; [Service] models [proxy] of
      [src/src/proxy/service.rs], the entry point that composes the rest, and
      [DataApi] the endpoints of [src/src/api/proxy.rs] around it.
    - [Runtime] models [src/src/runtime.rs]: starting on the tables that are found,
      with what [migrate] of [src/src/infra/db.rs] repairs in them each time,
      and the command line of the operations.

    ** What is shown

    - Requests: nothing is sent upstream without authorization and a resolved
      route; checks fail in a fixed order with their own statuses; the list of
      models is exactly what has an available account; credentials
      of clients are never forwarded; outbound targets stay within the URL
      policy.
    - Policies: bounds on attempts and requests, numbering, and that the client
      is told of success exactly when an attempt succeeded; the weighted choice
      is proportional.
    - Streams: the bytes of the upstream pass through unchanged apart from
      heartbeats at frame boundaries and at most one closing frame, which is
      read back as the failure it reports; tracking does not depend on chunking
      and its memory is bounded.
    - Accounting: a stream is observed exactly once, a usage event is written
      exactly once in spite of retries and ambiguous commits, reports merge to
      the last reported counters, and admission is bounded and drained.
    - Health: both back ends refine one circuit breaker, which opens at its
      threshold, closes on success, and keeps its tables well formed; a batch of
      probes records one test per account and touches no other; the health
      report agrees with what the data plane routes by.
    - Configuration: validation and resolution agree, resolution picks the best
      candidate, capabilities are intersected soundly, snapshots are closed and
      publish exactly what can be routed, and reloads converge.
    - Control plane: a write publishes the snapshot of the tables it leaves,
      one revision later, or changes nothing; references, unique keys and
      statuses of the tables are never broken; apart from imports, which check neither, the active
      bindings of a model stay in one provider family and enabled routes never
      overlap; the lines of a resolved route are eligible bindings of the
      tables, all of them when routes do not overlap, by priority, and published accounts are rows of them.
    - Operations: a cleanup deletes only rows that the policies it goes by
      have expired, whatever happens meanwhile, finishes within the batches it needs, and is
      never changed once completed; an export carries no credential and passes
      the checks of an import, and its download can be uploaded as it is; a
      restore is verified or leaves the control plane as it was.
    - Events: whatever is recorded fits the table and shows no secret; every
      outage of the database is reported once, as a failure with its time and a
      recovery, none is forgotten, and a retried recovery closes it; reading the
      feed from cursor to cursor yields every event once, in order.
    - Usage reports: the statements built at run time select what the filter
      says; totals, series and breakdown agree; the pages hold every event once;
      an export is complete or refused, and its CSV is read back exactly; every
      option offered for a filter selects an event, and none is missing.
    - Quota: requests go only where an account may be asked, with its own
      credential; percentages and status are sound whatever is answered; a
      failure shows fixed texts.
    - Catalogue: a discovery changes exactly what it found, keeps the user's
      fields and confirmations, and leaves rows that can be read back; presets
      install idempotently; their difference is complete and minimal.
    - Credentials: what is encrypted for an account is read back for it, across
      key rotation, and never for another account.
    - Keys: revoked and rotated-out keys never authenticate, rotation hands
      over without a gap, and what is revealed later is the key that was given.
    - Admin API: no handler runs without the admin key, every change leaves one
      audit row, which fits its table and depends on no value of the body; and
      however handlers and restores interleave, when all have answered the live
      snapshot is that of the tables as a commit at their present revision left
      them (what discoveries and confirmations commit waits for the next
      publication).
    - Process: a start imports a configuration only into empty tables unless it
      is forced to and serves what its tables say; repeated, it changes only
      what the replayed migrations repair, and then nothing.

    ** Bounds and fuel

    The difference of two JSON values takes their size as fuel, which is shown
    to be enough; the rounds of a cleanup recurse on [max_batches], the bound
    the source loops to; the readers of the event feed and of the usage events ([read_all]) take
    one step more than there are rows, and are shown to end; no other modelled function needs fuel; the JSON reader of the examples and the
    reference search for reasoning blocks take the length of their input.  A
    polled stream is run on the list of its turns, a future on the list of its
    events, and is still [Waiting] when the list runs out.  Integers are [Z] with
    the wrap-around or saturation of the source written out at each operation
    that can overflow.

    ** Not modelled

    SQL text, except that of the usage events (a query is its effect on the modelled table; a JSON column holds
    the value written to it; write transactions are serializable, so they are
    a sequence; clocks, sequences and the row PostgreSQL picks under [LIMIT]
    without an order are the class [ControlEnv]), lost connections in the
    control plane, the HTTP client and server, tracing and metrics, the tokenizer, SHA-256, AES-GCM
    and base64, the [url] and [ipnet] crates: parameters, or omitted where they
    have no effect on a result.  The events the control plane and the health
    registry record are left out of their models, as recording cannot fail
    them.  Of the admin API, the schema metadata, a fixed query, and the metrics
    page are not modelled.  Neither are the background tasks, the connection pool and
    the signals of [src/src/runtime.rs] and [main.rs], nor the events that are
    recorded during a start, the first migration of a database, and the repairs of
    the usage, audit and key tables that later starts replay. *)

From Stdlib Require Import ZArith Lia.
From stdpp Require Import base gmap list strings pretty.

#[global] Open Scope string_scope.
#[global] Open Scope list_scope.
#[global] Open Scope Z_scope.

#[global] Arguments String.append !_ _ / : simpl nomatch.
#[global] Arguments String.eqb !_ !_ / : simpl nomatch.

(** ** Results

    Rust's [Result<T, E>]; [?] is [rbind]. *)
Inductive result (A E : Type) : Type :=
| Ok (a : A)
| Err (e : E).
Arguments Ok {A E} a.
Arguments Err {A E} e.

Definition rbind {A B E} (r : result A E) (f : A -> result B E) : result B E :=
  match r with Ok a => f a | Err e => Err e end.

Definition map_err {A E F} (f : E -> F) (r : result A E) : result A F :=
  match r with Ok a => Ok a | Err e => Err (f e) end.

Definition ok_or {A E} (o : option A) (e : E) : result A E :=
  match o with Some a => Ok a | None => Err e end.

Definition rok {A E} (r : result A E) : option A :=
  match r with Ok a => Some a | Err _ => None end.

Lemma Ok_inj {A E} (x y : A) : @Ok A E x = Ok y -> x = y.
Proof. by intros [= ->]. Qed.

Definition is_ok {A E} (r : result A E) : bool :=
  match r with Ok _ => true | Err _ => false end.

Declare Scope gw_scope.
Delimit Scope gw_scope with gw.

Notation "'let?' x ':=' c 'in' k" := (rbind c (fun x => k))
  (at level 10, x name, c at level 100, k at level 200) : gw_scope.
Notation "s '=?s' t" := (String.eqb s t) (at level 70, no associativity) : gw_scope.
#[global] Open Scope gw_scope.

(** ** Options *)
Definition is_some {A} (o : option A) : bool := match o with Some _ => true | None => false end.
Definition is_some_and {A} (o : option A) (p : A -> bool) : bool :=
  match o with Some a => p a | None => false end.
Definition is_none_or {A} (o : option A) (p : A -> bool) : bool :=
  match o with Some a => p a | None => true end.
Definition opt_or {A} (o1 o2 : option A) : option A :=
  match o1 with Some a => Some a | None => o2 end.
Definition opt_filter {A} (p : A -> bool) (o : option A) : option A :=
  match o with Some a => if p a then Some a else None | None => None end.
Definition unwrap_or {A} (o : option A) (d : A) : A :=
  match o with Some a => a | None => d end.
(** [b.then(|| x)]. *)
Definition then_some {A} (b : bool) (x : A) : option A := if b then Some x else None.

(** ** Machine integers *)
Definition U32_MAX : Z := 2 ^ 32 - 1.
Definition U64_MAX : Z := 2 ^ 64 - 1.
Definition U128_MAX : Z := 2 ^ 128 - 1.
Definition I32_MAX : Z := 2 ^ 31 - 1.
Definition I64_MAX : Z := 2 ^ 63 - 1.
Definition I64_MIN : Z := - 2 ^ 63.
(** Wrap-around of the unsigned and signed types of the release build. *)
Definition wrap_u (w z : Z) : Z := z mod 2 ^ w.
Definition wrap_i (w z : Z) : Z := (z + 2 ^ (w - 1)) mod 2 ^ w - 2 ^ (w - 1).
Definition sat_add (mx a b : Z) : Z := Z.min mx (a + b).
Definition sat_sub (a b : Z) : Z := Z.max 0 (a - b).

Lemma wrap_u_small w z : 0 <= z < 2 ^ w -> wrap_u w z = z.
Proof. apply Z.mod_small. Qed.

Lemma wrap_i_small w z :
  0 < w -> - 2 ^ (w - 1) <= z < 2 ^ (w - 1) -> wrap_i w z = z.
Proof.
  intros Hw Hz. unfold wrap_i.
  assert (2 ^ w = 2 * 2 ^ (w - 1)) as Hp.
  { rewrite <- Z.pow_succ_r by lia. f_equal. lia. }
  rewrite Z.mod_small; lia.
Qed.

(** ** Association lists: a [HashMap] with its iteration order

    The iteration order of a Rust [HashMap] is arbitrary but fixed while the
    map is not changed, and the source both looks keys up and iterates; a map
    is therefore the list of its entries in iteration order.  Its keys are
    distinct ([hm_wf]). *)
Section HashMap.
Context {K V : Type} `{EqDecision K}.

Definition hm_get (m : list (K * V)) (k : K) : option V :=
  snd <$> List.find (fun kv => bool_decide (kv.1 = k)) m.

#[global] Arguments hm_get : simpl never.

Definition hm_contains (m : list (K * V)) (k : K) : bool := is_some (hm_get m k).

(** [HashMap::insert]: replaces the value of a present key. *)
Fixpoint hm_insert (m : list (K * V)) (k : K) (v : V) : list (K * V) :=
  match m with
  | [] => [(k, v)]
  | kv :: m' => if bool_decide (kv.1 = k) then (k, v) :: m' else kv :: hm_insert m' k v
  end.

(** [HashMap::extend]. *)
Definition hm_extend (m l : list (K * V)) : list (K * V) :=
  fold_left (fun acc kv => hm_insert acc kv.1 kv.2) l m.

Definition hm_remove (m : list (K * V)) (k : K) : list (K * V) :=
  List.filter (fun kv => negb (bool_decide (kv.1 = k))) m.

Definition hm_wf (m : list (K * V)) : Prop := NoDup m.*1.

Lemma hm_get_nil k : hm_get [] k = None.
Proof. done. Qed.

Lemma hm_get_cons k' v m k :
  hm_get ((k', v) :: m) k = if bool_decide (k' = k) then Some v else hm_get m k.
Proof. unfold hm_get. cbn. by case_bool_decide. Qed.

Lemma hm_get_Some_in m k v : hm_get m k = Some v -> (k, v) ∈ m.
Proof.
  induction m as [|[k' v'] m IH]; [done|]. rewrite hm_get_cons.
  case_bool_decide as Hk; intros [= ]; subst; [apply list_elem_of_here|].
  apply list_elem_of_further. auto.
Qed.

Lemma hm_get_in m k v : hm_wf m -> (k, v) ∈ m -> hm_get m k = Some v.
Proof.
  unfold hm_wf. induction m as [|[k' v'] m IH]; intros Hnd Hin; [by apply not_elem_of_nil in Hin|].
  cbn in Hnd. apply NoDup_cons in Hnd as [Hk Hnd]. rewrite hm_get_cons.
  apply elem_of_cons in Hin as [[= -> ->]|Hin].
  - by rewrite bool_decide_true.
  - rewrite bool_decide_false; [auto|]. intros ->. apply Hk.
    apply list_elem_of_fmap. by exists (k, v).
Qed.

Lemma hm_get_iff m k v : hm_wf m -> hm_get m k = Some v <-> (k, v) ∈ m.
Proof. split; [apply hm_get_Some_in | by apply hm_get_in]. Qed.

Lemma hm_get_insert m k v k' :
  hm_get (hm_insert m k v) k' = if bool_decide (k = k') then Some v else hm_get m k'.
Proof.
  induction m as [|[k1 v1] m IH]; cbn [hm_insert fst]; [by rewrite hm_get_cons|].
  destruct (decide (k1 = k)) as [->|Hk].
  - rewrite (bool_decide_true (k = k)) by done. rewrite !hm_get_cons. by case_bool_decide.
  - rewrite (bool_decide_false (k1 = k)) by done. rewrite !hm_get_cons, IH.
    repeat case_bool_decide; congruence.
Qed.

(** Lookup does not depend on the iteration order. *)
Lemma hm_get_perm m m' k : hm_wf m -> m ≡ₚ m' -> hm_get m k = hm_get m' k.
Proof.
  intros Hwf Hp. assert (hm_wf m') as Hwf'.
  { unfold hm_wf in *. by rewrite <- Hp. }
  apply option_eq; intros v. rewrite !hm_get_iff by done. by rewrite Hp.
Qed.
End HashMap.

(** ** Automation

    [gw_db] collects the lemmas the components export for their clients. *)
Create HintDb gw_db.

(** Turn the boolean tests of the code into propositions. *)
Ltac bool_to_prop :=
  repeat match goal with
  | H : (_ =?s _) = true |- _ => apply String.eqb_eq in H
  | H : (_ =?s _) = false |- _ => apply String.eqb_neq in H
  | H : (_ <? _) = true |- _ => apply Z.ltb_lt in H
  | H : (_ <? _) = false |- _ => apply Z.ltb_ge in H
  | H : (_ <=? _) = true |- _ => apply Z.leb_le in H
  | H : (_ <=? _) = false |- _ => apply Z.leb_gt in H
  | H : (_ =? _) = true |- _ => apply Z.eqb_eq in H
  | H : (_ =? _) = false |- _ => apply Z.eqb_neq in H
  | H : bool_decide _ = true |- _ => apply bool_decide_eq_true in H
  | H : bool_decide _ = false |- _ => apply bool_decide_eq_false in H
  | H : (_ && _) = true |- _ => apply andb_true_iff in H as [? ?]
  | H : (_ || _) = false |- _ => apply orb_false_iff in H as [? ?]
  | H : negb _ = true |- _ => apply negb_true_iff in H
  | H : negb _ = false |- _ => apply negb_false_iff in H
  end.

(** Split every [match] and [if] the goal or a hypothesis is stuck on. *)
Ltac split_match :=
  match goal with
  | |- context [match ?x with _ => _ end] => destruct x eqn:?
  | H : context [match ?x with _ => _ end] |- _ => destruct x eqn:?
  end.

Ltac gw_crush := repeat (split_match; simplify_eq/=; try done); bool_to_prop; eauto with gw_db.

(** Generic list facts. *)
Lemma find_Some_iff_first {A} (p : A -> bool) l x :
  List.find p l = Some x <->
  exists l1 l2, l = l1 ++ x :: l2 /\ p x = true /\ Forall (fun y => p y = false) l1.
Proof.
  split.
  - induction l as [|y l IH]; [done|]. cbn. destruct (p y) eqn:Hy.
    + intros [= ->]. exists [], l. by repeat split.
    + intros (l1 & l2 & -> & Hx & Hl)%IH. exists (y :: l1), l2. repeat split; auto.
  - intros (l1 & l2 & -> & Hx & Hl). induction Hl as [|y l1 Hy _ IH]; cbn; [by rewrite Hx|].
    by rewrite Hy.
Qed.

Lemma find_None_Forall {A} (p : A -> bool) l :
  List.find p l = None <-> Forall (fun y => p y = false) l.
Proof.
  induction l as [|y l IH]; cbn; [by split; constructor|].
  destruct (p y) eqn:Hy; split; try done.
  - intros H%Forall_cons. destruct H; congruence.
  - intros H. constructor; [done | by apply IH].
  - intros [_ H]%Forall_cons. by apply IH.
Qed.

Lemma fold_left_ext {A B} (f g : A -> B -> A) l a :
  (forall a b, f a b = g a b) -> fold_left f l a = fold_left g l a.
Proof. intros Hfg. revert a. induction l as [|b l IH]; intros a; cbn; [done|]. by rewrite Hfg. Qed.
