(* ===== verification/RustStr.v ===== *)
(** * Rust strings and byte slices

    A Rocq [string] is a sequence of 8-bit characters, so it models both a
    [&[u8]] and the UTF-8 bytes of a [&str].  The functions below are the
    methods of [str] and [[u8]] of Rust's standard library that the gateway
    calls; white space is Unicode [White_Space], as in [str::trim]. *)

From Stdlib Require Import ZArith Lia Ascii.
From stdpp Require Import base list strings pretty.
From S2P Require Import Prelude.

(** The value of a byte. *)
Definition byte_val (a : ascii) : Z := Z.of_N (N_of_ascii a).
Definition chr (z : Z) : ascii := ascii_of_N (Z.to_N z).

Lemma byte_val_range a : 0 <= byte_val a < 256.
Proof. unfold byte_val. pose proof (N_ascii_bounded a). lia. Qed.

Definition byte_in (a : ascii) (lo hi : Z) : bool := (lo <=? byte_val a) && (byte_val a <=? hi).

Definition LF : ascii := chr 10.
Definition CR : ascii := chr 13.
Definition slen (s : string) : Z := Z.of_nat (String.length s).
Definition is_empty (s : string) : bool := s =?s "".
(** A one-byte string. *)
Definition bstr (a : ascii) : string := String a "".

(** ** Prefixes and suffixes *)

Fixpoint strip_prefix (p s : string) : option string :=
  match p, s with
  | EmptyString, _ => Some s
  | String a p', String b s' => if Ascii.eqb a b then strip_prefix p' s' else None
  | String _ _, EmptyString => None
  end.

Definition starts_with (s p : string) : bool := is_some (strip_prefix p s).

Fixpoint strip_suffix (p s : string) : option string :=
  if s =?s p then Some "" else
  match s with
  | EmptyString => None
  | String a s' => String a <$> strip_suffix p s'
  end.

Definition ends_with (s p : string) : bool := is_some (strip_suffix p s).

Lemma strip_prefix_Some p s r : strip_prefix p s = Some r <-> s = p +:+ r.
Proof.
  revert s. induction p as [|a p IH]; intros s; cbn; [split; congruence|].
  destruct s as [|b s]; [done|].
  destruct (Ascii.eqb_spec a b) as [->|Hab]; [|split; congruence].
  rewrite IH. split; [by intros ->|]. by intros [= ->].
Qed.

Lemma strip_suffix_Some p s r : strip_suffix p s = Some r -> s = r +:+ p.
Proof.
  revert r. induction s as [|a s IH]; intros r; cbn.
  - destruct (String.eqb_spec "" p) as [<-|]; [by intros [= <-]|]. discriminate.
  - destruct (String.eqb_spec (String a s) p) as [<-|Hp]; [by intros [= <-]|].
    destruct (strip_suffix p s) eqn:E; cbn; [|done]. intros [= <-]. cbn. f_equal. auto.
Qed.

Lemma strip_suffix_app s p : strip_suffix p (s +:+ p) = Some s.
Proof.
  induction s as [|a s IH].
  - change ("" +:+ p) with p. destruct p; [done|]. cbn [strip_suffix]. by rewrite String.eqb_refl.
  - change (String a s +:+ p) with (String a (s +:+ p)). cbn [strip_suffix].
    destruct (String.eqb_spec (String a (s +:+ p)) p) as [He|_]; [|by rewrite IH].
    apply (f_equal String.length) in He. cbn in He. assert (forall u v, String.length (u +:+ v) = (String.length u + String.length v)%nat) as Hl.
    { induction u as [|b u IHu]; intros v; [done|]. change (String b u +:+ v) with (String b (u +:+ v)). cbn. by rewrite IHu. }
    rewrite Hl in He. lia.
Qed.

Lemma starts_with_spec s p : starts_with s p = true <-> exists r, s = p +:+ r.
Proof.
  unfold starts_with. destruct (strip_prefix p s) as [r|] eqn:E; cbn.
  - apply strip_prefix_Some in E. split; eauto.
  - split; [done|]. intros [r Hr%strip_prefix_Some]. congruence.
Qed.

Lemma strip_prefix_app p r : strip_prefix p (p +:+ r) = Some r.
Proof. by apply strip_prefix_Some. Qed.

Lemma starts_with_app p r : starts_with (p +:+ r) p = true.
Proof. unfold starts_with. by rewrite strip_prefix_app. Qed.

Lemma string_app_length s t : String.length (s +:+ t) = (String.length s + String.length t)%nat.
Proof. induction s; cbn; congruence. Qed.

Lemma string_app_assoc s t u : (s +:+ t) +:+ u = s +:+ (t +:+ u).
Proof. induction s as [|a s IH]; cbn; [done|]. by f_equal. Qed.

Lemma string_app_nil_r s : s +:+ "" = s.
Proof. induction s as [|a s IH]; cbn; [done|]. by f_equal. Qed.

(** [&s[..s.len() - 1]]: the callers test a one-byte suffix first. *)
Fixpoint drop_last (s : string) : string :=
  match s with
  | EmptyString => ""
  | String a EmptyString => ""
  | String a s' => String a (drop_last s')
  end.

Lemma drop_last_app s a : drop_last (s +:+ bstr a) = s.
Proof.
  induction s as [|b s IH]; [done|]. cbn. rewrite IH.
  destruct s; done.
Qed.

(** [Vec::remove(0)]. *)
Definition remove_first (s : string) : string :=
  match s with String _ t => t | EmptyString => "" end.

(** ** Trimming one character *)

Fixpoint trim_start_matches (c : ascii) (s : string) : string :=
  match s with
  | String a s' => if Ascii.eqb a c then trim_start_matches c s' else s
  | EmptyString => ""
  end.

Fixpoint trim_end_matches (c : ascii) (s : string) : string :=
  match s with
  | EmptyString => ""
  | String a s' =>
      let r := trim_end_matches c s' in
      if is_empty r && Ascii.eqb a c then "" else String a r
  end.

(** ** Unicode white space

    The UTF-8 encodings of the characters with property [White_Space]: one
    byte (9-13, 32), two bytes (U+0085, U+00A0) or three (U+1680,
    U+2000-U+200A, U+2028, U+2029, U+202F, U+205F, U+3000). *)
Definition ws1 (a : ascii) : bool := byte_in a 9 13 || byte_in a 32 32.
Definition ws2 (a b : ascii) : bool :=
  byte_in a 194 194 && (byte_in b 133 133 || byte_in b 160 160).
Definition ws3 (a b c : ascii) : bool :=
  (byte_in a 225 225 && byte_in b 154 154 && byte_in c 128 128)
  || (byte_in a 226 226 && byte_in b 128 128
        && (byte_in c 128 138 || byte_in c 168 169 || byte_in c 175 175))
  || (byte_in a 226 226 && byte_in b 129 129 && byte_in c 159 159)
  || (byte_in a 227 227 && byte_in b 128 128 && byte_in c 128 128).

Fixpoint trim_start (s : string) : string :=
  match s with
  | EmptyString => ""
  | String a t =>
      if ws1 a then trim_start t else
      match t with
      | EmptyString => s
      | String b u =>
          if ws2 a b then trim_start u else
          match u with
          | EmptyString => s
          | String c v => if ws3 a b c then trim_start v else s
          end
      end
  end.

(** The suffix that is all white space is dropped; no proper suffix of a
    valid UTF-8 character begins a white-space character, so the cut is at a
    character boundary. *)
Fixpoint trim_end (s : string) : string :=
  match s with
  | EmptyString => ""
  | String a t => if is_empty (trim_start s) then "" else String a (trim_end t)
  end.

Definition trim (s : string) : string := trim_end (trim_start s).

(** [u8::is_ascii_whitespace] (no vertical tab). *)
Definition is_ascii_whitespace (a : ascii) : bool :=
  byte_in a 9 10 || byte_in a 12 13 || byte_in a 32 32.

(** ** Case, search and splitting *)

Fixpoint smap (f : ascii -> ascii) (s : string) : string :=
  match s with EmptyString => "" | String a t => String (f a) (smap f t) end.

Definition ascii_lower (a : ascii) : ascii :=
  if byte_in a 65 90 then chr (byte_val a + 32) else a.
Definition to_ascii_lowercase (s : string) : string := smap ascii_lower s.

Fixpoint sall (p : ascii -> bool) (s : string) : bool :=
  match s with EmptyString => true | String a t => p a && sall p t end.
Definition sany (p : ascii -> bool) (s : string) : bool := negb (sall (fun a => negb (p a)) s).

Definition contains_char (s : string) (c : ascii) : bool := sany (Ascii.eqb c) s.

Fixpoint contains_str (s p : string) : bool :=
  starts_with s p || match s with EmptyString => false | String _ t => contains_str t p end.

(** [str::split_once(c)]. *)
Fixpoint split_once (c : ascii) (s : string) : option (string * string) :=
  match s with
  | EmptyString => None
  | String a t =>
      if Ascii.eqb a c then Some ("", t)
      else match split_once c t with Some (l, r) => Some (String a l, r) | None => None end
  end.

(** [str::split(c)]: always at least one piece. *)
Fixpoint split_char (c : ascii) (s : string) : list string :=
  match s with
  | EmptyString => [""]
  | String a t =>
      if Ascii.eqb a c then "" :: split_char c t
      else match split_char c t with
           | p :: ps => String a p :: ps
           | [] => [bstr a]
           end
  end.

(** [<[u8]>::split_inclusive(|b| b == c)]: every piece but the last ends with
    [c]; a trailing empty piece is not produced. *)
Fixpoint split_inclusive (c : ascii) (s : string) : list string :=
  match s with
  | EmptyString => []
  | String a t =>
      if Ascii.eqb a c then bstr a :: split_inclusive c t
      else match split_inclusive c t with
           | p :: ps => String a p :: ps
           | [] => [bstr a]
           end
  end.

(** [str::lines]. *)
Definition drop_trailing_cr (s : string) : string := unwrap_or (strip_suffix (bstr CR) s) s.
Definition lines (s : string) : list string :=
  map (fun piece => match strip_suffix (bstr LF) piece with
                    | Some l => drop_trailing_cr l
                    | None => piece
                    end) (split_inclusive LF s).

(** [str::split_whitespace().next()]. *)
Fixpoint take_until_ws (s : string) : string :=
  match s with
  | EmptyString => ""
  | String a t =>
      if ws1 a then "" else
      match t with
      | String b (String c _) => if ws2 a b || ws3 a b c then "" else String a (take_until_ws t)
      | String b EmptyString => if ws2 a b then "" else String a (take_until_ws t)
      | EmptyString => String a ""
      end
  end.
Definition split_whitespace_next (s : string) : option string :=
  let t := trim_start s in if is_empty t then None else Some (take_until_ws t).

Fixpoint join (sep : string) (l : list string) : string :=
  match l with
  | [] => ""
  | [s] => s
  | s :: l' => s +:+ sep +:+ join sep l'
  end.

(** ** Numbers *)

(** [str::parse::<u64>] and [::<u32>]: an optional [+], at least one digit,
    and an error on overflow. *)
Definition digit (a : ascii) : option Z :=
  if byte_in a 48 57 then Some (byte_val a - 48) else None.

Fixpoint parse_digits (mx acc : Z) (s : string) : option Z :=
  match s with
  | EmptyString => Some acc
  | String a t =>
      match digit a with
      | Some d => if acc * 10 + d <=? mx then parse_digits mx (acc * 10 + d) t else None
      | None => None
      end
  end.

Definition parse_uint (mx : Z) (s : string) : option Z :=
  match s with
  | EmptyString => None
  | String a t =>
      if Ascii.eqb a "+"%char then (if is_empty t then None else parse_digits mx 0 t)
      else parse_digits mx 0 s
  end.

Lemma digit_range a d : digit a = Some d -> 0 <= d <= 9.
Proof. unfold digit, byte_in. intros. gw_crush. lia. Qed.

Lemma parse_digits_range mx acc s n :
  0 <= acc <= mx -> parse_digits mx acc s = Some n -> 0 <= n <= mx.
Proof.
  revert acc. induction s as [|a s IH]; intros acc Hacc; cbn; [congruence|].
  destruct (digit a) as [d|] eqn:Hd; [|done]. apply digit_range in Hd.
  destruct (_ <=? _) eqn:Hle; [|done]. bool_to_prop. apply IH. lia.
Qed.

Lemma parse_uint_range mx s n : 0 <= mx -> parse_uint mx s = Some n -> 0 <= n <= mx.
Proof. 
  unfold parse_uint. intros Hmx. destruct s as [|a t]; [done|].
  assert (forall u, parse_digits mx 0 u = Some n -> 0 <= n <= mx) as Hd.
  { intros u. apply parse_digits_range. lia. }
  destruct (Ascii.eqb _ _); [destruct (is_empty t); [done|]|]; apply Hd.
Qed.

(** [str::parse] of a signed integer type with values in [lo..=hi]. *)
Definition parse_int (lo hi : Z) (s : string) : option Z :=
  match s with
  | String a t =>
      if Ascii.eqb a "-"%char then (if is_empty t then None else Z.opp <$> parse_digits (- lo) 0 t)
      else parse_uint hi s
  | EmptyString => None
  end.

(** Decimal rendering of integers in [format!]. *)
Definition dec (z : Z) : string := pretty z.

(** ** UTF-8 decoding with replacement

    [String::from_utf8_lossy]: each maximal invalid prefix becomes U+FFFD
    (EF BF BD). *)
Definition REPLACEMENT : string := String (chr 239) (String (chr 191) (bstr (chr 189))).
Definition cont (a : ascii) : bool := byte_in a 128 191.
Definition second3 (a b : ascii) : bool :=
  (byte_in a 224 224 && byte_in b 160 191)
  || (byte_in a 225 236 && cont b)
  || (byte_in a 237 237 && byte_in b 128 159)
  || (byte_in a 238 239 && cont b).
Definition second4 (a b : ascii) : bool :=
  (byte_in a 240 240 && byte_in b 144 191)
  || (byte_in a 241 243 && cont b)
  || (byte_in a 244 244 && byte_in b 128 143).

Fixpoint from_utf8_lossy (s : string) : string :=
  match s with
  | EmptyString => ""
  | String a t =>
      if byte_in a 0 127 then String a (from_utf8_lossy t) else
      match t with
      | EmptyString => REPLACEMENT
      | String b u =>
          if byte_in a 194 223 && cont b then String a (String b (from_utf8_lossy u))
          else if second3 a b then
            match u with
            | EmptyString => REPLACEMENT
            | String c v =>
                if cont c then String a (String b (String c (from_utf8_lossy v)))
                else REPLACEMENT +:+ from_utf8_lossy u
            end
          else if second4 a b then
            match u with
            | EmptyString => REPLACEMENT
            | String c v =>
                if cont c then
                  match v with
                  | EmptyString => REPLACEMENT
                  | String d w =>
                      if cont d then String a (String b (String c (String d (from_utf8_lossy w))))
                      else REPLACEMENT +:+ from_utf8_lossy v
                  end
                else REPLACEMENT +:+ from_utf8_lossy u
            end
          else REPLACEMENT +:+ from_utf8_lossy t
      end
  end.

(** Lower-case hexadecimal, two digits per byte. *)
Definition hex_digit (n : Z) : ascii := if n <? 10 then chr (48 + n) else chr (87 + n).
Fixpoint hex_lower (s : string) : string :=
  match s with
  | EmptyString => EmptyString
  | String a s => String (hex_digit (byte_val a / 16)) (String (hex_digit (byte_val a mod 16)) (hex_lower s))
  end.

(** ASCII text is its own lossy decoding. *)
Definition is_ascii (s : string) : bool := sall (fun a => byte_in a 0 127) s.

(** [chars().take(n)]: a character starts at a byte that continues none. *)
Fixpoint take_chars (n : nat) (s : string) : string :=
  match s with
  | EmptyString => ""
  | String a t =>
      if cont a then String a (take_chars n t)
      else match n with O => "" | S n => String a (take_chars n t) end
  end.

(** [chars().filter(|c| !c.is_control())]: the control characters are the
    bytes below space, DEL, and the two-byte characters U+0080 to U+009F. *)
Definition is_control1 (a : ascii) : bool := byte_in a 0 31 || byte_in a 127 127.
Definition is_control2 (a b : ascii) : bool := byte_in a 194 194 && byte_in b 128 159.
Fixpoint drop_controls (s : string) : string :=
  match s with
  | EmptyString => ""
  | String a t =>
      if is_control1 a then drop_controls t
      else match t with
           | String b u => if is_control2 a b then drop_controls u else String a (drop_controls t)
           | EmptyString => String a ""
           end
  end.

Lemma from_utf8_lossy_ascii s : is_ascii s = true -> from_utf8_lossy s = s.
Proof.
  induction s as [|a s IH]; [done|]. unfold is_ascii in *. cbn [sall]. intros H. bool_to_prop.
  cbn [from_utf8_lossy]. rewrite H. f_equal. auto.
Qed.

(** ** Facts about trimming *)

Lemma trim_start_not_ws s a t :
  trim_start s = String a t -> ws1 a = false.
Proof.
  remember (String.length s) as n eqn:Hn. revert s Hn.
  induction n as [n IH] using lt_wf_ind. intros s -> Ht.
  destruct s as [|b s]; [done|]. cbn in Ht.
  destruct (ws1 b) eqn:Hb; [eapply IH; [|done|done]; cbn; lia|].
  destruct s as [|c s]; [congruence|].
  destruct (ws2 b c); [eapply IH; [|done|done]; cbn; lia|].
  destruct s as [|d s]; [congruence|].
  destruct (ws3 b c d); [eapply IH; [|done|done]; cbn; lia|congruence].
Qed.

(** The result never ends with the trimmed character. *)
Lemma trim_end_matches_spec c s r : trim_end_matches c s <> r +:+ bstr c.
Proof.
  unfold bstr. revert r. induction s as [|a s IH]; intros r; cbn.
  - by destruct r.
  - destruct (is_empty _) eqn:He; cbn.
    + apply String.eqb_eq in He. rewrite He. destruct (Ascii.eqb_spec a c) as [->|Hac]; cbn.
      * by destruct r.
      * destruct r as [|b r]; cbn; [congruence|]. destruct r; cbn; congruence.
    + destruct r as [|b r]; cbn.
      * intros [= -> Hs]. unfold is_empty in He. by rewrite Hs in He.
      * intros [= -> Hs]. by apply (IH r).
Qed.

Lemma trim_start_matches_spec c s r : trim_start_matches c s <> String c r.
Proof.
  induction s as [|a s IH]; cbn; [done|].
  destruct (Ascii.eqb_spec a c) as [->|Hac]; [done|]. congruence.
Qed.

(** Error texts stay folded in the proofs about the code that builds them. *)
#[global] Arguments String.append : simpl never.

Lemma trim_start_ascii a s : byte_in a 33 126 = true -> trim_start (String a s) = String a s.
Proof.
  intros Ha. unfold byte_in in Ha. bool_to_prop.
  assert (ws1 a = false) as H1.
  { unfold ws1, byte_in. apply orb_false_iff. rewrite !andb_false_iff, !Z.leb_gt. lia. }
  assert (forall b, ws2 a b = false) as H2.
  { intros b. unfold ws2. apply andb_false_iff. left. unfold byte_in.
    rewrite andb_false_iff, !Z.leb_gt. lia. }
  assert (forall b c, ws3 a b c = false) as H3.
  { intros b c. unfold ws3. rewrite !orb_false_iff, !andb_false_iff.
    unfold byte_in at 1 4 9 12. rewrite !andb_false_iff, !Z.leb_gt. repeat split; lia. }
  cbn [trim_start]. rewrite H1. destruct s as [|b s]; [done|]. rewrite H2.
  destruct s as [|c s]; [done|]. by rewrite H3.
Qed.

Lemma trim_start_space s : trim_start (String " " s) = trim_start s.
Proof. done. Qed.

Lemma trim_start_visible x a : byte_in a 33 126 = true -> trim_start (x +:+ bstr a) <> "".
Proof.
  intros Ha. remember (String.length x) as n eqn:Hn. revert x Hn.
  induction n as [n IH] using lt_wf_ind. intros x ->.
  destruct x as [|b x].
  { change ("" +:+ bstr a) with (bstr a). unfold bstr. by rewrite trim_start_ascii. }
  change (String b x +:+ bstr a) with (String b (x +:+ bstr a)). cbn [trim_start].
  destruct (ws1 b); [eapply IH; [|done]; cbn; lia|].
  assert (forall c d, ws2 c a = false /\ ws3 c d a = false /\ ws3 c a d = false) as Hno.
  { unfold byte_in in Ha. bool_to_prop. intros c d. unfold ws2, ws3, byte_in.
    rewrite !orb_false_iff, !andb_false_iff, !orb_false_iff, !andb_false_iff, !Z.leb_gt.
    repeat split; try lia; repeat first [left; lia | right; lia | right; repeat split; lia]. }
  destruct x as [|c x].
  { change ("" +:+ bstr a) with (bstr a). unfold bstr. by rewrite (proj1 (Hno b b)). }
  change (String c x +:+ bstr a) with (String c (x +:+ bstr a)). cbv iota beta.
  destruct (ws2 b c); [eapply IH; [|done]; cbn; lia|].
  destruct x as [|d x].
  { change ("" +:+ bstr a) with (bstr a). unfold bstr. by rewrite (proj1 (proj2 (Hno b c))). }
  change (String d x +:+ bstr a) with (String d (x +:+ bstr a)). cbv iota beta.
  destruct (ws3 b c d); [eapply IH; [|done]; cbn; lia|done].
Qed.

Lemma trim_end_visible x a : byte_in a 33 126 = true -> trim_end (x +:+ bstr a) = x +:+ bstr a.
Proof.
  intros Ha. assert (forall y, is_empty (trim_start (y +:+ bstr a)) = false) as Hne.
  { intros y. apply String.eqb_neq. by apply trim_start_visible. }
  induction x as [|b x IH].
  - pose proof (Hne "") as H0. change ("" +:+ bstr a) with (bstr a) in *. unfold bstr in *.
    cbn [trim_end]. by rewrite H0.
  - pose proof (Hne (String b x)) as H0.
    change (String b x +:+ bstr a) with (String b (x +:+ bstr a)) in *. cbn [trim_end].
    by rewrite H0, IH.
Qed.

(** Text between two visible characters is its own trimming. *)
Lemma trim_visible a x b :
  byte_in a 33 126 = true -> byte_in b 33 126 = true ->
  trim (String a (x +:+ bstr b)) = String a (x +:+ bstr b).
Proof.
  intros Ha Hb. unfold trim. rewrite trim_start_ascii by done.
  change (String a (x +:+ bstr b)) with (String a x +:+ bstr b). by apply trim_end_visible.
Qed.

Lemma sall_app p s t : sall p (s +:+ t) = sall p s && sall p t.
Proof.
  induction s as [|a s IH]; [done|]. change (String a s +:+ t) with (String a (s +:+ t)).
  cbn [sall]. by rewrite IH, andb_assoc.
Qed.

(** ** Splitting *)

Lemma split_char_cons c x t :
  sall (fun a => negb (Ascii.eqb a c)) x = true ->
  split_char c (x +:+ String c t) = x :: split_char c t.
Proof.
  induction x as [|a x IH]; intros Hx.
  - change ("" +:+ String c t) with (String c t). cbn [split_char]. by rewrite Ascii.eqb_refl.
  - change (String a x +:+ String c t) with (String a (x +:+ String c t)). cbn [sall] in Hx.
    apply andb_true_iff in Hx as [Ha%negb_true_iff Hx]. cbn [split_char]. by rewrite Ha, IH.
Qed.

Lemma split_char_last c x : sall (fun a => negb (Ascii.eqb a c)) x = true -> split_char c x = [x].
Proof.
  induction x as [|a x IH]; [done|]. cbn [sall split_char]. intros [Ha%negb_true_iff Hx]%andb_true_iff.
  by rewrite Ha, IH.
Qed.

Lemma sall_impl (p q : ascii -> bool) s :
  (forall a, p a = true -> q a = true) -> sall p s = true -> sall q s = true.
Proof.
  intros Hpq. induction s as [|a s IH]; [done|]. cbn [sall]. rewrite !andb_true_iff.
  intros [Ha Hs]. auto.
Qed.

Lemma contains_char_mid x c t : contains_char (x +:+ String c t) c = true.
Proof.
  unfold contains_char, sany. rewrite sall_app. cbn [sall]. rewrite Ascii.eqb_refl. cbn [negb andb].
  by rewrite andb_false_r.
Qed.

Lemma slen_app s t : slen (s +:+ t) = slen s + slen t.
Proof. unfold slen. rewrite string_app_length. lia. Qed.

Lemma slen_cons a s : slen (String a s) = slen s + 1.
Proof. unfold slen. cbn [String.length]. lia. Qed.

(** The last character of a text that has one. *)
Lemma string_last s : s <> "" -> exists x a, s = x +:+ bstr a.
Proof.
  induction s as [|a s IH]; [done|]. intros _. destruct s as [|b s].
  - by exists "", a.
  - destruct IH as (x & c & Hs); [done|]. exists (String a x), c.
    change (String a x +:+ bstr c) with (String a (x +:+ bstr c)). by rewrite <- Hs.
Qed.

(** Texts before the first [c] are determined by the whole. *)
Lemma app_sep_inj c x y s t :
  sall (fun a => negb (Ascii.eqb a c)) x = true -> sall (fun a => negb (Ascii.eqb a c)) y = true ->
  x +:+ String c s = y +:+ String c t -> x = y /\ s = t.
Proof.
  revert y. induction x as [|a x IH]; intros [|b y] Hx Hy He; cbn [sall] in *.
  - by injection He.
  - injection He as <- _. by rewrite Ascii.eqb_refl in Hy.
  - injection He as -> _. by rewrite Ascii.eqb_refl in Hx.
  - apply andb_true_iff in Hx as [_ Hx]. apply andb_true_iff in Hy as [_ Hy].
    injection He as -> He. destruct (IH _ Hx Hy He) as [-> ->]. done.
Qed.

(** ** Numbers survive their rendering *)

Definition is_digit (a : ascii) : bool := byte_in a 48 57.

Lemma pretty_char_digit d : (d < 10)%N -> digit (pretty_N_char d) = Some (Z.of_N d) /\ is_digit (pretty_N_char d) = true.
Proof.
  intros Hd. assert (Forall (fun d => digit (pretty_N_char d) = Some (Z.of_N d) /\ is_digit (pretty_N_char d) = true)
    (map N.of_nat (seq 0 10))) as Hall by (repeat constructor).
  rewrite Forall_forall in Hall. apply Hall, list_elem_of_fmap. exists (N.to_nat d).
  rewrite N2Nat.id, elem_of_seq. split; [done|lia].
Qed.

Lemma parse_pretty_go mx x s :
  Z.of_N x <= mx -> parse_digits mx 0 (pretty_N_go x s) = parse_digits mx (Z.of_N x) s.
Proof.
  revert s. induction (N.lt_wf_0 x) as [x _ IH]; intros s Hx.
  destruct (decide (x = 0)%N) as [->|Hx0]; [by rewrite pretty_N_go_0|]. rewrite pretty_N_go_step by lia.
  pose proof (N.div_mod x 10 ltac:(lia)) as Hdm. pose proof (N.mod_lt x 10 ltac:(lia)) as Hlt.
  set (q := (x `div` 10)%N) in *. set (r := (x `mod` 10)%N) in *.
  rewrite IH by lia. cbn [parse_digits]. rewrite (proj1 (pretty_char_digit _ Hlt)).
  replace (Z.of_N q * 10 + Z.of_N r) with (Z.of_N x) by lia.
  by rewrite (proj2 (Z.leb_le _ _) Hx).
Qed.

Lemma pretty_go_digits x s : sall is_digit s = true -> sall is_digit (pretty_N_go x s) = true.
Proof.
  revert s. induction (N.lt_wf_0 x) as [x _ IH]; intros s Hs.
  destruct (decide (x = 0)%N) as [->|Hx0]; [by rewrite pretty_N_go_0|]. rewrite pretty_N_go_step by lia.
  apply IH; [by apply N.div_lt; lia|]. cbn [sall]. rewrite Hs, andb_true_r.
  apply pretty_char_digit, N.mod_lt. lia.
Qed.

Lemma pretty_N_digits (x : N) : sall is_digit (pretty x) = true.
Proof. unfold pretty, pretty_N. case_decide; [done|]. by apply pretty_go_digits. Qed.

Lemma pretty_N_nonempty (x : N) : pretty x <> "".
Proof.
  unfold pretty, pretty_N. case_decide as Hx; [done|]. rewrite pretty_N_go_step by lia. intros Hs.
  assert (forall y s, s <> "" -> pretty_N_go y s <> "") as Hgo; [|by eapply Hgo in Hs].
  clear. intros y. induction (N.lt_wf_0 y) as [y _ IH]; intros s Hs.
  destruct (decide (y = 0)%N) as [->|Hy]; [by rewrite pretty_N_go_0|]. rewrite pretty_N_go_step by lia.
  apply IH; [by apply N.div_lt; lia|done].
Qed.

Lemma parse_pretty_N mx (x : N) : Z.of_N x <= mx -> parse_digits mx 0 (pretty x) = Some (Z.of_N x).
Proof.
  intros Hx. unfold pretty, pretty_N. case_decide as H0.
  { subst x. change (parse_digits mx 0 "0") with (if 0 <=? mx then Some 0 else None).
    by rewrite (proj2 (Z.leb_le 0 mx) Hx). }
  by rewrite parse_pretty_go.
Qed.

Lemma parse_uint_dec mx (x : N) : Z.of_N x <= mx -> parse_uint mx (pretty x) = Some (Z.of_N x).
Proof.
  intros Hx. pose proof (parse_pretty_N mx x Hx) as Hp. pose proof (pretty_N_digits x) as Hd.
  pose proof (pretty_N_nonempty x) as Hn. destruct (pretty x) as [|a t] eqn:E; [done|]. cbn [parse_uint].
  destruct (Ascii.eqb_spec a "+"%char) as [->|_]; [|done]. by cbn in Hd.
Qed.

(** An integer type reads back what [Display] prints. *)
Lemma parse_int_dec lo hi z : lo <= z <= hi -> parse_int lo hi (dec z) = Some z.
Proof.
  intros Hz. unfold dec. destruct z as [|p|p].
  - apply (parse_uint_dec hi 0). lia.
  - change (pretty (Z.pos p)) with (pretty (N.pos p)).
    change (Some (Z.pos p)) with (Some (Z.of_N (N.pos p))). rewrite <- (parse_uint_dec hi (N.pos p)) by lia.
    pose proof (pretty_N_digits (N.pos p)) as Hd. destruct (pretty (N.pos p)) as [|a t]; [done|]. cbn [parse_int].
    destruct (Ascii.eqb_spec a "-"%char) as [->|_]; [by cbn in Hd|done].
  - change (pretty (Z.neg p)) with (String "-" (pretty (N.pos p))). cbn [parse_int].
    rewrite (parse_pretty_N (- lo)) by lia. pose proof (pretty_N_nonempty (N.pos p)).
    by destruct (pretty (N.pos p)).
Qed.

Lemma dec_chars z : sall (fun a => is_digit a || Ascii.eqb a "-"%char) (dec z) = true.
Proof.
  assert (forall x : N, sall (fun a => is_digit a || Ascii.eqb a "-"%char) (pretty x) = true) as Hn.
  { intros x. eapply sall_impl; [|apply pretty_N_digits]. intros a Ha. by rewrite Ha. }
  unfold dec. destruct z as [|p|p]; [done|apply (Hn (N.pos p))|apply (Hn (N.pos p))].
Qed.

(** A number contains no other character. *)
Lemma dec_without c z : is_digit c || Ascii.eqb c "-"%char = false -> sall (fun a => negb (Ascii.eqb a c)) (dec z) = true.
Proof.
  intros Hc. eapply sall_impl; [|exact (dec_chars z)]. intros a Ha. destruct (Ascii.eqb_spec a c) as [->|_]; [|done].
  cbn in Ha. by rewrite Hc in Ha.
Qed.

Lemma dec_no_colon z : sall (fun a => negb (Ascii.eqb a ":"%char)) (dec z) = true.
Proof. by apply dec_without. Qed.

Lemma split_once_app c s t : sall (fun a => negb (Ascii.eqb a c)) s = true -> split_once c (s +:+ String c t) = Some (s, t).
Proof.
  induction s as [|a s IH].
  - intros _. change ("" +:+ String c t) with (String c t). cbn [split_once]. by rewrite Ascii.eqb_refl.
  - change (String a s +:+ String c t) with (String a (s +:+ String c t)). cbn [sall split_once].
    intros [Ha Hs]%andb_prop. destruct (Ascii.eqb_spec a c) as [->|_]; [done|]. by rewrite IH.
Qed.

(** ** Characters

    The texts of Rust are UTF-8; what the lemmas need of that is how the bytes
    of a character are laid out. *)
Inductive utf8 : string -> Prop :=
| utf8_nil : utf8 ""
| utf8_1 a s : byte_in a 0 127 = true -> utf8 s -> utf8 (String a s)
| utf8_2 a b s : byte_in a 194 223 = true -> cont b = true -> utf8 s -> utf8 (String a (String b s))
| utf8_3 a b c s : byte_in a 224 239 = true -> cont b = true -> cont c = true -> utf8 s ->
    utf8 (String a (String b (String c s)))
| utf8_4 a b c d s : byte_in a 240 244 = true -> cont b = true -> cont c = true -> cont d = true -> utf8 s ->
    utf8 (String a (String b (String c (String d s)))).

(** [chars().count()], and [char_length] of PostgreSQL. *)
Fixpoint char_count (s : string) : Z :=
  match s with EmptyString => 0 | String a t => (if cont a then 0 else 1) + char_count t end.

Lemma char_count_nonneg s : 0 <= char_count s.
Proof. induction s as [|a s IH]; cbn; [lia|]. destruct (cont a); lia. Qed.

Lemma char_count_take n s : char_count (take_chars n s) <= Z.of_nat n.
Proof.
  revert n. induction s as [|a s IH]; intros n; cbn; [lia|]. destruct (cont a) eqn:Ec; cbn; [rewrite Ec; apply IH|].
  destruct n as [|n]; cbn; [lia|]. rewrite Ec. specialize (IH n). lia.
Qed.

Lemma lead_not_cont a lo hi : byte_in a lo hi = true -> hi <= 127 \/ 192 <= lo -> cont a = false.
Proof. unfold cont, byte_in. intros Ha Hr. pose proof (byte_val_range a). bool_to_prop. lia. Qed.

Lemma utf8_char_count s : utf8 s -> s <> "" -> 1 <= char_count s.
Proof.
  destruct 1; intros Hs; [done|..]; cbn [char_count];
    rewrite (lead_not_cont a _ _ ltac:(eassumption)) by lia; 
    repeat match goal with |- context [char_count ?t] => pose proof (char_count_nonneg t); generalize dependent (char_count t) end;
    intros; repeat destruct (cont _); lia.
Qed.

Lemma take_chars_cont n b s : cont b = true -> take_chars n (String b s) = String b (take_chars n s).
Proof. cbn. by intros ->. Qed.

Lemma take_chars_utf8 n s : utf8 s -> utf8 (take_chars n s).
Proof.
  intros Hs. revert n. induction Hs as [|a s Ha Hs IH|a b s Ha Hb Hs IH|a b c s Ha Hb Hc Hs IH|a b c d s Ha Hb Hc Hd Hs IH];
    intros n; [constructor|..]; cbn [take_chars]; rewrite (lead_not_cont a _ _ Ha) by lia;
    (destruct n as [|n]; [constructor|]); rewrite ?Hb, ?Hc, ?Hd; by constructor.
Qed.

Lemma drop_controls_cont b s : cont b = true -> drop_controls (String b s) = String b (drop_controls s).
Proof.
  intros Hb. cbn [drop_controls]. unfold cont, byte_in in Hb. unfold is_control1, is_control2, byte_in.
  assert (byte_val b <? 194 = true) as Hlt by (bool_to_prop; lia).
  replace ((0 <=? byte_val b) && (byte_val b <=? 31) || (127 <=? byte_val b) && (byte_val b <=? 127)) with false
    by (symmetry; apply not_true_iff_false; intros Hx; bool_to_prop; lia).
  destruct s as [|c s]; [done|].
  replace ((194 <=? byte_val b) && (byte_val b <=? 194)) with false
    by (symmetry; apply not_true_iff_false; intros Hx; bool_to_prop; lia). done.
Qed.

Lemma drop_controls_utf8 s : utf8 s -> utf8 (drop_controls s).
Proof.
  assert (forall a lo hi, byte_in a lo hi = true -> 192 <= lo -> is_control1 a = false) as H1.
  { intros a lo hi Ha Hlo. unfold is_control1, byte_in in *. apply not_true_iff_false. intros Hx. bool_to_prop. lia. }
  assert (forall a lo hi, byte_in a lo hi = true -> 194 < lo \/ hi < 194 -> forall b, is_control2 a b = false) as H2.
  { intros a lo hi Ha Hlo b. unfold is_control2, byte_in in *. apply not_true_iff_false. intros Hx. bool_to_prop. lia. }
  induction 1 as [|a s Ha Hs IH|a b s Ha Hb Hs IH|a b c s Ha Hb Hc Hs IH|a b c d s Ha Hb Hc Hd Hs IH]; [constructor|..].
  - cbn [drop_controls]. destruct (is_control1 a); [done|]. destruct s as [|b s]; [by repeat constructor|].
    rewrite (H2 a _ _ Ha) by lia. by constructor.
  - cbn [drop_controls]. rewrite (H1 a _ _ Ha) by lia. destruct (is_control2 a b); [done|].
    change (utf8 (String a (drop_controls (String b s)))). rewrite drop_controls_cont by done. by constructor.
  - cbn [drop_controls]. rewrite (H1 a _ _ Ha), (H2 a _ _ Ha) by lia.
    change (utf8 (String a (drop_controls (String b (String c s))))). rewrite !drop_controls_cont by done. by constructor.
  - cbn [drop_controls]. rewrite (H1 a _ _ Ha), (H2 a _ _ Ha) by lia.
    change (utf8 (String a (drop_controls (String b (String c (String d s)))))).
    rewrite !drop_controls_cont by done. by constructor.
Qed.
