(* ===== verification/Protocol.v ===== *)
(** * Northbound protocols ([src/src/domain/protocol.rs]) *)

From stdpp Require Import base list strings sets.
From S2P Require Import Prelude.
From S2P Require Import RustStr.

Inductive Protocol : Type :=
| OpenAiChatCompletions
| OpenAiResponses
| AnthropicMessages.

#[global] Instance Protocol_eq_dec : EqDecision Protocol.
Proof. solve_decision. Defined.

Definition Protocol_eqb (p q : Protocol) : bool := bool_decide (p = q).

(** [Protocol::ALL], also the declaration order of the derived [Ord]. *)
Definition Protocol_ALL : list Protocol :=
  [OpenAiChatCompletions; OpenAiResponses; AnthropicMessages].

(** [impl fmt::Display for Protocol]. *)
Definition Protocol_to_string (p : Protocol) : string :=
  match p with
  | OpenAiChatCompletions => "openai_chat_completions"
  | OpenAiResponses => "openai_responses"
  | AnthropicMessages => "anthropic_messages"
  end.

(** [impl FromStr for Protocol]. *)
Definition Protocol_from_str (value : string) : result Protocol unit :=
  if (value =?s "openai_chat_completions") || (value =?s "chat_completions")
  then Ok OpenAiChatCompletions
  else if (value =?s "openai_responses") || (value =?s "responses")
  then Ok OpenAiResponses
  else if (value =?s "anthropic_messages") || (value =?s "messages") || (value =?s "claude")
  then Ok AnthropicMessages
  else Err tt.

Lemma Protocol_ALL_complete p : p ∈ Protocol_ALL.
Proof. destruct p; set_solver. Qed.

Lemma Protocol_ALL_NoDup : NoDup Protocol_ALL.
Proof. apply (bool_decide_unpack _). by vm_compute. Qed.

Lemma Protocol_eqb_eq p q : Protocol_eqb p q = true <-> p = q.
Proof. apply bool_decide_eq_true. Qed.

Lemma Protocol_eqb_refl p : Protocol_eqb p p = true.
Proof. by apply Protocol_eqb_eq. Qed.

#[export] Hint Resolve Protocol_ALL_complete Protocol_eqb_refl : gw_db.

(** The textual names are read back to the protocol they print, so distinct
    protocols have distinct names. *)
Lemma Protocol_from_to_string p : Protocol_from_str (Protocol_to_string p) = Ok p.
Proof. by destruct p. Qed.

Lemma Protocol_to_string_inj p q : Protocol_to_string p = Protocol_to_string q -> p = q.
Proof. by destruct p, q. Qed.
