(* ===== verification/BTree.v ===== *)
(** * Ordered maps

    A Rust [BTreeMap] iterates in the order of its keys: it is modelled by the
    list of its entries, sorted and without duplicate keys ([bt_wf]).  The
    order is the [Ord] of the key type. *)

From Stdlib Require Import ZArith Lia Ascii Sorted.
From stdpp Require Import base list strings sorting.
From S2P Require Import Prelude.
From S2P Require Import RustStr.
From S2P Require Import Protocol.

(** [Ord]: a total order. *)
Class Ordered (K : Type) : Type := {
  kcmp : K -> K -> comparison;
  kcmp_eq : forall x y, kcmp x y = Eq <-> x = y;
  kcmp_antisym : forall x y, kcmp y x = CompOpp (kcmp x y);
  kcmp_trans : forall x y z, kcmp x y = Lt -> kcmp y z = Lt -> kcmp x z = Lt;
}.

Definition klt {K} `{Ordered K} (x y : K) : Prop := kcmp x y = Lt.

Lemma kcmp_refl {K} `{Ordered K} (x : K) : kcmp x x = Eq.
Proof. by apply kcmp_eq. Qed.

Lemma kcmp_gt {K} `{Ordered K} (x y : K) : kcmp x y = Gt -> klt y x.
Proof. unfold klt. intros Hx. by rewrite kcmp_antisym, Hx. Qed.

Lemma klt_irrefl {K} `{Ordered K} (x : K) : ~ klt x x.
Proof. unfold klt. by rewrite kcmp_refl. Qed.

#[export] Instance klt_trans {K} `{Ordered K} : Transitive (klt (K:=K)).
Proof. intros x y z. apply kcmp_trans. Qed.

(** ** Orders *)

#[export] Program Instance Z_Ordered : Ordered Z := {| kcmp := Z.compare |}.
Next Obligation. intros. apply Z.compare_eq_iff. Qed.
Next Obligation. intros. apply Z.compare_antisym. Qed.
Next Obligation. intros x y z. rewrite !Z.compare_lt_iff. lia. Qed.

(** Lexicographic order of bytes: the [Ord] of [str]. *)
Fixpoint str_cmp (s t : string) : comparison :=
  match s, t with
  | EmptyString, EmptyString => Eq
  | EmptyString, String _ _ => Lt
  | String _ _, EmptyString => Gt
  | String a s, String b t =>
      match byte_val a ?= byte_val b with Eq => str_cmp s t | c => c end
  end.

Lemma byte_val_inj a b : byte_val a = byte_val b -> a = b.
Proof.
  unfold byte_val. intros Hab%N2Z.inj. rewrite <- (ascii_N_embedding a), <- (ascii_N_embedding b).
  by f_equal.
Qed.

#[export] Program Instance string_Ordered : Ordered string := {| kcmp := str_cmp |}.
Next Obligation.
  intros s. induction s as [|a s IH]; intros [|b t]; cbn; [done|done|done|].
  destruct (Z.compare_spec (byte_val a) (byte_val b)) as [Hab|Hab|Hab].
  - apply byte_val_inj in Hab as ->. rewrite IH. split; [by intros ->|by intros [= ->]].
  - split; [done|]. intros [= -> _]. lia.
  - split; [done|]. intros [= -> _]. lia.
Qed.
Next Obligation.
  intros s. induction s as [|a s IH]; intros [|b t]; cbn; [done|done|done|].
  rewrite (Z.compare_antisym (byte_val a)). destruct (byte_val a ?= byte_val b); cbn; auto.
Qed.
Next Obligation.
  intros s. induction s as [|a s IH]; intros [|b t] [|c u]; cbn; try done.
  destruct (Z.compare_spec (byte_val a) (byte_val b)), (Z.compare_spec (byte_val b) (byte_val c)),
    (Z.compare_spec (byte_val a) (byte_val c)); try done; try lia. apply IH.
Qed.

(** The declaration order of [Protocol], its derived [Ord]. *)
Definition protocol_rank (p : Protocol) : Z :=
  match p with OpenAiChatCompletions => 0 | OpenAiResponses => 1 | AnthropicMessages => 2 end.

Section Inj.
Context {A B : Type} `{Ordered B} (f : A -> B) (f_inj : forall x y, f x = f y -> x = y).
Definition Ordered_inj : Ordered A.
Proof.
  refine {| kcmp x y := kcmp (f x) (f y) |}.
  - intros x y. rewrite (kcmp_eq (f x) (f y)). split; [apply f_inj|by intros ->].
  - intros x y. apply kcmp_antisym.
  - intros x y z. apply kcmp_trans.
Defined.
End Inj.

#[export] Instance Protocol_Ordered : Ordered Protocol.
Proof. refine (Ordered_inj protocol_rank _). by intros [] []. Defined.

#[export] Instance prod_Ordered {A B} `{Ordered A} `{Ordered B} : Ordered (A * B).
Proof.
  refine {| kcmp x y := match kcmp x.1 y.1 with Eq => kcmp x.2 y.2 | c => c end |}.
  - intros [x1 x2] [y1 y2]; cbn [fst snd]. destruct (kcmp x1 y1) eqn:E.
    + apply kcmp_eq in E as ->. rewrite (kcmp_eq x2 y2). split; [by intros ->|by intros [= ->]].
    + split; [done|]. intros [= -> ->]. by rewrite (kcmp_refl y1) in E.
    + split; [done|]. intros [= -> ->]. by rewrite (kcmp_refl y1) in E.
  - intros [x1 x2] [y1 y2]; cbn [fst snd]. rewrite (kcmp_antisym x1 y1).
    destruct (kcmp x1 y1); cbn; [apply kcmp_antisym|done|done].
  - intros [x1 x2] [y1 y2] [z1 z2]; cbn [fst snd].
    destruct (kcmp x1 y1) eqn:E1; [apply kcmp_eq in E1 as -> | |done].
    + destruct (kcmp y1 z1); [apply kcmp_trans|done|done].
    + intros _. destruct (kcmp y1 z1) eqn:E2; [apply kcmp_eq in E2 as ->; by rewrite E1| |done].
      by rewrite (kcmp_trans _ _ _ E1 E2).
Defined.

(** ** Maps *)

Section BTreeMap.
Context {K V : Type} `{Ordered K}.
Implicit Type m : list (K * V).

Fixpoint bt_get m (k : K) : option V :=
  match m with
  | [] => None
  | (k', v) :: m => match kcmp k k' with Eq => Some v | Lt => None | Gt => bt_get m k end
  end.

(** [BTreeMap::insert]. *)
Fixpoint bt_insert m (k : K) (v : V) : list (K * V) :=
  match m with
  | [] => [(k, v)]
  | (k', v') :: m' =>
      match kcmp k k' with
      | Eq => (k, v) :: m'
      | Lt => (k, v) :: m
      | Gt => (k', v') :: bt_insert m' k v
      end
  end.

Definition bt_wf m : Prop := StronglySorted klt m.*1.

Lemma bt_get_fresh m k : Forall (klt k) m.*1 -> bt_get m k = None.
Proof.
  destruct m as [|[k' v] m]; [done|]. cbn. intros [Hk _]%Forall_cons. by rewrite Hk.
Qed.

Lemma bt_insert_keys m k v j : j ∈ (bt_insert m k v).*1 <-> j = k \/ j ∈ m.*1.
Proof.
  induction m as [|[k' v'] m IH]; cbn.
  - by rewrite list_elem_of_singleton, elem_of_nil; intuition.
  - destruct (kcmp k k') eqn:E; cbn; rewrite ?elem_of_cons, ?IH; [|tauto|tauto].
    apply kcmp_eq in E as ->. tauto.
Qed.

Lemma bt_insert_wf m k v : bt_wf m -> bt_wf (bt_insert m k v).
Proof.
  unfold bt_wf. induction m as [|[k' v'] m IH]; cbn; intros Hwf; [by repeat constructor|].
  apply StronglySorted_inv in Hwf as [Hm Hk']. destruct (kcmp k k') eqn:E; cbn.
  - apply kcmp_eq in E as ->. by constructor.
  - constructor; [by constructor|]. constructor; [done|].
    eapply Forall_impl; [exact Hk'|]. intros j Hj. by transitivity k'.
  - constructor; [auto|]. apply Forall_forall. intros j [->|Hj]%bt_insert_keys.
    + by apply kcmp_gt.
    + by eapply Forall_forall in Hk'.
Qed.

Lemma bt_get_insert m k v j :
  bt_wf m -> bt_get (bt_insert m k v) j = match kcmp j k with Eq => Some v | _ => bt_get m j end.
Proof.
  unfold bt_wf. induction m as [|[k' v'] m IH]; cbn; intros Hwf.
  { by destruct (kcmp j k). }
  apply StronglySorted_inv in Hwf as [Hm Hk']. destruct (kcmp k k') eqn:E; cbn.
  - apply kcmp_eq in E as ->. by destruct (kcmp j k').
  - destruct (kcmp j k) eqn:Ej; [done| |done].
    by rewrite (kcmp_trans _ _ _ Ej E).
  - rewrite (IH Hm). apply kcmp_gt in E. destruct (kcmp j k') eqn:Ej, (kcmp j k) eqn:Ek; try done.
    + apply kcmp_eq in Ej as ->. apply kcmp_eq in Ek as ->. by apply klt_irrefl in E.
    + apply kcmp_eq in Ek as ->. unfold klt in E. rewrite kcmp_antisym, Ej in E. done.
Qed.

Lemma bt_get_in m k v : bt_wf m -> bt_get m k = Some v <-> (k, v) ∈ m.
Proof.
  unfold bt_wf. induction m as [|[k' v'] m IH]; cbn; intros Hwf; [by rewrite elem_of_nil|].
  apply StronglySorted_inv in Hwf as [Hm Hk']. rewrite elem_of_cons.
  assert (forall j w, (j, w) ∈ m -> klt k' j) as Hlt.
  { intros j w Hin. eapply Forall_forall in Hk'; [exact Hk'|]. by apply (list_elem_of_fmap_2 fst _ (j, w)). }
  destruct (kcmp k k') eqn:E.
  - apply kcmp_eq in E as ->. split; [intros [= ->]; by left|]. intros [[= ->]|Hin]; [done|].
    exfalso. by eapply klt_irrefl, Hlt.
  - split; [done|]. intros [[= -> ->]|Hin]; [by rewrite kcmp_refl in E|].
    exfalso. apply Hlt in Hin. eapply klt_irrefl. etransitivity; [exact E|exact Hin].
  - rewrite (IH Hm). split; [by right|]. intros [[= -> ->]|Hin]; [|done]. by rewrite kcmp_refl in E.
Qed.
End BTreeMap.

Lemma bt_wf_nil {K V} `{Ordered K} : bt_wf ([] : list (K * V)).
Proof. constructor. Qed.

Lemma bt_wf_cons {K V} `{Ordered K} (k : K) (v : V) m : bt_wf ((k, v) :: m) <-> bt_wf m /\ Forall (klt k) m.*1.
Proof. unfold bt_wf. cbn. split; [apply StronglySorted_inv|]. intros [? ?]. by constructor. Qed.

(** [collect] into a [BTreeMap]. *)
Definition bt_collect {K V} `{Ordered K} (l : list (K * V)) : list (K * V) :=
  fold_left (fun m kv => bt_insert m kv.1 kv.2) l [].

Section Collect.
Context {K V : Type} `{Ordered K}.
Implicit Type m l : list (K * V).

Lemma bt_wf_nodup m : bt_wf m -> NoDup m.*1.
Proof.
  unfold bt_wf. induction m.*1 as [|k ks IH]; intros Hs; [apply NoDup_nil_2|].
  apply StronglySorted_inv in Hs as [Hs Hk]. apply NoDup_cons. split; [|auto].
  intros Hin. eapply Forall_forall in Hk; [|exact Hin]. by apply klt_irrefl in Hk.
Qed.

Lemma bt_ext m1 m2 : bt_wf m1 -> bt_wf m2 -> (forall k, bt_get m1 k = bt_get m2 k) -> m1 = m2.
Proof.
  revert m2. induction m1 as [|[k v] m1 IH]; intros [|[k' v'] m2] H1 H2 Hg; [done| | |].
  - specialize (Hg k'). cbn in Hg. by rewrite kcmp_refl in Hg.
  - specialize (Hg k). cbn in Hg. by rewrite kcmp_refl in Hg.
  - apply StronglySorted_inv in H1 as [H1 Hk], H2 as [H2 Hk'].
    assert (k = k') as <-.
    { pose proof (Hg k) as Ha. pose proof (Hg k') as Hb. cbn in Ha, Hb. rewrite kcmp_refl in Ha, Hb.
      rewrite (kcmp_antisym k k') in Hb. destruct (kcmp k k') eqn:E; [by apply kcmp_eq in E|done|done]. }
    assert (v = v') as <- by (specialize (Hg k); cbn in Hg; rewrite kcmp_refl in Hg; congruence).
    f_equal. apply IH; [done|done|]. intros j. specialize (Hg j). cbn in Hg.
    destruct (kcmp j k) eqn:E; [| |done].
    + apply kcmp_eq in E as ->. by rewrite !bt_get_fresh.
    + rewrite !bt_get_fresh; [done| |]; (eapply Forall_impl; [eassumption|]; intros i Hi; by transitivity k).
Qed.

Lemma fold_insert_wf l : forall m, bt_wf m -> bt_wf (fold_left (fun m kv => bt_insert m kv.1 kv.2) l m).
Proof. induction l as [|kv l IH]; intros m Hm; cbn; [done|]. by apply IH, bt_insert_wf. Qed.

Lemma bt_collect_wf l : bt_wf (bt_collect l).
Proof. apply fold_insert_wf, bt_wf_nil. Qed.

Lemma bt_get_insert_eq m k v : bt_wf m -> bt_get (bt_insert m k v) k = Some v.
Proof. intros Hm. by rewrite bt_get_insert, kcmp_refl. Qed.

Lemma bt_get_insert_ne m k v j : bt_wf m -> j <> k -> bt_get (bt_insert m k v) j = bt_get m j.
Proof.
  intros Hm Hne. rewrite bt_get_insert by done. destruct (kcmp j k) eqn:E; try done. by apply kcmp_eq in E.
Qed.

Lemma fold_insert_get l : forall m k, bt_wf m -> NoDup l.*1 ->
  bt_get (fold_left (fun m kv => bt_insert m kv.1 kv.2) l m) k
  = match List.find (fun kv => match kcmp kv.1 k with Eq => true | _ => false end) l with
    | Some kv => Some kv.2
    | None => bt_get m k
    end.
Proof.
  induction l as [|[j v] l IH]; intros m k Hm Hnd; cbn; [done|].
  apply NoDup_cons in Hnd as [Hj Hnd]. rewrite IH by (done || by apply bt_insert_wf). cbn.
  destruct (kcmp j k) eqn:E.
  - apply kcmp_eq in E as ->. destruct (List.find _ l) as [[i w]|] eqn:Ef.
    + apply List.find_some in Ef as [Hin He]. apply list_elem_of_In in Hin. cbn in He.
      destruct (kcmp i k) eqn:Ei; try done. apply kcmp_eq in Ei as ->.
      exfalso. apply Hj. by apply (list_elem_of_fmap_2 fst _ (k, w)).
    + by apply bt_get_insert_eq.
  - destruct (List.find _ l); [done|]. apply bt_get_insert_ne; [done|].
    intros ->. by rewrite kcmp_refl in E.
  - destruct (List.find _ l); [done|]. apply bt_get_insert_ne; [done|].
    intros ->. by rewrite kcmp_refl in E.
Qed.

(** Collecting entries with distinct keys keeps them. *)
Lemma bt_collect_in l k v : NoDup l.*1 -> (k, v) ∈ bt_collect l <-> (k, v) ∈ l.
Proof.
  intros Hnd. rewrite <- bt_get_in by apply bt_collect_wf. unfold bt_collect.
  rewrite fold_insert_get by (done || apply bt_wf_nil). destruct (List.find _ l) as [[i w]|] eqn:Ef.
  - apply List.find_some in Ef as [Hin He]. apply list_elem_of_In in Hin. cbn in He |- *.
    destruct (kcmp i k) eqn:Ei; try done. apply kcmp_eq in Ei as ->. split; [by intros [= ->]|].
    intros Hv. f_equal.
    apply list_elem_of_lookup in Hin as [a Ha], Hv as [b Hb].
    assert (a = b) as -> by (eapply (NoDup_lookup _ _ _ k Hnd); rewrite list_lookup_fmap; [by rewrite Ha|by rewrite Hb]).
    congruence.
  - cbn. split; [done|]. intros Hv%list_elem_of_In. pose proof (List.find_none _ _ Ef _ Hv) as Hn.
    cbn in Hn. by rewrite kcmp_refl in Hn.
Qed.

Lemma bt_collect_perm l m : bt_wf m -> NoDup l.*1 -> (forall kv, kv ∈ l <-> kv ∈ m) -> bt_collect l = m.
Proof.
  intros Hm Hnd Hin. apply bt_ext; [apply bt_collect_wf|done|]. intros k. apply option_eq. intros v.
  rewrite !bt_get_in by (done || apply bt_collect_wf). rewrite bt_collect_in by done. apply Hin.
Qed.

Lemma bt_collect_id m : bt_wf m -> bt_collect m = m.
Proof. intros Hm. apply bt_collect_perm; [done|by apply bt_wf_nodup|done]. Qed.
End Collect.

Lemma bt_insert_length {K V} `{Ordered K} (m : list (K * V)) k v :
  bt_get m k = None -> length (bt_insert m k v) = S (length m).
Proof.
  induction m as [|[j w] m IH]; cbn [bt_get bt_insert]; [done|]. destruct (kcmp k j); cbn [length]; [done|done|].
  intros Hm. by rewrite IH.
Qed.

Lemma bt_insert_Forall {K V} `{Ordered K} (P : K * V -> Prop) (m : list (K * V)) k v :
  Forall P m -> P (k, v) -> Forall P (bt_insert m k v).
Proof.
  intros Hm Hk. induction Hm as [|[j w] m Hj Hm IH]; cbn [bt_insert]; [by repeat constructor|].
  destruct (kcmp k j); repeat constructor; auto.
Qed.

(** [BTreeMap::remove]. *)
Definition bt_remove {K V} `{Ordered K} (m : list (K * V)) (k : K) : list (K * V) :=
  List.filter (fun kv => match kcmp kv.1 k with Eq => false | _ => true end) m.

Lemma bt_remove_in {K V} `{Ordered K} (m : list (K * V)) k kv : kv ∈ bt_remove m k <-> kv ∈ m /\ kv.1 <> k.
Proof.
  unfold bt_remove. rewrite !list_elem_of_In, filter_In. destruct (kcmp kv.1 k) eqn:E.
  - apply kcmp_eq in E. intuition congruence.
  - split; [|tauto]. intros [? _]. split; [done|]. intros Hk. by rewrite Hk, kcmp_refl in E.
  - split; [|tauto]. intros [? _]. split; [done|]. intros Hk. by rewrite Hk, kcmp_refl in E.
Qed.

Lemma bt_remove_Forall {K V} `{Ordered K} (P : K * V -> Prop) (m : list (K * V)) k :
  Forall P m -> Forall P (bt_remove m k).
Proof. rewrite !Forall_forall. intros Hm kv [Hkv _]%bt_remove_in. auto. Qed.

Lemma bt_remove_wf {K V} `{Ordered K} (m : list (K * V)) k : bt_wf m -> bt_wf (bt_remove m k).
Proof.
  unfold bt_wf, bt_remove. induction m as [|[j v] m IH]; cbn; [done|]. intros Hs.
  apply StronglySorted_inv in Hs as [Hs Hj]. assert (Forall (klt j) (bt_remove m k).*1) as Hf.
  { rewrite Forall_forall in Hj |- *. intros i Hi. apply Hj. apply list_elem_of_fmap in Hi as (kv & -> & Hkv).
    apply bt_remove_in in Hkv as [Hkv _]. by apply (list_elem_of_fmap_2 fst). }
  destruct (kcmp j k); cbn; [by apply IH|constructor; [by apply IH|exact Hf]..].
Qed.

Lemma bt_remove_get_ne {K V} `{Ordered K} (m : list (K * V)) k j :
  bt_wf m -> j <> k -> bt_get (bt_remove m k) j = bt_get m j.
Proof.
  intros Hm Hne. apply option_eq. intros v. rewrite !bt_get_in by (done || by apply bt_remove_wf).
  rewrite bt_remove_in. cbn. tauto.
Qed.

(** ** Sorting by a key *)

(** [sort_by] with [Ord::cmp] of a key: a stable sort, here by insertion. *)
Section Sort.
Context {A K : Type} `{Ordered K} (key : A -> K).

Fixpoint insert_by (x : A) (l : list A) : list A :=
  match l with
  | [] => [x]
  | y :: l' => match kcmp (key x) (key y) with Gt => y :: insert_by x l' | _ => x :: l end
  end.

Definition sort_by (l : list A) : list A := foldr insert_by [] l.

Definition key_le (x y : A) : Prop := kcmp (key x) (key y) <> Gt.

Lemma insert_by_perm x l : insert_by x l ≡ₚ x :: l.
Proof.
  induction l as [|y l IH]; cbn; [done|]. destruct (kcmp _ _); [done..|]. rewrite IH. apply Permutation_swap.
Qed.

Lemma sort_by_perm l : sort_by l ≡ₚ l.
Proof. induction l as [|x l IH]; cbn; [done|]. by rewrite insert_by_perm, IH. Qed.

Lemma kcmp_le_trans (x y z : K) : kcmp x y <> Gt -> kcmp y z <> Gt -> kcmp x z <> Gt.
Proof.
  destruct (kcmp x y) eqn:E1; [apply kcmp_eq in E1 as ->; done| |done].
  intros _. destruct (kcmp y z) eqn:E2; [apply kcmp_eq in E2 as ->; by rewrite E1| |done].
  by rewrite (kcmp_trans _ _ _ E1 E2).
Qed.

Lemma insert_by_sorted x l : StronglySorted key_le l -> StronglySorted key_le (insert_by x l).
Proof.
  unfold key_le. induction l as [|y l IH]; cbn; intros Hs; [by repeat constructor|].
  apply StronglySorted_inv in Hs as [Hl Hy]. destruct (kcmp (key x) (key y)) eqn:E.
  1, 2: constructor; [by constructor|]; constructor; [by rewrite E|];
        eapply Forall_impl; [exact Hy|]; intros z Hz; eapply kcmp_le_trans; [by rewrite E|exact Hz].
  constructor; [auto|]. rewrite insert_by_perm. constructor; [|done].
  rewrite kcmp_antisym, E. done.
Qed.

Lemma sort_by_sorted l : StronglySorted key_le (sort_by l).
Proof. induction l as [|x l IH]; cbn; [constructor|]. by apply insert_by_sorted. Qed.

Lemma elem_of_sort_by x l : x ∈ sort_by l <-> x ∈ l.
Proof. by rewrite sort_by_perm. Qed.

(** A sorted list without equal keys is strictly sorted. *)
Lemma sort_by_strict l : NoDup (map key l) -> StronglySorted klt (map key (sort_by l)).
Proof.
  intros Hnd. assert (NoDup (map key (sort_by l))) as Hd by (by rewrite sort_by_perm).
  pose proof (sort_by_sorted l) as Hs. induction Hs as [|x k Hk IH Hx]; cbn in *; [constructor|].
  apply NoDup_cons in Hd as [Hn Hd]. constructor; [auto|]. apply Forall_forall. intros j Hj.
  apply list_elem_of_fmap in Hj as (y & -> & Hy). rewrite Forall_forall in Hx. specialize (Hx y Hy).
  unfold key_le, klt in *. destruct (kcmp (key x) (key y)) eqn:E; [|done|done].
  apply kcmp_eq in E. destruct Hn. rewrite E. by apply (list_elem_of_fmap_2 key).
Qed.
End Sort.
