(* ===== verification/Keyset.v ===== *)
(** * Keyset pagination

    The lists of the API are read in pages: a page holds the rows after a
    cursor, in a strict order, up to a limit; it looks one row further to tell
    whether there are more, and its cursor is the key of its last row.  Here is
    what such pages have in common: the rows after a key are the rest of the
    list after the row with that key, and following the cursors reads the whole
    list. *)

From Stdlib Require Import ZArith Lia Sorting.Sorted.
From stdpp Require Import base list sorting.
From S2P Require Import Prelude.
From S2P Require Import BTree.

(** ** Lists *)

Lemma filter_none {A} (P : A -> Prop) `{!forall x, Decision (P x)} l : Forall (fun x => ~ P x) l -> filter P l = [].
Proof. induction 1 as [|x l Hx _ IH]; [done|]. by rewrite filter_cons_False. Qed.

Lemma filter_every {A} (P : A -> Prop) `{!forall x, Decision (P x)} l : Forall P l -> filter P l = l.
Proof. induction 1 as [|x l Hx _ IH]; [done|]. by rewrite filter_cons_True, IH. Qed.

Lemma strictly_sorted_nodup {K} `{Ordered K} (l : list K) : StronglySorted klt l -> NoDup l.
Proof.
  induction 1 as [|x l _ IH Hx]; constructor; [|done]. intros Hin. rewrite Forall_forall in Hx.
  by apply (klt_irrefl x), Hx.
Qed.

(** A list in strict order is its own sorting. *)
Lemma sort_by_strictly_sorted {R K} `{Ordered K} (key : R -> K) (l B : list R) :
  StronglySorted klt (map key B) -> l ≡ₚ B -> sort_by key l = B.
Proof.
  intros HB Hl. apply (StronglySorted_unique_strong (key_le key)).
  - intros x y Hx Hy Hxy Hyx. rewrite sort_by_perm, Hl in Hx.
    assert (key x = key y) as Hk.
    { unfold key_le in Hxy, Hyx. rewrite kcmp_antisym in Hyx. apply kcmp_eq. by destruct (kcmp (key x) (key y)). }
    apply list_elem_of_lookup in Hx as [i Hi], Hy as [j Hj].
    assert (NoDup (map key B)) as Hnd by by apply strictly_sorted_nodup.
    assert (i = j) as ->; [|congruence]. eapply (NoDup_lookup _ _ _ (key x) Hnd).
    + by rewrite list_lookup_fmap, Hi.
    + rewrite list_lookup_fmap, Hj. cbn. by rewrite Hk.
  - apply sort_by_sorted.
  - clear -HB. induction B as [|x B IH]; [constructor|]. apply StronglySorted_inv in HB as [HB Hx].
    constructor; [by apply IH|]. apply (Forall_map key) in Hx. eapply Forall_impl; [exact Hx|].
    intros y Hy. unfold key_le. change (kcmp (key x) (key y) = Lt) in Hy. by rewrite Hy.
  - by rewrite sort_by_perm.
Qed.

(** ** Rows after a key *)

Section Keyset.
Context {R K : Type} `{Ordered K} (key : R -> K).

(** The row comes after the cursor. *)
Definition past (cursor : option K) (r : R) : bool :=
  match cursor with Some k => match kcmp k (key r) with Lt => true | _ => false end | None => true end.

Lemma past_some k r : past (Some k) r = true <-> klt k (key r).
Proof. unfold past, klt. by destruct (kcmp k (key r)). Qed.

(** The rows a query keeps, from a cursor on, in order. *)
Definition rows_after (keep : R -> bool) (cursor : option K) (rows : list R) : list R :=
  sort_by key (filter (fun r => keep r && past cursor r = true) rows).

Section Rest.
Context (keep : R -> bool) (rows : list R) (distinct : NoDup (map key rows)).

Abbreviation wanted := (rows_after keep None rows).

Lemma wanted_perm : wanted ≡ₚ filter (fun r => keep r = true) rows.
Proof.
  unfold rows_after. rewrite sort_by_perm. erewrite list_filter_iff; [reflexivity|]. intros r. cbn. by rewrite andb_true_r.
Qed.

Lemma wanted_in r : r ∈ wanted <-> r ∈ rows /\ keep r = true.
Proof. rewrite wanted_perm, list_elem_of_filter. tauto. Qed.

Lemma wanted_strict : StronglySorted klt (map key wanted).
Proof.
  apply sort_by_strict. eapply sublist_NoDup; [exact distinct|]. apply (fmap_sublist key), sublist_filter.
Qed.

(** The rows after a cursor are the rest of the list. *)
Lemma rows_after_some A x B : wanted = A ++ x :: B -> rows_after keep (Some (key x)) rows = B.
Proof.
  intros HL. pose proof wanted_strict as Hs. rewrite HL, map_app in Hs. cbn [map] in Hs.
  apply sort_by_strictly_sorted.
  - apply StronglySorted_app in Hs as (_ & _ & Hs). by apply StronglySorted_inv in Hs as [Hs _].
  - trans (filter (fun r => past (Some (key x)) r = true) wanted).
    { rewrite wanted_perm, list_filter_filter. erewrite list_filter_iff; [reflexivity|]. intros r.
      rewrite andb_true_iff. tauto. }
    rewrite HL, filter_app, filter_cons_False by (rewrite past_some; apply klt_irrefl).
    apply StronglySorted_app in Hs as (Hbefore & _ & [_ Hafter]%StronglySorted_inv).
    rewrite filter_none, filter_every; [done| |].
    + apply (Forall_map key) in Hafter. eapply Forall_impl; [exact Hafter|]. intros r Hr. by apply past_some.
    + apply Forall_forall. intros r Hr Hbr%past_some.
      assert (klt (key r) (key x)) as Hrx by (apply Hbefore; [by apply list_elem_of_fmap_2|left]).
      apply (klt_irrefl (key x)). by etrans.
Qed.
End Rest.
End Keyset.

(** ** Following the cursors *)

(** [fetch_all] with [LIMIT limit + 1], then [truncate]: the page and its last
    row if there are more. *)
Definition cut {R} (limit : Z) (rows : list R) : list R * option R :=
  let data := firstn (Z.to_nat (limit + 1)) rows in
  if limit <? Z.of_nat (length data)
  then let data := firstn (Z.to_nat limit) data in (data, last data)
  else (data, None).

Lemma cut_spec {R} limit (rows : list R) : 1 <= limit ->
  cut limit rows = (rows, None)
  \/ exists A y B, rows = A ++ y :: B /\ cut limit rows = (A ++ [y], Some y).
Proof.
  intros Hl. unfold cut. rewrite length_firstn.
  destruct (Z.ltb_spec limit (Z.of_nat (Nat.min (Z.to_nat (limit + 1)) (length rows)))) as [Hm|Hm].
  - right. rewrite firstn_firstn, Nat.min_l by lia.
    assert (length (firstn (Z.to_nat limit) rows) = Z.to_nat limit) as Hlen by (rewrite length_firstn; lia).
    destruct (firstn (Z.to_nat limit) rows) as [|y A _] eqn:E using rev_ind; [cbn in Hlen; lia|].
    exists A, y, (skipn (Z.to_nat limit) rows). split; [|by rewrite last_snoc].
    rewrite <- (firstn_skipn (Z.to_nat limit) rows) at 1. by rewrite E, <- app_assoc.
  - left. by rewrite firstn_all2 by lia.
Qed.

Section Reading.
Context {D C : Type}.

(** A client that starts without a cursor and sends back the cursor of every
    page, for at most [fuel] pages.  A page is its data and, if there are more,
    the cursor as the server reads it back. *)
Fixpoint read_all (fuel : nat) (page : option C -> list D * option (option C)) (cursor : option C) : option (list D) :=
  match fuel with
  | O => None
  | S fuel =>
      match page cursor with
      | (data, None) => Some data
      | (data, Some (Some c)) => app data <$> read_all fuel page (Some c)
      | (_, Some None) => None
      end
  end.

Context {R K : Type} `{Ordered K} (key : R -> K) (keep : R -> bool) (rows : list R) (distinct : NoDup (map key rows)).
Context (limit : Z) (limit_positive : 1 <= limit) (show : R -> D).
(** The cursor of a row, as it comes back. *)
Context (cursor_key : C -> K) (cursor_of : R -> option C)
  (cursor_of_key : forall r, r ∈ rows -> exists c, cursor_of r = Some c /\ cursor_key c = key r).
Context (page : option C -> list D * option (option C))
  (page_cut : forall c, page c = (map show (cut limit (rows_after key keep (cursor_key <$> c) rows)).1,
                             cursor_of <$> (cut limit (rows_after key keep (cursor_key <$> c) rows)).2)).

(** Pages that are cut from the rows after their cursor, and whose cursors are
    read back, lead through all rows that are kept, in order, once each. *)
Lemma read_all_rows : read_all (S (length rows)) page None = Some (map show (rows_after key keep None rows)).
Proof.
  assert (forall fuel c A B, rows_after key keep None rows = A ++ B -> rows_after key keep (cursor_key <$> c) rows = B ->
    (length B < fuel)%nat -> read_all fuel page c = Some (map show B)) as Hread.
  { induction fuel as [|fuel IH]; intros c A B HL HB Hf; [lia|]. cbn [read_all]. rewrite page_cut, HB.
    destruct (cut_spec limit B limit_positive) as [->|(A' & y & B' & -> & ->)]; [done|]. cbn [fst snd].
    destruct (cursor_of_key y) as (c' & Hc & Hk); [apply (wanted_in key keep); rewrite HL; rewrite !elem_of_app, elem_of_cons; auto|].
    cbn. rewrite Hc, (IH (Some c') (A ++ A' ++ [y]) B').
    - cbn. by rewrite <- map_app, <- app_assoc.
    - by rewrite HL, <- !app_assoc.
    - cbn. rewrite Hk. eapply (rows_after_some key keep rows distinct (A ++ A')). by rewrite HL, <- app_assoc.
    - rewrite length_app in Hf. cbn in Hf. lia. }
  apply (Hread _ None []); [done|done|].
  rewrite (Permutation_length (wanted_perm key keep rows)).
  pose proof (length_filter (fun r => keep r = true) rows). lia.
Qed.
End Reading.
