(* ===== verification/Tx.v ===== *)
(** * Database transactions

    The control plane changes the database in transactions: a computation on
    the tables that either finishes and commits or fails and leaves the tables
    as they were ([Tx], [run_tx]).  Statements outside a transaction commit one
    by one; those operations take and return the tables explicitly.  A database
    error that is not the effect of a constraint (a lost connection) is a
    rollback like any other and is not modelled on its own. *)

From Stdlib Require Import ZArith Lia.
From stdpp Require Import base list.
From S2P Require Import Prelude.

(** The errors of [sqlx] the statements of the gateway can meet. *)
Inductive SqlxError : Type := RowNotFound | UniqueViolation | ForeignKeyViolation | CheckViolation.

Section Tx.
Context {S E : Type}.

Definition Tx (A : Type) : Type := S -> result (A * S) E.

Definition tx_ret {A} (x : A) : Tx A := fun s => Ok (x, s).
Definition tx_fail {A} (e : E) : Tx A := fun _ => Err e.
Definition tx_bind {A B} (m : Tx A) (f : A -> Tx B) : Tx B := fun s =>
  match m s with Ok (x, s') => f x s' | Err e => Err e end.
Definition tx_read {A} (f : S -> A) : Tx A := fun s => Ok (f s, s).
Definition tx_write (f : S -> S) : Tx unit := fun s => Ok (tt, f s).
Definition tx_of {A} (r : result A E) : Tx A := fun s => match r with Ok x => Ok (x, s) | Err e => Err e end.

(** [begin] ... [commit]; the transaction rolls back when it is dropped. *)
Definition run_tx {A} (m : Tx A) (s : S) : result A E * S :=
  match m s with Ok (x, s') => (Ok x, s') | Err e => (Err e, s) end.

(** A [for] loop that collects the results of its body. *)
Fixpoint tx_map {A B} (f : A -> Tx B) (l : list A) : Tx (list B) :=
  match l with
  | [] => tx_ret []
  | x :: l => tx_bind (f x) (fun y => tx_bind (tx_map f l) (fun ys => tx_ret (y :: ys)))
  end.

Lemma tx_bind_inv {A B} (m : Tx A) (f : A -> Tx B) s r :
  tx_bind m f s = Ok r -> exists x s', m s = Ok (x, s') /\ f x s' = Ok r.
Proof. unfold tx_bind. destruct (m s) as [[x s']|]; [eauto|done]. Qed.

Lemma tx_of_inv {A} (r : result A E) s x s' : tx_of r s = Ok (x, s') -> r = Ok x /\ s' = s.
Proof. unfold tx_of. destruct r; [by intros [= -> ->]|done]. Qed.

(** A failed transaction changes nothing. *)
Lemma run_tx_err {A} (m : Tx A) s e s' : run_tx m s = (Err e, s') -> s' = s.
Proof. unfold run_tx. destruct (m s) as [[]|]; by intros [= ]. Qed.

Lemma run_tx_ok {A} (m : Tx A) s x s' : run_tx m s = (Ok x, s') <-> m s = Ok (x, s').
Proof. unfold run_tx. destruct (m s) as [[]|]; split; intros [= ]; by subst. Qed.

(** What every step preserves, a transaction preserves. *)
Lemma run_tx_preserves {A} (P : S -> Prop) (m : Tx A) s :
  P s -> (forall x s', m s = Ok (x, s') -> P s') -> P (run_tx m s).2.
Proof. unfold run_tx. intros Hs Hm. destruct (m s) as [[x s']|]; cbn; [by eapply Hm|done]. Qed.

Lemma tx_map_preserves {A B} (P : S -> Prop) (f : A -> Tx B) l s ys s' :
  (forall x s y s', x ∈ l -> P s -> f x s = Ok (y, s') -> P s') ->
  P s -> tx_map f l s = Ok (ys, s') -> P s'.
Proof.
  revert s ys. induction l as [|x l IH]; intros s ys Hf Hs; cbn [tx_map]; [by intros [= _ <-]|].
  intros (y & s1 & Hy & (zs & s2 & Hz & [= _ <-])%tx_bind_inv)%tx_bind_inv.
  eapply (IH s1); [|by eapply Hf; [left| |]|exact Hz]. intros x' t y' t' Hx'. apply Hf. by right.
Qed.
End Tx.
Arguments Tx : clear implicits.

Notation "'let$' x ':=' m 'in' k" := (tx_bind m (fun x => k))
  (at level 10, x name, m at level 100, k at level 200) : gw_scope.
