(* ===== verification/Config.v ===== *)
(** * Gateway configuration ([src/src/domain/config.rs])

    The configuration data, the effective protocol and feature capability
    lookups and [GatewayConfig::validate].  A [HashMap] is the list of its
    entries in iteration order ([Prelude.hm_get] looks a key up). *)

From stdpp Require Import base list strings sets.
From S2P Require Import Prelude.
From S2P Require Import RustStr.
From S2P Require Import Protocol.

(** ** Data *)

(** Feature support mode; [Default] is [CUnsupported]. *)
Inductive CapabilityMode : Type := CNative | CTranslated | CUnsupported.

#[global] Instance CapabilityMode_eq_dec : EqDecision CapabilityMode.
Proof. solve_decision. Defined.

Record Capabilities : Type := mkCapabilities {
  cap_streaming : CapabilityMode;
  cap_tools : CapabilityMode;
  cap_tool_streaming : CapabilityMode;
  cap_thinking : CapabilityMode;
  cap_web_search : CapabilityMode;
  cap_file_search : CapabilityMode;
  cap_vision : CapabilityMode;
  cap_usage : CapabilityMode;
}.

#[global] Instance Capabilities_eq_dec : EqDecision Capabilities.
Proof. solve_decision. Defined.

(** [Capabilities::default()]. *)
Definition Capabilities_default : Capabilities :=
  mkCapabilities CUnsupported CUnsupported CUnsupported CUnsupported
                 CUnsupported CUnsupported CUnsupported CUnsupported.

(** [Capabilities::native()]. *)
Definition Capabilities_native : Capabilities :=
  mkCapabilities CNative CNative CNative CNative CNative CNative CNative CNative.

Inductive ProtocolMode : Type := PNative | PAdapter | PUnsupported.

#[global] Instance ProtocolMode_eq_dec : EqDecision ProtocolMode.
Proof. solve_decision. Defined.

Definition ProtocolMode_eqb (a b : ProtocolMode) : bool := bool_decide (a = b).

Record AdapterDefinition : Type := mkAdapterDefinition {
  ad_name : string;
  ad_from_protocol : Protocol;
  ad_to_protocol : Protocol;
  ad_features : Capabilities;
}.

Record ProtocolCapability : Type := mkProtocolCapability {
  pc_mode : ProtocolMode;
  pc_source_protocol : option Protocol;
  pc_adapter : option string;
}.

#[global] Instance ProtocolCapability_eq_dec : EqDecision ProtocolCapability.
Proof. solve_decision. Defined.

Abbreviation ProtocolCapabilityMatrix := (list (Protocol * ProtocolCapability)).
Abbreviation Endpoints := (list (Protocol * string)).

Record ModelCapabilityOverride : Type := mkModelCapabilityOverride {
  mo_protocol_capabilities : ProtocolCapabilityMatrix;
  mo_capabilities : option Capabilities;
}.

Record ProviderConfig : Type := mkProviderConfig {
  pv_id : string;
  pv_name : string;
  pv_base_url : string;
  pv_models : list string;
  pv_native_protocols : list Protocol;
  pv_endpoints : Endpoints;
  pv_capabilities : Capabilities;
  pv_protocol_capabilities : ProtocolCapabilityMatrix;
  pv_model_overrides : list (string * ModelCapabilityOverride);
}.

Record AccountConfig : Type := mkAccountConfig {
  ac_id : string;
  ac_provider_id : string;
  ac_display_name : string;
  ac_credential_env : option string;
  ac_credential_ciphertext : option string;
  ac_credential : option string;
  ac_enabled : bool;
  ac_weight : Z;                       (** [u32] *)
  ac_protocol_capabilities : ProtocolCapabilityMatrix;
  ac_capabilities : option Capabilities;
  ac_model_overrides : list (string * ModelCapabilityOverride);
  ac_model_map : list (string * string);
}.

Record RouteConfig : Type := mkRouteConfig {
  rt_id : string;
  rt_model : string;
  rt_provider_id : string;
  rt_protocols : list Protocol;
  rt_primary_account_id : string;
  rt_fallback_accounts : list string;
  rt_strategy : string;
  rt_mode : string;
  rt_adapter : option string;
  rt_allow_lossy_conversion : bool;
}.

Record GatewayConfig : Type := mkGatewayConfig {
  gc_listen_addr : string;
  gc_providers : list ProviderConfig;
  gc_accounts : list AccountConfig;
  gc_routes : list RouteConfig;
}.

Definition default_true : bool := true.
Definition default_weight : Z := 100.
Definition default_strategy : string := "primary_then_weighted_fallback".
Definition default_mode : string := "native".

(** ** The adapter registry

    The registry is empty except in the unit-test build ([cfg(test)]). *)
Class BuildCfg : Type := cfg_test : bool.

Section Registry.
Context `{BuildCfg}.

Definition adapter_registry : list (string * AdapterDefinition) :=
  if cfg_test then
    [("kimi_responses_adapter",
      mkAdapterDefinition "kimi_responses_adapter" OpenAiResponses AnthropicMessages
        (mkCapabilities CTranslated CTranslated CTranslated CTranslated
                        CTranslated CUnsupported CTranslated CTranslated))]
  else [].

Definition adapter_definition (name : string) : option AdapterDefinition :=
  hm_get adapter_registry name.
End Registry.

(** ** Capability declarations *)

Definition ProtocolCapability_native : ProtocolCapability :=
  mkProtocolCapability PNative None None.
Definition ProtocolCapability_unsupported : ProtocolCapability :=
  mkProtocolCapability PUnsupported None None.
Definition ProtocolCapability_adapter (source : Protocol) (adapter : string) : ProtocolCapability :=
  mkProtocolCapability PAdapter (Some source) (Some adapter).

(** [ProtocolCapability::validate]. *)
Definition ProtocolCapability_validate (self : ProtocolCapability) (target : Protocol)
  : result unit string :=
  let t := Protocol_to_string target in
  match pc_mode self with
  | PNative =>
      if is_some (pc_source_protocol self) || is_some (pc_adapter self)
      then Err (t +:+ ": native mode cannot set source_protocol or adapter")
      else Ok tt
  | PAdapter =>
      let? source := ok_or (pc_source_protocol self)
                           (t +:+ ": adapter mode requires source_protocol") in
      if Protocol_eqb source target
      then Err (t +:+ ": adapter source_protocol must differ from target")
      else if is_some_and (pc_adapter self) (fun name => negb (is_empty (trim name)))
      then Ok tt
      else Err (t +:+ ": adapter mode requires adapter")
  | PUnsupported =>
      if is_some (pc_source_protocol self) || is_some (pc_adapter self)
      then Err (t +:+ ": unsupported mode cannot set source_protocol or adapter")
      else Ok tt
  end.

Definition has_endpoint (endpoints : Endpoints) (protocol : Protocol) : bool :=
  is_some_and (hm_get endpoints protocol) (fun e => negb (is_empty (trim e))).

(** A loop whose body may return an error. *)
Fixpoint try_for_each {A E} (f : A -> result unit E) (l : list A) : result unit E :=
  match l with
  | [] => Ok tt
  | x :: l' => let? _ := f x in try_for_each f l'
  end.

Lemma try_for_each_ok {A E} (f : A -> result unit E) l :
  try_for_each f l = Ok tt <-> Forall (fun x => f x = Ok tt) l.
Proof.
  induction l as [|x l IH]; cbn; [by split; constructor|].
  rewrite Forall_cons, <- IH. destruct (f x) as [[]|e]; cbn; intuition congruence.
Qed.

(** ** Matrix validation *)
Section Validate.
Context `{BuildCfg}.

(** First loop of [validate_matrix], on one entry. *)
Definition validate_matrix_entry (endpoints : Endpoints) (scope : string)
    (entry : Protocol * ProtocolCapability) : result unit string :=
  let '(protocol, capability) := entry in
  let p := Protocol_to_string protocol in
  let pscope := scope +:+ ".protocol_capabilities." +:+ p in
  let? _ := map_err (fun error => pscope +:+ ": " +:+ error)
                    (ProtocolCapability_validate capability protocol) in
  if ProtocolMode_eqb (pc_mode capability) PNative && negb (has_endpoint endpoints protocol)
  then Err (pscope +:+ ": native protocol requires an endpoint")
  else if ProtocolMode_eqb (pc_mode capability) PAdapter then
    match pc_source_protocol capability, pc_adapter capability with
    | Some source, Some name =>
        match adapter_definition name with
        | None => Err (pscope +:+ ".adapter: unknown adapter '" +:+ name +:+ "'")
        | Some definition =>
            if negb (Protocol_eqb (ad_from_protocol definition) protocol)
               || negb (Protocol_eqb (ad_to_protocol definition) source)
            then Err (pscope +:+ ": adapter '" +:+ name +:+ "' direction is "
                      +:+ Protocol_to_string (ad_from_protocol definition) +:+ " -> "
                      +:+ Protocol_to_string (ad_to_protocol definition) +:+ ", configured "
                      +:+ p +:+ " -> " +:+ Protocol_to_string source)
            else Ok tt
        end
    (* the [expect]s: excluded by [ProtocolCapability_validate] above *)
    | _, _ => Err "unreachable"
    end
  else Ok tt.

(** Second loop of [validate_matrix]: adapter sources must be native. *)
Definition validate_matrix_source (matrix : ProtocolCapabilityMatrix) (endpoints : Endpoints)
    (legacy_native : list Protocol) (scope : string)
    (entry : Protocol * ProtocolCapability) : result unit string :=
  let '(protocol, capability) := entry in
  let pscope := scope +:+ ".protocol_capabilities." +:+ Protocol_to_string protocol
                +:+ ".source_protocol: " in
  if negb (ProtocolMode_eqb (pc_mode capability) PAdapter) then Ok tt else
  match pc_source_protocol capability with
  | None => Err "unreachable"
  | Some source =>
      let sname := Protocol_to_string source in
      match hm_get matrix source with
      | Some source_capability =>
          match pc_mode source_capability with
          | PNative =>
              if negb (has_endpoint endpoints source)
              then Err (pscope +:+ "native source " +:+ sname +:+ " requires an endpoint")
              else Ok tt
          | PAdapter =>
              Err (pscope +:+ "multi-segment adapter chain via " +:+ sname +:+ " is not allowed")
          | PUnsupported =>
              Err (pscope +:+ "source protocol " +:+ sname +:+ " is unsupported")
          end
      | None =>
          if negb (has_endpoint endpoints source) && negb (bool_decide (source ∈ legacy_native))
          then Err (pscope +:+ "source protocol " +:+ sname +:+ " is unavailable")
          else Ok tt
      end
  end.

Definition validate_matrix (matrix : ProtocolCapabilityMatrix) (endpoints : Endpoints)
    (legacy_native : list Protocol) (scope : string) : result unit string :=
  let? _ := try_for_each
      (fun protocol =>
         if negb (has_endpoint endpoints protocol)
         then Err (scope +:+ ".native_protocols." +:+ Protocol_to_string protocol
                   +:+ ": native protocol requires an endpoint")
         else Ok tt) legacy_native in
  let? _ := try_for_each (validate_matrix_entry endpoints scope) matrix in
  try_for_each (validate_matrix_source matrix endpoints legacy_native scope) matrix.

Definition validate_override_matrix (matrix base : ProtocolCapabilityMatrix)
    (endpoints : Endpoints) (legacy_native : list Protocol) (scope : string)
    : result unit string :=
  let? _ := validate_matrix matrix endpoints legacy_native scope in
  try_for_each
    (fun entry : Protocol * ProtocolCapability =>
       let '(target, capability) := entry in
       let pscope := scope +:+ ".protocol_capabilities." +:+ Protocol_to_string target
                     +:+ ".source_protocol: " in
       if negb (ProtocolMode_eqb (pc_mode capability) PAdapter) then Ok tt else
       match pc_source_protocol capability with
       | None => Err "unreachable"
       | Some source =>
           let sname := Protocol_to_string source in
           match hm_get base source with
           | None => Ok tt
           | Some base_capability =>
               match pc_mode base_capability with
               | PUnsupported =>
                   Err (pscope +:+ "source protocol " +:+ sname
                        +:+ " is unsupported in the base matrix")
               | PAdapter =>
                   Err (pscope +:+ "multi-segment adapter chain via " +:+ sname
                        +:+ " is not allowed")
               | PNative =>
                   if negb (has_endpoint endpoints source)
                   then Err (pscope +:+ "native source " +:+ sname +:+ " requires an endpoint")
                   else Ok tt
               end
           end
       end) matrix.
End Validate.

(** ** Lookups *)

(** [find_model_override]: the exact key, else the first pattern in iteration
    order that is ["*"] or a prefix pattern of the model. *)
Definition override_pattern_matches (pattern model : string) : bool :=
  (pattern =?s "*") || (ends_with pattern "*" && starts_with model (drop_last pattern)).

Definition find_model_override (overrides : list (string * ModelCapabilityOverride))
    (model : string) : option ModelCapabilityOverride :=
  opt_or (hm_get overrides model)
         (snd <$> List.find (fun kv => override_pattern_matches kv.1 model) overrides).

Definition provider (self : GatewayConfig) (id : string) : option ProviderConfig :=
  List.find (fun p => pv_id p =?s id) (gc_providers self).

Definition account (self : GatewayConfig) (id : string) : option AccountConfig :=
  List.find (fun a => ac_id a =?s id) (gc_accounts self).

(** [GatewayConfig::protocol_capability]. *)
Definition protocol_capability (self : GatewayConfig) (provider_id : string)
    (account_id : option string) (model : string) (protocol : Protocol) : ProtocolCapability :=
  let pv := provider self provider_id in
  let ac := account_id ≫= account self in
  match ac ≫= (fun a => find_model_override (ac_model_overrides a) model
                        ≫= fun m => hm_get (mo_protocol_capabilities m) protocol) with
  | Some value => value
  | None =>
  match pv ≫= (fun p => find_model_override (pv_model_overrides p) model
                        ≫= fun m => hm_get (mo_protocol_capabilities m) protocol) with
  | Some value => value
  | None =>
  match ac ≫= (fun a => hm_get (ac_protocol_capabilities a) protocol) with
  | Some value => value
  | None =>
  match pv with
  | Some p =>
      match hm_get (pv_protocol_capabilities p) protocol with
      | Some value => value
      | None =>
          if bool_decide (protocol ∈ pv_native_protocols p)
             && hm_contains (pv_endpoints p) protocol
          then ProtocolCapability_native
          else ProtocolCapability_unsupported
      end
  | None => ProtocolCapability_unsupported
  end end end end.

(** [GatewayConfig::capabilities]. *)
Definition capabilities (self : GatewayConfig) (provider_id : string)
    (account_id : option string) (model : string) : Capabilities :=
  let pv := provider self provider_id in
  let ac := account_id ≫= account self in
  match ac ≫= (fun a => find_model_override (ac_model_overrides a) model ≫= mo_capabilities) with
  | Some value => value
  | None =>
  match pv ≫= (fun p => find_model_override (pv_model_overrides p) model ≫= mo_capabilities) with
  | Some value => value
  | None =>
  match ac ≫= ac_capabilities with
  | Some value => value
  | None =>
  match pv with
  | Some p => pv_capabilities p
  | None => Capabilities_default
  end end end end.

(** [GatewayConfig::effective_protocol_capabilities]. *)
Definition effective_protocol_capabilities (self : GatewayConfig) (provider_id : string)
    (account_id : option string) (model : string) : ProtocolCapabilityMatrix :=
  map (fun protocol => (protocol, protocol_capability self provider_id account_id model protocol))
      Protocol_ALL.

(** [GatewayConfig::models]: first occurrences, in order. *)
Definition models (self : GatewayConfig) : list string :=
  fold_left (fun acc model => if bool_decide (model ∈ acc) then acc else acc ++ [model])
            (flat_map pv_models (gc_providers self)) [].

(** ** [GatewayConfig::validate] *)
Section ValidateConfig.
Context `{BuildCfg}.
Context (self : GatewayConfig).

Definition err_list {A} (r : result A string) : list string :=
  match r with Ok _ => [] | Err e => [e] end.

Definition validate_provider (index : nat) (p : ProviderConfig) : list string :=
  let scope := "providers[" +:+ dec (Z.of_nat index) +:+ "] (" +:+ pv_id p +:+ ")" in
  err_list (validate_matrix (pv_protocol_capabilities p) (pv_endpoints p)
              (pv_native_protocols p) scope)
  ++ flat_map (fun mo : string * ModelCapabilityOverride =>
       err_list (validate_override_matrix (mo_protocol_capabilities mo.2)
                   (pv_protocol_capabilities p) (pv_endpoints p) (pv_native_protocols p)
                   (scope +:+ ".model_overrides." +:+ mo.1)))
       (pv_model_overrides p).

Definition validate_account (index : nat) (a : AccountConfig) : list string :=
  let scope := "accounts[" +:+ dec (Z.of_nat index) +:+ "] (" +:+ ac_id a +:+ ")" in
  let pv := provider self (ac_provider_id a) in
  let endpoints := unwrap_or (pv_endpoints <$> pv) [] in
  let native := unwrap_or (pv_native_protocols <$> pv) [] in
  let base_matrix := unwrap_or (pv_protocol_capabilities <$> pv) [] in
  let account_base_matrix := hm_extend base_matrix (ac_protocol_capabilities a) in
  err_list (validate_override_matrix (ac_protocol_capabilities a) base_matrix endpoints native scope)
  ++ flat_map (fun mo : string * ModelCapabilityOverride =>
       err_list (validate_override_matrix (mo_protocol_capabilities mo.2)
                   account_base_matrix endpoints native
                   (scope +:+ ".model_overrides." +:+ mo.1)))
       (ac_model_overrides a).

Definition validate_route_protocol (scope : string) (route : RouteConfig) (p : ProviderConfig)
    (index : nat) (protocol : Protocol) : list string :=
  let pscope := scope +:+ ".protocols[" +:+ dec (Z.of_nat index) +:+ "] ("
                +:+ Protocol_to_string protocol +:+ ")" in
  if rt_mode route =?s "native" then
    if ProtocolMode_eqb
         (pc_mode (protocol_capability self (pv_id p) (Some (rt_primary_account_id route))
                     (rt_model route) protocol)) PNative
    then [] else [pscope +:+ ": native route requires a native protocol capability"]
  else if rt_mode route =?s "adapter" then
    match rt_adapter route with
    | None => [pscope +:+ ".adapter: adapter route requires adapter"]
    | Some name =>
        match adapter_definition name with
        | None => [pscope +:+ ".adapter: unknown adapter '" +:+ name +:+ "'"]
        | Some definition =>
            if negb (Protocol_eqb (ad_from_protocol definition) protocol)
            then [pscope +:+ ".adapter: adapter '" +:+ name +:+ "' accepts "
                  +:+ Protocol_to_string (ad_from_protocol definition) +:+ ", not "
                  +:+ Protocol_to_string protocol]
            else []
        end
    end
  else if rt_mode route =?s "unsupported" then
    if is_some (rt_adapter route)
    then [pscope +:+ ".adapter: unsupported route cannot set adapter"] else []
  else [scope +:+ ".mode: unknown route mode '" +:+ rt_mode route
        +:+ "' (expected native, adapter, or unsupported)"].

Definition validate_route_fallback (scope : string) (route : RouteConfig) (p : ProviderConfig)
    (index : nat) (fallback_id : string) : list string :=
  let fb_scope := scope +:+ ".fallback_accounts[" +:+ dec (Z.of_nat index) +:+ "] ("
                  +:+ fallback_id +:+ ")" in
  match account self fallback_id with
  | None => [fb_scope +:+ ": unknown account"]
  | Some fb =>
      if ac_provider_id fb =?s pv_id p then [] else
      (if rt_mode route =?s "adapter"
       then [fb_scope +:+ ": adapter route cannot have cross-provider fallback"] else [])
      ++ match provider self (ac_provider_id fb) with
         | None => [fb_scope +:+ ": unknown provider '" +:+ ac_provider_id fb +:+ "'"]
         | Some fbp =>
             flat_map (fun protocol =>
               if ProtocolMode_eqb
                    (pc_mode (protocol_capability self (pv_id fbp) (Some (ac_id fb))
                                (rt_model route) protocol)) PNative
               then []
               else [fb_scope +:+ ": cross-provider fallback requires native protocol "
                     +:+ Protocol_to_string protocol +:+ " on provider '" +:+ pv_id fbp +:+ "'"])
               (rt_protocols route)
         end
  end.

Definition validate_route (index : nat) (route : RouteConfig) : list string :=
  let scope := "routes[" +:+ dec (Z.of_nat index) +:+ "] (" +:+ rt_id route +:+ ")" in
  match provider self (rt_provider_id route) with
  | None => [scope +:+ ".provider_id: unknown provider " +:+ rt_provider_id route]
  | Some p =>
      (if bool_decide (rt_protocols route = [])
       then [scope +:+ ".protocols: must contain at least one protocol"] else [])
      ++ concat (imap (validate_route_protocol scope route p) (rt_protocols route))
      ++ concat (imap (validate_route_fallback scope route p) (rt_fallback_accounts route))
  end.

Definition validate_errors : list string :=
  concat (imap validate_provider (gc_providers self))
  ++ concat (imap validate_account (gc_accounts self))
  ++ concat (imap validate_route (gc_routes self)).

Definition validate : result unit (list string) :=
  match validate_errors with [] => Ok tt | errors => Err errors end.
End ValidateConfig.

(** ** Properties *)

Lemma rbind_ok {A B E} (r : result A E) (f : A -> result B E) b :
  rbind r f = Ok b <-> exists a, r = Ok a /\ f a = Ok b.
Proof. destruct r; cbn; naive_solver. Qed.

Lemma map_err_ok {A E F} (f : E -> F) (r : result A E) a : map_err f r = Ok a <-> r = Ok a.
Proof. destruct r; cbn; naive_solver. Qed.

Lemma ProtocolMode_eqb_eq a b : ProtocolMode_eqb a b = true <-> a = b.
Proof. apply bool_decide_eq_true. Qed.

(** What a declaration accepted by [ProtocolCapability::validate] looks like. *)
Definition capability_shape_ok (target : Protocol) (c : ProtocolCapability) : Prop :=
  match pc_mode c with
  | PNative | PUnsupported => pc_source_protocol c = None /\ pc_adapter c = None
  | PAdapter => exists source name,
      pc_source_protocol c = Some source /\ pc_adapter c = Some name /\
      source <> target /\ trim name <> ""
  end.

Lemma ProtocolCapability_validate_ok c target :
  ProtocolCapability_validate c target = Ok tt <-> capability_shape_ok target c.
Proof.
  unfold ProtocolCapability_validate, capability_shape_ok.
  destruct c as [[] src ad]; cbn.
  - destruct src, ad; cbn; naive_solver.
  - destruct src as [s|]; cbn; [|naive_solver].
    unfold Protocol_eqb. case_bool_decide as Hs; [naive_solver|].
    destruct ad as [name|]; cbn; [|naive_solver].
    unfold is_empty. destruct (String.eqb_spec (trim name) ""); cbn; naive_solver.
  - destruct src, ad; cbn; naive_solver.
Qed.

(** The adapter entries of a validated matrix: one conversion segment, in a
    registered direction, from a source that is not itself converted. *)
Definition adapter_entry_sound `{BuildCfg} (matrix : ProtocolCapabilityMatrix)
    (endpoints : Endpoints) (legacy_native : list Protocol)
    (target : Protocol) (c : ProtocolCapability) : Prop :=
  exists source name definition,
    pc_source_protocol c = Some source /\ pc_adapter c = Some name /\
    source <> target /\
    adapter_definition name = Some definition /\
    ad_from_protocol definition = target /\ ad_to_protocol definition = source /\
    match hm_get matrix source with
    | Some sc => pc_mode sc = PNative /\ has_endpoint endpoints source = true
    | None => has_endpoint endpoints source = true \/ source ∈ legacy_native
    end.

Section MatrixProps.
Context `{BuildCfg}.

Lemma validate_matrix_entry_ok endpoints scope p c :
  validate_matrix_entry endpoints scope (p, c) = Ok tt ->
  capability_shape_ok p c /\
  (pc_mode c = PNative -> has_endpoint endpoints p = true) /\
  (pc_mode c = PAdapter -> exists source name definition,
      pc_source_protocol c = Some source /\ pc_adapter c = Some name /\
      adapter_definition name = Some definition /\
      ad_from_protocol definition = p /\ ad_to_protocol definition = source).
Proof.
  unfold validate_matrix_entry. intros ([] & Hv & Hr)%rbind_ok.
  apply map_err_ok, ProtocolCapability_validate_ok in Hv. split; [done|].
  unfold ProtocolMode_eqb in Hr. destruct (pc_mode c) eqn:Hm; cbn in Hr.
  - split; [|done]. intros _. by destruct (has_endpoint endpoints p).
  - split; [done|]. intros _.
    destruct (pc_source_protocol c) as [source|] eqn:Hs; [|done].
    destruct (pc_adapter c) as [name|] eqn:Hn; [|done].
    destruct (adapter_definition name) as [d|] eqn:Hd; [|done].
    destruct (_ || _) eqn:Hor; [done|]. bool_to_prop. exists source, name, d.
    by repeat split; auto; apply Protocol_eqb_eq.
  - done.
Qed.

Lemma validate_matrix_source_ok matrix endpoints native scope p c :
  validate_matrix_source matrix endpoints native scope (p, c) = Ok tt ->
  pc_mode c = PAdapter -> exists source,
    pc_source_protocol c = Some source /\
    match hm_get matrix source with
    | Some sc => pc_mode sc = PNative /\ has_endpoint endpoints source = true
    | None => has_endpoint endpoints source = true \/ source ∈ native
    end.
Proof.
  unfold validate_matrix_source. intros Hr Hm. rewrite Hm in Hr. cbn in Hr.
  destruct (pc_source_protocol c) as [source|]; [|done]. exists source. split; [done|].
  destruct (hm_get matrix source) as [sc|].
  - destruct (pc_mode sc); [|done|done]. split; [done|]. by destruct (has_endpoint _ _).
  - destruct (has_endpoint endpoints source); [by left|]. right. cbn in Hr.
    case_bool_decide; [done|discriminate].
Qed.

Lemma validate_matrix_ok matrix endpoints native scope :
  validate_matrix matrix endpoints native scope = Ok tt ->
  Forall (fun p => has_endpoint endpoints p = true) native /\
  Forall (fun e => validate_matrix_entry endpoints scope e = Ok tt) matrix /\
  Forall (fun e => validate_matrix_source matrix endpoints native scope e = Ok tt) matrix.
Proof.
  unfold validate_matrix. intros ([] & H1 & ([] & H2 & H3)%rbind_ok)%rbind_ok.
  apply try_for_each_ok in H1, H2, H3. repeat split; try done.
  eapply Forall_impl; [exact H1|]. intros p Hp. cbn in Hp. by destruct (has_endpoint _ _).
Qed.

Lemma validate_matrix_adapter_sound matrix endpoints native scope target c :
  validate_matrix matrix endpoints native scope = Ok tt ->
  (target, c) ∈ matrix -> pc_mode c = PAdapter ->
  adapter_entry_sound matrix endpoints native target c.
Proof.
  intros (_ & He & Hs)%validate_matrix_ok Hin Hm.
  rewrite Forall_forall in He, Hs. specialize (He _ Hin). specialize (Hs _ Hin).
  apply validate_matrix_entry_ok in He as (Hshape & _ & Had).
  destruct (Had Hm) as (source & name & d & Hsrc & Hname & Hd & Hf & Ht).
  destruct (validate_matrix_source_ok _ _ _ _ _ _ Hs Hm) as (source' & Hsrc' & Hres).
  unfold capability_shape_ok in Hshape. rewrite Hm in Hshape.
  destruct Hshape as (source'' & name'' & Hsrc'' & _ & Hne & _).
  simplify_eq. by exists (ad_to_protocol d), name, d.
Qed.
End MatrixProps.

(** A matrix that [validate_matrix] accepts is well-formed: every native
    entry (and every legacy native protocol) has a non-blank endpoint, and
    every adapter entry names a registered adapter of exactly its direction
    whose source protocol is served natively - so conversion is a single
    segment and there are no adapter chains or cycles. *)
Theorem validate_matrix_sound (cfg : BuildCfg) matrix endpoints native scope
    (Hok : validate_matrix matrix endpoints native scope = Ok tt) :
  Forall (fun p => has_endpoint endpoints p = true) native /\
  (forall p c, (p, c) ∈ matrix -> capability_shape_ok p c) /\
  (forall p c, (p, c) ∈ matrix -> pc_mode c = PNative -> has_endpoint endpoints p = true) /\
  (forall p c, (p, c) ∈ matrix -> pc_mode c = PAdapter ->
     adapter_entry_sound matrix endpoints native p c).
Proof.
  pose proof (validate_matrix_ok _ _ _ _ Hok) as (Hn & He & _).
  rewrite Forall_forall in He. split; [done|]. repeat split.
  - intros p c Hin. by apply He, validate_matrix_entry_ok in Hin as (? & _).
  - intros p c Hin. by apply He, validate_matrix_entry_ok in Hin as (_ & ? & _).
  - intros p c Hin Hm. by eapply validate_matrix_adapter_sound.
Qed.

Lemma validate_matrix_sound_witness :
  let matrix := [(OpenAiResponses,
                  ProtocolCapability_adapter AnthropicMessages "kimi_responses_adapter");
                 (AnthropicMessages, ProtocolCapability_native)] in
  let endpoints := [(AnthropicMessages, "/v1/messages")] in
  adapter_entry_sound (H := true) matrix endpoints [] OpenAiResponses
    (ProtocolCapability_adapter AnthropicMessages "kimi_responses_adapter").
Proof.
  intros matrix endpoints.
  assert (@validate_matrix true matrix endpoints [] "p" = Ok tt) as Hok by reflexivity.
  destruct (validate_matrix_sound true matrix endpoints [] "p" Hok) as (_ & _ & _ & Ha).
  apply Ha; [apply list_elem_of_here | reflexivity].
Defined.

(** *** Iteration order of [HashMap]s *)

Section OverrideOrder.
Context (overrides overrides' : list (string * ModelCapabilityOverride)) (model : string).
Hypothesis Hwf : hm_wf overrides.
Hypothesis Hperm : overrides ≡ₚ overrides'.

(** At most one pattern of the map matches the model. *)
Definition override_unambiguous : Prop :=
  forall kv1 kv2, kv1 ∈ overrides -> kv2 ∈ overrides ->
    override_pattern_matches kv1.1 model = true ->
    override_pattern_matches kv2.1 model = true -> kv1 = kv2.

Lemma find_pattern_perm :
  override_unambiguous ->
  List.find (fun kv : string * ModelCapabilityOverride =>
               override_pattern_matches kv.1 model) overrides =
  List.find (fun kv => override_pattern_matches kv.1 model) overrides'.
Proof.
  intros Hu.
  assert (forall kv, kv ∈ overrides' -> kv ∈ overrides) as Hback by (intros; by rewrite Hperm).
  destruct (List.find _ overrides) as [kv|] eqn:E, (List.find _ overrides') as [kv'|] eqn:E';
    try done.
  - apply find_some in E as [Hin Hm], E' as [Hin' Hm']. f_equal.
    apply Hu; rewrite <- ?list_elem_of_In in *; auto.
  - apply find_some in E as [Hin Hm]. rewrite <- list_elem_of_In, Hperm, list_elem_of_In in Hin.
    eapply find_none in E'; [|done]. congruence.
  - apply find_some in E' as [Hin Hm]. rewrite <- list_elem_of_In in Hin.
    apply Hback, list_elem_of_In in Hin. eapply find_none in E; [|done]. congruence.
Qed.
End OverrideOrder.

(** A model override lookup does not depend on the iteration order of the
    override map when the map has an exact key for the model or at most one
    of its patterns matches it. *)
Theorem find_model_override_order_independent overrides overrides' model
    (Hwf : hm_wf overrides) (Hperm : overrides ≡ₚ overrides')
    (Hu : is_Some (hm_get overrides model) \/ override_unambiguous overrides model) :
  find_model_override overrides model = find_model_override overrides' model.
Proof.
  unfold find_model_override. rewrite <- (hm_get_perm _ _ _ Hwf Hperm).
  destruct (hm_get overrides model) eqn:E; [done|].
  destruct Hu as [[? ?]|Hu]; [congruence|]. cbn. by rewrite (find_pattern_perm _ _ _ Hperm Hu).
Qed.

Definition witness_override : ModelCapabilityOverride :=
  mkModelCapabilityOverride [(OpenAiChatCompletions, ProtocolCapability_native)] None.
Definition witness_override2 : ModelCapabilityOverride :=
  mkModelCapabilityOverride [(OpenAiChatCompletions, ProtocolCapability_unsupported)] None.

Lemma find_model_override_order_independent_witness :
  find_model_override [("gpt-*", witness_override); ("o1", witness_override2)] "gpt-4o"
  = find_model_override [("o1", witness_override2); ("gpt-*", witness_override)] "gpt-4o".
Proof.
  apply find_model_override_order_independent.
  - apply (bool_decide_unpack _). reflexivity.
  - apply perm_swap.
  - right. intros kv1 kv2 H1 H2.
    apply elem_of_cons in H1 as [->|H1]; apply elem_of_cons in H2 as [->|H2];
      [done| | |];
      repeat match goal with H : _ ∈ [_] |- _ => apply list_elem_of_singleton in H; subst end;
      cbn; try done; intros Ha Hb; try (vm_compute in Ha; discriminate Ha);
      vm_compute in Hb; discriminate Hb.
Defined.

(** Without an exact key, overlapping patterns make the result depend on
    the iteration order: the same set of overrides resolves the same model to
    different declarations (route patterns, by contrast, are ranked by
    specificity). *)
Theorem find_model_override_order_dependent :
  exists overrides overrides' model,
    hm_wf overrides /\ overrides ≡ₚ overrides' /\
    find_model_override overrides model <> find_model_override overrides' model.
Proof.
  exists [("gpt-*", witness_override); ("gpt-4*", witness_override2)],
         [("gpt-4*", witness_override2); ("gpt-*", witness_override)], "gpt-4o".
  split; [apply (bool_decide_unpack _); reflexivity|]. split; [apply perm_swap|].
  vm_compute. discriminate.
Qed.

(** *** The production build has no adapters *)

Lemma flat_map_nil {A B} (f : A -> list B) l :
  flat_map f l = [] <-> Forall (fun x => f x = []) l.
Proof.
  induction l as [|x l IH]; cbn; [by split; constructor|].
  rewrite Forall_cons, <- IH. split; [apply app_eq_nil|]. by intros [-> ->].
Qed.

Lemma imap_concat_nil {A B} (f : nat -> A -> list B) l :
  concat (imap f l) = [] -> forall i x, l !! i = Some x -> f i x = [].
Proof.
  revert f. induction l as [|y l IH]; intros f Hc i x Hi; [by rewrite lookup_nil in Hi|].
  cbn in Hc. apply app_eq_nil in Hc as [Hy Hc]. destruct i as [|i]; cbn in Hi.
  - by simplify_eq.
  - by apply (IH (f ∘ S) Hc i x).
Qed.

Lemma err_list_nil (r : result unit string) : err_list r = [] -> r = Ok tt.
Proof. destruct r as [[]|]; done. Qed.

Section Production.
Context (self : GatewayConfig).
Let cfg : BuildCfg := false.
#[local] Existing Instance cfg.

Definition no_adapter_entry (matrix : ProtocolCapabilityMatrix) : Prop :=
  forall p c, (p, c) ∈ matrix -> pc_mode c <> PAdapter.

Lemma validate_matrix_no_adapter matrix endpoints native scope :
  validate_matrix matrix endpoints native scope = Ok tt -> no_adapter_entry matrix.
Proof.
  intros Hok p c Hin Hm.
  destruct (validate_matrix_adapter_sound _ _ _ _ _ _ Hok Hin Hm)
    as (? & ? & ? & _ & _ & _ & Hd & _). done.
Qed.

Lemma validate_override_no_adapter matrix base endpoints native scope :
  validate_override_matrix matrix base endpoints native scope = Ok tt ->
  no_adapter_entry matrix.
Proof.
  unfold validate_override_matrix. intros ([] & Hv & _)%rbind_ok.
  by eapply validate_matrix_no_adapter.
Qed.

Definition provider_adapter_free (p : ProviderConfig) : Prop :=
  no_adapter_entry (pv_protocol_capabilities p) /\
  Forall (fun kv : string * ModelCapabilityOverride =>
            no_adapter_entry (mo_protocol_capabilities kv.2)) (pv_model_overrides p).
Definition account_adapter_free (a : AccountConfig) : Prop :=
  no_adapter_entry (ac_protocol_capabilities a) /\
  Forall (fun kv : string * ModelCapabilityOverride =>
            no_adapter_entry (mo_protocol_capabilities kv.2)) (ac_model_overrides a).

Lemma validate_provider_adapter_free i p :
  validate_provider i p = [] -> provider_adapter_free p.
Proof.
  unfold validate_provider. intros [H1 H2]%app_eq_nil. split.
  - eapply validate_matrix_no_adapter, err_list_nil, H1.
  - apply flat_map_nil in H2. eapply Forall_impl; [exact H2|]. intros kv Hkv.
    eapply validate_override_no_adapter, err_list_nil, Hkv.
Qed.

Lemma validate_account_adapter_free i a :
  validate_account self i a = [] -> account_adapter_free a.
Proof.
  unfold validate_account. intros [H1 H2]%app_eq_nil. split.
  - eapply validate_override_no_adapter, err_list_nil, H1.
  - apply flat_map_nil in H2. eapply Forall_impl; [exact H2|]. intros kv Hkv.
    eapply validate_override_no_adapter, err_list_nil, Hkv.
Qed.

Lemma validate_route_mode i r :
  validate_route self i r = [] -> rt_mode r = "native" \/ rt_mode r = "unsupported".
Proof.
  unfold validate_route. destruct (provider self _) as [p|]; [|done].
  intros [H1 [H2 _]%app_eq_nil]%app_eq_nil.
  case_bool_decide as Hn; [done|]. destruct (rt_protocols r) as [|q qs] eqn:Hq; [done|].
  specialize (imap_concat_nil _ _ H2 0%nat q eq_refl). unfold validate_route_protocol.
  destruct (String.eqb_spec (rt_mode r) "native") as [->|]; [by left|].
  destruct (String.eqb_spec (rt_mode r) "adapter") as [->|]; [by destruct (rt_adapter r)|].
  destruct (String.eqb_spec (rt_mode r) "unsupported") as [->|]; [by right|done].
Qed.
End Production.

Lemma validate_ok_nil `{BuildCfg} self : validate self = Ok tt -> validate_errors self = [].
Proof. unfold validate. by destruct (validate_errors self). Qed.

(** In the production build a configuration that passes [validate] uses no
    adapters at all: no provider, account or model override declares one, and
    every route is native or explicitly unsupported. *)
Theorem production_validate_adapter_free self
    (Hok : @validate false self = Ok tt) :
  Forall provider_adapter_free (gc_providers self) /\
  Forall account_adapter_free (gc_accounts self) /\
  Forall (fun r => rt_mode r = "native" \/ rt_mode r = "unsupported") (gc_routes self).
Proof.
  apply validate_ok_nil in Hok. unfold validate_errors in Hok.
  apply app_eq_nil in Hok as [Hp [Ha Hr]%app_eq_nil].
  rewrite !Forall_lookup. repeat split.
  - eapply validate_provider_adapter_free, imap_concat_nil; eauto.
  - eapply validate_provider_adapter_free, imap_concat_nil; eauto.
  - eapply validate_account_adapter_free, imap_concat_nil; eauto.
  - eapply validate_account_adapter_free, imap_concat_nil; eauto.
  - intros i r Hi. eapply validate_route_mode, imap_concat_nil; eauto.
Qed.

(** The configuration of the routing unit tests: one provider with a native
    Chat endpoint, one account and one route. *)
Definition example_provider : ProviderConfig :=
  mkProviderConfig "p" "p" "https://up.example/api/" [] [OpenAiChatCompletions]
    [(OpenAiChatCompletions, "/v1/chat")] Capabilities_native [] [].
Definition example_account : AccountConfig :=
  mkAccountConfig "a" "p" "a" None None None true 100 [] (Some Capabilities_native) [] [].
Definition example_route (id model : string) : RouteConfig :=
  mkRouteConfig id model "p" [OpenAiChatCompletions] "a" [] "x" "native" None false.
Definition example_config : GatewayConfig :=
  mkGatewayConfig "127.0.0.1:1" [example_provider] [example_account]
    [example_route "any" "*"; example_route "gpt" "gpt-*"; example_route "exact" "gpt-4o"].

Lemma production_validate_adapter_free_witness :
  Forall (fun r => rt_mode r = "native" \/ rt_mode r = "unsupported") (gc_routes example_config).
Proof.
  apply (production_validate_adapter_free example_config). vm_compute. reflexivity.
Defined.
