(* ===== verification/Routing.v ===== *)
(** * Route resolution ([src/src/domain/routing.rs])

    Selection of a route for a protocol and a model: the legacy resolver over
    configured routes (exact model, then longest prefix, then wildcard) and
    the resolver over a published runtime snapshot, with the intersection of
    model and adapter capabilities. *)

From Stdlib Require Import Sorted Ascii.
From stdpp Require Import base list strings sets sorting.
From S2P Require Import Prelude.
From S2P Require Import RustStr.
From S2P Require Import Protocol.
From S2P Require Import Config.

(** ** Data *)

Record RuntimeBinding : Type := mkRuntimeBinding {
  rb_binding_id : Z;
  rb_source_id : string;
  rb_provider_id : string;
  rb_account_id : string;
  rb_upstream_model_id : string;
  rb_protocol_upstream : Protocol;
  rb_upstream_endpoint : string;
  rb_mode : string;
  rb_adapter : option string;
  rb_effective_capabilities : Capabilities;
  rb_degraded_features : list string;
}.

Record RuntimeRoute : Type := mkRuntimeRoute {
  rr_route_id : string;
  rr_model : string;
  rr_protocol : Protocol;
  rr_strategy : string;
  rr_request_timeout_ms : option Z;    (** [i64] *)
  rr_max_retries : option Z;           (** [i32] *)
  rr_allow_lossy_conversion : bool;
  rr_bindings : list RuntimeBinding;
}.

(** [ResolvedBinding] has the fields of [RuntimeBinding]. *)
Record ResolvedBinding : Type := mkResolvedBinding {
  sb_binding_id : Z;
  sb_source_id : string;
  sb_provider_id : string;
  sb_account_id : string;
  sb_upstream_model_id : string;
  sb_protocol_upstream : Protocol;
  sb_upstream_endpoint : string;
  sb_mode : string;
  sb_adapter : option string;
  sb_effective_capabilities : Capabilities;
  sb_degraded_features : list string;
}.

Record ResolvedRoute : Type := mkResolvedRoute {
  rs_route_id : string;
  rs_strategy : string;
  rs_request_timeout_ms : option Z;
  rs_max_retries : option Z;
  rs_protocol : Protocol;
  rs_protocol_in : Protocol;
  rs_protocol_upstream : Protocol;
  rs_model : string;
  rs_requested_model : string;
  rs_upstream_model_id : string;
  rs_source_id : string;
  rs_provider_id : string;
  rs_primary_account_id : string;
  rs_fallback_accounts : list string;
  rs_fallback_bindings : list ResolvedBinding;
  rs_binding_id : option Z;
  rs_upstream_endpoint : string;
  rs_mode : string;
  rs_adapter : option string;
  rs_effective_capabilities : Capabilities;
  rs_degraded_features : list string;
  rs_allow_lossy_conversion : bool;
}.

(** [ResolvedRoute::is_degraded]. *)
Definition is_degraded (self : ResolvedRoute) : bool :=
  negb (bool_decide (rs_degraded_features self = [])).

Record RouteResolutionError : Type := mkRouteResolutionError {
  re_code : string;
  re_message : string;
  re_route_id : option string;
}.

(** [RouteResolver]: [None] runtime routes is the legacy resolver. *)
Record RouteResolver : Type := mkRouteResolver {
  rv_config : GatewayConfig;
  rv_runtime_routes : option (list RuntimeRoute);
}.

Definition RouteResolver_new (config : GatewayConfig) : RouteResolver :=
  mkRouteResolver config None.
Definition RouteResolver_from_runtime (config : GatewayConfig) (routes : list RuntimeRoute)
  : RouteResolver := mkRouteResolver config (Some routes).
Definition is_runtime_snapshot (self : RouteResolver) : bool := is_some (rv_runtime_routes self).
Definition runtime_routes (self : RouteResolver) : option (list RuntimeRoute) :=
  rv_runtime_routes self.

(** ** Helpers *)

(** [model_match_rank]: [(exact, specificity)]. *)
Definition model_match_rank (pattern model : string) : option (bool * Z) :=
  if pattern =?s model then Some (true, slen pattern)
  else if pattern =?s "*" then Some (false, 0)
  else if ends_with pattern "*" && starts_with model (drop_last pattern)
  then Some (false, slen pattern - 1)
  else None.

Definition join_endpoint (base endpoint : string) : string :=
  if starts_with endpoint "http://" || starts_with endpoint "https://"
  then endpoint
  else trim_end_matches "/"%char base +:+ "/" +:+ trim_start_matches "/"%char endpoint.

(** One field of [intersect_capabilities] (the [intersect!] macro): the
    effective mode and the features degraded so far, or the name of the
    feature that would be lost. *)
Definition intersect_field (name : string) (source adapter : CapabilityMode)
    (allow_lossy : bool) (degraded : list string)
    : result (CapabilityMode * list string) string :=
  match adapter with
  | CUnsupported =>
      match source with
      | CUnsupported => Ok (CUnsupported, degraded)
      | _ => if negb allow_lossy then Err name else Ok (CUnsupported, degraded ++ [name])
      end
  | CTranslated =>
      match source with
      | CNative => Ok (CTranslated, degraded ++ [name])
      | CUnsupported => Ok (CUnsupported, degraded)
      | CTranslated => Ok (CTranslated, degraded)
      end
  | CNative =>
      match source with
      | CUnsupported => Ok (CUnsupported, degraded)
      | _ => Ok (CNative, degraded)
      end
  end.

Definition intersect_capabilities (model : Capabilities) (adapter : option Capabilities)
    (allow_lossy : bool) : result (Capabilities * list string) string :=
  let ad (f : Capabilities -> CapabilityMode) := unwrap_or (f <$> adapter) CNative in
  let step name f degraded := intersect_field name (f model) (ad f) allow_lossy degraded in
  let? r1 := step "streaming" cap_streaming [] in
  let? r2 := step "tools" cap_tools r1.2 in
  let? r3 := step "tool_streaming" cap_tool_streaming r2.2 in
  let? r4 := step "thinking" cap_thinking r3.2 in
  let? r5 := step "web_search" cap_web_search r4.2 in
  let? r6 := step "file_search" cap_file_search r5.2 in
  let? r7 := step "vision" cap_vision r6.2 in
  let? r8 := step "usage" cap_usage r7.2 in
  Ok (mkCapabilities r1.1 r2.1 r3.1 r4.1 r5.1 r6.1 r7.1 r8.1, r8.2).

(** ** The runtime snapshot *)

Definition route_not_found (protocol : Protocol) (model : string) : RouteResolutionError :=
  mkRouteResolutionError "route_not_found"
    ("no route matches protocol " +:+ Protocol_to_string protocol +:+ " and model '"
     +:+ model +:+ "'") None.

Definition resolve_binding (b : RuntimeBinding) : ResolvedBinding :=
  mkResolvedBinding (rb_binding_id b) (rb_source_id b) (rb_provider_id b) (rb_account_id b)
    (rb_upstream_model_id b) (rb_protocol_upstream b) (rb_upstream_endpoint b) (rb_mode b)
    (rb_adapter b) (rb_effective_capabilities b) (rb_degraded_features b).

Definition resolve_runtime_route (routes : list RuntimeRoute) (protocol : Protocol)
    (model : string) : result ResolvedRoute RouteResolutionError :=
  match List.find (fun r => Protocol_eqb (rr_protocol r) protocol && (rr_model r =?s model)) routes with
  | None => Err (route_not_found protocol model)
  | Some route =>
      match rr_bindings route with
      | [] => Err (mkRouteResolutionError "route_unavailable"
                     ("route '" +:+ rr_route_id route +:+ "' has no available binding")
                     (Some (rr_route_id route)))
      | primary :: rest =>
          let fallback_bindings := map resolve_binding rest in
          Ok (mkResolvedRoute (rr_route_id route) (rr_strategy route)
                (rr_request_timeout_ms route) (rr_max_retries route)
                protocol protocol (rb_protocol_upstream primary) model model
                (rb_upstream_model_id primary) (rb_source_id primary) (rb_provider_id primary)
                (rb_account_id primary) (map sb_account_id fallback_bindings)
                fallback_bindings (Some (rb_binding_id primary)) (rb_upstream_endpoint primary)
                (rb_mode primary) (rb_adapter primary) (rb_effective_capabilities primary)
                (rb_degraded_features primary) (rr_allow_lossy_conversion route))
      end
  end.

(** ** The legacy resolver *)
Section Legacy.
Context `{BuildCfg}.
Context (config : GatewayConfig).

Definition rerr (code message : string) (route : RouteConfig) : RouteResolutionError :=
  mkRouteResolutionError code message (Some (rt_id route)).

(** The [for fallback in &route.fallback_accounts] loop. *)
Definition check_fallbacks (route : RouteConfig) (pv : ProviderConfig)
  : result unit RouteResolutionError :=
  try_for_each (fun fallback =>
    match account config fallback with
    | None => Err (rerr "fallback_account_not_found"
                     ("route references unknown fallback account '" +:+ fallback +:+ "'") route)
    | Some ac =>
        if ac_provider_id ac =?s pv_id pv then Ok tt
        else Err (rerr "fallback_provider_mismatch"
                    ("fallback account '" +:+ fallback +:+ "' belongs to provider '"
                     +:+ ac_provider_id ac +:+ "'") route)
    end) (rt_fallback_accounts route).

(** The [match route.mode.as_str()]: upstream protocol, mode, adapter name
    and adapter features. *)
Definition resolve_mode (route : RouteConfig) (pv : ProviderConfig) (ac : AccountConfig)
    (protocol : Protocol) (model : string)
  : result (Protocol * string * option string * option Capabilities) RouteResolutionError :=
  let declared := protocol_capability config (pv_id pv) (Some (ac_id ac)) model protocol in
  let pname := Protocol_to_string protocol in
  if rt_mode route =?s "native" then
    if negb (ProtocolMode_eqb (pc_mode declared) PNative)
    then Err (rerr "unsupported_protocol"
                ("protocol " +:+ pname +:+ " is not natively supported for model '"
                 +:+ model +:+ "'") route)
    else Ok (protocol, "native", None, None)
  else if rt_mode route =?s "adapter" then
    let? name := ok_or (rt_adapter route)
                   (rerr "adapter_missing" "adapter route requires an adapter name" route) in
    let? definition := ok_or (adapter_definition name)
                         (rerr "adapter_unknown" ("unknown adapter '" +:+ name +:+ "'") route) in
    if negb (Protocol_eqb (ad_from_protocol definition) protocol)
    then Err (rerr "adapter_direction_mismatch"
                ("adapter '" +:+ name +:+ "' accepts "
                 +:+ Protocol_to_string (ad_from_protocol definition) +:+ ", not " +:+ pname) route)
    else if negb (ProtocolMode_eqb (pc_mode declared) PAdapter)
            || negb (bool_decide (pc_adapter declared = Some name))
            || negb (bool_decide (pc_source_protocol declared = Some (ad_to_protocol definition)))
    then Err (rerr "adapter_capability_mismatch"
                ("route adapter '" +:+ name
                 +:+ "' does not match the effective protocol capability") route)
    else if negb (ProtocolMode_eqb
                    (pc_mode (protocol_capability config (pv_id pv) (Some (ac_id ac)) model
                                (ad_to_protocol definition))) PNative)
    then Err (rerr "adapter_source_unsupported"
                ("adapter source protocol " +:+ Protocol_to_string (ad_to_protocol definition)
                 +:+ " is not natively available") route)
    else Ok (ad_to_protocol definition, "adapter", Some name, Some (ad_features definition))
  else if rt_mode route =?s "unsupported" then
    Err (rerr "unsupported_protocol"
           ("route '" +:+ rt_id route +:+ "' explicitly marks protocol " +:+ pname
            +:+ " unsupported") route)
  else Err (rerr "invalid_route_mode" ("unknown route mode '" +:+ rt_mode route +:+ "'") route).

(** [resolve_candidate] on [self.config.routes[index]]. *)
Definition resolve_candidate (route : RouteConfig) (protocol : Protocol) (model : string)
  : result ResolvedRoute RouteResolutionError :=
  let? pv := ok_or (provider config (rt_provider_id route))
               (rerr "provider_not_found"
                  ("route references unknown provider '" +:+ rt_provider_id route +:+ "'") route) in
  let? ac := ok_or (account config (rt_primary_account_id route))
               (rerr "account_not_found"
                  ("route references unknown primary account '" +:+ rt_primary_account_id route
                   +:+ "'") route) in
  if negb (ac_provider_id ac =?s pv_id pv)
  then Err (rerr "account_provider_mismatch"
              ("primary account '" +:+ ac_id ac +:+ "' belongs to provider '"
               +:+ ac_provider_id ac +:+ "'") route)
  else
  let? _ := check_fallbacks route pv in
  let? m := resolve_mode route pv ac protocol model in
  let '(upstream, mode, adapter_name, adapter_features) := m in
  let uname := Protocol_to_string upstream in
  let? endpoint := ok_or (hm_get (pv_endpoints pv) upstream)
                     (rerr "endpoint_missing"
                        ("provider '" +:+ pv_id pv +:+ "' has no endpoint for " +:+ uname) route) in
  if is_empty (trim endpoint)
  then Err (rerr "endpoint_missing"
              ("provider '" +:+ pv_id pv +:+ "' has an empty endpoint for " +:+ uname) route)
  else
  let? caps := map_err
      (fun feature => rerr "lossy_conversion_not_allowed"
         ("feature '" +:+ feature +:+ "' cannot be represented by adapter") route)
      (intersect_capabilities (capabilities config (pv_id pv) (Some (ac_id ac)) model)
         adapter_features (rt_allow_lossy_conversion route)) in
  Ok (mkResolvedRoute (rt_id route) (rt_strategy route) None None protocol protocol upstream
        model model model (pv_id pv) (pv_id pv) (ac_id ac) (rt_fallback_accounts route) [] None
        (join_endpoint (pv_base_url pv) endpoint) mode adapter_name caps.1 caps.2
        (rt_allow_lossy_conversion route)).

(** A matching route: index, the route, and its rank. *)
Record Candidate : Type := mkCandidate {
  cd_index : nat;
  cd_route : RouteConfig;
  cd_specificity : Z;
  cd_exact : bool;
  cd_mode_rank : Z;
}.

Definition candidate_of (protocol : Protocol) (model : string) (index : nat)
    (route : RouteConfig) : option Candidate :=
  if bool_decide (protocol ∈ rt_protocols route) then
    match model_match_rank (rt_model route) model with
    | Some (exact, specificity) =>
        Some (mkCandidate index route specificity exact
                (if rt_mode route =?s "native" then 0 else 1))
    | None => None
    end
  else None.

Definition candidates (protocol : Protocol) (model : string) : list Candidate :=
  omap id (imap (candidate_of protocol model) (gc_routes config)).

(** The sort key [(!exact, Reverse(specificity), mode_rank)]; [key_le] is
    its lexicographic order. *)
Definition key_lt (c1 c2 : Candidate) : Prop :=
  let e c := if cd_exact c then 0 else 1 in
  e c1 < e c2 \/ (e c1 = e c2 /\
    (cd_specificity c2 < cd_specificity c1 \/
     (cd_specificity c1 = cd_specificity c2 /\ cd_mode_rank c1 < cd_mode_rank c2))).

Definition key_leb (c1 c2 : Candidate) : bool :=
  let e c := if cd_exact c then 0 else 1 in
  (e c1 <? e c2)
  || ((e c1 =? e c2)
      && ((cd_specificity c2 <? cd_specificity c1)
          || ((cd_specificity c1 =? cd_specificity c2)
              && (cd_mode_rank c1 <=? cd_mode_rank c2)))).

(** [slice::sort_by_key] is a stable sort. *)
Fixpoint insert_by_key (c : Candidate) (l : list Candidate) : list Candidate :=
  match l with
  | [] => [c]
  | d :: l' => if key_leb c d then c :: l else d :: insert_by_key c l'
  end.
Definition sort_by_key (l : list Candidate) : list Candidate := foldr insert_by_key [] l.

(** The loop over the sorted candidates. *)
Fixpoint try_candidates (protocol : Protocol) (model : string)
    (last_error : option RouteResolutionError) (l : list Candidate)
  : result (nat * ResolvedRoute) RouteResolutionError :=
  match l with
  | [] => Err (unwrap_or last_error (route_not_found protocol model))
  | c :: l' =>
      match resolve_candidate (cd_route c) protocol model with
      | Ok route => Ok (cd_index c, route)
      | Err error => try_candidates protocol model (Some error) l'
      end
  end.

Definition resolve_selected (protocol : Protocol) (model : string)
  : result (nat * ResolvedRoute) RouteResolutionError :=
  try_candidates protocol model None (sort_by_key (candidates protocol model)).
End Legacy.

(** [RouteResolver::resolve_detailed]. *)
Definition resolve_detailed `{BuildCfg} (self : RouteResolver) (protocol : Protocol)
    (model : string) : result ResolvedRoute RouteResolutionError :=
  match rv_runtime_routes self with
  | Some routes => resolve_runtime_route routes protocol model
  | None =>
      match resolve_selected (rv_config self) protocol model with
      | Ok (_, route) => Ok route
      | Err e => Err e
      end
  end.

(** ** Properties of the legacy resolver *)

(** The order in which candidates are tried: by key, ties in configuration
    order. *)
Definition tried_before (c1 c2 : Candidate) : Prop :=
  key_lt c1 c2 \/ (~ key_lt c2 c1 /\ (cd_index c1 < cd_index c2)%nat).

Lemma key_leb_spec c1 c2 : key_leb c1 c2 = true <-> ~ key_lt c2 c1.
Proof. unfold key_leb, key_lt. rewrite !orb_true_iff, !andb_true_iff, !orb_true_iff, !andb_true_iff. lia. Qed.

Lemma tried_before_trans c1 c2 c3 :
  tried_before c1 c2 -> tried_before c2 c3 -> tried_before c1 c3.
Proof. unfold tried_before, key_lt. lia. Qed.

Lemma tried_before_total c1 c2 :
  cd_index c1 <> cd_index c2 -> tried_before c1 c2 \/ tried_before c2 c1.
Proof. unfold tried_before, key_lt. lia. Qed.

Lemma tried_before_irrefl c : ~ tried_before c c.
Proof. unfold tried_before, key_lt. lia. Qed.

Lemma insert_by_key_perm c l : insert_by_key c l ≡ₚ c :: l.
Proof.
  induction l as [|d l IH]; cbn; [done|]. destruct (key_leb c d); [done|].
  rewrite IH. apply perm_swap.
Qed.

Lemma sort_by_key_perm l : sort_by_key l ≡ₚ l.
Proof. induction l as [|c l IH]; cbn; [done|]. by rewrite insert_by_key_perm, IH. Qed.

Lemma insert_by_key_sorted c l :
  StronglySorted tried_before l ->
  Forall (fun d => (cd_index c < cd_index d)%nat) l ->
  StronglySorted tried_before (insert_by_key c l).
Proof.
  induction 1 as [|d l Hs IH Hd]; cbn; intros Hi; [by repeat constructor|].
  apply Forall_cons in Hi as [Hcd Hi]. destruct (key_leb c d) eqn:E.
  - apply key_leb_spec in E. assert (tried_before c d) as Hb by (unfold tried_before, key_lt in *; lia).
    constructor; [by constructor|]. constructor; [done|].
    eapply Forall_impl; [exact Hd|]. intros e He. by eapply tried_before_trans.
  - constructor; [by apply IH|]. rewrite insert_by_key_perm. constructor; [|done].
    assert (~ ~ key_lt d c) as Hk by (rewrite <- key_leb_spec; congruence).
    unfold tried_before, key_lt in *. lia.
Qed.

Lemma sort_by_key_sorted l :
  StronglySorted (fun c d => (cd_index c < cd_index d)%nat) l ->
  StronglySorted tried_before (sort_by_key l).
Proof.
  induction 1 as [|c l Hs IH Hc]; cbn; [constructor|].
  apply insert_by_key_sorted; [done|]. by rewrite sort_by_key_perm.
Qed.

Section LegacyProps.
Context `{BuildCfg}.
Context (config : GatewayConfig) (protocol : Protocol) (model : string).

Let cands := candidates config protocol model.

Lemma elem_of_candidates c :
  c ∈ cands <->
  exists route, gc_routes config !! cd_index c = Some route /\
    candidate_of protocol model (cd_index c) route = Some c.
Proof.
  unfold cands, candidates. rewrite list_elem_of_omap. setoid_rewrite list_elem_of_lookup.
  setoid_rewrite list_lookup_imap_Some. split.
  - intros (oc & (i & route & Hi & ->) & Hc). cbn in Hc. exists route.
    assert (cd_index c = i) as ->; [|done].
    unfold candidate_of in Hc. by repeat (case_match; simplify_eq/=).
  - intros (route & Hi & Hc). eexists. split; [by exists (cd_index c), route|]. done.
Qed.

Lemma candidate_of_index i route c : candidate_of protocol model i route = Some c -> cd_index c = i.
Proof. unfold candidate_of. intros. by repeat (case_match; simplify_eq/=). Qed.

Lemma candidate_of_route i route c : candidate_of protocol model i route = Some c -> cd_route c = route.
Proof. unfold candidate_of. intros. by repeat (case_match; simplify_eq/=). Qed.

Lemma omap_imap_sorted (routes : list RouteConfig) f (k : nat) :
  (forall i route c, f i route = Some c -> cd_index c = (k + i)%nat) ->
  StronglySorted (fun c d => (cd_index c < cd_index d)%nat) (omap id (imap f routes)) /\
  Forall (fun c => (k <= cd_index c)%nat) (omap id (imap f routes)).
Proof.
  revert f k. induction routes as [|r routes IH]; intros f k Hf; [by repeat constructor|].
  cbn. destruct (IH (f ∘ S) (S k)) as [Hs Hall].
  { intros i route c Hc. apply Hf in Hc. lia. }
  destruct (f 0%nat r) as [c|] eqn:E; cbn.
  - apply Hf in E. split.
    + constructor; [done|]. eapply Forall_impl; [exact Hall|]. cbn. lia.
    + constructor; [lia|]. eapply Forall_impl; [exact Hall|]. cbn. lia.
  - split; [done|]. eapply Forall_impl; [exact Hall|]. cbn. lia.
Qed.

Lemma candidates_sorted :
  StronglySorted tried_before (sort_by_key cands).
Proof.
  apply sort_by_key_sorted. unfold cands, candidates.
  apply (omap_imap_sorted _ _ 0%nat). intros i route c Hc. by apply candidate_of_index in Hc.
Qed.

Lemma try_candidates_ok l last i r :
  try_candidates config protocol model last l = Ok (i, r) ->
  exists l1 c l2, l = l1 ++ c :: l2 /\ cd_index c = i /\
    resolve_candidate config (cd_route c) protocol model = Ok r /\
    Forall (fun d => is_ok (resolve_candidate config (cd_route d) protocol model) = false) l1.
Proof.
  revert last. induction l as [|c l IH]; intros last; cbn; [done|].
  destruct (resolve_candidate config (cd_route c) protocol model) as [r'|e] eqn:E.
  - intros [= <- <-]. exists [], c, l. by repeat split.
  - intros (l1 & d & l2 & -> & Hi & Hr & Hf)%IH. exists (c :: l1), d, l2.
    repeat split; auto. constructor; [by rewrite E|done].
Qed.

Lemma try_candidates_err l last_error e :
  try_candidates config protocol model last_error l = Err e ->
  Forall (fun d => is_ok (resolve_candidate config (cd_route d) protocol model) = false) l /\
  match last l with
  | None => e = unwrap_or last_error (route_not_found protocol model)
  | Some d => resolve_candidate config (cd_route d) protocol model = Err e
  end.
Proof.
  revert last_error. induction l as [|c l IH]; intros last_error.
  { intros [= <-]. by split. }
  cbn [try_candidates].
  destruct (resolve_candidate config (cd_route c) protocol model) as [r'|e'] eqn:E; [done|].
  intros [Hf He]%IH. split; [constructor; [by rewrite E|done]|].
  rewrite last_cons. destruct (last l) as [d|]; cbn; [done|]. cbn in He. by rewrite E, He.
Qed.
End LegacyProps.

(** The legacy resolver returns the best-ranked route that resolves:
    the returned route matches the protocol and model, and every matching
    route tried before it - an exact model before prefixes, longer prefixes
    before shorter, native before adapter, ties in configuration order -
    failed to resolve. *)
Theorem resolve_selected_best (cfg : BuildCfg) config protocol model i r
    (Hok : resolve_selected config protocol model = Ok (i, r)) :
  exists c, c ∈ candidates config protocol model /\ cd_index c = i /\
    resolve_candidate config (cd_route c) protocol model = Ok r /\
    forall d, d ∈ candidates config protocol model -> d <> c ->
      is_ok (resolve_candidate config (cd_route d) protocol model) = true ->
      tried_before c d.
Proof.
  unfold resolve_selected in Hok.
  apply try_candidates_ok in Hok as (l1 & c & l2 & Hl & Hi & Hr & Hf).
  pose proof (candidates_sorted config protocol model) as Hs. rewrite Hl in Hs.
  assert (forall d, d ∈ candidates config protocol model <-> d ∈ l1 ++ c :: l2) as Hin.
  { intros d. by rewrite <- Hl, sort_by_key_perm. }
  exists c. repeat split; auto.
  - apply Hin. set_solver.
  - intros d Hd%Hin Hne Hdok. apply elem_of_app in Hd as [Hd|Hd].
    + rewrite Forall_forall in Hf. apply Hf in Hd. congruence.
    + apply elem_of_cons in Hd as [->|Hd]; [done|].
      apply StronglySorted_app_1_r in Hs. inversion Hs as [|? ? _ Hall]; subst.
      rewrite Forall_forall in Hall. auto.
Qed.

Lemma resolve_selected_best_witness :
  exists c, c ∈ candidates example_config OpenAiChatCompletions "gpt-4o" /\ cd_index c = 2%nat.
Proof.
  destruct (@resolve_selected false example_config OpenAiChatCompletions "gpt-4o")
    as [[i r]|] eqn:E; [|vm_compute in E; discriminate E].
  destruct (resolve_selected_best false _ _ _ _ _ E) as (c & Hc & Hi & _).
  exists c. split; [exact Hc|]. rewrite Hi. vm_compute in E. injection E as <- _. reflexivity.
Defined.

(** When the legacy resolver fails, either no configured route matches
    and the error is [route_not_found], or every matching route fails to
    resolve and the error is that of the lowest-ranked one. *)
Theorem resolve_selected_error (cfg : BuildCfg) config protocol model e
    (Herr : resolve_selected config protocol model = Err e) :
  Forall (fun c => is_ok (resolve_candidate config (cd_route c) protocol model) = false)
         (candidates config protocol model) /\
  ((candidates config protocol model = [] /\ e = route_not_found protocol model) \/
   exists c, c ∈ candidates config protocol model /\
     resolve_candidate config (cd_route c) protocol model = Err e /\
     forall d, d ∈ candidates config protocol model -> d <> c -> tried_before d c).
Proof.
  unfold resolve_selected in Herr. apply try_candidates_err in Herr as [Hf Hl].
  pose proof (sort_by_key_perm (candidates config protocol model)) as Hp.
  split; [by rewrite <- Hp|].
  pose proof (candidates_sorted config protocol model) as Hs.
  destruct (last (sort_by_key _)) as [c|] eqn:E.
  - right. apply last_Some in E as [l1 El]. rewrite El in Hp, Hs.
    assert (forall d, d ∈ candidates config protocol model <-> d ∈ l1 ++ [c]) as Hin.
    { intros d. by rewrite Hp. }
    exists c. split; [apply Hin; set_solver|]. split; [done|].
    intros d Hd%Hin Hne. apply elem_of_app in Hd as [Hd|Hd%list_elem_of_singleton]; [|done].
    eapply (StronglySorted_app_1_elem_of _ _ _ _ _ Hs); [done|set_solver].
  - left. apply last_None in E. rewrite E in Hp. split; [|done].
    by apply Permutation_nil in Hp.
Qed.

Lemma resolve_selected_error_witness :
  candidates example_config AnthropicMessages "gpt-4o" = [] /\
  exists e, @resolve_selected false example_config AnthropicMessages "gpt-4o" = Err e.
Proof.
  destruct (@resolve_selected false example_config AnthropicMessages "gpt-4o") as [?|e] eqn:E;
    [vm_compute in E; discriminate E|].
  destruct (resolve_selected_error false _ _ _ _ E) as [_ [[Hn _]|(c & Hc & _)]];
    [split; [exact Hn|eexists; reflexivity]|].
  vm_compute in Hc. inversion Hc.
Defined.

(** ** Capability intersection *)

(** Support order of feature modes. *)
Definition mode_rank (m : CapabilityMode) : Z :=
  match m with CUnsupported => 0 | CTranslated => 1 | CNative => 2 end.

Definition feature_fields : list (string * (Capabilities -> CapabilityMode)) :=
  [("streaming", cap_streaming); ("tools", cap_tools); ("tool_streaming", cap_tool_streaming);
   ("thinking", cap_thinking); ("web_search", cap_web_search); ("file_search", cap_file_search);
   ("vision", cap_vision); ("usage", cap_usage)].

(** What one field of the intersection promises. *)
Definition field_spec (source adapter effective : CapabilityMode) : Prop :=
  mode_rank effective <= mode_rank adapter /\
  (effective = CUnsupported <-> source = CUnsupported \/ adapter = CUnsupported) /\
  (effective = CTranslated -> adapter = CTranslated).

Lemma intersect_field_ok name source adapter lossy degraded m degraded' :
  intersect_field name source adapter lossy degraded = Ok (m, degraded') ->
  field_spec source adapter m /\
  degraded' = degraded ++ (if mode_rank m <? mode_rank source then [name] else []) /\
  (lossy = false -> source <> CUnsupported -> m <> CUnsupported).
Proof.
  unfold intersect_field, field_spec.
  destruct source, adapter, lossy; cbn; intros [= <- <-]; cbn; rewrite ?app_nil_r;
    repeat split; try done; try lia; intuition congruence.
Qed.

Lemma intersect_field_err name source adapter lossy degraded f :
  intersect_field name source adapter lossy degraded = Err f ->
  f = name /\ lossy = false /\ source <> CUnsupported /\ adapter = CUnsupported.
Proof. destruct source, adapter, lossy; cbn; intros [= <-]; repeat split; congruence. Qed.

Definition adapter_mode (adapter : option Capabilities) (f : Capabilities -> CapabilityMode)
  : CapabilityMode := unwrap_or (f <$> adapter) CNative.

(** Peel one [let?] of [intersect_capabilities]. *)
Ltac peel_field H :=
  let r := fresh "r" in let Hr := fresh "Hf" in
  apply rbind_ok in H as (r & Hr & H); destruct r as [? ?];
  apply intersect_field_ok in Hr as (? & ? & ?); cbn [fst snd] in H.

(** Capability intersection, when it succeeds: each effective feature is
    at most what the adapter offers and is unsupported exactly when the model
    or the adapter does not support it; the degraded list names, in field
    order, exactly the features that became weaker than the model's; and
    without [allow_lossy] no supported feature is lost. *)
Theorem intersect_capabilities_sound model adapter allow_lossy effective degraded
    (Hok : intersect_capabilities model adapter allow_lossy = Ok (effective, degraded)) :
  Forall (fun nf => field_spec (nf.2 model) (adapter_mode adapter nf.2) (nf.2 effective))
         feature_fields /\
  degraded = map fst (List.filter (fun nf => mode_rank (nf.2 effective) <? mode_rank (nf.2 model))
                             feature_fields) /\
  (allow_lossy = false ->
   Forall (fun nf => nf.2 model <> CUnsupported -> nf.2 effective <> CUnsupported) feature_fields).
Proof.
  unfold intersect_capabilities in Hok. do 8 peel_field Hok. injection Hok as <- <-. split; [|split].
  - unfold feature_fields. rewrite !Forall_cons, Forall_nil. cbn. tauto.
  - cbn. subst. rewrite <- !app_assoc. cbn.
    repeat match goal with |- context [if ?b then _ else _] => destruct b; cbn end; reflexivity.
  - intros ->. unfold feature_fields. rewrite !Forall_cons, Forall_nil. cbn. tauto.
Qed.

Lemma intersect_capabilities_sound_witness :
  intersect_capabilities Capabilities_native
    (Some (mkCapabilities CTranslated CNative CTranslated CNative CNative CUnsupported CNative CNative))
    true
  = Ok (mkCapabilities CTranslated CNative CTranslated CNative CNative CUnsupported CNative CNative,
        ["streaming"; "tool_streaming"; "file_search"]) /\
  Forall (fun nf : string * (Capabilities -> CapabilityMode) =>
    field_spec (nf.2 Capabilities_native) CNative (nf.2 Capabilities_native)) feature_fields.
Proof.
  split; [reflexivity|].
  assert (intersect_capabilities Capabilities_native None false = Ok (Capabilities_native, []))
    as Hok by reflexivity.
  destruct (intersect_capabilities_sound _ _ _ _ _ Hok) as (Hf & _ & _). exact Hf.
Defined.

(** The mode a native path reports for a feature of the model. *)
Definition native_path_mode (m : CapabilityMode) : CapabilityMode :=
  match m with CUnsupported => CUnsupported | _ => CNative end.

Lemma intersect_field_native name source lossy degraded :
  intersect_field name source CNative lossy degraded = Ok (native_path_mode source, degraded).
Proof. by destruct source. Qed.

(** On a native path (no adapter) the intersection never fails and reports
    no degradation, but it is not the identity: a feature the model serves
    only in translated form is reported as native. *)
Theorem intersect_capabilities_native_path model allow_lossy :
  exists effective, intersect_capabilities model None allow_lossy = Ok (effective, []) /\
  Forall (fun nf => nf.2 effective = native_path_mode (nf.2 model)) feature_fields.
Proof.
  eexists. split.
  - unfold intersect_capabilities. cbn -[intersect_field].
    do 8 (rewrite intersect_field_native; cbn -[intersect_field]). reflexivity.
  - unfold feature_fields. rewrite !Forall_cons, Forall_nil. cbn. tauto.
Qed.

(** ** Validated configurations resolve *)

Lemma provider_Some config id p : provider config id = Some p -> pv_id p = id /\ p ∈ gc_providers config.
Proof.
  unfold provider. intros [Hin He]%find_some. bool_to_prop. by rewrite list_elem_of_In.
Qed.

Lemma account_Some config id a : account config id = Some a -> ac_id a = id /\ a ∈ gc_accounts config.
Proof.
  unfold account. intros [Hin He]%find_some. bool_to_prop. by rewrite list_elem_of_In.
Qed.

Section Validated.
Context `{BuildCfg}.
Context (config : GatewayConfig).
Hypothesis Hvalid : validate config = Ok tt.

(** Native entries of [matrix] have an endpoint. *)
Definition native_has_endpoint (endpoints : Endpoints) (matrix : ProtocolCapabilityMatrix) : Prop :=
  forall p c, hm_get matrix p = Some c -> pc_mode c = PNative -> has_endpoint endpoints p = true.

Lemma validate_matrix_native matrix endpoints native scope :
  validate_matrix matrix endpoints native scope = Ok tt -> native_has_endpoint endpoints matrix.
Proof.
  intros (_ & He & _)%validate_matrix_ok p c Hin%hm_get_Some_in Hm.
  rewrite Forall_forall in He. by apply He, validate_matrix_entry_ok in Hin as (_ & ? & _); auto.
Qed.

Lemma validate_override_native matrix base endpoints native scope :
  validate_override_matrix matrix base endpoints native scope = Ok tt ->
  native_has_endpoint endpoints matrix.
Proof.
  unfold validate_override_matrix. intros ([] & Hv & _)%rbind_ok.
  by eapply validate_matrix_native.
Qed.

Lemma find_model_override_in overrides model mo :
  find_model_override overrides model = Some mo -> exists k, (k, mo) ∈ overrides.
Proof.
  unfold find_model_override. destruct (hm_get overrides model) as [m|] eqn:E; cbn.
  - intros [= <-]. eauto using hm_get_Some_in.
  - destruct (List.find _ _) as [[k m]|] eqn:Ef; cbn; [|done]. intros [= <-].
    apply find_some in Ef as [Hin _]. exists k. by apply list_elem_of_In.
Qed.

Lemma validated_provider p : p ∈ gc_providers config ->
  native_has_endpoint (pv_endpoints p) (pv_protocol_capabilities p) /\
  Forall (fun q => has_endpoint (pv_endpoints p) q = true) (pv_native_protocols p) /\
  (forall k mo, (k, mo) ∈ pv_model_overrides p ->
     native_has_endpoint (pv_endpoints p) (mo_protocol_capabilities mo)).
Proof.
  intros [i Hi]%list_elem_of_lookup. pose proof (validate_ok_nil _ Hvalid) as Hn.
  apply app_eq_nil in Hn as [Hp _]. pose proof (imap_concat_nil _ _ Hp _ _ Hi) as Hv.
  apply app_eq_nil in Hv as [H1%err_list_nil H2%flat_map_nil]. split_and!.
  - by eapply validate_matrix_native.
  - by apply validate_matrix_ok in H1 as (? & _).
  - intros k mo Hin. rewrite Forall_forall in H2. apply H2, err_list_nil in Hin.
    by eapply validate_override_native.
Qed.

Lemma validated_account a p : a ∈ gc_accounts config ->
  provider config (ac_provider_id a) = Some p ->
  native_has_endpoint (pv_endpoints p) (ac_protocol_capabilities a) /\
  (forall k mo, (k, mo) ∈ ac_model_overrides a ->
     native_has_endpoint (pv_endpoints p) (mo_protocol_capabilities mo)).
Proof.
  intros [i Hi]%list_elem_of_lookup Hpv. pose proof (validate_ok_nil _ Hvalid) as Hn.
  apply app_eq_nil in Hn as [_ [Ha _]%app_eq_nil]. pose proof (imap_concat_nil _ _ Ha _ _ Hi) as Hv.
  unfold validate_account in Hv. rewrite Hpv in Hv.
  apply app_eq_nil in Hv as [H1%err_list_nil H2%flat_map_nil]. split.
  - by eapply validate_override_native.
  - intros k mo Hin. rewrite Forall_forall in H2. apply H2, err_list_nil in Hin.
    by eapply validate_override_native.
Qed.

(** Whichever level declares a protocol native, its endpoint exists. *)
Lemma protocol_capability_native_endpoint p a model protocol :
  provider config (pv_id p) = Some p -> account config (ac_id a) = Some a ->
  ac_provider_id a = pv_id p ->
  pc_mode (protocol_capability config (pv_id p) (Some (ac_id a)) model protocol) = PNative ->
  has_endpoint (pv_endpoints p) protocol = true.
Proof.
  intros Hp Ha Hap. pose proof (provider_Some _ _ _ Hp) as [_ Hpin].
  pose proof (account_Some _ _ _ Ha) as [_ Hain].
  destruct (validated_provider p Hpin) as (Hpm & Hpl & Hpo).
  destruct (validated_account a p Hain) as (Ham & Hao); [by rewrite Hap|].
  unfold protocol_capability. cbn. rewrite Ha, Hp. cbn.
  destruct (find_model_override (ac_model_overrides a) model ≫= _) as [v|] eqn:E1.
  { apply bind_Some in E1 as (mo & [k Hk]%find_model_override_in & Hg). by apply (Hao _ _ Hk _ _ Hg). }
  destruct (find_model_override (pv_model_overrides p) model ≫= _) as [v|] eqn:E2.
  { apply bind_Some in E2 as (mo & [k Hk]%find_model_override_in & Hg). by apply (Hpo _ _ Hk _ _ Hg). }
  destruct (hm_get (ac_protocol_capabilities a) protocol) as [v|] eqn:E3; [by apply (Ham _ _ E3)|].
  destruct (hm_get (pv_protocol_capabilities p) protocol) as [v|] eqn:E4; [by apply (Hpm _ _ E4)|].
  destruct (_ && _) eqn:E5; [|done]. intros _. bool_to_prop. rewrite Forall_forall in Hpl. auto.
Qed.

Lemma validated_native_route route protocol p :
  route ∈ gc_routes config -> rt_mode route = "native" -> protocol ∈ rt_protocols route ->
  provider config (rt_provider_id route) = Some p ->
  pc_mode (protocol_capability config (pv_id p) (Some (rt_primary_account_id route))
             (rt_model route) protocol) = PNative.
Proof.
  intros [i Hi]%list_elem_of_lookup Hmode [j Hj]%list_elem_of_lookup Hp.
  pose proof (validate_ok_nil _ Hvalid) as Hn.
  apply app_eq_nil in Hn as [_ [_ Hr]%app_eq_nil]. pose proof (imap_concat_nil _ _ Hr _ _ Hi) as Hv.
  unfold validate_route in Hv. rewrite Hp in Hv. apply app_eq_nil in Hv as [_ [Hv _]%app_eq_nil].
  pose proof (imap_concat_nil _ _ Hv _ _ Hj) as Hq. unfold validate_route_protocol in Hq.
  rewrite Hmode in Hq. cbn in Hq. destruct (ProtocolMode_eqb _ _) eqn:E; [|done].
  by apply ProtocolMode_eqb_eq.
Qed.

Lemma check_fallbacks_ok route pv :
  Forall (fun f => exists a, account config f = Some a /\ ac_provider_id a = pv_id pv)
         (rt_fallback_accounts route) ->
  check_fallbacks config route pv = Ok tt.
Proof.
  intros Hf. apply try_for_each_ok. eapply Forall_impl; [exact Hf|]. cbn.
  intros f (a & -> & ->). by rewrite String.eqb_refl.
Qed.
End Validated.

(** Validation is enough for native routes: in a configuration accepted by
    [validate], a native route whose primary and fallback accounts exist and
    belong to its provider resolves for each of its protocols at its own model
    name, to the native upstream of that protocol, with no degraded feature. *)
Theorem validated_native_route_resolves (cfg : BuildCfg) config route protocol a
    (Hvalid : validate config = Ok tt)
    (Hroute : route ∈ gc_routes config) (Hmode : rt_mode route = "native")
    (Hproto : protocol ∈ rt_protocols route)
    (Hacc : account config (rt_primary_account_id route) = Some a)
    (Hown : ac_provider_id a = rt_provider_id route)
    (Hfb : Forall (fun f => exists b, account config f = Some b /\
                              ac_provider_id b = rt_provider_id route)
                  (rt_fallback_accounts route)) :
  exists r, resolve_candidate config route protocol (rt_model route) = Ok r /\
    rs_protocol_upstream r = protocol /\ rs_mode r = "native" /\
    rs_primary_account_id r = rt_primary_account_id route /\ is_degraded r = false.
Proof.
  pose proof (account_Some _ _ _ Hacc) as [Haid _].
  destruct (provider config (rt_provider_id route)) as [p|] eqn:Hp.
  2:{ apply list_elem_of_lookup in Hroute as [i Hi].
      pose proof (validate_ok_nil _ Hvalid) as Hn. apply app_eq_nil in Hn as [_ [_ Hr]%app_eq_nil].
      pose proof (imap_concat_nil _ _ Hr _ _ Hi) as Hv. unfold validate_route in Hv.
      by rewrite Hp in Hv. }
  pose proof (provider_Some _ _ _ Hp) as [Hpid _].
  pose proof (validated_native_route config Hvalid route protocol p Hroute Hmode Hproto Hp) as Hnat.
  rewrite <- Haid in Hnat, Hacc. rewrite <- Hpid in Hp, Hown, Hfb.
  pose proof (protocol_capability_native_endpoint config Hvalid p a _ protocol Hp Hacc Hown Hnat) as Hep.
  unfold has_endpoint in Hep. destruct (hm_get (pv_endpoints p) protocol) as [ep|] eqn:Eep; [|done].
  cbn in Hep. bool_to_prop.
  destruct (intersect_capabilities_native_path
              (capabilities config (pv_id p) (Some (ac_id a)) (rt_model route))
              (rt_allow_lossy_conversion route)) as (eff & Heff & _).
  unfold resolve_candidate. rewrite <- Hpid, Hp, <- Haid, Hacc. cbn.
  rewrite Hown, String.eqb_refl. cbn. rewrite check_fallbacks_ok by done. cbn.
  unfold resolve_mode. rewrite Hmode. cbn. rewrite Hnat.
  change (ProtocolMode_eqb PNative PNative) with true. cbn. rewrite Eep. cbn.
  rewrite Hep, Heff. cbn. eexists. split; [reflexivity|]. by cbn.
Qed.

Lemma validated_native_route_resolves_witness :
  exists r, @resolve_candidate false example_config (example_route "gpt" "gpt-*")
              OpenAiChatCompletions "gpt-*" = Ok r /\ rs_mode r = "native".
Proof.
  destruct (validated_native_route_resolves false example_config (example_route "gpt" "gpt-*")
              OpenAiChatCompletions example_account) as (r & Hr & _ & Hm & _);
    try reflexivity.
  - apply list_elem_of_further, list_elem_of_here.
  - apply list_elem_of_here.
  - apply List.Forall_nil.
  - exists r. split; [exact Hr | exact Hm].
Defined.

(** ** Cross-provider fallback *)

Lemma resolve_candidate_fallbacks `{BuildCfg} config route protocol model r :
  resolve_candidate config route protocol model = Ok r ->
  Forall (fun f => exists b, account config f = Some b /\ ac_provider_id b = rt_provider_id route)
         (rt_fallback_accounts route).
Proof.
  unfold resolve_candidate. intros (pv & Hp & (ac & Ha & Hr)%rbind_ok)%rbind_ok.
  destruct (provider config _) as [pv'|] eqn:Hpv; [|done]. injection Hp as ->.
  apply provider_Some in Hpv as [Hid _].
  destruct (negb _); [done|]. apply rbind_ok in Hr as ([] & Hf & _).
  apply try_for_each_ok in Hf. eapply Forall_impl; [exact Hf|]. intros f. cbn.
  destruct (account config f) as [b|]; [|done].
  destruct (String.eqb_spec (ac_provider_id b) (pv_id pv)) as [E|]; [|done].
  intros _. exists b. by rewrite E, Hid.
Qed.

(** Two providers that both serve Chat natively; the route's fallback account
    belongs to the second one. *)
Definition cross_provider_config : GatewayConfig :=
  mkGatewayConfig "127.0.0.1:1"
    [example_provider;
     mkProviderConfig "p2" "p2" "https://other.example" [] [OpenAiChatCompletions]
       [(OpenAiChatCompletions, "/v1/chat")] Capabilities_native [] []]
    [example_account;
     mkAccountConfig "a2" "p2" "a2" None None None true 100 [] None [] []]
    [mkRouteConfig "r" "m" "p" [OpenAiChatCompletions] "a" ["a2"] default_strategy "native" None false].

(** A configured route resolves only if every fallback account belongs to
    the route's own provider, although [validate] accepts native fallback
    accounts of another provider: there is a validated configuration whose
    route always fails with [fallback_provider_mismatch]. *)
Theorem cross_provider_fallback_never_resolves (cfg : BuildCfg) :
  (forall config route protocol model r,
     resolve_candidate config route protocol model = Ok r ->
     Forall (fun f => exists b, account config f = Some b /\
                        ac_provider_id b = rt_provider_id route)
            (rt_fallback_accounts route)) /\
  validate cross_provider_config = Ok tt /\
  exists e, resolve_detailed (RouteResolver_new cross_provider_config)
              OpenAiChatCompletions "m" = Err e /\ re_code e = "fallback_provider_mismatch".
Proof.
  split; [intros *; apply resolve_candidate_fallbacks|]. destruct cfg;
    (split; [vm_compute; reflexivity|eexists; split; vm_compute; reflexivity]).
Qed.

(** ** The runtime resolver *)

(** The primary line of a resolved runtime route, as a binding. *)
Definition primary_binding (r : ResolvedRoute) (id : Z) : ResolvedBinding :=
  mkResolvedBinding id (rs_source_id r) (rs_provider_id r) (rs_primary_account_id r)
    (rs_upstream_model_id r) (rs_protocol_upstream r) (rs_upstream_endpoint r) (rs_mode r)
    (rs_adapter r) (rs_effective_capabilities r) (rs_degraded_features r).

(** The runtime resolver looks up protocol and model exactly and keeps the
    published binding order: the first matching route is used, its first
    binding is the primary and the others are the fallbacks, in order. *)
Theorem resolve_runtime_route_spec routes protocol model r
    (Hok : resolve_runtime_route routes protocol model = Ok r) :
  exists before route after id,
    routes = before ++ route :: after /\
    Forall (fun q => ~ (rr_protocol q = protocol /\ rr_model q = model)) before /\
    rr_protocol route = protocol /\ rr_model route = model /\
    rs_binding_id r = Some id /\
    primary_binding r id :: rs_fallback_bindings r = map resolve_binding (rr_bindings route) /\
    rs_fallback_accounts r = map sb_account_id (rs_fallback_bindings r) /\
    rs_max_retries r = rr_max_retries route /\
    rs_request_timeout_ms r = rr_request_timeout_ms route /\
    rs_strategy r = rr_strategy route.
Proof.
  unfold resolve_runtime_route in Hok. destruct (List.find _ routes) as [route|] eqn:Ef; [|done].
  apply find_Some_iff_first in Ef as (before & after & -> & Hm & Hb).
  apply andb_true_iff in Hm as [Hm%Protocol_eqb_eq Hmo%String.eqb_eq].
  destruct (rr_bindings route) as [|primary rest] eqn:Eb; [done|]. injection Hok as <-.
  exists before, route, after, (rb_binding_id primary). rewrite Eb. split_and!; try done.
  eapply Forall_impl; [exact Hb|]. intros q Hq [H1 H2]. cbn in Hq.
  apply (proj2 (Protocol_eqb_eq _ _)) in H1. rewrite H1, H2, String.eqb_refl in Hq. done.
Qed.

Definition example_binding (id : Z) (acc : string) : RuntimeBinding :=
  mkRuntimeBinding id "source" "custom" acc ("up-" +:+ acc) OpenAiChatCompletions
    "http://upstream/v1" "native" None Capabilities_native [].
Definition example_runtime_route (strategy : string) (max_retries : option Z) : RuntimeRoute :=
  mkRuntimeRoute "ordered" "m" OpenAiChatCompletions strategy None max_retries false
    [example_binding 0 "a"; example_binding 1 "b"; example_binding 2 "c"].

Lemma resolve_runtime_route_spec_witness :
  exists r, resolve_runtime_route [example_runtime_route "ordered_fallback" (Some 1)]
              OpenAiChatCompletions "m" = Ok r /\
            rs_fallback_accounts r = ["b"; "c"] /\ rs_max_retries r = Some 1.
Proof.
  destruct (resolve_runtime_route [example_runtime_route "ordered_fallback" (Some 1)]
              OpenAiChatCompletions "m") as [r|] eqn:E; [|discriminate E].
  destruct (resolve_runtime_route_spec _ _ _ _ E)
    as (before & route & after & id & Hl & _ & _ & _ & _ & Hb & Hf & Hr & _).
  exists r. split; [reflexivity|]. injection E as <-. split; reflexivity.
Defined.
