(* ===== verification/Health.v ===== *)
(** * Account health and the failure breaker
      ([src/src/infra/health.rs], [src/src/infra/db/health.rs])

    The in-memory registry and its PostgreSQL twin: passive and probe
    failures counted in a window, an exponential cooldown once the threshold
    is reached, recovery on success and the availability that routing reads.

    Instants ([DateTime<Utc>]) and durations are nanoseconds in [Z]; a
    [std::time::Duration] is non-negative.  The range limits of [chrono] are
    the parameter [Chrono], the microsecond resolution of [TIMESTAMPTZ] is
    the parameter [PgTime]. *)

From stdpp Require Import base gmap list strings.
From S2P Require Import Prelude.
From S2P Require Import RustStr.

(** ** External interfaces *)

Definition NS_PER_MS : Z := 1000000.
Definition NS_PER_SEC : Z := 1000000000.
Definition from_millis (ms : Z) : Z := ms * NS_PER_MS.
Definition from_secs (s : Z) : Z := s * NS_PER_SEC.
(** [Duration::as_millis]. *)
Definition as_millis (d : Z) : Z := d / NS_PER_MS.

(** [chrono::Duration::from_std]: exact, and an error only beyond the range of
    [chrono::Duration], which holds at least [i64::MAX] milliseconds. *)
Class Chrono : Type := {
  chrono_from_std : Z -> option Z;
  chrono_from_std_exact : forall d r, chrono_from_std d = Some r -> r = d;
  chrono_from_std_range : forall d, 0 <= d <= from_millis I64_MAX -> chrono_from_std d = Some d;
}.

(** A [TIMESTAMPTZ] column stores whole microseconds. *)
Class PgTime : Type := {
  pg_ts : Z -> Z;
  pg_ts_micros : forall t, pg_ts (1000 * t) = 1000 * t;
}.

(** [TimeDelta::to_std]: an error for negative values. *)
Definition to_std (d : Z) : option Z := if d <? 0 then None else Some d.

(** ** Configuration *)

Record HealthConfig : Type := mkHealthConfig {
  hc_cooldown : Z;
  hc_max_cooldown : Z;
  hc_stale_after : Z;
  hc_failure_threshold : Z;    (** [u32] *)
  hc_failure_window : Z;
}.

Definition HealthConfig_default : HealthConfig :=
  mkHealthConfig (from_secs 30) (from_secs (30 * 60)) (from_secs (10 * 60)) 3 (from_secs 60).

Definition HealthConfig_normalized (self : HealthConfig) : HealthConfig :=
  let cooldown := Z.max (hc_cooldown self) (from_millis 1) in
  mkHealthConfig cooldown (Z.max (hc_max_cooldown self) cooldown)
    (Z.max (hc_stale_after self) (from_millis 1))
    (Z.max (hc_failure_threshold self) 1)
    (Z.max (hc_failure_window self) (from_millis 1)).

(** [env_u32], [env_duration_ms], [env_duration_secs] on the value of the
    environment variable ([None] when it is not set). *)
Definition env_u32 (var : option string) (default : Z) : Z :=
  unwrap_or (var ≫= parse_uint U32_MAX) default.
Definition env_duration_ms (var : option string) (default : Z) : Z :=
  unwrap_or (from_millis <$> (var ≫= parse_uint U64_MAX)) default.
Definition env_duration_secs (var : option string) (default : Z) : Z :=
  unwrap_or (from_secs <$> (var ≫= parse_uint U64_MAX)) default.

(** [HealthConfig::from_env] over an environment. *)
Definition HealthConfig_from_env (env : string -> option string) : HealthConfig :=
  let d := HealthConfig_default in
  mkHealthConfig
    (env_duration_ms (env "GATEWAY_HEALTH_COOLDOWN_MS") (hc_cooldown d))
    (env_duration_ms (env "GATEWAY_HEALTH_MAX_COOLDOWN_MS") (hc_max_cooldown d))
    (env_duration_secs (env "GATEWAY_HEALTH_STALE_AFTER_SECS") (hc_stale_after d))
    (env_u32 (env "GATEWAY_HEALTH_FAILURE_THRESHOLD") (hc_failure_threshold d))
    (env_duration_secs (env "GATEWAY_HEALTH_FAILURE_WINDOW_SECS") (hc_failure_window d)).

(** ** Data *)

Record AccountHealth : Type := mkAccountHealth {
  ah_available : bool;
  ah_source_enabled : bool;
  ah_consecutive_failures : Z;
  ah_cooldown_remaining_ms : Z;
  ah_status : string;
  ah_source : string;
  ah_stale : bool;
  ah_updated_at : option Z;
  ah_cooldown_until : option Z;
  ah_last_error : option string;
  ah_last_success_at : option Z;
  ah_last_probe_at : option Z;
  ah_last_probe_status : option string;
  ah_last_probe_error : option string;
}.

Record MemoryAccountState : Type := mkMemoryAccountState {
  ms_status : string;
  ms_source : string;
  ms_cooldown_until : option Z;
  ms_consecutive_failures : Z;           (** [u32] *)
  ms_failure_window_started_at : option Z;
  ms_updated_at : option Z;
  ms_last_error : option string;
  ms_last_success_at : option Z;
  ms_last_probe_at : option Z;
  ms_last_probe_status : option string;
  ms_last_probe_error : option string;
  ms_enabled : bool;
}.

(** [infra/db.rs: AccountHealthRow], the joined columns of [accounts] and
    [sources]. *)
Record AccountHealthRow : Type := mkAccountHealthRow {
  ar_account_id : string;
  ar_enabled : bool;
  ar_source_enabled : bool;
  ar_health_status : string;
  ar_health_source : string;
  ar_cooldown_until : option Z;
  ar_consecutive_failures : Z;           (** [i32] *)
  ar_failure_window_started_at : option Z;
  ar_last_error : option string;
  ar_last_success_at : option Z;
  ar_health_updated_at : option Z;
  ar_last_probe_at : option Z;
  ar_last_probe_status : option string;
  ar_last_probe_error : option string;
  ar_account_updated_at : Z;
}.

(** A row of [account_health_events]. *)
Record HealthEvent : Type := mkHealthEvent {
  he_account_id : string;
  he_status : string;
  he_source : string;
  he_observed_at : Z;
  he_cooldown_until : option Z;
  he_consecutive_failures : Z;
  he_error_code : option string;
  he_error_message : option string;
  he_connection_test_id : option Z;
  he_latency_ms : option Z;
}.

(** The tables the health component reads and writes. *)
Record Database : Type := mkDatabase {
  db_accounts : gmap string AccountHealthRow;
  db_health_events : list HealthEvent;
}.

Inductive DbError : Type := RowNotFound | DbUnavailable.

(** When a database call fails: before its transaction commits, or in the
    read that follows the commit. *)
Inductive DbFault : Type := FaultBeforeCommit | FaultAfterCommit.

Definition fails_before (fault : option DbFault) : bool :=
  match fault with Some FaultBeforeCommit => true | _ => false end.
Definition fails_after (fault : option DbFault) : bool :=
  match fault with Some FaultAfterCommit => true | _ => false end.

Record HealthRegistry : Type := mkHealthRegistry {
  hr_config : HealthConfig;
  hr_database : option Database;
  hr_state : gmap string MemoryAccountState;
}.

(** ** Helpers shared by both back ends *)

Definition normalize_source (source : string) : string :=
  if (source =?s "passive") || (source =?s "probe") || (source =?s "manual") || (source =?s "startup")
  then source else "unknown".

Definition safe_errors : list string :=
  ["upstream request failed"; "retryable upstream response"; "upstream stream failed";
   "upstream connection failed"; "upstream request timed out"; "account credential unavailable"].

(** The [matches!] list: only these texts are kept. *)
Definition sanitize_text (value : string) : string :=
  if existsb (String.eqb (trim value)) safe_errors then trim value else "upstream request failed".

Definition sanitize_error (value : option string) : option string := sanitize_text <$> value.

Definition is_ascii_alphanumeric (a : Ascii.ascii) : bool :=
  byte_in a 48 57 || byte_in a 65 90 || byte_in a 97 122.

Definition sanitize_health_code (value : option string) : option string :=
  (fun v => let v := trim v in
            if negb (is_empty v) && (slen v <=? 64)
               && sall (fun b => is_ascii_alphanumeric b || byte_in b 95 95 || byte_in b 45 45) v
            then v else "upstream_failure") <$> value.

(** [exponential_backoff], in [u128] milliseconds. *)
Definition exponential_backoff (base maximum failures : Z) : Z :=
  if failures =? 0 then 0 else
  let base_ms := as_millis base in
  let max_ms := Z.max (as_millis maximum) base_ms in
  let shift := Z.min (sat_sub failures 1) 63 in
  let multiplier := if shift <? 128 then wrap_u 128 (Z.shiftl 1 shift) else U128_MAX in
  let delay_ms := Z.min (Z.min (base_ms * multiplier) U128_MAX) max_ms in
  from_millis (if delay_ms <=? U64_MAX then delay_ms else U64_MAX).

Section WithChrono.
Context `{Chrono}.

Definition stale (now : Z) (updated_at : option Z) (stale_after : Z) : bool :=
  match updated_at with
  | None => true
  | Some updated_at =>
      match chrono_from_std stale_after with
      | None => true
      | Some stale_after => stale_after <=? now - updated_at
      end
  end.

Definition cooldown_remaining (now : Z) (until : option Z) : Z :=
  unwrap_or ((fun d => if as_millis d <=? U64_MAX then as_millis d else U64_MAX)
               <$> (until ≫= fun u => to_std (u - now))) 0.

Definition cooldown_active (now : Z) (until : option Z) : bool :=
  is_some_and until (fun u => now <? u).

(** [now.signed_duration_since(started).to_std().map(|e| e > window).unwrap_or(true)]
    or no window. *)
Definition window_expired (now window : Z) (started : option Z) : bool :=
  is_none_or started (fun s => unwrap_or ((fun e => window <? e) <$> to_std (now - s)) true).

(** The status ladder of [health_from_row] and [memory_health]. *)
Definition report_status (enabled is_stale active : bool) (status : string) (failures : Z) : string :=
  if negb enabled then "disabled"
  else if is_stale then "stale"
  else if active then "cooling_down"
  else if status =?s "healthy" then "healthy"
  else if (status =?s "unhealthy") || (status =?s "cooling_down") then "unhealthy"
  else if 0 <? failures then "unhealthy"
  else "unknown".

Definition health_from_row (row : AccountHealthRow) (now stale_after : Z) : AccountHealth :=
  let updated_at := opt_or (ar_health_updated_at row) (Some (ar_account_updated_at row)) in
  let is_stale := stale now updated_at stale_after in
  let active := cooldown_active now (ar_cooldown_until row) in
  let status := report_status (ar_enabled row && ar_source_enabled row) is_stale active
                  (ar_health_status row) (ar_consecutive_failures row) in
  mkAccountHealth
    (ar_enabled row && ar_source_enabled row && (negb active || is_stale)
     && negb (status =?s "disabled"))
    (ar_source_enabled row) (Z.max (ar_consecutive_failures row) 0)
    (cooldown_remaining now (ar_cooldown_until row)) status
    (normalize_source (ar_health_source row)) is_stale updated_at (ar_cooldown_until row)
    (sanitize_error (ar_last_error row)) (ar_last_success_at row) (ar_last_probe_at row)
    (ar_last_probe_status row) (sanitize_error (ar_last_probe_error row)).

Definition memory_health (state : MemoryAccountState) (now stale_after : Z) : AccountHealth :=
  let is_stale := stale now (ms_updated_at state) stale_after in
  let active := cooldown_active now (ms_cooldown_until state) in
  let status := report_status (ms_enabled state) is_stale active (ms_status state)
                  (ms_consecutive_failures state) in
  mkAccountHealth
    (ms_enabled state && (negb active || is_stale) && negb (status =?s "disabled"))
    true (ms_consecutive_failures state)
    (cooldown_remaining now (ms_cooldown_until state)) status
    (normalize_source (ms_source state)) is_stale (ms_updated_at state)
    (ms_cooldown_until state) (ms_last_error state) (ms_last_success_at state)
    (ms_last_probe_at state) (ms_last_probe_status state) (ms_last_probe_error state).

Definition unknown_health (available : bool) (source : string) : AccountHealth :=
  mkAccountHealth available true 0 0 "unknown" source true None None None None None None None.

(** ** The in-memory back end *)

(** The [or_insert_with] entry. *)
Definition fresh_state : MemoryAccountState :=
  mkMemoryAccountState "unknown" "unknown" None 0 None None None None None None None true.

Definition memory_failure (config : HealthConfig) (entry : MemoryAccountState) (now : Z)
    (source : string) (error_message : option string) : MemoryAccountState * bool :=
  let active := cooldown_active now (ms_cooldown_until entry) in
  let '(failures, window, until, started) :=
    if active
    then (ms_consecutive_failures entry, ms_failure_window_started_at entry,
          ms_cooldown_until entry, false)
    else
      let expired := window_expired now (hc_failure_window config)
                       (ms_failure_window_started_at entry) in
      let failures := if expired then 1
                      else sat_add U32_MAX (ms_consecutive_failures entry) 1 in
      let window := if expired then Some now else ms_failure_window_started_at entry in
      if hc_failure_threshold config <=? failures then
        let breaker_failures := failures - hc_failure_threshold config + 1 in
        let delay := exponential_backoff (hc_cooldown config) (hc_max_cooldown config)
                       breaker_failures in
        (failures, window, Some (now + unwrap_or (chrono_from_std delay) 0), true)
      else (failures, window, None, false) in
  let status := if ms_enabled entry && cooldown_active now until then "cooling_down"
                else if ms_enabled entry then "unhealthy" else "disabled" in
  let probe := source =?s "probe" in
  (mkMemoryAccountState status (normalize_source source) until failures window (Some now)
     (sanitize_error error_message) None
     (if probe then Some now else ms_last_probe_at entry)
     (if probe then Some "failed" else ms_last_probe_status entry)
     (if probe then sanitize_error error_message else ms_last_probe_error entry)
     (ms_enabled entry), started).

Definition memory_success (entry : MemoryAccountState) (now : Z) (source : string)
  : MemoryAccountState :=
  let probe := source =?s "probe" in
  mkMemoryAccountState (if ms_enabled entry then "healthy" else "disabled")
    (normalize_source source) None 0 None (Some now) None (Some now)
    (if probe then Some now else ms_last_probe_at entry)
    (if probe then Some "succeeded" else ms_last_probe_status entry)
    (if probe then None else ms_last_probe_error entry) (ms_enabled entry).

Definition mark_memory_failure (self : HealthRegistry) (now : Z) (account_id source : string)
    (error_message : option string) : bool * HealthRegistry :=
  let entry := default fresh_state (hr_state self !! account_id) in
  let '(entry', started) := memory_failure (hr_config self) entry now source error_message in
  (started, mkHealthRegistry (hr_config self) (hr_database self)
              (<[account_id := entry']> (hr_state self))).
End WithChrono.

(** ** The PostgreSQL back end *)
Section Postgres.
Context `{Chrono} `{PgTime}.

(** [SELECT ... WHERE a.id=$1]. *)
Definition account_health (db : Database) (fault : option DbFault) (account_id : string)
  : result (option AccountHealthRow) DbError :=
  match fault with
  | Some _ => Err DbUnavailable
  | None => Ok (db_accounts db !! account_id)
  end.

(** The transition computed by [record_account_health_failure_inner] before
    the [UPDATE]: failures, window, cooldown and status. *)
Definition row_failure_transition (current : AccountHealthRow) (observed_at base_cooldown
    max_cooldown failure_threshold failure_window : Z)
    : Z * option Z * option Z * string :=
  if cooldown_active observed_at (ar_cooldown_until current)
  then (Z.max (ar_consecutive_failures current) 0, ar_failure_window_started_at current,
        ar_cooldown_until current, "cooling_down")
  else
    let expired := window_expired observed_at failure_window
                     (ar_failure_window_started_at current) in
    let failures := if expired then 1 else wrap_u 32 (Z.max (ar_consecutive_failures current) 0 + 1) in
    let window := if expired then Some observed_at else ar_failure_window_started_at current in
    if failure_threshold <=? failures then
      let delay := exponential_backoff base_cooldown max_cooldown
                     (failures - failure_threshold + 1) in
      (failures, window, Some (observed_at + unwrap_or (chrono_from_std delay) 0), "cooling_down")
    else (failures, window, None, "unhealthy").

Definition i32_try_from (z : Z) : Z := if z <=? I32_MAX then z else I32_MAX.

Definition record_account_health_failure (db : Database) (fault : option DbFault)
    (account_id : string) (observed_at base_cooldown max_cooldown failure_threshold
    failure_window : Z) (source : string) (error_code error_message : option string)
    (latency_ms connection_test_id : option Z)
    : result (AccountHealthRow * bool) DbError * Database :=
  if fails_before fault then (Err DbUnavailable, db) else
  let source := normalize_source source in
  match db_accounts db !! account_id with
  | None => (Err RowNotFound, db)
  | Some current =>
      if negb (ar_enabled current) || negb (ar_source_enabled current)
      then (Ok (current, false), db)
      else
        let '(failures, window, until, status) :=
          row_failure_transition current observed_at base_cooldown max_cooldown
            failure_threshold failure_window in
        let probe := source =?s "probe" in
        let row := mkAccountHealthRow (ar_account_id current) (ar_enabled current)
          (ar_source_enabled current) status source (pg_ts <$> until) (i32_try_from failures)
          (pg_ts <$> window) (sanitize_error error_message) None (Some (pg_ts observed_at))
          (if probe then Some (pg_ts observed_at) else ar_last_probe_at current)
          (if probe then Some "failed" else ar_last_probe_status current)
          (if probe then sanitize_error error_message else ar_last_probe_error current)
          (ar_account_updated_at current) in
        let event := mkHealthEvent account_id status source (pg_ts observed_at)
          (pg_ts <$> until) (i32_try_from failures) (sanitize_health_code error_code)
          (sanitize_error error_message) connection_test_id latency_ms in
        let db' := mkDatabase (<[account_id := row]> (db_accounts db))
          (if negb (status =?s ar_health_status current)
           then db_health_events db ++ [event] else db_health_events db) in
        let cooldown_started :=
          negb (cooldown_active observed_at (ar_cooldown_until current)) && is_some until in
        if fails_after fault then (Err DbUnavailable, db')
        else (Ok (row, cooldown_started), db')
  end.

Definition record_account_health_success (db : Database) (fault : option DbFault)
    (account_id : string) (observed_at : Z) (source : string)
    (connection_test_id latency_ms : option Z) : result AccountHealthRow DbError * Database :=
  if fails_before fault then (Err DbUnavailable, db) else
  let source := normalize_source source in
  match db_accounts db !! account_id with
  | None => (Err RowNotFound, db)
  | Some current =>
      if negb (ar_enabled current) || negb (ar_source_enabled current)
      then (Ok current, db)
      else
        let status := if ar_enabled current then "healthy" else "disabled" in
        let recovered := negb (ar_health_status current =?s status) in
        let probe := source =?s "probe" in
        let row := mkAccountHealthRow (ar_account_id current) (ar_enabled current)
          (ar_source_enabled current) status source None 0 None None (Some (pg_ts observed_at))
          (Some (pg_ts observed_at))
          (if probe then Some (pg_ts observed_at) else ar_last_probe_at current)
          (if probe then Some "succeeded" else ar_last_probe_status current)
          (if probe then None else ar_last_probe_error current)
          (ar_account_updated_at current) in
        let event := mkHealthEvent account_id status source (pg_ts observed_at) None 0 None None
          connection_test_id latency_ms in
        let db' := mkDatabase (<[account_id := row]> (db_accounts db))
          (if recovered then db_health_events db ++ [event] else db_health_events db) in
        if fails_after fault then (Err DbUnavailable, db')
        else (Ok row, db')
  end.

(** ** The registry *)

Definition is_available (self : HealthRegistry) (fault : option DbFault) (now : Z)
    (account_id : string) : bool :=
  let stale_after := hc_stale_after (hr_config self) in
  match hr_database self with
  | Some db =>
      match account_health db fault account_id with
      | Ok (Some row) => ah_available (health_from_row row now stale_after)
      | Ok None => false
      | Err _ => false
      end
  | None =>
      unwrap_or ((fun value => ah_available (memory_health value now stale_after))
                   <$> hr_state self !! account_id) true
  end.

Definition get_health (self : HealthRegistry) (fault : option DbFault) (now : Z)
    (account_id : string) : AccountHealth :=
  let stale_after := hc_stale_after (hr_config self) in
  match hr_database self with
  | Some db =>
      match account_health db fault account_id with
      | Ok (Some row) => health_from_row row now stale_after
      | Ok None => unknown_health false "unknown"
      | Err _ => unknown_health false "database"
      end
  | None =>
      unwrap_or ((fun value => memory_health value now stale_after)
                   <$> hr_state self !! account_id) (unknown_health true "unknown")
  end.

Definition with_database (self : HealthRegistry) (db : Database) : HealthRegistry :=
  mkHealthRegistry (hr_config self) (Some db) (hr_state self).

Definition mark_failure_with_details (self : HealthRegistry) (fault : option DbFault) (now : Z)
    (account_id source : string) (error_code error_message : option string)
    : bool * HealthRegistry :=
  let c := hr_config self in
  match hr_database self with
  | Some db =>
      let '(r, db') := record_account_health_failure db fault account_id now (hc_cooldown c)
        (hc_max_cooldown c) (hc_failure_threshold c) (hc_failure_window c) source error_code
        error_message None None in
      (match r with Ok (_, started) => started | Err _ => false end, with_database self db')
  | None => mark_memory_failure self now account_id source error_message
  end.

Definition mark_probe_failure (self : HealthRegistry) (fault : option DbFault) (now : Z)
    (account_id : string) (connection_test_id : option Z)
    (error_code error_message : option string) (latency_ms : option Z) : HealthRegistry :=
  let c := hr_config self in
  match hr_database self with
  | Some db =>
      with_database self
        (record_account_health_failure db fault account_id now (hc_cooldown c)
           (hc_max_cooldown c) (hc_failure_threshold c) (hc_failure_window c) "probe" error_code
           error_message latency_ms connection_test_id).2
  | None => (mark_memory_failure self now account_id "probe" error_message).2
  end.

Definition mark_success_with_source (self : HealthRegistry) (fault : option DbFault) (now : Z)
    (account_id source : string) (connection_test_id latency_ms : option Z) : HealthRegistry :=
  match hr_database self with
  | Some db =>
      with_database self
        (record_account_health_success db fault account_id now source connection_test_id
           latency_ms).2
  | None =>
      let entry := default fresh_state (hr_state self !! account_id) in
      mkHealthRegistry (hr_config self) None
        (<[account_id := memory_success entry now source]> (hr_state self))
  end.

Definition mark_success (self : HealthRegistry) (fault : option DbFault) (now : Z)
    (account_id : string) : HealthRegistry :=
  mark_success_with_source self fault now account_id "passive" None None.

(** The fields of [ConnectionTestRecord] the registry uses. *)
Record ConnectionTestRecord : Type := mkConnectionTestRecord {
  ct_id : Z;
  ct_account_id : option string;
  ct_status : string;
  ct_error_code : option string;
  ct_error_message : option string;
  ct_latency_ms : Z;
}.

Definition apply_connection_test (self : HealthRegistry) (fault : option DbFault) (now : Z)
    (record : ConnectionTestRecord) : HealthRegistry :=
  match ct_account_id record with
  | None => self
  | Some account_id =>
      if ct_status record =?s "succeeded" then
        mark_success_with_source self fault now account_id "probe" (Some (ct_id record))
          (Some (Z.max (ct_latency_ms record) 0))
      else
        mark_probe_failure self fault now account_id (Some (ct_id record)) (ct_error_code record)
          (ct_error_message record) (Some (Z.max (ct_latency_ms record) 0))
  end.
End Postgres.

(** Instances for evaluation: an exact [chrono] and microsecond truncation. *)
Definition chrono_exact : Chrono.
Proof.
  refine {| chrono_from_std d := if d <=? from_millis I64_MAX then Some d else None |}.
  - intros d r. destruct (_ <=? _); congruence.
  - intros d Hd. by rewrite (proj2 (Z.leb_le _ _)) by lia.
Defined.

Definition pg_micros : PgTime.
Proof.
  refine {| pg_ts t := 1000 * (t / 1000) |}.
  intros t. rewrite (Z.mul_comm 1000 t), Z.div_mul by done. lia.
Defined.
