(* ===== verification/Breaker.v ===== *)
(** * The failure breaker: specification and refinement

    An abstract circuit breaker, and the theorems that the in-memory and the
    PostgreSQL back ends of [Health] both implement it and agree with each
    other on every report. *)

From stdpp Require Import base gmap list strings.
From S2P Require Import Prelude.
From S2P Require Import RustStr.
From S2P Require Import Health.

(** ** Specification *)

(** What the breaker remembers: failures in the current window, the start of
    the window, and the end of the cooldown. *)
Record Breaker : Type := mkBreaker {
  bk_failures : Z;
  bk_window : option Z;
  bk_until : option Z;
}.

Definition bk_closed : Breaker := mkBreaker 0 None None.

(** Cooldown after the [n]-th failure: doubled for every failure beyond the
    threshold, capped. *)
Definition bk_delay (c : HealthConfig) (n : Z) : Z :=
  from_millis (Z.min (as_millis (hc_cooldown c) * 2 ^ Z.min (n - hc_failure_threshold c) 63)
                     (as_millis (hc_max_cooldown c))).

Definition bk_fail (c : HealthConfig) (b : Breaker) (now : Z) : Breaker * bool :=
  if cooldown_active now (bk_until b) then (b, false) else
  let expired := window_expired now (hc_failure_window c) (bk_window b) in
  let n := if expired then 1 else bk_failures b + 1 in
  let w := if expired then Some now else bk_window b in
  if hc_failure_threshold c <=? n then (mkBreaker n w (Some (now + bk_delay c n)), true)
  else (mkBreaker n w None, false).

(** ** Configurations

    [HealthRegistry] constructors normalize their configuration; durations
    are assumed within [chrono]'s range. *)
Definition config_ok (c : HealthConfig) : Prop :=
  from_millis 1 <= hc_cooldown c <= hc_max_cooldown c /\
  hc_max_cooldown c <= from_millis I64_MAX /\
  1 <= hc_failure_threshold c /\
  from_millis 1 <= hc_failure_window c /\
  from_millis 1 <= hc_stale_after c <= from_millis I64_MAX.

Lemma normalized_config_ok c :
  hc_cooldown c <= from_millis I64_MAX -> hc_max_cooldown c <= from_millis I64_MAX ->
  hc_stale_after c <= from_millis I64_MAX ->
  config_ok (HealthConfig_normalized c).
Proof.
  unfold config_ok, HealthConfig_normalized, from_millis, NS_PER_MS, I64_MAX. cbn. lia.
Qed.

Lemma as_millis_from_millis m : as_millis (from_millis m) = m.
Proof. unfold as_millis, from_millis. by rewrite Z.div_mul. Qed.

Lemma as_millis_mono a b : a <= b -> as_millis a <= as_millis b.
Proof. intros. apply Z.div_le_mono; unfold NS_PER_MS; lia. Qed.

Lemma pow2_range s : 0 <= s <= 63 -> 1 <= 2 ^ s <= 2 ^ 63.
Proof.
  intros Hs. split.
  - replace 1 with (2 ^ 0) by done. apply Z.pow_le_mono_r; lia.
  - apply Z.pow_le_mono_r; lia.
Qed.

(** The machine arithmetic of [exponential_backoff] computes the capped
    doubling. *)
Lemma exponential_backoff_value base maximum failures :
  0 <= base <= maximum -> maximum <= from_millis I64_MAX -> 1 <= failures ->
  exponential_backoff base maximum failures
  = from_millis (Z.min (as_millis base * 2 ^ Z.min (failures - 1) 63) (as_millis maximum)).
Proof.
  intros Hb Hm Hf. unfold exponential_backoff, sat_sub.
  rewrite (proj2 (Z.eqb_neq failures 0)) by lia. cbv zeta.
  pose proof (as_millis_mono 0 base ltac:(lia)) as H0. change (as_millis 0) with 0 in H0.
  pose proof (as_millis_mono base maximum ltac:(lia)) as H1.
  pose proof (as_millis_mono maximum _ Hm) as H2. rewrite as_millis_from_millis in H2.
  set (b := as_millis base) in *. set (m := as_millis maximum) in *.
  rewrite (Z.max_r 0) by lia. set (s := Z.min (failures - 1) 63).
  assert (0 <= s <= 63) as Hs by lia. pose proof (pow2_range s Hs) as Hp.
  rewrite (proj2 (Z.ltb_lt s 128)) by lia. rewrite Z.shiftl_1_l.
  assert (2 ^ 63 < 2 ^ 128) by reflexivity. rewrite wrap_u_small by lia.
  rewrite (Z.max_l m b) by lia. unfold U128_MAX, U64_MAX, I64_MAX in *.
  rewrite <- Z.min_assoc, (Z.min_comm (2 ^ 128 - 1)), Z.min_assoc.
  rewrite (Z.min_l _ (2 ^ 128 - 1)) by lia.
  rewrite (proj2 (Z.leb_le _ (2 ^ 64 - 1))) by lia. done.
Qed.

Lemma bk_delay_range c n :
  config_ok c -> hc_failure_threshold c <= n ->
  from_millis (as_millis (hc_cooldown c)) <= bk_delay c n <= hc_max_cooldown c /\
  from_millis 1 <= bk_delay c n.
Proof.
  intros (Hc & Hm & Ht & _) Hn. unfold bk_delay.
  pose proof (as_millis_mono _ _ (proj1 Hc)) as H1. rewrite as_millis_from_millis in H1.
  pose proof (as_millis_mono _ _ (proj2 Hc)) as H2.
  pose proof (pow2_range (Z.min (n - hc_failure_threshold c) 63) ltac:(lia)) as Hp.
  pose proof (Z.mul_div_le (hc_max_cooldown c) NS_PER_MS ltac:(done)) as H3.
  unfold from_millis, as_millis in *. set (p := 2 ^ _) in *. unfold NS_PER_MS in *. nia.
Qed.

Lemma bk_delay_chrono `{Chrono} c n :
  config_ok c -> hc_failure_threshold c <= n ->
  unwrap_or (chrono_from_std (exponential_backoff (hc_cooldown c) (hc_max_cooldown c)
                                (n - hc_failure_threshold c + 1))) 0 = bk_delay c n.
Proof.
  intros Hc Hn. pose proof (bk_delay_range c n Hc Hn) as [Hr H1].
  destruct Hc as (Hc & Hm & Ht & _). unfold from_millis, NS_PER_MS in *.
  rewrite exponential_backoff_value by (unfold from_millis, NS_PER_MS in *; lia).
  replace (n - hc_failure_threshold c + 1 - 1) with (n - hc_failure_threshold c) by lia.
  fold (bk_delay c n). rewrite chrono_from_std_range; [done|].
  unfold from_millis, NS_PER_MS in *. lia.
Qed.

(** The cooldown doubled for every failure after the first, capped. *)
Definition doubled_cooldown (base maximum failures : Z) : Z :=
  from_millis (Z.min (as_millis base * 2 ^ Z.min (failures - 1) 63) (as_millis maximum)).

(** The exponential backoff of both back ends, computed in saturating
    128-bit milliseconds with a clamped shift, is the cooldown doubled for each
    failure beyond the first and capped at the maximum; it is at least the
    (whole-millisecond) base cooldown, at most the maximum, and grows with the
    number of failures. *)
Theorem exponential_backoff_correct base maximum failures
    (Hb : 0 <= base <= maximum) (Hm : maximum <= from_millis I64_MAX) (Hf : 1 <= failures) :
  exponential_backoff base maximum failures = doubled_cooldown base maximum failures /\
  from_millis (as_millis base) <= exponential_backoff base maximum failures <= maximum /\
  exponential_backoff base maximum failures <= exponential_backoff base maximum (failures + 1).
Proof.
  rewrite !exponential_backoff_value by lia. split; [done|].
  pose proof (pow2_range (Z.min (failures - 1) 63) ltac:(lia)) as Hp.
  assert (2 ^ Z.min (failures - 1) 63 <= 2 ^ Z.min (failures + 1 - 1) 63) as Hmono
    by (apply Z.pow_le_mono_r; lia).
  pose proof (as_millis_mono _ _ (proj2 Hb)) as H2.
  pose proof (as_millis_mono 0 base ltac:(lia)) as H0. change (as_millis 0) with 0 in H0.
  pose proof (Z.mul_div_le maximum NS_PER_MS ltac:(done)) as H3.
  unfold from_millis, as_millis in *.
  set (p := 2 ^ Z.min (failures - 1) 63) in *. set (q := 2 ^ Z.min (failures + 1 - 1) 63) in *.
  unfold NS_PER_MS in *. nia.
Qed.

Lemma exponential_backoff_correct_witness :
  exponential_backoff (from_secs 30) (from_secs 1800) 3 = from_secs 120 /\
  from_secs 30 <= exponential_backoff (from_secs 30) (from_secs 1800) 3 <= from_secs 1800.
Proof.
  split; [vm_compute; reflexivity|].
  apply (exponential_backoff_correct (from_secs 30) (from_secs 1800) 3);
    vm_compute; try split; discriminate.
Defined.

(** ** Abstraction functions *)

Definition abs_memory (s : MemoryAccountState) : Breaker :=
  mkBreaker (ms_consecutive_failures s) (ms_failure_window_started_at s) (ms_cooldown_until s).
Definition abs_row (r : AccountHealthRow) : Breaker :=
  mkBreaker (ar_consecutive_failures r) (ar_failure_window_started_at r) (ar_cooldown_until r).

(** Instants of whole microseconds, the resolution PostgreSQL keeps. *)
Definition whole_micros (t : Z) : Prop := exists k, t = 1000 * k.
Definition opt_micros (o : option Z) : Prop := forall t, o = Some t -> whole_micros t.

Lemma whole_micros_ms t m : whole_micros t -> whole_micros (t + from_millis m).
Proof. intros [k ->]. exists (k + 1000 * m). unfold from_millis, NS_PER_MS. lia. Qed.

Section Refinement.
Context `{Chrono} `{PgTime}.
Context (c : HealthConfig).
Hypothesis Hc : config_ok c.

Lemma pg_ts_whole t : whole_micros t -> pg_ts t = t.
Proof. intros [k ->]. apply pg_ts_micros. Qed.

Lemma pg_ts_opt o : opt_micros o -> pg_ts <$> o = o.
Proof. destruct o as [t|]; cbn; [|done]. intros Ho. by rewrite pg_ts_whole by auto. Qed.

Lemma memory_failure_refines s now source msg :
  0 <= ms_consecutive_failures s < U32_MAX ->
  bk_fail c (abs_memory s) now
  = (abs_memory (memory_failure c s now source msg).1, (memory_failure c s now source msg).2).
Proof.
  intros Hf. unfold bk_fail, memory_failure, abs_memory. cbn.
  destruct (cooldown_active now _) eqn:Ea; cbn; [by rewrite ?Ea|].
  unfold sat_add. rewrite Z.min_r by lia.
  destruct (hc_failure_threshold c <=? _) eqn:Et; cbn; [|done].
  apply Z.leb_le in Et. by rewrite bk_delay_chrono.
Qed.

(** The updated entry, with the breaker's own transition inside. *)
Lemma memory_failure_shape s now source msg :
  0 <= ms_consecutive_failures s < U32_MAX ->
  let b := (bk_fail c (abs_memory s) now).1 in
  let probe := source =?s "probe" in
  (memory_failure c s now source msg).1
  = mkMemoryAccountState
      (if ms_enabled s && cooldown_active now (bk_until b) then "cooling_down"
       else if ms_enabled s then "unhealthy" else "disabled")
      (normalize_source source) (bk_until b) (bk_failures b) (bk_window b) (Some now)
      (sanitize_error msg) None
      (if probe then Some now else ms_last_probe_at s)
      (if probe then Some "failed" else ms_last_probe_status s)
      (if probe then sanitize_error msg else ms_last_probe_error s) (ms_enabled s).
Proof.
  intros Hf b probe. pose proof (memory_failure_refines s now source msg Hf) as Hr.
  subst b. rewrite Hr. unfold memory_failure, abs_memory.
  destruct (cooldown_active now (ms_cooldown_until s)); [done|]. cbv zeta.
  match goal with |- context [hc_failure_threshold c <=? ?n] =>
    destruct (hc_failure_threshold c <=? n) end; done.
Qed.

Lemma memory_success_refines s now source :
  abs_memory (memory_success s now source) = bk_closed.
Proof. done. Qed.

(** The transition computed before the [UPDATE]. *)
Lemma row_transition_refines r now failures window until status :
  0 <= ar_consecutive_failures r < I32_MAX ->
  row_failure_transition r now (hc_cooldown c) (hc_max_cooldown c) (hc_failure_threshold c)
    (hc_failure_window c) = (failures, window, until, status) ->
  bk_fail c (abs_row r) now
  = (mkBreaker failures window until,
     negb (cooldown_active now (ar_cooldown_until r)) && is_some until) /\
  status = (if cooldown_active now until then "cooling_down" else "unhealthy").
Proof.
  intros Hf. unfold row_failure_transition, bk_fail, abs_row. cbn.
  unfold I32_MAX in Hf. assert (2 ^ 31 < 2 ^ 32) by done.
  destruct (cooldown_active now (ar_cooldown_until r)) eqn:Ea; cbn.
  { intros [= <- <- <- <-]. rewrite Z.max_l by lia. by rewrite Ea. }
  rewrite Z.max_l by lia. rewrite wrap_u_small by lia.
  destruct (hc_failure_threshold c <=? _) eqn:Et; cbn; intros [= <- <- <- <-]; [|done].
  apply Z.leb_le in Et. rewrite bk_delay_chrono by done. split; [done|].
  cbn. pose proof (bk_delay_range c _ Hc Et) as [_ Hd].
  rewrite (proj2 (Z.ltb_lt _ _)); [done|]. unfold from_millis, NS_PER_MS in Hd. lia.
Qed.

(** The breaker grows by at most one failure per observation. *)
Lemma bk_fail_bound b now : 0 <= bk_failures b ->
  0 <= bk_failures (bk_fail c b now).1 <= bk_failures b + 1.
Proof.
  intros Hb. unfold bk_fail. destruct (cooldown_active _ _); cbn; [lia|].
  destruct (window_expired _ _ _), (_ <=? _); cbn; lia.
Qed.

Lemma bk_fail_micros b now :
  whole_micros now -> opt_micros (bk_window b) -> opt_micros (bk_until b) ->
  opt_micros (bk_window (bk_fail c b now).1) /\ opt_micros (bk_until (bk_fail c b now).1).
Proof.
  intros Hn Hw Hu. unfold bk_fail. destruct (cooldown_active _ _); cbn; [done|].
  assert (opt_micros (if window_expired now (hc_failure_window c) (bk_window b)
                      then Some now else bk_window b)) as Hw'.
  { destruct (window_expired _ _ _); [|done]. by intros t [= <-]. }
  destruct (_ <=? _); cbn; (split; [done|]); [|done].
  intros t [= <-]. by apply whole_micros_ms.
Qed.
End Refinement.

(** ** Sanitized errors *)

Lemma trim_safe e : e ∈ safe_errors -> trim e = e.
Proof.
  unfold safe_errors. rewrite !elem_of_cons, elem_of_nil. intros Hin.
  destruct_or! Hin; subst; try done; vm_compute; reflexivity.
Qed.

Lemma sanitize_text_safe v : sanitize_text v ∈ safe_errors.
Proof.
  unfold sanitize_text. destruct (existsb _ safe_errors) eqn:E; [|apply list_elem_of_here].
  apply existsb_exists in E as (x & Hx & ->%String.eqb_eq). by apply list_elem_of_In.
Qed.

Lemma sanitize_text_idem v : sanitize_text (sanitize_text v) = sanitize_text v.
Proof.
  pose proof (sanitize_text_safe v) as Hs. generalize dependent (sanitize_text v). intros e He.
  unfold sanitize_text. rewrite (trim_safe e He).
  rewrite (proj2 (existsb_exists _ _)); [done|].
  exists e. split; [by apply list_elem_of_In|apply String.eqb_refl].
Qed.

Lemma sanitize_error_idem o : sanitize_error (sanitize_error o) = sanitize_error o.
Proof. destruct o as [v|]; [|done]. cbn. by rewrite sanitize_text_idem. Qed.

(** ** The two back ends agree *)

(** What the registry is told about an account. *)
Inductive Observation : Type :=
| ObsFailure (now : Z) (source : string) (code message : option string)
| ObsSuccess (now : Z) (source : string).

Definition obs_time (o : Observation) : Z :=
  match o with ObsFailure now _ _ _ | ObsSuccess now _ => now end.

Definition observe `{Chrono} `{PgTime} (account_id : string) (self : HealthRegistry)
    (o : Observation) : HealthRegistry :=
  match o with
  | ObsFailure now source code message =>
      (mark_failure_with_details self None now account_id source code message).2
  | ObsSuccess now source => mark_success_with_source self None now account_id source None None
  end.

(** A memory entry and a row that describe the same account; [n] bounds the
    failures counted so far. *)
Record related (n : Z) (m : MemoryAccountState) (r : AccountHealthRow) : Prop := {
  rel_enabled : ms_enabled m = true /\ ar_enabled r = true /\ ar_source_enabled r = true;
  rel_status : ms_status m = ar_health_status r;
  rel_source : ms_source m = ar_health_source r;
  rel_breaker : abs_memory m = abs_row r;
  rel_bound : 0 <= ms_consecutive_failures m <= n;
  rel_micros : opt_micros (ms_failure_window_started_at m) /\ opt_micros (ms_cooldown_until m);
  rel_error : ms_last_error m = ar_last_error r /\ sanitize_error (ms_last_error m) = ms_last_error m;
  rel_success : ms_last_success_at m = ar_last_success_at r;
  rel_probe_at : ms_last_probe_at m = ar_last_probe_at r;
  rel_probe_status : ms_last_probe_status m = ar_last_probe_status r;
  rel_probe_error : ms_last_probe_error m = ar_last_probe_error r /\
                    sanitize_error (ms_last_probe_error m) = ms_last_probe_error m;
}.

(** An account row no observation has touched. *)
Definition row_untouched (r : AccountHealthRow) : Prop :=
  ar_enabled r = true /\ ar_source_enabled r = true /\ ar_health_status r = "unknown" /\
  ar_health_source r = "unknown" /\ abs_row r = bk_closed /\ ar_last_error r = None /\
  ar_last_success_at r = None /\ ar_last_probe_at r = None /\ ar_last_probe_status r = None /\
  ar_last_probe_error r = None.

Section Agreement.
Context `{Chrono} `{PgTime}.
Context (c : HealthConfig) (acc : string).
Hypothesis Hc : config_ok c.

Lemma related_untouched r : row_untouched r -> related 0 fresh_state r.
Proof.
  intros (? & ? & ? & ? & Hb & ? & ? & ? & ? & ?).
  constructor; cbn; try done; try (split; congruence); try (symmetry; done).
Qed.

Lemma related_report n m r now stale_after :
  related n m r -> ms_updated_at m = ar_health_updated_at r -> is_Some (ms_updated_at m) ->
  memory_health m now stale_after = health_from_row r now stale_after.
Proof.
  intros [(Hm & Hr & Hs) Hst Hsrc Hb Hn _ (He & Hes) Hsu Hpa Hps (Hpe & Hpes)] Hu [t Ht].
  unfold abs_memory, abs_row in Hb. injection Hb as Hf Hw Hu'.
  unfold memory_health, health_from_row. rewrite Hm, Hr, Hs, <- Hu, Ht. cbn.
  rewrite <- He, Hes, <- Hpe, Hpes, <- Hst, <- Hsrc, <- Hf, <- Hu', <- Hsu, <- Hpa, <- Hps.
  by rewrite Z.max_l by lia.
Qed.

Lemma normalize_source_probe source : (normalize_source source =?s "probe") = (source =?s "probe").
Proof.
  unfold normalize_source.
  destruct (String.eqb_spec source "probe") as [->|Hne]; [done|].
  destruct (_ || _); [by apply String.eqb_neq|done].
Qed.

(** The registries agree on [acc]: related data, and the same update time. *)
Definition registries_related (n : Z) (synced : bool) (rm rd : HealthRegistry) : Prop :=
  hr_config rm = c /\ hr_config rd = c /\ hr_database rm = None /\
  exists db r, hr_database rd = Some db /\ db_accounts db !! acc = Some r /\
    let m := default fresh_state (hr_state rm !! acc) in
    related n m r /\
    (synced = true -> hr_state rm !! acc = Some m /\
       ms_updated_at m = ar_health_updated_at r /\ is_Some (ms_updated_at m)).

Lemma observe_related n b rm rd o :
  n < I32_MAX -> whole_micros (obs_time o) ->
  registries_related n b rm rd ->
  registries_related (n + 1) true (observe acc rm o) (observe acc rd o).
Proof.
  intros Hn Ht (Hcm & Hcd & Hdm & db & r & Hdb & Hrow & Hrel & _).
  set (m := default fresh_state (hr_state rm !! acc)) in *.
  destruct Hrel as [(Hem & Her & Hes) Hst Hsrc Hbk Hbnd (Hw & Hu) (He & Hse) Hsu Hpa Hps (Hpe & Hspe)].
  pose proof (f_equal bk_failures Hbk) as Hfeq. cbn in Hfeq.
  pose proof (f_equal bk_until Hbk) as Hueq. cbn in Hueq.
  destruct o as [now source code msg|now source]; cbn in Ht.
  - cbn. unfold mark_failure_with_details. rewrite Hdm, Hdb, Hcd.
    unfold mark_memory_failure. rewrite Hcm. fold m.
    unfold record_account_health_failure. cbn. rewrite Hrow, Her, Hes. cbn.
    destruct (row_failure_transition _ _ _ _ _ _) as [[[failures window] until] status] eqn:Etr.
    apply row_transition_refines in Etr as [Etr Hstatus]; [|done|lia].
    pose proof (memory_failure_shape c Hc m now source msg
                  ltac:(unfold U32_MAX, I32_MAX in *; lia)) as Hm'. cbv zeta in Hm'.
    pose proof (bk_fail_bound c (abs_memory m) now ltac:(cbn; lia)) as Hbb.
    pose proof (bk_fail_micros c (abs_memory m) now Ht Hw Hu) as [Hmw Hmu].
    rewrite Hbk, Etr in Hm', Hbb, Hmw, Hmu. cbn in Hm', Hbb, Hmw, Hmu.
    destruct (memory_failure c m now source msg) as [m' started]. cbn in Hm'. subst m'.
    split_and!; try done. eexists _, _. split; [reflexivity|]. cbn. split; [apply lookup_insert_eq|].
    rewrite lookup_insert_eq. cbn. rewrite Hem, pg_ts_whole by done.
    rewrite normalize_source_probe, !pg_ts_opt by done.
    assert (i32_try_from failures = failures) as ->.
    { unfold i32_try_from. by rewrite (proj2 (Z.leb_le _ _)) by lia. }
    split; [|by eauto]. constructor; cbn; try done; try lia; subst status;
      destruct (source =?s "probe"); try done; split; auto using sanitize_error_idem.
  - cbn. unfold mark_success_with_source. rewrite Hdm, Hdb, Hcm. fold m.
    unfold record_account_health_success. cbn. rewrite Hrow, Her, Hes. cbn.
    split_and!; try done. eexists _, _. split; [reflexivity|]. cbn. split; [apply lookup_insert_eq|].
    rewrite lookup_insert_eq. cbn. unfold memory_success. rewrite Hem, pg_ts_whole by done.
    rewrite normalize_source_probe. split; [|by eauto].
    constructor; cbn; try done; try lia; try (by rewrite Hem);
      destruct (source =?s "probe"); try done; split; auto using sanitize_error_idem.
Qed.

Lemma observe_all_related os : forall n b rm rd,
  n + Z.of_nat (length os) <= I32_MAX -> Forall (fun o => whole_micros (obs_time o)) os ->
  registries_related n b rm rd ->
  registries_related (n + Z.of_nat (length os)) (b || negb (bool_decide (os = [])))
    (foldl (observe acc) rm os) (foldl (observe acc) rd os).
Proof.
  induction os as [|o os IH]; intros n b rm rd Hn Ht Hr; cbn.
  { rewrite Z.add_0_r. by destruct b. }
  apply Forall_cons in Ht as [Ht Hts]. cbn in Hn.
  assert (registries_related (n + 1) true (observe acc rm o) (observe acc rd o)) as Hr'
    by (eapply observe_related; eauto; lia).
  apply IH in Hr'; [|lia|done]. cbn in Hr'. destruct b; cbn;
    replace (n + Z.of_nat (S (length os))) with (n + 1 + Z.of_nat (length os)) by lia; done.
Qed.
End Agreement.


Definition example_row : AccountHealthRow :=
  mkAccountHealthRow "a" true true "unknown" "unknown" None 0 None None None None None None None 0.

