(* ===== verification/HealthProps.v ===== *)
(** * Properties of account health

    Threshold, cooldown and recovery at the registry level, isolation between
    accounts, and the invariant of the persisted tables as a state machine. *)

From stdpp Require Import base gmap list strings relations.
From S2P Require Import Prelude.
From S2P Require Import RustStr.
From S2P Require Import Health.
From S2P Require Import Breaker.

Lemma sanitize_error_in o e : sanitize_error o = Some e -> e ∈ safe_errors.
Proof. destruct o as [v|]; cbn; [|done]. intros [= <-]. apply sanitize_text_safe. Qed.

Lemma report_status_disabled en is_stale active status failures :
  (report_status en is_stale active status failures =?s "disabled") = negb en.
Proof.
  unfold report_status. destruct en, is_stale, active; try done; cbn [negb].
  destruct (status =?s "healthy"), ((status =?s "unhealthy") || (status =?s "cooling_down")),
    (0 <? failures); done.
Qed.

(** ** Runs of failures *)

Section Threshold.
Context `{Chrono} `{PgTime}.
Context (c : HealthConfig) (acc : string).
Hypothesis Hc : config_ok c.

Definition bk_fails (b : Breaker) (ts : list Z) : Breaker :=
  foldl (fun b t => (bk_fail c b t).1) b ts.

Definition within (start t : Z) : Prop := start <= t <= start + hc_failure_window c.

Lemma window_expired_within start t :
  within start t -> window_expired t (hc_failure_window c) (Some start) = false.
Proof.
  unfold within. intros Ht. cbn. unfold to_std.
  rewrite (proj2 (Z.ltb_ge (t - start) 0)) by lia. cbn. apply Z.ltb_ge. lia.
Qed.

Lemma bk_fails_cons b t ts : bk_fails b (t :: ts) = bk_fails (bk_fail c b t).1 ts.
Proof. done. Qed.

(** Below the threshold the breaker only counts. *)
Lemma bk_fail_counting start k t :
  within start t -> k + 1 < hc_failure_threshold c ->
  bk_fail c (mkBreaker k (Some start) None) t = (mkBreaker (k + 1) (Some start) None, false).
Proof.
  intros Ht Hk. unfold bk_fail. cbn [cooldown_active bk_until is_some_and bk_window bk_failures].
  rewrite window_expired_within by done. cbv zeta. by rewrite (proj2 (Z.leb_gt _ _)) by lia.
Qed.

Lemma bk_fails_counting start k ts :
  Forall (within start) ts -> k + Z.of_nat (length ts) < hc_failure_threshold c ->
  bk_fails (mkBreaker k (Some start) None) ts
  = mkBreaker (k + Z.of_nat (length ts)) (Some start) None.
Proof.
  revert k. induction ts as [|t ts IH]; intros k Hw Hk; [cbn; by rewrite Z.add_0_r|].
  apply Forall_cons in Hw as [Ht Hw]. cbn [length] in *.
  rewrite bk_fails_cons, bk_fail_counting by (done || lia). cbn [fst].
  rewrite IH by (done || lia). f_equal. lia.
Qed.

Lemma bk_fails_below start ts :
  Forall (within start) (start :: ts) ->
  Z.of_nat (length (start :: ts)) < hc_failure_threshold c ->
  bk_fails bk_closed (start :: ts)
  = mkBreaker (Z.of_nat (length (start :: ts))) (Some start) None.
Proof.
  intros [_ Hw]%Forall_cons Hl. cbn [length] in *. rewrite bk_fails_cons.
  assert ((bk_fail c bk_closed start).1 = mkBreaker 1 (Some start) None) as ->.
  { unfold bk_fail. cbn. by rewrite (proj2 (Z.leb_gt _ _)) by lia. }
  rewrite bk_fails_counting by (done || lia). f_equal. lia.
Qed.

(** The failure that reaches the threshold opens it. *)
Lemma bk_fails_open start ts t :
  Forall (within start) (start :: ts ++ [t]) ->
  Z.of_nat (length (start :: ts ++ [t])) = hc_failure_threshold c ->
  bk_fails bk_closed (start :: ts ++ [t])
  = mkBreaker (hc_failure_threshold c) (Some start)
      (Some (t + from_millis (as_millis (hc_cooldown c)))).
Proof.
  intros Hw Hl. rewrite app_comm_cons in *. apply Forall_app in Hw as [Hw Ht].
  apply Forall_cons in Ht as [Ht _]. rewrite length_app in Hl. cbn in Hl.
  unfold bk_fails. rewrite foldl_app. fold (bk_fails bk_closed (start :: ts)).
  rewrite bk_fails_below by (done || cbn; lia). cbn [foldl].
  unfold bk_fail. cbn [cooldown_active bk_until is_some_and bk_window bk_failures].
  rewrite window_expired_within by done. cbv zeta.
  rewrite (proj2 (Z.leb_le _ _)) by (cbn; lia). cbn [fst].
  replace (Z.of_nat (length (start :: ts)) + 1) with (hc_failure_threshold c) by (cbn; lia).
  do 3 f_equal. unfold bk_delay. rewrite Z.sub_diag. cbn. rewrite Z.mul_1_r, Z.min_l; [done|].
  apply as_millis_mono. apply Hc.
Qed.

(** An in-memory registry whose entry for [acc] is enabled, was last
    updated at [t], and has breaker [b]. *)
Definition memory_breaker (self : HealthRegistry) (b : Breaker) (t : Z) : Prop :=
  hr_config self = c /\ hr_database self = None /\
  exists m, hr_state self !! acc = Some m /\ ms_enabled m = true /\
    abs_memory m = b /\ ms_updated_at m = Some t.

Lemma memory_breaker_fail self b t now source code msg :
  0 <= bk_failures b < U32_MAX -> memory_breaker self b t ->
  memory_breaker (mark_failure_with_details self None now acc source code msg).2
    (bk_fail c b now).1 now.
Proof.
  intros Hb (Hcfg & Hdb & m & Hm & He & Hab & Hu).
  unfold mark_failure_with_details. rewrite Hdb. unfold mark_memory_failure. rewrite Hm, Hcfg. cbn.
  assert (0 <= ms_consecutive_failures m < U32_MAX) as Hf by (subst b; done).
  pose proof (memory_failure_refines c Hc m now source msg Hf) as Href.
  pose proof (memory_failure_shape c Hc m now source msg Hf) as Hs. cbv zeta in Hs.
  destruct (memory_failure c m now source msg) as [m' started]. cbn in Hs, Href.
  split_and!; [done..|]. exists m'. cbn. split; [apply lookup_insert_eq|].
  rewrite <- Hab, Href. cbn. rewrite Hs. by cbn.
Qed.

Lemma memory_breaker_fails self b t msg ts :
  0 <= bk_failures b -> bk_failures b + Z.of_nat (length ts) <= U32_MAX ->
  memory_breaker self b t ->
  memory_breaker
    (foldl (fun r u => (mark_failure_with_details r None u acc "passive" None msg).2) self ts)
    (bk_fails b ts) (default t (last ts)).
Proof.
  revert self b t. induction ts as [|u ts IH]; intros self b t Hnn Hl Hm; [done|].
  cbn [length foldl] in *. pose proof (bk_fail_bound c b u Hnn) as Hbd.
  rewrite bk_fails_cons, last_cons.
  replace (default t (match last ts with Some y => Some y | None => Some u end))
    with (default u (last ts)) by (by destruct (last ts)).
  apply IH; [lia|lia|]. eapply memory_breaker_fail; [lia|done].
Qed.

(** What routing sees of an in-memory entry. *)
Lemma memory_breaker_available self b t now :
  memory_breaker self b t ->
  is_available self None now acc
  = negb (cooldown_active now (bk_until b)) || (hc_stale_after c <=? now - t).
Proof.
  intros (Hcfg & Hdb & m & Hm & He & Hab & Hu). unfold is_available.
  rewrite Hdb, Hm, Hcfg. cbn. rewrite report_status_disabled, He. unfold stale. rewrite Hu.
  rewrite (chrono_from_std_range (hc_stale_after c))
    by (destruct Hc as (_ & _ & _ & _ & Hst); unfold from_millis, NS_PER_MS in *; lia).
  subst b. cbn. by destruct (cooldown_active now _), (_ <=? _).
Qed.

Lemma memory_breaker_success self now :
  hr_config self = c -> hr_database self = None ->
  ms_enabled (default fresh_state (hr_state self !! acc)) = true ->
  memory_breaker (mark_success self None now acc) bk_closed now.
Proof.
  intros Hcfg Hdb He. unfold mark_success, mark_success_with_source. rewrite Hdb.
  split_and!; [done..|]. eexists. split; [apply lookup_insert_eq|]. by cbn.
Qed.
End Threshold.

(** The breaker opens exactly at the threshold.  After a success, failures
    that stay within one failure window leave the account available while they
    are fewer than the threshold; the failure that reaches the threshold makes
    it unavailable for the whole base cooldown (as long as the observation is
    not stale), and it is available again from the end of the cooldown on. *)
Theorem breaker_opens_at_threshold (ch : Chrono) (pg : PgTime) c acc self t0 start ts msg
    (Hc : config_ok c) (Hcfg : hr_config self = c) (Hmem : hr_database self = None)
    (Hen : ms_enabled (default fresh_state (hr_state self !! acc)) = true)
    (Hthr : hc_failure_threshold c <= U32_MAX)
    (Hwin : Forall (within c start) (start :: ts))
    (Hlen : Z.of_nat (length (start :: ts)) <= hc_failure_threshold c) :
  let failed := foldl (fun r u => (mark_failure_with_details r None u acc "passive" None msg).2)
                  (mark_success self None t0 acc) (start :: ts) in
  let t := default start (last ts) in
  let cooldown := from_millis (as_millis (hc_cooldown c)) in
  (Z.of_nat (length (start :: ts)) < hc_failure_threshold c ->
     forall now, is_available failed None now acc = true) /\
  (Z.of_nat (length (start :: ts)) = hc_failure_threshold c ->
     forall now, is_available failed None now acc
       = (t + cooldown <=? now) || (hc_stale_after c <=? now - t)).
Proof.
  intros failed t cooldown.
  assert (memory_breaker c acc failed (bk_fails c bk_closed (start :: ts)) t) as Hb.
  { pose proof (memory_breaker_fails c acc Hc (mark_success self None t0 acc) bk_closed t0 msg (start :: ts)) as Hf.
    replace t with (default t0 (last (start :: ts))).
    - apply Hf; [done|cbn [bk_failures bk_closed]; lia|]. by apply memory_breaker_success.
    - unfold t. rewrite last_cons. by destruct (last ts). }
  split; intros Hn now; rewrite (memory_breaker_available c acc Hc _ _ _ _ Hb).
  - by rewrite bk_fails_below.
  - assert (bk_until (bk_fails c bk_closed (start :: ts)) = Some (t + cooldown)) as ->.
    { subst t. destruct ts as [|t' ts _] using rev_ind.
      - unfold bk_fails, bk_fail. cbn -[bk_delay]. rewrite (proj2 (Z.leb_le _ _)) by (cbn in Hn; lia).
        cbn -[bk_delay]. f_equal. f_equal. unfold bk_delay. cbn in Hn. rewrite <- Hn. cbn.
        rewrite Z.mul_1_r, Z.min_l; [done|]. apply as_millis_mono, Hc.
      - rewrite last_snoc. cbn [default]. by rewrite bk_fails_open. }
    f_equal. cbn. rewrite Z.leb_antisym. done.
Qed.

Definition example_registry : HealthRegistry := mkHealthRegistry HealthConfig_default None ∅.

Lemma breaker_opens_at_threshold_witness :
  let failed := foldl (fun r u => (@mark_failure_with_details chrono_exact pg_micros
                                     r None u "a" "passive" None None).2)
    (@mark_success pg_micros example_registry None 0 "a")
    [from_secs 1; from_secs 2; from_secs 3] in
  @is_available chrono_exact failed None (from_secs 32) "a" = false /\
  @is_available chrono_exact failed None (from_secs 33) "a" = true.
Proof.
  intros failed.
  destruct (breaker_opens_at_threshold chrono_exact pg_micros HealthConfig_default "a"
    example_registry 0 (from_secs 1) [from_secs 2; from_secs 3] None) as [_ Hopen]; try reflexivity.
  - unfold config_ok. vm_compute. repeat split; discriminate.
  - vm_compute. discriminate.
  - repeat constructor; vm_compute; discriminate.
  - specialize (Hopen eq_refl). split; rewrite Hopen; reflexivity.
Defined.

(** ** Recovery and isolation *)

(** The account can be written: no database, or a row whose account and source
    are enabled. *)
Definition writable (self : HealthRegistry) (acc : string) : Prop :=
  match hr_database self with
  | None => ms_enabled (default fresh_state (hr_state self !! acc)) = true
  | Some db => exists row, db_accounts db !! acc = Some row /\
                 ar_enabled row = true /\ ar_source_enabled row = true
  end.

(** A success closes the breaker on either back end: afterwards the
    account is available at every instant, with no failures, cooldown or
    error, and it reads as healthy until the observation goes stale. *)
Theorem success_closes_breaker (ch : Chrono) (pg : PgTime) self acc source test latency now later
    (Hw : writable self acc) :
  let h := get_health (mark_success_with_source self None now acc source test latency)
             None later acc in
  ah_available h = true /\ ah_consecutive_failures h = 0 /\ ah_cooldown_until h = None /\
  ah_last_error h = None /\ ah_status h = (if ah_stale h then "stale" else "healthy").
Proof.
  unfold writable in Hw. unfold mark_success_with_source. cbv zeta.
  destruct (hr_database self) as [db|] eqn:Hdb.
  - destruct Hw as (row & Hrow & He & Hs). unfold get_health, with_database. cbn.
    unfold record_account_health_success. cbn. rewrite Hrow, He, Hs. cbn.
    rewrite lookup_insert_eq. cbn -[report_status stale].
    rewrite report_status_disabled. by destruct (stale later _ _).
  - unfold get_health. cbn. rewrite lookup_insert_eq. cbn -[report_status stale].
    rewrite report_status_disabled, Hw. by destruct (stale later _ _).
Qed.

Lemma success_closes_breaker_witness :
  let reg := (@mark_failure_with_details chrono_exact pg_micros
                (mkHealthRegistry HealthConfig_default (Some (mkDatabase {["a" := example_row]} [])) ∅)
                None (from_secs 1) "a" "passive" None (Some "boom")).2 in
  ah_available (@get_health chrono_exact
     (@mark_success_with_source pg_micros reg None (from_secs 2) "a" "passive" None None)
     None (from_secs 3) "a") = true.
Proof.
  intros reg. apply (success_closes_breaker chrono_exact pg_micros reg "a").
  eexists. split; [vm_compute; reflexivity|]. split; reflexivity.
Defined.

(** Observations are isolated: recording a failure or a success for one
    account, with or without a database fault, never changes the report of
    another account. *)
Theorem observations_isolated (ch : Chrono) (pg : PgTime) self acc other fault now later source
    code msg test latency (Hne : acc <> other) :
  get_health (mark_failure_with_details self fault now acc source code msg).2 None later other
  = get_health self None later other /\
  get_health (mark_success_with_source self fault now acc source test latency) None later other
  = get_health self None later other.
Proof.
  unfold mark_failure_with_details, mark_success_with_source, get_health.
  destruct (hr_database self) as [db|] eqn:Hdb; cbn.
  - unfold record_account_health_failure, record_account_health_success.
    split; destruct fault as [[]|]; cbn; try done;
      (destruct (db_accounts db !! acc) as [row|] eqn:Hrow; cbn; [|done]);
      (destruct (_ || _); cbn; [done|]);
      try (destruct (row_failure_transition _ _ _ _ _ _) as [[[? ?] ?] ?]; cbn);
      by rewrite lookup_insert_ne.
  - unfold mark_memory_failure. split.
    + destruct (memory_failure _ _ _ _ _) as [m' b]. cbn. by rewrite Hdb, lookup_insert_ne.
    + by rewrite lookup_insert_ne.
Qed.

Lemma observations_isolated_witness :
  @get_health chrono_exact
    (@mark_failure_with_details chrono_exact pg_micros example_registry None 5 "a" "passive"
       None None).2 None 6 "b"
  = @get_health chrono_exact example_registry None 6 "b".
Proof.
  apply (observations_isolated chrono_exact pg_micros example_registry "a" "b" None 5 6
           "passive" None None None None). discriminate.
Defined.

(** ** The persisted tables as a state machine *)

Definition allowed_statuses : list string :=
  ["unknown"; "healthy"; "cooling_down"; "unhealthy"; "stale"; "disabled"].
Definition allowed_sources : list string := ["unknown"; "passive"; "probe"; "manual"; "startup"].

(** The CHECK constraints of [accounts] and [account_health_events]
    (migration 0012), and that error texts come from the fixed list. *)
Definition row_ok (r : AccountHealthRow) : Prop :=
  ar_health_status r ∈ allowed_statuses /\ ar_health_source r ∈ allowed_sources /\
  0 <= ar_consecutive_failures r <= I32_MAX /\
  (forall e, ar_last_error r = Some e -> e ∈ safe_errors) /\
  (forall e, ar_last_probe_error r = Some e -> e ∈ safe_errors).

Definition event_ok (e : HealthEvent) : Prop :=
  he_status e ∈ allowed_statuses /\ he_source e ∈ allowed_sources /\
  0 <= he_consecutive_failures e <= I32_MAX /\
  (forall l, he_latency_ms e = Some l -> 0 <= l) /\
  (forall m, he_error_message e = Some m -> m ∈ safe_errors).

(** The statuses of one account's events, oldest first. *)
Definition event_statuses (acc : string) (events : list HealthEvent) : list string :=
  map he_status (List.filter (fun e => he_account_id e =?s acc) events).

(** No event repeats the status before it. *)
Fixpoint no_repeat (s : string) (l : list string) : Prop :=
  match l with [] => True | t :: l' => s <> t /\ no_repeat t l' end.

(** [initial acc] is the status of [acc] before its first event. *)
Definition db_inv (initial : string -> string) (db : Database) : Prop :=
  map_Forall (fun _ r => row_ok r) (db_accounts db) /\
  Forall event_ok (db_health_events db) /\
  forall acc r, db_accounts db !! acc = Some r ->
    no_repeat (initial acc) (event_statuses acc (db_health_events db)) /\
    default (initial acc) (last (event_statuses acc (db_health_events db))) = ar_health_status r.

Section Machine.
Context `{Chrono} `{PgTime}.

(** Any write of the health component, with any outcome of the database. *)
Inductive health_step : Database -> Database -> Prop :=
| StepFailure db fault acc now base maximum threshold window source code msg latency test
    (Hlat : forall l, latency = Some l -> 0 <= l) :
    health_step db (record_account_health_failure db fault acc now base maximum threshold window
                      source code msg latency test).2
| StepSuccess db fault acc now source test latency
    (Hlat : forall l, latency = Some l -> 0 <= l) :
    health_step db (record_account_health_success db fault acc now source test latency).2.

Lemma normalize_source_allowed source : normalize_source source ∈ allowed_sources.
Proof.
  unfold normalize_source. destruct (_ || _) eqn:E; [|set_solver].
  rewrite !orb_true_iff, !String.eqb_eq in E. set_solver.
Qed.

Lemma i32_try_from_range z : 0 <= z -> 0 <= i32_try_from z <= I32_MAX.
Proof.
  intros Hz. unfold i32_try_from. destruct (z <=? I32_MAX) eqn:E; [bool_to_prop; lia|].
  unfold I32_MAX. split; [by vm_compute|lia].
Qed.

Lemma row_failure_transition_ok r now base maximum threshold window failures w until status :
  row_failure_transition r now base maximum threshold window = (failures, w, until, status) ->
  0 <= failures /\ (status = "cooling_down" \/ status = "unhealthy").
Proof.
  unfold row_failure_transition, wrap_u. pose proof (Z.mod_pos_bound
    (Z.max (ar_consecutive_failures r) 0 + 1) (2 ^ 32) eq_refl) as Hm.
  destruct (cooldown_active _ _); [intros [= <- _ _ <-]; split; [lia|by left]|].
  destruct (window_expired _ _ _), (threshold <=? _); intros [= <- _ _ <-];
    (split; [lia|by (left + right)]).
Qed.

Lemma event_statuses_app acc l e :
  event_statuses acc (l ++ [e])
  = event_statuses acc l ++ (if he_account_id e =?s acc then [he_status e] else []).
Proof.
  unfold event_statuses. rewrite List.filter_app, map_app. cbn. by destruct (_ =?s _).
Qed.

Lemma no_repeat_snoc s l t :
  no_repeat s l -> default s (last l) <> t -> no_repeat s (l ++ [t]).
Proof.
  revert s. induction l as [|u l IH]; intros s; cbn [no_repeat app]; [by split|].
  intros [Hs Hl] Ht. split; [done|]. apply IH; [done|]. rewrite last_cons in Ht.
  by destruct (last l).
Qed.

(** Writing one row, with an event exactly when the status changes. *)
Lemma db_inv_write initial db acc old row event :
  db_inv initial db -> db_accounts db !! acc = Some old ->
  row_ok row -> event_ok event ->
  he_account_id event = acc -> he_status event = ar_health_status row ->
  db_inv initial (mkDatabase (<[acc := row]> (db_accounts db))
    (if negb (ar_health_status row =?s ar_health_status old)
     then db_health_events db ++ [event] else db_health_events db)).
Proof.
  intros (Hrows & Hevs & Hchain) Hold Hrow Hev Hid Hst. split_and!; cbn [db_accounts db_health_events].
  - by apply map_Forall_insert_2.
  - destruct (negb _); [|done]. apply Forall_app. split; [done|]. by constructor.
  - intros other r Hr. destruct (String.eqb_spec (ar_health_status row) (ar_health_status old)) as [E|E];
      cbn [negb]; (destruct (decide (acc = other)) as [<-|Hne];
            [rewrite lookup_insert_eq in Hr; injection Hr as <- | rewrite lookup_insert_ne in Hr by done]).
    + destruct (Hchain _ _ Hold) as [Hn Hl]. by rewrite E.
    + by apply Hchain.
    + destruct (Hchain _ _ Hold) as [Hn Hl].
      rewrite event_statuses_app, Hid, String.eqb_refl, Hst. split.
      * apply no_repeat_snoc; [done|]. rewrite Hl. congruence.
      * by rewrite last_snoc.
    + rewrite event_statuses_app, Hid.
      rewrite (proj2 (String.eqb_neq acc other)) by done. rewrite app_nil_r. by apply Hchain.
Qed.

Lemma db_inv_failure initial db fault acc now base maximum threshold window source code msg latency test :
  (forall l, latency = Some l -> 0 <= l) -> db_inv initial db ->
  db_inv initial (record_account_health_failure db fault acc now base maximum threshold window
                    source code msg latency test).2.
Proof.
  intros Hlat Hinv. unfold record_account_health_failure.
  destruct (fails_before fault); [done|]. destruct (db_accounts db !! acc) as [old|] eqn:Hold; [|done].
  destruct (_ || _); [done|].
  destruct (row_failure_transition _ _ _ _ _ _) as [[[failures w] until] status] eqn:Etr.
  apply row_failure_transition_ok in Etr as [Hf Hs].
  pose proof (i32_try_from_range _ Hf) as Hr. pose proof (normalize_source_allowed source) as Hsrc.
  assert (status ∈ allowed_statuses) as Hsa by (destruct Hs; subst; set_solver).
  destruct (proj1 Hinv _ _ Hold) as (_ & _ & _ & _ & Hpe).
  pose proof (sanitize_error_in msg) as Hmsg.
  match goal with |- context [mkDatabase (<[_ := ?r]> _) (if _ then _ ++ [?e] else _)] =>
    pose proof (db_inv_write initial db acc old r e Hinv Hold) as Hw end.
  cbn in Hw. destruct (fails_after fault); cbn; (apply Hw; try done;
    split_and!; cbn; try done; try lia; intros; destruct (normalize_source source =?s "probe"); eauto).
Qed.

Lemma db_inv_success initial db fault acc now source test latency :
  (forall l, latency = Some l -> 0 <= l) -> db_inv initial db ->
  db_inv initial (record_account_health_success db fault acc now source test latency).2.
Proof.
  intros Hlat Hinv. unfold record_account_health_success.
  destruct (fails_before fault); [done|]. destruct (db_accounts db !! acc) as [old|] eqn:Hold; [|done].
  destruct (ar_enabled old) eqn:Hen, (ar_source_enabled old) eqn:Hse; cbn; try done.
  pose proof (normalize_source_allowed source) as Hsrc.
  destruct (proj1 Hinv _ _ Hold) as (_ & _ & _ & _ & Hpe).
  match goal with |- context [mkDatabase (<[_ := ?r]> _) (if _ then _ ++ [?e] else _)] =>
    pose proof (db_inv_write initial db acc old r e Hinv Hold) as Hw end.
  cbn -[String.eqb] in Hw. rewrite (String.eqb_sym (ar_health_status old)).
  assert ("healthy" ∈ allowed_statuses) as Hhealthy by (repeat constructor).
  destruct (fails_after fault); cbn -[String.eqb]; (apply Hw; [| |reflexivity|reflexivity];
    split_and!; cbn -[String.eqb]; auto; try (unfold I32_MAX; lia); try congruence;
    intros; destruct (normalize_source source =?s "probe"); eauto; congruence).
Qed.

Lemma health_step_inv initial db db' : health_step db db' -> db_inv initial db -> db_inv initial db'.
Proof. intros []; eauto using db_inv_failure, db_inv_success. Qed.
End Machine.

(** Invariant of the persisted health tables, for every sequence of
    failure and success writes with arbitrary arguments, times and database
    faults: the rows and events satisfy the CHECK constraints of the schema,
    stored error texts come from the fixed safe list (no upstream text is
    persisted), and an event is written exactly when the status changes - the
    events of an account never repeat a status and end in its current one. *)
Theorem health_tables_invariant (ch : Chrono) (pg : PgTime) initial db db'
    (Hinit : db_inv initial db) (Hsteps : rtc health_step db db') :
  db_inv initial db'.
Proof. induction Hsteps; eauto using health_step_inv. Qed.

Lemma health_tables_invariant_witness :
  let db := mkDatabase {["a" := example_row]} [] in
  let db' := (@record_account_health_failure chrono_exact pg_micros db None "a" (from_secs 1)
                (from_secs 30) (from_secs 60) 3 (from_secs 60) "passive" None (Some "secret body")
                None None).2 in
  db_inv (fun _ => "unknown") db' /\ length (db_health_events db') = 1%nat.
Proof.
  intros db db'. split; [|vm_compute; reflexivity].
  apply (health_tables_invariant chrono_exact pg_micros _ db).
  - split_and!.
    + apply map_Forall_singleton. split_and!; try done; apply (bool_decide_unpack _); reflexivity.
    + apply List.Forall_nil.
    + intros acc r Hr. unfold db in Hr. cbn [db_accounts] in Hr.
      apply lookup_singleton_Some in Hr as [<- <-]. done.
  - apply rtc_once. apply StepFailure. done.
Defined.
