(* ===== verification/SourceUrl.v ===== *)
(** * Outbound URL policy: [src/src/source_url.rs]

    Which upstream URLs, addresses and redirects the gateway may contact.  The
    [url] and [ipnet] crates are parameters: a parsed URL is the record of its
    accessors, a network the set of addresses it contains.  Addresses are the
    integers behind [Ipv4Addr] and [Ipv6Addr], and their textual form is read
    the way the standard library reads it. *)

From Stdlib Require Import ZArith Lia Ascii.
From stdpp Require Import base list strings.
From S2P Require Import Prelude.
From S2P Require Import RustStr.

Inductive SourceUrlPolicyError : Type :=
| InvalidAllowlist | InvalidUrl | DisallowedTarget | DnsResolutionFailed | NoResolvedAddresses
| RedirectBlocked.

Definition is_policy_violation (self : SourceUrlPolicyError) : bool :=
  match self with DisallowedTarget | RedirectBlocked | InvalidUrl => true | _ => false end.

(** ** Addresses *)

Inductive IpAddr : Type := V4 (ip : Z) | V6 (ip : Z).

#[global] Instance IpAddr_eq_dec : EqDecision IpAddr.
Proof. solve_decision. Defined.

Definition ip_wf (ip : IpAddr) : Prop :=
  match ip with V4 a => 0 <= a < 2 ^ 32 | V6 a => 0 <= a < 2 ^ 128 end.

(** [octets()[i]] and [segments()[i]]. *)
Definition octet (ip i : Z) : Z := Z.land (Z.shiftr ip (8 * (3 - i))) 255.
Definition segment (ip i : Z) : Z := Z.land (Z.shiftr ip (16 * (7 - i))) 65535.

Definition ipv4 (a b c d : Z) : Z := ((a * 256 + b) * 256 + c) * 256 + d.
Definition ipv6 (groups : list Z) : Z := fold_left (fun acc g => acc * 65536 + g) groups 0.

(** *** [IpAddr::from_str] *)

(** [to_digit] of a radix up to 16. *)
Definition to_digit (radix : Z) (a : ascii) : option Z :=
  let v := if byte_in a 48 57 then Some (byte_val a - 48)
           else if byte_in a 97 102 then Some (byte_val a - 87)
           else if byte_in a 65 70 then Some (byte_val a - 55) else None in
  opt_filter (fun d => d <? radix) v.

(** The digits at the front: their value, their number and the rest; [None]
    when there are more than [max_digits]. *)
Fixpoint read_digits_max (radix : Z) (max_digits : nat) (value : Z) (count : nat) (s : string)
    : option (Z * nat * string) :=
  match s with
  | EmptyString => Some (value, count, s)
  | String a t =>
      match to_digit radix a with
      | None => Some (value, count, s)
      | Some d =>
          match max_digits with
          | O => None
          | S max_digits => read_digits_max radix max_digits (value * radix + d) (S count) t
          end
      end
  end.

Definition read_number (radix : Z) (max_digits : nat) (bound : Z) (allow_zero_prefix : bool)
    (s : string) : option (Z * string) :=
  let leading_zero := starts_with s "0" in
  match read_digits_max radix max_digits 0 0 s with
  | None => None
  | Some (value, count, rest) =>
      if Nat.eqb count 0 then None
      else if negb allow_zero_prefix && leading_zero && negb (Nat.eqb count 1) then None
      else if value <? bound then Some (value, rest) else None
  end.

(** [read_separator]: the separator before every element but the first. *)
Definition read_separator {A} (sep : string) (i : nat) (p : string -> option A) (s : string) : option A :=
  match i with O => p s | S _ => match strip_prefix sep s with Some t => p t | None => None end end.

Definition read_octet (i : nat) (s : string) : option (Z * string) :=
  read_separator "." i (read_number 10 3 256 false) s.

Definition read_ipv4_addr (s : string) : option (Z * string) :=
  match read_octet 0 s with
  | None => None
  | Some (a, s) =>
      match read_octet 1 s with
      | None => None
      | Some (b, s) =>
          match read_octet 2 s with
          | None => None
          | Some (c, s) =>
              match read_octet 3 s with
              | None => None
              | Some (d, s) => Some (ipv4 a b c d, s)
              end
          end
      end
  end.

(** [read_groups]: the groups read, whether the last two are an IPv4 address,
    and the rest.  [left] groups may still be read, [i] have been. *)
Fixpoint read_groups (left i : nat) (s : string) : list Z * bool * string :=
  match left with
  | O => ([], false, s)
  | S left' =>
      match (if Nat.ltb 0 left' then read_separator ":" i read_ipv4_addr s else None) with
      | Some (a, rest) => ([Z.shiftr a 16; Z.land a 65535], true, rest)
      | None =>
          match read_separator ":" i (read_number 16 4 65536 true) s with
          | Some (g, rest) =>
              let '(gs, v4, rest) := read_groups left' (S i) rest in (g :: gs, v4, rest)
          | None => ([], false, s)
          end
      end
  end.

Definition read_ipv6_addr (s : string) : option (Z * string) :=
  let '(head, head_ipv4, rest) := read_groups 8 0 s in
  if Nat.eqb (length head) 8 then Some (ipv6 head, rest)
  else if head_ipv4 then None
  else
    match strip_prefix "::" rest with
    | None => None
    | Some rest =>
        let '(tail, _, rest) := read_groups (7 - length head) 0 rest in
        Some (ipv6 (head ++ repeat 0 (8 - length head - length tail) ++ tail), rest)
    end.

Definition ip_from_str (s : string) : option IpAddr :=
  let all (r : option (Z * string)) := match r with Some (a, rest) => if is_empty rest then Some a else None
                                                 | None => None end in
  match read_ipv4_addr s with
  | Some (a, rest) => if is_empty rest then Some (V4 a) else None
  | None => option_map V6 (all (read_ipv6_addr s))
  end.

Example ip_from_str_examples :
  map ip_from_str ["127.0.0.1"; "01.2.3.4"; "256.1.1.1"; "::1"; "::ffff:10.0.0.1"; "fd00:ec2::254"; "1::2::3";
                   "1:2:3:4:5:6:7:8"; "a.b"]
  = [Some (V4 (ipv4 127 0 0 1)); None; None; Some (V6 1); Some (V6 (65535 * 2 ^ 32 + ipv4 10 0 0 1));
     Some (V6 (ipv6 [64768; 3778; 0; 0; 0; 0; 0; 596])); None;
     Some (V6 (ipv6 [1; 2; 3; 4; 5; 6; 7; 8])); None].
Proof. vm_compute. reflexivity. Qed.

(** ** Classification *)

Definition ipv4_in (ip network prefix : Z) : bool :=
  let mask := if 32 - prefix <? 32 then wrap_u 32 (Z.shiftl U32_MAX (32 - prefix)) else 0 in
  Z.land ip mask =? Z.land network mask.

Definition ipv6_in (ip network prefix : Z) : bool :=
  let mask := if 128 - prefix <? 128 then wrap_u 128 (Z.shiftl U128_MAX (128 - prefix)) else 0 in
  Z.land ip mask =? Z.land network mask.

(** The predicates of [Ipv4Addr]. *)
Definition v4_is_unspecified (ip : Z) : bool := ip =? 0.
Definition v4_is_loopback (ip : Z) : bool := octet ip 0 =? 127.
Definition v4_is_private (ip : Z) : bool :=
  (octet ip 0 =? 10)
  || ((octet ip 0 =? 172) && (16 <=? octet ip 1) && (octet ip 1 <=? 31))
  || ((octet ip 0 =? 192) && (octet ip 1 =? 168)).
Definition v4_is_link_local (ip : Z) : bool := (octet ip 0 =? 169) && (octet ip 1 =? 254).
Definition v4_is_multicast (ip : Z) : bool := (224 <=? octet ip 0) && (octet ip 0 <=? 239).
Definition v4_is_broadcast (ip : Z) : bool := ip =? ipv4 255 255 255 255.
Definition v4_is_documentation (ip : Z) : bool :=
  ((octet ip 0 =? 192) && (octet ip 1 =? 0) && (octet ip 2 =? 2))
  || ((octet ip 0 =? 198) && (octet ip 1 =? 51) && (octet ip 2 =? 100))
  || ((octet ip 0 =? 203) && (octet ip 1 =? 0) && (octet ip 2 =? 113)).

(** The predicates of [Ipv6Addr]. *)
Definition v6_is_unspecified (ip : Z) : bool := ip =? 0.
Definition v6_is_multicast (ip : Z) : bool := Z.land (segment ip 0) 65280 =? 65280.

Definition mapped_ipv4 (ip : Z) : option Z :=
  if (segment ip 0 =? 0) && (segment ip 1 =? 0) && (segment ip 2 =? 0) && (segment ip 3 =? 0)
     && (segment ip 4 =? 0) && (segment ip 5 =? 65535)
  then Some (ipv4 (Z.shiftr (segment ip 6) 8) (wrap_u 8 (segment ip 6))
               (Z.shiftr (segment ip 7) 8) (wrap_u 8 (segment ip 7)))
  else None.

Definition is_metadata_ipv4 (ip : Z) : bool :=
  let at_ a b c d := (octet ip 0 =? a) && (octet ip 1 =? b) && (octet ip 2 =? c) && (octet ip 3 =? d) in
  at_ 169 254 169 254 || at_ 169 254 170 2 || at_ 169 254 170 23 || at_ 100 100 100 200.

Definition is_metadata_ip (ip : IpAddr) : bool :=
  match ip with
  | V4 ip => is_metadata_ipv4 ip
  | V6 ip =>
      bool_decide (map (segment ip) [0; 1; 2; 3; 4; 5; 6; 7] = [64768; 3778; 0; 0; 0; 0; 0; 596])
      || is_some_and (mapped_ipv4 ip) is_metadata_ipv4
  end.

Definition is_never_allowed_ipv4 (ip : Z) : bool :=
  is_metadata_ipv4 ip || (v4_is_unspecified ip || v4_is_multicast ip || v4_is_broadcast ip).

Definition is_never_allowed_ip (ip : IpAddr) : bool :=
  match ip with
  | V4 ip => is_never_allowed_ipv4 ip
  | V6 a =>
      is_metadata_ip ip
      || (v6_is_unspecified a || v6_is_multicast a || is_some_and (mapped_ipv4 a) is_never_allowed_ipv4)
  end.

Definition is_public_ipv4 (ip : Z) : bool :=
  negb (v4_is_unspecified ip || v4_is_loopback ip || v4_is_private ip || v4_is_link_local ip
        || v4_is_multicast ip || v4_is_broadcast ip || v4_is_documentation ip
        || ipv4_in ip (ipv4 0 0 0 0) 8 || ipv4_in ip (ipv4 100 64 0 0) 10
        || ipv4_in ip (ipv4 192 0 0 0) 24 || ipv4_in ip (ipv4 192 88 99 0) 24
        || ipv4_in ip (ipv4 198 18 0 0) 15 || ipv4_in ip (ipv4 240 0 0 0) 4).

Definition is_public_ipv6 (ip : Z) : bool :=
  ipv6_in ip (ipv6 [8192; 0; 0; 0; 0; 0; 0; 0]) 3
  && negb (ipv6_in ip (ipv6 [8193; 0; 0; 0; 0; 0; 0; 0]) 23)
  && negb (ipv6_in ip (ipv6 [8193; 3512; 0; 0; 0; 0; 0; 0]) 32)
  && negb (ipv6_in ip (ipv6 [8194; 0; 0; 0; 0; 0; 0; 0]) 16).

Definition is_public_ip (ip : IpAddr) : bool :=
  match ip with
  | V4 ip => is_public_ipv4 ip
  | V6 ip => match mapped_ipv4 ip with Some ip => is_public_ipv4 ip | None => is_public_ipv6 ip end
  end.

(** ** Hosts and URLs *)

(** A [reqwest::Url]; [url_text] tells equal URLs apart. *)
Record Url : Type := mkUrl {
  url_text : string;
  url_scheme : string;
  url_host_str : option string;
  url_username : string;
  url_password : option string;
  url_port : option Z;
  url_port_or_known_default : option Z;
  url_path : string;
  url_query : option string;
  url_fragment : option string;
}.

Class UrlCrates : Type := {
  url_parse : string -> option Url;
  ipnet_from_str : string -> option (IpAddr -> bool);
}.

Definition normalize_host (host : string) : string :=
  let host := trim_end_matches "."%char host in
  to_ascii_lowercase
    (unwrap_or (match strip_prefix "[" host with Some t => strip_suffix "]" t | None => None end) host).

Definition is_local_hostname (host : string) : bool :=
  (host =?s "localhost") || ends_with host ".localhost" || ends_with host ".local"
  || ends_with host ".internal" || ends_with host ".home" || ends_with host ".lan"
  || negb (contains_char host "."%char).

Definition is_metadata_hostname (host : string) : bool :=
  existsb (String.eqb host)
    ["metadata.google.internal"; "metadata.aws.internal"; "instance-data.ec2.internal";
     "metadata.azure.internal"].

Definition same_origin (left right : Url) : bool :=
  (url_scheme left =?s url_scheme right)
  && bool_decide (url_host_str left = url_host_str right)
  && bool_decide (url_port_or_known_default left = url_port_or_known_default right).

(** ** The policy *)

Record SourceUrlPolicy : Type := mkSourceUrlPolicy {
  sp_allowed_hosts : list string;
  sp_allowed_ips : list IpAddr;
  sp_allowed_networks : list (IpAddr -> bool);
}.

Definition SourceUrlPolicy_default : SourceUrlPolicy := mkSourceUrlPolicy [] [] [].

Section Policy.
Context `{UrlCrates}.

(** One entry of the allowlist. *)
Definition add_entry (policy : SourceUrlPolicy) (entry : string)
    : result SourceUrlPolicy SourceUrlPolicyError :=
  let hosts := sp_allowed_hosts policy in
  let ips := sp_allowed_ips policy in
  let networks := sp_allowed_networks policy in
  if contains_char entry "/"%char then
    match ipnet_from_str entry with
    | Some network => Ok (mkSourceUrlPolicy hosts ips (networks ++ [network]))
    | None => Err InvalidAllowlist
    end
  else
    match ip_from_str entry with
    | Some ip => Ok (mkSourceUrlPolicy hosts (ip :: ips) networks)
    | None =>
        match url_parse ("http://" +:+ entry +:+ "/") with
        | None => Err InvalidAllowlist
        | Some candidate =>
            match url_host_str candidate with
            | None => Err InvalidAllowlist
            | Some host =>
                if is_some (url_port candidate) || negb (is_empty (url_username candidate))
                   || is_some (url_password candidate) || negb (url_path candidate =?s "/")
                   || is_some (url_query candidate) || is_some (url_fragment candidate)
                   || contains_char entry "*"%char
                then Err InvalidAllowlist
                else Ok (mkSourceUrlPolicy (normalize_host host :: hosts) ips networks)
            end
        end
    end.

Fixpoint add_entries (policy : SourceUrlPolicy) (entries : list string)
    : result SourceUrlPolicy SourceUrlPolicyError :=
  match entries with
  | [] => Ok policy
  | entry :: entries => let? policy := add_entry policy entry in add_entries policy entries
  end.

Definition from_allowlist (value : string) : result SourceUrlPolicy SourceUrlPolicyError :=
  add_entries SourceUrlPolicy_default
    (List.filter (fun entry => negb (is_empty entry)) (map trim (split_char ","%char value))).

Definition ip_is_allowed (self : SourceUrlPolicy) (ip : IpAddr) (host_is_allowed : bool) : bool :=
  if is_never_allowed_ip ip then false
  else is_public_ip ip || host_is_allowed
       || existsb (fun a => bool_decide (a = ip)) (sp_allowed_ips self)
       || existsb (fun network => network ip) (sp_allowed_networks self).

Definition host_in (hosts : list string) (host : string) : bool := existsb (String.eqb host) hosts.

Definition validate_ip (self : SourceUrlPolicy) (ip : IpAddr) (host_is_allowed : bool)
    : result unit SourceUrlPolicyError :=
  if ip_is_allowed self ip host_is_allowed then Ok tt else Err DisallowedTarget.

Definition validate_url_common (self : SourceUrlPolicy) (url : Url)
    : result unit SourceUrlPolicyError :=
  match url_host_str url with
  | None => Err InvalidUrl
  | Some host =>
      if negb ((url_scheme url =?s "http") || (url_scheme url =?s "https"))
         || negb (is_empty (url_username url)) || is_some (url_password url)
         || bool_decide (url_port url = Some 0)
      then Err InvalidUrl
      else
        let host := normalize_host host in
        if is_metadata_hostname host then Err DisallowedTarget
        else
          match ip_from_str host with
          | Some ip => validate_ip self ip false
          | None =>
              if is_local_hostname host && negb (host_in (sp_allowed_hosts self) host)
              then Err DisallowedTarget else Ok tt
          end
  end.

Definition validate_base_url (self : SourceUrlPolicy) (value : string)
    : result Url SourceUrlPolicyError :=
  let? url := ok_or (url_parse value) InvalidUrl in
  let? _u := validate_url_common self url in
  if is_some (url_query url) || is_some (url_fragment url) then Err InvalidUrl else Ok url.

Definition validate_request_url (self : SourceUrlPolicy) (url : Url)
    : result unit SourceUrlPolicyError :=
  let? _u := validate_url_common self url in
  if is_some (url_fragment url) then Err InvalidUrl else Ok tt.

Definition parse_request_url (self : SourceUrlPolicy) (value : string)
    : result Url SourceUrlPolicyError :=
  let? url := ok_or (url_parse value) InvalidUrl in
  let? _u := validate_request_url self url in Ok url.

Definition validate_resolved_addresses (self : SourceUrlPolicy) (host : string)
    (addresses : list IpAddr) : result unit SourceUrlPolicyError :=
  match addresses with
  | [] => Err NoResolvedAddresses
  | _ =>
      let host := normalize_host host in
      if is_metadata_hostname host then Err DisallowedTarget
      else
        let host_is_allowed := host_in (sp_allowed_hosts self) host in
        if forallb (fun ip => ip_is_allowed self ip host_is_allowed) addresses
        then Ok tt else Err DisallowedTarget
  end.

Definition MAX_REDIRECTS : Z := 5.

(** [redirect_policy]: whether the redirect to [url] is followed, given the
    URLs requested so far, the first one included. *)
Definition follows_redirect (self : SourceUrlPolicy) (previous : list Url) (url : Url) : bool :=
  negb ((MAX_REDIRECTS <? Z.of_nat (length previous))
        || existsb (fun u => url_text u =?s url_text url) previous
        || is_none_or (List.hd_error previous) (fun initial => negb (same_origin initial url))
        || negb (is_ok (validate_request_url self url))).
End Policy.

(** ** Reference classification by intervals *)

Definition in_range (r : Z * Z) (a : Z) : bool := (r.1 <=? a) && (a <=? r.2).

(** Reserved IPv4 ranges, in address order. *)
Definition reserved_ipv4 : list (Z * Z) :=
  [(ipv4 0 0 0 0, ipv4 0 255 255 255); (ipv4 10 0 0 0, ipv4 10 255 255 255);
   (ipv4 100 64 0 0, ipv4 100 127 255 255); (ipv4 127 0 0 0, ipv4 127 255 255 255);
   (ipv4 169 254 0 0, ipv4 169 254 255 255); (ipv4 172 16 0 0, ipv4 172 31 255 255);
   (ipv4 192 0 0 0, ipv4 192 0 0 255); (ipv4 192 0 2 0, ipv4 192 0 2 255);
   (ipv4 192 88 99 0, ipv4 192 88 99 255); (ipv4 192 168 0 0, ipv4 192 168 255 255);
   (ipv4 198 18 0 0, ipv4 198 19 255 255); (ipv4 198 51 100 0, ipv4 198 51 100 255);
   (ipv4 203 0 113 0, ipv4 203 0 113 255); (ipv4 224 0 0 0, ipv4 255 255 255 255)].

Lemma octet_div ip i : 0 <= i <= 3 -> octet ip i = (ip / 2 ^ (8 * (3 - i))) mod 256.
Proof.
  intros Hi. unfold octet. change 255 with (Z.ones 8). rewrite Z.land_ones by lia.
  by rewrite Z.shiftr_div_pow2 by lia.
Qed.

(** A network mask clears the low bits. *)
Lemma land_mask w k a : 0 <= k <= w -> 0 <= a < 2 ^ w ->
  Z.land a (wrap_u w (Z.shiftl (2 ^ w - 1) k)) = a - a mod 2 ^ k.
Proof.
  intros Hk Ha. replace (a - a mod 2 ^ k) with (Z.ldiff a (Z.ones k)).
  2:{ rewrite Z.ldiff_ones_r, Z.shiftr_div_pow2, Z.shiftl_mul_pow2 by lia.
      rewrite Z.mod_eq by lia. lia. }
  replace (2 ^ w - 1) with (Z.ones w) by (rewrite Z.ones_equiv; lia).
  unfold wrap_u. rewrite <- Z.land_ones by lia.
  apply Z.bits_inj'. intros n Hn. rewrite Z.ldiff_spec, !Z.land_spec, Z.shiftl_spec by lia.
  rewrite !Z.testbit_ones by lia. destruct (Z.ltb_spec n w) as [Hw|Hw].
  - destruct (Z.testbit a n); cbn; lia.
  - rewrite <- (Z.mod_small a (2 ^ w)) by done. by rewrite Z.mod_pow2_bits_high by lia.
Qed.

Lemma floor_range K N a : 0 < K -> N mod K = 0 ->
  (a - a mod K =? N) = in_range (N, N + K - 1) a.
Proof.
  intros HK HN. unfold in_range. cbn [fst snd]. pose proof (Z.mod_pos_bound a K HK) as Hm.
  destruct (Z.eqb_spec (a - a mod K) N) as [E|E].
  - symmetry. apply andb_true_iff. split; apply Z.leb_le; lia.
  - symmetry. apply andb_false_iff. rewrite !Z.leb_gt.
    destruct (Z.lt_ge_cases a N) as [?|HaN]; [by left|right].
    destruct (Z.lt_ge_cases (N + K - 1) a) as [?|Hb]; [done|]. exfalso. apply E.
    assert (a mod K = a - N); [|lia]. symmetry. apply (Z.mod_unique_pos _ _ (N / K)); [lia|].
    pose proof (Z.div_mod N K ltac:(lia)). lia.
Qed.

Lemma mask_in w k network a :
  0 < k <= w -> 0 <= a < 2 ^ w -> 0 <= network < 2 ^ w -> network mod 2 ^ k = 0 ->
  (Z.land a (wrap_u w (Z.shiftl (2 ^ w - 1) k)) =? Z.land network (wrap_u w (Z.shiftl (2 ^ w - 1) k)))
  = in_range (network, network + 2 ^ k - 1) a.
Proof.
  intros Hk Ha Hn Hz. rewrite !land_mask by lia. rewrite Hz, Z.sub_0_r.
  apply floor_range; [lia|done].
Qed.

Lemma ipv4_in_range ip network prefix :
  0 < prefix < 32 -> 0 <= ip < 2 ^ 32 -> 0 <= network < 2 ^ 32 -> network mod 2 ^ (32 - prefix) = 0 ->
  ipv4_in ip network prefix = in_range (network, network + 2 ^ (32 - prefix) - 1) ip.
Proof.
  intros Hp Hip Hn Hz. unfold ipv4_in. rewrite (proj2 (Z.ltb_lt _ _)) by lia. apply mask_in; lia.
Qed.

Lemma ipv6_in_range ip network prefix :
  0 < prefix < 128 -> 0 <= ip < 2 ^ 128 -> 0 <= network < 2 ^ 128 ->
  network mod 2 ^ (128 - prefix) = 0 ->
  ipv6_in ip network prefix = in_range (network, network + 2 ^ (128 - prefix) - 1) ip.
Proof.
  intros Hp Hip Hn Hz. unfold ipv6_in. rewrite (proj2 (Z.ltb_lt _ _)) by lia. apply mask_in; lia.
Qed.

(** Every test of [is_public_ipv4] is a range. *)
Lemma octet_range (ip : Z) (Hip : 0 <= ip < 2 ^ 32) :
  octet ip 0 = ip / 16777216 /\ octet ip 1 = (ip / 65536) mod 256 /\ octet ip 2 = (ip / 256) mod 256
  /\ octet ip 3 = ip mod 256.
Proof.
  rewrite !octet_div by lia. cbn [Z.sub Z.mul Z.opp Z.add Z.pos_sub Pos.pred_double].
  split_and!; try done.
  - change (2 ^ (8 * (3 - 0))) with 16777216. rewrite Z.mod_small; [done|].
    split; [apply Z.div_pos; lia|apply Z.div_lt_upper_bound; lia].
  - change (2 ^ (8 * (3 - 3))) with 1. by rewrite Z.div_1_r.
Qed.

Ltac octets Hip :=
  destruct (octet_range _ Hip) as (? & ? & ? & ?); apply eq_true_iff_eq;
  rewrite ?orb_true_iff, ?andb_true_iff, ?Z.eqb_eq, ?Z.leb_le; unfold in_range, ipv4; cbn [fst snd];
  rewrite ?andb_true_iff, ?Z.leb_le; Z.to_euclidean_division_equations; lia.

Section Ranges.
Context (ip : Z) (Hip : 0 <= ip < 2 ^ 32).

Lemma loopback_range : v4_is_loopback ip = in_range (ipv4 127 0 0 0, ipv4 127 255 255 255) ip.
Proof. unfold v4_is_loopback. octets Hip. Qed.

Lemma multicast_range : v4_is_multicast ip = in_range (ipv4 224 0 0 0, ipv4 239 255 255 255) ip.
Proof. unfold v4_is_multicast. octets Hip. Qed.

Lemma link_local_range : v4_is_link_local ip = in_range (ipv4 169 254 0 0, ipv4 169 254 255 255) ip.
Proof. unfold v4_is_link_local. octets Hip. Qed.

Lemma private_range : v4_is_private ip
  = in_range (ipv4 10 0 0 0, ipv4 10 255 255 255) ip
    || in_range (ipv4 172 16 0 0, ipv4 172 31 255 255) ip
    || in_range (ipv4 192 168 0 0, ipv4 192 168 255 255) ip.
Proof.
  unfold v4_is_private. f_equal; [f_equal|].
  - octets Hip.
  - octets Hip.
  - octets Hip.
Qed.

Lemma documentation_range : v4_is_documentation ip
  = in_range (ipv4 192 0 2 0, ipv4 192 0 2 255) ip
    || in_range (ipv4 198 51 100 0, ipv4 198 51 100 255) ip
    || in_range (ipv4 203 0 113 0, ipv4 203 0 113 255) ip.
Proof.
  unfold v4_is_documentation. f_equal; [f_equal|].
  - octets Hip.
  - octets Hip.
  - octets Hip.
Qed.

Lemma is_public_ipv4_ranges :
  is_public_ipv4 ip = negb (existsb (fun r => in_range r ip) reserved_ipv4).
Proof.
  unfold is_public_ipv4. f_equal.
  rewrite loopback_range, multicast_range, link_local_range, private_range, documentation_range.
  rewrite !ipv4_in_range by first [exact Hip|reflexivity|unfold ipv4; lia].
  apply eq_true_iff_eq. cbn [existsb reserved_ipv4]. unfold v4_is_unspecified, v4_is_broadcast, in_range.
  cbn [fst snd]. rewrite ?orb_true_iff, ?andb_true_iff, ?Z.eqb_eq, ?Z.leb_le. unfold ipv4. cbn. lia.
Qed.
End Ranges.

Lemma segment_div ip i : 0 <= i <= 7 -> segment ip i = (ip / 2 ^ (16 * (7 - i))) mod 65536.
Proof.
  intros Hi. unfold segment. change 65535 with (Z.ones 16). rewrite Z.land_ones by lia.
  by rewrite Z.shiftr_div_pow2 by lia.
Qed.

(** The IPv4-mapped block [::ffff:0:0/96]. *)
Definition mapped (a : Z) : Z := 65535 * 2 ^ 32 + a.

Lemma mapped_segments ip : 0 <= ip < 2 ^ 128 ->
  (segment ip 0 = 0 /\ segment ip 1 = 0 /\ segment ip 2 = 0 /\ segment ip 3 = 0 /\ segment ip 4 = 0
   /\ segment ip 5 = 65535) <-> ip / 2 ^ 32 = 65535.
Proof.
  intros Hip. rewrite !segment_div by lia.
  change (16 * (7 - 0)) with 112. change (16 * (7 - 1)) with 96. change (16 * (7 - 2)) with 80.
  change (16 * (7 - 3)) with 64. change (16 * (7 - 4)) with 48. change (16 * (7 - 5)) with 32.
  Z.to_euclidean_division_equations. lia.
Qed.

Lemma mapped_low ip :
  ipv4 (Z.shiftr (segment ip 6) 8) (wrap_u 8 (segment ip 6)) (Z.shiftr (segment ip 7) 8)
    (wrap_u 8 (segment ip 7)) = ip mod 2 ^ 32.
Proof.
  unfold ipv4, wrap_u. rewrite !segment_div by lia. rewrite !Z.shiftr_div_pow2 by lia.
  change (16 * (7 - 6)) with 16. change (16 * (7 - 7)) with 0.
  Z.to_euclidean_division_equations. lia.
Qed.

Lemma mapped_ipv4_spec ip a : 0 <= ip < 2 ^ 128 ->
  mapped_ipv4 ip = Some a <-> 0 <= a < 2 ^ 32 /\ ip = mapped a.
Proof.
  intros Hip. unfold mapped_ipv4. pose proof (mapped_segments ip Hip) as Hs.
  rewrite mapped_low. unfold mapped. destruct (_ && _) eqn:E.
  - rewrite !andb_true_iff, !Z.eqb_eq in E. assert (ip / 2 ^ 32 = 65535) as Hd by (apply Hs; tauto).
    pose proof (Z.mod_pos_bound ip (2 ^ 32) ltac:(lia)). pose proof (Z.div_mod ip (2 ^ 32) ltac:(lia)).
    split; [intros [= <-]; lia|intros [Ha Heq]; f_equal; lia].
  - split; [done|]. intros [Ha ->]. exfalso.
    assert (Hd : (65535 * 2 ^ 32 + a) / 2 ^ 32 = 65535).
    { rewrite Z.add_comm, Z.div_add by lia. rewrite Z.div_small by lia. done. }
    apply Hs in Hd as (H0 & H1 & H2 & H3 & H4 & H5).
    rewrite H0, H1, H2, H3, H4, H5 in E. discriminate E.
Qed.

(** Reserved parts of the global unicast space [2000::/3]: special purpose,
    documentation and 6to4. *)
Definition reserved_ipv6 : list (Z * Z) :=
  [(ipv6 [8193; 0; 0; 0; 0; 0; 0; 0], ipv6 [8193; 511; 65535; 65535; 65535; 65535; 65535; 65535]);
   (ipv6 [8193; 3512; 0; 0; 0; 0; 0; 0], ipv6 [8193; 3512; 65535; 65535; 65535; 65535; 65535; 65535]);
   (ipv6 [8194; 0; 0; 0; 0; 0; 0; 0], ipv6 [8194; 65535; 65535; 65535; 65535; 65535; 65535; 65535])].

(** The public addresses: IPv4 and IPv4-mapped ones outside the reserved
    ranges, and IPv6 global unicast outside its own. *)
Definition public_spec (ip : IpAddr) : bool :=
  let public_v4 a := negb (existsb (fun r => in_range r a) reserved_ipv4) in
  match ip with
  | V4 a => public_v4 a
  | V6 a =>
      if in_range (mapped 0, mapped (2 ^ 32 - 1)) a then public_v4 (a - mapped 0)
      else in_range (2 ^ 125, 2 ^ 126 - 1) a && negb (existsb (fun r => in_range r a) reserved_ipv6)
  end.

Lemma is_public_ipv6_ranges a : 0 <= a < 2 ^ 128 ->
  is_public_ipv6 a
  = in_range (2 ^ 125, 2 ^ 126 - 1) a && negb (existsb (fun r => in_range r a) reserved_ipv6).
Proof.
  intros Ha. unfold is_public_ipv6.
  rewrite !ipv6_in_range by first [exact Ha|reflexivity|vm_compute; intuition congruence].
  cbn [existsb reserved_ipv6]. rewrite orb_false_r, !negb_orb, !andb_assoc. reflexivity.
Qed.

(** The bit tests of the policy classify addresses as intended: an address
    is public exactly when it lies outside every reserved interval, and an
    IPv4-mapped IPv6 address is judged as the IPv4 address it maps, for the
    public test and for the targets that are never allowed. *)
Theorem ip_classification (ip : IpAddr) (Hwf : ip_wf ip) :
  is_public_ip ip = public_spec ip
  /\ forall a, ip = V6 (mapped a) -> 0 <= a < 2 ^ 32 ->
       is_public_ip ip = is_public_ip (V4 a) /\ is_never_allowed_ip ip = is_never_allowed_ip (V4 a).
Proof.
  destruct ip as [a|a]; cbn [ip_wf] in Hwf.
  - split; [by apply is_public_ipv4_ranges|done].
  - split.
    + unfold is_public_ip, public_spec. pose proof (mapped_ipv4_spec a) as Hm.
      destruct (mapped_ipv4 a) as [b|] eqn:E.
      * apply mapped_ipv4_spec in E as [Hb ->]; [|done]. unfold in_range, mapped in *. cbn [fst snd].
        rewrite (proj2 (Z.leb_le _ _)), (proj2 (Z.leb_le _ _)) by lia. cbn [andb].
        replace (65535 * 2 ^ 32 + b - (65535 * 2 ^ 32 + 0)) with b by lia. by apply is_public_ipv4_ranges.
      * destruct (in_range _ a) eqn:Er; [|by apply is_public_ipv6_ranges]. exfalso.
        unfold in_range, mapped in Er. cbn [fst snd] in Er. apply andb_true_iff in Er as [H1 H2].
        apply Z.leb_le in H1, H2. enough (None = Some (a - 65535 * 2 ^ 32)) by done.
        apply Hm; [done|]. unfold mapped. lia.
    + intros b [= ->] Hb. assert (Hmap : mapped_ipv4 (mapped b) = Some b) by (by apply mapped_ipv4_spec).
      assert (Hd : mapped b / 2 ^ 32 = 65535).
      { unfold mapped. rewrite Z.add_comm, Z.div_add by lia. by rewrite Z.div_small by lia. }
      apply mapped_segments in Hd as (H0 & _); [|done].
      unfold is_public_ip, is_never_allowed_ip, is_metadata_ip. rewrite Hmap. split; [done|].
      rewrite bool_decide_false by (cbn; rewrite H0; congruence).
      unfold v6_is_multicast, v6_is_unspecified. rewrite H0.
      rewrite (proj2 (Z.eqb_neq (mapped b) 0)) by (unfold mapped; lia).
      change (Z.land 0 65280 =? 65280) with false. cbn [is_some_and orb]. unfold is_never_allowed_ipv4.
      by destruct (is_metadata_ipv4 b).
Qed.

Lemma ip_classification_witness :
  is_public_ip (V6 (mapped (ipv4 10 0 0 1))) = false
  /\ is_never_allowed_ip (V6 (mapped (ipv4 169 254 169 254))) = true.
Proof.
  split.
  - rewrite (proj1 (ip_classification (V6 (mapped (ipv4 10 0 0 1))) ltac:(unfold ip_wf, mapped, ipv4; lia))).
    vm_compute. reflexivity.
  - rewrite (proj2 (proj2 (ip_classification (V6 (mapped (ipv4 169 254 169 254)))
      ltac:(unfold ip_wf, mapped, ipv4; lia)) _ eq_refl ltac:(unfold ipv4; lia))).
    vm_compute. reflexivity.
Defined.

(** ** What the gateway connects to *)

Section Targets.
Context `{UrlCrates} (self : SourceUrlPolicy).

(** The addresses a connection for [url] may use: the address that is the
    host, or one the resolver accepted for it. *)
Definition connects (url : Url) (addr : IpAddr) : Prop :=
  exists host, url_host_str url = Some host /\
    match ip_from_str (normalize_host host) with
    | Some ip => addr = ip
    | None => exists addresses, validate_resolved_addresses self host addresses = Ok tt /\ addr ∈ addresses
    end.

(** The operator listed the address or its host. *)
Definition listed (host : string) (addr : IpAddr) : Prop :=
  normalize_host host ∈ sp_allowed_hosts self
  \/ addr ∈ sp_allowed_ips self
  \/ Exists (fun network => network addr = true) (sp_allowed_networks self).

Lemma ip_is_allowed_spec host addr :
  ip_is_allowed self addr (host_in (sp_allowed_hosts self) (normalize_host host)) = true \/
  ip_is_allowed self addr false = true ->
  is_never_allowed_ip addr = false /\ (is_public_ip addr = true \/ listed host addr).
Proof.
  assert (Hgen : forall b, (b = true -> normalize_host host ∈ sp_allowed_hosts self) ->
    ip_is_allowed self addr b = true ->
    is_never_allowed_ip addr = false /\ (is_public_ip addr = true \/ listed host addr)).
  { intros b Hb. unfold ip_is_allowed. destruct (is_never_allowed_ip addr); [done|]. intros Ha.
    split; [done|]. rewrite !orb_true_iff in Ha. destruct Ha as [[[?|?]|Hip]|Hnet]; [by left|right..].
    - left. auto.
    - right. left. apply existsb_exists in Hip as (x & Hx & ->%bool_decide_eq_true).
      by apply list_elem_of_In.
    - right. right. apply existsb_exists in Hnet as (n & Hn & Hc). apply Exists_exists.
      exists n. by rewrite list_elem_of_In. }
  intros [Ha|Ha].
  - eapply Hgen; [|exact Ha]. unfold host_in. intros Hin. apply existsb_exists in Hin as (x & Hx & E).
    apply String.eqb_eq in E. subst x. by apply list_elem_of_In.
  - by apply (Hgen false).
Qed.

(** Follow-up requests: each URL after the first is a redirect the policy
    follows. *)
Inductive redirect_chain (start : Url) : list Url -> Prop :=
| chain_start : redirect_chain start [start]
| chain_next previous url :
    redirect_chain start previous -> follows_redirect self previous url = true ->
    redirect_chain start (previous ++ [url]).

Lemma follows_redirect_spec start previous url :
  List.hd_error previous = Some start -> follows_redirect self previous url = true ->
  Z.of_nat (length previous) <= MAX_REDIRECTS /\ same_origin start url = true
  /\ is_ok (validate_request_url self url) = true.
Proof.
  intros Hhd Hf. unfold follows_redirect in Hf. rewrite Hhd in Hf. cbn [is_none_or] in Hf.
  apply negb_true_iff in Hf. rewrite !orb_false_iff, !negb_false_iff in Hf.
  destruct Hf as (((Hlen & _) & Ho) & Hok). apply Z.ltb_ge in Hlen. done.
Qed.

Lemma redirect_chain_spec start urls :
  is_ok (validate_request_url self start) = true -> redirect_chain start urls ->
  List.hd_error urls = Some start /\ Z.of_nat (length urls) <= MAX_REDIRECTS + 1
  /\ Forall (fun url => is_ok (validate_request_url self url) = true
                        /\ url_host_str url = url_host_str start) urls.
Proof.
  intros Hstart Hc. induction Hc as [|previous url Hc IH Hf]; [by repeat constructor|].
  destruct IH as (Hhd & Hlen & Hall).
  destruct (follows_redirect_spec _ _ _ Hhd Hf) as (Hl & Ho & Hok). split_and!.
  - by destruct previous.
  - rewrite length_app. cbn [length]. lia.
  - apply Forall_app. split; [done|]. apply Forall_singleton. split; [done|].
    unfold same_origin in Ho. rewrite !andb_true_iff, !bool_decide_eq_true in Ho.
    by destruct Ho as [[_ <-] _].
Qed.
End Targets.

(** C29. Outbound requests stay within policy: from an accepted request URL, at
    most [MAX_REDIRECTS] redirects are followed, all to the same host, and every
    address any of these requests connects to is public or was listed by the
    operator, and is never a metadata service, unspecified, multicast or
    broadcast address, whatever the allowlist says. *)
Theorem outbound_targets_safe `{UrlCrates} (self : SourceUrlPolicy) (start : Url) (urls : list Url)
    (Hstart : is_ok (validate_request_url self start) = true)
    (Hchain : redirect_chain self start urls) :
  Z.of_nat (length urls) <= MAX_REDIRECTS + 1
  /\ Forall (fun url => url_host_str url = url_host_str start
       /\ forall addr, connects self url addr ->
            is_never_allowed_ip addr = false
            /\ exists host, url_host_str start = Some host
                 /\ is_metadata_hostname (normalize_host host) = false
                 /\ (is_public_ip addr = true \/ listed self host addr)) urls.
Proof.
  destruct (redirect_chain_spec self start urls Hstart Hchain) as (_ & Hlen & Hall).
  split; [done|]. eapply Forall_impl; [exact Hall|]. cbn. intros url [Hok Hhost]. split; [done|].
  intros addr (host & Hh & Haddr). rewrite <- Hhost.
  unfold validate_request_url, validate_url_common in Hok. rewrite Hh in Hok.
  destruct (negb _ || _ || _ || _); [done|].
  destruct (is_metadata_hostname (normalize_host host)) eqn:Emeta; [done|].
  destruct (ip_from_str (normalize_host host)) as [ip|].
  - subst ip. unfold validate_ip in Hok. destruct (ip_is_allowed self addr false) eqn:Ea; [|done].
    destruct (ip_is_allowed_spec self host addr) as [Hn Hp]; [by right|]. split; [done|].
    exists host. by split_and!.
  - destruct Haddr as (addresses & Hv & Hin). unfold validate_resolved_addresses in Hv.
    destruct addresses as [|x l]; [done|]. rewrite Emeta in Hv. destruct (forallb _ _) eqn:Ef; [|done].
    rewrite forallb_forall in Ef. apply list_elem_of_In in Hin. specialize (Ef addr Hin).
    destruct (ip_is_allowed_spec self host addr) as [Hn Hp]; [by left|]. split; [done|].
    exists host. by split_and!.
Qed.

(** ** Examples *)

(** A parser for plain [http] URLs. *)
Definition example_url_parse (s : string) : option Url :=
  match strip_prefix "http://" s with
  | None => None
  | Some rest =>
      let '(host, path) := unwrap_or (split_once "/"%char rest) (rest, EmptyString) in
      Some (mkUrl s "http" (Some host) "" None None (Some 80) ("/" +:+ path) None None)
  end.
Definition example_crates : UrlCrates :=
  {| url_parse := example_url_parse; ipnet_from_str _ := None |}.

Example allowlist_example :
  let crates := example_crates in
  option_map sp_allowed_hosts (rok (from_allowlist "Upstream, 127.0.0.1")) = Some ["upstream"]
  /\ is_ok (from_allowlist "a*b") = false.
Proof. vm_compute. split; reflexivity. Qed.

Definition example_policy : SourceUrlPolicy := mkSourceUrlPolicy ["upstream"] [] [].
Definition example_start : Url := mkUrl "http://upstream/v1" "http" (Some "upstream") "" None None (Some 80)
  "/v1" None None.

Lemma outbound_targets_safe_witness :
  let crates := example_crates in
  connects example_policy example_start (V4 (ipv4 10 0 0 7))
  /\ is_never_allowed_ip (V4 (ipv4 10 0 0 7)) = false.
Proof.
  intros crates.
  assert (Hc : connects example_policy example_start (V4 (ipv4 10 0 0 7))).
  { exists "upstream". split; [reflexivity|]. cbn. exists [V4 (ipv4 10 0 0 7)].
    split; [vm_compute; reflexivity|by apply list_elem_of_singleton]. }
  split; [exact Hc|].
  destruct (outbound_targets_safe example_policy example_start [example_start]) as [_ Hall];
    [vm_compute; reflexivity|constructor|].
  apply Forall_singleton in Hall as [_ Hall]. exact (proj1 (Hall _ Hc)).
Defined.
