(* ===== verification/Json.v ===== *)
(** * JSON values

    [serde_json] is not part of the repository.  Its public data type
    [Value] and the accessors the gateway calls are the vocabulary of this
    file; the parser and the serialiser are the parameters [from_slice] and
    [to_string] of the class [SerdeJson], and a theorem that needs their
    documented behaviour (a value read back from its own serialisation) says
    so in a hypothesis about the values it serialises.  The module
    [Concrete] is a small parser and printer used by witnesses only. *)

From Stdlib Require Import ZArith Lia Ascii.
From stdpp Require Import base list strings pretty.
From S2P Require Import Prelude.
From S2P Require Import RustStr.

(** [Number]: a non-negative integer, a negative integer or a float (kept as
    its text: the gateway never computes with one). *)
Inductive Number : Type := PosInt (n : N) | NegInt (p : positive) | Float (repr : string).

Inductive Value : Type :=
| VNull
| VBool (b : bool)
| VNumber (n : Number)
| VString (s : string)
| VArray (l : list Value)
| VObject (m : list (string * Value)).

Abbreviation Map := (list (string * Value)).

#[global] Instance Number_eq_dec : EqDecision Number.
Proof. solve_decision. Defined.

(** The derived [PartialEq]: [Value]s are nested in lists. *)
#[global] Instance Value_eq_dec : EqDecision Value.
Proof.
  refine (
    fix go v w := let _ : EqDecision Value := @go in
    match v, w with
    | VNull, VNull => left _
    | VBool b, VBool c => cast_if (decide (b = c))
    | VNumber n, VNumber m => cast_if (decide (n = m))
    | VString s, VString t => cast_if (decide (s = t))
    | VArray l, VArray k => cast_if (decide (l = k))
    | VObject m, VObject k => cast_if (decide (m = k))
    | _, _ => right _
    end); congruence.
Defined.

(** Induction over the values inside a value. *)
Lemma Value_nested_ind (P : Value -> Prop) :
  P VNull -> (forall b, P (VBool b)) -> (forall n, P (VNumber n)) -> (forall s, P (VString s)) ->
  (forall l, Forall P l -> P (VArray l)) ->
  (forall m, Forall (fun kv => P kv.2) m -> P (VObject m)) -> forall v, P v.
Proof.
  intros Hn Hb Hm Hs Ha Ho. refine (fix go v : P v := _). destruct v as [|b|n|s|l|m]; [done|auto..| |].
  - apply Ha. induction l as [|v l IH]; constructor; [apply go|done].
  - apply Ho. induction m as [|[k v] m IH]; constructor; [apply go|done].
Qed.

(** [Value::get] with a string index: [None] on anything but an object. *)
Definition get (v : Value) (key : string) : option Value :=
  match v with VObject m => hm_get m key | _ => None end.
Definition as_str (v : Value) : option string :=
  match v with VString s => Some s | _ => None end.
Definition as_bool (v : Value) : option bool :=
  match v with VBool b => Some b | _ => None end.
Definition as_array (v : Value) : option (list Value) :=
  match v with VArray l => Some l | _ => None end.
Definition as_object (v : Value) : option Map :=
  match v with VObject m => Some m | _ => None end.
Definition as_i64 (v : Value) : option Z :=
  match v with
  | VNumber (PosInt n) => if Z.of_N n <=? I64_MAX then Some (Z.of_N n) else None
  | VNumber (NegInt p) => Some (Z.neg p)
  | _ => None
  end.
Definition as_u64 (v : Value) : option Z :=
  match v with VNumber (PosInt n) => Some (Z.of_N n) | _ => None end.

Definition is_object (v : Value) : bool := match v with VObject _ => true | _ => false end.

(** [impl From<i64> for Value]. *)
Definition of_i64 (n : Z) : Value :=
  VNumber match n with Zneg p => NegInt p | _ => PosInt (Z.to_N n) end.

Lemma as_i64_of_i64 n : n <= I64_MAX -> as_i64 (of_i64 n) = Some n.
Proof.
  intros Hn. destruct n as [|p|p]; cbn; try done.
  by rewrite (proj2 (Z.leb_le _ _) Hn).
Qed.

Lemma as_i64_le v n : as_i64 v = Some n -> n <= I64_MAX.
Proof.
  destruct v as [| |[k|p|]| | |]; cbn; try done.
  - destruct (Z.leb_spec (Z.of_N k) I64_MAX); congruence.
  - intros [= <-]. unfold I64_MAX. lia.
Qed.

Class SerdeJson : Type := {
  (** [from_slice::<Value>] (and [from_str]); [None] is a parse error. *)
  from_slice : string -> option Value;
  (** [to_vec] (and [to_string]); [None] is a serialisation error. *)
  to_string : Value -> option string;
}.

(** A value that survives its own serialisation. *)
Definition json_roundtrip `{SerdeJson} (v : Value) : Prop :=
  exists s, to_string v = Some s /\ from_slice s = Some v.

(** ** A concrete reader and printer for witnesses *)
Module Concrete.
Definition hd (s : string) : ascii := match s with String a _ => a | EmptyString => chr 0 end.
Definition tl (s : string) : string := match s with String _ t => t | EmptyString => "" end.

Fixpoint skip_ws (s : string) : string :=
  match s with
  | String a t =>
      if byte_in a 9 10 || byte_in a 13 13 || byte_in a 32 32 then skip_ws t else s
  | EmptyString => ""
  end.

(** The characters of a string up to its closing quote; the escapes of a
    quote and a backslash only. *)
Fixpoint read_string (s : string) : option (string * string) :=
  match s with
  | EmptyString => None
  | String a t =>
      if byte_in a 34 34 then Some ("", t)
      else if byte_in a 92 92 then
        match t with
        | String b u =>
            if byte_in b 34 34 || byte_in b 92 92 then
              match read_string u with Some (r, k) => Some (String b r, k) | None => None end
            else None
        | EmptyString => None
        end
      else if byte_in a 0 31 then None
      else match read_string t with Some (r, k) => Some (String a r, k) | None => None end
  end.

Fixpoint read_digits (acc : Z) (s : string) : Z * string :=
  match s with
  | String a t => match digit a with Some d => read_digits (acc * 10 + d) t | None => (acc, s) end
  | EmptyString => (acc, "")
  end.

Definition read_number (s : string) : option (Value * string) :=
  match s with
  | String a t =>
      if byte_in a 45 45 then let '(n, k) := read_digits 0 t in Some (VNumber (NegInt (Z.to_pos n)), k)
      else if is_some (digit a) then
        let '(n, k) := read_digits 0 s in Some (VNumber (PosInt (Z.to_N n)), k)
      else None
  | EmptyString => None
  end.

Fixpoint read_value (fuel : nat) (s : string) {struct fuel} : option (Value * string) :=
  match fuel with
  | O => None
  | S fuel =>
      let s := skip_ws s in
      if starts_with s "{" then
        let t := skip_ws (tl s) in
        if starts_with t "}" then Some (VObject [], tl t) else read_members fuel [] t
      else if starts_with s "[" then
        let t := skip_ws (tl s) in
        if starts_with t "]" then Some (VArray [], tl t) else read_elements fuel [] t
      else if byte_in (hd s) 34 34 then
        match read_string (tl s) with Some (r, k) => Some (VString r, k) | None => None end
      else match strip_prefix "null" s with Some k => Some (VNull, k) | None =>
           match strip_prefix "true" s with Some k => Some (VBool true, k) | None =>
           match strip_prefix "false" s with Some k => Some (VBool false, k) | None =>
           read_number s end end end
  end
with read_members (fuel : nat) (acc : Map) (s : string) {struct fuel} : option (Value * string) :=
  match fuel with
  | O => None
  | S fuel =>
      let s := skip_ws s in
      if byte_in (hd s) 34 34 then
        match read_string (tl s) with
        | Some (key, k) =>
            match strip_prefix ":" (skip_ws k) with
            | Some k =>
                match read_value fuel k with
                | Some (v, k) =>
                    let acc := hm_insert acc key v in
                    let k := skip_ws k in
                    match strip_prefix "," k with
                    | Some k => read_members fuel acc k
                    | None => match strip_prefix "}" k with
                              | Some k => Some (VObject acc, k)
                              | None => None
                              end
                    end
                | None => None
                end
            | None => None
            end
        | None => None
        end
      else None
  end
with read_elements (fuel : nat) (acc : list Value) (s : string) {struct fuel}
    : option (Value * string) :=
  match fuel with
  | O => None
  | S fuel =>
      match read_value fuel s with
      | Some (v, k) =>
          let acc := acc ++ [v] in
          let k := skip_ws k in
          match strip_prefix "," k with
          | Some k => read_elements fuel acc k
          | None => match strip_prefix "]" k with
                    | Some k => Some (VArray acc, k)
                    | None => None
                    end
          end
      | None => None
      end
  end.

Definition read (s : string) : option Value :=
  match read_value (S (String.length s)) s with
  | Some (v, k) => if is_empty (skip_ws k) then Some v else None
  | None => None
  end.

Fixpoint escape (s : string) : string :=
  match s with
  | EmptyString => ""
  | String a t =>
      if byte_in a 34 34 || byte_in a 92 92 then String (chr 92) (String a (escape t))
      else String a (escape t)
  end.
Definition quote (s : string) : string := bstr (chr 34) +:+ escape s +:+ bstr (chr 34).

Fixpoint print (v : Value) : string :=
  match v with
  | VNull => "null"
  | VBool b => if b then "true" else "false"
  | VNumber (PosInt n) => dec (Z.of_N n)
  | VNumber (NegInt p) => dec (Z.neg p)
  | VNumber (Float r) => r
  | VString s => quote s
  | VArray l => "[" +:+ join "," (map print l) +:+ "]"
  | VObject m =>
      "{" +:+ join "," (map (fun kv => quote kv.1 +:+ ":" +:+ print kv.2) m) +:+ "}"
  end.
End Concrete.

Definition json_concrete : SerdeJson :=
  {| from_slice := Concrete.read; to_string := fun v => Some (Concrete.print v) |}.

Example json_concrete_reads :
  Concrete.read (Concrete.print (VObject [("a", VArray [VNumber (PosInt 12); VNull]);
                                          ("b", VString "x")]))
  = Some (VObject [("a", VArray [VNumber (PosInt 12); VNull]); ("b", VString "x")]).
Proof. vm_compute. reflexivity. Qed.
