(* ===== verification/Redaction.v ===== *)
(** * Redaction of operational data

    The sanitizers of [src/src/infra/ops.rs]: what is written to the audit
    log, exported with the control plane and accepted back from an export.

    [redact_text] and [sanitize_actor] are for texts, [sanitize_json] for JSON
    ([sanitize_string] for the strings inside), the [sanitize_*_row] functions
    for the rows of an export, and [reject_plaintext_secret_fields] is the check
    of an import.  The [url] crate is [UrlCrates] for parsing and [UrlEdit] for
    the setters; [UrlEditLaws] is their documented behaviour.  The theorems say
    what a sanitized value cannot contain, and that every sanitized row is
    accepted by the check of an import. *)

From Stdlib Require Import ZArith Lia Ascii.
From stdpp Require Import base list strings.
From S2P Require Import Prelude.
From S2P Require Import RustStr.
From S2P Require Import BTree.
From S2P Require Import Json.
From S2P Require Import SourceUrl.

(** ** Errors *)

Inductive OpsError : Type :=
| OpsDatabase (error : string)
| OpsJson (error : string)
| OpsValidation (message : string)
| OpsNotFound (message : string)
| OpsConflict (message : string)
| OpsSnapshot (message : string).

Definition error_code (error : OpsError) : string :=
  match error with
  | OpsDatabase _ => "database_error"
  | OpsJson _ | OpsValidation _ => "invalid_operation"
  | OpsNotFound _ => "not_found"
  | OpsConflict _ => "operation_conflict"
  | OpsSnapshot _ => "snapshot_verification_failed"
  end.

Definition public_error_message (error : OpsError) : string :=
  match error with
  | OpsDatabase _ => "database operation failed"
  | OpsJson _ => "operation payload is invalid"
  | OpsValidation message | OpsNotFound message | OpsConflict message | OpsSnapshot message => message
  end.

(** ** Texts *)

Definition redact_text (value : string) : string :=
  let lower := to_ascii_lowercase value in
  if contains_str lower "authorization" || contains_str lower "bearer " || contains_str lower "api_key"
     || contains_str lower "apikey" || contains_str lower "secret" || contains_str lower "password"
  then "redacted" else take_chars 512 value.

Definition sanitize_actor (value : string) : string :=
  let trimmed := trim value in
  if is_empty trimmed then "system"
  else let sanitized := redact_text trimmed in take_chars 128 (drop_controls sanitized).

Definition is_sensitive_key (key : string) : bool :=
  let key := to_ascii_lowercase key in
  existsb (String.eqb key)
    ["authorization"; "api_key"; "apikey"; "access_token"; "refresh_token"; "secret"; "password";
     "private_key"; "credential"; "credential_ciphertext"; "key_hash"]
  || ends_with key "_secret" || ends_with key "_password" || ends_with key "-secret"
  || ends_with key "-password" || ends_with key "_key" || ends_with key "-key"
  || starts_with key "x-api-" || contains_str key "api_key" || contains_str key "api-key"
  || contains_str key "apikey" || existsb (String.eqb key) ["auth_token"; "session_token"].

Definition looks_like_secret (value : string) : bool :=
  let value := trim value in
  (starts_with value "sk-" && (16 <=? slen value)) || (starts_with value "sk_" && (16 <=? slen value))
  || (starts_with value "ghp_" && (20 <=? slen value)) || (starts_with value "Bearer " && (20 <=? slen value)).

Definition REDACTED : string := "[REDACTED]".

(** The setters of [reqwest::Url].  [set_username] and [set_password] fail on
    URLs that cannot have them; the callers ignore that. *)
Class UrlEdit : Type := {
  url_set_username : string -> Url -> Url;
  url_set_password : option string -> Url -> Url;
  url_set_query : option string -> Url -> Url;
  url_set_fragment : option string -> Url -> Url;
}.

(** ** JSON *)

Section Sanitize.
Context `{UrlCrates} `{UrlEdit}.

Definition query_is_sensitive (url : Url) : bool :=
  is_some_and (url_query url) (fun query =>
    let query := to_ascii_lowercase query in
    contains_str query "api_key" || contains_str query "apikey" || contains_str query "token"
    || contains_str query "secret" || contains_str query "password").

Definition sanitize_string (value : string) : string :=
  if looks_like_secret value then REDACTED
  else match url_parse value with
       | Some url =>
           let sensitive := query_is_sensitive url in
           if negb (is_empty (url_username url)) || is_some (url_password url) || sensitive
              || is_some (url_fragment url)
           then
             let url := url_set_password None (url_set_username "" url) in
             let url := if sensitive then url_set_query None url else url in
             url_text (url_set_fragment None url)
           else value
       | None => value
       end.

(** The entries keep their keys, so collecting them into a map keeps their
    order. *)
Fixpoint sanitize_json (value : Value) : Value :=
  match value with
  | VObject object =>
      VObject (map (fun kv => match kv with (key, value) =>
        if is_sensitive_key key then (key, VString REDACTED)
        else (key, match sanitize_json value with
                   | VString text => if looks_like_secret text then VString REDACTED else VString text
                   | other => other
                   end) end) object)
  | VArray values => VArray (map sanitize_json values)
  | VString value => VString (sanitize_string value)
  | other => other
  end.

(** ** Rows of an export *)

(** [json!({...})]. *)
Definition json_object (entries : list (string * Value)) : Value := VObject (bt_collect entries).

(** [if let Some(object) = row.as_object_mut()]. *)
Definition on_object (f : Map -> Map) (row : Value) : Value :=
  match row with VObject object => VObject (f object) | _ => row end.

Definition sanitize_field (object : Map) (key : string) : Map :=
  match hm_get object key with
  | Some value => bt_insert (bt_remove object key) key (sanitize_json value)
  | None => object
  end.

Definition sanitize_source_row (row : Value) : Value :=
  on_object (fun object => fold_left sanitize_field ["auth_config"; "provider_preset_snapshot"] object) row.

Definition sanitize_account_row (row : Value) : Value :=
  on_object (fun object =>
    let env := hm_get object "credential_env" ≫= as_str in
    let had_ciphertext := is_some_and (hm_get object "credential_ciphertext") (fun value => negb (bool_decide (value = VNull))) in
    let object := bt_remove object "credential_ciphertext" in
    let credential :=
      match env with
      | Some name =>
          if negb (is_empty (trim name))
          then json_object [("kind", VString "secret_ref"); ("name", VString name)]
          else json_object [("kind", VString "none")]
      | None => if had_ciphertext then json_object [("kind", VString "redacted")]
                else json_object [("kind", VString "none")]
      end in
    sanitize_field (bt_insert object "credential" credential) "auth_config") row.

Definition sanitize_virtual_key_row (row : Value) : Value :=
  on_object (fun object => bt_remove (bt_remove object "key_hash") "key_ciphertext") row.
End Sanitize.

(** ** The check of an import *)

Definition SECRET_FIELDS : list string :=
  ["credential_ciphertext"; "authorization"; "api_key"; "apikey"; "password"; "private_key";
   "access_token"; "refresh_token"].

Definition plaintext (child : Value) : bool :=
  is_some_and (as_str child) (fun text =>
    negb (is_empty text) && negb (text =?s "[REDACTED]") && negb (text =?s "redacted")).

Definition plaintext_error : OpsError := OpsValidation "control-plane export contains a plaintext credential field".

Fixpoint reject_plaintext_secret_fields (value : Value) : result unit OpsError :=
  match value with
  | VArray values =>
      (fix each (values : list Value) : result unit OpsError :=
         match values with
         | [] => Ok tt
         | value :: values => let? _ := reject_plaintext_secret_fields value in each values
         end) values
  | VObject object =>
      (fix each (object : Map) : result unit OpsError :=
         match object with
         | [] => Ok tt
         | (key, child) :: object =>
             let lower := to_ascii_lowercase key in
             if existsb (String.eqb lower) SECRET_FIELDS && negb (bool_decide (child = VNull)) && plaintext child
             then Err plaintext_error
             else if (lower =?s "credential") && plaintext child then Err plaintext_error
             else let? _ := reject_plaintext_secret_fields child in each object
         end) object
  | _ => Ok tt
  end.

(** ** What a sanitized value cannot contain *)

(** The URLs the source can hold: what is parsed, and what is left of it when
    user information, query and fragment are cleared. *)
Inductive held `{UrlCrates} `{UrlEdit} : Url -> Prop :=
| held_parsed s url : url_parse s = Some url -> held url
| held_username url : held url -> held (url_set_username "" url)
| held_password url : held url -> held (url_set_password None url)
| held_query url : held url -> held (url_set_query None url)
| held_fragment url : held url -> held (url_set_fragment None url).

(** What the [url] crate documents of its setters, and that the text of a [Url]
    is parsed as that [Url]. *)
Class UrlEditLaws `{UrlCrates} `{UrlEdit} : Prop := {
  held_text url : held url -> url_parse (url_text url) = Some url;
  set_username_cleared url : url_username (url_set_username "" url) = "";
  set_username_query name url : url_query (url_set_username name url) = url_query url;
  set_password_cleared url : url_password (url_set_password None url) = None;
  set_password_username p url : url_username (url_set_password p url) = url_username url;
  set_password_query p url : url_query (url_set_password p url) = url_query url;
  set_query_cleared url : url_query (url_set_query None url) = None;
  set_query_username q url : url_username (url_set_query q url) = url_username url;
  set_query_password q url : url_password (url_set_query q url) = url_password url;
  set_fragment_cleared url : url_fragment (url_set_fragment None url) = None;
  set_fragment_username f url : url_username (url_set_fragment f url) = url_username url;
  set_fragment_password f url : url_password (url_set_fragment f url) = url_password url;
  set_fragment_query f url : url_query (url_set_fragment f url) = url_query url;
}.

Section Props.
Context `{UrlCrates} `{UrlEdit} `{!UrlEditLaws}.

(** No user information, no credential in the query, no fragment. *)
Definition harmless (url : Url) : Prop :=
  url_username url = "" /\ url_password url = None /\ query_is_sensitive url = false /\ url_fragment url = None.

(** A string that is neither a URL with credentials nor, unless it is a whole
    URL, a secret. *)
Definition clean_string (s : string) : Prop :=
  (forall url, url_parse s = Some url -> harmless url)
  /\ (looks_like_secret s = false \/ exists url, url_parse s = Some url /\ s = url_text url).

Fixpoint clean (value : Value) : Prop :=
  match value with
  | VObject object =>
      foldr and True (map (fun kv => match kv with (key, value) =>
        if is_sensitive_key key then value = VString REDACTED
        else clean value /\ match value with VString s => looks_like_secret s = false | _ => True end end) object)
  | VArray values => foldr and True (map clean values)
  | VString s => s = REDACTED \/ clean_string s
  | _ => True
  end.

Lemma sanitize_string_clean s : sanitize_string s = REDACTED \/ clean_string (sanitize_string s).
Proof.
  unfold sanitize_string. destruct (looks_like_secret s) eqn:Es; [by left|]. right.
  destruct (url_parse s) as [url|] eqn:Eu.
  2:{ split; [|by left]. intros url. by rewrite Eu. }
  destruct (negb (is_empty (url_username url)) || is_some (url_password url) || query_is_sensitive url
    || is_some (url_fragment url)) eqn:Ec.
  - assert (held url) as Hheld by (by eapply held_parsed).
    set (cleared := url_set_fragment None _).
    assert (url_parse (url_text cleared) = Some cleared) as Hp
      by (apply held_text; unfold cleared; destruct (query_is_sensitive url); eauto using @held).
    split; [|by right; exists cleared]. rewrite Hp. intros u [= <-]. unfold harmless, cleared.
    destruct (query_is_sensitive url) eqn:Eq; unfold query_is_sensitive in *;
      rewrite ?set_fragment_cleared, ?set_fragment_username, ?set_fragment_password, ?set_fragment_query,
        ?set_query_cleared, ?set_query_username, ?set_query_password, ?set_password_cleared,
        ?set_password_username, ?set_password_query, ?set_username_cleared, ?set_username_query; auto.
  - split; [|by left]. intros u. rewrite Eu. intros [= <-]. apply orb_false_iff in Ec as [[[Hu Hp]%orb_false_iff Hq]%orb_false_iff Hf].
    apply negb_false_iff in Hu. unfold is_empty in Hu. apply String.eqb_eq in Hu.
    unfold harmless. destruct (url_password url), (url_fragment url); done.
Qed.

(** A sanitized JSON value carries no secret: at every depth, the value of
    a sensitive key is the redaction mark, no member of an object looks like a
    key or token, and no string is a URL with user information, a credential
    in its query or a fragment. *)
Theorem sanitized_json_is_clean value : clean (sanitize_json value).
Proof.
  induction value as [| | |s|l IH|m IH] using Value_nested_ind; cbn; try done.
  - apply sanitize_string_clean.
  - induction IH; cbn; auto.
  - induction IH as [|[key v] m Hv Hm IH]; cbn [map foldr]; [done|]. split; [|exact IH]. clear IH.
    cbn [snd] in Hv. destruct (is_sensitive_key key) eqn:Ek; cbn [snd fst]; rewrite ?Ek; [done|].
    destruct (sanitize_json v) as [| | |s|l|k] eqn:Ev; rewrite ?Ek; [split; done..| |split; done|split; done].
    destruct (looks_like_secret s) eqn:Es; rewrite ?Ek; (split; [|done]); [by left|exact Hv].
Qed.
End Props.

(** ** The check of an import *)

Lemma reject_array l : reject_plaintext_secret_fields (VArray l) = Ok tt
  <-> Forall (fun v => reject_plaintext_secret_fields v = Ok tt) l.
Proof.
  cbn. induction l as [|v l IH]; [by split|]. rewrite Forall_cons, <- IH.
  destruct (reject_plaintext_secret_fields v) as [[]|e]; cbn; [tauto|]. split; [done|]. by intros [? _].
Qed.

(** An entry of an object the check lets pass. *)
Definition accepted (kv : string * Value) : Prop :=
  (existsb (String.eqb (to_ascii_lowercase kv.1)) ("credential" :: SECRET_FIELDS) = true -> plaintext kv.2 = false)
  /\ reject_plaintext_secret_fields kv.2 = Ok tt.

Lemma reject_object m : reject_plaintext_secret_fields (VObject m) = Ok tt <-> Forall accepted m.
Proof.
  induction m as [|[key v] m IH]; [by split|]. rewrite Forall_cons, <- IH. unfold accepted. cbn [fst snd].
  cbn [reject_plaintext_secret_fields]. cbn [existsb]. generalize (existsb (String.eqb (to_ascii_lowercase key)) SECRET_FIELDS).
  intros b. destruct (plaintext v) eqn:Ep.
  - assert (bool_decide (v = VNull) = false) as -> by (apply bool_decide_eq_false; by intros ->).
    destruct b; cbn; [by split; [|intros [[Hb _] _]; rewrite orb_true_r in Hb; discriminate (Hb eq_refl)]|].
    destruct (_ =? _)%string; cbn; [by split; [|intros [[Hb _] _]; discriminate (Hb eq_refl)]|].
    destruct (reject_plaintext_secret_fields v) as [[]|]; cbn; intuition (done || congruence).
  - rewrite !andb_false_r. cbn.
    destruct (reject_plaintext_secret_fields v) as [[]|]; cbn; intuition (done || congruence).
Qed.

Lemma redacted_not_plaintext : plaintext (VString REDACTED) = false.
Proof. reflexivity. Qed.

Lemma existsb_eqb_elem s l : existsb (String.eqb s) l = true <-> s ∈ l.
Proof.
  rewrite existsb_exists, list_elem_of_In. split.
  - intros (x & Hx & ->%String.eqb_eq). done.
  - intros Hs. exists s. by rewrite String.eqb_refl.
Qed.

(** Every field the check looks at is one the sanitizer redacts. *)
Lemma secret_fields_sensitive key :
  existsb (String.eqb (to_ascii_lowercase key)) ("credential" :: SECRET_FIELDS) = true -> is_sensitive_key key = true.
Proof.
  intros Hk%existsb_eqb_elem. unfold is_sensitive_key.
  assert (existsb (String.eqb (to_ascii_lowercase key))
    ["authorization"; "api_key"; "apikey"; "access_token"; "refresh_token"; "secret"; "password";
     "private_key"; "credential"; "credential_ciphertext"; "key_hash"] = true) as ->; [|done].
  apply existsb_eqb_elem. unfold SECRET_FIELDS in Hk. repeat rewrite elem_of_cons in Hk. rewrite elem_of_nil in Hk.
  repeat destruct Hk as [->|Hk]; [repeat constructor..|done].
Qed.

Section Accepted.
Context `{UrlCrates} `{UrlEdit}.

Lemma sanitize_member_accepted v :
  reject_plaintext_secret_fields (sanitize_json v) = Ok tt ->
  reject_plaintext_secret_fields
    match sanitize_json v with
    | VString text => if looks_like_secret text then VString REDACTED else VString text
    | other => other
    end = Ok tt.
Proof. destruct (sanitize_json v) as [| | |s| |]; try done. by destruct (looks_like_secret s). Qed.

(** What is sanitized for an export is accepted by the import: the check
    for plaintext credentials passes on every sanitized value. *)
Theorem sanitized_json_is_accepted value : reject_plaintext_secret_fields (sanitize_json value) = Ok tt.
Proof.
  induction value as [| | |s|l IH|m IH] using Value_nested_ind; try done.
  - apply (proj2 (reject_array _)). by apply Forall_map.
  - apply (proj2 (reject_object _)). apply Forall_map. eapply Forall_impl; [exact IH|].
    intros [key v] Hv. cbn [snd] in Hv. unfold accepted, compose. destruct (is_sensitive_key key) eqn:Ek; [by split|].
    cbn [fst snd]. split; [|by apply sanitize_member_accepted].
    intros Hs%secret_fields_sensitive. congruence.
Qed.

Lemma sanitize_field_accepted object key :
  is_sensitive_key key = false -> Forall accepted object -> Forall accepted (sanitize_field object key).
Proof.
  intros Hk Hm. unfold sanitize_field. destruct (hm_get object key) as [v|]; [|done].
  apply bt_insert_Forall; [by apply bt_remove_Forall|]. split; cbn [fst snd]; [|apply sanitized_json_is_accepted].
  intros Hs%secret_fields_sensitive. congruence.
Qed.

Lemma on_object_accepted f row :
  (forall m, Forall accepted m -> Forall accepted (f m)) ->
  reject_plaintext_secret_fields row = Ok tt -> reject_plaintext_secret_fields (on_object f row) = Ok tt.
Proof. intros Hf. destruct row; try done. cbn [on_object]. rewrite !reject_object. apply Hf. Qed.

Lemma sanitize_source_row_accepted row :
  reject_plaintext_secret_fields row = Ok tt -> reject_plaintext_secret_fields (sanitize_source_row row) = Ok tt.
Proof.
  apply on_object_accepted. intros m Hm. cbn [fold_left]. by do 2 (apply sanitize_field_accepted; [done|]).
Qed.

Lemma sanitize_account_row_accepted row :
  reject_plaintext_secret_fields row = Ok tt -> reject_plaintext_secret_fields (sanitize_account_row row) = Ok tt.
Proof.
  apply on_object_accepted. intros m Hm. apply sanitize_field_accepted; [done|].
  apply bt_insert_Forall; [by apply bt_remove_Forall|].
  destruct (hm_get m "credential_env" ≫= as_str) as [name|]; [destruct (negb _)|destruct (is_some_and _ _)];
    (split; [done|]); apply reject_object; repeat (apply Forall_cons; split; [by split|]); apply Forall_nil_2.
Qed.

Lemma sanitize_field_keys object key j : j ∈ (sanitize_field object key).*1 -> j ∈ object.*1 \/ j = key.
Proof.
  unfold sanitize_field. destruct (hm_get object key); [|by left]. intros [->|Hj]%bt_insert_keys; [by right|].
  left. apply list_elem_of_fmap in Hj as (kv & -> & [Hkv _]%bt_remove_in). by apply (list_elem_of_fmap_2 fst).
Qed.

(** An exported account never carries ciphertext: whatever the row holds,
    the field is gone. *)
Theorem account_export_has_no_ciphertext row : get (sanitize_account_row row) "credential_ciphertext" = None.
Proof.
  destruct row as [| | | | |m]; try done. cbn [sanitize_account_row on_object get].
  destruct (hm_get _ _) as [v|] eqn:Hv; [|done]. apply hm_get_Some_in, (list_elem_of_fmap_2 fst) in Hv. exfalso.
  apply sanitize_field_keys in Hv as [[?|Hj]%bt_insert_keys|?]; [done| |done].
  apply list_elem_of_fmap in Hj as (kv & Hkv & [_ Hne]%bt_remove_in). by apply Hne.
Qed.
End Accepted.

(** ** A concrete [url] crate *)

Definition print_url (url : Url) : string :=
  url_scheme url +:+ "://"
  +:+ (if is_empty (url_username url) && negb (is_some (url_password url)) then "" else url_username url
         +:+ match url_password url with Some p => ":" +:+ p | None => "" end +:+ "@")
  +:+ unwrap_or (url_host_str url) "" +:+ url_path url
  +:+ match url_query url with Some q => "?" +:+ q | None => "" end
  +:+ match url_fragment url with Some f => "#" +:+ f | None => "" end.

Definition with_text (url : Url) : Url :=
  mkUrl (print_url url) (url_scheme url) (url_host_str url) (url_username url) (url_password url) (url_port url)
    (url_port_or_known_default url) (url_path url) (url_query url) (url_fragment url).

Definition example_edit : UrlEdit :=
  {| url_set_username name u := with_text (mkUrl "" (url_scheme u) (url_host_str u) name (url_password u)
       (url_port u) (url_port_or_known_default u) (url_path u) (url_query u) (url_fragment u));
     url_set_password p u := with_text (mkUrl "" (url_scheme u) (url_host_str u) (url_username u) p
       (url_port u) (url_port_or_known_default u) (url_path u) (url_query u) (url_fragment u));
     url_set_query q u := with_text (mkUrl "" (url_scheme u) (url_host_str u) (url_username u) (url_password u)
       (url_port u) (url_port_or_known_default u) (url_path u) q (url_fragment u));
     url_set_fragment f u := with_text (mkUrl "" (url_scheme u) (url_host_str u) (url_username u) (url_password u)
       (url_port u) (url_port_or_known_default u) (url_path u) (url_query u) f) |}.

(** Recognizes one URL and what is left of it when parts are cleared, enough for
    the examples. *)
Definition example_url : Url :=
  with_text (mkUrl "" "https" (Some "host") "user" (Some "pw") None (Some 443) "/v1" (Some "api_key=1") (Some "f")).
Definition with_cleared (clear : Url -> Url) (urls : list Url) : list Url := urls ++ map clear urls.
Definition example_family : list Url :=
  foldr with_cleared [example_url] [@url_set_username example_edit ""; @url_set_password example_edit None;
                                    @url_set_query example_edit None; @url_set_fragment example_edit None].
Definition example_urls : UrlCrates :=
  {| url_parse s := List.find (fun url => s =?s url_text url) example_family;
     ipnet_from_str _ := None |}.

#[local] Instance Url_eq_dec : EqDecision Url.
Proof. solve_decision. Defined.

Lemma example_edit_laws : @UrlEditLaws example_urls example_edit.
Proof.
  constructor; try done. intros url Hurl.
  assert (url ∈ example_family) as Hin.
  { assert (forall clear, Forall (fun u => clear u ∈ example_family) example_family -> forall u, u ∈ example_family ->
      clear u ∈ example_family) as Hclear by (intros clear Hf; by apply Forall_forall).
    induction Hurl as [s url Hs| | | |]; [by apply List.find_some in Hs as [?%list_elem_of_In _]|..];
      (apply Hclear; [|done]; apply (bool_decide_unpack _); vm_compute; exact I). }
  clear Hurl. revert url Hin. apply Forall_forall. apply (bool_decide_unpack _). vm_compute. exact I.
Qed.

Definition example_leaky : Value :=
  VObject [("Api_Key", VString "short"); ("note", VString " sk-0123456789abcdef");
           ("urls", VArray [VString "https://user:pw@host/v1?api_key=1#f"; VString "plain"])].
Definition example_cleaned : Value :=
  VObject [("Api_Key", VString REDACTED); ("note", VString REDACTED);
           ("urls", VArray [VString "https://host/v1"; VString "plain"])].

Lemma sanitized_json_is_clean_witness :
  @sanitize_json example_urls example_edit example_leaky = example_cleaned
  /\ @clean example_urls example_cleaned.
Proof.
  split; [vm_compute; reflexivity|].
  exact (@sanitized_json_is_clean example_urls example_edit example_edit_laws example_leaky).
Defined.

(** The example is not clean before. *)
Example example_leaky_is_not_clean : ~ @clean_string example_urls "https://user:pw@host/v1?api_key=1#f".
Proof. intros [Hu _]. destruct (Hu example_url ltac:(vm_compute; reflexivity)) as [H _]. vm_compute in H. discriminate. Qed.

(** An export written by hand is not let through. *)
Example plaintext_is_refused :
  reject_plaintext_secret_fields (VArray [VObject [("a", VObject [("PASSWORD", VString "x")])]]) = Err plaintext_error.
Proof. reflexivity. Qed.
