(* ===== verification/Events.v ===== *)
(** * System events

    The first half of [src/src/infra/events.rs]: the events the gateway stores
    about itself, and what is removed from them on the way to the table.

    [SystemEvent] is built by [new_event] and the [with_*] methods and stored by
    [insert_event], which normalizes it; [fits_table] are the constraints of
    [system_events] in [src/migrations/0024_system_events.sql].  The theorems
    say that a normalized event always fits, and how large and how secret its
    details can be.  [sanitize_details] and its helpers are also applied to
    everything the event feed shows ([EventFeed]).  The [url] crate is
    [UrlCrates] and [UrlEdit]. *)

From Stdlib Require Import ZArith Lia Ascii.
From stdpp Require Import base sets list strings.
From S2P Require Import Prelude.
From S2P Require Import RustStr.
From S2P Require Import BTree.
From S2P Require Import Json.
From S2P Require Import SourceUrl.
From S2P Require Import Redaction.

Definition MAX_DETAILS_DEPTH : nat := 6.
Definition MAX_DETAILS_FIELDS : nat := 64.
Definition MAX_DETAILS_STRING : nat := 512.

(** The errors of [sqlx] by what [is_connection_error] tells apart; a database
    error has a code. *)
Inductive DbError : Type :=
| DbIo | DbTls | DbPoolTimedOut | DbPoolClosed | DbWorkerCrashed
| DbDatabase (code : option string)
| DbOther.

Definition is_connection_error (error : DbError) : bool :=
  match error with
  | DbIo | DbTls | DbPoolTimedOut | DbPoolClosed | DbWorkerCrashed => true
  | DbDatabase code =>
      is_some_and code (fun code => starts_with code "08" || existsb (String.eqb code) ["57P01"; "57P02"; "57P03"])
  | DbOther => false
  end.

(** ** Texts *)

Definition non_empty (value : string) : option string :=
  if negb (is_empty (trim value)) then Some value else None.

(** The sensitive words, wider than those of [Redaction]. *)
Definition is_sensitive_key (key : string) : bool :=
  let key := to_ascii_lowercase key in
  existsb (contains_str key)
    ["authorization"; "api_key"; "api-key"; "apikey"; "credential"; "ciphertext"; "secret"; "password"; "token";
     "key_hash"; "prompt"; "response"; "body"; "thinking"; "signature"]
  || ends_with key "_key".

Definition looks_like_secret (value : string) : bool :=
  let value := trim value in
  let lower := to_ascii_lowercase value in
  existsb (fun prefix => contains_str lower prefix && (16 <=? slen value))
    ["sk-"; "sk_"; "ghp_"; "github_pat_"; "gw_"; "gwenc:"; "bearer "]
  || existsb (contains_str lower)
    ["authorization:"; "api_key="; "api-key="; "password="; "credential="].

Definition safe_text (value : string) (limit : nat) (fallback : string) : string :=
  let value := take_chars limit (drop_controls value) in
  if is_empty (trim value) then fallback
  else if looks_like_secret value then REDACTED
  else value.

(** [filter_map] of the lower-case characters that may occur in a type; they
    are ASCII, so the bytes of other characters all go. *)
Definition event_type_char (a : ascii) : bool :=
  byte_in a 48 57 || byte_in a 65 90 || byte_in a 97 122 || existsb (Ascii.eqb a) ["."; "_"; "-"]%char.
Fixpoint event_type_chars (s : string) : string :=
  match s with
  | EmptyString => ""
  | String a t =>
      let a := ascii_lower a in
      if event_type_char a then String a (event_type_chars t) else event_type_chars t
  end.

Definition is_ascii_alphanumeric (a : ascii) : bool := byte_in a 48 57 || byte_in a 65 90 || byte_in a 97 122.

Definition safe_event_type (value : string) : string :=
  let value := take_chars 128 (event_type_chars value) in
  match value with
  | String a _ => if is_ascii_alphanumeric a then value else "system.event"
  | EmptyString => "system.event"
  end.

(** ** Details *)

Section Details.
Context `{UrlCrates} `{UrlEdit}.

Definition query_is_sensitive (url : Url) : bool :=
  is_some_and (url_query url) (fun query =>
    existsb (contains_str (to_ascii_lowercase query)) ["api_key"; "api-key"; "apikey"; "token"; "secret"; "password"]).

Definition sanitize_detail_string (value : string) : string :=
  let value := safe_text value MAX_DETAILS_STRING "[EMPTY]" in
  match url_parse value with
  | Some url =>
      let sensitive := query_is_sensitive url in
      if negb (is_empty (url_username url)) || is_some (url_password url) || sensitive || is_some (url_fragment url)
      then
        let url := url_set_password None (url_set_username "" url) in
        let url := if sensitive then url_set_query None url else url in
        url_text (url_set_fragment None url)
      else value
  | None => value
  end.

(** The first fields of an object in the order of its keys; two keys that are
    sanitized to the same text end up as one field. *)
Fixpoint sanitize_details (value : Value) (depth : nat) : Value :=
  if (MAX_DETAILS_DEPTH <=? depth)%nat then VString "[TRUNCATED]"
  else match value with
  | VObject object =>
      VObject (bt_collect (firstn MAX_DETAILS_FIELDS (map (fun kv => match kv with (key, value) =>
        if is_sensitive_key key then (sanitize_detail_string key, VString REDACTED)
        else (sanitize_detail_string key, sanitize_details value (S depth)) end) object)))
  | VArray values => VArray (firstn MAX_DETAILS_FIELDS (map (fun value => sanitize_details value (S depth)) values))
  | VString value => VString (sanitize_detail_string value)
  | other => other
  end.

(** ** Events *)

Record SystemEvent : Type := mkSystemEvent {
  se_occurred_at : Z;
  se_category : string;
  se_event_type : string;
  se_level : string;
  se_subject_type : string;
  se_subject_id : option string;
  se_correlation_id : option string;
  se_message : string;
  se_details : Value;
}.

(** [SystemEvent::new] at the time [now], and the methods that complete it. *)
Definition new_event (now : Z) (category event_type level subject_type message : string) : SystemEvent :=
  mkSystemEvent now category event_type level subject_type None None message (VObject []).
Definition with_subject_id (subject_id : string) (e : SystemEvent) : SystemEvent :=
  mkSystemEvent (se_occurred_at e) (se_category e) (se_event_type e) (se_level e) (se_subject_type e)
    (non_empty subject_id) (se_correlation_id e) (se_message e) (se_details e).
Definition with_correlation_id (correlation_id : string) (e : SystemEvent) : SystemEvent :=
  mkSystemEvent (se_occurred_at e) (se_category e) (se_event_type e) (se_level e) (se_subject_type e)
    (se_subject_id e) (non_empty correlation_id) (se_message e) (se_details e).
Definition with_details (details : Value) (e : SystemEvent) : SystemEvent :=
  let details := sanitize_details details 0 in
  mkSystemEvent (se_occurred_at e) (se_category e) (se_event_type e) (se_level e) (se_subject_type e)
    (se_subject_id e) (se_correlation_id e) (se_message e)
    (if negb (is_object details) then VObject [] else details).

Definition normalized_event (event : SystemEvent) : SystemEvent :=
  mkSystemEvent (se_occurred_at event)
    (if existsb (String.eqb (se_category event)) ["lifecycle"; "configuration"; "database"; "security"]
     then se_category event else "lifecycle")
    (safe_event_type (se_event_type event))
    (if existsb (String.eqb (se_level event)) ["info"; "warning"; "error"] then se_level event else "warning")
    (safe_text (se_subject_type event) 64 "gateway")
    ((fun value => safe_text value 256 "unknown") <$> se_subject_id event)
    ((fun value => safe_text value 256 "unknown") <$> se_correlation_id event)
    (safe_text (se_message event) 256 "System event")
    (sanitize_details (se_details event) 0).
End Details.

(** ** The table *)

(** [event_type ~ '^[a-z0-9][a-z0-9._-]{0,127}$']. *)
Definition type_head (a : ascii) : bool := byte_in a 48 57 || byte_in a 97 122.
Definition type_tail (a : ascii) : bool := type_head a || existsb (Ascii.eqb a) ["."; "_"; "-"]%char.
Definition event_type_ok (s : string) : bool :=
  match s with String a t => type_head a && sall type_tail t && (slen t <=? 127) | EmptyString => false end.

Definition length_between (lo hi : Z) (s : string) : Prop := lo <= char_count s <= hi.

(** No NUL, which PostgreSQL cannot store, nor any other byte of an ASCII
    control character. *)
Definition printable (s : string) : Prop := sall (fun a => negb (is_control1 a)) s = true.

(** What [system_events] accepts. *)
Record fits_table (e : SystemEvent) : Prop := {
  ft_category : se_category e ∈ ["lifecycle"; "configuration"; "database"; "security"];
  ft_event_type : event_type_ok (se_event_type e) = true;
  ft_level : se_level e ∈ ["info"; "warning"; "error"];
  ft_subject_type : length_between 1 64 (se_subject_type e) /\ printable (se_subject_type e);
  ft_subject_id : forall s, se_subject_id e = Some s -> length_between 1 256 s /\ printable s;
  ft_correlation_id : forall s, se_correlation_id e = Some s -> length_between 1 256 s /\ printable s;
  ft_message : length_between 1 256 (se_message e) /\ printable (se_message e);
  ft_details : is_object (se_details e) = true;
}.

(** How deep objects and arrays are nested, and that none has more than [n]
    entries. *)
Fixpoint nesting (value : Value) : nat :=
  match value with
  | VObject m => S (foldr Nat.max 0%nat (map (fun kv => match kv with (_, v) => nesting v end) m))
  | VArray l => S (foldr Nat.max 0%nat (map nesting l))
  | _ => 0%nat
  end.
Fixpoint narrow (n : nat) (value : Value) : Prop :=
  match value with
  | VObject m => (length m <= n)%nat /\ foldr and True (map (fun kv => match kv with (_, v) => narrow n v end) m)
  | VArray l => (length l <= n)%nat /\ foldr and True (map (narrow n) l)
  | _ => True
  end.

(** The texts of an event, as Rust holds them. *)
Record utf8_event (e : SystemEvent) : Prop := {
  ue_subject_type_utf8 : utf8 (se_subject_type e);
  ue_subject_id_utf8 : forall s, se_subject_id e = Some s -> utf8 s;
  ue_correlation_id_utf8 : forall s, se_correlation_id e = Some s -> utf8 s;
  ue_message_utf8 : utf8 (se_message e);
}.

(** ** Lemmas on texts *)

Lemma sall_take p n s : sall p s = true -> sall p (take_chars n s) = true.
Proof.
  revert n. induction s as [|a s IH]; intros n; [done|]. cbn [sall take_chars]. intros [Ha Hs]%andb_prop.
  destruct (cont a); cbn [sall]; [by rewrite Ha, IH|]. destruct n as [|n]; [done|]. cbn [sall]. by rewrite Ha, IH.
Qed.

Lemma drop_controls_printable s : printable (drop_controls s).
Proof.
  unfold printable. enough (forall n s, (String.length s <= n)%nat ->
    sall (fun a => negb (is_control1 a)) (drop_controls s) = true) as H by by eapply H.
  intros n. induction n as [|n IH]; intros [|a [|b u]] Hn; cbn in Hn; try done; try lia; cbn [drop_controls].
  { destruct (is_control1 a) eqn:Ea; [done|]. cbn [sall]. by rewrite Ea. }
  assert (sall (fun a => negb (is_control1 a)) (drop_controls (String b u)) = true) as Hu by (apply IH; cbn; lia).
  destruct (is_control1 a) eqn:Ea; [exact Hu|]. destruct (is_control2 a b); [apply IH; lia|].
  change (sall (fun a => negb (is_control1 a)) (String a (drop_controls (String b u))) = true).
  cbn [sall]. by rewrite Ea, Hu.
Qed.

(** What [safe_text] yields: within its limit, never blank, never a control
    character; a text of ours or one that does not look like a secret. *)
Lemma safe_text_spec value limit fallback :
  utf8 value -> (10 <= limit)%nat -> length_between 1 (Z.of_nat limit) fallback -> printable fallback ->
  length_between 1 (Z.of_nat limit) (safe_text value limit fallback) /\ printable (safe_text value limit fallback).
Proof.
  intros Hv Hl Hf Hp. unfold safe_text. set (t := take_chars limit (drop_controls value)).
  destruct (is_empty (trim t)) eqn:Et; [done|]. destruct (looks_like_secret t).
  { unfold length_between. change (char_count REDACTED) with 10. split; [lia|done]. }
  split; [|apply sall_take, drop_controls_printable]. split; [|apply char_count_take].
  apply utf8_char_count; [by apply take_chars_utf8, drop_controls_utf8|]. by intros Hz; rewrite Hz in Et.
Qed.

Lemma event_type_chars_ok s : sall type_tail (event_type_chars s) = true.
Proof.
  assert (forall a, event_type_char (ascii_lower a) = true -> type_tail (ascii_lower a) = true) as Ha.
  { intros a. destruct a as [[] [] [] [] [] [] [] []]; vm_compute; done. }
  induction s as [|a s IH]; [done|]. cbn [event_type_chars]. destruct (event_type_char (ascii_lower a)) eqn:Ea; [|done].
  cbn [sall]. by rewrite Ha, IH.
Qed.

Lemma take_chars_ascii n s : sall type_tail s = true -> slen (take_chars n s) <= Z.of_nat n.
Proof.
  assert (forall a, type_tail a = true -> cont a = false) as Ha by (intros [[] [] [] [] [] [] [] []]; vm_compute; done).
  revert n. induction s as [|a s IH]; intros n; cbn [sall take_chars]; [unfold slen; cbn; lia|].
  intros [Ht Hs]%andb_prop. rewrite (Ha a Ht). destruct n as [|n]; [unfold slen; cbn; lia|].
  rewrite slen_cons. specialize (IH n Hs). lia.
Qed.

Lemma safe_event_type_ok value : event_type_ok (safe_event_type value) = true.
Proof.
  unfold safe_event_type. pose proof (event_type_chars_ok value) as Ht.
  pose proof (sall_take _ 128 _ Ht) as Ht'. pose proof (take_chars_ascii 128 _ Ht) as Hl.
  destruct (take_chars 128 (event_type_chars value)) as [|a t]; [done|]. destruct (is_ascii_alphanumeric a) eqn:Ea; [|done].
  cbn [sall] in Ht'. apply andb_prop in Ht' as [Ha Ht']. rewrite slen_cons in Hl. cbn [event_type_ok].
  rewrite Ht', (proj2 (Z.leb_le _ _)) by lia. rewrite !andb_true_r.
  clear -Ha Ea. destruct a as [[] [] [] [] [] [] [] []]; vm_compute in *; done.
Qed.

(** ** Lemmas on details *)

Lemma foldr_and_Forall {A} (P : A -> Prop) l : foldr and True (map P l) <-> Forall P l.
Proof. induction l as [|x l IH]; cbn; [by split; [constructor|]|]. by rewrite IH, Forall_cons. Qed.

Lemma foldr_max_le (l : list nat) n : (forall x, x ∈ l -> x <= n)%nat -> (foldr Nat.max 0 l <= n)%nat.
Proof. induction l as [|x l IH]; cbn; intros Hl; [lia|]. pose proof (Hl x ltac:(set_solver)). pose proof (IH ltac:(set_solver)). lia. Qed.

Lemma fold_insert_Forall {K V} `{Ordered K} (P : K * V -> Prop) (l m : list (K * V)) :
  Forall P l -> Forall P m -> Forall P (fold_left (fun m kv => bt_insert m kv.1 kv.2) l m).
Proof.
  revert m. induction l as [|[k v] l IH]; intros m Hl Hm; cbn; [done|]. apply Forall_cons in Hl as [Hkv Hl].
  apply IH; [done|]. by apply bt_insert_Forall.
Qed.

Lemma bt_insert_length_le {K V} `{Ordered K} (m : list (K * V)) k v : (length (bt_insert m k v) <= S (length m))%nat.
Proof. induction m as [|[j w] m IH]; cbn [bt_insert]; [done|]. destruct (kcmp k j); cbn [length]; lia. Qed.

Lemma fold_insert_length {K V} `{Ordered K} (l m : list (K * V)) :
  (length (fold_left (fun m kv => bt_insert m kv.1 kv.2) l m) <= length l + length m)%nat.
Proof.
  revert m. induction l as [|[k v] l IH]; intros m; cbn; [lia|]. etrans; [apply IH|].
  pose proof (bt_insert_length_le m k v). lia.
Qed.

Section DetailProps.
Context `{UrlCrates} `{UrlEdit}.

Lemma sanitize_details_object value : is_object value = true -> is_object (sanitize_details value 0) = true.
Proof. by destruct value. Qed.

Lemma sanitize_details_small value : forall depth,
  (nesting (sanitize_details value depth) <= MAX_DETAILS_DEPTH - depth)%nat
  /\ narrow MAX_DETAILS_FIELDS (sanitize_details value depth).
Proof.
  induction value as [|b|n|s|l IH|m IH] using Value_nested_ind; intros depth;
    cbn [sanitize_details]; destruct (Nat.leb_spec MAX_DETAILS_DEPTH depth) as [Hd|Hd];
    try (split; [cbn; unfold MAX_DETAILS_DEPTH; lia|done]).
  - assert (Forall (fun v => nesting v <= MAX_DETAILS_DEPTH - S depth /\ narrow MAX_DETAILS_FIELDS v)%nat
      (firstn MAX_DETAILS_FIELDS (map (fun value => sanitize_details value (S depth)) l))) as Hl.
    { apply Forall_take, Forall_map. eapply Forall_impl; [exact IH|]. intros v Hv. apply Hv. }
    split; cbn [nesting narrow].
    + enough (foldr Nat.max 0 (map nesting (firstn MAX_DETAILS_FIELDS (map (fun value => sanitize_details value (S depth)) l)))
        <= MAX_DETAILS_DEPTH - S depth)%nat by lia.
      apply foldr_max_le. intros x (v & -> & Hv)%list_elem_of_fmap. rewrite Forall_forall in Hl. by apply Hl.
    + split; [rewrite length_firstn; lia|]. apply foldr_and_Forall. eapply Forall_impl; [exact Hl|]. by intros v [_ Hv].
  - set (entries := firstn MAX_DETAILS_FIELDS _).
    assert (Forall (fun kv => nesting kv.2 <= MAX_DETAILS_DEPTH - S depth /\ narrow MAX_DETAILS_FIELDS kv.2)%nat entries) as Hl.
    { apply Forall_take, Forall_map. eapply Forall_impl; [exact IH|]. intros [key v] Hv. cbn.
      destruct (is_sensitive_key key); [|apply Hv]. cbn. split; [lia|done]. }
    assert (length entries <= MAX_DETAILS_FIELDS)%nat as Hlen by (unfold entries; rewrite length_firstn; lia).
    clearbody entries. pose proof (fold_insert_Forall _ entries [] Hl (Forall_nil_2 _)) as Hc.
    pose proof (fold_insert_length entries []) as Hcl. fold (bt_collect entries) in Hc, Hcl. cbn [length] in Hcl.
    split; cbn [nesting narrow].
    + enough (foldr Nat.max 0 (map (fun kv : string * Value => match kv with (_, v) => nesting v end) (bt_collect entries))
        <= MAX_DETAILS_DEPTH - S depth)%nat by lia.
      apply foldr_max_le. intros x ([k v] & -> & Hv)%list_elem_of_fmap. rewrite Forall_forall in Hc. by apply (Hc (k, v)).
    + split; [lia|]. apply foldr_and_Forall. eapply Forall_impl; [exact Hc|]. by intros [k v] [_ Hv].
Qed.

(** C34. What the gateway stores about itself always fits: whatever the texts
    and details of a system event, its normalized form meets every constraint of
    the table (category, type pattern, level, lengths, no control characters),
    and its details have at most 64 fields per level and six levels, so
    recording an event is never refused for its content. *)
Theorem stored_events_fit_the_table e :
  utf8_event e -> is_object (se_details e) = true ->
  fits_table (normalized_event e)
  /\ (nesting (se_details (normalized_event e)) <= MAX_DETAILS_DEPTH)%nat
  /\ narrow MAX_DETAILS_FIELDS (se_details (normalized_event e)).
Proof.
  intros [Ht Hs Hc Hm] Ho. pose proof (sanitize_details_small (se_details e) 0) as [Hn Hw].
  split; [|by split; [etrans; [exact Hn|lia]|]].
  assert (forall limit fallback, (10 <= limit)%nat -> length_between 1 (Z.of_nat limit) fallback -> printable fallback ->
    forall o s, (forall t, o = Some t -> utf8 t) -> (fun value => safe_text value limit fallback) <$> o = Some s ->
    length_between 1 (Z.of_nat limit) s /\ printable s) as Hopt.
  { intros limit fallback Hl Hf Hp o s Ho'. destruct o as [t|]; intros [= <-]. by apply safe_text_spec; [apply Ho'|..]. }
  constructor; cbn [normalized_event se_category se_event_type se_level se_subject_type se_subject_id se_correlation_id se_message se_details].
  - destruct (existsb _ _) eqn:E; [|set_solver]. apply existsb_exists in E as (x & Hx & ->%String.eqb_eq).
    by apply list_elem_of_In.
  - apply safe_event_type_ok.
  - destruct (existsb _ _) eqn:E; [|set_solver]. apply existsb_exists in E as (x & Hx & ->%String.eqb_eq).
    by apply list_elem_of_In.
  - apply (safe_text_spec _ 64); [done|lia|by vm_compute|done].
  - intros s. by apply (Hopt 256%nat); [lia|by vm_compute|..].
  - intros s. by apply (Hopt 256%nat); [lia|by vm_compute|..].
  - apply (safe_text_spec _ 256); [done|lia|by vm_compute|done].
  - by apply sanitize_details_object.
Qed.
End DetailProps.

(** ** What details can show *)

Section Shown.
Context `{UrlCrates} `{UrlEdit} `{!UrlEditLaws}.

(** No user information, no credential in the query, no fragment. *)
Definition harmless_url (url : Url) : Prop :=
  url_username url = "" /\ url_password url = None /\ query_is_sensitive url = false /\ url_fragment url = None.

(** A placeholder, or a text that is neither a URL with credentials nor, unless
    it is a whole URL, a secret. *)
Definition shown_text (s : string) : Prop :=
  s = REDACTED \/ s = "[TRUNCATED]"
  \/ ((forall url, url_parse s = Some url -> harmless_url url)
      /\ (looks_like_secret s = false \/ exists url, url_parse s = Some url /\ s = url_text url)).

Fixpoint shown (value : Value) : Prop :=
  match value with
  | VObject m => foldr and True (map (fun kv => match kv with (key, v) => shown_text key /\ shown v end) m)
  | VArray l => foldr and True (map shown l)
  | VString s => shown_text s
  | _ => True
  end.

Lemma safe_text_not_secret value limit fallback :
  looks_like_secret fallback = false -> looks_like_secret (safe_text value limit fallback) = false.
Proof.
  intros Hf. unfold safe_text. destruct (is_empty _); [done|]. destruct (looks_like_secret (take_chars _ _)) eqn:E; [|done].
  reflexivity.
Qed.

Lemma same_query u v : url_query u = url_query v -> query_is_sensitive u = query_is_sensitive v.
Proof. unfold query_is_sensitive. by intros ->. Qed.

Lemma sanitize_detail_string_shown value : shown_text (sanitize_detail_string value).
Proof.
  unfold sanitize_detail_string.
  pose proof (safe_text_not_secret value MAX_DETAILS_STRING "[EMPTY]" eq_refl) as Hs.
  destruct (url_parse _) as [url|] eqn:Eu.
  2:{ right. right. split; [|by left]. intros url Hu. congruence. }
  destruct (negb _ || _ || _ || _) eqn:Eb.
  - right. right. assert (held url) as Hheld by (by eapply held_parsed).
    set (cleared := url_set_fragment None _).
    assert (url_parse (url_text cleared) = Some cleared) as Hp
      by (apply held_text; unfold cleared; destruct (query_is_sensitive url); eauto using @held).
    split; [|by right; exists cleared]. rewrite Hp. intros u [= <-]. unfold harmless_url, cleared.
    rewrite set_fragment_username, set_fragment_password, set_fragment_cleared.
    rewrite (same_query _ _ (set_fragment_query None _)). destruct (query_is_sensitive url) eqn:Eq; cbv iota.
    + rewrite set_query_username, set_query_password, set_password_username, set_username_cleared, set_password_cleared.
      split_and!; [done..| |done]. unfold query_is_sensitive. by rewrite set_query_cleared.
    + rewrite set_password_username, set_username_cleared, set_password_cleared. split_and!; [done..| |done].
      rewrite (same_query _ url); [exact Eq|]. by rewrite set_password_query, set_username_query.
  - right. right. split; [|by left]. intros url' Hu. rewrite Hu in Eu. injection Eu as ->.
    apply orb_false_elim in Eb as [[[Hn Hp]%orb_false_elim Hq]%orb_false_elim Hf].
    split_and!; [|by destruct (url_password url)|done|by destruct (url_fragment url)].
    apply negb_false_iff, String.eqb_eq in Hn. done.
Qed.

(** Event details show no secret: at every depth each key and text of
    sanitized details is a placeholder, or neither looks like a secret nor is a
    URL with user information, credentials in its query or a fragment. *)
Theorem details_show_no_secret value : forall depth, shown (sanitize_details value depth).
Proof.
  induction value as [|b|n|s|l IH|m IH] using Value_nested_ind; intros depth;
    cbn [sanitize_details]; destruct (Nat.leb_spec MAX_DETAILS_DEPTH depth) as [Hd|Hd];
    try (by right; left); try done; cbn [shown].
  - apply sanitize_detail_string_shown.
  - apply foldr_and_Forall, Forall_take, Forall_map. eapply Forall_impl; [exact IH|]. intros v Hv. apply Hv.
  - apply foldr_and_Forall, (fold_insert_Forall _ _ []); [|constructor]. apply Forall_take, Forall_map.
    eapply Forall_impl; [exact IH|]. intros [key v] Hv. cbn.
    destruct (is_sensitive_key key); split; try apply sanitize_detail_string_shown; [by left|apply Hv].
Qed.
End Shown.

(** ** Examples *)

Definition example_event : SystemEvent :=
  mkSystemEvent 0 "billing" "Über.Fail ure!" "fatal" "" (Some "postgresql") None "authorization: Basic abc"
    (VObject [("api_token", VString "x"); ("note", VString "https://user:pw@host/v1?api_key=1#f")]).

Lemma stored_events_fit_the_table_witness :
  fits_table (@normalized_event example_urls example_edit example_event)
  /\ se_event_type (@normalized_event example_urls example_edit example_event) = "ber.failure".
Proof.
  split; [|vm_compute; reflexivity].
  refine (proj1 (@stored_events_fit_the_table example_urls example_edit example_event _ eq_refl)).
  split; [constructor|intros s [= <-]|intros s [=]|]; cbn; repeat (apply utf8_1; [reflexivity|]); constructor.
Defined.

Lemma details_show_no_secret_witness :
  @sanitize_details example_urls example_edit (se_details example_event) 0
    = VObject [("api_token", VString REDACTED); ("note", VString REDACTED)]
  /\ @shown example_urls (@sanitize_details example_urls example_edit (se_details example_event) 0).
Proof.
  split; [vm_compute; reflexivity|].
  exact (@details_show_no_secret example_urls example_edit example_edit_laws (se_details example_event) 0).
Defined.

(** A key is judged before its control characters are removed, so a key that
    becomes sensitive by the removal keeps its value. *)
Example control_character_hides_a_key :
  @sanitize_details example_urls example_edit
    (VObject [("pass" +:+ bstr (chr 1) +:+ "word", VString "hunter2")]) 0
  = VObject [("password", VString "hunter2")].
Proof. vm_compute. reflexivity. Qed.
