(* ===== verification/Incidents.v ===== *)
(** * Database incidents

    The second half of [src/src/infra/events.rs]: how outages of the database
    are remembered in memory and reported once it works again.

    Every component that uses the database says after each operation whether it
    failed ([CallFailed]) or worked ([CallRecovered]).  A failure opens an
    incident; a later success claims it, stores a failure event with the time of
    the failure and a recovery event, and closes it, unless the component
    failed again meanwhile.  These calls run concurrently: what each does
    between two [await]s or inside one critical section of the mutex is one
    [task_step], the calls in flight are [sy_tasks], and [exec] runs any of them
    next.  An insert can be refused, or fail although the row was stored
    ([Unknown]); a call can be dropped at any [await] ([Cancel]), which is what
    happens to a request handler whose client disconnects. *)

From Stdlib Require Import ZArith Lia.
From stdpp Require Import base gmap list strings.
From S2P Require Import Prelude.
From S2P Require Import RustStr.
From S2P Require Import Json.
From S2P Require Import SourceUrl.
From S2P Require Import Redaction.
From S2P Require Import Events.

(** ** The tracker *)

Record DatabaseIncident : Type := mkIncident {
  di_id : string;
  di_occurred_at : Z;
  di_component : string;
  di_persisted : bool;
  di_recovering : bool;
  di_failure_during_recovery_at : option Z;
}.

(** [EventRepository] with a pool: [database_incidents] and
    [has_database_incidents]. *)
Record Tracker : Type := mkTracker {
  tr_incidents : gmap string DatabaseIncident;
  tr_has_incidents : bool;
}.

Definition new_database_incident (id component : string) (occurred_at : Z) : DatabaseIncident :=
  mkIncident id occurred_at component false false None.

(** The name a component is tracked under. *)
Definition component_key (component : string) : string := safe_text component 64 "database".

Definition remember_database_failure (id : string) (now : Z) (component : string) (t : Tracker) : Tracker :=
  let component := component_key component in
  match tr_incidents t !! component with
  | Some i =>
      if di_recovering i && negb (is_some (di_failure_during_recovery_at i))
      then mkTracker (<[component := mkIncident (di_id i) (di_occurred_at i) (di_component i) (di_persisted i)
                                       (di_recovering i) (Some now)]> (tr_incidents t)) (tr_has_incidents t)
      else t
  | None => mkTracker (<[component := new_database_incident id component now]> (tr_incidents t)) true
  end.

(** The critical section of [database_recovered]: takes the incident unless
    somebody else is at it. *)
Definition claim_recovery (component : string) (t : Tracker) : option DatabaseIncident * Tracker :=
  match tr_incidents t !! component with
  | Some i =>
      if di_recovering i then (None, t)
      else let i := mkIncident (di_id i) (di_occurred_at i) (di_component i) (di_persisted i) true None in
           (Some i, mkTracker (<[component := i]> (tr_incidents t)) (tr_has_incidents t))
  | None => (None, t)
  end.

Definition release_database_recovery (component id : string) (persisted : bool) (t : Tracker) : Tracker :=
  match tr_incidents t !! component with
  | Some i =>
      if di_id i =?s id
      then mkTracker (<[component := mkIncident (di_id i) (di_occurred_at i) (di_component i)
                                       (di_persisted i || persisted) false None]> (tr_incidents t)) (tr_has_incidents t)
      else t
  | None => t
  end.

(** After the recovery event is stored: a failure seen meanwhile is a new
    incident, otherwise the component is up. *)
Definition finish_recovery (component id new_id : string) (t : Tracker) : Tracker :=
  match tr_incidents t !! component with
  | Some i =>
      if di_id i =?s id
      then match di_failure_during_recovery_at i with
           | Some occurred_at =>
               mkTracker (<[component := new_database_incident new_id component occurred_at]> (tr_incidents t))
                 (tr_has_incidents t)
           | None =>
               let incidents := delete component (tr_incidents t) in
               mkTracker incidents (if bool_decide (incidents = ∅) then false else tr_has_incidents t)
           end
      else t
  | None => t
  end.

(** ** Calls in flight *)

Inductive Call : Type :=
| CallRecord (event : SystemEvent)
| CallRecordDuringIncident (event : SystemEvent)
| CallFailed (component : string) (error : DbError)
| CallRecovered (component : string).

(** [observe]: what is said of a result. *)
Definition observe {T} (component : string) (r : result T DbError) : Call :=
  match r with Ok _ => CallRecovered component | Err error => CallFailed component error end.

(** Where a call is: about to insert, to lock or to load the flag. *)
Inductive Task : Type :=
| Recording (event : SystemEvent)
| RecordingDuringIncident (event : SystemEvent)
| Remembering (component : string)
| Recovered (component : string)
| Claiming (component : string)
| Reporting (component : string) (i : DatabaseIncident)
| Announcing (component : string) (i : DatabaseIncident)
| Releasing (component id : string) (persisted : bool)
| Finishing (component id : string).

Definition task_of_call (call : Call) : option Task :=
  match call with
  | CallRecord event => Some (Recording event)
  | CallRecordDuringIncident event => Some (RecordingDuringIncident event)
  | CallFailed component error => if negb (is_connection_error error) then None else Some (Remembering component)
  | CallRecovered component => Some (Recovered component)
  end.

(** The end of an insert.  A pool without a free connection refuses it. *)
Inductive InsertOutcome : Type := Stored | Refused (error : DbError) | Unknown (error : DbError).

Definition written (outcome : InsertOutcome) : bool := match outcome with Refused _ => false | _ => true end.
Definition insert_error (outcome : InsertOutcome) : option DbError :=
  match outcome with Stored => None | Refused error | Unknown error => Some error end.

Definition set_persisted (i : DatabaseIncident) : DatabaseIncident :=
  mkIncident (di_id i) (di_occurred_at i) (di_component i) true (di_recovering i) (di_failure_during_recovery_at i).

Section Calls.
Context `{UrlCrates} `{UrlEdit}.

Definition failure_event (i : DatabaseIncident) : SystemEvent :=
  with_details (json_object [("component", VString (di_component i)); ("error_code", VString "database_unavailable");
                             ("recorded_after_recovery", VBool true)])
    (with_correlation_id (di_id i) (with_subject_id "postgresql"
      (new_event (di_occurred_at i) "database" "database.connection_failed" "error" "database"
         "Database operation became unavailable"))).

Definition recovery_event (now : Z) (component : string) (i : DatabaseIncident) : SystemEvent :=
  with_details (json_object [("component", VString component)])
    (with_correlation_id (di_id i) (with_subject_id "postgresql"
      (new_event now "database" "database.connection_recovered" "info" "database" "Database operation recovered"))).

(** The row an insert of [event] leaves. *)
Definition insert_event (event : SystemEvent) (outcome : InsertOutcome) : list SystemEvent :=
  if written outcome then [normalized_event event] else [].

(** What is left to do after [record] failed to store an event. *)
Definition after_failed_record (error : DbError) : option Task :=
  if is_connection_error error then Some (Remembering "system_events.write") else None.

(** The next step of a call: the rows it stores, where the call is then, and
    the tracker.  [id] is the answer of [Uuid::new_v4]. *)
Definition task_step (id : string) (now : Z) (outcome : InsertOutcome) (task : Task) (t : Tracker)
    : list SystemEvent * option Task * Tracker :=
  match task with
  | Recording event =>
      (insert_event event outcome,
       match insert_error outcome with
       | None => Some (Recovered "system_events.write")
       | Some error => after_failed_record error
       end, t)
  | RecordingDuringIncident event =>
      (insert_event event outcome,
       match insert_error outcome with None => None | Some error => after_failed_record error end, t)
  | Remembering component => ([], None, remember_database_failure id now component t)
  | Recovered component => ([], if negb (tr_has_incidents t) then None else Some (Claiming (component_key component)), t)
  | Claiming component =>
      let '(claimed, t) := claim_recovery component t in
      ([], match claimed with
           | Some i => Some (if di_persisted i then Announcing component i else Reporting component i)
           | None => None
           end, t)
  | Reporting component i =>
      (insert_event (failure_event i) outcome,
       Some match insert_error outcome with
            | None => Announcing component (set_persisted i)
            | Some _ => Releasing component (di_id i) false
            end, t)
  | Announcing component i =>
      (insert_event (recovery_event now component i) outcome,
       Some match insert_error outcome with
            | None => Finishing component (di_id i)
            | Some _ => Releasing component (di_id i) (di_persisted i)
            end, t)
  | Releasing component id persisted => ([], None, release_database_recovery component id persisted t)
  | Finishing component id' => ([], None, finish_recovery component id' id t)
  end.

(** ** The system *)

(** The tracker, the calls in flight, the rows of [system_events] in the order
    they were stored and a counter.  [sy_failures] is a ghost: the failures seen,
    with their times. *)
Record Sys : Type := mkSys {
  sy_tracker : Tracker;
  sy_tasks : gmap nat Task;
  sy_rows : list SystemEvent;
  sy_tick : nat;
  sy_failures : list (string * Z);
}.

Definition sys_new : Sys := mkSys (mkTracker ∅ false) ∅ [] 0 [].

Inductive Action : Type :=
| Invoke (call : Call)
| Run (n : nat) (now : Z) (outcome : InsertOutcome)
| Cancel (n : nat).

Context (uuid : nat -> string).

Definition put_task (n : nat) (task : option Task) (tasks : gmap nat Task) : gmap nat Task :=
  match task with Some task => <[n := task]> tasks | None => delete n tasks end.

Definition seen_failure (task : Task) (now : Z) : list (string * Z) :=
  match task with Remembering component => [(component_key component, now)] | _ => [] end.

Definition exec (s : Sys) (a : Action) : Sys :=
  match a with
  | Invoke call =>
      mkSys (sy_tracker s) (put_task (sy_tick s) (task_of_call call) (sy_tasks s)) (sy_rows s) (S (sy_tick s)) (sy_failures s)
  | Run n now outcome =>
      match sy_tasks s !! n with
      | Some task =>
          let '(rows, next, t) := task_step (uuid (sy_tick s)) now outcome task (sy_tracker s) in
          mkSys t (put_task n next (sy_tasks s)) (sy_rows s ++ rows) (S (sy_tick s)) (sy_failures s ++ seen_failure task now)
      | None => s
      end
  | Cancel n => mkSys (sy_tracker s) (delete n (sy_tasks s)) (sy_rows s) (sy_tick s) (sy_failures s)
  end.

Definition runs (s : Sys) (l : list Action) : Sys := fold_left exec l s.
End Calls.

(** ** Invariant *)

(** The outage a call is reporting. *)
Definition owned (task : Task) : option (string * string) :=
  match task with
  | Reporting component i | Announcing component i => Some (component, di_id i)
  | Releasing component id _ | Finishing component id => Some (component, id)
  | _ => None
  end.

Definition same_outage (i j : DatabaseIncident) : Prop :=
  di_id i = di_id j /\ di_occurred_at i = di_occurred_at j /\ di_component i = di_component j.

Section Invariant.
Context `{UrlCrates} `{UrlEdit} (uuid : nat -> string).

Definition failure_row (i : DatabaseIncident) : SystemEvent := normalized_event (failure_event i).
Definition recovery_row (now : Z) (component : string) (i : DatabaseIncident) : SystemEvent :=
  normalized_event (recovery_event now component i).

Lemma failure_row_same i j : same_outage i j -> failure_row i = failure_row j.
Proof. intros (Hi & Ho & Hc). unfold failure_row, failure_event. by rewrite Hi, Ho, Hc. Qed.

#[local] Opaque failure_row recovery_row.

Definition DB_FAILED : string := "database.connection_failed".
Definition DB_RECOVERED : string := "database.connection_recovered".

(** An event somebody else records: not one of the two about the database. *)
Definition foreign (e : SystemEvent) : Prop :=
  se_event_type (normalized_event e) <> DB_FAILED /\ se_event_type (normalized_event e) <> DB_RECOVERED.

(** Every recovery row comes after the failure row of its outage, which has
    the time of a failure of that component. *)
Definition reported_in_pairs (failures : list (string * Z)) (rows : list SystemEvent) : Prop :=
  forall before r after, rows = before ++ r :: after -> se_event_type r = DB_RECOVERED ->
  exists i now, r = recovery_row now (di_component i) i /\ failure_row i ∈ before
    /\ (di_component i, di_occurred_at i) ∈ failures.

(** What holds of the incident of a component. *)
Record incident_ok (failures : list (string * Z)) (rows : list SystemEvent) (component : string) (i : DatabaseIncident) : Prop := {
  io_component : di_component i = component;
  io_seen : (component, di_occurred_at i) ∈ failures;
  io_again : forall at_, di_failure_during_recovery_at i = Some at_ ->
    di_recovering i = true /\ (component, at_) ∈ failures;
  io_persisted : di_persisted i = true -> failure_row i ∈ rows;
}.

(** What holds of a call in flight: it owns the incident it is at. *)
Definition task_ok (incidents : gmap string DatabaseIncident) (rows : list SystemEvent) (task : Task) : Prop :=
  match task with
  | Recording event | RecordingDuringIncident event => foreign event
  | Reporting component i | Announcing component i =>
      (exists j, incidents !! component = Some j /\ same_outage i j /\ di_recovering j = true)
      /\ (if task is Announcing _ _ then failure_row i ∈ rows else True)
  | Releasing component id persisted =>
      exists j, incidents !! component = Some j /\ di_id j = id /\ di_recovering j = true
        /\ (persisted = true -> failure_row j ∈ rows)
  | Finishing component id =>
      exists j, incidents !! component = Some j /\ di_id j = id /\ di_recovering j = true
  | _ => True
  end.

Record tracker_inv (s : Sys) : Prop := {
  ti_flag : tr_has_incidents (sy_tracker s) = false <-> tr_incidents (sy_tracker s) = ∅;
  ti_incidents : forall c i, tr_incidents (sy_tracker s) !! c = Some i -> incident_ok (sy_failures s) (sy_rows s) c i;
  ti_tasks : forall n task, sy_tasks s !! n = Some task -> task_ok (tr_incidents (sy_tracker s)) (sy_rows s) task;
  ti_owners : forall n m tn tm c idn idm, sy_tasks s !! n = Some tn -> sy_tasks s !! m = Some tm ->
    owned tn = Some (c, idn) -> owned tm = Some (c, idm) -> n = m;
  ti_rows : reported_in_pairs (sy_failures s) (sy_rows s);
}.

(** Calls that record an event record one of their own. *)
Definition action_ok (a : Action) : Prop :=
  match a with
  | Invoke (CallRecord event) | Invoke (CallRecordDuringIncident event) => foreign event
  | _ => True
  end.

(** *** Preservation *)

Lemma pairs_app failures rows new failures' :
  reported_in_pairs failures rows ->
  (forall r, r ∈ new -> se_event_type r = DB_RECOVERED ->
    exists i now, r = recovery_row now (di_component i) i /\ failure_row i ∈ rows /\ (di_component i, di_occurred_at i) ∈ failures) ->
  reported_in_pairs (failures ++ failures') (rows ++ new).
Proof.
  intros Hp Hn before r after Heq Ht.
  apply app_eq_app in Heq as (l & [[-> Hl]|[-> Hl]]).
  - destruct l as [|x l]; cbn in Hl.
    + subst new. destruct (Hn r ltac:(left) Ht) as (i & now & -> & Hf & Hs).
      rewrite app_nil_r in Hf. exists i, now. split_and!; [done|done|]. apply elem_of_app. by left.
    + injection Hl as <- ->. destruct (Hp before r l eq_refl Ht) as (i & now & -> & Hf & Hs).
      exists i, now. split_and!; [done|done|]. apply elem_of_app. by left.
  - subst new. destruct (Hn r) as (i & now & -> & Hf & Hs); [apply elem_of_app; right; left|done|].
    exists i, now. split_and!; [done| |]; apply elem_of_app; by left.
Qed.

Lemma incident_ok_mono failures rows c i failures' rows' :
  incident_ok failures rows c i -> incident_ok (failures ++ failures') (rows ++ rows') c i.
Proof.
  intros [Hc Hs Ha Hp]. split; [done|apply elem_of_app; by left| |].
  - intros t Ht. destruct (Ha t Ht). split; [done|apply elem_of_app; by left].
  - intros Hx. apply elem_of_app. left. by apply Hp.
Qed.

(** Steps at one component leave the calls at others alone. *)
Lemma task_ok_other incidents incidents' rows rows' c task :
  (forall d, d <> c -> incidents' !! d = incidents !! d) -> (forall id, owned task <> Some (c, id)) ->
  task_ok incidents rows task -> task_ok incidents' (rows ++ rows') task.
Proof.
  intros Hd Ho. assert (forall d id, owned task = Some (d, id) -> incidents' !! d = incidents !! d) as Hl.
  { intros d id Hx. apply Hd. intros ->. by apply (Ho id). }
  destruct task as [e|e|d|d|d|d i|d i|d id p|d id]; cbn in *; try done; rewrite (Hl d _ eq_refl).
  - done.
  - intros [Hj Hr]. split; [done|]. apply elem_of_app. by left.
  - intros (j & Hj & Hid & Hr & Hp). exists j. split_and!; [done..|]. intros Hx. apply elem_of_app. left. by apply Hp.
  - done.
Qed.

Lemma task_ok_mono incidents rows rows' task : task_ok incidents rows task -> task_ok incidents (rows ++ rows') task.
Proof.
  destruct task; cbn; try done.
  - intros [Hj Hr]. split; [done|]. apply elem_of_app. by left.
  - intros (j & Hj & Hid & Hr & Hp). exists j. split_and!; [done..|]. intros Hx. apply elem_of_app. left. by apply Hp.
Qed.

(** An owner needs the incident of its component, being recovered. *)
Lemma owner_recovering incidents rows task c id :
  task_ok incidents rows task -> owned task = Some (c, id) ->
  exists j, incidents !! c = Some j /\ di_id j = id /\ di_recovering j = true.
Proof.
  destruct task as [e|e|d|d|d|d i|d i|d id' p|d id']; cbn; try done; intros Hok [= -> <-].
  1, 2: destruct Hok as [(j & Hj & (Hi & _) & Hr) _]; by exists j.
  all: destruct Hok as (j & Hj & Hi & Hr & _) || destruct Hok as (j & Hj & Hi & Hr); by exists j.
Qed.

(** A later failure changes neither the outage nor who is at it. *)
Lemma task_ok_noted incidents rows c i i' task :
  incidents !! c = Some i -> same_outage i i' -> di_recovering i' = di_recovering i ->
  task_ok incidents rows task -> task_ok (<[c := i']> incidents) rows task.
Proof.
  intros Hi Hs Hr. pose proof (failure_row_same _ _ Hs) as Hf. destruct Hs as (Hid & Ho & Hc).
  assert (forall d j, incidents !! d = Some j -> exists j', <[c := i']> incidents !! d = Some j' /\ same_outage j j'
    /\ di_recovering j' = di_recovering j /\ failure_row j' = failure_row j) as Hl.
  { intros d j Hj. destruct (decide (d = c)) as [->|Hne].
    - rewrite Hi in Hj. injection Hj as <-. exists i'. split; [apply lookup_insert_eq|]. by repeat split.
    - exists j. split; [by rewrite lookup_insert_ne|]. by repeat split. }
  destruct task as [e|e|d|d|d|d k|d k|d id p|d id]; cbn [task_ok].
  1-5: trivial.
  1, 2: intros [(j & Hj & (H1 & H2 & H3) & Hrec) Hx]; destruct (Hl d j Hj) as (j' & Hj' & (E1 & E2 & E3) & Er & Ef);
    (split; [|exact Hx]); exists j'; (split; [exact Hj'|]); rewrite Er; repeat split; congruence.
  - intros (j & Hj & Hx & Hrec & Hp). destruct (Hl d j Hj) as (j' & Hj' & (E1 & E2 & E3) & Er & Ef).
    exists j'. split; [exact Hj'|]. rewrite Er, Ef. repeat split; [congruence|exact Hrec|exact Hp].
  - intros (j & Hj & Hx & Hrec). destruct (Hl d j Hj) as (j' & Hj' & (E1 & E2 & E3) & Er & Ef).
    exists j'. split; [exact Hj'|]. rewrite Er. split; [congruence|exact Hrec].
Qed.

(** What a step has to show. *)
Lemma step_inv s n task rows next t seen tick :
  tracker_inv s -> sy_tasks s !! n = Some task ->
  (tr_has_incidents t = false <-> tr_incidents t = ∅) ->
  (forall c i, tr_incidents t !! c = Some i -> incident_ok (sy_failures s ++ seen) (sy_rows s ++ rows) c i) ->
  (forall m task', m <> n -> sy_tasks s !! m = Some task' -> task_ok (tr_incidents t) (sy_rows s ++ rows) task') ->
  (forall task', next = Some task' -> task_ok (tr_incidents t) (sy_rows s ++ rows) task') ->
  (forall m task' tn c id id', m <> n -> sy_tasks s !! m = Some task' -> next = Some tn ->
    owned task' = Some (c, id) -> owned tn = Some (c, id') -> False) ->
  (forall r, r ∈ rows -> se_event_type r = DB_RECOVERED -> exists i now, r = recovery_row now (di_component i) i
    /\ failure_row i ∈ sy_rows s /\ (di_component i, di_occurred_at i) ∈ sy_failures s) ->
  tracker_inv (mkSys t (put_task n next (sy_tasks s)) (sy_rows s ++ rows) tick (sy_failures s ++ seen)).
Proof.
  intros Hinv Hn Hflag Hinc Hothers Hnext Howner Hrows.
  assert (forall m task', put_task n next (sy_tasks s) !! m = Some task' ->
    (m = n /\ next = Some task') \/ (m <> n /\ sy_tasks s !! m = Some task')) as Hput.
  { intros m task'. destruct next as [tn|]; cbn.
    - intros [[<- <-]|[Hne Hm]]%lookup_insert_Some; [by left|by right].
    - intros [Hne Hm]%lookup_delete_Some. by right. }
  constructor; cbn; [done|done| | |].
  - intros m task' [[-> Hx]|[Hne Hx]]%Hput; [by apply Hnext|by eapply Hothers].
  - intros m1 m2 t1 t2 c id1 id2 H1 H2 Ho1 Ho2. apply Hput in H1, H2.
    destruct H1 as [[-> H1]|[Hne1 H1]], H2 as [[-> H2]|[Hne2 H2]]; [done| | |by eapply (ti_owners s Hinv)].
    + exfalso. by eapply (Howner m2 t2 t1).
    + exfalso. by eapply (Howner m1 t1 t2).
  - by apply pairs_app, Hrows; apply Hinv.
Qed.

(** A step that stores nothing. *)
Ltac no_rows := by intros r ?%not_elem_of_nil.

(** A step that leaves the tracker alone. *)
Lemma step_same s n task rows next tick :
  tracker_inv s -> sy_tasks s !! n = Some task ->
  (forall task', next = Some task' -> task_ok (tr_incidents (sy_tracker s)) (sy_rows s ++ rows) task'
    /\ (owned task' = None \/ owned task' = owned task)) ->
  (forall r, r ∈ rows -> se_event_type r = DB_RECOVERED -> exists i now, r = recovery_row now (di_component i) i
    /\ failure_row i ∈ sy_rows s /\ (di_component i, di_occurred_at i) ∈ sy_failures s) ->
  tracker_inv (mkSys (sy_tracker s) (put_task n next (sy_tasks s)) (sy_rows s ++ rows) tick (sy_failures s ++ [])).
Proof.
  intros Hinv Hn Hnext Hrows. eapply step_inv; [done|exact Hn|apply Hinv|..|done].
  - intros c i Hi. by apply incident_ok_mono, Hinv.
  - intros m task' _ Hm. eapply task_ok_mono, Hinv, Hm.
  - intros task' Ht. by apply Hnext.
  - intros m task' tn c id id' Hne Hm Htn Ho Ho'. destruct (Hnext tn Htn) as [_ [Hx|Hx]]; [congruence|].
    rewrite Ho' in Hx. apply Hne. by eapply (ti_owners s Hinv).
Qed.

Lemma insert_event_in event outcome r : r ∈ insert_event event outcome -> r = normalized_event event.
Proof. unfold insert_event. destruct (written outcome); [by intros ->%list_elem_of_singleton|by intros ?%not_elem_of_nil]. Qed.

Lemma foreign_rows event outcome r : foreign event -> r ∈ insert_event event outcome -> se_event_type r <> DB_RECOVERED.
Proof. intros [_ Hf] ->%insert_event_in. exact Hf. Qed.

Lemma failure_type i : se_event_type (normalized_event (failure_event i)) = DB_FAILED.
Proof. reflexivity. Qed.

(** The incident a call is at. *)
Lemma owner_incident s n task c i : tracker_inv s -> sy_tasks s !! n = Some task ->
  (task = Reporting c i \/ task = Announcing c i) ->
  di_component i = c /\ (c, di_occurred_at i) ∈ sy_failures s.
Proof.
  intros Hinv Hn Ht. pose proof (ti_tasks s Hinv n task Hn) as Hok.
  assert (exists j, tr_incidents (sy_tracker s) !! c = Some j /\ same_outage i j) as (j & Hj & (_ & Ho & Hc)).
  { destruct Ht as [-> | ->]; cbn in Hok; destruct Hok as [(j & Hj & Hs & _) _]; by exists j. }
  destruct (ti_incidents s Hinv c j Hj) as [Hjc Hjs _ _]. rewrite Ho, Hc. by rewrite Hjc.
Qed.

Lemma report_inv s n c i outcome tick : tracker_inv s -> sy_tasks s !! n = Some (Reporting c i) ->
  tracker_inv (mkSys (sy_tracker s)
    (put_task n (Some match insert_error outcome with
                      | None => Announcing c (set_persisted i)
                      | Some _ => Releasing c (di_id i) false end) (sy_tasks s))
    (sy_rows s ++ insert_event (failure_event i) outcome) tick (sy_failures s ++ [])).
Proof.
  intros Hinv Hn. destruct (ti_tasks s Hinv n _ Hn) as [(j & Hj & Hs & Hr) _].
  eapply step_same; [done|exact Hn| |].
  - intros task' [= <-]. destruct outcome; cbn [insert_error task_ok owned set_persisted di_id].
    + split; [|by right]. split; [by exists j|]. apply elem_of_app. right. by apply list_elem_of_singleton.
    + split; [|by right]. exists j. destruct Hs as (Hid & _). by split_and!.
    + split; [|by right]. exists j. destruct Hs as (Hid & _). by split_and!.
  - intros r ->%insert_event_in. by rewrite failure_type.
Qed.

Lemma announce_inv s n c i now outcome tick : tracker_inv s -> sy_tasks s !! n = Some (Announcing c i) ->
  tracker_inv (mkSys (sy_tracker s)
    (put_task n (Some match insert_error outcome with
                      | None => Finishing c (di_id i)
                      | Some _ => Releasing c (di_id i) (di_persisted i) end) (sy_tasks s))
    (sy_rows s ++ insert_event (recovery_event now c i) outcome) tick (sy_failures s ++ [])).
Proof.
  intros Hinv Hn. destruct (ti_tasks s Hinv n _ Hn) as [(j & Hj & Hs & Hr) Hf].
  eapply step_same; [done|exact Hn| |].
  - intros task' [= <-]. pose proof (failure_row_same _ _ Hs) as Hsame. destruct Hs as (Hid & _).
    destruct outcome; cbn [insert_error task_ok owned]; (split; [|by right]); exists j.
    1: by repeat split.
    all: split; [exact Hj|]; split; [by rewrite Hid|]; split; [exact Hr|].
    all: intros _; apply elem_of_app; left; by rewrite <- Hsame.
  - intros r ->%insert_event_in _. destruct (owner_incident s n _ c i Hinv Hn) as [<- Hseen]; [by right|].
    by exists i, now.
Qed.

Lemma claim_inv s n c tick claimed t : tracker_inv s -> sy_tasks s !! n = Some (Claiming c) ->
  claim_recovery c (sy_tracker s) = (claimed, t) ->
  tracker_inv (mkSys t (put_task n (match claimed with
                                    | Some i => Some (if di_persisted i then Announcing c i else Reporting c i)
                                    | None => None end) (sy_tasks s)) (sy_rows s ++ []) tick (sy_failures s ++ [])).
Proof.
  intros Hinv Hn Hc. unfold claim_recovery in Hc. destruct (tr_incidents (sy_tracker s) !! c) as [i|] eqn:Ei.
  2:{ injection Hc as <- <-. eapply step_same; [exact Hinv|exact Hn|by intros|no_rows]. }
  destruct (di_recovering i) eqn:Er; injection Hc as <- <-.
  { eapply step_same; [exact Hinv|exact Hn|by intros|no_rows]. }
  destruct (ti_incidents s Hinv c i Ei) as [Hic Hseen Hagain Hpers].
  assert (forall m task' id, sy_tasks s !! m = Some task' -> owned task' <> Some (c, id)) as Hno.
  { intros m task' id Hm Ho. destruct (owner_recovering _ _ _ _ _ (ti_tasks s Hinv m task' Hm) Ho) as (j & Hj & _ & Hr).
    rewrite Ei in Hj. injection Hj as <-. by rewrite Er in Hr. }
  assert (forall X, (if di_persisted i then Announcing c X else Reporting c X) = Announcing c X -> di_persisted i = true) as Hp
    by (by destruct (di_persisted i)).
  eapply step_inv; [done|exact Hn|..]; cbn [tr_incidents tr_has_incidents di_persisted].
  - rewrite (ti_flag s Hinv). split; [by intros Hx; rewrite Hx in Ei|by intros Hx%insert_non_empty].
  - intros d j [[<- <-]|[Hne Hj]]%lookup_insert_Some; apply incident_ok_mono; [|by apply Hinv]. by split.
  - intros m task' Hne Hm. eapply (task_ok_other _ _ _ _ c); [|by intros id; eapply Hno|by eapply (ti_tasks s Hinv)].
    intros d Hd. by apply lookup_insert_ne.
  - intros task' [= <-]. destruct (di_persisted i) eqn:Epi; cbn [task_ok]; (split; [|try done]).
    1, 3: eexists; (split; [apply lookup_insert_eq|]); by repeat split.
    rewrite app_nil_r. rewrite (failure_row_same _ i); [by apply Hpers|by repeat split].
  - intros m task' tn d id id' Hne Hm [= <-] Ho Ho'. destruct (di_persisted i); injection Ho' as <- _; by eapply Hno.
  - no_rows.
Qed.

Lemma remember_inv s n c now tick id : tracker_inv s -> sy_tasks s !! n = Some (Remembering c) ->
  tracker_inv (mkSys (remember_database_failure id now c (sy_tracker s)) (put_task n None (sy_tasks s))
    (sy_rows s ++ []) tick (sy_failures s ++ [(component_key c, now)])).
Proof.
  intros Hinv Hn. unfold remember_database_failure. set (k := component_key c).
  assert ((k, now) ∈ sy_failures s ++ [(k, now)]) as Hk by (apply elem_of_app; right; by left).
  destruct (tr_incidents (sy_tracker s) !! k) as [i|] eqn:Ei.
  - assert (tracker_inv (mkSys (sy_tracker s) (put_task n None (sy_tasks s)) (sy_rows s ++ []) tick
      (sy_failures s ++ [(k, now)]))) as Hsame.
    { eapply step_inv; [done|exact Hn|apply Hinv|..]; [| |done|done|no_rows].
      - intros d j Hj. by apply incident_ok_mono, Hinv.
      - intros m task' _ Hm. by eapply task_ok_mono, (ti_tasks s Hinv). }
    destruct (di_recovering i && negb (is_some (di_failure_during_recovery_at i))) eqn:Eb; [|exact Hsame].
    apply andb_prop in Eb as [Er _].
    destruct (ti_incidents s Hinv k i Ei) as [Hic Hseen Hagain Hpers].
    eapply step_inv; [done|exact Hn|..]; cbn [tr_incidents tr_has_incidents]; [| | |done|done|no_rows].
    + rewrite (ti_flag s Hinv). split; [by intros Hx; rewrite Hx in Ei|by intros Hx%insert_non_empty].
    + intros d j [[<- <-]|[Hne Hj]]%lookup_insert_Some; [|by apply incident_ok_mono, Hinv].
      split; cbn; [done|apply elem_of_app; by left|by intros t [= <-]|].
      intros Hp. apply elem_of_app. left. rewrite (failure_row_same _ i); [by apply Hpers|by repeat split].
    + intros m task' _ Hm. apply task_ok_mono. eapply task_ok_noted; [exact Ei|by repeat split|done|by eapply (ti_tasks s Hinv)].
  - eapply step_inv; [done|exact Hn|..]; cbn [tr_incidents tr_has_incidents]; [| | |done|done|no_rows].
    + split; [done|by intros Hx%insert_non_empty].
    + intros d j [[<- <-]|[Hne Hj]]%lookup_insert_Some; [|by apply incident_ok_mono, Hinv]. by split.
    + intros m task' _ Hm. eapply (task_ok_other _ _ _ _ k); [|intros id' Ho|by eapply (ti_tasks s Hinv)].
      { intros d Hd. by apply lookup_insert_ne. }
      destruct (owner_recovering _ _ _ _ _ (ti_tasks s Hinv m task' Hm) Ho) as (j & Hj & _). congruence.
Qed.

(** The owner of an incident replaces or closes it; the calls at other
    components do not notice. *)
Lemma owner_step_inv s n task c id t rows' tick :
  tracker_inv s -> sy_tasks s !! n = Some task -> owned task = Some (c, id) ->
  (tr_has_incidents t = false <-> tr_incidents t = ∅) ->
  (forall d, d <> c -> tr_incidents t !! d = tr_incidents (sy_tracker s) !! d) ->
  (forall i, tr_incidents t !! c = Some i -> incident_ok (sy_failures s) (sy_rows s) c i) ->
  rows' = [] ->
  tracker_inv (mkSys t (put_task n None (sy_tasks s)) (sy_rows s ++ rows') tick (sy_failures s ++ [])).
Proof.
  intros Hinv Hn Ho Hflag Hd Hc ->. eapply step_inv; [exact Hinv|exact Hn|exact Hflag|..]; [| |done|done|no_rows].
  - intros d i Hi. apply incident_ok_mono. destruct (decide (d = c)) as [->|Hne]; [by apply Hc|].
    rewrite Hd in Hi by done. by apply Hinv.
  - intros m task' Hne Hm. eapply (task_ok_other _ _ _ _ c); [exact Hd| |by eapply (ti_tasks s Hinv)].
    intros id' Ho'. apply Hne. by eapply (ti_owners s Hinv).
Qed.

Lemma release_inv s n c id persisted tick : tracker_inv s -> sy_tasks s !! n = Some (Releasing c id persisted) ->
  tracker_inv (mkSys (release_database_recovery c id persisted (sy_tracker s)) (put_task n None (sy_tasks s))
    (sy_rows s ++ []) tick (sy_failures s ++ [])).
Proof.
  intros Hinv Hn. destruct (ti_tasks s Hinv n _ Hn) as (i & Hi & Hid & Hr & Hp).
  unfold release_database_recovery. rewrite Hi, Hid, String.eqb_refl.
  destruct (ti_incidents s Hinv c i Hi) as [Hic Hseen Hagain Hpers].
  eapply owner_step_inv; [exact Hinv|exact Hn|reflexivity|..|done]; cbn [tr_incidents tr_has_incidents].
  - rewrite (ti_flag s Hinv). split; [by intros Hx; rewrite Hx in Hi|by intros Hx%insert_non_empty].
  - intros d Hd. by apply lookup_insert_ne.
  - intros j. rewrite lookup_insert_eq. intros [= <-]. split; cbn; [done|done|done|].
    intros [Hx|Hx]%orb_prop; (rewrite (failure_row_same _ i); [|by repeat split]); [by apply Hpers|by apply Hp].
Qed.

Lemma finish_inv s n c id new_id tick : tracker_inv s -> sy_tasks s !! n = Some (Finishing c id) ->
  tracker_inv (mkSys (finish_recovery c id new_id (sy_tracker s)) (put_task n None (sy_tasks s))
    (sy_rows s ++ []) tick (sy_failures s ++ [])).
Proof.
  intros Hinv Hn. destruct (ti_tasks s Hinv n _ Hn) as (i & Hi & Hid & Hr).
  unfold finish_recovery. rewrite Hi, Hid, String.eqb_refl.
  destruct (ti_incidents s Hinv c i Hi) as [Hic Hseen Hagain Hpers].
  destruct (di_failure_during_recovery_at i) as [at_|] eqn:Ea;
    (eapply owner_step_inv; [exact Hinv|exact Hn|reflexivity|..|done]; cbn [tr_incidents tr_has_incidents]).
  - rewrite (ti_flag s Hinv). split; [by intros Hx; rewrite Hx in Hi|by intros Hx%insert_non_empty].
  - intros d Hd. by apply lookup_insert_ne.
  - intros j. rewrite lookup_insert_eq. intros [= <-]. split; cbn; [done| |done|done]. by apply Hagain.
  - case_bool_decide as He; [done|]. rewrite (ti_flag s Hinv). split; [by intros Hx; rewrite Hx in Hi|done].
  - intros d Hd. by apply lookup_delete_ne.
  - intros j. by rewrite lookup_delete_eq.
Qed.

Lemma exec_inv s a : action_ok a -> tracker_inv s -> tracker_inv (exec uuid s a).
Proof.
  intros Ha Hinv. destruct a as [call|n now outcome|n]; cbn [exec].
  - constructor; cbn; [apply Hinv|apply Hinv| | |apply Hinv].
    + intros n task Hn. assert (task_of_call call = Some task \/ sy_tasks s !! n = Some task) as [Ht|Ht].
      { destruct (task_of_call call) as [t|]; cbn in Hn.
        - apply lookup_insert_Some in Hn as [[_ ->]|[_ Hn]]; [by left|by right].
        - apply lookup_delete_Some in Hn as [_ Hn]. by right. }
      2:{ by eapply (ti_tasks s Hinv). }
      destruct call as [e|e|c e|c]; cbn in Ht; [by injection Ht as <-..| |by injection Ht as <-].
      destruct (negb _); [done|by injection Ht as <-].
    + intros n m tn tm c idn idm Hn Hm Hon Hom.
      assert (forall k task id, put_task (sy_tick s) (task_of_call call) (sy_tasks s) !! k = Some task ->
        owned task = Some (c, id) -> sy_tasks s !! k = Some task) as Hold.
      { intros k task id Hk Ho. destruct (task_of_call call) as [t|] eqn:Et; cbn in Hk.
        - apply lookup_insert_Some in Hk as [[_ ->]|[_ Hk]]; [|done].
          destruct call as [e|e|d e|d]; cbn in Et; [by injection Et as <-..| |by injection Et as <-].
          destruct (negb _); [done|by injection Et as <-].
        - by apply lookup_delete_Some in Hk as [_ Hk]. }
      eapply (ti_owners s Hinv); [by eapply Hold|by eapply Hold|done|done].
  - destruct (sy_tasks s !! n) as [task|] eqn:Hn; [|done]. pose proof (ti_tasks s Hinv n task Hn) as Hok.
    destruct task as [e|e|c|c|c|c i|c i|c id p|c id]; cbn [task_step seen_failure].
    + eapply step_same; [exact Hinv|exact Hn| |].
      * intros task' Ht. destruct outcome as [|err|err]; cbn in Ht; [by injection Ht as <-; split; [|left]|..];
          unfold after_failed_record in Ht; (destruct (is_connection_error err); [|done]); injection Ht as <-; by split; [|left].
      * intros r Hr Ht. by destruct (foreign_rows _ _ _ Hok Hr).
    + eapply step_same; [exact Hinv|exact Hn| |].
      * intros task' Ht. destruct outcome as [|err|err]; cbn in Ht; [done|..];
          unfold after_failed_record in Ht; (destruct (is_connection_error err); [|done]); injection Ht as <-; by split; [|left].
      * intros r Hr Ht. by destruct (foreign_rows _ _ _ Hok Hr).
    + by apply remember_inv.
    + eapply step_same; [exact Hinv|exact Hn| |no_rows]. intros task' Ht. destruct (negb _); [done|].
      injection Ht as <-. by split; [|left].
    + destruct (claim_recovery c (sy_tracker s)) as [claimed t] eqn:Ec. by apply claim_inv.
    + by apply report_inv.
    + by apply announce_inv.
    + by apply release_inv.
    + by apply finish_inv.
  - constructor; cbn; [apply Hinv|apply Hinv| | |apply Hinv].
    + intros m task [_ Hm]%lookup_delete_Some. by eapply (ti_tasks s Hinv).
    + intros m1 m2 t1 t2 c id1 id2 [_ H1]%lookup_delete_Some [_ H2]%lookup_delete_Some. by eapply (ti_owners s Hinv).
Qed.

Lemma sys_new_inv : tracker_inv sys_new.
Proof. constructor; cbn; try done. intros before r after Heq. by destruct before. Qed.

Lemma runs_inv l : Forall action_ok l -> tracker_inv (runs uuid sys_new l).
Proof.
  intros Hl. enough (forall s, tracker_inv s -> tracker_inv (runs uuid s l)) as Hx by apply Hx, sys_new_inv.
  induction Hl as [|a l Ha _ IH]; intros s Hs; [done|]. cbn. by apply IH, exec_inv.
Qed.

(** ** What is reported *)

(** C32. Outages are reported in pairs: whatever calls run concurrently, fail
    or are dropped (and as long as nothing else records events of the two types
    of the tracker, as nothing in the source does), at any moment the flag
    that lets successful calls skip the lock is down exactly when no outage is
    remembered; and every recovery event in the table comes after the failure
    event of the same outage, which has the time at which that component failed,
    not the time it was stored. *)
Theorem outages_are_reported_in_pairs l :
  Forall action_ok l ->
  let s := runs uuid sys_new l in
  (tr_has_incidents (sy_tracker s) = false <-> tr_incidents (sy_tracker s) = ∅)
  /\ (forall before r after, sy_rows s = before ++ r :: after -> se_event_type r = DB_RECOVERED ->
       exists i now, r = recovery_row now (di_component i) i /\ failure_row i ∈ before
         /\ (di_component i, di_occurred_at i) ∈ sy_failures s).
Proof.
  intros Hl s. pose proof (runs_inv l Hl) as Hinv. split; [apply Hinv|]. intros before r after Hrows Ht.
  by eapply (ti_rows _ Hinv).
Qed.

(** ** What is not forgotten *)

(** [component] has an outage that no recovery under way will report as
    over. *)
Definition open (component : string) (s : Sys) : Prop :=
  exists i, tr_incidents (sy_tracker s) !! component = Some i
    /\ (di_recovering i = true -> di_failure_during_recovery_at i <> None).

(** The step of a successful call that takes the outage of a component. *)
Definition claims (component : string) (s : Sys) (a : Action) : bool :=
  match a with
  | Run n _ _ => match sy_tasks s !! n with Some (Claiming c) => c =?s component | _ => false end
  | _ => false
  end.

Fixpoint no_claim (component : string) (s : Sys) (l : list Action) : Prop :=
  match l with
  | [] => True
  | a :: l => claims component s a = false /\ no_claim component (exec uuid s a) l
  end.

Lemma exec_open c s a : action_ok a -> tracker_inv s -> claims c s a = false -> open c s -> open c (exec uuid s a).
Proof.
  intros Ha Hinv Hc (i & Hi & Ho). destruct a as [call|n now outcome|n]; cbn [exec]; try by exists i.
  unfold claims in Hc. destruct (sy_tasks s !! n) as [task|] eqn:Hn; [|by exists i]. pose proof (ti_tasks s Hinv n task Hn) as Hok.
  destruct task as [e|e|d|d|d|d j|d j|d id p|d id]; cbn [task_step]; try by exists i.
  - unfold open, remember_database_failure. cbn. destruct (decide (component_key d = c)) as [<-|Hne].
    + rewrite Hi. destruct (di_recovering i && _) eqn:Eb; [|by exists i].
      eexists. cbn. split; [apply lookup_insert_eq|done].
    + exists i. split; [|done]. destruct (tr_incidents (sy_tracker s) !! component_key d) as [k|]; [destruct (_ && _)|];
        cbn; by rewrite ?lookup_insert_ne.
  - destruct (claim_recovery d (sy_tracker s)) as [claimed t] eqn:Ec. exists i. split; [|done]. cbn.
    unfold claim_recovery in Ec. apply String.eqb_neq in Hc. destruct (tr_incidents (sy_tracker s) !! d) as [k|]; [|by injection Ec as _ <-].
    destruct (di_recovering k); injection Ec as _ <-; [done|]. cbn. by rewrite lookup_insert_ne.
  - unfold open, release_database_recovery. cbn. destruct (decide (d = c)) as [->|Hne].
    + rewrite Hi. destruct (di_id i =?s id); [|by exists i]. eexists. cbn. split; [apply lookup_insert_eq|done].
    + exists i. split; [|done]. destruct (tr_incidents (sy_tracker s) !! d) as [k|]; [destruct (_ =?s _)|]; cbn; by rewrite ?lookup_insert_ne.
  - destruct Hok as (k & Hk & Hid & Hr). unfold open, finish_recovery. cbn. destruct (decide (d = c)) as [->|Hne].
    + rewrite Hi in Hk |- *. injection Hk as <-. destruct (di_id i =?s id); [|by exists i].
      specialize (Ho Hr). destruct (di_failure_during_recovery_at i) as [at_|]; [|done].
      eexists. cbn. split; [apply lookup_insert_eq|done].
    + exists i. split; [|done]. destruct (tr_incidents (sy_tracker s) !! d) as [k'|]; [destruct (_ =?s _); [destruct (di_failure_during_recovery_at k')|]|];
        cbn; by rewrite ?lookup_insert_ne, ?lookup_delete_ne.
Qed.

(** No failure is forgotten: once a connection failure of a component is
    remembered, the component has an outage in memory, and successful calls take
    the lock, until a successful call claims it afterwards; a recovery that was
    under way when the failure was seen does not close it. *)
Theorem failures_are_not_forgotten l n now outcome component l' :
  Forall action_ok l -> Forall action_ok l' ->
  let s := runs uuid sys_new l in
  sy_tasks s !! n = Some (Remembering component) ->
  let s1 := exec uuid s (Run n now outcome) in
  no_claim (component_key component) s1 l' ->
  is_Some (tr_incidents (sy_tracker (runs uuid s1 l')) !! component_key component)
  /\ tr_has_incidents (sy_tracker (runs uuid s1 l')) = true.
Proof.
  intros Hl Hl' s Hn s1 Hq.
  assert (tracker_inv s1) as Hinv by by apply exec_inv, runs_inv.
  assert (open (component_key component) s1) as Ho.
  { unfold s1. cbn [exec]. rewrite Hn. cbn [task_step]. unfold open, remember_database_failure. cbn.
    destruct (tr_incidents (sy_tracker s) !! component_key component) as [i|] eqn:Ei.
    - destruct (di_recovering i) eqn:Er; cbn [andb].
      + destruct (di_failure_during_recovery_at i) eqn:Ef; cbn; [exists i; by rewrite Ef|].
        eexists. split; [apply lookup_insert_eq|done].
      + exists i. by rewrite Er.
    - eexists. split; [apply lookup_insert_eq|done]. }
  clearbody s1. assert (open (component_key component) (runs uuid s1 l') /\ tracker_inv (runs uuid s1 l')) as [(i & Hi & _) Hf].
  { clear -Hl' Hq Hinv Ho. revert s1 Hq Hinv Ho. induction Hl' as [|a l' Ha _ IH]; intros s1 Hq Hinv Ho; [done|].
    destruct Hq as [Hc Hq]. cbn. apply IH; [done|by apply exec_inv|by apply exec_open]. }
  split; [by exists i|]. apply not_false_is_true. intros Hx. apply (ti_flag _ Hf) in Hx. by rewrite Hx in Hi.
Qed.
End Invariant.
