(* ===== verification/IncidentProps.v ===== *)
(** * How outages end

    More on the calls of [Incidents]: a successful call that is left alone
    closes an outage and stores its two events; no outage is reported twice as
    long as a refused insert has not stored its row; and an outage whose recovery
    was dropped on the way is never closed. *)

From Stdlib Require Import ZArith Lia Ascii.
From stdpp Require Import base gmap list strings pretty.
From S2P Require Import Prelude.
From S2P Require Import RustStr.
From S2P Require Import Json.
From S2P Require Import SourceUrl.
From S2P Require Import Redaction.
From S2P Require Import Events.
From S2P Require Import Incidents.

Section Ends.
Context `{UrlCrates} `{UrlEdit} (uuid : nat -> string).

(** ** Closing *)

(** The calls in flight have the numbers of earlier steps. *)
Definition numbered (s : Sys) : Prop := forall n task, sy_tasks s !! n = Some task -> (n < sy_tick s)%nat.

Lemma put_task_Some n task tasks m t : put_task n task tasks !! m = Some t -> m = n \/ tasks !! m = Some t.
Proof.
  destruct task as [t'|]; cbn; [intros [[-> _]|[_ Hm]]%lookup_insert_Some|intros [_ Hm]%lookup_delete_Some]; auto.
Qed.

Lemma exec_numbered s a : numbered s -> numbered (exec uuid s a).
Proof.
  intros Hs n task Hn. destruct a as [call|m now outcome|m]; cbn [exec] in *.
  - cbn in *. apply put_task_Some in Hn as [->|Hn]; [lia|]. specialize (Hs n task Hn). lia.
  - destruct (sy_tasks s !! m) as [t|] eqn:Hm; [|by eapply Hs].
    destruct (task_step _ _ _ _ _) as [[rows next] tr]. cbn in *.
    apply put_task_Some in Hn as [->|Hn]; [specialize (Hs m t Hm)|specialize (Hs n task Hn)]; lia.
  - cbn in *. apply lookup_delete_Some in Hn as [_ Hn]. by eapply Hs.
Qed.

Lemma runs_numbered l s : numbered s -> numbered (runs uuid s l).
Proof. revert s. induction l as [|a l IH]; intros s Hs; [done|]. cbn. by apply IH, exec_numbered. Qed.

Lemma put_task_twice n t1 t2 (tasks : gmap nat Task) : put_task n t2 (<[n := t1]> tasks) = put_task n t2 tasks.
Proof. destruct t2; cbn; [by rewrite insert_insert_eq|by rewrite delete_insert_eq]. Qed.

(** One step of a call that is in flight. *)
Lemma run_step t tasks rows tick failures n now outcome task :
  exec uuid (mkSys t (<[n := task]> tasks) rows tick failures) (Run n now outcome)
  = let '(new, next, t') := task_step (uuid tick) now outcome task t in
    mkSys t' (put_task n next tasks) (rows ++ new) (S tick) (failures ++ seen_failure task now).
Proof.
  cbn [exec sy_tasks sy_tracker sy_rows sy_tick sy_failures]. rewrite lookup_insert_eq.
  destruct (task_step _ _ _ _ _) as [[new next] t']. by rewrite put_task_twice.
Qed.

Lemma runs_cons s a l : runs uuid s (a :: l) = runs uuid (exec uuid s a) l.
Proof. done. Qed.

Lemma runs_app s l k : runs uuid s (l ++ k) = runs uuid (runs uuid s l) k.
Proof. apply fold_left_app. Qed.

(** The last two steps: the recovery row is stored and the outage removed. *)
Lemma announce_alone incidents tasks rows tick failures n now c i j :
  incidents !! c = Some j -> di_id j = di_id i -> di_failure_during_recovery_at j = None ->
  exists tick' failures' flag,
    runs uuid (mkSys (mkTracker incidents true) (<[n := Announcing c i]> tasks) rows tick failures)
      [Run n now Stored; Run n now Stored]
    = mkSys (mkTracker (delete c incidents) flag) (delete n tasks) (rows ++ [recovery_row now c i]) tick' failures'.
Proof.
  intros Hj Hid Hn. rewrite runs_cons, run_step. cbn [task_step insert_error put_task].
  rewrite runs_cons, run_step. cbn [task_step put_task]. unfold finish_recovery. cbn [tr_incidents tr_has_incidents].
  rewrite Hj, Hid, String.eqb_refl, Hn, app_nil_r. do 3 eexists. reflexivity.
Qed.

(** C33. A recovered component is reported and closed: when a component has an
    outage that no earlier call has claimed (none is reporting its recovery, and
    none was dropped while it did), and a successful call of it runs on alone and
    the database stores what it is given, then the call ends, the outage is gone
    and the table has its failure event, unless it was there already, and its
    recovery event. *)
Theorem recovery_closes_the_outage l component i now :
  Forall action_ok l ->
  let s := runs uuid sys_new l in
  let c := component_key component in
  tr_incidents (sy_tracker s) !! c = Some i -> di_recovering i = false ->
  let s' := runs uuid s (Invoke (CallRecovered component) :: repeat (Run (sy_tick s) now Stored) 5) in
  tr_incidents (sy_tracker s') = delete c (tr_incidents (sy_tracker s))
  /\ sy_tasks s' = sy_tasks s
  /\ sy_rows s' = sy_rows s ++ (if di_persisted i then [] else [failure_row i]) ++ [recovery_row now c i]
  /\ failure_row i ∈ sy_rows s'.
Proof.
  intros Hl s c Hi Hr. pose proof (runs_inv uuid l Hl) as Hinv. fold s in Hinv.
  assert (numbered s) as Hnum by by apply runs_numbered.
  assert (sy_tasks s !! sy_tick s = None) as Hfresh.
  { destruct (sy_tasks s !! sy_tick s) eqn:E; [|done]. apply Hnum in E. lia. }
  assert (tr_has_incidents (sy_tracker s) = true) as Hflag.
  { apply not_false_is_true. intros Hx. apply (ti_flag _ Hinv) in Hx. by rewrite Hx in Hi. }
  destruct (ti_incidents _ Hinv c i Hi) as [_ _ _ Hpers].
  clearbody s. clear Hinv Hnum Hl. destruct s as [[incidents flag] tasks rows tick failures].
  cbn [sy_tracker sy_tasks sy_rows sy_tick tr_incidents tr_has_incidents] in *. subst flag.
  set (claimed := mkIncident (di_id i) (di_occurred_at i) (di_component i) (di_persisted i) true None).
  cbv zeta. cbn [repeat]. rewrite runs_cons. cbn [exec put_task task_of_call sy_tracker sy_tasks sy_rows sy_tick sy_failures].
  rewrite runs_cons, run_step. cbn [task_step tr_has_incidents negb put_task]. fold c.
  rewrite runs_cons, run_step. cbn [task_step]. unfold claim_recovery. cbn [tr_incidents tr_has_incidents].
  rewrite Hi, Hr. fold claimed. cbn [put_task]. change (di_persisted claimed) with (di_persisted i).
  destruct (di_persisted i) eqn:Ep.
  - change [Run tick now Stored; Run tick now Stored; Run tick now Stored]
      with ([Run tick now Stored; Run tick now Stored] ++ [Run tick now Stored]).
    rewrite runs_app.
    edestruct (announce_alone (<[c := claimed]> incidents) tasks) as (t' & f' & flag & ->);
      [apply lookup_insert_eq|done|done|].
    rewrite runs_cons. cbn [exec sy_tasks]. rewrite lookup_delete_eq. unfold runs. cbn [fold_left]. cbn [sy_tracker sy_tasks sy_rows tr_incidents].
    rewrite delete_insert_eq, (delete_id tasks), !app_nil_r by done. split_and!; [done|done|done|].
    apply elem_of_app. left. by apply Hpers.
  - rewrite runs_cons, run_step. cbn [task_step insert_error put_task].
    edestruct (announce_alone (<[c := claimed]> incidents) tasks) as (t' & f' & flag & ->);
      [apply lookup_insert_eq|done|done|].
    cbn [sy_tracker sy_tasks sy_rows tr_incidents]. rewrite delete_insert_eq, (delete_id tasks), !app_nil_r by done.
    split_and!; [done|done|by rewrite <- app_assoc|]. apply elem_of_app. left. apply elem_of_app. right. by left.
Qed.

(** ** Recoveries that are dropped *)

(** The outage of [c] is being recovered, but no call in flight is at it. *)
Definition orphaned (c id : string) (s : Sys) : Prop :=
  (exists i, tr_incidents (sy_tracker s) !! c = Some i /\ di_id i = id /\ di_recovering i = true)
  /\ forall n task id', sy_tasks s !! n = Some task -> owned task <> Some (c, id').

Lemma task_of_call_owns_nothing call task : task_of_call call = Some task -> owned task = None.
Proof. destruct call as [e|e|c e|c]; cbn; [by intros [= <-]..| |by intros [= <-]]. destruct (negb _); [done|by intros [= <-]]. Qed.

Lemma exec_orphaned c id s a : orphaned c id s -> orphaned c id (exec uuid s a).
Proof.
  intros [(i & Hi & Hid & Hr) Ho].
  destruct a as [call|n now outcome|n]; cbn [exec].
  - split; [by exists i|]. intros m task id' Hm. cbn in Hm. destruct (task_of_call call) as [t|] eqn:Et; cbn in Hm.
    + apply lookup_insert_Some in Hm as [[_ <-]|[_ Hm]]; [by rewrite (task_of_call_owns_nothing _ _ Et)|by eapply Ho].
    + apply lookup_delete_Some in Hm as [_ Hm]. by eapply Ho.
  - destruct (sy_tasks s !! n) as [task|] eqn:Hn; [|by split; [exists i|]].
    assert (forall next tr, (exists i, tr_incidents tr !! c = Some i /\ di_id i = id /\ di_recovering i = true) ->
      (forall t id', next = Some t -> owned t <> Some (c, id')) -> forall rows tick failures,
      orphaned c id (mkSys tr (put_task n next (sy_tasks s)) rows tick failures)) as Hstep.
    { intros next tr Htr Hnext rows tick failures. split; [done|]. intros m t id' Hm. cbn in Hm. destruct next as [t'|]; cbn in Hm.
      - apply lookup_insert_Some in Hm as [[_ <-]|[_ Hm]]; [by apply Hnext|by eapply Ho].
      - apply lookup_delete_Some in Hm as [_ Hm]. by eapply Ho. }
    assert (exists i, tr_incidents (sy_tracker s) !! c = Some i /\ di_id i = id /\ di_recovering i = true) as Hsame by by exists i.
    pose proof (fun id' => Ho n task id' Hn) as Hown.
    destruct task as [e|e|d|d|d|d j|d j|d id1 p|d id1]; cbn [task_step owned] in *; try (apply Hstep; [exact Hsame|]).
    + intros t id' Ht. destruct outcome as [|err|err]; cbn in Ht; [by injection Ht as <-|..];
        unfold after_failed_record in Ht; (destruct (is_connection_error err); [|done]); by injection Ht as <-.
    + intros t id' Ht. destruct outcome as [|err|err]; cbn in Ht; [done|..];
        unfold after_failed_record in Ht; (destruct (is_connection_error err); [|done]); by injection Ht as <-.
    + apply Hstep; [|done]. unfold remember_database_failure. destruct (decide (component_key d = c)) as [->|Hne].
      * rewrite Hi. destruct (_ && _); [|exact Hsame]. eexists. split; [apply lookup_insert_eq|done].
      * destruct (tr_incidents (sy_tracker s) !! component_key d); [destruct (_ && _)|]; cbn; rewrite ?lookup_insert_ne by done; exact Hsame.
    + intros t id' Ht. destruct (negb _); [done|]. by injection Ht as <-.
    + unfold claim_recovery. destruct (decide (d = c)) as [->|Hne].
      { rewrite Hi, Hr. by apply Hstep. }
      destruct (tr_incidents (sy_tracker s) !! d) as [k|]; [|by apply Hstep].
      destruct (di_recovering k); [by apply Hstep|]. apply Hstep.
      * cbn. rewrite lookup_insert_ne by done. exact Hsame.
      * intros t id' [= <-]. destruct (di_persisted _); cbn; congruence.
    + intros t id' [= <-]. destruct outcome; cbn; apply Hown.
    + intros t id' [= <-]. destruct outcome; cbn; apply Hown.
    + apply Hstep; [|done]. unfold release_database_recovery. assert (d <> c) as Hne by (intros ->; by apply (Hown id1)).
      destruct (tr_incidents (sy_tracker s) !! d); [destruct (_ =?s _)|]; cbn; rewrite ?lookup_insert_ne by done; exact Hsame.
    + apply Hstep; [|done]. unfold finish_recovery. assert (d <> c) as Hne by (intros ->; by apply (Hown id1)).
      destruct (tr_incidents (sy_tracker s) !! d) as [k|]; [destruct (_ =?s _); [destruct (di_failure_during_recovery_at k)|]|];
        cbn; rewrite ?lookup_insert_ne, ?lookup_delete_ne by done; exact Hsame.
  - split; [by exists i|]. intros m task id' Hm. cbn in Hm. apply lookup_delete_Some in Hm as [_ Hm]. by eapply Ho.
Qed.

(** An outage whose recovery was dropped, for example because the client of
    the request that ran it disconnected, is never closed: however often the
    component works again, its outage stays as it is. *)
Theorem dropped_recovery_is_never_closed c id s l :
  orphaned c id s -> exists i, tr_incidents (sy_tracker (runs uuid s l)) !! c = Some i /\ di_id i = id /\ di_recovering i = true.
Proof.
  intros Ho. enough (orphaned c id (runs uuid s l)) as [Hx _] by exact Hx.
  revert s Ho. induction l as [|a l IH]; intros s Ho; [done|]. cbn. by apply IH, exec_orphaned.
Qed.

(** ** At most once *)

(** No insert fails after it stored its row. *)
Definition unambiguous (a : Action) : Prop := match a with Run _ _ (Unknown _) => False | _ => True end.

Definition about_database (r : SystemEvent) : Prop := se_event_type r = DB_FAILED \/ se_event_type r = DB_RECOVERED.

Definition no_row (type id : string) (rows : list SystemEvent) : Prop :=
  forall r, r ∈ rows -> se_event_type r = type -> se_correlation_id r <> Some id.

(** What the calls at an outage have not stored yet. *)
Definition task_once (rows : list SystemEvent) (task : Task) : Prop :=
  match task with
  | Reporting _ i => no_row DB_FAILED (di_id i) rows /\ no_row DB_RECOVERED (di_id i) rows
  | Announcing _ i => no_row DB_RECOVERED (di_id i) rows /\ di_persisted i = true
  | Releasing _ id persisted => no_row DB_RECOVERED id rows /\ (persisted = false -> no_row DB_FAILED id rows)
  | _ => True
  end.

Record once_inv (s : Sys) : Prop := {
  on_ids : forall c i, tr_incidents (sy_tracker s) !! c = Some i -> exists k, (k < sy_tick s)%nat /\ di_id i = uuid k;
  on_distinct : forall c d i j, tr_incidents (sy_tracker s) !! c = Some i -> tr_incidents (sy_tracker s) !! d = Some j ->
    di_id i = di_id j -> c = d;
  on_rows : forall r, r ∈ sy_rows s -> about_database r -> exists k, (k < sy_tick s)%nat /\ se_correlation_id r = Some (uuid k);
  on_idle : forall c i, tr_incidents (sy_tracker s) !! c = Some i -> di_recovering i = false ->
    no_row DB_RECOVERED (di_id i) (sy_rows s) /\ (di_persisted i = false -> no_row DB_FAILED (di_id i) (sy_rows s));
  on_tasks : forall n task, sy_tasks s !! n = Some task -> task_once (sy_rows s) task;
  on_once : forall j k r r', sy_rows s !! j = Some r -> sy_rows s !! k = Some r' -> about_database r ->
    se_event_type r' = se_event_type r -> se_correlation_id r' = se_correlation_id r -> j = k;
}.

Lemma no_row_app type id rows new :
  no_row type id rows -> (forall r, r ∈ new -> se_event_type r = type -> se_correlation_id r <> Some id) ->
  no_row type id (rows ++ new).
Proof. intros Ho Hn r [Hr|Hr]%elem_of_app; [by apply Ho|by apply Hn]. Qed.

(** What a step has to show. *)
Lemma once_step s n task rows next t failures :
  once_inv s -> sy_tasks s !! n = Some task ->
  (forall c i, tr_incidents t !! c = Some i -> exists k, (k < S (sy_tick s))%nat /\ di_id i = uuid k) ->
  (forall c d i j, tr_incidents t !! c = Some i -> tr_incidents t !! d = Some j -> di_id i = di_id j -> c = d) ->
  (rows = [] \/ exists r, rows = [r] /\ (about_database r -> exists k, (k < sy_tick s)%nat
      /\ se_correlation_id r = Some (uuid k) /\ no_row (se_event_type r) (uuid k) (sy_rows s))) ->
  (forall c i, tr_incidents t !! c = Some i -> di_recovering i = false ->
    no_row DB_RECOVERED (di_id i) (sy_rows s ++ rows) /\ (di_persisted i = false -> no_row DB_FAILED (di_id i) (sy_rows s ++ rows))) ->
  (forall m task', m <> n -> sy_tasks s !! m = Some task' -> task_once (sy_rows s ++ rows) task') ->
  (forall task', next = Some task' -> task_once (sy_rows s ++ rows) task') ->
  once_inv (mkSys t (put_task n next (sy_tasks s)) (sy_rows s ++ rows) (S (sy_tick s)) failures).
Proof.
  intros Hinv Hn Hids Hdist Hrows Hidle Hothers Hnext. constructor; cbn; [exact Hids|exact Hdist| |exact Hidle| |].
  - intros r [Hr|Hr]%elem_of_app Ha.
    + destruct (on_rows s Hinv r Hr Ha) as (k & Hk & Hc). exists k. split; [lia|done].
    + destruct Hrows as [->|(x & -> & Hx)]; [by apply not_elem_of_nil in Hr|]. apply list_elem_of_singleton in Hr as ->.
      destruct (Hx Ha) as (k & Hk & Hc & _). exists k. split; [lia|done].
  - intros m task' Hm. destruct next as [tn|]; cbn in Hm.
    + apply lookup_insert_Some in Hm as [[_ <-]|[Hne Hm]]; [by apply Hnext|by eapply Hothers].
    + apply lookup_delete_Some in Hm as [Hne Hm]. by eapply Hothers.
  - destruct Hrows as [->|(x & -> & Hx)]; [rewrite app_nil_r; apply (on_once s Hinv)|].
    assert (forall j r, sy_rows s !! j = Some r -> about_database x -> se_event_type r = se_event_type x ->
      se_correlation_id r <> se_correlation_id x) as Hnew.
    { intros j r Hj Ha Ht. destruct (Hx Ha) as (k & _ & -> & Hno). apply (Hno r); [by eapply list_elem_of_lookup_2|done]. }
    intros j k r r' Hj Hk Ha Ht Hc. apply lookup_snoc_Some in Hj as [[Hj Hj']|[-> <-]], Hk as [[Hk Hk']|[-> <-]];
      [by eapply (on_once s Hinv)| | |done]; exfalso.
    + apply (Hnew j r Hj'); [unfold about_database in *; by rewrite Ht|done|done].
    + by apply (Hnew k r' Hk').
Qed.

(** The first [N] ids are distinct and stored as they are. *)
Context (N : nat) (uuid_inj : forall j k, (j < N)%nat -> (k < N)%nat -> uuid j = uuid k -> j = k)
  (uuid_plain : forall k, (k < N)%nat -> (fun v => safe_text v 256 "unknown") <$> non_empty (uuid k) = Some (uuid k)).

(** Other calls and other outages are not concerned by a row about outage
    [id]. *)
Lemma others_once s n task c id r : tracker_inv s -> once_inv s -> sy_tasks s !! n = Some task -> owned task = Some (c, id) ->
  se_correlation_id r = Some id ->
  (forall m task', m <> n -> sy_tasks s !! m = Some task' -> task_once (sy_rows s ++ [r]) task')
  /\ (forall d i, tr_incidents (sy_tracker s) !! d = Some i -> di_recovering i = false ->
        no_row DB_RECOVERED (di_id i) (sy_rows s ++ [r]) /\ (di_persisted i = false -> no_row DB_FAILED (di_id i) (sy_rows s ++ [r]))).
Proof.
  intros Hinv Honce Hn Ho Hr.
  destruct (owner_recovering _ _ _ _ _ (ti_tasks s Hinv n task Hn) Ho) as (j & Hj & Hid & Hrec).
  assert (forall type id', id' <> id -> no_row type id' (sy_rows s) -> no_row type id' (sy_rows s ++ [r])) as Hmore.
  { intros type id' Hne Hno. apply no_row_app; [done|]. intros x ->%list_elem_of_singleton _. rewrite Hr. congruence. }
  split.
  - intros m task' Hne Hm. pose proof (on_tasks s Honce m task' Hm) as Hok.
    assert (forall d id', owned task' = Some (d, id') -> id' <> id) as Hdiff.
    { intros d id' Ho' ->. destruct (owner_recovering _ _ _ _ _ (ti_tasks s Hinv m task' Hm) Ho') as (j' & Hj' & Hid' & _).
      assert (c = d) as -> by (eapply (on_distinct s Honce); [done|done|congruence]).
      apply Hne. by eapply (ti_owners s Hinv). }
    destruct task' as [e|e|d|d|d|d k|d k|d id' p|d id']; cbn in *; try done; specialize (Hdiff d _ eq_refl).
    + destruct Hok. split; by apply Hmore.
    + destruct Hok. split; [by apply Hmore|done].
    + destruct Hok as [H1 H2]. split; [by apply Hmore|]. intros Hp. by apply Hmore, H2.
  - intros d i Hi Hrf. destruct (on_idle s Honce d i Hi Hrf) as [H1 H2].
    assert (di_id i <> id) as Hne.
    { intros Hx. assert (c = d) as -> by (eapply (on_distinct s Honce); [done|done|congruence]). congruence. }
    split; [by apply Hmore|]. intros Hp. by apply Hmore, H2.
Qed.

(** Rows of other callers concern no outage. *)
Lemma foreign_once event outcome : foreign event -> forall r, r ∈ insert_event event outcome -> ~ about_database r.
Proof. intros [Hf Hr] r ->%insert_event_in [Ht|Ht]; [by apply Hf|by apply Hr]. Qed.

Lemma failure_correlation i k : (k < N)%nat -> di_id i = uuid k ->
  se_event_type (failure_row i) = DB_FAILED /\ se_correlation_id (failure_row i) = Some (uuid k).
Proof. intros Hk Hi. split; [reflexivity|]. rewrite <- (uuid_plain k Hk), <- Hi. reflexivity. Qed.

Lemma recovery_correlation now c i k : (k < N)%nat -> di_id i = uuid k ->
  se_event_type (recovery_row now c i) = DB_RECOVERED /\ se_correlation_id (recovery_row now c i) = Some (uuid k).
Proof. intros Hk Hi. split; [reflexivity|]. rewrite <- (uuid_plain k Hk), <- Hi. reflexivity. Qed.

(** A new outage has an id no row has. *)
Lemma fresh_no_row s type : (sy_tick s < N)%nat -> once_inv s -> type = DB_FAILED \/ type = DB_RECOVERED ->
  no_row type (uuid (sy_tick s)) (sy_rows s).
Proof.
  intros HN Honce Ht r Hr Hrt Hc. destruct (on_rows s Honce r Hr) as (k & Hk & Hx).
  { unfold about_database. rewrite Hrt. destruct Ht as [->| ->]; auto. }
  rewrite Hc in Hx. injection Hx as Hx. apply uuid_inj in Hx; lia.
Qed.

Section Exec.
Context (s : Sys) (Hinv : tracker_inv s) (Honce : once_inv s).

Lemma ids_later t : (forall c i, tr_incidents t !! c = Some i ->
    (exists j, tr_incidents (sy_tracker s) !! c = Some j /\ di_id i = di_id j) \/ di_id i = uuid (sy_tick s)) ->
  (forall c i, tr_incidents t !! c = Some i -> exists k, (k < S (sy_tick s))%nat /\ di_id i = uuid k).
Proof.
  intros Ht c i Hi. destruct (Ht c i Hi) as [(j & Hj & ->)|Hk]; [|exists (sy_tick s); split; [lia|done]].
  destruct (on_ids s Honce c j Hj) as (k & Hk & ->). exists k. split; [lia|done].
Qed.

(** A step at [c] that keeps the id of its outage, gives it a new one or
    closes it. *)
Lemma once_at n task c t rest failures : (sy_tick s < N)%nat ->
  sy_tasks s !! n = Some task ->
  (forall d, d <> c -> tr_incidents t !! d = tr_incidents (sy_tracker s) !! d) ->
  (forall i, tr_incidents t !! c = Some i ->
    ((exists j, tr_incidents (sy_tracker s) !! c = Some j /\ di_id i = di_id j) \/ di_id i = uuid (sy_tick s))
    /\ (di_recovering i = false -> no_row DB_RECOVERED (di_id i) (sy_rows s)
          /\ (di_persisted i = false -> no_row DB_FAILED (di_id i) (sy_rows s)))) ->
  (forall task', rest = Some task' -> task_once (sy_rows s) task') ->
  once_inv (mkSys t (put_task n rest (sy_tasks s)) (sy_rows s ++ []) (S (sy_tick s)) failures).
Proof.
  intros HN Hn Hd Hc Hrest. eapply once_step; [exact Honce|exact Hn|..]; rewrite ?app_nil_r.
  - apply ids_later. intros d i Hi. destruct (decide (d = c)) as [->|Hne]; [by apply Hc|].
    rewrite Hd in Hi by done. left. by exists i.
  - assert (forall d i j, d <> c -> tr_incidents t !! d = Some i -> tr_incidents t !! c = Some j -> di_id i <> di_id j) as Hx.
    { intros d i j Hne Hi Hj Hid. rewrite Hd in Hi by done. destruct (proj1 (Hc j Hj)) as [(j' & Hj' & Hid')|Hk].
      - apply Hne. apply (on_distinct s Honce d c i j'); [done|done|congruence].
      - destruct (on_ids s Honce d i Hi) as (k & Hk' & Hik). rewrite Hik, Hk in Hid. apply uuid_inj in Hid; lia. }
    intros d e i j Hi Hj Hid. destruct (decide (d = c)) as [->|Hdc], (decide (e = c)) as [->|Hec]; [done| | |].
    + exfalso. eapply (Hx e j i); [done..|by rewrite Hid].
    + exfalso. by eapply (Hx d i j).
    + rewrite Hd in Hi, Hj by done. by eapply (on_distinct s Honce).
  - by left.
  - intros d i Hi Hr. destruct (decide (d = c)) as [->|Hne]; [by apply Hc|]. rewrite Hd in Hi by done. by eapply (on_idle s Honce).
  - intros m task' _ Hm. by eapply (on_tasks s Honce).
  - exact Hrest.
Qed.

(** A step that leaves the tracker alone and stores nothing about the
    database. *)
Lemma once_same n task rows rest failures :
  sy_tasks s !! n = Some task -> (rows = [] \/ exists r, rows = [r]) -> (forall r, r ∈ rows -> ~ about_database r) ->
  (forall task', rest = Some task' -> task_once (sy_rows s ++ rows) task') ->
  once_inv (mkSys (sy_tracker s) (put_task n rest (sy_tasks s)) (sy_rows s ++ rows) (S (sy_tick s)) failures).
Proof.
  intros Hn Hone Hrows Hrest.
  assert (forall type id, type = DB_FAILED \/ type = DB_RECOVERED -> no_row type id (sy_rows s) -> no_row type id (sy_rows s ++ rows)) as Hmore.
  { intros type id Ht Hno. apply no_row_app; [done|]. intros r Hr Hrt. destruct (Hrows r Hr). unfold about_database. rewrite Hrt.
    destruct Ht as [->| ->]; auto. }
  eapply once_step; [exact Honce|exact Hn| |apply (on_distinct s Honce)| | | |exact Hrest].
  - apply ids_later. intros c i Hi. left. by exists i.
  - destruct Hone as [->|[r ->]]; [by left|]. right. exists r. split; [done|]. intros Ha. destruct (Hrows r); [by left|done].
  - intros c i Hi Hr. destruct (on_idle s Honce c i Hi Hr) as [H1 H2].
    split; [apply Hmore; [by right|done]|]. intros Hp. apply Hmore; [by left|by apply H2].
  - intros m task' _ Hm. pose proof (on_tasks s Honce m task' Hm) as Hok.
    destruct task' as [e|e|d|d|d|d k|d k|d id' p|d id']; cbn in *; try done.
    + destruct Hok. split; apply Hmore; auto.
    + destruct Hok. split; [apply Hmore; auto|done].
    + destruct Hok as [H1 H2]. split; [apply Hmore; auto|]. intros Hp. apply Hmore; auto.
Qed.

(** A step of the owner of an outage that tries to store a row about it. *)
Lemma once_report n task c id k r outcome rest failures :
  sy_tasks s !! n = Some task -> owned task = Some (c, id) -> id = uuid k -> (k < sy_tick s)%nat ->
  se_correlation_id r = Some id -> no_row (se_event_type r) id (sy_rows s) ->
  (forall error, outcome <> Unknown error) ->
  (forall task', rest = Some task' -> task_once (sy_rows s ++ (if written outcome then [r] else [])) task') ->
  once_inv (mkSys (sy_tracker s) (put_task n rest (sy_tasks s)) (sy_rows s ++ (if written outcome then [r] else []))
    (S (sy_tick s)) failures).
Proof.
  intros Hn Ho Hid Hk Hr Hno Hu Hrest. destruct outcome as [|error|error]; cbn [written] in *; [| |by destruct (Hu error)].
  - destruct (others_once s n task c id r Hinv Honce Hn Ho Hr) as [Hothers Hidle].
    eapply once_step; [exact Honce|exact Hn| |apply (on_distinct s Honce)| |exact Hidle|exact Hothers|exact Hrest].
    + apply ids_later. intros d i Hi. left. by exists i.
    + right. exists r. split; [done|]. intros _. exists k. by rewrite <- Hid.
  - eapply once_same; [exact Hn|by left|by intros x ?%not_elem_of_nil|exact Hrest].
Qed.
End Exec.

(** The id of the outage a call is at. *)
Lemma owner_id s n task c id : tracker_inv s -> once_inv s -> sy_tasks s !! n = Some task -> owned task = Some (c, id) ->
  exists k, (k < sy_tick s)%nat /\ id = uuid k.
Proof.
  intros Hinv Honce Hn Ho. destruct (owner_recovering _ _ _ _ _ (ti_tasks s Hinv n task Hn) Ho) as (j & Hj & <- & _).
  by eapply (on_ids s Honce).
Qed.

Lemma insert_event_one event outcome : insert_event event outcome = [] \/ exists r, insert_event event outcome = [r].
Proof. unfold insert_event. destruct (written outcome); [right; by eexists|by left]. Qed.

Lemma recorded_once s n task event outcome rest failures : tracker_inv s -> once_inv s -> sy_tasks s !! n = Some task ->
  foreign event -> (forall task', rest = Some task' -> owned task' = None) ->
  once_inv (mkSys (sy_tracker s) (put_task n rest (sy_tasks s)) (sy_rows s ++ insert_event event outcome) (S (sy_tick s)) failures).
Proof.
  intros Hinv Honce Hn Hf Hrest. eapply once_same; [exact Honce|exact Hn|apply insert_event_one|by apply foreign_once|].
  intros task' Ht. specialize (Hrest task' Ht). by destruct task'.
Qed.

Lemma remembered_once s n c now failures : (sy_tick s < N)%nat -> once_inv s -> sy_tasks s !! n = Some (Remembering c) ->
  once_inv (mkSys (remember_database_failure (uuid (sy_tick s)) now c (sy_tracker s)) (put_task n None (sy_tasks s))
    (sy_rows s ++ []) (S (sy_tick s)) failures).
Proof.
  intros HN Honce Hn. apply (once_at s Honce n _ (component_key c) _ _ _ HN Hn); [| |done]; unfold remember_database_failure.
  - intros d Hd. destruct (tr_incidents (sy_tracker s) !! component_key c); [destruct (_ && _)|]; cbn; by rewrite ?lookup_insert_ne.
  - intros j. destruct (tr_incidents (sy_tracker s) !! component_key c) as [i|] eqn:Ei; [destruct (_ && _) eqn:Eb|]; cbn.
    + rewrite lookup_insert_eq. intros [= <-]. cbn. split; [left; by exists i|]. intros Hr. by rewrite Hr in Eb.
    + rewrite Ei. intros [= <-]. split; [left; by exists i|]. by apply (on_idle s Honce (component_key c)).
    + rewrite lookup_insert_eq. intros [= <-]. cbn. split; [by right|]. intros _.
      split; [|intros _]; apply fresh_no_row; auto.
Qed.

Lemma claimed_once s n c claimed t failures : (sy_tick s < N)%nat -> once_inv s -> sy_tasks s !! n = Some (Claiming c) ->
  claim_recovery c (sy_tracker s) = (claimed, t) ->
  once_inv (mkSys t (put_task n (match claimed with
                                 | Some i => Some (if di_persisted i then Announcing c i else Reporting c i)
                                 | None => None end) (sy_tasks s)) (sy_rows s ++ []) (S (sy_tick s)) failures).
Proof.
  intros HN Honce Hn Hc. unfold claim_recovery in Hc.
  assert (forall failures, once_inv (mkSys (sy_tracker s) (put_task n None (sy_tasks s)) (sy_rows s ++ []) (S (sy_tick s)) failures))
    as Hsame by (intros f; eapply once_same; [exact Honce|exact Hn|by left|by intros x ?%not_elem_of_nil|done]).
  destruct (tr_incidents (sy_tracker s) !! c) as [i|] eqn:Ei; [|by injection Hc as <- <-].
  destruct (di_recovering i) eqn:Er; injection Hc as <- <-; [done|].
  destruct (on_idle s Honce c i Ei Er) as [H1 H2].
  apply (once_at s Honce n _ c _ _ _ HN Hn); cbn [tr_incidents].
  - intros d Hd. by rewrite lookup_insert_ne.
  - intros j. rewrite lookup_insert_eq. intros [= <-]. cbn. split; [left; by exists i|done].
  - intros task' [= <-]. cbn [di_persisted]. destruct (di_persisted i) eqn:Ep; cbn; [done|]. split; [by apply H2|done].
Qed.

Lemma released_once s n c id persisted failures : (sy_tick s < N)%nat -> tracker_inv s -> once_inv s -> sy_tasks s !! n = Some (Releasing c id persisted) ->
  once_inv (mkSys (release_database_recovery c id persisted (sy_tracker s)) (put_task n None (sy_tasks s))
    (sy_rows s ++ []) (S (sy_tick s)) failures).
Proof.
  intros HN Hinv Honce Hn. destruct (ti_tasks s Hinv n _ Hn) as (i & Hi & Hid & Hr & _).
  destruct (on_tasks s Honce n _ Hn) as [H1 H2].
  apply (once_at s Honce n _ c _ _ _ HN Hn); [| |done]; unfold release_database_recovery; rewrite Hi, Hid, String.eqb_refl;
    cbn [tr_incidents].
  - intros d Hd. by rewrite lookup_insert_ne.
  - intros j. rewrite lookup_insert_eq. intros [= <-]. cbn. split; [left; by exists i|]. intros _. split; [done|].
    intros [_ Hp]%orb_false_elim. by apply H2.
Qed.

Lemma finished_once s n c id failures : (sy_tick s < N)%nat -> tracker_inv s -> once_inv s -> sy_tasks s !! n = Some (Finishing c id) ->
  once_inv (mkSys (finish_recovery c id (uuid (sy_tick s)) (sy_tracker s)) (put_task n None (sy_tasks s))
    (sy_rows s ++ []) (S (sy_tick s)) failures).
Proof.
  intros HN Hinv Honce Hn. destruct (ti_tasks s Hinv n _ Hn) as (i & Hi & Hid & Hr).
  apply (once_at s Honce n _ c _ _ _ HN Hn); [| |done]; unfold finish_recovery; rewrite Hi, Hid, String.eqb_refl;
    destruct (di_failure_during_recovery_at i) as [at_|]; cbn [tr_incidents].
  - intros d Hd. by rewrite lookup_insert_ne.
  - intros d Hd. by rewrite lookup_delete_ne.
  - intros j. rewrite lookup_insert_eq. intros [= <-]. cbn. split; [by right|]. intros _.
    split; [|intros _]; apply fresh_no_row; auto.
  - intros j. by rewrite lookup_delete_eq.
Qed.

Lemma exec_once s a : (sy_tick s < N)%nat -> action_ok a -> unambiguous a -> tracker_inv s -> once_inv s -> once_inv (exec uuid s a).
Proof.
  intros HN Ha Hu Hinv Honce. destruct a as [call|n now outcome|n]; cbn [exec].
  - constructor; cbn; [|apply (on_distinct s Honce)| |apply (on_idle s Honce)| |apply (on_once s Honce)].
    + intros c i Hi. destruct (on_ids s Honce c i Hi) as (k & Hk & Hx). exists k. split; [lia|done].
    + intros r Hr Hx. destruct (on_rows s Honce r Hr Hx) as (k & Hk & Hy). exists k. split; [lia|done].
    + intros n task Hn. destruct (task_of_call call) as [t|] eqn:Et; cbn in Hn.
      * apply lookup_insert_Some in Hn as [[_ <-]|[_ Hn]]; [|by eapply (on_tasks s Honce)].
        pose proof (task_of_call_owns_nothing _ _ Et). by destruct t.
      * apply lookup_delete_Some in Hn as [_ Hn]. by eapply (on_tasks s Honce).
  - destruct (sy_tasks s !! n) as [task|] eqn:Hn; [|done]. pose proof (ti_tasks s Hinv n task Hn) as Hok.
    pose proof (on_tasks s Honce n task Hn) as Ht.
    assert (forall error, outcome <> Unknown error) as Hou by (intros error ->; done).
    destruct task as [e|e|c|c|c|c i|c i|c id p|c id]; cbn [task_step seen_failure].
    + eapply recorded_once; [done|done|exact Hn|done|]. intros task' Hx. destruct outcome as [|err|err]; cbn in Hx; [by injection Hx as <-|..];
        unfold after_failed_record in Hx; (destruct (is_connection_error err); [|done]); by injection Hx as <-.
    + eapply recorded_once; [done|done|exact Hn|done|]. intros task' Hx. destruct outcome as [|err|err]; cbn in Hx; [done|..];
        unfold after_failed_record in Hx; (destruct (is_connection_error err); [|done]); by injection Hx as <-.
    + by apply remembered_once.
    + eapply once_same; [exact Honce|exact Hn|by left|by intros x ?%not_elem_of_nil|]. intros task' Hx.
      destruct (negb _); [done|]. by injection Hx as <-.
    + destruct (claim_recovery c (sy_tracker s)) as [claimed t] eqn:Ec. by apply claimed_once.
    + destruct (owner_id s n _ c _ Hinv Honce Hn eq_refl) as (k & Hk & Hid).
      destruct (failure_correlation i k ltac:(lia) Hid) as [Htype Hcorr]. unfold insert_event. fold (failure_row i).
      eapply once_report; [done|done|exact Hn|reflexivity|exact Hid|done|by rewrite Hcorr, Hid| |done|].
      * rewrite Htype. apply Ht.
      * destruct Ht as [H1 H2]. intros task' [= <-]. destruct outcome as [|err|err]; cbn; [| |by destruct (Hou err)].
        -- split; [|done]. apply no_row_app; [done|]. intros r ->%list_elem_of_singleton. by rewrite Htype.
        -- rewrite app_nil_r. by split.
    + destruct (owner_id s n _ c _ Hinv Honce Hn eq_refl) as (k & Hk & Hid).
      destruct (recovery_correlation now c i k ltac:(lia) Hid) as [Htype Hcorr]. unfold insert_event. fold (recovery_row now c i).
      eapply once_report; [done|done|exact Hn|reflexivity|exact Hid|done|by rewrite Hcorr, Hid| |done|].
      * rewrite Htype. apply (proj1 Ht).
      * intros task' [= <-]. destruct outcome as [|err|err]; cbn; [done| |by destruct (Hou err)].
        rewrite app_nil_r. destruct Ht as [Ht ->]. by split.
    + by apply released_once.
    + by apply finished_once.
  - constructor; cbn; [apply (on_ids s Honce)|apply (on_distinct s Honce)|apply (on_rows s Honce)|apply (on_idle s Honce)| |apply (on_once s Honce)].
    intros m task [_ Hm]%lookup_delete_Some. by eapply (on_tasks s Honce).
Qed.

Lemma sys_new_once : once_inv sys_new.
Proof. constructor; cbn; try done; by intros r ?%not_elem_of_nil. Qed.

Lemma exec_tick s a : (sy_tick s <= sy_tick (exec uuid s a) <= S (sy_tick s))%nat.
Proof.
  destruct a as [call|n now outcome|n]; cbn; try lia. destruct (sy_tasks s !! n) as [task|]; [|lia].
  destruct (task_step _ _ _ _ _) as [[rows next] t]. cbn. lia.
Qed.

Lemma runs_once l : (length l <= N)%nat -> Forall action_ok l -> Forall unambiguous l -> once_inv (runs uuid sys_new l).
Proof.
  intros Hlen Ha Hu. enough (forall s, (sy_tick s + length l <= N)%nat -> tracker_inv s -> once_inv s -> once_inv (runs uuid s l)) as Hx
    by (apply Hx; [exact Hlen|apply sys_new_inv|apply sys_new_once]).
  clear Hlen. induction l as [|a l IH]; intros s Hlen Hs Ho; [done|].
  apply Forall_cons in Ha as [Ha Hl]. apply Forall_cons in Hu as [Hu Hul]. cbn in Hlen.
  cbn. pose proof (exec_tick s a). apply IH; [done|done|lia|by apply exec_inv|apply exec_once; [lia|done..]].
Qed.
End Ends.

Section Once.
Context `{UrlCrates} `{UrlEdit} (uuid : nat -> string).

(** No outage is reported twice: when a failed insert has stored nothing,
    the table has at most one failure event and at most one recovery event with
    the id of an outage, whatever calls run concurrently, are refused by the
    database, repeated or dropped. *)
Theorem outages_are_reported_once l j k r r' :
  (forall m n, (m < length l)%nat -> (n < length l)%nat -> uuid m = uuid n -> m = n) ->
  (forall n, (n < length l)%nat -> (fun v => safe_text v 256 "unknown") <$> non_empty (uuid n) = Some (uuid n)) ->
  Forall action_ok l -> Forall unambiguous l ->
  sy_rows (runs uuid sys_new l) !! j = Some r -> sy_rows (runs uuid sys_new l) !! k = Some r' ->
  about_database r -> se_event_type r' = se_event_type r -> se_correlation_id r' = se_correlation_id r -> j = k.
Proof. intros Hinj Hplain Ha Hu. by eapply on_once, runs_once. Qed.
End Once.

(** ** Examples *)

Definition example_uuid (n : nat) : string := "0d1f-" +:+ dec (Z.of_nat n).

Definition usage_fails : list Action := [Invoke (CallFailed "usage.read" DbIo); Run 0 1000 Stored].
Definition usage_recovers : list Action :=
  Invoke (CallRecovered "usage.read") :: repeat (Run 2 5000 Stored) 5.
(** The failure event is refused once, so the outage is reported by the second
    successful call. *)
Definition usage_recovers_late : list Action :=
  Invoke (CallRecovered "usage.read") :: repeat (Run 2 2000 (Refused DbPoolTimedOut)) 4
  ++ Invoke (CallRecovered "usage.read") :: repeat (Run 7 5000 Stored) 5.

Abbreviation example_runs := (@runs example_urls example_edit example_uuid sys_new).
Definition example_outage : DatabaseIncident := new_database_incident (example_uuid 1) "usage.read" 1000.
Abbreviation example_failure := (@failure_row example_urls example_edit example_outage).
Abbreviation example_recovery := (@recovery_row example_urls example_edit 5000 "usage.read" example_outage).

Lemma usage_actions_ok : Forall (@action_ok example_urls example_edit) (usage_fails ++ usage_recovers_late)
  /\ Forall unambiguous (usage_fails ++ usage_recovers_late).
Proof. split; repeat constructor. Qed.

Lemma outages_are_reported_in_pairs_witness :
  sy_rows (example_runs (usage_fails ++ usage_recovers_late)) = [example_failure; example_recovery]
  /\ exists i now, example_recovery = @recovery_row example_urls example_edit now (di_component i) i
       /\ @failure_row example_urls example_edit i ∈ [example_failure].
Proof.
  assert (sy_rows (example_runs (usage_fails ++ usage_recovers_late)) = [example_failure; example_recovery]) as Hrows
    by (vm_compute; reflexivity).
  split; [exact Hrows|].
  destruct (proj2 (@outages_are_reported_in_pairs example_urls example_edit example_uuid (usage_fails ++ usage_recovers_late)
    (proj1 usage_actions_ok)) [example_failure] example_recovery [] Hrows eq_refl) as (i & now & H1 & H2 & _).
  exists i, now. split; [exact H1|exact H2].
Defined.

Lemma failures_are_not_forgotten_witness :
  is_Some (tr_incidents (sy_tracker (@runs example_urls example_edit example_uuid
    (@exec example_urls example_edit example_uuid (example_runs [Invoke (CallFailed "usage.read" DbIo)]) (Run 0 1000 Stored))
    [Invoke (CallRecovered "health.read"); Run 2 1500 Stored])) !! component_key "usage.read").
Proof.
  refine (proj1 (@failures_are_not_forgotten example_urls example_edit example_uuid
    [Invoke (CallFailed "usage.read" DbIo)] 0 1000 Stored "usage.read"
    [Invoke (CallRecovered "health.read"); Run 2 1500 Stored] _ _ _ _)).
  - repeat constructor.
  - repeat constructor.
  - vm_compute. reflexivity.
  - split; [vm_compute; reflexivity|]. split; [vm_compute; reflexivity|exact I].
Defined.

Lemma recovery_closes_the_outage_witness :
  sy_rows (@runs example_urls example_edit example_uuid (example_runs usage_fails)
    (Invoke (CallRecovered "usage.read") :: repeat (Run 2 5000 Stored) 5)) = [example_failure; example_recovery].
Proof.
  refine (proj1 (proj2 (proj2 (@recovery_closes_the_outage example_urls example_edit example_uuid usage_fails "usage.read"
    example_outage 5000 _ _ eq_refl)))).
  - repeat constructor.
  - vm_compute. reflexivity.
Defined.

Lemma outages_are_reported_once_witness :
  sy_rows (example_runs (usage_fails ++ usage_recovers_late)) !! 1%nat = Some example_recovery
  /\ ~ (exists k r', k <> 1%nat /\ sy_rows (example_runs (usage_fails ++ usage_recovers_late)) !! k = Some r'
        /\ se_event_type r' = DB_RECOVERED /\ se_correlation_id r' = se_correlation_id example_recovery).
Proof.
  assert (sy_rows (example_runs (usage_fails ++ usage_recovers_late)) !! 1%nat = Some example_recovery) as Hrow
    by (vm_compute; reflexivity).
  split; [exact Hrow|]. intros (k & r' & Hk & Hr' & Ht & Hc). apply Hk. symmetry.
  refine (@outages_are_reported_once example_urls example_edit example_uuid (usage_fails ++ usage_recovers_late) 1 k
    example_recovery r' _ _ (proj1 usage_actions_ok) (proj2 usage_actions_ok) Hrow Hr' (or_intror eq_refl) Ht Hc).
  - intros m n _ _ Hmn. apply (inj (String.append "0d1f-")) in Hmn. unfold dec in Hmn.
    apply (inj pretty) in Hmn. by apply Nat2Z.inj.
  - intros n Hn. change (length (usage_fails ++ usage_recovers_late)) with 13%nat in Hn.
    do 13 (destruct n as [|n]; [vm_compute; reflexivity|]). exfalso. lia.
Defined.

(** The client of a request disconnects while the request reports a recovery. *)
Definition disconnected : Sys :=
  example_runs (usage_fails ++ [Invoke (CallRecovered "usage.read"); Run 2 2000 Stored; Run 2 2000 Stored; Cancel 2]).

Example disconnect_orphans_the_outage :
  orphaned "usage.read" (example_uuid 1) disconnected
  /\ tr_incidents (sy_tracker (@runs example_urls example_edit example_uuid disconnected
       (Invoke (CallRecovered "usage.read") :: repeat (Run 5 9000 Stored) 5)))
     = tr_incidents (sy_tracker disconnected).
Proof.
  split; [split|vm_compute; reflexivity].
  - eexists. split; [vm_compute; reflexivity|]. split; vm_compute; reflexivity.
  - assert (sy_tasks disconnected = ∅) as -> by (vm_compute; reflexivity). intros n task id'. by rewrite lookup_empty.
Qed.
