(* ===== verification/Ops.v ===== *)
(** * Statements of an operational job

    The jobs of [src/src/infra/ops.rs] run on the live database: every
    statement outside a transaction, and every transaction, commits on its own,
    and other clients may commit between any two of them.  [Om] is the monad of
    such a job over a database [D].  The class [OpsEnv] gives, for the [n]-th
    step of the job, the clock, a fresh identifier, what the other clients
    committed since the step before ([op_others]) and whether the database
    reports a failure ([op_fault]); a failed step changes nothing of its own.

    [keeps R m]: the job [m] relates the tables before and after by [R],
    whatever its outcome, when the other clients respect [R].  The lemmas
    [keeps_*] decompose a job into its steps. *)

From Stdlib Require Import ZArith Lia.
From stdpp Require Import base list strings.
From S2P Require Import Prelude.
From S2P Require Import Redaction.
From S2P Require Import Tx.

Class OpsEnv (D : Type) : Type := {
  op_now : nat -> Z;                 (** [Utc::now()] and [clock_timestamp()] *)
  op_uuid : nat -> string;           (** [Uuid::new_v4] *)
  op_others : nat -> D -> D;
  op_fault : nat -> option string;   (** a database error, as text *)
}.

Record OpsState (D : Type) : Type := mkOpsState { op_tick : nat; op_db : D }.
Arguments mkOpsState {D} _ _.
Arguments op_tick {D} _.
Arguments op_db {D} _.

Section Monad.
Context {D : Type} {env : OpsEnv D}.

Definition Om (A : Type) : Type := OpsState D -> result A OpsError * OpsState D.

Definition o_ret {A} (x : A) : Om A := fun s => (Ok x, s).
Definition o_of {A} (r : result A OpsError) : Om A := fun s => (r, s).
Definition o_bind {A B} (m : Om A) (f : A -> Om B) : Om B := fun s =>
  match m s with (Ok x, s) => f x s | (Err e, s) => (Err e, s) end.

(** The outcome of a job whose error the caller inspects. *)
Definition o_try {A} (m : Om A) : Om (result A OpsError) := fun s =>
  match m s with (r, s) => (Ok r, s) end.

(** Something read from outside the database. *)
Definition o_ask {A} (f : nat -> A) : Om A := fun s =>
  (Ok (f (op_tick s)), mkOpsState (S (op_tick s)) (op_db s)).

(** A transaction, or one statement: it sees what the others committed, and
    either commits or changes nothing. *)
Definition o_tx {A} (tx : Z -> Tx D OpsError A) : Om A := fun s =>
  let k := op_tick s in
  let db := op_others k (op_db s) in
  match op_fault k with
  | Some error => (Err (OpsDatabase error), mkOpsState (S k) db)
  | None => let '(r, db) := run_tx (tx (op_now k)) db in (r, mkOpsState (S k) db)
  end.

Definition o_read {A} (f : D -> A) : Om A := o_tx (fun _ => tx_read f).
Definition o_write (f : Z -> D -> D) : Om unit := o_tx (fun now => tx_write (f now)).
End Monad.
Arguments Om : clear implicits.

Notation "'let#' x ':=' m 'in' k" := (o_bind m (fun x => k))
  (at level 10, x name, m at level 100, k at level 200) : gw_scope.

Lemma o_bind_inv {D} {A B} (m : Om D A) (f : A -> Om D B) s y s' :
  o_bind m f s = (Ok y, s') -> exists x s1, m s = (Ok x, s1) /\ f x s1 = (Ok y, s').
Proof. unfold o_bind. destruct (m s) as [[x|e] s1]; [eauto|done]. Qed.

Lemma o_of_inv {D} {A} (r : result A OpsError) (s : OpsState D) x s' : o_of r s = (Ok x, s') -> r = Ok x /\ s' = s.
Proof. by intros [= -> ->]. Qed.

Lemma o_tx_inv {D} {env : OpsEnv D} {A} (tx : Z -> Tx D OpsError A) s x s' :
  o_tx tx s = (Ok x, s') -> exists now d, tx now d = Ok (x, op_db s').
Proof.
  unfold o_tx, run_tx. destruct (op_fault _); [done|]. destruct (tx _ _) as [[y d]|e] eqn:E; [|done].
  intros [= -> <-]. eauto.
Qed.

Lemma o_read_inv {D} {env : OpsEnv D} {A} (f : D -> A) s x s' : o_read f s = (Ok x, s') -> exists d, x = f d.
Proof. intros (now & d & [= <- _])%o_tx_inv. eauto. Qed.

(** ** What a job keeps *)

Section Keeps.
Context {D : Type} {env : OpsEnv D} (R : D -> D -> Prop) `{!PreOrder R}.
Hypothesis others : forall k d, R d (op_others k d).

Definition keeps {A} (m : Om D A) : Prop := forall s, R (op_db s) (op_db (m s).2).

Lemma keeps_of {A} (r : result A OpsError) : keeps (o_of r).
Proof. intros s. by cbn. Qed.

Lemma keeps_ret {A} (x : A) : keeps (o_ret x).
Proof. intros s. by cbn. Qed.

Lemma keeps_ask {A} (f : nat -> A) : keeps (o_ask f).
Proof. intros s. by cbn. Qed.

Lemma keeps_bind {A B} (m : Om D A) (f : A -> Om D B) :
  keeps m -> (forall x, keeps (f x)) -> keeps (o_bind m f).
Proof.
  intros Hm Hf s. unfold o_bind. specialize (Hm s). destruct (m s) as [[x|e] t]; [|done].
  etransitivity; [exact Hm|apply Hf].
Qed.

Lemma keeps_try {A} (m : Om D A) : keeps m -> keeps (o_try m).
Proof. intros Hm s. unfold o_try. specialize (Hm s). by destruct (m s). Qed.

Lemma keeps_tx {A} (tx : Z -> Tx D OpsError A) :
  (forall now d x d', tx now d = Ok (x, d') -> R d d') -> keeps (o_tx tx).
Proof.
  intros Htx s. unfold o_tx. destruct (op_fault _); [apply others|]. unfold run_tx.
  destruct (tx _ _) as [[x d]|e] eqn:E; cbn; [|apply others]. etransitivity; [apply others|by eapply Htx].
Qed.

Lemma keeps_read {A} (f : D -> A) : keeps (o_read f).
Proof. apply keeps_tx. unfold tx_read. by intros ???? [= _ <-]. Qed.

Lemma keeps_write (f : Z -> D -> D) : (forall now d, R d (f now d)) -> keeps (o_write f).
Proof. intros Hf. apply keeps_tx. unfold tx_write. intros ???? [= _ <-]. apply Hf. Qed.

Lemma keeps_if {A} (b : bool) (m n : Om D A) : keeps m -> keeps n -> keeps (if b then m else n).
Proof. by destruct b. Qed.
End Keeps.

Section Shapes.
Context {D : Type} {env : OpsEnv D} (R : D -> D -> Prop) `{!PreOrder R}.

Lemma keeps_assoc {A B C} (m : Om D A) (f : A -> Om D B) (g : B -> Om D C) :
  keeps R (o_bind m (fun x => o_bind (f x) g)) -> keeps R (o_bind (o_bind m f) g).
Proof. intros Hk s. specialize (Hk s). unfold o_bind in *. by destruct (m s) as [[x|e] t]. Qed.

Lemma keeps_bind_of {A B} (r : result A OpsError) (f : A -> Om D B) :
  (forall x, r = Ok x -> keeps R (f x)) -> keeps R (o_bind (o_of r) f).
Proof. intros Hf s. unfold o_bind, o_of. destruct r as [x|e]; [by apply Hf|done]. Qed.

(** What is asked is an answer of the outside. *)
Lemma keeps_bind_ask {A B} (f : nat -> A) (g : A -> Om D B) :
  (forall k, keeps R (g (f k))) -> keeps R (o_bind (o_ask f) g).
Proof. intros Hg s. exact (Hg (op_tick s) (mkOpsState (S (op_tick s)) (op_db s))). Qed.

Lemma keeps_bind_ret {A B} (x : A) (f : A -> Om D B) : keeps R (f x) -> keeps R (o_bind (o_ret x) f).
Proof. exact id. Qed.
End Shapes.

(** [R] under an invariant [I] that is kept too: what is read satisfies it. *)
Definition guarded {D} (I : D -> Prop) (R : D -> D -> Prop) (d d' : D) : Prop := I d -> I d' /\ R d d'.

#[global] Instance guarded_preorder {D} (I : D -> Prop) (R : D -> D -> Prop) `{!PreOrder R} : PreOrder (guarded I R).
Proof.
  split; [by intros d Hd|]. intros d1 d2 d3 H12 H23 H1.
  destruct (H12 H1) as [H2 ?], (H23 H2) as [? ?]. split; [done|]. by transitivity d2.
Qed.

Lemma keeps_bind_read {D} {env : OpsEnv D} (I : D -> Prop) (R : D -> D -> Prop) `{!PreOrder R}
    {A B} (f : D -> A) (g : A -> Om D B) :
  (forall k d, guarded I R d (op_others k d)) ->
  (forall d, I d -> keeps (guarded I R) (g (f d))) ->
  keeps (guarded I R) (o_bind (o_read f) g).
Proof.
  intros Ho Hg s Hs. destruct (Ho (op_tick s) (op_db s) Hs) as [Hi Hr].
  unfold o_bind, o_read, o_tx. destruct (op_fault _); [by split|]. cbn.
  destruct (Hg _ Hi (mkOpsState (S (op_tick s)) (op_others (op_tick s) (op_db s))) Hi) as [Hi' Hr']. cbn in *.
  split; [done|]. by etransitivity.
Qed.

Create HintDb keeps.
#[export] Hint Resolve keeps_of keeps_ret keeps_ask keeps_read : keeps.

(** Decomposes a job; leaves the transactions. *)
Ltac keeps_auto :=
  repeat first
    [ apply keeps_bind; [first [assumption | typeclasses eauto]| |intros ?]
    | apply keeps_try | apply keeps_of; typeclasses eauto | apply keeps_ret; typeclasses eauto
    | apply keeps_ask; typeclasses eauto | apply keeps_read; [typeclasses eauto|assumption] | assumption
    | match goal with |- keeps _ (if ?b then _ else _) => destruct b end
    | match goal with |- keeps _ (match ?x with _ => _ end) => destruct x end ].

(** ** Nobody else, no failures *)

Section Quiet.
Context {D : Type} {env : OpsEnv D}.

Definition quiet : Prop := (forall k d, op_others k d = d) /\ forall k, op_fault k = None.

Hypothesis q : quiet.

Lemma quiet_tx {A} (tx : Z -> Tx D OpsError A) k d :
  o_tx tx (mkOpsState k d)
  = ((run_tx (tx (op_now k)) d).1, mkOpsState (S k) (run_tx (tx (op_now k)) d).2).
Proof. destruct q as [Ho Hf]. unfold o_tx. cbn. rewrite Ho, Hf. by destruct (run_tx _ _). Qed.

Lemma quiet_read {A} (f : D -> A) k d : o_read f (mkOpsState k d) = (Ok (f d), mkOpsState (S k) d).
Proof. unfold o_read. by rewrite quiet_tx. Qed.

Lemma quiet_write (f : Z -> D -> D) k d : o_write f (mkOpsState k d) = (Ok tt, mkOpsState (S k) (f (op_now k) d)).
Proof. unfold o_write. by rewrite quiet_tx. Qed.
End Quiet.
