(* ===== verification/Cleanup.v ===== *)
(** * Data retention

    The retention jobs of [src/src/infra/ops.rs]: policies, cut-offs, and the
    cleanup runs that delete expired rows batch by batch.

    [RetentionDb] holds the tables they touch, keyed by their primary keys; a
    row of usage, discovery, health or system data keeps the columns the
    cleanup reads.  The columns [scanned_*] and [deleted_*] of a run are the
    [CleanupCounts] [cr_scanned] and [cr_deleted].  A statement is a function on
    the tables, a transaction a [Tx], and an operation a job [Om] whose steps
    interleave with other clients (see [Ops]).  The loop of [run_cleanup] makes
    at most [max_batches] rounds, which is the recursion of [cleanup_rounds].
    Texts of instants are the class [Rfc3339].  An [INTEGER] column that would
    overflow after [2^31] batches is not modelled. *)

From Stdlib Require Import ZArith Lia.
From stdpp Require Import base gmap list strings.
From S2P Require Import Prelude.
From S2P Require Import RustStr.
From S2P Require Import BTree.
From S2P Require Import Tx.
From S2P Require Import Json.
From S2P Require Import SourceUrl.
From S2P Require Import Redaction.
From S2P Require Import Ops.

Definition DEFAULT_BATCH_SIZE : Z := 500.
Definition DEFAULT_MAX_BATCHES : Z := 1000.
Definition MAX_BATCH_SIZE : Z := 10000.
Definition MAX_MAX_BATCHES : Z := 100000.

Definition RETENTION_KEYS : list string := ["usage_events"; "usage_attempts"; "audit"; "discovery"; "system_events"].

(** ** Requests *)

Record CleanupRequest : Type := mkCleanupRequest {
  cq_dry_run : bool;
  cq_batch_size : Z;
  cq_max_batches : Z;
  cq_operation_id : option string;
  cq_requested_by : option string;
  cq_policy_keys : option (list string);
}.

Definition default_request : CleanupRequest :=
  mkCleanupRequest false DEFAULT_BATCH_SIZE DEFAULT_MAX_BATCHES None None None.

Record RetentionPolicyWrite : Type := mkPolicyWrite {
  pw_policy_key : string;
  pw_retention_days : Z;
  pw_enabled : bool;
}.

Definition validate_policy_key (key : string) : result unit OpsError :=
  if existsb (String.eqb key) RETENTION_KEYS then Ok tt
  else Err (OpsValidation ("unknown retention policy '" +:+ key +:+ "'")).

Definition validate_retention_days (days : Z) : result unit OpsError :=
  if (0 <=? days) && (days <=? 36500) then Ok tt
  else Err (OpsValidation "retention_days must be between 0 and 36500").

Fixpoint validate_policy_keys (seen keys : list string) : result unit OpsError :=
  match keys with
  | [] => Ok tt
  | key :: keys =>
      let? _ := validate_policy_key key in
      if bool_decide (key ∈ seen) then Err (OpsValidation ("duplicate policy key '" +:+ key +:+ "'"))
      else validate_policy_keys (key :: seen) keys
  end.

Definition validate_cleanup_request (request : CleanupRequest) : result unit OpsError :=
  if negb ((1 <=? cq_batch_size request) && (cq_batch_size request <=? MAX_BATCH_SIZE))
  then Err (OpsValidation ("batch_size must be between 1 and " +:+ dec MAX_BATCH_SIZE))
  else if negb ((1 <=? cq_max_batches request) && (cq_max_batches request <=? MAX_MAX_BATCHES))
  then Err (OpsValidation ("max_batches must be between 1 and " +:+ dec MAX_MAX_BATCHES))
  else if is_some_and (cq_operation_id request) (fun id => is_empty (trim id) || (128 <? slen id))
  then Err (OpsValidation "operation_id must be 1..128 characters")
  else match cq_policy_keys request with
       | Some keys => validate_policy_keys [] keys
       | None => Ok tt
       end.

(** ** Policies and their snapshots *)

Record PolicyState : Type := mkPolicyState {
  ps_retention_days : Z;
  ps_enabled : bool;
  ps_cutoff : Z;
}.

Abbreviation Policies := (list (string * PolicyState)).

(** [Duration::days]. *)
Definition days_ns (days : Z) : Z := days * 86400000000000.

(** [DateTime::to_rfc3339] and [DateTime::parse_from_rfc3339], and the
    [Serialize] of a [DateTime<Utc>]. *)
Class Rfc3339 : Type := {
  to_rfc3339 : Z -> string;
  serialize_time : Z -> string;
  parse_from_rfc3339 : string -> option Z;
}.

Section Snapshots.
Context `{Rfc3339}.

Definition policy_snapshot (policies : Policies) : Value :=
  VObject (fold_left (fun acc kv =>
    bt_insert acc kv.1
      (json_object [("retention_days", of_i64 (ps_retention_days kv.2)); ("enabled", VBool (ps_enabled kv.2))]))
    policies []).

Definition cutoff_snapshot (policies : Policies) : Value :=
  VObject (fold_left (fun acc kv =>
    bt_insert acc kv.1 (if ps_enabled kv.2 then VString (to_rfc3339 (ps_cutoff kv.2)) else VNull))
    policies []).

(** [now] answers the [Utc::now()] of a policy without a stored cut-off. *)
Definition policy_state_of (now : Z) (cutoffs : Map) (key : string) (state : Value) : result PolicyState OpsError :=
  let? _ := validate_policy_key key in
  let? state := ok_or (as_object state) (OpsValidation "cleanup policy value must be an object") in
  let invalid_days := OpsValidation "cleanup retention_days is invalid" in
  let? days := ok_or (hm_get state "retention_days" ≫= as_i64) invalid_days in
  let? days := ok_or (if (- 2 ^ 31 <=? days) && (days <=? I32_MAX) then Some days else None) invalid_days in
  let? _ := validate_retention_days days in
  let invalid_cutoff := OpsValidation "cleanup cutoff is invalid" in
  let? cutoff := match hm_get cutoffs key with
                 | Some (VString value) => ok_or (parse_from_rfc3339 value) invalid_cutoff
                 | Some VNull | None => Ok (now - days_ns days)
                 | _ => Err invalid_cutoff
                 end in
  Ok (mkPolicyState days (unwrap_or (hm_get state "enabled" ≫= as_bool) true) cutoff).

Fixpoint policies_of (now : Z) (cutoffs : Map) (object : Map) (policies : Policies) : result Policies OpsError :=
  match object with
  | [] => Ok policies
  | (key, state) :: object =>
      let? state := policy_state_of now cutoffs key state in
      policies_of now cutoffs object (bt_insert policies key state)
  end.

Definition policy_map_from_snapshot (now : Z) (value cutoffs : Value) : result Policies OpsError :=
  let? object := ok_or (as_object value) (OpsValidation "cleanup policy_snapshot must be an object") in
  let? cutoff_object := ok_or (as_object cutoffs) (OpsValidation "cleanup cutoff_snapshot must be an object") in
  policies_of now cutoff_object object [].
End Snapshots.

(** [policies.get(key).filter(|p| p.enabled)]. *)
Definition active (policies : Policies) (key : string) : option PolicyState :=
  opt_filter ps_enabled (bt_get policies key).

Inductive AttemptGuard : Type := EligibleBefore (cutoff : Z) | KeepAll.

Definition attempt_guard (policies : Policies) : AttemptGuard :=
  unwrap_or (option_map (fun policy => EligibleBefore (ps_cutoff policy)) (active policies "usage_attempts")) KeepAll.

(** ** Tables *)

Record AttemptRow : Type := mkAttemptRow { at_request_id : string; at_created_at : Z }.
Record EventRow : Type := mkEventRow { ev_request_id : string; ev_created_at : Z }.
Record HealthEventRow : Type := mkHealthEventRow { he_connection_test_id : option Z; he_created_at : Z }.

Record AuditLog : Type := mkAuditLog {
  al_operation_id : string;
  al_action : string;
  al_status : string;
  al_actor : string;
  al_details : Value;
  al_error_code : option string;
  al_error_message : option string;
  al_created_at : Z;
  al_completed_at : option Z;
}.

Record RetentionPolicy : Type := mkRetentionPolicy {
  rp_policy_key : string;
  rp_retention_days : Z;
  rp_enabled : bool;
  rp_updated_at : Z;
}.

Record CleanupCounts : Type := mkCounts {
  cc_usage_events : Z;
  cc_usage_attempts : Z;
  cc_audit : Z;
  cc_discovery : Z;
  cc_system_events : Z;
}.

Definition no_counts : CleanupCounts := mkCounts 0 0 0 0 0.

Definition total (counts : CleanupCounts) : Z :=
  cc_usage_events counts + cc_usage_attempts counts + cc_audit counts + cc_discovery counts + cc_system_events counts.

Definition counts_add (a b : CleanupCounts) : CleanupCounts :=
  mkCounts (cc_usage_events a + cc_usage_events b) (cc_usage_attempts a + cc_usage_attempts b)
    (cc_audit a + cc_audit b) (cc_discovery a + cc_discovery b) (cc_system_events a + cc_system_events b).

(** [#[derive(Serialize)]]. *)
Definition counts_json (counts : CleanupCounts) : Value :=
  json_object [("usage_events", of_i64 (cc_usage_events counts)); ("usage_attempts", of_i64 (cc_usage_attempts counts));
               ("audit", of_i64 (cc_audit counts)); ("discovery", of_i64 (cc_discovery counts));
               ("system_events", of_i64 (cc_system_events counts))].

(** The values the [CHECK] on [retention_cleanup_runs.status] allows. *)
Inductive CleanupStatus : Type := Running | Completed | Failed | CancelRequested | Cancelled.
#[global] Instance CleanupStatus_eq_dec : EqDecision CleanupStatus.
Proof. solve_decision. Defined.

Record CleanupRun : Type := mkCleanupRun {
  cr_id : string;
  cr_status : CleanupStatus;
  cr_dry_run : bool;
  cr_batch_size : Z;
  cr_max_batches : Z;
  cr_requested_by : string;
  cr_policy_snapshot : Value;
  cr_cutoff_snapshot : Value;
  cr_scanned : CleanupCounts;
  cr_deleted : CleanupCounts;
  cr_batches_completed : Z;
  cr_progress : Value;
  cr_last_error_code : option string;
  cr_last_error_message : option string;
  cr_cancel_requested : bool;
  cr_created_at : Z;
  cr_started_at : Z;
  cr_finished_at : option Z;
  cr_updated_at : Z;
}.

Record RetentionDb : Type := mkRetentionDb {
  rd_policies : gmap string RetentionPolicy;
  rd_runs : gmap string CleanupRun;
  rd_attempts : gmap Z AttemptRow;
  rd_events : gmap Z EventRow;
  rd_audit : gmap Z AuditLog;
  rd_audit_seq : Z;                        (** the last id of the sequence of [audit_logs] *)
  rd_tests : gmap Z Z;                     (** [tested_at] *)
  rd_health : gmap Z HealthEventRow;
  rd_discovery : gmap Z Z;                 (** [completed_at] *)
  rd_system : gmap Z Z;                    (** [occurred_at] *)
}.

Definition set_policies (p : gmap string RetentionPolicy) (db : RetentionDb) : RetentionDb :=
  mkRetentionDb p (rd_runs db) (rd_attempts db) (rd_events db) (rd_audit db) (rd_audit_seq db) (rd_tests db)
    (rd_health db) (rd_discovery db) (rd_system db).
Definition set_runs (r : gmap string CleanupRun) (db : RetentionDb) : RetentionDb :=
  mkRetentionDb (rd_policies db) r (rd_attempts db) (rd_events db) (rd_audit db) (rd_audit_seq db) (rd_tests db)
    (rd_health db) (rd_discovery db) (rd_system db).
Definition set_attempts (t : gmap Z AttemptRow) (db : RetentionDb) : RetentionDb :=
  mkRetentionDb (rd_policies db) (rd_runs db) t (rd_events db) (rd_audit db) (rd_audit_seq db) (rd_tests db)
    (rd_health db) (rd_discovery db) (rd_system db).
Definition set_events (t : gmap Z EventRow) (db : RetentionDb) : RetentionDb :=
  mkRetentionDb (rd_policies db) (rd_runs db) (rd_attempts db) t (rd_audit db) (rd_audit_seq db) (rd_tests db)
    (rd_health db) (rd_discovery db) (rd_system db).
Definition set_audit (t : gmap Z AuditLog) (seq : Z) (db : RetentionDb) : RetentionDb :=
  mkRetentionDb (rd_policies db) (rd_runs db) (rd_attempts db) (rd_events db) t seq (rd_tests db)
    (rd_health db) (rd_discovery db) (rd_system db).
Definition set_tests (t : gmap Z Z) (db : RetentionDb) : RetentionDb :=
  mkRetentionDb (rd_policies db) (rd_runs db) (rd_attempts db) (rd_events db) (rd_audit db) (rd_audit_seq db) t
    (rd_health db) (rd_discovery db) (rd_system db).
Definition set_health (t : gmap Z HealthEventRow) (db : RetentionDb) : RetentionDb :=
  mkRetentionDb (rd_policies db) (rd_runs db) (rd_attempts db) (rd_events db) (rd_audit db) (rd_audit_seq db)
    (rd_tests db) t (rd_discovery db) (rd_system db).
Definition set_discovery (t : gmap Z Z) (db : RetentionDb) : RetentionDb :=
  mkRetentionDb (rd_policies db) (rd_runs db) (rd_attempts db) (rd_events db) (rd_audit db) (rd_audit_seq db)
    (rd_tests db) (rd_health db) t (rd_system db).
Definition set_system (t : gmap Z Z) (db : RetentionDb) : RetentionDb :=
  mkRetentionDb (rd_policies db) (rd_runs db) (rd_attempts db) (rd_events db) (rd_audit db) (rd_audit_seq db)
    (rd_tests db) (rd_health db) (rd_discovery db) t.

(** ** Statements *)

Abbreviation Rx := (Tx RetentionDb OpsError).

Section Statements.
Context `{UrlCrates} `{UrlEdit}.

(** [append_audit_tx]. *)
Definition append_audit_tx (operation_id action status actor : string) (details : Value)
    (error_code error_message : option string) (now : Z) : Rx unit := fun db =>
  let id := rd_audit_seq db + 1 in
  match rd_audit db !! id with
  | Some _ => Err (OpsConflict "operation already exists")
  | None =>
      let row := mkAuditLog operation_id action status (sanitize_actor actor) (sanitize_json details) error_code
        (option_map redact_text error_message) now
        (if existsb (String.eqb status) ["succeeded"; "failed"; "cancelled"] then Some now else None) in
      Ok (tt, set_audit (<[id := row]> (rd_audit db)) id db)
  end.

Definition expired (cutoff created : Z) : bool := created <? cutoff.

(** The ids of [SELECT id ... WHERE eligible ORDER BY id LIMIT limit]. *)
Definition batch {R} (eligible : R -> bool) (limit : Z) (t : gmap Z R) : list Z :=
  take (Z.to_nat limit) (sort_by (fun id => id) (filter (fun kv => eligible kv.2 = true) (map_to_list t)).*1).

(** [DELETE ... WHERE id IN (...)]; the rows affected are counted. *)
Definition delete_ids {R} (ids : list Z) (t : gmap Z R) : gmap Z R := filter (fun kv => kv.1 ∉ ids) t.

(** [SELECT COUNT( * )]. *)
Definition count_rows {R} (eligible : R -> bool) (t : gmap Z R) : Z :=
  Z.of_nat (length (filter (fun kv => eligible kv.2 = true) (map_to_list t))).

Definition delete_attempt_batch (cutoff batch_size : Z) : Rx Z := fun db =>
  let ids := batch (fun a => expired cutoff (at_created_at a)) batch_size (rd_attempts db) in
  Ok (Z.of_nat (length ids), set_attempts (delete_ids ids (rd_attempts db)) db).

(** The condition on an event: it is expired, and no attempt of its request is
    to be kept. *)
Definition event_eligible (db : RetentionDb) (cutoff : Z) (guard : AttemptGuard) (e : EventRow) : bool :=
  expired cutoff (ev_created_at e)
  && negb (existsb (fun kv =>
       (at_request_id kv.2 =?s ev_request_id e)
       && match guard with
          | EligibleBefore attempt_cutoff => negb (expired attempt_cutoff (at_created_at kv.2))
          | KeepAll => true
          end) (map_to_list (rd_attempts db))).

(** The attempts of a deleted event go with it ([ON DELETE CASCADE]). *)
Definition delete_event_batch (cutoff : Z) (guard : AttemptGuard) (batch_size : Z) : Rx Z := fun db =>
  let ids := batch (event_eligible db cutoff guard) batch_size (rd_events db) in
  let requests := omap (fun id => option_map ev_request_id (rd_events db !! id)) ids in
  Ok (Z.of_nat (length ids),
      set_attempts (filter (fun kv => at_request_id kv.2 ∉ requests) (rd_attempts db))
        (set_events (delete_ids ids (rd_events db)) db)).

(** [ON DELETE SET NULL]. *)
Definition forget_tests (ids : list Z) (row : HealthEventRow) : HealthEventRow :=
  mkHealthEventRow (opt_filter (fun id => bool_decide (id ∉ ids)) (he_connection_test_id row)) (he_created_at row).

Definition delete_audit_batch (cutoff batch_size : Z) : Rx Z := fun db =>
  let logs := batch (fun row => expired cutoff (al_created_at row)) batch_size (rd_audit db) in
  let db := set_audit (delete_ids logs (rd_audit db)) (rd_audit_seq db) db in
  let tests := batch (expired cutoff) batch_size (rd_tests db) in
  let db := set_health (forget_tests tests <$> rd_health db) (set_tests (delete_ids tests (rd_tests db)) db) in
  let health := batch (fun row => expired cutoff (he_created_at row)) batch_size (rd_health db) in
  let db := set_health (delete_ids health (rd_health db)) db in
  Ok (Z.of_nat (length logs) + Z.of_nat (length tests) + Z.of_nat (length health), db).

Definition delete_discovery_batch (cutoff batch_size : Z) : Rx Z := fun db =>
  let ids := batch (expired cutoff) batch_size (rd_discovery db) in
  Ok (Z.of_nat (length ids), set_discovery (delete_ids ids (rd_discovery db)) db).

Definition delete_system_events_batch (cutoff batch_size : Z) : Rx Z := fun db =>
  let ids := batch (expired cutoff) batch_size (rd_system db) in
  Ok (Z.of_nat (length ids), set_system (delete_ids ids (rd_system db)) db).

(** ** Updates of a run *)

(** [UPDATE retention_cleanup_runs SET ... WHERE id=$1 AND guard]. *)
Definition update_run (id : string) (guard : CleanupRun -> bool) (f : CleanupRun -> CleanupRun) (db : RetentionDb)
    : RetentionDb :=
  match rd_runs db !! id with
  | Some run => if guard run then set_runs (<[id := f run]> (rd_runs db)) db else db
  | None => db
  end.

Definition status_in (l : list CleanupStatus) (run : CleanupRun) : bool := bool_decide (cr_status run ∈ l).

Definition with_status (status : CleanupStatus) (finished : option Z) (progress : Value) (now : Z) (r : CleanupRun)
    : CleanupRun :=
  mkCleanupRun (cr_id r) status (cr_dry_run r) (cr_batch_size r) (cr_max_batches r) (cr_requested_by r)
    (cr_policy_snapshot r) (cr_cutoff_snapshot r) (cr_scanned r) (cr_deleted r) (cr_batches_completed r) progress
    (cr_last_error_code r) (cr_last_error_message r) (cr_cancel_requested r) (cr_created_at r) (cr_started_at r)
    finished now.

Definition with_errors (code message : option string) (r : CleanupRun) : CleanupRun :=
  mkCleanupRun (cr_id r) (cr_status r) (cr_dry_run r) (cr_batch_size r) (cr_max_batches r) (cr_requested_by r)
    (cr_policy_snapshot r) (cr_cutoff_snapshot r) (cr_scanned r) (cr_deleted r) (cr_batches_completed r)
    (cr_progress r) code message (cr_cancel_requested r) (cr_created_at r) (cr_started_at r) (cr_finished_at r)
    (cr_updated_at r).

Definition with_cancel_requested (b : bool) (r : CleanupRun) : CleanupRun :=
  mkCleanupRun (cr_id r) (cr_status r) (cr_dry_run r) (cr_batch_size r) (cr_max_batches r) (cr_requested_by r)
    (cr_policy_snapshot r) (cr_cutoff_snapshot r) (cr_scanned r) (cr_deleted r) (cr_batches_completed r)
    (cr_progress r) (cr_last_error_code r) (cr_last_error_message r) b (cr_created_at r) (cr_started_at r)
    (cr_finished_at r) (cr_updated_at r).

Definition with_counts (scanned deleted : CleanupCounts) (batches : Z) (r : CleanupRun) : CleanupRun :=
  mkCleanupRun (cr_id r) (cr_status r) (cr_dry_run r) (cr_batch_size r) (cr_max_batches r) (cr_requested_by r)
    (cr_policy_snapshot r) (cr_cutoff_snapshot r) scanned deleted batches (cr_progress r) (cr_last_error_code r)
    (cr_last_error_message r) (cr_cancel_requested r) (cr_created_at r) (cr_started_at r) (cr_finished_at r)
    (cr_updated_at r).

Definition progress_json (phase : string) (has_more : bool) : Value :=
  json_object [("phase", VString phase); ("has_more", VBool has_more)].

(** The [SET] clauses, in the order of the operations below. *)
Definition request_cancel (now : Z) (r : CleanupRun) : CleanupRun :=
  with_cancel_requested true (with_status CancelRequested (cr_finished_at r) (cr_progress r) now r).
Definition reopen (now : Z) (r : CleanupRun) : CleanupRun :=
  with_errors None None (with_cancel_requested false (with_status Running None (cr_progress r) now r)).
Definition finish_dry (counts : CleanupCounts) (progress : Value) (now : Z) (r : CleanupRun) : CleanupRun :=
  with_counts counts (cr_deleted r) (cr_batches_completed r) (with_status Completed (Some now) progress now r).
Definition mark_cancelled (now : Z) (r : CleanupRun) : CleanupRun :=
  with_status Cancelled (Some now) (progress_json "cancelled" true) now r.
Definition add_batch (deleted : CleanupCounts) (progress : Value) (now : Z) (r : CleanupRun) : CleanupRun :=
  with_counts (counts_add (cr_scanned r) deleted) (counts_add (cr_deleted r) deleted) (cr_batches_completed r + 1)
    (with_status (cr_status r) (cr_finished_at r) progress now r).
Definition set_has_more (has_more : bool) (now : Z) (r : CleanupRun) : CleanupRun :=
  with_status (cr_status r) (cr_finished_at r)
    (on_object (fun m => bt_insert m "has_more" (VBool has_more)) (cr_progress r)) now r.
Definition mark_completed (now : Z) (r : CleanupRun) : CleanupRun :=
  with_status Completed (Some now)
    (json_object [("phase", VString "completed"); ("has_more", VBool false);
                  ("batch", of_i64 (cr_batches_completed r))]) now r.
Definition mark_failed (code message : string) (now : Z) (r : CleanupRun) : CleanupRun :=
  with_errors (Some code) (Some message) (with_status Failed (Some now) (progress_json "failed" true) now r).
End Statements.

(** ** Operations *)

Section Operations.
Context `{UrlCrates} `{UrlEdit} `{Rfc3339} {env : OpsEnv RetentionDb}.

Abbreviation Job := (Om RetentionDb).

Definition append_audit (operation_id action status actor : string) (details : Value)
    (error_code error_message : option string) : Job unit :=
  o_tx (append_audit_tx operation_id action status actor details error_code error_message).

Definition get_cleanup (id : string) : Job (option CleanupRun) := o_read (fun db => rd_runs db !! id).

Definition cleanup_not_found (id : string) : OpsError := OpsNotFound ("cleanup operation '" +:+ id +:+ "' not found").

(** [get_cleanup(id).await?.ok_or_else(...)]. *)
Definition expect_cleanup (id : string) : Job CleanupRun :=
  let# run := get_cleanup id in o_of (ok_or run (cleanup_not_found id)).

Definition list_retention_policies : Job (list RetentionPolicy) :=
  o_read (fun db => sort_by rp_policy_key (map_to_list (rd_policies db)).*2).

Definition update_policy (policy : RetentionPolicyWrite) (now : Z) : Rx unit := fun db =>
  match rd_policies db !! pw_policy_key policy with
  | Some row =>
      Ok (tt, set_policies (<[pw_policy_key policy :=
        mkRetentionPolicy (rp_policy_key row) (pw_retention_days policy) (pw_enabled policy) now]> (rd_policies db)) db)
  | None => Err (OpsNotFound ("retention policy '" +:+ pw_policy_key policy +:+ "' not found"))
  end.

Fixpoint update_policies (actor : string) (seen : list string) (policies : list RetentionPolicyWrite) (now : Z)
    : Rx unit :=
  match policies with
  | [] => tx_ret tt
  | policy :: policies =>
      let key := pw_policy_key policy in
      let$ _ := tx_of (validate_policy_key key) in
      let$ _ := (if bool_decide (key ∈ seen)
                 then tx_fail (OpsValidation ("duplicate retention policy '" +:+ key +:+ "'"))
                 else tx_ret tt) in
      let$ _ := tx_of (validate_retention_days (pw_retention_days policy)) in
      let$ _ := update_policy policy now in
      let$ _ := append_audit_tx ("retention-policy:" +:+ key) "retention.policy.updated" "succeeded" actor
        (json_object [("policy_key", VString key); ("retention_days", of_i64 (pw_retention_days policy));
                      ("enabled", VBool (pw_enabled policy))]) None None now in
      update_policies actor (key :: seen) policies now
  end.

Definition update_retention_policies (policies : list RetentionPolicyWrite) (actor : string) : Job (list RetentionPolicy) :=
  match policies with
  | [] => o_of (Err (OpsValidation "at least one retention policy is required"))
  | _ =>
      let actor := sanitize_actor actor in
      let# _ := o_tx (update_policies actor [] policies) in
      list_retention_policies
  end.

Definition policy_entry (now : Z) (row : RetentionPolicy) : PolicyState :=
  mkPolicyState (rp_retention_days row) (rp_enabled row) (now - days_ns (rp_retention_days row)).

Fixpoint check_selected (policies : Policies) (keys : list string) : result unit OpsError :=
  match keys with
  | [] => Ok tt
  | key :: keys =>
      let? _ := validate_policy_key key in
      if is_some (bt_get policies key) then check_selected policies keys
      else Err (OpsNotFound ("retention policy '" +:+ key +:+ "' not found"))
  end.

(** The loop over the rows; the selected keys form a [BTreeSet]. *)
Definition policies_at (now : Z) (selected : option (list string)) (rows : list RetentionPolicy) : Policies :=
  fold_left (fun acc row =>
    if is_some_and selected (fun keys => negb (existsb (String.eqb (rp_policy_key row)) keys)) then acc
    else bt_insert acc (rp_policy_key row) (policy_entry now row)) rows [].

Definition load_policy_map (selected : option (list string)) : Job Policies :=
  let selected := option_map (fun keys => (bt_collect (map (fun key => (key, tt)) keys)).*1) selected in
  let# rows := list_retention_policies in
  let# now := o_ask op_now in
  let policies := policies_at now selected rows in
  match selected with
  | Some keys => let# _ := o_of (check_selected policies keys) in o_ret policies
  | None => o_ret policies
  end.

(** One query of [count_candidates]; skipped when the policy is off. *)
Definition count_when (policies : Policies) (key : string) (q : Z -> RetentionDb -> Z) : Job Z :=
  match active policies key with
  | Some policy => o_read (q (ps_cutoff policy))
  | None => o_ret 0
  end.

Definition count_candidates (policies : Policies) : Job CleanupCounts :=
  let# attempts := count_when policies "usage_attempts" (fun cutoff db =>
    count_rows (fun a => expired cutoff (at_created_at a)) (rd_attempts db)) in
  let# events := count_when policies "usage_events" (fun cutoff db =>
    count_rows (event_eligible db cutoff (attempt_guard policies)) (rd_events db)) in
  let# logs := count_when policies "audit" (fun cutoff db =>
    count_rows (fun row => expired cutoff (al_created_at row)) (rd_audit db)) in
  let# tests := count_when policies "audit" (fun cutoff db => count_rows (expired cutoff) (rd_tests db)) in
  let# health := count_when policies "audit" (fun cutoff db =>
    count_rows (fun row => expired cutoff (he_created_at row)) (rd_health db)) in
  let# discovery := count_when policies "discovery" (fun cutoff db =>
    count_rows (expired cutoff) (rd_discovery db)) in
  let# system := count_when policies "system_events" (fun cutoff db =>
    count_rows (expired cutoff) (rd_system db)) in
  o_ret (mkCounts events attempts (logs + tests + health) discovery system).

(** One batch of every active policy, inside the transaction of a round. *)
Definition delete_when (policies : Policies) (key : string) (delete : Z -> Rx Z) : Rx Z :=
  match active policies key with Some policy => delete (ps_cutoff policy) | None => tx_ret 0 end.

Definition delete_batches (policies : Policies) (batch_size : Z) : Rx CleanupCounts :=
  let$ attempts := delete_when policies "usage_attempts" (fun cutoff => delete_attempt_batch cutoff batch_size) in
  let$ events := delete_when policies "usage_events" (fun cutoff =>
    delete_event_batch cutoff (attempt_guard policies) batch_size) in
  let$ audit := delete_when policies "audit" (fun cutoff => delete_audit_batch cutoff batch_size) in
  let$ discovery := delete_when policies "discovery" (fun cutoff => delete_discovery_batch cutoff batch_size) in
  let$ system := delete_when policies "system_events" (fun cutoff => delete_system_events_batch cutoff batch_size) in
  tx_ret (mkCounts events attempts audit discovery system).

Inductive RoundOutcome : Type := Stopped (cancelled : bool) | Cleaned (deleted : CleanupCounts).

Definition batch_progress (batch_number : Z) (deleted : CleanupCounts) (now : Z) : Value :=
  json_object [("phase", VString "batch"); ("batch", of_i64 (batch_number + 1)); ("has_more", VBool true);
               ("deleted", counts_json deleted); ("updated_at", VString (serialize_time now))].

Definition round_tx (run : CleanupRun) (policies : Policies) (batch_number now : Z) : Rx RoundOutcome := fun db =>
  match rd_runs db !! cr_id run with
  | None => Err (cleanup_not_found (cr_id run))
  | Some state =>
      if status_in [Completed; Failed; Cancelled] state
      then Ok (Stopped (bool_decide (cr_status state = Cancelled)), db)
      else if cr_cancel_requested state || bool_decide (cr_status state = CancelRequested) then
        (let$ _ := tx_write (update_run (cr_id run) (fun _ => true) (mark_cancelled now)) in
         let$ _ := append_audit_tx (cr_id run) "retention.cleanup.cancelled" "cancelled" (cr_requested_by run)
           (VObject []) None None now in
         tx_ret (Stopped true)) db
      else
        (let$ deleted := delete_batches policies (cr_batch_size run) in
         let progress := batch_progress batch_number deleted now in
         let$ _ := tx_write (update_run (cr_id run) (fun _ => true) (add_batch deleted progress now)) in
         let$ _ := append_audit_tx (cr_id run) "retention.cleanup.progress" "progress" (cr_requested_by run)
           progress None None now in
         tx_ret (Cleaned deleted)) db
  end.

Definition is_running (run : CleanupRun) : bool := bool_decide (cr_status run = Running).

Definition cleanup_round (run : CleanupRun) (policies : Policies) (batch_number : Z) : Job (Z * bool) :=
  let# outcome := o_tx (round_tx run policies batch_number) in
  match outcome with
  | Stopped cancelled => o_ret (0, cancelled)
  | Cleaned deleted =>
      let# candidates := count_candidates policies in
      let has_more := 0 <? total candidates in
      let# _ := o_write (fun now => update_run (cr_id run) is_running (set_has_more has_more now)) in
      let# _ := (if has_more then o_ret tt
                 else let# _ := o_write (fun now => update_run (cr_id run) is_running (mark_completed now)) in
                      append_audit (cr_id run) "retention.cleanup.completed" "succeeded" (cr_requested_by run)
                        (VObject []) None None) in
      o_ret (total deleted, false)
  end.

(** [mark_cleanup_failed]; what goes wrong here is ignored. *)
Definition mark_cleanup_failed (id : string) (error : OpsError) : Job unit :=
  let code := error_code error in
  let message := public_error_message error in
  let# _ := o_try (o_write (fun now =>
    update_run id (fun r => negb (status_in [Completed; Cancelled] r)) (mark_failed code message now))) in
  let# _ := o_try (append_audit id "retention.cleanup.failed" "failed" "system"
    (json_object [("error_code", VString code)]) (Some code) (Some message)) in
  o_ret tt.

(** The loop of [run_cleanup]: [remaining] rounds are left of [max_batches]. *)
Fixpoint cleanup_rounds (run : CleanupRun) (policies : Policies) (rounds : Z) (remaining : nat) : Job unit :=
  match remaining with
  | O => o_ret tt
  | S remaining =>
      let# progress := o_try (cleanup_round run policies (cr_batches_completed run + rounds)) in
      match progress with
      | Ok (deleted, cancelled) =>
          if cancelled then o_ret tt
          else if deleted =? 0 then o_ret tt
          else cleanup_rounds run policies (rounds + 1) remaining
      | Err error =>
          let# _ := mark_cleanup_failed (cr_id run) error in
          o_of (Err error)
      end
  end.

Definition finish_dry_run (run : CleanupRun) (policies : Policies) : Job CleanupRun :=
  match cr_status run with
  | Completed => o_ret run
  | _ =>
      let# counts := count_candidates policies in
      let progress := json_object [("phase", VString "dry_run"); ("has_more", VBool false); ("dry_run", VBool true);
                                   ("candidates", counts_json counts)] in
      let# _ := o_write (fun now =>
        update_run (cr_id run) (fun r => negb (status_in [Completed; Cancelled] r)) (finish_dry counts progress now)) in
      let# _ := append_audit (cr_id run) "retention.cleanup.completed" "succeeded" (cr_requested_by run) progress
        None None in
      expect_cleanup (cr_id run)
  end.

Definition run_cleanup (id : string) : Job CleanupRun :=
  let# run := expect_cleanup id in
  let# now := o_ask op_now in
  let# policies := o_of (policy_map_from_snapshot now (cr_policy_snapshot run) (cr_cutoff_snapshot run)) in
  if cr_dry_run run then finish_dry_run run policies
  else
    let# _ := cleanup_rounds run policies 0 (Z.to_nat (cr_max_batches run)) in
    expect_cleanup id.

Definition prepare_cleanup_retry (id actor : string) : Job unit :=
  let# _ := o_write (fun now => update_run id (status_in [Failed; Cancelled; CancelRequested]) (reopen now)) in
  append_audit id "retention.cleanup.retry" "started" actor (VObject []) None None.

Definition retry_cleanup (id actor : string) : Job CleanupRun :=
  let actor := sanitize_actor actor in
  let# current := expect_cleanup id in
  match cr_status current with
  | Completed => o_ret current
  | _ =>
      let# _ := prepare_cleanup_retry id actor in
      run_cleanup id
  end.

(** The transaction of [cancel_cleanup]. *)
Definition cancel_tx (id actor : string) (now : Z) : Rx unit := fun db =>
  match rd_runs db !! id with
  | None => Err (cleanup_not_found id)
  | Some run =>
      if status_in [Completed; Cancelled; Failed] run then Ok (tt, db)
      else (let$ _ := tx_write (update_run id (fun _ => true) (request_cancel now)) in
            append_audit_tx id "retention.cleanup.cancel_requested" "cancel_requested" actor (VObject []) None None now)
             db
  end.

Definition cancel_cleanup (id actor : string) : Job CleanupRun :=
  let actor := sanitize_actor actor in
  let# _ := o_tx (cancel_tx id actor) in
  expect_cleanup id.

(** The options an operation id is tied to. *)
Definition same_options (request : CleanupRequest) (run : CleanupRun) : bool :=
  bool_decide (cr_dry_run run = cq_dry_run request) && (cr_batch_size run =? cq_batch_size request)
  && (cr_max_batches run =? cq_max_batches request).

Definition different_options : OpsError :=
  OpsConflict "operation_id is already associated with different cleanup options".

(** [INSERT ... ON CONFLICT (id) DO NOTHING]: whether a row was inserted. *)
Definition insert_run (request : CleanupRequest) (id actor : string) (policies cutoffs : Value) (now : Z) : Rx bool :=
  fun db =>
  match rd_runs db !! id with
  | Some _ => Ok (false, db)
  | None =>
      Ok (true, set_runs (<[id := mkCleanupRun id Running (cq_dry_run request) (cq_batch_size request)
        (cq_max_batches request) actor policies cutoffs no_counts no_counts 0 (progress_json "started" true) None None
        false now now None now]> (rd_runs db)) db)
  end.

Definition start_cleanup (request : CleanupRequest) : Job CleanupRun :=
  let# _ := o_of (validate_cleanup_request request) in
  let# fresh := o_ask op_uuid in
  let operation_id := unwrap_or (cq_operation_id request) fresh in
  let actor := sanitize_actor (unwrap_or (cq_requested_by request) "admin_api") in
  let# policies := load_policy_map (cq_policy_keys request) in
  let policy_snapshot := policy_snapshot policies in
  let cutoff_snapshot := cutoff_snapshot policies in
  let# existing := get_cleanup operation_id in
  match existing with
  | Some existing =>
      if negb (same_options request existing) then o_of (Err different_options)
      else match cr_status existing with
           | Completed | Cancelled => o_ret existing
           | Failed => let# _ := prepare_cleanup_retry operation_id actor in run_cleanup operation_id
           | _ => run_cleanup operation_id
           end
  | None =>
      let# inserted := o_tx (insert_run request operation_id actor policy_snapshot cutoff_snapshot) in
      if inserted then
        let# _ := append_audit operation_id "retention.cleanup.started" "started" actor
          (json_object [("dry_run", VBool (cq_dry_run request)); ("batch_size", of_i64 (cq_batch_size request));
                        ("max_batches", of_i64 (cq_max_batches request)); ("policy_snapshot", policy_snapshot);
                        ("cutoff_snapshot", cutoff_snapshot)]) None None in
        run_cleanup operation_id
      else
        let# existing := get_cleanup operation_id in
        let# existing := o_of (ok_or existing (OpsConflict "cleanup operation was created concurrently")) in
        if negb (same_options request existing) then o_of (Err different_options)
        else match cr_status existing with
             | Completed | Cancelled => o_ret existing
             | _ => run_cleanup operation_id
             end
  end.
End Operations.
