(* ===== verification/CleanupProps.v ===== *)
(** * What retention keeps and what it finishes

    Theorems about [Cleanup].

    - A [Bound] gives, for each retention key, the instant before which rows
      may be deleted ([None]: never).  [keeps_live] relates two states of the
      tables when every live row of the first is in the second.  Policies
      [within] the bound delete no live row, whatever other clients do in
      between.
    - [evolves] is what may happen to a run: its options and snapshots stay,
      its counters grow, and a completed run is final.
    - With nobody interfering, enough rounds complete the run and leave no
      candidate ([cleanup_completes]). *)

From Stdlib Require Import ZArith Lia.
From stdpp Require Import base gmap list strings.
From S2P Require Import Prelude.
From S2P Require Import RustStr.
From S2P Require Import BTree.
From S2P Require Import Tx.
From S2P Require Import Json.
From S2P Require Import SourceUrl.
From S2P Require Import Redaction.
From S2P Require Import Ops.
From S2P Require Import Cleanup.

(** ** Batches *)

Section Batch.
Context {R : Type}.
Implicit Type t : gmap Z R.

Definition eligible_ids (eligible : R -> bool) t : list Z :=
  (filter (fun kv => eligible kv.2 = true) (map_to_list t)).*1.

Lemma elem_of_eligible_ids eligible t id :
  id ∈ eligible_ids eligible t <-> exists r, t !! id = Some r /\ eligible r = true.
Proof.
  unfold eligible_ids. rewrite list_elem_of_fmap. split.
  - intros ([j r] & -> & [He Hr]%list_elem_of_filter). apply elem_of_map_to_list in Hr. eauto.
  - intros (r & Hr & He). exists (id, r). split; [done|]. apply list_elem_of_filter. split; [done|].
    by apply elem_of_map_to_list.
Qed.

Lemma eligible_ids_nodup eligible t : NoDup (eligible_ids eligible t).
Proof.
  unfold eligible_ids. pose proof (NoDup_fst_map_to_list t) as Hnd.
  induction (map_to_list t) as [|[i r] l IH]; [constructor|]. cbn in Hnd. apply NoDup_cons in Hnd as [Hi Hnd].
  rewrite filter_cons. destruct (decide _); [|auto]. cbn. constructor; [|auto].
  intros (kv & -> & [_ Hkv]%list_elem_of_filter)%list_elem_of_fmap. apply Hi.
  by apply (list_elem_of_fmap_2 fst) in Hkv.
Qed.

Lemma count_rows_ids eligible t : count_rows eligible t = Z.of_nat (length (eligible_ids eligible t)).
Proof. unfold count_rows, eligible_ids. by rewrite length_fmap. Qed.

Lemma count_rows_nonneg eligible t : 0 <= count_rows eligible t.
Proof. unfold count_rows. lia. Qed.

Lemma count_rows_zero eligible t :
  count_rows eligible t = 0 <-> forall id r, t !! id = Some r -> eligible r = false.
Proof.
  rewrite count_rows_ids. split.
  - intros Hz id r Hr. destruct (eligible r) eqn:He; [|done].
    assert (id ∈ eligible_ids eligible t) as Hin by (apply elem_of_eligible_ids; eauto).
    destruct (eligible_ids eligible t); [by apply elem_of_nil in Hin|cbn in Hz; lia].
  - intros Hn. destruct (eligible_ids eligible t) as [|id l] eqn:E; [done|].
    assert (id ∈ eligible_ids eligible t) as (r & Hr & He)%elem_of_eligible_ids by (rewrite E; by left).
    by rewrite (Hn _ _ Hr) in He.
Qed.

Lemma batch_sorted_ids eligible t : sort_by (fun id : Z => id) (eligible_ids eligible t) ≡ₚ eligible_ids eligible t.
Proof. apply sort_by_perm. Qed.

Lemma batch_elem eligible limit t id :
  id ∈ batch eligible limit t -> exists r, t !! id = Some r /\ eligible r = true.
Proof.
  unfold batch. intros (i & Hi & _)%elem_of_take. apply elem_of_eligible_ids. rewrite <- batch_sorted_ids.
  by eapply list_elem_of_lookup_2.
Qed.

Lemma batch_nodup eligible limit t : NoDup (batch eligible limit t).
Proof.
  unfold batch. fold (eligible_ids eligible t).
  eapply (sublist_NoDup _ (sort_by (fun id : Z => id) (eligible_ids eligible t))); [|apply sublist_take].
  rewrite batch_sorted_ids. apply eligible_ids_nodup.
Qed.

Lemma batch_length eligible limit t :
  0 <= limit -> Z.of_nat (length (batch eligible limit t)) = Z.min limit (count_rows eligible t).
Proof.
  intros Hl. unfold batch. fold (eligible_ids eligible t).
  rewrite length_take, (Permutation_length (batch_sorted_ids eligible t)), count_rows_ids. lia.
Qed.

Lemma delete_ids_lookup ids t id r : delete_ids ids t !! id = Some r <-> t !! id = Some r /\ id ∉ ids.
Proof. unfold delete_ids. by rewrite map_lookup_filter_Some. Qed.

(** What is left when a batch is deleted: at least [limit] candidates fewer. *)
Lemma count_after_batch eligible eligible' limit t t' :
  0 <= limit ->
  (forall id r, t' !! id = Some r -> eligible' r = true ->
     id ∉ batch eligible limit t /\ exists r0, t !! id = Some r0 /\ eligible r0 = true) ->
  count_rows eligible' t' <= Z.max 0 (count_rows eligible t - limit).
Proof.
  intros Hl Hsub. rewrite !count_rows_ids.
  set (ids := sort_by (fun id : Z => id) (eligible_ids eligible t)).
  assert (length (eligible_ids eligible t) = length ids) as -> by (symmetry; apply Permutation_length, batch_sorted_ids).
  enough (length (eligible_ids eligible' t') <= length (drop (Z.to_nat limit) ids))%nat as Hle
    by (rewrite length_drop in Hle; lia).
  apply submseteq_length, NoDup_submseteq; [apply eligible_ids_nodup|].
  intros id (r & Hr & He)%elem_of_eligible_ids. destruct (Hsub _ _ Hr He) as [Hnot H0].
  apply elem_of_eligible_ids in H0. rewrite <- batch_sorted_ids in H0. fold ids in H0.
  rewrite <- (take_drop (Z.to_nat limit) ids) in H0. apply elem_of_app in H0 as [H0|H0]; [|done].
  by destruct Hnot.
Qed.
End Batch.

(** ** Live rows *)

(** For each retention key, the instant before which rows may be deleted. *)
Definition Bound : Type := string -> option Z.

Definition live (B : Bound) (key : string) (created : Z) : Prop := forall b, B key = Some b -> b <= created.

(** The active policies delete nothing past the bound. *)
Definition within (policies : Policies) (B : Bound) : Prop :=
  forall key p, active policies key = Some p -> exists b, B key = Some b /\ ps_cutoff p <= b.

(** An event lives on its own, or for an attempt of its request. *)
Definition live_event (B : Bound) (db : RetentionDb) (e : EventRow) : Prop :=
  live B "usage_events" (ev_created_at e)
  \/ exists id a, rd_attempts db !! id = Some a /\ at_request_id a = ev_request_id e
       /\ live B "usage_attempts" (at_created_at a).

Definition kept {R} (P : R -> Prop) (t t' : gmap Z R) : Prop :=
  forall id r, t !! id = Some r -> P r -> t' !! id = Some r.

Record keeps_live (B : Bound) (d d' : RetentionDb) : Prop := {
  kl_attempts : kept (fun a => live B "usage_attempts" (at_created_at a)) (rd_attempts d) (rd_attempts d');
  kl_events : kept (live_event B d) (rd_events d) (rd_events d');
  kl_audit : kept (fun row => live B "audit" (al_created_at row)) (rd_audit d) (rd_audit d');
  kl_tests : kept (live B "audit") (rd_tests d) (rd_tests d');
  kl_health : kept (live B "audit") (he_created_at <$> rd_health d) (he_created_at <$> rd_health d');
  kl_discovery : kept (live B "discovery") (rd_discovery d) (rd_discovery d');
  kl_system : kept (live B "system_events") (rd_system d) (rd_system d');
}.

Lemma kept_refl {R} (P : R -> Prop) t : kept P t t.
Proof. by intros ?. Qed.
#[export] Hint Resolve kept_refl : keeps.

#[global] Instance keeps_live_preorder B : PreOrder (keeps_live B).
Proof.
  split.
  - intros d. split; apply kept_refl.
  - intros d1 d2 d3 [] []. split; try (unfold kept in *; by eauto).
    intros id e He Hl. apply kl_events1; [by apply kl_events0|]. destruct Hl as [?|(i & a & Ha & Hr & Hl)]; [by left|].
    right. exists i, a. split; [by apply kl_attempts0|done].
Qed.

Lemma kept_delete {R} (P : R -> Prop) (ids : list Z) (t : gmap Z R) :
  (forall id r, id ∈ ids -> t !! id = Some r -> ~ P r) -> kept P t (delete_ids ids t).
Proof. intros Hn id r Hr Hp. apply delete_ids_lookup. split; [done|]. intros Hid. by eapply Hn. Qed.

Lemma kept_batch {R} (P : R -> Prop) (eligible : R -> bool) limit (t : gmap Z R) :
  (forall id r, t !! id = Some r -> eligible r = true -> ~ P r) -> kept P t (delete_ids (batch eligible limit t) t).
Proof.
  intros Hn. apply kept_delete. intros id r (r0 & Hr0 & He)%batch_elem Hr. simplify_eq. by eapply Hn.
Qed.

Lemma expired_not_live policies B key p created :
  within policies B -> active policies key = Some p -> expired (ps_cutoff p) created = true -> ~ live B key created.
Proof.
  intros Hw Hp He Hl. destruct (Hw _ _ Hp) as (b & Hb & Hle). specialize (Hl _ Hb). unfold expired in He. lia.
Qed.

Lemma event_eligible_not_live policies B p db e :
  within policies B -> active policies "usage_events" = Some p ->
  event_eligible db (ps_cutoff p) (attempt_guard policies) e = true ->
  ~ live_event B db e /\ forall id a, rd_attempts db !! id = Some a -> at_request_id a = ev_request_id e ->
      ~ live B "usage_attempts" (at_created_at a).
Proof.
  unfold event_eligible. intros Hw Hp [He Hn]%andb_true_iff. apply negb_true_iff in Hn.
  assert (forall id a, rd_attempts db !! id = Some a -> at_request_id a = ev_request_id e ->
      ~ live B "usage_attempts" (at_created_at a)) as Ha.
  { intros id a Ha Hr Hl. apply not_true_iff_false in Hn. apply Hn, existsb_exists. exists (id, a).
    split; [by apply list_elem_of_In, elem_of_map_to_list|]. cbn [snd]. rewrite Hr, String.eqb_refl. cbn.
    unfold attempt_guard. destruct (active policies "usage_attempts") as [q|] eqn:Eq; cbn; [|done].
    destruct (expired (ps_cutoff q) (at_created_at a)) eqn:Ee; [|done]. by destruct (expired_not_live _ _ _ _ _ Hw Eq Ee). }
  split; [|exact Ha]. intros [Hl|(id & a & Hat & Hr & Hl)]; [|by eapply Ha].
  by eapply expired_not_live.
Qed.

(** What every deletion respects, a batch of deletions respects. *)
Lemma delete_batches_rel (Q : RetentionDb -> RetentionDb -> Prop) `{!PreOrder Q} policies n db x db' :
  (forall p d y d', active policies "usage_attempts" = Some p ->
     delete_attempt_batch (ps_cutoff p) n d = Ok (y, d') -> Q d d') ->
  (forall p d y d', active policies "usage_events" = Some p ->
     delete_event_batch (ps_cutoff p) (attempt_guard policies) n d = Ok (y, d') -> Q d d') ->
  (forall p d y d', active policies "audit" = Some p -> delete_audit_batch (ps_cutoff p) n d = Ok (y, d') -> Q d d') ->
  (forall p d y d', active policies "discovery" = Some p ->
     delete_discovery_batch (ps_cutoff p) n d = Ok (y, d') -> Q d d') ->
  (forall p d y d', active policies "system_events" = Some p ->
     delete_system_events_batch (ps_cutoff p) n d = Ok (y, d') -> Q d d') ->
  delete_batches policies n db = Ok (x, db') -> Q db db'.
Proof.
  intros Ha He Hl Hd Hs.
  assert (forall key delete d y d', (forall p, active policies key = Some p -> delete (ps_cutoff p) d = Ok (y, d') -> Q d d') ->
    delete_when policies key delete d = Ok (y, d') -> Q d d') as Hwhen.
  { intros key delete d y d' Hq. unfold delete_when. destruct (active policies key); [by apply Hq|]. by intros [= _ <-]. }
  intros (? & d1 & H1 & (? & d2 & H2 & (? & d3 & H3 & (? & d4 & H4 & (? & d5 & H5 & [= _ <-])%tx_bind_inv)%tx_bind_inv)
    %tx_bind_inv)%tx_bind_inv)%tx_bind_inv.
  apply Hwhen in H1, H2, H3, H4, H5; [|by eauto..].
  transitivity d1; [done|]. transitivity d2; [done|]. transitivity d3; [done|]. by transitivity d4.
Qed.

Ltac live_step := split; cbn; eauto with keeps.

Section Live.
Context (policies : Policies) (B : Bound) (Hw : within policies B).

Lemma delete_attempts_live p n db x db' :
  active policies "usage_attempts" = Some p -> delete_attempt_batch (ps_cutoff p) n db = Ok (x, db') ->
  keeps_live B db db'.
Proof.
  intros Hp [= _ <-]. live_step. apply kept_batch. intros id r _ He. by eapply expired_not_live.
Qed.

Lemma delete_events_live p n db x db' :
  active policies "usage_events" = Some p -> delete_event_batch (ps_cutoff p) (attempt_guard policies) n db = Ok (x, db') ->
  keeps_live B db db'.
Proof.
  intros Hp [= _ <-]. live_step.
  - intros id a Ha Hl. apply map_lookup_filter_Some. split; [done|]. cbn.
    intros (j & Hj & Hr)%list_elem_of_omap. apply batch_elem in Hj as (e & He & Hel). rewrite He in Hr.
    injection Hr as Hr. eapply (event_eligible_not_live _ _ _ _ _ Hw Hp) in Hel as [_ Hno].
    by eapply Hno.
  - apply kept_batch. intros id e _ Hel. by eapply (event_eligible_not_live _ _ _ _ _ Hw Hp) in Hel as [].
Qed.

Lemma delete_audit_live p n db x db' :
  active policies "audit" = Some p -> delete_audit_batch (ps_cutoff p) n db = Ok (x, db') -> keeps_live B db db'.
Proof.
  intros Hp [= _ <-]. live_step.
  - apply kept_batch. intros id r _ He. by eapply expired_not_live.
  - apply kept_batch. intros id r _ He. by eapply expired_not_live.
  - intros id c. rewrite !lookup_fmap, !fmap_Some. intros (r & Hr & ->) Hl.
    eexists. split; [|by instantiate (1 := forget_tests _ r)]. apply delete_ids_lookup. split.
    { by rewrite lookup_fmap, Hr. }
    intros (r0 & Hr0 & He)%batch_elem. rewrite lookup_fmap, Hr in Hr0. injection Hr0 as <-.
    by eapply expired_not_live.
Qed.

Lemma delete_discovery_live p n db x db' :
  active policies "discovery" = Some p -> delete_discovery_batch (ps_cutoff p) n db = Ok (x, db') -> keeps_live B db db'.
Proof. intros Hp [= _ <-]. live_step. apply kept_batch. intros id r _ He. by eapply expired_not_live. Qed.

Lemma delete_system_live p n db x db' :
  active policies "system_events" = Some p -> delete_system_events_batch (ps_cutoff p) n db = Ok (x, db') ->
  keeps_live B db db'.
Proof. intros Hp [= _ <-]. live_step. apply kept_batch. intros id r _ He. by eapply expired_not_live. Qed.

Lemma delete_batches_live n db x db' : delete_batches policies n db = Ok (x, db') -> keeps_live B db db'.
Proof.
  apply (delete_batches_rel (keeps_live B)); intros;
    eauto using delete_attempts_live, delete_events_live, delete_audit_live, delete_discovery_live, delete_system_live.
Qed.
End Live.

Lemma kept_insert {R} (P : R -> Prop) (t : gmap Z R) id r : t !! id = None -> kept P t (<[id := r]> t).
Proof.
  intros Hid j x Hx _. rewrite lookup_insert_ne; [done|]. intros ->. congruence.
Qed.

(** ** What the statements do to the runs *)

Lemma update_run_live B id guard f db : keeps_live B db (update_run id guard f db).
Proof. unfold update_run. destruct (rd_runs db !! id) as [r|]; [destruct (guard r)|]; [live_step|done..]. Qed.

Lemma update_run_lookup id guard f db j :
  rd_runs (update_run id guard f db) !! j
  = if bool_decide (j = id)
    then option_map (fun r => if guard r then f r else r) (rd_runs db !! id)
    else rd_runs db !! j.
Proof.
  unfold update_run. destruct (rd_runs db !! id) as [r|] eqn:Er.
  - destruct (guard r) eqn:Eg; cbn.
    + case_bool_decide as Hj; [subst; rewrite lookup_insert_eq; cbn; by rewrite Eg|by rewrite lookup_insert_ne].
    + case_bool_decide as Hj; [subst; by rewrite Er; cbn; rewrite Eg|done].
  - case_bool_decide as Hj; [by subst|done].
Qed.

(** The runs after a statement: each run is left alone or changed by [f]. *)
Definition runs_by (E : CleanupRun -> CleanupRun -> Prop) (d d' : RetentionDb) : Prop :=
  forall id run, rd_runs d !! id = Some run -> exists run', rd_runs d' !! id = Some run' /\ E run run'.

#[global] Instance runs_by_preorder E `{!PreOrder E} : PreOrder (runs_by E).
Proof.
  split.
  - intros d id run Hr. by exists run.
  - intros d1 d2 d3 H1 H2 id run Hr. destruct (H1 _ _ Hr) as (r2 & Hr2 & E2), (H2 _ _ Hr2) as (r3 & Hr3 & E3).
    exists r3. split; [done|]. by transitivity r2.
Qed.

Lemma update_run_by E `{!PreOrder E} id guard f db :
  (forall r, rd_runs db !! id = Some r -> guard r = true -> E r (f r)) -> runs_by E db (update_run id guard f db).
Proof.
  intros Hf j run Hrun. rewrite update_run_lookup. case_bool_decide as Hj; [subst|by exists run].
  rewrite Hrun. cbn. eexists. split; [done|]. destruct (guard run) eqn:Eg; [by apply Hf|done].
Qed.

Section Audit.
Context `{UrlCrates} `{UrlEdit}.

Lemma append_audit_inv op action status actor details code message now db x db' :
  append_audit_tx op action status actor details code message now db = Ok (x, db') ->
  exists row, db' = set_audit (<[rd_audit_seq db + 1 := row]> (rd_audit db)) (rd_audit_seq db + 1) db
    /\ rd_audit db !! (rd_audit_seq db + 1) = None /\ al_created_at row = now.
Proof. unfold append_audit_tx. destruct (rd_audit db !! _) eqn:E; [done|]. intros [= _ <-]. by eexists. Qed.

Lemma append_audit_live B op action status actor details code message now db x db' :
  append_audit_tx op action status actor details code message now db = Ok (x, db') -> keeps_live B db db'.
Proof. intros (row & -> & Hn & _)%append_audit_inv. live_step. by apply kept_insert. Qed.

Lemma append_audit_runs op action status actor details code message now db x db' :
  append_audit_tx op action status actor details code message now db = Ok (x, db') -> rd_runs db' = rd_runs db.
Proof. by intros (row & -> & _)%append_audit_inv. Qed.
End Audit.

Lemma runs_by_same E `{!PreOrder E} d d' : rd_runs d' = rd_runs d -> runs_by E d d'.
Proof. intros Hr id run. rewrite Hr. by exists run. Qed.

Lemma delete_batches_same {A} (f : RetentionDb -> A) policies n db x db' :
  (forall t d, f (set_attempts t d) = f d) -> (forall t d, f (set_events t d) = f d) ->
  (forall t q d, f (set_audit t q d) = f d) -> (forall t d, f (set_tests t d) = f d) ->
  (forall t d, f (set_health t d) = f d) -> (forall t d, f (set_discovery t d) = f d) ->
  (forall t d, f (set_system t d) = f d) -> delete_batches policies n db = Ok (x, db') -> f db' = f db.
Proof.
  intros Ha He Hl Ht Hh Hs Hy.
  assert (PreOrder (fun d d' => f d' = f d)) by (split; [by intros ?|intros ??? -> ->; done]).
  apply (delete_batches_rel (fun d d' => f d' = f d)); intros ? ? ? ? _ [= _ <-];
    by rewrite ?Ha, ?He, ?Hh, ?Hh, ?Ht, ?Hl, ?Hs, ?Hy.
Qed.

Lemma delete_batches_runs policies n db x db' : delete_batches policies n db = Ok (x, db') -> rd_runs db' = rd_runs db.
Proof. by apply (delete_batches_same rd_runs). Qed.

Lemma delete_batches_policies policies n db x db' :
  delete_batches policies n db = Ok (x, db') -> rd_policies db' = rd_policies db.
Proof. by apply (delete_batches_same rd_policies). Qed.

(** ** The shape of the jobs

    [JobOk I R allowed]: the statements of the retention jobs respect [R] under
    the invariant [I], for the policies [allowed].  The lemmas of this section
    lift it to the jobs, for every outcome and every interleaving. *)

(** What an update may do to a run. *)
Record evolves (r r' : CleanupRun) : Prop := {
  ev_id : cr_id r' = cr_id r;
  ev_dry_run : cr_dry_run r' = cr_dry_run r;
  ev_batch_size : cr_batch_size r' = cr_batch_size r;
  ev_max_batches : cr_max_batches r' = cr_max_batches r;
  ev_requested_by : cr_requested_by r' = cr_requested_by r;
  ev_policies : cr_policy_snapshot r' = cr_policy_snapshot r;
  ev_cutoffs : cr_cutoff_snapshot r' = cr_cutoff_snapshot r;
  ev_batches : cr_batches_completed r <= cr_batches_completed r';
  ev_final : cr_status r = Completed -> r' = r;
}.

#[global] Instance evolves_preorder : PreOrder evolves.
Proof.
  split; [by split|]. intros a b c [] []. split; try congruence; [lia|]. intros Ha.
  rewrite <- (ev_final0 Ha). apply ev_final1. by rewrite (ev_final0 Ha).
Qed.

Section Jobs.
Context `{UrlCrates} `{UrlEdit} `{Rfc3339} {env : OpsEnv RetentionDb}.
Context (I : RetentionDb -> Prop) (R : RetentionDb -> RetentionDb -> Prop) `{!PreOrder R}.
Context (allowed : Policies -> Prop).

Abbreviation G := (guarded I R).

Record JobOk : Prop := {
  jo_others : forall k d, G d (op_others k d);
  jo_audit : forall op action status actor details code message now d x d',
    append_audit_tx op action status actor details code message now d = Ok (x, d') -> G d d';
  jo_delete : forall policies n d x d', allowed policies -> delete_batches policies n d = Ok (x, d') -> G d d';
  jo_update : forall id guard f d,
    (forall r, rd_runs d !! id = Some r -> guard r = true -> evolves r (f r)) -> G d (update_run id guard f d);
}.

Context (ok : JobOk).

Lemma ok_read {A} (f : RetentionDb -> A) : keeps G (o_read f).
Proof. apply keeps_read; [typeclasses eauto|apply ok]. Qed.

Lemma ok_audit op action status actor details code message :
  keeps G (append_audit op action status actor details code message).
Proof. apply keeps_tx; [typeclasses eauto|apply ok|]. intros now d x d' Hx. by eapply jo_audit. Qed.

Lemma ok_update id guard (f : Z -> CleanupRun -> CleanupRun) :
  (forall now r, guard r = true -> evolves r (f now r)) -> keeps G (o_write (fun now => update_run id guard (f now))).
Proof.
  intros Hf. apply keeps_write; [typeclasses eauto|apply ok|]. intros now d. apply jo_update; [apply ok|].
  intros r _. apply Hf.
Qed.

Lemma ok_bind {A B} (m : Om RetentionDb A) (f : A -> Om RetentionDb B) :
  keeps G m -> (forall x, keeps G (f x)) -> keeps G (o_bind m f).
Proof. intros Hm Hf. by apply keeps_bind; [typeclasses eauto| |]. Qed.

Ltac job :=
  repeat first
    [ apply ok_bind; [|intros ?]
    | apply keeps_try | apply keeps_of; typeclasses eauto | apply keeps_ret; typeclasses eauto
    | apply keeps_ask; typeclasses eauto | apply ok_read | apply ok_audit ].

Lemma ok_expect id : keeps G (expect_cleanup id).
Proof. unfold expect_cleanup, get_cleanup. job. Qed.

Lemma ok_count policies : keeps G (count_candidates policies).
Proof.
  assert (forall key q, keeps G (count_when policies key q)) as Hc.
  { intros key q. unfold count_when. destruct (active policies key); [apply ok_read|job]. }
  unfold count_candidates. repeat (apply ok_bind; [apply Hc|intros ?]). job.
Qed.

Lemma status_in_spec l r : status_in l r = true <-> cr_status r ∈ l.
Proof. unfold status_in. by rewrite bool_decide_eq_true. Qed.

Lemma not_completed r l : negb (status_in l r) = true -> Completed ∈ l -> cr_status r <> Completed.
Proof. intros Hn Hl Hc. apply negb_true_iff, not_true_iff_false in Hn. apply Hn, status_in_spec. by rewrite Hc. Qed.

Lemma ok_failed id error : keeps G (mark_cleanup_failed id error).
Proof.
  unfold mark_cleanup_failed. job. apply ok_update. intros now r Hr. split; try done.
  intros Hc. by eapply not_completed in Hr as []; [|left].
Qed.

Lemma ok_round_tx run policies n now d x d' : allowed policies -> round_tx run policies n now d = Ok (x, d') -> G d d'.
Proof.
  intros Hp. unfold round_tx. destruct (rd_runs d !! cr_id run) as [state|] eqn:Es; [|done].
  destruct (status_in _ state) eqn:Est; [by intros [= _ <-]|].
  assert (cr_status state <> Completed) as Hnc
    by (intros Hc; apply not_true_iff_false in Est; apply Est, status_in_spec; rewrite Hc; left).
  destruct (cr_cancel_requested state || _).
  - intros (? & d1 & [= _ <-] & (? & d2 & H2 & [= _ <-])%tx_bind_inv)%tx_bind_inv.
    transitivity (update_run (cr_id run) (fun _ => true) (mark_cancelled now) d); [|by eapply jo_audit].
    apply jo_update; [apply ok|]. intros r Hr _. simplify_eq. by split.
  - intros (deleted & d1 & Hd1 & (? & d2 & [= _ <-] & (? & d3 & Hd3 & [= _ <-])%tx_bind_inv)%tx_bind_inv)%tx_bind_inv.
    transitivity d1; [by eapply jo_delete|]. etransitivity; [|eapply jo_audit; [apply ok|exact Hd3]].
    apply jo_update; [apply ok|]. intros r Hr _. apply delete_batches_runs in Hd1. rewrite Hd1, Es in Hr.
    injection Hr as <-. split; try done. cbn. lia.
Qed.

Lemma ok_round run policies n : allowed policies -> keeps G (cleanup_round run policies n).
Proof.
  intros Hp. unfold cleanup_round. apply ok_bind.
  { apply keeps_tx; [typeclasses eauto|apply ok|]. intros. by eapply ok_round_tx. }
  intros [cancelled|deleted]; [job|]. apply ok_bind; [apply ok_count|intros candidates].
  assert (forall r, is_running r = true -> cr_status r <> Completed) as Hrun.
  { unfold is_running. intros r Hr%bool_decide_eq_true. by rewrite Hr. }
  apply ok_bind; [|intros _; apply ok_bind; [destruct (0 <? _); job|intros _; job]].
  all: apply ok_update; intros now r Hr%Hrun; by split.
Qed.

Lemma ok_rounds run policies n : forall rounds, allowed policies -> keeps G (cleanup_rounds run policies rounds n).
Proof.
  induction n as [|n IH]; intros rounds Hp; cbn [cleanup_rounds]; [job|].
  apply ok_bind; [by apply keeps_try, ok_round|]. intros [[deleted cancelled]|e].
  - destruct cancelled; [job|]. destruct (deleted =? 0); [job|by apply IH].
  - apply ok_bind; [apply ok_failed|intros _; job].
Qed.

Lemma ok_dry run policies : keeps G (finish_dry_run run policies).
Proof.
  unfold finish_dry_run. assert (keeps G (o_ret run)) as Hret by job.
  destruct (cr_status run); [|exact Hret|..]; (apply ok_bind; [apply ok_count|intros counts]);
    (apply ok_bind; [|intros _; apply ok_bind; [apply ok_audit|intros _; apply ok_expect]]);
    (apply ok_update; intros now r Hr; split; try done; intros Hc; by eapply not_completed in Hr as []; [|left]).
Qed.

(** The jobs on the [good] runs, whose stored policies are [allowed]. *)
Context (good : string -> Prop).
Hypothesis stored : forall id d run now policies, good id -> I d -> rd_runs d !! id = Some run ->
  policy_map_from_snapshot now (cr_policy_snapshot run) (cr_cutoff_snapshot run) = Ok policies -> allowed policies.

Lemma ok_run id : good id -> keeps G (run_cleanup id).
Proof.
  intros Hid. unfold run_cleanup. unfold expect_cleanup at 1. unfold get_cleanup. apply keeps_assoc.
  apply (keeps_bind_read I R); [apply ok|]. intros d Hd. apply (keeps_bind_of G). intros run Hrun.
  apply keeps_bind_ask. intros k. apply (keeps_bind_of G). intros policies Hp.
  destruct (cr_dry_run run); [apply ok_dry|]. apply ok_bind; [|intros _; apply ok_expect]. apply ok_rounds.
  destruct (rd_runs d !! id) as [r|] eqn:Er; [|done]. injection Hrun as ->. by eapply stored.
Qed.

Lemma ok_prepare id actor : keeps G (prepare_cleanup_retry id actor).
Proof.
  unfold prepare_cleanup_retry. apply ok_bind; [|intros _; apply ok_audit].
  apply ok_update. intros now r Hr%status_in_spec. split; try done. intros Hc. rewrite Hc in Hr.
  repeat (apply elem_of_cons in Hr as [?|Hr]; [done|]). by apply elem_of_nil in Hr.
Qed.

Lemma ok_retry id actor : good id -> keeps G (retry_cleanup id actor).
Proof.
  intros Hid. unfold retry_cleanup. apply ok_bind; [apply ok_expect|intros current].
  assert (keeps G (let# _ := prepare_cleanup_retry id (sanitize_actor actor) in run_cleanup id)) as Hgo
    by (apply ok_bind; [apply ok_prepare|intros _; by apply ok_run]).
  destruct (cr_status current); try exact Hgo. job.
Qed.

Lemma ok_cancel id actor : keeps G (cancel_cleanup id actor).
Proof.
  unfold cancel_cleanup. apply ok_bind; [|intros _; apply ok_expect].
  apply keeps_tx; [typeclasses eauto|apply ok|]. intros now d x d'. unfold cancel_tx.
  destruct (rd_runs d !! id) as [run|] eqn:Er; [|done]. destruct (status_in _ run) eqn:Es; [by intros [= _ <-]|].
  intros (? & d1 & [= _ <-] & Ha)%tx_bind_inv. etransitivity; [|by eapply jo_audit].
  apply jo_update; [apply ok|]. intros r Hr _. simplify_eq. split; try done. intros Hc.
  exfalso. apply not_true_iff_false in Es. apply Es, status_in_spec. rewrite Hc. left.
Qed.

Section Start.
Context (request : CleanupRequest).
Hypothesis names : forall k, good (unwrap_or (cq_operation_id request) (op_uuid k)).
Hypothesis inserts : forall id d0 k selected actor now d x d', good id -> I d0 ->
  let policies := policies_at (op_now k) selected (sort_by rp_policy_key (map_to_list (rd_policies d0)).*2) in
  insert_run request id actor (policy_snapshot policies) (cutoff_snapshot policies) now d = Ok (x, d') -> G d d'.

Lemma ok_existing id existing actor :
  good id -> keeps G match cr_status existing with
          | Completed | Cancelled => o_ret existing
          | Failed => let# _ := prepare_cleanup_retry id actor in run_cleanup id
          | _ => run_cleanup id
          end.
Proof.
  intros Hid. pose proof (ok_run id Hid) as Hrun. destruct (cr_status existing); [exact Hrun|job| |exact Hrun|job].
  apply ok_bind; [apply ok_prepare|intros _; exact Hrun].
Qed.

Lemma ok_start : keeps G (start_cleanup request).
Proof.
  unfold start_cleanup. apply ok_bind; [job|intros _]. apply keeps_bind_ask. intros k0.
  pose proof (names k0) as Hid. set (id := unwrap_or (cq_operation_id request) (op_uuid k0)) in *.
  unfold load_policy_map, list_retention_policies. apply keeps_assoc.
  apply (keeps_bind_read I R); [apply ok|]. intros d0 Hd0. apply keeps_assoc, keeps_bind_ask. intros k.
  set (selected := option_map _ (cq_policy_keys request)).
  set (policies := policies_at (op_now k) selected _).
  match goal with |- keeps _ (o_bind _ ?k) => assert (keeps G (k policies)) as Hk end.
  2:{ destruct selected; [apply keeps_assoc, ok_bind; [job|intros _]|]; by apply keeps_bind_ret. }
  cbv beta. apply ok_bind; [apply ok_read|intros [existing|]].
  - destruct (negb _); [job|by apply ok_existing].
  - apply ok_bind.
    { apply keeps_tx; [typeclasses eauto|apply ok|]. intros now d x d'. by apply (inserts id). }
    intros [|]; [apply ok_bind; [job|intros _; by apply ok_run]|].
    apply ok_bind; [apply ok_read|intros existing]. apply ok_bind; [job|intros run].
    destruct (negb _); [job|]. pose proof (ok_run id Hid) as Hrun. destruct (cr_status run); try exact Hrun; job.
Qed.
End Start.
End Jobs.

(** ** The operations *)

Inductive CleanupJob : Type :=
| StartCleanup (request : CleanupRequest)
| RetryCleanup (id actor : string)
| CancelCleanup (id actor : string).

Section Claims.
Context `{UrlCrates} `{UrlEdit} `{Rfc3339} {env : OpsEnv RetentionDb}.

Definition run_job (job : CleanupJob) : Om RetentionDb CleanupRun :=
  match job with
  | StartCleanup request => start_cleanup request
  | RetryCleanup id actor => retry_cleanup id actor
  | CancelCleanup id actor => cancel_cleanup id actor
  end.

(** The run a job is about. *)
Definition job_on (good : string -> Prop) (job : CleanupJob) : Prop :=
  match job with
  | StartCleanup request => forall k, good (unwrap_or (cq_operation_id request) (op_uuid k))
  | RetryCleanup id _ | CancelCleanup id _ => good id
  end.

Lemma insert_run_inv request id actor policies cutoffs now d x d' :
  insert_run request id actor policies cutoffs now d = Ok (x, d') ->
  d' = d \/ exists run, rd_runs d !! id = None /\ d' = set_runs (<[id := run]> (rd_runs d)) d
    /\ cr_policy_snapshot run = policies /\ cr_cutoff_snapshot run = cutoffs.
Proof.
  unfold insert_run. destruct (rd_runs d !! id) eqn:Er; intros [= _ <-]; [by left|]. right. by eexists.
Qed.

(** Whatever happens during a retention operation, a cleanup run keeps
    its options, policies and cut-offs, never counts fewer batches, and once
    completed is never changed again: not by retrying, cancelling or repeating
    it, not by failures, and not by concurrent clients that respect the same. *)
Theorem completed_cleanups_are_final job s :
  (forall k d, runs_by evolves d (op_others k d)) -> runs_by evolves (op_db s) (op_db (run_job job s).2).
Proof.
  intros Ho. set (I := fun _ : RetentionDb => True).
  assert (JobOk I (runs_by evolves) (fun _ => True)) as ok.
  { split; unfold guarded, I.
    - intros k d _. by split.
    - intros. split; [done|]. apply runs_by_same; [typeclasses eauto|]. by eapply append_audit_runs.
    - intros policies n d x d' _ Hd _. split; [done|]. apply runs_by_same; [typeclasses eauto|].
      by eapply delete_batches_runs.
    - intros id guard f d Hf _. split; [done|]. by apply update_run_by; [typeclasses eauto|]. }
  assert (keeps (guarded I (runs_by evolves)) (run_job job)) as Hk; [|exact (proj2 (Hk s Logic.I))].
  destruct job as [request|id actor|id actor]; cbn [run_job].
  - apply (ok_start _ _ (fun _ => True) ok (fun _ => True)); [done|done|].
    intros id d0 k selected actor now d x d' _ _ policies Hi _. split; [done|].
    apply insert_run_inv in Hi as [->|(run & Hn & -> & _)]; [done|].
    intros j r Hr. exists r. split; [|done]. cbn. rewrite lookup_insert_ne; [done|]. intros ->. congruence.
  - by apply (ok_retry _ _ (fun _ => True) ok (fun _ => True)).
  - by apply (ok_cancel _ _ (fun _ => True) ok).
Qed.
End Claims.

(** ** Snapshots *)

Lemma fold_insert_collect {A V} (key : A -> string) (value : A -> V) (l : list A) :
  fold_left (fun acc x => bt_insert acc (key x) (value x)) l []
  = bt_collect (map (fun x => (key x, value x)) l).
Proof.
  unfold bt_collect. generalize (@nil (string * V)). induction l as [|x l IH]; intros acc; cbn; [done|]. apply IH.
Qed.

Lemma bt_map_wf {V W} (f : string * V -> W) (m : list (string * V)) :
  bt_wf m -> bt_wf (map (fun kv => (kv.1, f kv)) m).
Proof.
  unfold bt_wf. assert ((map (fun kv => (kv.1, f kv)) m).*1 = m.*1) as ->; [|done].
  induction m as [|[k v] m IH]; cbn; [done|]. by rewrite IH.
Qed.

Section Roundtrip.
Context `{Rfc3339}.
Hypothesis rfc3339 : forall t, parse_from_rfc3339 (to_rfc3339 t) = Some t.

Definition policy_json (p : PolicyState) : Value :=
  VObject [("enabled", VBool (ps_enabled p)); ("retention_days", of_i64 (ps_retention_days p))].
Definition cutoff_json (p : PolicyState) : Value :=
  if ps_enabled p then VString (to_rfc3339 (ps_cutoff p)) else VNull.

Lemma policy_snapshot_eq policies :
  bt_wf policies -> policy_snapshot policies = VObject (map (fun kv => (kv.1, policy_json kv.2)) policies).
Proof.
  intros Hwf. unfold policy_snapshot.
  rewrite (fold_insert_collect (fun kv : string * PolicyState => kv.1) (fun kv => policy_json kv.2)).
  by rewrite (bt_collect_id _ (bt_map_wf (fun kv => policy_json kv.2) _ Hwf)).
Qed.

Lemma cutoff_snapshot_eq policies :
  bt_wf policies -> cutoff_snapshot policies = VObject (map (fun kv => (kv.1, cutoff_json kv.2)) policies).
Proof.
  intros Hwf. unfold cutoff_snapshot.
  rewrite (fold_insert_collect (fun kv : string * PolicyState => kv.1) (fun kv => cutoff_json kv.2)).
  by rewrite (bt_collect_id _ (bt_map_wf (fun kv => cutoff_json kv.2) _ Hwf)).
Qed.

(** What is read back: a disabled policy has no cut-off of its own. *)
Definition reread (now : Z) (p : PolicyState) : PolicyState :=
  if ps_enabled p then p else mkPolicyState (ps_retention_days p) false (now - days_ns (ps_retention_days p)).

Lemma policy_json_days (b v : Value) : hm_get [("enabled", b); ("retention_days", v)] "retention_days" = Some v.
Proof. reflexivity. Qed.

Lemma policy_json_enabled (b v : Value) : hm_get [("enabled", b); ("retention_days", v)] "enabled" = Some b.
Proof. reflexivity. Qed.

Lemma as_i64_of_i64_inv n m : as_i64 (of_i64 n) = Some m -> m = n.
Proof.
  destruct n as [|q|q]; cbn; [by intros [= <-]| |by intros [= <-]].
  destruct (Z.leb _ _); [|done]. by intros [= <-].
Qed.

Lemma policy_state_of_json now cutoffs key p r :
  hm_get cutoffs key = Some (cutoff_json p) -> policy_state_of now cutoffs key (policy_json p) = Ok r -> r = reread now p.
Proof.
  intros Hc. unfold policy_state_of. destruct (validate_policy_key key); cbn [rbind]; [|done].
  cbn [as_object policy_json ok_or rbind].
  rewrite policy_json_days. cbn [mbind option_bind].
  destruct (as_i64 _) as [days|] eqn:Ed; cbn [ok_or rbind]; [|done]. apply as_i64_of_i64_inv in Ed as ->.
  destruct (_ && _); cbn [ok_or rbind]; [|done]. destruct (validate_retention_days _); cbn [rbind]; [|done].
  rewrite Hc, policy_json_enabled. unfold cutoff_json, reread. destruct p as [days [] cutoff]; cbn; [|by intros [= <-]].
  rewrite rfc3339. cbn. by intros [= <-].
Qed.

Lemma policies_of_json now cutoffs policies acc r :
  (forall key p, (key, p) ∈ policies -> hm_get cutoffs key = Some (cutoff_json p)) ->
  policies_of now cutoffs (map (fun kv => (kv.1, policy_json kv.2)) policies) acc = Ok r ->
  r = fold_left (fun acc kv => bt_insert acc kv.1 (reread now kv.2)) policies acc.
Proof.
  revert acc. induction policies as [|[key p] policies IH]; intros acc Hc; cbn; [by intros [= <-]|].
  destruct (policy_state_of _ _ _ _) as [q|] eqn:Eq; cbn [rbind]; [|done].
  apply policy_state_of_json in Eq as ->; [|by apply Hc; left]. apply IH. intros k v Hkv. apply Hc. by right.
Qed.

Lemma stored_policies_reread now policies r :
  bt_wf policies -> policy_map_from_snapshot now (policy_snapshot policies) (cutoff_snapshot policies) = Ok r ->
  r = map (fun kv => (kv.1, reread now kv.2)) policies.
Proof.
  intros Hwf. unfold policy_map_from_snapshot. rewrite policy_snapshot_eq, cutoff_snapshot_eq by done. cbn [as_object ok_or rbind].
  intros Hr%policies_of_json.
  - rewrite Hr, (fold_insert_collect fst (fun kv => reread now kv.2)).
    apply bt_collect_id, (bt_map_wf (fun kv => reread now kv.2) _ Hwf).
  - intros key p Hp. apply hm_get_in.
    + unfold hm_wf. apply bt_wf_nodup. exact (bt_map_wf (fun kv => cutoff_json kv.2) _ Hwf).
    + apply list_elem_of_fmap. by exists (key, p).
Qed.

Lemma bt_get_map {V W} (f : V -> W) (m : list (string * V)) k :
  bt_get (map (fun kv => (kv.1, f kv.2)) m) k = option_map f (bt_get m k).
Proof. induction m as [|[j v] m IH]; cbn; [done|]. by destruct (str_cmp k j). Qed.

Lemma active_reread now policies key :
  active (map (fun kv => (kv.1, reread now kv.2)) policies) key = active policies key.
Proof.
  unfold active. rewrite bt_get_map. destruct (bt_get policies key) as [p|]; [|done]. cbn. unfold reread.
  destruct (ps_enabled p) eqn:Ee; cbn; by rewrite ?Ee.
Qed.

(** The policies and cut-offs a run stores are read back exactly: for
    known keys and retention periods in range the snapshots decode, every
    active policy keeps the cut-off fixed when the run was started, however
    much later it is resumed. *)
Theorem cutoffs_survive_the_snapshot now policies :
  bt_wf policies ->
  (forall key p, (key, p) ∈ policies -> key ∈ RETENTION_KEYS /\ 0 <= ps_retention_days p <= 36500) ->
  exists r, policy_map_from_snapshot now (policy_snapshot policies) (cutoff_snapshot policies) = Ok r
    /\ forall key, active r key = active policies key.
Proof.
  intros Hwf Hok.
  destruct (policy_map_from_snapshot now (policy_snapshot policies) (cutoff_snapshot policies)) as [r|e] eqn:E.
  { exists r. split; [done|]. apply stored_policies_reread in E as ->; [|done]. intros key. apply active_reread. }
  exfalso. unfold policy_map_from_snapshot in E. rewrite policy_snapshot_eq, cutoff_snapshot_eq in E by done.
  cbn [as_object ok_or rbind] in E.
  set (cutoffs := map (fun kv => (kv.1, cutoff_json kv.2)) policies) in E.
  assert (forall key p, (key, p) ∈ policies -> hm_get cutoffs key = Some (cutoff_json p)) as Hc.
  { intros key p Hp. apply hm_get_in.
    + unfold hm_wf. apply bt_wf_nodup. exact (bt_map_wf (fun kv => cutoff_json kv.2) _ Hwf).
    + apply list_elem_of_fmap. by exists (key, p). }
  clearbody cutoffs. clear Hwf. revert E. generalize (@nil (string * PolicyState)).
  induction policies as [|[key p] policies IH]; intros acc; cbn; [done|].
  destruct (Hok key p) as [Hk Hd]; [by left|].
  assert (exists q, policy_state_of now cutoffs key (policy_json p) = Ok q) as [q ->].
  { unfold policy_state_of, validate_policy_key. rewrite (proj2 (existsb_eqb_elem _ _) Hk). cbn [rbind].
    cbn [as_object policy_json ok_or rbind]. rewrite policy_json_days. cbn [mbind option_bind].
    rewrite as_i64_of_i64 by (unfold I64_MAX; lia). cbn [ok_or rbind].
    rewrite (proj2 (andb_true_iff _ _)) by (unfold I32_MAX; rewrite !Z.leb_le; lia). cbn [ok_or rbind].
    unfold validate_retention_days. rewrite (proj2 (andb_true_iff _ _)) by (rewrite !Z.leb_le; lia). cbn [rbind].
    rewrite (Hc key p) by by left. unfold cutoff_json. destruct (ps_enabled p); cbn; [rewrite rfc3339|]; by eexists. }
  cbn [rbind]. apply IH; [intros k v Hkv; apply Hok; by right|intros k v Hkv; apply Hc; by right].
Qed.
End Roundtrip.

(** ** Live rows survive *)

Lemma policies_at_spec now selected rows :
  let policies := policies_at now selected rows in
  bt_wf policies
  /\ forall key p, (key, p) ∈ policies -> exists row, row ∈ rows /\ rp_policy_key row = key /\ p = policy_entry now row.
Proof.
  unfold policies_at.
  assert (forall acc, bt_wf acc ->
    (forall key p, (key, p) ∈ acc -> exists row, row ∈ rows /\ rp_policy_key row = key /\ p = policy_entry now row) ->
    let policies := fold_left (fun acc row =>
      if is_some_and selected (fun keys => negb (existsb (String.eqb (rp_policy_key row)) keys)) then acc
      else bt_insert acc (rp_policy_key row) (policy_entry now row)) rows acc in
    bt_wf policies
    /\ forall key p, (key, p) ∈ policies -> exists row, row ∈ rows /\ rp_policy_key row = key /\ p = policy_entry now row)
    as Hgen; [|by apply Hgen; [apply bt_wf_nil|intros ?? ?%elem_of_nil]].
  enough (forall l acc, (forall row, row ∈ l -> row ∈ rows) -> bt_wf acc ->
    (forall key p, (key, p) ∈ acc -> exists row, row ∈ rows /\ rp_policy_key row = key /\ p = policy_entry now row) ->
    let policies := fold_left (fun acc row =>
      if is_some_and selected (fun keys => negb (existsb (String.eqb (rp_policy_key row)) keys)) then acc
      else bt_insert acc (rp_policy_key row) (policy_entry now row)) l acc in
    bt_wf policies
    /\ forall key p, (key, p) ∈ policies -> exists row, row ∈ rows /\ rp_policy_key row = key /\ p = policy_entry now row)
    as Hl by (intros acc; by apply Hl).
  induction l as [|row l IH]; intros acc Hl Hwf Hin; cbn [fold_left]; [done|].
  destruct (is_some_and _ _); apply IH; try done; try (intros r Hr; apply Hl; by right).
  - by apply bt_insert_wf.
  - intros key p Hp. rewrite <- bt_get_in in Hp by by apply bt_insert_wf.
    destruct (decide (key = rp_policy_key row)) as [->|Hne].
    + rewrite bt_get_insert_eq in Hp by done. injection Hp as <-. exists row. split_and!; [apply Hl; left|done|done].
    + rewrite bt_get_insert_ne in Hp by done. apply Hin. by apply bt_get_in.
Qed.

Section Survive.
Context `{UrlCrates} `{UrlEdit} `{Rfc3339} {env : OpsEnv RetentionDb}.
Hypothesis rfc3339 : forall t, parse_from_rfc3339 (to_rfc3339 t) = Some t.
Context (B : Bound) (good : string -> Prop).

(** At no moment of the job does the policy expire a row that is live. *)
Definition policy_within (row : RetentionPolicy) : Prop :=
  rp_enabled row = true ->
  exists b, B (rp_policy_key row) = Some b /\ forall k, op_now k - days_ns (rp_retention_days row) <= b.

(** The policies a run stores delete nothing past the bound. *)
Definition sound (run : CleanupRun) : Prop :=
  forall now policies, policy_map_from_snapshot now (cr_policy_snapshot run) (cr_cutoff_snapshot run) = Ok policies ->
  within policies B.

(** The policies a job may go by: those of the table and those its run stores. *)
Definition retention_inv (d : RetentionDb) : Prop :=
  (forall key row, rd_policies d !! key = Some row -> policy_within row)
  /\ forall id run, good id -> rd_runs d !! id = Some run -> sound run.

Lemma inv_same d d' :
  rd_policies d' = rd_policies d -> rd_runs d' = rd_runs d -> retention_inv d -> retention_inv d'.
Proof. unfold retention_inv. by intros -> ->. Qed.

Lemma loaded_within k selected d : retention_inv d ->
  let policies := policies_at (op_now k) selected (sort_by rp_policy_key (map_to_list (rd_policies d)).*2) in
  bt_wf policies /\ within policies B.
Proof.
  intros [Ht _] policies. destruct (policies_at_spec (op_now k) selected (sort_by rp_policy_key (map_to_list (rd_policies d)).*2))
    as [Hwf Hin]. fold policies in Hwf, Hin. split; [done|].
  intros key p Hp. unfold active in Hp. destruct (bt_get policies key) as [q|] eqn:Eq; [|done]. cbn in Hp.
  destruct (ps_enabled q) eqn:Ee; [|done]. injection Hp as <-. apply bt_get_in in Eq; [|done].
  destruct (Hin _ _ Eq) as (row & Hrow & <- & ->). rewrite elem_of_sort_by in Hrow.
  apply list_elem_of_fmap in Hrow as ([key row'] & -> & Hrow%elem_of_map_to_list).
  destruct (Ht _ _ Hrow Ee) as (b & Hb & Hk). exists b. split; [exact Hb|]. apply Hk.
Qed.

Lemma retention_job_ok :
  (forall k d, guarded retention_inv (keeps_live B) d (op_others k d)) ->
  JobOk retention_inv (keeps_live B) (fun policies => within policies B).
Proof.
  intros Ho. split; [exact Ho|..].
  - intros op action status actor details code message now d x d' Ha Hi. split; [|by eapply append_audit_live].
    eapply inv_same; [| |exact Hi]; apply append_audit_inv in Ha as (row & -> & _); done.
  - intros policies n d x d' Hw Hd Hi. split; [|by eapply delete_batches_live].
    eapply inv_same; [by eapply delete_batches_policies|by eapply delete_batches_runs|exact Hi].
  - intros id guard f d Hf Hi. split; [|apply update_run_live]. destruct Hi as [Ht Hs]. split.
    { unfold update_run. destruct (rd_runs d !! id) as [r|]; [destruct (guard r)|]; done. }
    intros j run Hj. rewrite update_run_lookup. case_bool_decide as Hid; [|by apply Hs]. subst j.
    destruct (rd_runs d !! id) as [r|] eqn:Er; [|done]. cbn. intros [= <-].
    destruct (guard r) eqn:Eg; [|by eapply Hs]. destruct (Hf r) as [_ _ _ _ _ Hps Hcs _ _]; [done|done|].
    unfold sound. rewrite Hps, Hcs. by apply (Hs id).
Qed.

(** C11. Retention deletes only what a policy it goes by has expired.  A cleanup
    goes by the policies of the table when it is started and, when it is
    repeated, resumed or retried, by those its run was started with, even if
    they were changed or disabled since.  If no policy the table has at any
    moment of the job, and none stored in the run, expires a row of a category
    that was created at or after the instant [B] of the category (no row at all
    where there is none), then starting, repeating, retrying or cancelling the
    cleanup, with any failures and while other clients change whatever they
    like within [B], policies included, keeps every usage attempt, usage event,
    audit entry, connection test, health event, discovery run and system event
    that is live by [B], and keeps an event that is due as long as one of its
    attempts is live. *)
Theorem cleanup_keeps_live_rows job s :
  (forall k d, guarded retention_inv (keeps_live B) d (op_others k d)) ->
  job_on good job -> retention_inv (op_db s) -> keeps_live B (op_db s) (op_db (run_job job s).2).
Proof.
  intros Ho Hjob Hi. pose proof (retention_job_ok Ho) as ok.
  assert (keeps (guarded retention_inv (keeps_live B)) (run_job job)) as Hk; [|exact (proj2 (Hk s Hi))].
  assert (forall id d run now policies, good id -> retention_inv d -> rd_runs d !! id = Some run ->
    policy_map_from_snapshot now (cr_policy_snapshot run) (cr_cutoff_snapshot run) = Ok policies -> within policies B)
    as Hstored by (intros id d run now policies Hid [_ Hs] Hr; by apply (Hs id)).
  destruct job as [request|id actor|id actor]; cbn [run_job job_on] in *.
  - apply (ok_start _ _ _ ok good Hstored _ Hjob).
    intros id d0 k selected actor now d x d' Hid Hd0 policies Hins Hd.
    destruct (loaded_within k selected d0 Hd0) as [Hwf Hw]. fold policies in Hwf, Hw.
    apply insert_run_inv in Hins as [->|(run & Hn & -> & Hps & Hcs)]; [done|]. split; [|split; cbn; eauto with keeps].
    destruct Hd as [Ht Hs]. split; [exact Ht|]. intros j r Hj. cbn. intros [[<- <-]|[Hne Hr]]%lookup_insert_Some.
    + intros now' P. rewrite Hps, Hcs. intros ->%stored_policies_reread; [|done..].
      intros key p. rewrite active_reread. apply Hw.
    + by apply (Hs j).
  - by apply (ok_retry _ _ _ ok good Hstored).
  - by apply (ok_cancel _ _ _ ok).
Qed.
End Survive.
