(* ===== verification/CleanupDone.v ===== *)
(** * Cleanups finish

    Without interference, a cleanup with enough rounds ends [Completed] with
    nothing left to delete, and every round deletes at most a batch per table.

    [pending] counts the candidates of each table; [shrink] says what deleting
    a batch does to them.  A round shrinks every table by the batch size, so
    [n] rounds are enough when no table has more than [n] batches. *)

From Stdlib Require Import ZArith Lia Ascii.
From stdpp Require Import base gmap list strings.
From S2P Require Import Prelude.
From S2P Require Import RustStr.
From S2P Require Import BTree.
From S2P Require Import Tx.
From S2P Require Import Json.
From S2P Require Import SourceUrl.
From S2P Require Import Redaction.
From S2P Require Import Ops.
From S2P Require Import Cleanup.
From S2P Require Import CleanupProps.

(** ** Candidates *)

Inductive Table : Type := Attempts | Events | Logs | Tests | HealthEvents | DiscoveryRuns | SystemEvents.

#[global] Instance Table_eq_dec : EqDecision Table.
Proof. solve_decision. Defined.

Definition all_tables : list Table := [Attempts; Events; Logs; Tests; HealthEvents; DiscoveryRuns; SystemEvents].

Definition key_of (t : Table) : string :=
  match t with
  | Attempts => "usage_attempts" | Events => "usage_events" | Logs | Tests | HealthEvents => "audit"
  | DiscoveryRuns => "discovery" | SystemEvents => "system_events"
  end.

(** The candidates of a table under a cut-off. *)
Definition candidates (policies : Policies) (t : Table) (cutoff : Z) (d : RetentionDb) : Z :=
  match t with
  | Attempts => count_rows (fun a => expired cutoff (at_created_at a)) (rd_attempts d)
  | Events => count_rows (event_eligible d cutoff (attempt_guard policies)) (rd_events d)
  | Logs => count_rows (fun row => expired cutoff (al_created_at row)) (rd_audit d)
  | Tests => count_rows (expired cutoff) (rd_tests d)
  | HealthEvents => count_rows (fun row => expired cutoff (he_created_at row)) (rd_health d)
  | DiscoveryRuns => count_rows (expired cutoff) (rd_discovery d)
  | SystemEvents => count_rows (expired cutoff) (rd_system d)
  end.

Definition pending (policies : Policies) (t : Table) (d : RetentionDb) : Z :=
  match active policies (key_of t) with Some p => candidates policies t (ps_cutoff p) d | None => 0 end.

Lemma candidates_nonneg policies t cutoff d : 0 <= candidates policies t cutoff d.
Proof. destruct t; apply count_rows_nonneg. Qed.

Lemma pending_nonneg policies t d : 0 <= pending policies t d.
Proof. unfold pending. destruct (active _ _); [apply candidates_nonneg|done]. Qed.

Lemma count_mono {R} (eligible eligible' : R -> bool) (t t' : gmap Z R) :
  (forall id r, t' !! id = Some r -> eligible' r = true -> exists r0, t !! id = Some r0 /\ eligible r0 = true) ->
  count_rows eligible' t' <= count_rows eligible t.
Proof.
  intros Hsub. rewrite !count_rows_ids. apply inj_le, submseteq_length, NoDup_submseteq; [apply eligible_ids_nodup|].
  intros id (r & Hr & He)%elem_of_eligible_ids. apply elem_of_eligible_ids. by eapply Hsub.
Qed.

Section Shrink.
Context (policies : Policies) (size : Z) (Hsize : 1 <= size).

(** Deleting [x] rows from [tables], a batch from each. *)
Record shrink (tables : list Table) (d d' : RetentionDb) (x : Z) : Prop := {
  sh_others : forall u, u ∉ tables -> pending policies u d' <= pending policies u d;
  sh_tables : forall u, u ∈ tables -> pending policies u d' <= Z.max 0 (pending policies u d - size);
  sh_count : 0 <= x;
  sh_progress : forall u, u ∈ tables -> 0 < pending policies u d' -> 0 < x;
}.

Lemma shrink_le tables d d' x u : shrink tables d d' x -> pending policies u d' <= pending policies u d.
Proof.
  intros []. destruct (decide (u ∈ tables)) as [Hu|Hu]; [|by apply sh_others0].
  specialize (sh_tables0 _ Hu). pose proof (pending_nonneg policies u d). lia.
Qed.

Lemma shrink_trans ts1 ts2 d1 d2 d3 x y :
  shrink ts1 d1 d2 x -> shrink ts2 d2 d3 y -> shrink (ts1 ++ ts2) d1 d3 (x + y).
Proof.
  intros H12 H23. pose proof (fun u => shrink_le _ _ _ _ u H12) as L12. pose proof (fun u => shrink_le _ _ _ _ u H23) as L23.
  destruct H12, H23. split.
  - intros u _. specialize (L12 u). specialize (L23 u). lia.
  - intros u [Hu|Hu]%elem_of_app.
    + specialize (sh_tables0 _ Hu). specialize (L23 u). lia.
    + specialize (sh_tables1 _ Hu). specialize (L12 u). lia.
  - lia.
  - intros u [Hu|Hu]%elem_of_app Hp.
    + specialize (L23 u). specialize (sh_progress0 u Hu). lia.
    + specialize (sh_progress1 u Hu Hp). lia.
Qed.

(** One table loses a batch; the other tables keep their candidates. *)
Lemma shrink_batch {R} t p (eligible eligible' : R -> bool) (rows rows' : gmap Z R) d d' :
  active policies (key_of t) = Some p ->
  candidates policies t (ps_cutoff p) d = count_rows eligible rows ->
  candidates policies t (ps_cutoff p) d' = count_rows eligible' rows' ->
  (forall id r, rows' !! id = Some r -> eligible' r = true ->
     id ∉ batch eligible size rows /\ exists r0, rows !! id = Some r0 /\ eligible r0 = true) ->
  (forall u, u <> t -> pending policies u d' <= pending policies u d) ->
  shrink [t] d d' (Z.of_nat (length (batch eligible size rows))).
Proof.
  intros Hp Hd Hd' Hsub Ho.
  assert (count_rows eligible' rows' <= Z.max 0 (count_rows eligible rows - size)) as Hle
    by (apply count_after_batch; [lia|done]).
  assert (forall d, pending policies t d = candidates policies t (ps_cutoff p) d) as Hpend
    by (intros e; unfold pending; by rewrite Hp).
  split.
  - intros u Hu. apply Ho. intros ->. apply Hu. left.
  - intros u ->%list_elem_of_singleton. by rewrite !Hpend, Hd, Hd'.
  - lia.
  - intros u ->%list_elem_of_singleton. rewrite Hpend, Hd', batch_length by lia. lia.
Qed.

Lemma deleted_row {R} (eligible : R -> bool) (t : gmap Z R) id r :
  delete_ids (batch eligible size t) t !! id = Some r -> eligible r = true ->
  id ∉ batch eligible size t /\ exists r0, t !! id = Some r0 /\ eligible r0 = true.
Proof. intros [Hr Hid]%delete_ids_lookup He. eauto. Qed.

Lemma pending_same u d d' :
  (forall p, active policies (key_of u) = Some p -> candidates policies u (ps_cutoff p) d' <= candidates policies u (ps_cutoff p) d) ->
  pending policies u d' <= pending policies u d.
Proof. unfold pending. destruct (active _ _); [by eauto|done]. Qed.

(** Attempts that go do not protect an event, and those that stay do. *)
Lemma shrink_attempts p d x d' :
  active policies "usage_attempts" = Some p -> delete_attempt_batch (ps_cutoff p) size d = Ok (x, d') ->
  shrink [Attempts] d d' x.
Proof.
  intros Hp [= <- <-]. eapply shrink_batch; [exact Hp|done|done|apply deleted_row|].
  intros u Hu. apply pending_same. intros q _. destruct u; try done.
  apply count_mono. intros id e He Hel. exists e. split; [done|]. cbn in He.
  unfold event_eligible in *. apply andb_true_iff in Hel as [Hx Hn]. rewrite Hx. cbn.
  apply negb_true_iff, not_true_iff_false. apply negb_true_iff, not_true_iff_false in Hn. intros Hex. apply Hn.
  apply existsb_exists in Hex as ([i a] & Hi & Ha). apply existsb_exists. exists (i, a). split; [|exact Ha].
  apply list_elem_of_In, elem_of_map_to_list. apply list_elem_of_In, elem_of_map_to_list in Hi.
  cbn. apply delete_ids_lookup. split; [done|]. intros (a' & Ha' & Hexp)%batch_elem. simplify_eq.
  unfold attempt_guard in Ha. cbn [key_of] in Hp. rewrite Hp in Ha. cbn in Ha.
  apply andb_true_iff in Ha as [_ Ha]. by rewrite Hexp in Ha.
Qed.

Lemma shrink_events p d x d' :
  active policies "usage_events" = Some p -> delete_event_batch (ps_cutoff p) (attempt_guard policies) size d = Ok (x, d') ->
  shrink [Events] d d' x.
Proof.
  intros Hp [= <- <-]. eapply shrink_batch; [exact Hp|done|done| |].
  - cbn. intros id e He Hel. apply delete_ids_lookup in He as [He Hid]. split; [done|]. exists e. split; [done|].
    unfold event_eligible in *. apply andb_true_iff in Hel as [Hx Hn]. rewrite Hx. cbn.
    apply negb_true_iff, not_true_iff_false. apply negb_true_iff, not_true_iff_false in Hn. intros Hex. apply Hn.
    apply existsb_exists in Hex as ([i a] & Hi & Ha). apply existsb_exists. exists (i, a). split; [|exact Ha].
    apply list_elem_of_In, elem_of_map_to_list. apply list_elem_of_In, elem_of_map_to_list in Hi.
    cbn. apply map_lookup_filter_Some. split; [done|]. cbn.
    intros (j & Hj & Hr)%list_elem_of_omap. apply batch_elem in Hj as (e0 & He0 & Hel0). rewrite He0 in Hr.
    injection Hr as Hr. apply andb_true_iff in Hel0 as [_ Hn0]. apply negb_true_iff, not_true_iff_false in Hn0.
    apply Hn0. apply existsb_exists. exists (i, a). split; [by apply list_elem_of_In, elem_of_map_to_list|].
    cbn [snd] in *. apply andb_true_iff in Ha as [_ Ha]. rewrite <- Hr, String.eqb_refl. exact Ha.
  - intros u Hu. apply pending_same. intros q _. destruct u; try done.
    apply count_mono. intros id a Ha He. cbn in Ha. apply map_lookup_filter_Some in Ha as [Ha _]. eauto.
Qed.

Lemma shrink_audit p d x d' :
  active policies "audit" = Some p -> delete_audit_batch (ps_cutoff p) size d = Ok (x, d') ->
  shrink [Logs; Tests; HealthEvents] d d' x.
Proof.
  intros Hp [= <- <-].
  set (d1 := set_audit (delete_ids (batch (fun row => expired (ps_cutoff p) (al_created_at row)) size (rd_audit d))
    (rd_audit d)) (rd_audit_seq d) d).
  set (tests := batch (expired (ps_cutoff p)) size (rd_tests d)).
  set (d2 := set_health (forget_tests tests <$> rd_health d1) (set_tests (delete_ids tests (rd_tests d1)) d1)).
  eapply (shrink_trans [Logs; Tests] [HealthEvents] d d2); [eapply (shrink_trans [Logs] [Tests] d d1)|].
  - eapply (shrink_batch Logs); [exact Hp|done|done|apply deleted_row|].
    intros u Hu. apply pending_same. intros q _. by destruct u.
  - cbn. eapply (shrink_batch Tests); [exact Hp|done|done|apply deleted_row|].
    intros u Hu. apply pending_same. intros q _. destruct u; try done. apply count_mono. cbn.
    intros id r. rewrite lookup_fmap. intros (r0 & Hr & ->)%fmap_Some_1 He. by exists r0.
  - cbn. eapply (shrink_batch HealthEvents); [exact Hp|done|done|apply deleted_row|].
    intros u Hu. apply pending_same. intros q _. by destruct u.
Qed.

Lemma shrink_discovery p d x d' :
  active policies "discovery" = Some p -> delete_discovery_batch (ps_cutoff p) size d = Ok (x, d') ->
  shrink [DiscoveryRuns] d d' x.
Proof.
  intros Hp [= <- <-]. eapply shrink_batch; [exact Hp|done|done|apply deleted_row|].
  intros u Hu. apply pending_same. intros q _. by destruct u.
Qed.

Lemma shrink_system p d x d' :
  active policies "system_events" = Some p -> delete_system_events_batch (ps_cutoff p) size d = Ok (x, d') ->
  shrink [SystemEvents] d d' x.
Proof.
  intros Hp [= <- <-]. eapply shrink_batch; [exact Hp|done|done|apply deleted_row|].
  intros u Hu. apply pending_same. intros q _. by destruct u.
Qed.

Lemma shrink_when tables key delete d x d' :
  (forall u, u ∈ tables -> key_of u = key) ->
  (forall p, active policies key = Some p -> delete (ps_cutoff p) d = Ok (x, d') -> shrink tables d d' x) ->
  delete_when policies key delete d = Ok (x, d') -> shrink tables d d' x.
Proof.
  intros Hk Hd. unfold delete_when. destruct (active policies key) as [p|] eqn:Ep; [by apply Hd|].
  intros [= <- <-]. assert (forall u e, u ∈ tables -> pending policies u e = 0) as Hz.
  { intros u e Hu. unfold pending. by rewrite (Hk u Hu), Ep. }
  split; [done| |done|]; intros u Hu; rewrite !Hz by done; lia.
Qed.

(** A batch of every active policy. *)
Lemma shrink_all d x d' : delete_batches policies size d = Ok (x, d') -> shrink all_tables d d' (total x).
Proof.
  intros (a & d1 & H1 & (e & d2 & H2 & (l & d3 & H3 & (r & d4 & H4 & (y & d5 & H5 & [= <- <-])%tx_bind_inv)%tx_bind_inv)
    %tx_bind_inv)%tx_bind_inv)%tx_bind_inv.
  apply (shrink_when [Attempts]) in H1; [|by intros u ->%list_elem_of_singleton|intros p; apply shrink_attempts].
  apply (shrink_when [Events]) in H2; [|by intros u ->%list_elem_of_singleton|intros p; apply shrink_events].
  apply (shrink_when [Logs; Tests; HealthEvents]) in H3; [| |intros p; apply shrink_audit].
  2:{ intros u. rewrite !elem_of_cons, elem_of_nil. by intros [->|[->|[->|[]]]]. }
  apply (shrink_when [DiscoveryRuns]) in H4; [|by intros u ->%list_elem_of_singleton|intros p; apply shrink_discovery].
  apply (shrink_when [SystemEvents]) in H5; [|by intros u ->%list_elem_of_singleton|intros p; apply shrink_system].
  pose proof (shrink_trans _ _ _ _ _ _ _ (shrink_trans _ _ _ _ _ _ _ (shrink_trans _ _ _ _ _ _ _
    (shrink_trans _ _ _ _ _ _ _ H1 H2) H3) H4) H5) as Hs.
  replace (total _) with (a + e + l + r + y) by (unfold total; cbn; lia). exact Hs.
Qed.
End Shrink.

(** ** A round *)

(** The sequence of the audit log is ahead of its rows. *)
Definition fresh_audit (d : RetentionDb) : Prop := forall i row, rd_audit d !! i = Some row -> i <= rd_audit_seq d.

Definition total_pending (policies : Policies) (d : RetentionDb) : Z :=
  pending policies Attempts d + pending policies Events d + pending policies Logs d + pending policies Tests d
  + pending policies HealthEvents d + pending policies DiscoveryRuns d + pending policies SystemEvents d.

Lemma total_pending_zero policies d : total_pending policies d = 0 <-> forall t, pending policies t d = 0.
Proof.
  unfold total_pending. split; [|intros Hz; by rewrite !Hz]. intros Hz t.
  assert (forall t, 0 <= pending policies t d) as Hn by (intros; apply pending_nonneg).
  pose proof (Hn Attempts). pose proof (Hn Events). pose proof (Hn Logs). pose proof (Hn Tests).
  pose proof (Hn HealthEvents). pose proof (Hn DiscoveryRuns). pose proof (Hn SystemEvents). destruct t; lia.
Qed.

Lemma total_pending_nonneg policies d : 0 <= total_pending policies d.
Proof.
  assert (forall t, 0 <= pending policies t d) as Hn by (intros; apply pending_nonneg).
  unfold total_pending. pose proof (Hn Attempts). pose proof (Hn Events). pose proof (Hn Logs). pose proof (Hn Tests).
  pose proof (Hn HealthEvents). pose proof (Hn DiscoveryRuns). pose proof (Hn SystemEvents). lia.
Qed.

Lemma delete_batches_fresh policies n d x d' :
  delete_batches policies n d = Ok (x, d') -> fresh_audit d -> fresh_audit d'.
Proof.
  assert (PreOrder (fun d d' => fresh_audit d -> fresh_audit d')) as Hpre by (split; [by intros ?|intros ???; auto]).
  apply (delete_batches_rel (fun d d' => fresh_audit d -> fresh_audit d')); intros p e y e' _ [= _ <-] Hf; try done.
  intros i row [Hr _]%delete_ids_lookup. by eapply Hf.
Qed.

Lemma delete_batches_total policies n d : exists x d', delete_batches policies n d = Ok (x, d').
Proof.
  unfold delete_batches, delete_when. destruct (active policies "usage_attempts"), (active policies "usage_events"),
    (active policies "audit"), (active policies "discovery"), (active policies "system_events"); by do 2 eexists.
Qed.

Section Round.
Context `{UrlCrates} `{UrlEdit} `{Rfc3339} {env : OpsEnv RetentionDb}.
Context (policies : Policies).
Hypothesis q : quiet.
Hypothesis clock : forall p k, active policies "audit" = Some p -> ps_cutoff p <= op_now k.

Lemma pending_set_runs u r d : pending policies u (set_runs r d) = pending policies u d.
Proof. unfold pending. destruct (active _ _); [by destruct u|done]. Qed.

Lemma pending_update_run u id guard f d : pending policies u (update_run id guard f d) = pending policies u d.
Proof.
  unfold update_run. destruct (rd_runs d !! id) as [r|]; [|done]. destruct (guard r); [|done].
  apply pending_set_runs.
Qed.

Lemma append_audit_fresh op action status actor details code message k d :
  fresh_audit d ->
  exists d', append_audit_tx op action status actor details code message (op_now k) d = Ok (tt, d')
    /\ rd_runs d' = rd_runs d /\ fresh_audit d' /\ forall u, pending policies u d' <= pending policies u d.
Proof.
  intros Hf. destruct (append_audit_tx op action status actor details code message (op_now k) d) as [[[] d']|e] eqn:E.
  2:{ unfold append_audit_tx in E. destruct (rd_audit d !! _) eqn:En; [apply Hf in En; lia|done]. }
  exists d'. split; [done|]. apply append_audit_inv in E as (row & -> & Hn & Hrow). split; [done|]. split.
  - unfold fresh_audit. cbn [rd_audit rd_audit_seq set_audit].
    intros i r [[<- _]|[_ Hi]]%lookup_insert_Some; [done|]. apply Hf in Hi. lia.
  - intros u. apply pending_same. intros p Hp. destruct u; try done. cbn [candidates rd_audit set_audit].
    apply count_mono. intros i r [[_ <-]|[_ Hi]]%lookup_insert_Some He; [|by exists r].
    unfold expired in He. specialize (clock p k Hp). lia.
Qed.

Lemma append_audit_quiet op action status actor details code message k d :
  fresh_audit d ->
  exists d', append_audit op action status actor details code message (mkOpsState k d) = (Ok tt, mkOpsState (S k) d')
    /\ rd_runs d' = rd_runs d /\ fresh_audit d' /\ forall u, pending policies u d' <= pending policies u d.
Proof.
  intros Hf. destruct (append_audit_fresh op action status actor details code message k d Hf) as (d' & Hd & Hrest).
  exists d'. split; [|exact Hrest]. unfold append_audit. rewrite quiet_tx by done. unfold run_tx. by rewrite Hd.
Qed.

Lemma count_when_quiet key f k d :
  exists k', count_when policies key f (mkOpsState k d)
    = (Ok match active policies key with Some p => f (ps_cutoff p) d | None => 0 end, mkOpsState k' d).
Proof.
  unfold count_when. destruct (active policies key); [|by eexists]. rewrite quiet_read by done. by eexists.
Qed.

Lemma count_candidates_quiet k d :
  exists k' c, count_candidates policies (mkOpsState k d) = (Ok c, mkOpsState k' d) /\ total c = total_pending policies d.
Proof.
  unfold count_candidates, o_bind.
  repeat match goal with |- context [count_when policies ?key ?f (mkOpsState ?k d)] =>
    let k' := fresh "k" in let Hk := fresh "Hk" in
    destruct (count_when_quiet key f k d) as [k' Hk]; rewrite Hk; clear Hk end.
  do 2 eexists. split; [reflexivity|]. unfold total, total_pending, pending. cbn. lia.
Qed.

(** A run that is going on, or done. *)
Definition going (id : string) (d : RetentionDb) : Prop :=
  exists r, rd_runs d !! id = Some r /\ cr_status r = Running /\ cr_cancel_requested r = false.
Definition done_run (id : string) (d : RetentionDb) : Prop :=
  exists r, rd_runs d !! id = Some r /\ cr_status r = Completed.

Lemma round_tx_going run n k d :
  1 <= cr_batch_size run -> going (cr_id run) d -> fresh_audit d ->
  exists x d', round_tx run policies n (op_now k) d = Ok (Cleaned x, d')
    /\ going (cr_id run) d' /\ fresh_audit d' /\ shrink policies (cr_batch_size run) all_tables d d' (total x).
Proof.
  intros Hsize (r & Hr & Hs & Hc) Hf. unfold round_tx. rewrite Hr. unfold status_in. rewrite Hs, Hc.
  cbn [orb]. rewrite !bool_decide_eq_false_2 by (try done; set_solver).
  destruct (delete_batches_total policies (cr_batch_size run) d) as (x & d1 & Hd).
  pose proof (delete_batches_runs _ _ _ _ _ Hd) as Hr1. pose proof (delete_batches_fresh _ _ _ _ _ Hd Hf) as Hf1.
  unfold tx_bind at 1. rewrite Hd. unfold tx_bind at 1, tx_write at 1.
  set (d2 := update_run _ _ _ d1).
  assert (fresh_audit d2) as Hf2 by (unfold d2, update_run; destruct (rd_runs d1 !! _); done).
  destruct (append_audit_fresh (cr_id run) "retention.cleanup.progress" "progress" (cr_requested_by run)
    (batch_progress n x (op_now k)) None None k d2 Hf2) as (d3 & Ha & Hr3 & Hf3 & Hp3).
  unfold tx_bind. rewrite Ha. exists x, d3. split; [done|]. split_and!; [|done|].
  - unfold going. rewrite Hr3. unfold d2. rewrite update_run_lookup, bool_decide_eq_true_2 by done.
    rewrite Hr1, Hr. cbn. by eexists.
  - apply (shrink_all policies _ Hsize) in Hd. destruct Hd as [_ Ht Hn Hprog]. split.
    + intros u Hu. destruct Hu. unfold all_tables. destruct u; set_solver.
    + intros u Hu. specialize (Ht u Hu). specialize (Hp3 u). unfold d2 in Hp3. rewrite pending_update_run in Hp3. lia.
    + done.
    + intros u Hu Hpos. apply (Hprog u Hu). specialize (Hp3 u). unfold d2 in Hp3. rewrite pending_update_run in Hp3. lia.
Qed.

Lemma update_run_fresh id guard f d : fresh_audit d -> fresh_audit (update_run id guard f d).
Proof. unfold update_run. destruct (rd_runs d !! id) as [r|]; [destruct (guard r)|]; done. Qed.

Lemma shrink_after size d d1 d2 x :
  shrink policies size all_tables d d1 x -> (forall u, pending policies u d2 <= pending policies u d1) ->
  shrink policies size all_tables d d2 x.
Proof.
  intros [Ho Ht Hn Hp] Hle. split.
  - intros u Hu. specialize (Ho u Hu). specialize (Hle u). lia.
  - intros u Hu. specialize (Ht u Hu). specialize (Hle u). lia.
  - done.
  - intros u Hu. specialize (Hp u Hu). specialize (Hle u). lia.
Qed.

(** A round of a run that is going on: every table loses a batch, and the run
    is completed when nothing is left. *)
Lemma round_going run n k d :
  1 <= cr_batch_size run -> going (cr_id run) d -> fresh_audit d ->
  exists x k' d', cleanup_round run policies n (mkOpsState k d) = (Ok (total x, false), mkOpsState k' d')
    /\ fresh_audit d' /\ shrink policies (cr_batch_size run) all_tables d d' (total x)
    /\ if total_pending policies d' =? 0 then done_run (cr_id run) d' else going (cr_id run) d'.
Proof.
  intros Hsize Hg Hf. destruct (round_tx_going run n k d Hsize Hg Hf) as (x & d1 & Hd & Hg1 & Hf1 & Hsh).
  unfold cleanup_round. unfold o_bind at 1. rewrite quiet_tx by done. unfold run_tx. rewrite Hd. cbn [fst snd].
  unfold o_bind at 1. destruct (count_candidates_quiet (S k) d1) as (k1 & c & Hcount & Hc). rewrite Hcount, Hc.
  unfold o_bind at 1. rewrite quiet_write by done.
  set (d2 := update_run _ _ _ d1).
  assert (forall u, pending policies u d2 = pending policies u d1) as Hp2 by (intros; apply pending_update_run).
  assert (fresh_audit d2) as Hf2 by by apply update_run_fresh.
  assert (going (cr_id run) d2) as Hg2.
  { destruct Hg1 as (r & Hr & Hs & Hcr). unfold going, d2. rewrite update_run_lookup, bool_decide_eq_true_2, Hr by done.
    cbn. eexists. split; [done|]. by destruct (is_running r). }
  assert (total_pending policies d2 = total_pending policies d1) as Ht2 by (unfold total_pending; by rewrite !Hp2).
  destruct (Z.ltb_spec 0 (total_pending policies d1)) as [Hpos|Hz].
  - exists x. do 2 eexists. split; [reflexivity|]. split; [done|]. split; [by eapply shrink_after; [|intros; rewrite Hp2]|].
    by rewrite (proj2 (Z.eqb_neq _ _)) by lia.
  - unfold o_bind. rewrite quiet_write by done. set (d3 := update_run _ _ _ d2).
    assert (forall u, pending policies u d3 = pending policies u d1) as Hp3
      by (intros; unfold d3; by rewrite pending_update_run).
    assert (fresh_audit d3) as Hf3 by by apply update_run_fresh.
    destruct (append_audit_quiet (cr_id run) "retention.cleanup.completed" "succeeded" (cr_requested_by run)
      (VObject []) None None (S (S k1)) d3 Hf3) as (d4 & Ha & Hr4 & Hf4 & Hp4).
    rewrite Ha. exists x. do 2 eexists. split; [reflexivity|]. split; [done|].
    assert (forall u, pending policies u d4 <= pending policies u d1) as Hle by (intros u; rewrite <- Hp3; apply Hp4).
    split; [by eapply shrink_after|].
    assert (total_pending policies d4 = 0) as ->.
    { pose proof (total_pending_nonneg policies d1).
      assert (total_pending policies d1 = 0) as Hz1 by lia. rewrite total_pending_zero in Hz1.
      apply total_pending_zero. intros t. specialize (Hle t). rewrite Hz1 in Hle.
      pose proof (pending_nonneg policies t d4). lia. }
    cbn. destruct Hg2 as (r & Hr & Hs & _). unfold done_run. rewrite Hr4. unfold d3.
    rewrite update_run_lookup, bool_decide_eq_true_2, Hr by done. cbn. eexists. split; [done|].
    unfold is_running. by rewrite bool_decide_eq_true_2.
Qed.
(** The loop after the run is done: one look, and it stops. *)
Lemma rounds_done run rounds n k d :
  done_run (cr_id run) d -> exists k', cleanup_rounds run policies rounds n (mkOpsState k d) = (Ok tt, mkOpsState k' d).
Proof.
  intros (r & Hr & Hs). destruct n as [|n]; [by eexists|]. cbn [cleanup_rounds]. unfold cleanup_round, o_bind, o_try.
  rewrite quiet_tx by done. unfold run_tx, round_tx. rewrite Hr. unfold status_in. rewrite Hs. by eexists.
Qed.

Lemma rounds_finish run m : forall rounds n k d,
  1 <= cr_batch_size run -> (m <= n)%nat -> (1 <= m)%nat -> going (cr_id run) d -> fresh_audit d ->
  (forall u, pending policies u d <= cr_batch_size run * Z.of_nat m) ->
  exists k' d', cleanup_rounds run policies rounds n (mkOpsState k d) = (Ok tt, mkOpsState k' d')
    /\ done_run (cr_id run) d' /\ total_pending policies d' = 0.
Proof.
  induction m as [|m IH]; intros rounds n k d Hsize Hmn Hm Hg Hf Hb; [lia|]. destruct n as [|n]; [lia|].
  cbn [cleanup_rounds]. unfold o_bind at 1, o_try.
  destruct (round_going run (cr_batches_completed run + rounds) k d Hsize Hg Hf) as (x & k1 & d1 & Hr & Hf1 & Hsh & Hd).
  rewrite Hr. destruct Hsh as [_ Ht _ Hprog].
  assert (forall u, u ∈ all_tables) as Hall by (intros u; unfold all_tables; destruct u; set_solver).
  destruct (Z.eqb_spec (total_pending policies d1) 0) as [Hz|Hz].
  - destruct (total x =? 0).
    + by do 2 eexists.
    + destruct (rounds_done run (rounds + 1) n k1 d1 Hd) as [k2 Hk2]. rewrite Hk2. by do 2 eexists.
  - assert (exists u, 0 < pending policies u d1) as [u Hu].
    { pose proof (fun t => pending_nonneg policies t d1) as Hn. unfold total_pending in Hz.
      pose proof (Hn Attempts). pose proof (Hn Events). pose proof (Hn Logs). pose proof (Hn Tests).
      pose proof (Hn HealthEvents). pose proof (Hn DiscoveryRuns). pose proof (Hn SystemEvents).
      destruct (decide (0 < pending policies Attempts d1)); [by exists Attempts|].
      destruct (decide (0 < pending policies Events d1)); [by exists Events|].
      destruct (decide (0 < pending policies Logs d1)); [by exists Logs|].
      destruct (decide (0 < pending policies Tests d1)); [by exists Tests|].
      destruct (decide (0 < pending policies HealthEvents d1)); [by exists HealthEvents|].
      destruct (decide (0 < pending policies DiscoveryRuns d1)); [by exists DiscoveryRuns|].
      exists SystemEvents. lia. }
    pose proof (Hprog u (Hall u) Hu) as Hx. rewrite (proj2 (Z.eqb_neq _ _)) by lia.
    assert (forall v, pending policies v d1 <= cr_batch_size run * Z.of_nat m) as Hb1.
    { intros v. specialize (Ht v (Hall v)). specialize (Hb v). nia. }
    apply IH; [done|lia| |done|done|exact Hb1].
    destruct m; [|lia]. specialize (Hb1 u). lia.
Qed.

(** C12. A cleanup finishes: left alone, a running cleanup whose categories
    hold at most [n] batches each is completed by [n] rounds, the report says
    so, and not one row is left that its policies let it delete. *)
Theorem cleanup_completes id run (n : nat) k d :
  rd_runs d !! id = Some run -> cr_id run = id -> cr_status run = Running -> cr_cancel_requested run = false ->
  cr_dry_run run = false -> 1 <= cr_batch_size run -> (1 <= n)%nat -> Z.of_nat n <= cr_max_batches run ->
  policy_map_from_snapshot (op_now (S k)) (cr_policy_snapshot run) (cr_cutoff_snapshot run) = Ok policies ->
  fresh_audit d -> (forall t, pending policies t d <= cr_batch_size run * Z.of_nat n) ->
  exists run' k' d', run_cleanup id (mkOpsState k d) = (Ok run', mkOpsState k' d')
    /\ rd_runs d' !! id = Some run' /\ cr_status run' = Completed /\ forall t, pending policies t d' = 0.
Proof.
  intros Hr Hid Hs Hc Hdry Hsize Hn Hmax Hp Hf Hb. unfold run_cleanup, expect_cleanup, get_cleanup, o_bind.
  rewrite quiet_read by done. unfold o_of, o_ask. rewrite Hr. cbn [ok_or op_tick op_db]. rewrite Hp, Hdry.
  destruct (rounds_finish run n 0 (Z.to_nat (cr_max_batches run)) (S (S k)) d) as (k1 & d1 & Hrun & (r & Hr1 & Hs1) & Hz);
    try done; [lia|by exists run; rewrite Hid|].
  rewrite Hrun, quiet_read by done. rewrite Hid in Hr1. rewrite Hr1. cbn [ok_or]. do 3 eexists. split; [reflexivity|].
  split_and!; [done|done|]. by apply total_pending_zero.
Qed.
End Round.

(** ** What a batch deletes *)

Lemma delete_ids_size {R} (ids : list Z) (t : gmap Z R) :
  NoDup ids -> (forall id, id ∈ ids -> is_Some (t !! id)) ->
  Z.of_nat (base.size (delete_ids ids t)) = Z.of_nat (base.size t) - Z.of_nat (length ids).
Proof.
  intros Hnd Hin. assert (dom (delete_ids ids t) = dom t ∖ list_to_set ids) as Hdom.
  { apply set_eq. intros id. rewrite elem_of_difference, elem_of_list_to_set, !elem_of_dom. split.
    - intros [r [Hr Hid]%delete_ids_lookup]. eauto.
    - intros [[r Hr] Hid]. exists r. by apply delete_ids_lookup. }
  assert ((list_to_set ids : gset Z) ⊆ dom t) as Hsub.
  { intros id Hid%elem_of_list_to_set. apply elem_of_dom. by apply Hin. }
  rewrite <- !size_dom, Hdom, size_difference by done. rewrite size_list_to_set by done.
  apply subseteq_size in Hsub. rewrite size_list_to_set in Hsub by done. lia.
Qed.

Lemma delete_batch_size {R} (eligible : R -> bool) n (t : gmap Z R) :
  Z.of_nat (base.size (delete_ids (batch eligible n t) t))
  = Z.of_nat (base.size t) - Z.of_nat (length (batch eligible n t)).
Proof. apply delete_ids_size; [apply batch_nodup|]. intros id (r & Hr & _)%batch_elem. eauto. Qed.

(** The rows of the tables each counter is about; events may take attempts
    with them that no counter counts. *)
Definition rows {R} (t : gmap Z R) : Z := Z.of_nat (base.size t).

Record batch_report (n : Z) (d d' : RetentionDb) (x : CleanupCounts) : Prop := {
  br_events : rows (rd_events d') = rows (rd_events d) - cc_usage_events x;
  br_attempts : rows (rd_attempts d') <= rows (rd_attempts d) - cc_usage_attempts x;
  br_audit : rows (rd_audit d') + rows (rd_tests d') + rows (rd_health d')
             = rows (rd_audit d) + rows (rd_tests d) + rows (rd_health d) - cc_audit x;
  br_discovery : rows (rd_discovery d') = rows (rd_discovery d) - cc_discovery x;
  br_system : rows (rd_system d') = rows (rd_system d) - cc_system_events x;
  br_bounds : 0 <= cc_usage_events x <= n /\ 0 <= cc_usage_attempts x <= n /\ 0 <= cc_audit x <= 3 * n
              /\ 0 <= cc_discovery x <= n /\ 0 <= cc_system_events x <= n;
}.

Lemma batch_bound {R} (eligible : R -> bool) n (t : gmap Z R) :
  0 <= n -> 0 <= Z.of_nat (length (batch eligible n t)) <= n.
Proof. intros Hn. rewrite batch_length by done. pose proof (count_rows_nonneg eligible t). lia. Qed.

Lemma delete_when_cases policies key delete d x d' :
  delete_when policies key delete d = Ok (x, d') ->
  (x = 0 /\ d' = d) \/ exists p, active policies key = Some p /\ delete (ps_cutoff p) d = Ok (x, d').
Proof. unfold delete_when. destruct (active policies key) as [p|]; [eauto|]. intros [= <- <-]. by left. Qed.

(** The report of a batch is what it deleted: the counters are the rows
    that went, except for the attempts of deleted events, and never more than
    the batch size per table. *)
Theorem batch_counts_are_deletions policies n d x d' :
  0 <= n -> delete_batches policies n d = Ok (x, d') -> batch_report n d d' x.
Proof.
  intros Hn (a & d1 & H1 & (e & d2 & H2 & (l & d3 & H3 & (r & d4 & H4 & (y & d5 & H5 & [= <- <-])%tx_bind_inv)%tx_bind_inv)
    %tx_bind_inv)%tx_bind_inv)%tx_bind_inv.
  assert (batch_report n d d1 (mkCounts 0 a 0 0 0)) as R1.
  { apply delete_when_cases in H1 as [[-> ->]|(p & _ & [= <- <-])]; split; cbn; try lia.
    - unfold rows. rewrite delete_batch_size. lia.
    - pose proof (batch_bound (fun a => expired (ps_cutoff p) (at_created_at a)) n (rd_attempts d) Hn). lia. }
  assert (batch_report n d1 d2 (mkCounts e 0 0 0 0)) as R2.
  { apply delete_when_cases in H2 as [[-> ->]|(p & _ & [= <- <-])]; split; cbn; try lia.
    - unfold rows. rewrite delete_batch_size. lia.
    - unfold rows. match goal with |- context [base.size (filter ?P ?m)] => pose proof (map_size_filter P m) end. lia.
    - pose proof (batch_bound (event_eligible d1 (ps_cutoff p) (attempt_guard policies)) n (rd_events d1) Hn). lia. }
  assert (batch_report n d2 d3 (mkCounts 0 0 l 0 0)) as R3.
  { apply delete_when_cases in H3 as [[-> ->]|(p & _ & [= <- <-])]; split; cbn; try lia.
    - unfold rows. rewrite !delete_batch_size, map_size_fmap. lia.
    - pose proof (batch_bound (fun row => expired (ps_cutoff p) (al_created_at row)) n (rd_audit d2) Hn).
      pose proof (batch_bound (expired (ps_cutoff p)) n (rd_tests d2) Hn).
      match goal with |- context [batch ?f n (_ <$> ?t)] => pose proof (batch_bound f n (forget_tests (batch (expired (ps_cutoff p)) n (rd_tests d2)) <$> t) Hn) end.
      lia. }
  assert (batch_report n d3 d4 (mkCounts 0 0 0 r 0)) as R4.
  { apply delete_when_cases in H4 as [[-> ->]|(p & _ & [= <- <-])]; split; cbn; try lia.
    - unfold rows. rewrite delete_batch_size. lia.
    - pose proof (batch_bound (expired (ps_cutoff p)) n (rd_discovery d3) Hn). lia. }
  assert (batch_report n d4 d5 (mkCounts 0 0 0 0 y)) as R5.
  { apply delete_when_cases in H5 as [[-> ->]|(p & _ & [= <- <-])]; split; cbn; try lia.
    - unfold rows. rewrite delete_batch_size. lia.
    - pose proof (batch_bound (expired (ps_cutoff p)) n (rd_system d4) Hn). lia. }
  destruct R1 as [A1 A2 A3 A4 A5 A6], R2 as [B1 B2 B3 B4 B5 B6], R3 as [C1 C2 C3 C4 C5 C6], R4 as [D1 D2 D3 D4 D5 D6],
    R5 as [E1 E2 E3 E4 E5 E6]. cbn in *. split; cbn; lia.
Qed.

(** ** Examples *)

(** Instants written in binary, so that every one can be read back. *)
Fixpoint bits (p : positive) : string :=
  match p with xI p => String "1"%char (bits p) | xO p => String "0"%char (bits p) | xH => "" end.
Fixpoint unbits (s : string) : option positive :=
  match s with
  | EmptyString => Some xH
  | String a s => match unbits s with
                  | Some p => Some (if Ascii.eqb a "1"%char then xI p else xO p)
                  | None => None
                  end
  end.
Definition print_time (t : Z) : string :=
  match t with Z0 => "0" | Zpos p => String "+"%char (bits p) | Zneg p => String "-"%char (bits p) end.
Definition read_time (s : string) : option Z :=
  match s with
  | String a s =>
      if Ascii.eqb a "+"%char then option_map Zpos (unbits s)
      else if Ascii.eqb a "-"%char then option_map Zneg (unbits s) else Some 0
  | EmptyString => None
  end.

Definition example_rfc : Rfc3339 :=
  {| to_rfc3339 := print_time; serialize_time := print_time; parse_from_rfc3339 := read_time |}.

Lemma bits_roundtrip p : unbits (bits p) = Some p.
Proof. induction p as [p IH|p IH|]; cbn; by rewrite ?IH. Qed.

Lemma example_rfc_roundtrip t : @parse_from_rfc3339 example_rfc (@to_rfc3339 example_rfc t) = Some t.
Proof. destruct t as [|p|p]; cbn; by rewrite ?bits_roundtrip. Qed.

Definition example_day (n : Z) : Z := days_ns (1000 + n).

(** The other clients record a new event before every statement. *)
Definition traffic (k : nat) (d : RetentionDb) : RetentionDb :=
  let id := 1000 + Z.of_nat k in
  match rd_events d !! id with
  | Some _ => d
  | None => set_events (<[id := mkEventRow ("r" +:+ dec id) (example_day 0)]> (rd_events d)) d
  end.

Definition busy_ops : OpsEnv RetentionDb :=
  {| op_now k := example_day 0; op_uuid k := "job"; op_others := traffic;
     op_fault k := if Nat.eqb k 9 then Some "connection reset" else None |}.
Definition quiet_ops : OpsEnv RetentionDb :=
  {| op_now k := example_day 0; op_uuid k := "job"; op_others k d := d; op_fault k := None |}.

Definition example_table : gmap string RetentionPolicy :=
  {[ "audit" := mkRetentionPolicy "audit" 365 true 0;
     "usage_attempts" := mkRetentionPolicy "usage_attempts" 90 true 0;
     "usage_events" := mkRetentionPolicy "usage_events" 30 true 0 ]}.

(** Request 1 is due with its attempt, request 2 is due but its attempt is
    not, request 3 is young, and so is a connection test. *)
Definition example_rows : RetentionDb :=
  mkRetentionDb example_table ∅
    {[ 1 := mkAttemptRow "r1" (example_day (-100)); 2 := mkAttemptRow "r2" (example_day (-50)) ]}
    {[ 1 := mkEventRow "r1" (example_day (-100)); 2 := mkEventRow "r2" (example_day (-50));
       3 := mkEventRow "r3" (example_day (-1)) ]}
    ∅ 0 {[ 1 := example_day (-1) ]} ∅ {[ 1 := example_day (-2000) ]} ∅.

Definition example_request : CleanupRequest := mkCleanupRequest false 1 5 (Some "job") None None.

Section Examples.
Local Existing Instances example_urls example_edit example_rfc.

Lemma completed_cleanups_are_final_witness :
  exists s, (@run_job _ _ _ busy_ops (StartCleanup example_request) (mkOpsState 0 example_rows)) = s
    /\ runs_by evolves example_rows (op_db s.2).
Proof.
  eexists. split; [reflexivity|].
  apply (@completed_cleanups_are_final _ _ _ busy_ops (StartCleanup example_request) (mkOpsState 0 example_rows)).
  intros k d. apply runs_by_same; [typeclasses eauto|]. cbn. unfold traffic. by destruct (rd_events d !! _).
Defined.

(** Rows younger than the retention periods of the example. *)
Definition example_bound : Bound := fun key =>
  match example_table !! key with
  | Some row => if rp_enabled row then Some (example_day 0 - days_ns (rp_retention_days row)) else None
  | None => None
  end.

Lemma example_within {env : OpsEnv RetentionDb} key row :
  (forall k, op_now k <= example_day 0) -> example_table !! key = Some row -> policy_within example_bound row.
Proof.
  intros Hclock Hrow He. assert (rp_policy_key row = key) as ->.
  { revert Hrow. unfold example_table. rewrite !lookup_insert_Some, lookup_singleton_Some.
    intros [[<- <-]|[_ [[<- <-]|[_ [<- <-]]]]]; done. }
  unfold example_bound. rewrite Hrow, He. eexists. split; [done|]. intros k. pose proof (Hclock k). lia.
Qed.

Lemma traffic_keeps_live `{UrlCrates} `{UrlEdit} `{Rfc3339} {env : OpsEnv RetentionDb} B good k d :
  guarded (retention_inv B good) (keeps_live B) d (traffic k d).
Proof.
  unfold traffic. destruct (rd_events d !! _) eqn:E; [done|]. intros Hi. split; [exact Hi|].
  split; cbn; try apply kept_refl. by apply kept_insert.
Qed.

(** The ids of the events, the attempts and the discovery runs after a job. *)
Definition ids_of {A} (r : A * OpsState RetentionDb) : list Z * list Z * list Z :=
  ((map_to_list (rd_events (op_db r.2))).*1, (map_to_list (rd_attempts (op_db r.2))).*1,
   (map_to_list (rd_discovery (op_db r.2))).*1).

(** A busy gateway: the fourth request is kept by its own age, the second by
    its attempt, and the discovery run because its category has no policy; the
    first event is deleted although the ninth statement fails. *)
Lemma cleanup_keeps_live_rows_witness :
  let r := @run_job _ _ _ busy_ops (StartCleanup example_request) (mkOpsState 0 example_rows) in
  keeps_live example_bound example_rows (op_db r.2)
  /\ ~ 1 ∈ (ids_of r).1.1 /\ 2 ∈ (ids_of r).1.1 /\ (ids_of r).2 = [1].
Proof.
  intros r. split.
  - unshelve refine (@cleanup_keeps_live_rows _ _ _ busy_ops example_rfc_roundtrip example_bound
      (fun _ => True) (StartCleanup example_request) (mkOpsState 0 example_rows) _ _ _).
    + intros k d. apply traffic_keeps_live.
    + done.
    + split; [intros key row; by apply example_within|]. intros id run _ Hrun. cbn in Hrun. done.
  - vm_compute. split_and!; [|repeat constructor|done]. intros Hin.
    repeat (apply elem_of_cons in Hin as [Hin|Hin]; [done|]). by apply elem_of_nil in Hin.
Defined.

Definition example_policies : Policies :=
  [("audit", mkPolicyState 365 false (example_day (-365))); ("usage_events", mkPolicyState 30 true (example_day (-30)))].

Lemma cutoffs_survive_the_snapshot_witness :
  exists r, policy_map_from_snapshot 0 (policy_snapshot example_policies) (cutoff_snapshot example_policies) = Ok r
    /\ active r "usage_events" = Some (mkPolicyState 30 true (example_day (-30))) /\ active r "audit" = None.
Proof.
  destruct (@cutoffs_survive_the_snapshot _ example_rfc_roundtrip 0 example_policies) as (r & Hr & Ha).
  - repeat constructor.
  - intros key p [[= -> ->]|[[= -> ->]|[]%elem_of_nil]%elem_of_cons]%elem_of_cons; cbn; (split; [|lia]);
      repeat constructor.
  - exists r. split; [exact Hr|]. rewrite !Ha. split; reflexivity.
Defined.

Definition example_batch : result (CleanupCounts * RetentionDb) OpsError :=
  delete_batches [("usage_attempts", mkPolicyState 90 true (example_day (-90)));
                  ("usage_events", mkPolicyState 30 true (example_day (-30)))] 2 example_rows.

Lemma batch_counts_are_deletions_witness :
  exists x d', example_batch = Ok (x, d') /\ batch_report 2 example_rows d' x /\ x = mkCounts 1 1 0 0 0.
Proof.
  destruct example_batch as [[x d']|] eqn:E; [|discriminate E]. exists x, d'. split; [done|]. split.
  - apply (batch_counts_are_deletions [("usage_attempts", mkPolicyState 90 true (example_day (-90)));
      ("usage_events", mkPolicyState 30 true (example_day (-30)))] 2 example_rows x d'); [lia|exact E].
  - by injection E as <- _.
Defined.

(** The run of [example_request] as it is stored, and the tables with it. *)
Definition example_stored : CleanupRun :=
  mkCleanupRun "job" Running false 1 5 "admin_api" (policy_snapshot (policies_at (example_day 0) None
    [mkRetentionPolicy "usage_events" 30 true 0; mkRetentionPolicy "usage_attempts" 90 true 0]))
    (cutoff_snapshot (policies_at (example_day 0) None
    [mkRetentionPolicy "usage_events" 30 true 0; mkRetentionPolicy "usage_attempts" 90 true 0]))
    no_counts no_counts 0 (VObject []) None None false 0 0 None 0.
Definition example_paused : RetentionDb := set_runs {[ "job" := example_stored ]} example_rows.

Definition example_decoded : Policies :=
  [("usage_attempts", mkPolicyState 90 true (example_day (-90))); ("usage_events", mkPolicyState 30 true (example_day (-30)))].

Lemma cleanup_completes_witness :
  exists run' k' d', @run_cleanup _ _ _ quiet_ops "job" (mkOpsState 0 example_paused) = (Ok run', mkOpsState k' d')
    /\ cr_status run' = Completed.
Proof.
  assert (policy_map_from_snapshot (@op_now _ quiet_ops 1) (cr_policy_snapshot example_stored)
    (cr_cutoff_snapshot example_stored) = Ok example_decoded) as Hp by (vm_compute; reflexivity).
  assert (forall t, pending example_decoded t example_paused <= 1 * 1) as Hb
    by (intros t; destruct t; vm_compute; discriminate).
  destruct (@cleanup_completes _ _ _ quiet_ops example_decoded (conj (fun k d => eq_refl) (fun k => eq_refl))
    ltac:(intros p k Hq; discriminate Hq) "job" example_stored 1 0 example_paused
    eq_refl eq_refl eq_refl eq_refl eq_refl (Z.le_refl 1) (le_n 1) ltac:(vm_compute; discriminate) Hp
    ltac:(intros i row Hi; discriminate Hi) Hb) as (run' & k' & d' & Hrun & _ & Hs & _).
  exists run', k', d'. split; [exact Hrun|exact Hs].
Defined.

(** A run goes by the policies it was started with: retried after every policy
    was removed, it still deletes what they had expired. *)
Example retries_go_by_the_stored_policies :
  match @run_job _ _ _ quiet_ops (RetryCleanup "job" "operator") (mkOpsState 0 (set_policies ∅ example_paused)) with
  | (Ok run, s) => rd_policies (op_db s) = ∅ /\ rd_events (op_db s) !! 1 = None
  | _ => False
  end.
Proof. vm_compute. split; reflexivity. Qed.

(** A run that is paused between two invocations and then cancelled stays
    [CancelRequested]: no round is left to act on the request. *)
Example cancelling_a_paused_run_only_requests :
  match @run_job _ _ _ quiet_ops (CancelCleanup "job" "operator") (mkOpsState 0 example_paused) with
  | (Ok run, s) => cr_status run = CancelRequested
      /\ match @run_job _ _ _ quiet_ops (RetryCleanup "job" "operator") s with
         | (Ok run', s') => cr_status run' = Completed /\ rd_events (op_db s') !! 1 = None
         | _ => False
         end
  | _ => False
  end.
Proof. vm_compute. split; [reflexivity|split; reflexivity]. Qed.
End Examples.
