(* ===== verification/Catalog.v ===== *)
(** * The model catalogue's vocabulary: [src/src/domain/catalog.rs]

    Statuses and their transitions, protocol modes, and the metadata of a
    model: thirteen fields, each with the source its value came from. *)

From Stdlib Require Import ZArith Lia.
From stdpp Require Import base list strings.
From S2P Require Import Prelude.
From S2P Require Import RustStr.
From S2P Require Import Protocol.
From S2P Require Import BTree.
From S2P Require Import Config.
From S2P Require Import Json.

(** ** Statuses *)

Inductive CatalogStatus : Type := CsPending | CsConfirmed | CsUnavailable.

#[global] Instance CatalogStatus_eq_dec : EqDecision CatalogStatus.
Proof. solve_decision. Defined.

Definition CatalogStatus_as_str (self : CatalogStatus) : string :=
  match self with CsPending => "pending" | CsConfirmed => "confirmed" | CsUnavailable => "unavailable" end.

Definition can_transition_to (self next : CatalogStatus) : bool :=
  bool_decide (self = next)
  || match self, next with
     | CsPending, (CsConfirmed | CsUnavailable) => true
     | CsConfirmed, CsUnavailable => true
     | CsUnavailable, CsPending => true
     | _, _ => false
     end.

Definition CatalogStatus_from_str (value : string) : option CatalogStatus :=
  if value =?s "pending" then Some CsPending
  else if value =?s "confirmed" then Some CsConfirmed
  else if value =?s "unavailable" then Some CsUnavailable else None.

Inductive CatalogAvailability : Type := CaUnknown | CaAvailable | CaUnavailable.

#[global] Instance CatalogAvailability_eq_dec : EqDecision CatalogAvailability.
Proof. solve_decision. Defined.

Definition CatalogAvailability_as_str (self : CatalogAvailability) : string :=
  match self with CaUnknown => "unknown" | CaAvailable => "available" | CaUnavailable => "unavailable" end.

Definition CatalogAvailability_from_str (value : string) : option CatalogAvailability :=
  if value =?s "unknown" then Some CaUnknown
  else if value =?s "available" then Some CaAvailable
  else if value =?s "unavailable" then Some CaUnavailable else None.

Inductive SourceProtocolMode : Type := SmUnknown | SmNative | SmAdapter | SmUnsupported.

#[global] Instance SourceProtocolMode_eq_dec : EqDecision SourceProtocolMode.
Proof. solve_decision. Defined.

Definition SourceProtocolMode_as_str (self : SourceProtocolMode) : string :=
  match self with
  | SmUnknown => "unknown" | SmNative => "native" | SmAdapter => "adapter" | SmUnsupported => "unsupported"
  end.

Definition is_routable (self : SourceProtocolMode) : bool :=
  match self with SmNative | SmAdapter => true | _ => false end.

Definition SourceProtocolMode_from_str (value : string) : option SourceProtocolMode :=
  if value =?s "unknown" then Some SmUnknown
  else if value =?s "native" then Some SmNative
  else if value =?s "adapter" then Some SmAdapter
  else if value =?s "unsupported" then Some SmUnsupported else None.

(** ** Errors *)

Inductive CatalogError : Type :=
| CeJson (error : string) | InvalidMetadata (message : string) | InvalidState (message : string).

Definition CatalogError_text (self : CatalogError) : string :=
  match self with
  | CeJson error => "JSON error: " +:+ error
  | InvalidMetadata message | InvalidState message => message
  end.

(** ** Metadata *)

Inductive MetadataSource : Type := MsUpstream | MsPreset | MsUser | MsUnknown.

#[global] Instance MetadataSource_eq_dec : EqDecision MetadataSource.
Proof. solve_decision. Defined.

Definition MetadataSource_to_string (self : MetadataSource) : string :=
  match self with MsUpstream => "upstream" | MsPreset => "preset" | MsUser => "user" | MsUnknown => "unknown" end.

Definition MetadataSource_from_str (value : string) : result MetadataSource CatalogError :=
  if value =?s "upstream" then Ok MsUpstream
  else if value =?s "preset" then Ok MsPreset
  else if value =?s "user" then Ok MsUser
  else if value =?s "unknown" then Ok MsUnknown
  else Err (InvalidMetadata ("unknown metadata source '" +:+ value +:+ "'")).

Inductive MetadataField : Type :=
| LogicalModelName | DisplayName | ContextWindow | MaxInputTokens | MaxOutputTokens
| InputModalities | OutputModalities | Tools | Thinking | WebSearch | StructuredOutput | Streaming | Usage.

#[global] Instance MetadataField_eq_dec : EqDecision MetadataField.
Proof. solve_decision. Defined.

Definition MetadataField_ALL : list MetadataField :=
  [LogicalModelName; DisplayName; ContextWindow; MaxInputTokens; MaxOutputTokens; InputModalities;
   OutputModalities; Tools; Thinking; WebSearch; StructuredOutput; Streaming; Usage].

Definition is_feature (self : MetadataField) : bool :=
  match self with
  | Tools | Thinking | WebSearch | StructuredOutput | Streaming | Usage => true
  | _ => false
  end.

Definition unknown_value (self : MetadataField) : Value :=
  if is_feature self then VString "unknown" else VNull.

(** The derived names ([rename_all = "snake_case"]). *)
Definition MetadataField_to_string (self : MetadataField) : string :=
  match self with
  | LogicalModelName => "logical_model_name" | DisplayName => "display_name"
  | ContextWindow => "context_window" | MaxInputTokens => "max_input_tokens"
  | MaxOutputTokens => "max_output_tokens" | InputModalities => "input_modalities"
  | OutputModalities => "output_modalities" | Tools => "tools" | Thinking => "thinking"
  | WebSearch => "web_search" | StructuredOutput => "structured_output"
  | Streaming => "streaming" | Usage => "usage"
  end.

Definition MetadataField_of_name (name : string) : option MetadataField :=
  List.find (fun f => MetadataField_to_string f =?s name) MetadataField_ALL.

(** The derived [Ord]: the order of declaration. *)
Definition field_rank (self : MetadataField) : Z :=
  match self with
  | LogicalModelName => 0 | DisplayName => 1 | ContextWindow => 2 | MaxInputTokens => 3
  | MaxOutputTokens => 4 | InputModalities => 5 | OutputModalities => 6 | Tools => 7 | Thinking => 8
  | WebSearch => 9 | StructuredOutput => 10 | Streaming => 11 | Usage => 12
  end.

#[export] Instance MetadataField_Ordered : Ordered MetadataField.
Proof. refine (Ordered_inj field_rank _). by intros [] []. Defined.

Inductive CapabilitySupport : Type := Supported | Unsupported | Unknown.

#[global] Instance CapabilitySupport_eq_dec : EqDecision CapabilitySupport.
Proof. solve_decision. Defined.

Definition CapabilitySupport_to_string (self : CapabilitySupport) : string :=
  match self with Supported => "supported" | Unsupported => "unsupported" | Unknown => "unknown" end.

(** [MetadataValues]: a [BTreeMap]. *)
Abbreviation MetadataValues := (list (MetadataField * Value)).

Definition text_value (value : Value) : bool := is_some_and (as_str value) (fun s => negb (is_empty (trim s))).

Definition is_null (value : Value) : bool := match value with VNull => true | _ => false end.

Definition valid_value (field : MetadataField) (value : Value) : bool :=
  match field with
  | LogicalModelName | DisplayName => is_null value || text_value value
  | ContextWindow | MaxInputTokens | MaxOutputTokens =>
      is_null value || is_some_and (as_i64 value) (fun n => 0 <? n)
  | InputModalities | OutputModalities =>
      is_null value || is_some_and (as_array value) (forallb text_value)
  | _ => is_some_and (as_str value)
           (fun s => (s =?s "supported") || (s =?s "unsupported") || (s =?s "unknown"))
  end.

Fixpoint MetadataValues_validate (self : MetadataValues) : result unit CatalogError :=
  match self with
  | [] => Ok tt
  | (field, value) :: self =>
      if valid_value field value then MetadataValues_validate self
      else Err (InvalidMetadata ("invalid value for metadata field '" +:+ MetadataField_to_string field +:+ "'"))
  end.

Definition from_fields (fields : list (MetadataField * Value)) : result MetadataValues CatalogError :=
  let values := bt_collect fields in
  let? _ := MetadataValues_validate values in Ok values.

Record CatalogMetadata : Type := mkCatalogMetadata {
  md_values : MetadataValues;
  md_field_sources : list (MetadataField * MetadataSource);
}.

Definition metadata_unknown : CatalogMetadata :=
  mkCatalogMetadata (bt_collect (map (fun field => (field, unknown_value field)) MetadataField_ALL))
    (bt_collect (map (fun field => (field, MsUnknown)) MetadataField_ALL)).

(** Whether a value says nothing about its field. *)
Definition value_unknown (field : MetadataField) (value : Value) : bool :=
  is_null value || is_feature field && bool_decide (as_str value = Some "unknown").

Definition apply_value (self : CatalogMetadata) (source : MetadataSource) (field : MetadataField)
    (value : Value) : CatalogMetadata :=
  let is_unknown := value_unknown field value in
  if is_unknown && negb (bool_decide (source = MsUser))
     && negb (bool_decide (bt_get (md_field_sources self) field = Some MsUnknown))
  then self
  else
    mkCatalogMetadata (bt_insert (md_values self) field value)
      (bt_insert (md_field_sources self) field
         (if is_unknown && negb (bool_decide (source = MsUser)) then MsUnknown else source)).

Definition apply_values (self : CatalogMetadata) (values : MetadataValues) (source : MetadataSource)
    : CatalogMetadata :=
  fold_left (fun m kv => apply_value m source kv.1 kv.2) values self.

Definition resolve (upstream : MetadataValues) (preset : option MetadataValues)
    : result CatalogMetadata CatalogError :=
  let? _ := MetadataValues_validate upstream in
  let? _ := match preset with Some preset => MetadataValues_validate preset | None => Ok tt end in
  let r := apply_values metadata_unknown upstream MsUpstream in
  Ok match preset with Some preset => apply_values r preset MsPreset | None => r end.

Definition apply_user_overrides (self : CatalogMetadata) (overrides : MetadataValues)
    : result CatalogMetadata CatalogError :=
  let? _ := MetadataValues_validate overrides in Ok (apply_values self overrides MsUser).

(** The body of the loop that restores a user's field. *)
Definition restore_field (self refreshed : CatalogMetadata) (field : MetadataField) : CatalogMetadata :=
  if bool_decide (bt_get (md_field_sources self) field = Some MsUser) then
    match bt_get (md_values self) field with
    | Some value =>
        mkCatalogMetadata (bt_insert (md_values refreshed) field value)
          (bt_insert (md_field_sources refreshed) field MsUser)
    | None => refreshed
    end
  else refreshed.

Definition refreshed_preserving_user_fields (self : CatalogMetadata) (confirmed : bool)
    (upstream : MetadataValues) (preset : option MetadataValues) : result CatalogMetadata CatalogError :=
  if confirmed then Ok self
  else let? refreshed := resolve upstream preset in
       Ok (fold_left (restore_field self) MetadataField_ALL refreshed).

(** ** Stored JSON *)

(** A serialised map: [serde_json] keeps the keys of an object in order. *)
Definition object_of (fields : list (string * Value)) : Value := VObject (bt_collect fields).

Definition metadata_to_json (self : CatalogMetadata) : Value * Value :=
  (object_of (map (fun kv => (MetadataField_to_string kv.1, kv.2)) (md_values self)),
   object_of (map (fun kv => (MetadataField_to_string kv.1, VString (MetadataSource_to_string kv.2)))
                (md_field_sources self))).

(** [from_value] of a map whose keys are fields; the text of its error is
    [serde_json]'s. *)
Fixpoint fields_from_object {V} (value : Value -> option V) (object : Map)
    : option (list (MetadataField * V)) :=
  match object with
  | [] => Some []
  | (name, v) :: object =>
      match MetadataField_of_name name, value v, fields_from_object value object with
      | Some field, Some x, Some rest => Some ((field, x) :: rest)
      | _, _, _ => None
      end
  end.

(** The derived [Deserialize] of a unit variant: its name, or an object with
    the name and [null]. *)
Definition variant_from_value {V} (of_name : string -> option V) (v : Value) : option V :=
  match v with
  | VString name => of_name name
  | VObject [(name, VNull)] => of_name name
  | _ => None
  end.

Definition map_from_value {V} (value : Value -> option V) (v : Value) : option (list (MetadataField * V)) :=
  match v with
  | VObject object => bt_collect <$> fields_from_object value object
  | _ => None
  end.

Definition metadata_from_json (de_error : Value -> string) (values field_sources : Value)
    : result CatalogMetadata CatalogError :=
  let? v := ok_or (map_from_value Some values) (CeJson (de_error values)) in
  let? s := ok_or (map_from_value (variant_from_value (fun n => rok (MetadataSource_from_str n))) field_sources)
              (CeJson (de_error field_sources)) in
  let? _ := MetadataValues_validate v in
  Ok (mkCatalogMetadata v s).

(** ** Protocol capabilities of a model *)

Record ModelPresetRef : Type := mkModelPresetRef { pr_id : string; pr_version : Z }.

#[global] Instance ModelPresetRef_eq_dec : EqDecision ModelPresetRef.
Proof. solve_decision. Defined.

Record ProviderPresetInput : Type := mkProviderPresetInput {
  pp_id : string;
  pp_version : Z;
  pp_display_name : string;
  pp_definition : Value;
}.

Record ModelPresetInput : Type := mkModelPresetInput {
  mp_id : string;
  mp_version : Z;
  mp_canonical_model_id : string;
  mp_aliases : list string;
  mp_metadata : CatalogMetadata;
}.

Record SourceModelRefresh : Type := mkSourceModelRefresh {
  sx_source_id : string;
  sx_upstream_model_id : string;
  sx_raw_snapshot : Value;
  sx_upstream_metadata : MetadataValues;
  sx_matched_preset : option ModelPresetRef;
  sx_preset_metadata : option MetadataValues;
  sx_discovered_at : Z;
}.

Record DiscoveryDiffEntry : Type := mkDiscoveryDiffEntry {
  de_upstream_model_id : string;
  de_changed_fields : list string;
}.

Record DiscoveryDiff : Type := mkDiscoveryDiff {
  dd_added : list DiscoveryDiffEntry;
  dd_changed : list DiscoveryDiffEntry;
  dd_missing : list DiscoveryDiffEntry;
}.

Record SourceModelConfirmation : Type := mkSourceModelConfirmation {
  sc_upstream_model_id : string;
  sc_user_overrides : MetadataValues;
}.

Record SourceModelCapabilityInput : Type := mkSourceModelCapabilityInput {
  ci_source_id : string;
  ci_upstream_model_id : string;
  ci_protocol : Protocol;
  ci_status : CatalogStatus;
  ci_mode : SourceProtocolMode;
  ci_source_protocol : option Protocol;
  ci_adapter : option string;
  ci_feature_capabilities : list (string * CapabilitySupport);
  ci_field_source : MetadataSource;
  ci_observed_at : Z;
}.

Definition capability_validate `{BuildCfg} (self : SourceModelCapabilityInput) : result unit CatalogError :=
  if bool_decide (ci_status self = CsConfirmed) && bool_decide (ci_mode self = SmUnknown)
  then Err (InvalidState "unknown protocol capability cannot be confirmed")
  else
    match ci_mode self with
    | SmAdapter =>
        let? source_protocol := ok_or (ci_source_protocol self)
                                  (InvalidState "adapter capability requires source_protocol") in
        let? adapter := ok_or (opt_filter (fun value => negb (is_empty (trim value))) (ci_adapter self))
                          (InvalidState "adapter capability requires adapter") in
        let? definition := ok_or (adapter_definition adapter)
                             (InvalidState ("unknown adapter '" +:+ adapter +:+ "'")) in
        if negb (Protocol_eqb (ad_from_protocol definition) (ci_protocol self))
           || negb (Protocol_eqb (ad_to_protocol definition) source_protocol)
        then Err (InvalidState ("adapter '" +:+ adapter +:+ "' does not implement "
                   +:+ Protocol_to_string (ci_protocol self) +:+ " -> " +:+ Protocol_to_string source_protocol))
        else Ok tt
    | _ =>
        if is_some (ci_source_protocol self) || is_some (ci_adapter self)
        then Err (InvalidState "only adapter capability may set source_protocol and adapter")
        else Ok tt
    end.

Record PublishedModel : Type := mkPublishedModel {
  pm_id : string;
  pm_display_name : string;
  pm_account_ids : list string;
}.

(** ** Statuses: a record cannot be confirmed again without being pending *)

Definition status_step (current next : CatalogStatus) : Prop := can_transition_to current next = true.

(** Every path from an unavailable record to a confirmed one goes through
    [CsPending]. *)
Lemma reconfirmation_via_pending path s :
  path !! 0%nat = Some CsUnavailable -> last path = Some CsConfirmed ->
  (forall i a b, path !! i = Some a -> path !! S i = Some b -> status_step a b) ->
  s = CsPending -> s ∈ path.
Proof.
  intros H0 Hl Hstep ->. revert H0 Hl Hstep. induction path as [|a path IH]; [done|]. intros [= ->] Hl Hstep.
  destruct path as [|b path]; [done|]. pose proof (Hstep 0%nat _ _ eq_refl eq_refl) as Hab.
  destruct b; [apply list_elem_of_further, list_elem_of_here|by vm_compute in Hab|].
  apply list_elem_of_further, IH; [done|done|]. intros i x y Hx Hy. by apply (Hstep (S i)).
Qed.

(** ** Applying values *)

Definition metadata_wf (m : CatalogMetadata) : Prop := bt_wf (md_values m) /\ bt_wf (md_field_sources m).

(** The value and the source of a field. *)
Definition field_of (m : CatalogMetadata) (f : MetadataField) : option Value * option MetadataSource :=
  (bt_get (md_values m) f, bt_get (md_field_sources m) f).

(** What applying one value does to its field. *)
Definition applied (source : MetadataSource) (f : MetadataField) (value : Value)
    (old : option Value * option MetadataSource) : option Value * option MetadataSource :=
  if value_unknown f value && negb (bool_decide (source = MsUser)) then
    if bool_decide (old.2 = Some MsUnknown) then (Some value, Some MsUnknown) else old
  else (Some value, Some source).

Lemma apply_value_wf m source f v : metadata_wf m -> metadata_wf (apply_value m source f v).
Proof.
  intros [Hv Hs]. unfold apply_value. destruct (_ && _ && _); [done|]. split; cbn; by apply bt_insert_wf.
Qed.

Lemma apply_value_field m source f v g :
  metadata_wf m ->
  field_of (apply_value m source f v) g
  = if bool_decide (g = f) then applied source f v (field_of m f) else field_of m g.
Proof.
  intros [Hv Hs]. unfold apply_value, applied, field_of. cbn [fst snd].
  destruct (decide (g = f)) as [->|Hg];
    [rewrite (bool_decide_true (f = f)) by done|rewrite (bool_decide_false (g = f)) by done];
    destruct (value_unknown f v && negb (bool_decide (source = MsUser))); cbn [andb negb];
    try destruct (bool_decide (bt_get (md_field_sources m) f = Some MsUnknown)); cbn [negb md_values md_field_sources];
    rewrite ?bt_get_insert_eq, ?bt_get_insert_ne by done; done.
Qed.

Lemma apply_values_wf values source : forall m, metadata_wf m -> metadata_wf (apply_values m values source).
Proof.
  unfold apply_values. induction values as [|[f v] values IH]; intros m Hm; cbn [fold_left]; [done|].
  by apply IH, apply_value_wf.
Qed.

Lemma apply_values_field values source : forall m g,
  metadata_wf m -> bt_wf values ->
  field_of (apply_values m values source) g
  = match bt_get values g with Some v => applied source g v (field_of m g) | None => field_of m g end.
Proof.
  unfold apply_values. induction values as [|[f v] values IH]; intros m g Hm Hwf; cbn [fold_left]; [done|].
  apply bt_wf_cons in Hwf as [Hwf Hf]. cbn [fst snd].
  rewrite IH by (done || by apply apply_value_wf). rewrite apply_value_field by done. cbn [bt_get].
  destruct (kcmp g f) eqn:E.
  - apply kcmp_eq in E as ->. rewrite bool_decide_true by done. by rewrite bt_get_fresh.
  - rewrite bool_decide_false by (intros ->; by rewrite kcmp_refl in E). rewrite bt_get_fresh; [done|].
    eapply Forall_impl; [exact Hf|]. intros j Hj. by transitivity f.
  - by rewrite bool_decide_false by (intros ->; by rewrite kcmp_refl in E).
Qed.

Lemma MetadataValues_validate_ok values :
  MetadataValues_validate values = Ok tt <-> Forall (fun kv => valid_value kv.1 kv.2 = true) values.
Proof.
  induction values as [|[f v] values IH]; cbn [MetadataValues_validate]; [by split|].
  rewrite Forall_cons. cbn [fst snd]. destruct (valid_value f v); [rewrite IH; tauto|]. split; [done|]. by intros [? _].
Qed.

Lemma MetadataValues_validate_unit values u : MetadataValues_validate values = Ok u -> MetadataValues_validate values = Ok tt.
Proof. by destruct u. Qed.

Lemma valid_get values f v :
  bt_wf values -> MetadataValues_validate values = Ok tt -> bt_get values f = Some v -> valid_value f v = true.
Proof.
  intros Hwf Hv Hg. apply bt_get_in in Hg; [|done]. apply MetadataValues_validate_ok in Hv.
  by eapply Forall_forall in Hv; [|exact Hg].
Qed.

(** A valid value that says nothing is the field's unknown value. *)
Lemma valid_unknown f v : valid_value f v = true -> value_unknown f v = true -> v = unknown_value f.
Proof.
  unfold value_unknown, unknown_value. intros Hv Hu. destruct (is_feature f) eqn:Ef.
  - apply orb_true_iff in Hu as [Hn|Hs].
    + destruct v; try done. by destruct f.
    + apply andb_true_iff in Hs as [_ Hs%bool_decide_eq_true]. destruct v; try done. by injection Hs as ->.
  - apply orb_true_iff in Hu as [Hn|Hs]; [by destruct v|done].
Qed.

Lemma unknown_wf : metadata_wf metadata_unknown.
Proof. split; apply bt_collect_wf. Qed.

Lemma unknown_field f : field_of metadata_unknown f = (Some (unknown_value f), Some MsUnknown).
Proof. by destruct f. Qed.

(** ** Well-formed metadata *)

(** Every field has a value and a source, values are valid, and a field whose
    source is unknown has its unknown value. *)
Record metadata_ok (m : CatalogMetadata) : Prop := {
  mo_wf : metadata_wf m;
  mo_field : forall f, exists v s, field_of m f = (Some v, Some s) /\ valid_value f v = true
    /\ (s = MsUnknown -> v = unknown_value f)
    /\ (s = MsUpstream \/ s = MsPreset -> value_unknown f v = false);
}.

Lemma unknown_value_valid f : valid_value f (unknown_value f) = true.
Proof. by destruct f. Qed.

Lemma unknown_ok : metadata_ok metadata_unknown.
Proof.
  split; [apply unknown_wf|]. intros f. exists (unknown_value f), MsUnknown. rewrite unknown_field.
  split_and!; [done|apply unknown_value_valid|done|]. by intros [|].
Qed.

Lemma apply_values_ok m values source :
  metadata_ok m -> source <> MsUnknown -> bt_wf values -> MetadataValues_validate values = Ok tt ->
  metadata_ok (apply_values m values source).
Proof.
  intros [Hwf Hf] Hs Hv Hok. split; [by apply apply_values_wf|]. intros f.
  rewrite apply_values_field by done. destruct (bt_get values f) as [v|] eqn:E; [|apply Hf].
  pose proof (valid_get _ _ _ Hv Hok E) as Hval. unfold applied.
  destruct (value_unknown f v && negb (bool_decide (source = MsUser))) eqn:Eu.
  - apply andb_true_iff in Eu as [Hun _]. destruct (Hf f) as (w & s & -> & Hw & Hunk & Hkn). cbn [snd].
    case_bool_decide; [|by exists w, s]. exists v, MsUnknown. split_and!; [done|done|by intros _; apply valid_unknown|].
    by intros [|].
  - exists v, source. split_and!; [done|done|done|]. intros Hsrc.
    apply andb_false_iff in Eu as [Eu|Eu%negb_false_iff%bool_decide_eq_true]; [done|subst; by destruct Hsrc].
Qed.

Lemma resolve_inv upstream preset m :
  resolve upstream preset = Ok m ->
  MetadataValues_validate upstream = Ok tt
  /\ (forall p, preset = Some p -> MetadataValues_validate p = Ok tt)
  /\ m = match preset with
         | Some p => apply_values (apply_values metadata_unknown upstream MsUpstream) p MsPreset
         | None => apply_values metadata_unknown upstream MsUpstream
         end.
Proof.
  unfold resolve. destruct (MetadataValues_validate upstream) as [[]|] eqn:Eu; cbn [rbind]; [|done].
  destruct preset as [p|]; [|by intros [= <-]].
  destruct (MetadataValues_validate p) as [[]|] eqn:Ep; cbn [rbind]; [|done].
  intros [= <-]. split_and!; [done| |done]. by intros q [= <-].
Qed.

Lemma resolve_ok upstream preset m :
  bt_wf upstream -> (forall p, preset = Some p -> bt_wf p) -> resolve upstream preset = Ok m -> metadata_ok m.
Proof.
  intros Hu Hp (Hvu & Hvp & ->)%resolve_inv.
  assert (metadata_ok (apply_values metadata_unknown upstream MsUpstream)) as H1
    by (by apply apply_values_ok; [apply unknown_ok|..]).
  destruct preset as [p|]; [|done]. apply apply_values_ok; auto.
Qed.

(** What is known of a field: the preset's value before the upstream's. *)
Definition known (values : MetadataValues) (f : MetadataField) : option Value :=
  opt_filter (fun v => negb (value_unknown f v)) (bt_get values f).

Definition resolved_field (upstream : MetadataValues) (preset : option MetadataValues) (f : MetadataField)
    : Value * MetadataSource :=
  match preset ≫= (fun p => known p f), known upstream f with
  | Some v, _ => (v, MsPreset)
  | None, Some v => (v, MsUpstream)
  | None, None => (unknown_value f, MsUnknown)
  end.

Definition has_field (m : CatalogMetadata) (f : MetadataField) (vs : Value * MetadataSource) : Prop :=
  field_of m f = (Some vs.1, Some vs.2).

Lemma applied_known source values f old :
  source <> MsUser -> bt_wf values -> MetadataValues_validate values = Ok tt ->
  (old.2 = Some MsUnknown -> old.1 = Some (unknown_value f)) ->
  match bt_get values f with Some v => applied source f v old | None => old end
  = match known values f with Some v => (Some v, Some source) | None => old end.
Proof.
  intros Hs Hwf Hv Hold. unfold known. destruct (bt_get values f) as [v|] eqn:E; [|done]. cbn [opt_filter].
  pose proof (valid_get _ _ _ Hwf Hv E) as Hval. unfold applied. rewrite bool_decide_false by done.
  rewrite andb_true_r. destruct (value_unknown f v) eqn:Eu; cbn [negb]; [|done].
  case_bool_decide as Ho; [|done]. rewrite (valid_unknown f v) by done. destruct old as [o1 o2]. cbn in *.
  by rewrite (Hold Ho), Ho.
Qed.

Lemma resolve_field upstream preset m f :
  bt_wf upstream -> (forall p, preset = Some p -> bt_wf p) -> resolve upstream preset = Ok m ->
  has_field m f (resolved_field upstream preset f).
Proof.
  intros Hu Hp (Hvu & Hvp & ->)%resolve_inv. unfold has_field, resolved_field.
  assert (Hup : field_of (apply_values metadata_unknown upstream MsUpstream) f
    = match known upstream f with
      | Some v => (Some v, Some MsUpstream) | None => (Some (unknown_value f), Some MsUnknown) end).
  { rewrite apply_values_field by (done || apply unknown_wf). rewrite unknown_field. by rewrite applied_known. }
  destruct preset as [p|]; cbn [mbind option_bind].
  - rewrite apply_values_field by (auto || apply apply_values_wf, unknown_wf). rewrite Hup, applied_known by
      (auto || by destruct (known upstream f)). by destruct (known p f), (known upstream f).
  - rewrite Hup. by destruct (known upstream f).
Qed.

(** Restoring the fields a user set. *)
Lemma restore_fields_field self fields : forall refreshed g,
  metadata_wf refreshed ->
  metadata_wf (fold_left (restore_field self) fields refreshed)
  /\ field_of (fold_left (restore_field self) fields refreshed) g
     = match bt_get (md_values self) g with
       | Some v => if bool_decide (g ∈ fields) && bool_decide (bt_get (md_field_sources self) g = Some MsUser)
                   then (Some v, Some MsUser) else field_of refreshed g
       | None => field_of refreshed g
       end.
Proof.
  induction fields as [|f fields IH]; intros refreshed g Hwf; cbn [fold_left].
  { split; [done|]. by destruct (bt_get _ g). }
  set (r := restore_field self refreshed f).
  assert (Hr : metadata_wf r /\ field_of r g
    = match bt_get (md_values self) g with
      | Some v => if bool_decide (g = f) && bool_decide (bt_get (md_field_sources self) g = Some MsUser)
                  then (Some v, Some MsUser) else field_of refreshed g
      | None => field_of refreshed g
      end).
  { unfold r, restore_field. destruct Hwf as [Hv Hs]. destruct (decide (g = f)) as [->|Hne].
    - rewrite (bool_decide_true (f = f)) by done. cbn [andb].
      destruct (bool_decide _); [|by destruct (bt_get (md_values self) f)].
      destruct (bt_get (md_values self) f) as [v|]; [|done]. split; [by split; apply bt_insert_wf|].
      unfold field_of. cbn. by rewrite !bt_get_insert_eq.
    - rewrite (bool_decide_false (g = f)) by done. cbn [andb].
      assert (forall o : option Value, match o with Some _ => field_of refreshed g | None => field_of refreshed g end
        = field_of refreshed g) as -> by (by intros []).
      destruct (bool_decide _); [|done]. destruct (bt_get (md_values self) f) as [v|]; [|done].
      split; [by split; apply bt_insert_wf|]. unfold field_of. cbn. by rewrite !bt_get_insert_ne. }
  destruct Hr as [Hrwf Hrf]. destruct (IH r g Hrwf) as [Hwf' Hf']. split; [done|]. rewrite Hf', Hrf.
  destruct (bt_get (md_values self) g) as [v|]; [|done].
  destruct (decide (g = f)) as [->|Hne].
  - rewrite (bool_decide_true (f = f)), (bool_decide_true (f ∈ f :: fields)) by (done || apply list_elem_of_here).
    cbn [andb]. by destruct (bool_decide (f ∈ fields)), (bool_decide (_ = Some MsUser)).
  - rewrite (bool_decide_false (g = f)) by done. cbn [andb].
    assert (bool_decide (g ∈ f :: fields) = bool_decide (g ∈ fields)) as ->; [|done].
    apply bool_decide_ext. rewrite elem_of_cons. tauto.
Qed.

Lemma MetadataField_ALL_complete f : f ∈ MetadataField_ALL.
Proof. apply list_elem_of_In. destruct f; cbn; tauto. Qed.

(** The fields of a refreshed record. *)
Lemma restored_field m r f :
  metadata_ok m -> metadata_wf r ->
  field_of (fold_left (restore_field m) MetadataField_ALL r) f
  = if bool_decide (bt_get (md_field_sources m) f = Some MsUser) then field_of m f else field_of r f.
Proof.
  intros Hm Hr. destruct (restore_fields_field m MetadataField_ALL r f Hr) as [_ ->].
  destruct (mo_field _ Hm f) as (v & s & Hf & _). injection Hf as Hv Hs. rewrite Hv, Hs.
  rewrite (bool_decide_true (f ∈ MetadataField_ALL)) by apply MetadataField_ALL_complete. cbn [andb].
  case_bool_decide as Hu; [|done]. unfold field_of. rewrite Hv, Hs. by rewrite Hu.
Qed.

Lemma restored_ok m r : metadata_ok m -> metadata_ok r -> metadata_ok (fold_left (restore_field m) MetadataField_ALL r).
Proof.
  intros Hm Hr. split; [exact (proj1 (restore_fields_field m MetadataField_ALL r Usage (mo_wf _ Hr)))|].
  intros f. rewrite restored_field by (done || apply Hr). destruct (bool_decide _); [apply Hm|apply Hr].
Qed.

Lemma refreshed_ok m refreshed confirmed upstream preset :
  metadata_ok m -> bt_wf upstream -> (forall p, preset = Some p -> bt_wf p) ->
  refreshed_preserving_user_fields m confirmed upstream preset = Ok refreshed -> metadata_ok refreshed.
Proof.
  intros Hm Hu Hp. unfold refreshed_preserving_user_fields. destruct confirmed; [by intros [= <-]|].
  destruct (resolve upstream preset) as [r|] eqn:Er; cbn [rbind]; [|done]. intros Hok%Ok_inj. rewrite <- Hok.
  apply restored_ok; [done|by eapply resolve_ok].
Qed.

(** Metadata is determined by its fields. *)
Lemma metadata_ext m m' : metadata_wf m -> metadata_wf m' -> (forall f, field_of m f = field_of m' f) -> m = m'.
Proof.
  intros [Hv Hs] [Hv' Hs'] Hf. destruct m as [v s], m' as [v' s']. cbn in *.
  f_equal; apply bt_ext; try done; intros f; specialize (Hf f); unfold field_of in Hf; cbn in Hf; congruence.
Qed.

(** Refreshing twice from the same values is refreshing once. *)
Lemma refreshed_twice m m1 upstream preset :
  metadata_ok m -> bt_wf upstream -> (forall p, preset = Some p -> bt_wf p) ->
  refreshed_preserving_user_fields m false upstream preset = Ok m1 ->
  refreshed_preserving_user_fields m1 false upstream preset = Ok m1.
Proof.
  intros Hm Hu Hp. unfold refreshed_preserving_user_fields.
  destruct (resolve upstream preset) as [r|] eqn:Er; cbn [rbind]; [|done]. intros <-%Ok_inj.
  pose proof (resolve_ok _ _ _ Hu Hp Er) as Hr. pose proof (restored_ok m r Hm Hr) as H1. f_equal.
  apply metadata_ext; [apply restored_ok; [done|done]|apply H1|]. intros f.
  rewrite (restored_field _ r) by (done || apply Hr). case_bool_decide as Hf; [done|].
  rewrite (restored_field m r) by (done || apply Hr). case_bool_decide as Hf'; [|done]. destruct Hf.
  pose proof (restored_field m r f Hm (mo_wf _ Hr)) as Hfm. rewrite bool_decide_true in Hfm by done.
  unfold field_of in Hfm. congruence.
Qed.

(** Refreshing what was only resolved changes nothing. *)
Lemma refreshed_resolved upstream preset m :
  bt_wf upstream -> (forall p, preset = Some p -> bt_wf p) -> resolve upstream preset = Ok m ->
  refreshed_preserving_user_fields m false upstream preset = Ok m.
Proof.
  intros Hu Hp Er. unfold refreshed_preserving_user_fields. rewrite Er. cbn [rbind]. f_equal.
  pose proof (resolve_ok _ _ _ Hu Hp Er) as Hm. apply metadata_ext; [apply restored_ok; done|apply Hm|]. intros f.
  rewrite restored_field by (done || apply Hm). by destruct (bool_decide _).
Qed.

(** ** Stored metadata *)

Lemma MetadataField_of_to_string f : MetadataField_of_name (MetadataField_to_string f) = Some f.
Proof. by destruct f. Qed.

Lemma MetadataField_to_string_inj f g : MetadataField_to_string f = MetadataField_to_string g -> f = g.
Proof. intros Hfg. apply (f_equal MetadataField_of_name) in Hfg. rewrite !MetadataField_of_to_string in Hfg. congruence. Qed.

Section Stored.
Context {V : Type} (print : V -> Value) (read : Value -> option V) (read_print : forall v, read (print v) = Some v).

Definition stored (m : list (MetadataField * V)) : list (string * Value) :=
  map (fun kv => (MetadataField_to_string kv.1, print kv.2)) m.

Lemma stored_keys m : (stored m).*1 = MetadataField_to_string <$> m.*1.
Proof. induction m as [|[f v] m IH]; [done|]. cbn. by f_equal. Qed.

Lemma stored_nodup m : NoDup m.*1 -> NoDup (stored m).*1.
Proof.
  intros Hnd. rewrite stored_keys. apply NoDup_fmap_2; [|done]. intros f g. apply MetadataField_to_string_inj.
Qed.

Lemma fields_from_stored object :
  (forall kv, kv ∈ object -> exists f v, kv = (MetadataField_to_string f, print v)) ->
  exists l, fields_from_object read object = Some l /\ stored l = object.
Proof.
  induction object as [|[name x] object IH]; intros Hall; [by exists []|].
  destruct (Hall _ (list_elem_of_here _ _)) as (f & v & [= -> ->]).
  destruct IH as (l & Hl & <-); [intros kv Hkv; apply Hall; by apply list_elem_of_further|].
  exists ((f, v) :: l). cbn [fields_from_object]. by rewrite MetadataField_of_to_string, read_print, Hl.
Qed.

Lemma stored_in l f v : (f, v) ∈ l <-> (MetadataField_to_string f, print v) ∈ stored l.
Proof.
  unfold stored. rewrite list_elem_of_fmap. split; [intros Hin; by exists (f, v)|].
  intros ([g w] & [= Hfg Hvw] & Hin). apply MetadataField_to_string_inj in Hfg as <-.
  apply (f_equal read) in Hvw. rewrite !read_print in Hvw. by injection Hvw as <-.
Qed.

(** Reading back a stored map. *)
Lemma map_from_stored m : bt_wf m -> map_from_value read (object_of (stored m)) = Some m.
Proof.
  intros Hwf. pose proof (bt_wf_nodup _ Hwf) as Hnd. pose proof (stored_nodup _ Hnd) as Hsnd.
  unfold object_of, map_from_value.
  destruct (fields_from_stored (bt_collect (stored m))) as (l & -> & Hl).
  { intros [name x] Hin. rewrite bt_collect_in in Hin by done. apply list_elem_of_fmap in Hin as ([f v] & [= -> ->] & _).
    by exists f, v. }
  cbn [fmap option_fmap option_map]. f_equal.
  assert (Hin : forall kv, kv ∈ l <-> kv ∈ m).
  { intros [f v]. rewrite stored_in, Hl, bt_collect_in by done. symmetry. apply stored_in. }
  apply bt_collect_perm; [done| |done].
  assert (Hkeys : NoDup (stored l).*1) by (rewrite Hl; apply bt_wf_nodup, bt_collect_wf).
  rewrite stored_keys in Hkeys. by apply NoDup_fmap_1 in Hkeys.
Qed.
End Stored.

(** ** Properties *)

(** Metadata of a model is resolved field by field: the preset's value if the
    preset knows the field, else the upstream's, else unknown; each field
    records which of the three it was, and nothing else is in the record. *)
Theorem metadata_resolution (upstream : MetadataValues) (preset : option MetadataValues) (m : CatalogMetadata)
    (Hupstream : bt_wf upstream) (Hpreset : forall p, preset = Some p -> bt_wf p)
    (Hok : resolve upstream preset = Ok m) :
  metadata_ok m /\ forall f, has_field m f (resolved_field upstream preset f).
Proof. split; [by eapply resolve_ok|]. intros f. by apply resolve_field. Qed.

(** A refresh never overwrites what a user decided: confirmed metadata is
    unchanged; otherwise the fields the user set keep their value and source,
    every other field is resolved from the new upstream and preset values, and
    the record stays well-formed. *)
Theorem refresh_preserves_user_fields (m refreshed : CatalogMetadata) (confirmed : bool)
    (upstream : MetadataValues) (preset : option MetadataValues)
    (Hm : metadata_ok m) (Hupstream : bt_wf upstream) (Hpreset : forall p, preset = Some p -> bt_wf p)
    (Hok : refreshed_preserving_user_fields m confirmed upstream preset = Ok refreshed) :
  metadata_ok refreshed
  /\ if confirmed then refreshed = m
     else forall f, if bool_decide (bt_get (md_field_sources m) f = Some MsUser)
                    then field_of refreshed f = field_of m f
                    else has_field refreshed f (resolved_field upstream preset f).
Proof.
  split; [by eapply refreshed_ok|]. unfold refreshed_preserving_user_fields in Hok.
  destruct confirmed; [by injection Hok as <-|]. intros f.
  destruct (resolve upstream preset) as [r|] eqn:Er; cbn [rbind] in Hok; [|done]. apply Ok_inj in Hok as <-.
  pose proof (restored_field m r f Hm (mo_wf _ (resolve_ok _ _ _ Hupstream Hpreset Er))) as Hf.
  destruct (bool_decide _); [done|]. unfold has_field. rewrite Hf. by apply resolve_field.
Qed.

(** Stored metadata is read back unchanged. *)
Lemma metadata_json_roundtrip (de_error : Value -> string) (m : CatalogMetadata) (Hm : metadata_ok m) :
  metadata_from_json de_error (metadata_to_json m).1 (metadata_to_json m).2 = Ok m.
Proof.
  destruct (mo_wf _ Hm) as [Hv Hs]. unfold metadata_from_json, metadata_to_json. cbn [fst snd].
  pose proof (map_from_stored (fun v => v) Some (fun v => eq_refl) _ Hv) as Hrv.
  pose proof (map_from_stored (fun s => VString (MetadataSource_to_string s))
                (variant_from_value (fun n => rok (MetadataSource_from_str n))) ltac:(by intros []) _ Hs) as Hrs.
  unfold stored in Hrv, Hrs. rewrite Hrv. cbn [ok_or rbind]. rewrite Hrs. cbn [ok_or rbind].
  assert (MetadataValues_validate (md_values m) = Ok tt) as ->; [|by destruct m].
  apply MetadataValues_validate_ok, Forall_forall. intros [f v] Hin. cbn.
  apply bt_get_in in Hin; [|done]. destruct (mo_field _ Hm f) as (w & s & Hf & Hw & _).
  injection Hf as Hgw _. congruence.
Qed.

(** ** Examples *)

Definition example_upstream_values : MetadataValues :=
  [(DisplayName, VString "m-1"); (ContextWindow, VNull); (Tools, VString "supported")].
Definition example_preset_values : MetadataValues :=
  [(ContextWindow, VNumber (PosInt 4096)); (Tools, VString "unknown")].

Definition example_metadata : CatalogMetadata :=
  unwrap_or (rok (resolve example_upstream_values (Some example_preset_values))) metadata_unknown.

Example example_metadata_fields :
  map (fun f => (field_of example_metadata f)) [DisplayName; ContextWindow; Tools; Usage]
  = [(Some (VString "m-1"), Some MsUpstream); (Some (VNumber (PosInt 4096)), Some MsPreset);
     (Some (VString "supported"), Some MsUpstream); (Some (VString "unknown"), Some MsUnknown)].
Proof. reflexivity. Qed.

Lemma example_values_wf : bt_wf example_upstream_values /\ bt_wf example_preset_values.
Proof. split; repeat constructor. Qed.

Lemma metadata_resolution_witness :
  metadata_ok example_metadata /\ has_field example_metadata Tools (VString "supported", MsUpstream).
Proof.
  destruct (metadata_resolution example_upstream_values (Some example_preset_values) example_metadata)
    as [Hok Hf]; [apply example_values_wf|intros p [= <-]; apply example_values_wf|reflexivity|].
  split; [exact Hok|exact (Hf Tools)].
Defined.

Lemma example_metadata_ok : metadata_ok example_metadata.
Proof.
  apply (resolve_ok example_upstream_values (Some example_preset_values)); [apply example_values_wf| |done].
  intros p [= <-]. apply example_values_wf.
Qed.

Definition example_edited : CatalogMetadata :=
  apply_values example_metadata [(DisplayName, VString "My model")] MsUser.

Lemma example_edited_ok : metadata_ok example_edited.
Proof. apply apply_values_ok; [apply example_metadata_ok|done|repeat constructor|done]. Qed.

Lemma refresh_preserves_user_fields_witness :
  exists refreshed, refreshed_preserving_user_fields example_edited false example_upstream_values None = Ok refreshed
    /\ field_of refreshed DisplayName = (Some (VString "My model"), Some MsUser)
    /\ has_field refreshed ContextWindow (VNull, MsUnknown).
Proof.
  destruct (refreshed_preserving_user_fields example_edited false example_upstream_values None) as [r|] eqn:E;
    [|vm_compute in E; discriminate E].
  destruct (refresh_preserves_user_fields example_edited r false example_upstream_values None example_edited_ok)
    as [_ Hf]; [apply example_values_wf|intros p Hp; discriminate Hp|exact E|].
  exists r. split; [reflexivity|]. split; [exact (Hf DisplayName)|exact (Hf ContextWindow)].
Defined.

Example metadata_json_roundtrip_example :
  metadata_from_json (fun _ => "") (metadata_to_json example_edited).1 (metadata_to_json example_edited).2
  = Ok example_edited.
Proof. exact (metadata_json_roundtrip (fun _ => "") example_edited example_edited_ok). Defined.
