(* ===== verification/Presets.v ===== *)
(** * Provider presets: [src/src/domain/provider_preset.rs]

    The versioned definitions of the built-in providers and models, their
    validation and the snapshots a source takes of them.  Reading and writing a
    definition as JSON is derived code of the [serde] crate: [PresetSerde]. *)

From Stdlib Require Import ZArith Lia.
From stdpp Require Import base list strings.
From S2P Require Import Prelude.
From S2P Require Import RustStr.
From S2P Require Import Protocol.
From S2P Require Import BTree.
From S2P Require Import Config.
From S2P Require Import SourceUrl.
From S2P Require Import Json.
From S2P Require Import Catalog.

Definition PROVIDER_PRESET_SCHEMA_VERSION : Z := 1.
Definition BUILTIN_PROVIDER_PRESET_VERSION : Z := 3.
Definition KIMI_CODE_PROVIDER_PRESET_VERSION : Z := 5.
Definition MULTIMODAL_MODEL_PRESET_VERSION : Z := 2.

Inductive HttpMethod : Type := Get | Post.

#[global] Instance HttpMethod_eq_dec : EqDecision HttpMethod.
Proof. solve_decision. Defined.

Record CredentialHeaderTemplate : Type := mkCredentialHeaderTemplate { ch_header : string; ch_prefix : string }.

Record SourceAuthConfig : Type := mkSourceAuthConfig {
  sa_credential_header : CredentialHeaderTemplate;
  sa_default_headers : list (string * string);
}.

Record ConnectionTestTemplate : Type := mkConnectionTestTemplate {
  ct_method : HttpMethod;
  ct_default_model : string;
  ct_body : Value;
}.

Record ProtocolPreset : Type := mkProtocolPreset {
  pt_endpoint : string;
  pt_mode : SourceProtocolMode;
  pt_source_protocol : option Protocol;
  pt_adapter : option string;
  pt_headers : list (string * string);
  pt_default_capabilities : list (string * CapabilitySupport);
  pt_connection_test : ConnectionTestTemplate;
}.

Record SourceProtocolCapability : Type := mkSourceProtocolCapability {
  sq_mode : SourceProtocolMode;
  sq_source_protocol : option Protocol;
  sq_adapter : option string;
  sq_features : list (string * CapabilitySupport);
}.

Record DiscoveryParser : Type := mkDiscoveryParser {
  dp_list_path : string;
  dp_id_path : string;
  dp_metadata_paths : list (MetadataField * string);
}.

Inductive DiscoveryPreset : Type :=
| DiscoverySupported (method : HttpMethod) (endpoint : string) (parser : DiscoveryParser)
| DiscoveryUnsupported (reason : string).

Record ProviderPresetDefinition : Type := mkProviderPresetDefinition {
  pd_schema_version : Z;
  pd_default_base_url : string;
  pd_credential_header : CredentialHeaderTemplate;
  pd_default_headers : list (string * string);
  pd_protocols : list (Protocol * ProtocolPreset);
  pd_discovery : DiscoveryPreset;
}.

(** The derived [Serialize] and [Deserialize]; [None] is an error. *)
Class PresetSerde : Type := {
  preset_to_value : ProviderPresetDefinition -> Value;
  preset_from_value : Value -> option ProviderPresetDefinition;
  auth_to_value : SourceAuthConfig -> Value;
  auth_from_value : Value -> option SourceAuthConfig;
  capabilities_to_value : list (Protocol * SourceProtocolCapability) -> Value;
  capabilities_from_value : Value -> option (list (Protocol * SourceProtocolCapability));
}.

(** ** Validation *)

Definition validate_relative_endpoint (endpoint : string) : result unit CatalogError :=
  if negb (starts_with endpoint "/") || starts_with endpoint "//"
  then Err (InvalidState ("provider preset endpoint '" +:+ endpoint +:+ "' must be an absolute path"))
  else Ok tt.

(** The body of the loop over the three protocols. *)
Definition validate_protocol (self : ProviderPresetDefinition) (protocol : Protocol) : result unit CatalogError :=
  let name := Protocol_to_string protocol in
  let? definition := ok_or (bt_get (pd_protocols self) protocol)
                       (InvalidState ("provider preset must declare protocol " +:+ name)) in
  let? _ := validate_relative_endpoint (pt_endpoint definition) in
  if negb (is_object (ct_body (pt_connection_test definition)))
     || is_empty (trim (ct_default_model (pt_connection_test definition)))
  then Err (InvalidState ("provider preset protocol " +:+ name
              +:+ " requires an object test body and default model"))
  else
    match pt_mode definition with
    | SmAdapter =>
        if negb (is_some (pt_source_protocol definition)) || is_none_or (pt_adapter definition) is_empty
        then Err (InvalidState ("provider preset protocol " +:+ name
                    +:+ " adapter requires source_protocol and adapter"))
        else Ok tt
    | _ =>
        if is_some (pt_source_protocol definition) || is_some (pt_adapter definition)
        then Err (InvalidState ("provider preset protocol " +:+ name
                    +:+ " may only set adapter fields in adapter mode"))
        else Ok tt
    end.

(** A URL that is only an origin and a path. *)
Definition plain_http_url (url : Url) : bool :=
  ((url_scheme url =?s "http") || (url_scheme url =?s "https")) && is_some (url_host_str url)
  && is_empty (url_username url) && negb (is_some (url_password url)) && negb (is_some (url_query url))
  && negb (is_some (url_fragment url)).

Definition preset_validate `{UrlCrates} (self : ProviderPresetDefinition) : result unit CatalogError :=
  if negb (pd_schema_version self =? PROVIDER_PRESET_SCHEMA_VERSION)
  then Err (InvalidState ("unsupported provider preset schema version " +:+ dec (pd_schema_version self)))
  else
    let? base_url := ok_or (url_parse (pd_default_base_url self))
                       (InvalidState "provider preset default_base_url is invalid") in
    if negb (plain_http_url base_url)
    then Err (InvalidState ("provider preset default_base_url must be an http(s) origin without credentials, "
                +:+ "query, or fragment"))
    else if is_empty (trim (ch_header (pd_credential_header self)))
    then Err (InvalidState "provider preset credential header cannot be empty")
    else
      let? _ := validate_protocol self OpenAiChatCompletions in
      let? _ := validate_protocol self OpenAiResponses in
      let? _ := validate_protocol self AnthropicMessages in
      match pd_discovery self with
      | DiscoverySupported method endpoint parser =>
          if negb (bool_decide (method = Get)) then Err (InvalidState "model discovery currently requires GET")
          else
            let? _ := validate_relative_endpoint endpoint in
            if is_empty (trim (dp_list_path parser)) || is_empty (trim (dp_id_path parser))
            then Err (InvalidState "model discovery parser paths cannot be empty")
            else Ok tt
      | DiscoveryUnsupported _ => Ok tt
      end.

(** ** Snapshots taken by a source *)

Definition auth_snapshot `{PresetSerde} (self : ProviderPresetDefinition) : Value :=
  auth_to_value (mkSourceAuthConfig (pd_credential_header self) (pd_default_headers self)).

Definition preset_capability (definition : ProtocolPreset) : SourceProtocolCapability :=
  mkSourceProtocolCapability (pt_mode definition) (pt_source_protocol definition) (pt_adapter definition)
    (pt_default_capabilities definition).

Definition protocol_capabilities_snapshot `{PresetSerde} (self : ProviderPresetDefinition) : Value :=
  capabilities_to_value (bt_collect (map (fun kv => (kv.1, preset_capability kv.2)) (pd_protocols self))).

(** ** The built-in providers *)

Definition default_features : list (string * CapabilitySupport) :=
  bt_collect [("streaming", Supported); ("tools", Supported); ("thinking", Supported);
              ("web_search", Unknown); ("structured_output", Unknown); ("usage", Supported)].

Definition bearer_auth : CredentialHeaderTemplate := mkCredentialHeaderTemplate "authorization" "Bearer ".
Definition anthropic_headers : list (string * string) := [("anthropic-version", "2023-06-01")].

Definition connection_test (default_model : string) (body : Value) : ConnectionTestTemplate :=
  mkConnectionTestTemplate Post default_model body.

Definition native_protocol (endpoint default_model : string) (body : Value) (headers : list (string * string))
    : ProtocolPreset :=
  mkProtocolPreset endpoint SmNative None None headers default_features (connection_test default_model body).

Definition openai_discovery (endpoint : string) : DiscoveryPreset :=
  DiscoverySupported Get endpoint
    (mkDiscoveryParser "data" "id" (bt_collect [(LogicalModelName, "id"); (DisplayName, "id")])).

(** The [json!] bodies of the connection tests. *)
Definition messages_body : Value :=
  object_of [("model", VString "{{model}}");
             ("messages", VArray [object_of [("role", VString "user"); ("content", VString "ping")]]);
             ("max_tokens", of_i64 1); ("stream", VBool false)].
Definition responses_body : Value :=
  object_of [("model", VString "{{model}}"); ("input", VString "ping"); ("max_output_tokens", of_i64 1);
             ("stream", VBool false)].

Definition json_headers : list (string * string) :=
  bt_collect [("accept", "application/json"); ("content-type", "application/json")].

Definition deepseek : string * string * ProviderPresetDefinition :=
  let model := "deepseek-v4-flash" in
  ("deepseek", "DeepSeek",
   mkProviderPresetDefinition PROVIDER_PRESET_SCHEMA_VERSION "https://api.deepseek.com" bearer_auth json_headers
     (bt_collect
        [(OpenAiChatCompletions, native_protocol "/chat/completions" model messages_body []);
         (OpenAiResponses, native_protocol "/responses" model responses_body []);
         (AnthropicMessages, native_protocol "/anthropic/v1/messages" "deepseek-v4-pro" messages_body
                               anthropic_headers)])
     (openai_discovery "/models")).

Definition minimax : string * string * ProviderPresetDefinition :=
  let model := "MiniMax-M3" in
  ("minimax", "MiniMax",
   mkProviderPresetDefinition PROVIDER_PRESET_SCHEMA_VERSION "https://api.minimax.io" bearer_auth json_headers
     (bt_collect
        [(OpenAiChatCompletions, native_protocol "/v1/chat/completions" model messages_body []);
         (OpenAiResponses, native_protocol "/v1/responses" model responses_body []);
         (AnthropicMessages, native_protocol "/anthropic/v1/messages" model messages_body anthropic_headers)])
     (openai_discovery "/v1/models")).

Definition kimi_code : string * string * ProviderPresetDefinition :=
  let model := "k3" in
  let adapter_features := bt_insert default_features "web_search" Supported in
  ("kimi_code", "Kimi Code",
   mkProviderPresetDefinition PROVIDER_PRESET_SCHEMA_VERSION "https://api.kimi.com/coding" bearer_auth json_headers
     (bt_collect
        [(OpenAiChatCompletions, native_protocol "/v1/chat/completions" model messages_body []);
         (OpenAiResponses,
          mkProtocolPreset "/v1/messages" SmAdapter (Some AnthropicMessages) (Some "kimi_responses_adapter")
            anthropic_headers adapter_features (connection_test model messages_body));
         (AnthropicMessages, native_protocol "/v1/messages" model messages_body anthropic_headers)])
     (DiscoveryUnsupported ("Kimi Code does not document an authenticated model-list endpoint; use the versioned "
        +:+ "ModelPreset catalog and user confirmation"))).

Definition set_protocols (self : ProviderPresetDefinition) (protocols : list (Protocol * ProtocolPreset))
    : ProviderPresetDefinition :=
  mkProviderPresetDefinition (pd_schema_version self) (pd_default_base_url self) (pd_credential_header self)
    (pd_default_headers self) protocols (pd_discovery self).

Definition set_discovery (self : ProviderPresetDefinition) (discovery : DiscoveryPreset)
    : ProviderPresetDefinition :=
  mkProviderPresetDefinition (pd_schema_version self) (pd_default_base_url self) (pd_credential_header self)
    (pd_default_headers self) (pd_protocols self) discovery.

Definition mark_protocol_feature (definition : ProviderPresetDefinition) (protocol : Protocol) (feature : string)
    (support : CapabilitySupport) : ProviderPresetDefinition :=
  match bt_get (pd_protocols definition) protocol with
  | Some p =>
      set_protocols definition
        (bt_insert (pd_protocols definition) protocol
           (mkProtocolPreset (pt_endpoint p) (pt_mode p) (pt_source_protocol p) (pt_adapter p) (pt_headers p)
              (bt_insert (pt_default_capabilities p) feature support) (pt_connection_test p)))
  | None => definition
  end.

Definition mark_responses (feature : string) (support : CapabilitySupport) (definition : ProviderPresetDefinition)
    : ProviderPresetDefinition := mark_protocol_feature definition OpenAiResponses feature support.

(** The eleven records, before validation. *)
Definition builtin_definitions : list (string * string * Z * ProviderPresetDefinition) :=
  let '(deepseek_id, deepseek_name, deepseek_definition) := deepseek in
  let '(minimax_id, minimax_name, minimax_definition) := minimax in
  let '(kimi_id, kimi_name, kimi_definition) := kimi_code in
  let deepseek_v2 := mark_responses "web_search" Supported deepseek_definition in
  let minimax_v2 := mark_responses "web_search" Supported minimax_definition in
  let kimi_v2 := mark_responses "tool_streaming" Supported kimi_definition in
  let hidden definition := mark_responses "web_search_sources" Unsupported
                             (mark_responses "web_search_citations" Unsupported definition) in
  let deepseek_v3 := hidden deepseek_v2 in
  let minimax_v3 := hidden minimax_v2 in
  let kimi_v3 := mark_responses "web_search_sources" Supported
                   (mark_responses "web_search_citations" Supported kimi_v2) in
  let features :=
    bt_insert (bt_insert (bt_insert (bt_insert default_features "web_search" Supported)
      "tool_streaming" Supported) "web_search_citations" Unknown) "web_search_sources" Unknown in
  let kimi_v4 := set_protocols kimi_v3
    (bt_insert (pd_protocols kimi_v3) OpenAiResponses
       (mkProtocolPreset "/v1/responses" SmNative None None [] features (connection_test "k3" responses_body))) in
  let kimi_v5 := set_discovery kimi_v4 (openai_discovery "/v1/models") in
  [(deepseek_id, deepseek_name, 1, deepseek_definition); (minimax_id, minimax_name, 1, minimax_definition);
   (kimi_id, kimi_name, 1, kimi_definition); (deepseek_id, deepseek_name, 2, deepseek_v2);
   (minimax_id, minimax_name, 2, minimax_v2); (kimi_id, kimi_name, 2, kimi_v2); (kimi_id, kimi_name, 3, kimi_v3);
   (kimi_id, kimi_name, 4, kimi_v4);
   (deepseek_id, deepseek_name, BUILTIN_PROVIDER_PRESET_VERSION, deepseek_v3);
   (minimax_id, minimax_name, BUILTIN_PROVIDER_PRESET_VERSION, minimax_v3);
   (kimi_id, "Kimi Code CN", KIMI_CODE_PROVIDER_PRESET_VERSION, kimi_v5)].

Fixpoint preset_inputs `{UrlCrates} `{PresetSerde} (l : list (string * string * Z * ProviderPresetDefinition))
    : result (list ProviderPresetInput) CatalogError :=
  match l with
  | [] => Ok []
  | (id, display_name, version, definition) :: l =>
      let? _ := preset_validate definition in
      let? rest := preset_inputs l in
      Ok (mkProviderPresetInput id version display_name (preset_to_value definition) :: rest)
  end.

Definition builtin_provider_presets `{UrlCrates} `{PresetSerde} : result (list ProviderPresetInput) CatalogError :=
  preset_inputs builtin_definitions.

(** ** The built-in models *)

Definition model_preset (id : string) (version : Z) (canonical_model_id : string) (aliases : list string)
    (fields : list (MetadataField * Value)) : result ModelPresetInput CatalogError :=
  let? values := from_fields fields in
  let? metadata := resolve [] (Some values) in
  Ok (mkModelPresetInput id version canonical_model_id aliases metadata).

Definition texts (l : list string) : Value := VArray (map VString l).
Definition yes : Value := VString "supported".

Definition builtin_model_presets : result (list ModelPresetInput) CatalogError :=
  let? m1 := model_preset "deepseek-v4-flash" MULTIMODAL_MODEL_PRESET_VERSION "deepseek-flash"
    ["deepseek-v4-flash"; "deepseek-v4-flash-vision-exp"]
    [(DisplayName, VString "DeepSeek V4.1 Flash"); (ContextWindow, of_i64 1048576);
     (MaxOutputTokens, of_i64 384000); (InputModalities, texts ["text"; "image"]);
     (OutputModalities, texts ["text"]); (Tools, yes); (Thinking, yes); (StructuredOutput, yes);
     (Streaming, yes); (Usage, yes)] in
  let? m2 := model_preset "deepseek-v4-pro" 1 "deepseek-v4-pro" []
    [(DisplayName, VString "DeepSeek V4 Pro"); (ContextWindow, of_i64 1000000); (MaxOutputTokens, of_i64 384000);
     (InputModalities, texts ["text"]); (OutputModalities, texts ["text"]); (Tools, yes); (Thinking, yes);
     (StructuredOutput, yes); (Streaming, yes); (Usage, yes)] in
  let? m3 := model_preset "minimax-m3" 1 "MiniMax-M3" []
    [(DisplayName, VString "MiniMax M3"); (ContextWindow, of_i64 1000000);
     (InputModalities, texts ["text"; "image"; "video"]); (OutputModalities, texts ["text"]); (Tools, yes);
     (Thinking, yes); (Streaming, yes); (Usage, yes)] in
  let? m4 := model_preset "minimax-m2.7" 1 "MiniMax-M2.7" ["MiniMax-M2.7-highspeed"]
    [(DisplayName, VString "MiniMax M2.7"); (ContextWindow, of_i64 204800); (InputModalities, texts ["text"]);
     (OutputModalities, texts ["text"]); (Tools, yes); (Thinking, yes); (Streaming, yes); (Usage, yes)] in
  let? m5 := model_preset "kimi-k3" MULTIMODAL_MODEL_PRESET_VERSION "k3" []
    [(DisplayName, VString "Kimi K3"); (ContextWindow, of_i64 1048576);
     (InputModalities, texts ["text"; "image"; "video"]); (OutputModalities, texts ["text"]); (Tools, yes);
     (Thinking, yes); (WebSearch, yes); (Streaming, yes); (Usage, yes)] in
  let? m6 := model_preset "kimi-k3-256k" MULTIMODAL_MODEL_PRESET_VERSION "k3-256k" []
    [(DisplayName, VString "Kimi K3 256K"); (ContextWindow, of_i64 262144);
     (InputModalities, texts ["text"; "image"]); (OutputModalities, texts ["text"]); (Tools, yes);
     (Thinking, yes); (WebSearch, yes); (Streaming, yes); (Usage, yes)] in
  let? m7 := model_preset "kimi-for-coding" MULTIMODAL_MODEL_PRESET_VERSION "kimi-for-coding" []
    [(DisplayName, VString "Kimi for Coding"); (ContextWindow, of_i64 1048576);
     (InputModalities, texts ["text"; "image"; "video"]); (OutputModalities, texts ["text"]); (Tools, yes);
     (Thinking, yes); (WebSearch, yes); (Streaming, yes); (Usage, yes)] in
  let? m8 := model_preset "kimi-for-coding-highspeed" MULTIMODAL_MODEL_PRESET_VERSION "kimi-for-coding-highspeed" []
    [(DisplayName, VString "Kimi for Coding HighSpeed"); (ContextWindow, of_i64 262144);
     (InputModalities, texts ["text"; "image"; "video"]); (OutputModalities, texts ["text"]); (Tools, yes);
     (Thinking, yes); (WebSearch, yes); (Streaming, yes); (Usage, yes)] in
  Ok [m1; m2; m3; m4; m5; m6; m7; m8].

(** ** Properties of definitions *)

Definition absolute_path (endpoint : string) : Prop :=
  starts_with endpoint "/" = true /\ starts_with endpoint "//" = false.

Definition protocol_preset_ok (p : ProtocolPreset) : Prop :=
  absolute_path (pt_endpoint p)
  /\ (exists body, ct_body (pt_connection_test p) = VObject body)
  /\ trim (ct_default_model (pt_connection_test p)) <> ""
  /\ match pt_mode p with
     | SmAdapter => is_some (pt_source_protocol p) = true /\ exists a, pt_adapter p = Some a /\ a <> ""
     | _ => pt_source_protocol p = None /\ pt_adapter p = None
     end.

Definition discovery_ok (d : DiscoveryPreset) : Prop :=
  match d with
  | DiscoverySupported method endpoint parser =>
      method = Get /\ absolute_path endpoint /\ trim (dp_list_path parser) <> "" /\ trim (dp_id_path parser) <> ""
  | DiscoveryUnsupported _ => True
  end.

Record definition_ok `{UrlCrates} (d : ProviderPresetDefinition) : Prop := {
  do_schema : pd_schema_version d = PROVIDER_PRESET_SCHEMA_VERSION;
  do_url : exists url, url_parse (pd_default_base_url d) = Some url /\ plain_http_url url = true;
  do_header : trim (ch_header (pd_credential_header d)) <> "";
  do_protocols : forall protocol, exists p, bt_get (pd_protocols d) protocol = Some p /\ protocol_preset_ok p;
  do_discovery : discovery_ok (pd_discovery d);
}.

Lemma is_empty_false s : is_empty s = false <-> s <> "".
Proof. apply String.eqb_neq. Qed.

Lemma is_empty_true s : is_empty s = true <-> s = "".
Proof. apply String.eqb_eq. Qed.

Lemma is_object_true v : is_object v = true <-> exists body, v = VObject body.
Proof. destruct v; cbn; split; try done; try (by intros [? ?]); eauto. Qed.

Lemma validate_relative_endpoint_ok endpoint :
  validate_relative_endpoint endpoint = Ok tt <-> absolute_path endpoint.
Proof.
  unfold validate_relative_endpoint, absolute_path.
  destruct (starts_with endpoint "/"), (starts_with endpoint "//"); cbn; intuition congruence.
Qed.

Lemma validate_protocol_ok d protocol :
  validate_protocol d protocol = Ok tt <->
  exists p, bt_get (pd_protocols d) protocol = Some p /\ protocol_preset_ok p.
Proof.
  unfold validate_protocol, protocol_preset_ok. destruct (bt_get _ protocol) as [p|]; cbn [ok_or rbind];
    [|split; [done|by intros (p & ? & _)]].
  assert (forall P, (exists q, Some p = Some q /\ P q) <-> P p) as Hone
    by (intros P; split; [by intros (q & [= ->] & ?)|by exists p]).
  rewrite (Hone (fun p => absolute_path (pt_endpoint p) /\ _)). clear Hone.
  pose proof (validate_relative_endpoint_ok (pt_endpoint p)) as He.
  destruct (validate_relative_endpoint _) as [[]|]; cbn [rbind]; [|by split; [done|intros (Ha & _); by apply He in Ha]].
  assert (absolute_path (pt_endpoint p)) as Ha by (by apply He).
  destruct (is_object _) eqn:Eb; cbn [negb orb]; [apply is_object_true in Eb|].
  2:{ split; [done|]. intros (_ & Hb & _). apply is_object_true in Hb. congruence. }
  destruct (is_empty (trim _)) eqn:Em.
  { apply is_empty_true in Em. split; [done|]. by intros (_ & _ & Hm & _). }
  apply is_empty_false in Em.
  destruct (pt_mode p).
  3:{ destruct (pt_source_protocol p), (pt_adapter p) as [a|]; cbn [is_some is_none_or negb orb];
        try (by split; [|intros (_ & _ & _ & ? & ? & ? & ?)]).
      destruct (is_empty a) eqn:Ea; [apply is_empty_true in Ea as ->|apply is_empty_false in Ea; split; eauto 10].
      split; [done|]. by intros (_ & _ & _ & _ & a & [= <-] & ?). }
  all: destruct (pt_source_protocol p), (pt_adapter p); cbn [is_some orb];
    try (by split; [|intros (_ & _ & _ & ? & ?)]); split; auto.
Qed.

Lemma preset_validate_ok `{UrlCrates} d : preset_validate d = Ok tt <-> definition_ok d.
Proof.
  assert (definition_ok d <->
    pd_schema_version d = PROVIDER_PRESET_SCHEMA_VERSION
    /\ (exists url, url_parse (pd_default_base_url d) = Some url /\ plain_http_url url = true)
    /\ trim (ch_header (pd_credential_header d)) <> ""
    /\ (validate_protocol d OpenAiChatCompletions = Ok tt /\ validate_protocol d OpenAiResponses = Ok tt
        /\ validate_protocol d AnthropicMessages = Ok tt)
    /\ discovery_ok (pd_discovery d)) as ->.
  { split; [intros [H1 H2 H3 H4 H5]|intros (H1 & H2 & H3 & (Hp1 & Hp2 & Hp3) & H5)].
    - rewrite !validate_protocol_ok. auto 10.
    - split; auto. intros []; by apply validate_protocol_ok. }
  unfold preset_validate. destruct (Z.eqb_spec (pd_schema_version d) PROVIDER_PRESET_SCHEMA_VERSION); cbn [negb];
    [|by split; [|intros (? & _)]].
  destruct (url_parse _) as [url|]; cbn [ok_or rbind]; [|by split; [|intros (_ & (? & ? & _) & _)]].
  destruct (plain_http_url url) eqn:Eu; cbn [negb];
    [|split; [done|]; intros (_ & (u & [= <-] & Hu) & _); congruence].
  destruct (is_empty _) eqn:Eh; [apply is_empty_true in Eh; by split; [|intros (_ & _ & ? & _)]|].
  apply is_empty_false in Eh.
  destruct (validate_protocol d OpenAiChatCompletions) as [[]|]; cbn [rbind]; [|by split; [|intros (_ & _ & _ & (? & _) & _)]].
  destruct (validate_protocol d OpenAiResponses) as [[]|]; cbn [rbind]; [|by split; [|intros (_ & _ & _ & (_ & ? & _) & _)]].
  destruct (validate_protocol d AnthropicMessages) as [[]|]; cbn [rbind]; [|by split; [|intros (_ & _ & _ & (_ & _ & ?) & _)]].
  destruct (pd_discovery d) as [m endpoint parser|]; cbn [discovery_ok]; [|split; [eauto 10|done]].
  case_bool_decide as Hm; cbn [negb]; [|by split; [|intros (_ & _ & _ & _ & ? & _)]].
  pose proof (validate_relative_endpoint_ok endpoint) as He.
  destruct (validate_relative_endpoint endpoint) as [[]|]; cbn [rbind];
    [|split; [done|]; intros (_ & _ & _ & _ & _ & Ha & _); by apply He in Ha].
  destruct (is_empty (trim (dp_list_path parser))) eqn:El; cbn [orb].
  { apply is_empty_true in El. split; [done|]. by intros (_ & _ & _ & _ & _ & _ & ? & _). }
  apply is_empty_false in El. destruct (is_empty (trim (dp_id_path parser))) eqn:Ei.
  { apply is_empty_true in Ei. split; [done|]. by intros (_ & _ & _ & _ & _ & _ & _ & ?). }
  apply is_empty_false in Ei. split; [|done]. intros _. split_and!; eauto. by apply He.
Qed.

(** ** The built-in records *)

(** Every protocol of a definition is native, so it needs no adapter. *)
Definition all_native (d : ProviderPresetDefinition) : bool :=
  forallb (fun p => is_some_and (bt_get (pd_protocols d) p) (fun q => bool_decide (pt_mode q = SmNative)))
    Protocol_ALL.

Definition builtin_base_urls : list string :=
  ["https://api.deepseek.com"; "https://api.minimax.io"; "https://api.kimi.com/coding"].

(** The key of a record, and whether a later version of it exists. *)
Definition record_key (r : string * string * Z * ProviderPresetDefinition) : string * Z := (r.1.1.1, r.1.2).
Definition superseded (r : string * string * Z * ProviderPresetDefinition) : bool :=
  existsb (fun r' => (r'.1.1.1 =?s r.1.1.1) && (r.1.2 <? r'.1.2)) builtin_definitions.

Lemma builtin_keys_NoDup : NoDup (map record_key builtin_definitions).
Proof. apply (bool_decide_unpack _). vm_compute. exact I. Qed.

Lemma builtin_latest_native :
  forallb (fun r => superseded r || all_native r.2) builtin_definitions = true.
Proof. vm_compute. reflexivity. Qed.

Lemma builtin_versions_positive : forallb (fun r => 0 <? r.1.2) builtin_definitions = true.
Proof. reflexivity. Qed.

Section Builtin.
Context `{UrlCrates} `{PresetSerde}.
Context (base_urls : forall base, base ∈ builtin_base_urls ->
           exists url, url_parse base = Some url /\ plain_http_url url = true).

(** The checks but the URL, decided by evaluation. *)
Definition checks_but_url (d : ProviderPresetDefinition) : bool :=
  (pd_schema_version d =? PROVIDER_PRESET_SCHEMA_VERSION)
  && existsb (String.eqb (pd_default_base_url d)) builtin_base_urls
  && negb (is_empty (trim (ch_header (pd_credential_header d))))
  && forallb (fun p => is_ok (validate_protocol d p)) Protocol_ALL
  && match pd_discovery d with
     | DiscoverySupported method endpoint parser =>
         bool_decide (method = Get) && is_ok (validate_relative_endpoint endpoint)
         && negb (is_empty (trim (dp_list_path parser))) && negb (is_empty (trim (dp_id_path parser)))
     | DiscoveryUnsupported _ => true
     end.

Lemma is_ok_unit {E} (r : result unit E) : is_ok r = true -> r = Ok tt.
Proof. by destruct r as [[]|]. Qed.

Lemma checks_definition_ok d : checks_but_url d = true -> definition_ok d.
Proof.
  unfold checks_but_url. rewrite !andb_true_iff, Z.eqb_eq, negb_true_iff, is_empty_false, forallb_forall.
  intros [[[[Hs Hu] Hh] Hp] Hd]. split; [done| |done| |].
  - apply base_urls. apply existsb_exists in Hu as (base & Hin & ->%String.eqb_eq). by apply list_elem_of_In.
  - intros p. apply validate_protocol_ok, is_ok_unit, Hp, list_elem_of_In, Protocol_ALL_complete.
  - destruct (pd_discovery d) as [m endpoint parser|]; [|done]. cbn.
    rewrite !andb_true_iff, bool_decide_eq_true, !negb_true_iff, !is_empty_false in Hd.
    destruct Hd as [[[-> He] Hl] Hi]. split_and!; [done|by apply validate_relative_endpoint_ok, is_ok_unit|done|done].
Qed.

Lemma builtin_checks : forallb (fun r => checks_but_url r.2) builtin_definitions = true.
Proof. vm_compute. reflexivity. Qed.

Definition preset_input (r : string * string * Z * ProviderPresetDefinition) : ProviderPresetInput :=
  mkProviderPresetInput r.1.1.1 r.1.2 r.1.1.2 (preset_to_value r.2).

Lemma preset_inputs_ok l :
  forallb (fun r => checks_but_url r.2) l = true -> preset_inputs l = Ok (map preset_input l).
Proof.
  induction l as [|[[[id name] version] d] l IH]; [done|]. cbn [forallb map preset_inputs fst snd].
  rewrite andb_true_iff. intros [Hd Hl]. apply checks_definition_ok, preset_validate_ok in Hd. rewrite Hd.
  cbn [rbind]. by rewrite IH.
Qed.

Lemma builtin_provider_presets_ok :
  builtin_provider_presets = Ok (map preset_input builtin_definitions).
Proof. apply preset_inputs_ok, builtin_checks. Qed.

(** The presets that ship with the gateway are usable: every record passes its
    own validation, so start-up always gets the list; no two records have the
    same id and version; and the latest version of each provider serves all
    three protocols natively, so no built-in preset needs an adapter that a
    release build lacks. *)
Theorem builtin_presets_valid :
  exists inputs, builtin_provider_presets = Ok inputs
  /\ NoDup (map (fun i => (pp_id i, pp_version i)) inputs)
  /\ (forall r, r ∈ builtin_definitions ->
        preset_input r ∈ inputs /\ definition_ok r.2
        /\ (superseded r = false -> forall protocol, exists p,
              bt_get (pd_protocols r.2) protocol = Some p /\ pt_mode p = SmNative
              /\ pt_adapter p = None /\ absolute_path (pt_endpoint p))).
Proof.
  exists (map preset_input builtin_definitions). split; [apply builtin_provider_presets_ok|]. split.
  { rewrite map_map. exact builtin_keys_NoDup. }
  intros r Hr. assert (definition_ok r.2) as Hok.
  { apply checks_definition_ok. pose proof builtin_checks as Hc. rewrite forallb_forall in Hc.
    apply (Hc r). by apply list_elem_of_In. }
  split; [by apply (list_elem_of_fmap_2 preset_input)|]. split; [done|]. intros Hs protocol.
  destruct (do_protocols _ Hok protocol) as (p & Hp & He & _ & _ & Hm). exists p. split; [done|].
  pose proof builtin_latest_native as Hl. rewrite forallb_forall in Hl.
  specialize (Hl r (proj1 (list_elem_of_In _ _) Hr)). rewrite Hs in Hl. unfold all_native in Hl. cbn [orb] in Hl.
  rewrite forallb_forall in Hl. specialize (Hl protocol (proj1 (list_elem_of_In _ _) (Protocol_ALL_complete protocol))).
  rewrite Hp in Hl. cbn [is_some_and] in Hl. apply bool_decide_eq_true in Hl. rewrite Hl in Hm. by destruct Hm.
Qed.
End Builtin.

(** The built-in models, evaluated. *)
Definition model_records : list ModelPresetInput := unwrap_or (rok builtin_model_presets) [].

Lemma builtin_model_presets_ok : builtin_model_presets = Ok model_records.
Proof. vm_compute. reflexivity. Qed.

Lemma model_keys_NoDup : NoDup (map (fun m => (mp_id m, mp_version m)) model_records).
Proof. apply (bool_decide_unpack _). vm_compute. exact I. Qed.

(** No upstream model id matches two presets. *)
Lemma model_names_NoDup :
  NoDup (model_records ≫= fun m => mp_canonical_model_id m :: mp_aliases m).
Proof. apply (bool_decide_unpack _). vm_compute. exact I. Qed.

(** ** A concrete instance *)

(** The only URLs an instance must know. *)
Definition example_preset_url (s : string) : Url :=
  mkUrl s "https" (Some "upstream") "" None None (Some 443) "/" None None.
Definition preset_crates : UrlCrates :=
  {| url_parse := fun s => if existsb (String.eqb s) builtin_base_urls then Some (example_preset_url s) else None;
     ipnet_from_str := fun _ => None |}.

(** A reading and writing that loses everything but the shape: enough for the
    presets, which are only written. *)
Definition blank_serde : PresetSerde :=
  {| preset_to_value := fun _ => VObject []; preset_from_value := fun _ => None;
     auth_to_value := fun _ => VObject []; auth_from_value := fun _ => None;
     capabilities_to_value := fun _ => VObject []; capabilities_from_value := fun _ => None |}.

Lemma preset_crates_urls base :
  base ∈ builtin_base_urls -> exists url, url_parse (UrlCrates := preset_crates) base = Some url /\ plain_http_url url = true.
Proof.
  intros Hb. exists (example_preset_url base). cbn -[builtin_base_urls].
  replace (existsb (String.eqb base) builtin_base_urls) with true; [done|]. symmetry.
  apply existsb_exists. exists base. split; [by apply list_elem_of_In|apply String.eqb_refl].
Qed.

Lemma builtin_presets_valid_witness :
  let crates := preset_crates in let serde := blank_serde in
  exists inputs, builtin_provider_presets = Ok inputs /\ length inputs = 11%nat.
Proof.
  intros crates serde. destruct builtin_presets_valid as (inputs & Hi & _ & _).
  - exact preset_crates_urls.
  - exists inputs. split; [exact Hi|].
    assert (builtin_provider_presets = Ok (map preset_input builtin_definitions)) as He by (vm_compute; reflexivity).
    rewrite He in Hi. injection Hi as <-. reflexivity.
Defined.
