(* ===== verification/PresetDiff.v ===== *)
(** * Preset differences: [provider_preset_diff] of [src/src/control_plane/model_catalog.rs]

    The recursive comparison of a source's preset snapshot with the latest
    preset definition.  A path is a text ([$.protocols.x]); the proofs use the
    list of keys behind it.  The recursion is on the depth of the value, which
    is the fuel. *)

From Stdlib Require Import ZArith Lia Sorted.
From stdpp Require Import base list strings.
From S2P Require Import Prelude.
From S2P Require Import RustStr.
From S2P Require Import BTree.
From S2P Require Import Json.

Record ProviderPresetRecord : Type := mkProviderPresetRecord {
  pv_id : string;
  pv_version : Z;
  pv_display_name : string;
  pv_definition : Value;
  pv_created_at : Z;
}.

Record SourceRecord : Type := mkSourceRecord {
  so_id : string;
  so_display_name : string;
  so_provider_preset_id : string;
  so_provider_preset_version : Z;
  so_provider_preset_snapshot : Value;
  so_base_url : string;
  so_endpoints : Value;
  so_auth_config : Value;
  so_protocol_capabilities : Value;
  so_enabled : bool;
  so_created_at : Z;
  so_updated_at : Z;
}.

Inductive PresetDiffKind : Type := DiffAdded | DiffChanged | DiffMissing.

Record PresetDiffEntry : Type := mkPresetDiffEntry {
  pe_path : string;
  pe_kind : PresetDiffKind;
  pe_before : option Value;
  pe_after : option Value;
}.

Record ProviderPresetDiff : Type := mkProviderPresetDiff {
  px_source_id : string;
  px_provider_preset_id : string;
  px_source_version : Z;
  px_latest_version : Z;
  px_changes : list PresetDiffEntry;
}.

(** The keys of both objects: a [BTreeSet]. *)
Definition union_keys (before after : Map) : list string :=
  (bt_collect (map (fun kv => (kv.1, tt)) (before ++ after))).*1.

(** The bodies of a loop, in order; [None] when one runs out of fuel. *)
Fixpoint concat_opt {A B} (f : A -> option (list B)) (l : list A) : option (list B) :=
  match l with
  | [] => Some []
  | x :: l => match f x, concat_opt f l with Some r, Some rest => Some (r ++ rest) | _, _ => None end
  end.

Fixpoint diff_json (fuel : nat) (path : string) (before after : option Value)
    : option (list PresetDiffEntry) :=
  match before, after with
  | Some (VObject b), Some (VObject a) =>
      match fuel with
      | O => None
      | S fuel =>
          concat_opt (fun key => diff_json fuel (path +:+ "." +:+ key) (hm_get b key) (hm_get a key))
            (union_keys b a)
      end
  | Some b, Some a =>
      if decide (b = a) then Some []
      else Some [mkPresetDiffEntry path DiffChanged (Some b) (Some a)]
  | None, Some a => Some [mkPresetDiffEntry path DiffAdded None (Some a)]
  | Some b, None => Some [mkPresetDiffEntry path DiffMissing (Some b) None]
  | None, None => Some []
  end.

(** How deep objects are nested. *)
Fixpoint value_depth (v : Value) : nat :=
  match v with
  | VObject m => S (foldr (fun kv n => Nat.max (value_depth kv.2) n) O m)
  | _ => O
  end.

Definition preset_changes (snapshot definition : Value) : option (list PresetDiffEntry) :=
  sort_by pe_path <$> diff_json (value_depth snapshot) "$" (Some snapshot) (Some definition).

Definition provider_preset_diff (source : SourceRecord) (latest : ProviderPresetRecord)
    : option ProviderPresetDiff :=
  changes ← preset_changes (so_provider_preset_snapshot source) (pv_definition latest);
  Some (mkProviderPresetDiff (so_id source) (so_provider_preset_id source)
          (so_provider_preset_version source) (pv_version latest) changes).

(** ** Objects as serde_json keeps them *)

(** Every object inside the value is a map: its keys are in order. *)
Inductive value_wf : Value -> Prop :=
| wf_null : value_wf VNull
| wf_bool b : value_wf (VBool b)
| wf_number n : value_wf (VNumber n)
| wf_string s : value_wf (VString s)
| wf_array l : Forall value_wf l -> value_wf (VArray l)
| wf_object m : bt_wf m -> Forall (fun kv => value_wf kv.2) m -> value_wf (VObject m).

(** The value below a list of keys. *)
Definition value_at (o : option Value) (keys : list string) : option Value :=
  fold_left (fun o k => o ≫= fun v => get v k) keys o.

(** The text of a list of keys. *)
Definition render (path : string) (keys : list string) : string :=
  fold_left (fun p k => p +:+ "." +:+ k) keys path.

Lemma value_at_None keys : value_at None keys = None.
Proof. induction keys as [|k keys IH]; cbn; [done|exact IH]. Qed.

Lemma concat_opt_Some {A B} (f : A -> option (list B)) l :
  (forall x, x ∈ l -> exists r, f x = Some r) -> exists r, concat_opt f l = Some r.
Proof.
  induction l as [|x l IH]; intros Hf; cbn; [eauto|].
  destruct (Hf x) as [r ->]; [by left|]. destruct IH as [rest ->]; [|eauto]. intros y Hy. apply Hf. by right.
Qed.

Lemma concat_opt_elem {A B} (f : A -> option (list B)) l r y :
  concat_opt f l = Some r -> y ∈ r <-> exists x rx, x ∈ l /\ f x = Some rx /\ y ∈ rx.
Proof.
  revert r. induction l as [|x l IH]; intros r; cbn.
  - intros [= <-]. rewrite elem_of_nil. split; [done|]. intros (x & rx & Hx & _). by apply elem_of_nil in Hx.
  - destruct (f x) as [rx|] eqn:Ef, (concat_opt f l) as [rest|]; try done. intros [= <-].
    rewrite elem_of_app, (IH rest eq_refl). split.
    + intros [Hy|(x' & rx' & Hx' & Hf' & Hy)]; [exists x, rx|exists x', rx']; rewrite elem_of_cons; auto.
    + intros (x' & rx' & [->|Hx']%elem_of_cons & Hf' & Hy); [left; congruence|right; eauto].
Qed.

(** The result of enough fuel does not depend on it. *)
Lemma concat_opt_ext {A B} (f g : A -> option (list B)) l :
  (forall x, x ∈ l -> f x = g x) -> concat_opt f l = concat_opt g l.
Proof.
  induction l as [|x l IH]; intros Hf; cbn; [done|]. rewrite (Hf x) by (by left). rewrite IH; [done|].
  intros y Hy. apply Hf. by right.
Qed.

Lemma union_keys_elem b a k : k ∈ union_keys b a <-> k ∈ b.*1 \/ k ∈ a.*1.
Proof.
  unfold union_keys, bt_collect. rewrite map_app.
  assert (forall l m, k ∈ (fold_left (fun m kv => bt_insert m kv.1 kv.2)
             (map (fun kv : string * Value => (kv.1, tt)) l) m).*1 <-> k ∈ m.*1 \/ k ∈ l.*1) as Hk.
  { induction l as [|[j v] l IH]; intros m; cbn; [rewrite elem_of_nil; tauto|].
    rewrite IH, bt_insert_keys, elem_of_cons. tauto. }
  rewrite fold_left_app, !Hk. cbn. rewrite elem_of_nil. tauto.
Qed.

Lemma hm_get_None_keys (m : Map) k : hm_get m k = None <-> k ∉ m.*1.
Proof.
  induction m as [|[j v] m IH]; [split; [intros _; apply not_elem_of_nil|done]|].
  rewrite hm_get_cons. cbn [fmap list_fmap fst]. rewrite elem_of_cons. case_bool_decide as Hj.
  - subst. split; [done|]. intros []. by left.
  - rewrite IH. split; [|tauto]. intros Hk [->|?]; tauto.
Qed.

Lemma hm_get_bt (m : Map) k : bt_wf m -> hm_get m k = bt_get m k.
Proof.
  intros Hm. apply option_eq. intros v. rewrite hm_get_iff by (by apply bt_wf_nodup). by rewrite bt_get_in.
Qed.

Lemma map_ext (m1 m2 : Map) : bt_wf m1 -> bt_wf m2 -> (forall k, hm_get m1 k = hm_get m2 k) -> m1 = m2.
Proof. intros H1 H2 Hg. apply bt_ext; [done|done|]. intros k. by rewrite <- !hm_get_bt. Qed.

Lemma depth_child m k v : hm_get m k = Some v -> (value_depth v < value_depth (VObject m))%nat.
Proof.
  intros Hin%hm_get_Some_in. cbn. apply Nat.lt_succ_r.
  induction m as [|kv m IH]; [by apply elem_of_nil in Hin|]. cbn.
  apply elem_of_cons in Hin as [<-|Hin]; cbn; [lia|]. specialize (IH Hin). lia.
Qed.

(** ** The recursion *)

(** Both sides are objects: the only case that looks deeper. *)
Definition both_objects (before after : option Value) : option (Map * Map) :=
  match before, after with
  | Some (VObject b), Some (VObject a) => Some (b, a)
  | _, _ => None
  end.

(** The entry of two values that are not both objects. *)
Definition leaf_entry (path : string) (before after : option Value) : list PresetDiffEntry :=
  if decide (before = after) then []
  else [mkPresetDiffEntry path
          match before, after with None, _ => DiffAdded | _, None => DiffMissing | _, _ => DiffChanged end
          before after].

Lemma diff_json_eq fuel path before after :
  diff_json fuel path before after
  = match both_objects before after with
    | Some (b, a) =>
        match fuel with
        | O => None
        | S fuel =>
            concat_opt (fun key => diff_json fuel (path +:+ "." +:+ key) (hm_get b key) (hm_get a key))
              (union_keys b a)
        end
    | None => Some (leaf_entry path before after)
    end.
Proof.
  destruct fuel, before as [[| | | | |b]|], after as [[| | | | |a]|]; cbn [diff_json both_objects]; try done;
    unfold leaf_entry; repeat case_decide; congruence.
Qed.

Definition enough (fuel : nat) (before : option Value) : Prop :=
  forall v, before = Some v -> (value_depth v <= fuel)%nat.

(** The recursion ends: with as much fuel as the value is deep it has a result,
    and more fuel does not change it. *)
Lemma diff_json_total fuel fuel' path before after :
  enough fuel before -> (fuel <= fuel')%nat ->
  exists l, diff_json fuel path before after = Some l /\ diff_json fuel' path before after = Some l.
Proof.
  revert fuel' path before after. induction fuel as [|fuel IH]; intros fuel' path before after He Hf;
    rewrite !(diff_json_eq _ path before after); destruct (both_objects before after) as [[b a]|] eqn:Eb; eauto;
    assert (before = Some (VObject b)) as -> by (destruct before as [[]|], after as [[]|]; cbn in Eb; congruence).
  { specialize (He _ eq_refl). cbn in He. lia. }
  destruct fuel' as [|fuel']; [lia|].
  assert (forall k, exists l, diff_json fuel (path +:+ "." +:+ k) (hm_get b k) (hm_get a k) = Some l
             /\ diff_json fuel' (path +:+ "." +:+ k) (hm_get b k) (hm_get a k) = Some l) as Hk.
  { intros k. apply IH; [|lia]. intros v Hv%depth_child. specialize (He _ eq_refl). lia. }
  destruct (concat_opt_Some (fun key => diff_json fuel (path +:+ "." +:+ key) (hm_get b key) (hm_get a key))
              (union_keys b a)) as [r Hr].
  { intros k _. destruct (Hk k) as (l & Hl & _). eauto. }
  exists r. split; [done|]. rewrite <- Hr. apply concat_opt_ext. intros k _.
  destruct (Hk k) as (l & -> & ->). done.
Qed.

(** What an entry says about the two values, below a path. *)
Definition entry_ok (path : string) (before after : option Value) (e : PresetDiffEntry) (keys : list string) : Prop :=
  pe_path e = render path keys /\ pe_before e = value_at before keys /\ pe_after e = value_at after keys
  /\ pe_before e <> pe_after e
  /\ (pe_kind e = DiffAdded <-> pe_before e = None) /\ (pe_kind e = DiffMissing <-> pe_after e = None).

Lemma leaf_entry_ok path before after e : e ∈ leaf_entry path before after -> entry_ok path before after e [].
Proof.
  unfold leaf_entry. case_decide as Hd; [by intros ?%elem_of_nil|]. intros ->%list_elem_of_singleton.
  split_and!; cbn; auto; destruct before, after; split; congruence.
Qed.

Lemma both_objects_Some before after b a :
  both_objects before after = Some (b, a) <-> before = Some (VObject b) /\ after = Some (VObject a).
Proof.
  split; [|by intros [-> ->]]. destruct before as [[]|], after as [[]|]; cbn; try done. by intros [= -> ->].
Qed.

Lemma diff_json_sound fuel path before after l e :
  diff_json fuel path before after = Some l -> e ∈ l -> exists keys, entry_ok path before after e keys.
Proof.
  revert path before after l. induction fuel as [|fuel IH]; intros path before after l; rewrite diff_json_eq;
    destruct (both_objects before after) as [[b a]|] eqn:Eb; try done;
    try (intros [= <-] He; exists []; by apply leaf_entry_ok).
  intros Hc He. apply both_objects_Some in Eb as [-> ->].
  apply (concat_opt_elem _ _ _ _ Hc) in He as (k & lk & _ & Hk & He).
  destruct (IH _ _ _ _ Hk He) as (keys & Hp & Hr). exists (k :: keys). by split.
Qed.

Lemma objects_differ (b a : Map) : bt_wf b -> bt_wf a -> b <> a -> exists k, hm_get b k <> hm_get a k.
Proof.
  intros Hb Ha Hne. destruct (decide (Forall (fun k => hm_get b k = hm_get a k) (union_keys b a))) as [Hall|Hn].
  - destruct Hne. apply map_ext; [done..|]. intros k. rewrite Forall_forall in Hall.
    destruct (decide (k ∈ union_keys b a)) as [Hk|Hk]; [auto|].
    rewrite union_keys_elem in Hk. rewrite (proj2 (hm_get_None_keys b k)) by tauto.
    by rewrite (proj2 (hm_get_None_keys a k)) by tauto.
  - apply not_Forall_Exists in Hn; [|apply _]. apply Exists_exists in Hn as (k & _ & Hk). eauto.
Qed.

Definition opt_wf (o : option Value) : Prop := forall v, o = Some v -> value_wf v.

Lemma opt_wf_get m k : value_wf (VObject m) -> opt_wf (hm_get m k).
Proof.
  intros Hm v Hv%hm_get_Some_in. inversion Hm as [| | | | |m' _ Hall]; subst. rewrite Forall_forall in Hall.
  exact (Hall _ Hv).
Qed.

Lemma diff_json_complete fuel path before after l keys :
  opt_wf before -> opt_wf after -> diff_json fuel path before after = Some l ->
  value_at before keys <> value_at after keys ->
  exists e keys', e ∈ l /\ entry_ok path before after e keys' /\ (keys' `prefix_of` keys \/ keys `prefix_of` keys').
Proof.
  revert path before after l keys. induction fuel as [|fuel IH]; intros path before after l keys Hb Ha;
    rewrite diff_json_eq; destruct (both_objects before after) as [[b a]|] eqn:Eb; try done.
  1, 3: intros [= <-] Hne; assert (before <> after) as Hd by congruence;
    exists (mkPresetDiffEntry path match before, after with
              None, _ => DiffAdded | _, None => DiffMissing | _, _ => DiffChanged end before after), [];
    assert (mkPresetDiffEntry path match before, after with
              None, _ => DiffAdded | _, None => DiffMissing | _, _ => DiffChanged end before after
            ∈ leaf_entry path before after) as He
      by (unfold leaf_entry; rewrite decide_False by done; by apply list_elem_of_singleton);
    split; [done|]; split; [by apply leaf_entry_ok|]; left; apply prefix_nil.
  apply both_objects_Some in Eb as [-> ->]. intros Hc Hne.
  specialize (Hb _ eq_refl). specialize (Ha _ eq_refl).
  assert (exists k rest, value_at (hm_get b k) rest <> value_at (hm_get a k) rest
            /\ (keys = k :: rest \/ keys = [] /\ rest = [])) as (k & rest & Hk & Hkeys).
  { destruct keys as [|k rest]; [|by exists k, rest; split; [|left]]. cbn in Hne.
    inversion Hb; inversion Ha; subst. destruct (objects_differ b a) as [k Hk]; [done..|congruence|].
    exists k, []. auto. }
  assert (k ∈ union_keys b a) as Hin.
  { destruct (decide (k ∈ union_keys b a)) as [?|Hn]; [done|]. rewrite union_keys_elem in Hn. destruct Hk.
    rewrite (proj2 (hm_get_None_keys b k)) by tauto. by rewrite (proj2 (hm_get_None_keys a k)) by tauto. }
  destruct (diff_json fuel (path +:+ "." +:+ k) (hm_get b k) (hm_get a k)) as [lk|] eqn:El.
  2:{ exfalso. clear -Hc Hin El. revert l Hc. induction (union_keys b a) as [|j js IHj]; intros l; cbn;
        [by apply elem_of_nil in Hin|]. apply elem_of_cons in Hin as [<-|Hin]; [by rewrite El|].
      destruct (diff_json fuel (path +:+ "." +:+ j) _ _), (concat_opt _ js) eqn:Ej; try done.
      intros _. exact (IHj Hin _ eq_refl). }
  destruct (IH _ _ _ _ rest (opt_wf_get b k Hb) (opt_wf_get a k Ha) El Hk) as (e & keys' & He & Hok & Hp).
  exists e, (k :: keys'). split; [|split].
  - apply (concat_opt_elem _ _ _ _ Hc). eauto.
  - destruct Hok as (Hpath & Hr). by split.
  - destruct Hkeys as [->|[-> _]]; [|right; apply prefix_nil].
    destruct Hp as [Hp|Hp]; [left|right]; by apply prefix_cons.
Qed.

(** ** The difference of two presets *)

Lemma preset_changes_total snapshot definition :
  exists l, preset_changes snapshot definition = Some (sort_by pe_path l)
  /\ forall fuel, (value_depth snapshot <= fuel)%nat ->
       diff_json fuel "$" (Some snapshot) (Some definition) = Some l.
Proof.
  assert (enough (value_depth snapshot) (Some snapshot)) as He by (by intros v [= ->]).
  destruct (diff_json_total _ _ "$" _ (Some definition) He (Nat.le_refl _)) as (l & Hl & _).
  exists l. unfold preset_changes. rewrite Hl. split; [done|]. intros fuel Hf.
  destruct (diff_json_total _ fuel "$" _ (Some definition) He Hf) as (l' & Hl' & Hf'). congruence.
Qed.

(** The review of a preset upgrade shows exactly the differences: the
    comparison always ends; a change names a place where the snapshot and the
    latest definition differ, with the two values there; wherever they differ,
    a change names that place, a place above it or a place below it, so the
    list is empty only for equal values; and the changes are in the order of
    their paths. *)
Theorem provider_preset_diff_correct source latest :
  let snapshot := so_provider_preset_snapshot source in
  let definition := pv_definition latest in
  value_wf snapshot -> value_wf definition ->
  exists diff, provider_preset_diff source latest = Some diff
  /\ px_source_version diff = so_provider_preset_version source /\ px_latest_version diff = pv_version latest
  /\ (forall e, e ∈ px_changes diff -> exists keys, entry_ok "$" (Some snapshot) (Some definition) e keys)
  /\ (forall keys, value_at (Some snapshot) keys <> value_at (Some definition) keys ->
        exists e keys', e ∈ px_changes diff /\ pe_path e = render "$" keys'
          /\ (keys' `prefix_of` keys \/ keys `prefix_of` keys'))
  /\ (px_changes diff = [] <-> snapshot = definition)
  /\ StronglySorted (key_le pe_path) (px_changes diff).
Proof.
  intros snapshot definition Hs Hd.
  destruct (preset_changes_total snapshot definition) as (l & Hc & Hf). specialize (Hf _ (Nat.le_refl _)).
  assert (forall v, value_wf v -> opt_wf (Some v)) as Hw by (by intros v Hv w [= <-]).
  assert (forall keys, value_at (Some snapshot) keys <> value_at (Some definition) keys ->
    exists e keys', e ∈ sort_by pe_path l /\ pe_path e = render "$" keys'
      /\ (keys' `prefix_of` keys \/ keys `prefix_of` keys')) as Hcomplete.
  { intros keys Hne.
    destruct (diff_json_complete _ _ _ _ _ keys (Hw _ Hs) (Hw _ Hd) Hf Hne) as (e & ks & He & (Hp & _) & Hk).
    exists e, ks. by rewrite elem_of_sort_by. }
  assert (forall e, e ∈ sort_by pe_path l ->
    exists keys, entry_ok "$" (Some snapshot) (Some definition) e keys) as Hsound.
  { intros e He%elem_of_sort_by. by eapply diff_json_sound. }
  unfold provider_preset_diff. fold snapshot definition. rewrite Hc. cbn. eexists. split; [done|]. cbn [px_changes].
  split_and!; [done|done|exact Hsound|exact Hcomplete| |apply sort_by_sorted].
  split.
  - intros Hl. destruct (decide (snapshot = definition)) as [?|Hne]; [done|].
    destruct (Hcomplete []) as (e & _ & He & _); [cbn; congruence|]. rewrite Hl in He. by apply elem_of_nil in He.
  - intros Heq. destruct (sort_by pe_path l) as [|e k] eqn:El; [done|].
    destruct (Hsound e) as (keys & _ & Hb & Ha & Hne & _); [by left|]. destruct Hne. by rewrite Hb, Ha, Heq.
Qed.

(** The example of the source's own test. *)
Definition example_snapshot : Value :=
  VObject [("default_base_url", VString "https://one.example"); ("nested", VObject [("a", of_i64 1)])].
Definition example_latest : Value :=
  VObject [("default_base_url", VString "https://two.example"); ("nested", VObject [("b", of_i64 2)])].

Example preset_changes_example :
  option_map (map pe_path) (preset_changes example_snapshot example_latest)
  = Some ["$.default_base_url"; "$.nested.a"; "$.nested.b"].
Proof. vm_compute. reflexivity. Qed.

Lemma example_wf : value_wf example_snapshot /\ value_wf example_latest.
Proof.
  split; repeat (constructor || (unfold bt_wf; cbn)).
Qed.

Definition example_source : SourceRecord :=
  mkSourceRecord "source" "Source" "provider" 1 example_snapshot "https://source.example" (VObject []) (VObject [])
    (VObject []) true 0 0.
Definition example_preset : ProviderPresetRecord := mkProviderPresetRecord "provider" 2 "Provider" example_latest 0.

Lemma provider_preset_diff_correct_witness :
  exists diff, provider_preset_diff example_source example_preset = Some diff /\ px_changes diff <> [].
Proof.
  destruct (provider_preset_diff_correct example_source example_preset) as (diff & Hc & _ & _ & _ & _ & He & _);
    [apply example_wf..|].
  exists diff. split; [exact Hc|]. intros Hn. apply He in Hn. discriminate Hn.
Defined.

(** Paths are texts: a key with a dot and a nested key can have the same path. *)
Example paths_ambiguous :
  option_map (map pe_path)
    (preset_changes (VObject [("a", VObject [("b", of_i64 1)]); ("a.b", of_i64 1)])
                    (VObject [("a", VObject [("b", of_i64 2)]); ("a.b", of_i64 2)]))
  = Some ["$.a.b"; "$.a.b"].
Proof. vm_compute. reflexivity. Qed.
