(* ===== verification/ModelCatalog.v ===== *)
(** * The model catalogue: [src/src/control_plane/model_catalog.rs]

    The tables of presets, sources, source models, protocol capabilities,
    discovery runs and connection tests, and the repository operations on them.
    Each SQL statement is an operation on the tables with the constraints that
    can fail (primary keys, unique and foreign keys); [now] is the statement's
    [NOW()] and a fresh id is the next value of its sequence.  JSON columns hold
    the value that was written. *)

From Stdlib Require Import ZArith Lia Sorted.
From stdpp Require Import base list strings gmap countable.
From S2P Require Import Prelude.
From S2P Require Import RustStr.
From S2P Require Import Protocol.
From S2P Require Import BTree.
From S2P Require Import Tx.
From S2P Require Import Config.
From S2P Require Import SourceUrl.
From S2P Require Import Json.
From S2P Require Import Catalog.
From S2P Require Import Presets.
From S2P Require Import PresetDiff.

Inductive CatalogError : Type :=
| CtDatabase (error : SqlxError) | CtJson (error : string) | CtNotFound (message : string)
| CtInvalidMetadata (message : string) | CtInvalidState (message : string)
| CtImmutableVersionConflict (message : string).

(** [From<DomainCatalogError>]. *)
Definition of_domain_error (value : Catalog.CatalogError) : CatalogError :=
  match value with
  | CeJson error => CtJson error
  | InvalidMetadata message => CtInvalidMetadata message
  | InvalidState message => CtInvalidState message
  end.

(** The text of [serde_json]'s error for a value it cannot read. *)
Class SerdeText : Type := de_error : Value -> string.

(** The order of texts in the database: its collation. *)
Class Collation : Type := collate : string -> string -> comparison.

Record ModelPresetRecord : Type := mkModelPresetRecord {
  mr_id : string;
  mr_version : Z;
  mr_canonical_model_id : string;
  mr_aliases : Value;
  mr_metadata : Value;
  mr_field_sources : Value;
  mr_created_at : Z;
  mr_updated_at : Z;
}.

Record SourceModelRecord : Type := mkSourceModelRecord {
  sm_source_id : string;
  sm_upstream_model_id : string;
  sm_confirmation_status : CatalogStatus;
  sm_availability_status : CatalogAvailability;
  sm_raw_snapshot : Value;
  sm_metadata : Value;
  sm_field_sources : Value;
  sm_matched_model_preset_id : option string;
  sm_matched_model_preset_version : option Z;
  sm_first_discovered_at : Z;
  sm_last_discovered_at : Z;
  sm_confirmed_at : option Z;
  sm_unavailable_at : option Z;
  sm_created_at : Z;
  sm_updated_at : Z;
}.

Record DiscoveryRunRecord : Type := mkDiscoveryRunRecord {
  dr_id : Z;
  dr_source_id : string;
  dr_account_id : option string;
  dr_provider_preset_id : string;
  dr_provider_preset_version : Z;
  dr_status : string;
  dr_raw_snapshot : option Value;
  dr_diff : Value;
  dr_discovered_model_count : Z;
  dr_http_status : option Z;
  dr_latency_ms : Z;
  dr_error_code : option string;
  dr_error_message : option string;
  dr_requested_by : string;
  dr_started_at : Z;
  dr_completed_at : Z;
}.

Record DiscoveryApplyResult : Type := mkDiscoveryApplyResult {
  da_run : DiscoveryRunRecord;
  da_diff : DiscoveryDiff;
  da_models : list SourceModelRecord;
}.

Record ConnectionTestRecord : Type := mkConnectionTestRecord {
  cr_id : Z;
  cr_source_id : string;
  cr_account_id : option string;
  cr_protocol : Protocol;
  cr_upstream_protocol : Protocol;
  cr_mode : SourceProtocolMode;
  cr_status : string;
  cr_http_status : option Z;
  cr_latency_ms : Z;
  cr_error_code : option string;
  cr_error_message : option string;
  cr_requested_by : string;
  cr_tested_at : Z;
}.

Record AccountCredentialRef : Type := mkAccountCredentialRef {
  ar_id : string;
  ar_source_id : string;
  ar_credential_env : option string;
  ar_has_credential_ciphertext : bool;
}.

Record SourceModelCapabilityRecord : Type := mkSourceModelCapabilityRecord {
  mc_source_id : string;
  mc_upstream_model_id : string;
  mc_protocol : Protocol;
  mc_status : CatalogStatus;
  mc_mode : SourceProtocolMode;
  mc_source_protocol : option Protocol;
  mc_adapter : option string;
  mc_feature_capabilities : Value;
  mc_field_source : string;
  mc_observed_at : Z;
  mc_confirmed_at : option Z;
  mc_unavailable_at : option Z;
  mc_updated_at : Z;
}.

(** The inputs of the audit records, from [src/src/domain/catalog.rs]. *)
Record DiscoveryApplyInput : Type := mkDiscoveryApplyInput {
  ai_source_id : string;
  ai_account_id : option string;
  ai_raw_snapshot : Value;
  ai_models : list SourceModelRefresh;
  ai_http_status : Z;
  ai_latency_ms : Z;
  ai_requested_by : string;
  ai_started_at : Z;
  ai_completed_at : Z;
}.

Record DiscoveryFailureInput : Type := mkDiscoveryFailureInput {
  fi_source_id : string;
  fi_account_id : option string;
  fi_status : string;
  fi_http_status : option Z;
  fi_latency_ms : Z;
  fi_error_code : string;
  fi_error_message : string;
  fi_requested_by : string;
  fi_started_at : Z;
  fi_completed_at : Z;
}.

Record ConnectionTestInput : Type := mkConnectionTestInput {
  ti_source_id : string;
  ti_account_id : option string;
  ti_protocol : Protocol;
  ti_upstream_protocol : Protocol;
  ti_mode : SourceProtocolMode;
  ti_status : string;
  ti_http_status : option Z;
  ti_latency_ms : Z;
  ti_error_code : option string;
  ti_error_message : option string;
  ti_requested_by : string;
  ti_tested_at : Z;
}.

(** The health columns of [accounts]. *)
Record HealthColumns : Type := mkHealthColumns {
  hx_status : string;
  hx_source : string;
  hx_updated_at : option Z;
  hx_consecutive_failures : Z;
  hx_failure_window_started_at : option Z;
  hx_cooldown_until : option Z;
  hx_last_error : option string;
  hx_last_success_at : option Z;
  hx_last_probe_at : option Z;
  hx_last_probe_status : option string;
  hx_last_probe_error : option string;
}.

(** A row of [accounts]; its legacy columns are [NULL] or at their default. *)
Record AccountRow : Type := mkAccountRow {
  ax_source_id : string;
  ax_display_name : string;
  ax_credential_env : option string;
  ax_credential_ciphertext : option string;
  ax_enabled : bool;
  ax_weight : Z;                              (** [i32] *)
  ax_health : HealthColumns;
  ax_created_at : Z;
  ax_updated_at : Z;
}.

#[export] Instance Protocol_countable : Countable Protocol.
Proof.
  refine (inj_countable' protocol_rank
    (fun z => if z =? 0 then OpenAiChatCompletions else if z =? 1 then OpenAiResponses else AnthropicMessages) _).
  by intros [].
Defined.

Record CatalogDb : Type := mkCatalogDb {
  cd_provider_presets : gmap (string * Z) ProviderPresetRecord;
  cd_model_presets : gmap (string * Z) ModelPresetRecord;
  cd_sources : gmap string SourceRecord;
  cd_accounts : gmap string AccountRow;
  cd_source_models : gmap (string * string) SourceModelRecord;
  cd_capabilities : gmap (string * string * Protocol) SourceModelCapabilityRecord;
  cd_runs : list DiscoveryRunRecord;
  cd_tests : list ConnectionTestRecord;
}.

Definition set_provider_presets (db : CatalogDb) t : CatalogDb :=
  mkCatalogDb t (cd_model_presets db) (cd_sources db) (cd_accounts db) (cd_source_models db) (cd_capabilities db)
    (cd_runs db) (cd_tests db).
Definition set_model_presets (db : CatalogDb) t : CatalogDb :=
  mkCatalogDb (cd_provider_presets db) t (cd_sources db) (cd_accounts db) (cd_source_models db) (cd_capabilities db)
    (cd_runs db) (cd_tests db).
Definition set_source_models (db : CatalogDb) t : CatalogDb :=
  mkCatalogDb (cd_provider_presets db) (cd_model_presets db) (cd_sources db) (cd_accounts db) t (cd_capabilities db)
    (cd_runs db) (cd_tests db).
Definition set_capabilities (db : CatalogDb) t : CatalogDb :=
  mkCatalogDb (cd_provider_presets db) (cd_model_presets db) (cd_sources db) (cd_accounts db) (cd_source_models db) t
    (cd_runs db) (cd_tests db).
Definition set_runs (db : CatalogDb) t : CatalogDb :=
  mkCatalogDb (cd_provider_presets db) (cd_model_presets db) (cd_sources db) (cd_accounts db) (cd_source_models db)
    (cd_capabilities db) t (cd_tests db).
Definition set_tests (db : CatalogDb) t : CatalogDb :=
  mkCatalogDb (cd_provider_presets db) (cd_model_presets db) (cd_sources db) (cd_accounts db) (cd_source_models db)
    (cd_capabilities db) (cd_runs db) t.

Abbreviation CatalogTx := (Tx CatalogDb CatalogError).

(** ** Provider and model presets *)

(** [ORDER BY version DESC LIMIT 1] of the rows with an id. *)
Definition latest_provider_preset (id : string) (db : CatalogDb) : result ProviderPresetRecord CatalogError :=
  ok_or
    (foldr (fun kv best =>
       if pv_id kv.2 =?s id then
         match best with
         | Some b => if pv_version b <? pv_version kv.2 then Some kv.2 else Some b
         | None => Some kv.2
         end
       else best) None (map_to_list (cd_provider_presets db)))
    (CtNotFound ("provider preset " +:+ id +:+ " not found")).

Definition insert_provider_preset (input : ProviderPresetInput) (now : Z) (db : CatalogDb)
    : result ProviderPresetRecord CatalogError * CatalogDb :=
  if (pp_version input <=? 0) || negb (is_object (pp_definition input))
  then (Err (CtInvalidState "provider preset version must be positive and definition must be an object"), db)
  else
    let key := (pp_id input, pp_version input) in
    let db :=
      match cd_provider_presets db !! key with
      | Some _ => db
      | None =>
          set_provider_presets db
            (<[key := mkProviderPresetRecord (pp_id input) (pp_version input) (pp_display_name input)
                        (pp_definition input) now]> (cd_provider_presets db))
      end in
    match cd_provider_presets db !! key with
    | None => (Err (CtDatabase RowNotFound), db)
    | Some record =>
        if negb (pv_display_name record =?s pp_display_name input)
           || negb (bool_decide (pv_definition record = pp_definition input))
        then (Err (CtImmutableVersionConflict ("provider preset " +:+ pp_id input +:+ " version "
                +:+ dec (pp_version input) +:+ " already exists with different content")), db)
        else (Ok record, db)
    end.

(** [UNIQUE (canonical_model_id, version)]. *)
Definition canonical_taken (db : CatalogDb) (canonical_model_id : string) (version : Z) : bool :=
  existsb (fun kv => (mr_canonical_model_id kv.2 =?s canonical_model_id) && (mr_version kv.2 =? version))
    (map_to_list (cd_model_presets db)).

Definition insert_model_preset (input : ModelPresetInput) (now : Z) (db : CatalogDb)
    : result ModelPresetRecord CatalogError * CatalogDb :=
  if mp_version input <=? 0 then (Err (CtInvalidState "model preset version must be positive"), db)
  else if existsb (fun fs => negb (bool_decide (fs.2 = MsPreset) || bool_decide (fs.2 = MsUnknown)))
            (md_field_sources (mp_metadata input))
  then (Err (CtInvalidMetadata "model preset fields may only use preset or unknown sources"), db)
  else
    let '(metadata, field_sources) := metadata_to_json (mp_metadata input) in
    let aliases := VArray (map VString (mp_aliases input)) in
    let key := (mp_id input, mp_version input) in
    let inserted :=
      match cd_model_presets db !! key with
      | Some _ => Ok db
      | None =>
          if canonical_taken db (mp_canonical_model_id input) (mp_version input)
          then Err (CtDatabase UniqueViolation)
          else
            Ok (set_model_presets db
              (<[key := mkModelPresetRecord (mp_id input) (mp_version input) (mp_canonical_model_id input) aliases
                          metadata field_sources now now]> (cd_model_presets db)))
      end in
    match inserted with
    | Err e => (Err e, db)
    | Ok db =>
        match cd_model_presets db !! key with
        | None => (Err (CtDatabase RowNotFound), db)
        | Some record =>
            if negb (mr_canonical_model_id record =?s mp_canonical_model_id input)
               || negb (bool_decide (mr_aliases record = aliases))
               || negb (bool_decide (mr_metadata record = metadata))
               || negb (bool_decide (mr_field_sources record = field_sources))
            then (Err (CtImmutableVersionConflict ("model preset " +:+ mp_id input +:+ " version "
                    +:+ dec (mp_version input) +:+ " already exists with different content")), db)
            else (Ok record, db)
        end
    end.

(** A loop over autocommitted statements: it stops at the first error and
    keeps what was done before. *)
Fixpoint for_each {A B} (step : A -> CatalogDb -> result B CatalogError * CatalogDb) (l : list A) (db : CatalogDb)
    : result unit CatalogError * CatalogDb :=
  match l with
  | [] => (Ok tt, db)
  | x :: l => match step x db with (Ok _, db) => for_each step l db | (Err e, db) => (Err e, db) end
  end.

Definition install_builtin_presets `{UrlCrates} `{PresetSerde} (now : Z) (db : CatalogDb)
    : result unit CatalogError * CatalogDb :=
  match builtin_provider_presets with
  | Err e => (Err (of_domain_error e), db)
  | Ok presets =>
      match for_each (fun preset => insert_provider_preset preset now) presets db with
      | (Err e, db) => (Err e, db)
      | (Ok _, db) =>
          match builtin_model_presets with
          | Err e => (Err (of_domain_error e), db)
          | Ok presets => for_each (fun preset => insert_model_preset preset now) presets db
          end
      end
  end.

(** [aliases ? $1]: a text that is an element of the array. *)
Definition alias_of (record : ModelPresetRecord) (upstream_model_id : string) : bool :=
  existsb (fun v => bool_decide (v = VString upstream_model_id)) (unwrap_or (as_array (mr_aliases record)) []).

(** [ORDER BY version DESC, id]. *)
Definition preset_before `{Collation} (a b : ModelPresetRecord) : bool :=
  match Z.compare (mr_version b) (mr_version a) with
  | Lt => true
  | Gt => false
  | Eq => match collate (mr_id a) (mr_id b) with Gt => false | _ => true end
  end.

Definition match_model_preset `{Collation} (upstream_model_id : string) (db : CatalogDb)
    : option ModelPresetRecord :=
  foldr (fun kv best =>
    if (mr_canonical_model_id kv.2 =?s upstream_model_id) || alias_of kv.2 upstream_model_id then
      match best with Some b => if preset_before kv.2 b then Some kv.2 else best | None => Some kv.2 end
    else best) None (map_to_list (cd_model_presets db)).

(** ** Sources and accounts *)

Definition get_source (id : string) (db : CatalogDb) : result SourceRecord CatalogError :=
  ok_or (cd_sources db !! id) (CtNotFound ("source " +:+ id +:+ " not found")).

Definition account_missing (source_id account_id : string) : CatalogError :=
  CtNotFound ("enabled account " +:+ account_id +:+ " for source " +:+ source_id +:+ " not found").

Definition get_account_credential_ref (source_id account_id : string) (db : CatalogDb)
    : result AccountCredentialRef CatalogError :=
  match cd_accounts db !! account_id with
  | Some row =>
      if (ax_source_id row =?s source_id) && ax_enabled row
      then Ok (mkAccountCredentialRef account_id source_id (ax_credential_env row)
                 (is_some (ax_credential_ciphertext row)))
      else Err (account_missing source_id account_id)
  | None => Err (account_missing source_id account_id)
  end.

Definition validate_account_for_source (source_id : string) (account_id : option string) : CatalogTx unit :=
  fun db =>
    match account_id with
    | None => Ok (tt, db)
    | Some account_id =>
        match cd_accounts db !! account_id with
        | Some row => if (ax_source_id row =?s source_id) && ax_enabled row then Ok (tt, db)
                      else Err (account_missing source_id account_id)
        | None => Err (account_missing source_id account_id)
        end
    end.

(** ** Source models *)

Definition missing_source_model (source_id upstream_model_id : string) : CatalogError :=
  CtNotFound ("source model " +:+ source_id +:+ "/" +:+ upstream_model_id +:+ " not found").

(** [SELECT ... FOR UPDATE] and the plain [SELECT]. *)
Definition fetch_source_model (source_id upstream_model_id : string) : CatalogTx SourceModelRecord := fun db =>
  match cd_source_models db !! (source_id, upstream_model_id) with
  | Some record => Ok (record, db)
  | None => Err (missing_source_model source_id upstream_model_id)
  end.

Definition catalog_metadata `{SerdeText} (self : SourceModelRecord) : result CatalogMetadata CatalogError :=
  map_err of_domain_error (metadata_from_json de_error (sm_metadata self) (sm_field_sources self)).

Definition preset_metadata `{SerdeText} (self : ModelPresetRecord) : result CatalogMetadata CatalogError :=
  map_err of_domain_error (metadata_from_json de_error (mr_metadata self) (mr_field_sources self)).

(** [FOREIGN KEY (matched_model_preset_id, matched_model_preset_version)]. *)
Definition preset_exists (db : CatalogDb) (id : option string) (version : option Z) : bool :=
  match id, version with
  | Some id, Some version => is_some (cd_model_presets db !! (id, version))
  | _, _ => true
  end.

Definition validate_source_model_refresh (refresh : SourceModelRefresh) : result unit CatalogError :=
  if is_empty (trim (sx_source_id refresh)) || is_empty (trim (sx_upstream_model_id refresh))
  then Err (CtInvalidMetadata "source and upstream model IDs cannot be empty")
  else if negb (is_object (sx_raw_snapshot refresh))
  then Err (CtInvalidMetadata "source model raw snapshot must be an object")
  else if negb (Bool.eqb (is_some (sx_matched_preset refresh)) (is_some (sx_preset_metadata refresh)))
  then Err (CtInvalidMetadata "matched model preset reference and metadata must be provided together")
  else
    let? _ := map_err of_domain_error (MetadataValues_validate (sx_upstream_metadata refresh)) in
    match sx_preset_metadata refresh with
    | Some metadata => map_err of_domain_error (MetadataValues_validate metadata)
    | None => Ok tt
    end.

Definition preset_parts (preset : option ModelPresetRef) : option string * option Z :=
  match preset with Some preset => (Some (pr_id preset), Some (pr_version preset)) | None => (None, None) end.

(** The row of [INSERT INTO source_models]. *)
Definition new_source_model (refresh : SourceModelRefresh) (metadata : Value * Value) (now : Z) : SourceModelRecord :=
  let '(preset_id, preset_version) := preset_parts (sx_matched_preset refresh) in
  mkSourceModelRecord (sx_source_id refresh) (sx_upstream_model_id refresh) CsPending CaAvailable
    (sx_raw_snapshot refresh) metadata.1 metadata.2 preset_id preset_version
    (sx_discovered_at refresh) (sx_discovered_at refresh) None None now now.

(** The row after [UPDATE source_models SET availability_status='available',...]. *)
Definition refreshed_row (existing : SourceModelRecord) (refresh : SourceModelRefresh) (metadata : Value * Value)
    (preset : option string * option Z) (now : Z) : SourceModelRecord :=
  mkSourceModelRecord (sm_source_id existing) (sm_upstream_model_id existing) (sm_confirmation_status existing)
    CaAvailable (sx_raw_snapshot refresh) metadata.1 metadata.2 preset.1 preset.2
    (sm_first_discovered_at existing) (sx_discovered_at refresh) (sm_confirmed_at existing) None
    (sm_created_at existing) now.

Definition write_source_model (key : string * string) (row : SourceModelRecord) : CatalogTx unit := fun db =>
  if preset_exists db (sm_matched_model_preset_id row) (sm_matched_model_preset_version row)
  then Ok (tt, set_source_models db (<[key := row]> (cd_source_models db)))
  else Err (CtDatabase ForeignKeyViolation).

(** [INSERT ... ON CONFLICT DO NOTHING], and whether a row was inserted. *)
Definition insert_source_model (refresh : SourceModelRefresh) (metadata : Value * Value) (now : Z)
    : CatalogTx bool := fun db =>
  let key := (sx_source_id refresh, sx_upstream_model_id refresh) in
  match cd_source_models db !! key with
  | Some _ => Ok (false, db)
  | None =>
      match cd_sources db !! sx_source_id refresh with
      | None => Err (CtDatabase ForeignKeyViolation)
      | Some _ => tx_bind (write_source_model key (new_source_model refresh metadata now)) (fun _ => tx_ret true) db
      end
  end.

Definition refresh_source_model_tx `{SerdeText} (refresh : SourceModelRefresh) (now : Z)
    : CatalogTx SourceModelRecord :=
  let$ _ := tx_of (validate_source_model_refresh refresh) in
  let$ discovered := tx_of (map_err of_domain_error
                       (resolve (sx_upstream_metadata refresh) (sx_preset_metadata refresh))) in
  let$ inserted := insert_source_model refresh (metadata_to_json discovered) now in
  let$ _ :=
    if inserted then tx_ret tt
    else
      let$ existing := fetch_source_model (sx_source_id refresh) (sx_upstream_model_id refresh) in
      let$ existing_metadata := tx_of (catalog_metadata existing) in
      let confirmed := bool_decide (sm_confirmation_status existing = CsConfirmed) in
      let$ refreshed := tx_of (map_err of_domain_error
                          (refreshed_preserving_user_fields existing_metadata confirmed
                             (sx_upstream_metadata refresh) (sx_preset_metadata refresh))) in
      write_source_model (sx_source_id refresh, sx_upstream_model_id refresh)
        (refreshed_row existing refresh (metadata_to_json refreshed)
           (if confirmed
            then (sm_matched_model_preset_id existing, sm_matched_model_preset_version existing)
            else preset_parts (sx_matched_preset refresh)) now) in
  fetch_source_model (sx_source_id refresh) (sx_upstream_model_id refresh).

(** The row with other metadata. *)
Definition set_metadata (row : SourceModelRecord) (status : CatalogStatus) (metadata : Value * Value)
    (confirmed_at : option Z) (now : Z) : SourceModelRecord :=
  mkSourceModelRecord (sm_source_id row) (sm_upstream_model_id row) status (sm_availability_status row)
    (sm_raw_snapshot row) metadata.1 metadata.2 (sm_matched_model_preset_id row) (sm_matched_model_preset_version row)
    (sm_first_discovered_at row) (sm_last_discovered_at row) confirmed_at (sm_unavailable_at row)
    (sm_created_at row) now.

Definition update_overrides_tx `{SerdeText} (source_id upstream_model_id : string) (user_overrides : MetadataValues)
    (now : Z) : CatalogTx SourceModelRecord :=
  let$ existing := fetch_source_model source_id upstream_model_id in
  let$ metadata := tx_of (catalog_metadata existing) in
  let$ metadata := tx_of (map_err of_domain_error (apply_user_overrides metadata user_overrides)) in
  let$ _ := write_source_model (source_id, upstream_model_id)
              (set_metadata existing (sm_confirmation_status existing) (metadata_to_json metadata)
                 (sm_confirmed_at existing) now) in
  fetch_source_model source_id upstream_model_id.

Definition update_source_model_user_overrides `{SerdeText} (source_id upstream_model_id : string)
    (user_overrides : MetadataValues) (now : Z) : CatalogDb -> result SourceModelRecord CatalogError * CatalogDb :=
  run_tx (update_overrides_tx source_id upstream_model_id user_overrides now).

(** [windows(2)] with two equal ids. *)
Fixpoint adjacent_equal (ids : list string) : bool :=
  match ids with
  | a :: (b :: _) as rest => (a =?s b) || adjacent_equal rest
  | _ => false
  end.

Definition confirm_one `{SerdeText} (source_id : string) (now : Z) (confirmation : SourceModelConfirmation)
    : CatalogTx SourceModelRecord :=
  let$ existing := fetch_source_model source_id (sc_upstream_model_id confirmation) in
  let$ _ :=
    tx_of (if bool_decide (sm_availability_status existing = CaAvailable) then Ok tt
           else Err (CtInvalidState ("only an available source model can be confirmed: "
                       +:+ sc_upstream_model_id confirmation))) in
  let$ metadata := tx_of (catalog_metadata existing) in
  let$ metadata := tx_of (map_err of_domain_error
                     (apply_user_overrides metadata (sc_user_overrides confirmation))) in
  let$ _ := write_source_model (source_id, sc_upstream_model_id confirmation)
              (set_metadata existing CsConfirmed (metadata_to_json metadata)
                 (opt_or (sm_confirmed_at existing) (Some now)) now) in
  fetch_source_model source_id (sc_upstream_model_id confirmation).

Definition confirm_source_models `{SerdeText} (source_id : string) (confirmations : list SourceModelConfirmation)
    (now : Z) (db : CatalogDb) : result (list SourceModelRecord) CatalogError * CatalogDb :=
  match confirmations with
  | [] => (Err (CtInvalidState "at least one source model confirmation is required"), db)
  | _ =>
      let ordered := sort_by sc_upstream_model_id confirmations in
      if adjacent_equal (map sc_upstream_model_id ordered)
      then (Err (CtInvalidState "source model confirmation IDs must be unique"), db)
      else run_tx (tx_map (confirm_one source_id now) ordered) db
  end.

(** ** Discovery runs *)

Definition changed_source_model_fields (before after : SourceModelRecord) : list string :=
  (if bool_decide (sm_raw_snapshot before = sm_raw_snapshot after) then [] else ["raw_snapshot"])
  ++ (if bool_decide (sm_metadata before = sm_metadata after) then [] else ["metadata"])
  ++ (if bool_decide (sm_field_sources before = sm_field_sources after) then [] else ["field_sources"])
  ++ (if bool_decide (sm_matched_model_preset_id before = sm_matched_model_preset_id after)
         && bool_decide (sm_matched_model_preset_version before = sm_matched_model_preset_version after)
      then [] else ["matched_model_preset"])
  ++ (if bool_decide (sm_availability_status before = sm_availability_status after) then []
      else ["availability_status"]).

Definition sort_entries (entries : list DiscoveryDiffEntry) : list DiscoveryDiffEntry :=
  map (fun entry => mkDiscoveryDiffEntry (de_upstream_model_id entry) (sort_by id (de_changed_fields entry)))
    (sort_by de_upstream_model_id entries).

Definition sort_discovery_diff (diff : DiscoveryDiff) : DiscoveryDiff :=
  mkDiscoveryDiff (sort_entries (dd_added diff)) (sort_entries (dd_changed diff)) (sort_entries (dd_missing diff)).

(** The derived [Serialize]. *)
Definition diff_to_value (diff : DiscoveryDiff) : Value :=
  let entries l := VArray (map (fun entry =>
    object_of [("upstream_model_id", VString (de_upstream_model_id entry));
               ("changed_fields", VArray (map VString (de_changed_fields entry)))]) l) in
  object_of [("added", entries (dd_added diff)); ("changed", entries (dd_changed diff));
             ("missing", entries (dd_missing diff))].

Definition empty_diff : DiscoveryDiff := mkDiscoveryDiff [] [] [].

(** The state of the two loops of [apply_discovery]. *)
Record ApplyState : Type := mkApplyState {
  as_before_by_id : list (string * SourceModelRecord);
  as_diff : DiscoveryDiff;
  as_records : list SourceModelRecord;
}.

(** The body of the loop over the discovered models. *)
Definition apply_model `{SerdeText} (now : Z) (refresh : SourceModelRefresh) (st : ApplyState)
    : CatalogTx ApplyState :=
  let previous := bt_get (as_before_by_id st) (sx_upstream_model_id refresh) in
  let$ current := refresh_source_model_tx refresh now in
  let id := sm_upstream_model_id current in
  let diff :=
    match previous with
    | None =>
        mkDiscoveryDiff (dd_added (as_diff st) ++ [mkDiscoveryDiffEntry id ["source_model"]])
          (dd_changed (as_diff st)) (dd_missing (as_diff st))
    | Some previous =>
        match changed_source_model_fields previous current with
        | [] => as_diff st
        | changed_fields =>
            mkDiscoveryDiff (dd_added (as_diff st))
              (dd_changed (as_diff st) ++ [mkDiscoveryDiffEntry id changed_fields]) (dd_missing (as_diff st))
        end
    end in
  tx_ret (mkApplyState (bt_remove (as_before_by_id st) (sx_upstream_model_id refresh)) diff
            (as_records st ++ [current])).

Fixpoint apply_models `{SerdeText} (now : Z) (discovered : list SourceModelRefresh) (st : ApplyState)
    : CatalogTx ApplyState :=
  match discovered with
  | [] => tx_ret st
  | refresh :: discovered => let$ st := apply_model now refresh st in apply_models now discovered st
  end.

Definition unavailable_row (row : SourceModelRecord) (at_ now : Z) : SourceModelRecord :=
  mkSourceModelRecord (sm_source_id row) (sm_upstream_model_id row) (sm_confirmation_status row) CaUnavailable
    (sm_raw_snapshot row) (sm_metadata row) (sm_field_sources row) (sm_matched_model_preset_id row)
    (sm_matched_model_preset_version row) (sm_first_discovered_at row) (sm_last_discovered_at row)
    (sm_confirmed_at row) (Some at_) (sm_created_at row) now.

(** [UPDATE ... RETURNING] with [fetch_one]. *)
Definition mark_unavailable (source_id upstream_model_id : string) (at_ now : Z) : CatalogTx SourceModelRecord :=
  fun db =>
    match cd_source_models db !! (source_id, upstream_model_id) with
    | None => Err (CtDatabase RowNotFound)
    | Some row =>
        let row := unavailable_row row at_ now in
        Ok (row, set_source_models db (<[(source_id, upstream_model_id) := row]> (cd_source_models db)))
    end.

(** The body of the loop over the models that were not discovered. *)
Definition apply_missing (source_id : string) (completed_at now : Z) (previous : SourceModelRecord)
    (diff : DiscoveryDiff) (records : list SourceModelRecord) : CatalogTx (DiscoveryDiff * list SourceModelRecord) :=
  if bool_decide (sm_availability_status previous = CaUnavailable) then tx_ret (diff, records)
  else
    let$ current := mark_unavailable source_id (sm_upstream_model_id previous) completed_at now in
    tx_ret (mkDiscoveryDiff (dd_added diff) (dd_changed diff)
              (dd_missing diff ++ [mkDiscoveryDiffEntry (sm_upstream_model_id current) ["availability_status"]]),
            records ++ [current]).

Fixpoint apply_all_missing (source_id : string) (completed_at now : Z) (before : list (string * SourceModelRecord))
    (diff : DiscoveryDiff) (records : list SourceModelRecord) : CatalogTx (DiscoveryDiff * list SourceModelRecord) :=
  match before with
  | [] => tx_ret (diff, records)
  | (_, previous) :: before =>
      let$ dr := apply_missing source_id completed_at now previous diff records in
      apply_all_missing source_id completed_at now before dr.1 dr.2
  end.

(** The checks of [apply_discovery] before its transaction. *)
Fixpoint validate_discovered (source_id : string) (discovered : list SourceModelRefresh) : result unit CatalogError :=
  match discovered with
  | [] => Ok tt
  | refresh :: discovered =>
      let? _ := validate_source_model_refresh refresh in
      if negb (sx_source_id refresh =?s source_id)
      then Err (CtInvalidState "discovery models must belong to the requested source")
      else validate_discovered source_id discovered
  end.

Definition check_apply (input : DiscoveryApplyInput) : result (list SourceModelRefresh) CatalogError :=
  if (ai_http_status input <? 200) || (299 <? ai_http_status input)
  then Err (CtInvalidState "successful discovery requires a 2xx HTTP status")
  else if (ai_latency_ms input <? 0) || (ai_completed_at input <? ai_started_at input)
  then Err (CtInvalidState "discovery timing metadata is invalid")
  else if is_null (ai_raw_snapshot input)
  then Err (CtInvalidMetadata "discovery raw snapshot cannot be null")
  else
    let discovered := sort_by sx_upstream_model_id (ai_models input) in
    if adjacent_equal (map sx_upstream_model_id discovered)
    then Err (CtInvalidMetadata "discovery result contains duplicate model IDs")
    else let? _ := validate_discovered (ai_source_id input) discovered in Ok discovered.

(** The rows of a source, by model id. *)
Definition source_rows (db : CatalogDb) (source_id : string) : list (string * SourceModelRecord) :=
  bt_collect
    (omap (fun kv => if kv.1.1 =?s source_id then Some (kv.1.2, kv.2) else None)
       (map_to_list (cd_source_models db))).

Definition succeeded_run (input : DiscoveryApplyInput) (source : SourceRecord) (diff : DiscoveryDiff) (id : Z)
    : DiscoveryRunRecord :=
  mkDiscoveryRunRecord id (ai_source_id input) (ai_account_id input) (so_provider_preset_id source)
    (so_provider_preset_version source) "succeeded" (Some (ai_raw_snapshot input)) (diff_to_value diff)
    (Z.of_nat (length (ai_models input))) (Some (ai_http_status input)) (ai_latency_ms input) None None
    (ai_requested_by input) (ai_started_at input) (ai_completed_at input).

Definition apply_discovery_tx `{SerdeText} (input : DiscoveryApplyInput) (discovered : list SourceModelRefresh)
    (run_id now : Z) : CatalogTx DiscoveryApplyResult :=
  let$ source := (fun db => match get_source (ai_source_id input) db with
                            | Ok source => Ok (source, db) | Err e => Err e end) in
  let$ _ := validate_account_for_source (ai_source_id input) (ai_account_id input) in
  let$ before := tx_read (fun db => source_rows db (ai_source_id input)) in
  let$ st := apply_models now discovered (mkApplyState before empty_diff []) in
  let$ dr := apply_all_missing (ai_source_id input) (ai_completed_at input) now (as_before_by_id st)
               (as_diff st) (as_records st) in
  let diff := sort_discovery_diff dr.1 in
  let records := sort_by sm_upstream_model_id dr.2 in
  let$ _ := tx_of (if Z.of_nat (length (ai_models input)) <=? I32_MAX then Ok tt
                   else Err (CtInvalidState "discovery result contains too many models")) in
  let run := succeeded_run input source diff run_id in
  let$ _ := tx_write (fun db => set_runs db (cd_runs db ++ [run])) in
  tx_ret (mkDiscoveryApplyResult run diff records).

Definition apply_discovery `{SerdeText} (input : DiscoveryApplyInput) (run_id now : Z) (db : CatalogDb)
    : result DiscoveryApplyResult CatalogError * CatalogDb :=
  match check_apply input with
  | Err e => (Err e, db)
  | Ok discovered => run_tx (apply_discovery_tx input discovered run_id now) db
  end.

(** ** Audit records *)

Definition account_checked (source_id : string) (account_id : option string) (db : CatalogDb)
    : result unit CatalogError :=
  match account_id with
  | Some account_id => let? _ := get_account_credential_ref source_id account_id db in Ok tt
  | None => Ok tt
  end.

Definition record_discovery_failure (input : DiscoveryFailureInput) (run_id : Z) : CatalogTx DiscoveryRunRecord :=
  fun db =>
  if negb ((fi_status input =?s "failed") || (fi_status input =?s "unsupported"))
     || is_empty (trim (fi_error_code input)) || is_empty (trim (fi_error_message input))
     || (fi_latency_ms input <? 0) || (fi_completed_at input <? fi_started_at input)
  then Err (CtInvalidState "invalid discovery failure audit record")
  else
    let? source := get_source (fi_source_id input) db in
    let? _ := account_checked (fi_source_id input) (fi_account_id input) db in
    let run :=
      mkDiscoveryRunRecord run_id (fi_source_id input) (fi_account_id input) (so_provider_preset_id source)
        (so_provider_preset_version source) (fi_status input) None (diff_to_value empty_diff) 0
        (fi_http_status input) (fi_latency_ms input) (Some (fi_error_code input)) (Some (fi_error_message input))
        (fi_requested_by input) (fi_started_at input) (fi_completed_at input) in
    Ok (run, set_runs db (cd_runs db ++ [run])).

Definition record_connection_test (input : ConnectionTestInput) (test_id : Z) : CatalogTx ConnectionTestRecord :=
  fun db =>
  if negb ((ti_status input =?s "succeeded") || (ti_status input =?s "failed"))
     || (ti_latency_ms input <? 0)
     || ((ti_status input =?s "succeeded")
         && (negb (is_some_and (ti_http_status input) (fun status => (200 <=? status) && (status <? 300)))
             || is_some (ti_error_code input) || is_some (ti_error_message input)))
     || ((ti_status input =?s "failed")
         && (is_none_or (ti_error_code input) is_empty || is_none_or (ti_error_message input) is_empty))
  then Err (CtInvalidState "invalid connection test audit record")
  else
    let? _ := get_source (ti_source_id input) db in
    let? _ := account_checked (ti_source_id input) (ti_account_id input) db in
    let record :=
      mkConnectionTestRecord test_id (ti_source_id input) (ti_account_id input) (ti_protocol input)
        (ti_upstream_protocol input) (ti_mode input) (ti_status input) (ti_http_status input) (ti_latency_ms input)
        (ti_error_code input) (ti_error_message input) (ti_requested_by input) (ti_tested_at input) in
    Ok (record, set_tests db (cd_tests db ++ [record])).

(** ** Protocol capabilities *)

Definition CatalogStatus_debug (self : CatalogStatus) : string :=
  match self with CsPending => "Pending" | CsConfirmed => "Confirmed" | CsUnavailable => "Unavailable" end.

Definition ensure_transition (current next : CatalogStatus) (entity : string) : result unit CatalogError :=
  if can_transition_to current next then Ok tt
  else Err (CtInvalidState ("invalid " +:+ entity +:+ " status transition: " +:+ CatalogStatus_debug current
              +:+ " -> " +:+ CatalogStatus_debug next)).

Definition get_source_model_capability_conn (source_id upstream_model_id : string) (protocol : Protocol)
    : CatalogTx SourceModelCapabilityRecord := fun db =>
  match cd_capabilities db !! (source_id, upstream_model_id, protocol) with
  | Some record => Ok (record, db)
  | None => Err (CtNotFound ("source model capability " +:+ source_id +:+ "/" +:+ upstream_model_id +:+ "/"
                   +:+ Protocol_to_string protocol +:+ " not found"))
  end.

Definition features_to_value (features : list (string * CapabilitySupport)) : Value :=
  object_of (map (fun kv => (kv.1, VString (CapabilitySupport_to_string kv.2))) features).

(** The row of the [INSERT], and of [EXCLUDED]. *)
Definition capability_row (input : SourceModelCapabilityInput) (utc_now now : Z) : SourceModelCapabilityRecord :=
  mkSourceModelCapabilityRecord (ci_source_id input) (ci_upstream_model_id input) (ci_protocol input)
    (ci_status input) (ci_mode input) (ci_source_protocol input) (ci_adapter input)
    (features_to_value (ci_feature_capabilities input)) (MetadataSource_to_string (ci_field_source input))
    (ci_observed_at input) (then_some (bool_decide (ci_status input = CsConfirmed)) utc_now)
    (then_some (bool_decide (ci_status input = CsUnavailable)) utc_now) now.

(** [ON CONFLICT ... DO UPDATE SET ... WHERE ...]. *)
Definition capability_conflict (old excluded : SourceModelCapabilityRecord) (now : Z) : SourceModelCapabilityRecord :=
  if negb (bool_decide (mc_status old = CsConfirmed)) || negb (bool_decide (mc_status excluded = CsConfirmed))
     || (mc_field_source excluded =?s "user")
  then
    mkSourceModelCapabilityRecord (mc_source_id old) (mc_upstream_model_id old) (mc_protocol old)
      (mc_status excluded) (mc_mode excluded) (mc_source_protocol excluded) (mc_adapter excluded)
      (mc_feature_capabilities excluded) (mc_field_source excluded) (mc_observed_at excluded)
      (if bool_decide (mc_status excluded = CsConfirmed)
       then opt_or (mc_confirmed_at old) (mc_confirmed_at excluded) else mc_confirmed_at old)
      (mc_unavailable_at excluded) now
  else old.

Definition write_capability (input : SourceModelCapabilityInput) (utc_now now : Z) : CatalogTx unit := fun db =>
  let key := (ci_source_id input, ci_upstream_model_id input, ci_protocol input) in
  let excluded := capability_row input utc_now now in
  match cd_source_models db !! (ci_source_id input, ci_upstream_model_id input) with
  | None => Err (CtDatabase ForeignKeyViolation)
  | Some _ =>
      let row := match cd_capabilities db !! key with
                 | Some old => capability_conflict old excluded now
                 | None => excluded
                 end in
      Ok (tt, set_capabilities db (<[key := row]> (cd_capabilities db)))
  end.

(** The check of an adapter's source protocol. *)
Definition check_adapter_source (input : SourceModelCapabilityInput) (db : CatalogDb) : result unit CatalogError :=
  match ci_mode input, ci_source_protocol input with
  | SmAdapter, Some source_protocol =>
      let source := cd_capabilities db !! (ci_source_id input, ci_upstream_model_id input, source_protocol) in
      if is_some_and source (fun s => bool_decide (mc_status s = CsConfirmed) && bool_decide (mc_mode s = SmNative))
      then Ok tt
      else Err (CtInvalidState ("adapter source protocol " +:+ Protocol_to_string source_protocol
                  +:+ " must be confirmed native"))
  | _, _ => Ok tt
  end.

Definition upsert_source_model_capability_conn `{BuildCfg} (input : SourceModelCapabilityInput) (utc_now now : Z)
    : CatalogTx SourceModelCapabilityRecord :=
  let get := get_source_model_capability_conn (ci_source_id input) (ci_upstream_model_id input) (ci_protocol input) in
  let$ _ := tx_of (map_err of_domain_error (capability_validate input)) in
  let$ current := tx_read (fun db =>
    cd_capabilities db !! (ci_source_id input, ci_upstream_model_id input, ci_protocol input)) in
  let$ _ := tx_of match current with
                  | Some current => ensure_transition (mc_status current) (ci_status input) "source model capability"
                  | None => Ok tt
                  end in
  if is_some_and current (fun current => bool_decide (mc_status current = CsConfirmed))
     && bool_decide (ci_status input = CsConfirmed) && negb (bool_decide (ci_field_source input = MsUser))
  then get
  else
    let$ _ := fun db => tx_of (check_adapter_source input db) db in
    let$ _ := write_capability input utc_now now in
    get.

(** ** Concrete rows *)

Definition example_account_row (env ciphertext : option string) : AccountRow :=
  mkAccountRow "source" "Account" env ciphertext true 100
    (mkHealthColumns "unknown" "unknown" (Some 0) 0 None None None None None None None) 0 0.
