(* ===== verification/CatalogProps.v ===== *)
(** * Properties of the model catalogue

    The installation of the built-in presets; what a discovery does to the
    models of its source, with the exact difference it reports; the type of the
    catalogue's rows, kept by every operation; confirmation of models; and the
    rules of protocol capabilities. *)

From Stdlib Require Import ZArith Lia Sorted.
From stdpp Require Import base list strings gmap.
From S2P Require Import Prelude.
From S2P Require Import RustStr.
From S2P Require Import Protocol.
From S2P Require Import BTree.
From S2P Require Import Tx.
From S2P Require Import Config.
From S2P Require Import SourceUrl.
From S2P Require Import Json.
From S2P Require Import Catalog.
From S2P Require Import Presets.
From S2P Require Import PresetDiff.
From S2P Require Import ModelCatalog.

(** ** Installing presets *)

(** No preset row is changed or lost, and nothing else changes. *)
Record presets_extend (db db' : CatalogDb) : Prop := {
  pe_providers : cd_provider_presets db ⊆ cd_provider_presets db';
  pe_models : cd_model_presets db ⊆ cd_model_presets db';
  pe_rest : db' = set_model_presets (set_provider_presets db (cd_provider_presets db')) (cd_model_presets db');
}.

#[export] Instance presets_extend_preorder : PreOrder presets_extend.
Proof.
  split.
  - intros []. by split.
  - intros x y z [H1 H2 H3] [H4 H5 H6]. split; [by etrans|by etrans|]. rewrite H6. by rewrite H3.
Qed.

Definition provider_installed (input : ProviderPresetInput) (db : CatalogDb) : Prop :=
  0 < pp_version input /\ is_object (pp_definition input) = true
  /\ exists record, cd_provider_presets db !! (pp_id input, pp_version input) = Some record
       /\ pv_display_name record = pp_display_name input /\ pv_definition record = pp_definition input.

Definition model_sources_ok (input : ModelPresetInput) : Prop :=
  existsb (fun fs => negb (bool_decide (fs.2 = MsPreset) || bool_decide (fs.2 = MsUnknown)))
    (md_field_sources (mp_metadata input)) = false.

Definition model_installed (input : ModelPresetInput) (db : CatalogDb) : Prop :=
  0 < mp_version input /\ model_sources_ok input
  /\ exists record, cd_model_presets db !! (mp_id input, mp_version input) = Some record
       /\ mr_canonical_model_id record = mp_canonical_model_id input
       /\ mr_aliases record = VArray (map VString (mp_aliases input))
       /\ mr_metadata record = (metadata_to_json (mp_metadata input)).1
       /\ mr_field_sources record = (metadata_to_json (mp_metadata input)).2.

Lemma insert_provider_extends input now db : presets_extend db (insert_provider_preset input now db).2.
Proof.
  unfold insert_provider_preset. destruct (_ || _); [done|].
  destruct (cd_provider_presets db !! (pp_id input, pp_version input)) as [row|] eqn:E.
  - rewrite E. destruct (_ || _); done.
  - cbn [cd_provider_presets set_provider_presets]. rewrite lookup_insert_eq.
    destruct (_ || _); (split; [by apply insert_subseteq|done|by destruct db]).
Qed.

Lemma insert_provider_ok input now db r db' :
  insert_provider_preset input now db = (Ok r, db') -> provider_installed input db'.
Proof.
  unfold insert_provider_preset, provider_installed.
  destruct ((pp_version input <=? 0) || _) eqn:Ec; [done|].
  apply orb_false_iff in Ec as [Hv%Z.leb_gt Ho%negb_false_iff].
  set (db1 := match _ with Some _ => db | None => _ end).
  destruct (cd_provider_presets db1 !! _) as [row|] eqn:E; [|done].
  destruct (_ || _) eqn:Ed; [done|]. intros [= <- <-]. split_and!; [done|done|]. exists row. split; [done|].
  apply orb_false_iff in Ed as [Hn%negb_false_iff%String.eqb_eq Hd%negb_false_iff%bool_decide_eq_true]. done.
Qed.

Lemma insert_provider_again input now db :
  provider_installed input db -> exists r, insert_provider_preset input now db = (Ok r, db).
Proof.
  intros (Hv & Ho & row & E & Hn & Hd). unfold insert_provider_preset. rewrite E, Ho.
  assert (pp_version input <=? 0 = false) as -> by lia. cbn [negb orb]. rewrite E, Hn, Hd, String.eqb_refl.
  rewrite bool_decide_true by done. cbn. eauto.
Qed.

Lemma insert_model_extends input now db : presets_extend db (insert_model_preset input now db).2.
Proof.
  unfold insert_model_preset. destruct (_ <=? 0); [done|]. destruct (existsb _ _); [done|].
  destruct (metadata_to_json _) as [md fs].
  destruct (cd_model_presets db !! (mp_id input, mp_version input)) as [row|] eqn:E.
  - rewrite E. destruct (_ || _); done.
  - destruct (canonical_taken _ _ _); [done|]. cbn [cd_model_presets set_model_presets]. rewrite lookup_insert_eq.
    destruct (_ || _); (split; [done|by apply insert_subseteq|by destruct db]).
Qed.

Lemma insert_model_ok input now db r db' :
  insert_model_preset input now db = (Ok r, db') -> model_installed input db'.
Proof.
  unfold insert_model_preset, model_installed, model_sources_ok.
  destruct (Z.leb_spec (mp_version input) 0); [done|]. destruct (existsb _ _) eqn:Es; [done|].
  destruct (metadata_to_json _) as [md fs]. cbn [fst snd].
  destruct (match _ with Some _ => Ok db | None => _ end) as [db1|e]; [|done].
  destruct (cd_model_presets db1 !! _) as [row|] eqn:E; [|done].
  destruct (_ || _ || _ || _) eqn:Ed; [done|]. intros [= <- <-]. split_and!; [lia|done|]. exists row. split; [done|].
  rewrite !orb_false_iff, !negb_false_iff, String.eqb_eq, !bool_decide_eq_true in Ed. tauto.
Qed.

Lemma insert_model_again input now db :
  model_installed input db -> exists r, insert_model_preset input now db = (Ok r, db).
Proof.
  intros (Hv & Hs & row & E & Hc & Ha & Hm & Hf). unfold insert_model_preset. unfold model_sources_ok in Hs.
  rewrite Hs, E. assert (mp_version input <=? 0 = false) as -> by lia.
  destruct (metadata_to_json _) as [md fs]. cbn [fst snd] in *. rewrite E, Hc, Ha, Hm, Hf, String.eqb_refl.
  rewrite !bool_decide_true by done. cbn. eauto.
Qed.

Lemma provider_installed_extend input db db' :
  presets_extend db db' -> provider_installed input db -> provider_installed input db'.
Proof.
  intros [Hp _ _] (Hv & Ho & row & E & Hr). split_and!; [done|done|]. exists row. split; [|done].
  by eapply lookup_weaken.
Qed.

Lemma model_installed_extend input db db' :
  presets_extend db db' -> model_installed input db -> model_installed input db'.
Proof.
  intros [_ Hm _] (Hv & Ho & row & E & Hr). split_and!; [done|done|]. exists row. split; [|done].
  by eapply lookup_weaken.
Qed.

(** A loop of immutable installations. *)
Section ForEach.
Context {A B : Type} (step : A -> Z -> CatalogDb -> result B CatalogError * CatalogDb)
  (installed : A -> CatalogDb -> Prop).
Context (step_extends : forall x now db, presets_extend db (step x now db).2)
  (step_ok : forall x now db r db', step x now db = (Ok r, db') -> installed x db')
  (step_again : forall x now db, installed x db -> exists r, step x now db = (Ok r, db))
  (installed_extend : forall x db db', presets_extend db db' -> installed x db -> installed x db').

Lemma for_each_extends now l db : presets_extend db (for_each (fun x => step x now) l db).2.
Proof.
  revert db. induction l as [|x l IH]; intros db; cbn [for_each]; [done|].
  pose proof (step_extends x now db) as Hs. destruct (step x now db) as [[r|e] db1]; [|done].
  etrans; [exact Hs|apply IH].
Qed.

Lemma for_each_ok now l db u db' :
  for_each (fun x => step x now) l db = (Ok u, db') -> Forall (fun x => installed x db') l.
Proof.
  revert db. induction l as [|x l IH]; intros db; cbn [for_each]; [constructor|].
  destruct (step x now db) as [[r|e] db1] eqn:Es; [|done]. intros Hl. constructor; [|by eapply IH].
  eapply installed_extend; [|by eapply step_ok]. pose proof (for_each_extends now l db1) as He. by rewrite Hl in He.
Qed.

Lemma for_each_again now l db : Forall (fun x => installed x db) l -> for_each (fun x => step x now) l db = (Ok tt, db).
Proof.
  induction l as [|x l IH]; intros Hall; cbn [for_each]; [done|]. apply Forall_cons in Hall as [Hx Hl].
  destruct (step_again x now db Hx) as [r ->]. auto.
Qed.
End ForEach.

Section Install.
Context `{UrlCrates} `{PresetSerde}.

(** What the built-in presets are, and that they are installed. *)
Definition builtins_installed (db : CatalogDb) : Prop :=
  exists providers models, builtin_provider_presets = Ok providers /\ builtin_model_presets = Ok models
  /\ Forall (fun p => provider_installed p db) providers /\ Forall (fun m => model_installed m db) models.

Lemma install_extends now db : presets_extend db (install_builtin_presets now db).2.
Proof.
  unfold install_builtin_presets. destruct builtin_provider_presets as [ps|e]; [|done].
  pose proof (for_each_extends insert_provider_preset insert_provider_extends now ps db) as Hp.
  destruct (for_each _ ps db) as [[u|e] db1]; [|done]. destruct builtin_model_presets as [ms|e]; [|done].
  etrans; [exact Hp|]. apply (for_each_extends insert_model_preset insert_model_extends).
Qed.

Lemma install_ok now db u db' : install_builtin_presets now db = (Ok u, db') -> builtins_installed db'.
Proof.
  unfold install_builtin_presets, builtins_installed. destruct builtin_provider_presets as [ps|e]; [|done].
  destruct (for_each _ ps db) as [[v|e] db1] eqn:Ep; [|done]. destruct builtin_model_presets as [ms|e]; [|done].
  intros Em. exists ps, ms. split; [done|]. split; [done|]. split.
  - apply (for_each_ok insert_provider_preset provider_installed insert_provider_extends insert_provider_ok
             provider_installed_extend) in Ep.
    eapply Forall_impl; [exact Ep|]. intros p Hp. eapply provider_installed_extend; [|exact Hp].
    pose proof (for_each_extends insert_model_preset insert_model_extends now ms db1) as He. by rewrite Em in He.
  - exact (for_each_ok insert_model_preset model_installed insert_model_extends insert_model_ok
             model_installed_extend _ _ _ _ _ Em).
Qed.

Lemma builtins_installed_extend db db' : presets_extend db db' -> builtins_installed db -> builtins_installed db'.
Proof.
  intros He (ps & ms & Hp & Hm & Hps & Hms). exists ps, ms. split_and!; [done|done| |].
  - eapply Forall_impl; [exact Hps|]. intros p. by apply provider_installed_extend.
  - eapply Forall_impl; [exact Hms|]. intros p. by apply model_installed_extend.
Qed.

Lemma install_again now db : builtins_installed db -> install_builtin_presets now db = (Ok tt, db).
Proof.
  intros (ps & ms & Hp & Hm & Hps & Hms). unfold install_builtin_presets. rewrite Hp.
  rewrite (for_each_again insert_provider_preset provider_installed insert_provider_again) by done. rewrite Hm.
  by apply (for_each_again insert_model_preset model_installed insert_model_again).
Qed.

Lemma insert_provider_fresh input now db :
  0 < pp_version input -> is_object (pp_definition input) = true ->
  cd_provider_presets db !! (pp_id input, pp_version input) = None ->
  exists r row, insert_provider_preset input now db
    = (Ok r, set_provider_presets db (<[(pp_id input, pp_version input) := row]> (cd_provider_presets db))).
Proof.
  intros Hv Ho Hn. unfold insert_provider_preset. assert (pp_version input <=? 0 = false) as -> by lia.
  rewrite Ho, Hn. cbn [negb orb cd_provider_presets set_provider_presets]. rewrite lookup_insert_eq.
  cbn [pv_display_name pv_definition]. rewrite String.eqb_refl, bool_decide_true by done. cbn. eauto.
Qed.

Definition provider_key (input : ProviderPresetInput) : string * Z := (pp_id input, pp_version input).

Lemma install_providers_fresh now l db :
  Forall (fun p => 0 < pp_version p /\ is_object (pp_definition p) = true
                   /\ cd_provider_presets db !! provider_key p = None) l ->
  NoDup (map provider_key l) ->
  exists t, for_each (fun p => insert_provider_preset p now) l db = (Ok tt, set_provider_presets db t).
Proof.
  revert db. induction l as [|p l IH]; intros db Hall Hnd; cbn [for_each].
  { exists (cd_provider_presets db). by destruct db. }
  apply Forall_cons in Hall as [(Hv & Ho & Hn) Hall]. cbn in Hnd. apply NoDup_cons in Hnd as [Hp Hnd].
  destruct (insert_provider_fresh p now db Hv Ho Hn) as (r & row & ->).
  destruct (IH (set_provider_presets db (<[provider_key p := row]> (cd_provider_presets db)))) as [t Ht]; [|done|].
  - rewrite Forall_forall in Hall |- *. intros q Hq. destruct (Hall q Hq) as (Hqv & Hqo & Hqn). split_and!; [done|done|].
    cbn. rewrite lookup_insert_ne; [done|]. intros Heq. apply Hp. rewrite Heq. by apply (list_elem_of_fmap_2 provider_key).
  - exists t. exact Ht.
Qed.

(** The eight model presets do not get into each other's way. *)
Lemma install_models_fresh now db :
  cd_model_presets db = ∅ ->
  exists db', for_each (fun m => insert_model_preset m now) model_records db = (Ok tt, db').
Proof. destruct db. cbn. intros ->. vm_compute. eauto. Qed.

Context (base_urls : forall base, base ∈ builtin_base_urls ->
           exists url, url_parse base = Some url /\ plain_http_url url = true).
Context (written_objects : forall d, is_object (preset_to_value d) = true).

(** Installing the built-in presets at start-up is safe to repeat: whatever
    happens, no existing preset row is changed or lost and nothing else is
    touched (a version is immutable, a conflict is an error); on a database
    without presets it succeeds; and after it succeeded, every later
    installation succeeds and changes nothing. *)
Theorem preset_installation_idempotent :
  (forall now db, presets_extend db (install_builtin_presets now db).2)
  /\ (forall now db, cd_model_presets db = ∅ -> (forall r, r ∈ builtin_definitions ->
         cd_provider_presets db !! record_key r = None) ->
       exists db', install_builtin_presets now db = (Ok tt, db') /\ builtins_installed db')
  /\ (forall now now' db db1 db2, install_builtin_presets now db = (Ok tt, db1) -> presets_extend db1 db2 ->
       install_builtin_presets now' db2 = (Ok tt, db2)).
Proof.
  split; [exact install_extends|]. split.
  2:{ intros now now' db db1 db2 Hi He. apply install_again. eapply builtins_installed_extend; [exact He|].
      by eapply install_ok. }
  intros now db Hm Hp. assert (exists db', install_builtin_presets now db = (Ok tt, db')) as [db' Hd].
  2:{ exists db'. split; [done|]. by eapply install_ok. }
  unfold install_builtin_presets. rewrite builtin_provider_presets_ok by exact base_urls.
  destruct (install_providers_fresh now (map preset_input builtin_definitions) db) as [t ->].
  - apply Forall_forall. intros p Hin. apply list_elem_of_fmap in Hin as (r & -> & Hr). split_and!; [|apply written_objects|by apply Hp].
    pose proof builtin_versions_positive as Hv. rewrite forallb_forall in Hv.
    apply list_elem_of_In in Hr. apply Hv in Hr. cbn. lia.
  - rewrite map_map. exact builtin_keys_NoDup.
  - rewrite builtin_model_presets_ok. by apply install_models_fresh.
Qed.
End Install.

Definition empty_db : CatalogDb := mkCatalogDb ∅ ∅ ∅ ∅ ∅ ∅ [] [].

Lemma preset_installation_idempotent_witness :
  let crates := preset_crates in let serde := blank_serde in
  exists db, install_builtin_presets 0 empty_db = (Ok tt, db) /\ install_builtin_presets 1 db = (Ok tt, db).
Proof.
  intros crates serde. destruct preset_installation_idempotent as (_ & Hfresh & Hagain).
  - exact preset_crates_urls.
  - done.
  - destruct (Hfresh 0 empty_db) as (db & Hdb & _); [done|done|]. exists db. split; [exact Hdb|].
    exact (Hagain 0 1 empty_db db db Hdb (PreOrder_Reflexive db)).
Defined.

(** ** Refreshing a source model *)

Definition refresh_key (refresh : SourceModelRefresh) : string * string :=
  (sx_source_id refresh, sx_upstream_model_id refresh).

Section Rows.
Context {text : SerdeText}.

(** The row a refresh writes, from the row before. *)
Definition refreshed_record (existing : option SourceModelRecord) (refresh : SourceModelRefresh) (now : Z)
    : result SourceModelRecord CatalogError :=
  let? discovered := map_err of_domain_error (resolve (sx_upstream_metadata refresh) (sx_preset_metadata refresh)) in
  match existing with
  | None => Ok (new_source_model refresh (metadata_to_json discovered) now)
  | Some existing =>
      let confirmed := bool_decide (sm_confirmation_status existing = CsConfirmed) in
      let? metadata := catalog_metadata existing in
      let? refreshed := map_err of_domain_error
                          (refreshed_preserving_user_fields metadata confirmed
                             (sx_upstream_metadata refresh) (sx_preset_metadata refresh)) in
      Ok (refreshed_row existing refresh (metadata_to_json refreshed)
            (if confirmed then (sm_matched_model_preset_id existing, sm_matched_model_preset_version existing)
             else preset_parts (sx_matched_preset refresh)) now)
  end.

Lemma write_source_model_inv key row db u db' :
  write_source_model key row db = Ok (u, db') ->
  preset_exists db (sm_matched_model_preset_id row) (sm_matched_model_preset_version row) = true
  /\ db' = set_source_models db (<[key := row]> (cd_source_models db)).
Proof. unfold write_source_model. destruct (preset_exists _ _ _); [by intros [= <- <-]|done]. Qed.

Lemma fetch_source_model_inv s m db row db' :
  fetch_source_model s m db = Ok (row, db') -> cd_source_models db !! (s, m) = Some row /\ db' = db.
Proof. unfold fetch_source_model. destruct (_ !! _); [by intros [= -> ->]|done]. Qed.

Lemma fetch_written s m row db : fetch_source_model s m (set_source_models db (<[(s, m) := row]> (cd_source_models db)))
  = Ok (row, set_source_models db (<[(s, m) := row]> (cd_source_models db))).
Proof. unfold fetch_source_model. cbn. by rewrite lookup_insert_eq. Qed.

Lemma refresh_inv refresh now db current db' :
  refresh_source_model_tx refresh now db = Ok (current, db') ->
  validate_source_model_refresh refresh = Ok tt
  /\ refreshed_record (cd_source_models db !! refresh_key refresh) refresh now = Ok current
  /\ db' = set_source_models db (<[refresh_key refresh := current]> (cd_source_models db))
  /\ preset_exists db (sm_matched_model_preset_id current) (sm_matched_model_preset_version current) = true
  /\ (cd_source_models db !! refresh_key refresh = None -> is_Some (cd_sources db !! sx_source_id refresh)).
Proof.
  unfold refresh_source_model_tx, refreshed_record, refresh_key.
  intros (u & s1 & [Hv ->]%tx_of_inv & (discovered & s2 & [Hd ->]%tx_of_inv & H1)%tx_bind_inv)%tx_bind_inv.
  destruct u. split; [done|]. rewrite Hd. cbn [rbind].
  apply tx_bind_inv in H1 as (inserted & s3 & Hi & H1). apply tx_bind_inv in H1 as (w & s4 & Hw & Hf).
  unfold insert_source_model in Hi. destruct (cd_source_models db !! _) as [row|] eqn:E.
  - injection Hi as <- <-. apply tx_bind_inv in Hw as (ex & s5 & [Hex ->]%fetch_source_model_inv & Hw).
    assert (ex = row) as -> by congruence.
    apply tx_bind_inv in Hw as (em & s6 & [Hm ->]%tx_of_inv & Hw).
    apply tx_bind_inv in Hw as (rf & s7 & [Hr ->]%tx_of_inv & Hw). rewrite Hm. cbn [rbind]. rewrite Hr. cbn [rbind].
    apply write_source_model_inv in Hw as [Hp ->]. rewrite fetch_written in Hf. injection Hf as <- <-. done.
  - destruct (cd_sources db !! _) as [so|] eqn:Es; [|done].
    apply tx_bind_inv in Hi as (u & s5 & [Hp ->]%write_source_model_inv & [= <- <-]).
    injection Hw as <- <-. rewrite fetch_written in Hf. injection Hf as <- <-. split_and!; [done|done|done|]. by eexists.
Qed.

(** ** The type of the rows *)

(** What the columns of a source model promise: its ids are its key, its source
    exists, its metadata reads back as well-formed metadata, and the [CHECK]s of
    the schema hold. *)
Record model_row_ok (db : CatalogDb) (k : string * string) (row : SourceModelRecord) : Prop := {
  ro_key : k = (sm_source_id row, sm_upstream_model_id row);
  ro_source : is_Some (cd_sources db !! sm_source_id row);
  ro_metadata : exists m, metadata_ok m /\ metadata_to_json m = (sm_metadata row, sm_field_sources row);
  ro_status : sm_confirmation_status row <> CsUnavailable;
  ro_confirmed : sm_confirmation_status row = CsConfirmed -> is_Some (sm_confirmed_at row);
  ro_unavailable : sm_availability_status row = CaUnavailable -> is_Some (sm_unavailable_at row);
  ro_preset : match sm_matched_model_preset_id row, sm_matched_model_preset_version row with
              | Some id, Some version => is_Some (cd_model_presets db !! (id, version))
              | None, None => True
              | _, _ => False
              end;
}.

Definition models_typed (db : CatalogDb) : Prop :=
  forall k row, cd_source_models db !! k = Some row -> model_row_ok db k row.

(** The maps a caller passes are [BTreeMap]s. *)
Definition refresh_wf (refresh : SourceModelRefresh) : Prop :=
  bt_wf (sx_upstream_metadata refresh) /\ forall p, sx_preset_metadata refresh = Some p -> bt_wf p.

Lemma metadata_read m row : metadata_ok m -> metadata_to_json m = (sm_metadata row, sm_field_sources row) ->
  catalog_metadata row = Ok m.
Proof.
  intros Hm Hj. unfold catalog_metadata. pose proof (metadata_json_roundtrip de_error m Hm) as Hr.
  rewrite Hj in Hr. cbn in Hr. by rewrite Hr.
Qed.

Lemma map_err_Ok {A E F} (f : E -> F) (r : result A E) x : map_err f r = Ok x -> r = Ok x.
Proof. destruct r; [by intros [= ->]|done]. Qed.

Lemma preset_pair db row :
  preset_exists db (sm_matched_model_preset_id row) (sm_matched_model_preset_version row) = true ->
  is_some (sm_matched_model_preset_id row) = is_some (sm_matched_model_preset_version row) ->
  match sm_matched_model_preset_id row, sm_matched_model_preset_version row with
  | Some id, Some version => is_Some (cd_model_presets db !! (id, version))
  | None, None => True
  | _, _ => False
  end.
Proof.
  unfold preset_exists. destruct (sm_matched_model_preset_id row), (sm_matched_model_preset_version row); try done.
  intros He _. destruct (_ !! _); [by eexists|done].
Qed.

Lemma preset_parts_pair p : is_some (preset_parts p).1 = is_some (preset_parts p).2.
Proof. by destruct p. Qed.

Lemma refreshed_record_ok db refresh now current :
  models_typed db -> refresh_wf refresh ->
  refreshed_record (cd_source_models db !! refresh_key refresh) refresh now = Ok current ->
  preset_exists db (sm_matched_model_preset_id current) (sm_matched_model_preset_version current) = true ->
  (cd_source_models db !! refresh_key refresh = None -> is_Some (cd_sources db !! sx_source_id refresh)) ->
  model_row_ok db (refresh_key refresh) current.
Proof.
  intros Ht [Hu Hp] Hr Hpre Hsrc. unfold refreshed_record in Hr.
  destruct (map_err _ (resolve _ _)) as [d|] eqn:Ed; cbn [rbind] in Hr; [|done]. apply map_err_Ok in Ed.
  destruct (cd_source_models db !! _) as [row|] eqn:E.
  - destruct (Ht _ _ E) as [Hk Hso (m & Hm & Hj) Hst Hc Hun Hpr]. rewrite (metadata_read m row Hm Hj) in Hr.
    cbn [rbind] in Hr. destruct (map_err _ _) as [rf|] eqn:Er in Hr; cbn [rbind] in Hr; [|done].
    apply map_err_Ok in Er. apply Ok_inj in Hr. subst current. split; cbn; [done|done| |done|done|done|].
    + exists rf. split; [exact (refreshed_ok _ _ _ _ _ Hm Hu Hp Er)|apply surjective_pairing].
    + case_bool_decide as Hcc; cbn in *; [done|].
      by apply (preset_pair db (refreshed_row row refresh (metadata_to_json rf) (preset_parts (sx_matched_preset refresh)) now)),
        preset_parts_pair.
  - apply Ok_inj in Hr. subst current.
    assert (is_some (sm_matched_model_preset_id (new_source_model refresh (metadata_to_json d) now))
      = is_some (sm_matched_model_preset_version (new_source_model refresh (metadata_to_json d) now))) as Hpair
      by (unfold new_source_model, preset_parts; by destruct (sx_matched_preset refresh)).
    split; [| | | | | |by apply preset_pair]; unfold new_source_model;
      destruct (preset_parts _) as [pid pv]; cbn; [done|by apply Hsrc| |done..].
    exists d. split; [exact (resolve_ok _ _ _ Hu Hp Ed)|apply surjective_pairing].
Qed.

Lemma model_row_ok_models db t k row : model_row_ok (set_source_models db t) k row <-> model_row_ok db k row.
Proof. split; intros []; by split. Qed.

Lemma typed_write db k row :
  models_typed db -> model_row_ok db k row -> models_typed (set_source_models db (<[k := row]> (cd_source_models db))).
Proof.
  intros Ht Hr k' row'. cbn. rewrite lookup_insert_Some. rewrite model_row_ok_models.
  intros [[<- <-]|[_ Hk]]; [done|by apply Ht].
Qed.

Lemma refresh_typed refresh now db current db' :
  models_typed db -> refresh_wf refresh -> refresh_source_model_tx refresh now db = Ok (current, db') ->
  models_typed db' /\ model_row_ok db (refresh_key refresh) current.
Proof.
  intros Ht Hw (_ & Hr & -> & Hp & Hs)%refresh_inv.
  assert (model_row_ok db (refresh_key refresh) current) as Hok by (by eapply refreshed_record_ok).
  split; [by apply typed_write|done].
Qed.

(** ** The loops of a discovery *)

Lemma Forall2_impl_l {A B} (P Q : A -> B -> Prop) l k :
  Forall2 P l k -> (forall x y, x ∈ l -> P x y -> Q x y) -> Forall2 Q l k.
Proof.
  induction 1 as [|x y l k Hxy _ IH]; intros Hi; constructor; [apply Hi; [by left|done]|].
  apply IH. intros x' y' Hx'. apply Hi. by right.
Qed.

(** What the loop over the discovered models did. *)
Record models_step (now : Z) (discovered : list SourceModelRefresh) (rows : list SourceModelRecord)
    (db db' : CatalogDb) : Prop := {
  ms_rest : db' = set_source_models db (cd_source_models db');
  ms_rows : Forall2 (fun r row => refreshed_record (cd_source_models db !! refresh_key r) r now = Ok row
              /\ cd_source_models db' !! refresh_key r = Some row
              /\ sm_upstream_model_id row = sx_upstream_model_id r) discovered rows;
  ms_other : forall k, k ∉ map refresh_key discovered -> cd_source_models db' !! k = cd_source_models db !! k;
  ms_typed : models_typed db';
}.

Definition added_entry (prev : string -> option SourceModelRecord) (pair : SourceModelRefresh * SourceModelRecord)
    : option DiscoveryDiffEntry :=
  match prev (sx_upstream_model_id pair.1) with
  | None => Some (mkDiscoveryDiffEntry (sm_upstream_model_id pair.2) ["source_model"])
  | Some _ => None
  end.

Definition changed_entry (prev : string -> option SourceModelRecord) (pair : SourceModelRefresh * SourceModelRecord)
    : option DiscoveryDiffEntry :=
  match prev (sx_upstream_model_id pair.1) with
  | None => None
  | Some previous =>
      match changed_source_model_fields previous pair.2 with
      | [] => None
      | fields => Some (mkDiscoveryDiffEntry (sm_upstream_model_id pair.2) fields)
      end
  end.

Lemma apply_model_inv now refresh st db st' db' prev :
  bt_get (as_before_by_id st) (sx_upstream_model_id refresh) = prev (sx_upstream_model_id refresh) ->
  apply_model now refresh st db = Ok (st', db') -> exists row,
    refresh_source_model_tx refresh now db = Ok (row, db')
    /\ as_before_by_id st' = bt_remove (as_before_by_id st) (sx_upstream_model_id refresh)
    /\ as_records st' = as_records st ++ [row]
    /\ dd_added (as_diff st') = dd_added (as_diff st) ++ omap (added_entry prev) [(refresh, row)]
    /\ dd_changed (as_diff st') = dd_changed (as_diff st) ++ omap (changed_entry prev) [(refresh, row)]
    /\ dd_missing (as_diff st') = dd_missing (as_diff st).
Proof.
  intros Hprev (row & s & Hr & [= <- <-])%tx_bind_inv. exists row. split; [done|]. cbn. unfold added_entry, changed_entry.
  cbn [fst snd]. rewrite Hprev. destruct (prev _) as [previous|]; cbn.
  - destruct (changed_source_model_fields previous row); cbn; rewrite ?app_nil_r; done.
  - by rewrite app_nil_r.
Qed.

Lemma apply_models_inv now source prev discovered : forall st db st' db',
  models_typed db -> Forall refresh_wf discovered -> Forall (fun r => sx_source_id r = source) discovered ->
  NoDup (map sx_upstream_model_id discovered) -> bt_wf (as_before_by_id st) ->
  (forall r, r ∈ discovered ->
     bt_get (as_before_by_id st) (sx_upstream_model_id r) = prev (sx_upstream_model_id r)) ->
  apply_models now discovered st db = Ok (st', db') -> exists rows,
    models_step now discovered rows db db'
    /\ as_records st' = as_records st ++ rows
    /\ (forall kv, kv ∈ as_before_by_id st'
          <-> kv ∈ as_before_by_id st /\ kv.1 ∉ map sx_upstream_model_id discovered)
    /\ bt_wf (as_before_by_id st')
    /\ dd_added (as_diff st') = dd_added (as_diff st) ++ omap (added_entry prev) (zip discovered rows)
    /\ dd_changed (as_diff st') = dd_changed (as_diff st) ++ omap (changed_entry prev) (zip discovered rows)
    /\ dd_missing (as_diff st') = dd_missing (as_diff st).
Proof.
  induction discovered as [|r discovered IH]; intros st db st' db' Ht Hw Hs Hnd Hb Hp; cbn [apply_models].
  { intros [= <- <-]. exists []. cbn. rewrite !app_nil_r. split; [|split_and!; try done].
    - split; [by destruct db|constructor|done|done].
    - intros kv. rewrite elem_of_nil. tauto. }
  intros (st1 & db1 & H1 & H2)%tx_bind_inv. apply Forall_cons in Hw as [Hwr Hw]. apply Forall_cons in Hs as [Hsr Hs].
  cbn in Hnd. apply NoDup_cons in Hnd as [Hr Hnd].
  destruct (apply_model_inv now r st db st1 db1 prev (Hp r (list_elem_of_here _ _)) H1)
    as (row & Htx & Hb1 & Hrec1 & Ha1 & Hc1 & Hm1).
  destruct (refresh_typed _ _ _ _ _ Ht Hwr Htx) as [Ht1 Hrow]. apply refresh_inv in Htx as (_ & Hrr & Hdb1 & _ & _).
  assert (forall r', r' ∈ discovered -> sx_upstream_model_id r' <> sx_upstream_model_id r) as Hne.
  { intros r' Hr' Heq. apply Hr. rewrite <- Heq. by apply (list_elem_of_fmap_2 sx_upstream_model_id). }
  destruct (IH st1 db1 st' db' Ht1 Hw Hs Hnd) as (rows & [Hrest Hrows Hother Htyped] & Hrec & Hbefore & Hbwf & Ha & Hc & Hm);
    [rewrite Hb1; by apply bt_remove_wf| |done|].
  { intros r' Hr'. rewrite Hb1, bt_remove_get_ne by (done || by apply Hne). apply Hp. by apply list_elem_of_further. }
  assert (refresh_key r ∉ map refresh_key discovered) as Hkey.
  { intros Hk. apply list_elem_of_fmap in Hk as (r' & Heq & Hr'). apply (Hne r' Hr').
    unfold refresh_key in Heq. congruence. }
  exists (row :: rows). split; [|split_and!].
  - split; [|constructor| |done].
    + rewrite Hrest, Hdb1. by destruct db.
    + split_and!; [done| |].
      * rewrite Hother, Hdb1 by done. cbn. by rewrite lookup_insert_eq.
      * pose proof (ro_key _ _ _ Hrow) as Hk. unfold refresh_key in Hk. congruence.
    + eapply Forall2_impl_l; [exact Hrows|]. intros r' row' Hr' (Hrr' & Hl & Hi). split_and!; [|done|done].
      rewrite Hdb1 in Hrr'. cbn in Hrr'. rewrite lookup_insert_ne in Hrr'; [done|].
      unfold refresh_key. intros Heq. apply (Hne r' Hr'). congruence.
    + intros k Hk. cbn in Hk. rewrite elem_of_cons in Hk. rewrite Hother by tauto. rewrite Hdb1. cbn.
      rewrite lookup_insert_ne; [done|]. intros Heq. apply Hk. by left.
  - rewrite Hrec, Hrec1. by rewrite <- app_assoc.
  - intros kv. rewrite Hbefore, Hb1, bt_remove_in. cbn. rewrite elem_of_cons. tauto.
  - done.
  - rewrite Ha, Ha1, <- app_assoc. f_equal. symmetry. exact (omap_app (added_entry prev) [(r, row)] _).
  - rewrite Hc, Hc1, <- app_assoc. f_equal. symmetry. exact (omap_app (changed_entry prev) [(r, row)] _).
  - by rewrite Hm, Hm1.
Qed.

(** *** The models that were not discovered *)

Definition missing_row (completed_at now : Z) (row : SourceModelRecord) : SourceModelRecord :=
  if bool_decide (sm_availability_status row = CaUnavailable) then row else unavailable_row row completed_at now.

Definition missing_entry (kv : string * SourceModelRecord) : option DiscoveryDiffEntry :=
  if bool_decide (sm_availability_status kv.2 = CaUnavailable) then None
  else Some (mkDiscoveryDiffEntry kv.1 ["availability_status"]).

Lemma missing_row_ok completed_at now db k row : model_row_ok db k row -> model_row_ok db k (missing_row completed_at now row).
Proof. unfold missing_row. case_bool_decide; [done|]. intros [Hk Hs Hm Hst Hc Hu Hp]. split; done. Qed.

Lemma apply_missing_inv source completed_at now id previous diff records db dr db' :
  models_typed db -> cd_source_models db !! (source, id) = Some previous ->
  apply_missing source completed_at now previous diff records db = Ok (dr, db') ->
  cd_source_models db' = <[(source, id) := missing_row completed_at now previous]> (cd_source_models db)
  /\ db' = set_source_models db (cd_source_models db') /\ models_typed db'
  /\ dd_added dr.1 = dd_added diff /\ dd_changed dr.1 = dd_changed diff
  /\ dd_missing dr.1 = dd_missing diff ++ omap missing_entry [(id, previous)].
Proof.
  intros Ht Hl. pose proof (Ht _ _ Hl) as Hok. pose proof (ro_key _ _ _ Hok) as [= _ Hid].
  pose proof (missing_row_ok completed_at now _ _ _ Hok) as Hmok.
  unfold apply_missing, missing_row in *.
  assert (omap missing_entry [(id, previous)] = match missing_entry (id, previous) with Some e => [e] | None => [] end) as -> by done.
  unfold missing_entry. cbn [fst snd]. case_bool_decide as Ha.
  - intros [= <- <-]. rewrite insert_id by done. cbn. rewrite app_nil_r. split_and!; [done|by destruct db|done..].
  - intros (cur & s & Hm & [= <- <-])%tx_bind_inv. unfold mark_unavailable in Hm. rewrite <- Hid, Hl in Hm.
    injection Hm as <- <-. cbn. rewrite <- Hid. split_and!; [done|done| |done..]. by apply typed_write.
Qed.

Lemma apply_all_missing_inv source completed_at now before : forall diff records db dr db',
  models_typed db -> NoDup before.*1 ->
  (forall id row, (id, row) ∈ before -> cd_source_models db !! (source, id) = Some row) ->
  apply_all_missing source completed_at now before diff records db = Ok (dr, db') ->
  db' = set_source_models db (cd_source_models db') /\ models_typed db'
  /\ (forall id row, (id, row) ∈ before ->
        cd_source_models db' !! (source, id) = Some (missing_row completed_at now row))
  /\ (forall k, k.1 <> source \/ k.2 ∉ before.*1 -> cd_source_models db' !! k = cd_source_models db !! k)
  /\ dd_added dr.1 = dd_added diff /\ dd_changed dr.1 = dd_changed diff
  /\ dd_missing dr.1 = dd_missing diff ++ omap missing_entry before.
Proof.
  induction before as [|[id row] before IH]; intros diff records db dr db' Ht Hnd Hin; cbn [apply_all_missing].
  { intros [= <- <-]. cbn. rewrite app_nil_r. split_and!; [by destruct db|done| |done..].
    intros i r Hi. by apply elem_of_nil in Hi. }
  intros (dr1 & db1 & H1 & H2)%tx_bind_inv. cbn in Hnd. apply NoDup_cons in Hnd as [Hid Hnd].
  assert (cd_source_models db !! (source, id) = Some row) as Hrow by (apply Hin; by left).
  destruct (apply_missing_inv _ _ _ _ _ _ _ _ _ _ Ht Hrow H1) as (Hm1 & Hdb1 & Ht1 & Ha1 & Hc1 & Hx1).
  assert (forall i r, (i, r) ∈ before -> i <> id) as Hne.
  { intros i r Hi ->. apply Hid. by apply (list_elem_of_fmap_2 fst before (id, r)). }
  destruct (IH dr1.1 dr1.2 db1 dr db' Ht1 Hnd) as (Hrest & Htyped & Hrows & Hother & Ha & Hc & Hx); [|done|].
  { intros i r Hi. rewrite Hm1, lookup_insert_ne; [apply Hin; by right|]. intros [= Heq]. by apply (Hne i r Hi). }
  split_and!; [rewrite Hrest, Hdb1; by destruct db|done| | |by rewrite Ha|by rewrite Hc|].
  - intros i r [[= -> ->]|Hi]%elem_of_cons; [|by apply Hrows]. rewrite Hother by (by right). rewrite Hm1.
    by rewrite lookup_insert_eq.
  - intros k Hk. cbn in Hk. rewrite elem_of_cons in Hk. rewrite Hother by tauto. rewrite Hm1, lookup_insert_ne; [done|].
    intros <-. cbn in Hk. destruct Hk as [Hk|Hk]; [done|]. apply Hk. by left.
  - rewrite Hx, Hx1, <- app_assoc. f_equal. symmetry. exact (omap_app missing_entry [(id, row)] before).
Qed.

Lemma omap_NoDup {A B K} (f : A -> option B) (g : A -> K) (h : B -> K) l :
  (forall x y, x ∈ l -> f x = Some y -> h y = g x) -> NoDup (map g l) -> NoDup (map h (omap f l)).
Proof.
  induction l as [|x l IH]; intros Hf Hnd; cbn; [constructor|]. cbn in Hnd. apply NoDup_cons in Hnd as [Hx Hnd].
  assert (NoDup (map h (omap f l))) as Hl by (apply IH; [|done]; intros; apply Hf; [by right|done]).
  destruct (f x) as [y|] eqn:E; [|done]. cbn. apply NoDup_cons. split; [|done].
  rewrite (Hf x y (list_elem_of_here _ _) E). intros Hin. apply Hx. apply list_elem_of_fmap in Hin as (y' & Heq & Hy').
  apply list_elem_of_omap in Hy' as (x' & Hx' & E'). rewrite Heq, (Hf x' y') by (done || by right).
  by apply (list_elem_of_fmap_2 g).
Qed.

Lemma source_rows_in db source id row :
  (id, row) ∈ source_rows db source <-> cd_source_models db !! (source, id) = Some row.
Proof.
  unfold source_rows. set (f := fun kv : string * string * SourceModelRecord => _).
  assert (NoDup (omap f (map_to_list (cd_source_models db))).*1) as Hnd.
  { eapply (NoDup_fmap_1 (fun id : string => (source, id))). rewrite <- list_fmap_compose.
    apply (omap_NoDup f fst); [|apply NoDup_fst_map_to_list].
    intros [[s i] r] [i' r'] _. unfold f. cbn. destruct (String.eqb_spec s source); [|done]. intros [= <- <-]. by subst. }
  rewrite bt_collect_in by done. rewrite list_elem_of_omap. split.
  - intros ([[s i] r] & Hin & Hf). apply elem_of_map_to_list in Hin. unfold f in Hf. cbn in Hf.
    destruct (String.eqb_spec s source); [|done]. injection Hf as <- <-. by subst.
  - intros Hl. exists (source, id, row). split; [by apply elem_of_map_to_list|]. unfold f. cbn. by rewrite String.eqb_refl.
Qed.

Lemma source_rows_get db source id : bt_get (source_rows db source) id = cd_source_models db !! (source, id).
Proof.
  apply option_eq. intros row. rewrite bt_get_in by apply bt_collect_wf. apply source_rows_in.
Qed.

(** *** A whole discovery *)

Lemma adjacent_distinct l :
  StronglySorted (fun a b : string => kcmp a b <> Gt) l -> adjacent_equal l = false -> NoDup l.
Proof.
  intros Hs Ha. assert (StronglySorted klt l) as Hl.
  { induction Hs as [|a l Hs IH Hf]; [constructor|]. destruct l as [|b l]; [by repeat constructor|].
    cbn [adjacent_equal] in Ha. apply orb_false_iff in Ha as [Hab Ha]. specialize (IH Ha).
    apply Forall_cons in Hf as [Hb Hf]. assert (klt a b) as Hlt.
    { unfold klt. destruct (kcmp a b) eqn:E; [|done|done]. apply kcmp_eq in E as ->. by rewrite String.eqb_refl in Hab. }
    constructor; [done|]. constructor; [done|]. apply StronglySorted_inv in IH as [_ IH].
    eapply Forall_impl; [exact IH|]. intros c Hc. by transitivity b. }
  clear Hs Ha. induction Hl as [|a l _ IH Hf]; constructor; [|done]. intros Hin.
  rewrite Forall_forall in Hf. apply (klt_irrefl a). by apply Hf.
Qed.

Lemma key_sorted {A} (key : A -> string) l :
  StronglySorted (fun a b : string => kcmp a b <> Gt) (map key (sort_by key l)).
Proof.
  pose proof (sort_by_sorted key l) as Hs. induction Hs as [|x k _ IH Hf]; cbn; constructor; [done|].
  apply Forall_forall. intros j Hj. apply list_elem_of_fmap in Hj as (y & -> & Hy). rewrite Forall_forall in Hf.
  by apply Hf.
Qed.

Lemma validate_discovered_inv source l :
  validate_discovered source l = Ok tt -> Forall (fun r => sx_source_id r = source) l.
Proof.
  induction l as [|r l IH]; cbn [validate_discovered]; [constructor|].
  destruct (validate_source_model_refresh r) as [[]|]; cbn [rbind]; [|done].
  destruct (String.eqb_spec (sx_source_id r) source); cbn [negb]; [|done]. constructor; auto.
Qed.

Lemma check_apply_inv input discovered :
  check_apply input = Ok discovered ->
  discovered = sort_by sx_upstream_model_id (ai_models input)
  /\ NoDup (map sx_upstream_model_id discovered) /\ Forall (fun r => sx_source_id r = ai_source_id input) discovered.
Proof.
  unfold check_apply. do 3 (destruct (_ : bool); [done|]). destruct (adjacent_equal _) eqn:Ea; [done|].
  destruct (validate_discovered _ _) as [[]|] eqn:Ev; cbn [rbind]; [|done]. intros [= <-]. split; [done|].
  split; [by apply adjacent_distinct; [apply key_sorted|]|by apply validate_discovered_inv].
Qed.

(** The ids of sorted entries, and their fields. *)
Lemma sort_entries_sorted l :
  NoDup (map de_upstream_model_id l) -> StronglySorted klt (map de_upstream_model_id (sort_entries l)).
Proof. intros Hnd. unfold sort_entries. rewrite map_map. cbn. by apply sort_by_strict. Qed.

Lemma elem_of_sort_entries l e :
  e ∈ sort_entries l <-> exists fields, mkDiscoveryDiffEntry (de_upstream_model_id e) fields ∈ l
                           /\ de_changed_fields e = sort_by id fields.
Proof.
  unfold sort_entries. rewrite list_elem_of_fmap. split.
  - intros (e0 & -> & He). apply elem_of_sort_by in He. exists (de_changed_fields e0). by destruct e0.
  - intros (fields & He & Hf). exists (mkDiscoveryDiffEntry (de_upstream_model_id e) fields). cbn.
    split; [by destruct e as [i f]; cbn in *; rewrite Hf|by apply elem_of_sort_by].
Qed.

(** What a successful discovery of a source does to the catalogue, and what it
    reports. *)
Record discovery_applied (input : DiscoveryApplyInput) (now : Z) (db db' : CatalogDb)
    (res : DiscoveryApplyResult) : Prop := {
  (** Every discovered model has exactly the row a refresh writes. *)
  dp_discovered : forall r, r ∈ ai_models input -> exists row,
    refreshed_record (cd_source_models db !! refresh_key r) r now = Ok row
    /\ cd_source_models db' !! refresh_key r = Some row;
  (** Every other model of the source stays, and is unavailable. *)
  dp_missing : forall model row,
    cd_source_models db !! (ai_source_id input, model) = Some row ->
    model ∉ map sx_upstream_model_id (ai_models input) ->
    cd_source_models db' !! (ai_source_id input, model) = Some (missing_row (ai_completed_at input) now row);
  (** Nothing else changes but the log of runs. *)
  dp_other : forall k, k.1 <> ai_source_id input ->
    cd_source_models db' !! k = cd_source_models db !! k;
  dp_no_new : forall model, cd_source_models db !! (ai_source_id input, model) = None ->
    model ∉ map sx_upstream_model_id (ai_models input) -> cd_source_models db' !! (ai_source_id input, model) = None;
  dp_rest : db' = set_runs (set_source_models db (cd_source_models db')) (cd_runs db ++ [da_run res]);
  (** The difference is exact. *)
  dp_added : forall model, model ∈ map de_upstream_model_id (dd_added (da_diff res))
    <-> model ∈ map sx_upstream_model_id (ai_models input)
        /\ cd_source_models db !! (ai_source_id input, model) = None;
  dp_changed : forall e, e ∈ dd_changed (da_diff res) <-> exists old new,
    de_upstream_model_id e ∈ map sx_upstream_model_id (ai_models input)
    /\ cd_source_models db !! (ai_source_id input, de_upstream_model_id e) = Some old
    /\ cd_source_models db' !! (ai_source_id input, de_upstream_model_id e) = Some new
    /\ changed_source_model_fields old new <> []
    /\ de_changed_fields e = sort_by id (changed_source_model_fields old new);
  dp_now_missing : forall model, model ∈ map de_upstream_model_id (dd_missing (da_diff res))
    <-> exists row, cd_source_models db !! (ai_source_id input, model) = Some row
        /\ model ∉ map sx_upstream_model_id (ai_models input) /\ sm_availability_status row <> CaUnavailable;
  dp_sorted : StronglySorted klt (map de_upstream_model_id (dd_added (da_diff res)))
    /\ StronglySorted klt (map de_upstream_model_id (dd_changed (da_diff res)))
    /\ StronglySorted klt (map de_upstream_model_id (dd_missing (da_diff res)));
  (** The run records it. *)
  dp_run : dr_status (da_run res) = "succeeded" /\ dr_diff (da_run res) = diff_to_value (da_diff res)
    /\ dr_discovered_model_count (da_run res) = Z.of_nat (length (ai_models input));
}.

(** The rows of the discovered models, paired with their refreshes. *)
Lemma zip_rows now discovered rows db db' r row :
  models_step now discovered rows db db' -> (r, row) ∈ zip discovered rows ->
  r ∈ discovered /\ cd_source_models db' !! refresh_key r = Some row /\ sm_upstream_model_id row = sx_upstream_model_id r.
Proof.
  intros [_ Hrows _ _]. induction Hrows as [|r' row' d rs (_ & Hl & Hi) _ IH]; cbn; [by intros ?%elem_of_nil|].
  rewrite !elem_of_cons. intros [[= -> ->]|Hin]; [auto|]. destruct (IH Hin) as (? & ? & ?). auto.
Qed.

Lemma zip_rows_all now discovered rows db db' r :
  models_step now discovered rows db db' -> r ∈ discovered -> exists row, (r, row) ∈ zip discovered rows.
Proof.
  intros [_ Hrows _ _] Hin. apply list_elem_of_lookup in Hin as [i Hi].
  destruct (Forall2_lookup_l _ _ _ _ _ Hrows Hi) as (row & Hrow & _). exists row. apply list_elem_of_lookup. exists i.
  rewrite lookup_zip_with, Hi. cbn. by rewrite Hrow.
Qed.

Lemma zip_fst_ids now discovered rows db db' :
  models_step now discovered rows db db' ->
  map (fun p : SourceModelRefresh * SourceModelRecord => sx_upstream_model_id p.1) (zip discovered rows)
  = map sx_upstream_model_id discovered.
Proof.
  intros [_ Hrows _ _]. induction Hrows as [|r row d rs _ _ IH]; cbn; [done|]. by f_equal.
Qed.

(** The two loops, as one fact. *)
Record discovery_steps (input : DiscoveryApplyInput) (now : Z) (db db' : CatalogDb) (res : DiscoveryApplyResult)
    (discovered : list SourceModelRefresh) (rows : list SourceModelRecord) (before : list (string * SourceModelRecord))
    (db1 db2 : CatalogDb) : Prop := {
  dt_perm : discovered ≡ₚ ai_models input;
  dt_nodup : NoDup (map sx_upstream_model_id discovered);
  dt_source : forall r, r ∈ discovered -> sx_source_id r = ai_source_id input;
  dt_models : models_step now discovered rows db db1;
  dt_before : forall id row, (id, row) ∈ before <->
    cd_source_models db !! (ai_source_id input, id) = Some row /\ id ∉ map sx_upstream_model_id discovered;
  dt_before_nodup : NoDup before.*1;
  dt_rest : db2 = set_source_models db1 (cd_source_models db2);
  dt_typed : models_typed db2;
  dt_rows : forall id row, (id, row) ∈ before ->
    cd_source_models db2 !! (ai_source_id input, id) = Some (missing_row (ai_completed_at input) now row);
  dt_other : forall k, k.1 <> ai_source_id input \/ k.2 ∉ before.*1 ->
    cd_source_models db2 !! k = cd_source_models db1 !! k;
  dt_added : dd_added (da_diff res)
    = sort_entries (omap (added_entry (fun id => cd_source_models db !! (ai_source_id input, id))) (zip discovered rows));
  dt_changed : dd_changed (da_diff res)
    = sort_entries (omap (changed_entry (fun id => cd_source_models db !! (ai_source_id input, id))) (zip discovered rows));
  dt_missing : dd_missing (da_diff res) = sort_entries (omap missing_entry before);
  dt_run : exists source run_id, cd_sources db !! ai_source_id input = Some source
    /\ da_run res = succeeded_run input source (da_diff res) run_id;
  dt_db : db' = set_runs db2 (cd_runs db2 ++ [da_run res]);
}.

Lemma discovery_steps_exist input run_id now db res db' :
  models_typed db -> Forall refresh_wf (ai_models input) ->
  apply_discovery input run_id now db = (Ok res, db') ->
  exists discovered rows before db1 db2, discovery_steps input now db db' res discovered rows before db1 db2.
Proof.
  intros Ht Hw. unfold apply_discovery. destruct (check_apply input) as [discovered|] eqn:Ec; [|done].
  apply check_apply_inv in Ec as (Hd & Hnd & Hsrc). rewrite run_tx_ok. unfold apply_discovery_tx.
  set (src := ai_source_id input) in *.
  intros (source & s0 & H0 & HX)%tx_bind_inv. unfold get_source, ok_or in H0.
  destruct (cd_sources db !! src) as [so|] eqn:Eso; [|done]. injection H0 as <- <-.
  apply tx_bind_inv in HX as (u & s1 & Hacc & HX). assert (s1 = db) as ->.
  { unfold validate_account_for_source in Hacc. destruct (ai_account_id input); [|congruence].
    destruct (cd_accounts db !! _); [|done]. destruct (_ && _); congruence. }
  apply tx_bind_inv in HX as (before0 & s2 & [= <- <-] & HX).
  apply tx_bind_inv in HX as (st & db1 & Hst & HX). apply tx_bind_inv in HX as (dr & db2 & Hdr & HX).
  apply tx_bind_inv in HX as (v & s3 & [_ ->]%tx_of_inv & HX). apply tx_bind_inv in HX as (w & s4 & [= _ <-] & [= <- <-]).
  assert (discovered ≡ₚ ai_models input) as Hperm by (rewrite Hd; apply sort_by_perm).
  assert (Forall refresh_wf discovered) as Hw' by (by rewrite Hperm).
  set (prev := fun id => cd_source_models db !! (src, id)).
  destruct (apply_models_inv now src prev discovered (mkApplyState (source_rows db src) empty_diff []) db st db1)
    as (rows & Hms & _ & Hb & Hbwf & Ha & Hc & Hm); [done|done|done|done|apply bt_collect_wf| |done|].
  { intros r _. apply source_rows_get. }
  cbn in Hb, Ha, Hc, Hm.
  assert (forall id row, (id, row) ∈ as_before_by_id st <->
    cd_source_models db !! (src, id) = Some row /\ id ∉ map sx_upstream_model_id discovered) as Hbefore.
  { intros id row. rewrite Hb, source_rows_in. done. }
  destruct (apply_all_missing_inv src (ai_completed_at input) now (as_before_by_id st) (as_diff st) (as_records st)
              db1 dr db2) as (Hr & Htyp & Hrows & Hoth & Ha2 & Hc2 & Hm2);
    [apply Hms|by apply bt_wf_nodup| |done|].
  { intros id row [Hl Hn]%Hbefore. rewrite (ms_other _ _ _ _ _ Hms); [done|].
    intros Hk. apply list_elem_of_fmap in Hk as (r & [= _ Hk] & Hin). apply Hn. rewrite Hk.
    by apply (list_elem_of_fmap_2 sx_upstream_model_id). }
  exists discovered, rows, (as_before_by_id st), db1, db2.
  split; try done; cbn.
  - intros r Hr'. rewrite Forall_forall in Hsrc. by apply Hsrc.
  - by apply bt_wf_nodup.
  - by rewrite Ha2, Ha.
  - by rewrite Hc2, Hc.
  - by rewrite Hm2, Hm.
  - eauto.
Qed.

(** The tables and the difference, from the two loops. *)
Section Steps.
Context (input : DiscoveryApplyInput) (now : Z) (db db' : CatalogDb) (res : DiscoveryApplyResult)
  (discovered : list SourceModelRefresh) (rows : list SourceModelRecord) (before : list (string * SourceModelRecord))
  (db1 db2 : CatalogDb) (T : discovery_steps input now db db' res discovered rows before db1 db2).

Let src := ai_source_id input.
Let ids := map sx_upstream_model_id (ai_models input).

Lemma steps_models : cd_source_models db' = cd_source_models db2.
Proof. by rewrite (dt_db _ _ _ _ _ _ _ _ _ _ T). Qed.

Lemma steps_ids id : id ∈ map sx_upstream_model_id discovered <-> id ∈ ids.
Proof. unfold ids. by rewrite (dt_perm _ _ _ _ _ _ _ _ _ _ T). Qed.

Lemma steps_before id : id ∈ before.*1 -> id ∉ ids.
Proof.
  intros ([i row] & -> & Hin)%list_elem_of_fmap. apply (dt_before _ _ _ _ _ _ _ _ _ _ T) in Hin as [_ Hn].
  by rewrite steps_ids in Hn.
Qed.

Lemma steps_fresh id : id ∉ ids -> (src, id) ∉ map refresh_key discovered.
Proof.
  intros Hn Hk. apply list_elem_of_fmap in Hk as (r & [= _ Hk] & Hin). apply Hn, steps_ids. rewrite Hk.
  by apply (list_elem_of_fmap_2 sx_upstream_model_id).
Qed.

Lemma steps_discovered r : r ∈ discovered -> exists row,
  (r, row) ∈ zip discovered rows /\ refreshed_record (cd_source_models db !! refresh_key r) r now = Ok row
  /\ cd_source_models db' !! refresh_key r = Some row.
Proof.
  intros Hin. pose proof (dt_models _ _ _ _ _ _ _ _ _ _ T) as Hms.
  destruct (zip_rows_all _ _ _ _ _ r Hms Hin) as [row Hz]. exists row. split; [done|].
  pose proof Hin as Hin'. apply list_elem_of_lookup in Hz as [i Hi]. rewrite lookup_zip_with in Hi.
  destruct (discovered !! i) as [r'|] eqn:Er; [|done]. cbn in Hi. destruct (rows !! i) as [row'|] eqn:Erow; [|done].
  injection Hi as -> ->. destruct (Forall2_lookup_lr _ _ _ _ _ _ (ms_rows _ _ _ _ _ Hms) Er Erow) as (Hrr & Hl & _).
  split; [done|]. rewrite steps_models, (dt_other _ _ _ _ _ _ _ _ _ _ T); [done|]. right. cbn. intros Hb.
  apply (steps_before _ Hb), steps_ids. by apply (list_elem_of_fmap_2 sx_upstream_model_id).
Qed.

Lemma steps_key r : r ∈ discovered -> refresh_key r = (src, sx_upstream_model_id r).
Proof. intros Hin. unfold refresh_key. by rewrite (dt_source _ _ _ _ _ _ _ _ _ _ T r Hin). Qed.

Lemma steps_zip r row : (r, row) ∈ zip discovered rows ->
  r ∈ discovered /\ cd_source_models db' !! (src, sx_upstream_model_id r) = Some row
  /\ sm_upstream_model_id row = sx_upstream_model_id r.
Proof.
  intros Hz. pose proof (dt_models _ _ _ _ _ _ _ _ _ _ T) as Hms.
  destruct (zip_rows _ _ _ _ _ _ _ Hms Hz) as (Hin & Hl & Hi). split; [done|]. split; [|done].
  rewrite <- steps_key by done. destruct (steps_discovered r Hin) as (row' & Hz' & _ & Hl').
  rewrite Hl'. f_equal. rewrite steps_models in Hl'.
  rewrite (dt_other _ _ _ _ _ _ _ _ _ _ T) in Hl'; [congruence|]. right. cbn. intros Hb.
  apply (steps_before _ Hb), steps_ids. by apply (list_elem_of_fmap_2 sx_upstream_model_id).
Qed.

Lemma entry_ids_NoDup (f : SourceModelRefresh * SourceModelRecord -> option DiscoveryDiffEntry) :
  (forall p e, f p = Some e -> de_upstream_model_id e = sm_upstream_model_id p.2) ->
  NoDup (map de_upstream_model_id (omap f (zip discovered rows))).
Proof.
  intros Hf. apply (omap_NoDup f (fun p => sx_upstream_model_id p.1)).
  - intros [r row] e Hz He. rewrite (Hf _ _ He). cbn. by apply steps_zip in Hz as (_ & _ & ->).
  - rewrite (zip_fst_ids _ _ _ _ _ (dt_models _ _ _ _ _ _ _ _ _ _ T)). apply T.
Qed.

Lemma added_entry_id prev p e : added_entry prev p = Some e -> de_upstream_model_id e = sm_upstream_model_id p.2.
Proof. unfold added_entry. destruct (prev _); [done|]. by intros [= <-]. Qed.

Lemma changed_entry_id prev p e : changed_entry prev p = Some e -> de_upstream_model_id e = sm_upstream_model_id p.2.
Proof. unfold changed_entry. destruct (prev _); [|done]. destruct (changed_source_model_fields _ _); [done|]. by intros [= <-]. Qed.

Lemma elem_of_sorted_ids l model :
  model ∈ map de_upstream_model_id (sort_entries l) <-> model ∈ map de_upstream_model_id l.
Proof.
  rewrite !list_elem_of_fmap. split.
  - intros (e & -> & (fields & He & _)%elem_of_sort_entries). by exists (mkDiscoveryDiffEntry (de_upstream_model_id e) fields).
  - intros (e & -> & He). exists (mkDiscoveryDiffEntry (de_upstream_model_id e) (sort_by id (de_changed_fields e))).
    split; [done|]. apply elem_of_sort_entries. exists (de_changed_fields e). by destruct e.
Qed.

Lemma steps_added model : model ∈ map de_upstream_model_id (dd_added (da_diff res))
  <-> model ∈ ids /\ cd_source_models db !! (src, model) = None.
Proof.
  rewrite (dt_added _ _ _ _ _ _ _ _ _ _ T), elem_of_sorted_ids, list_elem_of_fmap. split.
  - intros (e & -> & ([r row] & Hz & He)%list_elem_of_omap). pose proof (added_entry_id _ _ _ He) as Hid. cbn in Hid.
    apply steps_zip in Hz as (Hin & _ & Hi). rewrite Hid, Hi. split.
    + apply steps_ids. by apply (list_elem_of_fmap_2 sx_upstream_model_id).
    + unfold added_entry in He. cbn in He. fold src in He. by destruct (cd_source_models db !! _).
  - intros [Hin Hn]. apply steps_ids, list_elem_of_fmap in Hin as (r & -> & Hin).
    destruct (steps_discovered r Hin) as (row & Hz & _). pose proof (steps_zip _ _ Hz) as (_ & _ & Hi).
    exists (mkDiscoveryDiffEntry (sm_upstream_model_id row) ["source_model"]). split; [by rewrite Hi|].
    apply list_elem_of_omap. exists (r, row). split; [done|]. unfold added_entry. cbn. fold src. by rewrite Hn.
Qed.

Lemma steps_changed e : e ∈ dd_changed (da_diff res) <-> exists old new,
  de_upstream_model_id e ∈ ids
  /\ cd_source_models db !! (src, de_upstream_model_id e) = Some old
  /\ cd_source_models db' !! (src, de_upstream_model_id e) = Some new
  /\ changed_source_model_fields old new <> []
  /\ de_changed_fields e = sort_by id (changed_source_model_fields old new).
Proof.
  rewrite (dt_changed _ _ _ _ _ _ _ _ _ _ T), elem_of_sort_entries. split.
  - intros (fields & ([r row] & Hz & He)%list_elem_of_omap & Hf). unfold changed_entry in He. cbn in He.
    destruct (steps_zip _ _ Hz) as (Hin & Hl & Hi). fold src in He.
    destruct (cd_source_models db !! (src, sx_upstream_model_id r)) as [old|] eqn:Eo; [|done].
    destruct (changed_source_model_fields old row) as [|f fs] eqn:Ec; [done|]. injection He as He <-.
    assert (de_upstream_model_id e = sx_upstream_model_id r) as -> by congruence.
    exists old, row. rewrite Ec. split_and!; [|done|done|done|done].
    apply steps_ids. by apply (list_elem_of_fmap_2 sx_upstream_model_id).
  - intros (old & new & Hin & Ho & Hn & Hc & Hf). exists (changed_source_model_fields old new). split; [|done].
    apply steps_ids, list_elem_of_fmap in Hin as (r & Hr & Hin). rewrite Hr in *.
    destruct (steps_discovered r Hin) as (row & Hz & _). destruct (steps_zip _ _ Hz) as (_ & Hl & Hi).
    assert (row = new) as -> by congruence. apply list_elem_of_omap. exists (r, new). split; [done|].
    unfold changed_entry. cbn. fold src. rewrite Ho. destruct (changed_source_model_fields old new); [done|]. by rewrite Hi.
Qed.

Lemma missing_entry_id p e : missing_entry p = Some e -> de_upstream_model_id e = p.1.
Proof. unfold missing_entry. case_bool_decide; [done|]. by intros [= <-]. Qed.

Lemma steps_missing model : model ∈ map de_upstream_model_id (dd_missing (da_diff res))
  <-> exists row, cd_source_models db !! (src, model) = Some row /\ model ∉ ids
                  /\ sm_availability_status row <> CaUnavailable.
Proof.
  rewrite (dt_missing _ _ _ _ _ _ _ _ _ _ T), elem_of_sorted_ids, list_elem_of_fmap. split.
  - intros (e & -> & ([i row] & Hin & He)%list_elem_of_omap). rewrite (missing_entry_id _ _ He). cbn.
    apply (dt_before _ _ _ _ _ _ _ _ _ _ T) in Hin as [Hl Hn]. exists row. rewrite <- steps_ids. split_and!; [done|done|].
    unfold missing_entry in He. cbn in He. by case_bool_decide.
  - intros (row & Hl & Hn & Ha). exists (mkDiscoveryDiffEntry model ["availability_status"]). split; [done|].
    apply list_elem_of_omap. exists (model, row). split; [apply T; by rewrite steps_ids|].
    unfold missing_entry. cbn. by rewrite bool_decide_false.
Qed.

Lemma steps_sorted :
  StronglySorted klt (map de_upstream_model_id (dd_added (da_diff res)))
  /\ StronglySorted klt (map de_upstream_model_id (dd_changed (da_diff res)))
  /\ StronglySorted klt (map de_upstream_model_id (dd_missing (da_diff res))).
Proof.
  rewrite (dt_added _ _ _ _ _ _ _ _ _ _ T), (dt_changed _ _ _ _ _ _ _ _ _ _ T), (dt_missing _ _ _ _ _ _ _ _ _ _ T).
  split_and!; apply sort_entries_sorted; [apply entry_ids_NoDup, added_entry_id|apply entry_ids_NoDup, changed_entry_id|].
  apply (omap_NoDup missing_entry fst); [|apply T]. intros p e _. apply missing_entry_id.
Qed.

Lemma steps_applied : discovery_applied input now db db' res.
Proof.
  pose proof (dt_models _ _ _ _ _ _ _ _ _ _ T) as Hms. split.
  - intros r Hin. rewrite <- (dt_perm _ _ _ _ _ _ _ _ _ _ T) in Hin.
    destruct (steps_discovered r Hin) as (row & _ & Hr & Hl). eauto.
  - intros model row Hl Hn. rewrite steps_models. apply T. apply T. by rewrite steps_ids.
  - intros k Hk. rewrite steps_models, (dt_other _ _ _ _ _ _ _ _ _ _ T) by (by left).
    apply (ms_other _ _ _ _ _ Hms). intros (r & -> & Hin)%list_elem_of_fmap. rewrite steps_key in Hk by done. done.
  - intros model Hl Hn. rewrite steps_models, (dt_other _ _ _ _ _ _ _ _ _ _ T).
    + by rewrite (ms_other _ _ _ _ _ Hms) by (by apply steps_fresh).
    + right. cbn. intros ([i row] & -> & Hin)%list_elem_of_fmap. apply T in Hin as [Hi _]. cbn in Hl. congruence.
  - rewrite (dt_db _ _ _ _ _ _ _ _ _ _ T) at 1. rewrite steps_models.
    pose proof (ms_rest _ _ _ _ _ Hms) as H1. pose proof (dt_rest _ _ _ _ _ _ _ _ _ _ T) as H2.
    assert (cd_runs db2 = cd_runs db) as -> by (rewrite H2, H1; done). rewrite H2 at 1. rewrite H1. by destruct db.
  - apply steps_added.
  - apply steps_changed.
  - apply steps_missing.
  - apply steps_sorted.
  - destruct (dt_run _ _ _ _ _ _ _ _ _ _ T) as (so & id & _ & ->). done.
Qed.
End Steps.

Lemma discovery_applied_ok input run_id now db res db' :
  models_typed db -> Forall refresh_wf (ai_models input) ->
  apply_discovery input run_id now db = (Ok res, db') ->
  discovery_applied input now db db' res /\ models_typed db'.
Proof.
  intros Ht Hw Ha. destruct (discovery_steps_exist _ _ _ _ _ _ Ht Hw Ha) as (d & rows & b & db1 & db2 & HT).
  split; [by eapply steps_applied|]. intros k row. rewrite (dt_db _ _ _ _ _ _ _ _ _ _ HT). cbn. intros Hl.
  destruct (dt_typed _ _ _ _ _ _ _ _ _ _ HT _ _ Hl). by split.
Qed.

(** C30. A discovery changes the catalogue exactly as it reports: it either fails
    and changes nothing, or every discovered model has the row its refresh
    writes, every other model of the source is kept and unavailable, no other
    source is touched, and the reported difference lists precisely the new
    models, the changed fields of known ones and the models that disappeared,
    each in order. *)
Theorem discovery_applied_exactly (input : DiscoveryApplyInput) (run_id now : Z) (db : CatalogDb)
    (Ht : models_typed db) (Hw : Forall refresh_wf (ai_models input)) :
  match apply_discovery input run_id now db with
  | (Ok res, db') => discovery_applied input now db db' res
  | (Err _, db') => db' = db
  end.
Proof.
  destruct (apply_discovery input run_id now db) as [[res|e] db'] eqn:Ea.
  - by eapply discovery_applied_ok.
  - unfold apply_discovery in Ea. destruct (check_apply input); [|congruence]. by apply run_tx_err in Ea.
Qed.

(** *** Discovering the same models again *)

Lemma unchanged_fields before after :
  sm_raw_snapshot before = sm_raw_snapshot after -> sm_metadata before = sm_metadata after ->
  sm_field_sources before = sm_field_sources after ->
  sm_matched_model_preset_id before = sm_matched_model_preset_id after ->
  sm_matched_model_preset_version before = sm_matched_model_preset_version after ->
  sm_availability_status before = sm_availability_status after -> changed_source_model_fields before after = [].
Proof. unfold changed_source_model_fields. intros -> -> -> -> -> ->. by rewrite !bool_decide_true. Qed.

Lemma json_row row m : (sm_metadata row, sm_field_sources row) = metadata_to_json m ->
  sm_metadata row = (metadata_to_json m).1 /\ sm_field_sources row = (metadata_to_json m).2.
Proof. by intros <-. Qed.

Lemma refreshed_record_twice db r now row1 now2 row2 :
  models_typed db -> refresh_wf r ->
  refreshed_record (cd_source_models db !! refresh_key r) r now = Ok row1 ->
  refreshed_record (Some row1) r now2 = Ok row2 -> changed_source_model_fields row1 row2 = [].
Proof.
  intros Ht [Hu Hp] H1 H2. unfold refreshed_record in H1, H2.
  destruct (map_err _ (resolve _ _)) as [d|] eqn:Ed; cbn [rbind] in H1, H2; [|done]. apply map_err_Ok in Ed.
  assert (exists m, metadata_ok m /\ (sm_metadata row1, sm_field_sources row1) = metadata_to_json m
    /\ sm_raw_snapshot row1 = sx_raw_snapshot r /\ sm_availability_status row1 = CaAvailable
    /\ (sm_confirmation_status row1 <> CsConfirmed ->
         refreshed_preserving_user_fields m false (sx_upstream_metadata r) (sx_preset_metadata r) = Ok m
         /\ preset_parts (sx_matched_preset r)
            = (sm_matched_model_preset_id row1, sm_matched_model_preset_version row1)))
    as (m & Hm & Hj & Hraw & Hav & Hnc).
  { destruct (cd_source_models db !! _) as [row0|] eqn:E0.
    - destruct (ro_metadata _ _ _ (Ht _ _ E0)) as (m0 & Hm0 & Hj0). rewrite (metadata_read m0 row0 Hm0 Hj0) in H1.
      cbn [rbind] in H1. destruct (map_err _ _) as [m|] eqn:Er in H1; cbn [rbind] in H1; [|done].
      apply map_err_Ok in Er. apply Ok_inj in H1. subst row1. exists m.
      split; [exact (refreshed_ok _ _ _ _ _ Hm0 Hu Hp Er)|].
      cbn -[refreshed_preserving_user_fields metadata_to_json]. split_and!; [symmetry; apply surjective_pairing|done|done|].
      intros Hn. rewrite bool_decide_false in Er |- * by done. split; [|apply surjective_pairing].
      exact (refreshed_twice _ _ _ _ Hm0 Hu Hp Er).
    - apply Ok_inj in H1. subst row1. exists d. split; [exact (resolve_ok _ _ _ Hu Hp Ed)|].
      unfold new_source_model. destruct (preset_parts _) as [pid pv] eqn:Ep.
      cbn -[refreshed_preserving_user_fields metadata_to_json].
      split_and!; [symmetry; apply surjective_pairing|done|done|]. intros _. split; [|done].
      exact (refreshed_resolved _ _ _ Hu Hp Ed). }
  rewrite (metadata_read m row1 Hm (eq_sym Hj)) in H2. cbn [rbind] in H2. apply json_row in Hj as [Hj1 Hj2].
  destruct (decide (sm_confirmation_status row1 = CsConfirmed)) as [Hc|Hc].
  - rewrite bool_decide_true in H2 by done. cbn [refreshed_preserving_user_fields map_err rbind] in H2.
    apply Ok_inj in H2. subst row2. by apply unchanged_fields; cbn.
  - rewrite bool_decide_false in H2 by done. destruct (Hnc Hc) as [Hrf Hpp]. rewrite Hrf, Hpp in H2.
    cbn [map_err rbind] in H2. apply Ok_inj in H2. subst row2. by apply unchanged_fields; cbn.
Qed.

(** Discovering the same models again reports no difference: after a
    successful discovery, a later discovery of the same models of the source
    (at other times, by another actor) that succeeds reports nothing added,
    changed or missing. *)
Theorem repeated_discovery_is_silent (input input' : DiscoveryApplyInput) (run_id run_id' now now' : Z)
    (db db1 db2 : CatalogDb) (res res' : DiscoveryApplyResult)
    (Ht : models_typed db) (Hw : Forall refresh_wf (ai_models input))
    (Hsource : ai_source_id input' = ai_source_id input) (Hmodels : ai_models input' = ai_models input)
    (Hfirst : apply_discovery input run_id now db = (Ok res, db1))
    (Hsecond : apply_discovery input' run_id' now' db1 = (Ok res', db2)) :
  da_diff res' = empty_diff.
Proof.
  destruct (discovery_applied_ok _ _ _ _ _ _ Ht Hw Hfirst) as [D1 Ht1]. rewrite <- Hmodels in Hw.
  destruct (discovery_steps_exist _ _ _ _ _ _ Ht1 Hw Hsecond) as (d & rows & b & x & y & T).
  pose proof (steps_applied _ _ _ _ _ _ _ _ _ _ T) as D2. rewrite Hmodels in Hw.
  assert (forall l : list DiscoveryDiffEntry, (forall e, e ∉ l) -> l = []) as Hnil
    by (intros [|e l] Hl; [done|]; destruct (Hl e); by left).
  destruct (da_diff res') as [added changed missing] eqn:Ed. unfold empty_diff. f_equal; apply Hnil; intros e He.
  - pose proof (dp_added _ _ _ _ _ D2 (de_upstream_model_id e)) as Ha. rewrite Ed in Ha.
    destruct (proj1 Ha (list_elem_of_fmap_2 de_upstream_model_id _ _ He)) as [Hin Hn].
    rewrite Hmodels in Hin. apply list_elem_of_fmap in Hin as (r & Hr & Hin).
    destruct (dp_discovered _ _ _ _ _ D1 r Hin) as (row & _ & Hl). rewrite Hsource, Hr in Hn.
    rewrite <- Hmodels, <- (dt_perm _ _ _ _ _ _ _ _ _ _ T) in Hin. apply (dt_source _ _ _ _ _ _ _ _ _ _ T) in Hin.
    unfold refresh_key in Hl. rewrite Hin, Hsource in Hl. congruence.
  - pose proof (dp_changed _ _ _ _ _ D2 e) as Hc. rewrite Ed in Hc.
    destruct (proj1 Hc He) as (old & new & Hin & Ho & Hn & Hf & _). destruct Hf.
    rewrite Hmodels in Hin. apply list_elem_of_fmap in Hin as (r & Hr & Hin).
    destruct (dp_discovered _ _ _ _ _ D1 r Hin) as (row1 & Hr1 & Hl1).
    assert (r ∈ ai_models input') as Hin' by (by rewrite Hmodels).
    destruct (dp_discovered _ _ _ _ _ D2 r Hin') as (row2 & Hr2 & Hl2).
    rewrite <- (dt_perm _ _ _ _ _ _ _ _ _ _ T) in Hin'. apply (dt_source _ _ _ _ _ _ _ _ _ _ T) in Hin'.
    assert (refresh_key r = (ai_source_id input', de_upstream_model_id e)) as Hk by (unfold refresh_key; congruence).
    rewrite Hk in Hl2. rewrite Hl1 in Hr2. rewrite Hk in Hl1.
    assert (old = row1) as -> by congruence. assert (new = row2) as -> by congruence.
    rewrite Forall_forall in Hw. exact (refreshed_record_twice _ _ _ _ _ _ Ht (Hw _ Hin) Hr1 Hr2).
  - pose proof (dp_now_missing _ _ _ _ _ D2 (de_upstream_model_id e)) as Hm. rewrite Ed in Hm.
    destruct (proj1 Hm (list_elem_of_fmap_2 de_upstream_model_id _ _ He)) as (row & Hl & Hn & Ha).
    rewrite Hmodels in Hn. rewrite Hsource in Hl. apply Ha.
    destruct (cd_source_models db !! (ai_source_id input, de_upstream_model_id e)) as [row0|] eqn:E0.
    + rewrite (dp_missing _ _ _ _ _ D1 _ _ E0 Hn) in Hl. injection Hl as <-. unfold missing_row. by case_bool_decide.
    + by rewrite (dp_no_new _ _ _ _ _ D1 _ E0 Hn) in Hl.
Qed.
End Rows.

(** ** A concrete catalogue *)

Definition example_text : SerdeText := fun _ => "invalid value".

Definition example_catalog : CatalogDb :=
  mkCatalogDb ∅ ∅ {[ "source" := example_source ]} {[ "account" := example_account_row (Some "KEY") None ]} ∅ ∅ [] [].

Definition example_refresh (model : string) : SourceModelRefresh :=
  mkSourceModelRefresh "source" model (VObject [("id", VString model)]) example_upstream_values None None 5.

Definition example_discovery (models : list string) (at_ : Z) : DiscoveryApplyInput :=
  mkDiscoveryApplyInput "source" (Some "account") (VArray []) (map example_refresh models) 200 3 "admin" at_ at_.

Lemma example_models_typed : models_typed example_catalog.
Proof. intros k row; cbn; by rewrite lookup_empty. Qed.

Lemma example_discovery_wf models at_ : Forall refresh_wf (ai_models (example_discovery models at_)).
Proof.
  apply Forall_forall. intros r Hr. apply list_elem_of_fmap in Hr as (m & -> & _). split; [apply example_values_wf|done].
Qed.

(** Two models are found, one of them later disappears. *)
Definition example_found : CatalogDb :=
  (let text := example_text in apply_discovery (example_discovery ["m2"; "m1"] 10) 1 10 example_catalog).2.

Example example_diffs :
  let text := example_text in
  let second := apply_discovery (example_discovery ["m1"] 20) 2 20 example_found in
  option_map da_diff (rok second.1)
  = Some (mkDiscoveryDiff [] [] [mkDiscoveryDiffEntry "m2" ["availability_status"]]).
Proof. vm_compute. reflexivity. Qed.

Lemma discovery_applied_exactly_witness :
  let text := example_text in
  exists res db', apply_discovery (example_discovery ["m2"; "m1"] 10) 1 10 example_catalog = (Ok res, db')
    /\ discovery_applied (example_discovery ["m2"; "m1"] 10) 10 example_catalog db' res.
Proof.
  intros text.
  pose proof (discovery_applied_exactly (example_discovery ["m2"; "m1"] 10) 1 10 example_catalog
    example_models_typed (example_discovery_wf _ _)) as Hd.
  destruct (apply_discovery _ 1 10 example_catalog) as [[res|e] db'] eqn:E; [exists res, db'; split; [reflexivity|exact Hd]|].
  exfalso. vm_compute in E. discriminate E.
Defined.

Lemma example_found_eq :
  let text := example_text in
  exists res, apply_discovery (example_discovery ["m2"; "m1"] 10) 1 10 example_catalog = (Ok res, example_found).
Proof. intros text. eexists. vm_compute. reflexivity. Qed.

Lemma repeated_discovery_is_silent_witness :
  let text := example_text in
  exists res' db', apply_discovery (example_discovery ["m2"; "m1"] 20) 2 20 example_found = (Ok res', db')
    /\ da_diff res' = empty_diff.
Proof.
  intros text. destruct example_found_eq as [res E1].
  assert (exists res' db', apply_discovery (example_discovery ["m2"; "m1"] 20) 2 20 example_found = (Ok res', db'))
    as (res' & db' & E2) by (eexists _, _; vm_compute; reflexivity).
  exists res', db'. split; [exact E2|].
  exact (repeated_discovery_is_silent (example_discovery ["m2"; "m1"] 10) (example_discovery ["m2"; "m1"] 20) 1 2 10 20
    example_catalog example_found db' res res' example_models_typed (example_discovery_wf _ _)
    eq_refl eq_refl E1 E2).
Defined.
