(* ===== verification/CatalogTypes.v ===== *)
(** * The type of the catalogue's rows

    Every repository operation keeps the rows of the catalogue well-typed
    (rule induction over [catalog_step]); confirmation of models is all or
    nothing; and the rules by which a protocol capability changes. *)

From Stdlib Require Import ZArith Lia Sorted.
From stdpp Require Import base list strings gmap relations.
From S2P Require Import Prelude.
From S2P Require Import RustStr.
From S2P Require Import Protocol.
From S2P Require Import BTree.
From S2P Require Import Tx.
From S2P Require Import Config.
From S2P Require Import SourceUrl.
From S2P Require Import Json.
From S2P Require Import Catalog.
From S2P Require Import Presets.
From S2P Require Import PresetDiff.
From S2P Require Import ModelCatalog.
From S2P Require Import CatalogProps.

Section Rows.
Context {text : SerdeText}.

(** ** Every operation keeps the rows well-typed *)

(** What the columns of a capability promise: the [CHECK]s of its table. *)
Record capability_row_ok (db : CatalogDb) (k : string * string * Protocol) (row : SourceModelCapabilityRecord)
    : Prop := {
  co_model : is_Some (cd_source_models db !! k.1);
  co_key : k = (mc_source_id row, mc_upstream_model_id row, mc_protocol row);
  co_mode : mc_mode row = SmAdapter <-> is_Some (mc_source_protocol row);
  co_adapter : is_Some (mc_source_protocol row) <-> is_Some (mc_adapter row);
  co_confirmed : mc_status row = CsConfirmed -> mc_mode row <> SmUnknown /\ is_Some (mc_confirmed_at row);
  co_unavailable : mc_status row = CsUnavailable -> is_Some (mc_unavailable_at row);
}.

Record catalog_typed (db : CatalogDb) : Prop := {
  ct_models : models_typed db;
  ct_capabilities : forall k row, cd_capabilities db !! k = Some row -> capability_row_ok db k row;
}.

(** What a successful transaction may do to the source models: rows are
    written, never deleted, and stay well-typed. *)
Record models_only (db db' : CatalogDb) : Prop := {
  mo_rest : db' = set_source_models db (cd_source_models db');
  mo_dom : forall k, is_Some (cd_source_models db !! k) -> is_Some (cd_source_models db' !! k);
  mo_typed : models_typed db -> models_typed db';
}.

#[export] Instance models_only_preorder : PreOrder models_only.
Proof.
  split.
  - intros []. by split.
  - intros x y z [H1 H2 H3] [H4 H5 H6]. split; [rewrite H4, H1; by destruct x|auto|auto].
Qed.

Lemma models_only_typed db db' : models_only db db' -> catalog_typed db -> catalog_typed db'.
Proof.
  intros [Hr Hd Ht] [Hm Hc]. split; [auto|]. intros k row Hl. rewrite Hr in Hl. cbn in Hl.
  destruct (Hc _ _ Hl) as [Hsm Hk Hmo Ha Hco Hu]. split; try done. by apply Hd.
Qed.

Lemma models_only_write db k row :
  (models_typed db -> model_row_ok db k row) ->
  models_only db (set_source_models db (<[k := row]> (cd_source_models db))).
Proof.
  intros Hr. split; [done| |intros Ht; apply typed_write; auto]. intros k' [row' Hk']. cbn.
  destruct (decide (k = k')) as [->|Hne]; [rewrite lookup_insert_eq|rewrite lookup_insert_ne by done]; eauto.
Qed.

(** Writing the metadata of an existing row. *)
Lemma set_metadata_ok db k row m status at_ now :
  model_row_ok db k row -> metadata_ok m -> status <> CsUnavailable -> (status = CsConfirmed -> is_Some at_) ->
  model_row_ok db k (set_metadata row status (metadata_to_json m) at_ now).
Proof.
  intros [Hk Hs _ _ _ Hu Hp] Hm Hst Hat. split; try done. exists m. split; [done|apply surjective_pairing].
Qed.

Lemma apply_user_overrides_ok m overrides m' :
  metadata_ok m -> bt_wf overrides -> apply_user_overrides m overrides = Ok m' -> metadata_ok m'.
Proof.
  unfold apply_user_overrides. intros Hm Hw. destruct (MetadataValues_validate overrides) as [[]|] eqn:Ev; cbn [rbind];
    [|done]. intros Ho%Ok_inj. rewrite <- Ho. by apply apply_values_ok.
Qed.

(** The common part of an override and a confirmation. *)
Lemma overridden_row db k row m overrides m' status at_ now :
  cd_source_models db !! k = Some row -> catalog_metadata row = Ok m -> bt_wf overrides ->
  map_err of_domain_error (apply_user_overrides m overrides) = Ok m' ->
  (models_typed db -> status <> CsUnavailable /\ (status = CsConfirmed -> is_Some at_)) ->
  models_typed db -> model_row_ok db k (set_metadata row status (metadata_to_json m') at_ now).
Proof.
  intros Hl Hc Hw Ho%map_err_Ok Hst Ht. destruct (Hst Ht) as [Hs Hat]. pose proof (Ht _ _ Hl) as Hok.
  destruct (ro_metadata _ _ _ Hok) as (m0 & Hm0 & Hj0). rewrite (metadata_read m0 row Hm0 Hj0) in Hc.
  apply Ok_inj in Hc. subst m0. apply set_metadata_ok; [done|by eapply apply_user_overrides_ok|done|done].
Qed.

Lemma confirm_one_inv source now c db row db' :
  bt_wf (sc_user_overrides c) -> confirm_one source now c db = Ok (row, db') -> exists old m m',
    let key := (source, sc_upstream_model_id c) in
    cd_source_models db !! key = Some old /\ sm_availability_status old = CaAvailable
    /\ catalog_metadata old = Ok m /\ map_err of_domain_error (apply_user_overrides m (sc_user_overrides c)) = Ok m'
    /\ row = set_metadata old CsConfirmed (metadata_to_json m') (opt_or (sm_confirmed_at old) (Some now)) now
    /\ db' = set_source_models db (<[key := row]> (cd_source_models db)).
Proof.
  intros Hw. unfold confirm_one.
  intros (old & s0 & [Hl ->]%fetch_source_model_inv & (u & s1 & [Ha ->]%tx_of_inv & HX)%tx_bind_inv)%tx_bind_inv.
  apply tx_bind_inv in HX as (m & s2 & [Hm ->]%tx_of_inv & HX).
  apply tx_bind_inv in HX as (m' & s3 & [Hm' ->]%tx_of_inv & HX).
  apply tx_bind_inv in HX as (v & s4 & [Hp ->]%write_source_model_inv & HX). rewrite fetch_written in HX.
  injection HX as <- <-. exists old, m, m'. split_and!; try done. by case_bool_decide.
Qed.

Lemma confirm_one_models source now c db row db' :
  bt_wf (sc_user_overrides c) -> confirm_one source now c db = Ok (row, db') -> models_only db db'.
Proof.
  intros Hw (old & m & m' & Hl & _ & Hm & Hm' & -> & ->)%confirm_one_inv; [|done]. apply models_only_write.
  eapply overridden_row; try done. intros _. split; [done|]. intros _. destruct (sm_confirmed_at old); by eexists.
Qed.

Lemma confirm_models source cs now db :
  Forall (fun c => bt_wf (sc_user_overrides c)) cs -> models_only db (confirm_source_models source cs now db).2.
Proof.
  intros Hw. unfold confirm_source_models. destruct cs as [|c cs]; [done|]. set (l := c :: cs) in *.
  destruct (adjacent_equal _); [done|]. apply run_tx_preserves; [done|]. intros x s' Hm.
  eapply (tx_map_preserves (models_only db)); [| |exact Hm]; [|done]. intros c' s y s1 Hin Hs Hc. etrans; [exact Hs|].
  eapply confirm_one_models; [|exact Hc]. rewrite Forall_forall in Hw. apply Hw. by apply elem_of_sort_by in Hin.
Qed.

Lemma override_models source model overrides now db :
  bt_wf overrides -> models_only db (update_source_model_user_overrides source model overrides now db).2.
Proof.
  intros Hw. unfold update_source_model_user_overrides. apply run_tx_preserves; [done|]. intros row s'.
  unfold update_overrides_tx.
  intros (old & s0 & [Hl ->]%fetch_source_model_inv & (m & s1 & [Hm ->]%tx_of_inv & HX)%tx_bind_inv)%tx_bind_inv.
  apply tx_bind_inv in HX as (m' & s2 & [Hm' ->]%tx_of_inv & HX).
  apply tx_bind_inv in HX as (v & s3 & [Hp ->]%write_source_model_inv & HX). rewrite fetch_written in HX.
  injection HX as _ <-. apply models_only_write. eapply overridden_row; try done. intros Ht.
  split; [apply (ro_status _ _ _ (Ht _ _ Hl))|apply (ro_confirmed _ _ _ (Ht _ _ Hl))].
Qed.

Lemma typed_runs db t : catalog_typed db -> catalog_typed (set_runs db t).
Proof. intros [Hm Hc]. split; intros k row Hl; [destruct (Hm _ _ Hl)|destruct (Hc _ _ Hl)]; by split. Qed.

Lemma typed_tests db t : catalog_typed db -> catalog_typed (set_tests db t).
Proof. intros [Hm Hc]. split; intros k row Hl; [destruct (Hm _ _ Hl)|destruct (Hc _ _ Hl)]; by split. Qed.

Lemma typed_presets db db' : presets_extend db db' -> catalog_typed db -> catalog_typed db'.
Proof.
  intros [Hp Hm Hr] [Ht Hc]. split; intros k row Hl; rewrite Hr in Hl; cbn in Hl.
  - destruct (Ht _ _ Hl) as [Hk Hs Hj Hst Hco Hu Hpr]. split; try done; [by rewrite Hr|].
    destruct (sm_matched_model_preset_id row), (sm_matched_model_preset_version row); try done.
    destruct Hpr as [p Hpr]. exists p. by eapply lookup_weaken.
  - destruct (Hc _ _ Hl) as [Hsm Hk Hmo Ha Hco Hu]. split; try done. by rewrite Hr.
Qed.

Lemma discovery_typed input run_id now db :
  Forall refresh_wf (ai_models input) -> catalog_typed db -> catalog_typed (apply_discovery input run_id now db).2.
Proof.
  intros Hw [Ht Hc]. destruct (apply_discovery input run_id now db) as [[res|e] db'] eqn:Ea; cbn.
  2:{ unfold apply_discovery in Ea. destruct (check_apply input); [|by injection Ea as _ <-].
      by apply run_tx_err in Ea as ->. }
  destruct (discovery_applied_ok _ _ _ _ _ _ Ht Hw Ea) as [D Ht']. split; [done|]. intros k row Hl.
  rewrite (dp_rest _ _ _ _ _ D) in Hl. cbn in Hl. destruct (Hc _ _ Hl) as [[old Hsm] Hk Hmo Ha Hco Hu].
  split; try done. destruct (decide (k.1.1 = ai_source_id input)) as [Hs|Hs].
  2:{ rewrite (dp_other _ _ _ _ _ D) by done. by exists old. }
  rewrite (surjective_pairing k.1), Hs in Hsm |- *.
  destruct (decide (k.1.2 ∈ map sx_upstream_model_id (ai_models input))) as [Hin|Hin].
  - destruct (discovery_steps_exist _ _ _ _ _ _ Ht Hw Ea) as (d & rows & b & x & y & T).
    apply list_elem_of_fmap in Hin as (r & Hr & Hin). destruct (dp_discovered _ _ _ _ _ D r Hin) as (row' & _ & Hl').
    rewrite <- (dt_perm _ _ _ _ _ _ _ _ _ _ T) in Hin. rewrite (steps_key _ _ _ _ _ _ _ _ _ _ T r Hin) in Hl'.
    rewrite Hr. by exists row'.
  - rewrite (dp_missing _ _ _ _ _ D _ _ Hsm Hin). by eexists.
Qed.

Lemma capability_validate_ok `{BuildCfg} input :
  capability_validate input = Ok tt ->
  (ci_mode input = SmAdapter <-> is_Some (ci_source_protocol input))
  /\ (is_Some (ci_source_protocol input) <-> is_Some (ci_adapter input))
  /\ (ci_status input = CsConfirmed -> ci_mode input <> SmUnknown).
Proof.
  unfold capability_validate. destruct (bool_decide _ && bool_decide _) eqn:Ec; [done|].
  assert (ci_status input = CsConfirmed -> ci_mode input <> SmUnknown) as Hu.
  { intros Hs Hm. rewrite Hs, Hm in Ec. done. }
  destruct (ci_mode input) eqn:Em.
  3:{ destruct (ci_source_protocol input), (ci_adapter input) as [a|]; cbn [ok_or rbind opt_filter]; done. }
  all: destruct (ci_source_protocol input), (ci_adapter input); cbn [is_some orb]; try done.
  all: intros _; split_and!; try done; by intros [? ?].
Qed.

Lemma upsert_inv `{BuildCfg} input utc_now now db rec db' :
  upsert_source_model_capability_conn input utc_now now db = Ok (rec, db') ->
  let key := (ci_source_id input, ci_upstream_model_id input, ci_protocol input) in
  capability_validate input = Ok tt /\ cd_capabilities db' !! key = Some rec
  /\ match cd_capabilities db !! key with
     | Some old => can_transition_to (mc_status old) (ci_status input) = true
     | None => True
     end
  /\ if is_some_and (cd_capabilities db !! key) (fun old => bool_decide (mc_status old = CsConfirmed))
        && bool_decide (ci_status input = CsConfirmed) && negb (bool_decide (ci_field_source input = MsUser))
     then db' = db
     else
       check_adapter_source input db = Ok tt
       /\ is_Some (cd_source_models db !! (ci_source_id input, ci_upstream_model_id input))
       /\ rec = match cd_capabilities db !! key with
                | Some old => capability_conflict old (capability_row input utc_now now) now
                | None => capability_row input utc_now now
                end
       /\ db' = set_capabilities db (<[key := rec]> (cd_capabilities db)).
Proof.
  unfold upsert_source_model_capability_conn. set (key := (ci_source_id input, ci_upstream_model_id input, ci_protocol input)).
  intros (u & s0 & [Hv%map_err_Ok ->]%tx_of_inv & (cur & s1 & [= <- <-] & HX)%tx_bind_inv)%tx_bind_inv.
  apply tx_bind_inv in HX as (v & s2 & [Ht ->]%tx_of_inv & HX). destruct u. split; [done|].
  assert (match cd_capabilities db !! key with
     | Some old => can_transition_to (mc_status old) (ci_status input) = true | None => True end) as Htr.
  { fold key in Ht. destruct (cd_capabilities db !! key); [|done]. unfold ensure_transition in Ht.
    by destruct (can_transition_to _ _). }
  fold key in HX |- *. unfold get_source_model_capability_conn in HX. fold key in HX.
  destruct (is_some_and _ _ && _ && _).
  - destruct (cd_capabilities db !! key) eqn:E; [|done]. injection HX as -> ->. by rewrite E.
  - apply tx_bind_inv in HX as (w & s3 & [Hc ->]%tx_of_inv & HX). apply tx_bind_inv in HX as (z & s4 & Hw & HX).
    unfold write_capability in Hw. destruct (cd_source_models db !! _) eqn:Em; [|done]. fold key in Hw.
    injection Hw as _ <-. cbn in HX. rewrite lookup_insert_eq in HX. injection HX as <- <-. destruct w.
    cbn. rewrite lookup_insert_eq. split_and!; [done|done|done|by eexists|done|done].
Qed.

(** The row that is answered is well-typed. *)
Lemma upsert_row_ok `{BuildCfg} input utc_now now db rec db' :
  upsert_source_model_capability_conn input utc_now now db = Ok (rec, db') ->
  (forall k row, cd_capabilities db !! k = Some row -> capability_row_ok db k row) ->
  capability_row_ok db (ci_source_id input, ci_upstream_model_id input, ci_protocol input) rec.
Proof.
  intros (Hv & Hrec & _ & Hr)%upsert_inv Hc. destruct (_ && _ && _); [rewrite Hr in Hrec; by apply Hc|].
  destruct Hr as (_ & Hsm & -> & _). apply capability_validate_ok in Hv as (Hmo & Had & Hun).
  assert (capability_row_ok db (ci_source_id input, ci_upstream_model_id input, ci_protocol input)
            (capability_row input utc_now now)) as Hnew.
  { split; cbn; try done; intros Hst; [split; [by apply Hun|rewrite Hst; by eexists]|rewrite Hst; by eexists]. }
  destruct (cd_capabilities db !! _) as [old|] eqn:Eo; [|done].
  pose proof (Hc _ _ Eo) as Hold. unfold capability_conflict. destruct (_ || _ || _); [|done].
  destruct Hold as [Ho1 Ho2 _ _ _ _], Hnew as [Hn1 Hn2 Hn3 Hn4 Hn5 Hn6]. split; try done; cbn in *.
  intros Hst. destruct (Hn5 Hst) as [Hn7 Hn8]. split; [done|]. rewrite bool_decide_true by done.
  destruct (mc_confirmed_at old); cbn; [by eexists|]. by rewrite bool_decide_true in Hn8.
Qed.

Lemma upsert_typed `{BuildCfg} input utc_now now db rec db' :
  upsert_source_model_capability_conn input utc_now now db = Ok (rec, db') -> catalog_typed db -> catalog_typed db'.
Proof.
  intros Hu [Hm Hc]. pose proof (upsert_row_ok _ _ _ _ _ _ Hu Hc) as Hrec. apply upsert_inv in Hu as (_ & _ & _ & Hr).
  destruct (_ && _ && _); [by rewrite Hr|]. destruct Hr as (_ & _ & _ & ->). split; intros k row; cbn.
  - intros Hl. destruct (Hm _ _ Hl). by split.
  - rewrite lookup_insert_Some. intros [[<- <-]|[_ Hl]]; [destruct Hrec|destruct (Hc _ _ Hl)]; by split.
Qed.

(** The operations of the repository; a failed one leaves what it left. *)
Inductive catalog_step `{UrlCrates} `{PresetSerde} `{BuildCfg} : CatalogDb -> CatalogDb -> Prop :=
| step_install now db : catalog_step db (install_builtin_presets now db).2
| step_discovery input run_id now db :
    Forall refresh_wf (ai_models input) -> catalog_step db (apply_discovery input run_id now db).2
| step_discovery_failure input run_id db : catalog_step db (run_tx (record_discovery_failure input run_id) db).2
| step_connection_test input test_id db : catalog_step db (run_tx (record_connection_test input test_id) db).2
| step_override source model overrides now db :
    bt_wf overrides -> catalog_step db (update_source_model_user_overrides source model overrides now db).2
| step_confirm source confirmations now db :
    Forall (fun c => bt_wf (sc_user_overrides c)) confirmations ->
    catalog_step db (confirm_source_models source confirmations now db).2
| step_capability input utc_now now db :
    catalog_step db (run_tx (upsert_source_model_capability_conn input utc_now now) db).2.

Lemma catalog_step_typed `{UrlCrates} `{PresetSerde} `{BuildCfg} db db' :
  catalog_step db db' -> catalog_typed db -> catalog_typed db'.
Proof.
  intros []; intros Ht.
  - by eapply typed_presets; [apply install_extends|].
  - by apply discovery_typed.
  - apply run_tx_preserves; [done|]. intros x s'. unfold record_discovery_failure. destruct (_ : bool); [done|].
    destruct (get_source _ _); cbn [rbind]; [|done]. destruct (account_checked _ _ _); cbn [rbind]; [|done].
    intros [= _ <-]. by apply typed_runs.
  - apply run_tx_preserves; [done|]. intros x s'. unfold record_connection_test. destruct (_ : bool); [done|].
    destruct (get_source _ _); cbn [rbind]; [|done]. destruct (account_checked _ _ _); cbn [rbind]; [|done].
    intros [= _ <-]. by apply typed_tests.
  - eapply models_only_typed; [by apply override_models|done].
  - eapply models_only_typed; [by apply confirm_models|done].
  - apply run_tx_preserves; [done|]. intros x s' Hu. by eapply upsert_typed.
Qed.

(** The rows of the catalogue keep their type: after any sequence of repository
    operations, failed ones included, every source model's metadata reads back
    as well-formed metadata (so no later operation fails on it), its preset and
    source exist, and the [CHECK]s of both tables hold. *)
Theorem catalog_rows_stay_typed `{UrlCrates} `{PresetSerde} `{BuildCfg} (db db' : CatalogDb)
    (Hsteps : rtc catalog_step db db') (Ht : catalog_typed db) :
  catalog_typed db'
  /\ forall k row, cd_source_models db' !! k = Some row -> exists m, catalog_metadata row = Ok m /\ metadata_ok m.
Proof.
  assert (catalog_typed db') as Ht'.
  { induction Hsteps as [|x y z Hxy _ IH]; [done|]. apply IH. by eapply catalog_step_typed. }
  split; [done|]. intros k row Hl. destruct (ct_models _ Ht' _ _ Hl) as [_ _ (m & Hm & Hj) _ _ _ _].
  exists m. split; [by apply metadata_read|done].
Qed.

(** ** Confirming models *)

(** What the confirmation of one model does to its row. *)
Definition confirmed_row (old : SourceModelRecord) (c : SourceModelConfirmation) (now : Z)
    (new : SourceModelRecord) : Prop :=
  sm_availability_status old = CaAvailable /\ exists m m',
    catalog_metadata old = Ok m /\ apply_user_overrides m (sc_user_overrides c) = Ok m'
    /\ new = set_metadata old CsConfirmed (metadata_to_json m') (opt_or (sm_confirmed_at old) (Some now)) now.

Lemma confirm_map_inv source now l : forall db rows db',
  Forall (fun c => bt_wf (sc_user_overrides c)) l -> NoDup (map sc_upstream_model_id l) ->
  tx_map (confirm_one source now) l db = Ok (rows, db') ->
  db' = set_source_models db (cd_source_models db')
  /\ (forall c, c ∈ l -> exists old new, cd_source_models db !! (source, sc_upstream_model_id c) = Some old
        /\ cd_source_models db' !! (source, sc_upstream_model_id c) = Some new /\ confirmed_row old c now new)
  /\ (forall k, k ∉ map (fun c => (source, sc_upstream_model_id c)) l ->
        cd_source_models db' !! k = cd_source_models db !! k).
Proof.
  induction l as [|c l IH]; intros db rows db' Hw Hnd; cbn [tx_map].
  { intros [= _ <-]. split_and!; [by destruct db| |done]. intros c Hc. by apply elem_of_nil in Hc. }
  intros (row & s1 & H1 & (rs & s2 & H2 & [= _ <-])%tx_bind_inv)%tx_bind_inv.
  apply Forall_cons in Hw as [Hwc Hw]. cbn in Hnd. apply NoDup_cons in Hnd as [Hc Hnd].
  apply confirm_one_inv in H1 as (old & m & m' & Hl & Ha & Hm & Hm'%map_err_Ok & Hrow & Hs1); [|done].
  destruct (IH _ _ _ Hw Hnd H2) as (Hrest & Hin & Hother). rewrite Hs1 in Hother, Hin, Hrest. cbn in Hother, Hin.
  assert (forall c', c' ∈ l -> (source, sc_upstream_model_id c) <> (source, sc_upstream_model_id c')) as Hne.
  { intros c' Hc' [= Heq]. apply Hc. rewrite Heq. by apply (list_elem_of_fmap_2 sc_upstream_model_id). }
  split_and!; [rewrite Hrest; by destruct db| |].
  - intros c' [->|Hc']%elem_of_cons.
    + exists old, row. rewrite Hother.
      2:{ intros (c' & Heq & Hc')%list_elem_of_fmap. by apply (Hne c' Hc'). }
      rewrite lookup_insert_eq. split_and!; [done|done|]. split; [done|]. by exists m, m'.
    + destruct (Hin c' Hc') as (o & n & Ho & Hn & Hcr). rewrite lookup_insert_ne in Ho by auto. eauto.
  - intros k Hk. cbn in Hk. rewrite elem_of_cons in Hk. rewrite Hother by tauto. rewrite lookup_insert_ne; [done|].
    intros Heq. apply Hk. by left.
Qed.

(** Models are confirmed all together or not at all: a confirmation of a list
    of models either fails and changes nothing, or the ids were distinct, every
    model existed and was available, each now is confirmed with the user's
    values on record as the user's, the time of its first confirmation is kept,
    and no other row changed. *)
Theorem confirmation_all_or_nothing (source : string) (confirmations : list SourceModelConfirmation) (now : Z)
    (db : CatalogDb) (Ht : models_typed db) (Hw : Forall (fun c => bt_wf (sc_user_overrides c)) confirmations) :
  match confirm_source_models source confirmations now db with
  | (Err _, db') => db' = db
  | (Ok rows, db') =>
      confirmations <> [] /\ NoDup (map sc_upstream_model_id confirmations)
      /\ (forall c, c ∈ confirmations -> exists old new m,
            cd_source_models db !! (source, sc_upstream_model_id c) = Some old
            /\ cd_source_models db' !! (source, sc_upstream_model_id c) = Some new
            /\ confirmed_row old c now new /\ catalog_metadata new = Ok m
            /\ forall f v, bt_get (sc_user_overrides c) f = Some v -> has_field m f (v, MsUser))
      /\ (forall k, k ∉ map (fun c => (source, sc_upstream_model_id c)) confirmations ->
            cd_source_models db' !! k = cd_source_models db !! k)
      /\ db' = set_source_models db (cd_source_models db')
  end.
Proof.
  destruct (confirm_source_models source confirmations now db) as [[rows|e] db'] eqn:Ec; unfold confirm_source_models in Ec;
    destruct confirmations as [|c0 cs]; try congruence; set (l := c0 :: cs) in *;
    destruct (adjacent_equal _) eqn:Ea; try congruence; [|by apply run_tx_err in Ec].
  apply run_tx_ok in Ec. pose proof (sort_by_perm sc_upstream_model_id l) as Hperm.
  assert (NoDup (map sc_upstream_model_id (sort_by sc_upstream_model_id l))) as Hnd
    by (by apply adjacent_distinct; [apply key_sorted|]).
  destruct (confirm_map_inv source now (sort_by sc_upstream_model_id l) db rows db') as (Hrest & Hin & Hother); [by rewrite Hperm|done|done|].
  split; [done|]. split; [by rewrite Hperm in Hnd|]. split_and!; [| |done].
  - intros c Hc. destruct (Hin c) as (old & new & Ho & Hn & Hcr); [by apply elem_of_sort_by|].
    pose proof Hcr as (_ & m & m' & Hm & Hm' & Hnew).
    destruct (ro_metadata _ _ _ (Ht _ _ Ho)) as (m0 & Hm0 & Hj0). rewrite (metadata_read m0 old Hm0 Hj0) in Hm.
    apply Ok_inj in Hm. subst m0. rewrite Forall_forall in Hw. pose proof (Hw c Hc) as Hwc.
    exists old, new, m'. split_and!; [done|done|done| |].
    + apply metadata_read; [exact (apply_user_overrides_ok _ _ _ Hm0 Hwc Hm')|]. rewrite Hnew. apply surjective_pairing.
    + intros f v Hf. unfold apply_user_overrides in Hm'.
      destruct (MetadataValues_validate _); cbn [rbind] in Hm'; [|done]. apply Ok_inj in Hm'. subst m'.
      unfold has_field. rewrite apply_values_field by (done || apply Hm0). rewrite Hf. unfold applied.
      by rewrite (bool_decide_true (MsUser = MsUser)), andb_false_r by done.
  - intros k Hk. apply Hother. by rewrite Hperm.
Qed.

(** ** Rules of protocol capabilities *)

(** The rules of a capability change: what an accepted change [input] may have
    done to the table of [db]. *)
Definition capability_changed (input : SourceModelCapabilityInput) (db : CatalogDb) (rec : SourceModelCapabilityRecord)
    (db' : CatalogDb) : Prop :=
  let key := (ci_source_id input, ci_upstream_model_id input, ci_protocol input) in
  cd_capabilities db' !! key = Some rec
  /\ db' = set_capabilities db (<[key := rec]> (cd_capabilities db))
  /\ (forall old, cd_capabilities db !! key = Some old ->
        can_transition_to (mc_status old) (ci_status input) = true
        /\ (mc_status old = CsConfirmed -> rec <> old ->
            ci_field_source input = MsUser \/ ci_status input <> CsConfirmed)
        /\ (mc_status rec = CsConfirmed -> is_Some (mc_confirmed_at old) -> mc_confirmed_at rec = mc_confirmed_at old))
  /\ (cd_capabilities db !! key <> Some rec ->
        mc_status rec = ci_status input /\ mc_mode rec = ci_mode input
        /\ mc_source_protocol rec = ci_source_protocol input /\ mc_adapter rec = ci_adapter input
        /\ mc_feature_capabilities rec = features_to_value (ci_feature_capabilities input)
        /\ (mc_mode rec = SmAdapter -> exists p s, mc_source_protocol rec = Some p
              /\ cd_capabilities db !! (ci_source_id input, ci_upstream_model_id input, p) = Some s
              /\ mc_status s = CsConfirmed /\ mc_mode s = SmNative)).

(** A protocol capability changes only by its rules: a refused change leaves
    the table; a status moves only along its transitions; a confirmed
    capability is replaced only by a user or by taking the confirmation back,
    anything else is answered with the stored row; an adapter needs its source
    protocol confirmed as native; and the time of the first confirmation is
    kept. *)
Theorem capability_upsert_rules `{BuildCfg} (input : SourceModelCapabilityInput) (utc_now now : Z) (db : CatalogDb) :
  match run_tx (upsert_source_model_capability_conn input utc_now now) db with
  | (Err _, db') => db' = db
  | (Ok rec, db') => capability_changed input db rec db'
  end.
Proof.
  destruct (run_tx _ db) as [[rec|e] db'] eqn:Er; [|by apply run_tx_err in Er].
  unfold capability_changed. set (key := (ci_source_id input, _, _)).
  apply run_tx_ok, upsert_inv in Er as (Hv & Hl & Htr & Hr). fold key in Hl, Htr, Hr. split; [done|].
  destruct (is_some_and _ _ && _ && _) eqn:Eg.
  { subst db'. rewrite insert_id by done. split; [by destruct db|]. split; [|done].
    intros old Ho. rewrite Ho in Htr, Hl. split; [done|]. assert (rec = old) as -> by congruence. done. }
  destruct Hr as (Ha & _ & Hrec & Hdb). split; [done|]. split.
  - intros old Ho. rewrite Ho in *. split; [done|]. cbn [is_some_and] in Eg. split.
    + intros Hst Hne. rewrite bool_decide_true in Eg by done. cbn [andb] in Eg.
      apply andb_false_iff in Eg as [Eg%bool_decide_eq_false|Eg%negb_false_iff%bool_decide_eq_true]; auto.
    + rewrite Hrec. unfold capability_conflict. destruct (_ || _ || _); [|done]. cbn. intros -> [t Ht].
      rewrite bool_decide_true by done. by rewrite Ht.
  - intros Hne. assert (rec = capability_row input utc_now now
      \/ exists old, cd_capabilities db !! key = Some old /\ rec = capability_conflict old (capability_row input utc_now now) now)
      as Hcase by (destruct (cd_capabilities db !! key); eauto).
    assert (mc_status rec = ci_status input /\ mc_mode rec = ci_mode input
      /\ mc_source_protocol rec = ci_source_protocol input /\ mc_adapter rec = ci_adapter input
      /\ mc_feature_capabilities rec = features_to_value (ci_feature_capabilities input)) as (H1 & H2 & H3 & H4 & H5).
    { destruct Hcase as [->|(old & Ho & ->)]; [done|]. unfold capability_conflict in *.
      destruct (_ || _ || _); [done|]. by destruct Hne. }
    split_and!; try done. rewrite H2, H3. intros Hm. unfold check_adapter_source in Ha. rewrite Hm in Ha.
    apply capability_validate_ok in Hv as (Hmo & _ & _). destruct (proj1 Hmo Hm) as [p Hp]. rewrite Hp in Ha.
    destruct (cd_capabilities db !! (ci_source_id input, ci_upstream_model_id input, p)) as [s|] eqn:Es; cbn [is_some_and] in Ha; [|done].
    destruct (bool_decide (mc_status s = CsConfirmed) && bool_decide (mc_mode s = SmNative)) eqn:E; [|done].
    apply andb_true_iff in E as [E1%bool_decide_eq_true E2%bool_decide_eq_true]. exists p, s. done.
Qed.
End Rows.

(** ** The concrete catalogue *)

Lemma example_catalog_typed : catalog_typed example_catalog.
Proof. split; [exact example_models_typed|]. intros k row; cbn; by rewrite lookup_empty. Qed.

Lemma example_found_typed : catalog_typed example_found.
Proof.
  pose proof (discovery_typed (text := example_text) (example_discovery ["m2"; "m1"] 10) 1 10 example_catalog
    (example_discovery_wf _ _) example_catalog_typed) as Ht. exact Ht.
Qed.

Lemma catalog_rows_stay_typed_witness :
  let text := example_text in let crates := preset_crates in let serde := blank_serde in
  let cfg : BuildCfg := false in
  catalog_typed example_found /\ exists row m, cd_source_models example_found !! ("source", "m1") = Some row
    /\ catalog_metadata row = Ok m.
Proof.
  intros text crates serde cfg.
  destruct (catalog_rows_stay_typed example_catalog example_found) as [Ht Hm]; [|exact example_catalog_typed|].
  - apply rtc_once. exact (step_discovery (example_discovery ["m2"; "m1"] 10) 1 10 example_catalog (example_discovery_wf _ _)).
  - split; [exact Ht|].
    assert (exists row, cd_source_models example_found !! ("source", "m1") = Some row) as [row Hrow]
      by (eexists; vm_compute; reflexivity).
    destruct (Hm _ _ Hrow) as (m & Hc & _). exists row, m. split; [exact Hrow|exact Hc].
Defined.

Definition example_confirmations : list SourceModelConfirmation := [mkSourceModelConfirmation "m1" example_preset_values].

Lemma example_confirmations_wf : Forall (fun c => bt_wf (sc_user_overrides c)) example_confirmations.
Proof. constructor; [apply example_values_wf|constructor]. Qed.

Lemma confirmation_all_or_nothing_witness :
  let text := example_text in
  exists rows db', confirm_source_models "source" example_confirmations 11 example_found = (Ok rows, db')
    /\ cd_source_models db' !! ("source", "m2") = cd_source_models example_found !! ("source", "m2").
Proof.
  intros text.
  pose proof (confirmation_all_or_nothing "source" example_confirmations 11 example_found
    (ct_models _ example_found_typed) example_confirmations_wf) as Hc.
  assert (exists rows db', confirm_source_models "source" example_confirmations 11 example_found = (Ok rows, db'))
    as (rows & db' & E) by (eexists _, _; vm_compute; reflexivity).
  rewrite E in Hc. exists rows, db'. split; [exact E|]. destruct Hc as (_ & _ & _ & Ho & _). apply Ho.
  intros Hin%list_elem_of_singleton. discriminate Hin.
Defined.

Definition example_capability : SourceModelCapabilityInput :=
  mkSourceModelCapabilityInput "source" "m1" OpenAiResponses CsConfirmed SmNative None None [("tools", Supported)] MsUser 12.

Lemma capability_upsert_rules_witness :
  let cfg : BuildCfg := false in
  exists rec db', run_tx (upsert_source_model_capability_conn example_capability 12 12) example_found = (Ok rec, db')
    /\ mc_mode rec = SmNative.
Proof.
  intros cfg. pose proof (capability_upsert_rules example_capability 12 12 example_found) as Hc.
  assert (exists rec db', run_tx (upsert_source_model_capability_conn example_capability 12 12) example_found
            = (Ok rec, db')) as (rec & db' & E) by (eexists _, _; vm_compute; reflexivity).
  rewrite E in Hc. exists rec, db'. split; [exact E|]. destruct Hc as (_ & _ & _ & Hr).
  destruct Hr as (_ & Hm & _); [|exact Hm]. vm_compute. discriminate.
Defined.
