(* ===== verification/Discovery.v ===== *)
(** * Connection tests and model discovery: [src/src/control_plane/model_discovery.rs]

    The service that asks an upstream for its models, or tests one protocol of a
    source, and records the outcome in the catalogue.  Clocks, the environment
    variables, the ids of new rows and the HTTP exchange are answers of
    [DiscoveryEnv], numbered by the effects performed so far; the state is the
    catalogue and the log of requests that were sent.  Tracing is omitted. *)

From Stdlib Require Import ZArith Lia Ascii.
From stdpp Require Import base list strings gmap.
From S2P Require Import Prelude.
From S2P Require Import RustStr.
From S2P Require Import Protocol.
From S2P Require Import BTree.
From S2P Require Import Tx.
From S2P Require Import SourceUrl.
From S2P Require Import Json.
From S2P Require Import Catalog.
From S2P Require Import Presets.
From S2P Require Import PresetDiff.
From S2P Require Import ModelCatalog.

Definition MAX_DISCOVERY_RESPONSE_BYTES : Z := 2 * 1024 * 1024.

Inductive DiscoveryServiceError : Type :=
| DsCatalog (error : CatalogError) | InvalidPreset | InvalidSourceUrl | SourceUrlBlocked
| InvalidHeaderTemplate | AccountCredentialUnavailable.

Definition discovery_error_code (self : DiscoveryServiceError) : string :=
  match self with
  | DsCatalog (CtNotFound _) => "not_found"
  | DsCatalog (CtInvalidMetadata _) | DsCatalog (CtInvalidState _) => "invalid_catalog_state"
  | DsCatalog _ => "database_error"
  | InvalidPreset => "invalid_provider_preset"
  | InvalidSourceUrl => "invalid_source_url"
  | SourceUrlBlocked => "source_url_blocked"
  | InvalidHeaderTemplate => "invalid_header_template"
  | AccountCredentialUnavailable => "credential_unavailable"
  end.

Definition public_message (self : DiscoveryServiceError) : string :=
  match self with
  | DsCatalog (CtNotFound message) | DsCatalog (CtInvalidMetadata message) | DsCatalog (CtInvalidState message) =>
      message
  | DsCatalog _ => "catalog database operation failed"
  | InvalidPreset => "source provider preset snapshot is invalid"
  | InvalidSourceUrl => "source base URL or endpoint is invalid"
  | SourceUrlBlocked => "source URL is blocked by server policy"
  | InvalidHeaderTemplate => "source header template is invalid"
  | AccountCredentialUnavailable => "account credential environment variable is unavailable"
  end.

(** [From<SourceUrlPolicyError>]. *)
Definition of_policy_error (error : SourceUrlPolicyError) : DiscoveryServiceError :=
  match error with InvalidUrl => InvalidSourceUrl | _ => SourceUrlBlocked end.

Record DiscoveryExecution : Type := mkDiscoveryExecution {
  dx_run : DiscoveryRunRecord;
  dx_diff : DiscoveryDiff;
  dx_models : list SourceModelRecord;
}.

(** The kinds of [reqwest::Error] the service tells apart. *)
Inductive HttpFailure : Type := HfPolicyViolation | HfTimeout | HfConnect | HfOther.

Record SafeFailure : Type := mkSafeFailure {
  sf_code : string;
  sf_message : string;
  sf_http_status : option Z;
}.

Definition failure_transport (error : HttpFailure) : SafeFailure :=
  match error with
  | HfPolicyViolation => mkSafeFailure "source_url_blocked" "source URL is blocked by server policy" None
  | HfTimeout => mkSafeFailure "upstream_timeout" "upstream request timed out" None
  | HfConnect => mkSafeFailure "upstream_connect_failed" "upstream connection failed" None
  | HfOther => mkSafeFailure "upstream_request_failed" "upstream request failed" None
  end.

Definition failure_http (status : Z) : SafeFailure :=
  mkSafeFailure "upstream_http_error" "upstream returned a non-success HTTP status" (Some status).

(** A built request: its headers in the order they were appended, the body of a
    connection test and its timeout in milliseconds. *)
Record DiscoveryRequest : Type := mkDiscoveryRequest {
  dq_method : HttpMethod;
  dq_url : Url;
  dq_headers : list (string * string);
  dq_body : option string;
  dq_timeout_ms : option Z;
}.

(** A response: its body arrives in chunks and may break off. *)
Record DiscoveryResponse : Type := mkDiscoveryResponse {
  dp_status : Z;
  dp_content_length : option Z;
  dp_chunks : list string;
  dp_broken : option HttpFailure;
}.

(** ** Reading the source *)

Section Reading.
Context `{UrlCrates} `{PresetSerde}.

Definition parse_preset (source : SourceRecord) : result ProviderPresetDefinition DiscoveryServiceError :=
  let? definition := ok_or (preset_from_value (so_provider_preset_snapshot source)) InvalidPreset in
  let? _ := map_err (fun _ => InvalidPreset) (preset_validate definition) in
  Ok definition.

Definition source_auth (source : SourceRecord) : result SourceAuthConfig DiscoveryServiceError :=
  ok_or (auth_from_value (so_auth_config source)) InvalidPreset.

Definition source_protocol_capabilities (source : SourceRecord)
    : result (list (Protocol * SourceProtocolCapability)) DiscoveryServiceError :=
  ok_or (capabilities_from_value (so_protocol_capabilities source)) InvalidPreset.

(** The derived [Deserialize] of a protocol: its name only. *)
Definition protocol_of_name (name : string) : option Protocol :=
  List.find (fun p => Protocol_to_string p =?s name) Protocol_ALL.

(** [from_value::<BTreeMap<Protocol, String>>]. *)
Definition endpoints_from_value (v : Value) : option (list (Protocol * string)) :=
  match v with
  | VObject m =>
      bt_collect <$>
      foldr (fun kv acc =>
        match protocol_of_name kv.1, as_str kv.2, acc with
        | Some p, Some s, Some acc => Some ((p, s) :: acc)
        | _, _, _ => None
        end) (Some []) m
  | _ => None
  end.

Definition source_endpoint (source : SourceRecord) (protocol : Protocol) (fallback : string)
    : result string DiscoveryServiceError :=
  let? endpoints := ok_or (endpoints_from_value (so_endpoints source)) InvalidPreset in
  Ok (unwrap_or (opt_filter (fun endpoint => negb (is_empty (trim endpoint))) (bt_get endpoints protocol)) fallback).

Definition source_url (base_url endpoint : string) : result Url DiscoveryServiceError :=
  let? base := ok_or (url_parse base_url) InvalidSourceUrl in
  if negb (plain_http_url base) || negb (starts_with endpoint "/") || starts_with endpoint "//"
  then Err InvalidSourceUrl
  else ok_or (url_parse (trim_end_matches "/"%char (url_text base) +:+ endpoint)) InvalidSourceUrl.
End Reading.

(** ** Requests *)

(** [HeaderName::from_bytes] of the [http] crate. *)
Class HttpNames : Type := header_name : string -> option string.

Fixpoint append_headers `{HttpNames} (headers : list (string * string)) (acc : list (string * string))
    : result (list (string * string)) DiscoveryServiceError :=
  match headers with
  | [] => Ok acc
  | (name, value) :: headers =>
      let? name := ok_or (header_name name) InvalidHeaderTemplate in
      append_headers headers (acc ++ [(name, value)])
  end.

Definition request_builder `{HttpNames} (policy : SourceUrlPolicy) (method : HttpMethod) (url : Url)
    (credential_header : CredentialHeaderTemplate) (credential : string) (headers : list (string * string))
    : result DiscoveryRequest DiscoveryServiceError :=
  let? _ := map_err of_policy_error (validate_request_url policy url) in
  let? headers := append_headers headers [] in
  let? credential_name := ok_or (header_name (ch_header credential_header)) InvalidHeaderTemplate in
  Ok (mkDiscoveryRequest method url
        (headers ++ [(credential_name, ch_prefix credential_header +:+ credential)]) None None).

Fixpoint render_template (value : Value) (model : string) {struct value} : Value :=
  match value with
  | VString s => if s =?s "{{model}}" then VString model else VString s
  | VArray items => VArray (map (fun item => render_template item model) items)
  | VObject object => VObject (map (fun kv => (kv.1, render_template kv.2 model)) object)
  | value => value
  end.

(** ** Responses *)

Definition too_large (status : Z) : SafeFailure :=
  mkSafeFailure "discovery_response_too_large" "upstream model-list response exceeded the size limit" (Some status).

(** The loop over the chunks: the body read so far, and its end. *)
Fixpoint read_chunks (status : Z) (broken : option HttpFailure) (chunks : list string) (body : string)
    : result string SafeFailure :=
  match chunks with
  | [] => match broken with Some error => Err (failure_transport error) | None => Ok body end
  | chunk :: chunks =>
      if MAX_DISCOVERY_RESPONSE_BYTES <? slen body + slen chunk then Err (too_large status)
      else read_chunks status broken chunks (body +:+ chunk)
  end.

Definition read_json_limited `{SerdeJson} (response : DiscoveryResponse) : result Value SafeFailure :=
  let status := dp_status response in
  if is_some_and (dp_content_length response) (fun length => MAX_DISCOVERY_RESPONSE_BYTES <? length)
  then Err (too_large status)
  else
    let? body := read_chunks status (dp_broken response) (dp_chunks response) "" in
    ok_or (from_slice body)
      (mkSafeFailure "invalid_discovery_json" "upstream model-list response was not valid JSON" (Some status)).

(** [path.split('.')] without its empty segments, then [Value::get]. *)
Definition path_segments (path : string) : list string :=
  List.filter (fun segment => negb (is_empty segment)) (split_char "."%char path).

Definition value_at_path (value : Value) (path : string) : option Value :=
  fold_left (fun current segment => current ≫= fun v => get v segment) (path_segments path) (Some value).

Definition invalid_shape : SafeFailure :=
  mkSafeFailure "invalid_discovery_shape" "upstream model-list response did not match the preset parser" (Some 200).

(** The fields of [metadata_paths] that the item has. *)
Definition discovered_fields (parser : DiscoveryParser) (item : Value) : list (MetadataField * Value) :=
  omap (fun fp => (fun v => (fp.1, v)) <$> value_at_path item fp.2) (dp_metadata_paths parser).

(** The id of an item, when it is an object with one. *)
Definition discovered_id (parser : DiscoveryParser) (item : Value) : option string :=
  if is_object item then
    opt_filter (fun id => negb (is_empty (trim id))) (value_at_path item (dp_id_path parser) ≫= as_str)
  else None.

Fixpoint parse_items (parser : DiscoveryParser) (items : list Value)
    (parsed : list (string * (Value * MetadataValues))) : result (list (string * (Value * MetadataValues))) SafeFailure :=
  match items with
  | [] => Ok parsed
  | item :: items =>
      let? id := ok_or (discovered_id parser item) invalid_shape in
      if is_some (bt_get parsed id)
      then Err (mkSafeFailure "duplicate_discovered_model"
                  "upstream model-list response contained duplicate model IDs" (Some 200))
      else
        let? metadata :=
          map_err (fun _ => mkSafeFailure "invalid_discovery_metadata"
                              "upstream model metadata did not match the preset parser" (Some 200))
            (from_fields (discovered_fields parser item)) in
        parse_items parser items (bt_insert parsed id (item, metadata))
  end.

Definition parse_discovered_models (raw : Value) (parser : DiscoveryParser)
    : result (list (string * Value * MetadataValues)) SafeFailure :=
  let? list := ok_or (value_at_path raw (dp_list_path parser) ≫= as_array) invalid_shape in
  let? parsed := parse_items parser list [] in
  Ok (map (fun kv => (kv.1, kv.2.1, kv.2.2)) parsed).

Definition normalized_actor (value : string) : string :=
  let value := trim value in if is_empty value then "admin_api" else take_chars 128 value.

(** [Instant::elapsed] in milliseconds, of nanosecond clocks. *)
Definition elapsed_ms (started now : Z) : Z := Z.min I64_MAX (sat_sub now started / 1000000).

(** ** The service *)

Class DiscoveryEnv : Type := {
  dv_utc : nat -> Z;                                             (** [Utc::now()] *)
  dv_instant : nat -> Z;                                         (** [Instant::now()], in nanoseconds *)
  dv_var : string -> option string;                              (** [std::env::var] *)
  dv_id : nat -> Z;                                              (** the next id of a row *)
  dv_policy : SourceUrlPolicy;
  dv_send : nat -> DiscoveryRequest -> result DiscoveryResponse HttpFailure;
}.

Record DiscoveryState : Type := mkDiscoveryState {
  ds_tick : nat;
  ds_db : CatalogDb;
  ds_sent : list DiscoveryRequest;
}.

(** Effects that may stop with an error; the state is kept. *)
Definition Dm (A : Type) : Type := DiscoveryState -> result A DiscoveryServiceError * DiscoveryState.

Definition d_ret {A} (x : A) : Dm A := fun s => (Ok x, s).
Definition d_bind {A B} (m : Dm A) (f : A -> Dm B) : Dm B := fun s =>
  match m s with (Ok x, s) => f x s | (Err e, s) => (Err e, s) end.
Notation "'let@' x ':=' m 'in' k" := (d_bind m (fun x => k))
  (at level 10, x name, m at level 100, k at level 200) : gw_scope.

Definition d_of {A} (r : result A DiscoveryServiceError) : Dm A := fun s => (r, s).
Definition d_ask {A} (f : nat -> A) : Dm A := fun s =>
  (Ok (f (ds_tick s)), mkDiscoveryState (S (ds_tick s)) (ds_db s) (ds_sent s)).
Definition d_read {A} (f : CatalogDb -> A) : Dm A := fun s => (Ok (f (ds_db s)), s).

(** A repository operation. *)
Definition d_db {A} (op : CatalogDb -> result A CatalogError * CatalogDb) : Dm A := fun s =>
  let '(r, db) := op (ds_db s) in (map_err DsCatalog r, mkDiscoveryState (ds_tick s) db (ds_sent s)).
Definition d_query {A} (q : CatalogDb -> result A CatalogError) : Dm A := d_db (fun db => (q db, db)).

Section Service.
Context `{DiscoveryEnv} `{UrlCrates} `{PresetSerde} `{HttpNames} `{SerdeJson} {text : SerdeText} `{Collation}.

Definition d_send (request : DiscoveryRequest) : Dm (result DiscoveryResponse HttpFailure) := fun s =>
  (Ok (dv_send (ds_tick s) request),
   mkDiscoveryState (S (ds_tick s)) (ds_db s) (ds_sent s ++ [request])).

Definition discovery_credential (source_id account_id : string) (db : CatalogDb)
    : result string DiscoveryServiceError :=
  let? account := map_err DsCatalog (get_account_credential_ref source_id account_id db) in
  let? env_name := ok_or (ar_credential_env account) AccountCredentialUnavailable in
  ok_or (opt_filter (fun credential => negb (is_empty credential)) (dv_var env_name)) AccountCredentialUnavailable.

(** [resolve_credential]; the inner result is what the callers match on. *)
Definition resolve_discovery_credential (source_id account_id : string)
    : Dm (result string DiscoveryServiceError) :=
  d_read (discovery_credential source_id account_id).

Definition record_connection_failure (source_id : string) (account_id : option string)
    (protocol upstream_protocol : Protocol) (mode : SourceProtocolMode) (requested_by : string) (tested_at latency_ms : Z)
    (failure : SafeFailure) : Dm ConnectionTestRecord :=
  let@ id := d_ask dv_id in
  d_db (run_tx (record_connection_test
    (mkConnectionTestInput source_id account_id protocol upstream_protocol mode "failed" (sf_http_status failure)
       latency_ms (Some (sf_code failure)) (Some (sf_message failure)) (normalized_actor requested_by) tested_at) id)).

Definition credential_failure : SafeFailure :=
  mkSafeFailure "credential_unavailable" "account credential environment variable is unavailable" None.

(** The request of a connection test. *)
Definition test_request (source : SourceRecord) (protocol : Protocol) (protocol_preset : ProtocolPreset)
    (auth : SourceAuthConfig) (credential : string) (model : option string)
    : result DiscoveryRequest DiscoveryServiceError :=
  let? endpoint := source_endpoint source protocol (pt_endpoint protocol_preset) in
  let? url := source_url (so_base_url source) endpoint in
  let model := unwrap_or (opt_filter (fun model => negb (is_empty (trim model))) model)
                 (ct_default_model (pt_connection_test protocol_preset)) in
  let body := render_template (ct_body (pt_connection_test protocol_preset)) model in
  let? request := request_builder dv_policy (ct_method (pt_connection_test protocol_preset)) url
                    (sa_credential_header auth) credential (sa_default_headers auth ++ pt_headers protocol_preset) in
  let? body := ok_or (to_string body) InvalidPreset in
  Ok (mkDiscoveryRequest (dq_method request) (dq_url request) (dq_headers request) (Some body) (Some 120000)).

Definition test_connection (source_id account_id : string) (protocol : Protocol) (model : option string)
    (requested_by : string) : Dm ConnectionTestRecord :=
  let@ source := d_query (get_source source_id) in
  let@ preset := d_of (parse_preset source) in
  let@ protocol_preset := d_of (ok_or (bt_get (pd_protocols preset) protocol) InvalidPreset) in
  let@ source_capabilities := d_of (source_protocol_capabilities source) in
  let@ source_capability := d_of (ok_or (bt_get source_capabilities protocol) InvalidPreset) in
  let upstream_protocol := unwrap_or (sq_source_protocol source_capability) protocol in
  let mode := sq_mode source_capability in
  let@ auth := d_of (source_auth source) in
  let@ started := d_ask dv_instant in
  let@ tested_at := d_ask dv_utc in
  let fail failure :=
    let@ now := d_ask dv_instant in
    record_connection_failure source_id (Some account_id) protocol upstream_protocol mode requested_by tested_at
      (elapsed_ms started now) failure in
  if bool_decide (mode = SmUnknown) || bool_decide (mode = SmUnsupported)
  then fail (mkSafeFailure "protocol_unsupported" "source preset does not provide this protocol" None)
  else
    let@ credential := resolve_discovery_credential source_id account_id in
    match credential with
    | Err AccountCredentialUnavailable => fail credential_failure
    | Err error => d_of (Err error)
    | Ok credential =>
        let@ request := d_of (test_request source protocol protocol_preset auth credential model) in
        let@ response := d_send request in
        match response with
        | Err error => fail (failure_transport error)
        | Ok response =>
            let status := dp_status response in
            let@ now := d_ask dv_instant in
            let latency_ms := elapsed_ms started now in
            if negb ((200 <=? status) && (status <? 300))
            then record_connection_failure source_id (Some account_id) protocol upstream_protocol mode requested_by
                   tested_at latency_ms (failure_http status)
            else
              let@ id := d_ask dv_id in
              d_db (run_tx (record_connection_test
                (mkConnectionTestInput source_id (Some account_id) protocol upstream_protocol mode "succeeded"
                   (Some status) latency_ms None None (normalized_actor requested_by) tested_at) id))
        end
    end.

Definition record_failed_discovery (source : SourceRecord) (account_id requested_by : string) (started_at started : Z)
    (failure : SafeFailure) : Dm DiscoveryExecution :=
  let@ now := d_ask dv_instant in
  let@ completed_at := d_ask dv_utc in
  let@ id := d_ask dv_id in
  let@ run := d_db (run_tx (record_discovery_failure
    (mkDiscoveryFailureInput (so_id source) (Some account_id) "failed" (sf_http_status failure)
       (elapsed_ms started now) (sf_code failure) (sf_message failure) (normalized_actor requested_by) started_at
       completed_at) id)) in
  d_ret (mkDiscoveryExecution run empty_diff []).

(** The refresh of one parsed model. *)
Definition refresh_of (source_id : string) (completed_at : Z) (db : CatalogDb) (m : string * Value * MetadataValues)
    : result SourceModelRefresh CatalogError :=
  let '(upstream_model_id, raw_snapshot, upstream_metadata) := m in
  let? matched :=
    match match_model_preset upstream_model_id db with
    | Some record =>
        let? metadata := preset_metadata record in
        Ok (Some (mkModelPresetRef (mr_id record) (mr_version record)), Some (md_values metadata))
    | None => Ok (None, None)
    end in
  Ok (mkSourceModelRefresh source_id upstream_model_id raw_snapshot upstream_metadata matched.1 matched.2 completed_at).

Fixpoint refreshes_of (source_id : string) (completed_at : Z) (l : list (string * Value * MetadataValues))
    (db : CatalogDb) : result (list SourceModelRefresh) CatalogError :=
  match l with
  | [] => Ok []
  | m :: l =>
      let? r := refresh_of source_id completed_at db m in
      let? rest := refreshes_of source_id completed_at l db in
      Ok (r :: rest)
  end.

(** The request of a discovery. *)
Definition discovery_request (source : SourceRecord) (auth : SourceAuthConfig) (method : HttpMethod)
    (endpoint credential : string) : result DiscoveryRequest DiscoveryServiceError :=
  let? url := source_url (so_base_url source) endpoint in
  request_builder dv_policy method url (sa_credential_header auth) credential (sa_default_headers auth).

Definition discover (source_id account_id requested_by : string) : Dm DiscoveryExecution :=
  let@ source := d_query (get_source source_id) in
  let@ preset := d_of (parse_preset source) in
  let@ auth := d_of (source_auth source) in
  let@ started_at := d_ask dv_utc in
  let@ started := d_ask dv_instant in
  match pd_discovery preset with
  | DiscoveryUnsupported reason =>
      let@ now := d_ask dv_instant in
      let@ completed_at := d_ask dv_utc in
      let@ id := d_ask dv_id in
      let@ run := d_db (run_tx (record_discovery_failure
        (mkDiscoveryFailureInput source_id (Some account_id) "unsupported" None (elapsed_ms started now)
           "discovery_unsupported" reason (normalized_actor requested_by) started_at completed_at) id)) in
      d_ret (mkDiscoveryExecution run empty_diff [])
  | DiscoverySupported method endpoint parser =>
      let fail := record_failed_discovery source account_id requested_by started_at started in
      let@ credential := resolve_discovery_credential source_id account_id in
      match credential with
      | Err AccountCredentialUnavailable => fail credential_failure
      | Err error => d_of (Err error)
      | Ok credential =>
          let@ request := d_of (discovery_request source auth method endpoint credential) in
          let@ response := d_send request in
          match response with
          | Err error => fail (failure_transport error)
          | Ok response =>
              if negb ((200 <=? dp_status response) && (dp_status response <? 300))
              then fail (failure_http (dp_status response))
              else
                match read_json_limited response with
                | Err failure => fail failure
                | Ok raw =>
                    match parse_discovered_models raw parser with
                    | Err failure => fail failure
                    | Ok parsed =>
                        let@ completed_at := d_ask dv_utc in
                        let@ models := d_query (refreshes_of source_id completed_at parsed) in
                        let@ now := d_ask dv_instant in
                        let@ id := d_ask dv_id in
                        let@ db_now := d_ask dv_utc in
                        let@ applied := d_db (apply_discovery
                          (mkDiscoveryApplyInput source_id (Some account_id) raw models (dp_status response)
                             (elapsed_ms started now) (normalized_actor requested_by) started_at completed_at) id db_now) in
                        d_ret (mkDiscoveryExecution (da_run applied) (da_diff applied) (da_models applied))
                    end
                end
          end
      end
  end.
End Service.

(** ** Reasoning about the service *)

Definition wp {A} (m : Dm A) (Q : result A DiscoveryServiceError -> DiscoveryState -> Prop) (s : DiscoveryState) : Prop :=
  Q (m s).1 (m s).2.

Lemma wp_bind {A B} (m : Dm A) (f : A -> Dm B) Q s :
  wp m (fun r s' => match r with Ok x => wp (f x) Q s' | Err e => Q (Err e) s' end) s -> wp (d_bind m f) Q s.
Proof. unfold wp, d_bind. by destruct (m s) as [[x|e] s']. Qed.

Lemma wp_mono {A} (m : Dm A) (Q R : result A DiscoveryServiceError -> DiscoveryState -> Prop) s :
  wp m Q s -> (forall r s', Q r s' -> R r s') -> wp m R s.
Proof. unfold wp. auto. Qed.

(** The clocks and ids of an effect do not matter to the catalogue. *)
Definition same_data (s s' : DiscoveryState) : Prop := ds_db s' = ds_db s /\ ds_sent s' = ds_sent s.

Lemma wp_ask {A B} (f : nat -> A) (k : A -> Dm B) Q s :
  (forall x s', same_data s s' -> wp (k x) Q s') -> wp (d_bind (d_ask f) k) Q s.
Proof. intros Hk. apply wp_bind. by apply Hk. Qed.

Lemma wp_of {A B} (r : result A DiscoveryServiceError) (k : A -> Dm B) Q s :
  (forall x, r = Ok x -> wp (k x) Q s) -> (forall e, Q (Err e) s) -> wp (d_bind (d_of r) k) Q s.
Proof. intros Hk He. apply wp_bind. unfold wp at 1. cbn. destruct r; [by apply Hk|apply He]. Qed.

Lemma wp_query {A B} (q : CatalogDb -> result A CatalogError) (k : A -> Dm B) Q s :
  (forall x, q (ds_db s) = Ok x -> wp (k x) Q s) -> (forall e, Q (Err e) s) -> wp (d_bind (d_query q) k) Q s.
Proof.
  intros Hk He. apply wp_bind. unfold wp, d_query, d_db. cbn. destruct s as [t db sent]. cbn in *.
  destruct (q db); cbn; [by apply Hk|apply He].
Qed.

Lemma wp_read {A B} (f : CatalogDb -> A) (k : A -> Dm B) Q s :
  wp (k (f (ds_db s))) Q s -> wp (d_bind (d_read f) k) Q s.
Proof. intros Hk. by apply wp_bind. Qed.

Lemma same_data_trans s1 s2 s3 : same_data s1 s2 -> same_data s2 s3 -> same_data s1 s3.
Proof. unfold same_data. intuition congruence. Qed.

Lemma same_data_refl s : same_data s s.
Proof. done. Qed.

(** Every text a failure can put on record. *)
Definition safe_texts : list (string * string) :=
  [("credential_unavailable", "account credential environment variable is unavailable");
   ("protocol_unsupported", "source preset does not provide this protocol");
   ("source_url_blocked", "source URL is blocked by server policy");
   ("upstream_timeout", "upstream request timed out");
   ("upstream_connect_failed", "upstream connection failed");
   ("upstream_request_failed", "upstream request failed");
   ("upstream_http_error", "upstream returned a non-success HTTP status");
   ("discovery_response_too_large", "upstream model-list response exceeded the size limit");
   ("invalid_discovery_json", "upstream model-list response was not valid JSON");
   ("invalid_discovery_shape", "upstream model-list response did not match the preset parser");
   ("duplicate_discovered_model", "upstream model-list response contained duplicate model IDs");
   ("invalid_discovery_metadata", "upstream model metadata did not match the preset parser")].

Definition safe_failure (f : SafeFailure) : bool :=
  existsb (fun ct => (ct.1 =?s sf_code f) && (ct.2 =?s sf_message f)) safe_texts.

Lemma failure_transport_safe e : safe_failure (failure_transport e) = true.
Proof. by destruct e. Qed.

Lemma failure_http_safe status : safe_failure (failure_http status) = true.
Proof. done. Qed.

Lemma read_chunks_safe status broken chunks body f :
  read_chunks status broken chunks body = Err f -> safe_failure f = true.
Proof.
  revert body. induction chunks as [|c chunks IH]; intros body; cbn [read_chunks].
  - destruct broken; [|done]. intros [= <-]. apply failure_transport_safe.
  - destruct (_ <? _); [by intros [= <-]|]. apply IH.
Qed.

Lemma read_json_limited_safe `{SerdeJson} response f : read_json_limited response = Err f -> safe_failure f = true.
Proof.
  unfold read_json_limited. destruct (is_some_and _ _); [by intros [= <-]|].
  destruct (read_chunks _ _ _ _) eqn:E; cbn [rbind].
  - destruct (from_slice _); cbn; [done|by intros [= <-]].
  - intros [= <-]. by eapply read_chunks_safe.
Qed.

Lemma parse_items_safe parser items parsed f : parse_items parser items parsed = Err f -> safe_failure f = true.
Proof.
  revert parsed. induction items as [|i items IH]; intros parsed; cbn [parse_items]; [done|].
  destruct (discovered_id _ _); cbn [ok_or rbind]; [|by intros [= <-]].
  destruct (is_some _); [by intros [= <-]|]. destruct (from_fields _); cbn [map_err rbind]; [|by intros [= <-]]. apply IH.
Qed.

Lemma parse_discovered_safe raw parser f : parse_discovered_models raw parser = Err f -> safe_failure f = true.
Proof.
  unfold parse_discovered_models. destruct (_ ≫= as_array); cbn [ok_or rbind]; [|by intros [= <-]].
  destruct (parse_items _ _ _) eqn:E; cbn [rbind]; [done|]. intros [= <-]. by eapply parse_items_safe.
Qed.

Section Outcome.
Context `{DiscoveryEnv} `{UrlCrates} `{PresetSerde} `{HttpNames} `{SerdeJson} {text : SerdeText} `{Collation}.

(** What a request may be: it goes to the source's own base URL, which the
    policy admits, and its last header is the credential of the account, an
    enabled account of that source. *)
Definition request_safe (db : CatalogDb) (source_id account_id : string) (q : DiscoveryRequest) : Prop :=
  exists source auth credential endpoint name,
    cd_sources db !! source_id = Some source /\ source_auth source = Ok auth
    /\ discovery_credential source_id account_id db = Ok credential
    /\ source_url (so_base_url source) endpoint = Ok (dq_url q)
    /\ validate_request_url dv_policy (dq_url q) = Ok tt
    /\ header_name (ch_header (sa_credential_header auth)) = Some name
    /\ last (dq_headers q) = Some (name, ch_prefix (sa_credential_header auth) +:+ credential).

(** At most one request, and only a safe one. *)
Definition sent_safely (s s' : DiscoveryState) (source_id account_id : string) : Prop :=
  ds_sent s' = ds_sent s
  \/ exists q, ds_sent s' = ds_sent s ++ [q] /\ request_safe (ds_db s) source_id account_id q.

Lemma get_source_Some id db source : get_source id db = Ok source -> cd_sources db !! id = Some source.
Proof. unfold get_source. destruct (_ !! _); cbn; [by intros [= ->]|done]. Qed.

Lemma request_builder_ok policy method url ch credential headers q :
  request_builder policy method url ch credential headers = Ok q ->
  validate_request_url policy url = Ok tt /\ dq_url q = url
  /\ exists name, header_name (ch_header ch) = Some name /\ last (dq_headers q) = Some (name, ch_prefix ch +:+ credential).
Proof.
  unfold request_builder. destruct (validate_request_url policy url) as [[]|]; cbn [map_err rbind]; [|done].
  destruct (append_headers headers []); cbn [rbind]; [|done].
  destruct (header_name (ch_header ch)) as [name|]; cbn [ok_or rbind]; [|done]. intros [= <-]. cbn. split_and!; [done|done|].
  exists name. by rewrite last_snoc.
Qed.

(** *** Recording *)

(** A run that found nothing, and why. *)
Definition failed_run (run : DiscoveryRunRecord) : Prop :=
  (dr_status run = "failed" /\ exists code message, dr_error_code run = Some code /\ dr_error_message run = Some message
     /\ safe_failure (mkSafeFailure code message None) = true)
  \/ (dr_status run = "unsupported" /\ dr_error_code run = Some "discovery_unsupported").

(** What a discovery does to the catalogue: nothing, if it is an error; one
    run is recorded otherwise, with its models when it succeeded. *)
Definition discovery_outcome (db : CatalogDb) (r : result DiscoveryExecution DiscoveryServiceError) (db' : CatalogDb)
    : Prop :=
  match r with
  | Err _ => db' = db
  | Ok x =>
      (exists input run_id now res, apply_discovery input run_id now db = (Ok res, db')
         /\ dr_status (dx_run x) = "succeeded"
         /\ x = mkDiscoveryExecution (da_run res) (da_diff res) (da_models res))
      \/ (db' = set_runs db (cd_runs db ++ [dx_run x]) /\ failed_run (dx_run x)
          /\ dx_diff x = empty_diff /\ dx_models x = [])
  end.

Lemma record_discovery_failure_ok input id db run db' :
  record_discovery_failure input id db = Ok (run, db') ->
  db' = set_runs db (cd_runs db ++ [run]) /\ dr_status run = fi_status input
  /\ dr_error_code run = Some (fi_error_code input) /\ dr_error_message run = Some (fi_error_message input).
Proof.
  unfold record_discovery_failure. destruct (_ : bool); [done|].
  destruct (get_source _ _); cbn [rbind]; [|done]. destruct (account_checked _ _ _); cbn [rbind]; [|done].
  by intros [= <- <-].
Qed.

(** The tail of every failure: one statement, its row in the result. *)
Lemma wp_record_run input id s (Q : result DiscoveryExecution DiscoveryServiceError -> DiscoveryState -> Prop) :
  (forall run s', ds_sent s' = ds_sent s -> ds_db s' = set_runs (ds_db s) (cd_runs (ds_db s) ++ [run]) ->
     dr_status run = fi_status input -> dr_error_code run = Some (fi_error_code input) ->
     dr_error_message run = Some (fi_error_message input) -> Q (Ok (mkDiscoveryExecution run empty_diff [])) s') ->
  (forall e s', same_data s s' -> Q (Err e) s') ->
  wp (d_bind (d_db (run_tx (record_discovery_failure input id))) (fun run => d_ret (mkDiscoveryExecution run empty_diff []))) Q s.
Proof.
  intros Hok Herr. apply wp_bind. unfold wp at 1, d_db. cbn. destruct (run_tx _ (ds_db s)) as [[run|e] db'] eqn:E; cbn.
  - apply run_tx_ok, record_discovery_failure_ok in E as (Hdb & Hst & Hc & Hm). by apply Hok.
  - apply run_tx_err in E as ->. by apply Herr.
Qed.

Lemma wp_record_failed source account_id requested_by started_at started f s s0 source_id :
  ds_db s = ds_db s0 -> sent_safely s0 s source_id account_id -> safe_failure f = true ->
  wp (record_failed_discovery source account_id requested_by started_at started f)
    (fun r s' => sent_safely s0 s' source_id account_id /\ discovery_outcome (ds_db s0) r (ds_db s')) s.
Proof.
  intros Hdb Hsent Hf. unfold record_failed_discovery.
  apply wp_ask; intros now s1 [Hd1 Hs1]. apply wp_ask; intros completed s2 [Hd2 Hs2].
  apply wp_ask; intros id s3 [Hd3 Hs3]. apply wp_record_run.
  - intros run s' Hs' Hd' Hst Hc Hm. split; [unfold sent_safely in *; by rewrite Hs', Hs3, Hs2, Hs1|]. right. cbn.
    rewrite Hd', Hd3, Hd2, Hd1, Hdb. split_and!; [done| |done|done]. left. split; [done|]. by exists (sf_code f), (sf_message f).
  - intros e s' [Hd' Hs']. split; [unfold sent_safely in *; by rewrite Hs', Hs3, Hs2, Hs1|]. cbn. congruence.
Qed.

(** The run of an applied discovery succeeded. *)
Lemma applied_run input run_id now db res db' :
  apply_discovery input run_id now db = (Ok res, db') -> dr_status (da_run res) = "succeeded".
Proof.
  unfold apply_discovery. destruct (check_apply input); [|done]. rewrite run_tx_ok. unfold apply_discovery_tx.
  intros (so & s0 & _ & HX)%tx_bind_inv. apply tx_bind_inv in HX as (u & s1 & _ & HX).
  apply tx_bind_inv in HX as (b & s2 & _ & HX). apply tx_bind_inv in HX as (st & s3 & _ & HX).
  apply tx_bind_inv in HX as (dr & s4 & _ & HX). apply tx_bind_inv in HX as (v & s5 & _ & HX).
  apply tx_bind_inv in HX as (w & s6 & _ & [= <- <-]). done.
Qed.

Lemma test_request_ok source protocol preset auth credential model q :
  test_request source protocol preset auth credential model = Ok q ->
  exists endpoint name, source_url (so_base_url source) endpoint = Ok (dq_url q)
    /\ validate_request_url dv_policy (dq_url q) = Ok tt
    /\ header_name (ch_header (sa_credential_header auth)) = Some name
    /\ last (dq_headers q) = Some (name, ch_prefix (sa_credential_header auth) +:+ credential).
Proof.
  unfold test_request. destruct (source_endpoint _ _ _) as [endpoint|]; cbn [rbind]; [|done].
  destruct (source_url _ _) as [url|] eqn:Eu; cbn [rbind]; [|done].
  destruct (request_builder _ _ _ _ _ _) as [r|] eqn:Er; cbn [rbind]; [|done].
  destruct (to_string _); cbn [ok_or rbind]; [|done]. intros [= <-]. cbn.
  apply request_builder_ok in Er as (Hv & -> & name & Hn & Hl). by exists endpoint, name.
Qed.

Lemma discovery_request_ok source auth method endpoint credential q :
  discovery_request source auth method endpoint credential = Ok q ->
  exists name, source_url (so_base_url source) endpoint = Ok (dq_url q)
    /\ validate_request_url dv_policy (dq_url q) = Ok tt
    /\ header_name (ch_header (sa_credential_header auth)) = Some name
    /\ last (dq_headers q) = Some (name, ch_prefix (sa_credential_header auth) +:+ credential).
Proof.
  unfold discovery_request. destruct (source_url _ _) as [url|]; cbn [rbind]; [|done]. intros Hr.
  apply request_builder_ok in Hr as (Hv & -> & name & Hn & Hl). by exists name.
Qed.

Lemma same_sent s0 s s' source_id account_id :
  same_data s s' -> sent_safely s0 s source_id account_id -> sent_safely s0 s' source_id account_id.
Proof. unfold sent_safely. by intros [_ ->]. Qed.

(** C31. Model discovery is safe and leaves exactly one record: it sends at most one
    request, to the source's own base URL as the policy admits it and with the
    account's credential as its last header; on an error the catalogue is
    unchanged; otherwise exactly one run is recorded, and the models change
    only when the run succeeded.  The texts of a failed run come from a fixed
    list, so neither the credential nor the response can appear in it. *)
Theorem discovery_is_recorded_safely (source_id account_id requested_by : string) (s s' : DiscoveryState)
    (r : result DiscoveryExecution DiscoveryServiceError) :
  discover source_id account_id requested_by s = (r, s') ->
  sent_safely s s' source_id account_id /\ discovery_outcome (ds_db s) r (ds_db s').
Proof.
  intros Hd. assert (wp (discover source_id account_id requested_by)
    (fun r s' => sent_safely s s' source_id account_id /\ discovery_outcome (ds_db s) r (ds_db s')) s) as Hwp;
    [|unfold wp in Hwp; by rewrite Hd in Hwp].
  clear Hd r s'. assert (sent_safely s s source_id account_id) as Hs0 by (by left). unfold discover.
  apply wp_query; [intros source Hsource%get_source_Some|intros e; by split].
  apply wp_of; [intros preset _|intros e; by split]. apply wp_of; [intros auth Hauth|intros e; by split].
  apply wp_ask; intros started_at s1 Hsd1. apply wp_ask; intros started s2 Hsd2.
  pose proof (same_data_trans _ _ _ Hsd1 Hsd2) as Hsd. pose proof (same_sent _ _ _ _ _ Hsd Hs0) as Hs2.
  destruct Hsd as [Hdb Hsent]. clear s1 Hsd1 Hsd2.
  destruct (pd_discovery preset) as [method endpoint parser|reason].
  2:{ apply wp_ask; intros now s3 [Hd3 Hs3]. apply wp_ask; intros completed s4 [Hd4 Hs4].
      apply wp_ask; intros id s5 [Hd5 Hs5]. apply wp_record_run.
      - intros run s' Hs' Hd' Hst Hc Hm. split; [left; congruence|]. right. cbn. rewrite Hd', Hd5, Hd4, Hd3, Hdb.
        split_and!; [done| |done|done]. right. by split.
      - intros e s' [Hd' Hs']. split; [left; congruence|]. cbn. congruence. }
  apply wp_read. rewrite Hdb. destruct (discovery_credential source_id account_id (ds_db s)) as [credential|e] eqn:Ecred.
  2:{ destruct e; try (by split); by apply wp_record_failed. }
  apply wp_of; [intros q Hq|intros e; by split]. apply discovery_request_ok in Hq as (name & Hurl & Hpol & Hname & Hlast).
  apply wp_bind. unfold wp at 1, d_send. cbn.
  set (s3 := mkDiscoveryState (S (ds_tick s2)) (ds_db s2) (ds_sent s2 ++ [q])).
  assert (sent_safely s s3 source_id account_id) as Hs3.
  { right. exists q. split; [cbn; by rewrite Hsent|]. exists source, auth, credential, endpoint, name. done. }
  destruct (dv_send (ds_tick s2) q) as [response|e]; [|apply wp_record_failed; [done|done|apply failure_transport_safe]].
  destruct (negb _); [by apply wp_record_failed|].
  destruct (read_json_limited response) as [raw|f] eqn:Eraw;
    [|apply wp_record_failed; [done|done|by eapply read_json_limited_safe]].
  destruct (parse_discovered_models raw parser) as [parsed|f] eqn:Eparsed;
    [|apply wp_record_failed; [done|done|by eapply parse_discovered_safe]].
  apply wp_ask; intros completed s4 Hsd4. pose proof (same_sent _ _ _ _ _ Hsd4 Hs3) as Hs4. destruct Hsd4 as [Hd4 _].
  apply wp_query; [intros models _|intros e; split; [done|cbn in *; congruence]].
  apply wp_ask; intros now s5 Hsd5. apply wp_ask; intros id s6 Hsd6. apply wp_ask; intros db_now s7 Hsd7.
  pose proof (same_data_trans _ _ _ (same_data_trans _ _ _ Hsd5 Hsd6) Hsd7) as Hsd.
  pose proof (same_sent _ _ _ _ _ Hsd Hs4) as Hs7. destruct Hsd as [Hd7 _].
  assert (ds_db s7 = ds_db s) as Hdb7 by (cbn in *; congruence).
  apply wp_bind. unfold wp at 1, d_db. cbn. set (input := mkDiscoveryApplyInput _ _ _ _ _ _ _ _ _).
  destruct (apply_discovery input id db_now (ds_db s7)) as [[res|e] db'] eqn:Ea; cbn.
  - split; [exact Hs7|]. left. exists input, id, db_now, res. rewrite Hdb7 in Ea. split; [done|]. split; [|done].
    cbn. exact (applied_run _ _ _ _ _ _ Ea).
  - split; [exact Hs7|]. cbn. rewrite <- Hdb7. unfold apply_discovery in Ea.
    destruct (check_apply input); [by apply run_tx_err in Ea|congruence].
Qed.

(** *** Connection tests *)

Definition test_outcome (db : CatalogDb) (r : result ConnectionTestRecord DiscoveryServiceError) (db' : CatalogDb)
    : Prop :=
  match r with
  | Err _ => db' = db
  | Ok rec =>
      db' = set_tests db (cd_tests db ++ [rec])
      /\ ((cr_status rec = "succeeded" /\ cr_error_code rec = None /\ cr_error_message rec = None
           /\ exists status, cr_http_status rec = Some status /\ 200 <= status < 300)
          \/ (cr_status rec = "failed" /\ exists code message, cr_error_code rec = Some code
                /\ cr_error_message rec = Some message /\ safe_failure (mkSafeFailure code message None) = true))
  end.

Lemma wp_record_test (input : ConnectionTestInput) id s (Q : result ConnectionTestRecord DiscoveryServiceError -> DiscoveryState -> Prop) :
  (forall rec s', ds_sent s' = ds_sent s -> ds_db s' = set_tests (ds_db s) (cd_tests (ds_db s) ++ [rec]) ->
     cr_status rec = ti_status input -> cr_error_code rec = ti_error_code input ->
     cr_error_message rec = ti_error_message input -> cr_http_status rec = ti_http_status input -> Q (Ok rec) s') ->
  (forall e s', same_data s s' -> Q (Err e) s') ->
  wp (d_db (run_tx (record_connection_test input id))) Q s.
Proof.
  intros Hok Herr. unfold wp, d_db. destruct (run_tx _ (ds_db s)) as [[rec|e] db'] eqn:E; cbn.
  - apply run_tx_ok in E. unfold record_connection_test in E. destruct (_ : bool); [done|].
    destruct (get_source _ _); cbn [rbind] in E; [|done]. destruct (account_checked _ _ _); cbn [rbind] in E; [|done].
    injection E as <- <-. by apply Hok.
  - apply run_tx_err in E as ->. by apply Herr.
Qed.

Lemma wp_connection_failure s0 source_id account_id protocol upstream mode requested_by tested_at latency f s :
  ds_db s = ds_db s0 -> sent_safely s0 s source_id account_id -> safe_failure f = true ->
  wp (record_connection_failure source_id (Some account_id) protocol upstream mode requested_by tested_at latency f)
    (fun r s' => sent_safely s0 s' source_id account_id /\ test_outcome (ds_db s0) r (ds_db s')) s.
Proof.
  intros Hdb Hsent Hf. unfold record_connection_failure. apply wp_ask; intros id s1 [Hd1 Hs1]. apply wp_record_test.
  - intros rec s' Hs' Hd' Hst Hc Hm _. split; [unfold sent_safely in *; by rewrite Hs', Hs1|].
    cbn. rewrite Hd', Hd1, Hdb. split; [done|]. right. split; [done|]. by exists (sf_code f), (sf_message f).
  - intros e s' [Hd' Hs']. split; [unfold sent_safely in *; by rewrite Hs', Hs1|]. cbn. congruence.
Qed.

(** A connection test is safe and leaves exactly one record: it sends at most
    one request, a safe one, and none at all when the source does not serve the
    protocol; on an error the catalogue is unchanged; otherwise one test is
    recorded, as succeeded only for a 2xx answer, and as failed with a text of
    the fixed list. *)
Theorem connection_test_is_recorded_safely (source_id account_id : string) (protocol : Protocol)
    (model : option string) (requested_by : string) (s s' : DiscoveryState)
    (r : result ConnectionTestRecord DiscoveryServiceError) :
  test_connection source_id account_id protocol model requested_by s = (r, s') ->
  sent_safely s s' source_id account_id /\ test_outcome (ds_db s) r (ds_db s').
Proof.
  intros Hd. assert (wp (test_connection source_id account_id protocol model requested_by)
    (fun r s' => sent_safely s s' source_id account_id /\ test_outcome (ds_db s) r (ds_db s')) s) as Hwp;
    [|unfold wp in Hwp; by rewrite Hd in Hwp].
  clear Hd r s'. assert (sent_safely s s source_id account_id) as Hs0 by (by left). unfold test_connection.
  apply wp_query; [intros source Hsource%get_source_Some|intros e; by split].
  apply wp_of; [intros preset _|intros e; by split]. apply wp_of; [intros preset_protocol _|intros e; by split].
  apply wp_of; [intros capabilities _|intros e; by split]. apply wp_of; [intros capability _|intros e; by split].
  apply wp_of; [intros auth Hauth|intros e; by split].
  apply wp_ask; intros started s1 Hsd1. apply wp_ask; intros tested_at s2 Hsd2.
  pose proof (same_data_trans _ _ _ Hsd1 Hsd2) as Hsd. pose proof (same_sent _ _ _ _ _ Hsd Hs0) as Hs2.
  destruct Hsd as [Hdb Hsent]. clear s1 Hsd1 Hsd2.
  destruct (_ || _).
  { apply wp_ask; intros now s3 Hsd3. apply wp_connection_failure; [by destruct Hsd3; congruence| |done].
    by eapply same_sent. }
  apply wp_read. rewrite Hdb. destruct (discovery_credential source_id account_id (ds_db s)) as [credential|e] eqn:Ecred.
  2:{ destruct e; try (by split). apply wp_ask; intros now s3 Hsd3.
      apply wp_connection_failure; [by destruct Hsd3; congruence|by eapply same_sent|done]. }
  apply wp_of; [intros q Hq|intros e; by split].
  apply test_request_ok in Hq as (endpoint & name & Hurl & Hpol & Hname & Hlast).
  apply wp_bind. unfold wp at 1, d_send. cbn.
  set (s3 := mkDiscoveryState (S (ds_tick s2)) (ds_db s2) (ds_sent s2 ++ [q])).
  assert (sent_safely s s3 source_id account_id) as Hs3.
  { right. exists q. split; [cbn; by rewrite Hsent|]. exists source, auth, credential, endpoint, name. done. }
  destruct (dv_send (ds_tick s2) q) as [response|e].
  2:{ apply wp_ask; intros now s4 Hsd4.
      apply wp_connection_failure; [destruct Hsd4; cbn in *; congruence|by eapply same_sent|apply failure_transport_safe]. }
  apply wp_ask; intros now s4 Hsd4. pose proof (same_sent _ _ _ _ _ Hsd4 Hs3) as Hs4.
  destruct Hsd4 as [Hd4 _]. cbn in Hd4. destruct (negb _) eqn:Est; [apply wp_connection_failure; [congruence|done|done]|].
  apply wp_ask; intros id s5 Hsd5. pose proof (same_sent _ _ _ _ _ Hsd5 Hs4) as Hs5. destruct Hsd5 as [Hd5 _].
  apply wp_record_test.
  - intros rec s' Hs' Hd' Hst Hc Hm Hh. split; [unfold sent_safely in *; by rewrite Hs'|].
    cbn. rewrite Hd', Hd5, Hd4, Hdb. split; [done|]. left. split_and!; [done|done|done|]. exists (dp_status response).
    split; [done|]. apply negb_false_iff, andb_true_iff in Est as [?%Z.leb_le ?%Z.ltb_lt]. lia.
  - intros e s' [Hd' Hs']. split; [unfold sent_safely in *; by rewrite Hs'|]. cbn. congruence.
Qed.
End Outcome.

(** ** Reading a model list *)

Definition concat_chunks (chunks : list string) : string := foldr (fun c acc => c +:+ acc) "" chunks.

Lemma read_chunks_spec status broken chunks : forall body,
  slen body <= MAX_DISCOVERY_RESPONSE_BYTES ->
  read_chunks status broken chunks body
  = if MAX_DISCOVERY_RESPONSE_BYTES <? slen body + slen (concat_chunks chunks) then Err (too_large status)
    else match broken with
         | Some error => Err (failure_transport error)
         | None => Ok (body +:+ concat_chunks chunks)
         end.
Proof.
  induction chunks as [|c chunks IH]; intros body Hb; cbn [read_chunks concat_chunks foldr].
  { change (slen "") with 0. rewrite string_app_nil_r.
    destruct (Z.ltb_spec MAX_DISCOVERY_RESPONSE_BYTES (slen body + 0)); [lia|done]. }
  fold (concat_chunks chunks). rewrite slen_app. pose proof (Nat2Z.is_nonneg (String.length (concat_chunks chunks))).
  fold (slen (concat_chunks chunks)) in *.
  destruct (Z.ltb_spec MAX_DISCOVERY_RESPONSE_BYTES (slen body + slen c)) as [Hc|Hc].
  - destruct (Z.ltb_spec MAX_DISCOVERY_RESPONSE_BYTES (slen body + (slen c + slen (concat_chunks chunks)))); [done|].
    unfold slen in *. lia.
  - rewrite IH by (rewrite slen_app; lia). rewrite slen_app, string_app_assoc, Z.add_assoc. done.
Qed.

(** The model list is never buffered beyond 2 MiB: a declared or an actual
    length above the limit is an error, whatever comes after; below it the
    value is the parse of all chunks in order, a broken body is a transport
    failure and an unreadable one is reported as such. *)
Theorem discovery_body_limit `{SerdeJson} (response : DiscoveryResponse) :
  let status := dp_status response in
  let body := concat_chunks (dp_chunks response) in
  read_json_limited response
  = if is_some_and (dp_content_length response) (fun length => MAX_DISCOVERY_RESPONSE_BYTES <? length)
       || (MAX_DISCOVERY_RESPONSE_BYTES <? slen body)
    then Err (too_large status)
    else match dp_broken response with
         | Some error => Err (failure_transport error)
         | None => ok_or (from_slice body)
                     (mkSafeFailure "invalid_discovery_json" "upstream model-list response was not valid JSON" (Some status))
         end.
Proof.
  intros status body. unfold read_json_limited. fold status. destruct (is_some_and _ _); [done|]. cbn [orb].
  rewrite read_chunks_spec by done. fold body. change (slen "") with 0. rewrite Z.add_0_l.
  destruct (_ <? _); [done|]. by destruct (dp_broken response).
Qed.

(** What one item contributes. *)
Definition item_entry (parser : DiscoveryParser) (item : Value) (id : string) (metadata : MetadataValues) : Prop :=
  discovered_id parser item = Some id /\ from_fields (discovered_fields parser item) = Ok metadata.

Lemma parse_items_ok parser items : forall parsed r,
  bt_wf parsed -> parse_items parser items parsed = Ok r ->
  bt_wf r /\ length r = (length parsed + length items)%nat
  /\ (forall id v, (id, v) ∈ r <-> (id, v) ∈ parsed
        \/ exists item, item ∈ items /\ v.1 = item /\ item_entry parser item id v.2).
Proof.
  induction items as [|item items IH]; intros parsed r Hwf; cbn [parse_items].
  { intros [= <-]. split_and!; [done|cbn; lia|]. intros id v. split; [by left|]. intros [?|(i & Hi & _)]; [done|].
    by apply elem_of_nil in Hi. }
  destruct (discovered_id parser item) as [id|] eqn:Eid; cbn [ok_or rbind]; [|done].
  destruct (bt_get parsed id) eqn:Eg; cbn [is_some]; [done|].
  destruct (from_fields _) as [md|] eqn:Ef; cbn [map_err rbind]; [|done]. intros Hr.
  destruct (IH _ _ (bt_insert_wf _ id (item, md) Hwf) Hr) as (Hrwf & Hlen & Hin). split_and!; [done| |].
  - rewrite Hlen, bt_insert_length by done. cbn [length]. lia.
  - intros j v. rewrite Hin, <- !(bt_get_in _ _ _ (bt_insert_wf _ id (item, md) Hwf)), bt_get_insert by done.
    destruct (kcmp j id) eqn:Ek.
    + apply kcmp_eq in Ek as ->. split.
      * intros [[= <-]|(i & Hi & Hv)]; right; [exists item; split_and!; [by left|done|by split]|exists i; split; [by right|done]].
      * intros [Hp|(i & [->|Hi]%elem_of_cons & Hv & He)].
        -- apply bt_get_in in Hp; [|done]. congruence.
        -- left. destruct v as [v1 v2]. cbn in *. destruct He as [_ He]. congruence.
        -- right. by exists i.
    + rewrite bt_get_in by done. split.
      * intros [Hp|(i & Hi & Hv)]; [by left|right; exists i; split; [by right|done]].
      * intros [Hp|(i & [->|Hi]%elem_of_cons & Hv & He)]; [by left| |right; by exists i].
        destruct He as [He _]. rewrite Eid in He. injection He as <-. by rewrite kcmp_refl in Ek.
    + rewrite bt_get_in by done. split.
      * intros [Hp|(i & Hi & Hv)]; [by left|right; exists i; split; [by right|done]].
      * intros [Hp|(i & [->|Hi]%elem_of_cons & Hv & He)]; [by left| |right; by exists i].
        destruct He as [He _]. rewrite Eid in He. injection He as <-. by rewrite kcmp_refl in Ek.
Qed.

(** Distinct ids and readable items are accepted. *)
Lemma parse_items_total parser items : forall parsed,
  bt_wf parsed ->
  (forall item, item ∈ items -> exists id md, item_entry parser item id md /\ bt_get parsed id = None) ->
  NoDup (omap (discovered_id parser) items) -> exists r, parse_items parser items parsed = Ok r.
Proof.
  induction items as [|item items IH]; intros parsed Hwf Hall Hnd; cbn [parse_items]; [eauto|].
  destruct (Hall item (list_elem_of_here _ _)) as (id & md & [Hid Hmd] & Hnone).
  cbn in Hnd. rewrite Hid in Hnd |- *. apply NoDup_cons in Hnd as [Hfresh Hnd].
  cbn [ok_or rbind]. rewrite Hnone, Hmd. cbn [is_some map_err rbind]. apply IH; [by apply bt_insert_wf| |done].
  intros item' Hin'. destruct (Hall item' (list_elem_of_further _ _ _ Hin')) as (id' & md' & [Hid' Hmd'] & Hnone').
  exists id', md'. split; [done|]. rewrite bt_get_insert_ne; [done|done|]. intros ->. apply Hfresh.
  apply list_elem_of_omap. eauto.
Qed.

(** Parsing a model list is exact: it succeeds precisely when the list is
    there, every item is an object with a non-blank id, no id occurs twice and
    the metadata at the preset's paths is valid; the result has one entry per
    item with its own snapshot and metadata, in the order of the ids. *)
Theorem discovered_models_exact (raw : Value) (parser : DiscoveryParser) :
  (forall l, parse_discovered_models raw parser = Ok l -> exists items,
     value_at_path raw (dp_list_path parser) ≫= as_array = Some items
     /\ length l = length items
     /\ (forall id item metadata, (id, item, metadata) ∈ l <-> item ∈ items /\ item_entry parser item id metadata)
     /\ NoDup (map (fun m => m.1.1) l) /\ sort_by (fun m => m.1.1) l = l)
  /\ (forall items, value_at_path raw (dp_list_path parser) ≫= as_array = Some items ->
     (forall item, item ∈ items -> exists id metadata, item_entry parser item id metadata) ->
     NoDup (omap (discovered_id parser) items) -> exists l, parse_discovered_models raw parser = Ok l).
Proof.
  unfold parse_discovered_models. split.
  - intros l. destruct (_ ≫= as_array) as [items|]; cbn [ok_or rbind]; [|done].
    destruct (parse_items parser items []) as [r|] eqn:Er; cbn [rbind]; [|done]. intros [= <-]. exists items.
    destruct (parse_items_ok _ _ _ _ bt_wf_nil Er) as (Hwf & Hlen & Hin). split; [done|]. rewrite length_map.
    split; [done|]. split; [|split].
    + intros id item md. rewrite list_elem_of_fmap. split.
      * intros ([k [i m]] & [= -> -> ->] & Hr). apply Hin in Hr as [Hr|(x & Hx & Hv & He)]; [by apply elem_of_nil in Hr|].
        cbn in *. by subst.
      * intros [Hi He]. exists (id, (item, md)). split; [done|]. apply Hin. right. exists item. done.
    + rewrite map_map. cbn. by apply bt_wf_nodup.
    + clear -Hwf. induction r as [|[k [i m]] r IH]; [done|]. apply bt_wf_cons in Hwf as [Hr Hk]. cbn [map fst snd].
      change (sort_by ?f (?x :: ?l)) with (insert_by f x (sort_by f l)). rewrite IH by done.
      destruct r as [|[k' [i' m']] r]; [done|]. cbn [map insert_by fst snd].
      apply Forall_cons in Hk as [Hk _]. unfold klt in Hk. cbn [fst] in Hk. by rewrite Hk.
  - intros items -> Hall Hnd. cbn [ok_or rbind].
    destruct (parse_items_total parser items [] bt_wf_nil) as [r ->]; [|done|cbn; eauto].
    intros item Hi. destruct (Hall item Hi) as (id & md & He). by exists id, md.
Qed.

(** ** A concrete service *)

Definition example_serde : PresetSerde :=
  {| preset_to_value := fun _ => VObject []; preset_from_value := fun _ => Some deepseek.2;
     auth_to_value := fun _ => VObject [];
     auth_from_value := fun _ => Some (mkSourceAuthConfig bearer_auth json_headers);
     capabilities_to_value := fun _ => VObject [];
     capabilities_from_value := fun _ =>
       Some [(OpenAiChatCompletions, mkSourceProtocolCapability SmNative None None [])] |}.

Definition any_url : UrlCrates :=
  {| url_parse := fun s => Some (example_preset_url s); ipnet_from_str := fun _ => None |}.

Definition example_service (body : string) : DiscoveryEnv :=
  {| dv_utc := Z.of_nat; dv_instant := Z.of_nat; dv_var := fun name => Some (name +:+ "-secret"); dv_id := Z.of_nat;
     dv_policy := example_policy; dv_send := fun _ _ => Ok (mkDiscoveryResponse 200 None [body] None) |}.

Definition example_accounts : CatalogDb :=
  mkCatalogDb ∅ ∅ {[ "source" := mkSourceRecord "source" "Source" "deepseek" 3 (VObject []) "https://upstream"
                        (VObject []) (VObject []) (VObject []) true 0 0 ]}
    {[ "account" := example_account_row (Some "KEY") None ]} ∅ ∅ [] [].
Definition example_state : DiscoveryState := mkDiscoveryState 0 example_accounts [].

Definition example_body : string :=
  Concrete.print (VObject [("data", VArray [VObject [("id", VString "m1")]; VObject [("id", VString "m0")]])]).

Lemma discovery_is_recorded_safely_witness :
  let env := example_service example_body in let crates := any_url in let serde := example_serde in
  let names : HttpNames := Some in let json := json_concrete in let text : SerdeText := (fun _ => "") in
  let order : Collation := str_cmp in
  exists x s', discover "source" "account" "admin" example_state = (Ok x, s')
    /\ map de_upstream_model_id (dd_added (dx_diff x)) = ["m0"; "m1"]
    /\ sent_safely example_state s' "source" "account".
Proof.
  intros env crates serde names json text order.
  assert (match discover "source" "account" "admin" example_state with
          | (Ok x, _) => map de_upstream_model_id (dd_added (dx_diff x)) = ["m0"; "m1"] | _ => False end) as Hrun
    by (vm_compute; reflexivity).
  destruct (discover "source" "account" "admin" example_state) as [[x|e] s'] eqn:E; [|contradiction].
  exists x, s'. split; [reflexivity|]. split; [exact Hrun|].
  exact (proj1 (discovery_is_recorded_safely "source" "account" "admin" example_state s' (Ok x) E)).
Defined.

Lemma connection_test_is_recorded_safely_witness :
  let env := example_service example_body in let crates := any_url in let serde := example_serde in
  let names : HttpNames := Some in let json := json_concrete in let text : SerdeText := (fun _ => "") in
  exists rec s', test_connection "source" "account" OpenAiChatCompletions None "admin" example_state = (Ok rec, s')
    /\ cr_status rec = "succeeded" /\ sent_safely example_state s' "source" "account".
Proof.
  intros env crates serde names json text.
  assert (match test_connection "source" "account" OpenAiChatCompletions None "admin" example_state with
          | (Ok rec, _) => cr_status rec = "succeeded" | _ => False end) as Hrun by (vm_compute; reflexivity).
  destruct (test_connection "source" "account" OpenAiChatCompletions None "admin" example_state) as [[rec|e] s'] eqn:E;
    [|contradiction].
  exists rec, s'. split; [reflexivity|]. split; [exact Hrun|].
  exact (proj1 (connection_test_is_recorded_safely "source" "account" OpenAiChatCompletions None "admin" example_state s'
                  (Ok rec) E)).
Defined.

(** An account whose credential is stored encrypted has none here: the service
    reads the environment only. *)
Example stored_credentials_are_not_used :
  let env := example_service example_body in
  discovery_credential "source" "sealed"
    (mkCatalogDb ∅ ∅ ∅ {[ "sealed" := example_account_row None (Some "envelope") ]} ∅ ∅ [] [])
  = Err AccountCredentialUnavailable.
Proof. reflexivity. Qed.
