(* ===== verification/Snapshot.v ===== *)
(** * Publishing a runtime snapshot: [src/src/control_plane/snapshot.rs],
      [src/src/state.rs]

    [build_snapshot] turns the rows of one query (a binding per row, in
    priority order) into the configuration, the routes and the model list the
    data plane serves from.  The query is PostgreSQL's; its rows are the
    argument, and no theorem assumes anything of them.  [reload_snapshot]
    decides whether a snapshot replaces the published one. *)

From Stdlib Require Import ZArith Lia Ascii.
From stdpp Require Import base list strings.
From S2P Require Import Prelude.
From S2P Require Import RustStr.
From S2P Require Import Protocol.
From S2P Require Import BTree.
From S2P Require Import Config.
From S2P Require Import Routing.
From S2P Require Import Json.
From S2P Require Import Catalog.

Record SnapshotRow : Type := mkSnapshotRow {
  sr_route_id : string;
  sr_strategy : string;
  sr_request_timeout_ms : option Z;
  sr_max_retries : option Z;
  sr_public_name : string;
  sr_display_name : string;
  sr_route_protocols : Value;
  sr_allow_lossy_conversion : bool;
  sr_binding_id : Z;
  sr_source_id : string;
  sr_provider_preset_id : string;
  sr_source_display_name : string;
  sr_base_url : string;
  sr_endpoints : Value;
  sr_account_id : string;
  sr_account_display_name : string;
  sr_credential_env : option string;
  sr_credential_ciphertext : option string;
  sr_account_enabled : bool;
  sr_source_enabled : bool;
  sr_weight : Z;                              (** [i32] *)
  sr_upstream_model_id : string;
  sr_protocol : Protocol;
  sr_mode : SourceProtocolMode;
  sr_source_protocol : option Protocol;
  sr_adapter : option string;
  sr_feature_capabilities : Value;
}.

Record RuntimeSnapshot : Type := mkRuntimeSnapshot {
  ss_config : GatewayConfig;
  ss_resolver : RouteResolver;
  ss_models : list PublishedModel;
  ss_revision : Z;
  ss_generated_at : Z;
}.

(** ** Stored JSON columns *)

(** The names of the derived [Deserialize] of [Protocol]. *)
Definition Protocol_of_name (name : string) : option Protocol :=
  List.find (fun p => Protocol_to_string p =?s name) Protocol_ALL.

(** A unit variant: its name, or an object with the name and [null]. *)
Definition Protocol_from_value (v : Value) : option Protocol :=
  match v with
  | VString name => Protocol_of_name name
  | VObject [(name, VNull)] => Protocol_of_name name
  | _ => None
  end.

(** [from_value::<Vec<Protocol>>]. *)
Fixpoint protocols_from_values (l : list Value) : option (list Protocol) :=
  match l with
  | [] => Some []
  | v :: l =>
      match Protocol_from_value v, protocols_from_values l with
      | Some p, Some ps => Some (p :: ps)
      | _, _ => None
      end
  end.
Definition protocols_from_value (v : Value) : option (list Protocol) :=
  match v with VArray l => protocols_from_values l | _ => None end.

(** [from_value::<HashMap<Protocol, String>>]. *)
Fixpoint endpoints_from_fields (l : Map) : option (list (Protocol * string)) :=
  match l with
  | [] => Some []
  | (name, v) :: l =>
      match Protocol_of_name name, as_str v, endpoints_from_fields l with
      | Some p, Some endpoint, Some m => Some (hm_insert m p endpoint)
      | _, _, _ => None
      end
  end.
Definition endpoints_from_value (v : Value) : option (list (Protocol * string)) :=
  match v with VObject m => endpoints_from_fields m | _ => None end.

(** The local function [mode] of [capabilities_from_catalog]. *)
Definition catalog_mode (value : option Value) : result CapabilityMode string :=
  match value with
  | None => Ok CUnsupported
  | Some value =>
      match as_bool value with
      | Some b => Ok (if b then CNative else CUnsupported)
      | None =>
          match as_str value with
          | Some s =>
              if (s =?s "supported") || (s =?s "native") then Ok CNative
              else if s =?s "translated" then Ok CTranslated
              else if (s =?s "unsupported") || (s =?s "unknown") then Ok CUnsupported
              else Err ("unknown capability value '" +:+ s +:+ "'")
          | None => Err "capability values must be booleans or strings"
          end
      end
  end.

Definition capabilities_from_catalog (value : Value) : result Capabilities string :=
  match value with
  | VNull => Ok Capabilities_default
  | VObject object =>
      let? streaming := catalog_mode (hm_get object "streaming") in
      let? tools := catalog_mode (hm_get object "tools") in
      let? tool_streaming := catalog_mode (hm_get object "tool_streaming") in
      let? thinking := catalog_mode (hm_get object "thinking") in
      let? web_search := catalog_mode (hm_get object "web_search") in
      let? file_search := catalog_mode (hm_get object "file_search") in
      let? vision := catalog_mode (hm_get object "vision") in
      let? usage := catalog_mode (hm_get object "usage") in
      Ok (mkCapabilities streaming tools tool_streaming thinking web_search file_search vision usage)
  | _ => Err "expected a JSON object"
  end.

(** ** One row *)

(** The loop state: two [HashMap]s, the routes and models in row order, and
    the errors. *)
Record Builder : Type := mkBuilder {
  bd_providers : list (string * ProviderConfig);
  bd_accounts : list (string * AccountConfig);
  bd_routes : list RuntimeRoute;
  bd_models : list PublishedModel;
  bd_errors : list string;
}.

Definition push_error (b : Builder) (error : string) : Builder :=
  mkBuilder (bd_providers b) (bd_accounts b) (bd_routes b) (bd_models b) (bd_errors b ++ [error]).

(** What the checks of a row compute. *)
Record Line : Type := mkLine {
  ln_endpoints : Endpoints;
  ln_protocol_upstream : Protocol;
  ln_endpoint : string;
  ln_mode : string;
  ln_effective_capabilities : Capabilities;
  ln_degraded_features : list string;
}.

(** [entry(key).or_insert_with(..)]. *)
Definition or_insert {V} (m : list (string * V)) (key : string) (v : V) : list (string * V) :=
  if hm_contains m key then m else hm_insert m key v.

Definition contains (l : list string) (s : string) : bool := existsb (String.eqb s) l.

(** [iter_mut().find(p)] and an update, or a push. *)
Fixpoint update_first {A} (p : A -> bool) (f : A -> A) (l : list A) : option (list A) :=
  match l with
  | [] => None
  | x :: l => if p x then Some (f x :: l) else option_map (cons x) (update_first p f l)
  end.
Definition update_or_push {A} (p : A -> bool) (f : A -> A) (new : A) (l : list A) : list A :=
  unwrap_or (update_first p f l) (l ++ [new]).

(** [Err None] skips the row, [Err (Some e)] records an error. *)
Section Rows.
Context `{BuildCfg}.
(** The text of a [serde_json] error. *)
Context (de_error : Value -> string).

Definition fail_row {A} (message : string) : result A (option string) := Err (Some message).

Definition row_upstream (row : SnapshotRow) : result (Protocol * string) (option string) :=
  match sr_mode row with
  | SmNative => Ok (sr_protocol row, "native")
  | SmAdapter =>
      match sr_source_protocol row with
      | Some protocol => Ok (protocol, "adapter")
      | None => fail_row ("binding " +:+ dec (sr_binding_id row)
                            +:+ " adapter capability is missing source_protocol")
      end
  | SmUnknown | SmUnsupported => Err None
  end.

Definition row_adapter (row : SnapshotRow) (protocol_upstream : Protocol)
    : result (option Capabilities) (option string) :=
  let binding := "binding " +:+ dec (sr_binding_id row) in
  match sr_mode row with
  | SmAdapter =>
      match sr_adapter row with
      | None => fail_row (binding +:+ " is missing adapter")
      | Some name =>
          match adapter_definition name with
          | None => fail_row (binding +:+ " uses unknown adapter '" +:+ name +:+ "'")
          | Some definition =>
              if negb (Protocol_eqb (ad_from_protocol definition) (sr_protocol row))
                 || negb (Protocol_eqb (ad_to_protocol definition) protocol_upstream)
              then fail_row (binding +:+ " adapter '" +:+ name +:+ "' direction does not match "
                     +:+ Protocol_to_string (sr_protocol row) +:+ " -> "
                     +:+ Protocol_to_string protocol_upstream)
              else Ok (Some (ad_features definition))
          end
      end
  | _ => Ok None
  end.

(** The checks of a row that touch no map. *)
Definition row_line (row : SnapshotRow) : result Line (option string) :=
  let binding := "binding " +:+ dec (sr_binding_id row) in
  match protocols_from_value (sr_route_protocols row) with
  | None => fail_row ("route '" +:+ sr_route_id row +:+ "'.protocols is invalid: "
                        +:+ de_error (sr_route_protocols row))
  | Some protocols =>
      if negb (existsb (Protocol_eqb (sr_protocol row)) protocols) then Err None else
      match endpoints_from_value (sr_endpoints row) with
      | None => fail_row ("source '" +:+ sr_source_id row +:+ "'.endpoints is invalid: "
                            +:+ de_error (sr_endpoints row))
      | Some endpoints =>
          let? up := row_upstream row in
          let '(protocol_upstream, mode) := up in
          match opt_filter (fun e => negb (is_empty (trim e))) (hm_get endpoints protocol_upstream) with
          | None => fail_row (binding +:+ " source '" +:+ sr_source_id row
                      +:+ "' has no endpoint for " +:+ Protocol_to_string protocol_upstream)
          | Some endpoint =>
              let? source := map_err (fun e => Some (binding
                               +:+ " feature_capabilities is invalid: " +:+ e))
                               (capabilities_from_catalog (sr_feature_capabilities row)) in
              let? features := row_adapter row protocol_upstream in
              let? caps := map_err (fun feature => Some ("route '" +:+ sr_route_id row
                             +:+ "' " +:+ binding +:+ " would lose feature '" +:+ feature
                             +:+ "' without allow_lossy_conversion"))
                             (intersect_capabilities source features (sr_allow_lossy_conversion row)) in
              Ok (mkLine endpoints protocol_upstream endpoint mode caps.1 caps.2)
          end
      end
  end.

Definition row_provider (row : SnapshotRow) (line : Line) : ProviderConfig :=
  mkProviderConfig (sr_source_id row) (sr_source_display_name row) (sr_base_url row) [] []
    (ln_endpoints line) Capabilities_default [] [].

Definition add_model (model : string) (p : ProviderConfig) : ProviderConfig :=
  if contains (pv_models p) model then p
  else mkProviderConfig (pv_id p) (pv_name p) (pv_base_url p) (pv_models p ++ [model])
         (pv_native_protocols p) (pv_endpoints p) (pv_capabilities p)
         (pv_protocol_capabilities p) (pv_model_overrides p).

Definition row_account (row : SnapshotRow) : AccountConfig :=
  mkAccountConfig (sr_account_id row) (sr_source_id row) (sr_account_display_name row)
    (sr_credential_env row) (sr_credential_ciphertext row) None
    (sr_account_enabled row && sr_source_enabled row) (sr_weight row) [] None [] [].

Definition map_model (name upstream : string) (a : AccountConfig) : AccountConfig :=
  mkAccountConfig (ac_id a) (ac_provider_id a) (ac_display_name a) (ac_credential_env a)
    (ac_credential_ciphertext a) (ac_credential a) (ac_enabled a) (ac_weight a)
    (ac_protocol_capabilities a) (ac_capabilities a) (ac_model_overrides a)
    (hm_insert (ac_model_map a) name upstream).

Definition row_binding (row : SnapshotRow) (line : Line) : RuntimeBinding :=
  mkRuntimeBinding (sr_binding_id row) (sr_source_id row) (sr_provider_preset_id row)
    (sr_account_id row) (sr_upstream_model_id row) (ln_protocol_upstream line)
    (join_endpoint (sr_base_url row) (ln_endpoint line)) (ln_mode line) (sr_adapter row)
    (ln_effective_capabilities line) (ln_degraded_features line).

Definition same_route (row : SnapshotRow) (route : RuntimeRoute) : bool :=
  (rr_route_id route =?s sr_route_id row) && (rr_model route =?s sr_public_name row)
  && Protocol_eqb (rr_protocol route) (sr_protocol row).

Definition push_binding (binding : RuntimeBinding) (route : RuntimeRoute) : RuntimeRoute :=
  mkRuntimeRoute (rr_route_id route) (rr_model route) (rr_protocol route) (rr_strategy route)
    (rr_request_timeout_ms route) (rr_max_retries route) (rr_allow_lossy_conversion route)
    (rr_bindings route ++ [binding]).

Definition row_route (row : SnapshotRow) (binding : RuntimeBinding) : RuntimeRoute :=
  mkRuntimeRoute (sr_route_id row) (sr_public_name row) (sr_protocol row) (sr_strategy row)
    (sr_request_timeout_ms row) (sr_max_retries row) (sr_allow_lossy_conversion row) [binding].

Definition push_account (account_id : string) (m : PublishedModel) : PublishedModel :=
  if contains (pm_account_ids m) account_id then m
  else mkPublishedModel (pm_id m) (pm_display_name m) (pm_account_ids m ++ [account_id]).

(** The rest of the loop body: the maps, the route and the model. *)
Definition publish (row : SnapshotRow) (line : Line) (b : Builder) : Builder :=
  let providers0 := or_insert (bd_providers b) (sr_source_id row) (row_provider row line) in
  let provider := unwrap_or (hm_get providers0 (sr_source_id row)) (row_provider row line) in
  let providers := hm_insert providers0 (sr_source_id row)
                     (add_model (sr_upstream_model_id row) provider) in
  let b1 := mkBuilder providers (bd_accounts b) (bd_routes b) (bd_models b) (bd_errors b) in
  if sr_weight row <=? 0 then
    push_error b1 ("account '" +:+ sr_account_id row +:+ "' has non-positive weight")
  else
    let accounts := or_insert (bd_accounts b) (sr_account_id row) (row_account row) in
    let account := unwrap_or (hm_get accounts (sr_account_id row)) (row_account row) in
    let existing := hm_get (ac_model_map account) (sr_public_name row) in
    if is_some_and existing (fun m => negb (m =?s sr_upstream_model_id row)
                                      && negb (sr_strategy row =?s "ordered_fallback")) then
      push_error (mkBuilder providers accounts (bd_routes b) (bd_models b) (bd_errors b))
        ("account '" +:+ sr_account_id row +:+ "' has multiple upstream models for logical model '"
           +:+ sr_public_name row +:+ "'")
    else
      let accounts :=
        if is_some existing then accounts
        else hm_insert accounts (sr_account_id row)
               (map_model (sr_public_name row) (sr_upstream_model_id row) account) in
      let binding := row_binding row line in
      mkBuilder providers accounts
        (update_or_push (same_route row) (push_binding binding) (row_route row binding) (bd_routes b))
        (update_or_push (fun m => pm_id m =?s sr_public_name row) (push_account (sr_account_id row))
           (mkPublishedModel (sr_public_name row) (sr_display_name row) [sr_account_id row])
           (bd_models b))
        (bd_errors b).

Definition add_row (b : Builder) (row : SnapshotRow) : Builder :=
  match row_line row with
  | Ok line => publish row line b
  | Err (Some e) => push_error b e
  | Err None => b
  end.

Definition Builder_new : Builder := mkBuilder [] [] [] [] [].

Definition build_snapshot (rows : list SnapshotRow) (listen_addr : string) (revision generated_at : Z)
    : result RuntimeSnapshot (list string) :=
  let b := fold_left add_row rows Builder_new in
  match bd_errors b with
  | _ :: _ => Err (bd_errors b)
  | [] =>
      let config := mkGatewayConfig listen_addr (sort_by pv_id (bd_providers b).*2)
                      (sort_by ac_id (bd_accounts b).*2) [] in
      Ok (mkRuntimeSnapshot config (RouteResolver_from_runtime config (bd_routes b))
            (sort_by pm_id (bd_models b)) revision generated_at)
  end.
End Rows.

(** ** Lemmas on the collections of the loop *)

Section UpdateOrPush.
Context {A : Type} (p : A -> bool) (f : A -> A) (new : A).

Lemma update_first_none l : update_first p f l = None <-> Forall (fun x => p x = false) l.
Proof.
  induction l as [|x l IH]; cbn; [split; [constructor|done]|]. destruct (p x) eqn:E.
  - split; [done|]. intros Hf. apply Forall_cons in Hf as [? _]. congruence.
  - destruct (update_first p f l); cbn; rewrite Forall_cons; split; try done.
    + intros [_ Hl]. by apply IH in Hl.
    + intros _. split; [done|]. by apply IH.
Qed.

Lemma update_first_Forall (P : A -> Prop) l l' :
  update_first p f l = Some l' -> Forall P l -> (forall x, p x = true -> P x -> P (f x)) -> Forall P l'.
Proof.
  revert l'. induction l as [|x l IH]; cbn; intros l' Hu Hl Hf; [done|].
  apply Forall_cons in Hl as [Hx Hl]. destruct (p x) eqn:E.
  - injection Hu as <-. constructor; auto.
  - destruct (update_first p f l) eqn:E'; cbn in Hu; [|done]. injection Hu as <-.
    constructor; eauto.
Qed.

Lemma update_or_push_Forall (P : A -> Prop) l :
  Forall P l -> (forall x, p x = true -> P x -> P (f x)) -> P new ->
  Forall P (update_or_push p f new l).
Proof.
  intros Hl Hf Hn. unfold update_or_push. destruct (update_first p f l) eqn:E; cbn.
  - by eapply update_first_Forall.
  - apply Forall_app. by split; [|apply Forall_singleton].
Qed.

(** An update that strengthens the property of the elements. *)
Lemma update_or_push_imp (P Q : A -> Prop) l :
  Forall P l -> (forall x, P x -> Q x) -> (forall x, p x = true -> P x -> Q (f x)) -> Q new ->
  Forall Q (update_or_push p f new l).
Proof.
  intros Hl Hpq Hf Hn. unfold update_or_push. destruct (update_first p f l) as [l'|] eqn:E; cbn.
  - revert l' E. induction Hl as [|x l Hx Hl IH]; intros l' E; cbn in E; [done|].
    destruct (p x) eqn:Ex; [injection E as <-; constructor; [auto|by eapply Forall_impl]|].
    destruct (update_first p f l); cbn in E; [|done]. injection E as <-. constructor; auto.
  - apply Forall_app. split; [by eapply Forall_impl|by apply Forall_singleton].
Qed.

Context {B : Type} (g : A -> B) (Hg : forall x, g (f x) = g x).

Lemma update_first_map l l' : update_first p f l = Some l' -> map g l' = map g l.
Proof.
  revert l'. induction l as [|x l IH]; cbn; intros l' Hu; [done|]. destruct (p x).
  - injection Hu as <-. cbn. by rewrite Hg.
  - destruct (update_first p f l); cbn in Hu; [|done]. injection Hu as <-. cbn. by rewrite (IH _ eq_refl).
Qed.

Lemma update_first_some l l' : update_first p f l = Some l' -> Exists (fun x => p x = true) l.
Proof.
  revert l'. induction l as [|x l IH]; cbn; intros l' Hu; [done|]. destruct (p x) eqn:E.
  - by constructor.
  - destruct (update_first p f l); cbn in Hu; [|done]. apply Exists_cons_tl. by eapply IH.
Qed.

Lemma update_or_push_map l y :
  (forall x, p x = true -> g x = g new) ->
  y ∈ map g (update_or_push p f new l) <-> y ∈ map g l \/ y = g new.
Proof.
  intros Hp. unfold update_or_push. destruct (update_first p f l) as [l'|] eqn:E; cbn.
  - rewrite (update_first_map _ _ E). split; [by left|]. intros [?| ->]; [done|].
    apply update_first_some, Exists_exists in E as (x & Hx & Hpx). rewrite <- (Hp x Hpx).
    by apply list_elem_of_fmap_2.
  - rewrite map_app, elem_of_app. cbn. by rewrite list_elem_of_singleton.
Qed.

Lemma update_or_push_NoDup l :
  (forall x, g x = g new -> p x = true) -> NoDup (map g l) ->
  NoDup (map g (update_or_push p f new l)).
Proof.
  intros Hp Hl. unfold update_or_push. destruct (update_first p f l) as [l'|] eqn:E; cbn.
  - by rewrite (update_first_map _ _ E).
  - rewrite map_app. apply NoDup_app. split_and!; [done| |apply NoDup_singleton].
    intros y Hy Hn. apply list_elem_of_singleton in Hn as ->.
    apply list_elem_of_fmap in Hy as (x & Hx & Hin). apply update_first_none in E.
    eapply Forall_forall in E; [|exact Hin]. cbn in E. symmetry in Hx. apply Hp in Hx. congruence.
Qed.
End UpdateOrPush.

Section Keys.
Context {V : Type}.

Lemma hm_insert_keys (m : list (string * V)) k v k' :
  k' ∈ (hm_insert m k v).*1 <-> k' ∈ m.*1 \/ k' = k.
Proof.
  induction m as [|[k1 v1] m IH]; cbn [hm_insert fst].
  - cbn. rewrite list_elem_of_singleton, elem_of_nil. tauto.
  - case_bool_decide as E; cbn; rewrite !elem_of_cons.
    + subst k1. tauto.
    + rewrite IH. tauto.
Qed.

Lemma hm_contains_keys (m : list (string * V)) k : hm_contains m k = true <-> k ∈ m.*1.
Proof.
  unfold hm_contains. induction m as [|[k1 v1] m IH]; [rewrite hm_get_nil; cbn; by rewrite elem_of_nil|].
  rewrite hm_get_cons. cbn. rewrite elem_of_cons, <- IH. case_bool_decide; cbn; [subst; tauto|].
  split; [by right|by intros [?|?]].
Qed.

Lemma or_insert_keys (m : list (string * V)) k v k' :
  k' ∈ (or_insert m k v).*1 <-> k' ∈ m.*1 \/ k' = k.
Proof.
  unfold or_insert. destruct (hm_contains m k) eqn:E; [|apply hm_insert_keys].
  apply hm_contains_keys in E. split; [by left|]. by intros [?| ->].
Qed.
End Keys.

Section Keyed.
Context {V : Type} (key : V -> string).

(** Every value is stored under its own key, and keys are distinct. *)
Definition keyed (m : list (string * V)) : Prop :=
  Forall (fun kv => key kv.2 = kv.1) m /\ NoDup m.*1.

Lemma keyed_insert m k v : keyed m -> key v = k -> keyed (hm_insert m k v).
Proof.
  intros [Hf Hnd] Hv. induction m as [|[k1 v1] m IH]; cbn [hm_insert fst].
  - split; [by apply Forall_singleton|apply NoDup_singleton].
  - apply Forall_cons in Hf as [H1 Hf]. cbn in Hnd. apply NoDup_cons in Hnd as [Hk1 Hnd].
    case_bool_decide as E.
    + subst k1. split; cbn; [by constructor|by apply NoDup_cons].
    + destruct (IH Hf Hnd) as [Hf' Hnd']. split; cbn; [by constructor|]. apply NoDup_cons.
      split; [|done]. rewrite hm_insert_keys. intros [?|?]; congruence.
Qed.

Lemma keyed_get m k v : keyed m -> hm_get m k = Some v -> key v = k.
Proof.
  intros [Hf _] Hg. apply hm_get_Some_in in Hg. eapply Forall_forall in Hf; [|exact Hg]. done.
Qed.

Lemma keyed_or_insert m k v : keyed m -> key v = k -> keyed (or_insert m k v).
Proof. intros Hm Hv. unfold or_insert. destruct (hm_contains m k); [done|]. by apply keyed_insert. Qed.

Lemma keyed_value m k : keyed m -> k ∈ m.*1 -> exists v, v ∈ m.*2 /\ key v = k.
Proof.
  intros [Hf _] Hk. apply list_elem_of_fmap in Hk as ([k' v] & -> & Hin). exists v.
  split; [apply list_elem_of_fmap; by exists (k', v)|].
  eapply Forall_forall in Hf; [|exact Hin]. done.
Qed.

Lemma keyed_map m : keyed m -> map key m.*2 = m.*1.
Proof.
  intros [Hf _]. induction m as [|[k v] m IH]; [done|]. apply Forall_cons in Hf as [H1 Hf].
  cbn in *. by rewrite H1, IH.
Qed.
End Keyed.

(** ** Invariant of the loop *)

Section Invariant.
Context `{BuildCfg} (de_error : Value -> string).

(** The line a binding uses is one its row declares: a native line keeps the
    protocol, an adapter line converts it with a registered adapter. *)
Definition line_sound (protocol : Protocol) (b : RuntimeBinding) : Prop :=
  (rb_mode b = "native" /\ rb_protocol_upstream b = protocol)
  \/ (rb_mode b = "adapter" /\ exists name definition,
        rb_adapter b = Some name /\ adapter_definition name = Some definition
        /\ ad_from_protocol definition = protocol
        /\ ad_to_protocol definition = rb_protocol_upstream b).

Definition binding_ok (b : Builder) (protocol : Protocol) (x : RuntimeBinding) : Prop :=
  rb_account_id x ∈ (bd_accounts b).*1 /\ rb_source_id x ∈ (bd_providers b).*1
  /\ line_sound protocol x.

Definition route_ok (b : Builder) (r : RuntimeRoute) : Prop :=
  rr_bindings r <> [] /\ Forall (binding_ok b (rr_protocol r)) (rr_bindings r).

Record builder_ok (b : Builder) : Prop := {
  bo_providers : keyed pv_id (bd_providers b);
  bo_accounts : keyed ac_id (bd_accounts b);
  bo_routes : Forall (route_ok b) (bd_routes b);
  bo_models : NoDup (map pm_id (bd_models b));
  bo_published : forall id, id ∈ map pm_id (bd_models b) <-> id ∈ map rr_model (bd_routes b);
  bo_model_accounts :
    Forall (fun m => Forall (fun a => a ∈ (bd_accounts b).*1) (pm_account_ids m)) (bd_models b);
}.

Lemma row_line_sound row line :
  row_line de_error row = Ok line -> line_sound (sr_protocol row) (row_binding row line).
Proof.
  unfold row_line. destruct (protocols_from_value _) as [ps|]; [|done].
  destruct (negb _); [done|]. destruct (endpoints_from_value _) as [es|]; [|done].
  destruct (row_upstream row) as [[up mode]|e] eqn:Eup; cbn [rbind]; [|done].
  destruct (opt_filter _ _) as [ep|]; [|done].
  destruct (capabilities_from_catalog _); cbn [rbind map_err]; [|done].
  destruct (row_adapter row up) as [features|] eqn:Ead; cbn [rbind]; [|done].
  destruct (intersect_capabilities _ _ _); cbn [rbind map_err]; [|done]. intros [= <-].
  unfold line_sound, row_binding. cbn [rb_mode rb_protocol_upstream rb_adapter ln_mode
    ln_protocol_upstream]. unfold row_upstream in Eup. unfold row_adapter in Ead.
  destruct (sr_mode row); try done.
  - injection Eup as <- <-. by left.
  - destruct (sr_source_protocol row); [|done]. injection Eup as <- <-. right. split; [done|].
    destruct (sr_adapter row) as [name|]; [|done].
    destruct (adapter_definition name) as [definition|] eqn:Ed; [|done].
    destruct (Protocol_eqb (ad_from_protocol _) _) eqn:E1; [|done].
    destruct (Protocol_eqb (ad_to_protocol _) _) eqn:E2; [|done].
    apply Protocol_eqb_eq in E1, E2. exists name, definition. by split_and!.
Qed.

(** Growing the maps keeps the routes and the models correct. *)
Lemma grow_ok b providers accounts :
  builder_ok b -> keyed pv_id providers -> keyed ac_id accounts ->
  (forall k, k ∈ (bd_providers b).*1 -> k ∈ providers.*1) ->
  (forall k, k ∈ (bd_accounts b).*1 -> k ∈ accounts.*1) ->
  forall errors, builder_ok (mkBuilder providers accounts (bd_routes b) (bd_models b) errors).
Proof.
  intros [Hp Ha Hr Hm Hpub Hma] Hp' Ha' Hpk Hak errors. split; cbn; try done.
  - eapply Forall_impl; [exact Hr|]. intros r [Hne Hb]. split; [done|].
    eapply Forall_impl; [exact Hb|]. intros x (H1 & H2 & H3). by split_and!; [apply Hak|apply Hpk|].
  - eapply Forall_impl; [exact Hma|]. intros m Hmm. eapply Forall_impl; [exact Hmm|]. cbn. auto.
Qed.

Lemma push_error_ok b e : builder_ok b -> builder_ok (push_error b e).
Proof. intros [Hp Ha Hr Hm Hpub Hma]. by apply grow_ok. Qed.

(** The route and the model of a row, once its account and source are known. *)
Lemma add_route_ok b row line :
  builder_ok b -> sr_account_id row ∈ (bd_accounts b).*1 -> sr_source_id row ∈ (bd_providers b).*1 ->
  line_sound (sr_protocol row) (row_binding row line) ->
  builder_ok (mkBuilder (bd_providers b) (bd_accounts b)
    (update_or_push (same_route row) (push_binding (row_binding row line))
       (row_route row (row_binding row line)) (bd_routes b))
    (update_or_push (fun m => pm_id m =?s sr_public_name row) (push_account (sr_account_id row))
       (mkPublishedModel (sr_public_name row) (sr_display_name row) [sr_account_id row])
       (bd_models b))
    (bd_errors b)).
Proof.
  intros [Hp Ha Hr Hm Hpub Hma] Hacc Hsrc Hline.
  set (x := row_binding row line) in *.
  assert (Hx : binding_ok b (sr_protocol row) x) by done.
  assert (Hpa : forall m, pm_id (push_account (sr_account_id row) m) = pm_id m)
    by (intros m; unfold push_account; by destruct (contains _ _)).
  split; cbn; try done.
  - apply update_or_push_Forall; [exact Hr| |].
    + intros r Hsame [Hne Hb]. apply andb_true_iff in Hsame as [_ Hpr%Protocol_eqb_eq].
      split; cbn; [by destruct (rr_bindings r)|]. apply Forall_app. split; [done|].
      apply Forall_singleton. by rewrite Hpr.
    + split; cbn; [done|]. by apply Forall_singleton.
  - apply update_or_push_NoDup; [done| |done]. cbn. intros m ->. apply String.eqb_refl.
  - intros id. rewrite (update_or_push_map _ _ _ pm_id Hpa), (update_or_push_map _ _ _ rr_model).
    + cbn. by rewrite Hpub.
    + done.
    + intros r Hsame. unfold same_route in Hsame. bool_to_prop. cbn. congruence.
    + intros m Hmm. by apply String.eqb_eq in Hmm.
  - apply update_or_push_Forall; [exact Hma| |].
    + intros m _ Hmm. unfold push_account. destruct (contains _ _); [done|]. cbn.
      apply Forall_app. split; [done|]. by apply Forall_singleton.
    + cbn. by apply Forall_singleton.
Qed.

Lemma add_model_id model p : pv_id (add_model model p) = pv_id p.
Proof. unfold add_model. by destruct (contains _ _). Qed.

Lemma publish_ok b row line :
  builder_ok b -> line_sound (sr_protocol row) (row_binding row line) ->
  builder_ok (publish row line b).
Proof.
  intros Hb Hline. pose proof (bo_providers _ Hb) as Hp. pose proof (bo_accounts _ Hb) as Ha.
  unfold publish. cbv zeta.
  set (providers0 := or_insert (bd_providers b) (sr_source_id row) (row_provider row line)).
  assert (Hp0 : keyed pv_id providers0) by (by apply keyed_or_insert).
  set (provider := unwrap_or (hm_get providers0 (sr_source_id row)) (row_provider row line)).
  assert (Hpid : pv_id provider = sr_source_id row).
  { unfold provider. destruct (hm_get providers0 _) eqn:E; [|done]. by eapply keyed_get. }
  set (providers := hm_insert providers0 _ _).
  assert (Hp1 : keyed pv_id providers) by (apply keyed_insert; [done|by rewrite add_model_id]).
  assert (Hpk : forall k, k ∈ (bd_providers b).*1 -> k ∈ providers.*1).
  { intros k Hk. unfold providers, providers0. rewrite hm_insert_keys, or_insert_keys. by do 2 left. }
  assert (Hps : sr_source_id row ∈ providers.*1) by (unfold providers; rewrite hm_insert_keys; by right).
  destruct (sr_weight row <=? 0).
  { apply push_error_ok. by apply grow_ok. }
  set (accounts := or_insert (bd_accounts b) (sr_account_id row) (row_account row)).
  assert (Ha0 : keyed ac_id accounts) by (by apply keyed_or_insert).
  assert (Hak : forall k, k ∈ (bd_accounts b).*1 -> k ∈ accounts.*1)
    by (intros k Hk; unfold accounts; rewrite or_insert_keys; by left).
  assert (Has : sr_account_id row ∈ accounts.*1) by (unfold accounts; rewrite or_insert_keys; by right).
  set (account := unwrap_or (hm_get accounts (sr_account_id row)) (row_account row)).
  assert (Haid : ac_id account = sr_account_id row).
  { unfold account. destruct (hm_get accounts _) eqn:E; [|done]. by eapply keyed_get. }
  destruct (is_some_and _ _); [apply push_error_ok; by apply grow_ok|].
  set (accounts1 := if is_some _ then accounts else _).
  assert (Ha1 : keyed ac_id accounts1)
    by (unfold accounts1; destruct (is_some _); [done|by apply keyed_insert]).
  assert (Hak1 : forall k, k ∈ accounts.*1 -> k ∈ accounts1.*1).
  { intros k Hk. unfold accounts1. destruct (is_some _); [done|]. rewrite hm_insert_keys. by left. }
  pose proof (grow_ok b providers accounts1 Hb Hp1 Ha1 Hpk (fun k Hk => Hak1 k (Hak k Hk))
    (bd_errors b)) as Hgrow.
  apply (add_route_ok (mkBuilder providers accounts1 (bd_routes b) (bd_models b) (bd_errors b)) row line
    Hgrow); cbn; auto.
Qed.

Lemma builder_ok_rows rows : forall b,
  builder_ok b -> builder_ok (fold_left (add_row de_error) rows b).
Proof.
  induction rows as [|row rows IH]; intros b Hb; cbn [fold_left]; [done|]. apply IH.
  unfold add_row. destruct (row_line de_error row) as [line|[e|]] eqn:El; [|by apply push_error_ok|done].
  apply publish_ok; [done|]. by eapply row_line_sound.
Qed.

Lemma builder_ok_new : builder_ok Builder_new.
Proof. split; cbn; try done; try (by split; [constructor|apply NoDup_nil_2]); apply NoDup_nil_2. Qed.
End Invariant.

(** ** Properties of a published snapshot *)

Section Published.
Context `{BuildCfg} (de_error : Value -> string).

Lemma build_snapshot_inv rows listen_addr revision generated_at s :
  build_snapshot de_error rows listen_addr revision generated_at = Ok s ->
  exists b, builder_ok b /\ bd_errors b = []
    /\ ss_resolver s = RouteResolver_from_runtime (ss_config s) (bd_routes b)
    /\ gc_providers (ss_config s) ≡ₚ (bd_providers b).*2
    /\ gc_accounts (ss_config s) ≡ₚ (bd_accounts b).*2
    /\ ss_models s ≡ₚ bd_models b.
Proof.
  unfold build_snapshot. cbv zeta. destruct (bd_errors _) eqn:E; [|done]. intros [= <-].
  exists (fold_left (add_row de_error) rows Builder_new).
  split; [apply builder_ok_rows, builder_ok_new|]. split; [done|]. split; [done|].
  cbn [ss_config gc_providers gc_accounts ss_models]. split_and!; apply sort_by_perm.
Qed.

Lemma find_by_key {A} (key : A -> string) (l l' : list A) k :
  l' ≡ₚ l -> (exists v, v ∈ l /\ key v = k) ->
  exists v, List.find (fun v => key v =?s k) l' = Some v.
Proof.
  intros Hp (v & Hv & Hk). destruct (List.find _ l') as [v'|] eqn:E; [by exists v'|].
  exfalso. rewrite <- Hp in Hv. apply list_elem_of_In in Hv.
  pose proof (List.find_none _ _ E v Hv) as Hf. cbn in Hf. by rewrite Hk, String.eqb_refl in Hf.
Qed.

Lemma resolve_runtime_inv routes protocol model r :
  resolve_runtime_route routes protocol model = Ok r ->
  exists route primary rest, route ∈ routes /\ rr_protocol route = protocol
    /\ rr_model route = model /\ rr_bindings route = primary :: rest
    /\ rs_primary_account_id r = rb_account_id primary /\ rs_source_id r = rb_source_id primary
    /\ rs_mode r = rb_mode primary /\ rs_protocol_upstream r = rb_protocol_upstream primary
    /\ rs_fallback_bindings r = map resolve_binding rest.
Proof.
  unfold resolve_runtime_route. destruct (List.find _ routes) as [route|] eqn:Ef; [|done].
  apply List.find_some in Ef as [Hin Hm]. apply list_elem_of_In in Hin. bool_to_prop.
  apply Protocol_eqb_eq in H0.
  destruct (rr_bindings route) as [|primary rest] eqn:Eb; [done|]. intros [= <-].
  exists route, primary, rest. by split_and!.
Qed.

Lemma resolve_runtime_total b route :
  builder_ok b -> route ∈ bd_routes b ->
  is_ok (resolve_runtime_route (bd_routes b) (rr_protocol route) (rr_model route)) = true.
Proof.
  intros Hb Hin. unfold resolve_runtime_route. destruct (List.find _ _) as [r|] eqn:Ef.
  - apply List.find_some in Ef as [Hr _]. apply list_elem_of_In in Hr.
    pose proof (bo_routes _ Hb) as Hall. eapply Forall_forall in Hall as [Hne _]; [|exact Hr].
    by destruct (rr_bindings r).
  - exfalso. apply list_elem_of_In in Hin. pose proof (List.find_none _ _ Ef route Hin) as Hf.
    cbn in Hf. by rewrite Protocol_eqb_refl, String.eqb_refl in Hf.
Qed.

(** What a line of a published route can rely on. *)
Definition line_resolves (config : GatewayConfig) (account_id source_id : string) : Prop :=
  is_some (account config account_id) = true /\ is_some (provider config source_id) = true.

Lemma published_line rows listen_addr revision generated_at s protocol model r :
  build_snapshot de_error rows listen_addr revision generated_at = Ok s ->
  resolve_detailed (ss_resolver s) protocol model = Ok r ->
  line_resolves (ss_config s) (rs_primary_account_id r) (rs_source_id r)
  /\ Forall (fun b => line_resolves (ss_config s) (sb_account_id b) (sb_source_id b))
       (rs_fallback_bindings r)
  /\ (rs_mode r = "native" /\ rs_protocol_upstream r = protocol \/ rs_mode r = "adapter").
Proof.
  intros Hs Hr. apply build_snapshot_inv in Hs as (b & Hb & _ & Hres & Hpv & Hac & _).
  rewrite Hres in Hr. apply resolve_runtime_inv in Hr as (route & primary & rest & Hin & Hp & _ & Hbs
    & -> & -> & Hmode & Hup & ->).
  pose proof (bo_routes _ Hb) as Hall. eapply Forall_forall in Hall as [_ Hall]; [|exact Hin].
  rewrite Hbs in Hall. apply Forall_cons in Hall as [Hprim Hrest].
  assert (Hline : forall x, binding_ok b (rr_protocol route) x ->
    line_resolves (ss_config s) (rb_account_id x) (rb_source_id x)).
  { intros x (Hxa & Hxp & _). unfold line_resolves, account, provider.
    destruct (find_by_key ac_id _ _ (rb_account_id x) Hac) as [? ->];
      [apply keyed_value; [apply Hb|done]|].
    destruct (find_by_key pv_id _ _ (rb_source_id x) Hpv) as [? ->];
      [apply keyed_value; [apply Hb|done]|]. done. }
  split_and!.
  - by apply Hline.
  - apply Forall_map. eapply Forall_impl; [exact Hrest|]. intros x Hx. by apply Hline.
  - rewrite Hmode, Hup. destruct Hprim as (_ & _ & [[-> ->]|[-> _]]); [left|by right].
    by rewrite Hp.
Qed.
End Published.

(** ** The lines of a route are distinct

    The table of bindings has a unique index on logical model, source, account,
    upstream model and protocol. *)

Definition binding_key (x : RuntimeBinding) : string * string * string :=
  (rb_source_id x, rb_account_id x, rb_upstream_model_id x).

Definition row_key (row : SnapshotRow) : (string * string * Protocol) * (string * string * string) :=
  (sr_route_id row, sr_public_name row, sr_protocol row,
   (sr_source_id row, sr_account_id row, sr_upstream_model_id row)).

Definition route_distinct (keys : list ((string * string * Protocol) * (string * string * string)))
    (r : RuntimeRoute) : Prop :=
  NoDup (map binding_key (rr_bindings r))
  /\ Forall (fun x => (rr_route_id r, rr_model r, rr_protocol r, binding_key x) ∈ keys) (rr_bindings r).

Lemma publish_routes row line b :
  bd_routes (publish row line b) = bd_routes b
  \/ bd_routes (publish row line b)
     = update_or_push (same_route row) (push_binding (row_binding row line))
         (row_route row (row_binding row line)) (bd_routes b).
Proof.
  unfold publish. cbv zeta. destruct (sr_weight row <=? 0); [by left|].
  destruct (is_some_and _ _); [by left|]. by right.
Qed.

Lemma row_binding_key row line :
  (sr_route_id row, sr_public_name row, sr_protocol row, binding_key (row_binding row line)) = row_key row.
Proof. done. Qed.

Section Distinct.
Context `{BuildCfg} (de_error : Value -> string).

Lemma add_row_distinct keys b row :
  row_key row ∉ keys -> Forall (route_distinct keys) (bd_routes b) ->
  Forall (route_distinct (row_key row :: keys)) (bd_routes (add_row de_error b row)).
Proof.
  intros Hfresh Hall.
  assert (Hkeep : forall r, route_distinct keys r -> route_distinct (row_key row :: keys) r).
  { intros r [Hnd Hin]. split; [done|]. eapply Forall_impl; [exact Hin|]. intros x Hx.
    by apply list_elem_of_further. }
  assert (Hsame : Forall (route_distinct (row_key row :: keys)) (bd_routes b)) by (by eapply Forall_impl).
  unfold add_row. destruct (row_line de_error row) as [line|[e|]]; [|done|done].
  destruct (publish_routes row line b) as [->| ->]; [done|].
  apply (update_or_push_imp _ _ _ _ _ _ Hall Hkeep).
  - intros r Hr [Hnd Hin]. unfold same_route in Hr. bool_to_prop.
    match goal with Hp : Protocol_eqb _ _ = true |- _ => apply Protocol_eqb_eq in Hp as Hpr end.
    assert (Hkey : (rr_route_id r, rr_model r, rr_protocol r, binding_key (row_binding row line)) = row_key row)
      by (rewrite <- (row_binding_key row line); congruence).
    split; cbn [rr_bindings push_binding rr_route_id rr_model rr_protocol].
    + rewrite map_app. apply NoDup_app. split_and!; [done| |apply NoDup_singleton].
      intros k Hk ->%list_elem_of_singleton. apply list_elem_of_fmap in Hk as (x & Hkx & Hx).
      eapply Forall_forall in Hin; [|exact Hx]. apply Hfresh. by rewrite <- Hkey, Hkx.
    + apply Forall_app. split; [by apply (proj2 (Hkeep r (conj Hnd Hin)))|].
      apply Forall_singleton. rewrite Hkey. apply list_elem_of_here.
  - split; cbn; [apply NoDup_singleton|]. apply Forall_singleton. apply list_elem_of_here.
Qed.

Lemma add_rows_distinct rows : forall keys b,
  NoDup (map row_key rows) -> (forall k, k ∈ map row_key rows -> k ∉ keys) ->
  Forall (route_distinct keys) (bd_routes b) ->
  exists keys', Forall (route_distinct keys') (bd_routes (fold_left (add_row de_error) rows b)).
Proof.
  induction rows as [|row rows IH]; intros keys b Hnd Hk Hb; cbn [fold_left]; [by exists keys|].
  cbn [map] in Hnd, Hk. apply NoDup_cons in Hnd as [Hrow Hnd]. apply (IH (row_key row :: keys)); [done| |].
  - intros k Hin [->|Hk']%elem_of_cons; [done|]. apply (Hk k); [|done]. by apply list_elem_of_further.
  - apply add_row_distinct; [|done]. apply Hk, list_elem_of_here.
Qed.

(** The lines of a published route: distinct, native or converted. *)
Lemma published_lines rows listen_addr revision generated_at s protocol model r :
  build_snapshot de_error rows listen_addr revision generated_at = Ok s ->
  NoDup (map row_key rows) ->
  resolve_detailed (ss_resolver s) protocol model = Ok r ->
  exists id bindings, rs_binding_id r = Some id
    /\ primary_binding r id :: rs_fallback_bindings r = map resolve_binding bindings
    /\ NoDup (map binding_key bindings)
    /\ Forall (fun x => rb_mode x = "native" \/ rb_mode x = "adapter") bindings.
Proof.
  intros Hs Hnd Hr. unfold build_snapshot in Hs. cbv zeta in Hs.
  destruct (bd_errors _) eqn:E; [|done]. injection Hs as <-.
  pose proof (builder_ok_rows de_error rows _ builder_ok_new) as Hb.
  destruct (add_rows_distinct rows [] Builder_new Hnd) as [keys Hdist]; [by intros k _ ?%elem_of_nil|done|].
  cbn [ss_resolver] in Hr. unfold resolve_detailed in Hr. cbn [rv_runtime_routes RouteResolver_from_runtime] in Hr.
  unfold resolve_runtime_route in Hr. destruct (List.find _ _) as [route|] eqn:Ef; [|done].
  apply List.find_some in Ef as [Hin _]. apply list_elem_of_In in Hin.
  pose proof (bo_routes _ Hb) as Hroutes. eapply Forall_forall in Hroutes as [_ Hsound]; [|exact Hin].
  eapply Forall_forall in Hdist as [Hdist _]; [|exact Hin].
  destruct (rr_bindings route) as [|primary rest] eqn:Eb; [done|]. injection Hr as <-.
  exists (rb_binding_id primary), (primary :: rest). split_and!; [done|done|done|].
  eapply Forall_impl; [exact Hsound|]. intros x (_ & _ & [[? _]|[? _]]); auto.
Qed.
End Distinct.

(** A published snapshot is closed: whatever rows the query returned, if
    they build a snapshot then every route it resolves names, for its primary
    line and for every fallback line, an account and a source of the same
    snapshot; a native line keeps the protocol of the client. *)
Theorem published_snapshot_closed `{BuildCfg} (de_error : Value -> string) (rows : list SnapshotRow)
    (listen_addr : string) (revision generated_at : Z) (s : RuntimeSnapshot) (protocol : Protocol)
    (model : string) (r : ResolvedRoute)
    (Hbuild : build_snapshot de_error rows listen_addr revision generated_at = Ok s)
    (Hroute : resolve_detailed (ss_resolver s) protocol model = Ok r) :
  line_resolves (ss_config s) (rs_primary_account_id r) (rs_source_id r)
  /\ Forall (fun b => line_resolves (ss_config s) (sb_account_id b) (sb_source_id b))
       (rs_fallback_bindings r)
  /\ (rs_mode r = "native" /\ rs_protocol_upstream r = protocol \/ rs_mode r = "adapter").
Proof. by eapply published_line. Qed.

(** The published model list is exactly what can be routed: the ids are
    distinct, and a model is listed if and only if some protocol resolves it. *)
Theorem published_models_routable `{BuildCfg} (de_error : Value -> string) (rows : list SnapshotRow)
    (listen_addr : string) (revision generated_at : Z) (s : RuntimeSnapshot)
    (Hbuild : build_snapshot de_error rows listen_addr revision generated_at = Ok s) :
  NoDup (map pm_id (ss_models s))
  /\ forall id, id ∈ map pm_id (ss_models s) <->
       exists protocol, is_ok (resolve_detailed (ss_resolver s) protocol id) = true.
Proof.
  apply build_snapshot_inv in Hbuild as (b & Hb & _ & Hres & _ & _ & Hm).
  assert (Hids : map pm_id (ss_models s) ≡ₚ map pm_id (bd_models b)) by (by apply Permutation_map).
  split; [rewrite Hids; apply Hb|]. intros id. rewrite Hids, (bo_published _ Hb), Hres.
  unfold resolve_detailed. cbn [rv_runtime_routes RouteResolver_from_runtime]. split.
  - intros Hid. apply list_elem_of_fmap in Hid as (route & -> & Hin). exists (rr_protocol route).
    by apply resolve_runtime_total.
  - intros [protocol Hok]. destruct (resolve_runtime_route _ _ _) as [r|] eqn:Er; [|done].
    apply resolve_runtime_inv in Er as (route & _ & _ & Hin & _ & <- & _).
    by apply list_elem_of_fmap_2.
Qed.

(** A capability the catalogue accepted can be published: for a binding row
    with the protocol, mode, source protocol and adapter of a validated
    routable capability, the upstream protocol and the adapter are determined
    and neither records an error. *)
Theorem validated_capability_publishes `{BuildCfg} (input : SourceModelCapabilityInput) (row : SnapshotRow)
    (Hvalid : capability_validate input = Ok tt)
    (Hroutable : is_routable (ci_mode input) = true)
    (Hrow : (sr_protocol row, sr_mode row, sr_source_protocol row, sr_adapter row)
            = (ci_protocol input, ci_mode input, ci_source_protocol input, ci_adapter input)) :
  exists upstream mode features,
    row_upstream row = Ok (upstream, mode) /\ row_adapter row upstream = Ok features
    /\ match ci_mode input with
       | SmAdapter => ci_source_protocol input = Some upstream /\ mode = "adapter" /\ is_some features = true
       | _ => upstream = ci_protocol input /\ mode = "native" /\ features = None
       end.
Proof.
  injection Hrow as Hp Hm Hs Ha. unfold capability_validate in Hvalid. unfold row_upstream, row_adapter.
  rewrite Hm, Hs, Ha, Hp. destruct (_ && _); [done|]. destruct (ci_mode input); [done| | |done].
  { by exists (ci_protocol input), "native", None. }
  destruct (ci_source_protocol input) as [up|]; cbn [ok_or rbind] in Hvalid; [|done].
  destruct (ci_adapter input) as [name|]; cbn [opt_filter] in Hvalid; [|done].
  destruct (negb (is_empty (trim name))); cbn [ok_or rbind] in Hvalid; [|done].
  destruct (adapter_definition name) as [definition|]; cbn [ok_or rbind] in Hvalid; [|done].
  exists up, "adapter". destruct (_ || _); [done|]. eexists. by split_and!.
Qed.

(** ** Publication *)

(** The live configuration of [src/src/state.rs] is the snapshot it was built
    from; [reload_snapshot] answers whether it was accepted. *)
Definition reload_snapshot (current candidate : RuntimeSnapshot) : bool * RuntimeSnapshot :=
  let accepted := ss_revision current <=? ss_revision candidate in
  (accepted, if accepted then candidate else current).

Definition reloads (current : RuntimeSnapshot) (candidates : list RuntimeSnapshot) : RuntimeSnapshot :=
  fold_left (fun live candidate => (reload_snapshot live candidate).2) candidates current.

Lemma reloads_spec candidates : forall current,
  (reloads current candidates = current \/ reloads current candidates ∈ candidates)
  /\ Forall (fun c => ss_revision c <= ss_revision (reloads current candidates)) (current :: candidates).
Proof.
  induction candidates as [|c l IH]; intros current; [split; [by left|by apply Forall_singleton]|].
  change (reloads current (c :: l)) with (reloads (reload_snapshot current c).2 l).
  unfold reload_snapshot. cbn [snd].
  destruct (Z.leb_spec (ss_revision current) (ss_revision c)) as [Hle|Hgt].
  - destruct (IH c) as [Hin Hall]. apply Forall_cons in Hall as [Hc Hl]. split.
    + right. destruct Hin as [-> |?]; [by left|by right].
    + constructor; [lia|by constructor].
  - destruct (IH current) as [Hin Hall]. apply Forall_cons in Hall as [Hc Hl]. split.
    + destruct Hin as [?|?]; [by left|right; by right].
    + constructor; [done|]. constructor; [lia|done].
Qed.

(** Concurrent reloads converge: the live snapshot is always one that was
    offered, its revision never goes back, and in whatever order snapshots of
    distinct revisions arrive, the newest one ends up live. *)
Theorem reloads_converge (current : RuntimeSnapshot) (candidates candidates' : list RuntimeSnapshot)
    (Hdistinct : NoDup (map ss_revision (current :: candidates)))
    (Hperm : candidates' ≡ₚ candidates) :
  let live := reloads current candidates in
  reloads current candidates' = live
  /\ live ∈ current :: candidates
  /\ Forall (fun c => ss_revision c <= ss_revision live) (current :: candidates).
Proof.
  intros live. destruct (reloads_spec candidates current) as [Hin Hall].
  destruct (reloads_spec candidates' current) as [Hin' Hall']. fold live in Hin, Hall.
  assert (H1 : live ∈ current :: candidates) by (apply elem_of_cons; tauto).
  assert (H2 : reloads current candidates' ∈ current :: candidates).
  { apply elem_of_cons. destruct Hin' as [?|Hin']; [by left|right]. by rewrite <- Hperm. }
  assert (Hall2 : Forall (fun c => ss_revision c <= ss_revision (reloads current candidates'))
    (current :: candidates)).
  { apply Forall_cons in Hall' as [Hc Hl]. constructor; [done|]. by rewrite <- Hperm. }
  split_and!; [|done|done].
  assert (Heq : ss_revision (reloads current candidates') = ss_revision live).
  { pose proof (proj1 (Forall_forall _ _) Hall _ H2) as Ha.
    pose proof (proj1 (Forall_forall _ _) Hall2 _ H1) as Hb. cbn in Ha, Hb. lia. }
  apply list_elem_of_lookup in H1 as [i Hi]. apply list_elem_of_lookup in H2 as [j Hj].
  assert (i = j) as ->.
  { eapply (NoDup_lookup _ _ _ (ss_revision live) Hdistinct); rewrite list_lookup_fmap;
      [by rewrite Hi|rewrite Hj; cbn; by rewrite Heq]. }
  congruence.
Qed.

(** ** Examples *)

Definition example_snapshot_row (binding_id : Z) (account_id : string) (protocol : Protocol)
    : SnapshotRow :=
  mkSnapshotRow "r" "ordered_fallback" None (Some 1) "m" "M"
    (VArray [VString "openai_chat_completions"; VString "anthropic_messages"]) false binding_id "s"
    "custom" "S" "https://up.example/"
    (VObject [("openai_chat_completions", VString "/v1/chat/completions");
              ("anthropic_messages", VString "/v1/messages")])
    account_id "A" (Some "KEY") None true true 100 "up" protocol SmNative None None
    (VObject [("streaming", VBool true); ("tools", VString "translated")]).
Definition example_rows : list SnapshotRow :=
  [example_snapshot_row 1 "a" OpenAiChatCompletions; example_snapshot_row 2 "b" OpenAiChatCompletions;
   example_snapshot_row 3 "b" AnthropicMessages].
Definition example_build : result RuntimeSnapshot (list string) :=
  let cfg : BuildCfg := false in build_snapshot (fun _ => "") example_rows "127.0.0.1:1" 7 0.

Example example_build_routes :
  option_map (fun s => (map pm_id (ss_models s), map ac_id (gc_accounts (ss_config s)))) (rok example_build)
  = Some (["m"], ["a"; "b"]).
Proof. vm_compute. reflexivity. Qed.

Lemma published_snapshot_closed_witness :
  exists s r, example_build = Ok s
    /\ resolve_detailed (H := false) (ss_resolver s) OpenAiChatCompletions "m" = Ok r
    /\ line_resolves (ss_config s) (rs_primary_account_id r) (rs_source_id r).
Proof.
  destruct example_build as [s|] eqn:E; [|vm_compute in E; discriminate E].
  destruct (resolve_detailed (H := false) (ss_resolver s) OpenAiChatCompletions "m") as [r|] eqn:Er.
  - exists s, r. split; [reflexivity|]. split; [exact Er|].
    exact (proj1 (@published_snapshot_closed false (fun _ => "") example_rows "127.0.0.1:1" 7 0 s
             OpenAiChatCompletions "m" r E Er)).
  - exfalso. vm_compute in E. injection E as <-. vm_compute in Er. discriminate Er.
Defined.

Lemma published_models_routable_witness :
  exists s, example_build = Ok s
    /\ exists protocol, is_ok (resolve_detailed (H := false) (ss_resolver s) protocol "m") = true.
Proof.
  destruct example_build as [s|] eqn:E; [|vm_compute in E; discriminate E].
  exists s. split; [reflexivity|].
  apply (proj2 (@published_models_routable false (fun _ => "") example_rows "127.0.0.1:1" 7 0 s E) "m").
  vm_compute in E. injection E as <-. apply (bool_decide_unpack _). vm_compute. exact I.
Defined.

Definition example_snapshot (revision : Z) : RuntimeSnapshot :=
  let config := mkGatewayConfig "" [] [] [] in
  mkRuntimeSnapshot config (RouteResolver_from_runtime config []) [] revision 0.

Lemma reloads_converge_witness :
  reloads (example_snapshot 1) [example_snapshot 3; example_snapshot 2]
  = reloads (example_snapshot 1) [example_snapshot 2; example_snapshot 3].
Proof.
  refine (proj1 (reloads_converge (example_snapshot 1) [example_snapshot 2; example_snapshot 3]
            [example_snapshot 3; example_snapshot 2] _ _)).
  - apply (bool_decide_unpack _). vm_compute. exact I.
  - apply perm_swap.
Defined.

Lemma validated_capability_publishes_witness :
  let cfg : BuildCfg := false in
  exists upstream mode features,
    row_upstream (example_snapshot_row 1 "a" OpenAiChatCompletions) = Ok (upstream, mode)
    /\ row_adapter (example_snapshot_row 1 "a" OpenAiChatCompletions) upstream = Ok features.
Proof.
  intros cfg.
  destruct (@validated_capability_publishes false
    (mkSourceModelCapabilityInput "s" "up" OpenAiChatCompletions CsConfirmed SmNative None None [] MsUpstream 0)
    (example_snapshot_row 1 "a" OpenAiChatCompletions)) as (up & mode & features & Hu & Ha & _);
    [reflexivity|reflexivity|reflexivity|].
  exists up, mode, features. split; [exact Hu|exact Ha].
Defined.
