(* ===== verification/Capabilities.v ===== *)
(** * The capability matrix: [src/src/domain/capabilities.rs]

    A read-only view of the published snapshot: for every model and every line
    (source, account, upstream model) it is routed over, one cell per client
    protocol, computed by the resolver the data plane uses. *)

From Stdlib Require Import ZArith Lia.
From stdpp Require Import base list strings.
From S2P Require Import Prelude.
From S2P Require Import RustStr.
From S2P Require Import Protocol.
From S2P Require Import BTree.
From S2P Require Import Config.
From S2P Require Import Routing.
From S2P Require Import Json.
From S2P Require Import Catalog.
From S2P Require Import Snapshot.

Definition CAPABILITY_MATRIX_VERSION : string := "v1".

Record RuntimeSourceRef : Type := mkRuntimeSourceRef {
  sf_source_id : string;
  sf_display_name : option string;
}.

Record RuntimeAccountRef : Type := mkRuntimeAccountRef {
  af_account_id : string;
  af_display_name : option string;
  af_enabled : option bool;
}.

Inductive CapabilityRouteStatus : Type := Routable | Unroutable.
Inductive CapabilityBindingSelection : Type := Primary | Fallback.

Record ProtocolConversionHop : Type := mkProtocolConversionHop {
  hp_protocol_from : Protocol;
  hp_protocol_to : Protocol;
  hp_mode : ProtocolMode;
  hp_adapter : option string;
}.

Record EffectiveProtocolCapability : Type := mkEffectiveProtocolCapability {
  ec_protocol_in : Protocol;
  ec_status : CapabilityRouteStatus;
  ec_binding_id : option Z;
  ec_selection : option CapabilityBindingSelection;
  ec_selection_rank : option nat;
  ec_protocol_upstream : option Protocol;
  ec_endpoint : option string;
  ec_mode : option ProtocolMode;
  ec_adapter : option string;
  ec_conversion_chain : list ProtocolConversionHop;
  ec_effective_capabilities : Capabilities;
  ec_degraded : bool;
  ec_degraded_features : list string;
  ec_allow_lossy_conversion : option bool;
  ec_error : option RouteResolutionError;
}.

Record RouteCapabilityMatrix : Type := mkRouteCapabilityMatrix {
  cm_route_id : string;
  cm_source : RuntimeSourceRef;
  cm_account : RuntimeAccountRef;
  cm_model : string;
  cm_model_display_name : string;
  cm_upstream_model_id : string;
  cm_protocols : list EffectiveProtocolCapability;
}.

(** [fact_source] is a constant. *)
Record CapabilityMatrixResponse : Type := mkCapabilityMatrixResponse {
  mx_version : string;
  mx_snapshot_revision : Z;
  mx_snapshot_generated_at : Z;
  mx_data : list RouteCapabilityMatrix;
}.

Inductive CapabilityMatrixBuildError : Type :=
| NotRuntimeSnapshot
| MissingRuntimeBindingId (route_id : string) (protocol : Protocol)
| InvalidRuntimeMode (route_id : string) (binding_id : Z) (mode : string)
| DuplicateRuntimeBinding (route_id : string) (binding_id : Z) (protocol : Protocol).

Definition matrix_error_code (self : CapabilityMatrixBuildError) : string := "invalid_runtime_snapshot".

Definition matrix_error_text (self : CapabilityMatrixBuildError) : string :=
  match self with
  | NotRuntimeSnapshot => "capability matrix requires the published runtime snapshot"
  | MissingRuntimeBindingId route_id protocol =>
      "runtime route '" +:+ route_id +:+ "' for " +:+ Protocol_to_string protocol
      +:+ " is missing its binding id"
  | InvalidRuntimeMode route_id binding_id mode =>
      "runtime route '" +:+ route_id +:+ "' binding " +:+ dec binding_id +:+ " has invalid mode '"
      +:+ mode +:+ "'"
  | DuplicateRuntimeBinding route_id binding_id protocol =>
      "runtime route '" +:+ route_id +:+ "' contains duplicate binding " +:+ dec binding_id
      +:+ " for " +:+ Protocol_to_string protocol
  end.

Record MatrixKey : Type := mkMatrixKey {
  mk_model : string;
  mk_route_id : string;
  mk_source_id : string;
  mk_account_id : string;
  mk_upstream_model_id : string;
}.

(** The derived [Ord]: field by field. *)
Definition MatrixKey_fields (k : MatrixKey) :=
  (mk_model k, (mk_route_id k, (mk_source_id k, (mk_account_id k, mk_upstream_model_id k)))).

Lemma MatrixKey_fields_inj k k' : MatrixKey_fields k = MatrixKey_fields k' -> k = k'.
Proof. destruct k, k'. by intros [= -> -> -> -> ->]. Qed.

#[export] Instance MatrixKey_Ordered : Ordered MatrixKey :=
  Ordered_inj MatrixKey_fields MatrixKey_fields_inj.

(** [protocols] is only looked up and emptied by key. *)
Record RouteMatrixBuilder : Type := mkRouteMatrixBuilder {
  mb_route_id : string;
  mb_source : RuntimeSourceRef;
  mb_account : RuntimeAccountRef;
  mb_model : string;
  mb_model_display_name : string;
  mb_upstream_model_id : string;
  mb_protocols : list (Protocol * EffectiveProtocolCapability);
}.

Definition Rows : Type := list (MatrixKey * RouteMatrixBuilder).

(** ** Cells *)

Definition routable (protocol_in : Protocol) (b : ResolvedBinding) (mode : ProtocolMode)
    (selection : CapabilityBindingSelection) (selection_rank : nat) (allow_lossy_conversion : bool)
    : EffectiveProtocolCapability := {|
  ec_protocol_in := protocol_in;
  ec_status := Routable;
  ec_binding_id := Some (sb_binding_id b);
  ec_selection := Some selection;
  ec_selection_rank := Some selection_rank;
  ec_protocol_upstream := Some (sb_protocol_upstream b);
  ec_endpoint := Some (sb_upstream_endpoint b);
  ec_mode := Some mode;
  ec_adapter := sb_adapter b;
  ec_conversion_chain := [mkProtocolConversionHop protocol_in (sb_protocol_upstream b) mode (sb_adapter b)];
  ec_effective_capabilities := sb_effective_capabilities b;
  ec_degraded := negb (bool_decide (sb_degraded_features b = []));
  ec_degraded_features := sb_degraded_features b;
  ec_allow_lossy_conversion := Some allow_lossy_conversion;
  ec_error := None |}.

Definition unroutable (protocol_in : Protocol) (error : RouteResolutionError)
    : EffectiveProtocolCapability := {|
  ec_protocol_in := protocol_in;
  ec_status := Unroutable;
  ec_binding_id := None;
  ec_selection := None;
  ec_selection_rank := None;
  ec_protocol_upstream := None;
  ec_endpoint := None;
  ec_mode := None;
  ec_adapter := None;
  ec_conversion_chain := [];
  ec_effective_capabilities := Capabilities_default;
  ec_degraded := false;
  ec_degraded_features := [];
  ec_allow_lossy_conversion := None;
  ec_error := Some error |}.

Definition runtime_mode (route_id : string) (binding_id : Z) (mode : string)
    : result ProtocolMode CapabilityMatrixBuildError :=
  if mode =?s "native" then Ok PNative
  else if mode =?s "adapter" then Ok PAdapter
  else Err (InvalidRuntimeMode route_id binding_id mode).

(** ** Rows *)

Definition matrix_key (model : PublishedModel) (route_id : string) (b : ResolvedBinding) : MatrixKey :=
  mkMatrixKey (pm_id model) route_id (sb_source_id b) (sb_account_id b) (sb_upstream_model_id b).

(** The builder [or_insert_with] makes. *)
Definition new_row (config : GatewayConfig) (model : PublishedModel) (route_id : string)
    (b : ResolvedBinding) : RouteMatrixBuilder :=
  mkRouteMatrixBuilder route_id
    (mkRuntimeSourceRef (sb_source_id b) (pv_name <$> provider config (sb_source_id b)))
    (mkRuntimeAccountRef (sb_account_id b) (ac_display_name <$> account config (sb_account_id b))
       (ac_enabled <$> account config (sb_account_id b)))
    (pm_id model) (pm_display_name model) (sb_upstream_model_id b) [].

Definition set_protocols (row : RouteMatrixBuilder)
    (protocols : list (Protocol * EffectiveProtocolCapability)) : RouteMatrixBuilder :=
  mkRouteMatrixBuilder (mb_route_id row) (mb_source row) (mb_account row) (mb_model row)
    (mb_model_display_name row) (mb_upstream_model_id row) protocols.

Definition insert_binding (config : GatewayConfig) (model : PublishedModel) (route_id : string)
    (protocol_in : Protocol) (b : ResolvedBinding) (allow_lossy_conversion : bool)
    (selection : CapabilityBindingSelection) (selection_rank : nat) (rows : Rows)
    : result Rows CapabilityMatrixBuildError :=
  let? mode := runtime_mode route_id (sb_binding_id b) (sb_mode b) in
  let key := matrix_key model route_id b in
  let row := unwrap_or (bt_get rows key) (new_row config model route_id b) in
  let cell := routable protocol_in b mode selection selection_rank allow_lossy_conversion in
  if hm_contains (mb_protocols row) protocol_in
  then Err (DuplicateRuntimeBinding route_id (sb_binding_id b) protocol_in)
  else Ok (bt_insert rows key (set_protocols row (hm_insert (mb_protocols row) protocol_in cell))).

(** The loop over the fallback bindings, from rank [index + 1]. *)
Fixpoint insert_fallbacks (config : GatewayConfig) (model : PublishedModel) (resolved : ResolvedRoute)
    (index : nat) (bindings : list ResolvedBinding) (rows : Rows)
    : result Rows CapabilityMatrixBuildError :=
  match bindings with
  | [] => Ok rows
  | b :: bindings =>
      let? rows := insert_binding config model (rs_route_id resolved) (rs_protocol_in resolved) b
                     (rs_allow_lossy_conversion resolved) Fallback (index + 1) rows in
      insert_fallbacks config model resolved (S index) bindings rows
  end.

Definition insert_resolved_route (config : GatewayConfig) (model : PublishedModel)
    (resolved : ResolvedRoute) (rows : Rows) : result Rows CapabilityMatrixBuildError :=
  let? binding_id := ok_or (rs_binding_id resolved)
                       (MissingRuntimeBindingId (rs_route_id resolved) (rs_protocol_in resolved)) in
  let? rows := insert_binding config model (rs_route_id resolved) (rs_protocol_in resolved)
                 (primary_binding resolved binding_id) (rs_allow_lossy_conversion resolved) Primary 0
                 rows in
  insert_fallbacks config model resolved 0 (rs_fallback_bindings resolved) rows.

(** ** The matrix *)

Definition Resolutions : Type := list ((string * Protocol) * option RouteResolutionError).

Definition not_available (row : RouteMatrixBuilder) (protocol : Protocol) : RouteResolutionError :=
  mkRouteResolutionError "runtime_binding_not_available"
    ("runtime snapshot has no confirmed, available binding for source '"
     +:+ sf_source_id (mb_source row) +:+ "' account '" +:+ af_account_id (mb_account row)
     +:+ "' upstream model '" +:+ mb_upstream_model_id row +:+ "' on " +:+ Protocol_to_string protocol)
    (Some (mb_route_id row)).

Definition finish (row : RouteMatrixBuilder) (resolutions : Resolutions) : RouteCapabilityMatrix :=
  mkRouteCapabilityMatrix (mb_route_id row) (mb_source row) (mb_account row) (mb_model row)
    (mb_model_display_name row) (mb_upstream_model_id row)
    (map (fun protocol =>
            match hm_get (mb_protocols row) protocol with
            | Some cell => cell
            | None => unroutable protocol
                        match bt_get resolutions (mb_model row, protocol) with
                        | Some (Some error) => error
                        | _ => not_available row protocol
                        end
            end) Protocol_ALL).

Section Matrix.
Context `{BuildCfg}.

Definition matrix_step (config : GatewayConfig) (resolver : RouteResolver)
    (st : Rows * Resolutions) (mp : PublishedModel * Protocol)
    : result (Rows * Resolutions) CapabilityMatrixBuildError :=
  let '(model, protocol) := mp in
  match resolve_detailed resolver protocol (pm_id model) with
  | Ok resolved =>
      let? rows := insert_resolved_route config model resolved st.1 in
      Ok (rows, bt_insert st.2 (pm_id model, protocol) None)
  | Err error => Ok (st.1, bt_insert st.2 (pm_id model, protocol) (Some error))
  end.

(** The nested loops, over the pairs in their order. *)
Definition matrix_pairs (models : list PublishedModel) : list (PublishedModel * Protocol) :=
  models ≫= fun model => map (pair model) Protocol_ALL.

Fixpoint matrix_loop (config : GatewayConfig) (resolver : RouteResolver)
    (pairs : list (PublishedModel * Protocol)) (st : Rows * Resolutions)
    : result (Rows * Resolutions) CapabilityMatrixBuildError :=
  match pairs with
  | [] => Ok st
  | mp :: pairs => let? st := matrix_step config resolver st mp in matrix_loop config resolver pairs st
  end.

Definition from_runtime_snapshot (config : GatewayConfig) (resolver : RouteResolver)
    (models : list PublishedModel) (snapshot_revision snapshot_generated_at : Z)
    : result CapabilityMatrixResponse CapabilityMatrixBuildError :=
  if negb (is_runtime_snapshot resolver) then Err NotRuntimeSnapshot
  else
    let? st := matrix_loop config resolver (matrix_pairs models) ([], []) in
    Ok (mkCapabilityMatrixResponse CAPABILITY_MATRIX_VERSION snapshot_revision snapshot_generated_at
          (map (fun row => finish row st.2) st.1.*2)).
End Matrix.

(** ** The cells of the rows *)

Definition cell_at (rows : Rows) (key : MatrixKey) (protocol : Protocol)
    : option EffectiveProtocolCapability :=
  row ← bt_get rows key; hm_get (mb_protocols row) protocol.

(** A row stands under the key it names. *)
Definition row_headed (key : MatrixKey) (row : RouteMatrixBuilder) : Prop :=
  key = mkMatrixKey (mb_model row) (mb_route_id row) (sf_source_id (mb_source row))
          (af_account_id (mb_account row)) (mb_upstream_model_id row).

Record rows_ok (rows : Rows) : Prop := {
  ro_wf : bt_wf rows;
  ro_headed : forall key row, bt_get rows key = Some row -> row_headed key row;
  ro_cell : forall key row, bt_get rows key = Some row ->
    exists p c, hm_get (mb_protocols row) p = Some c;
}.

Lemma rows_ok_nil : rows_ok [].
Proof. split; [apply bt_wf_nil|done|done]. Qed.

(** The lines of a resolved route, in the order they are tried. *)
Definition lines (r : ResolvedRoute) : list ResolvedBinding :=
  match rs_binding_id r with Some id => [primary_binding r id] | None => [] end ++ rs_fallback_bindings r.

Definition selection_of (rank : nat) : CapabilityBindingSelection :=
  match rank with O => Primary | S _ => Fallback end.

(** The cell of the line at [rank]. *)
Definition line_cell (r : ResolvedRoute) (rank : nat) (b : ResolvedBinding)
    (cell : EffectiveProtocolCapability) : Prop :=
  exists mode, runtime_mode (rs_route_id r) (sb_binding_id b) (sb_mode b) = Ok mode
    /\ cell = routable (rs_protocol_in r) b mode (selection_of rank) rank (rs_allow_lossy_conversion r).

Lemma line_cell_total r rank b :
  sb_mode b = "native" \/ sb_mode b = "adapter" -> exists cell, line_cell r rank b cell.
Proof. unfold line_cell, runtime_mode. intros [-> | ->]; cbn; eauto. Qed.

Section Insert.
Context (config : GatewayConfig) (model : PublishedModel) (r : ResolvedRoute).

Definition insert_line (rank : nat) (b : ResolvedBinding) (rows : Rows)
    : result Rows CapabilityMatrixBuildError :=
  insert_binding config model (rs_route_id r) (rs_protocol_in r) b (rs_allow_lossy_conversion r)
    (selection_of rank) rank rows.

Fixpoint insert_lines (rank : nat) (bs : list ResolvedBinding) (rows : Rows)
    : result Rows CapabilityMatrixBuildError :=
  match bs with
  | [] => Ok rows
  | b :: bs => let? rows := insert_line rank b rows in insert_lines (S rank) bs rows
  end.

Lemma insert_fallbacks_lines bs : forall index rows,
  insert_fallbacks config model r index bs rows = insert_lines (S index) bs rows.
Proof.
  induction bs as [|b bs IH]; intros index rows; cbn [insert_fallbacks insert_lines]; [done|].
  rewrite Nat.add_1_r. unfold insert_line. cbn [selection_of].
  destruct (insert_binding _ _ _ _ _ _ _ _ _); cbn [rbind]; auto.
Qed.

Lemma insert_resolved_route_lines id rows :
  rs_binding_id r = Some id -> insert_resolved_route config model r rows = insert_lines 0 (lines r) rows.
Proof.
  intros Hid. unfold insert_resolved_route, lines. rewrite Hid. cbn [ok_or rbind app insert_lines].
  unfold insert_line. cbn [selection_of]. destruct (insert_binding _ _ _ _ _ _ _ _ _); cbn [rbind]; [|done].
  apply insert_fallbacks_lines.
Qed.

Lemma new_row_headed b : row_headed (matrix_key model (rs_route_id r) b)
                           (new_row config model (rs_route_id r) b).
Proof. done. Qed.

Lemma insert_line_ok rank b rows rows' :
  rows_ok rows -> insert_line rank b rows = Ok rows' ->
  rows_ok rows' /\ exists cell, line_cell r rank b cell
    /\ cell_at rows (matrix_key model (rs_route_id r) b) (rs_protocol_in r) = None
    /\ forall key p c, cell_at rows' key p = Some c <->
         (key, p, c) = (matrix_key model (rs_route_id r) b, rs_protocol_in r, cell)
         \/ cell_at rows key p = Some c.
Proof.
  intros Hok. unfold insert_line, insert_binding.
  destruct (runtime_mode _ _ _) as [mode|] eqn:Hm; cbn [rbind]; [|done].
  set (k := matrix_key _ _ _). set (cell := routable _ _ _ _ _ _).
  set (row := unwrap_or _ _). destruct (hm_contains _ _) eqn:Hc; [done|]. intros [= <-].
  assert (Hh : row_headed k row).
  { unfold row. destruct (bt_get rows k) as [row0|] eqn:E; [|apply new_row_headed].
    by apply (ro_headed _ Hok). }
  assert (Hrow : forall p, hm_get (mb_protocols row) p = cell_at rows k p).
  { intros p. unfold row, cell_at. by destruct (bt_get rows k). }
  assert (Hnone : cell_at rows k (rs_protocol_in r) = None).
  { rewrite <- Hrow. unfold hm_contains in Hc. by destruct (hm_get _ _). }
  split.
  - split; [apply bt_insert_wf, Hok| |]; intros key row' Hg; rewrite bt_get_insert in Hg by apply Hok.
    + destruct (kcmp key k) eqn:E; try by apply (ro_headed _ Hok). apply kcmp_eq in E as ->.
      by injection Hg as <-.
    + destruct (kcmp key k); try by eapply (ro_cell _ Hok). injection Hg as <-.
      exists (rs_protocol_in r), cell. cbn [mb_protocols set_protocols]. rewrite hm_get_insert.
      by rewrite bool_decide_true.
  - exists cell. split; [by exists mode|]. split; [done|]. intros key p c. unfold cell_at at 1.
    rewrite bt_get_insert by apply Hok. destruct (kcmp key k) eqn:E.
    + apply kcmp_eq in E as ->. cbn [mbind option_bind mb_protocols set_protocols].
      rewrite hm_get_insert, Hrow. case_bool_decide as Hp.
      * subst p. rewrite Hnone. split; [intros [= ->]; by left|]. by intros [[= ->]|].
      * split; [by right|]. intros [[= Hp' _]|]; [congruence|done].
    + split; [by right|]. intros [[= -> _ _]|]; [by rewrite kcmp_refl in E|done].
    + split; [by right|]. intros [[= -> _ _]|]; [by rewrite kcmp_refl in E|done].
Qed.

Lemma insert_line_total rank b rows :
  sb_mode b = "native" \/ sb_mode b = "adapter" ->
  cell_at rows (matrix_key model (rs_route_id r) b) (rs_protocol_in r) = None ->
  exists rows', insert_line rank b rows = Ok rows'.
Proof.
  intros Hm Hn. unfold insert_line, insert_binding, runtime_mode, hm_contains.
  assert (hm_get (mb_protocols (unwrap_or (bt_get rows (matrix_key model (rs_route_id r) b))
    (new_row config model (rs_route_id r) b))) (rs_protocol_in r) = None) as Hg.
  { unfold cell_at in Hn. by destruct (bt_get rows _). }
  destruct Hm as [-> | ->]; cbn [rbind String.eqb]; rewrite Hg; cbn; eauto.
Qed.

(** All lines of the route. *)
Lemma insert_lines_ok bs : forall rank rows rows',
  rows_ok rows -> insert_lines rank bs rows = Ok rows' ->
  rows_ok rows' /\ forall key p c, cell_at rows' key p = Some c <->
    (p = rs_protocol_in r /\ exists i b, bs !! i = Some b
       /\ key = matrix_key model (rs_route_id r) b /\ line_cell r (rank + i) b c)
    \/ cell_at rows key p = Some c.
Proof.
  induction bs as [|b bs IH]; intros rank rows rows' Hok; cbn [insert_lines].
  { intros [= <-]. split; [done|]. intros key p c. split; [by right|].
    intros [(_ & i & b & Hi & _)|]; [by rewrite lookup_nil in Hi|done]. }
  destruct (insert_line rank b rows) as [rows1|] eqn:E; cbn [rbind]; [|done]. intros Hrest.
  apply insert_line_ok in E as (Hok1 & cell & Hcell & _ & Hat); [|done].
  apply IH in Hrest as [Hok' Hat']; [|done]. split; [done|]. intros key p c. rewrite Hat', Hat. split.
  - intros [(-> & i & x & Hi & -> & Hc)|[[= -> -> ->]|Hc]].
    + left. split; [done|]. exists (S i), x. rewrite Nat.add_succ_r. auto.
    + left. split; [done|]. exists 0%nat, b. rewrite Nat.add_0_r. auto.
    + by right.
  - intros [(-> & i & x & Hi & -> & Hc)|Hc]; [|by do 2 right]. destruct i as [|i].
    + right. left. rewrite Nat.add_0_r in Hc. injection Hi as ->.
      destruct Hc as (m1 & Hm1 & ->), Hcell as (m2 & Hm2 & ->). rewrite Hm1 in Hm2. by injection Hm2 as ->.
    + left. split; [done|]. exists i, x. rewrite Nat.add_succ_r in Hc. auto.
Qed.

Lemma insert_lines_cells bs : forall rank rows rows',
  insert_lines rank bs rows = Ok rows' ->
  forall i b, bs !! i = Some b -> exists cell, line_cell r (rank + i) b cell.
Proof.
  induction bs as [|b bs IH]; intros rank rows rows'; cbn [insert_lines]; [done|].
  destruct (insert_line rank b rows) as [rows1|] eqn:E; cbn [rbind]; [|done]. intros Hrest [|i] x Hx.
  - injection Hx as <-. rewrite Nat.add_0_r. unfold insert_line, insert_binding in E.
    destruct (runtime_mode _ _ _) as [mode|] eqn:Hm; [|done]. by exists (routable (rs_protocol_in r) b mode
      (selection_of rank) rank (rs_allow_lossy_conversion r)), mode.
  - rewrite Nat.add_succ_r. by eapply (IH (S rank)).
Qed.

Lemma insert_lines_total bs : forall rank rows,
  rows_ok rows -> Forall (fun b => sb_mode b = "native" \/ sb_mode b = "adapter") bs ->
  NoDup (map (matrix_key model (rs_route_id r)) bs) ->
  (forall b, b ∈ bs -> cell_at rows (matrix_key model (rs_route_id r) b) (rs_protocol_in r) = None) ->
  exists rows', insert_lines rank bs rows = Ok rows'.
Proof.
  induction bs as [|b bs IH]; intros rank rows Hok Hm Hnd Hn; cbn [insert_lines]; [eauto|].
  apply Forall_cons in Hm as [Hmb Hm]. cbn in Hnd. apply NoDup_cons in Hnd as [Hb Hnd].
  destruct (insert_line_total rank b rows Hmb) as [rows1 E]; [apply Hn, list_elem_of_here|].
  rewrite E. cbn [rbind]. apply insert_line_ok in E as (Hok1 & cell & _ & _ & Hat); [|done].
  apply IH; [done|done|done|]. intros x Hx. apply eq_None_not_Some. intros [c Hc].
  apply Hat in Hc as [Hk|Hc].
  - apply (f_equal (fun t => t.1.1)) in Hk. cbn [fst] in Hk. apply Hb. rewrite <- Hk.
    by apply list_elem_of_fmap_2.
  - rewrite Hn in Hc by (by apply list_elem_of_further). done.
Qed.
End Insert.

(** ** The loops *)

Section Loop.
Context `{BuildCfg} (config : GatewayConfig) (resolver : RouteResolver).

(** A cell the resolver accounts for. *)
Definition placed (model : PublishedModel) (protocol : Protocol) (key : MatrixKey)
    (cell : EffectiveProtocolCapability) : Prop :=
  exists r i b, resolve_detailed resolver protocol (pm_id model) = Ok r /\ lines r !! i = Some b
    /\ key = matrix_key model (rs_route_id r) b /\ line_cell r i b cell.

(** What the loops have established after the pairs [done_pairs]. *)
Record loop_ok (done_pairs : list (PublishedModel * Protocol)) (st : Rows * Resolutions) : Prop := {
  lo_rows : rows_ok st.1;
  lo_cells : forall key p c, cell_at st.1 key p = Some c <->
    exists model, (model, p) ∈ done_pairs /\ placed model p key c;
  lo_lines : forall model p r i b, (model, p) ∈ done_pairs ->
    resolve_detailed resolver p (pm_id model) = Ok r -> lines r !! i = Some b -> exists c, line_cell r i b c;
  lo_wf : bt_wf st.2;
  lo_errors : forall id p e, bt_get st.2 (id, p) = Some e ->
    e = match resolve_detailed resolver p id with Ok _ => None | Err e => Some e end;
  lo_resolved : forall model p, (model, p) ∈ done_pairs -> is_some (bt_get st.2 (pm_id model, p)) = true;
}.

Lemma loop_ok_nil : loop_ok [] ([], []).
Proof.
  split; cbn; [apply rows_ok_nil| | |apply bt_wf_nil|done|].
  - intros key p c. split; [done|]. by intros (m & Hm%elem_of_nil & _).
  - by intros m p r i b Hm%elem_of_nil.
  - by intros m p Hm%elem_of_nil.
Qed.

Lemma record_resolution res id p e :
  bt_wf res ->
  (forall id p e, bt_get res (id, p) = Some e ->
     e = match resolve_detailed resolver p id with Ok _ => None | Err e => Some e end) ->
  e = match resolve_detailed resolver p id with Ok _ => None | Err e => Some e end ->
  bt_wf (bt_insert res (id, p) e)
  /\ (forall id' p' e', bt_get (bt_insert res (id, p) e) (id', p') = Some e' ->
       e' = match resolve_detailed resolver p' id' with Ok _ => None | Err e => Some e end)
  /\ is_some (bt_get (bt_insert res (id, p) e) (id, p)) = true
  /\ forall k, is_some (bt_get res k) = true -> is_some (bt_get (bt_insert res (id, p) e) k) = true.
Proof.
  intros Hwf Herr He. split_and!; [by apply bt_insert_wf| | |].
  - intros id' p' e'. rewrite bt_get_insert by done.
    destruct (kcmp (id', p') (id, p)) eqn:E; [|apply Herr|apply Herr].
    apply kcmp_eq in E. injection E as -> ->. by intros [= <-].
  - rewrite bt_get_insert by done. by rewrite kcmp_refl.
  - intros k Hk. rewrite bt_get_insert by done. by destruct (kcmp k (id, p)).
Qed.

(** The published resolver names the protocol it was asked for and the binding
    of its primary line. *)
Context (resolver_runtime : forall protocol model r, resolve_detailed resolver protocol model = Ok r ->
           rs_protocol_in r = protocol /\ is_some (rs_binding_id r) = true).

Lemma matrix_step_ok done_pairs st mp st' :
  loop_ok done_pairs st -> matrix_step config resolver st mp = Ok st' -> loop_ok (done_pairs ++ [mp]) st'.
Proof.
  intros [Hrows Hcells Hlines Hwf Herr Hres]. destruct mp as [model p]. unfold matrix_step.
  destruct (resolve_detailed resolver p (pm_id model)) as [r|e] eqn:Er.
  - destruct (resolver_runtime _ _ _ Er) as [Hp Hid]. destruct (rs_binding_id r) as [id|] eqn:Eid; [|done].
    rewrite (insert_resolved_route_lines _ _ _ id) by done.
    destruct (insert_lines _ _ _ _ _ _) as [rows|] eqn:El; cbn [rbind]; [|done]. intros [= <-].
    pose proof (insert_lines_cells _ _ _ _ _ _ _ El) as Hnew.
    apply insert_lines_ok in El as [Hrows' Hat]; [|done].
    destruct (record_resolution st.2 (pm_id model) p None Hwf Herr) as (Hw & He & Hs & Hk); [by rewrite Er|].
    split; cbn [fst snd]; [done| | |done|done|].
    + intros key q c. rewrite Hat, Hcells, Hp. split.
      * intros [(-> & i & b & Hi & -> & Hc)|(m & Hm & Hpl)].
        -- exists model. split; [apply elem_of_app; right; apply list_elem_of_here|].
           by exists r, i, b.
        -- exists m. split; [by apply elem_of_app; left|done].
      * intros (m & [Hm|[= -> ->]%list_elem_of_singleton]%elem_of_app & Hpl); [right; eauto|].
        destruct Hpl as (r' & i & b & Hr' & Hi & -> & Hc). rewrite Er in Hr'. injection Hr' as <-.
        left. split; [done|]. by exists i, b.
    + intros m q r' i b [Hm|[= -> ->]%list_elem_of_singleton]%elem_of_app Hr'; [by eapply Hlines|].
      rewrite Er in Hr'. injection Hr' as <-. apply (Hnew i).
    + intros m q [Hm|[= -> ->]%list_elem_of_singleton]%elem_of_app; [auto|done].
  - intros [= <-].
    destruct (record_resolution st.2 (pm_id model) p (Some e) Hwf Herr) as (Hw & He & Hs & Hk);
      [by rewrite Er|].
    split; cbn [fst snd]; [done| | |done|done|].
    + intros key q c. rewrite Hcells. split.
      * intros (m & Hm & Hpl). exists m. split; [by apply elem_of_app; left|done].
      * intros (m & [Hm|[= -> ->]%list_elem_of_singleton]%elem_of_app & Hpl); [eauto|].
        destruct Hpl as (r' & _ & _ & Hr' & _). by rewrite Er in Hr'.
    + intros m q r' i b [Hm|[= -> ->]%list_elem_of_singleton]%elem_of_app Hr'; [by eapply Hlines|].
      by rewrite Er in Hr'.
    + intros m q [Hm|[= -> ->]%list_elem_of_singleton]%elem_of_app; [auto|done].
Qed.

Lemma matrix_loop_ok pairs : forall done_pairs st st',
  loop_ok done_pairs st -> matrix_loop config resolver pairs st = Ok st' -> loop_ok (done_pairs ++ pairs) st'.
Proof.
  induction pairs as [|mp pairs IH]; intros done_pairs st st' Hok; cbn [matrix_loop].
  { intros [= <-]. by rewrite app_nil_r. }
  destruct (matrix_step _ _ _ _) as [st1|] eqn:E; cbn [rbind]; [|done]. intros Hrest.
  replace (done_pairs ++ mp :: pairs) with ((done_pairs ++ [mp]) ++ pairs) by (by rewrite <- app_assoc).
  eapply IH; [|exact Hrest]. by eapply matrix_step_ok.
Qed.

(** The loops succeed when no line is met twice. *)
Context (resolver_modes : forall protocol model r, resolve_detailed resolver protocol model = Ok r ->
           Forall (fun b => sb_mode b = "native" \/ sb_mode b = "adapter") (lines r)).
Context (resolver_distinct : forall protocol model r, resolve_detailed resolver protocol model = Ok r ->
           NoDup (map (fun b => (sb_source_id b, sb_account_id b, sb_upstream_model_id b)) (lines r))).

Lemma matrix_step_total done_pairs st mp :
  loop_ok done_pairs st -> (mp.1.(pm_id), mp.2) ∉ map (fun q => (pm_id q.1, q.2)) done_pairs ->
  exists st', matrix_step config resolver st mp = Ok st'.
Proof.
  intros [Hrows Hcells _ _ _ _] Hfresh. destruct mp as [model p]. unfold matrix_step.
  destruct (resolve_detailed resolver p (pm_id model)) as [r|e] eqn:Er; [|eauto].
  destruct (resolver_runtime _ _ _ Er) as [Hp Hid]. destruct (rs_binding_id r) as [id|] eqn:Eid; [|done].
  rewrite (insert_resolved_route_lines _ _ _ id) by done.
  destruct (insert_lines_total config model r (lines r) 0 st.1) as [rows ->]; [done|eauto| | |cbn; eauto].
  - apply (NoDup_fmap_1 (fun k => (mk_source_id k, mk_account_id k, mk_upstream_model_id k))).
    specialize (resolver_distinct _ _ _ Er). unfold fmap. change list_fmap with (@map). by rewrite map_map.
  - intros b Hb. apply eq_None_not_Some. intros [c Hc]. apply Hcells in Hc as (m & Hm & Hpl).
    destruct Hpl as (r' & i & x & _ & _ & Hk & _). apply (f_equal mk_model) in Hk. cbn in Hk.
    apply Hfresh. cbn. rewrite Hk, <- Hp. by apply (list_elem_of_fmap_2 (fun q => (pm_id q.1, q.2)) _ (m, _)).
Qed.

Lemma matrix_loop_total pairs : forall done_pairs st,
  loop_ok done_pairs st -> NoDup (map (fun q => (pm_id q.1, q.2)) (done_pairs ++ pairs)) ->
  exists st', matrix_loop config resolver pairs st = Ok st'.
Proof.
  induction pairs as [|mp pairs IH]; intros done_pairs st Hok Hnd; cbn [matrix_loop]; [eauto|].
  replace (done_pairs ++ mp :: pairs) with ((done_pairs ++ [mp]) ++ pairs) in Hnd by (by rewrite <- app_assoc).
  pose proof Hnd as Hnd1. rewrite map_app in Hnd1. apply NoDup_app in Hnd1 as (Hnd1 & _ & _).
  rewrite map_app in Hnd1. apply NoDup_app in Hnd1 as (_ & Hdis & _).
  destruct (matrix_step_total done_pairs st mp Hok) as [st1 E].
  { intros Hin. apply (Hdis _ Hin). cbn. apply list_elem_of_here. }
  rewrite E. cbn [rbind]. eapply IH; [|exact Hnd]. by eapply matrix_step_ok.
Qed.
End Loop.

(** ** The response *)

(** The row a line belongs to. *)
Definition row_of_line (row : RouteCapabilityMatrix) (r : ResolvedRoute) (b : ResolvedBinding) : Prop :=
  cm_route_id row = rs_route_id r /\ sf_source_id (cm_source row) = sb_source_id b
  /\ af_account_id (cm_account row) = sb_account_id b
  /\ cm_upstream_model_id row = sb_upstream_model_id b.

(** A cell says what the resolver does: a routable cell is a line of the
    resolved route at its rank; an unroutable one carries the resolver's error,
    or the route is resolved over other lines only. *)
Definition cell_correct `{BuildCfg} (resolver : RouteResolver) (row : RouteCapabilityMatrix)
    (cell : EffectiveProtocolCapability) : Prop :=
  let protocol := ec_protocol_in cell in
  match ec_status cell, resolve_detailed resolver protocol (cm_model row) with
  | Routable, Ok r => exists rank b, lines r !! rank = Some b /\ row_of_line row r b /\ line_cell r rank b cell
  | Routable, Err _ => False
  | Unroutable, Err e => cell = unroutable protocol e
  | Unroutable, Ok r =>
      Forall (fun b => ~ row_of_line row r b) (lines r)
      /\ exists e, cell = unroutable protocol e /\ re_code e = "runtime_binding_not_available"
  end.

Lemma runtime_resolved `{BuildCfg} resolver protocol model r :
  is_runtime_snapshot resolver = true -> resolve_detailed resolver protocol model = Ok r ->
  rs_protocol_in r = protocol /\ is_some (rs_binding_id r) = true.
Proof.
  unfold is_runtime_snapshot, resolve_detailed. destruct (rv_runtime_routes resolver) as [routes|]; [|done].
  intros _. unfold resolve_runtime_route. destruct (List.find _ _) as [route|]; [|done].
  destruct (rr_bindings route); [done|]. by intros [= <-].
Qed.

Section Response.
Context `{BuildCfg} (config : GatewayConfig) (resolver : RouteResolver).
Context (done_pairs : list (PublishedModel * Protocol)) (st : Rows * Resolutions).
Context (st_ok : loop_ok resolver done_pairs st).
Context (all_protocols : forall model p, (model, p) ∈ done_pairs -> forall q, (model, q) ∈ done_pairs).

Lemma finish_protocols row : map ec_protocol_in (cm_protocols (finish row st.2))
  = map (fun p => match hm_get (mb_protocols row) p with Some c => ec_protocol_in c | None => p end)
      Protocol_ALL.
Proof.
  cbn [finish cm_protocols]. rewrite map_map. apply map_ext. intros p. by destruct (hm_get _ p).
Qed.

Lemma line_cell_protocol r rank b c : line_cell r rank b c -> ec_protocol_in c = rs_protocol_in r.
Proof. by intros (mode & _ & ->). Qed.

Context (runtime : is_runtime_snapshot resolver = true).

Lemma row_cells key row p c :
  bt_get st.1 key = Some row -> hm_get (mb_protocols row) p = Some c ->
  exists model, (model, p) ∈ done_pairs /\ placed resolver model p key c.
Proof. intros Hrow Hc. apply (lo_cells _ _ _ st_ok). unfold cell_at. by rewrite Hrow. Qed.

Lemma placed_protocol model p key c : placed resolver model p key c -> ec_protocol_in c = p.
Proof.
  intros (r & i & b & Hr & _ & _ & Hc). apply runtime_resolved in Hr as [<- _]; [|done].
  by eapply line_cell_protocol.
Qed.

Lemma finish_in_order key row :
  bt_get st.1 key = Some row -> map ec_protocol_in (cm_protocols (finish row st.2)) = Protocol_ALL.
Proof.
  intros Hrow. rewrite finish_protocols. rewrite <- (map_id Protocol_ALL) at 2.
  apply map_ext_in. intros p _. destruct (hm_get _ p) as [c|] eqn:E; [|done].
  destruct (row_cells _ _ _ _ Hrow E) as (m & _ & Hpl). by eapply placed_protocol.
Qed.

(** The cells of one finished row. *)
Lemma finish_correct key row :
  bt_get st.1 key = Some row -> (exists p c, cell_at st.1 key p = Some c) ->
  Forall (cell_correct resolver (finish row st.2)) (cm_protocols (finish row st.2)).
Proof.
  intros Hrow Hsome. pose proof (ro_headed _ (lo_rows _ _ _ st_ok) _ _ Hrow) as Hhead.
  assert (Hmodel : exists model, pm_id model = mb_model row /\ forall q, (model, q) ∈ done_pairs).
  { destruct Hsome as (p & c & Hc). apply (lo_cells _ _ _ st_ok) in Hc as (m & Hm & r & i & b & _ & _ & Hk & _).
    exists m. split; [|by eapply all_protocols]. rewrite Hhead in Hk. by injection Hk as ->. }
  destruct Hmodel as (model & Hid & Hall).
  apply Forall_forall. intros cell Hcell. cbn [finish cm_protocols] in Hcell.
  apply list_elem_of_fmap in Hcell as (p & -> & _). destruct (hm_get _ p) as [c|] eqn:E.
  - pose proof (row_cells _ _ _ _ Hrow E) as (m & _ & Hpl). pose proof (placed_protocol _ _ _ _ Hpl) as Hp.
    destruct Hpl as (r & i & b & Hr & Hi & Hk & Hc). rewrite Hhead in Hk. injection Hk as Hm Hrt Hs Ha Hu.
    unfold cell_correct. rewrite Hp. assert (ec_status c = Routable) as -> by (by destruct Hc as (mode & _ & ->)).
    cbn [finish cm_model]. rewrite Hm, Hr. exists i, b. split; [done|]. by split.
  - unfold cell_correct. cbn [unroutable ec_status ec_protocol_in finish cm_model].
    pose proof (lo_resolved _ _ _ st_ok _ _ (Hall p)) as Hres. rewrite Hid in Hres.
    destruct (bt_get st.2 (mb_model row, p)) as [e|] eqn:Ee; [|done].
    apply (lo_errors _ _ _ st_ok) in Ee. subst e.
    destruct (resolve_detailed resolver p (mb_model row)) as [r|e] eqn:Er; [|done].
    split; [|by eexists]. apply Forall_forall. intros b Hb (Hrt & Hs & Ha & Hu). cbn in Hrt, Hs, Ha, Hu.
    apply list_elem_of_lookup in Hb as [i Hi].
    assert (exists c, cell_at st.1 key p = Some c) as [c Hc].
    { destruct (lo_lines _ _ _ st_ok model p r i b) as [c Hc]; [apply Hall|by rewrite Hid|done|].
      exists c. apply (lo_cells _ _ _ st_ok). exists model. split; [apply Hall|]. exists r, i, b.
      rewrite Hid. split_and!; [done|done| |done].
      rewrite Hhead. unfold matrix_key. by rewrite Hid, Hrt, Hs, Ha, Hu. }
    unfold cell_at in Hc. rewrite Hrow in Hc. cbn in Hc. congruence.
Qed.
End Response.

Lemma matrix_pairs_all models model p :
  (model, p) ∈ matrix_pairs models <-> model ∈ models.
Proof.
  unfold matrix_pairs. rewrite list_elem_of_bind. split.
  - intros (m & Hm & Hin). apply list_elem_of_fmap in Hm as (q & [= -> _] & _). done.
  - intros Hm. exists model. split; [|done]. apply list_elem_of_fmap_2, Protocol_ALL_complete.
Qed.

Lemma matrix_pairs_NoDup models :
  NoDup (map pm_id models) -> NoDup (map (fun q => (pm_id q.1, q.2)) (matrix_pairs models)).
Proof.
  unfold matrix_pairs. induction models as [|m models IH]; [intros _; apply NoDup_nil_2|].
  cbn [map]. intros [Hm Hnd]%NoDup_cons. cbn [mbind list_bind].
  rewrite map_app, map_map. apply NoDup_app. split_and!; [|  |by apply IH].
  - apply (NoDup_fmap_2 (fun p => (pm_id m, p))). apply Protocol_ALL_NoDup.
  - intros [id p] Hin Hin'. apply list_elem_of_fmap in Hin as (q & [= -> ->] & _).
    apply Hm. apply list_elem_of_fmap in Hin' as ([m' p'] & [= Hid ->] & Hmp).
    apply matrix_pairs_all in Hmp. rewrite Hid. by apply list_elem_of_fmap_2.
Qed.

(** ** Properties *)

(** The capability matrix is the resolver's behaviour and nothing else: every
    row has one cell per client protocol, in order; a routable cell is exactly
    the line at that rank of the route the data plane resolves for the row's
    model (its endpoint, mode, adapter and degraded features), an unroutable
    one carries the resolver's own error or says that the route uses other
    lines; and every line of every route that a listed model resolves to has
    its cell. *)
Theorem capability_matrix_correct `{BuildCfg} (config : GatewayConfig) (resolver : RouteResolver)
    (models : list PublishedModel) (revision generated_at : Z) (matrix : CapabilityMatrixResponse)
    (Hok : from_runtime_snapshot config resolver models revision generated_at = Ok matrix) :
  Forall (fun row => map ec_protocol_in (cm_protocols row) = Protocol_ALL
                     /\ Forall (cell_correct resolver row) (cm_protocols row)) (mx_data matrix)
  /\ forall model protocol r rank b,
       model ∈ models -> resolve_detailed resolver protocol (pm_id model) = Ok r ->
       lines r !! rank = Some b ->
       exists row cell, row ∈ mx_data matrix /\ cm_model row = pm_id model /\ row_of_line row r b
         /\ cell ∈ cm_protocols row /\ ec_protocol_in cell = protocol /\ line_cell r rank b cell.
Proof.
  unfold from_runtime_snapshot in Hok. destruct (is_runtime_snapshot resolver) eqn:Hrt; cbn [negb] in Hok; [|done].
  destruct (matrix_loop _ _ _ _) as [st|] eqn:El; cbn [rbind] in Hok; [|done]. injection Hok as <-. cbn [mx_data].
  apply (matrix_loop_ok config resolver (fun p m r => runtime_resolved resolver p m r Hrt) _ [] _ _
           (loop_ok_nil resolver)) in El as Hst. cbn [app] in Hst.
  assert (Hwf : bt_wf st.1) by apply Hst. split.
  - apply Forall_forall. intros row Hrow. apply list_elem_of_fmap in Hrow as (row0 & -> & Hrow0).
    apply list_elem_of_fmap in Hrow0 as ([key row1] & -> & Hin). apply bt_get_in in Hin; [|done].
    split; [by eapply finish_in_order|]. eapply finish_correct; [exact Hst| |done|exact Hin|].
    + intros model p Hm q. by rewrite matrix_pairs_all in *.
    + destruct (ro_cell _ (lo_rows _ _ _ Hst) _ _ Hin) as (p & c & Hc). exists p, c.
      unfold cell_at. by rewrite Hin.
  - intros model protocol r rank b Hm Hr Hb. pose proof (proj2 (matrix_pairs_all models model protocol) Hm) as Hp.
    destruct (lo_lines _ _ _ Hst _ _ _ _ _ Hp Hr Hb) as [c Hc].
    assert (cell_at st.1 (matrix_key model (rs_route_id r) b) protocol = Some c) as Hat.
    { apply (lo_cells _ _ _ Hst). exists model. split; [done|]. by exists r, rank, b. }
    unfold cell_at in Hat. destruct (bt_get st.1 _) as [row|] eqn:Erow; [|done]. cbn [mbind option_bind] in Hat.
    pose proof (ro_headed _ (lo_rows _ _ _ Hst) _ _ Erow) as Hhead. injection Hhead as H1 H2 H3 H4 H5.
    exists (finish row st.2), c. split_and!; [|by cbn|by split| | |done].
    + apply (list_elem_of_fmap_2 (fun row => finish row st.2)). apply bt_get_in in Erow; [|done]. by apply (list_elem_of_fmap_2 snd _ (matrix_key model (rs_route_id r) b, row)).
    + cbn [finish cm_protocols]. apply list_elem_of_fmap. exists protocol. rewrite Hat.
      split; [done|apply Protocol_ALL_complete].
    + apply line_cell_protocol in Hc. rewrite Hc. by apply (runtime_resolved resolver) in Hr as [-> _].
Qed.

(** Every snapshot the control plane publishes has a capability matrix: when
    the rows of the query are distinct lines (the unique index of the binding
    table), building it cannot fail. *)
Theorem published_snapshot_has_matrix `{BuildCfg} (de_error : Value -> string) (rows : list SnapshotRow)
    (listen_addr : string) (revision generated_at : Z) (s : RuntimeSnapshot)
    (Hbuild : build_snapshot de_error rows listen_addr revision generated_at = Ok s)
    (Hdistinct : NoDup (map row_key rows)) :
  exists matrix, from_runtime_snapshot (ss_config s) (ss_resolver s) (ss_models s) (ss_revision s)
                   (ss_generated_at s) = Ok matrix.
Proof.
  pose proof Hbuild as (b & Hb & _ & Hres & _ & _ & Hm)%build_snapshot_inv.
  assert (Hrt : is_runtime_snapshot (ss_resolver s) = true) by (by rewrite Hres).
  unfold from_runtime_snapshot. rewrite Hrt. cbn [negb].
  destruct (matrix_loop_total (ss_config s) (ss_resolver s) (fun p m r => runtime_resolved _ p m r Hrt))
    with (pairs := matrix_pairs (ss_models s)) (done_pairs := @nil (PublishedModel * Protocol))
         (st := (@nil (MatrixKey * RouteMatrixBuilder),
                 @nil ((string * Protocol) * option RouteResolutionError)))
    as [st ->]; [| |apply loop_ok_nil| |cbn; eauto].
  - intros p m r Hr. destruct (published_lines _ _ _ _ _ _ _ _ _ Hbuild Hdistinct Hr)
      as (id & bs & Hid & Hl & _ & Hmode). unfold lines. rewrite Hid. cbn [app]. rewrite Hl.
    by apply Forall_map.
  - intros p m r Hr. destruct (published_lines _ _ _ _ _ _ _ _ _ Hbuild Hdistinct Hr)
      as (id & bs & Hid & Hl & Hnd & _). unfold lines. rewrite Hid. cbn [app]. rewrite Hl.
    by rewrite map_map.
  - cbn [app]. apply matrix_pairs_NoDup.
    rewrite (Permutation_map pm_id Hm). apply Hb.
Qed.

(** ** Examples *)

Definition example_matrix (s : RuntimeSnapshot) : result CapabilityMatrixResponse CapabilityMatrixBuildError :=
  from_runtime_snapshot (H := false) (ss_config s) (ss_resolver s) (ss_models s) 7 0.

(** The account [a] serves chat only; [b] is the fallback for chat and the
    primary line for messages. *)
Example example_matrix_cells :
  (s ← rok example_build; m ← rok (example_matrix s);
   Some (map (fun row => (af_account_id (cm_account row),
                          map (fun c => (ec_status c, ec_selection_rank c, re_code <$> ec_error c))
                            (cm_protocols row))) (mx_data m)))
  = Some [("a", [(Routable, Some 0%nat, None); (Unroutable, None, Some "route_not_found");
                 (Unroutable, None, Some "runtime_binding_not_available")]);
          ("b", [(Routable, Some 1%nat, None); (Unroutable, None, Some "route_not_found");
                 (Routable, Some 0%nat, None)])].
Proof. vm_compute. reflexivity. Qed.

Lemma published_snapshot_has_matrix_witness :
  exists s matrix, example_build = Ok s
    /\ from_runtime_snapshot (H := false) (ss_config s) (ss_resolver s) (ss_models s) (ss_revision s)
         (ss_generated_at s) = Ok matrix.
Proof.
  destruct example_build as [s|] eqn:E; [|vm_compute in E; discriminate E]. exists s.
  destruct (@published_snapshot_has_matrix false (fun _ => "") example_rows "127.0.0.1:1" 7 0 s E)
    as [matrix Hm]; [apply (bool_decide_unpack _); vm_compute; exact I|].
  exists matrix. split; [reflexivity|exact Hm].
Defined.

Lemma capability_matrix_correct_witness :
  exists s matrix, example_build = Ok s /\ example_matrix s = Ok matrix
    /\ Forall (fun row => map ec_protocol_in (cm_protocols row) = Protocol_ALL) (mx_data matrix).
Proof.
  destruct example_build as [s|] eqn:E; [|vm_compute in E; discriminate E].
  destruct (example_matrix s) as [matrix|e] eqn:Em.
  - exists s, matrix. split_and!; [reflexivity|exact Em|].
    eapply Forall_impl; [exact (proj1 (@capability_matrix_correct false _ _ _ _ _ matrix Em))|].
    intros row [Hp _]. exact Hp.
  - exfalso. vm_compute in E. injection E as <-. vm_compute in Em. discriminate Em.
Defined.
