(* ===== verification/Usage.v ===== *)
(** * Token usage: [src/src/proxy/usage.rs]

    Extraction of token counters and of the upstream-reported identity from
    JSON payloads, the cumulative merge of the usage objects of an SSE stream
    and the bounded estimate of [<think>] blocks.  The tokenizer
    ([tiktoken_rs], not part of the repository) is the parameter [Tokenizer];
    the counters are [i64] and add with the wrap-around of the release
    build. *)

From Stdlib Require Import ZArith Lia Ascii.
From stdpp Require Import base list strings.
From S2P Require Import Prelude.
From S2P Require Import RustStr.
From S2P Require Import Json.

Class Tokenizer : Type := {
  (** [TOKENIZER.encode_with_special_tokens(text).len() as i64]. *)
  encode_len : string -> Z;
  encode_len_range : forall s, 0 <= encode_len s <= I64_MAX;
}.

Definition add_i64 (a b : Z) : Z := wrap_i 64 (a + b).

Record UsageReport : Type := mkUsageReport {
  ur_input_tokens : Z;
  ur_output_tokens : Z;
  ur_reasoning_tokens : Z;
  ur_cached_tokens : Z;
  ur_cache_read_tokens : Z;
  ur_cache_creation_tokens : Z;
  ur_total_tokens : Z;
  ur_source : string;
}.

Definition UsageReport_default : UsageReport := mkUsageReport 0 0 0 0 0 0 0 "".
Definition UsageReport_missing : UsageReport := mkUsageReport 0 0 0 0 0 0 0 "missing".

Definition is_present (self : UsageReport) : bool :=
  (0 <? ur_input_tokens self) || (0 <? ur_output_tokens self) || (0 <? ur_reasoning_tokens self)
  || (0 <? ur_cached_tokens self) || (0 <? ur_cache_read_tokens self)
  || (0 <? ur_cache_creation_tokens self) || (0 <? ur_total_tokens self).

Definition MAX_ESTIMATE_BYTES : Z := 256 * 1024.

(** ** JSON extraction *)

(** The [i64] a field holds, when it holds one. *)
Definition i64_field (value : Value) (key : string) : option Z := get value key ≫= as_i64.

Definition i64_at (value : Value) (key : string) : Z := unwrap_or (i64_field value key) 0.

Definition usage_value (value : Value) : option Value :=
  opt_or (get value "usage")
    (opt_or (get value "response" ≫= fun v => get v "usage")
       (opt_or (get value "message" ≫= fun v => get v "usage")
          (get value "delta" ≫= fun v => get v "usage"))).

Definition report_from_usage (usage : Value) : UsageReport :=
  let input := if is_some (get usage "input_tokens") then i64_at usage "input_tokens"
               else i64_at usage "prompt_tokens" in
  let output := if is_some (get usage "output_tokens") then i64_at usage "output_tokens"
                else i64_at usage "completion_tokens" in
  let reasoning :=
    unwrap_or
      (opt_or ((fun v => i64_at v "reasoning_tokens") <$> get usage "output_tokens_details")
         ((fun v => i64_at v "reasoning_tokens") <$> get usage "completion_tokens_details"))
      (i64_at usage "reasoning_tokens") in
  let '(cache_read, cache_creation) :=
    match opt_or (get usage "input_tokens_details") (get usage "prompt_tokens_details") with
    | Some details => (i64_at details "cached_tokens", 0)
    | None =>
        (add_i64 (i64_at usage "cache_read_input_tokens") (i64_at usage "cached_tokens"),
         i64_at usage "cache_creation_input_tokens")
    end in
  let cached := add_i64 cache_read cache_creation in
  let total := unwrap_or (i64_field usage "total_tokens") (add_i64 input output) in
  mkUsageReport input output reasoning cached cache_read cache_creation total "upstream".

Definition extract_json (value : Value) : option UsageReport :=
  match usage_value value with
  | Some usage =>
      let report := report_from_usage usage in
      if is_present report then Some report else None
  | None => None
  end.

(** ** Upstream-reported identity *)

Record ResponseIdentity : Type := mkResponseIdentity {
  ri_model : option string;
  ri_reasoning_effort : option string;
}.
Definition ResponseIdentity_default : ResponseIdentity := mkResponseIdentity None None.

Definition non_empty_string (value : option Value) : option string :=
  opt_filter (fun text => negb (is_empty text)) (trim <$> (value ≫= as_str)).

Definition response_identity_from_json (value : Value) : ResponseIdentity :=
  let model :=
    opt_or (non_empty_string (get value "model"))
      (opt_or (non_empty_string (get value "response" ≫= fun v => get v "model"))
         (non_empty_string (get value "message" ≫= fun v => get v "model"))) in
  let reasoning_effort :=
    opt_or (non_empty_string (get value "reasoning_effort"))
      (opt_or (non_empty_string (get value "reasoning" ≫= fun v => get v "effort"))
         (non_empty_string
            (get value "response" ≫= fun v => get v "reasoning" ≫= fun v => get v "effort"))) in
  mkResponseIdentity model reasoning_effort.

Definition ResponseIdentity_observe (self : ResponseIdentity) (value : Value) : ResponseIdentity :=
  let identity := response_identity_from_json value in
  mkResponseIdentity
    (if is_some (ri_model self) then ri_model self else ri_model identity)
    (if is_some (ri_reasoning_effort self) then ri_reasoning_effort self
     else ri_reasoning_effort identity).

Section Request.
Context `{SerdeJson}.

Definition requested_reasoning_effort (request_body : string) : option string :=
  match from_slice request_body with
  | Some value =>
      opt_or (non_empty_string (get value "reasoning_effort"))
        (opt_or (non_empty_string (get value "reasoning" ≫= fun v => get v "effort"))
           (non_empty_string (get value "effort")))
  | None => None
  end.

Context `{Tokenizer}.

Definition estimate (input output : string) : UsageReport :=
  let input_tokens := encode_len (from_utf8_lossy input) in
  let output_tokens := encode_len (from_utf8_lossy output) in
  mkUsageReport input_tokens output_tokens 0 0 0 0 (add_i64 input_tokens output_tokens)
    "estimated".

Definition observe_json_response (success : bool) (request response : string)
    : UsageReport * ResponseIdentity :=
  let parsed := from_slice response in
  let report :=
    match parsed ≫= extract_json with
    | Some report => report
    | None => if success then estimate request response else UsageReport_missing
    end in
  let identity := unwrap_or (response_identity_from_json <$> parsed) ResponseIdentity_default in
  (report, identity).
End Request.

(** ** The cumulative usage of an SSE stream *)

Definition COUNTER_KEYS : list string :=
  ["input_tokens"; "prompt_tokens"; "output_tokens"; "completion_tokens"; "total_tokens";
   "reasoning_tokens"; "cached_tokens"; "cache_read_input_tokens"; "cache_creation_input_tokens"].
Definition DETAIL_KEYS : list (string * string) :=
  [("input_tokens_details", "cached_tokens"); ("prompt_tokens_details", "cached_tokens");
   ("output_tokens_details", "reasoning_tokens");
   ("completion_tokens_details", "reasoning_tokens")].

(** A new input or output counter without a total. *)
Definition total_is_stale (usage : Value) : bool :=
  negb (is_some (i64_field usage "total_tokens"))
  && existsb (fun key => is_some (i64_field usage key))
       ["input_tokens"; "prompt_tokens"; "output_tokens"; "completion_tokens"].

Definition detail_field (usage : Value) (dk : string * string) : option Z :=
  get usage dk.1 ≫= fun v => i64_field v dk.2.

Definition merge_sse_usage (current : Map) (usage : Value) : Map :=
  let current := if total_is_stale usage then hm_remove current "total_tokens" else current in
  let current :=
    fold_left (fun m key =>
                 match i64_field usage key with
                 | Some value => hm_insert m key (of_i64 value)
                 | None => m
                 end) COUNTER_KEYS current in
  fold_left (fun m dk =>
               match detail_field usage dk with
               | Some value => hm_insert m dk.1 (VObject [(dk.2, of_i64 value)])
               | None => m
               end) DETAIL_KEYS current.

Record SseUsageAccumulator : Type := mkSseUsageAccumulator {
  su_counters : Map;
  su_data_event_count : Z;
  su_json_parse_failures : Z;
  su_json_without_usage : Z;
}.
Definition SseUsageAccumulator_default : SseUsageAccumulator := mkSseUsageAccumulator [] 0 0 0.

Definition sat_add_u64 (a b : Z) : Z := sat_add U64_MAX a b.

Definition SseUsageAccumulator_observe (self : SseUsageAccumulator) (data : string)
    (parsed : option Value) : SseUsageAccumulator :=
  if is_empty data || (data =?s "[DONE]") then self else
  let count := sat_add_u64 (su_data_event_count self) 1 in
  match parsed with
  | Some value =>
      match usage_value value with
      | Some usage =>
          mkSseUsageAccumulator (merge_sse_usage (su_counters self) usage) count
            (su_json_parse_failures self) (su_json_without_usage self)
      | None =>
          mkSseUsageAccumulator (su_counters self) count (su_json_parse_failures self)
            (sat_add_u64 (su_json_without_usage self) 1)
      end
  | None =>
      mkSseUsageAccumulator (su_counters self) count
        (sat_add_u64 (su_json_parse_failures self) 1) (su_json_without_usage self)
  end.

Definition set_source (r : UsageReport) (source : string) : UsageReport :=
  mkUsageReport (ur_input_tokens r) (ur_output_tokens r) (ur_reasoning_tokens r)
    (ur_cached_tokens r) (ur_cache_read_tokens r) (ur_cache_creation_tokens r)
    (ur_total_tokens r) source.

Definition SseUsageAccumulator_report (self : SseUsageAccumulator) : option UsageReport :=
  match su_counters self with
  | [] => None
  | _ => Some (set_source (report_from_usage (VObject (su_counters self))) "parsed")
  end.

(** ** The bounded estimate of reasoning blocks *)

Definition THINK_OPEN : string := "<think>".
Definition THINK_CLOSE : string := "</think>".

Record ThinkingEstimate : Type := mkThinkingEstimate {
  te_pending : string;
  te_inside : bool;
  te_unavailable : bool;
  te_tokens : Z;
  te_processed_bytes : Z;
}.
Definition ThinkingEstimate_default : ThinkingEstimate := mkThinkingEstimate "" false false 0 0.

Section Thinking.
Context `{Tokenizer}.

(** The body of the loop of [feed] for one byte; [te_unavailable] set here
    is its early [return]. *)
Definition think_byte (s : ThinkingEstimate) (byte : ascii) : ThinkingEstimate :=
  let pending := te_pending s +:+ bstr byte in
  if te_inside s then
    let processed := te_processed_bytes s + 1 in
    if MAX_ESTIMATE_BYTES <? processed then
      mkThinkingEstimate "" true true (te_tokens s) processed
    else match strip_suffix THINK_CLOSE pending with
    | Some block =>
        mkThinkingEstimate "" false false
          (sat_add I64_MAX (te_tokens s) (encode_len (from_utf8_lossy block))) processed
    | None =>
        if MAX_ESTIMATE_BYTES <=? slen pending then
          mkThinkingEstimate "" true true (te_tokens s) processed
        else mkThinkingEstimate pending true false (te_tokens s) processed
    end
  else if ends_with pending THINK_OPEN then
    mkThinkingEstimate "" true false (te_tokens s) (te_processed_bytes s)
  else if slen THINK_OPEN <=? slen pending then
    mkThinkingEstimate (remove_first pending) false false (te_tokens s) (te_processed_bytes s)
  else mkThinkingEstimate pending false false (te_tokens s) (te_processed_bytes s).

Fixpoint think_feed (s : ThinkingEstimate) (bytes : string) : ThinkingEstimate :=
  if te_unavailable s then s else
  match bytes with
  | EmptyString => s
  | String b rest => think_feed (think_byte s b) rest
  end.

Definition think_result (s : ThinkingEstimate) : option Z :=
  then_some (negb (te_unavailable s) && negb (te_inside s)) (te_tokens s).
End Thinking.

(** ** The cumulative merge is last-report-wins *)

(** The value the last payload that reports it gives. *)
Definition last_reported (f : Value -> option Z) (us : list Value) : option Z :=
  fold_left (fun acc u => opt_or (f u) acc) us None.

(** The last explicit total, unless a later payload changed an input or
    output counter without giving a total. *)
Definition last_total (us : list Value) : option Z :=
  fold_left (fun acc u =>
               opt_or (i64_field u "total_tokens") (if total_is_stale u then None else acc))
    us None.

(** The report of a stream whose usage payloads are [us], field by field. *)
Definition expected_report (us : list Value) : UsageReport :=
  let c key := last_reported (fun u => i64_field u key) us in
  let d details key := last_reported (fun u => detail_field u (details, key)) us in
  let input := unwrap_or (opt_or (c "input_tokens") (c "prompt_tokens")) 0 in
  let output := unwrap_or (opt_or (c "output_tokens") (c "completion_tokens")) 0 in
  let reasoning :=
    unwrap_or (opt_or (d "output_tokens_details" "reasoning_tokens")
                 (opt_or (d "completion_tokens_details" "reasoning_tokens")
                    (c "reasoning_tokens"))) 0 in
  let '(cache_read, cache_creation) :=
    match opt_or (d "input_tokens_details" "cached_tokens")
            (d "prompt_tokens_details" "cached_tokens") with
    | Some n => (n, 0)
    | None =>
        (add_i64 (unwrap_or (c "cache_read_input_tokens") 0) (unwrap_or (c "cached_tokens") 0),
         unwrap_or (c "cache_creation_input_tokens") 0)
    end in
  mkUsageReport input output reasoning (add_i64 cache_read cache_creation) cache_read
    cache_creation (unwrap_or (last_total us) (add_i64 input output)) "upstream".

Lemma hm_get_remove {K V} `{EqDecision K} (m : list (K * V)) k k' :
  hm_get (hm_remove m k) k' = if bool_decide (k = k') then None else hm_get m k'.
Proof.
  unfold hm_remove. induction m as [|[k1 v1] m IH]; cbn; [by case_bool_decide|].
  destruct (decide (k1 = k)) as [->|Hk].
  - rewrite (bool_decide_true (k = k)) by done. cbn. rewrite IH, hm_get_cons. by case_bool_decide.
  - rewrite (bool_decide_false (k1 = k)) by done. cbn. rewrite !hm_get_cons, IH.
    repeat case_bool_decide; congruence.
Qed.

(** A loop that inserts the reported entries of a list of distinct keys. *)
Section InsertLoop.
Context {A : Type} (key : A -> string) (val : A -> option Value).

Definition insert_loop (l : list A) (m : Map) : Map :=
  fold_left (fun m x => match val x with Some v => hm_insert m (key x) v | None => m end) l m.

Lemma insert_loop_other l m k : k ∉ map key l -> hm_get (insert_loop l m) k = hm_get m k.
Proof.
  unfold insert_loop. revert m. induction l as [|x l IH]; intros m Hk; cbn; [done|].
  cbn in Hk. apply not_elem_of_cons in Hk as [Hx Hk]. rewrite IH by done.
  destruct (val x); [|done]. rewrite hm_get_insert. by rewrite bool_decide_false.
Qed.

Lemma insert_loop_get l m x :
  NoDup (map key l) -> x ∈ l ->
  hm_get (insert_loop l m) (key x) = opt_or (val x) (hm_get m (key x)).
Proof.
  revert m. induction l as [|y l IH]; intros m Hnd Hx; [by apply not_elem_of_nil in Hx|].
  cbn in Hnd. apply NoDup_cons in Hnd as [Hy Hnd]. apply elem_of_cons in Hx as [->|Hx].
  - change (insert_loop (y :: l) m)
      with (insert_loop l (match val y with Some v => hm_insert m (key y) v | None => m end)).
    rewrite insert_loop_other by done. destruct (val y); cbn; [|done].
    rewrite hm_get_insert. by rewrite bool_decide_true.
  - change (insert_loop (y :: l) m)
      with (insert_loop l (match val y with Some v => hm_insert m (key y) v | None => m end)).
    rewrite IH by done. destruct (val y); [|done]. rewrite hm_get_insert.
    rewrite bool_decide_false; [done|]. intros Heq. apply Hy. rewrite Heq.
    by apply list_elem_of_fmap_2.
Qed.
End InsertLoop.

Definition counter_value (u : Value) (key : string) : option Value := of_i64 <$> i64_field u key.
Definition detail_value (u : Value) (dk : string * string) : option Value :=
  (fun n => VObject [(dk.2, of_i64 n)]) <$> detail_field u dk.

Lemma merge_sse_usage_loops m u :
  merge_sse_usage m u =
  insert_loop fst (detail_value u) DETAIL_KEYS
    (insert_loop (fun k => k) (counter_value u) COUNTER_KEYS
       (if total_is_stale u then hm_remove m "total_tokens" else m)).
Proof.
  unfold merge_sse_usage, insert_loop.
  rewrite (fold_left_ext _ (fun m0 key => match counter_value u key with
     | Some v => hm_insert m0 key v | None => m0 end)); [apply fold_left_ext|]; intros m0 x;
    [unfold detail_value; by destruct (detail_field u x)
    |unfold counter_value; by destruct (i64_field u x)].
Qed.

Lemma counter_keys_nodup : NoDup (map (fun k : string => k) COUNTER_KEYS).
Proof. apply (bool_decide_unpack _). vm_compute. exact I. Qed.
Lemma detail_keys_nodup : NoDup (map (@fst string string) DETAIL_KEYS).
Proof. apply (bool_decide_unpack _). vm_compute. exact I. Qed.

Lemma counter_not_detail k : k ∈ COUNTER_KEYS -> k ∉ map (@fst string string) DETAIL_KEYS.
Proof.
  revert k. apply Forall_forall. apply (bool_decide_unpack _). vm_compute. exact I.
Qed.

Lemma detail_not_counter dk : dk ∈ DETAIL_KEYS -> dk.1 ∉ COUNTER_KEYS.
Proof.
  intros Hdk Hc. apply (counter_not_detail _ Hc). by apply list_elem_of_fmap_2.
Qed.

Lemma merge_counter m u k :
  k ∈ COUNTER_KEYS -> k <> "total_tokens" ->
  hm_get (merge_sse_usage m u) k = opt_or (counter_value u k) (hm_get m k).
Proof.
  intros Hk Htot. rewrite merge_sse_usage_loops, insert_loop_other.
  - rewrite (insert_loop_get (fun k => k) _ _ _ k counter_keys_nodup Hk).
    destruct (total_is_stale u); [|done]. rewrite hm_get_remove. by rewrite bool_decide_false.
  - by apply counter_not_detail.
Qed.

Lemma merge_total m u :
  hm_get (merge_sse_usage m u) "total_tokens" =
  opt_or (counter_value u "total_tokens")
    (if total_is_stale u then None else hm_get m "total_tokens").
Proof.
  rewrite merge_sse_usage_loops, insert_loop_other.
  - rewrite (insert_loop_get (fun k => k) _ _ _ "total_tokens" counter_keys_nodup).
    + destruct (total_is_stale u); [|done]. by rewrite hm_get_remove, bool_decide_true.
    + apply (bool_decide_unpack _). vm_compute. exact I.
  - apply (bool_decide_unpack _). vm_compute. exact I.
Qed.

Lemma merge_detail m u dk :
  dk ∈ DETAIL_KEYS ->
  hm_get (merge_sse_usage m u) dk.1 = opt_or (detail_value u dk) (hm_get m dk.1).
Proof.
  intros Hk. rewrite merge_sse_usage_loops.
  rewrite (insert_loop_get fst _ _ _ dk detail_keys_nodup Hk). f_equal.
  pose proof (detail_not_counter dk Hk) as Hc.
  rewrite insert_loop_other by (by rewrite map_id).
  destruct (total_is_stale u); [|done]. rewrite hm_get_remove.
  rewrite bool_decide_false; [done|]. intros Ht. apply Hc. rewrite <- Ht.
  apply (bool_decide_unpack _). vm_compute. exact I.
Qed.

(** The counters after the payloads [us]. *)
Definition merged (us : list Value) : Map := fold_left merge_sse_usage us [].

Section Merged.
Context (us : list Value).

(** A lookup that every merge step updates with [f] ends with the last
    value [f] gave. *)
Lemma merged_last (g : Map -> option Value) (f : Value -> option Z) (w : Z -> Value) :
  g [] = None ->
  (forall m u, g (merge_sse_usage m u) = opt_or (w <$> f u) (g m)) ->
  g (merged us) = w <$> last_reported f us.
Proof.
  intros Hnil Hstep. unfold merged, last_reported.
  induction us as [|u l IH] using rev_ind; [done|].
  rewrite !fold_left_app. cbn [fold_left]. rewrite Hstep, IH. by destruct (f u).
Qed.

Lemma merged_total :
  hm_get (merged us) "total_tokens" = of_i64 <$> last_total us.
Proof.
  unfold merged, last_total. induction us as [|u l IH] using rev_ind; [done|].
  rewrite !fold_left_app. cbn [fold_left]. rewrite merge_total, IH. unfold counter_value.
  destruct (i64_field u _), (total_is_stale u); done.
Qed.

Lemma merged_counter k :
  k ∈ COUNTER_KEYS -> k <> "total_tokens" ->
  hm_get (merged us) k = of_i64 <$> last_reported (fun u => i64_field u k) us.
Proof.
  intros Hk Ht. apply (merged_last (fun m => hm_get m k)); [done|]. intros m u.
  by apply merge_counter.
Qed.

Lemma merged_detail dk :
  dk ∈ DETAIL_KEYS ->
  hm_get (merged us) dk.1 =
  (fun n => VObject [(dk.2, of_i64 n)]) <$> last_reported (fun u => detail_field u dk) us.
Proof.
  intros Hk. apply (merged_last (fun m => hm_get m dk.1)); [done|]. intros m u.
  by apply merge_detail.
Qed.

(** Reported counters are [i64] values. *)
Lemma last_reported_le (f : Value -> option Z) n :
  (forall u k, f u = Some k -> k <= I64_MAX) -> last_reported f us = Some n -> n <= I64_MAX.
Proof.
  intros Hf. unfold last_reported. induction us as [|u l IH] using rev_ind; [done|].
  rewrite fold_left_app. cbn [fold_left]. destruct (f u) eqn:Hu; cbn; [|done]. intros [= <-]. eauto.
Qed.

Lemma i64_field_le u k n : i64_field u k = Some n -> n <= I64_MAX.
Proof. unfold i64_field. destruct (get u k); cbn; [apply as_i64_le|done]. Qed.

Lemma detail_field_le u dk n : detail_field u dk = Some n -> n <= I64_MAX.
Proof. unfold detail_field. destruct (get u _); cbn; [apply i64_field_le|done]. Qed.

Lemma last_total_le n : last_total us = Some n -> n <= I64_MAX.
Proof.
  unfold last_total. induction us as [|u l IH] using rev_ind; [done|].
  rewrite fold_left_app. cbn [fold_left]. destruct (i64_field u _) eqn:Hu; cbn.
  - intros [= <-]. by eapply i64_field_le.
  - by destruct (total_is_stale u).
Qed.

(** Reading a merged counter back gives the last reported value. *)
Lemma field_of_i64 (o : option Z) v k :
  hm_get v k = of_i64 <$> o -> (forall n, o = Some n -> n <= I64_MAX) ->
  i64_field (VObject v) k = o.
Proof.
  intros Hv Ho. unfold i64_field. cbn [get]. rewrite Hv. destruct o as [n|]; cbn; [|done].
  apply as_i64_of_i64. auto.
Qed.
End Merged.

Lemma i64_at_details (n : Z) k : n <= I64_MAX -> i64_at (VObject [(k, of_i64 n)]) k = n.
Proof.
  intros Hn. unfold i64_at, i64_field. cbn [get]. rewrite hm_get_cons, bool_decide_true by done.
  cbn [mbind option_bind]. by rewrite as_i64_of_i64.
Qed.

(** Membership in the constant key lists. *)
Ltac key_list := first [done | apply (bool_decide_unpack _); vm_compute; exact I].

Section MergedRead.
Context (us : list Value).

Lemma merged_i64_field k :
  k ∈ COUNTER_KEYS -> k <> "total_tokens" ->
  i64_field (VObject (merged us)) k = last_reported (fun u => i64_field u k) us.
Proof.
  intros Hk Ht. apply field_of_i64; [by apply merged_counter|]. intros n.
  apply last_reported_le. intros. by eapply i64_field_le.
Qed.

Lemma merged_i64_at k :
  k ∈ COUNTER_KEYS -> k <> "total_tokens" ->
  i64_at (VObject (merged us)) k = unwrap_or (last_reported (fun u => i64_field u k) us) 0.
Proof. intros Hk Ht. unfold i64_at. by rewrite merged_i64_field. Qed.

Lemma merged_is_some k :
  k ∈ COUNTER_KEYS -> k <> "total_tokens" ->
  is_some (get (VObject (merged us)) k) = is_some (last_reported (fun u => i64_field u k) us).
Proof.
  intros Hk Ht. cbn [get]. rewrite merged_counter by done. by destruct (last_reported _ us).
Qed.

Lemma merged_detail_at d k :
  (d, k) ∈ DETAIL_KEYS ->
  (fun v => i64_at v k) <$> get (VObject (merged us)) d =
  last_reported (fun u => detail_field u (d, k)) us.
Proof.
  intros Hk. pose proof (merged_detail us (d, k) Hk) as Hg. cbn [fst snd] in Hg. cbn [get].
  rewrite Hg. destruct (last_reported _ us) eqn:E; [|done].
  cbn [fmap option_fmap option_map]. f_equal. apply i64_at_details. revert E.
  apply last_reported_le. intros. by eapply detail_field_le.
Qed.
End MergedRead.

Lemma unwrap_if_some (o p : option Z) :
  (if is_some o then unwrap_or o 0 else unwrap_or p 0) = unwrap_or (opt_or o p) 0.
Proof. by destruct o. Qed.

Lemma unwrap_opt_or (a b c : option Z) :
  unwrap_or (opt_or a b) (unwrap_or c 0) = unwrap_or (opt_or a (opt_or b c)) 0.
Proof. by destruct a, b. Qed.

Lemma report_from_merged (us : list Value) :
  report_from_usage (VObject (merged us)) = expected_report us.
Proof.
  pose proof (field_of_i64 (last_total us) _ _ (merged_total us) (last_total_le us)) as Htot.
  pose proof (merged_detail_at us "input_tokens_details" "cached_tokens" ltac:(key_list)) as Hi.
  pose proof (merged_detail_at us "prompt_tokens_details" "cached_tokens" ltac:(key_list)) as Hp.
  unfold report_from_usage, expected_report. rewrite Htot.
  rewrite !merged_detail_at by key_list. rewrite <- Hi, <- Hp. clear Hi Hp.
  rewrite !merged_is_some by key_list. rewrite !merged_i64_at by key_list.
  rewrite !unwrap_if_some, unwrap_opt_or.
  destruct (get _ "input_tokens_details"), (get _ "prompt_tokens_details"); done.
Qed.

(** A payload that reports no counter at all. *)
Definition no_counters (u : Value) : Prop :=
  Forall (fun k => i64_field u k = None) COUNTER_KEYS
  /\ Forall (fun dk => detail_field u dk = None) DETAIL_KEYS.

Lemma hm_insert_not_nil {K V} `{EqDecision K} (m : list (K * V)) k v : hm_insert m k v <> [].
Proof. destruct m as [|kv m]; cbn; [done|]. by case_bool_decide. Qed.

Lemma insert_loop_nil {A} (key : A -> string) val l m :
  insert_loop key val l m = [] <-> m = [] /\ Forall (fun x => val x = None) l.
Proof.
  revert m. induction l as [|x l IH]; intros m; [by intuition; constructor|].
  change (insert_loop key val (x :: l) m)
    with (insert_loop key val l (match val x with Some v => hm_insert m (key x) v | None => m end)).
  rewrite IH, Forall_cons. destruct (val x) eqn:Hx; [|tauto].
  split; [by intros [?%hm_insert_not_nil _]|by intros [_ [? _]]].
Qed.

Lemma no_counters_total u : no_counters u -> total_is_stale u = false.
Proof.
  intros [Hc _]. unfold total_is_stale. rewrite Forall_forall in Hc. cbn [existsb].
  rewrite !Hc by key_list. done.
Qed.

Lemma merge_nil m u : merge_sse_usage m u = [] <-> m = [] /\ no_counters u.
Proof.
  rewrite merge_sse_usage_loops, !insert_loop_nil. unfold no_counters.
  assert (forall k, counter_value u k = None <-> i64_field u k = None) as Hcv.
  { intros k. unfold counter_value. by destruct (i64_field u k). }
  assert (forall dk, detail_value u dk = None <-> detail_field u dk = None) as Hdv.
  { intros dk. unfold detail_value. by destruct (detail_field u dk). }
  rewrite (Forall_iff _ _ _ Hcv), (Forall_iff _ _ _ Hdv).
  split; [|intros (-> & Hc & Hd)].
  - intros ((Hm & Hc) & Hd). rewrite (no_counters_total u (conj Hc Hd)) in Hm. done.
  - rewrite (no_counters_total u (conj Hc Hd)). done.
Qed.

Lemma merged_nil us : merged us = [] <-> Forall no_counters us.
Proof.
  unfold merged. induction us as [|u us IH] using rev_ind; [done|].
  rewrite fold_left_app. cbn [fold_left]. rewrite merge_nil, IH, Forall_app, Forall_singleton. done.
Qed.

(** The usage payloads of the data events of a stream. *)
Definition event_usage (event : string * option Value) : option Value :=
  if is_empty event.1 || (event.1 =?s "[DONE]") then None else event.2 ≫= usage_value.
Definition stream_usages (events : list (string * option Value)) : list Value :=
  omap event_usage events.
Definition accumulate (events : list (string * option Value)) : SseUsageAccumulator :=
  fold_left (fun acc event => SseUsageAccumulator_observe acc event.1 event.2) events
    SseUsageAccumulator_default.

Lemma accumulate_counters events :
  su_counters (accumulate events) = merged (stream_usages events).
Proof.
  unfold accumulate, merged, stream_usages. induction events as [|e events IH] using rev_ind; [done|].
  rewrite fold_left_app, omap_app, fold_left_app, <- IH. cbn [fold_left omap list_omap].
  unfold SseUsageAccumulator_observe, event_usage.
  destruct (is_empty e.1 || (e.1 =?s "[DONE]")); [done|].
  destruct (e.2) as [v|]; cbn [mbind option_bind]; [|done]. by destruct (usage_value v).
Qed.

(** The usage recorded for an SSE stream: for every sequence of data
    events, the report is, field by field, the value of the last payload that
    reported the counter (a reported zero counts, an absent or null field does
    not); an explicit total is kept until a later payload changes an input or
    output counter without giving a total, and is then recomputed as their
    sum; and there is no report exactly when no payload reported a counter. *)
Theorem sse_usage_last_report_wins (events : list (string * option Value)) :
  let us := stream_usages events in
  (SseUsageAccumulator_report (accumulate events) = None /\ Forall no_counters us)
  \/ (SseUsageAccumulator_report (accumulate events)
        = Some (set_source (expected_report us) "parsed")
      /\ ~ Forall no_counters us).
Proof.
  intros us. unfold SseUsageAccumulator_report. rewrite accumulate_counters. fold us.
  rewrite <- merged_nil, <- report_from_merged. by destruct (merged us); [left|right].
Qed.
