(* ===== verification/Thinking.v ===== *)
(** * The incremental estimate of reasoning tokens

    [ThinkingEstimate] of [src/src/proxy/usage.rs] scans a stream byte by byte,
    whatever its chunking, keeping at most one bounded block.  This file shows
    that it computes what a scan of the whole text for [<think>...</think>]
    blocks computes. *)

From Stdlib Require Import ZArith Lia Ascii.
From stdpp Require Import base list strings.
From S2P Require Import Prelude.
From S2P Require Import RustStr.
From S2P Require Import Json.
From S2P Require Import Usage.

(** ** The reference: a scan of the whole text *)

(** The text before and after the first occurrence of [p]. *)
Fixpoint find_str (p s : string) : option (string * string) :=
  match strip_prefix p s with
  | Some rest => Some ("", rest)
  | None =>
      match s with
      | EmptyString => None
      | String a t =>
          match find_str p t with Some (pre, rest) => Some (String a pre, rest) | None => None end
      end
  end.

(** The closed blocks of a text, and whether a block is left open. *)
Fixpoint think_blocks (fuel : nat) (s : string) : list string * bool :=
  match fuel with
  | O => ([], false)
  | S fuel =>
      match find_str THINK_OPEN s with
      | None => ([], false)
      | Some (_, inner) =>
          match find_str THINK_CLOSE inner with
          | None => ([], true)
          | Some (block, rest) =>
              let '(blocks, open) := think_blocks fuel rest in (block :: blocks, open)
          end
      end
  end.

(** ** Strings: occurrences *)

Lemma string_snoc s : s <> "" -> exists t b, s = t +:+ bstr b.
Proof.
  induction s as [|a s IH]; [done|]. intros _. destruct s as [|a' s].
  - by exists "", a.
  - destruct IH as (t & b & Ht); [done|]. exists (String a t), b. by rewrite Ht.
Qed.

Lemma string_app_inj_r p s t : s +:+ p = t +:+ p -> s = t.
Proof.
  intros Heq. pose proof (strip_suffix_app s p) as Hs. rewrite Heq, strip_suffix_app in Hs.
  congruence.
Qed.

Lemma find_str_Some p s pre rest : find_str p s = Some (pre, rest) -> s = pre +:+ p +:+ rest.
Proof.
  revert pre. induction s as [|a s IH]; intros pre; cbn [find_str].
  - destruct (strip_prefix p "") as [r|] eqn:E; [|done]. intros [= <- <-].
    by apply strip_prefix_Some in E.
  - destruct (strip_prefix p (String a s)) as [r|] eqn:E.
    + intros [= <- <-]. by apply strip_prefix_Some in E.
    + destruct (find_str p s) as [[pre' r]|]; [|done]. intros [= <- <-].
      rewrite (IH pre'); done.
Qed.

Lemma find_str_occurs p pre rest : find_str p (pre +:+ p +:+ rest) <> None.
Proof.
  induction pre as [|a pre IH].
  - change ("" +:+ p +:+ rest) with (p +:+ rest).
    destruct (p +:+ rest) eqn:E; cbn [find_str]; rewrite <- E, strip_prefix_app; done.
  - change (String a pre +:+ p +:+ rest) with (String a (pre +:+ p +:+ rest)). cbn [find_str].
    destruct (strip_prefix _ _); [done|]. by destruct (find_str _ _) as [[]|].
Qed.

Lemma strip_prefix_app_l p s t r : strip_prefix p s = Some r -> strip_prefix p (s +:+ t) = Some (r +:+ t).
Proof. intros ->%strip_prefix_Some. apply strip_prefix_Some. apply string_app_assoc. Qed.

(** The first occurrence is not affected by later text. *)
Lemma find_str_app p s t pre rest :
  find_str p s = Some (pre, rest) -> find_str p (s +:+ t) = Some (pre, rest +:+ t).
Proof.
  revert pre. induction s as [|a s IH]; intros pre; cbn [find_str].
  - destruct (strip_prefix p "") as [r|] eqn:E; [|done]. intros [= <- <-].
    apply (strip_prefix_app_l _ _ t) in E.
    destruct ("" +:+ t) eqn:E'; cbn [find_str]; by rewrite E.
  - change (String a s +:+ t) with (String a (s +:+ t)). cbn [find_str].
    destruct (strip_prefix p (String a s)) as [r|] eqn:E.
    + intros [= <- <-]. apply (strip_prefix_app_l _ _ t) in E.
      change (String a s +:+ t) with (String a (s +:+ t)) in E. by rewrite E.
    + destruct (find_str p s) as [[pre' r]|] eqn:F; [|done]. intros [= <- <-].
      destruct (strip_prefix p (String a (s +:+ t))) as [r'|] eqn:E'.
      * (* an occurrence at the start would already be one in [String a s] *)
        exfalso. apply strip_prefix_Some in E'. apply find_str_Some in F. subst s.
        assert (strip_prefix p (String a (pre' +:+ p +:+ r)) <> None) as Hn; [|done].
        clear E IH. change (String a ((pre' +:+ p +:+ r) +:+ t))
          with (String a (pre' +:+ p +:+ r) +:+ t) in E'.
        assert (String.length p <= String.length (String a (pre' +:+ p +:+ r)))%nat as Hlen
          by (cbn; rewrite !string_app_length; lia).
        revert E' Hlen. generalize (String a (pre' +:+ p +:+ r)) as u. clear. intros u.
        revert u. induction p as [|c p IH]; intros u Heq Hlen; cbn; [done|].
        destruct u as [|d u]; cbn in Hlen; [lia|].
        change (String d u +:+ t) with (String d (u +:+ t)) in Heq.
        change (String c p +:+ r') with (String c (p +:+ r')) in Heq.
        injection Heq as -> Heq. rewrite Ascii.eqb_refl. apply IH; [done|lia].
      * by rewrite (IH pre').
Qed.

(** An occurrence that appears with the last byte ends with it. *)
Lemma find_str_snoc_None p s b :
  find_str p s = None ->
  find_str p (s +:+ bstr b) =
  match strip_suffix p (s +:+ bstr b) with Some pre => Some (pre, "") | None => None end.
Proof.
  intros Hs. destruct (find_str p (s +:+ bstr b)) as [[pre rest]|] eqn:F.
  - pose proof (find_str_Some _ _ _ _ F) as Heq. destruct (decide (rest = "")) as [->|Hr].
    + rewrite Heq, string_app_nil_r, strip_suffix_app. done.
    + destruct (string_snoc rest Hr) as (r' & b' & ->). exfalso.
      rewrite <- !string_app_assoc in Heq. apply (f_equal drop_last) in Heq.
      rewrite !drop_last_app in Heq. subst s. rewrite string_app_assoc in Hs.
      by apply find_str_occurs in Hs.
  - destruct (strip_suffix _ _) as [pre|] eqn:E; [|done]. apply strip_suffix_Some in E.
    pose proof (find_str_occurs p pre "") as Hn. rewrite string_app_nil_r in Hn. congruence.
Qed.

(** ** The scanner *)
Section Scanner.
Context `{Tokenizer}.

Lemma think_feed_unavailable s t : te_unavailable s = true -> think_feed s t = s.
Proof. intros Hs. destruct t; cbn; by rewrite Hs. Qed.

(** Feeding does not depend on how the bytes are cut into chunks. *)
Lemma think_feed_app s a b : think_feed s (a +:+ b) = think_feed (think_feed s a) b.
Proof.
  revert s. induction a as [|c a IH]; intros s.
  - change ("" +:+ b) with b. destruct (te_unavailable s) eqn:E; cbn [think_feed]; by rewrite E.
  - change (String c a +:+ b) with (String c (a +:+ b)). cbn [think_feed].
    destruct (te_unavailable s) eqn:E; [by rewrite think_feed_unavailable|]. apply IH.
Qed.

Definition outside (p : string) (n k : Z) : ThinkingEstimate := mkThinkingEstimate p false false n k.
Definition inside (p : string) (n k : Z) : ThinkingEstimate := mkThinkingEstimate p true false n k.

Lemma find_short p s : (String.length s < String.length p)%nat -> find_str p s = None.
Proof.
  intros Hlen. destruct (find_str p s) as [[pre rest]|] eqn:F; [|done].
  apply find_str_Some in F. subst s. rewrite !string_app_length in Hlen. lia.
Qed.

(** Outside a block the look-behind finds the first opening tag. *)
Lemma scan_outside t : forall p n k, (String.length p < 7)%nat ->
  match find_str THINK_OPEN (p +:+ t) with
  | Some (_, rest) => think_feed (outside p n k) t = think_feed (inside "" n k) rest
  | None => exists p', think_feed (outside p n k) t = outside p' n k
  end.
Proof.
  induction t as [|b t IH]; intros p n k Hp.
  - rewrite string_app_nil_r, find_short by done. by exists p.
  - assert (p +:+ String b t = (p +:+ bstr b) +:+ t) as Hcut by (by rewrite string_app_assoc).
    assert (String.length (p +:+ bstr b) = S (String.length p)) as Hlen
      by (rewrite string_app_length; cbn; lia).
    rewrite Hcut. change (think_feed (outside p n k) (String b t))
      with (think_feed (think_byte (outside p n k) b) t).
    unfold think_byte. cbn [te_inside te_pending te_tokens te_processed_bytes outside].
    revert Hlen. generalize (p +:+ bstr b) as q. intros q Hlen.
    unfold ends_with. destruct (strip_suffix THINK_OPEN q) as [r|] eqn:Hs; cbn [is_some].
    + apply strip_suffix_Some in Hs. subst q. rewrite string_app_length in Hlen. cbn in Hlen.
      destruct r; cbn in Hlen; [|lia]. change ("" +:+ THINK_OPEN) with THINK_OPEN.
      pose proof (find_str_app THINK_OPEN THINK_OPEN t "" "" eq_refl) as Hf.
      rewrite Hf. done.
    + unfold slen. destruct (Z.leb_spec (Z.of_nat (String.length THINK_OPEN))
                              (Z.of_nat (String.length q))) as [Hge|Hlt]; cbn in *.
      * destruct q as [|c q]; cbn in *; [lia|]. cbn [remove_first].
        assert (strip_prefix THINK_OPEN (String c q +:+ t) = None) as Hnp.
        { destruct (strip_prefix _ _) as [r|] eqn:E; [|done]. exfalso.
          apply strip_prefix_Some in E.
          assert (String c q = THINK_OPEN) as Heq.
          { clear -E Hlen Hp Hge. do 6 (destruct q as [|? q]; cbn in *; [lia|]).
            destruct q; cbn in *; [|lia]. unfold THINK_OPEN in *. cbn in *.
            unfold String.append in E. congruence. }
          rewrite Heq in Hs. done. }
        change (String c q +:+ t) with (String c (q +:+ t)) in *. cbn [find_str].
        rewrite Hnp. specialize (IH q n k ltac:(lia)).
        destruct (find_str THINK_OPEN (q +:+ t)) as [[pre rest]|]; done.
      * apply IH. lia.
Qed.

(** Both limits of the estimate hold for what is left to scan. *)
Definition within_limits (p t : string) (k : Z) : Prop :=
  slen p + slen t < MAX_ESTIMATE_BYTES /\ k + slen t <= MAX_ESTIMATE_BYTES.

Lemma within_limits_cons p b t k :
  within_limits p (String b t) k <-> within_limits (p +:+ bstr b) t (k + 1).
Proof.
  unfold within_limits, slen. rewrite string_app_length. cbn [String.length bstr]. lia.
Qed.

(** Inside a block the pending bytes are the block so far; the first
    closing tag ends it, unless a limit was reached before. *)
Lemma scan_inside t : forall p n k, find_str THINK_CLOSE p = None ->
  let final := think_feed (inside p n k) t in
  (te_unavailable final = true /\ ~ within_limits p t k)
  \/ match find_str THINK_CLOSE (p +:+ t) with
     | Some (block, rest) =>
         exists k', final = think_feed
           (outside "" (sat_add I64_MAX n (encode_len (from_utf8_lossy block))) k') rest
           /\ k <= k' <= k + slen t - slen rest
     | None => te_inside final = true /\ te_unavailable final = false
     end.
Proof.
  induction t as [|b t IH]; intros p n k Hp final.
  - rewrite string_app_nil_r, Hp. by right.
  - assert (p +:+ String b t = (p +:+ bstr b) +:+ t) as Hcut by (by rewrite string_app_assoc).
    subst final. rewrite Hcut, within_limits_cons. change (think_feed (inside p n k) (String b t))
      with (think_feed (think_byte (inside p n k) b) t).
    unfold think_byte. cbn [te_inside te_pending te_tokens te_processed_bytes inside].
    assert (slen (String b t) = slen t + 1) as Hl by (unfold slen; cbn [String.length]; lia).
    assert (0 <= slen t) as Ht by (unfold slen; lia).
    destruct (Z.ltb_spec MAX_ESTIMATE_BYTES (k + 1)) as [Hk|_].
    { left. rewrite think_feed_unavailable by done. split; [done|]. unfold within_limits. lia. }
    pose proof (find_str_snoc_None _ _ b Hp) as Hf.
    destruct (strip_suffix THINK_CLOSE (p +:+ bstr b)) as [block|].
    + right. rewrite (find_str_app _ _ t _ _ Hf). exists (k + 1). change ("" +:+ t) with t.
      split; [reflexivity|lia].
    + destruct (Z.leb_spec MAX_ESTIMATE_BYTES (slen (p +:+ bstr b))) as [Hk|_].
      { left. rewrite think_feed_unavailable by done. split; [done|]. unfold within_limits. lia. }
      destruct (IH (p +:+ bstr b) n (k + 1) Hf) as [|Hr]; [by left|right].
      destruct (find_str _ ((p +:+ bstr b) +:+ t)) as [[block rest]|]; [|exact Hr].
      destruct Hr as (k' & Hk & Hle).
      exists k'. split; [exact Hk|lia].
Qed.

(** The tokens of the closed blocks, with the saturation of the counter. *)
Definition blocks_tokens (n : Z) (blocks : list string) : Z :=
  fold_left (fun n b => sat_add I64_MAX n (encode_len (from_utf8_lossy b))) blocks n.

Lemma think_scan fuel : forall t n k, (String.length t < fuel)%nat -> 0 <= k ->
  let final := think_feed (outside "" n k) t in
  let '(blocks, open) := think_blocks fuel t in
  (te_unavailable final = true /\ ~ (k + slen t <= MAX_ESTIMATE_BYTES))
  \/ (te_unavailable final = false /\ te_inside final = open
      /\ (open = false -> te_tokens final = blocks_tokens n blocks)).
Proof.
  induction fuel as [|fuel IH]; intros t n k Hlen Hk final; [lia|]. subst final. cbn [think_blocks].
  pose proof (scan_outside t "" n k ltac:(cbn; lia)) as Ho. change ("" +:+ t) with t in Ho.
  destruct (find_str THINK_OPEN t) as [[pre inner]|] eqn:Fo;
    [|right; destruct Ho as [p' ->]; done].
  apply find_str_Some in Fo.
  assert (slen t = slen pre + 7 + slen inner) as Hlt
    by (rewrite Fo; unfold slen; rewrite !string_app_length;
        change (String.length THINK_OPEN) with 7%nat; lia).
  assert (0 <= slen pre) by (unfold slen; lia).
  rewrite Ho. destruct (scan_inside inner "" n k eq_refl) as [[Hu Hw]|Hi].
  - assert (~ (k + slen t <= MAX_ESTIMATE_BYTES)) as Hn.
    { intros Hle. apply Hw. unfold within_limits. change (slen "") with 0. unfold slen in *. unfold MAX_ESTIMATE_BYTES in *.
      split; lia. }
    destruct (find_str THINK_CLOSE inner) as [[block rest]|]; [destruct (think_blocks fuel rest)|];
      by left.
  - change ("" +:+ inner) with inner in Hi.
    destruct (find_str THINK_CLOSE inner) as [[block rest]|] eqn:Fc.
    + destruct Hi as (k' & -> & Hk'). apply find_str_Some in Fc.
      assert (slen inner = slen block + 8 + slen rest) as Hli
        by (rewrite Fc; unfold slen; rewrite !string_app_length;
            change (String.length THINK_CLOSE) with 8%nat; lia).
      specialize (IH rest (sat_add I64_MAX n (encode_len (from_utf8_lossy block))) k'
                    ltac:(unfold slen in *; lia) ltac:(lia)).
      cbv zeta in IH. destruct (think_blocks fuel rest) as [blocks open].
      destruct IH as [[Hu Hn]|IH]; [left; split; [exact Hu|unfold slen in *; lia]|right; exact IH].
    + right. destruct Hi as [Hi Hu]. done.
Qed.
End Scanner.

(** The incremental estimate of reasoning tokens equals the reference
    scan of the whole text, however the stream is cut into chunks: when it is
    available it is the sum over the closed [<think>] blocks of the text, it
    is not available while a block is open, and up to the 256 KiB limit it is
    only then not available. *)
Theorem thinking_estimate_correct `{Tokenizer} (chunks : list string) :
  let text := join "" chunks in
  let final := fold_left think_feed chunks ThinkingEstimate_default in
  let '(blocks, open) := think_blocks (S (String.length text)) text in
  (forall n, think_result final = Some n -> open = false /\ n = blocks_tokens 0 blocks)
  /\ (slen text <= MAX_ESTIMATE_BYTES ->
      think_result final = if open then None else Some (blocks_tokens 0 blocks)).
Proof.
  intros text final.
  assert (final = think_feed ThinkingEstimate_default text) as ->.
  { subst final text. generalize ThinkingEstimate_default.
    induction chunks as [|c chunks IH]; intros s; [by destruct s as [? ? [] ? ?]|].
    cbn [fold_left]. rewrite IH. destruct chunks as [|c' chunks].
    - cbn [join]. cbn. by destruct (te_unavailable (think_feed s c)).
    - change (join "" (c :: c' :: chunks)) with (c +:+ "" +:+ join "" (c' :: chunks)).
      change ("" +:+ ?x) with x. by rewrite think_feed_app. }
  pose proof (think_scan (S (String.length text)) text 0 0 ltac:(lia) ltac:(lia)) as Hscan.
  change (outside "" 0 0) with ThinkingEstimate_default in Hscan. cbv zeta in Hscan.
  destruct (think_blocks _ text) as [blocks open]. unfold think_result, then_some.
  destruct Hscan as [[Hu Hn]|(Hu & Hi & Ht)]; rewrite Hu; [by split; intros; [|lia]|].
  rewrite Hi. destruct open; [done|]. cbn. rewrite (Ht eq_refl). split; [by intros n [= <-]|done].
Qed.
