(* ===== verification/Stream.v ===== *)
(** * The streaming contract: [src/src/proxy/stream.rs], configuration and SSE tracker

    [StreamConfig] and its environment parser, the termination codes, and
    [SseEventTracker], the bounded observer of an upstream byte stream.  A
    [&mut self] method returns the new tracker; the [&mut SseActivity]
    argument is threaded the same way.  Durations are nanoseconds, as in
    [Health]. *)

From Stdlib Require Import ZArith Lia Ascii.
From stdpp Require Import base list strings gmap.
From S2P Require Import Prelude.
From S2P Require Import RustStr.
From S2P Require Import Protocol.
From S2P Require Import Health.
From S2P Require Import Json.
From S2P Require Import Usage.

Definition HEARTBEAT_MARKER : string := ": gateway-heartbeat".
Definition HEARTBEAT_FRAME : string := HEARTBEAT_MARKER +:+ bstr LF +:+ bstr LF.
Definition MAX_SSE_FRAME_BYTES : Z := 1024 * 1024.
Definition MAX_TRACKED_CHAT_CHOICES : Z := 1024.
Definition CHAT_DONE_FRAME : string := "data: [DONE]" +:+ bstr LF +:+ bstr LF.

(** ** Configuration *)

Record StreamConfig : Type := mkStreamConfig {
  sc_heartbeat_interval : Z;
  sc_connection_timeout : Z;
  sc_first_event_timeout : Z;
  sc_idle_timeout : Z;
  sc_total_timeout : Z;
}.

Definition StreamConfig_default : StreamConfig :=
  mkStreamConfig (from_secs 15) (from_secs 120) (from_secs 30) (from_secs 60) (from_secs 300).

Definition parse_duration (raw : string) (bare_ms : bool) : option Z :=
  let value := trim raw in
  if is_empty value then None else
  let lower := to_ascii_lowercase value in
  if (lower =?s "off") || (lower =?s "none") || (lower =?s "disable") || (lower =?s "disabled")
  then Some 0 else
  let '(number, multiplier) :=
    match strip_suffix "ms" value with
    | Some number => (number, 1)
    | None =>
        match strip_suffix "s" value with
        | Some number => (number, 1000)
        | None =>
            match strip_suffix "m" value with
            | Some number => (number, 60000)
            | None => if bare_ms then (value, 1) else (value, 1000)
            end
        end
    end in
  match parse_uint U64_MAX (trim number) with
  | Some n => if n * multiplier <=? U64_MAX then Some (from_millis (n * multiplier)) else None
  | None => None
  end.

Section Env.
(** [std::env::var]: [None] when unset or not Unicode. *)
Context (env : string -> option string).

Fixpoint env_duration_suffixes (prefix : string) (suffixes : list string) (default : Z) : Z :=
  match suffixes with
  | [] => default
  | suffix :: rest =>
      match env (prefix +:+ "_" +:+ suffix) with
      | None => env_duration_suffixes prefix rest default
      | Some raw =>
          match parse_duration raw (ends_with suffix "_MS" || (suffix =?s "HEARTBEAT_MS")) with
          | Some value => value
          | None => env_duration_suffixes prefix rest default
          end
      end
  end.

Definition StreamConfig_from_env_prefix (prefix : string) : StreamConfig :=
  let d := StreamConfig_default in
  mkStreamConfig
    (env_duration_suffixes prefix
       ["HEARTBEAT_INTERVAL_MS"; "HEARTBEAT_MS"; "HEARTBEAT_INTERVAL"] (sc_heartbeat_interval d))
    (env_duration_suffixes prefix
       ["CONNECTION_TIMEOUT_MS"; "CONNECT_TIMEOUT_MS"; "CONNECTION_TIMEOUT"; "CONNECT_TIMEOUT"]
       (sc_connection_timeout d))
    (env_duration_suffixes prefix ["FIRST_EVENT_TIMEOUT_MS"; "FIRST_EVENT_TIMEOUT"]
       (sc_first_event_timeout d))
    (env_duration_suffixes prefix ["IDLE_TIMEOUT_MS"; "IDLE_TIMEOUT"] (sc_idle_timeout d))
    (env_duration_suffixes prefix ["TOTAL_TIMEOUT_MS"; "TOTAL_TIMEOUT"] (sc_total_timeout d)).

Definition StreamConfig_from_env : StreamConfig := StreamConfig_from_env_prefix "GATEWAY_SSE".
End Env.

(** ** Terminations *)

Inductive StreamTermination : Type :=
| Completed | EmptyStream | UpstreamError | TransportFailure | IncompleteStream
| BufferLimitExceeded | ClientCancelled | ConnectionTimeout | FirstEventTimeout | IdleTimeout
| TotalTimeout.

#[global] Instance StreamTermination_eq_dec : EqDecision StreamTermination.
Proof. solve_decision. Defined.

Definition term_eqb (a b : StreamTermination) : bool := bool_decide (a = b).

Definition is_failure (self : StreamTermination) : bool := negb (term_eqb self Completed).

Definition term_code (self : StreamTermination) : string :=
  match self with
  | Completed => "completed"
  | EmptyStream => "gateway_empty_stream"
  | UpstreamError => "gateway_upstream_error"
  | TransportFailure => "gateway_transport_error"
  | IncompleteStream => "gateway_incomplete_stream"
  | BufferLimitExceeded => "gateway_stream_buffer_limit"
  | ClientCancelled => "gateway_client_cancelled"
  | ConnectionTimeout => "gateway_connection_timeout"
  | FirstEventTimeout => "gateway_first_event_timeout"
  | IdleTimeout => "gateway_idle_timeout"
  | TotalTimeout => "gateway_total_timeout"
  end.

Definition term_message (self : StreamTermination) : string :=
  match self with
  | Completed => "stream completed"
  | EmptyStream => "upstream stream ended without an event"
  | UpstreamError => "upstream stream failed"
  | TransportFailure => "upstream body transport failed"
  | IncompleteStream => "upstream stream ended without a terminal event"
  | BufferLimitExceeded => "upstream stream exceeded observation limits"
  | ClientCancelled => "client disconnected while streaming"
  | ConnectionTimeout => "timed out waiting for the upstream connection"
  | FirstEventTimeout => "timed out waiting for the first upstream event"
  | IdleTimeout => "upstream stream was idle for too long"
  | TotalTimeout => "upstream stream exceeded its total time limit"
  end.

Definition term_status_code (self : StreamTermination) : Z :=
  match self with
  | Completed => 200
  | ClientCancelled => 499
  | ConnectionTimeout | FirstEventTimeout | IdleTimeout | TotalTimeout => 504
  | EmptyStream | UpstreamError | TransportFailure | IncompleteStream | BufferLimitExceeded => 599
  end.

(** The state a call leaves in [current]. *)
Definition merge_terminal (current candidate : option StreamTermination)
    : option StreamTermination :=
  match candidate with
  | None => current
  | Some candidate =>
      match current with
      | None => Some candidate
      | Some existing =>
          if term_eqb existing Completed && is_failure candidate then Some candidate
          else if is_failure existing && term_eqb candidate Completed then Some existing
          else if is_failure existing then Some existing
          else Some candidate
      end
  end.

#[global] Arguments merge_terminal : simpl never.

(** ** Frame classification *)
Section Classify.
Context `{SerdeJson}.

Definition starts_gateway (code : string) : bool := starts_with code "gateway_".

Definition nested_code (value : Value) : option string :=
  get value "error" ≫= fun error => get error "code" ≫= as_str.
Definition response_code (value : Value) : option string :=
  get value "response" ≫= fun response => get response "error" ≫= fun error =>
  get error "code" ≫= as_str.

Definition gateway_code (value : Value) : option string :=
  opt_or (opt_filter starts_gateway (get value "code" ≫= as_str))
    (opt_or (opt_filter starts_gateway (nested_code value))
       (opt_filter starts_gateway (response_code value))).

Definition termination_of_code (code : string) : StreamTermination :=
  if code =?s "gateway_empty_stream" then EmptyStream
  else if code =?s "gateway_transport_error" then TransportFailure
  else if code =?s "gateway_incomplete_stream" then IncompleteStream
  else if code =?s "gateway_stream_buffer_limit" then BufferLimitExceeded
  else if code =?s "gateway_client_cancelled" then ClientCancelled
  else if code =?s "gateway_connection_timeout" then ConnectionTimeout
  else if code =?s "gateway_first_event_timeout" then FirstEventTimeout
  else if code =?s "gateway_idle_timeout" then IdleTimeout
  else if code =?s "gateway_total_timeout" then TotalTimeout
  else UpstreamError.

Definition termination_from_code (data : string) : option StreamTermination :=
  let code :=
    if starts_with data "gateway_" then data
    else
      let parsed := from_slice data in
      unwrap_or
        (opt_or (parsed ≫= fun value => get value "code" ≫= as_str)
           (opt_or (parsed ≫= nested_code) (parsed ≫= response_code))) "" in
  Some (termination_of_code code).

Definition classify_frame (event_name data : string)
    : option StreamTermination * bool * option StreamTermination :=
  let event_name := to_ascii_lowercase (trim event_name) in
  if event_name =?s "gateway.error" then (None, true, termination_from_code data) else
  if trim data =?s "[DONE]" then (Some Completed, false, None) else
  if (event_name =?s "message_stop") || (event_name =?s "response.completed")
     || (event_name =?s "response.incomplete") || (event_name =?s "response.done")
  then (Some Completed, false, None) else
  let parsed := from_slice data in
  match parsed ≫= gateway_code with
  | Some code => (None, true, termination_from_code code)
  | None =>
      let typ := to_ascii_lowercase
        (unwrap_or (parsed ≫= fun value => get value "type" ≫= as_str) "") in
      if (typ =?s "gateway.error") || starts_with typ "gateway_" then
        (None, true, termination_from_code data)
      else if (typ =?s "response.completed") || (typ =?s "response.incomplete")
              || (typ =?s "response.done") then (Some Completed, false, None)
      else if (event_name =?s "error") || (typ =?s "error") || (typ =?s "response.failed")
              || is_some_and parsed (fun value => is_some (get value "error")) then
        (None, true, None)
      else (None, false, None)
  end.
End Classify.

Definition looks_like_sse_control (bytes : string) : bool :=
  let text := trim_start (from_utf8_lossy bytes) in
  existsb (fun prefix => starts_with text prefix || starts_with prefix text)
    [":"; "data:"; "event:"; "id:"; "retry:"].

Definition is_gateway_heartbeat (bytes : string) : bool :=
  trim (from_utf8_lossy bytes) =?s HEARTBEAT_MARKER.

(** ** The tracker *)

Record SseActivity : Type := mkSseActivity {
  sa_provider_event : bool;
  sa_terminal : option StreamTermination;
  sa_error : bool;
}.
Definition SseActivity_default : SseActivity := mkSseActivity false None false.

Record SseEventTracker : Type := mkSseEventTracker {
  tr_line : string;
  tr_frame_bytes : Z;
  tr_usage : SseUsageAccumulator;
  tr_response_identity : ResponseIdentity;
  tr_event_name : string;
  tr_data_lines : list string;
  tr_frame_non_comment : bool;
  tr_saw_provider_event : bool;
  tr_saw_sse_frame : bool;
  tr_unfinished_chat_choices : gset Z;
  tr_saw_chat_finish : bool;
  tr_terminal : option StreamTermination;
}.

Definition SseEventTracker_default : SseEventTracker :=
  mkSseEventTracker "" 0 SseUsageAccumulator_default ResponseIdentity_default "" [] false false
    false ∅ false None.

(** Field assignments. *)
Definition set_line (t : SseEventTracker) x := mkSseEventTracker x (tr_frame_bytes t) (tr_usage
    t) (tr_response_identity t) (tr_event_name t) (tr_data_lines t) (tr_frame_non_comment t)
    (tr_saw_provider_event t) (tr_saw_sse_frame t) (tr_unfinished_chat_choices t)
    (tr_saw_chat_finish t) (tr_terminal t).
Definition set_frame_bytes (t : SseEventTracker) x := mkSseEventTracker (tr_line t) x (tr_usage
    t) (tr_response_identity t) (tr_event_name t) (tr_data_lines t) (tr_frame_non_comment t)
    (tr_saw_provider_event t) (tr_saw_sse_frame t) (tr_unfinished_chat_choices t)
    (tr_saw_chat_finish t) (tr_terminal t).
Definition set_usage (t : SseEventTracker) x := mkSseEventTracker (tr_line t) (tr_frame_bytes t)
    x (tr_response_identity t) (tr_event_name t) (tr_data_lines t) (tr_frame_non_comment t)
    (tr_saw_provider_event t) (tr_saw_sse_frame t) (tr_unfinished_chat_choices t)
    (tr_saw_chat_finish t) (tr_terminal t).
Definition set_response_identity (t : SseEventTracker) x := mkSseEventTracker (tr_line t)
    (tr_frame_bytes t) (tr_usage t) x (tr_event_name t) (tr_data_lines t) (tr_frame_non_comment
    t) (tr_saw_provider_event t) (tr_saw_sse_frame t) (tr_unfinished_chat_choices t)
    (tr_saw_chat_finish t) (tr_terminal t).
Definition set_event_name (t : SseEventTracker) x := mkSseEventTracker (tr_line t)
    (tr_frame_bytes t) (tr_usage t) (tr_response_identity t) x (tr_data_lines t)
    (tr_frame_non_comment t) (tr_saw_provider_event t) (tr_saw_sse_frame t)
    (tr_unfinished_chat_choices t) (tr_saw_chat_finish t) (tr_terminal t).
Definition set_data_lines (t : SseEventTracker) x := mkSseEventTracker (tr_line t)
    (tr_frame_bytes t) (tr_usage t) (tr_response_identity t) (tr_event_name t) x
    (tr_frame_non_comment t) (tr_saw_provider_event t) (tr_saw_sse_frame t)
    (tr_unfinished_chat_choices t) (tr_saw_chat_finish t) (tr_terminal t).
Definition set_frame_non_comment (t : SseEventTracker) x := mkSseEventTracker (tr_line t)
    (tr_frame_bytes t) (tr_usage t) (tr_response_identity t) (tr_event_name t) (tr_data_lines t)
    x (tr_saw_provider_event t) (tr_saw_sse_frame t) (tr_unfinished_chat_choices t)
    (tr_saw_chat_finish t) (tr_terminal t).
Definition set_saw_provider_event (t : SseEventTracker) x := mkSseEventTracker (tr_line t)
    (tr_frame_bytes t) (tr_usage t) (tr_response_identity t) (tr_event_name t) (tr_data_lines t)
    (tr_frame_non_comment t) x (tr_saw_sse_frame t) (tr_unfinished_chat_choices t)
    (tr_saw_chat_finish t) (tr_terminal t).
Definition set_saw_sse_frame (t : SseEventTracker) x := mkSseEventTracker (tr_line t)
    (tr_frame_bytes t) (tr_usage t) (tr_response_identity t) (tr_event_name t) (tr_data_lines t)
    (tr_frame_non_comment t) (tr_saw_provider_event t) x (tr_unfinished_chat_choices t)
    (tr_saw_chat_finish t) (tr_terminal t).
Definition set_choices (t : SseEventTracker) x := mkSseEventTracker (tr_line t) (tr_frame_bytes
    t) (tr_usage t) (tr_response_identity t) (tr_event_name t) (tr_data_lines t)
    (tr_frame_non_comment t) (tr_saw_provider_event t) (tr_saw_sse_frame t) x
    (tr_saw_chat_finish t) (tr_terminal t).
Definition set_saw_chat_finish (t : SseEventTracker) x := mkSseEventTracker (tr_line t)
    (tr_frame_bytes t) (tr_usage t) (tr_response_identity t) (tr_event_name t) (tr_data_lines t)
    (tr_frame_non_comment t) (tr_saw_provider_event t) (tr_saw_sse_frame t)
    (tr_unfinished_chat_choices t) x (tr_terminal t).
Definition set_terminal (t : SseEventTracker) x := mkSseEventTracker (tr_line t) (tr_frame_bytes
    t) (tr_usage t) (tr_response_identity t) (tr_event_name t) (tr_data_lines t)
    (tr_frame_non_comment t) (tr_saw_provider_event t) (tr_saw_sse_frame t)
    (tr_unfinished_chat_choices t) (tr_saw_chat_finish t) x.

Definition limit_reached (t : SseEventTracker) : bool :=
  bool_decide (tr_terminal t = Some BufferLimitExceeded).

(** [self.limit_exceeded(activity)]. *)
Definition limit_exceeded (t : SseEventTracker) (a : SseActivity)
    : SseEventTracker * SseActivity :=
  let t := set_terminal (set_choices (set_event_name (set_data_lines (set_line t "") []) "") ∅)
             (Some BufferLimitExceeded) in
  (t, mkSseActivity (sa_provider_event a) (tr_terminal t) true).

Section Tracker.
Context `{SerdeJson}.

(** The loop over [choices]: the tracker and whether the choice limit was
    hit (the early [return] after [limit_exceeded]). *)
Fixpoint observe_choices (t : SseEventTracker) (choices : list Value) : SseEventTracker * bool :=
  match choices with
  | [] => (t, false)
  | choice :: rest =>
      let index := unwrap_or (get choice "index" ≫= as_u64) 0 in
      if is_some_and (get choice "finish_reason" ≫= as_str) (fun v => negb (is_empty v)) then
        observe_choices
          (set_choices (set_saw_chat_finish t true) (tr_unfinished_chat_choices t ∖ {[index]})) rest
      else if (MAX_TRACKED_CHAT_CHOICES <=? Z.of_nat (size (tr_unfinished_chat_choices t)))
              && negb (bool_decide (index ∈ tr_unfinished_chat_choices t)) then (t, true)
      else observe_choices (set_choices t (tr_unfinished_chat_choices t ∪ {[index]})) rest
  end.

(** The part of [dispatch] that observes the payload: usage, identity and
    choices; the flag is the one of [observe_choices]. *)
Definition observe_payload (t : SseEventTracker) (data : string) : SseEventTracker * bool :=
  let parsed := from_slice data in
  let t := set_usage t (SseUsageAccumulator_observe (tr_usage t) data parsed) in
  let t := match parsed with
           | Some value => set_response_identity t
               (ResponseIdentity_observe (tr_response_identity t) value)
           | None => t
           end in
  match parsed ≫= fun value => get value "choices" ≫= as_array with
  | Some choices => observe_choices t choices
  | None => (t, false)
  end.

Definition dispatch (t : SseEventTracker) (a : SseActivity) : SseEventTracker * SseActivity :=
  if negb (tr_frame_non_comment t) && bool_decide (tr_data_lines t = [])
     && is_empty (tr_event_name t) then (t, a) else
  let event_name := tr_event_name t in
  let data := join (bstr LF) (tr_data_lines t) in
  let frame_non_comment := tr_frame_non_comment t in
  let t := set_frame_non_comment (set_data_lines (set_event_name t "") []) false in
  let '(t, limit) := observe_payload t data in
  if limit then limit_exceeded t a else
  let '(terminal, error, gateway) := classify_frame event_name data in
  match gateway with
  | Some g =>
      (set_terminal t (merge_terminal (tr_terminal t) gateway),
       mkSseActivity (sa_provider_event a) (merge_terminal (sa_terminal a) gateway)
         (sa_error a || is_failure g))
  | None =>
      if frame_non_comment || negb (is_empty data) || negb (is_empty event_name) then
        let t := set_saw_provider_event t true in
        if error then
          (set_terminal t (merge_terminal (tr_terminal t) (Some UpstreamError)),
           mkSseActivity true (merge_terminal (sa_terminal a) (Some UpstreamError)) true)
        else
          (set_terminal t (merge_terminal (tr_terminal t) terminal),
           mkSseActivity true (merge_terminal (sa_terminal a) terminal) (sa_error a))
      else (t, a)
  end.

Definition process_line (t : SseEventTracker) (a : SseActivity) : SseEventTracker * SseActivity :=
  let line := tr_line t in
  let t := set_line t "" in
  match line with
  | EmptyString => dispatch (set_frame_bytes t 0) a
  | String first _ =>
      if Ascii.eqb first ":"%char then (t, a) else
      let text := trim (from_utf8_lossy line) in
      match strip_prefix "event:" text with
      | Some value => (set_event_name (set_saw_sse_frame t true) (trim value), a)
      | None =>
          match strip_prefix "data:" text with
          | Some value =>
              (set_data_lines (set_saw_sse_frame t true) (tr_data_lines t ++ [trim value]), a)
          | None =>
              if starts_with text "id:" || starts_with text "retry:" then
                (set_saw_sse_frame t true, a)
              else (set_frame_non_comment t true, a)
          end
      end
  end.

(** [self.line.push(byte)] and the test of the first byte. *)
Definition push_byte (t : SseEventTracker) (byte : ascii) : SseEventTracker :=
  let t' := set_line t (tr_line t +:+ bstr byte) in
  if is_empty (tr_line t) && negb (Ascii.eqb byte ":"%char || Ascii.eqb byte " "%char)
  then set_frame_non_comment t' true else t'.

(** The byte loop of [feed], with its two [break]s. *)
Fixpoint feed_bytes (t : SseEventTracker) (a : SseActivity) (bytes : string)
    : SseEventTracker * SseActivity :=
  match bytes with
  | EmptyString => (t, a)
  | String byte rest =>
      if MAX_SSE_FRAME_BYTES <=? tr_frame_bytes t then limit_exceeded t a else
      let t := set_frame_bytes t (tr_frame_bytes t + 1) in
      if Ascii.eqb byte LF then
        let '(t, a) := process_line t a in
        if limit_reached t then (t, a) else feed_bytes t a rest
      else if negb (Ascii.eqb byte CR) then feed_bytes (push_byte t byte) a rest
      else feed_bytes t a rest
  end.

(** The first-event check for raw, non-SSE bodies. *)
Definition raw_event (t : SseEventTracker) (bytes : string) : bool :=
  is_empty (tr_line t) && bool_decide (tr_data_lines t = []) && is_empty (tr_event_name t)
  && negb (is_empty bytes) && negb (looks_like_sse_control bytes)
  && sany (fun byte => negb (is_ascii_whitespace byte)) bytes.

Definition feed (t : SseEventTracker) (bytes : string) : SseEventTracker * SseActivity :=
  if limit_reached t then (t, mkSseActivity false (tr_terminal t) true)
  else if raw_event t bytes then
    feed_bytes (set_saw_provider_event t true) (mkSseActivity true None false) bytes
  else feed_bytes t SseActivity_default bytes.

Definition finish_eof (t : SseEventTracker) : SseEventTracker * SseActivity :=
  let '(t, a) := if negb (is_empty (tr_line t)) then process_line t SseActivity_default
                 else (t, SseActivity_default) in
  dispatch t a.
End Tracker.

Definition mark_completed_after_eof (t : SseEventTracker) : SseEventTracker :=
  set_terminal t (merge_terminal (tr_terminal t) (Some Completed)).

Definition safe_for_heartbeat (t : SseEventTracker) : bool :=
  is_empty (tr_line t) && bool_decide (tr_data_lines t = []) && is_empty (tr_event_name t)
  && negb (tr_frame_non_comment t).

(** ** Gateway error frames *)
Definition error_payload (protocol : Protocol) (termination : StreamTermination) : Value :=
  let code := VString (term_code termination) in
  let message := VString (term_message termination) in
  match protocol with
  | OpenAiChatCompletions =>
      VObject [("error", VObject [("message", message); ("type", code); ("code", code)])]
  | OpenAiResponses | AnthropicMessages =>
      VObject [("type", VString "error");
               ("error", VObject [("type", code); ("code", code); ("message", message)])]
  end.

Definition gateway_error_frame `{SerdeJson} (protocol : Protocol)
    (termination : StreamTermination) : string :=
  let body := unwrap_or (to_string (error_payload protocol termination)) "{}" in
  let nl := bstr LF in
  match protocol with
  | OpenAiChatCompletions => "data: " +:+ body +:+ nl +:+ nl +:+ "data: [DONE]" +:+ nl +:+ nl
  | OpenAiResponses | AnthropicMessages =>
      "event: error" +:+ nl +:+ "data: " +:+ body +:+ nl +:+ nl
  end.

Example tracker_reads_frames :
  let t := (@feed json_concrete SseEventTracker_default
              ("data: " +:+ bstr LF +:+ bstr LF +:+ CHAT_DONE_FRAME)).1 in
  (tr_terminal t, tr_saw_provider_event t, safe_for_heartbeat t) = (Some Completed, true, true).
Proof. vm_compute. reflexivity. Qed.
