(* ===== verification/StreamProps.v ===== *)
(** * Properties of the SSE tracker

    Chunk independence, memory bounds and the soundness of the heartbeat
    position of [SseEventTracker] ([src/src/proxy/stream.rs]). *)

From Stdlib Require Import ZArith Lia Ascii.
From stdpp Require Import base list strings gmap fin_sets.
From S2P Require Import Prelude.
From S2P Require Import RustStr.
From S2P Require Import Protocol.
From S2P Require Import Health.
From S2P Require Import Json.
From S2P Require Import Usage.
From S2P Require Import Stream.

(** ** Trackers up to the first-event flag

    Only the check for raw bodies looks at a chunk as a whole, and it only
    sets [saw_provider_event]; everything else is a function of the bytes. *)
Definition er (t : SseEventTracker) : SseEventTracker := set_saw_provider_event t false.
Definition tracker_equiv (t t' : SseEventTracker) : Prop := er t = er t'.
Infix "≈" := tracker_equiv (at level 70, no associativity) : gw_scope.

#[global] Instance tracker_equiv_equivalence : Equivalence tracker_equiv.
Proof. split; unfold tracker_equiv; repeat intro; congruence. Qed.

Lemma tracker_equiv_saw t b : set_saw_provider_event t b ≈ t.
Proof. done. Qed.

Lemma tracker_equiv_iff t t' :
  t ≈ t' <-> t' = set_saw_provider_event t (tr_saw_provider_event t').
Proof.
  split.
  - unfold tracker_equiv, er. destruct t, t'. cbn. intros [= ]. by subst.
  - intros ->. symmetry. apply tracker_equiv_saw.
Qed.

#[global] Hint Resolve tracker_equiv_saw : gw_db.

Section Equiv.
Context `{SerdeJson}.

Lemma observe_choices_saw t b cs :
  observe_choices (set_saw_provider_event t b) cs =
  (set_saw_provider_event (observe_choices t cs).1 b, (observe_choices t cs).2).
Proof.
  revert t. induction cs as [|c cs IH]; intros t; cbn; [done|].
  destruct (is_some_and _ _); [apply (IH (set_choices (set_saw_chat_finish t true) _))|].
  destruct (_ && _); [done|]. apply (IH (set_choices t _)).
Qed.

Lemma observe_payload_saw t b data :
  observe_payload (set_saw_provider_event t b) data =
  (set_saw_provider_event (observe_payload t data).1 b, (observe_payload t data).2).
Proof.
  unfold observe_payload. destruct (from_slice data) as [v|]; cbn [mbind option_bind]; [|done].
  destruct (get v "choices" ≫= as_array) as [cs|]; [|done].
  rewrite <- observe_choices_saw. done.
Qed.

Lemma dispatch_saw t b a a' : (dispatch (set_saw_provider_event t b) a).1 ≈ (dispatch t a').1.
Proof.
  unfold dispatch. cbn [set_saw_provider_event tr_frame_non_comment tr_data_lines tr_event_name].
  destruct (_ && _ && _); [done|]. set (data := join _ _). set (name := tr_event_name t).
  set (t0 := set_frame_non_comment (set_data_lines (set_event_name t "") []) false).
  pose proof (observe_payload_saw t0 b data) as Hp.
  match goal with |- context [observe_payload ?x data] =>
    change (observe_payload x data) with (observe_payload (set_saw_provider_event t0 b) data) end.
  rewrite Hp. destruct (observe_payload t0 data) as [t1 [|]]; [done|]. cbn [fst snd].
  destruct (classify_frame name data) as [[term err] [g|]]; [done|].
  destruct (_ || _ || _); [|done]. by destruct err.
Qed.

Lemma dispatch_equiv t t' a a' : t ≈ t' -> (dispatch t a).1 ≈ (dispatch t' a').1.
Proof. intros ->%tracker_equiv_iff. symmetry. apply dispatch_saw. Qed.

Lemma process_line_equiv t t' a a' : t ≈ t' -> (process_line t a).1 ≈ (process_line t' a').1.
Proof.
  intros ->%tracker_equiv_iff. unfold process_line. cbn [set_saw_provider_event tr_line].
  destruct (tr_line t) as [|first line]; [by apply dispatch_equiv|].
  destruct (Ascii.eqb first _); [done|].
  repeat (destruct (strip_prefix _ _); [done|]). by destruct (_ || _).
Qed.

Lemma limit_reached_equiv t t' : t ≈ t' -> limit_reached t = limit_reached t'.
Proof. by intros ->%tracker_equiv_iff. Qed.

Lemma push_byte_equiv t t' b : t ≈ t' -> push_byte t b ≈ push_byte t' b.
Proof.
  intros ->%tracker_equiv_iff. unfold push_byte. cbn [set_saw_provider_event tr_line].
  by destruct (_ && _).
Qed.

Lemma feed_bytes_equiv s : forall t t' a a', t ≈ t' -> (feed_bytes t a s).1 ≈ (feed_bytes t' a' s).1.
Proof.
  induction s as [|byte s IH]; intros t t' a a' Ht; cbn [feed_bytes]; [done|].
  assert (tr_frame_bytes t = tr_frame_bytes t') as Hf by (by apply tracker_equiv_iff in Ht as ->).
  assert (forall k, set_frame_bytes t k ≈ set_frame_bytes t' k) as Hs
    by (intros k; by apply tracker_equiv_iff in Ht as ->).
  rewrite Hf. destruct (_ <=? _); [by apply tracker_equiv_iff in Ht as ->|].
  destruct (Ascii.eqb byte LF).
  - pose proof (process_line_equiv _ _ a a' (Hs (tr_frame_bytes t' + 1))) as Hp.
    destruct (process_line _ a) as [t1 a1], (process_line _ a') as [t2 a2]. cbn [fst] in Hp.
    rewrite (limit_reached_equiv _ _ Hp). destruct (limit_reached t2); [done|]. by apply IH.
  - destruct (negb _); apply IH; [apply push_byte_equiv|]; apply Hs.
Qed.

(** A byte loop that did not break consumed its whole input. *)
Lemma feed_bytes_app x y : forall t a,
  limit_reached t = false ->
  let t1 := (feed_bytes t a x).1 in
  (feed_bytes t a (x +:+ y)).1 ≈ (if limit_reached t1 then t1 else (feed_bytes t1 a y).1).
Proof.
  induction x as [|byte x IH]; intros t a Ht.
  - change ("" +:+ y) with y. cbn [feed_bytes fst]. by rewrite Ht.
  - change (String byte x +:+ y) with (String byte (x +:+ y)). cbn [feed_bytes].
    destruct (_ <=? _); [done|]. destruct (Ascii.eqb byte LF).
    + destruct (process_line _ a) as [t1 a1]. destruct (limit_reached t1) eqn:E.
      * cbn [fst]. by rewrite E.
      * cbv zeta. rewrite IH by done. destruct (limit_reached (feed_bytes t1 a1 x).1); [done|].
        by apply feed_bytes_equiv.
    + destruct (negb _).
      * apply IH. unfold push_byte. by destruct (_ && _).
      * by apply IH.
Qed.

Lemma feed_tracker t s :
  (feed t s).1 ≈ if limit_reached t then t else (feed_bytes t SseActivity_default s).1.
Proof.
  unfold feed. destruct (limit_reached t); [done|]. destruct (raw_event t s); [|done].
  by apply feed_bytes_equiv.
Qed.

#[global] Instance feed_proper : Proper (tracker_equiv ==> eq ==> tracker_equiv)
  (fun t s => (feed t s).1).
Proof.
  intros t t' Ht s _ <-. rewrite !feed_tracker, (limit_reached_equiv _ _ Ht).
  destruct (limit_reached t'); [done|]. by apply feed_bytes_equiv.
Qed.

Lemma feed_app t x y : (feed (feed t x).1 y).1 ≈ (feed t (x +:+ y)).1.
Proof.
  rewrite (feed_tracker t (x +:+ y)). rewrite (feed_proper _ _ (feed_tracker t x) y y eq_refl).
  rewrite feed_tracker. destruct (limit_reached t) eqn:Ht; [by rewrite Ht|].
  rewrite feed_bytes_app by done.
  destruct (limit_reached (feed_bytes _ _ _).1); [done|]. by apply feed_bytes_equiv.
Qed.
End Equiv.

(** The tracker after a sequence of chunks. *)
Definition feed_all `{SerdeJson} (t : SseEventTracker) (chunks : list string) : SseEventTracker :=
  fold_left (fun t s => (feed t s).1) chunks t.

Lemma feed_all_proper `{SerdeJson} t t' chunks : t ≈ t' -> feed_all t chunks ≈ feed_all t' chunks.
Proof.
  revert t t'. induction chunks as [|c chunks IH]; intros t t' Ht; cbn; [done|].
  apply IH. by apply feed_proper.
Qed.

(** C18. The observation of a stream does not depend on how the transport
    cuts it into chunks: after any chunking the tracker (frame buffer, merged
    usage, reported model, unfinished choices, termination) is the one the
    whole text gives in one piece; only the first-event flag, which raw bodies
    set per chunk, may differ. *)
Theorem tracker_chunk_independent `{SerdeJson} (t : SseEventTracker) (chunks : list string) :
  feed_all t chunks ≈ (feed t (join "" chunks)).1.
Proof.
  revert t. induction chunks as [|c chunks IH]; intros t.
  - cbn. rewrite feed_tracker. by destruct (limit_reached t).
  - cbn [feed_all fold_left]. fold (feed_all (feed t c).1 chunks). rewrite IH, feed_app.
    destruct chunks; cbn [join]; [|done]. by rewrite string_app_nil_r.
Qed.

(** ** What a dispatch leaves behind *)
Section Shape.
Context `{SerdeJson}.

Lemma observe_choices_shape cs : forall t, let t' := (observe_choices t cs).1 in
  (Z.of_nat (size (tr_unfinished_chat_choices t)) <= MAX_TRACKED_CHAT_CHOICES ->
   Z.of_nat (size (tr_unfinished_chat_choices t')) <= MAX_TRACKED_CHAT_CHOICES)
  /\ exists c f, t' = set_saw_chat_finish (set_choices t c) f.
Proof.
  induction cs as [|v cs IH]; intros t t'; subst t'; cbn [observe_choices].
  { split; [done|]. exists (tr_unfinished_chat_choices t), (tr_saw_chat_finish t). by destruct t. }
  destruct (is_some_and _ _).
  - edestruct IH as [Hle (c & f & Heq)]. split; [|exists c, f; by rewrite Heq].
    intros Hs. apply Hle. cbn. etrans; [|exact Hs]. apply inj_le. apply subseteq_size. set_solver.
  - destruct (_ && _) eqn:Hlim.
    { split; [done|]. exists (tr_unfinished_chat_choices t), (tr_saw_chat_finish t). by destruct t. }
    edestruct IH as [Hle (c & f & Heq)]. split; [|exists c, f; by rewrite Heq].
    intros Hs. apply Hle. cbn. set (i := unwrap_or _ 0) in *.
    destruct (decide (i ∈ tr_unfinished_chat_choices t)) as [Hin|Hout].
    + rewrite union_comm_L, subseteq_union_1_L by set_solver. done.
    + rewrite (bool_decide_false _ Hout), andb_true_r in Hlim. bool_to_prop.
      rewrite size_union, size_singleton by set_solver. lia.
Qed.

(** The payload only changes the usage, the identity and the choices. *)
Lemma observe_payload_shape t data : let t' := (observe_payload t data).1 in
  (Z.of_nat (size (tr_unfinished_chat_choices t)) <= MAX_TRACKED_CHAT_CHOICES ->
   Z.of_nat (size (tr_unfinished_chat_choices t')) <= MAX_TRACKED_CHAT_CHOICES)
  /\ exists u i c f, t' = set_saw_chat_finish
       (set_choices (set_response_identity (set_usage t u) i) c) f.
Proof.
  unfold observe_payload.
  set (t1 := match from_slice data with Some value => _ | None => _ end).
  assert (exists u i, t1 = set_response_identity (set_usage t u) i) as (u & i & Ht1).
  { subst t1. destruct (from_slice data); [by eexists _, _|].
    eexists _, (tr_response_identity t). done. }
  destruct (from_slice data ≫= _) as [cs|].
  - destruct (observe_choices_shape cs t1) as [Hle (c & f & Heq)]. rewrite Ht1 in *.
    split; [done|]. exists u, i, c, f. done.
  - rewrite Ht1. split; [done|]. exists u, i, (tr_unfinished_chat_choices t), (tr_saw_chat_finish t).
    by destruct t.
Qed.

Record dispatch_shape (t t' : SseEventTracker) : Prop := {
  ds_frame_bytes : tr_frame_bytes t' = tr_frame_bytes t;
  ds_line : tr_line t' = tr_line t \/ tr_line t' = "";
  ds_name : tr_event_name t' = "";
  ds_data : tr_data_lines t' = [];
  ds_comment : tr_frame_non_comment t' = false;
  ds_choices :
    Z.of_nat (size (tr_unfinished_chat_choices t)) <= MAX_TRACKED_CHAT_CHOICES ->
    Z.of_nat (size (tr_unfinished_chat_choices t')) <= MAX_TRACKED_CHAT_CHOICES;
}.

Ltac shape := split; first [done | by left | assumption].

Lemma dispatch_shape_holds t a : dispatch_shape t (dispatch t a).1.
Proof.
  unfold dispatch. destruct (_ && _ && _) eqn:Hskip.
  { bool_to_prop. apply String.eqb_eq in H1. split; try done; by left. }
  clear Hskip. set (data := join _ _). set (name := tr_event_name t).
  set (t0 := set_frame_non_comment (set_data_lines (set_event_name t "") []) false).
  destruct (observe_payload_shape t0 data) as [Hle (u & i & c & f & Heq)].
  destruct (observe_payload t0 data) as [t1 lim]. cbn [fst] in *.
  assert (dispatch_shape t t1) as [? ? ? ? ? Hc] by (subst t1; shape).
  destruct lim; [split; first [done | by right |
    intros _; cbn; unfold MAX_TRACKED_CHAT_CHOICES; lia]|].
  destruct (classify_frame name data) as [[term err] [g|]]; [shape|].
  destruct (_ || _ || _); [|shape]. destruct err; shape.
Qed.
End Shape.

(** ** Lengths *)

Lemma slen_nonneg s : 0 <= slen s.
Proof. unfold slen. lia. Qed.

Lemma trim_start_len s : slen (trim_start s) <= slen s.
Proof.
  remember (String.length s) as n eqn:Hn. revert s Hn.
  induction n as [n IH] using lt_wf_ind. intros s ->.
  assert (forall u, (String.length u < String.length s)%nat -> slen (trim_start u) <= slen s) as Hu.
  { intros u Hu. pose proof (IH _ Hu u eq_refl). unfold slen in *. lia. }
  destruct s as [|a t]; [done|]. cbn [trim_start].
  destruct (ws1 a); [apply Hu; cbn; lia|]. destruct t as [|b u]; [done|].
  destruct (ws2 a b); [apply Hu; cbn; lia|]. destruct u as [|c v]; [done|].
  destruct (ws3 a b c); [apply Hu; cbn; lia|done].
Qed.

Lemma trim_end_len s : slen (trim_end s) <= slen s.
Proof.
  induction s as [|a s IH]; [done|]. cbn [trim_end]. destruct (is_empty _).
  - unfold slen. cbn. lia.
  - rewrite !slen_cons. lia.
Qed.

Lemma trim_len s : slen (trim s) <= slen s.
Proof. unfold trim. pose proof (trim_end_len (trim_start s)). pose proof (trim_start_len s). lia. Qed.

(** The replacement character has three bytes. *)
Lemma from_utf8_lossy_len s : slen (from_utf8_lossy s) <= 3 * slen s.
Proof.
  remember (String.length s) as n eqn:Hn. revert s Hn.
  induction n as [n IH] using lt_wf_ind. intros s ->.
  assert (forall u, (String.length u < String.length s)%nat ->
                    slen (from_utf8_lossy u) <= 3 * slen u) as Hu by (intros u Hu; by eapply IH).
  assert (slen REPLACEMENT = 3) as Hr by done.
  destruct s as [|a t]; [done|]. cbn [from_utf8_lossy].
  repeat (case_match; try subst); rewrite ?slen_app, ?slen_cons, ?Hr in *; cbn [String.length] in *;
    repeat match goal with |- context [slen (from_utf8_lossy ?u)] =>
      pose proof (Hu u ltac:(cbn; lia)); generalize dependent (slen (from_utf8_lossy u)); intros end;
    rewrite ?slen_cons in *; unfold slen in *; lia.
Qed.

Lemma strip_prefix_len p s r : strip_prefix p s = Some r -> slen r <= slen s.
Proof. intros ->%strip_prefix_Some. rewrite slen_app. pose proof (slen_nonneg p). lia. Qed.

(** ** Memory bounds *)

Definition data_bytes (t : SseEventTracker) : Z := fold_right Z.add 0 (map slen (tr_data_lines t)).

(** What the tracker buffers, in bytes, against the frame counter. *)
Record tracker_ok (t : SseEventTracker) : Prop := {
  to_frame : 0 <= tr_frame_bytes t <= MAX_SSE_FRAME_BYTES;
  to_lines : 3 * slen (tr_line t) + data_bytes t <= 3 * tr_frame_bytes t;
  to_name : 3 * slen (tr_line t) + slen (tr_event_name t) <= 3 * tr_frame_bytes t;
  to_choices : Z.of_nat (size (tr_unfinished_chat_choices t)) <= MAX_TRACKED_CHAT_CHOICES;
}.

Lemma data_bytes_nonneg t : 0 <= data_bytes t.
Proof.
  unfold data_bytes. induction (tr_data_lines t); cbn; [done|]. pose proof (slen_nonneg a). lia.
Qed.

Lemma data_bytes_snoc l x :
  fold_right Z.add 0 (map slen (l ++ [x])) = fold_right Z.add 0 (map slen l) + slen x.
Proof. induction l; cbn; lia. Qed.

Section Bounds.
Context `{SerdeJson}.

Lemma dispatch_ok t a :
  0 <= tr_frame_bytes t <= MAX_SSE_FRAME_BYTES ->
  Z.of_nat (size (tr_unfinished_chat_choices t)) <= MAX_TRACKED_CHAT_CHOICES ->
  tr_line t = "" -> tracker_ok (dispatch t a).1.
Proof.
  intros Hf Hc Hline. destruct (dispatch_shape_holds t a) as [E1 E2 E3 E4 E5 E6].
  assert (tr_line (dispatch t a).1 = "") as E2' by (destruct E2; congruence).
  split; rewrite ?E1; [done| | |auto]; unfold data_bytes; rewrite ?E2', ?E3, ?E4;
    change (slen "") with 0; cbn [map fold_right]; lia.
Qed.

Lemma process_line_ok t a : tracker_ok t -> tracker_ok (process_line t a).1.
Proof.
  intros [Hf Hl Hn Hc]. pose proof (data_bytes_nonneg t) as Hd.
  pose proof (slen_nonneg (tr_event_name t)) as He. unfold process_line.
  destruct (tr_line t) as [|first line] eqn:Hline; [by apply dispatch_ok|].
  pose proof (from_utf8_lossy_len (String first line)) as Hlossy.
  pose proof (trim_len (from_utf8_lossy (String first line))) as Htrim.
  pose proof (slen_nonneg (String first line)) as Hpos.
  assert (forall v, slen (trim v) <= slen v) as Hv by apply trim_len.
  unfold data_bytes in *.
  destruct (Ascii.eqb first _); [split; cbn; change (slen "") with 0; try done; lia|].
  destruct (strip_prefix "event:" _) as [v|] eqn:E1.
  { apply strip_prefix_len in E1. specialize (Hv v).
    split; cbn -[Z.mul]; unfold data_bytes; cbn -[Z.mul]; change (slen "") with 0; try done; lia. }
  destruct (strip_prefix "data:" _) as [v|] eqn:E2.
  { apply strip_prefix_len in E2. specialize (Hv v).
    split; cbn -[Z.mul]; unfold data_bytes; cbn -[Z.mul]; rewrite ?data_bytes_snoc;
      change (slen "") with 0; try done; lia. }
  destruct (_ || _); split; cbn -[Z.mul]; unfold data_bytes; cbn -[Z.mul];
    change (slen "") with 0; try done; lia.
Qed.

Lemma push_byte_ok t b :
  tracker_ok t -> tr_frame_bytes t < MAX_SSE_FRAME_BYTES ->
  tracker_ok (push_byte (set_frame_bytes t (tr_frame_bytes t + 1)) b).
Proof.
  intros [Hf Hl Hn Hc] Hlt. unfold push_byte. unfold data_bytes in *.
  destruct (_ && _); split; unfold data_bytes; cbn -[Z.mul]; rewrite ?slen_app;
    change (slen (bstr b)) with 1; try done; lia.
Qed.

Lemma limit_exceeded_ok t a : tracker_ok t -> tracker_ok (limit_exceeded t a).1.
Proof.
  intros [Hf Hl Hn Hc].
  split; cbn -[Z.mul]; change (slen "") with 0; try done; unfold data_bytes; cbn -[Z.mul];
    unfold MAX_TRACKED_CHAT_CHOICES; lia.
Qed.

Lemma frame_bytes_ok t :
  tracker_ok t -> tr_frame_bytes t < MAX_SSE_FRAME_BYTES ->
  tracker_ok (set_frame_bytes t (tr_frame_bytes t + 1)).
Proof.
  intros [Hf Hl Hn Hc] Hlt. unfold data_bytes in *.
  split; unfold data_bytes; cbn -[Z.mul]; try done; lia.
Qed.

Lemma feed_bytes_ok s : forall t a, tracker_ok t -> tracker_ok (feed_bytes t a s).1.
Proof.
  induction s as [|b s IH]; intros t a Ht; cbn [feed_bytes]; [done|].
  destruct (Z.leb_spec MAX_SSE_FRAME_BYTES (tr_frame_bytes t)); [by apply limit_exceeded_ok|].
  destruct (Ascii.eqb b LF).
  - pose proof (process_line_ok _ a (frame_bytes_ok t Ht ltac:(lia))) as Hp.
    destruct (process_line _ a) as [t1 a1]. destruct (limit_reached t1); [done|]. by apply IH.
  - destruct (negb _); apply IH; [by apply push_byte_ok|by apply frame_bytes_ok].
Qed.

Lemma feed_ok t s : tracker_ok t -> tracker_ok (feed t s).1.
Proof.
  intros Ht. unfold feed. destruct (limit_reached t); [done|].
  destruct (raw_event t s); apply feed_bytes_ok; [|done]. by destruct Ht.
Qed.
End Bounds.

(** The tracker's memory is bounded whatever the upstream sends: the
    current frame never counts more than 1 MiB, the buffered line and data
    lines stay within three times that (invalid UTF-8 grows when decoded), the
    event name too, and at most 1024 unfinished choices are tracked. *)
Theorem tracker_memory_bounded `{SerdeJson} (chunks : list string) :
  let t := feed_all SseEventTracker_default chunks in
  0 <= tr_frame_bytes t <= MAX_SSE_FRAME_BYTES
  /\ slen (tr_line t) <= MAX_SSE_FRAME_BYTES
  /\ data_bytes t <= 3 * MAX_SSE_FRAME_BYTES
  /\ slen (tr_event_name t) <= 3 * MAX_SSE_FRAME_BYTES
  /\ Z.of_nat (size (tr_unfinished_chat_choices t)) <= MAX_TRACKED_CHAT_CHOICES.
Proof.
  assert (forall t0, tracker_ok t0 -> tracker_ok (feed_all t0 chunks)) as Hall.
  { induction chunks as [|c chunks IH]; intros t0 Ht; cbn; [done|]. apply IH. by apply feed_ok. }
  destruct (Hall SseEventTracker_default) as [Hf Hl Hn Hc]; [by split|].
  intros t. pose proof (slen_nonneg (tr_line t)). pose proof (slen_nonneg (tr_event_name t)).
  pose proof (data_bytes_nonneg t). fold t in Hf, Hl, Hn, Hc. split_and!; try done; lia.
Qed.

(** ** Where a heartbeat may be written *)

Fixpoint strip_cr (s : string) : string :=
  match s with
  | EmptyString => ""
  | String a t => if Ascii.eqb a CR then strip_cr t else String a (strip_cr t)
  end.

(** Lines with their terminators. *)
Fixpoint unlines (ls : list string) : string :=
  match ls with [] => "" | l :: ls => l +:+ bstr LF +:+ unlines ls end.

(** The start of the stream, or just after a blank line. *)
Definition frame_boundary (pre : string) : Prop :=
  pre = "" \/ pre = bstr LF \/ exists p, pre = p +:+ bstr LF +:+ bstr LF.

(** A line every SSE client ignores: a comment, or a field whose name starts
    with a space. *)
Definition inert (l : string) : Prop :=
  exists c r, l = String c r /\ (c = ":"%char \/ c = " "%char).

(** The text ends where a comment frame does not cut a provider frame. *)
Definition heartbeat_position (text : string) : Prop :=
  exists pre ls, strip_cr text = pre +:+ unlines ls /\ frame_boundary pre /\ Forall inert ls.

(** The invariant of the byte loop: the text is complete frames, the finished
    lines of the current frame and the buffered line; while the frame is not
    marked, all of these are inert. *)
Definition tracks (t : SseEventTracker) (text : string) : Prop :=
  exists pre ls,
    strip_cr text = pre +:+ unlines ls +:+ tr_line t /\ frame_boundary pre
    /\ (tr_frame_non_comment t = false ->
        Forall inert ls /\ (tr_line t = "" \/ inert (tr_line t))).

Lemma strip_cr_app s t : strip_cr (s +:+ t) = strip_cr s +:+ strip_cr t.
Proof.
  induction s as [|a s IH]; [done|]. change (String a s +:+ t) with (String a (s +:+ t)).
  cbn [strip_cr]. rewrite IH. by destruct (Ascii.eqb a CR).
Qed.

Lemma unlines_app l l' : unlines (l ++ l') = unlines l +:+ unlines l'.
Proof.
  induction l as [|x l IH]; [done|]. cbn [unlines app]. rewrite IH, !string_app_assoc. done.
Qed.

Lemma unlines_snoc l x : unlines (l ++ [x]) = unlines l +:+ x +:+ bstr LF.
Proof. rewrite unlines_app. cbn [unlines]. by rewrite string_app_nil_r. Qed.

(** A blank line ends the frame. *)
Lemma frame_boundary_blank pre ls :
  frame_boundary pre -> frame_boundary (pre +:+ unlines ls +:+ bstr LF).
Proof.
  intros Hpre. destruct ls as [|l ls _] using rev_ind.
  - change (unlines [] +:+ bstr LF) with (bstr LF).
    destruct Hpre as [->|[->|[p ->]]]; [by right; left|right; right..].
    + by exists "".
    + exists (p +:+ bstr LF). by rewrite !string_app_assoc.
  - right; right. exists (pre +:+ unlines ls +:+ l). rewrite unlines_snoc, !string_app_assoc. done.
Qed.

Section Heartbeat.
Context `{SerdeJson}.

Lemma tracks_equiv t t' text : t ≈ t' -> tracks t text -> tracks t' text.
Proof. by intros ->%tracker_equiv_iff. Qed.

Lemma process_line_tracks t a text :
  tracks t text -> limit_reached (process_line t a).1 = false ->
  tracks (process_line t a).1 (text +:+ bstr LF).
Proof.
  intros (pre & ls & Htext & Hpre & Hin) Hlim. unfold process_line in *.
  unfold tracks. rewrite strip_cr_app, Htext. change (strip_cr (bstr LF)) with (bstr LF).
  destruct (tr_line t) as [|first line] eqn:Hline.
  - set (t0 := set_frame_bytes (set_line t "") 0) in *.
    destruct (dispatch_shape_holds t0 a) as [_ Hl _ _ _ _].
    exists (pre +:+ unlines ls +:+ bstr LF), []. rewrite string_app_nil_r.
    assert (tr_line (dispatch t0 a).1 = "") as -> by (by destruct Hl).
    change (unlines [] +:+ "") with "". rewrite string_app_nil_r, !string_app_assoc.
    split_and!; [done|by apply frame_boundary_blank|]. intros _. split; [constructor|by left].
  - exists pre, (ls ++ [String first line]).
    assert (forall t', tr_line t' = "" ->
      (tr_frame_non_comment t' = false -> tr_frame_non_comment t = false) ->
      (pre +:+ unlines ls +:+ String first line) +:+ bstr LF
        = pre +:+ unlines (ls ++ [String first line]) +:+ tr_line t'
      /\ frame_boundary pre
      /\ (tr_frame_non_comment t' = false ->
          Forall inert (ls ++ [String first line]) /\ (tr_line t' = "" \/ inert (tr_line t'))))
      as Hgo.
    { intros t' -> Hc. rewrite unlines_snoc, !string_app_assoc, string_app_nil_r.
      split_and!; [done|done|]. intros Hc'. destruct (Hin (Hc Hc')) as [Hls [?|Hl]]; [done|].
      split; [|by left]. apply Forall_app. split; [done|]. by constructor. }
    destruct (Ascii.eqb first ":"%char); [by apply Hgo|].
    destruct (strip_prefix "event:" _); [by apply Hgo|].
    destruct (strip_prefix "data:" _); [by apply Hgo|].
    destruct (_ || _); by apply Hgo.
Qed.

Lemma push_byte_tracks t b text :
  tracks t text -> Ascii.eqb b CR = false -> tracks (push_byte t b) (text +:+ bstr b).
Proof.
  intros (pre & ls & Htext & Hpre & Hin) Hb. exists pre, ls.
  assert (strip_cr (text +:+ bstr b) = pre +:+ unlines ls +:+ (tr_line t +:+ bstr b)) as Ht.
  { rewrite strip_cr_app, Htext. cbn [strip_cr bstr]. rewrite Hb.
    by rewrite !string_app_assoc. }
  unfold push_byte. destruct (is_empty (tr_line t)) eqn:He; cbn [andb].
  - apply String.eqb_eq in He. destruct (negb _) eqn:Hc; [by split_and!|].
    split_and!; [done|done|]. cbn. intros Hf. destruct (Hin Hf) as [Hls _]. split; [done|right].
    rewrite He. exists b, "". split; [done|]. bool_to_prop. apply orb_true_iff in Hc.
    destruct Hc as [Hc|Hc]; apply Ascii.eqb_eq in Hc; auto.
  - split_and!; [done|done|]. cbn. intros Hf. destruct (Hin Hf) as [Hls [Hl|(c & r & Hl & Hc)]].
    + by rewrite Hl in He.
    + split; [done|right]. exists c, (r +:+ bstr b). by rewrite Hl.
Qed.

Lemma frame_bytes_tracks t k text : tracks t text -> tracks (set_frame_bytes t k) text.
Proof. done. Qed.

Lemma feed_bytes_tracks s : forall t a text,
  tracks t text -> limit_reached (feed_bytes t a s).1 = false ->
  tracks (feed_bytes t a s).1 (text +:+ s).
Proof.
  induction s as [|b s IH]; intros t a text Ht; cbn [feed_bytes]; [by rewrite string_app_nil_r|].
  destruct (_ <=? _); [done|].
  assert (text +:+ String b s = (text +:+ bstr b) +:+ s) as -> by (by rewrite string_app_assoc).
  apply (frame_bytes_tracks _ (tr_frame_bytes t + 1)) in Ht.
  destruct (Ascii.eqb_spec b LF) as [->|_].
  - pose proof (process_line_tracks _ a text Ht) as Hp.
    destruct (process_line _ a) as [t1 a1]. cbn [fst] in Hp.
    destruct (limit_reached t1) eqn:E; [cbn [fst]; congruence|]. apply IH. by apply Hp.
  - destruct (Ascii.eqb b CR) eqn:Hcr; cbn [negb]; apply IH; [|by apply push_byte_tracks].
    destruct Ht as (pre & ls & Htext & Hr). exists pre, ls. split; [|done].
    rewrite strip_cr_app, Htext. cbn [strip_cr bstr]. rewrite Hcr. by rewrite string_app_nil_r.
Qed.

Lemma feed_tracks t s text :
  tracks t text -> limit_reached (feed t s).1 = false -> tracks (feed t s).1 (text +:+ s).
Proof.
  intros Ht Hlim. pose proof (feed_tracker t s) as Hf.
  rewrite (limit_reached_equiv _ _ Hf) in Hlim. symmetry in Hf.
  destruct (limit_reached t) eqn:E; [by rewrite E in Hlim|].
  eapply tracks_equiv; [exact Hf|]. by apply feed_bytes_tracks.
Qed.

Lemma safe_position t text :
  tracks t text -> safe_for_heartbeat t = true -> heartbeat_position text.
Proof.
  intros (pre & ls & Htext & Hpre & Hin) Hsafe. unfold safe_for_heartbeat in Hsafe. bool_to_prop.
  match goal with Hl : is_empty (tr_line t) = true |- _ => apply String.eqb_eq in Hl;
    rewrite Hl in Htext end.
  exists pre, ls. rewrite string_app_nil_r in Htext. split_and!; [done|done|]. by apply Hin.
Qed.

Lemma default_tracks : tracks SseEventTracker_default "".
Proof. exists "", []. split_and!; [done|by left|]. intros _. split; [constructor|by left]. Qed.
End Heartbeat.
