(* ===== verification/Native.v ===== *)
(** * The native stream wrapper: [NativeState] and [next_native] of [src/src/proxy/stream.rs]

    One turn of the loop of [next_native] asks its environment for the time,
    for the branch of [select!] that is ready and for the time after it; a
    [Turn] holds these answers, so every schedule of upstream bytes, timers
    and downstream polls is a list of turns.  An item of the outgoing body
    carries a tag saying whether its bytes came from the upstream; the tag is
    not part of the bytes and no definition looks at it. *)

From Stdlib Require Import ZArith Lia Ascii.
From stdpp Require Import base list strings gmap.
From S2P Require Import Prelude.
From S2P Require Import RustStr.
From S2P Require Import Protocol.
From S2P Require Import Health.
From S2P Require Import Json.
From S2P Require Import Usage.
From S2P Require Import Stream.
From S2P Require Import StreamProps.

(** The largest [Instant] of the platform. *)
Class InstantRange : Type := INSTANT_MAX : Z.

(** [Instant::checked_add]. *)
Definition checked_add `{InstantRange} (at_ d : Z) : option Z :=
  if at_ + d <=? INSTANT_MAX then Some (at_ + d) else None.

(** [(!d.is_zero()).then(|| at.checked_add(d)).flatten()]. *)
Definition deadline_after `{InstantRange} (at_ d : Z) : option Z :=
  if d =? 0 then None else checked_add at_ d.

Inductive Item : Type := UpstreamChunk (bytes : string) | GatewayFrame (bytes : string).
Definition item_bytes (i : Item) : string :=
  match i with UpstreamChunk b | GatewayFrame b => b end.

Record NativeState : Type := mkNativeState {
  ns_protocol : Protocol;
  ns_config : StreamConfig;
  ns_request_started : Z;
  ns_connected_at : Z;
  ns_tracker : SseEventTracker;
  ns_pending : list Item;
  ns_finish_after_pending : bool;
  ns_done : bool;
  ns_next_heartbeat : option Z;
  ns_last_event : option Z;
}.

Definition set_pending (s : NativeState) x := mkNativeState (ns_protocol s) (ns_config s)
  (ns_request_started s) (ns_connected_at s) (ns_tracker s) x (ns_finish_after_pending s)
  (ns_done s) (ns_next_heartbeat s) (ns_last_event s).
Definition set_tracker (s : NativeState) x := mkNativeState (ns_protocol s) (ns_config s)
  (ns_request_started s) (ns_connected_at s) x (ns_pending s) (ns_finish_after_pending s)
  (ns_done s) (ns_next_heartbeat s) (ns_last_event s).
Definition set_finish (s : NativeState) x := mkNativeState (ns_protocol s) (ns_config s)
  (ns_request_started s) (ns_connected_at s) (ns_tracker s) (ns_pending s) x
  (ns_done s) (ns_next_heartbeat s) (ns_last_event s).
Definition set_done (s : NativeState) x := mkNativeState (ns_protocol s) (ns_config s)
  (ns_request_started s) (ns_connected_at s) (ns_tracker s) (ns_pending s)
  (ns_finish_after_pending s) x (ns_next_heartbeat s) (ns_last_event s).
Definition set_times (s : NativeState) hb last := mkNativeState (ns_protocol s) (ns_config s)
  (ns_request_started s) (ns_connected_at s) (ns_tracker s) (ns_pending s)
  (ns_finish_after_pending s) (ns_done s) hb last.
Definition push_back (s : NativeState) (i : Item) : NativeState :=
  set_pending s (ns_pending s ++ [i]).

Definition SEPARATOR : Item := GatewayFrame (bstr LF +:+ bstr LF).
Definition HEARTBEAT : Item := GatewayFrame HEARTBEAT_FRAME.
Definition CHAT_DONE : Item := GatewayFrame CHAT_DONE_FRAME.

(** The answers of one turn: the branch of [select!] and its value. *)
Inductive Ready : Type :=
| RUpstream (item : option (result string unit))
| RTotal | RFirst | RIdle | RHeartbeat.

Record Turn : Type := mkTurn { tn_now : Z; tn_ready : Ready; tn_after : Z }.

Section Native.
Context `{SerdeJson} `{InstantRange}.

Definition NativeState_new (protocol : Protocol) (config : StreamConfig)
    (request_started connected_at : Z) : NativeState :=
  mkNativeState protocol config request_started connected_at SseEventTracker_default [] false
    false (deadline_after connected_at (sc_heartbeat_interval config)) None.

Definition error_item (protocol : Protocol) (termination : StreamTermination) : Item :=
  GatewayFrame (gateway_error_frame protocol termination).

Definition queue_failure (s : NativeState) (termination : StreamTermination) : NativeState :=
  let s := if negb (safe_for_heartbeat (ns_tracker s))
              || term_eqb termination BufferLimitExceeded then push_back s SEPARATOR else s in
  set_finish (push_back s (error_item (ns_protocol s) termination)) true.

Definition total_deadline (s : NativeState) : option Z :=
  deadline_after (ns_request_started s) (sc_total_timeout (ns_config s)).

Definition first_deadline (s : NativeState) : option Z :=
  if tr_saw_provider_event (ns_tracker s) then None
  else deadline_after (ns_connected_at s) (sc_first_event_timeout (ns_config s)).

Definition idle_deadline (s : NativeState) : option Z :=
  match ns_last_event s with
  | Some at_ => deadline_after at_ (sc_idle_timeout (ns_config s))
  | None => None
  end.

(** The deadline checks at the head of the loop. *)
Definition expired (s : NativeState) (now : Z) : option StreamTermination :=
  if is_some_and (total_deadline s) (fun deadline => deadline <=? now) then Some TotalTimeout
  else if is_some_and (first_deadline s) (fun deadline => deadline <=? now)
  then Some FirstEventTimeout
  else if is_some_and (idle_deadline s) (fun deadline => deadline <=? now) then Some IdleTimeout
  else None.

(** The body of the first branch of [select!]. *)
Definition on_upstream (s : NativeState) (item : option (result string unit)) (after : Z)
    : NativeState :=
  match item with
  | Some (Ok bytes) =>
      if is_empty bytes then s else
      let '(tracker, activity) := feed (ns_tracker s) bytes in
      let s := set_tracker s tracker in
      let s := if sa_provider_event activity then
                 set_times s (deadline_after after (sc_heartbeat_interval (ns_config s)))
                   (Some after)
               else s in
      let s := push_back s (UpstreamChunk bytes) in
      if bool_decide (sa_terminal activity = Some BufferLimitExceeded) then
        queue_failure s BufferLimitExceeded
      else if sa_error activity || is_some (sa_terminal activity) then set_finish s true
      else s
  | Some (Err _) => queue_failure s TransportFailure
  | None =>
      let s := set_tracker s (finish_eof (ns_tracker s)).1 in
      match tr_terminal (ns_tracker s) with
      | Some _ => set_finish s true
      | None =>
          if negb (tr_saw_provider_event (ns_tracker s)) then queue_failure s EmptyStream
          else if tr_saw_sse_frame (ns_tracker s) then
            if bool_decide (ns_protocol s = OpenAiChatCompletions)
               && tr_saw_chat_finish (ns_tracker s)
               && bool_decide (tr_unfinished_chat_choices (ns_tracker s) = ∅) then
              let s := set_tracker s (mark_completed_after_eof (ns_tracker s)) in
              set_finish (push_back s CHAT_DONE) true
            else queue_failure s IncompleteStream
          else set_finish s true
      end
  end.

(** One turn of the loop; [None] when the chosen branch of [select!] is
    disabled, which never happens. *)
Definition iterate (s : NativeState) (turn : Turn) : option NativeState :=
  match expired s (tn_now turn) with
  | Some termination => Some (queue_failure s termination)
  | None =>
      match tn_ready turn with
      | RUpstream item => Some (on_upstream s item (tn_after turn))
      | RTotal =>
          if is_some (total_deadline s) then Some (queue_failure s TotalTimeout) else None
      | RFirst =>
          if is_some (first_deadline s) then Some (queue_failure s FirstEventTimeout) else None
      | RIdle => if is_some (idle_deadline s) then Some (queue_failure s IdleTimeout) else None
      | RHeartbeat =>
          if is_some (ns_next_heartbeat s) then
            let s := if safe_for_heartbeat (ns_tracker s) then push_back s HEARTBEAT else s in
            Some (set_times s
                    (deadline_after (tn_after turn) (sc_heartbeat_interval (ns_config s)))
                    (ns_last_event s))
          else None
      end
  end.

Inductive Poll : Type :=
| Yield (item : Item) (s : NativeState) (turns : list Turn)
| End (s : NativeState) (turns : list Turn)
| Waiting (s : NativeState)
| Disabled.

(** [next_native]: one downstream poll; [Waiting] when the environment gives
    no further answer. *)
Fixpoint next_native (s : NativeState) (turns : list Turn) : Poll :=
  match ns_pending s with
  | item :: rest => Yield item (set_pending s rest) turns
  | [] =>
      if ns_done s || ns_finish_after_pending s then End (set_done s true) turns
      else match turns with
           | [] => Waiting s
           | turn :: turns =>
               match iterate s turn with
               | Some s => next_native s turns
               | None => Disabled
               end
           end
  end.

(** ** The wrapper as a labelled transition system *)

Inductive Label : Type := Emit (item : Item) | Take (bytes : string) | Tau | Finish.

(** The chunk a turn takes from the upstream. *)
Definition turn_label (s : NativeState) (turn : Turn) : Label :=
  match expired s (tn_now turn), tn_ready turn with
  | None, RUpstream (Some (Ok bytes)) => if is_empty bytes then Tau else Take bytes
  | _, _ => Tau
  end.

Inductive native_step : NativeState -> Label -> NativeState -> Prop :=
| StepEmit s item rest :
    ns_pending s = item :: rest -> native_step s (Emit item) (set_pending s rest)
| StepFinish s :
    ns_pending s = [] -> ns_done s || ns_finish_after_pending s = true ->
    native_step s Finish (set_done s true)
| StepTurn s turn s' :
    ns_pending s = [] -> ns_done s || ns_finish_after_pending s = false ->
    iterate s turn = Some s' -> native_step s (turn_label s turn) s'.

Inductive native_trace : NativeState -> list Label -> NativeState -> Prop :=
| TraceNil s : native_trace s [] s
| TraceSnoc s ls s1 l s2 :
    native_trace s ls s1 -> native_step s1 l s2 -> native_trace s (ls ++ [l]) s2.
End Native.

Definition emitted (ls : list Label) : list Item :=
  omap (fun l => match l with Emit i => Some i | _ => None end) ls.
Definition taken (ls : list Label) : list string :=
  omap (fun l => match l with Take b => Some b | _ => None end) ls.
Definition upstream_chunks (items : list Item) : list string :=
  omap (fun i => match i with UpstreamChunk b => Some b | GatewayFrame _ => None end) items.

(** ** The effect of a turn *)
Section Effects.
Context `{SerdeJson} `{InstantRange}.

(** A changed termination is also reported in the activity. *)
Definition reported (t t' : SseEventTracker) (a a' : SseActivity) : Prop :=
  (is_some (sa_terminal a) = true -> is_some (sa_terminal a') = true)
  /\ (tr_terminal t' = tr_terminal t \/ is_some (sa_terminal a') = true).

Lemma reported_trans t1 t2 t3 a1 a2 a3 :
  reported t1 t2 a1 a2 -> reported t2 t3 a2 a3 -> reported t1 t3 a1 a3.
Proof.
  intros [H1 H2] [H3 H4]. split; [tauto|]. destruct H4 as [->|?]; [|by right].
  destruct H2; [by left|right; tauto].
Qed.

Lemma merge_terminal_some c x : is_some c = true -> is_some (merge_terminal c x) = true.
Proof. unfold merge_terminal. destruct c, x; try done. by repeat case_match. Qed.
Lemma merge_terminal_some_r c x : is_some (merge_terminal c (Some x)) = true.
Proof. unfold merge_terminal. destruct c; [|done]. by repeat case_match. Qed.

Lemma dispatch_reported t a : reported t (dispatch t a).1 a (dispatch t a).2.
Proof.
  unfold dispatch, reported. destruct (_ && _ && _); [split; [done|by left]|].
  set (data := join _ _). set (name := tr_event_name t).
  set (t0 := set_frame_non_comment (set_data_lines (set_event_name t "") []) false).
  destruct (observe_payload_shape t0 data) as [_ (u & i & c & f & Heq)].
  destruct (observe_payload t0 data) as [t1 lim]. cbn [fst] in Heq.
  assert (tr_terminal t1 = tr_terminal t) as Ht by (by subst t1).
  destruct lim; [split; [done|by right]|].
  destruct (classify_frame name data) as [[term err] [g|]];
    [split; cbn; [apply merge_terminal_some|right; apply merge_terminal_some_r]|].
  destruct (_ || _ || _); [|split; [done|by left]].
  destruct err; (split; cbn; [apply merge_terminal_some|]); [right; apply merge_terminal_some_r|].
  destruct term as [tm|]; [right; apply merge_terminal_some_r|by left].
Qed.

Lemma process_line_reported t a : reported t (process_line t a).1 a (process_line t a).2.
Proof.
  unfold process_line. destruct (tr_line t) as [|first line].
  { pose proof (dispatch_reported (set_frame_bytes (set_line t "") 0) a). done. }
  repeat case_match; (split; [done|by left]).
Qed.

Lemma feed_bytes_reported s : forall t a,
  reported t (feed_bytes t a s).1 a (feed_bytes t a s).2.
Proof.
  induction s as [|b s IH]; intros t a; cbn [feed_bytes]; [split; [done|by left]|].
  destruct (_ <=? _); [split; [done|by right]|]. destruct (Ascii.eqb b LF).
  - pose proof (process_line_reported (set_frame_bytes t (tr_frame_bytes t + 1)) a) as Hp.
    destruct (process_line _ a) as [t1 a1]. destruct (limit_reached t1); [done|].
    eapply reported_trans; [exact Hp|apply IH].
  - destruct (negb _); [|apply (IH (set_frame_bytes t _))].
    eapply reported_trans; [|apply IH]. unfold push_byte. by destruct (_ && _); split; [|left| |left].
Qed.

Lemma feed_reported t s :
  limit_reached t = false -> limit_reached (feed t s).1 = true ->
  is_some (sa_terminal (feed t s).2) = true.
Proof.
  intros Ht. unfold feed. rewrite Ht.
  assert (forall t0 a, tr_terminal t0 = tr_terminal t ->
    limit_reached (feed_bytes t0 a s).1 = true ->
    is_some (sa_terminal (feed_bytes t0 a s).2) = true) as Hgo.
  { intros t0 a Ht0 Hlim. destruct (feed_bytes_reported s t0 a) as [_ [Heq|?]]; [|done].
    unfold limit_reached in *. rewrite Heq, Ht0 in Hlim. congruence. }
  destruct (raw_event t s); by apply Hgo.
Qed.

(** The cases of [iterate]. *)
Inductive native_effect (s s' : NativeState) : Label -> Prop :=
| EffIdle :
    ns_pending s' = [] -> ns_tracker s' = ns_tracker s -> ns_finish_after_pending s' = false ->
    native_effect s s' Tau
| EffTake b :
    ns_pending s' = [UpstreamChunk b] -> ns_tracker s' = (feed (ns_tracker s) b).1 ->
    (ns_finish_after_pending s' = false ->
     limit_reached (ns_tracker s) = false -> limit_reached (ns_tracker s') = false) ->
    native_effect s s' (Take b)
| EffLimit b :
    ns_pending s' = [UpstreamChunk b; SEPARATOR; error_item (ns_protocol s) BufferLimitExceeded] ->
    ns_finish_after_pending s' = true -> native_effect s s' (Take b)
| EffFail term (sep : bool) :
    is_failure term = true ->
    ns_pending s' = (if sep then [SEPARATOR] else []) ++ [error_item (ns_protocol s) term] ->
    ns_finish_after_pending s' = true -> native_effect s s' Tau
| EffDone :
    ns_protocol s = OpenAiChatCompletions -> ns_pending s' = [CHAT_DONE] ->
    ns_finish_after_pending s' = true -> native_effect s s' Tau
| EffEof :
    ns_pending s' = [] -> ns_finish_after_pending s' = true -> native_effect s s' Tau
| EffHeartbeat :
    safe_for_heartbeat (ns_tracker s) = true -> ns_pending s' = [HEARTBEAT] ->
    ns_tracker s' = ns_tracker s -> ns_finish_after_pending s' = false ->
    native_effect s s' Tau.

Lemma queue_failure_effect s s0 term :
  is_failure term = true -> ns_pending s = [] -> ns_protocol s = ns_protocol s0 ->
  native_effect s0 (queue_failure s term) Tau.
Proof.
  intros Hf Hp Hpr. unfold queue_failure. destruct (_ || _); cbn.
  - by apply (EffFail _ _ term true); cbn; rewrite ?Hp, ?Hpr.
  - by apply (EffFail _ _ term false); cbn; rewrite ?Hp, ?Hpr.
Qed.

Lemma on_upstream_effect s item after :
  ns_pending s = [] -> ns_finish_after_pending s = false ->
  native_effect s (on_upstream s item after)
    (match item with Some (Ok b) => if is_empty b then Tau else Take b | _ => Tau end).
Proof.
  intros Hp Hf. destruct item as [[b|u]|]; cbn [on_upstream].
  - destruct (is_empty b); [by apply EffIdle|].
    pose proof (feed_reported (ns_tracker s) b) as Hrep.
    destruct (feed (ns_tracker s) b) as [t a] eqn:Hfeed.
    assert (t = (feed (ns_tracker s) b).1) as Ht by (by rewrite Hfeed). cbn [fst snd] in Hrep.
    case_bool_decide as Hterm.
    { apply EffLimit; unfold queue_failure;
        rewrite (proj2 (orb_true_iff _ (term_eqb BufferLimitExceeded BufferLimitExceeded)))
          by (by right); destruct (sa_provider_event a); cbn; by rewrite ?Hp. }
    destruct (sa_error a || is_some (sa_terminal a)) eqn:He.
    { apply EffTake; destruct (sa_provider_event a); cbn; by rewrite ?Hp. }
    apply orb_false_iff in He as [_ He].
    apply EffTake; [by destruct (sa_provider_event a); cbn; rewrite Hp
                   |by destruct (sa_provider_event a)|].
    intros _ Hl. specialize (Hrep Hl). rewrite He in Hrep.
    destruct (sa_provider_event a); cbn; destruct (limit_reached t); naive_solver.
  - by apply queue_failure_effect.
  - set (t := (finish_eof (ns_tracker s)).1). cbn [ns_tracker set_tracker].
    destruct (tr_terminal t); [by apply EffEof|].
    destruct (negb _); [by apply queue_failure_effect|].
    destruct (tr_saw_sse_frame t); [|by apply EffEof].
    destruct (_ && _ && _) eqn:Hc; [|by apply queue_failure_effect].
    bool_to_prop. apply EffDone; cbn; [done|by rewrite Hp|done].
Qed.

Lemma iterate_effect s turn s' :
  ns_pending s = [] -> ns_finish_after_pending s = false -> iterate s turn = Some s' ->
  native_effect s s' (turn_label s turn).
Proof.
  intros Hp Hf. unfold iterate, turn_label. destruct (expired s (tn_now turn)) as [t|] eqn:He.
  { intros [= <-]. apply queue_failure_effect; [|done..].
    unfold expired in He. by repeat case_match; simplify_eq. }
  destruct (tn_ready turn) as [item| | | |].
  - intros [= <-]. pose proof (on_upstream_effect s item (tn_after turn) Hp Hf).
    by destruct item as [[]|].
  - destruct (is_some _); [|done]. intros [= <-]. by apply queue_failure_effect.
  - destruct (is_some _); [|done]. intros [= <-]. by apply queue_failure_effect.
  - destruct (is_some _); [|done]. intros [= <-]. by apply queue_failure_effect.
  - destruct (is_some _); [|done]. intros [= <-].
    destruct (safe_for_heartbeat (ns_tracker s)) eqn:Hs.
    + apply EffHeartbeat; cbn; by rewrite ?Hp.
    + by apply EffIdle.
Qed.

Lemma iterate_protocol s turn s' : iterate s turn = Some s' -> ns_protocol s' = ns_protocol s.
Proof.
  unfold iterate, on_upstream, queue_failure. intros Hi.
  repeat (case_match; simplify_eq/=; try done).
Qed.
End Effects.

(** ** The invariant of every schedule *)

(** Every item queued so far, emitted or pending. *)
Definition queued (ls : list Label) (s : NativeState) : list Item := emitted ls ++ ns_pending s.

Definition plain (i : Item) : Prop :=
  match i with UpstreamChunk _ => True | GatewayFrame _ => i = HEARTBEAT end.

(** The frames the gateway may end a stream with. *)
Definition closing `{SerdeJson} (p : Protocol) (tail : list Item) : Prop :=
  (exists term, is_failure term = true
     /\ (tail = [error_item p term] \/ tail = [SEPARATOR; error_item p term]))
  \/ (p = OpenAiChatCompletions /\ tail = [CHAT_DONE]).

Section Invariant.
Context `{SerdeJson} `{InstantRange}.

Record native_inv (p : Protocol) (ls : list Label) (s : NativeState) : Prop := {
  ni_protocol : ns_protocol s = p;
  ni_pass : upstream_chunks (queued ls s) = taken ls;
  ni_shape : exists body tail, queued ls s = body ++ tail /\ Forall plain body
    /\ (tail = [] \/ (ns_finish_after_pending s = true /\ closing p tail));
  ni_tracks : ns_finish_after_pending s = false ->
    limit_reached (ns_tracker s) = false /\ tracks (ns_tracker s) (join "" (taken ls));
  ni_heartbeat : forall l1 l2, queued ls s = l1 ++ HEARTBEAT :: l2 ->
    heartbeat_position (join "" (upstream_chunks l1));
}.

Lemma join_cons y l : join "" (y :: l) = y +:+ join "" l.
Proof. destruct l; [by rewrite string_app_nil_r|done]. Qed.

Lemma join_snoc l x : join "" (l ++ [x]) = join "" l +:+ x.
Proof.
  induction l as [|y l IH]; [done|]. cbn [app]. by rewrite !join_cons, IH, string_app_assoc.
Qed.

Lemma upstream_chunks_app l l' : upstream_chunks (l ++ l') = upstream_chunks l ++ upstream_chunks l'.
Proof. apply omap_app. Qed.

(** New items that are no heartbeat add no heartbeat position. *)
Lemma heartbeat_split (old new l1 l2 : list Item) :
  HEARTBEAT ∉ new -> old ++ new = l1 ++ HEARTBEAT :: l2 -> exists l2', old = l1 ++ HEARTBEAT :: l2'.
Proof.
  intros Hnew Heq. apply app_eq_app in Heq as [k [[-> Hk]|[-> Hk]]].
  - destruct k as [|i k]; [|injection Hk as -> _; by exists k].
    cbn in Hk. subst new. set_solver.
  - exfalso. apply Hnew. rewrite Hk. set_solver.
Qed.

Lemma native_inv_new config started connected p :
  native_inv p [] (NativeState_new p config started connected).
Proof.
  split; cbn; try done.
  - exists [], []. split_and!; [done|constructor|by left].
  - intros _. split; [done|apply default_tracks].
  - intros l1 l2 Hq. by destruct l1.
Qed.

(** Items that end the stream. *)
Lemma native_inv_close p ls s s' tail :
  native_inv p ls s -> ns_pending s = [] -> ns_finish_after_pending s = false ->
  ns_protocol s' = p -> ns_pending s' = tail -> ns_finish_after_pending s' = true ->
  upstream_chunks tail = [] -> HEARTBEAT ∉ tail -> (tail = [] \/ closing p tail) ->
  native_inv p (ls ++ [Tau]) s'.
Proof.
  intros [_ Hpass Hshape _ Hhb] Hp Hf Hpr Hp' Hf' Hup Hno Htail.
  assert (queued (ls ++ [Tau]) s' = queued ls s ++ tail) as Hq.
  { unfold queued, emitted. rewrite omap_app, Hp', Hp. cbn. by rewrite !app_nil_r. }
  assert (taken (ls ++ [Tau]) = taken ls) as Ht
    by (unfold taken; rewrite omap_app; cbn; by rewrite app_nil_r).
  split; rewrite ?Hq, ?Ht; [done| | |congruence|].
  - rewrite upstream_chunks_app, Hup, app_nil_r. done.
  - destruct Hshape as (body & tl & Heq & Hb & [->|[Hbad _]]); [|congruence].
    rewrite app_nil_r in Heq. exists body, tail. rewrite Heq. split_and!; [done|done|].
    destruct Htail; [by left|by right].
  - intros l1 l2 Hl. destruct (heartbeat_split _ _ _ _ Hno Hl) as [l2' Hold]. by eapply Hhb.
Qed.

Lemma native_inv_idle p ls s s' :
  native_inv p ls s -> ns_pending s = [] -> ns_protocol s' = p -> ns_pending s' = [] ->
  ns_tracker s' = ns_tracker s -> ns_finish_after_pending s = false ->
  native_inv p (ls ++ [Tau]) s'.
Proof.
  intros [_ Hpass Hshape Htr Hhb] Hp Hpr Hp' Ht Hf.
  assert (queued (ls ++ [Tau]) s' = queued ls s) as Hq.
  { unfold queued, emitted. rewrite omap_app, Hp', Hp. cbn. by rewrite !app_nil_r. }
  assert (taken (ls ++ [Tau]) = taken ls) as Htk
    by (unfold taken; rewrite omap_app; cbn; by rewrite app_nil_r).
  split; rewrite ?Hq, ?Htk, ?Ht; try done; [|intros _; by apply Htr].
  destruct Hshape as (body & tl & Heq & Hb & [->|[Hbad _]]); [|congruence].
  exists body, []. split_and!; [done|done|by left].
Qed.

Lemma native_inv_heartbeat p ls s s' :
  native_inv p ls s -> ns_pending s = [] -> ns_protocol s' = p -> ns_pending s' = [HEARTBEAT] ->
  ns_tracker s' = ns_tracker s -> ns_finish_after_pending s = false ->
  safe_for_heartbeat (ns_tracker s) = true -> native_inv p (ls ++ [Tau]) s'.
Proof.
  intros [_ Hpass Hshape Htr Hhb] Hp Hpr Hp' Ht Hf Hsafe.
  assert (queued (ls ++ [Tau]) s' = queued ls s ++ [HEARTBEAT]) as Hq.
  { unfold queued, emitted. rewrite omap_app, Hp', Hp. cbn. by rewrite !app_nil_r. }
  assert (taken (ls ++ [Tau]) = taken ls) as Htk
    by (unfold taken; rewrite omap_app; cbn; by rewrite app_nil_r).
  destruct (Htr Hf) as [Hlim Htracks].
  split; rewrite ?Hq, ?Htk, ?Ht; [done| | |done|].
  - rewrite upstream_chunks_app. cbn. by rewrite app_nil_r.
  - destruct Hshape as (body & tl & Heq & Hb & [->|[Hbad _]]); [|congruence].
    rewrite app_nil_r in Heq. exists (body ++ [HEARTBEAT]), []. rewrite Heq, app_nil_r.
    split_and!; [done| |by left]. apply Forall_app. split; [done|]. by constructor.
  - intros l1 l2 Hl. destruct l2 as [|x l2 _] using rev_ind.
    + apply app_inj_tail in Hl as [<- _]. rewrite Hpass. by eapply safe_position.
    + rewrite app_comm_cons, app_assoc in Hl. apply app_inj_tail in Hl as [Hl _]. by eapply Hhb.
Qed.

Lemma native_inv_take p ls s s' b tail :
  native_inv p ls s -> ns_pending s = [] -> ns_finish_after_pending s = false ->
  ns_protocol s' = p -> ns_pending s' = UpstreamChunk b :: tail ->
  upstream_chunks tail = [] -> HEARTBEAT ∉ tail ->
  (tail = [] \/ (ns_finish_after_pending s' = true /\ closing p tail)) ->
  (ns_finish_after_pending s' = false ->
   ns_tracker s' = (feed (ns_tracker s) b).1 /\ limit_reached (ns_tracker s') = false) ->
  native_inv p (ls ++ [Take b]) s'.
Proof.
  intros [_ Hpass Hshape Htr Hhb] Hp Hf Hpr Hp' Hup Hno Htail Htk'.
  assert (queued (ls ++ [Take b]) s' = queued ls s ++ UpstreamChunk b :: tail) as Hq.
  { unfold queued, emitted. rewrite omap_app, Hp', Hp. cbn. by rewrite !app_nil_r. }
  assert (taken (ls ++ [Take b]) = taken ls ++ [b]) as Htk
    by (unfold taken; by rewrite omap_app).
  split; rewrite ?Hq, ?Htk; [done| | | |].
  - rewrite upstream_chunks_app, Hpass. cbn. fold (upstream_chunks tail). by rewrite Hup.
  - destruct Hshape as (body & tl & Heq & Hb & [->|[Hbad _]]); [|congruence].
    rewrite app_nil_r in Heq. exists (body ++ [UpstreamChunk b]), tail.
    rewrite Heq, <- app_assoc. split_and!; [done| |done]. apply Forall_app. split; [done|].
    by constructor.
  - intros Hf'. destruct (Htk' Hf') as [Ht Hlim]. destruct (Htr Hf) as [_ Htracks].
    split; [done|]. rewrite join_snoc, Ht in *. by apply feed_tracks.
  - intros l1 l2 Hl. destruct (heartbeat_split (queued ls s) (UpstreamChunk b :: tail) l1 l2)
      as [l2' Hold]; [set_solver|done|]. by eapply Hhb.
Qed.
End Invariant.

Section Traces.
Context `{SerdeJson} `{InstantRange}.

(** Steps that only move items or set [done]. *)
Lemma native_inv_move p ls s l s' :
  native_inv p ls s -> queued (ls ++ [l]) s' = queued ls s -> taken (ls ++ [l]) = taken ls ->
  ns_protocol s' = ns_protocol s -> ns_tracker s' = ns_tracker s ->
  ns_finish_after_pending s' = ns_finish_after_pending s -> native_inv p (ls ++ [l]) s'.
Proof.
  intros [Hpr Hpass Hshape Htr Hhb] Hq Ht Hp Htk Hf.
  split; rewrite ?Hq, ?Ht, ?Hf, ?Htk; try done. congruence.
Qed.

Lemma error_item_plain p term : HEARTBEAT ∉ [SEPARATOR; error_item p term]
  /\ HEARTBEAT ∉ [error_item p term].
Proof.
  assert (HEARTBEAT <> error_item p term) as He.
  { intros Heq. apply (f_equal item_bytes) in Heq. cbn in Heq. unfold gateway_error_frame in Heq.
    by destruct p. }
  split; set_solver.
Qed.

Lemma native_inv_step p ls s l s' :
  native_inv p ls s -> (ns_done s = true -> ns_finish_after_pending s = true) ->
  native_step s l s' -> native_inv p (ls ++ [l]) s'.
Proof.
  intros Hinv Hdone Hstep. destruct Hstep as [s item rest Hp|s Hp Hd|s turn s' Hp Hd Hi].
  - apply (native_inv_move p ls s); try done.
    + unfold queued, emitted. rewrite omap_app, Hp. cbn. by rewrite <- app_assoc.
    + unfold taken. rewrite omap_app. cbn. by rewrite app_nil_r.
  - apply (native_inv_move p ls s); try done.
    + unfold queued, emitted. rewrite omap_app, Hp. cbn. by rewrite Hp, !app_nil_r.
    + unfold taken. rewrite omap_app. cbn. by rewrite app_nil_r.
  - apply orb_false_iff in Hd as [_ Hf]. pose proof (ni_protocol _ _ _ Hinv) as Hpr.
    pose proof (iterate_protocol _ _ _ Hi) as Hpr'. rewrite Hpr in Hpr'.
    destruct (ni_tracks _ _ _ Hinv Hf) as [Hlim _].
    destruct (error_item_plain p BufferLimitExceeded) as [Hb _].
    destruct (iterate_effect _ _ _ Hp Hf Hi) as
      [Hp' Ht Hf'|b Hp' Ht Hl|b Hp' Hf'|term sep Hfail Hp' Hf'|Hc Hp' Hf'|Hp' Hf'|Hs Hp' Ht Hf'];
      rewrite ?Hpr in *.
    + by apply (native_inv_idle p ls s).
    + apply (native_inv_take p ls s _ b []); try done; [set_solver|by left|auto].
    + apply (native_inv_take p ls s _ b _ Hinv Hp Hf Hpr' Hp'); try done; [|congruence].
      right. split; [done|]. left. exists BufferLimitExceeded. split; [done|by right].
    + destruct (error_item_plain p term) as [He1 He2].
      apply (native_inv_close p ls s s' _ Hinv Hp Hf Hpr' Hp' Hf'); destruct sep; try done;
        right; left; exists term; split; auto.
    + apply (native_inv_close p ls s s' _ Hinv Hp Hf Hpr' Hp' Hf'); try done; [set_solver|].
      right; right. by split.
    + apply (native_inv_close p ls s s' _ Hinv Hp Hf Hpr' Hp' Hf'); [done|set_solver|by left].
    + by apply (native_inv_heartbeat p ls s).
Qed.

(** [done] is only ever set at the end. *)
Lemma iterate_done s turn s' : iterate s turn = Some s' -> ns_done s' = ns_done s.
Proof.
  unfold iterate, on_upstream, queue_failure. intros Hi.
  repeat (case_match; simplify_eq/=; try done).
Qed.

Lemma native_trace_inv p config started connected ls s :
  native_trace (NativeState_new p config started connected) ls s ->
  native_inv p ls s /\ (ns_done s = true -> ns_finish_after_pending s = true).
Proof.
  remember (NativeState_new p config started connected) as s0 eqn:Hs0.
  induction 1 as [s|s ls s1 l s2 Htr IH Hstep]; subst.
  - split; [apply native_inv_new|done].
  - destruct (IH eq_refl) as [Hinv Hd]. split; [by eapply native_inv_step|].
    destruct Hstep as [s1 item rest Hp|s1 Hp Hdd|s1 turn s2 Hp Hdd Hi]; [done| |].
    + cbn. intros _. apply orb_true_iff in Hdd as [?|?]; [by apply Hd|done].
    + apply orb_false_iff in Hdd as [Hnd _]. rewrite (iterate_done _ _ _ Hi), Hnd. done.
Qed.

(** Every poll of the executable [next_native] is a trace. *)
Definition poll_state (r : Poll) : option (NativeState * option Item) :=
  match r with
  | Yield i s _ => Some (s, Some i)
  | End s _ | Waiting s => Some (s, None)
  | Disabled => None
  end.

Lemma native_trace_cons s l s1 ls s2 :
  native_step s l s1 -> native_trace s1 ls s2 -> native_trace s (l :: ls) s2.
Proof.
  intros Hstep Htr. induction Htr as [s1|s1 ls s2 l' s3 Htr IH Hst].
  - apply (TraceSnoc s [] s l s1); [constructor|done].
  - rewrite app_comm_cons. eapply TraceSnoc; [by apply IH|done].
Qed.

Lemma next_native_trace turns : forall s s' i,
  poll_state (next_native s turns) = Some (s', i) ->
  exists ls, native_trace s ls s' /\ emitted ls = option_list i.
Proof.
  induction turns as [|turn turns IH]; intros s s' i; cbn [next_native].
  - destruct (ns_pending s) as [|item rest] eqn:Hp.
    + destruct (_ || _) eqn:Hd; cbn; intros [= <- <-].
      * exists [Finish]. split; [|done]. eapply native_trace_cons; [by apply StepFinish|constructor].
      * exists []. split; [constructor|done].
    + cbn. intros [= <- <-]. exists [Emit item]. split; [|done].
      eapply native_trace_cons; [by apply StepEmit|constructor].
  - destruct (ns_pending s) as [|item rest] eqn:Hp.
    + destruct (_ || _) eqn:Hd.
      { cbn; intros [= <- <-]. exists [Finish]. split; [|done].
        eapply native_trace_cons; [by apply StepFinish|constructor]. }
      destruct (iterate s turn) as [s1|] eqn:Hi; [|done].
      intros Hn. destruct (IH _ _ _ Hn) as (ls & Htr & He). exists (turn_label s turn :: ls).
      split; [eapply native_trace_cons; [by apply StepTurn|done]|].
      rewrite <- He. unfold turn_label. by repeat case_match.
    + cbn. intros [= <- <-]. exists [Emit item]. split; [|done].
      eapply native_trace_cons; [by apply StepEmit|constructor].
Qed.
End Traces.

(** C17. Pass-through: for every schedule of upstream chunks, timers and
    downstream polls, the upstream bytes handed to the client so far, followed
    by those still queued, are exactly the chunks taken from the upstream, in
    order and unmodified. *)
Theorem native_passthrough `{SerdeJson} `{InstantRange} p config started connected ls s
    (Htr : native_trace (NativeState_new p config started connected) ls s) :
  upstream_chunks (emitted ls) ++ upstream_chunks (ns_pending s) = taken ls.
Proof.
  destruct (native_trace_inv _ _ _ _ _ _ Htr) as [Hinv _].
  rewrite <- upstream_chunks_app. exact (ni_pass _ _ _ Hinv).
Qed.

(** Gateway frames: every schedule produces upstream chunks and
    heartbeats, then at most one closing group - one error frame (after a
    separator when a provider frame was cut) or, for Chat Completions, the
    missing [DONE] - and nothing after it. *)
Theorem native_single_closing_frame `{SerdeJson} `{InstantRange} p config started connected ls s
    (Htr : native_trace (NativeState_new p config started connected) ls s) :
  exists body tail, emitted ls ++ ns_pending s = body ++ tail /\ Forall plain body
    /\ (tail = [] \/ (ns_finish_after_pending s = true /\ closing p tail)).
Proof. destruct (native_trace_inv _ _ _ _ _ _ Htr) as [Hinv _]. exact (ni_shape _ _ _ Hinv). Qed.

(** Heartbeats never cut a provider frame: wherever the client receives
    a heartbeat, the upstream bytes before it end at a frame boundary followed
    only by lines every SSE client ignores. *)
Theorem native_heartbeat_at_boundary `{SerdeJson} `{InstantRange} p config started connected ls s
    l1 l2 (Htr : native_trace (NativeState_new p config started connected) ls s)
    (Hhb : emitted ls = l1 ++ HEARTBEAT :: l2) :
  heartbeat_position (join "" (upstream_chunks l1)).
Proof.
  destruct (native_trace_inv _ _ _ _ _ _ Htr) as [Hinv _].
  apply (ni_heartbeat _ _ _ Hinv l1 (l2 ++ ns_pending s)). unfold queued. rewrite Hhb.
  by rewrite <- app_assoc.
Qed.

(** ** Executable schedules *)
Section Exec.
Context `{SerdeJson} `{InstantRange}.

(** [Some turn] is a turn of the loop, [None] a downstream poll that finds
    an item queued or the stream finished. *)
Definition step_exec (s : NativeState) (o : option Turn) : option (Label * NativeState) :=
  match ns_pending s, o with
  | item :: rest, None => Some (Emit item, set_pending s rest)
  | [], None =>
      if ns_done s || ns_finish_after_pending s then Some (Finish, set_done s true) else None
  | [], Some turn =>
      if ns_done s || ns_finish_after_pending s then None
      else match iterate s turn with Some s' => Some (turn_label s turn, s') | None => None end
  | _ :: _, Some _ => None
  end.

Fixpoint exec (s : NativeState) (sched : list (option Turn)) : option (list Label * NativeState) :=
  match sched with
  | [] => Some ([], s)
  | o :: sched =>
      match step_exec s o with
      | Some (l, s1) =>
          match exec s1 sched with Some (ls, s2) => Some (l :: ls, s2) | None => None end
      | None => None
      end
  end.

Lemma exec_trace sched : forall s ls s', exec s sched = Some (ls, s') -> native_trace s ls s'.
Proof.
  induction sched as [|o sched IH]; intros s ls s'; cbn [exec]; [intros [= <- <-]; constructor|].
  destruct (step_exec s o) as [[l s1]|] eqn:E; [|done].
  destruct (exec s1 sched) as [[ls1 s2]|] eqn:E2; [|done]. intros [= <- <-].
  eapply native_trace_cons; [|by apply IH]. unfold step_exec in E.
  destruct (ns_pending s) as [|item rest] eqn:Hp, o as [turn|]; try done.
  - destruct (_ || _) eqn:Hd; [done|]. destruct (iterate s turn) eqn:Hi; [|done].
    injection E as <- <-. by apply StepTurn.
  - destruct (_ || _) eqn:Hd; [|done]. injection E as <- <-. by apply StepFinish.
  - injection E as <- <-. by apply StepEmit.
Qed.
End Exec.

(** A stream with an event, a heartbeat and an idle timeout. *)
Definition example_event : string := "data: {}" +:+ bstr LF +:+ bstr LF.
Definition example_schedule : list (option Turn) :=
  [Some (mkTurn 0 (RUpstream (Some (Ok example_event))) 1); None;
   Some (mkTurn 2 RHeartbeat 3); None;
   Some (mkTurn 4 (RUpstream (Some (Ok "data: x"))) 5); None;
   Some (mkTurn 6 RIdle 7); None; None; None].
Definition example_start : NativeState :=
  @NativeState_new (10 ^ 30) OpenAiResponses StreamConfig_default 0 0.
Definition example_labels : list Label :=
  match @exec json_concrete (10 ^ 30) example_start example_schedule with
  | Some (ls, _) => ls
  | None => []
  end.
Definition example_final : NativeState :=
  match @exec json_concrete (10 ^ 30) example_start example_schedule with
  | Some (_, s) => s
  | None => example_start
  end.

Lemma example_trace :
  @native_trace json_concrete (10 ^ 30) example_start example_labels example_final.
Proof. apply (exec_trace (H := json_concrete) example_schedule). vm_compute. reflexivity. Qed.

Lemma native_passthrough_witness :
  upstream_chunks (emitted example_labels) ++ upstream_chunks (ns_pending example_final)
    = taken example_labels
  /\ taken example_labels = [example_event; "data: x"].
Proof.
  split; [|vm_compute; reflexivity].
  exact (@native_passthrough json_concrete (10 ^ 30) _ _ _ _ _ _ example_trace).
Defined.

Lemma native_single_closing_frame_witness :
  exists body tail, emitted example_labels ++ ns_pending example_final = body ++ tail
    /\ Forall plain body
    /\ (tail = [] \/ (ns_finish_after_pending example_final = true
                      /\ @closing json_concrete OpenAiResponses tail)).
Proof.
  exact (@native_single_closing_frame json_concrete (10 ^ 30) _ _ _ _ _ _ example_trace).
Defined.

Lemma native_heartbeat_at_boundary_witness :
  heartbeat_position (join "" (upstream_chunks [UpstreamChunk example_event])).
Proof.
  apply (@native_heartbeat_at_boundary json_concrete (10 ^ 30) _ _ _ _ _ _
           [UpstreamChunk example_event]
           [UpstreamChunk "data: x"; SEPARATOR;
            @error_item json_concrete OpenAiResponses IdleTimeout] example_trace).
  vm_compute. reflexivity.
Defined.
