(* ===== verification/Frames.v ===== *)
(** * Gateway error frames are read back

    The frame [gateway_error_frame] writes ([src/src/proxy/stream.rs]) is
    classified by the tracker as the very termination it was written for, so
    that the accounting observer, which only sees the outgoing bytes, agrees
    with the wrapper that produced them. *)

From Stdlib Require Import ZArith Lia Ascii.
From stdpp Require Import base list strings gmap.
From S2P Require Import Prelude.
From S2P Require Import RustStr.
From S2P Require Import Protocol.
From S2P Require Import Health.
From S2P Require Import Json.
From S2P Require Import Usage.
From S2P Require Import Stream.
From S2P Require Import StreamProps.

(** ** Trimming printable text *)

Definition line_byte (a : ascii) : bool := byte_in a 32 126.

Lemma line_byte_lf a : line_byte a = true -> Ascii.eqb a LF = false /\ Ascii.eqb a CR = false.
Proof.
  unfold line_byte. intros Ha.
  split; (destruct (Ascii.eqb_spec a LF) as [->|]; [done|]);
    (destruct (Ascii.eqb_spec a CR) as [->|]; done).
Qed.

Lemma line_text_ascii s : sall line_byte s = true -> is_ascii s = true.
Proof.
  unfold is_ascii. induction s as [|a s IH]; [done|]. cbn [sall]. intros Hs. bool_to_prop.
  rewrite IH by done. apply andb_true_iff. split; [|done].
  unfold line_byte, byte_in in *. bool_to_prop. apply andb_true_iff. rewrite !Z.leb_le. lia.
Qed.

(** ** Feeding one line *)

(** The tracker while the bytes of a line arrive. *)
Definition with_line (t : SseEventTracker) (l : string) (fnc : bool) : SseEventTracker :=
  set_frame_non_comment (set_line (set_frame_bytes t (tr_frame_bytes t + slen l)) l)
    (tr_frame_non_comment t || fnc).

Definition visible_start (l : string) : bool :=
  match l with
  | EmptyString => false
  | String a _ => negb (Ascii.eqb a ":"%char || Ascii.eqb a " "%char)
  end.

Section Lines.
Context `{SerdeJson}.

Lemma feed_more l : forall t a k rest,
  sall line_byte l = true -> tr_frame_bytes t + slen k + slen l <= MAX_SSE_FRAME_BYTES ->
  feed_bytes (with_line t k (visible_start k)) a (l +:+ rest) =
  feed_bytes (with_line t (k +:+ l) (visible_start (k +:+ l))) a rest.
Proof.
  induction l as [|c l IH]; intros t a k rest Hl Hlen.
  { by rewrite string_app_nil_r. }
  cbn [sall] in Hl. apply andb_true_iff in Hl as [Hc Hl]. rewrite slen_cons in Hlen.
  pose proof (slen_nonneg l) as Hpos. destruct (line_byte_lf c Hc) as [Hlf Hcr].
  change (String c l +:+ rest) with (String c (l +:+ rest)). cbn [feed_bytes].
  rewrite (proj2 (Z.leb_gt _ _)) by (cbn; lia). rewrite Hlf, Hcr. cbn [negb].
  assert (k +:+ String c l = (k +:+ bstr c) +:+ l) as -> by (by rewrite string_app_assoc).
  rewrite <- (IH t a (k +:+ bstr c)) by (first [done | rewrite slen_app; change (slen (bstr c)) with 1; lia]).
  f_equal. unfold push_byte, with_line. cbn. rewrite slen_app. change (slen (bstr c)) with 1.
  destruct k as [|d k].
  - change ("" +:+ bstr c) with (bstr c). change (slen "") with 0. cbn.
    destruct (negb _); cbn; [by rewrite orb_true_r, Z.add_assoc|].
    unfold set_line, set_frame_bytes, set_frame_non_comment. cbn. rewrite !orb_false_r. f_equal. lia.
  - cbn. change (String d k +:+ bstr c) with (String d (k +:+ bstr c)). cbn.
    unfold set_line, set_frame_bytes, set_frame_non_comment. cbn. f_equal. lia.
Qed.

(** A complete line is processed at its end. *)
Lemma feed_line t a l rest :
  tr_line t = "" -> sall line_byte l = true ->
  tr_frame_bytes t + slen l + 1 <= MAX_SSE_FRAME_BYTES ->
  feed_bytes t a (l +:+ bstr LF +:+ rest) =
  (let '(t1, a1) := process_line
     (set_frame_bytes (with_line t l (visible_start l)) (tr_frame_bytes t + slen l + 1)) a in
   if limit_reached t1 then (t1, a1) else feed_bytes t1 a1 rest).
Proof.
  intros Hline Hl Hlen. assert (t = with_line t "" (visible_start "")) as Ht.
  { destruct t. cbn in *. unfold with_line. cbn. rewrite orb_false_r, Z.add_0_r. by subst. }
  rewrite Ht at 1. rewrite (feed_more l t a "" (bstr LF +:+ rest)) by (first [done | change (slen "") with 0; lia]).
  change ("" +:+ l) with l. change (bstr LF +:+ rest) with (String LF rest). cbn [feed_bytes].
  rewrite (proj2 (Z.leb_gt _ _)) by (cbn [tr_frame_bytes with_line set_frame_bytes set_line
    set_frame_non_comment]; lia). done.
Qed.
End Lines.

(** ** The round trip *)

(** A compact serialisation of an object in printable ASCII. *)
Definition object_text (body : string) : Prop :=
  sall line_byte body = true /\ exists mid, body = String "{" (mid +:+ bstr "}"%char).

Section RoundTrip.
Context `{SerdeJson}.

(** A data line of the frame. *)
Lemma process_data_line t a body :
  tr_line t = "data: " +:+ body -> sall line_byte body = true ->
  (exists c mid d, body = String c (mid +:+ bstr d) /\ byte_in c 33 126 = true
     /\ byte_in d 33 126 = true) ->
  process_line t a =
  (set_data_lines (set_saw_sse_frame (set_line t "") true) (tr_data_lines t ++ [body]), a).
Proof.
  intros Hline Hb (c & mid & d & Hbody & Hc & Hd). unfold process_line. rewrite Hline.
  assert (from_utf8_lossy ("data: " +:+ body) = "data: " +:+ body) as Hu.
  { apply from_utf8_lossy_ascii, line_text_ascii. rewrite sall_app, Hb. done. }
  assert (trim ("data: " +:+ body) = "data: " +:+ body) as Ht.
  { rewrite Hbody. change ("data: " +:+ String c (mid +:+ bstr d))
      with (String "d" (("ata: " +:+ String c mid) +:+ bstr d)). by apply trim_visible. }
  assert (trim (" " +:+ body) = body) as Hv.
  { rewrite Hbody. unfold trim. change (" " +:+ String c (mid +:+ bstr d))
      with (String " " (String c (mid +:+ bstr d))). rewrite trim_start_space.
    apply (trim_visible c mid d Hc Hd). }
  rewrite Hu, Ht. change ("data: " +:+ body) with (String "d" ("ata: " +:+ body)) at 1.
  change (strip_prefix "event:" ("data: " +:+ body)) with (@None string).
  change ("data: " +:+ body) with ("data:" +:+ (" " +:+ body)).
  rewrite strip_prefix_app, Hv. done.
Qed.

Lemma limit_reached_terminal t t' :
  tr_terminal t = tr_terminal t' -> limit_reached t = limit_reached t'.
Proof. unfold limit_reached. by intros ->. Qed.

Lemma feed_blank t a rest :
  tr_line t = "" -> tr_frame_bytes t + 1 <= MAX_SSE_FRAME_BYTES ->
  feed_bytes t a (bstr LF +:+ rest) =
  (let '(t1, a1) := dispatch (set_frame_bytes (set_line t "") 0) a in
   if limit_reached t1 then (t1, a1) else feed_bytes t1 a1 rest).
Proof.
  intros Hline Hlen. change (bstr LF +:+ rest) with (String LF rest). cbn [feed_bytes].
  rewrite (proj2 (Z.leb_gt _ _)) by lia. change (Ascii.eqb LF LF) with true. cbv iota.
  unfold process_line. cbn [tr_line set_frame_bytes]. by rewrite Hline.
Qed.

(** Reading [data: body] and the blank line after it. *)
Lemma feed_data_frame t a body rest :
  tr_line t = "" -> tr_data_lines t = [] -> limit_reached t = false ->
  sall line_byte body = true ->
  (exists c mid d, body = String c (mid +:+ bstr d) /\ byte_in c 33 126 = true
     /\ byte_in d 33 126 = true) ->
  tr_frame_bytes t + slen body + 8 <= MAX_SSE_FRAME_BYTES ->
  exists tD, tr_data_lines tD = [body] /\ tr_event_name tD = tr_event_name t
    /\ tr_terminal tD = tr_terminal t /\ tr_line tD = "" /\ tr_frame_bytes tD = 0
    /\ feed_bytes t a ("data: " +:+ body +:+ bstr LF +:+ bstr LF +:+ rest) =
       (let '(t1, a1) := dispatch tD a in
        if limit_reached t1 then (t1, a1) else feed_bytes t1 a1 rest).
Proof.
  intros Hline Hdata Hlim Hb Hshape Hlen.
  assert (slen ("data: " +:+ body) = slen body + 6) as Hl by (rewrite slen_app; change (slen "data: ") with 6; lia).
  rewrite <- (string_app_assoc "data: " body).
  rewrite feed_line; [|done|by rewrite sall_app, Hb|lia].
  rewrite (process_data_line _ a body); [|done|done|done].
  match goal with |- context [limit_reached ?x] =>
    rewrite (limit_reached_terminal x t eq_refl); set (t1 := x) end.
  rewrite Hlim. exists (set_frame_bytes (set_line t1 "") 0).
  assert (tr_line t1 = "") as Hl1 by done.
  split_and!; [by cbn; rewrite Hdata|reflexivity..|].
  apply feed_blank; [done|]. cbn [t1 tr_frame_bytes set_data_lines set_saw_sse_frame set_line
    set_frame_bytes]. lia.
Qed.

(** A frame that carries a gateway code only merges the termination. *)
Lemma dispatch_gateway t a body v term :
  tr_data_lines t = [body] -> from_slice body = Some v -> get v "choices" = None ->
  classify_frame (tr_event_name t) body = (None, true, Some term) ->
  let t' := (dispatch t a).1 in
  tr_terminal t' = merge_terminal (tr_terminal t) (Some term) /\ tr_line t' = tr_line t
  /\ tr_data_lines t' = [] /\ tr_event_name t' = "" /\ tr_frame_bytes t' = tr_frame_bytes t.
Proof.
  intros Hd Hj Hc Hcl. unfold dispatch. rewrite Hd. cbn [join].
  rewrite bool_decide_false, andb_false_r by done. cbn [andb].
  unfold observe_payload. rewrite Hj. cbn [mbind option_bind]. rewrite Hc.
  cbn [mbind option_bind]. rewrite Hcl. cbn. done.
Qed.

Lemma gateway_code_payload p term :
  is_failure term = true -> gateway_code (error_payload p term) = Some (term_code term).
Proof. by destruct p, term. Qed.

Lemma termination_from_term_code term :
  is_failure term = true -> termination_from_code (term_code term) = Some term.
Proof. by destruct term. Qed.

Lemma object_text_visible body : object_text body ->
  exists c mid d, body = String c (mid +:+ bstr d) /\ byte_in c 33 126 = true
    /\ byte_in d 33 126 = true.
Proof. intros [_ [mid ->]]. by exists "{"%char, mid, "}"%char. Qed.

Lemma classify_error_frame p term name body :
  is_failure term = true -> object_text body ->
  from_slice body = Some (error_payload p term) -> name = "" \/ name = "error" ->
  classify_frame name body = (None, true, Some term).
Proof.
  intros Hf [Ha [mid Hb]] Hj Hn. unfold classify_frame.
  assert (trim body = body) as Ht by (subst body; by apply trim_visible).
  assert ((body =?s "[DONE]") = false) as Hd by (by subst body).
  assert (to_ascii_lowercase (trim name) = name) as Hl by (by destruct Hn as [->| ->]).
  rewrite Hl, Ht, Hd, Hj. cbn [mbind option_bind].
  rewrite gateway_code_payload, termination_from_term_code by done.
  by destruct Hn as [->| ->].
Qed.

Lemma payload_no_choices p term : get (error_payload p term) "choices" = None.
Proof. by destruct p. Qed.

(** The [event: error] line. *)
Lemma feed_event_line t a rest :
  tr_line t = "" -> limit_reached t = false -> tr_frame_bytes t + 13 <= MAX_SSE_FRAME_BYTES ->
  exists t1, tr_line t1 = "" /\ tr_data_lines t1 = tr_data_lines t /\ tr_event_name t1 = "error"
    /\ tr_terminal t1 = tr_terminal t /\ tr_frame_bytes t1 = tr_frame_bytes t + 13
    /\ feed_bytes t a ("event: error" +:+ bstr LF +:+ rest) = feed_bytes t1 a rest.
Proof.
  intros Hline Hlim Hlen. rewrite feed_line; [|done|done|].
  2: { change (slen "event: error") with 12. lia. }
  match goal with |- context [process_line ?x a] =>
    assert (process_line x a = (set_event_name (set_saw_sse_frame (set_line x "") true) "error", a))
      as -> by reflexivity; set (t1 := set_event_name (set_saw_sse_frame (set_line x "") true) "error")
  end.
  exists t1. split_and!; try reflexivity.
  - cbn [t1 tr_frame_bytes set_event_name set_saw_sse_frame set_line set_frame_bytes].
    change (slen "event: error") with 12. lia.
  - by rewrite (limit_reached_terminal t1 t eq_refl), Hlim.
Qed.

Lemma merge_terminal_failure c term :
  c = None \/ c = Some Completed -> is_failure term = true ->
  merge_terminal c (Some term) = Some term.
Proof. intros [->| ->] Hf; unfold merge_terminal; [done|]. by rewrite Hf. Qed.

Lemma merge_terminal_keeps term c :
  is_failure term = true -> merge_terminal (Some term) c = Some term.
Proof.
  intros Hf. unfold merge_terminal. destruct c as [c|]; [|done]. rewrite Hf.
  unfold is_failure in Hf. apply negb_true_iff in Hf. rewrite Hf. cbn. by destruct (term_eqb c _).
Qed.

(** Reading the error data frame merges its termination. *)
Lemma feed_error_data t a p term body rest :
  is_failure term = true -> object_text body ->
  from_slice body = Some (error_payload p term) ->
  tr_line t = "" -> tr_data_lines t = [] -> limit_reached t = false ->
  tr_event_name t = "" \/ tr_event_name t = "error" ->
  tr_terminal t = None \/ tr_terminal t = Some Completed ->
  tr_frame_bytes t + slen body + 8 <= MAX_SSE_FRAME_BYTES ->
  exists t1 a1, tr_terminal t1 = Some term /\ tr_line t1 = "" /\ tr_data_lines t1 = []
    /\ tr_event_name t1 = "" /\ tr_frame_bytes t1 = 0
    /\ feed_bytes t a ("data: " +:+ body +:+ bstr LF +:+ bstr LF +:+ rest) =
       (if limit_reached t1 then (t1, a1) else feed_bytes t1 a1 rest).
Proof.
  intros Hf Hobj Hj Hline Hdata Hlim Hname Hterm Hlen.
  destruct (feed_data_frame t a body rest Hline Hdata Hlim (proj1 Hobj)
              (object_text_visible body Hobj) Hlen)
    as (tD & Hd & Hn & Ht & Hl & Hfb & ->).
  pose proof (dispatch_gateway tD a body _ term Hd Hj (payload_no_choices p term)) as Hdis.
  rewrite Hn in Hdis. specialize (Hdis (classify_error_frame p term _ body Hf Hobj Hj Hname)).
  destruct (dispatch tD a) as [t1 a1]. cbn [fst] in Hdis.
  destruct Hdis as (E1 & E2 & E3 & E4 & E5). exists t1, a1.
  rewrite Ht, (merge_terminal_failure _ _ Hterm Hf) in E1. split_and!; try done; congruence.
Qed.

(** The whole frame of the Responses and Messages protocols. *)
Lemma event_frame_terminal t a p term body :
  is_failure term = true -> object_text body ->
  from_slice body = Some (error_payload p term) ->
  tr_line t = "" -> tr_data_lines t = [] -> limit_reached t = false ->
  tr_terminal t = None \/ tr_terminal t = Some Completed ->
  tr_frame_bytes t + slen body + 21 <= MAX_SSE_FRAME_BYTES ->
  tr_terminal (feed_bytes t a ("event: error" +:+ bstr LF +:+ "data: " +:+ body +:+ bstr LF
                                 +:+ bstr LF)).1 = Some term.
Proof.
  intros Hf Hobj Hj Hline Hdata Hlim Hterm Hlen. pose proof (slen_nonneg body).
  destruct (feed_event_line t a ("data: " +:+ body +:+ bstr LF +:+ bstr LF) Hline Hlim ltac:(lia))
    as (t1 & E1 & E2 & E3 & E4 & E5 & ->).
  destruct (feed_error_data t1 a p term body "" Hf Hobj Hj E1 ltac:(congruence)
    ltac:(by rewrite (limit_reached_terminal t1 t E4)) ltac:(by right) ltac:(by rewrite E4)
    ltac:(lia)) as (t2 & a2 & F1 & _ & _ & _ & _ & F6).
  change (bstr LF +:+ "") with (bstr LF) in F6. rewrite F6. by destruct (limit_reached t2).
Qed.

Lemma dispatch_done t a :
  from_slice "[DONE]" = None -> tr_data_lines t = ["[DONE]"] -> tr_event_name t = "" ->
  tr_terminal (dispatch t a).1 = merge_terminal (tr_terminal t) (Some Completed).
Proof.
  intros Hd Hl Hn. unfold dispatch. rewrite Hl, Hn. cbn [join].
  rewrite bool_decide_false, andb_false_r by done. cbn [andb]. unfold observe_payload. rewrite Hd.
  cbn [mbind option_bind]. change (classify_frame "" "[DONE]")
    with (Some Completed, false, @None StreamTermination). cbv iota beta.
  by rewrite orb_true_r.
Qed.

(** The whole frame of Chat Completions, with its [DONE]. *)
Lemma chat_frame_terminal t a p term body :
  is_failure term = true -> object_text body ->
  from_slice body = Some (error_payload p term) -> from_slice "[DONE]" = None ->
  tr_line t = "" -> tr_data_lines t = [] -> limit_reached t = false -> tr_event_name t = "" ->
  tr_terminal t = None \/ tr_terminal t = Some Completed ->
  tr_frame_bytes t + slen body + 21 <= MAX_SSE_FRAME_BYTES ->
  tr_terminal (feed_bytes t a ("data: " +:+ body +:+ bstr LF +:+ bstr LF +:+ "data: [DONE]"
                                 +:+ bstr LF +:+ bstr LF)).1 = Some term.
Proof.
  intros Hf Hobj Hj Hdone Hline Hdata Hlim Hname Hterm Hlen. pose proof (slen_nonneg body).
  destruct (feed_error_data t a p term body ("data: [DONE]" +:+ bstr LF +:+ bstr LF) Hf Hobj Hj
    Hline Hdata Hlim ltac:(by left) Hterm ltac:(lia)) as (t1 & a1 & E1 & E2 & E3 & E4 & E5 & ->).
  destruct (limit_reached t1) eqn:Hl1; [done|].
  destruct (feed_data_frame t1 a1 "[DONE]" "" E2 E3 Hl1 eq_refl) as (tD & F1 & F2 & F3 & _ & _ & F6).
  { by exists "["%char, "DONE", "]"%char. }
  { rewrite E5. vm_compute. discriminate. }
  change ("data: " +:+ "[DONE]" +:+ bstr LF +:+ bstr LF +:+ "")
    with ("data: [DONE]" +:+ bstr LF +:+ bstr LF) in F6. rewrite F6.
  pose proof (dispatch_done tD a1 Hdone F1 ltac:(congruence)) as Hd.
  rewrite F3, E1, merge_terminal_keeps in Hd by done.
  destruct (dispatch tD a1) as [t2 a2]. cbn [fst] in Hd. by destruct (limit_reached t2).
Qed.
End RoundTrip.

Lemma error_frame_terminal `{SerdeJson} (p : Protocol) (term : StreamTermination)
    (t : SseEventTracker) (body : string)
    (Hf : is_failure term = true)
    (Hser : to_string (error_payload p term) = Some body)
    (Hobj : object_text body)
    (Hparse : from_slice body = Some (error_payload p term))
    (Hdone : from_slice "[DONE]" = None)
    (Hsafe : safe_for_heartbeat t = true)
    (Hterm : tr_terminal t = None \/ tr_terminal t = Some Completed)
    (Hlen : tr_frame_bytes t + slen body + 21 <= MAX_SSE_FRAME_BYTES) :
  tr_terminal (feed t (gateway_error_frame p term)).1 = Some term.
Proof.
  assert (limit_reached t = false) as Hlim
    by (unfold limit_reached; by destruct Hterm as [->| ->]).
  unfold safe_for_heartbeat in Hsafe. bool_to_prop. unfold is_empty in *. bool_to_prop.
  assert (forall t', t' ≈ (feed t (gateway_error_frame p term)).1 ->
    tr_terminal t' = Some term -> tr_terminal (feed t (gateway_error_frame p term)).1 = Some term)
    as Hgo by (by intros t' ->%tracker_equiv_iff).
  apply (Hgo (feed_bytes t SseActivity_default (gateway_error_frame p term)).1).
  { symmetry. rewrite feed_tracker, Hlim. done. }
  unfold gateway_error_frame. rewrite Hser. cbn [unwrap_or].
  destruct p; [by apply (chat_frame_terminal t _ OpenAiChatCompletions)
    |by apply (event_frame_terminal t _ OpenAiResponses)
    |by apply (event_frame_terminal t _ AnthropicMessages)].
Qed.

(** Round trip of the gateway's error frames: feeding a tracker that is
    at a frame boundary with the frame written for a failure leaves it
    terminated with exactly that failure, in all three protocols (for Chat
    Completions the trailing [DONE] does not turn the failure into a success).
    The hypotheses on [serde_json] are that the payload is serialised as an
    object in printable ASCII that parses back to it, and that [DONE] in
    brackets is not JSON. *)
Theorem error_frame_roundtrip `{SerdeJson} (p : Protocol) (term : StreamTermination)
    (t : SseEventTracker) (body : string)
    (Hf : is_failure term = true)
    (Hser : to_string (error_payload p term) = Some body)
    (Hobj : object_text body)
    (Hparse : from_slice body = Some (error_payload p term))
    (Hdone : from_slice "[DONE]" = None)
    (Hsafe : safe_for_heartbeat t = true)
    (Hterm : tr_terminal t = None \/ tr_terminal t = Some Completed)
    (Hlen : tr_frame_bytes t + slen body + 21 <= MAX_SSE_FRAME_BYTES) :
  tr_terminal (feed t (gateway_error_frame p term)).1 = Some term.
Proof. by apply (error_frame_terminal p term t body). Qed.

Lemma error_frame_roundtrip_witness :
  let js := json_concrete in
  tr_terminal (feed SseEventTracker_default
    (gateway_error_frame OpenAiChatCompletions IdleTimeout)).1 = Some IdleTimeout.
Proof.
  intros js.
  apply (error_frame_roundtrip OpenAiChatCompletions IdleTimeout SseEventTracker_default
           (Concrete.print (error_payload OpenAiChatCompletions IdleTimeout)));
    try (vm_compute; reflexivity).
  - split; [vm_compute; reflexivity|]. eexists. 
    match goal with |- ?x = _ => let y := eval vm_compute in (drop_last (remove_first x)) in
      instantiate (1 := y) end. vm_compute. reflexivity.
  - left. reflexivity.
  - vm_compute. discriminate.
Defined.
