(* ===== verification/Observe.v ===== *)
(** * Observation of a streamed body: [ObservationGuard] of [src/src/proxy/usage.rs]

    The guard tees every chunk into a tracker and an estimate and reports one
    [StreamObservation] when the body ends, fails or is dropped.  The callback
    is taken on its first use; here a call of the callback is the observation
    returned by the operation. *)

From Stdlib Require Import ZArith Lia Ascii.
From stdpp Require Import base list strings gmap.
From S2P Require Import Prelude.
From S2P Require Import RustStr.
From S2P Require Import Protocol.
From S2P Require Import Health.
From S2P Require Import Json.
From S2P Require Import Usage.
From S2P Require Import Stream.
From S2P Require Import StreamProps.
From S2P Require Import Native.
From S2P Require Import Frames.

Record StreamObservation : Type := mkStreamObservation {
  so_captured : string;
  so_capture_truncated : bool;
  so_parsed_usage : option UsageReport;
  so_estimated_reasoning_tokens : option Z;
  so_response_model : option string;
  so_response_reasoning_effort : option string;
  so_ttft_ms : option Z;
  so_failed : bool;
  so_termination : StreamTermination;
}.

Record ObservationGuard : Type := mkObservationGuard {
  og_callback : bool;                      (** [callback.is_some()] *)
  og_thinking : ThinkingEstimate;
  og_captured : string;
  og_streamed_bytes : Z;
  og_capture_truncated : bool;
  og_ttft_ms : option Z;
  og_termination : option StreamTermination;
  og_tracker : SseEventTracker;
  og_request_started : Z;
}.

Definition ObservationGuard_new (request_started : Z) : ObservationGuard :=
  mkObservationGuard true ThinkingEstimate_default "" 0 false None None SseEventTracker_default
    request_started.

(** [started.elapsed().as_millis() as i64]. *)
Definition elapsed_ms (started now : Z) : Z := wrap_i 64 (as_millis (sat_sub now started)).

Definition has_provider_bytes (bytes : string) : bool :=
  if is_empty bytes then false else
  let text := from_utf8_lossy bytes in
  existsb (fun line => let line := trim line in
                       negb (is_empty line) && negb (starts_with line ":")) (lines text)
  || (negb (contains_char text LF) && negb (is_empty (trim text))).

(** The first [n] bytes of a slice. *)
Fixpoint stake (n : nat) (s : string) : string :=
  match n, s with
  | S n, String a t => String a (stake n t)
  | _, _ => ""
  end.

Section Guard.
Context `{SerdeJson} `{Tokenizer}.

(** The loop of [observe] over the lines of a chunk: thinking, captured,
    streamed bytes, truncation flag and provider activity. *)
Fixpoint observe_pieces (pieces : list string) (thinking : ThinkingEstimate) (captured : string)
    (streamed : Z) (truncated activity : bool)
    : ThinkingEstimate * string * Z * bool * bool :=
  match pieces with
  | [] => (thinking, captured, streamed, truncated, activity)
  | bytes :: rest =>
      if is_gateway_heartbeat bytes then
        observe_pieces rest thinking captured streamed truncated activity
      else
        let remaining := MAX_ESTIMATE_BYTES - slen captured in
        observe_pieces rest (think_feed thinking bytes)
          (captured +:+ stake (Z.to_nat (Z.min (slen bytes) remaining)) bytes)
          (sat_add_u64 streamed (slen bytes))
          (truncated || (remaining <? slen bytes))
          (activity || has_provider_bytes bytes)
  end.

Definition guard_observe (g : ObservationGuard) (now : Z) (chunk : string) : ObservationGuard :=
  let '(tracker, activity) := feed (og_tracker g) chunk in
  let '(thinking, captured, streamed, truncated, provider_activity) :=
    observe_pieces (split_inclusive LF chunk) (og_thinking g) (og_captured g)
      (og_streamed_bytes g) (og_capture_truncated g) false in
  let ttft := if negb (is_some (og_ttft_ms g))
                 && negb (sa_error activity && negb (sa_provider_event activity))
                 && provider_activity
              then Some (elapsed_ms (og_request_started g) now) else og_ttft_ms g in
  let termination :=
    if sa_error activity then
      Some (unwrap_or (opt_filter is_failure (sa_terminal activity)) UpstreamError)
    else match sa_terminal activity with
         | Some terminal => Some terminal
         | None => og_termination g
         end in
  mkObservationGuard (og_callback g) thinking captured streamed truncated ttft termination tracker
    (og_request_started g).

Definition set_og_tracker (g : ObservationGuard) (t : SseEventTracker) : ObservationGuard :=
  mkObservationGuard (og_callback g) (og_thinking g) (og_captured g) (og_streamed_bytes g)
    (og_capture_truncated g) (og_ttft_ms g) (og_termination g) t (og_request_started g).

(** [complete]: the observation handed to the callback, if it is still
    there. *)
Definition complete (g : ObservationGuard) (termination : StreamTermination)
    : ObservationGuard * option StreamObservation :=
  if negb (og_callback g) then (g, None) else
  let termination := unwrap_or (og_termination g) termination in
  (mkObservationGuard false (og_thinking g) "" (og_streamed_bytes g) (og_capture_truncated g)
     (og_ttft_ms g) (Some termination) (og_tracker g) (og_request_started g),
   Some (mkStreamObservation (og_captured g) (og_capture_truncated g)
           (SseUsageAccumulator_report (tr_usage (og_tracker g))) (think_result (og_thinking g))
           (ri_model (tr_response_identity (og_tracker g)))
           (ri_reasoning_effort (tr_response_identity (og_tracker g))) (og_ttft_ms g)
           (is_failure termination) termination)).

(** One poll of the inner body. *)
Inductive BodyEvent : Type := BChunk (now : Z) (bytes : string) | BError | BEof.

Definition guard_poll (g : ObservationGuard) (e : BodyEvent)
    : ObservationGuard * option StreamObservation :=
  match e with
  | BChunk now bytes => (guard_observe g now bytes, None)
  | BError => complete g TransportFailure
  | BEof =>
      let '(tracker, activity) := finish_eof (og_tracker g) in
      let g := set_og_tracker g tracker in
      if sa_error activity then
        complete g (unwrap_or (sa_terminal activity) UpstreamError)
      else if tr_saw_provider_event tracker then
        complete g (unwrap_or (tr_terminal tracker)
                      (if tr_saw_sse_frame tracker then IncompleteStream else Completed))
      else complete g EmptyStream
  end.

(** The life of an observed body: polls in order, then the drop of the
    guard; the observations its callback received. *)
Fixpoint observe_stream_body (g : ObservationGuard) (events : list BodyEvent)
    : list StreamObservation :=
  match events with
  | [] => option_list (complete g ClientCancelled).2
  | e :: events =>
      let '(g, o) := guard_poll g e in
      option_list o ++
      (match e with
       | BEof => option_list (complete g ClientCancelled).2 (* the stream ended: only the drop *)
       | _ => observe_stream_body g events
       end)
  end.

Definition usage_for_stream_observation (success : bool) (request : string)
    (observation : StreamObservation) : UsageReport :=
  let report :=
    match so_parsed_usage observation with
    | Some report => report
    | None =>
        if success && negb (so_capture_truncated observation) then
          estimate request (so_captured observation)
        else UsageReport_missing
    end in
  if (ur_reasoning_tokens report =? 0) && negb (ur_source report =?s "missing") then
    mkUsageReport (ur_input_tokens report) (ur_output_tokens report)
      (unwrap_or (so_estimated_reasoning_tokens observation) 0) (ur_cached_tokens report)
      (ur_cache_read_tokens report) (ur_cache_creation_tokens report) (ur_total_tokens report)
      (ur_source report)
  else report.
End Guard.

(** ** Exactly one observation *)
Section Once.
Context `{SerdeJson} `{Tokenizer}.

Lemma complete_once g term :
  og_callback (complete g term).1 = false
  /\ length (option_list (complete g term).2) = (if og_callback g then 1 else 0)%nat.
Proof. unfold complete. destruct (og_callback g) eqn:E; cbn; by rewrite ?E. Qed.

Lemma guard_observe_callback g now b : og_callback (guard_observe g now b) = og_callback g.
Proof.
  unfold guard_observe. destruct (feed _ b) as [t a].
  destruct (observe_pieces _ _ _ _ _ _) as [[[[th c] st] tr] act]. done.
Qed.

Lemma guard_poll_once g e :
  (length (option_list (guard_poll g e).2) + (if og_callback (guard_poll g e).1 then 1 else 0)
   = if og_callback g then 1 else 0)%nat.
Proof.
  assert (forall g' term, og_callback g' = og_callback g ->
    (length (option_list (complete g' term).2)
     + (if og_callback (complete g' term).1 then 1 else 0)
     = if og_callback g then 1 else 0)%nat) as Hc.
  { intros g' term Hg. destruct (complete_once g' term) as [-> ->]. rewrite Hg. lia. }
  destruct e as [now b| |]; cbn [guard_poll].
  - cbn. by rewrite guard_observe_callback.
  - by apply Hc.
  - destruct (finish_eof (og_tracker g)) as [t a].
    destruct (sa_error a); [by apply Hc|]. destruct (tr_saw_provider_event t); by apply Hc.
Qed.

Lemma observe_stream_body_once events : forall g,
  length (observe_stream_body g events) = (if og_callback g then 1 else 0)%nat.
Proof.
  induction events as [|e events IH]; intros g; cbn [observe_stream_body];
    [apply (complete_once g ClientCancelled)|].
  pose proof (guard_poll_once g e) as Hp. destruct (guard_poll g e) as [g' o]. cbn [fst snd] in Hp.
  rewrite length_app, <- Hp. f_equal. destruct e; try apply IH.
  apply (complete_once g' ClientCancelled).
Qed.
End Once.

(** C20. Exactly-once accounting of a streamed response: whatever the body
    yields - chunks, errors, end of stream, or the client going away at any
    point - the completion callback receives exactly one observation. *)
Theorem stream_observed_exactly_once `{SerdeJson} `{Tokenizer} (request_started : Z)
    (events : list BodyEvent) :
  length (observe_stream_body (ObservationGuard_new request_started) events) = 1%nat.
Proof. apply observe_stream_body_once. Qed.

(** ** The observer and the wrapper agree on failures *)
Section Sync.
Context `{SerdeJson}.

(** An activity that has followed the tracker from the start. *)
Definition synced (t : SseEventTracker) (a : SseActivity) : Prop :=
  tr_terminal t = sa_terminal a
  /\ (forall x, sa_terminal a = Some x -> is_failure x = true -> sa_error a = true).

Lemma classify_terminal_completed name data :
  (classify_frame name data).1.1 = None \/ (classify_frame name data).1.1 = Some Completed.
Proof. unfold classify_frame. repeat case_match; cbn; auto. Qed.

Lemma merge_failure_cases c g x :
  merge_terminal c g = Some x -> is_failure x = true -> c = Some x \/ g = Some x.
Proof. unfold merge_terminal. intros. repeat case_match; simplify_eq; auto. Qed.

Lemma synced_merge t a t' g err pe :
  synced t a -> tr_terminal t' = tr_terminal t -> (sa_error a = true -> err = true) ->
  (forall x, g = Some x -> is_failure x = true -> err = true) ->
  synced (set_terminal t' (merge_terminal (tr_terminal t') g))
    (mkSseActivity pe (merge_terminal (sa_terminal a) g) err).
Proof.
  intros [Heq Hf] Ht He Hg. split; cbn; [by rewrite Ht, Heq|]. intros x Hx Hfx.
  destruct (merge_failure_cases _ _ _ Hx Hfx); eauto.
Qed.

Lemma dispatch_sync t a : synced t a -> synced (dispatch t a).1 (dispatch t a).2.
Proof.
  intros Hs. unfold dispatch. destruct (_ && _ && _); [done|].
  set (data := join _ _). set (name := tr_event_name t).
  set (t0 := set_frame_non_comment (set_data_lines (set_event_name t "") []) false).
  destruct (observe_payload_shape t0 data) as [_ (u & i & c & f & Heq)].
  destruct (observe_payload t0 data) as [t1 lim]. cbn [fst] in Heq.
  assert (tr_terminal t1 = tr_terminal t) as Ht by (by subst t1).
  destruct lim; [by split; [|intros]|].
  pose proof (classify_terminal_completed name data) as Hcl.
  destruct (classify_frame name data) as [[term err] [g|]]; cbn [fst] in Hcl.
  - apply (synced_merge t); try done; [by intros ->|]. intros x [= ->] ->. apply orb_true_r.
  - destruct (_ || _ || _).
    2: { destruct Hs as [Hs1 Hs2]. split; [|done]. by cbn; rewrite Ht. }
    destruct err; apply (synced_merge t); try done.
    intros x -> Hx. destruct Hcl as [?|[= ->]]; done.
Qed.

Lemma process_line_sync t a : synced t a -> synced (process_line t a).1 (process_line t a).2.
Proof.
  intros Hs. unfold process_line. destruct (tr_line t) as [|first line]; [by apply dispatch_sync|].
  by repeat case_match.
Qed.

Lemma feed_bytes_sync s : forall t a,
  synced t a -> synced (feed_bytes t a s).1 (feed_bytes t a s).2.
Proof.
  induction s as [|b s IH]; intros t a Hs; cbn [feed_bytes]; [done|].
  destruct (_ <=? _); [by split; [|intros]|]. destruct (Ascii.eqb b LF).
  - pose proof (process_line_sync (set_frame_bytes t (tr_frame_bytes t + 1)) a Hs) as Hp.
    destruct (process_line _ a) as [t1 a1]. destruct (limit_reached t1); [done|]. by apply IH.
  - destruct (negb _); apply IH; [|done]. unfold push_byte. by destruct (_ && _).
Qed.

(** A chunk fed to a tracker with no termination yet. *)
Lemma feed_sync t s :
  tr_terminal t = None -> synced (feed t s).1 (feed t s).2.
Proof.
  intros Ht. unfold feed. assert (limit_reached t = false) as -> by (unfold limit_reached; by rewrite Ht).
  destruct (raw_event t s); apply feed_bytes_sync; (split; [exact Ht|done]).
Qed.
End Sync.

Section Agreement.
Context `{SerdeJson} `{Tokenizer}.

Lemma guard_observe_tracker g now b :
  og_tracker (guard_observe g now b) = (feed (og_tracker g) b).1.
Proof.
  unfold guard_observe. destruct (feed _ b) as [t a].
  destruct (observe_pieces _ _ _ _ _ _) as [[[[th c] st] tr] act]. done.
Qed.

(** The guard after a prefix of chunks. *)
Lemma observe_prefix pre rest : forall g, og_callback g = true ->
  exists g', og_callback g' = true
    /\ og_tracker g' = feed_all (og_tracker g) (map snd pre)
    /\ observe_stream_body g (map (fun c => BChunk c.1 c.2) pre ++ rest)
       = observe_stream_body g' rest.
Proof.
  induction pre as [|[now b] pre IH]; intros g Hg; [by exists g|].
  cbn [map app observe_stream_body guard_poll option_list fst snd].
  destruct (IH (guard_observe g now b)) as (g' & Hc & Ht & Hr);
    [by rewrite guard_observe_callback|].
  exists g'. split_and!; [done| |done]. by rewrite Ht, guard_observe_tracker.
Qed.

(** A recorded termination is the one reported. *)
Lemma observe_recorded g term rest :
  og_callback g = true -> og_termination g = Some term ->
  Forall (fun e => match e with BChunk _ _ => False | _ => True end) rest ->
  exists o, observe_stream_body g rest = [o] /\ so_termination o = term
    /\ so_failed o = is_failure term.
Proof.
  intros Hg Ht Hrest.
  assert (forall g' x, og_callback g' = true -> og_termination g' = Some term ->
    exists o, (complete g' x).2 = Some o /\ so_termination o = term
      /\ so_failed o = is_failure term /\ og_callback (complete g' x).1 = false) as Hc.
  { intros g' x Hg' Ht'. unfold complete. rewrite Hg', Ht'. cbn. by eexists. }
  destruct Hrest as [|e rest He Hrest]; cbn [observe_stream_body].
  { destruct (Hc g ClientCancelled Hg Ht) as (o & -> & ? & ? & _). by exists o. }
  assert (exists o, (guard_poll g e).2 = Some o /\ so_termination o = term
      /\ so_failed o = is_failure term /\ og_callback (guard_poll g e).1 = false)
    as (o & Ho & Hot & Hof & Hcb).
  { destruct e as [now b| |]; [done|by apply Hc|]. cbn [guard_poll].
    destruct (finish_eof _) as [t a]. destruct (sa_error a); [by apply Hc|].
    destruct (tr_saw_provider_event t); by apply Hc. }
  destruct (guard_poll g e) as [g' o']. cbn [fst snd] in *. subst o'. exists o.
  split_and!; [|done|done]. cbn [option_list app]. f_equal. apply length_zero_iff_nil.
  destruct e; [done|by rewrite observe_stream_body_once, Hcb|].
  destruct (complete_once g' ClientCancelled) as [_ ->]. by rewrite Hcb.
Qed.
End Agreement.

(** The accounting observer agrees with the stream wrapper: when the
    wrapper ends a stream with the error frame of a failure, the single
    observation reported for the body carries that failure, whatever was
    streamed before (up to a frame boundary without a terminal event) and
    however the body is then finished or dropped. *)
Theorem observer_reads_gateway_failure `{SerdeJson} `{Tokenizer} (p : Protocol)
    (term : StreamTermination) (body : string) (started now : Z) (pre : list (Z * string))
    (rest : list BodyEvent)
    (Hf : is_failure term = true)
    (Hser : to_string (error_payload p term) = Some body)
    (Hobj : object_text body)
    (Hparse : from_slice body = Some (error_payload p term))
    (Hdone : from_slice "[DONE]" = None)
    (Hsafe : safe_for_heartbeat (feed_all SseEventTracker_default (map snd pre)) = true)
    (Hterm : tr_terminal (feed_all SseEventTracker_default (map snd pre)) = None)
    (Hlen : tr_frame_bytes (feed_all SseEventTracker_default (map snd pre)) + slen body + 21
            <= MAX_SSE_FRAME_BYTES)
    (Hrest : Forall (fun e => match e with BChunk _ _ => False | _ => True end) rest) :
  exists o,
    observe_stream_body (ObservationGuard_new started)
      (map (fun c => BChunk c.1 c.2) pre ++ BChunk now (gateway_error_frame p term) :: rest) = [o]
    /\ so_termination o = term /\ so_failed o = true.
Proof.
  destruct (observe_prefix pre (BChunk now (gateway_error_frame p term) :: rest)
              (ObservationGuard_new started) eq_refl) as (g & Hc & Ht & ->).
  cbn [og_tracker ObservationGuard_new] in Ht. rewrite <- Ht in *.
  assert (tr_terminal (feed (og_tracker g) (gateway_error_frame p term)).1 = Some term) as Hfeed
    by (apply (error_frame_terminal p term _ body); auto).
  pose proof (feed_sync (og_tracker g) (gateway_error_frame p term) Hterm) as [Hs1 Hs2].
  rewrite Hfeed in Hs1. symmetry in Hs1. specialize (Hs2 _ Hs1 Hf).
  cbn [observe_stream_body guard_poll option_list app].
  rewrite <- Hf. apply observe_recorded; [by rewrite guard_observe_callback| |done].
  unfold guard_observe. destruct (feed _ _) as [t a]. cbn [fst snd] in *.
  destruct (observe_pieces _ _ _ _ _ _) as [[[[th c] st] tr] act]. cbn.
  rewrite Hs2, Hs1. cbn. by rewrite Hf.
Qed.

(** A tokenizer for witnesses: one token per byte. *)
Definition tokenizer_bytes : Tokenizer.
Proof.
  refine {| encode_len := fun s => Z.min I64_MAX (slen s) |}.
  intros s. pose proof (slen_nonneg s). unfold I64_MAX. lia.
Defined.

Lemma observer_reads_gateway_failure_witness :
  let js := json_concrete in let tok := tokenizer_bytes in
  exists o,
    observe_stream_body (ObservationGuard_new 0)
      [BChunk 1 example_event; BChunk 2 (gateway_error_frame AnthropicMessages IdleTimeout); BEof]
      = [o]
    /\ so_termination o = IdleTimeout /\ so_failed o = true.
Proof.
  intros js tok.
  apply (observer_reads_gateway_failure AnthropicMessages IdleTimeout
           (Concrete.print (error_payload AnthropicMessages IdleTimeout)) 0 2
           [(1, example_event)] [BEof]); try (vm_compute; reflexivity).
  - split; [vm_compute; reflexivity|]. eexists.
    match goal with |- ?x = _ => let y := eval vm_compute in (drop_last (remove_first x)) in
      instantiate (1 := y) end. vm_compute. reflexivity.
  - vm_compute. discriminate.
  - repeat constructor.
Defined.
