(* ===== verification/Accounting.v ===== *)
(** * Streaming accounting: [src/src/proxy/accounting.rs] and the usage tables of
      [src/src/infra/db/usage.rs]

    [finalize_stream_usage] folds the observation of a streamed body into the
    usage event of the request; [retry_usage_write] persists it with up to
    three tries; the tables are maps keyed by the primary keys of the schema,
    and a write is one transaction that can fail before or after its commit
    ([DbFault]). *)

From Stdlib Require Import ZArith Lia.
From stdpp Require Import base list strings gmap.
From S2P Require Import Prelude.
From S2P Require Import RustStr.
From S2P Require Import Protocol.
From S2P Require Import Health.
From S2P Require Import Json.
From S2P Require Import Usage.
From S2P Require Import Stream.
From S2P Require Import Observe.

Record UsageEvent : Type := mkUsageEvent {
  ue_request_id : string;
  ue_virtual_key_id : option Z;
  ue_provider_id : string;
  ue_account_id : string;
  ue_model : string;
  ue_logical_model : string;
  ue_upstream_model_id : option string;
  ue_source_id : string;
  ue_client_source : string;
  ue_protocol_in : string;
  ue_protocol_upstream : string;
  ue_mode : string;
  ue_status_code : Z;
  ue_success : bool;
  ue_retry_count : Z;
  ue_latency_ms : Z;
  ue_ttft_ms : option Z;
  ue_usage : UsageReport;   (** the seven token counters and [usage_source] *)
  ue_degraded : bool;
  ue_route_id : option string;
  ue_streamed : bool;
  ue_error_summary : option string;
  ue_fallback_reason : option string;
  ue_response_model : option string;
  ue_requested_reasoning_effort : option string;
  ue_response_reasoning_effort : option string;
}.

Record UsageAttempt : Type := mkUsageAttempt {
  ua_attempt_no : Z;
  ua_provider_id : string;
  ua_source_id : string;
  ua_account_id : string;
  ua_upstream_model_id : option string;
  ua_status_code : Z;
  ua_success : bool;
  ua_latency_ms : Z;
}.

(** ** Finalisation *)

Definition failure_summary (termination : StreamTermination) : string :=
  match termination with
  | UpstreamError => "upstream stream error"
  | TransportFailure => "upstream body transport error"
  | IncompleteStream => "upstream stream ended without a terminal event"
  | BufferLimitExceeded => "upstream stream observation limit exceeded"
  | EmptyStream => "upstream stream ended without an event"
  | ClientCancelled => "client disconnected"
  | ConnectionTimeout => "upstream connection timeout"
  | FirstEventTimeout => "first event timeout"
  | IdleTimeout => "upstream idle timeout"
  | TotalTimeout => "stream total timeout"
  | Completed => ""
  end.

(** The fields [finalize_stream_usage] assigns. *)
Definition set_outcome (e : UsageEvent) (status : Z) (success : bool) (ttft : option Z)
    (usage : UsageReport) (summary model effort : option string) : UsageEvent :=
  mkUsageEvent (ue_request_id e) (ue_virtual_key_id e) (ue_provider_id e) (ue_account_id e)
    (ue_model e) (ue_logical_model e) (ue_upstream_model_id e) (ue_source_id e)
    (ue_client_source e) (ue_protocol_in e) (ue_protocol_upstream e) (ue_mode e) status success
    (ue_retry_count e) (ue_latency_ms e) ttft usage (ue_degraded e) (ue_route_id e) (ue_streamed e)
    summary (ue_fallback_reason e) model (ue_requested_reasoning_effort e) effort.

Definition set_latency (e : UsageEvent) (latency : Z) : UsageEvent :=
  mkUsageEvent (ue_request_id e) (ue_virtual_key_id e) (ue_provider_id e) (ue_account_id e)
    (ue_model e) (ue_logical_model e) (ue_upstream_model_id e) (ue_source_id e)
    (ue_client_source e) (ue_protocol_in e) (ue_protocol_upstream e) (ue_mode e)
    (ue_status_code e) (ue_success e) (ue_retry_count e) latency (ue_ttft_ms e) (ue_usage e)
    (ue_degraded e) (ue_route_id e) (ue_streamed e) (ue_error_summary e) (ue_fallback_reason e)
    (ue_response_model e) (ue_requested_reasoning_effort e) (ue_response_reasoning_effort e).

Definition fail_attempt (status : Z) (a : UsageAttempt) : UsageAttempt :=
  mkUsageAttempt (ua_attempt_no a) (ua_provider_id a) (ua_source_id a) (ua_account_id a)
    (ua_upstream_model_id a) status false (ua_latency_ms a).

(** [if let Some(attempt) = attempts.last_mut()]. *)
Fixpoint update_last {A} (f : A -> A) (l : list A) : list A :=
  match l with
  | [] => []
  | [x] => [f x]
  | x :: l => x :: update_last f l
  end.

(** The termination a stream is settled with. *)
Definition settled_termination (o : StreamObservation) : StreamTermination :=
  if so_failed o && negb (is_failure (so_termination o)) then UpstreamError else so_termination o.

Section Finalize.
Context `{SerdeJson} `{Tokenizer}.

Definition finalize_stream_usage (event : UsageEvent) (attempts : list UsageAttempt)
    (request_body : string) (observation : StreamObservation)
    : UsageEvent * list UsageAttempt :=
  let termination := settled_termination observation in
  let failed := is_failure termination in
  let status := if failed then term_status_code termination else ue_status_code event in
  let success := if failed then false else ue_success event in
  let summary := if failed then Some (failure_summary termination) else ue_error_summary event in
  let attempts :=
    if failed then update_last (fail_attempt (term_status_code termination)) attempts
    else attempts in
  let report := usage_for_stream_observation success request_body observation in
  (set_outcome event status success (so_ttft_ms observation) report summary
     (so_response_model observation) (so_response_reasoning_effort observation), attempts).
End Finalize.

(** The failures that count against the account in [wrap_stream_usage]. *)
Definition upstream_failure (o : StreamObservation) : bool :=
  (so_failed o && negb (is_failure (so_termination o)))
  || match so_termination o with
     | UpstreamError | TransportFailure | IncompleteStream | BufferLimitExceeded => true
     | _ => false
     end.

(** ** The usage tables *)

Record UsageTables : Type := mkUsageTables {
  ut_events : gmap string UsageEvent;
  ut_attempts : gmap (string * Z) UsageAttempt;
}.

(** [INSERT ... ON CONFLICT DO NOTHING]. *)
Definition insert_new {K V} `{Countable K} (k : K) (v : V) (m : gmap K V) : gmap K V :=
  match m !! k with Some _ => m | None => <[k := v]> m end.

Definition insert_attempts (request_id : string) (attempts : list UsageAttempt)
    (m : gmap (string * Z) UsageAttempt) : gmap (string * Z) UsageAttempt :=
  fold_left (fun m a => insert_new (request_id, ua_attempt_no a) a m) attempts m.

(** The transaction: applied as a whole, or not at all. *)
Definition insert_usage_with_attempts (t : UsageTables) (fault : option DbFault)
    (event : UsageEvent) (attempts : list UsageAttempt) : result unit DbError * UsageTables :=
  let t' := mkUsageTables (insert_new (ue_request_id event) event (ut_events t))
              (insert_attempts (ue_request_id event) attempts (ut_attempts t)) in
  match fault with
  | Some FaultBeforeCommit => (Err DbUnavailable, t)
  | Some FaultAfterCommit => (Err DbUnavailable, t')
  | None => (Ok tt, t')
  end.

(** [retry_usage_write]: attempts 1, 2 and 3; the writes are indexed by the
    attempt number. *)
Section Retry.
Context {S E : Type} (write : Z -> S -> result unit E * S).

Definition retry_usage_write (s : S) : result unit E * S :=
  let '(r1, s) := write 1 s in
  match r1 with
  | Ok tt => (Ok tt, s)
  | Err _ =>
      let '(r2, s) := write 2 s in
      match r2 with
      | Ok tt => (Ok tt, s)
      | Err _ => write 3 s
      end
  end.
End Retry.

Definition persist_usage (t : UsageTables) (faults : Z -> option DbFault) (event : UsageEvent)
    (attempts : list UsageAttempt) : result unit DbError * UsageTables :=
  retry_usage_write (fun n t => insert_usage_with_attempts t (faults n) event attempts) t.

(** ** The completion callback of [wrap_stream_usage]

    What the callback computes, and the task it hands to the settlement
    permit: the write and, for an upstream failure, the health mark. *)
Section Settle.
Context `{SerdeJson} `{Tokenizer} `{Chrono} `{PgTime}.

Definition settle_stream (event : UsageEvent) (attempts : list UsageAttempt)
    (request_body : string) (request_started finished : Z) (o : StreamObservation)
    (tables : UsageTables) (faults : Z -> option DbFault)
    (health : HealthRegistry) (health_fault : option DbFault) (now : Z)
    : UsageTables * HealthRegistry :=
  let event := set_latency event (elapsed_ms request_started finished) in
  let account_id := ua_account_id <$> last attempts in
  let failed := upstream_failure o in
  let '(event, attempts) := finalize_stream_usage event attempts request_body o in
  let tables := (persist_usage tables faults event attempts).2 in
  let health :=
    if failed then
      match account_id with
      | Some account_id =>
          (mark_failure_with_details health health_fault now account_id "passive"
             (Some "upstream_stream_error") (Some "upstream stream failed")).2
      | None => health
      end
    else health in
  (tables, health).
End Settle.

(** ** A retried write is applied at most once *)

Lemma insert_new_present {K V} `{Countable K} k (v : V) (m : gmap K V) :
  m !! k <> None -> insert_new k v m = m.
Proof. unfold insert_new. by destruct (m !! k). Qed.

Lemma insert_new_lookup {K V} `{Countable K} k (v : V) (m : gmap K V) k' :
  insert_new k v m !! k' = if bool_decide (k = k') then Some (default v (m !! k)) else m !! k'.
Proof.
  unfold insert_new. case_bool_decide as Hk.
  - subst. destruct (m !! k') eqn:E; cbn; [done|]. apply lookup_insert_eq.
  - destruct (m !! k) eqn:E; [done|]. by apply lookup_insert_ne.
Qed.

Lemma insert_attempts_keeps id l m k : m !! k <> None -> insert_attempts id l m !! k <> None.
Proof.
  unfold insert_attempts. revert m. induction l as [|a l IH]; intros m Hk; cbn; [done|].
  apply IH. rewrite insert_new_lookup. by case_bool_decide.
Qed.

Lemma insert_attempts_present id l m :
  Forall (fun a => m !! (id, ua_attempt_no a) <> None) l -> insert_attempts id l m = m.
Proof.
  unfold insert_attempts. induction 1 as [|a l Ha _ IH]; cbn; [done|].
  by rewrite insert_new_present.
Qed.

Lemma insert_attempts_all id l m :
  Forall (fun a => insert_attempts id l m !! (id, ua_attempt_no a) <> None) l.
Proof.
  revert m. induction l as [|a l IH]; intros m; constructor.
  - cbn. apply insert_attempts_keeps. rewrite insert_new_lookup. by rewrite bool_decide_true.
  - apply IH.
Qed.

(** The tables with the rows of one request. *)
Definition usage_applied (t : UsageTables) (event : UsageEvent) (attempts : list UsageAttempt)
    : UsageTables :=
  mkUsageTables (insert_new (ue_request_id event) event (ut_events t))
    (insert_attempts (ue_request_id event) attempts (ut_attempts t)).

Lemma usage_applied_idem t event attempts :
  usage_applied (usage_applied t event attempts) event attempts = usage_applied t event attempts.
Proof.
  unfold usage_applied. cbn. f_equal.
  - apply insert_new_present. rewrite insert_new_lookup. by rewrite bool_decide_true.
  - apply insert_attempts_present, insert_attempts_all.
Qed.

Definition before_commit (fault : option DbFault) : bool :=
  match fault with Some FaultBeforeCommit => true | _ => false end.

(** One try: an error, or the rows, and no row is written twice. *)
Lemma insert_usage_spec t fault event attempts :
  insert_usage_with_attempts t fault event attempts =
  (match fault with None => Ok tt | Some _ => Err DbUnavailable end,
   if before_commit fault then t else usage_applied t event attempts).
Proof. by destruct fault as [[]|]. Qed.

(** C19. A streamed request is accounted exactly once even when the write is
    retried: for every pattern of database failures (before the commit, or
    after it with the acknowledgement lost) the write succeeds exactly when
    one of the first tries does, the tables end with the rows of the request
    applied once - or untouched when nothing was committed - and a row that
    already existed for the request is never overwritten. *)
Theorem usage_write_exactly_once (t : UsageTables) (faults : Z -> option DbFault)
    (event : UsageEvent) (attempts : list UsageAttempt) :
  let '(r, t') := persist_usage t faults event attempts in
  (r = Ok tt <-> faults 1 = None \/ faults 2 = None \/ faults 3 = None)
  /\ t' = (if before_commit (faults 1) && before_commit (faults 2) && before_commit (faults 3)
           then t else usage_applied t event attempts)
  /\ (forall id, ut_events (usage_applied t event attempts) !! id =
       if bool_decide (ue_request_id event = id) then Some (default event (ut_events t !! id))
       else ut_events t !! id).
Proof.
  assert (forall id, ut_events (usage_applied t event attempts) !! id =
       if bool_decide (ue_request_id event = id) then Some (default event (ut_events t !! id))
       else ut_events t !! id) as Hrow.
  { intros id. cbn. rewrite insert_new_lookup. case_bool_decide; by subst. }
  unfold persist_usage, retry_usage_write. rewrite !insert_usage_spec.
  destruct (faults 1) as [[]|]; rewrite ?insert_usage_spec; cbn [before_commit andb];
    [destruct (faults 2) as [[]|]; rewrite ?insert_usage_spec; cbn [before_commit andb];
       [destruct (faults 3) as [[]|]|destruct (faults 3) as [[]|]|]
    |destruct (faults 2) as [[]|]; rewrite ?insert_usage_spec; cbn [before_commit andb];
       [destruct (faults 3) as [[]|]|destruct (faults 3) as [[]|]|]|];
    cbn; rewrite ?insert_usage_spec, ?usage_applied_idem; cbn;
    rewrite ?usage_applied_idem; (split_and!; [|done|done]); split; intros; intuition congruence.
Qed.

(** ** What a stream is recorded as *)

(** The recorded outcome of a streamed request: a stream that did not
    complete is a failure with the status of its termination, on the event and
    on its last attempt, and its usage is the provider-confirmed one or
    explicitly missing, never estimated; a completed stream keeps the status
    and attempts of the response. *)
Theorem finalize_stream_usage_outcome `{SerdeJson} `{Tokenizer} (event : UsageEvent)
    (attempts : list UsageAttempt) (last_attempt : UsageAttempt) (request_body : string)
    (o : StreamObservation) :
  let '(event', attempts') :=
    finalize_stream_usage event (attempts ++ [last_attempt]) request_body o in
  let termination := settled_termination o in
  if is_failure termination then
    ue_success event' = false
    /\ ue_status_code event' = term_status_code termination
    /\ 400 <= ue_status_code event'
    /\ ue_error_summary event' = Some (failure_summary termination)
    /\ attempts' = attempts ++ [fail_attempt (term_status_code termination) last_attempt]
    /\ (so_parsed_usage o = None -> ue_usage event' = UsageReport_missing)
    /\ (forall report, so_parsed_usage o = Some report ->
          ur_total_tokens (ue_usage event') = ur_total_tokens report
          /\ ur_source (ue_usage event') = ur_source report)
  else
    ue_success event' = ue_success event
    /\ ue_status_code event' = ue_status_code event
    /\ attempts' = attempts ++ [last_attempt].
Proof.
  assert (forall (f : UsageAttempt -> UsageAttempt) x l, update_last f (l ++ [x]) = l ++ [f x]) as Hl.
  { intros f x l. induction l as [|y l IH]; [done|]. cbn. rewrite IH. by destruct l. }
  unfold finalize_stream_usage. destruct (is_failure (settled_termination o)) eqn:Hf; [|done].
  cbn [set_outcome ue_success ue_status_code ue_error_summary ue_usage].
  unfold usage_for_stream_observation. rewrite Hl. split_and!; try done.
  - destruct (settled_termination o); try discriminate Hf; cbn; lia.
  - by intros ->.
  - intros report ->. by destruct (_ && _).
Qed.
