(* ===== verification/EventFeed.v ===== *)
(** * The event feed

    The read side of [src/src/infra/events.rs] and the query of
    [src/src/api/events.rs]: one list of events over five tables.

    [unified_events] is the common table expression of [UNIFIED_EVENTS_CTE], one
    function per branch of its [UNION ALL]; [page_rows] is [EVENT_PAGE_SQL];
    [list_events] is [EventRepository::list] and [parse_event_query] the
    validation of a request.  [text_order] is the collation of the database,
    [FeedDb] its [md5] and the text of a timestamp in JSON, [EventTime] the
    conversions of [chrono].  Following the cursors reads the feed completely. *)

From Stdlib Require Import ZArith Lia Ascii Sorting.Sorted.
From stdpp Require Import base gmap list strings pretty sorting.
From S2P Require Import Prelude.
From S2P Require Import RustStr.
From S2P Require Import BTree.
From S2P Require Import Keyset.
From S2P Require Import SourceUrl.
From S2P Require Import Json.
From S2P Require Import Redaction.
From S2P Require Import Events.
From S2P Require Import Cleanup.
From S2P Require Import ModelCatalog.
From S2P Require Import Accounting.

(** ** The tables *)

(** A row of [audit_logs] with the columns of migration 14. *)
Record AuditRow : Type := mkAuditRow {
  ar_operation_id : string;
  ar_action : string;
  ar_status : string;
  ar_result : string;
  ar_actor : string;
  ar_resource_type : option string;
  ar_resource_id : option string;
  ar_resource : option string;
  ar_request_id : option string;
  ar_details : Value;
  ar_error_code : option string;
  ar_created_at : Z;
  ar_completed_at : option Z;
}.

Record HealthRow : Type := mkHealthRow {
  hr_account_id : string;
  hr_status : string;
  hr_source : string;
  hr_observed_at : Z;
  hr_cooldown_until : option Z;
  hr_consecutive_failures : Z;
  hr_error_code : option string;
  hr_connection_test_id : option Z;
  hr_latency_ms : option Z;
}.

(** Requests are keyed by [request_id]; the [Z] is [created_at]. *)
Record FeedTables : Type := mkFeedTables {
  fd_system : gmap Z SystemEvent;
  fd_audit : gmap Z AuditRow;
  fd_health : gmap Z HealthRow;
  fd_discovery : gmap Z DiscoveryRunRecord;
  fd_requests : gmap string (Z * UsageEvent);
}.

Class FeedDb : Type := {
  md5 : string -> string;
  json_time : Z -> string;
}.

(** ** The unified rows *)

Record UnifiedRow : Type := mkUnifiedRow {
  un_event_id : string;
  un_occurred_at : Z;
  un_category : string;
  un_event_type : string;
  un_level : string;
  un_subject_type : string;
  un_subject_id : option string;
  un_correlation_id : option string;
  un_message : string;
  un_details : Value;
  un_source : string;
  un_redact_subject_id : bool;
  un_redact_correlation_id : bool;
}.

Definition or_null {A} (f : A -> Value) (o : option A) : Value := match o with Some a => f a | None => VNull end.

(** [jsonb_strip_nulls]: fields that are null go, at every depth. *)
Fixpoint strip_nulls (v : Value) : Value :=
  match v with
  | VObject m => VObject (filter (fun kv => kv.2 <> VNull) (map (fun kv => match kv with (k, v) => (k, strip_nulls v) end) m))
  | VArray l => VArray (map strip_nulls l)
  | other => other
  end.

(** [NULLIF(s, '')]. *)
Definition null_if_empty (o : option string) : option string := o ≫= fun s => if is_empty s then None else Some s.

Definition one_of (s : string) (l : list string) : bool := existsb (String.eqb s) l.

Section Feed.
Context `{FeedDb}.

Definition system_row (id : Z) (e : SystemEvent) : UnifiedRow :=
  mkUnifiedRow ("system:" +:+ dec id) (se_occurred_at e) (se_category e) (se_event_type e) (se_level e)
    (se_subject_type e) (se_subject_id e) (se_correlation_id e) (se_message e) (se_details e) "system_events"
    false ((se_category e =?s "configuration") && is_some (se_correlation_id e)).

Definition audit_row (id : Z) (r : AuditRow) : UnifiedRow :=
  let requested := is_some (null_if_empty (ar_request_id r)) in
  mkUnifiedRow ("audit:" +:+ dec id) (ar_created_at r)
    (if starts_with (ar_action r) "retention." || starts_with (ar_action r) "backup." then "operation" else "admin")
    (ar_action r)
    (if one_of (ar_status r) ["cancel_requested"; "cancelled"] then "warning"
     else if one_of (ar_result r) ["failure"; "conflict"; "rollback"] || (ar_status r =?s "failed") then "error"
     else "info")
    (unwrap_or (ar_resource_type r) "operation")
    (Some (unwrap_or (ar_resource_id r) (ar_operation_id r)))
    (Some (unwrap_or (null_if_empty (ar_request_id r)) (ar_operation_id r)))
    (ar_action r)
    (strip_nulls (json_object
      [("status", VString (ar_status r)); ("result", VString (ar_result r)); ("actor", VString REDACTED);
       ("resource", or_null VString (ar_resource r)); ("error_code", or_null VString (ar_error_code r));
       ("completed_at", or_null (fun t => VString (json_time t)) (ar_completed_at r)); ("metadata", ar_details r)]))
    "audit_logs"
    (requested && negb (is_some (ar_resource_id r)))
    requested.

Definition health_row (id : Z) (r : HealthRow) : UnifiedRow :=
  mkUnifiedRow ("health:" +:+ dec id) (hr_observed_at r) "health" ("account.health." +:+ hr_status r)
    (if one_of (hr_status r) ["cooling_down"; "unhealthy"; "stale"] then "warning" else "info")
    "account" (Some (hr_account_id r))
    ((fun test => "connection-test:" +:+ dec test) <$> hr_connection_test_id r)
    ("Account health changed to " +:+ hr_status r)
    (strip_nulls (json_object
      [("status", VString (hr_status r)); ("health_source", VString (hr_source r));
       ("cooldown_until", or_null (fun t => VString (json_time t)) (hr_cooldown_until r));
       ("consecutive_failures", of_i64 (hr_consecutive_failures r)); ("error_code", or_null VString (hr_error_code r));
       ("connection_test_id", or_null of_i64 (hr_connection_test_id r)); ("latency_ms", or_null of_i64 (hr_latency_ms r))]))
    "account_health_events" false false.

Definition discovery_row (id : Z) (r : DiscoveryRunRecord) : UnifiedRow :=
  mkUnifiedRow ("discovery:" +:+ dec id) (dr_completed_at r) "discovery" ("source.discovery." +:+ dr_status r)
    (if dr_status r =?s "succeeded" then "info" else "error")
    "source" (Some (dr_source_id r)) (Some ("discovery:" +:+ dec id))
    ("Model discovery " +:+ dr_status r)
    (strip_nulls (json_object
      [("account_id", or_null VString (dr_account_id r)); ("provider_preset_id", VString (dr_provider_preset_id r));
       ("provider_preset_version", of_i64 (dr_provider_preset_version r));
       ("discovered_model_count", of_i64 (dr_discovered_model_count r)); ("http_status", or_null of_i64 (dr_http_status r));
       ("latency_ms", of_i64 (dr_latency_ms r)); ("error_code", or_null VString (dr_error_code r));
       ("requested_by", VString REDACTED)]))
    "source_discovery_runs" false false.

(** Only requests that failed, fell back or were degraded are events. *)
Definition notable (e : UsageEvent) : bool := negb (ue_success e) || is_some (ue_fallback_reason e) || ue_degraded e.

Definition request_row (request_id : string) (created_at : Z) (e : UsageEvent) : UnifiedRow :=
  mkUnifiedRow ("request:" +:+ md5 request_id) created_at "request"
    (if negb (ue_success e) then "request.failed"
     else if is_some (ue_fallback_reason e) then "request.fallback" else "request.degraded")
    (if negb (ue_success e) then "error" else "warning")
    "request" (Some request_id) (Some request_id)
    (if negb (ue_success e) then "Gateway request failed"
     else if is_some (ue_fallback_reason e) then "Gateway request used fallback"
     else "Gateway request used degraded routing")
    (strip_nulls (json_object
      [("logical_model", VString (ue_logical_model e)); ("upstream_model_id", or_null VString (ue_upstream_model_id e));
       ("provider_id", VString (ue_provider_id e)); ("source_id", VString (ue_source_id e));
       ("account_id", VString (ue_account_id e)); ("protocol_in", VString (ue_protocol_in e));
       ("protocol_upstream", VString (ue_protocol_upstream e)); ("status_code", of_i64 (ue_status_code e));
       ("retry_count", of_i64 (ue_retry_count e)); ("route_id", or_null VString (ue_route_id e));
       ("streamed", VBool (ue_streamed e)); ("fallback_reason", or_null VString (ue_fallback_reason e));
       ("error_summary", or_null VString (ue_error_summary e))]))
    "usage_events" false false.

Definition request_rows (requests : gmap string (Z * UsageEvent)) : list UnifiedRow :=
  map (fun kv => request_row kv.1 kv.2.1 kv.2.2) (filter (fun kv => notable kv.2.2 = true) (map_to_list requests)).

Definition unified_events (t : FeedTables) : list UnifiedRow :=
  map (fun kv => system_row kv.1 kv.2) (map_to_list (fd_system t))
  ++ map (fun kv => audit_row kv.1 kv.2) (map_to_list (fd_audit t))
  ++ map (fun kv => health_row kv.1 kv.2) (map_to_list (fd_health t))
  ++ map (fun kv => discovery_row kv.1 kv.2) (map_to_list (fd_discovery t))
  ++ request_rows (fd_requests t).
End Feed.

(** ** Filters, cursors and pages *)

Record EventFilter : Type := mkEventFilter {
  ef_from : option Z;
  ef_since : option Z;
  ef_to : option Z;
  ef_category : option string;
  ef_level : option string;
  ef_event_type : option string;
  ef_subject_type : option string;
  ef_subject_id : option string;
  ef_correlation_id : option string;
  ef_source : option string;
}.

(** [$n IS NULL OR column = $n]; a column that is [NULL] matches nothing. *)
Definition column_is (wanted : option string) (column : option string) : bool :=
  match wanted with Some w => is_some_and column (String.eqb w) | None => true end.

Definition event_matches (f : EventFilter) (r : UnifiedRow) : bool :=
  is_none_or (ef_from f) (fun t => t <=? un_occurred_at r)
  && is_none_or (ef_since f) (fun t => t <? un_occurred_at r)
  && is_none_or (ef_to f) (fun t => un_occurred_at r <? t)
  && column_is (ef_category f) (Some (un_category r))
  && column_is (ef_level f) (Some (un_level r))
  && column_is (ef_event_type f) (Some (un_event_type r))
  && column_is (ef_subject_type f) (Some (un_subject_type r))
  && column_is (ef_subject_id f) (un_subject_id r)
  && column_is (ef_correlation_id f) (un_correlation_id r)
  && column_is (ef_source f) (Some (un_source r)).

Record EventCursor : Type := mkEventCursor { ec_occurred_at : Z; ec_event_id : string }.

(** [DateTime::timestamp_micros] and [Utc.timestamp_micros(..).single()]. *)
Class EventTime : Type := {
  timestamp_micros : Z -> Z;
  from_micros : Z -> option Z;
}.

Section Cursor.
Context `{EventTime}.

Definition encode_cursor (c : EventCursor) : string :=
  dec (timestamp_micros (ec_occurred_at c)) +:+ ":" +:+ ec_event_id c.

Definition decode_cursor (value : string) : option EventCursor :=
  match split_once ":"%char value with
  | Some (micros, event_id) =>
      if is_empty event_id then None
      else parse_int I64_MIN I64_MAX micros ≫= fun micros => from_micros micros ≫= fun t => Some (mkEventCursor t event_id)
  | None => None
  end.
End Cursor.

Record EventRecord : Type := mkEventRecord {
  ev_event_id : string;
  ev_occurred_at : Z;
  ev_category : string;
  ev_event_type : string;
  ev_level : string;
  ev_subject_type : string;
  ev_subject_id : option string;
  ev_correlation_id : option string;
  ev_message : string;
  ev_details : Value;
  ev_source : string;
}.

(** The columns of a selected row. *)
Definition selected_columns (r : UnifiedRow) : EventRecord :=
  mkEventRecord (un_event_id r) (un_occurred_at r) (un_category r) (un_event_type r) (un_level r) (un_subject_type r)
    (if un_redact_subject_id r || (un_redact_correlation_id r && is_some (un_subject_id r)
          && bool_decide (un_subject_id r = un_correlation_id r))
     then Some REDACTED else un_subject_id r)
    (if un_redact_correlation_id r then Some REDACTED else un_correlation_id r)
    (un_message r) (un_details r) (un_source r).

Definition event_key (r : UnifiedRow) : Z * string := (un_occurred_at r, un_event_id r).

(** Newest first. *)
Definition descending {K} (O : Ordered K) : Ordered K.
Proof.
  refine {| kcmp x y := @kcmp K O y x |}.
  - intros x y. rewrite kcmp_eq. by split.
  - intros x y. apply kcmp_antisym.
  - intros x y z Hxy Hyz. by apply (kcmp_trans z y x).
Defined.

Section Pages.
Context `{FeedDb} `{EventTime} `{UrlCrates} `{UrlEdit} (text_order : Ordered string).

Definition key_order : Ordered (Z * string) := @prod_Ordered Z string Z_Ordered text_order.
Definition newest_first : Ordered (Z * string) := descending key_order.

(** [(occurred_at, event_id) < (cursor)]. *)
Definition before_cursor (cursor : option EventCursor) (r : UnifiedRow) : bool :=
  match cursor with
  | Some c => match @kcmp _ key_order (event_key r) (ec_occurred_at c, ec_event_id c) with Lt => true | _ => false end
  | None => true
  end.

Definition page_rows (rows : list UnifiedRow) (f : EventFilter) (cursor : option EventCursor) (limit : Z) : list EventRecord :=
  map selected_columns (firstn (Z.to_nat limit)
    (@sort_by _ _ newest_first event_key (filter (fun r => event_matches f r && before_cursor cursor r = true) rows))).

(** What the loop over a page leaves of a record. *)
Definition sanitize_record (e : EventRecord) : EventRecord :=
  mkEventRecord (ev_event_id e) (ev_occurred_at e) (ev_category e) (safe_text (ev_event_type e) 128 "event") (ev_level e)
    (safe_text (ev_subject_type e) 64 "subject") (sanitize_detail_string <$> ev_subject_id e)
    (sanitize_detail_string <$> ev_correlation_id e) (sanitize_detail_string (ev_message e))
    (sanitize_details (ev_details e) 0) (ev_source e).

Record EventPage : Type := mkEventPage {
  pg_data : list EventRecord;
  pg_next_cursor : option string;
  pg_has_more : bool;
}.

Definition clamp (lo hi x : Z) : Z := Z.max lo (Z.min hi x).

Definition event_page (rows : list UnifiedRow) (f : EventFilter) (limit : Z) (cursor : option EventCursor) : EventPage :=
  let limit := clamp 1 500 limit in
  let data := page_rows rows f cursor (limit + 1) in
  let has_more := limit <? Z.of_nat (length data) in
  let data := if has_more then firstn (Z.to_nat limit) data else data in
  let next_cursor :=
    if has_more
    then (fun e => encode_cursor (mkEventCursor (ev_occurred_at e) (ev_event_id e))) <$> last data
    else None in
  mkEventPage (map sanitize_record data) next_cursor has_more.

(** [list] without a pool, with a query that fails, and with an answer. *)
Definition list_events (pool : option FeedTables) (fault : option DbError) (f : EventFilter) (limit : Z)
    (cursor : option EventCursor) : result EventPage DbError :=
  match pool with
  | None => Err DbPoolClosed
  | Some tables =>
      match fault with
      | Some error => Err error
      | None => Ok (event_page (unified_events tables) f limit cursor)
      end
  end.
End Pages.

(** ** The query of a request *)

Definition CATEGORIES : list string :=
  ["lifecycle"; "configuration"; "database"; "security"; "request"; "health"; "operation"; "admin"; "discovery"].
Definition LEVELS : list string := ["info"; "warning"; "error"].
Definition SOURCES : list string :=
  ["system_events"; "usage_events"; "account_health_events"; "audit_logs"; "source_discovery_runs"].

Record EventQuery : Type := mkEventQuery {
  eq_filter : EventFilter;
  eq_limit : Z;
  eq_cursor : option EventCursor;
}.

Section Query.
Context `{Rfc3339} `{EventTime}.

Abbreviation Query := (list (string * string)).

Definition parse_time (query : Query) (name : string) : result (option Z) string :=
  match hm_get query name with
  | Some value =>
      match parse_from_rfc3339 value with
      | Some t => Ok (Some t)
      | None => Err (name +:+ " must be an RFC3339 timestamp")
      end
  | None => Ok None
  end.

(** [chars().any(char::is_control)]: there is something to drop. *)
Definition has_control (s : string) : bool := negb (drop_controls s =?s s).

Definition text_filter (query : Query) (name : string) (max_len : Z) : result (option string) string :=
  match hm_get query name with
  | None => Ok None
  | Some value =>
      let value := trim value in
      if is_empty value || (max_len <? char_count value) || has_control value
      then Err (name +:+ " must be 1.." +:+ dec max_len +:+ " printable characters")
      else Ok (Some value)
  end.

Definition enum_filter (query : Query) (name : string) (allowed : list string) : result (option string) string :=
  let? value := text_filter query name 64 in
  if is_some_and value (fun value => negb (one_of value allowed)) then Err ("unsupported " +:+ name) else Ok value.

(** The two names of the correlation id. *)
Definition correlation_filter (correlation operation : option string) : result (option string) string :=
  match correlation, operation with
  | Some c, Some o =>
      if negb (c =?s o) then Err "correlation_id and operation_id must match when both are provided" else Ok (Some c)
  | Some value, None | None, Some value => Ok (Some value)
  | None, None => Ok None
  end.

Definition parse_limit (query : Query) : result Z string :=
  match hm_get query "limit" with
  | Some value =>
      match parse_int I64_MIN I64_MAX value with
      | Some n => if (1 <=? n) && (n <=? 500) then Ok n else Err "limit must be between 1 and 500"
      | None => Err "limit must be between 1 and 500"
      end
  | None => Ok 100
  end.

Definition parse_cursor (query : Query) : result (option EventCursor) string :=
  match hm_get query "cursor" with
  | Some value => match decode_cursor value with Some c => Ok (Some c) | None => Err "cursor is invalid" end
  | None => Ok None
  end.

Definition parse_event_query (query : Query) : result EventQuery string :=
  let? from := parse_time query "from" in
  let? since := parse_time query "since" in
  let? to := parse_time query "to" in
  if is_some from && is_some since then Err "from and since cannot be combined"
  else
    let lower := match from with Some t => Some t | None => since end in
    if match lower, to with Some lower, Some to => to <=? lower | _, _ => false end
    then Err "from/since must be earlier than to"
    else
      let? category := enum_filter query "category" CATEGORIES in
      let? level := enum_filter query "level" LEVELS in
      let? source := enum_filter query "source" SOURCES in
      let? event_type := text_filter query "event_type" 128 in
      let? subject_type := text_filter query "subject_type" 64 in
      let? subject_id := text_filter query "subject_id" 256 in
      let? correlation := text_filter query "correlation_id" 256 in
      let? operation := text_filter query "operation_id" 256 in
      let? correlation_id := correlation_filter correlation operation in
      let? limit := parse_limit query in
      let? cursor := parse_cursor query in
      Ok (mkEventQuery (mkEventFilter from since to category level event_type subject_type subject_id correlation_id source)
            limit cursor).
End Query.

(** ** Cursors *)

Section Cursors.
Context `{EventTime}.

(** A time as PostgreSQL stores it: whole microseconds in the range of both
    sides. *)
Definition time_ok (t : Z) : Prop :=
  I64_MIN <= timestamp_micros t <= I64_MAX /\ from_micros (timestamp_micros t) = Some t.

Lemma cursor_survives_its_text c : time_ok (ec_occurred_at c) -> ec_event_id c <> "" -> decode_cursor (encode_cursor c) = Some c.
Proof.
  intros [Hr Ht] Hid. unfold decode_cursor, encode_cursor.
  change (":" +:+ ec_event_id c) with (String ":" (ec_event_id c)).
  rewrite split_once_app by apply dec_no_colon.
  rewrite (proj2 (String.eqb_neq _ _) Hid : is_empty (ec_event_id c) = false).
  rewrite parse_int_dec by done. cbn. rewrite Ht. by destruct c.
Qed.
End Cursors.

(** ** Event ids *)

Section Ids.
Context `{FeedDb}.

Lemma app_prefix_inj (p s t : string) : p +:+ s = p +:+ t -> s = t.
Proof. apply (inj (String.append p)). Qed.

Lemma dec_inj x y : dec x = dec y -> x = y.
Proof. apply (inj pretty). Qed.

(** The ids of one branch: its prefix and something unique. *)
Definition ids_of {R} (f : Z -> R -> UnifiedRow) (m : gmap Z R) : list string :=
  map un_event_id (map (fun kv => f kv.1 kv.2) (map_to_list m)).

Lemma branch_ids {R} (f : Z -> R -> UnifiedRow) p (m : gmap Z R) :
  (forall k r, un_event_id (f k r) = p +:+ dec k) ->
  NoDup (ids_of f m) /\ forall id, id ∈ ids_of f m -> exists s, id = p +:+ s.
Proof.
  intros Hp. unfold ids_of. rewrite map_map. split.
  - apply (NoDup_fmap_2_strong (fun kv => un_event_id (f kv.1 kv.2))).
    + intros [k r] [j q] Hk Hj Heq. cbn in Heq. rewrite !Hp in Heq. apply app_prefix_inj, dec_inj in Heq as ->.
      apply elem_of_map_to_list in Hk, Hj. f_equal. congruence.
    + apply NoDup_map_to_list.
  - intros id ([k r] & -> & _)%list_elem_of_fmap. cbn. rewrite Hp. by eexists.
Qed.

Definition request_ids (requests : gmap string (Z * UsageEvent)) : list string := map un_event_id (request_rows requests).

Lemma request_branch_ids requests :
  (forall r s, is_Some (requests !! r) -> is_Some (requests !! s) -> md5 r = md5 s -> r = s) ->
  NoDup (request_ids requests) /\ forall id, id ∈ request_ids requests -> exists s, id = "request:" +:+ s.
Proof.
  intros Hmd5. unfold request_ids, request_rows. rewrite map_map. split.
  - apply (NoDup_fmap_2_strong (fun kv => un_event_id (request_row kv.1 kv.2.1 kv.2.2))).
    + intros [r [t e]] [s [u e']] [_ Hr]%list_elem_of_filter [_ Hs]%list_elem_of_filter Heq. cbn in Heq.
      apply app_prefix_inj in Heq. apply elem_of_map_to_list in Hr, Hs. apply Hmd5 in Heq as ->; [|by eexists..].
      f_equal. congruence.
    + apply NoDup_filter, NoDup_map_to_list.
  - intros id ([r [t e]] & -> & _)%list_elem_of_fmap. cbn. by eexists.
Qed.

(** No two events of the feed share an id. *)
Lemma feed_ids_distinct t :
  (forall r s, is_Some (fd_requests t !! r) -> is_Some (fd_requests t !! s) -> md5 r = md5 s -> r = s) ->
  NoDup (map un_event_id (unified_events t)).
Proof.
  intros Hmd5. unfold unified_events. rewrite !map_app.
  destruct (branch_ids system_row "system:" (fd_system t)) as [Ns Ps]; [done|].
  destruct (branch_ids audit_row "audit:" (fd_audit t)) as [Na Pa]; [done|].
  destruct (branch_ids health_row "health:" (fd_health t)) as [Nh Ph]; [done|].
  destruct (branch_ids discovery_row "discovery:" (fd_discovery t)) as [Nd Pd]; [done|].
  destruct (request_branch_ids _ Hmd5) as [Nr Pr]. unfold request_ids, ids_of in *.
  assert (forall p q (l k : list string), (forall id, id ∈ l -> exists s, id = p +:+ s) -> (forall id, id ∈ k -> exists s, id = q +:+ s) ->
    (forall s u, p +:+ s <> q +:+ u) -> forall id, id ∈ l -> id ∉ k) as Hdisj.
  { intros p q l k Hl Hk Hpq id Hi Hi'. destruct (Hl id Hi) as [s ->], (Hk _ Hi') as [u Hu]. by apply (Hpq s u). }
  apply NoDup_app. split; [done|]. split.
  { intros id Hid. rewrite !not_elem_of_app. repeat split; (eapply Hdisj; [exact Ps|eassumption||done|intros s u; discriminate|exact Hid]). }
  apply NoDup_app. split; [done|]. split.
  { intros id Hid. rewrite !not_elem_of_app. repeat split; (eapply Hdisj; [exact Pa|eassumption||done|intros s u; discriminate|exact Hid]). }
  apply NoDup_app. split; [done|]. split.
  { intros id Hid. rewrite !not_elem_of_app. repeat split; (eapply Hdisj; [exact Ph|eassumption||done|intros s u; discriminate|exact Hid]). }
  apply NoDup_app. split; [done|]. split; [|done].
  intros id Hid. eapply Hdisj; [exact Pd|exact Pr|intros s u; discriminate|exact Hid].
Qed.
End Ids.

(** ** Pages *)

Section Pages.
Context `{EventTime} `{UrlCrates} `{UrlEdit} (text_order : Ordered string).

(** A page as the client sees it: its records and the cursor it sends back. *)
Definition feed_page (rows : list UnifiedRow) (f : EventFilter) (limit : Z) (cursor : option EventCursor)
    : list EventRecord * option (option EventCursor) :=
  let page := event_page text_order rows f limit cursor in (pg_data page, decode_cursor <$> pg_next_cursor page).

Definition read_pages (fuel : nat) (rows : list UnifiedRow) (f : EventFilter) (limit : Z) (cursor : option EventCursor)
    : option (list EventRecord) :=
  read_all fuel (feed_page rows f limit) cursor.

#[local] Existing Instance newest_first.

(** All matching events, newest first. *)
Definition matching (rows : list UnifiedRow) (f : EventFilter) : list UnifiedRow :=
  rows_after event_key (event_matches f) None rows.

Definition shown_record (r : UnifiedRow) : EventRecord := sanitize_record (selected_columns r).

Definition cursor_key (c : EventCursor) : Z * string := (ec_occurred_at c, ec_event_id c).
Definition row_cursor (r : UnifiedRow) : EventCursor := mkEventCursor (un_occurred_at r) (un_event_id r).

Lemma before_cursor_past c r : before_cursor text_order c r = past event_key (cursor_key <$> c) r.
Proof. by destruct c. Qed.

Lemma clamp_range limit : 1 <= clamp 1 500 limit.
Proof. unfold clamp. lia. Qed.

(** A page is cut from the rows after its cursor. *)
Lemma feed_page_cut rows f limit c :
  feed_page rows f limit c
  = (map shown_record (cut (clamp 1 500 limit) (rows_after event_key (event_matches f) (cursor_key <$> c) rows)).1,
     (fun r => decode_cursor (encode_cursor (row_cursor r)))
       <$> (cut (clamp 1 500 limit) (rows_after event_key (event_matches f) (cursor_key <$> c) rows)).2).
Proof.
  unfold feed_page, event_page, page_rows, rows_after, cut. rewrite length_map.
  rewrite (list_filter_iff _ (fun r => event_matches f r && past event_key (cursor_key <$> c) r = true))
    by (intros r; by rewrite before_cursor_past).
  set (l := firstn _ _). destruct (_ <? _); cbn [fst snd pg_data pg_next_cursor].
  - rewrite firstn_map, map_map, (fmap_last selected_columns (firstn _ l) : last (map _ _) = _). by destruct (last _).
  - by rewrite map_map.
Qed.

Lemma pages_read_the_rows rows f limit : NoDup (map event_key rows) ->
  (forall r, r ∈ rows -> time_ok (un_occurred_at r)) -> (forall r, r ∈ rows -> un_event_id r <> "") ->
  read_pages (S (length rows)) rows f limit None = Some (map shown_record (matching rows f)).
Proof.
  intros Hkeys Htimes Hids.
  apply (read_all_rows event_key (event_matches f) rows Hkeys (clamp 1 500 limit) (clamp_range limit) shown_record cursor_key
           (fun r => decode_cursor (encode_cursor (row_cursor r)))); [|apply feed_page_cut].
  intros r Hr. exists (row_cursor r). split; [|done]. apply cursor_survives_its_text; cbn; auto.
Qed.
End Pages.

(** ** The feed of the tables *)

Section Tables.
Context `{FeedDb} `{EventTime} `{UrlCrates} `{UrlEdit} (text_order : Ordered string).

Lemma map_key_distinct (rows : list UnifiedRow) : NoDup (map un_event_id rows) -> NoDup (map event_key rows).
Proof.
  intros Hn. apply (NoDup_fmap_1 snd). change (NoDup (map snd (map event_key rows))). by rewrite map_map.
Qed.

Lemma feed_ids_nonempty t r : r ∈ unified_events t -> un_event_id r <> "".
Proof.
  unfold unified_events. rewrite !elem_of_app.
  intros [(kv & -> & _)%list_elem_of_fmap|[(kv & -> & _)%list_elem_of_fmap|[(kv & -> & _)%list_elem_of_fmap|
    [(kv & -> & _)%list_elem_of_fmap|(kv & -> & _)%list_elem_of_fmap]]]]; done.
Qed.

(** C35. The pages of the event feed are complete: a client that starts
    without a cursor and sends back the cursor of each page gets every matching
    event of the five tables exactly once, newest first, whatever page size it
    asks for, and is done after finitely many pages, if the ids of two requests
    do not collide and the stored times are in range. *)
Theorem event_feed_is_read_completely t f limit :
  (forall r s, is_Some (fd_requests t !! r) -> is_Some (fd_requests t !! s) -> md5 r = md5 s -> r = s) ->
  (forall r, r ∈ unified_events t -> time_ok (un_occurred_at r)) ->
  read_pages text_order (S (length (unified_events t))) (unified_events t) f limit None
  = Some (map shown_record (matching text_order (unified_events t) f)).
Proof.
  intros Hmd5 Ht. apply pages_read_the_rows; [by apply map_key_distinct, feed_ids_distinct|exact Ht|apply feed_ids_nonempty].
Qed.
End Tables.

(** ** Examples *)

Definition example_feed_db : FeedDb := {| md5 s := s; json_time t := dec t |}.
Definition example_time : EventTime :=
  {| timestamp_micros t := t / 1000; from_micros m := Some (m * 1000) |}.

Definition example_tables : FeedTables :=
  mkFeedTables
    {[ 1 := new_event 1000 "lifecycle" "gateway.started" "info" "gateway" "Gateway started";
       2 := new_event 3000 "database" "database.connection_failed" "error" "database" "down" ]}
    {[ 7 := mkAuditRow "op" "source.update" "succeeded" "success" "admin" (Some "source") None None (Some "req-1")
              (VObject []) None 2000 None ]} ∅ ∅ ∅.
Definition no_filter : EventFilter := mkEventFilter None None None None None None None None None None.

(** One event per page. *)
Lemma event_feed_is_read_completely_witness :
  length (unified_events (H:=example_feed_db) example_tables) = 3%nat
  /\ option_map (map ev_event_id)
       (@read_pages example_time example_urls example_edit string_Ordered 4
          (unified_events (H:=example_feed_db) example_tables) no_filter 1 None)
     = Some ["system:2"; "audit:7"; "system:1"].
Proof.
  split; [vm_compute; reflexivity|].
  assert (Forall (fun r => @time_ok example_time (un_occurred_at r)) (unified_events (H:=example_feed_db) example_tables)) as Hall.
  { apply (Forall_map un_occurred_at).
    replace (map un_occurred_at (unified_events (H:=example_feed_db) example_tables)) with [3000; 1000; 2000]
      by (vm_compute; reflexivity).
    unfold time_ok, I64_MIN, I64_MAX. cbn [timestamp_micros from_micros example_time].
    rewrite !Forall_cons, Forall_nil. split_and!; vm_compute; done. }
  assert (forall r s, is_Some (fd_requests example_tables !! r) -> is_Some (fd_requests example_tables !! s) ->
    @md5 example_feed_db r = @md5 example_feed_db s -> r = s) as Hmd5 by (intros r s [x Hx]; discriminate Hx).
  pose proof (@event_feed_is_read_completely example_feed_db example_time example_urls example_edit string_Ordered
    example_tables no_filter 1 Hmd5 (proj1 (Forall_forall _ _) Hall)) as Hread.
  change (S (length (unified_events (H:=example_feed_db) example_tables))) with 4%nat in Hread.
  etrans; [exact (f_equal (option_map (map ev_event_id)) Hread)|]. vm_compute. reflexivity.
Defined.
