(* ===== verification/F64.v ===== *)
(** * [f64]

    The floating-point operations the source uses, on the bit-exact
    specification of IEEE 754 binary64 in the standard library ([SpecFloat]):
    arithmetic, comparison, [clamp] and [min], conversion of integers and
    [str::parse::<f64>].  The lemmas give the order of numbers that are not NaN
    and say which operations cannot produce a NaN. *)

From Stdlib Require Import ZArith Lia Ascii SpecFloat.
From stdpp Require Import base list strings.
From S2P Require Import Prelude.
From S2P Require Import RustStr.
From S2P Require Import BTree.
From S2P Require Import Json.

Abbreviation f64 := spec_float.
Definition PREC : Z := 53.
Definition EMAX : Z := 1024.

Definition f_add : f64 -> f64 -> f64 := SFadd PREC EMAX.
Definition f_sub : f64 -> f64 -> f64 := SFsub PREC EMAX.
Definition f_mul : f64 -> f64 -> f64 := SFmul PREC EMAX.
Definition f_div : f64 -> f64 -> f64 := SFdiv PREC EMAX.
Definition f_lt : f64 -> f64 -> bool := SFltb.
Definition f_le : f64 -> f64 -> bool := SFleb.

(** [n as f64]. *)
Definition f_of_int (n : Z) : f64 := binary_normalize PREC EMAX n 0 false.

Definition is_nan (x : f64) : bool := match x with S754_nan => true | _ => false end.
Definition is_finite (x : f64) : bool := match x with S754_nan | S754_infinity _ => false | _ => true end.

(** [f64::clamp] with bounds that are in order. *)
Definition f_clamp (x lo hi : f64) : f64 :=
  let x := if f_lt x lo then lo else x in
  if f_lt hi x then hi else x.

(** [f64::min]. *)
Definition f_min (x y : f64) : f64 :=
  if is_nan x then y else if is_nan y then x else if f_lt y x then y else x.

(** ** Texts *)

(** The digits at the head of a text: their value after [acc], how many there
    are, and the rest. *)
Fixpoint take_digits (acc : Z) (n : nat) (s : string) : Z * nat * string :=
  match s with
  | String a t => match digit a with Some d => take_digits (acc * 10 + d) (S n) t | None => (acc, n, s) end
  | EmptyString => (acc, n, s)
  end.

Definition take_sign (s : string) : bool * string :=
  match s with
  | String a t => if Ascii.eqb a "-"%char then (true, t) else if Ascii.eqb a "+"%char then (false, t) else (false, s)
  | EmptyString => (false, s)
  end.

(** [m * 10^e], correctly rounded. *)
Definition f_decimal (negative : bool) (m e : Z) : f64 :=
  match m with
  | Zpos p =>
      if 0 <=? e then binary_normalize PREC EMAX (if negative then - (m * 10 ^ e) else m * 10 ^ e) 0 false
      else let '(q, e, l) := SFdiv_core_binary PREC EMAX m 0 (10 ^ (- e)) 0 in binary_round_aux PREC EMAX negative q e l
  | _ => S754_zero negative
  end.

(** The exponent part: nothing, or [e] with at least one digit and nothing
    behind it. *)
Definition take_exponent (s : string) : option Z :=
  match s with
  | EmptyString => Some 0
  | String a t =>
      if Ascii.eqb a "e"%char || Ascii.eqb a "E"%char then
        let '(negative, t) := take_sign t in
        let '(e, n, rest) := take_digits 0 0 t in
        if (n =? 0)%nat || negb (is_empty rest) then None else Some (if negative then - e else e)
      else None
  end.

(** [str::parse::<f64>]. *)
Definition parse_f64 (s : string) : option f64 :=
  let '(negative, t) := take_sign s in
  let lower := to_ascii_lowercase t in
  if (lower =?s "inf") || (lower =?s "infinity") then Some (S754_infinity negative)
  else if lower =?s "nan" then Some S754_nan
  else
    let '(m, n, rest) := take_digits 0 0 t in
    let '(m, k, n, rest) :=
      match rest with
      | String a u => if Ascii.eqb a "."%char then let '(m, k, rest) := take_digits m 0 u in (m, k, (n + k)%nat, rest)
                      else (m, 0%nat, n, rest)
      | EmptyString => (m, 0%nat, n, rest)
      end in
    if (n =? 0)%nat then None
    else (fun e => f_decimal negative m (e - Z.of_nat k)) <$> take_exponent rest.

(** [Value::as_f64]; a float carries its shortest decimal text. *)
Definition as_f64 (v : Value) : option f64 :=
  match v with
  | VNumber (PosInt n) => Some (f_of_int (Z.of_N n))
  | VNumber (NegInt p) => Some (f_of_int (Z.neg p))
  | VNumber (Float repr) => parse_f64 repr
  | _ => None
  end.

Definition f0 : f64 := f_of_int 0.
Definition f20 : f64 := f_of_int 20.
Definition f100 : f64 := f_of_int 100.

Example parse_tenth : parse_f64 "0.1" = Some (S754_finite false 7205759403792794 (-56)).
Proof. vm_compute. reflexivity. Qed.
Example parse_exponent : parse_f64 "-12.5e1" = Some (f_of_int (-125)) /\ parse_f64 "1e" = None /\ parse_f64 "." = None.
Proof. vm_compute. auto. Qed.
Example parse_overflow : parse_f64 "1e400" = Some (S754_infinity false) /\ parse_f64 "1e-400" = Some (S754_zero false).
Proof. vm_compute. auto. Qed.

(** ** The order *)

(** The place of a number in the order of those that are not NaN. *)
Definition f_key (x : f64) : Z * (Z * Z) :=
  match x with
  | S754_infinity true => (-2, (0, 0))
  | S754_finite true m e => (-1, (- e, - Z.pos m))
  | S754_zero _ | S754_nan => (0, (0, 0))
  | S754_finite false m e => (1, (e, Z.pos m))
  | S754_infinity false => (2, (0, 0))
  end.

Lemma f_compare_key x y : is_nan x = false -> is_nan y = false -> SFcompare x y = Some (kcmp (f_key x) (f_key y)).
Proof.
  destruct x as [sx|sx| |sx mx ex], y as [sy|sy| |sy my ey]; try done; intros _ _; try (by destruct sx); try (by destruct sy);
    try (by destruct sx, sy).
  destruct sx, sy; cbn; try done; f_equal.
  rewrite (Z.compare_opp ex ey), (Z.compare_antisym ex ey). by destruct (ex ?= ey).
Qed.

Lemma f_lt_key x y : is_nan x = false -> is_nan y = false -> f_lt x y = true <-> klt (f_key x) (f_key y).
Proof.
  intros Hx Hy. unfold f_lt, SFltb. rewrite f_compare_key by done. unfold klt.
  by destruct (kcmp (f_key x) (f_key y)).
Qed.

Lemma f_le_key x y : is_nan x = false -> is_nan y = false -> f_le x y = true <-> kcmp (f_key x) (f_key y) <> Gt.
Proof.
  intros Hx Hy. unfold f_le, SFleb. rewrite f_compare_key by done. by destruct (kcmp (f_key x) (f_key y)).
Qed.

Lemma f_le_refl x : is_nan x = false -> f_le x x = true.
Proof. intros Hx. apply f_le_key; [done..|]. by rewrite kcmp_refl. Qed.

Lemma f_lt_le x y : is_nan x = false -> is_nan y = false -> f_lt x y = false <-> f_le y x = true.
Proof.
  intros Hx Hy. rewrite f_le_key, <- not_true_iff_false, f_lt_key by done. unfold klt. rewrite (kcmp_antisym (f_key x)).
  by destruct (kcmp (f_key x) (f_key y)).
Qed.

Lemma f_le_trans x y z : is_nan x = false -> is_nan y = false -> is_nan z = false ->
  f_le x y = true -> f_le y z = true -> f_le x z = true.
Proof. intros Hx Hy Hz. rewrite !f_le_key by done. apply kcmp_le_trans. Qed.

(** ** Ranges *)

Definition in_range (lo hi x : f64) : Prop := is_nan x = false /\ f_le lo x = true /\ f_le x hi = true.

Lemma f_clamp_range x lo hi : is_nan x = false -> is_nan lo = false -> is_nan hi = false -> f_le lo hi = true ->
  in_range lo hi (f_clamp x lo hi).
Proof.
  intros Hx Hlo Hhi Hle. unfold f_clamp, in_range. destruct (f_lt x lo) eqn:E1.
  - destruct (f_lt hi lo) eqn:E2.
    + split_and!; [done|done|by apply f_le_refl].
    + split_and!; [done|by apply f_le_refl|done].
  - apply f_lt_le in E1; [|done..]. destruct (f_lt hi x) eqn:E2.
    + split_and!; [done|done|by apply f_le_refl].
    + apply f_lt_le in E2; [|done..]. by split_and!.
Qed.

(** ** Not a number *)

(** Rounding a mantissa that is not negative gives a number. *)
Lemma shr_1_nonneg r : 0 <= shr_m r -> 0 <= shr_m (shr_1 r).
Proof. destruct r as [m rb sb]. cbn. destruct m as [|[p|p|]|p]; cbn; lia. Qed.

Lemma iter_shr_nonneg n r : 0 <= shr_m r -> 0 <= shr_m (SpecFloat.iter_pos shr_1 n r).
Proof.
  revert r. induction n as [n IH|n IH|]; intros r Hr; cbn; [|auto|by apply shr_1_nonneg].
  by apply IH, IH, shr_1_nonneg.
Qed.

Lemma shr_fexp_nonneg m e l : 0 <= m -> 0 <= shr_m (shr_fexp PREC EMAX m e l).1.
Proof.
  intros Hm. unfold shr_fexp, shr. assert (0 <= shr_m (shr_record_of_loc m l)) as Hr by (by destruct l as [|[]]).
  destruct (fexp _ _ _ - e); cbn; [done|by apply iter_shr_nonneg|done].
Qed.

Lemma round_not_nan sx m e l : 0 <= m -> is_nan (binary_round_aux PREC EMAX sx m e l) = false.
Proof.
  intros Hm. unfold binary_round_aux. pose proof (shr_fexp_nonneg m e l Hm) as H1.
  destruct (shr_fexp PREC EMAX m e l) as [r e']. cbn in H1.
  assert (0 <= round_nearest_even (shr_m r) (loc_of_shr_record r)) as H2.
  { destruct r as [mr [] []]; cbn in *; try destruct (Z.even mr); lia. }
  pose proof (shr_fexp_nonneg _ e' loc_Exact H2) as H3. destruct (shr_fexp _ _ _ e' _) as [r' e'']. cbn in H3.
  destruct (shr_m r'); [done| |lia]. by destruct (_ <=? _).
Qed.

Lemma normalize_not_nan m e s : is_nan (binary_normalize PREC EMAX m e s) = false.
Proof.
  destruct m as [|p|p]; [done|..]; cbn [binary_normalize]; unfold binary_round;
    destruct (shl_align p e _) as [mz ez]; by apply round_not_nan.
Qed.

Lemma f_of_int_not_nan n : is_nan (f_of_int n) = false.
Proof. apply normalize_not_nan. Qed.

(** A finite number minus a number, a number divided by a finite one that is
    not zero, and anything times a finite one that is not zero. *)
Lemma f_sub_not_nan x y : is_finite x = true -> is_nan y = false -> is_nan (f_sub x y) = false.
Proof.
  destruct x as [sx|sx| |sx mx ex], y as [sy|sy| |sy my ey]; try done; intros _ _; [by destruct sx, sy|]. apply normalize_not_nan.
Qed.

Lemma finite_not_nan x : is_finite x = true -> is_nan x = false.
Proof. by destruct x. Qed.

Definition nonzero (x : f64) : bool := match x with S754_finite _ _ _ => true | _ => false end.

Lemma f_div_not_nan x y : is_nan x = false -> nonzero y = true -> is_nan (f_div x y) = false.
Proof.
  destruct x as [sx|sx| |sx mx ex], y as [sy|sy| |sy my ey]; try done. intros _ _.
  unfold f_div, SFdiv. destruct (SFdiv_core_binary _ _ _ _ _ _) as [[q e] l] eqn:E. apply round_not_nan.
  unfold SFdiv_core_binary in E. set (m' := match _ - _ - _ with 0 => _ | Z.pos _ => _ | Z.neg _ => _ end) in E.
  assert (0 <= m') as Hm.
  { subst m'. destruct (_ - _ - _); [lia| |lia]. apply Z.shiftl_nonneg. lia. }
  clearbody m'. pose proof (Z_div_mod m' (Z.pos my) ltac:(lia)) as Hdm.
  destruct (Z.div_eucl m' (Z.pos my)) as [q' r]. injection E as -> _ _. destruct Hdm as [-> Hr]. nia.
Qed.

Lemma f_mul_not_nan x y : is_nan x = false -> nonzero y = true -> is_nan (f_mul x y) = false.
Proof.
  destruct x as [sx|sx| |sx mx ex], y as [sy|sy| |sy my ey]; try done. intros _ _. by apply round_not_nan.
Qed.

(** A positive finite number is not zero. *)
Lemma positive_nonzero x : is_finite x = true -> f_le x f0 = false -> nonzero x = true.
Proof. by destruct x as [[]|[]| |[] m e]. Qed.

(** ** The lowest of a list *)

Lemma f_min_le x y : is_nan x = false -> is_nan y = false ->
  is_nan (f_min x y) = false /\ f_le (f_min x y) x = true /\ f_le (f_min x y) y = true.
Proof.
  intros Hx Hy. unfold f_min. rewrite Hx, Hy. destruct (f_lt y x) eqn:E.
  - split_and!; [done| |by apply f_le_refl]. apply f_lt_key in E; [|done..]. apply f_le_key; [done..|].
    unfold klt in E. by rewrite E.
  - apply f_lt_le in E; [|done..]. split_and!; [done|by apply f_le_refl|done].
Qed.

Lemma f_min_choice x y : f_min x y = x \/ f_min x y = y.
Proof. unfold f_min. destruct (is_nan x), (is_nan y), (f_lt y x); auto. Qed.

(** [reduce(f64::min)] of numbers is one of them and below all. *)
Lemma fold_min_spec l : forall x, is_nan x = false -> Forall (fun y => is_nan y = false) l ->
  is_nan (fold_left f_min l x) = false /\ fold_left f_min l x ∈ x :: l
  /\ forall y, y ∈ x :: l -> f_le (fold_left f_min l x) y = true.
Proof.
  induction l as [|z l IH]; intros x Hx Hl; cbn [fold_left].
  { split_and!; [done|by left|]. intros y ->%list_elem_of_singleton. by apply f_le_refl. }
  apply Forall_cons in Hl as [Hz Hl]. destruct (f_min_le x z Hx Hz) as (Hm & Hmx & Hmz).
  destruct (IH (f_min x z) Hm Hl) as (Hn & Hin & Hle). split_and!; [done| |].
  - apply elem_of_cons in Hin as [->|Hin]; [|by do 2 right].
    destruct (f_min_choice x z) as [->| ->]; [by left|by right; left].
  - assert (forall y, is_nan y = false -> f_le (f_min x z) y = true -> f_le (fold_left f_min l (f_min x z)) y = true) as Ht.
    { intros y Hy. apply f_le_trans; [done..|]. apply Hle. by left. }
    intros y [->|[->|Hy]%elem_of_cons]%elem_of_cons; [by apply Ht..|]. apply Hle. by right.
Qed.
