(* ===== verification/Http.v ===== *)
(** * HTTP messages and error envelopes: [src/src/http/response.rs]

    A header map is the list of its entries in iteration order, with the
    lower-case names of the [http] crate; a response body is bytes, a JSON
    value [axum] serialises, or a live stream. *)

From Stdlib Require Import ZArith Lia Ascii.
From stdpp Require Import base list strings.
From S2P Require Import Prelude.
From S2P Require Import RustStr.
From S2P Require Import Protocol.
From S2P Require Import Json.
From S2P Require Import Usage.
From S2P Require Import Stream.

Abbreviation HeaderMap := (list (string * string)).

(** [HeaderMap::get]: the first value of a name. *)
Definition header_get (h : HeaderMap) (name : string) : option string := hm_get h name.

(** [HeaderValue::to_str]: visible ASCII, spaces and tabs. *)
Definition to_str (value : string) : option string :=
  if sall (fun a => byte_in a 32 126 || byte_in a 9 9) value then Some value else None.

(** [HeaderMap::insert] replaces every value of the name. *)
Definition header_insert (h : HeaderMap) (name value : string) : HeaderMap :=
  match hm_get h name with
  | Some _ =>
      let fix go h :=
        match h with
        | [] => []
        | (n, v) :: h' =>
            if bool_decide (n = name) then (name, value) :: hm_remove h' name
            else (n, v) :: go h'
        end in
      go h
  | None => h ++ [(name, value)]
  end.

Lemma hm_get_remove_ne {V} (m : list (string * V)) k k' :
  k <> k' -> hm_get (hm_remove m k) k' = hm_get m k'.
Proof. intros Hk. by rewrite hm_get_remove, bool_decide_false. Qed.

Lemma header_insert_get h name value name' :
  header_get (header_insert h name value) name' =
  if bool_decide (name = name') then Some value else header_get h name'.
Proof.
  unfold header_insert, header_get. destruct (hm_get h name) as [v0|] eqn:Hn.
  - revert v0 Hn. induction h as [|[n v] h IH]; intros v0 Hn; [done|].
    rewrite hm_get_cons in Hn. destruct (decide (n = name)) as [->|Hne].
    + rewrite (bool_decide_true (name = name)) by done. rewrite !hm_get_cons.
      destruct (decide (name = name')) as [->|Hn']; [by rewrite bool_decide_true|].
      rewrite !(bool_decide_false (name = name')) by done. by apply hm_get_remove_ne.
    + rewrite (bool_decide_false (n = name)) in * by done. rewrite !hm_get_cons, (IH v0 Hn).
      repeat case_bool_decide; congruence.
  - induction h as [|[n v] h IH]; cbn [app]; rewrite !hm_get_cons; [done|].
    rewrite hm_get_cons in Hn. destruct (decide (n = name)) as [->|Hne];
      [by rewrite bool_decide_true in Hn|]. rewrite bool_decide_false in Hn by done.
    rewrite IH by done. repeat case_bool_decide; congruence.
Qed.

(** [HeaderValue::from_str] accepts no control characters but tab. *)
Definition header_value_ok (s : string) : bool :=
  sall (fun a => (byte_in a 32 255 && negb (byte_in a 127 127)) || byte_in a 9 9) s.

(** A live upstream body wrapped by [wrap_native_body]. *)
Record StreamHandle : Type := mkStreamHandle {
  sh_stream : Z;                 (** which upstream body *)
  sh_protocol : Protocol;
  sh_config : StreamConfig;
  sh_request_started : Z;
}.

Inductive Body : Type :=
| BodyBytes (bytes : string)
| BodyJson (value : Value)
| BodyStream (stream : StreamHandle).

Record Response : Type := mkResponse {
  rp_status : Z;
  rp_headers : HeaderMap;
  rp_body : Body;
  rp_usage : option UsageReport;             (** response extensions *)
  rp_identity : option ResponseIdentity;
}.

Definition is_success (status : Z) : bool := (200 <=? status) && (status <? 300).
Definition is_server_error (status : Z) : bool := (500 <=? status) && (status <? 600).

Definition one_of (s : string) (l : list string) : bool := existsb (String.eqb s) l.

Definition anthropic_standard_error_type (gateway_code : string) : string :=
  if one_of gateway_code ["invalid_json"; "missing_required_parameter"; "unsupported_protocol";
                          "lossy_conversion_not_allowed"] then "invalid_request_error"
  else if gateway_code =?s "unauthorized" then "authentication_error"
  else if gateway_code =?s "request_too_large" then "request_too_large"
  else if gateway_code =?s "request_body_read_failed" then "invalid_request_error"
  else if gateway_code =?s "route_not_found" then "not_found_error"
  else if gateway_code =?s "account_cooling_down" then "overloaded_error"
  else if gateway_code =?s "upstream_request_failed" then "api_error"
  else if one_of gateway_code ["provider_not_found"; "account_not_found";
      "fallback_account_not_found"; "fallback_provider_mismatch"; "account_provider_mismatch";
      "adapter_missing"; "adapter_unknown"; "adapter_direction_mismatch";
      "adapter_capability_mismatch"; "adapter_source_unsupported"; "invalid_route_mode";
      "endpoint_missing"; "route_unavailable"; "account_disabled"] then "api_error"
  else "api_error".

(** [(status, Json(body)).into_response()]. *)
Definition json_response (status : Z) (body : Value) : Response :=
  mkResponse status [("content-type", "application/json")] (BodyJson body) None None.

Definition error_response (status : Z) (code message : string) : Response :=
  json_response status
    (VObject [("error", VObject [("code", VString code); ("type", VString code);
                                 ("message", VString message)])]).

Definition error_envelope (protocol : Protocol) (gateway_code message request_id : string)
    : Value :=
  match protocol with
  | AnthropicMessages =>
      VObject [("type", VString "error");
               ("error", VObject [("type", VString (anthropic_standard_error_type gateway_code));
                                  ("code", VString gateway_code); ("message", VString message)]);
               ("request_id", VString request_id)]
  | OpenAiChatCompletions | OpenAiResponses =>
      VObject [("error", VObject [("code", VString gateway_code); ("type", VString gateway_code);
                                  ("message", VString message)]);
               ("request_id", VString request_id)]
  end.

Definition data_plane_error_response (protocol : Protocol) (status : Z)
    (gateway_code message request_id : string) : Response :=
  let r := json_response status (error_envelope protocol gateway_code message request_id) in
  if header_value_ok request_id then
    mkResponse (rp_status r) (header_insert (rp_headers r) "x-request-id" request_id) (rp_body r)
      (rp_usage r) (rp_identity r)
  else r.
