(* ===== verification/VirtualKeys.v ===== *)
(** * Virtual keys: [src/src/infra/db/virtual_keys.rs]

    The life cycle of the database-backed API keys: creation, revocation,
    rotation with an overlap window, and the authentication query of the data
    plane.  The table is a map from the primary key to the row, with the
    sequence of [BIGSERIAL] and the [UNIQUE] constraint on [key_hash]; each
    operation is one transaction at the time [now].  SHA-256 is the parameter
    [Sha256]. *)

From Stdlib Require Import ZArith Lia.
From stdpp Require Import base list strings gmap relations.
From S2P Require Import Prelude.
From S2P Require Import RustStr.
From S2P Require Import Json.
From S2P Require Import Health.

(** [Sha256::digest], as bytes. *)
Class Sha256 : Type := sha256 : string -> string.

Definition hash_key `{Sha256} (raw : string) : string := hex_lower (sha256 raw).

Definition VIRTUAL_KEY_INVOKE_SCOPE : string := "gateway:invoke".
Definition VIRTUAL_KEY_MODELS_SCOPE : string := "gateway:models:read".

Record VirtualKeyRow : Type := mkVirtualKeyRow {
  vk_name : string;
  vk_key_prefix : string;
  vk_key_hash : string;
  vk_key_ciphertext : option string;
  vk_allowed_models : Value;
  vk_scopes : Value;
  vk_key_group : option string;
  vk_enabled : bool;
  vk_last_used_at : option Z;
  vk_expires_at : option Z;
  vk_revoked_at : option Z;
  vk_replaced_by_id : option Z;
  vk_overlap_until : option Z;
  vk_origin : string;
}.

Record KeyTable : Type := mkKeyTable {
  kt_rows : gmap Z VirtualKeyRow;
  kt_next_id : Z;
}.

Record VirtualKeyMaterial : Type := mkVirtualKeyMaterial {
  km_raw : string;
  km_prefix : string;
  km_hash : string;
}.

(** [generate_virtual_key_material] for the random [uuid]. *)
Definition generate_virtual_key_material `{Sha256} (uuid : string) : VirtualKeyMaterial :=
  let raw := "gw_" +:+ uuid in
  mkVirtualKeyMaterial raw (String.substring 0 11 raw) (hash_key raw).

Inductive VirtualKeyError : Type :=
| KeyDatabase (e : DbError) | KeyNotFound | KeyConflict (message : string)
| KeyValidation (message : string).

(** ** Values stored as JSON *)

Definition string_array (values : list string) : Value := VArray (map VString values).

Definition scopes_json (scopes : list string) : Value :=
  match scopes with
  | [] => VArray [VString VIRTUAL_KEY_INVOKE_SCOPE]
  | _ => string_array scopes
  end.

Definition item_is (item : Value) (s : string) : bool :=
  is_some_and (as_str item) (String.eqb s).

Definition allowed_models_allow (value : Value) (model : option string) : bool :=
  let allowed := unwrap_or (as_array value) [] in
  match allowed, model with
  | [], _ => true
  | _, None => true
  | _, Some model => existsb (fun item => item_is item model || item_is item "*") allowed
  end.

Definition scope_allow (value : Value) (required : string) : bool :=
  existsb (fun item => item_is item "*" || item_is item required
                       || ((required =?s VIRTUAL_KEY_MODELS_SCOPE)
                           && item_is item VIRTUAL_KEY_INVOKE_SCOPE))
    (unwrap_or (as_array value) []).

Fixpoint validate_virtual_key_scopes (scopes : list string) : result unit string :=
  match scopes with
  | [] => Ok tt
  | scope :: rest =>
      if existsb (String.eqb scope) [VIRTUAL_KEY_INVOKE_SCOPE; VIRTUAL_KEY_MODELS_SCOPE; "*"]
      then validate_virtual_key_scopes rest
      else Err ("unsupported virtual key scope '" +:+ scope +:+ "'")
  end.

(** ** Operations *)

(** The [WHERE] clause of authentication. *)
Definition key_active (row : VirtualKeyRow) (now : Z) : bool :=
  vk_enabled row && negb (is_some (vk_revoked_at row))
  && is_none_or (vk_expires_at row) (fun t => now <? t)
  && (negb (is_some (vk_replaced_by_id row))
      || is_some_and (vk_overlap_until row) (fun t => now <? t)).

Definition hash_taken (t : KeyTable) (hash : string) : bool :=
  existsb (fun kv => vk_key_hash kv.2 =?s hash) (map_to_list (kt_rows t)).

(** [INSERT ... RETURNING id]: fails on a duplicate hash. *)
Definition insert_key (t : KeyTable) (row : VirtualKeyRow) : result (Z * KeyTable) DbError :=
  if hash_taken t (vk_key_hash row) then Err DbUnavailable
  else Ok (kt_next_id t, mkKeyTable (<[kt_next_id t := row]> (kt_rows t)) (kt_next_id t + 1)).

Definition create_virtual_key_with_material (t : KeyTable) (name : string)
    (allowed_models scopes : list string) (expires_at : option Z) (key_group : option string)
    (origin : string) (material : VirtualKeyMaterial) (key_ciphertext : option string)
    : result (Z * string) DbError * KeyTable :=
  let row := mkVirtualKeyRow name (km_prefix material) (km_hash material) key_ciphertext
    (string_array allowed_models) (scopes_json scopes) key_group true None expires_at None None
    None origin in
  match insert_key t row with
  | Ok (id, t') => (Ok (id, km_raw material), t')
  | Err e => (Err e, t)
  end.

Definition set_revoked (row : VirtualKeyRow) (now : Z) : VirtualKeyRow :=
  mkVirtualKeyRow (vk_name row) (vk_key_prefix row) (vk_key_hash row) (vk_key_ciphertext row)
    (vk_allowed_models row) (vk_scopes row) (vk_key_group row) false (vk_last_used_at row)
    (vk_expires_at row) (opt_or (vk_revoked_at row) (Some now)) (vk_replaced_by_id row)
    (vk_overlap_until row) (vk_origin row).

Definition revoke_virtual_key (t : KeyTable) (now id : Z) : bool * KeyTable :=
  match kt_rows t !! id with
  | Some row =>
      if vk_enabled row && negb (is_some (vk_revoked_at row)) then
        (true, mkKeyTable (<[id := set_revoked row now]> (kt_rows t)) (kt_next_id t))
      else (false, t)
  | None => (false, t)
  end.

Record VirtualKeyRotationOptions : Type := mkVirtualKeyRotationOptions {
  ro_overlap : Z;                             (** nanoseconds *)
  ro_expires_at : option Z;
  ro_name : option string;
  ro_allowed_models : option (list string);
  ro_scopes : option (list string);
  ro_key_group : option (option string);
}.

Record VirtualKeyRotation : Type := mkVirtualKeyRotation {
  rn_old_id : Z;
  rn_new_id : Z;
  rn_key_prefix : string;
  rn_key : string;
  rn_overlap_until : option Z;
}.

(** The [UPDATE] of the rotated row. *)
Definition set_replaced (row : VirtualKeyRow) (new_id : Z) (overlap_until : option Z) (now : Z)
    : VirtualKeyRow :=
  mkVirtualKeyRow (vk_name row) (vk_key_prefix row) (vk_key_hash row) (vk_key_ciphertext row)
    (vk_allowed_models row) (vk_scopes row) (vk_key_group row)
    (if is_some overlap_until then vk_enabled row else false) (vk_last_used_at row)
    (vk_expires_at row)
    (if is_some overlap_until then vk_revoked_at row else opt_or (vk_revoked_at row) (Some now))
    (Some new_id) overlap_until (vk_origin row).

Section Rotate.
Context `{Chrono}.

Definition rotate_virtual_key_with_material (t : KeyTable) (now id : Z)
    (options : VirtualKeyRotationOptions) (material : VirtualKeyMaterial)
    (key_ciphertext : option string) : result VirtualKeyRotation VirtualKeyError * KeyTable :=
  if from_secs 86400 <? ro_overlap options then
    (Err (KeyValidation "overlap window must be at most 86400 seconds"), t) else
  match kt_rows t !! id with
  | None => (Err KeyNotFound, t)
  | Some old =>
      if negb (vk_enabled old) || is_some (vk_revoked_at old) then
        (Err (KeyConflict "virtual key is disabled or revoked"), t)
      else if is_some_and (vk_expires_at old) (fun expires => expires <=? now) then
        (Err (KeyConflict "virtual key is expired"), t)
      else if is_some (vk_replaced_by_id old) then
        (Err (KeyConflict "virtual key has already been rotated"), t)
      else
        let overlap :=
          if ro_overlap options =? 0 then Some None
          else match chrono_from_std (ro_overlap options) with
               | Some d => Some (Some (now + d))
               | None => None
               end in
        match overlap with
        | None => (Err (KeyValidation "invalid overlap window"), t)
        | Some overlap_until =>
            let row := mkVirtualKeyRow (unwrap_or (ro_name options) (vk_name old))
              (km_prefix material) (km_hash material) key_ciphertext
              (unwrap_or (string_array <$> ro_allowed_models options) (vk_allowed_models old))
              (unwrap_or (scopes_json <$> ro_scopes options) (vk_scopes old))
              (opt_or (ro_key_group options ≫= fun g => g) (vk_key_group old))
              true None (opt_or (ro_expires_at options) (vk_expires_at old)) None None None
              "rotated" in
            match insert_key t row with
            | Err e => (Err (KeyDatabase e), t)
            | Ok (new_id, t') =>
                (Ok (mkVirtualKeyRotation id new_id (km_prefix material) (km_raw material)
                       overlap_until),
                 mkKeyTable (<[id := set_replaced old new_id overlap_until now]> (kt_rows t'))
                   (kt_next_id t'))
            end
        end
  end.
End Rotate.

Definition set_last_used (row : VirtualKeyRow) (now : Z) : VirtualKeyRow :=
  mkVirtualKeyRow (vk_name row) (vk_key_prefix row) (vk_key_hash row) (vk_key_ciphertext row)
    (vk_allowed_models row) (vk_scopes row) (vk_key_group row) (vk_enabled row) (Some now)
    (vk_expires_at row) (vk_revoked_at row) (vk_replaced_by_id row) (vk_overlap_until row)
    (vk_origin row).

(** The active row of a hash. *)
Definition find_active (t : KeyTable) (hash : string) (now : Z) : option (Z * VirtualKeyRow) :=
  List.find (fun kv => (vk_key_hash kv.2 =?s hash) && key_active kv.2 now)
    (map_to_list (kt_rows t)).

Section Authenticate.
Context `{Sha256}.

Definition authenticate_virtual_key_with_identity_scope (t : KeyTable) (now : Z) (raw : string)
    (model : option string) (required_scope : string)
    : option (Z * string * string) * KeyTable :=
  match find_active t (hash_key raw) now with
  | None => (None, t)
  | Some (id, row) =>
      if negb (allowed_models_allow (vk_allowed_models row) model)
         || negb (scope_allow (vk_scopes row) required_scope) then (None, t)
      else
        (Some (id, vk_name row, vk_key_prefix row),
         mkKeyTable (<[id := set_last_used row now]> (kt_rows t)) (kt_next_id t))
  end.

(** [authenticate_virtual_key_with_identity]. *)
Definition authenticate_virtual_key (t : KeyTable) (now : Z) (raw : string)
    (model : option string) : option (Z * string * string) * KeyTable :=
  authenticate_virtual_key_with_identity_scope t now raw model VIRTUAL_KEY_INVOKE_SCOPE.
End Authenticate.

(** ** Invariant of the table *)

(** Distinct hashes ([UNIQUE]) and ids below the sequence. *)
Record table_ok (t : KeyTable) : Prop := {
  tk_hash : forall i j r s, kt_rows t !! i = Some r -> kt_rows t !! j = Some s ->
    vk_key_hash r = vk_key_hash s -> i = j;
  tk_next : forall i r, kt_rows t !! i = Some r -> i < kt_next_id t;
}.

Lemma hash_taken_spec t h :
  hash_taken t h = false -> forall i r, kt_rows t !! i = Some r -> vk_key_hash r <> h.
Proof.
  unfold hash_taken. intros Hf i r Hr Heq. enough (existsb (fun kv => vk_key_hash kv.2 =?s h)
    (map_to_list (kt_rows t)) = true) by congruence.
  apply existsb_exists. exists (i, r). split.
  - apply list_elem_of_In. by apply elem_of_map_to_list.
  - by apply String.eqb_eq.
Qed.

Lemma insert_key_ok t row id t' :
  table_ok t -> insert_key t row = Ok (id, t') ->
  table_ok t' /\ id = kt_next_id t /\ kt_rows t !! id = None
  /\ kt_rows t' = <[id := row]> (kt_rows t) /\ kt_next_id t' = kt_next_id t + 1.
Proof.
  intros [Hh Hn]. unfold insert_key. destruct (hash_taken t _) eqn:Hf; [done|]. intros [= <- <-].
  pose proof (hash_taken_spec _ _ Hf) as Hfresh.
  assert (kt_rows t !! kt_next_id t = None) as Hnone.
  { destruct (kt_rows t !! kt_next_id t) eqn:E; [|done]. apply Hn in E. lia. }
  split_and!; try done. split; cbn.
  - intros i j r s. rewrite !lookup_insert_Some.
    intros [[<- <-]|[Hi Hr]] [[<- <-]|[Hj Hs]] Heq; [done| | |by eapply Hh].
    + by apply Hfresh in Hs.
    + by apply Hfresh in Hr.
  - intros i r. rewrite lookup_insert_Some. intros [[<- _]|[_ Hr]]; [lia|]. apply Hn in Hr. lia.
Qed.

(** Rewriting a row without changing its hash. *)
Lemma update_key_ok t id row row' :
  table_ok t -> kt_rows t !! id = Some row -> vk_key_hash row' = vk_key_hash row ->
  table_ok (mkKeyTable (<[id := row']> (kt_rows t)) (kt_next_id t)).
Proof.
  intros [Hh Hn] Hrow Heq. split; cbn.
  - intros i j r s. rewrite !lookup_insert_Some.
    intros [[<- <-]|[Hi Hr]] [[<- <-]|[Hj Hs]] Hrs; [done| | |by eapply Hh];
      rewrite Heq in *; eapply Hh; eauto.
  - intros i r. rewrite lookup_insert_Some. intros [[<- _]|[_ Hr]]; by eapply Hn.
Qed.

(** A key that is out of service for good. *)
Definition retired (row : VirtualKeyRow) : Prop :=
  vk_enabled row = false \/ vk_revoked_at row <> None.

Lemma retired_inactive row now : retired row -> key_active row now = false.
Proof.
  unfold key_active. intros [->|Hr]; [done|]. destruct (vk_revoked_at row); [|done].
  by rewrite andb_false_r.
Qed.

Section Steps.
Context `{Sha256} `{Chrono}.

(** Every operation on the table, at any time and with any arguments. *)
Inductive key_step (t : KeyTable) : KeyTable -> Prop :=
| StepCreate name models scopes exp group origin material cipher :
    key_step t (create_virtual_key_with_material t name models scopes exp group origin material
                  cipher).2
| StepRevoke now id : key_step t (revoke_virtual_key t now id).2
| StepRotate now id options material cipher :
    key_step t (rotate_virtual_key_with_material t now id options material cipher).2
| StepAuthenticate now raw model :
    key_step t (authenticate_virtual_key t now raw model).2.

(** A row keeps its hash, and once retired stays retired. *)
Definition row_kept (t t' : KeyTable) : Prop :=
  forall id row, kt_rows t !! id = Some row ->
  exists row', kt_rows t' !! id = Some row' /\ vk_key_hash row' = vk_key_hash row
    /\ (retired row -> retired row').

Lemma row_kept_refl t : row_kept t t.
Proof. intros id row Hr. by exists row. Qed.

Lemma row_kept_insert t id row next :
  kt_rows t !! id = None -> row_kept t (mkKeyTable (<[id := row]> (kt_rows t)) next).
Proof.
  intros Hn i r Hr. exists r. cbn. rewrite lookup_insert_ne; [done|]. intros ->. congruence.
Qed.

Lemma row_kept_update t id row row' next :
  kt_rows t !! id = Some row -> vk_key_hash row' = vk_key_hash row ->
  (retired row -> retired row') -> row_kept t (mkKeyTable (<[id := row']> (kt_rows t)) next).
Proof.
  intros Hrow Hh Hret i r Hr. destruct (decide (id = i)) as [<-|Hne].
  - exists row'. cbn. rewrite lookup_insert_eq. by simplify_eq.
  - exists r. cbn. by rewrite lookup_insert_ne.
Qed.

Lemma row_kept_trans t1 t2 t3 : row_kept t1 t2 -> row_kept t2 t3 -> row_kept t1 t3.
Proof.
  intros H12 H23 id r Hr. destruct (H12 id r Hr) as (r2 & E2 & Hh2 & Hr2).
  destruct (H23 id r2 E2) as (r3 & E3 & Hh3 & Hr3). exists r3. split_and!; [done|congruence|auto].
Qed.

Lemma find_active_row t h now id row :
  find_active t h now = Some (id, row) ->
  kt_rows t !! id = Some row /\ vk_key_hash row = h /\ key_active row now = true.
Proof.
  unfold find_active. intros [Hin Hp]%List.find_some. bool_to_prop. cbn in *.
  apply list_elem_of_In, elem_of_map_to_list in Hin. done.
Qed.

Lemma key_step_ok t t' : table_ok t -> key_step t t' -> table_ok t' /\ row_kept t t'.
Proof.
  intros Hok Hstep.
  destruct Hstep as [name models scopes exp group origin material cipher|now id
                    |now id options material cipher|now raw model].
  - unfold create_virtual_key_with_material. destruct (insert_key t _) as [[id t']|e] eqn:E;
      [|split; [done|apply row_kept_refl]].
    destruct (insert_key_ok _ _ _ _ Hok E) as (Hok' & -> & Hn & Hrows & Hnext). cbn [snd].
    split; [done|]. destruct t'. cbn in *. subst. by apply row_kept_insert.
  - unfold revoke_virtual_key. destruct (kt_rows t !! id) as [row|] eqn:Hr;
      [|split; [done|apply row_kept_refl]].
    destruct (_ && _); [|split; [done|apply row_kept_refl]]. cbn [snd].
    split; [by eapply update_key_ok|]. eapply row_kept_update; [done|done|]. intros _. by left.
  - unfold rotate_virtual_key_with_material. cbv zeta.
    repeat (case_match; try (split; [done|apply row_kept_refl])).
    all: match goal with E : insert_key _ _ = Ok _ |- _ =>
      destruct (insert_key_ok _ _ _ _ Hok E) as (Hok' & Hid & Hn & Hrows & Hnext) end; cbn [snd].
    all: assert (kt_rows k !! id = Some v) as Hold
      by (rewrite Hrows, lookup_insert_ne; [done|congruence]).
    all: split; [by eapply update_key_ok|].
    all: apply (row_kept_trans _ k);
      [destruct k; cbn in *; subst; by apply row_kept_insert|].
    all: eapply row_kept_update; [done|done|].
    all: intros [Hret|Hret]; [exfalso|exfalso];
      repeat match goal with E : _ || _ = false |- _ => apply orb_false_iff in E as [? ?] end;
      destruct (vk_enabled v), (vk_revoked_at v); done.
  - unfold authenticate_virtual_key, authenticate_virtual_key_with_identity_scope.
    destruct (find_active t _ now) as [[id row]|] eqn:E; [|split; [done|apply row_kept_refl]].
    apply find_active_row in E as (Hr & _ & _).
    destruct (_ || _); [split; [done|apply row_kept_refl]|]. cbn [snd].
    split; [by eapply update_key_ok|]. by eapply row_kept_update.
Qed.

Lemma key_steps_ok t t' : table_ok t -> rtc key_step t t' -> table_ok t' /\ row_kept t t'.
Proof.
  intros Hok Hs. induction Hs as [t|t1 t2 t3 H12 _ IH]; [split; [done|apply row_kept_refl]|].
  destruct (key_step_ok _ _ Hok H12) as [Hok2 Hk]. destruct (IH Hok2) as [Hok3 Hk3].
  split; [done|]. by eapply row_kept_trans.
Qed.

(** The exact condition of authentication. *)
Lemma authenticate_iff t now raw model id name prefix :
  table_ok t ->
  (authenticate_virtual_key t now raw model).1 = Some (id, name, prefix) <->
  exists row, kt_rows t !! id = Some row /\ vk_key_hash row = hash_key raw
    /\ key_active row now = true /\ allowed_models_allow (vk_allowed_models row) model = true
    /\ scope_allow (vk_scopes row) VIRTUAL_KEY_INVOKE_SCOPE = true
    /\ vk_name row = name /\ vk_key_prefix row = prefix.
Proof.
  intros [Hh Hn]. unfold authenticate_virtual_key, authenticate_virtual_key_with_identity_scope.
  destruct (find_active t (hash_key raw) now) as [[i r]|] eqn:E.
  - apply find_active_row in E as (Hr & Hhash & Hact).
    destruct (allowed_models_allow (vk_allowed_models r) model) eqn:Ha,
      (scope_allow (vk_scopes r) VIRTUAL_KEY_INVOKE_SCOPE) eqn:Hs; cbn; split; try done.
    1: { intros [= <- <- <-]. by exists r. }
    all: intros (row & Hrow & Hhr & _ & Ha' & Hs' & Hname & Hpre);
      assert (id = i) as -> by (eapply Hh; [done|done|congruence]); simplify_eq; congruence.
  - split; [done|]. intros (row & Hrow & Hhash & Hact & _). exfalso.
    unfold find_active in E. pose proof (List.find_none _ _ E (id, row)) as Hf. cbn in Hf.
    rewrite Hhash, String.eqb_refl, Hact in Hf. discriminate Hf.
    apply list_elem_of_In. by apply elem_of_map_to_list.
Qed.

(** A key row in words: it is enabled, not revoked, not expired, and if it was
    rotated, its overlap has not ended; its models, if it names any, include the
    one asked for; and its scopes include invocation. *)
Record grants (row : VirtualKeyRow) (model : option string) (now : Z) : Prop := {
  gr_enabled : vk_enabled row = true;
  gr_revoked : vk_revoked_at row = None;
  gr_expired : forall t, vk_expires_at row = Some t -> now < t;
  gr_rotated : forall id, vk_replaced_by_id row = Some id -> exists t, vk_overlap_until row = Some t /\ now < t;
  gr_model : forall m, model = Some m ->
    let models := unwrap_or (as_array (vk_allowed_models row)) [] in
    models = [] \/ VString m ∈ models \/ VString "*" ∈ models;
  gr_scope : let scopes := unwrap_or (as_array (vk_scopes row)) [] in
    VString "gateway:invoke" ∈ scopes \/ VString "*" ∈ scopes;
}.

Lemma item_is_eq item s : item_is item s = true <-> item = VString s.
Proof.
  unfold item_is. destruct item as [| | |t| |]; cbn; try done. rewrite String.eqb_eq. split; [by intros ->|by intros [= ->]].
Qed.

Lemma key_active_iff row now : key_active row now = true <->
  vk_enabled row = true /\ vk_revoked_at row = None /\ (forall t, vk_expires_at row = Some t -> now < t)
  /\ forall id, vk_replaced_by_id row = Some id -> exists t, vk_overlap_until row = Some t /\ now < t.
Proof.
  unfold key_active. rewrite !andb_true_iff, orb_true_iff.
  assert (negb (is_some (vk_revoked_at row)) = true <-> vk_revoked_at row = None) as -> by by destruct (vk_revoked_at row).
  assert (is_none_or (vk_expires_at row) (fun t => now <? t) = true <-> forall t, vk_expires_at row = Some t -> now < t) as ->.
  { destruct (vk_expires_at row) as [t|]; cbn; [rewrite Z.ltb_lt|by split]. split; [by intros ? ? [= <-]|by intros Hx; apply Hx]. }
  assert (negb (is_some (vk_replaced_by_id row)) = true \/ is_some_and (vk_overlap_until row) (fun t => now <? t) = true
    <-> forall id, vk_replaced_by_id row = Some id -> exists t, vk_overlap_until row = Some t /\ now < t) as ->; [|tauto].
  destruct (vk_replaced_by_id row) as [i|]; cbn; [|split; [done|by left]].
  destruct (vk_overlap_until row) as [t|]; cbn; [rewrite Z.ltb_lt|].
  - split; [by intros [?|?] ? _; [done|exists t]|]. intros Hx. right. by destruct (Hx i eq_refl) as (? & [= <-] & ?).
  - split; [by intros [?|?]|]. intros Hx. by destruct (Hx i eq_refl) as (? & ? & _).
Qed.

Lemma grants_iff row model now : grants row model now <->
  key_active row now = true /\ allowed_models_allow (vk_allowed_models row) model = true
  /\ scope_allow (vk_scopes row) VIRTUAL_KEY_INVOKE_SCOPE = true.
Proof.
  assert (allowed_models_allow (vk_allowed_models row) model = true <-> forall m, model = Some m ->
    let models := unwrap_or (as_array (vk_allowed_models row)) [] in
    models = [] \/ VString m ∈ models \/ VString "*" ∈ models) as Hm.
  { unfold allowed_models_allow. destruct (unwrap_or _ _) as [|v l]; [by split; [left|]|].
    destruct model as [m|]; [|by split]. rewrite existsb_exists. setoid_rewrite orb_true_iff. setoid_rewrite item_is_eq.
    split.
    - intros (x & Hx%list_elem_of_In & [->| ->]) ? [= <-]; right; [by left|by right].
    - intros Hx. destruct (Hx m eq_refl) as [?|[Hi|Hi]]; [done| |]; eexists; (split; [by apply list_elem_of_In|auto]). }
  assert (scope_allow (vk_scopes row) VIRTUAL_KEY_INVOKE_SCOPE = true <->
    let scopes := unwrap_or (as_array (vk_scopes row)) [] in VString "gateway:invoke" ∈ scopes \/ VString "*" ∈ scopes) as Hs.
  { unfold scope_allow. change (VIRTUAL_KEY_INVOKE_SCOPE =?s VIRTUAL_KEY_MODELS_SCOPE) with false. rewrite existsb_exists.
    setoid_rewrite orb_false_r. setoid_rewrite orb_true_iff. setoid_rewrite item_is_eq. setoid_rewrite <- list_elem_of_In. split.
    - intros (x & Hx & [->| ->]); [by right|by left].
    - intros [Hi|Hi]; eexists; (split; [exact Hi|auto]). }
  rewrite key_active_iff, Hm, Hs. split; [intros []; by split_and!|intros [(?&?&?&?) [? ?]]; by split].
Qed.

Lemma retired_never_authenticates t id row now raw model :
  table_ok t -> kt_rows t !! id = Some row -> retired row -> hash_key raw = vk_key_hash row ->
  (authenticate_virtual_key t now raw model).1 = None.
Proof.
  intros Hok Hrow Hret Hraw.
  destruct (authenticate_virtual_key t now raw model).1 as [[[i name] prefix]|] eqn:E; [|done].
  apply (authenticate_iff t now raw model i name prefix Hok) in E
    as (r & Hr & Hh & Hact & _). exfalso.
  assert (i = id) as -> by (eapply (tk_hash t Hok); [done|done|congruence]).
  simplify_eq. rewrite (retired_inactive _ now Hret) in Hact. done.
Qed.
End Steps.

(** C27. Revocation is permanent: once a key has been revoked, no sequence of
    creations, revocations, rotations and authentications makes its secret
    authenticate again, for any model and at any time. *)
Theorem revoked_key_never_authenticates `{Sha256} `{Chrono} (t t1 t2 : KeyTable) (id at_ now : Z)
    (row : VirtualKeyRow) (raw : string) (model : option string)
    (Hok : table_ok t)
    (Hrow : kt_rows t !! id = Some row)
    (Hraw : hash_key raw = vk_key_hash row)
    (Hrev : revoke_virtual_key t at_ id = (true, t1))
    (Hsteps : rtc key_step t1 t2) :
  (authenticate_virtual_key t2 now raw model).1 = None.
Proof.
  assert (table_ok t1 /\ kt_rows t1 !! id = Some (set_revoked row at_)) as [Hok1 Hr1].
  { unfold revoke_virtual_key in Hrev. rewrite Hrow in Hrev. destruct (_ && _); [|done].
    injection Hrev as <-. split; [by eapply update_key_ok|]. apply lookup_insert_eq. }
  destruct (key_steps_ok _ _ Hok1 Hsteps) as [Hok2 Hk].
  destruct (Hk id _ Hr1) as (row2 & Hr2 & Hh2 & Hret2).
  apply (retired_never_authenticates t2 id row2); [done|done|apply Hret2; by left|].
  rewrite Hh2. done.
Qed.

(** What a successful rotation did. *)
Lemma rotate_inv `{Sha256} `{Chrono} t at_ id options old material cipher rotation t' :
  table_ok t -> kt_rows t !! id = Some old ->
  rotate_virtual_key_with_material t at_ id options material cipher = (Ok rotation, t') ->
  exists row,
    table_ok t' /\ rn_key rotation = km_raw material /\ rn_new_id rotation <> id
    /\ vk_enabled old = true /\ vk_revoked_at old = None /\ vk_replaced_by_id old = None
    /\ kt_rows t' !! rn_new_id rotation = Some row
    /\ kt_rows t' !! id = Some (set_replaced old (rn_new_id rotation) (rn_overlap_until rotation) at_)
    /\ vk_key_hash row = km_hash material /\ vk_enabled row = true /\ vk_revoked_at row = None
    /\ vk_replaced_by_id row = None
    /\ vk_expires_at row = opt_or (ro_expires_at options) (vk_expires_at old)
    /\ vk_allowed_models row
       = unwrap_or (string_array <$> ro_allowed_models options) (vk_allowed_models old)
    /\ vk_scopes row = unwrap_or (scopes_json <$> ro_scopes options) (vk_scopes old).
Proof.
  intros Hok Hold Hrot. pose proof (StepRotate t at_ id options material cipher) as Hstep.
  rewrite Hrot in Hstep. destruct (key_step_ok _ _ Hok Hstep) as [Hok' _]. clear Hstep.
  unfold rotate_virtual_key_with_material in Hrot. rewrite Hold in Hrot.
  destruct (from_secs 86400 <? _); [done|].
  destruct (vk_enabled old) eqn:He; [|done]. destruct (vk_revoked_at old) eqn:Hr; [done|].
  destruct (is_some_and _ _); [done|]. destruct (vk_replaced_by_id old) eqn:Hp; [done|].
  cbn [negb orb is_some] in Hrot. cbv zeta in Hrot.
  match type of Hrot with (match ?o with _ => _ end) = _ => destruct o as [overlap|] end; [|done].
  match type of Hrot with context [insert_key t ?r] => set (row := r) in Hrot;
    destruct (insert_key t row) as [[new_id t1]|e] eqn:Hins end; [|done].
  destruct (insert_key_ok _ _ _ _ Hok Hins) as (_ & -> & Hnone & Hrows & _).
  injection Hrot as <- <-. assert (kt_next_id t <> id) as Hne by congruence.
  exists row. cbn. split_and!; try done.
  - rewrite lookup_insert_ne by done. rewrite Hrows. apply lookup_insert_eq.
  - apply lookup_insert_eq.
Qed.

(** Rotation: the new key authenticates at once; the old one keeps
    working up to the end of the overlap window and not from then on, and
    stops at once when there is no overlap. *)
Theorem rotation_hands_over `{Sha256} `{Chrono} (t : KeyTable) (at_ id : Z)
    (options : VirtualKeyRotationOptions) (old : VirtualKeyRow) (uuid raw_old : string)
    (cipher : option string) (rotation : VirtualKeyRotation) (t' : KeyTable)
    (Hok : table_ok t)
    (Hold : kt_rows t !! id = Some old)
    (Hraw : hash_key raw_old = vk_key_hash old)
    (Hscopes : scope_allow (vk_scopes old) VIRTUAL_KEY_INVOKE_SCOPE = true)
    (Hplain : ro_scopes options = None /\ ro_allowed_models options = None
              /\ ro_expires_at options = None)
    (Hrot : rotate_virtual_key_with_material t at_ id options (generate_virtual_key_material uuid)
              cipher = (Ok rotation, t')) :
  (forall now model, is_none_or (vk_expires_at old) (fun e => now <? e) = true ->
     allowed_models_allow (vk_allowed_models old) model = true ->
     is_some (authenticate_virtual_key t' now (rn_key rotation) model).1 = true)
  /\ (forall now model,
       match rn_overlap_until rotation with Some e => e <= now | None => True end ->
       (authenticate_virtual_key t' now raw_old model).1 = None)
  /\ (forall now model e, rn_overlap_until rotation = Some e -> now < e ->
       is_none_or (vk_expires_at old) (fun e => now <? e) = true ->
       allowed_models_allow (vk_allowed_models old) model = true ->
       is_some (authenticate_virtual_key t' now raw_old model).1 = true).
Proof.
  destruct Hplain as (Hs & Ha & Hx).
  destruct (rotate_inv _ _ _ _ _ _ _ _ _ Hok Hold Hrot) as (row & Hok' & Hkey & Hne & He & Hr & Hp
    & Hnew & Hid & Hh & He' & Hr' & Hp' & Hx' & Ha' & Hs'). rewrite Hs, Ha, Hx in *. cbn in *.
  split_and!.
  - intros now model Hexp Hm.
    rewrite (proj2 (authenticate_iff t' now (rn_key rotation) model (rn_new_id rotation) (vk_name row)
      (vk_key_prefix row) Hok')); [done|].
    exists row. unfold key_active. rewrite He', Hr', Hp', Hx', Ha', Hs', Hkey, Hexp. done.
  - intros now model Hover.
    destruct (authenticate_virtual_key t' now raw_old model).1 as [[[i nm] pre]|] eqn:E; [|done].
    apply (authenticate_iff _ _ _ _ _ _ _ Hok') in E as (r & Hri & Hhr & Hact & _). exfalso.
    assert (i = id) as -> by (eapply (tk_hash _ Hok'); [done|done|]; cbn; congruence).
    rewrite Hid in Hri. injection Hri as <-. unfold key_active in Hact. cbn in Hact.
    destruct (rn_overlap_until rotation) as [e|]; cbn in Hact; [|done].
    rewrite (proj2 (Z.ltb_ge _ _) Hover) in Hact. by rewrite andb_false_r in Hact.
  - intros now model e Hover Hlt Hexp Hm.
    rewrite (proj2 (authenticate_iff t' now raw_old model id (vk_name old) (vk_key_prefix old)
      Hok')); [done|].
    eexists. split; [exact Hid|]. unfold key_active. cbn. rewrite Hover. cbn.
    rewrite He, Hr, Hexp, (proj2 (Z.ltb_lt _ _) Hlt). done.
Qed.

(** ** Examples *)
Definition example_key (hash : string) : VirtualKeyRow :=
  mkVirtualKeyRow "k" "gw_12345678" hash None (VArray [])
    (VArray [VString VIRTUAL_KEY_INVOKE_SCOPE]) None true None None None None None "created".
Definition example_table : KeyTable := mkKeyTable {[1 := example_key (hex_lower "gw_secret")]} 2.

Lemma example_table_ok : table_ok example_table.
Proof.
  split; cbn.
  - intros i j r s Hi%lookup_singleton_Some Hj%lookup_singleton_Some _. lia.
  - intros i r Hi%lookup_singleton_Some. lia.
Qed.

Lemma revoked_key_never_authenticates_witness :
  let kh : Sha256 := fun s => s in
  let t1 := (revoke_virtual_key example_table 10 1).2 in
  (authenticate_virtual_key t1 11 "gw_secret" (Some "m")).1 = None.
Proof.
  intros kh t1.
  apply (@revoked_key_never_authenticates kh chrono_exact example_table t1 t1 1 10 11
           (example_key (hex_lower "gw_secret")) "gw_secret" (Some "m") example_table_ok); reflexivity.
Defined.

Lemma rotation_hands_over_witness :
  let kh : Sha256 := fun s => s in
  let options := mkVirtualKeyRotationOptions (from_secs 60) None None None None None in
  let r := @rotate_virtual_key_with_material chrono_exact example_table 0 1 options
             (generate_virtual_key_material "new") None in
  (authenticate_virtual_key r.2 (from_secs 60) "gw_secret" None).1 = None
  /\ is_some (authenticate_virtual_key r.2 1 "gw_secret" None).1 = true
  /\ is_some (authenticate_virtual_key r.2 1 "gw_new" None).1 = true.
Proof.
  intros kh options r.
  destruct (@rotation_hands_over kh chrono_exact example_table 0 1 options (example_key (hex_lower "gw_secret"))
    "new" "gw_secret" None (mkVirtualKeyRotation 1 2 "gw_new" "gw_new" (Some (from_secs 60))) r.2)
    as (H1 & H2 & H3); try reflexivity; [exact example_table_ok|done|].
  split_and!.
  - apply H2. cbn. lia.
  - apply (H3 1 None (from_secs 60)); reflexivity.
  - apply (H1 1 None); reflexivity.
Defined.
