(* ===== verification/Secrets.v ===== *)
(** * Credentials at rest: [src/src/infra/secrets.rs]

    Resolution of an account's credential from its references, and the
    authenticated envelopes credentials are stored in.  AES-256-GCM, base64
    and SHA-256 are third-party code: [Crypto] and [Sha256].  A byte string is
    a [string]. *)

From Stdlib Require Import ZArith Lia Ascii.
From stdpp Require Import base list strings gmap.
From S2P Require Import Prelude.
From S2P Require Import RustStr.
From S2P Require Import Config.
From S2P Require Import Json.
From S2P Require Import VirtualKeys.

(** [ring]'s AEAD for a 256-bit key and the [base64] engines. *)
Class Crypto : Type := {
  aead_seal : string -> string -> string -> string -> option string;   (** key, nonce, AAD, text *)
  aead_open : string -> string -> string -> string -> option string;
  b64url_encode : string -> string;                                    (** [URL_SAFE_NO_PAD] *)
  b64url_decode : string -> option string;
  b64_decode : string -> option string;                                (** [STANDARD] *)
}.

Definition ENVELOPE_PREFIX : string := "gwenc".
Definition ENVELOPE_VERSION : string := "v1".
Definition NONCE_LEN : Z := 12.
Definition MAX_ENVELOPE_LEN : Z := 16 * 1024 * 1024.
Definition MAX_KEY_VERSION_LEN : Z := 64.
Definition ACCOUNT_AAD_PREFIX : string := "my-ai-gateway/account/v1".
Definition VIRTUAL_KEY_AAD_PREFIX : string := "my-ai-gateway/virtual-key/v1".
Definition TAG_LEN : Z := 16.

Inductive SecretResolverError : Type :=
| CredentialUnavailable | AmbiguousCredential | MasterKeyUnavailable | InvalidMasterKeyConfig
| InvalidCiphertext | DecryptionFailed | InvalidPlaintext.

Definition secret_error_code (self : SecretResolverError) : string :=
  match self with
  | CredentialUnavailable => "credential_unavailable"
  | AmbiguousCredential => "credential_ambiguous"
  | MasterKeyUnavailable => "credential_master_key_unavailable"
  | InvalidMasterKeyConfig => "credential_master_key_invalid"
  | InvalidCiphertext => "credential_ciphertext_invalid"
  | DecryptionFailed => "credential_decryption_failed"
  | InvalidPlaintext => "credential_plaintext_invalid"
  end.

Definition secret_public_message (self : SecretResolverError) : string :=
  match self with
  | CredentialUnavailable => "account credential is unavailable"
  | AmbiguousCredential => "account credential configuration is ambiguous"
  | MasterKeyUnavailable => "credential master key is unavailable"
  | InvalidMasterKeyConfig => "credential master key configuration is invalid"
  | InvalidCiphertext => "account credential ciphertext is invalid"
  | DecryptionFailed => "account credential could not be decrypted"
  | InvalidPlaintext => "account credential plaintext is invalid"
  end.

(** [str::from_utf8] succeeds. *)
Definition is_utf8 (bytes : string) : bool := from_utf8_lossy bytes =?s bytes.

(** [SecretLease::new]; the lease is its text. *)
Definition SecretLease_new (value : string) : result string SecretResolverError :=
  if is_empty value || negb (is_utf8 value) then Err InvalidPlaintext else Ok value.

(** [KeyRing], the state of a [SecretResolver]. *)
Record SecretResolver : Type := mkSecretResolver {
  kr_active_version : string;
  kr_keys : gmap string string;
}.

Definition SecretResolver_empty : SecretResolver := mkSecretResolver "v1" ∅.

Definition has_master_key (self : SecretResolver) : bool := negb (bool_decide (kr_keys self = ∅)).

(** ** Key versions and key material *)

Definition ascii_alphanumeric (a : ascii) : bool :=
  byte_in a 48 57 || byte_in a 65 90 || byte_in a 97 122.

Definition validate_key_version (value : string) : result string SecretResolverError :=
  if is_empty value || (MAX_KEY_VERSION_LEN <? slen value)
     || negb (sall (fun a => ascii_alphanumeric a || byte_in a 46 46 || byte_in a 95 95
                             || byte_in a 45 45) value)
  then Err InvalidMasterKeyConfig else Ok value.

(** A digit of [u8::from_str_radix(_, 16)]. *)
Definition hex_value (a : ascii) : option Z :=
  if byte_in a 48 57 then Some (byte_val a - 48)
  else if byte_in a 97 102 then Some (byte_val a - 87)
  else if byte_in a 65 70 then Some (byte_val a - 55) else None.

(** [u8::from_str_radix] on two bytes: a leading plus is accepted. *)
Definition hex_pair (a b : ascii) : option ascii :=
  match hex_value b with
  | None => None
  | Some y =>
      if byte_in a 43 43 then Some (chr y)
      else option_map (fun x => chr (16 * x + y)) (hex_value a)
  end.

(** The outcome of code that may panic. *)
Inductive Panics (A : Type) : Type := Panic | Returns (x : A).
#[global] Arguments Panic {A}.
#[global] Arguments Returns {A} x.

(** The [hex:] branch: the pairs in order up to the first that does not parse.
    Slicing inside a multi-byte character panics. *)
Fixpoint decode_hex (s : string) : Panics (option string) :=
  match s with
  | EmptyString => Returns (Some EmptyString)
  | String a EmptyString => Returns None
  | String a (String b rest) =>
      if match rest with String c _ => cont c | EmptyString => false end then Panic
      else
        match hex_pair a b with
        | None => Returns None
        | Some byte =>
            match decode_hex rest with
            | Panic => Panic
            | Returns r => Returns (option_map (String byte) r)
            end
        end
  end.

Section Secrets.
Context `{Crypto} `{Sha256} `{SerdeJson}.
(** [std::env::var]. *)
Context (env_var : string -> option string).

Definition decode_key_material (value : string) : Panics (option string) :=
  match strip_prefix "base64:" value with
  | Some encoded => Returns (opt_or (b64_decode encoded) (b64url_decode encoded))
  | None =>
      match strip_prefix "hex:" value with
      | Some encoded => if Z.odd (slen encoded) then Returns None else decode_hex encoded
      | None => Returns None
      end
  end.

Definition derive_key (value : string) : Panics string :=
  match decode_key_material value with
  | Panic => Panic
  | Returns decoded =>
      let decoded := unwrap_or decoded value in
      Returns (if slen decoded =? 32 then decoded else sha256 decoded)
  end.

Fixpoint normalize_keys (keys : list (string * string)) (normalized : gmap string string)
    : Panics (result (gmap string string) SecretResolverError) :=
  match keys with
  | [] => Returns (Ok normalized)
  | (version, value) :: keys =>
      match validate_key_version version with
      | Err e => Returns (Err e)
      | Ok version =>
          if is_empty value then Returns (Err InvalidMasterKeyConfig)
          else
            match derive_key value with
            | Panic => Panic
            | Returns key => normalize_keys keys (<[version := key]> normalized)
            end
      end
  end.

Definition from_keyring (active_version : string) (keys : list (string * string))
    : Panics (result SecretResolver SecretResolverError) :=
  match validate_key_version active_version with
  | Err e => Returns (Err e)
  | Ok active =>
      match normalize_keys keys ∅ with
      | Panic => Panic
      | Returns (Err e) => Returns (Err e)
      | Returns (Ok normalized) =>
          Returns (if negb (bool_decide (normalized = ∅)) && negb (is_some (normalized !! active))
                   then Err InvalidMasterKeyConfig else Ok (mkSecretResolver active normalized))
      end
  end.

Fixpoint first_nonempty_env (names : list string) : option string :=
  match names with
  | [] => None
  | name :: names =>
      match opt_filter (fun value => negb (is_empty (trim value))) (env_var name) with
      | Some value => Some value
      | None => first_nonempty_env names
      end
  end.

(** [split([',', ';'])]. *)
Definition split_entries (raw : string) : list string :=
  split_char ","%char (smap (fun a => if Ascii.eqb a ";"%char then ","%char else a) raw).

Fixpoint keyring_entries (entries : list string)
    : result (list (string * string)) SecretResolverError :=
  match entries with
  | [] => Ok []
  | entry :: entries =>
      match split_once "="%char entry with
      | None => Err InvalidMasterKeyConfig
      | Some (version, value) =>
          if is_empty value then Err InvalidMasterKeyConfig
          else let? rest := keyring_entries entries in Ok ((trim version, value) :: rest)
      end
  end.

Fixpoint keyring_fields (fields : Map) : result (list (string * string)) SecretResolverError :=
  match fields with
  | [] => Ok []
  | (version, value) :: fields =>
      let? value := ok_or (as_str value) InvalidMasterKeyConfig in
      let? rest := keyring_fields fields in Ok ((version, value) :: rest)
  end.

Definition parse_keyring (raw : string) : result (list (string * string)) SecretResolverError :=
  let raw := trim raw in
  if starts_with raw "{" then
    match from_slice raw with
    | Some (VObject object) => keyring_fields object
    | _ => Err InvalidMasterKeyConfig
    end
  else keyring_entries (List.filter (fun entry => negb (is_empty (trim entry))) (split_entries raw)).

Definition SecretResolver_from_env : Panics (result SecretResolver SecretResolverError) :=
  let keyring_raw := first_nonempty_env ["GATEWAY_CREDENTIAL_MASTER_KEYS"; "GATEWAY_SECRET_MASTER_KEYS";
                                         "GATEWAY_ENCRYPTION_KEYS"] in
  let primary := first_nonempty_env ["GATEWAY_CREDENTIAL_MASTER_KEY"; "GATEWAY_SECRET_MASTER_KEY";
                                     "GATEWAY_ENCRYPTION_KEY"] in
  let primary_version :=
    unwrap_or (first_nonempty_env ["GATEWAY_CREDENTIAL_MASTER_KEY_VERSION";
                                   "GATEWAY_SECRET_MASTER_KEY_VERSION"; "GATEWAY_ENCRYPTION_KEY_VERSION"]) "v1" in
  let active := first_nonempty_env ["GATEWAY_CREDENTIAL_ACTIVE_KEY_VERSION";
                                    "GATEWAY_SECRET_ACTIVE_KEY_VERSION";
                                    "GATEWAY_ENCRYPTION_ACTIVE_KEY_VERSION"] in
  match (match keyring_raw with Some raw => parse_keyring raw | None => Ok [] end) with
  | Err e => Returns (Err e)
  | Ok keys =>
      let keys := keys ++ match primary with Some value => [(primary_version, value)] | None => [] end in
      match last keys with
      | None => Returns (Ok SecretResolver_empty)
      | Some (version, _) => from_keyring (unwrap_or active version) keys
      end
  end.

(** ** Envelopes *)

Record Envelope : Type := mkEnvelope {
  ev_key_version : string;
  ev_nonce : string;
  ev_ciphertext : string;
}.

Definition decode_b64 (value : string) : result string SecretResolverError :=
  ok_or (opt_or (b64url_decode value) (b64_decode value)) InvalidCiphertext.

Definition decode_nonce (value : string) : result string SecretResolverError :=
  let? bytes := decode_b64 value in
  if slen bytes =? NONCE_LEN then Ok bytes else Err InvalidCiphertext.

Definition decode_payload (value : string) : result string SecretResolverError :=
  let? bytes := decode_b64 value in
  if MAX_ENVELOPE_LEN <? slen bytes then Err InvalidCiphertext else Ok bytes.

Definition parse_json_envelope (value : string) : result Envelope SecretResolverError :=
  match from_slice value with
  | Some (VObject object) =>
      let field name := ok_or (hm_get object name ≫= as_str) InvalidCiphertext in
      let? version := ok_or (hm_get object "version" ≫= fun v =>
                        opt_or (as_str v) (option_map (fun n => "v" +:+ dec n) (as_u64 v)))
                        InvalidCiphertext in
      let? key_version := ok_or (opt_or (hm_get object "key_version") (hm_get object "key_id") ≫= as_str)
                            InvalidCiphertext in
      if negb (version =?s ENVELOPE_VERSION) then Err InvalidCiphertext
      else
        let? nonce := field "nonce" in
        let? ciphertext := field "ciphertext" in
        let? nonce := decode_nonce nonce in
        let? ciphertext := decode_payload ciphertext in
        if slen ciphertext <? TAG_LEN then Err InvalidCiphertext
        else let? key_version := validate_key_version key_version in
             Ok (mkEnvelope key_version nonce ciphertext)
  | _ => Err InvalidCiphertext
  end.

Definition envelope_fields (fields : list string) : result Envelope SecretResolverError :=
  match fields with
  | [version; key_version; nonce; ciphertext] =>
      if negb (version =?s ENVELOPE_VERSION) then Err InvalidCiphertext
      else
        let? key_version := validate_key_version key_version in
        let? nonce := decode_nonce nonce in
        let? ciphertext := decode_payload ciphertext in
        if slen ciphertext <? TAG_LEN then Err InvalidCiphertext
        else Ok (mkEnvelope key_version nonce ciphertext)
  | _ => Err InvalidCiphertext
  end.

Definition parse_envelope (value : string) : result Envelope SecretResolverError :=
  if (MAX_ENVELOPE_LEN <? slen value) || is_empty (trim value) then Err InvalidCiphertext
  else
    let value := trim value in
    if starts_with value "{" then parse_json_envelope value
    else
      let fields := split_char (if contains_char value ":"%char then ":"%char else "."%char) value in
      envelope_fields
        match fields with
        | [first; _; _; _; _] =>
            if (first =?s ENVELOPE_PREFIX) || (first =?s "enc") then tl fields else fields
        | _ => fields
        end.

Definition decrypt (self : SecretResolver) (ciphertext aad : string)
    : result string SecretResolverError :=
  let? envelope := parse_envelope ciphertext in
  let? key := ok_or (kr_keys self !! ev_key_version envelope) MasterKeyUnavailable in
  let? plaintext := ok_or (aead_open key (ev_nonce envelope) aad (ev_ciphertext envelope))
                      DecryptionFailed in
  SecretLease_new plaintext.

(** [encrypt] with the nonce [SystemRandom] fills in, or its failure. *)
Definition encrypt (self : SecretResolver) (nonce : option string) (plaintext aad : string)
    : result string SecretResolverError :=
  if is_empty plaintext then Err InvalidPlaintext
  else
    let? key := ok_or (kr_keys self !! kr_active_version self) MasterKeyUnavailable in
    let? nonce := ok_or nonce MasterKeyUnavailable in
    let? payload := ok_or (aead_seal key nonce aad plaintext) DecryptionFailed in
    Ok (ENVELOPE_PREFIX +:+ ":" +:+ ENVELOPE_VERSION +:+ ":" +:+ kr_active_version self +:+ ":"
        +:+ b64url_encode nonce +:+ ":" +:+ b64url_encode payload).

Definition rotate (self : SecretResolver) (nonce : option string) (ciphertext aad : string)
    : result string SecretResolverError :=
  let? plaintext := decrypt self ciphertext aad in encrypt self nonce plaintext aad.

(** ** Resolution *)

Definition account_aad (source_id account_id : string) : string :=
  ACCOUNT_AAD_PREFIX +:+ "/" +:+ source_id +:+ "/" +:+ account_id.

Definition virtual_key_aad (key_prefix : string) : string :=
  VIRTUAL_KEY_AAD_PREFIX +:+ "/" +:+ key_prefix.

Definition encrypt_for_account (self : SecretResolver) (nonce : option string)
    (source_id account_id plaintext : string) : result string SecretResolverError :=
  encrypt self nonce plaintext (account_aad source_id account_id).

Definition rotate_for_account (self : SecretResolver) (nonce : option string)
    (source_id account_id ciphertext : string) : result string SecretResolverError :=
  rotate self nonce ciphertext (account_aad source_id account_id).

Definition not_blank (value : string) : bool := negb (is_empty (trim value)).
Definition not_empty (value : string) : bool := negb (is_empty value).

Definition resolve_refs (self : SecretResolver)
    (credential_env credential_ciphertext inline_credential : option string) (aad : string)
    : result string SecretResolverError :=
  match opt_filter not_blank credential_env, opt_filter not_blank credential_ciphertext,
        opt_filter not_empty inline_credential with
  | None, None, None => Err CredentialUnavailable
  | Some name, None, None =>
      let? value := ok_or (opt_filter not_empty (env_var name)) CredentialUnavailable in
      SecretLease_new value
  | None, None, Some value => SecretLease_new value
  | None, Some ciphertext, None => decrypt self ciphertext aad
  | _, _, _ => Err AmbiguousCredential
  end.

Definition resolve_virtual_key (self : SecretResolver) (key_prefix ciphertext : string)
    : result string SecretResolverError :=
  resolve_refs self None (Some ciphertext) None (virtual_key_aad key_prefix).

Definition resolve_account (self : SecretResolver) (source_id account_id : string)
    (credential_env credential_ciphertext inline_credential : option string)
    : result string SecretResolverError :=
  resolve_refs self credential_env credential_ciphertext inline_credential
    (account_aad source_id account_id).

Definition credential_configured (account : AccountConfig) : bool :=
  is_some_and (ac_credential_env account) not_blank
  || is_some_and (ac_credential_ciphertext account) not_blank
  || is_some_and (ac_credential account) not_empty.

Definition resolve_account_credential_result (self : SecretResolver) (account : AccountConfig)
    : result (option string) SecretResolverError :=
  match resolve_account self (ac_provider_id account) (ac_id account) (ac_credential_env account)
          (ac_credential_ciphertext account) (ac_credential account) with
  | Ok lease => Ok (Some lease)
  | Err CredentialUnavailable =>
      if credential_configured account then Err CredentialUnavailable else Ok None
  | Err error => Err error
  end.
End Secrets.

(** ** The laws the module relies on *)

(** AES-256-GCM: sealing a short text succeeds and adds the tag, opening
    inverts it; base64 without padding: its alphabet, length and round trip. *)
Definition b64url_byte (a : ascii) : bool :=
  ascii_alphanumeric a || byte_in a 45 45 || byte_in a 95 95.

Class CryptoLaws `{Crypto} : Prop := {
  seal_total : forall key nonce aad text, slen key = 32 -> slen nonce = NONCE_LEN ->
    slen text <= MAX_ENVELOPE_LEN -> exists c, aead_seal key nonce aad text = Some c;
  seal_len : forall key nonce aad text c, aead_seal key nonce aad text = Some c ->
    slen c = slen text + TAG_LEN;
  open_seal : forall key nonce aad text c, aead_seal key nonce aad text = Some c ->
    aead_open key nonce aad c = Some text;
  b64url_alphabet : forall s, sall b64url_byte (b64url_encode s) = true;
  b64url_len : forall s, slen (b64url_encode s) = (4 * slen s + 2) / 3;
  b64url_roundtrip : forall s, b64url_decode (b64url_encode s) = Some s;
}.

(** A text sealed for one identity does not open for the other. *)
Definition aad_separates `{Crypto} (aad aad' : string) : Prop :=
  forall key nonce text c, aead_seal key nonce aad text = Some c ->
    aead_open key nonce aad' c = None.

(** What [from_keyring] builds: 256-bit keys, and the active one among them. *)
Record resolver_ok (self : SecretResolver) : Prop := {
  ro_active : validate_key_version (kr_active_version self) = Ok (kr_active_version self);
  ro_keys : map_Forall (fun version key =>
    validate_key_version version = Ok version /\ slen key = 32) (kr_keys self);
  ro_present : kr_keys self = ∅ \/ is_Some (kr_keys self !! kr_active_version self);
}.

(** ** Bytes of an envelope *)

Definition version_byte (a : ascii) : bool :=
  ascii_alphanumeric a || byte_in a 46 46 || byte_in a 95 95 || byte_in a 45 45.

Lemma version_byte_not_colon a : version_byte a = true -> negb (Ascii.eqb a ":"%char) = true.
Proof. intros Ha. destruct (Ascii.eqb_spec a ":"%char) as [->|]; [by vm_compute in Ha|done]. Qed.

Lemma b64url_byte_version a : b64url_byte a = true -> version_byte a = true.
Proof. unfold b64url_byte, version_byte. rewrite !orb_true_iff. tauto. Qed.

Lemma version_byte_visible a : version_byte a = true -> byte_in a 33 126 = true.
Proof.
  unfold version_byte, ascii_alphanumeric, byte_in. intros Ha.
  rewrite !orb_true_iff, !andb_true_iff, !Z.leb_le in Ha.
  rewrite andb_true_iff, !Z.leb_le. lia.
Qed.

Lemma validate_key_version_spec v w :
  validate_key_version v = Ok w <->
  w = v /\ v <> "" /\ slen v <= MAX_KEY_VERSION_LEN /\ sall version_byte v = true.
Proof.
  unfold validate_key_version. change (sall _ v) with (sall version_byte v).
  destruct (is_empty v) eqn:He; cbn [orb].
  { split; [done|]. apply String.eqb_eq in He. intros (_ & Hne & _). done. }
  apply String.eqb_neq in He. destruct (Z.ltb_spec MAX_KEY_VERSION_LEN (slen v)); cbn [orb].
  { split; [done|]. intros (_ & _ & Hle & _). lia. }
  destruct (sall version_byte v); cbn [negb].
  - split; [intros [= <-]|intros (-> & _)]; done.
  - split; [done|]. by intros (_ & _ & _ & ?).
Qed.

(** ** The canonical envelope *)

Definition canonical_envelope `{Crypto} (version nonce payload : string) : string :=
  ENVELOPE_PREFIX +:+ ":" +:+ ENVELOPE_VERSION +:+ ":" +:+ version +:+ ":"
  +:+ b64url_encode nonce +:+ ":" +:+ b64url_encode payload.

Lemma colon_cons x : ":" +:+ x = String ":" x.
Proof. done. Qed.

Section Canonical.
Context `{CryptoLaws} `{SerdeJson}.

Lemma no_colon s : sall version_byte s = true -> sall (fun a => negb (Ascii.eqb a ":"%char)) s = true.
Proof. apply sall_impl, version_byte_not_colon. Qed.

Lemma b64url_no_colon s : sall (fun a => negb (Ascii.eqb a ":"%char)) (b64url_encode s) = true.
Proof. apply no_colon. eapply sall_impl; [apply b64url_byte_version|apply b64url_alphabet]. Qed.

Lemma canonical_split version nonce payload :
  sall version_byte version = true ->
  split_char ":"%char (canonical_envelope version nonce payload)
  = [ENVELOPE_PREFIX; ENVELOPE_VERSION; version; b64url_encode nonce; b64url_encode payload].
Proof.
  intros Hv. unfold canonical_envelope.
  rewrite !colon_cons.
  rewrite split_char_cons by done. f_equal. rewrite split_char_cons by done. f_equal.
  rewrite split_char_cons by (by apply no_colon). f_equal.
  rewrite split_char_cons by apply b64url_no_colon. f_equal.
  apply split_char_last, b64url_no_colon.
Qed.

Lemma canonical_trim version nonce payload :
  b64url_encode payload <> "" ->
  trim (canonical_envelope version nonce payload) = canonical_envelope version nonce payload.
Proof.
  intros Hne. unfold canonical_envelope. pose proof (b64url_alphabet payload) as Hb.
  destruct (string_last _ Hne) as (x & a & Hx). rewrite Hx in *.
  rewrite sall_app in Hb. apply andb_true_iff in Hb as [_ Hb]. cbn [sall bstr] in Hb.
  rewrite andb_true_r in Hb. apply b64url_byte_version, version_byte_visible in Hb.
  rewrite <- !string_app_assoc. rewrite !string_app_assoc.
  set (m := b64url_encode nonce +:+ ":" +:+ x).
  assert (ENVELOPE_PREFIX +:+ ":" +:+ ENVELOPE_VERSION +:+ ":" +:+ version +:+ ":"
          +:+ b64url_encode nonce +:+ ":" +:+ x +:+ bstr a
          = String "g" (("wenc:v1:" +:+ version +:+ ":" +:+ m) +:+ bstr a)) as ->.
  { subst m. by rewrite !string_app_assoc. }
  by apply trim_visible.
Qed.

Lemma decode_b64_encode s : decode_b64 (b64url_encode s) = Ok s.
Proof. unfold decode_b64. by rewrite b64url_roundtrip. Qed.

Lemma b64url_encode_ne s : s <> "" -> b64url_encode s <> "".
Proof.
  intros Hs He. pose proof (b64url_len s) as Hl.
  rewrite He in Hl. destruct s; [done|]. rewrite slen_cons in Hl. change (slen "") with 0 in Hl.
  assert (0 <= slen s) by (unfold slen; lia). assert (6 / 3 <= (4 * (slen s + 1) + 2) / 3) as Hd
    by (apply Z.div_le_mono; lia). change (6 / 3) with 2 in Hd. lia.
Qed.

Lemma parse_envelope_canonical version nonce payload :
  validate_key_version version = Ok version -> slen nonce = NONCE_LEN ->
  TAG_LEN <= slen payload -> slen payload <= MAX_ENVELOPE_LEN ->
  slen (canonical_envelope version nonce payload) <= MAX_ENVELOPE_LEN ->
  parse_envelope (canonical_envelope version nonce payload) = Ok (mkEnvelope version nonce payload).
Proof.
  intros Hv Hn Hp Hp' Hl. pose proof Hv as (_ & _ & _ & Hb)%validate_key_version_spec.
  assert (b64url_encode payload <> "") as Hne.
  { apply b64url_encode_ne. intros ->. change (16 <= 0) in Hp. lia. }
  unfold parse_envelope. rewrite canonical_trim by done.
  rewrite (proj2 (Z.ltb_ge _ _)) by lia. cbn [orb].
  change (is_empty (canonical_envelope _ _ _)) with false. cbv iota.
  change (starts_with (canonical_envelope version nonce payload) "{") with false. cbv iota.
  assert (contains_char (canonical_envelope version nonce payload) ":" = true) as ->
    by (unfold canonical_envelope; rewrite !colon_cons; apply contains_char_mid).
  rewrite canonical_split by done. cbn [tl]. rewrite String.eqb_refl. cbn [orb].
  unfold envelope_fields. rewrite String.eqb_refl. cbn [negb rbind]. rewrite Hv. cbn [rbind].
  unfold decode_nonce, decode_payload. rewrite !decode_b64_encode. cbn [rbind].
  rewrite Hn, Z.eqb_refl. cbn [rbind]. rewrite (proj2 (Z.ltb_ge _ _)) by lia. cbn [rbind].
  by rewrite (proj2 (Z.ltb_ge _ _)) by lia.
Qed.
End Canonical.

(** ** Encrypting and decrypting *)

(** The longest plaintext whose envelope is certainly within
    [MAX_ENVELOPE_LEN]; [encrypt] itself has no limit. *)
Definition SAFE_PLAINTEXT_LEN : Z := 12 * 1024 * 1024 - 128.

(** What [encrypt] accepts: a non-empty [&str] of a usable length. *)
Definition credential_text (s : string) : Prop :=
  s <> "" /\ is_utf8 s = true /\ slen s <= SAFE_PLAINTEXT_LEN.

Definition knows_key (self : SecretResolver) (version key : string) : Prop :=
  kr_keys self !! version = Some key.

Section Envelopes.
Context `{CryptoLaws} `{SerdeJson}.

Lemma canonical_len version nonce payload :
  slen version <= MAX_KEY_VERSION_LEN -> slen nonce = NONCE_LEN ->
  slen payload <= SAFE_PLAINTEXT_LEN + TAG_LEN ->
  slen (canonical_envelope version nonce payload) <= MAX_ENVELOPE_LEN.
Proof.
  intros Hv Hn Hp. unfold canonical_envelope. rewrite !slen_app, !b64url_len, Hn.
  change (slen ENVELOPE_PREFIX) with 5. change (slen ":") with 1.
  change (slen ENVELOPE_VERSION) with 2. change ((4 * NONCE_LEN + 2) / 3) with 16.
  change MAX_KEY_VERSION_LEN with 64 in Hv. change (SAFE_PLAINTEXT_LEN + TAG_LEN) with 12582800 in Hp.
  change MAX_ENVELOPE_LEN with 16777216.
  assert ((4 * slen payload + 2) / 3 <= (4 * 12582800 + 2) / 3) as Hd by (apply Z.div_le_mono; lia).
  change ((4 * 12582800 + 2) / 3) with 16777067 in Hd. lia.
Qed.

Lemma SecretLease_ok s : credential_text s -> SecretLease_new s = Ok s.
Proof.
  intros (Hne & Hu & _). unfold SecretLease_new, is_empty. rewrite Hu.
  by rewrite (proj2 (String.eqb_neq s "") Hne).
Qed.

(** [encrypt] produces the canonical envelope of a sealed text. *)
Lemma encrypt_ok self nonce plaintext aad :
  resolver_ok self -> has_master_key self = true -> slen nonce = NONCE_LEN ->
  credential_text plaintext ->
  exists key c, knows_key self (kr_active_version self) key
    /\ aead_seal key nonce aad plaintext = Some c
    /\ slen c = slen plaintext + TAG_LEN
    /\ encrypt self (Some nonce) plaintext aad
       = Ok (canonical_envelope (kr_active_version self) nonce c).
Proof.
  intros [Ha Hk Hp] Hm Hn (Hne & _ & Hlen). unfold has_master_key in Hm.
  destruct Hp as [Hp|[key Hkey]]; [by rewrite bool_decide_eq_true_2 in Hm|].
  destruct (seal_total key nonce aad plaintext) as [c Hc];
    [by apply (Hk _ _ Hkey)|done|unfold SAFE_PLAINTEXT_LEN, MAX_ENVELOPE_LEN in *; lia|].
  exists key, c. split_and!; [done|done|by eapply seal_len|].
  unfold encrypt, is_empty. rewrite (proj2 (String.eqb_neq plaintext "") Hne), Hkey.
  cbn [ok_or rbind]. by rewrite Hc.
Qed.

(** [decrypt] of a canonical envelope opens its payload. *)
Lemma decrypt_canonical self version key nonce c aad :
  validate_key_version version = Ok version -> slen nonce = NONCE_LEN ->
  TAG_LEN <= slen c <= SAFE_PLAINTEXT_LEN + TAG_LEN -> knows_key self version key ->
  decrypt self (canonical_envelope version nonce c) aad
  = match aead_open key nonce aad c with
    | Some plaintext => SecretLease_new plaintext
    | None => Err DecryptionFailed
    end.
Proof.
  intros Hv Hn Hc Hk. unfold decrypt.
  rewrite parse_envelope_canonical; [|done|done|lia| |].
  - cbn [rbind ev_key_version ev_nonce ev_ciphertext]. rewrite Hk. cbn [ok_or rbind].
    by destruct (aead_open _ _ _ _).
  - unfold SAFE_PLAINTEXT_LEN, TAG_LEN, MAX_ENVELOPE_LEN in *. lia.
  - apply validate_key_version_spec in Hv as (_ & _ & Hl & _). apply canonical_len; [done|done|lia].
Qed.

Lemma credential_text_len s : credential_text s -> 0 <= slen s <= SAFE_PLAINTEXT_LEN.
Proof. intros (_ & _ & Hl). split; [unfold slen; lia|done]. Qed.

(** Decrypting under the same identity returns the text, with any keyring that
    still has the key. *)
Lemma decrypt_encrypted self self' nonce plaintext aad envelope :
  resolver_ok self -> has_master_key self = true -> slen nonce = NONCE_LEN ->
  credential_text plaintext ->
  encrypt self (Some nonce) plaintext aad = Ok envelope ->
  (forall key, knows_key self (kr_active_version self) key ->
               knows_key self' (kr_active_version self) key) ->
  decrypt self' envelope aad = Ok plaintext.
Proof.
  intros Hok Hm Hn Ht He Hk. pose proof (credential_text_len _ Ht) as Hl.
  destruct (encrypt_ok self nonce plaintext aad Hok Hm Hn Ht) as (key & c & Hkey & Hc & Hlen & He').
  rewrite He in He'. injection He' as ->.
  rewrite (decrypt_canonical self' _ key); [|apply ro_active, Hok|done|lia|by apply Hk].
  by rewrite (open_seal _ _ _ _ _ Hc), SecretLease_ok.
Qed.
End Envelopes.

(** ** Keyrings *)

Section Keyrings.
Context `{Crypto} `{Sha256} `{SerdeJson}.
(** SHA-256 digests have 32 bytes. *)
Context (sha256_len : forall s, slen (sha256 s) = 32).
Context (env_var : string -> option string).

Lemma derive_key_len value key : derive_key value = Returns key -> slen key = 32.
Proof.
  unfold derive_key. destruct (decode_key_material value) as [|d]; [done|].
  destruct (Z.eqb_spec (slen (unwrap_or d value)) 32); intros [= <-]; auto.
Qed.

Lemma normalize_keys_ok keys : forall normalized result,
  map_Forall (fun version key => validate_key_version version = Ok version /\ slen key = 32) normalized ->
  normalize_keys keys normalized = Returns (Ok result) ->
  map_Forall (fun version key => validate_key_version version = Ok version /\ slen key = 32) result.
Proof.
  induction keys as [|[version value] keys IH]; intros normalized result Hn; cbn [normalize_keys].
  { by intros [= <-]. }
  destruct (validate_key_version version) as [v|] eqn:Hv; [|done].
  destruct (is_empty value); [done|]. destruct (derive_key value) as [|key] eqn:Hk; [done|].
  apply IH. apply map_Forall_insert_2; [|done]. split; [|by eapply derive_key_len].
  pose proof Hv as (-> & _)%validate_key_version_spec. done.
Qed.

Lemma from_keyring_ok active keys self :
  from_keyring active keys = Returns (Ok self) -> resolver_ok self.
Proof.
  unfold from_keyring. destruct (validate_key_version active) as [v|] eqn:Hv; [|done].
  pose proof Hv as (-> & _)%validate_key_version_spec.
  destruct (normalize_keys keys ∅) as [|[m|]] eqn:Hm; [done| |done].
  apply normalize_keys_ok in Hm; [|apply map_Forall_empty].
  destruct (bool_decide_reflect (m = ∅)) as [He|He]; cbn [negb andb].
  - intros [= <-]. split; cbn; auto.
  - destruct (m !! active) as [key|] eqn:Hk; cbn; [|done]. intros [= <-]. split; cbn; eauto.
Qed.

(** The resolver a process starts with. *)
Lemma from_env_ok self : SecretResolver_from_env env_var = Returns (Ok self) -> resolver_ok self.
Proof.
  unfold SecretResolver_from_env. destruct (match first_nonempty_env _ _ with Some _ => _ | None => _ end)
    as [keys|]; [|done].
  destruct (last _) as [[version value]|]; [|intros [= <-]; split; cbn; [done|apply map_Forall_empty|by left]].
  apply from_keyring_ok.
Qed.
End Keyrings.

(** ** Identities *)

Definition slash_free (s : string) : Prop := sall (fun a => negb (Ascii.eqb a "/"%char)) s = true.

Lemma account_aad_inj s a s' a' :
  slash_free s -> slash_free s' -> account_aad s a = account_aad s' a' -> s = s' /\ a = a'.
Proof.
  unfold account_aad. intros Hs Hs' He.
  assert (forall x y z : string, x +:+ y = x +:+ z -> y = z) as Hinj.
  { intros x y z. induction x as [|c x IH]; [done|]. intros [= Hx]. by apply IH. }
  apply Hinj in He. apply (Hinj "/") in He. by eapply (app_sep_inj "/"%char).
Qed.

(** ** Properties *)

(** The credential references an account configures. *)
Inductive Reference : Type := FromEnv (name : string) | FromCiphertext (envelope : string)
| Inline (value : string).

Definition references (account : AccountConfig) : list Reference :=
  match opt_filter not_blank (ac_credential_env account) with Some n => [FromEnv n] | None => [] end
  ++ match opt_filter not_blank (ac_credential_ciphertext account) with
     | Some c => [FromCiphertext c] | None => [] end
  ++ match opt_filter not_empty (ac_credential account) with Some v => [Inline v] | None => [] end.

Section Properties.
Context `{CryptoLaws} `{SerdeJson}.
Context (env_var : string -> option string).

Lemma resolve_canonical self version nonce c s a :
  TAG_LEN <= slen c ->
  resolve_account env_var self s a None (Some (canonical_envelope version nonce c)) None
  = decrypt self (canonical_envelope version nonce c) (account_aad s a).
Proof.
  intros Hc. unfold resolve_account, resolve_refs. cbn [opt_filter].
  unfold not_blank, is_empty. rewrite canonical_trim; [by rewrite (proj2 (String.eqb_neq _ ""))|].
  apply b64url_encode_ne. intros ->. change (16 <= 0) in Hc. lia.
Qed.

(** The envelope of an account's credential: whoever reads it decrypts it
    under the reading account's identity. *)
Lemma encrypted_account self nonce s a plaintext :
  resolver_ok self -> has_master_key self = true -> slen nonce = NONCE_LEN ->
  credential_text plaintext ->
  exists envelope, encrypt_for_account self (Some nonce) s a plaintext = Ok envelope
    /\ (exists c, parse_envelope envelope = Ok (mkEnvelope (kr_active_version self) nonce c))
    /\ forall self' s' a', resolve_account env_var self' s' a' None (Some envelope) None
                          = decrypt self' envelope (account_aad s' a').
Proof.
  intros Hok Hm Hn Ht. pose proof (credential_text_len _ Ht) as Hl.
  destruct (encrypt_ok self nonce plaintext (account_aad s a) Hok Hm Hn Ht)
    as (key & c & Hkey & Hc & Hlen & He).
  exists (canonical_envelope (kr_active_version self) nonce c). split_and!; [done| |].
  - exists c. pose proof (ro_active _ Hok) as Hv.
    pose proof Hv as (_ & _ & Hvl & _)%validate_key_version_spec.
    apply parse_envelope_canonical; [done|done|lia| |apply canonical_len; [done|done|lia]].
    unfold SAFE_PLAINTEXT_LEN, TAG_LEN, MAX_ENVELOPE_LEN in *. lia.
  - intros self' s' a'. apply resolve_canonical. lia.
Qed.

(** C26. A stored credential survives encryption and key rotation: a process
    with a master key encrypts any credential, a resolver whose keyring extends
    it (with whatever active key) resolves the account's reference to the same
    text, re-encrypting succeeds, the new envelope is sealed under the key that
    is active then, and it resolves to the same text again. *)
Theorem credential_roundtrip (self self' : SecretResolver) (nonce nonce' s a plaintext : string)
    (Hok : resolver_ok self) (Hok' : resolver_ok self')
    (Hkeys : kr_keys self <> ∅)
    (Hext : kr_keys self ⊆ kr_keys self')
    (Hn : slen nonce = NONCE_LEN) (Hn' : slen nonce' = NONCE_LEN)
    (Htext : credential_text plaintext) :
  exists envelope envelope',
    encrypt_for_account self (Some nonce) s a plaintext = Ok envelope
    /\ resolve_account env_var self' s a None (Some envelope) None = Ok plaintext
    /\ rotate_for_account self' (Some nonce') s a envelope = Ok envelope'
    /\ resolve_account env_var self' s a None (Some envelope') None = Ok plaintext
    /\ exists c, parse_envelope envelope' = Ok (mkEnvelope (kr_active_version self') nonce' c).
Proof.
  assert (forall r, kr_keys r <> ∅ -> has_master_key r = true) as Hm.
  { intros r Hr. unfold has_master_key. by rewrite bool_decide_eq_false_2. }
  assert (kr_keys self' <> ∅) as Hkeys'.
  { intros He. destruct (ro_present _ Hok) as [|[key Hk]]; [done|].
    apply (lookup_weaken _ _ _ _ Hk) in Hext. by rewrite He, lookup_empty in Hext. }
  destruct (encrypted_account self nonce s a plaintext) as (e & He & _ & Hr); auto.
  destruct (encrypted_account self' nonce' s a plaintext) as (e' & He' & Hp' & Hr'); auto.
  assert (decrypt self' e (account_aad s a) = Ok plaintext) as Hd.
  { eapply (decrypt_encrypted self self'); [done|by auto|exact Hn|done|exact He|].
    intros key Hk. by eapply lookup_weaken. }
  exists e, e'. rewrite Hr, Hr'. split_and!; [done|done| | |done].
  - unfold rotate_for_account, rotate. by rewrite Hd.
  - by eapply (decrypt_encrypted self' self'); [done|auto|exact Hn'|done|exact He'|].
Qed.

(** An envelope is bound to its account: read as the reference of
    another account, it is a decryption failure and never the credential.  The
    provider ids have no slash (the identity is [source/account], which the
    code does not escape); the cipher opens no text under a different
    identity. *)
Theorem envelope_account_bound (self self' : SecretResolver) (nonce s a s' a' plaintext : string)
    (Hok : resolver_ok self) (Hkeys : kr_keys self <> ∅) (Hext : kr_keys self ⊆ kr_keys self')
    (Hn : slen nonce = NONCE_LEN) (Htext : credential_text plaintext)
    (Hs : slash_free s) (Hs' : slash_free s')
    (Haead : account_aad s a <> account_aad s' a' ->
             aad_separates (account_aad s a) (account_aad s' a')) :
  exists envelope, encrypt_for_account self (Some nonce) s a plaintext = Ok envelope
    /\ resolve_account env_var self' s' a' None (Some envelope) None
       = if (s =?s s') && (a =?s a') then Ok plaintext else Err DecryptionFailed.
Proof.
  assert (has_master_key self = true) as Hm by (unfold has_master_key; by rewrite bool_decide_eq_false_2).
  destruct (encrypted_account self nonce s a plaintext) as (e & He & _ & Hr); auto.
  exists e. split; [done|]. rewrite Hr.
  destruct (decide (account_aad s a = account_aad s' a')) as [Heq|Hne].
  - apply account_aad_inj in Heq as Hsa; [|done|done]. destruct Hsa as [<- <-].
    rewrite !String.eqb_refl. cbn [andb]. eapply (decrypt_encrypted self self'); [done|done|exact Hn|done|exact He|].
    intros key Hk. by eapply lookup_weaken.
  - assert ((s =?s s') && (a =?s a') = false) as ->.
    { apply andb_false_iff. destruct (String.eqb_spec s s') as [->|]; [|auto].
      destruct (String.eqb_spec a a') as [->|]; [done|auto]. }
    pose proof (credential_text_len _ Htext) as Hl.
    destruct (encrypt_ok self nonce plaintext (account_aad s a) Hok Hm Hn Htext)
      as (key & c & Hkey & Hc & Hlen & He'). unfold encrypt_for_account in He.
    rewrite He in He'. injection He' as ->.
    rewrite (decrypt_canonical self' _ key); [|apply ro_active, Hok|done|lia|by eapply lookup_weaken].
    by rewrite (Haead Hne _ _ _ _ Hc).
Qed.

Definition read_reference (self : SecretResolver) (account : AccountConfig) (reference : Reference)
    : result string SecretResolverError :=
  match reference with
  | FromEnv name =>
      match env_var name with
      | Some value => if is_empty value then Err CredentialUnavailable else SecretLease_new value
      | None => Err CredentialUnavailable
      end
  | FromCiphertext envelope =>
      decrypt self envelope (account_aad (ac_provider_id account) (ac_id account))
  | Inline value => SecretLease_new value
  end.

Lemma SecretLease_text s v : SecretLease_new s = Ok v -> v <> "" /\ is_utf8 v = true.
Proof.
  unfold SecretLease_new. destruct (is_empty s) eqn:He, (is_utf8 s) eqn:Hu; cbn; try done.
  intros [= <-]. split; [|done]. by apply String.eqb_neq.
Qed.

Lemma read_reference_text self account r v :
  read_reference self account r = Ok v -> v <> "" /\ is_utf8 v = true.
Proof.
  destruct r as [name|envelope|value]; cbn [read_reference].
  - destruct (env_var name); [|done]. destruct (is_empty _); [done|]. apply SecretLease_text.
  - unfold decrypt. destruct (parse_envelope envelope); cbn [rbind]; [|done].
    destruct (ok_or (kr_keys _ !! _) _); cbn [rbind]; [|done].
    destruct (ok_or (aead_open _ _ _ _) _); cbn [rbind]; [|done]. apply SecretLease_text.
  - apply SecretLease_text.
Qed.

(** A configured reference's failure is reported, whatever it is. *)
Lemma lease_result (r : result string SecretResolverError) :
  match r with
  | Ok lease => Ok (Some lease)
  | Err CredentialUnavailable => Err CredentialUnavailable
  | Err error => Err error
  end = let? value := r in Ok (Some value).
Proof. by destruct r as [|[]]. Qed.

Lemma env_lease name :
  (let? value := ok_or (opt_filter not_empty (env_var name)) CredentialUnavailable in
   SecretLease_new value)
  = match env_var name with
    | Some value => if is_empty value then Err CredentialUnavailable else SecretLease_new value
    | None => Err CredentialUnavailable
    end.
Proof. destruct (env_var name) as [v|]; [|done]. cbn. unfold not_empty. by destruct (is_empty v). Qed.

Lemma resolution_by_references self account :
  resolve_account_credential_result env_var self account
  = match references account with
    | [] => Ok None
    | [reference] => let? value := read_reference self account reference in Ok (Some value)
    | _ => Err AmbiguousCredential
    end.
Proof.
  unfold resolve_account_credential_result, resolve_account, resolve_refs, references,
    credential_configured.
  destruct (ac_credential_env account) as [n|], (ac_credential_ciphertext account) as [c|],
    (ac_credential account) as [v|]; cbn [opt_filter is_some_and orb];
    repeat match goal with |- context [not_blank ?x] => destruct (not_blank x)
                      | |- context [not_empty ?x] => destruct (not_empty x) end;
    cbn -[decrypt SecretLease_new]; try done;
    first [rewrite env_lease; by rewrite lease_result | by rewrite lease_result].
Qed.

(** Resolution of an account's credential: none without a configured
    reference, the value of the only configured one or its failure, and an
    ambiguity error for more; a resolved credential is never empty. *)
Theorem credential_resolution_spec (self : SecretResolver) (account : AccountConfig) :
  resolve_account_credential_result env_var self account
  = match references account with
    | [] => Ok None
    | [reference] => let? value := read_reference self account reference in Ok (Some value)
    | _ => Err AmbiguousCredential
    end
  /\ forall value, resolve_account_credential_result env_var self account = Ok (Some value) ->
       value <> "" /\ is_utf8 value = true.
Proof.
  rewrite resolution_by_references. split; [done|]. intros value.
  destruct (references account) as [|r [|]]; [done| |done].
  destruct (read_reference self account r) as [v|] eqn:Hr; [|done]. intros [= <-].
  by eapply read_reference_text.
Qed.
End Properties.

(** ** An instance

    Base64 with the URL alphabet, and a mock AEAD that carries the text in
    clear behind sixteen bytes of the identity. *)

Definition b64_char (n : Z) : ascii :=
  if n <? 26 then chr (65 + n)
  else if n <? 52 then chr (71 + n)
  else if n <? 62 then chr (n - 4)
  else if n =? 62 then "-"%char else "_"%char.

Definition b64_value (a : ascii) : option Z :=
  if byte_in a 65 90 then Some (byte_val a - 65)
  else if byte_in a 97 122 then Some (byte_val a - 71)
  else if byte_in a 48 57 then Some (byte_val a + 4)
  else if byte_in a 45 45 then Some 62
  else if byte_in a 95 95 then Some 63 else None.

Fixpoint base64_encode (s : string) : string :=
  match s with
  | EmptyString => EmptyString
  | String a EmptyString =>
      let a := byte_val a in String (b64_char (a / 4)) (bstr (b64_char (a mod 4 * 16)))
  | String a (String b EmptyString) =>
      let a := byte_val a in let b := byte_val b in
      String (b64_char (a / 4)) (String (b64_char (a mod 4 * 16 + b / 16)) (bstr (b64_char (b mod 16 * 4))))
  | String a (String b (String c s)) =>
      let a := byte_val a in let b := byte_val b in let c := byte_val c in
      String (b64_char (a / 4)) (String (b64_char (a mod 4 * 16 + b / 16))
        (String (b64_char (b mod 16 * 4 + c / 64)) (String (b64_char (c mod 64)) (base64_encode s))))
  end.

Fixpoint base64_decode (s : string) : option string :=
  match s with
  | EmptyString => Some EmptyString
  | String p (String q EmptyString) =>
      x ← b64_value p; y ← b64_value q; Some (bstr (chr (x * 4 + y / 16)))
  | String p (String q (String r EmptyString)) =>
      x ← b64_value p; y ← b64_value q; z ← b64_value r;
      Some (String (chr (x * 4 + y / 16)) (bstr (chr (y mod 16 * 16 + z / 4))))
  | String p (String q (String r (String t s))) =>
      x ← b64_value p; y ← b64_value q; z ← b64_value r; w ← b64_value t; rest ← base64_decode s;
      Some (String (chr (x * 4 + y / 16)) (String (chr (y mod 16 * 16 + z / 4))
              (String (chr (z mod 4 * 64 + w)) rest)))
  | String _ EmptyString => None
  end.

Lemma b64_char_ok n : 0 <= n < 64 -> b64_value (b64_char n) = Some n /\ b64url_byte (b64_char n) = true.
Proof.
  intros Hn.
  assert (forallb (fun k => match b64_value (b64_char (Z.of_nat k)) with
                            | Some m => (m =? Z.of_nat k) && b64url_byte (b64_char (Z.of_nat k))
                            | None => false end) (seq 0 64) = true) as Hall by reflexivity.
  rewrite forallb_forall in Hall. specialize (Hall (Z.to_nat n)).
  rewrite Z2Nat.id in Hall by lia. destruct (b64_value _) as [m|].
  - assert ((m =? n) && b64url_byte (b64_char n) = true) as Hb by (apply Hall, in_seq; lia).
    apply andb_true_iff in Hb as [->%Z.eqb_eq ->]. done.
  - assert (false = true) by (apply Hall, in_seq; lia). done.
Qed.

Lemma b64_value_char n : 0 <= n < 64 -> b64_value (b64_char n) = Some n.
Proof. intros Hn. by apply b64_char_ok. Qed.

Lemma b64url_byte_char n : 0 <= n < 64 -> b64url_byte (b64_char n) = true.
Proof. intros Hn. by apply b64_char_ok. Qed.

Lemma chr_byte_val a : chr (byte_val a) = a.
Proof. unfold chr, byte_val. by rewrite N2Z.id, ascii_N_embedding. Qed.

(** Induction by groups of three bytes. *)
Lemma string_ind3 (P : string -> Prop) :
  P "" -> (forall a, P (bstr a)) -> (forall a b, P (String a (bstr b))) ->
  (forall a b c s, P s -> P (String a (String b (String c s)))) -> forall s, P s.
Proof.
  intros P0 P1 P2 P3. fix IH 1. intros [|a [|b [|c s]]]; [done|apply P1|apply P2|apply P3, IH].
Qed.

Ltac b64_chars :=
  rewrite ?b64_value_char, ?b64url_byte_char by (Z.to_euclidean_division_equations; lia).

Ltac byte_ranges :=
  repeat match goal with a : ascii |- _ =>
    lazymatch goal with
    | _ : 0 <= byte_val a < 256 |- _ => fail
    | |- _ => pose proof (byte_val_range a)
    end end.

Lemma chr_of n a : n = byte_val a -> chr n = a.
Proof. intros ->. apply chr_byte_val. Qed.

Lemma base64_roundtrip s : base64_decode (base64_encode s) = Some s.
Proof.
  induction s as [|a|a b|a b c s IH] using string_ind3; [done| | |]; byte_ranges;
    cbn [base64_encode base64_decode bstr]; b64_chars; cbn [mbind option_bind];
    rewrite ?IH; cbn [mbind option_bind]; repeat f_equal; apply chr_of;
    Z.to_euclidean_division_equations; lia.
Qed.

Lemma base64_alphabet s : sall b64url_byte (base64_encode s) = true.
Proof.
  induction s as [|a|a b|a b c s IH] using string_ind3; [done| | |]; byte_ranges;
    cbn [base64_encode sall bstr]; b64_chars; by rewrite ?IH.
Qed.

Lemma base64_len s : slen (base64_encode s) = (4 * slen s + 2) / 3.
Proof.
  induction s as [|a|a b|a b c s IH] using string_ind3; [done|done|done|].
  cbn [base64_encode]. rewrite !slen_cons, IH. Z.to_euclidean_division_equations; lia.
Qed.

Fixpoint take_pad (n : nat) (s : string) : string :=
  match n, s with
  | O, _ => EmptyString
  | S n, EmptyString => String " " (take_pad n EmptyString)
  | S n, String a s => String a (take_pad n s)
  end.

Lemma take_pad_len n s : slen (take_pad n s) = Z.of_nat n.
Proof.
  revert s. induction n as [|n IH]; intros [|a s]; cbn [take_pad]; [done|done| |];
    rewrite slen_cons, IH; lia.
Qed.

Fixpoint string_drop (n : nat) (s : string) : string :=
  match n, s with S n, String _ s => string_drop n s | _, _ => s end.

Definition mock_tag (aad : string) : string := take_pad 16 (string_drop 25 aad).

Definition mock_crypto : Crypto := {|
  aead_seal _ _ aad text := Some (mock_tag aad +:+ text);
  aead_open _ _ aad c := strip_prefix (mock_tag aad) c;
  b64url_encode := base64_encode;
  b64url_decode := base64_decode;
  b64_decode _ := None |}.

Lemma mock_laws : @CryptoLaws mock_crypto.
Proof.
  split; cbn [aead_seal aead_open b64url_encode b64url_decode mock_crypto].
  - eauto.
  - intros _ _ aad text c [= <-]. rewrite slen_app. unfold mock_tag. rewrite take_pad_len.
    unfold TAG_LEN. lia.
  - intros _ _ aad text c [= <-]. apply strip_prefix_app.
  - apply base64_alphabet.
  - apply base64_len.
  - apply base64_roundtrip.
Qed.

Definition mock_resolver : SecretResolver :=
  mkSecretResolver "v1" {["v1" := "0123456789abcdef0123456789abcdef"]}.
Definition mock_rotated : SecretResolver :=
  mkSecretResolver "v2" (<["v2" := "fedcba9876543210fedcba9876543210"]> (kr_keys mock_resolver)).

Lemma mock_resolver_ok : resolver_ok mock_resolver.
Proof.
  split; [done| |by right; eexists]. unfold mock_resolver; cbn [kr_keys].
  apply map_Forall_singleton. done.
Qed.

Lemma mock_rotated_ok : resolver_ok mock_rotated.
Proof.
  split; [done| |by right; eexists]. unfold mock_rotated; cbn [kr_keys].
  apply map_Forall_insert_2; [done|]. apply mock_resolver_ok.
Qed.

Lemma mock_extends : kr_keys mock_resolver ⊆ kr_keys mock_rotated.
Proof. by apply insert_subseteq. Qed.

Example mock_envelope :
  @encrypt_for_account mock_crypto mock_resolver (Some "nonce-nonce-") "openai" "main" "sk-1"
  = Ok "gwenc:v1:v1:bm9uY2Utbm9uY2Ut:b3BlbmFpL21haW4gICAgIHNrLTE".
Proof. reflexivity. Qed.

Definition mock_account : AccountConfig :=
  mkAccountConfig "main" "openai" "" None
    (Some "gwenc:v1:v1:bm9uY2Utbm9uY2Ut:b3BlbmFpL21haW4gICAgIHNrLTE") None true 1 [] None [] [].

Example mock_read :
  @resolve_account_credential_result mock_crypto json_concrete (fun _ => None) mock_rotated mock_account
  = Ok (Some "sk-1").
Proof. reflexivity. Qed.

(** Two identities the code does not tell apart. *)
Example account_aad_not_injective : account_aad "a/b" "c" = account_aad "a" "b/c".
Proof. reflexivity. Qed.

(** A [hex:] key with a two-byte character across a pair boundary. *)
Example derive_key_panics :
  @derive_key mock_crypto (fun s => s) ("hex:0" +:+ String (chr 195) (String (chr 169) "0")) = Panic.
Proof. reflexivity. Qed.

Lemma credential_roundtrip_witness :
  exists envelope envelope',
    @encrypt_for_account mock_crypto mock_resolver (Some "nonce-nonce-") "openai" "main" "sk-1" = Ok envelope
    /\ @resolve_account mock_crypto json_concrete (fun _ => None) mock_rotated "openai" "main" None
         (Some envelope) None = Ok "sk-1"
    /\ @rotate_for_account mock_crypto json_concrete mock_rotated (Some "nonce-nonce+") "openai" "main"
         envelope = Ok envelope'
    /\ @resolve_account mock_crypto json_concrete (fun _ => None) mock_rotated "openai" "main" None
         (Some envelope') None = Ok "sk-1"
    /\ exists c, @parse_envelope mock_crypto json_concrete envelope'
                 = Ok (mkEnvelope "v2" "nonce-nonce+" c).
Proof.
  exact (@credential_roundtrip mock_crypto mock_laws json_concrete (fun _ => None) mock_resolver
           mock_rotated "nonce-nonce-" "nonce-nonce+" "openai" "main" "sk-1" mock_resolver_ok
           mock_rotated_ok ltac:(done) mock_extends ltac:(done) ltac:(done) ltac:(done)).
Defined.

Lemma envelope_account_bound_witness :
  exists envelope,
    @encrypt_for_account mock_crypto mock_resolver (Some "nonce-nonce-") "openai" "main" "sk-1" = Ok envelope
    /\ @resolve_account mock_crypto json_concrete (fun _ => None) mock_rotated "openai" "second" None
         (Some envelope) None = Err DecryptionFailed.
Proof.
  assert (@aad_separates mock_crypto (account_aad "openai" "main") (account_aad "openai" "second"))
    as Haead by (intros key nonce text c [= <-]; reflexivity).
  exact (@envelope_account_bound mock_crypto mock_laws json_concrete (fun _ => None) mock_resolver
           mock_rotated "nonce-nonce-" "openai" "main" "openai" "second" "sk-1" mock_resolver_ok
           ltac:(done) mock_extends ltac:(done) ltac:(done) ltac:(done) ltac:(done) (fun _ => Haead)).
Defined.
