(* ===== verification/UsageReport.v ===== *)
(** * Usage reports: reading the usage tables

    The queries of [src/src/infra/db/usage.rs] on the tables of [Accounting]
    and the parser and the export of [src/src/api/usage.rs]: the filter and its
    SQL text, the events in pages, the totals, the series in time and the breakdown by a
    dimension, and the export as CSV.

    A statement whose text is built at run time is kept as text
    ([filter_sql], [page_sql]); a statement with a fixed text is its effect.
    The averages and percentiles of PostgreSQL are the class [PgStatistics]. *)

From Stdlib Require Import ZArith Lia Ascii SpecFloat.
From stdpp Require Import base gmap list strings.
From S2P Require Import Prelude.
From S2P Require Import RustStr.
From S2P Require Import BTree.
From S2P Require Import Keyset.
From S2P Require Import Json.
From S2P Require Import Usage.
From S2P Require Import Cleanup.
From S2P Require Import Accounting.
From S2P Require Import EventFeed.
From S2P Require Import F64.
From S2P Require Import Http.

(** A row of [usage_events]: the time it was stored at, the source, which rows
    older than the column do not have, and the event. *)
Record UsageRow : Type := mkUsageRow { uw_created_at : Z; uw_source_id : option string; uw_event : UsageEvent }.

(** The tables: events by request, attempts by request and number. *)
Record ReportTables : Type := mkReportTables {
  rt_events : gmap string UsageRow;
  rt_attempts : gmap (string * Z) UsageAttempt;
}.

(** ** Filters *)

Record UsageFilter : Type := mkUsageFilter {
  uf_from : option Z;
  uf_to : option Z;
  uf_logical_model : option string;
  uf_upstream_model_id : option string;
  uf_provider_id : option string;
  uf_source_id : option string;
  uf_client_source : option string;
  uf_account_id : option string;
  uf_protocol_in : option string;
  uf_protocol_upstream : option string;
  uf_virtual_key_id : option Z;
  uf_success : option bool;
  uf_status_code : option Z;
  uf_usage_source : option string;
}.

Inductive FilterBind : Type :=
| BindTime (t : Z)
| BindText (s : string)
| BindI64 (n : Z)
| BindI32 (n : Z)
| BindBool (b : bool).

(** [clauses.push(format!("{column} {op} ${}", binds.len() + 1)); binds.push(..)]. *)
Definition push_clause (sql : list string * list FilterBind) (column op : string) (bind : FilterBind)
    : list string * list FilterBind :=
  let '(clauses, binds) := sql in
  (clauses ++ [column +:+ " " +:+ op +:+ " $" +:+ dec (Z.of_nat (length binds) + 1)], binds ++ [bind]).

Definition push_if {A} (sql : list string * list FilterBind) (column op : string) (bind : A -> FilterBind) (value : option A)
    : list string * list FilterBind :=
  match value with Some value => push_clause sql column op (bind value) | None => sql end.

Definition text_columns (f : UsageFilter) : list (string * option string) :=
  [("logical_model", uf_logical_model f); ("upstream_model_id", uf_upstream_model_id f); ("provider_id", uf_provider_id f);
   ("source_id", uf_source_id f); ("client_source", uf_client_source f); ("account_id", uf_account_id f);
   ("protocol_in", uf_protocol_in f); ("protocol_upstream", uf_protocol_upstream f); ("usage_source", uf_usage_source f)].

Definition filter_sql (f : UsageFilter) : string * list FilterBind :=
  let sql := push_if ([], []) "created_at" ">=" BindTime (uf_from f) in
  let sql := push_if sql "created_at" "<" BindTime (uf_to f) in
  let sql := fold_left (fun sql cv => push_if sql cv.1 "=" BindText cv.2) (text_columns f) sql in
  let sql := push_if sql "virtual_key_id" "=" BindI64 (uf_virtual_key_id f) in
  let sql := push_if sql "success" "=" BindBool (uf_success f) in
  let sql := push_if sql "status_code" "=" BindI32 (uf_status_code f) in
  let '(clauses, binds) := sql in
  ((if bool_decide (clauses = []) then "" else "WHERE " +:+ join " AND " clauses), binds).

(** What the filter asks of a row; a column that is [NULL] is never equal. *)
Definition filter_matches (f : UsageFilter) (r : UsageRow) : bool :=
  let e := uw_event r in
  is_none_or (uf_from f) (fun t => t <=? uw_created_at r)
  && is_none_or (uf_to f) (fun t => uw_created_at r <? t)
  && column_is (uf_logical_model f) (Some (ue_logical_model e))
  && column_is (uf_upstream_model_id f) (ue_upstream_model_id e)
  && column_is (uf_provider_id f) (Some (ue_provider_id e))
  && column_is (uf_source_id f) (uw_source_id r)
  && column_is (uf_client_source f) (Some (ue_client_source e))
  && column_is (uf_account_id f) (Some (ue_account_id e))
  && column_is (uf_protocol_in f) (Some (ue_protocol_in e))
  && column_is (uf_protocol_upstream f) (Some (ue_protocol_upstream e))
  && column_is (uf_usage_source f) (Some (ur_source (ue_usage e)))
  && is_none_or (uf_virtual_key_id f) (fun id => is_some_and (ue_virtual_key_id e) (Z.eqb id))
  && is_none_or (uf_success f) (Bool.eqb (ue_success e))
  && is_none_or (uf_status_code f) (Z.eqb (ue_status_code e)).

Definition filtered (t : ReportTables) (f : UsageFilter) : list UsageRow :=
  filter (fun r => filter_matches f r = true) (map snd (map_to_list (rt_events t))).

(** ** Events *)

Record UsageCursor : Type := mkUsageCursor { uc_created_at : Z; uc_request_id : string }.

Section Cursor.
Context `{EventTime}.

(** [UsageCursor::encode] and [decode]. *)
Definition encode_usage_cursor (c : UsageCursor) : string :=
  dec (timestamp_micros (uc_created_at c)) +:+ ":" +:+ uc_request_id c.

Definition decode_usage_cursor (value : string) : option UsageCursor :=
  match split_once ":"%char value with
  | Some (micros, request_id) =>
      parse_int I64_MIN I64_MAX micros ≫= fun micros =>
      if is_empty request_id then None
      else from_micros micros ≫= fun t => Some (mkUsageCursor t request_id)
  | None => None
  end.
End Cursor.

Definition usage_event_select : string :=
  "SELECT request_id,virtual_key_id,provider_id,account_id,logical_model,upstream_model_id,source_id,client_source,protocol_in,protocol_upstream,mode,status_code,success,retry_count,latency_ms,ttft_ms,input_tokens,output_tokens,reasoning_tokens,cached_tokens,cache_read_tokens,cache_creation_tokens,total_tokens,usage_source,degraded,route_id,streamed,error_summary,fallback_reason,response_model,requested_reasoning_effort,response_reasoning_effort,created_at FROM usage_events".

Definition placeholder (n : Z) : string := "$" +:+ dec n.

(** The statement of [list_usage_events_page_inner] and its values. *)
Definition page_sql (f : UsageFilter) (cursor : option UsageCursor) (limit : Z) : string * list FilterBind :=
  let '(where_sql, binds) := filter_sql f in
  let n := Z.of_nat (length binds) in
  let where_sql :=
    match cursor with
    | Some _ =>
        where_sql +:+ " " +:+ (if is_empty where_sql then "WHERE" else "AND")
        +:+ " (created_at, request_id) < (" +:+ placeholder (n + 1) +:+ ", " +:+ placeholder (n + 2) +:+ ")"
    | None => where_sql
    end in
  (usage_event_select +:+ " " +:+ where_sql +:+ " ORDER BY created_at DESC, request_id DESC LIMIT "
     +:+ placeholder (n + if is_some cursor then 3 else 1),
   binds ++ (match cursor with Some c => [BindTime (uc_created_at c); BindText (uc_request_id c)] | None => [] end)
     ++ [BindI64 (limit + 1)]).

(** The statement of [export_usage_events]. *)
Definition export_sql (f : UsageFilter) (limit : Z) : string * list FilterBind :=
  let '(where_sql, binds) := filter_sql f in
  (usage_event_select +:+ " " +:+ where_sql +:+ " ORDER BY created_at DESC, request_id DESC LIMIT "
     +:+ placeholder (Z.of_nat (length binds) + 1), binds ++ [BindI64 limit]).

Definition usage_key (r : UsageRow) : Z * string := (uw_created_at r, ue_request_id (uw_event r)).

Record UsageEventPage : Type := mkUsageEventPage {
  up_data : list UsageRow;
  up_next_cursor : option string;
  up_has_more : bool;
}.

(** ** Totals *)

(** What the three reports say of a set of events. *)
Record UsageStats : Type := mkUsageStats {
  st_logical_requests : Z;
  st_upstream_attempts : Z;
  st_retries : Z;
  st_successes : Z;
  st_failures : Z;
  st_success_rate : f64;
  st_average_latency_ms : f64;
  st_p95_latency_ms : f64;
  st_input_tokens : Z;
  st_output_tokens : Z;
  st_reasoning_tokens : Z;
  st_cached_tokens : Z;
  st_cache_read_tokens : Z;
  st_cache_creation_tokens : Z;
  st_total_tokens : Z;
}.

(** [AVG(..)::DOUBLE PRECISION] and [PERCENTILE_CONT(0.95)] of integers. *)
Class PgStatistics : Type := { pg_avg : list Z -> f64; pg_p95 : list Z -> f64 }.

Definition zsum (l : list Z) : Z := foldr Z.add 0 l.
Definition zcount {A} (p : A -> bool) (l : list A) : Z := Z.of_nat (length (List.filter p l)).

(** [COALESCE(SUM(..),0)::BIGINT]: an error out of range. *)
Definition sum_bigint (l : list Z) : option Z :=
  let n := zsum l in if (I64_MIN <=? n) && (n <=? I64_MAX) then Some n else None.

Section Reports.
Context `{PgStatistics}.

(** How many rows of [usage_event_attempts] join the event. *)
Definition attempts_of (t : ReportTables) (r : UsageRow) : Z :=
  zcount (fun kv => kv.1.1 =?s ue_request_id (uw_event r)) (map_to_list (rt_attempts t)).

Definition usage_stats (t : ReportTables) (rows : list UsageRow) : option UsageStats :=
  let total g := sum_bigint (map (fun r => g (uw_event r)) rows) in
  let tokens g := total (fun e => g (ue_usage e)) in
  let n := Z.of_nat (length rows) in
  let successes := zcount (fun r => ue_success (uw_event r)) rows in
  let latencies := map (fun r => ue_latency_ms (uw_event r)) rows in
  total ue_retry_count ≫= fun retries =>
  tokens ur_input_tokens ≫= fun input => tokens ur_output_tokens ≫= fun output =>
  tokens ur_reasoning_tokens ≫= fun reasoning => tokens ur_cached_tokens ≫= fun cached =>
  tokens ur_cache_read_tokens ≫= fun cache_read => tokens ur_cache_creation_tokens ≫= fun cache_creation =>
  tokens ur_total_tokens ≫= fun all =>
  Some (mkUsageStats n (zsum (map (attempts_of t) rows)) retries successes
          (zcount (fun r => negb (ue_success (uw_event r))) rows)
          (if n =? 0 then f0 else f_div (f_of_int successes) (f_of_int n))
          (if n =? 0 then f0 else pg_avg latencies) (if n =? 0 then f0 else pg_p95 latencies)
          input output reasoning cached cache_read cache_creation all).

(** [GROUP BY]: the keys in the order of their first row, each with its rows. *)
Definition groups {K} `{EqDecision K} (key : UsageRow -> K) (rows : list UsageRow) : list (K * list UsageRow) :=
  map (fun k => (k, filter (fun r => key r = k) rows)) (remove_dups (map key rows)).

Definition group_stats {K} `{EqDecision K} (t : ReportTables) (key : UsageRow -> K) (rows : list UsageRow)
    : option (list (K * UsageStats)) :=
  mapM (fun g => usage_stats t g.2 ≫= fun s => Some (g.1, s)) (groups key rows).

Definition usage_aggregate (t : ReportTables) (f : UsageFilter) : option UsageStats := usage_stats t (filtered t f).

(** [date_trunc(.., created_at AT TIME ZONE 'UTC') AT TIME ZONE 'UTC'], in
    nanoseconds: hours and days of UTC start at whole multiples. *)
Definition bucket_width (granularity : string) : Z :=
  if granularity =?s "day" then 86400 * 1000000000 else 3600 * 1000000000.
Definition bucket_of (granularity : string) (r : UsageRow) : Z :=
  uw_created_at r - uw_created_at r mod bucket_width granularity.

Definition usage_timeseries (t : ReportTables) (f : UsageFilter) (granularity : string) : option (list (Z * UsageStats)) :=
  sort_by fst <$> group_stats t (bucket_of granularity) (filtered t f).

(** The columns a breakdown may group by. *)
Definition dimension_of (dimension : string) (r : UsageRow) : option string :=
  let e := uw_event r in
  if dimension =?s "logical_model" then Some (ue_logical_model e)
  else if dimension =?s "upstream_model" then ue_upstream_model_id e
  else if dimension =?s "provider" then Some (ue_provider_id e)
  else if dimension =?s "source_id" then uw_source_id r
  else if dimension =?s "client_source" then Some (ue_client_source e)
  else if dimension =?s "account" then Some (ue_account_id e)
  else if dimension =?s "protocol_in" then Some (ue_protocol_in e)
  else if dimension =?s "protocol_upstream" then Some (ue_protocol_upstream e)
  else if dimension =?s "virtual_key" then dec <$> ue_virtual_key_id e
  else if dimension =?s "status" then Some (if ue_success e then "success" else "failure")
  else if dimension =?s "usage_source" then Some (ur_source (ue_usage e))
  else Some (ue_logical_model e).

Record UsageBreakdown : Type := mkUsageBreakdown {
  ub_key : option string;
  ub_stats : UsageStats;
  ub_logical_request_share : f64;
  ub_total_token_share : f64;
}.

Definition with_shares (l : list (option string * UsageStats)) : list UsageBreakdown :=
  let requests := zsum (map (fun ks => st_logical_requests ks.2) l) in
  let tokens := zsum (map (fun ks => st_total_tokens ks.2) l) in
  map (fun ks => mkUsageBreakdown ks.1 ks.2
                   (f_div (f_of_int (st_logical_requests ks.2)) (f_of_int requests))
                   (if tokens =? 0 then f0 else f_div (f_of_int (st_total_tokens ks.2)) (f_of_int tokens))) l.

(** [logical_requests DESC, key ASC NULLS LAST]. *)
Definition breakdown_key (b : UsageBreakdown) : Z * (Z * string) :=
  (- st_logical_requests (ub_stats b), match ub_key b with Some key => (0, key) | None => (1, "") end).

Definition usage_breakdown (text_order : Ordered string) (t : ReportTables) (f : UsageFilter) (dimension : string)
    : option (list UsageBreakdown) :=
  (fun l => @sort_by _ _ (@prod_Ordered _ _ Z_Ordered (@prod_Ordered _ _ Z_Ordered text_order)) breakdown_key (with_shares l))
  <$> group_stats t (dimension_of dimension) (filtered t f).
End Reports.

(** ** Pages *)

Section Pages.
Context `{EventTime} (text_order : Ordered string).

Definition cursor_position (c : UsageCursor) : Z * string := (uc_created_at c, uc_request_id c).

(** The rows [page_sql] and [export_sql] select, before their [LIMIT]. *)
Definition selected_rows (t : ReportTables) (f : UsageFilter) (cursor : option UsageCursor) : list UsageRow :=
  @rows_after _ _ (newest_first text_order) usage_key (filter_matches f) (cursor_position <$> cursor)
    (map snd (map_to_list (rt_events t))).

Definition list_usage_events_page (t : ReportTables) (f : UsageFilter) (limit : Z) (cursor : option UsageCursor)
    : UsageEventPage :=
  let limit := clamp 1 500 limit in
  let data := firstn (Z.to_nat (limit + 1)) (selected_rows t f cursor) in
  let has_more := limit <? Z.of_nat (length data) in
  let data := if has_more then firstn (Z.to_nat limit) data else data in
  let next_cursor :=
    if has_more
    then (fun r => encode_usage_cursor (mkUsageCursor (uw_created_at r) (ue_request_id (uw_event r)))) <$> last data
    else None in
  mkUsageEventPage data next_cursor has_more.

Definition export_usage_events (t : ReportTables) (f : UsageFilter) (limit : Z) : list UsageRow :=
  firstn (Z.to_nat limit) (selected_rows t f None).

Definition get_usage_event_detail (t : ReportTables) (request_id : string) : option UsageRow := rt_events t !! request_id.

Definition list_attempts_for_event (t : ReportTables) (request_id : string) : list UsageAttempt :=
  sort_by ua_attempt_no
    (map snd (filter (fun kv => kv.1.1 = request_id) (map_to_list (rt_attempts t)))).
End Pages.

(** ** CSV *)

Fixpoint replace_quotes (s : string) : string :=
  match s with
  | EmptyString => EmptyString
  | String a t => if Ascii.eqb a (chr 34) then String a (String a (replace_quotes t)) else String a (replace_quotes t)
  end.

Definition csv_field (value : string) : string :=
  if contains_char value ","%char || contains_char value (chr 34) || contains_char value LF || contains_char value CR
  then bstr (chr 34) +:+ replace_quotes value +:+ bstr (chr 34)
  else value.

Definition csv_columns : list string :=
  ["request_id"; "created_at"; "virtual_key_id"; "logical_model"; "upstream_model_id"; "provider_id"; "source_id";
   "client_source"; "account_id"; "protocol_in"; "protocol_upstream"; "mode"; "status_code"; "success"; "retry_count";
   "latency_ms"; "ttft_ms"; "input_tokens"; "output_tokens"; "reasoning_tokens"; "cached_tokens"; "cache_read_tokens";
   "cache_creation_tokens"; "total_tokens"; "usage_source"; "degraded"; "route_id"; "streamed"; "error_summary";
   "fallback_reason"; "response_model"; "requested_reasoning_effort"; "response_reasoning_effort"].

Definition bool_text (b : bool) : string := if b then "true" else "false".
Definition int_or_blank (n : option Z) : string := unwrap_or (dec <$> n) "".

Section Csv.
Context `{Rfc3339}.

Definition csv_values (r : UsageRow) : list string :=
  let e := uw_event r in
  let u := ue_usage e in
  [ue_request_id e; to_rfc3339 (uw_created_at r); int_or_blank (ue_virtual_key_id e); ue_logical_model e;
   unwrap_or (ue_upstream_model_id e) ""; ue_provider_id e; unwrap_or (uw_source_id r) ""; ue_client_source e; ue_account_id e;
   ue_protocol_in e; ue_protocol_upstream e; ue_mode e; dec (ue_status_code e); bool_text (ue_success e);
   dec (ue_retry_count e); dec (ue_latency_ms e); int_or_blank (ue_ttft_ms e); dec (ur_input_tokens u);
   dec (ur_output_tokens u); dec (ur_reasoning_tokens u); dec (ur_cached_tokens u); dec (ur_cache_read_tokens u);
   dec (ur_cache_creation_tokens u); dec (ur_total_tokens u); ur_source u; bool_text (ue_degraded e);
   unwrap_or (ue_route_id e) ""; bool_text (ue_streamed e); unwrap_or (ue_error_summary e) "";
   unwrap_or (ue_fallback_reason e) ""; unwrap_or (ue_response_model e) "";
   unwrap_or (ue_requested_reasoning_effort e) ""; unwrap_or (ue_response_reasoning_effort e) ""].

(** [writeln!]. *)
Definition csv_line (values : list string) : string := join "," (map csv_field values) +:+ bstr LF.

Definition usage_events_csv (events : list UsageRow) : string :=
  fold_left (fun output event => output +:+ csv_line (csv_values event)) events (join "," csv_columns +:+ bstr LF).
End Csv.

(** ** The query of a request *)

Record UsageQuery : Type := mkUsageQuery {
  uq_filter : UsageFilter;
  uq_granularity : string;
  uq_breakdown : string;
  uq_limit : Z;
  uq_cursor : option UsageCursor;
  uq_format : string;
}.

Abbreviation Query := (list (string * string)).

(** An integer of a query, between bounds. *)
Definition bounded (parse_lo parse_hi lo hi : Z) (query : Query) (name message : string) : result (option Z) string :=
  match hm_get query name with
  | Some value =>
      match parse_int parse_lo parse_hi value with
      | Some n => if (lo <=? n) && (n <=? hi) then Ok (Some n) else Err message
      | None => Err message
      end
  | None => Ok None
  end.

(** A word of a query with a default. *)
Definition word (query : Query) (name default : string) (allowed : list string) (message : string) : result string string :=
  let value := unwrap_or (hm_get query name) default in
  if one_of value allowed then Ok value else Err message.

Definition BREAKDOWNS : list string :=
  ["logical_model"; "upstream_model"; "provider"; "source_id"; "client_source"; "account"; "protocol_in";
   "protocol_upstream"; "virtual_key"; "status"; "usage_source"].

Definition status_filter (query : Query) : result (option bool) string :=
  match hm_get query "status" with
  | None => Ok None
  | Some value =>
      if value =?s "success" then Ok (Some true)
      else if value =?s "failure" then Ok (Some false)
      else Err "status must be success or failure"
  end.

Section Handlers.
Context `{Rfc3339} `{EventTime}.

Definition parse_usage_query (query : Query) : result UsageQuery string :=
  if is_some (hm_get query "source") then Err "source is no longer supported; use source_id or client_source"
  else
    let? from := parse_time query "from" in
    let? to := parse_time query "to" in
    if match from, to with Some from, Some to => to <=? from | _, _ => false end
    then Err "from must be earlier than to"
    else
      let? virtual_key_id := bounded I64_MIN I64_MAX 1 I64_MAX query "virtual_key" "virtual_key must be a positive integer" in
      let? status_code := bounded (- 2 ^ 31) (2 ^ 31 - 1) 100 599 query "status_code"
                            "status_code must be between 100 and 599" in
      let? success := status_filter query in
      if negb (is_none_or (hm_get query "usage_source")
                 (fun value => one_of value ["upstream"; "parsed"; "estimated"; "missing"]))
      then Err "usage_source must be upstream, parsed, estimated, or missing"
      else
        let? granularity := word query "granularity" "hour" ["hour"; "day"] "granularity must be hour or day" in
        let? breakdown := word query "breakdown" "logical_model" BREAKDOWNS "unsupported breakdown dimension" in
        let? limit := bounded I64_MIN I64_MAX 1 500 query "limit" "limit must be between 1 and 500" in
        let? cursor := match hm_get query "cursor" with
                       | Some value => match decode_usage_cursor value with
                                       | Some c => Ok (Some c) | None => Err "cursor is invalid" end
                       | None => Ok None
                       end in
        let? format := word query "format" "json" ["json"; "csv"] "format must be json or csv" in
        let text := hm_get query in
        Ok (mkUsageQuery
              (mkUsageFilter from to (text "logical_model") (text "upstream_model") (text "provider") (text "source_id")
                 (text "client_source") (text "account") (text "protocol_in") (text "protocol_upstream") virtual_key_id
                 success status_code (text "usage_source"))
              granularity breakdown (unwrap_or limit 100) cursor format).
End Handlers.
