(* ===== verification/UsageReportProps.v ===== *)
(** * What the usage reports show

    The export as CSV is read back exactly, following the cursors reads every
    event once, the statements built at run time select what the filter says,
    and the three reports agree with each other. *)

From Stdlib Require Import ZArith Lia Ascii Sorting.Sorted.
From stdpp Require Import base gmap list strings pretty sorting.
From S2P Require Import Prelude.
From S2P Require Import RustStr.
From S2P Require Import BTree.
From S2P Require Import Keyset.
From S2P Require Import Json.
From S2P Require Import Usage.
From S2P Require Import Cleanup.
From S2P Require Import Accounting.
From S2P Require Import EventFeed.
From S2P Require Import F64.
From S2P Require Import UsageReport.

(** ** CSV *)

(** A reader of RFC 4180 with lines that end in a line feed: at the start of a
    field, in a field without quotes, between quotes, or after a quote. *)
Inductive CsvMode : Type := AtStart | InPlain | InQuotes | AfterQuote.

Fixpoint csv_read (mode : CsvMode) (field : string) (row : list string) (s : string) : option (list (list string)) :=
  match s with
  | EmptyString =>
      match mode, row with
      | AtStart, [] => Some []
      | InQuotes, _ => None
      | _, _ => Some [row ++ [field]]
      end
  | String a t =>
      let next := csv_read AtStart "" (row ++ [field]) t in
      let line := cons (row ++ [field]) <$> csv_read AtStart "" [] t in
      match mode with
      | InQuotes => if Ascii.eqb a (chr 34) then csv_read AfterQuote field row t else csv_read InQuotes (field +:+ bstr a) row t
      | AfterQuote =>
          if Ascii.eqb a (chr 34) then csv_read InQuotes (field +:+ bstr a) row t
          else if Ascii.eqb a ","%char then next else if Ascii.eqb a LF then line else None
      | AtStart | InPlain =>
          if Ascii.eqb a (chr 34) then match mode with AtStart => csv_read InQuotes "" row t | _ => None end
          else if Ascii.eqb a ","%char then next else if Ascii.eqb a LF then line
          else if Ascii.eqb a CR then None
          else csv_read InPlain (field +:+ bstr a) row t
      end
  end.

(** The characters that need no quotes. *)
Definition plain_char (a : ascii) : bool :=
  negb (Ascii.eqb a (chr 34) || Ascii.eqb a ","%char || Ascii.eqb a LF || Ascii.eqb a CR).

Lemma contains_char_false s c : contains_char s c = false -> sall (fun a => negb (Ascii.eqb c a)) s = true.
Proof. unfold contains_char, sany. apply negb_false_iff. Qed.

Lemma plain_or_quoted value :
  (sall plain_char value = true /\ csv_field value = value)
  \/ csv_field value = bstr (chr 34) +:+ replace_quotes value +:+ bstr (chr 34).
Proof.
  unfold csv_field. destruct (_ || _) eqn:E; [by right|left]. split; [|done].
  apply orb_false_iff in E as [E Hcr]. apply orb_false_iff in E as [E Hlf]. apply orb_false_iff in E as [Hc Hq].
  apply contains_char_false in Hc, Hq, Hlf, Hcr. revert Hc Hq Hlf Hcr.
  induction value as [|a value IH]; [done|]. cbn [sall]. unfold plain_char.
  rewrite !andb_true_iff, !negb_true_iff, !(Ascii.eqb_sym _ a). intros [-> ?] [-> ?] [-> ?] [-> ?]. split; [done|]. auto.
Qed.

Lemma read_plain value field row rest : sall plain_char value = true ->
  csv_read InPlain field row (value +:+ rest) = csv_read InPlain (field +:+ value) row rest.
Proof.
  revert field. induction value as [|a value IH]; intros field; [by rewrite string_app_nil_r|].
  cbn [sall]. intros [Ha Hs]%andb_true_iff. change (String a value +:+ rest) with (String a (value +:+ rest)).
  cbn [csv_read]. unfold plain_char in Ha. rewrite negb_true_iff, !orb_false_iff in Ha. destruct Ha as [[[-> ->] ->] ->].
  rewrite IH by done. by rewrite string_app_assoc.
Qed.

Lemma read_quoted value field row rest : starts_with rest (bstr (chr 34)) = false ->
  csv_read InQuotes field row (replace_quotes value +:+ String (chr 34) rest) = csv_read AfterQuote (field +:+ value) row rest.
Proof.
  intros Hrest. revert field. induction value as [|a value IH]; intros field.
  { by rewrite string_app_nil_r. }
  cbn [replace_quotes]. destruct (Ascii.eqb a (chr 34)) eqn:E.
  - apply Ascii.eqb_eq in E as ->. change (csv_read InQuotes (field +:+ bstr (chr 34)) row (replace_quotes value +:+ String (chr 34) rest)
      = csv_read AfterQuote (field +:+ String (chr 34) value) row rest). rewrite IH. by rewrite string_app_assoc.
  - change (String a (replace_quotes value) +:+ String (chr 34) rest) with (String a (replace_quotes value +:+ String (chr 34) rest)).
    cbn [csv_read]. rewrite E, IH. by rewrite string_app_assoc.
Qed.

(** A field and its separator. *)
Lemma read_field value row rest a : a = ","%char \/ a = LF ->
  csv_read AtStart "" row (csv_field value +:+ String a rest)
  = if Ascii.eqb a ","%char then csv_read AtStart "" (row ++ [value]) rest
    else cons (row ++ [value]) <$> csv_read AtStart "" [] rest.
Proof.
  intros Ha. destruct (plain_or_quoted value) as [[Hp ->]| ->].
  - destruct value as [|b value]; [by destruct Ha as [->| ->]|].
    change (String b value +:+ String a rest) with (String b (value +:+ String a rest)).
    pose proof Hp as Hp'. cbn [sall] in Hp. apply andb_true_iff in Hp as [Hb Hs].
    transitivity (csv_read InPlain "" row (String b value +:+ String a rest)).
    { change (String b value +:+ String a rest) with (String b (value +:+ String a rest)). cbn [csv_read].
      unfold plain_char in Hb. rewrite negb_true_iff, !orb_false_iff in Hb. by destruct Hb as [[[-> ->] ->] ->]. }
    rewrite read_plain by done. by destruct Ha as [->| ->].
  - rewrite !string_app_assoc. cbn [String.append bstr].
    change (csv_read InQuotes "" row (replace_quotes value +:+ String (chr 34) (String a rest))
      = if Ascii.eqb a ","%char then csv_read AtStart "" (row ++ [value]) rest
        else cons (row ++ [value]) <$> csv_read AtStart "" [] rest).
    rewrite read_quoted by by destruct Ha as [->| ->]. by destruct Ha as [->| ->].
Qed.

Lemma read_line values : forall row rest, values <> [] ->
  csv_read AtStart "" row (csv_line values +:+ rest) = cons (row ++ values) <$> csv_read AtStart "" [] rest.
Proof.
  unfold csv_line. induction values as [|v values IH]; intros row rest Hne; [done|]. destruct values as [|w values].
  - cbn [map join]. rewrite string_app_assoc. change (bstr LF +:+ rest) with (String LF rest). by rewrite read_field by by right.
  - change (join "," (map csv_field (v :: w :: values)))
      with (csv_field v +:+ String "," (join "," (map csv_field (w :: values)))).
    rewrite !string_app_assoc.
    change (String "," (join "," (map csv_field (w :: values))) +:+ bstr LF +:+ rest)
      with (String "," (join "," (map csv_field (w :: values)) +:+ bstr LF +:+ rest)).
    rewrite read_field by by left. cbn [Ascii.eqb]. rewrite <- string_app_assoc.
    change (Ascii.eqb "," ",") with true. cbn match. rewrite IH by done. by rewrite <- app_assoc.
Qed.

Section Csv.
Context `{Rfc3339}.

Lemma csv_values_nonempty r : csv_values r <> [].
Proof. done. Qed.

(** The CSV export is read back exactly: a reader of RFC 4180 finds the
    header and then one record per event with precisely its values, whatever
    commas, quotes and line breaks the names and messages contain. *)
Theorem csv_export_reads_back (events : list UsageRow) :
  csv_read AtStart "" [] (usage_events_csv events) = Some (csv_columns :: map csv_values events).
Proof.
  unfold usage_events_csv. change (join "," csv_columns +:+ bstr LF) with (csv_line csv_columns).
  assert (forall output lines, (forall rest, csv_read AtStart "" [] (output +:+ rest) = app lines <$> csv_read AtStart "" [] rest) ->
    csv_read AtStart "" [] (fold_left (fun output event => output +:+ csv_line (csv_values event)) events output)
    = Some (lines ++ map csv_values events)) as Hfold.
  { induction events as [|e events IH]; intros output lines Ho; cbn [fold_left].
    - rewrite <- (string_app_nil_r output), Ho. done.
    - rewrite (IH _ (lines ++ [csv_values e])); [by rewrite <- app_assoc|]. intros rest.
      rewrite string_app_assoc, Ho, read_line by apply csv_values_nonempty.
      destruct (csv_read AtStart "" [] rest); cbn; [|done]. by rewrite <- app_assoc. }
  apply (Hfold _ [csv_columns]). intros rest. rewrite read_line by done. by destruct (csv_read AtStart "" [] rest).
Qed.
End Csv.

(** ** Pages *)

Section Pages.
Context `{EventTime} (text_order : Ordered string).

#[local] Existing Instance newest_first.

(** Every event is stored under its request, with a time PostgreSQL can hold. *)
Definition events_keyed (t : ReportTables) : Prop := forall id r, rt_events t !! id = Some r ->
  ue_request_id (uw_event r) = id /\ id <> "" /\ time_ok (uw_created_at r).

Abbreviation stored t := (map snd (map_to_list (rt_events t))).

Lemma stored_row_in t r : r ∈ stored t <-> exists id, rt_events t !! id = Some r.
Proof.
  rewrite list_elem_of_fmap. split.
  - intros ([id r'] & -> & Hr%elem_of_map_to_list). by exists id.
  - intros [id Hr]. exists (id, r). by rewrite elem_of_map_to_list.
Qed.

Lemma stored_keys_distinct t : events_keyed t -> NoDup (map usage_key (stored t)).
Proof.
  intros Hk. apply (NoDup_fmap_1 snd). change (NoDup (map snd (map usage_key (stored t)))). rewrite !map_map.
  rewrite (map_ext_in _ fst); [apply NoDup_fst_map_to_list|].
  intros [id r] Hr%list_elem_of_In%elem_of_map_to_list. by destruct (Hk _ _ Hr).
Qed.

Lemma usage_cursor_survives c : time_ok (uc_created_at c) -> uc_request_id c <> "" ->
  decode_usage_cursor (encode_usage_cursor c) = Some c.
Proof.
  intros [Hr Ht] Hid. unfold decode_usage_cursor, encode_usage_cursor.
  change (":" +:+ uc_request_id c) with (String ":" (uc_request_id c)).
  rewrite split_once_app by apply dec_no_colon. rewrite parse_int_dec by done. cbn.
  rewrite (proj2 (String.eqb_neq _ _) Hid : is_empty (uc_request_id c) = false), Ht. by destruct c.
Qed.

(** A page as the client sees it. *)
Definition usage_page (t : ReportTables) (f : UsageFilter) (limit : Z) (cursor : option UsageCursor)
    : list UsageRow * option (option UsageCursor) :=
  let page := list_usage_events_page text_order t f limit cursor in (up_data page, decode_usage_cursor <$> up_next_cursor page).

Definition usage_row_cursor (r : UsageRow) : UsageCursor := mkUsageCursor (uw_created_at r) (ue_request_id (uw_event r)).

Lemma usage_page_cut t f limit c :
  usage_page t f limit c
  = (map id (cut (clamp 1 500 limit) (selected_rows text_order t f c)).1,
     (fun r => decode_usage_cursor (encode_usage_cursor (usage_row_cursor r)))
       <$> (cut (clamp 1 500 limit) (selected_rows text_order t f c)).2).
Proof.
  unfold usage_page, list_usage_events_page, cut. rewrite map_id. set (l := firstn _ _).
  destruct (_ <? _); [|done]. cbn [fst snd up_data up_next_cursor]. by destruct (last _).
Qed.

(** The usage events are read completely: a client that starts without a
    cursor and sends back the cursor of each page gets, whatever page size it
    asks for and after finitely many pages, every stored event that matches its
    filter exactly once and nothing else, newest first. *)
Theorem usage_events_are_read_completely (t : ReportTables) (f : UsageFilter) (limit : Z) :
  events_keyed t -> exists events,
    read_all (S (size (rt_events t))) (usage_page t f limit) None = Some events
    /\ (forall r, r ∈ events <-> (exists id, rt_events t !! id = Some r) /\ filter_matches f r = true)
    /\ StronglySorted klt (map usage_key events).
Proof.
  intros Hk. exists (selected_rows text_order t f None). pose proof (stored_keys_distinct t Hk) as Hd. split; [|split].
  - replace (size (rt_events t)) with (length (stored t)) by (rewrite length_map; apply length_map_to_list).
    erewrite (read_all_rows usage_key (filter_matches f) (stored t) Hd (clamp 1 500 limit) (clamp_range limit) id cursor_position
             (fun r => decode_usage_cursor (encode_usage_cursor (usage_row_cursor r))));
      [by rewrite map_id|..|apply usage_page_cut].
    intros r [id Hr]%stored_row_in. destruct (Hk _ _ Hr) as (Hid & Hne & Ht). exists (usage_row_cursor r). split; [|done].
    apply usage_cursor_survives; cbn; [done|]. by rewrite Hid.
  - intros r. unfold selected_rows. cbn [fmap option_fmap option_map]. by rewrite wanted_in, stored_row_in.
  - by apply wanted_strict.
Qed.
End Pages.

(** ** The reports agree *)

Lemma zsum_app l k : zsum (l ++ k) = zsum l + zsum k.
Proof. induction l as [|x l IH]; cbn; [done|]. unfold zsum in *. lia. Qed.

Lemma zsum_perm l k : l ≡ₚ k -> zsum l = zsum k.
Proof. unfold zsum. induction 1; cbn; lia. Qed.

Lemma zsum_map_add {A} (f g : A -> Z) l : zsum (map (fun a => f a + g a) l) = zsum (map f l) + zsum (map g l).
Proof. induction l as [|a l IH]; cbn; [done|]. unfold zsum in *. lia. Qed.

Lemma zsum_zero {A} (f : A -> Z) l : (forall a, a ∈ l -> f a = 0) -> zsum (map f l) = 0.
Proof.
  induction l as [|a l IH]; intros Hz; [done|]. cbn. rewrite Hz by left. unfold zsum in IH. rewrite IH; [done|].
  intros b Hb. apply Hz. by right.
Qed.

(** The sum of a key that occurs once. *)
Lemma zsum_indicator {K} `{EqDecision K} (ks : list K) (k : K) (x : Z) : NoDup ks -> k ∈ ks ->
  zsum (map (fun j => if decide (k = j) then x else 0) ks) = x.
Proof.
  induction 1 as [|j ks Hj Hks IH]; intros Hin; [by apply elem_of_nil in Hin|]. cbn.
  apply elem_of_cons in Hin as [->|Hin].
  - rewrite decide_True by done. assert (zsum (map (fun i => if decide (j = i) then x else 0) ks) = 0) as Hz.
    { apply zsum_zero. intros i Hi. rewrite decide_False; [done|]. by intros ->. }
    unfold zsum in Hz. lia.
  - rewrite decide_False by (by intros ->). unfold zsum in IH. rewrite IH by done. lia.
Qed.

Section Groups.
Context {K : Type} `{EqDecision K} (key : UsageRow -> K) (rows : list UsageRow).

(** Whatever is added up, the groups add up to the whole. *)
Lemma groups_sum (g : UsageRow -> Z) :
  zsum (map (fun kr => zsum (map g kr.2)) (groups key rows)) = zsum (map g rows).
Proof.
  unfold groups. rewrite map_map. cbn [snd].
  assert (forall ks, NoDup ks -> (forall r, r ∈ rows -> key r ∈ ks) ->
    zsum (map (fun k => zsum (map g (filter (fun r => key r = k) rows))) ks) = zsum (map g rows)) as Hks.
  { intros ks Hnd. induction rows as [|r l IH]; intros Hin.
    - apply zsum_zero. done.
    - cbn [map]. unfold zsum at 3. cbn [foldr]. fold (zsum (map g l)). rewrite <- IH by (intros; apply Hin; by right).
      rewrite <- (zsum_indicator ks (key r) (g r) Hnd) by (apply Hin; left).
      rewrite <- zsum_map_add. f_equal. apply map_ext. intros k. rewrite filter_cons.
      destruct (decide (key r = k)); [done|lia]. }
  apply Hks; [apply NoDup_remove_dups|]. intros r Hr. apply elem_of_remove_dups. by apply list_elem_of_fmap_2.
Qed.

Lemma groups_keys : map fst (groups key rows) = remove_dups (map key rows).
Proof. unfold groups. rewrite map_map. apply map_id. Qed.

Lemma groups_in k l : (k, l) ∈ groups key rows -> l = filter (fun r => key r = k) rows /\ l <> [].
Proof.
  unfold groups. intros (k' & [= -> ->] & Hk)%list_elem_of_fmap. split; [done|].
  apply elem_of_remove_dups, list_elem_of_fmap in Hk as (r & -> & Hr). intros Hn.
  assert (r ∈ filter (fun r' => key r' = key r) rows) as Hin by by apply list_elem_of_filter.
  rewrite Hn in Hin. by apply elem_of_nil in Hin.
Qed.
End Groups.

Section Agreement.
Context `{PgStatistics} (t : ReportTables).

(** The counters of a report, each with what it adds up. *)
Definition counters : list ((UsageStats -> Z) * (UsageRow -> Z)) :=
  let of_event g r := g (uw_event r) in
  let of_usage g r := g (ue_usage (uw_event r)) in
  [(st_logical_requests, fun _ => 1); (st_upstream_attempts, attempts_of t); (st_retries, of_event ue_retry_count);
   (st_successes, of_event (fun e => if ue_success e then 1 else 0));
   (st_failures, of_event (fun e => if ue_success e then 0 else 1));
   (st_input_tokens, of_usage ur_input_tokens); (st_output_tokens, of_usage ur_output_tokens);
   (st_reasoning_tokens, of_usage ur_reasoning_tokens); (st_cached_tokens, of_usage ur_cached_tokens);
   (st_cache_read_tokens, of_usage ur_cache_read_tokens); (st_cache_creation_tokens, of_usage ur_cache_creation_tokens);
   (st_total_tokens, of_usage ur_total_tokens)].

(** The sums PostgreSQL converts to [BIGINT]. *)
Definition converted : list (UsageRow -> Z) :=
  let of_usage g r := g (ue_usage (uw_event r)) in
  (fun r => ue_retry_count (uw_event r))
    :: map of_usage [ur_input_tokens; ur_output_tokens; ur_reasoning_tokens; ur_cached_tokens; ur_cache_read_tokens;
                     ur_cache_creation_tokens; ur_total_tokens].

Lemma zcount_sum {A} (p : A -> bool) l : zcount p l = zsum (map (fun a => if p a then 1 else 0) l).
Proof. unfold zcount. induction l as [|a l IH]; [done|]. cbn [List.filter map]. unfold zsum in *. cbn. destruct (p a); cbn [length]; lia. Qed.

Lemma sum_bigint_Some l n : sum_bigint l = Some n -> n = zsum l.
Proof. unfold sum_bigint. destruct (_ && _); [|done]. by intros [= <-]. Qed.

Lemma usage_stats_counters rows s : usage_stats t rows = Some s ->
  Forall (fun c => c.1 s = zsum (map c.2 rows)) counters.
Proof.
  unfold usage_stats. intros Hs.
  repeat match type of Hs with
         | (sum_bigint ?l ≫= _) = _ =>
             let n := fresh "n" in let E := fresh "E" in
             destruct (sum_bigint l) as [n|] eqn:E; cbn [mbind option_bind] in Hs; [|discriminate Hs];
             apply sum_bigint_Some in E
         end.
  injection Hs as <-. unfold counters. repeat (apply Forall_cons; split); try apply Forall_nil; cbn [fst snd
    st_logical_requests st_upstream_attempts st_retries st_successes st_failures st_input_tokens st_output_tokens
    st_reasoning_tokens st_cached_tokens st_cache_read_tokens st_cache_creation_tokens st_total_tokens]; try assumption; try reflexivity.
  - clear. induction rows as [|r rows IH]; [done|]. cbn [map]. unfold zsum in *. cbn [foldr length]. lia.
  - apply zcount_sum.
  - rewrite zcount_sum. f_equal. apply List.map_ext. intros r. by destruct (ue_success _).
Qed.

Lemma group_stats_counters {K} `{EqDecision K} (key : UsageRow -> K) rows l : group_stats t key rows = Some l ->
  map fst l = remove_dups (map key rows)
  /\ Forall (fun c => zsum (map (fun ks => c.1 ks.2) l) = zsum (map c.2 rows)) counters
  /\ forall k s, (k, s) ∈ l -> usage_stats t (filter (fun r => key r = k) rows) = Some s.
Proof.
  intros Hl. apply mapM_Some in Hl.
  assert (Forall2 (fun g ks => ks.1 = g.1 /\ usage_stats t g.2 = Some ks.2) (groups key rows) l) as Hg.
  { eapply Forall2_impl; [exact Hl|]. intros [k r] [j s]. cbn [fst snd]. destruct (usage_stats t r); [|done].
    cbn. intros [= <- <-]. done. }
  clear Hl. split; [|split].
  - rewrite <- groups_keys. induction Hg as [|g ks gs l [Hk _] _ IH]; [done|]. cbn [map]. by rewrite Hk, IH.
  - apply Forall_forall. intros c Hc. rewrite <- (groups_sum key rows c.2). f_equal.
    induction Hg as [|g ks gs l [_ Hs] _ IH]; [done|]. cbn [map]. rewrite IH. f_equal.
    apply usage_stats_counters in Hs. rewrite Forall_forall in Hs. by apply Hs.
  - intros k s Hks. apply (list_elem_of_lookup) in Hks as [i Hi].
    destruct (Forall2_lookup_r _ _ _ _ _ Hg Hi) as ([k' rs] & Hg' & Hk & Hs). cbn in Hk, Hs. subst k'.
    destruct (groups_in key rows k rs) as [-> _]; [by eapply list_elem_of_lookup_2|done].
Qed.

(** Nothing that is added up is negative. *)
Definition nonnegative (rows : list UsageRow) : Prop := forall r g, r ∈ rows -> g ∈ converted -> 0 <= g r.

Lemma zsum_nonneg l : Forall (fun x => 0 <= x) l -> 0 <= zsum l.
Proof. unfold zsum. induction 1; cbn; lia. Qed.

Lemma zsum_sublist {A} (g : A -> Z) k l : (forall a, a ∈ l -> 0 <= g a) -> k `sublist_of` l ->
  0 <= zsum (map g k) <= zsum (map g l).
Proof.
  intros Hg Hs. induction Hs as [|a k l Hs IH|a k l Hs IH]; cbn; [done|..]; unfold zsum in *;
    specialize (IH ltac:(intros b Hb; apply Hg; by right)); specialize (Hg a ltac:(left)); lia.
Qed.

Lemma sum_bigint_sublist k rows g : nonnegative rows -> g ∈ converted -> k `sublist_of` rows ->
  is_Some (sum_bigint (map g rows)) -> is_Some (sum_bigint (map g k)).
Proof.
  intros Hn Hg Hk [n Hs]. unfold sum_bigint in *.
  destruct (zsum_sublist g k rows) as [H0 H1]; [by intros; eapply Hn|done|].
  destruct (Z.leb_spec I64_MIN (zsum (map g rows))); [|done]. destruct (Z.leb_spec (zsum (map g rows)) I64_MAX); [|done].
  rewrite (proj2 (Z.leb_le _ _)), (proj2 (Z.leb_le _ _)) by (unfold I64_MIN in *; lia). by eexists.
Qed.

Lemma usage_stats_Some rows : is_Some (usage_stats t rows) <-> forall g, g ∈ converted -> is_Some (sum_bigint (map g rows)).
Proof.
  unfold usage_stats, converted. cbn [map]. rewrite <- (Forall_forall (fun g => is_Some (sum_bigint (map g rows)))), !Forall_cons, Forall_nil. split.
  - intros [s Hs].
    repeat match type of Hs with
           | (sum_bigint ?l ≫= _) = _ => destruct (sum_bigint l) eqn:?; cbn [mbind option_bind] in Hs; [|discriminate Hs]
           end. split_and!; by eexists.
  - intros ([? ->] & [? ->] & [? ->] & [? ->] & [? ->] & [? ->] & [? ->] & [? ->] & _). by eexists.
Qed.

Lemma usage_stats_sublist k rows : nonnegative rows -> k `sublist_of` rows ->
  is_Some (usage_stats t rows) -> is_Some (usage_stats t k).
Proof. rewrite !usage_stats_Some. intros Hn Hk Hs g Hg. eapply sum_bigint_sublist; eauto. Qed.

Lemma group_stats_Some {K} `{EqDecision K} (key : UsageRow -> K) rows : nonnegative rows ->
  is_Some (usage_stats t rows) -> is_Some (group_stats t key rows).
Proof.
  intros Hn Hs. apply mapM_is_Some, Forall_forall. intros [k rs] Hg. destruct (groups_in key rows k rs Hg) as [Hrs _].
  destruct (usage_stats_sublist rs rows Hn) as [s Hs']; [rewrite Hrs; apply sublist_filter|done|].
  exists (k, s). cbn [fst snd]. by rewrite Hs'.
Qed.

(** ** Series and breakdown *)

Lemma shares_of (l : list (option string * UsageStats)) :
  map ub_key (with_shares l) = map fst l /\ map ub_stats (with_shares l) = map snd l.
Proof. unfold with_shares. rewrite !map_map. by split. Qed.

Definition in_bucket (granularity : string) (bucket : Z) (r : UsageRow) : Prop :=
  bucket <= uw_created_at r < bucket + bucket_width granularity.

Lemma bucket_width_positive granularity : 0 < bucket_width granularity.
Proof. unfold bucket_width. by destruct (_ =?s _). Qed.

Lemma bucket_of_spec granularity r b : b mod bucket_width granularity = 0 ->
  bucket_of granularity r = b <-> in_bucket granularity b r.
Proof.
  intros Hb. pose proof (bucket_width_positive granularity) as Hw. unfold bucket_of, in_bucket.
  pose proof (Z.mod_pos_bound (uw_created_at r) _ Hw). split; [lia|]. intros Hr.
  apply Z.mod_divide in Hb as [q ->]; [|lia]. rewrite (Z.mod_eq (uw_created_at r)) by lia.
  replace (uw_created_at r / bucket_width granularity) with q; [lia|].
  apply (Z.div_unique_pos _ _ _ (uw_created_at r - bucket_width granularity * q)); lia.
Qed.

Lemma bucket_of_aligned granularity r : bucket_of granularity r mod bucket_width granularity = 0.
Proof.
  unfold bucket_of. pose proof (bucket_width_positive granularity). rewrite Zminus_mod_idemp_r, Z.sub_diag. done.
Qed.

Lemma sorted_times (l : list (Z * UsageStats)) : NoDup (map fst l) -> StronglySorted Z.lt (map fst (sort_by fst l)).
Proof.
  intros Hn. pose proof (sort_by_strict fst l Hn) as Hs. induction Hs as [|x k _ IH Hx]; constructor; [exact IH|].
  eapply Forall_impl; [exact Hx|]. by intros y Hy.
Qed.

(** C38. The three usage reports agree.  If no counter is negative and the totals
    are within 64 bits, all three are answered, and then every counter of the
    series in time and of the breakdown by any dimension adds up to the total,
    so each matching event and attempt is counted in exactly one bucket and one
    part; successes and failures add up to the requests; the buckets are
    aligned, in order, without repetition, and each is the report of exactly
    the matching events of its hour or day; the parts are those of distinct
    keys. *)
Theorem usage_reports_agree (text_order : Ordered string) (f : UsageFilter) (granularity dimension : string) (total : UsageStats) :
  nonnegative (filtered t f) -> usage_aggregate t f = Some total -> exists series parts,
    usage_timeseries t f granularity = Some series /\ usage_breakdown text_order t f dimension = Some parts
    /\ (forall c, c ∈ map fst counters ->
          zsum (map (fun b => c b.2) series) = c total /\ zsum (map (fun p => c (ub_stats p)) parts) = c total)
    /\ st_logical_requests total = st_successes total + st_failures total
    /\ StronglySorted Z.lt (map fst series) /\ NoDup (map ub_key parts)
    /\ forall b s, (b, s) ∈ series -> b mod bucket_width granularity = 0
         /\ usage_stats t (filter (fun r => in_bucket granularity b r) (filtered t f)) = Some s.
Proof.
  intros Hn Htotal. pose proof (mk_is_Some _ _ Htotal) as Hsome. unfold usage_aggregate in *.
  destruct (group_stats_Some (bucket_of granularity) _ Hn Hsome) as [l1 Hl1].
  destruct (group_stats_Some (dimension_of dimension) _ Hn Hsome) as [l2 Hl2].
  unfold usage_timeseries, usage_breakdown. rewrite Hl1, Hl2. cbn [fmap option_fmap option_map].
  apply group_stats_counters in Hl1 as (Hk1 & Hc1 & Hs1), Hl2 as (Hk2 & Hc2 & _).
  destruct (shares_of l2) as [Hsk Hss]. apply usage_stats_counters in Htotal.
  eexists _, _. split; [done|]. split; [done|]. split; [|split; [|split; [|split]]].
  - intros c (cg & -> & Hc)%list_elem_of_fmap. rewrite Forall_forall in Hc1, Hc2, Htotal.
    rewrite (Htotal cg Hc). split.
    + rewrite (zsum_perm _ (map (fun b => cg.1 b.2) l1)) by (by rewrite sort_by_perm). by apply Hc1.
    + rewrite (zsum_perm _ (map (fun p => cg.1 (ub_stats p)) (with_shares l2))) by (by rewrite sort_by_perm).
      rewrite <- (List.map_map ub_stats cg.1), Hss, List.map_map. by apply Hc2.
  - unfold counters in Htotal. rewrite !Forall_cons in Htotal. destruct Htotal as (H1 & _ & _ & H4 & H5 & _).
    cbn [fst snd] in H1, H4, H5. rewrite H1, H4, H5, <- zsum_map_add. f_equal. apply List.map_ext. intros r.
    by destruct (ue_success _).
  - apply sorted_times. rewrite Hk1. apply NoDup_remove_dups.
  - rewrite sort_by_perm, Hsk, Hk2. apply NoDup_remove_dups.
  - intros b s Hb%elem_of_sort_by. assert (b ∈ map fst l1) as Hin by (by apply (list_elem_of_fmap_2 fst) in Hb).
    rewrite Hk1 in Hin. apply elem_of_remove_dups, list_elem_of_fmap in Hin as (r & -> & _).
    pose proof (bucket_of_aligned granularity r) as Ha. split; [done|].
    rewrite <- (Hs1 _ _ Hb). f_equal. apply list_filter_iff. intros r'. symmetry. by apply bucket_of_spec.
Qed.
End Agreement.

(** ** Examples *)

Definition example_row (id model : string) (t tokens : Z) (success : bool) : UsageRow :=
  mkUsageRow t (Some "src") (mkUsageEvent id None "openai" "acct" model model None "src" "sdk" "openai_chat" "openai_chat" "direct"
    (if success then 200 else 502) success 1 10 None (mkUsageReport tokens 0 0 0 0 0 tokens "upstream") false None false
    None None None None None).

Definition example_reports : ReportTables :=
  mkReportTables
    {[ "a" := example_row "a" "gpt" 1000 5 true; "b" := example_row "b" "gpt" 5000 7 false;
       "c" := example_row "c" "opus" (3600 * 1000000000) 2 true ]} ∅.

Definition every_event : UsageFilter :=
  mkUsageFilter None None None None None None None None None None None None None None.

Definition example_statistics : PgStatistics := {| pg_avg _ := f0; pg_p95 _ := f0 |}.

Lemma example_reports_keyed : @events_keyed example_time example_reports.
Proof.
  intros id r Hr. apply elem_of_map_to_list in Hr.
  assert (Forall (fun kr => ue_request_id (uw_event kr.2) = kr.1 /\ kr.1 <> "" /\ @time_ok example_time (uw_created_at kr.2))
    (map_to_list (rt_events example_reports))) as Hall.
  { replace (map_to_list (rt_events example_reports))
      with [("c", example_row "c" "opus" (3600 * 1000000000) 2 true); ("a", example_row "a" "gpt" 1000 5 true);
            ("b", example_row "b" "gpt" 5000 7 false)] by (vm_compute; reflexivity).
    unfold time_ok, I64_MIN, I64_MAX. cbn [timestamp_micros from_micros example_time].
    rewrite !Forall_cons, Forall_nil. cbn [fst snd uw_created_at uw_event example_row ue_request_id].
    split_and!; first [reflexivity|discriminate|vm_compute; done]. }
  rewrite Forall_forall in Hall. exact (Hall _ Hr).
Qed.

(** Three events, one per page. *)
Lemma usage_events_are_read_completely_witness :
  option_map (map (fun r => ue_request_id (uw_event r)))
    (read_all 4 (@usage_page example_time string_Ordered example_reports every_event 1) None) = Some ["c"; "b"; "a"]
  /\ exists events, read_all (S (size (rt_events example_reports)))
      (@usage_page example_time string_Ordered example_reports every_event 1) None = Some events.
Proof.
  split; [vm_compute; reflexivity|].
  destruct (@usage_events_are_read_completely example_time string_Ordered example_reports every_event 1
    example_reports_keyed) as (events & Hread & _).
  exists events. exact Hread.
Defined.

(** Two hours, two models. *)
Lemma usage_reports_agree_witness :
  exists total series parts,
    @usage_aggregate example_statistics example_reports every_event = Some total
    /\ @usage_timeseries example_statistics example_reports every_event "hour" = Some series
    /\ @usage_breakdown example_statistics string_Ordered example_reports every_event "logical_model" = Some parts
    /\ st_total_tokens total = 14 /\ st_successes total + st_failures total = 3.
Proof.
  destruct (@usage_aggregate example_statistics example_reports every_event) as [total|] eqn:Htotal;
    [|vm_compute in Htotal; discriminate Htotal].
  assert (nonnegative (filtered example_reports every_event)) as Hn.
  { replace (filtered example_reports every_event)
      with [example_row "c" "opus" (3600 * 1000000000) 2 true; example_row "a" "gpt" 1000 5 true;
            example_row "b" "gpt" 5000 7 false] by (vm_compute; reflexivity).
    intros r g Hr Hg. revert g Hg. apply Forall_forall. revert r Hr. apply Forall_forall.
    unfold converted. cbn [map]. rewrite !Forall_cons, !Forall_nil.
    cbn [ue_retry_count uw_event ue_usage example_row ur_input_tokens ur_output_tokens ur_reasoning_tokens ur_cached_tokens
         ur_cache_read_tokens ur_cache_creation_tokens ur_total_tokens].
    split_and!; first [lia|exact I]. }
  destruct (@usage_reports_agree example_statistics example_reports string_Ordered every_event "hour" "logical_model"
    total Hn Htotal) as (series & parts & Hs & Hp & _ & Hr & _).
  exists total, series, parts. split_and!; [done..| |];
    vm_compute in Htotal; injection Htotal as <-; reflexivity.
Defined.
