(* ===== verification/UsageSql.v ===== *)
(** * The usage statements as PostgreSQL reads them

    The statements of the usage events are put together at run time: clauses
    for the filters that are given, placeholders numbered as they come, and a
    clause for the cursor.  Here is a reader for the statements of this shape
    and their meaning on the table, and the theorem that the text
    [UsageReport] builds, with the values it binds, selects what its filter
    says. *)

From Stdlib Require Import ZArith Lia Ascii.
From stdpp Require Import base gmap list strings pretty.
From S2P Require Import Prelude.
From S2P Require Import RustStr.
From S2P Require Import BTree.
From S2P Require Import Keyset.
From S2P Require Import Usage.
From S2P Require Import Accounting.
From S2P Require Import EventFeed.
From S2P Require Import UsageReport.

(** ** Words *)

Definition words (s : string) : list string := List.filter (fun w => negb (is_empty w)) (split_char " "%char s).

Lemma split_char_nonempty c s : split_char c s <> [].
Proof. induction s as [|a s IH]; cbn [split_char]; [done|]. destruct (Ascii.eqb a c); [done|]. by destruct (split_char c s). Qed.

Lemma split_char_app c s t : split_char c (s +:+ String c t) = split_char c s ++ split_char c t.
Proof.
  induction s as [|a s IH]; cbn [split_char].
  - change ("" +:+ String c t) with (String c t). cbn [split_char]. by rewrite Ascii.eqb_refl.
  - change (String a s +:+ String c t) with (String a (s +:+ String c t)). cbn [split_char].
    destruct (Ascii.eqb a c); [by rewrite IH|]. rewrite IH. pose proof (split_char_nonempty c s). by destruct (split_char c s).
Qed.

Lemma words_app s t : words (s +:+ String " " t) = words s ++ words t.
Proof. unfold words. by rewrite split_char_app, List.filter_app. Qed.

Lemma words_one s : sall (fun a => negb (Ascii.eqb a " "%char)) s = true -> s <> "" -> words s = [s].
Proof.
  intros Hs Hne. unfold words. rewrite split_char_last by done. cbn [List.filter].
  by rewrite (proj2 (String.eqb_neq _ _) Hne : is_empty s = false).
Qed.

Lemma words_cons s t : sall (fun a => negb (Ascii.eqb a " "%char)) s = true -> s <> "" -> words (s +:+ String " " t) = s :: words t.
Proof. intros Hs Hne. by rewrite words_app, words_one. Qed.

(** ** Values and conditions *)

Inductive Sql : Type := SqlTime (t : Z) | SqlText (s : string) | SqlInt (n : Z) | SqlBool (b : bool) | SqlNull.

Definition bind_value (b : FilterBind) : Sql :=
  match b with
  | BindTime t => SqlTime t
  | BindText s => SqlText s
  | BindI64 n | BindI32 n => SqlInt n
  | BindBool b => SqlBool b
  end.

Definition sql_text (o : option string) : Sql := match o with Some s => SqlText s | None => SqlNull end.
Definition sql_int (o : option Z) : Sql := match o with Some n => SqlInt n | None => SqlNull end.

(** The columns the filter names. *)
Definition column (name : string) (r : UsageRow) : Sql :=
  let e := uw_event r in
  if name =?s "created_at" then SqlTime (uw_created_at r)
  else if name =?s "logical_model" then SqlText (ue_logical_model e)
  else if name =?s "upstream_model_id" then sql_text (ue_upstream_model_id e)
  else if name =?s "provider_id" then SqlText (ue_provider_id e)
  else if name =?s "source_id" then sql_text (uw_source_id r)
  else if name =?s "client_source" then SqlText (ue_client_source e)
  else if name =?s "account_id" then SqlText (ue_account_id e)
  else if name =?s "protocol_in" then SqlText (ue_protocol_in e)
  else if name =?s "protocol_upstream" then SqlText (ue_protocol_upstream e)
  else if name =?s "usage_source" then SqlText (ur_source (ue_usage e))
  else if name =?s "virtual_key_id" then sql_int (ue_virtual_key_id e)
  else if name =?s "success" then SqlBool (ue_success e)
  else if name =?s "status_code" then SqlInt (ue_status_code e)
  else SqlNull.

(** A comparison that is true; one with [NULL] is not. *)
Definition compare_sql (op : string) (x y : Sql) : bool :=
  match x, y with
  | SqlTime x, SqlTime y => if op =?s ">=" then y <=? x else if op =?s "<" then x <? y else false
  | SqlText x, SqlText y => (op =?s "=") && (y =?s x)
  | SqlInt x, SqlInt y => (op =?s "=") && (y =? x)
  | SqlBool x, SqlBool y => (op =?s "=") && Bool.eqb x y
  | _, _ => false
  end.

(** [column op $n], or the comparison of the key with [($n, $m)]. *)
Inductive Condition : Type :=
| Compare (name op : string) (n : Z)
| KeyBefore (n m : Z).

Definition numbered (binds : list FilterBind) (n : Z) : Sql :=
  match binds !! Z.to_nat (n - 1) with Some b => bind_value b | None => SqlNull end.

Section Meaning.
Context (text_order : Ordered string).

Definition holds (binds : list FilterBind) (r : UsageRow) (c : Condition) : bool :=
  match c with
  | Compare name op n => compare_sql op (column name r) (numbered binds n)
  | KeyBefore n m =>
      match numbered binds n, numbered binds m with
      | SqlTime t, SqlText id =>
          match @kcmp _ (key_order text_order) (usage_key r) (t, id) with Lt => true | _ => false end
      | _, _ => false
      end
  end.

(** ** Reading a statement *)

Definition number (w : string) : option Z := strip_prefix "$" w ≫= parse_int 1 I64_MAX.

Fixpoint conditions (toks : list string) : option (list Condition * list string) :=
  match toks with
  | a :: b :: c :: rest =>
      if a =?s "(created_at," then
        match rest with
        | d :: e :: rest =>
            match (strip_prefix "(" d ≫= strip_suffix ",") ≫= number, strip_suffix ")" e ≫= number with
            | Some n, Some m =>
                if (b =?s "request_id)") && (c =?s "<") then
                  match rest with
                  | w :: rest' =>
                      if w =?s "AND" then (fun cr => (KeyBefore n m :: cr.1, cr.2)) <$> conditions rest'
                      else Some ([KeyBefore n m], rest)
                  | [] => Some ([KeyBefore n m], rest)
                  end
                else None
            | _, _ => None
            end
        | _ => None
        end
      else
        match number c with
        | Some n =>
            match rest with
            | w :: rest' =>
                if w =?s "AND" then (fun cr => (Compare a b n :: cr.1, cr.2)) <$> conditions rest'
                else Some ([Compare a b n], rest)
            | [] => Some ([Compare a b n], rest)
            end
        | None => None
        end
  | _ => None
  end.

(** The rows a statement selects: [WHERE], the order of the key downwards,
    [LIMIT]. *)
Definition run_select (sql : string) (binds : list FilterBind) (rows : list UsageRow) : option (list UsageRow) :=
  strip_prefix usage_event_select sql ≫= fun tail =>
  match words tail with
  | [] => None
  | w :: toks =>
      (if w =?s "WHERE" then conditions toks else Some ([], w :: toks)) ≫= fun cr =>
      match cr.2 with
      | ["ORDER"; "BY"; "created_at"; "DESC,"; "request_id"; "DESC"; "LIMIT"; p] =>
          number p ≫= fun n =>
          match numbered binds n with
          | SqlInt limit =>
              Some (firstn (Z.to_nat limit)
                (@sort_by _ _ (newest_first text_order) usage_key (filter (fun r => forallb (holds binds r) cr.1 = true) rows)))
          | _ => None
          end
      | _ => None
      end
  end.

(** ** The clauses of a filter *)

Abbreviation Term := (string * string * FilterBind)%type.

Definition optional_term {A} (name op : string) (bind : A -> FilterBind) (value : option A) : list Term :=
  match value with Some value => [(name, op, bind value)] | None => [] end.

Definition filter_terms (f : UsageFilter) : list Term :=
  optional_term "created_at" ">=" BindTime (uf_from f) ++ optional_term "created_at" "<" BindTime (uf_to f)
  ++ concat (map (fun cv => optional_term cv.1 "=" BindText cv.2) (text_columns f))
  ++ optional_term "virtual_key_id" "=" BindI64 (uf_virtual_key_id f)
  ++ optional_term "success" "=" BindBool (uf_success f) ++ optional_term "status_code" "=" BindI32 (uf_status_code f).

Definition clause_text (i : nat) (t : Term) : string := t.1.1 +:+ " " +:+ t.1.2 +:+ " $" +:+ dec (Z.of_nat i + 1).
Definition clauses_of (l : list Term) : list string * list FilterBind := (imap clause_text l, map snd l).

Lemma push_clause_of l name op bind : push_clause (clauses_of l) name op bind = clauses_of (l ++ [(name, op, bind)]).
Proof.
  unfold push_clause, clauses_of. rewrite length_map, imap_app, map_app. cbn. by rewrite Nat.add_0_r.
Qed.

Lemma push_if_of {A} l name op (bind : A -> FilterBind) value :
  push_if (clauses_of l) name op bind value = clauses_of (l ++ optional_term name op bind value).
Proof. destruct value; [apply push_clause_of|by rewrite app_nil_r]. Qed.

Lemma filter_sql_of f :
  filter_sql f = let '(clauses, binds) := clauses_of (filter_terms f) in
                 ((if bool_decide (clauses = []) then "" else "WHERE " +:+ join " AND " clauses), binds).
Proof.
  unfold filter_sql. change ([], []) with (clauses_of []). rewrite !push_if_of. cbn [app].
  assert (forall cols l, fold_left (fun sql cv => push_if sql cv.1 "=" BindText cv.2) cols (clauses_of l)
    = clauses_of (l ++ concat (map (fun cv => optional_term cv.1 "=" BindText cv.2) cols))) as Hfold.
  { induction cols as [|cv cols IH]; intros l; cbn [fold_left map concat]; [by rewrite app_nil_r|].
    by rewrite push_if_of, IH, <- app_assoc. }
  rewrite Hfold, !push_if_of. unfold filter_terms. by rewrite <- !app_assoc.
Qed.

(** A term that reads back as a comparison. *)
Definition word_ok (w : string) : Prop := sall (fun a => negb (Ascii.eqb a " "%char)) w = true /\ w <> "".
Definition term_ok (t : Term) : Prop := word_ok t.1.1 /\ word_ok t.1.2 /\ (t.1.1 =?s "(created_at,") = false.

Lemma optional_ok {A} name op (bind : A -> FilterBind) value : term_ok (name, op, BindBool true) ->
  Forall term_ok (optional_term name op bind value).
Proof. intros Hok. destruct value; [|constructor]. constructor; [exact Hok|constructor]. Qed.

Lemma filter_terms_ok f : Forall term_ok (filter_terms f).
Proof.
  unfold filter_terms, text_columns. cbn [map concat fst snd].
  rewrite !Forall_app. split_and!; first [by constructor|apply optional_ok; repeat split; done].
Qed.

Lemma filter_terms_length f : (length (filter_terms f) <= 14)%nat.
Proof.
  assert (forall A name op (bind : A -> FilterBind) value, (length (optional_term name op bind value) <= 1)%nat) as H1
    by (intros; destruct value; cbn; lia).
  unfold filter_terms, text_columns. cbn [map concat fst snd]. rewrite !length_app. cbn [length].
  repeat match goal with |- context [length (optional_term ?n ?o ?b ?v)] =>
    pose proof (H1 _ n o b v); generalize dependent (length (optional_term n o b v)); intros end. lia.
Qed.

Lemma number_placeholder n : 1 <= n <= I64_MAX -> number (placeholder n) = Some n.
Proof.
  intros Hn. unfold number, placeholder. rewrite strip_prefix_app. cbn. by apply parse_int_dec.
Qed.

Lemma clause_words i t : term_ok t -> words (clause_text i t) = [t.1.1; t.1.2; placeholder (Z.of_nat i + 1)].
Proof.
  intros ([H1 N1] & [H2 N2] & _). unfold clause_text.
  change (" " +:+ t.1.2 +:+ " $" +:+ dec (Z.of_nat i + 1)) with (String " " (t.1.2 +:+ String " " (placeholder (Z.of_nat i + 1)))).
  rewrite !words_cons by done. rewrite words_one; [done| |done]. unfold placeholder.
  change ("$" +:+ dec (Z.of_nat i + 1)) with (String "$" (dec (Z.of_nat i + 1))). cbn [sall]. by rewrite dec_without.
Qed.

(** What follows a condition. *)
Definition further (toks : list string) : option (list Condition * list string) :=
  match toks with
  | w :: rest => if w =?s "AND" then conditions rest else Some ([], toks)
  | [] => Some ([], [])
  end.

Definition comparisons (k : nat) (l : list Term) : list Condition :=
  imap (fun i t => Compare t.1.1 t.1.2 (Z.of_nat (k + i) + 1)) l.

Lemma comparisons_cons k t l :
  comparisons k (t :: l) = Compare t.1.1 t.1.2 (Z.of_nat k + 1) :: comparisons (S k) l.
Proof.
  unfold comparisons. rewrite imap_cons, Nat.add_0_r. f_equal. apply imap_ext. intros i x _. cbn. do 3 f_equal. lia.
Qed.

Lemma conditions_one k t rest : term_ok t -> Z.of_nat k + 1 <= I64_MAX ->
  conditions (words (clause_text k t) ++ rest)
  = (fun cr => (Compare t.1.1 t.1.2 (Z.of_nat k + 1) :: cr.1, cr.2)) <$> further rest.
Proof.
  intros Hok Hk. rewrite clause_words by done. destruct Hok as (_ & _ & Hne). cbn [app conditions].
  rewrite Hne, number_placeholder by lia. destruct rest as [|w rest]; [done|]. cbn [further]. by destruct (w =?s "AND").
Qed.

Lemma join_and_words (s : string) (l : list string) : l <> [] ->
  words (join " AND " (s :: l)) = words s ++ "AND" :: words (join " AND " l).
Proof.
  intros Hl. destruct l as [|u l]; [done|].
  change (join " AND " (s :: u :: l)) with (s +:+ String " " ("AND" +:+ String " " (join " AND " (u :: l)))).
  rewrite words_app. done.
Qed.

Lemma conditions_joined l : forall k rest, l <> [] -> Forall term_ok l -> Z.of_nat (k + length l) <= I64_MAX ->
  conditions (words (join " AND " (imap (fun i => clause_text (k + i)) l)) ++ rest)
  = (fun cr => (comparisons k l ++ cr.1, cr.2)) <$> further rest.
Proof.
  induction l as [|t l IH]; intros k rest Hne Hok Hk; [done|]. apply Forall_cons in Hok as [Ht Hl]. cbn [length] in Hk.
  destruct l as [|u l].
  - change (imap (fun i => clause_text (k + i)) [t]) with [clause_text (k + 0) t]. rewrite Nat.add_0_r. cbn [join]. rewrite conditions_one by (try done; lia). unfold comparisons. cbn. rewrite Nat.add_0_r. done.
  - rewrite imap_cons, join_and_words by done. rewrite <- app_assoc, Nat.add_0_r, conditions_one by (try done; lia).
    cbn [app further]. change ("AND" =?s "AND") with true. cbn match.
    rewrite (imap_ext _ (fun i => clause_text (S k + i)) (u :: l)) by (intros i x _; cbn; f_equal; lia).
    rewrite IH by (try done; cbn [length] in *; lia). destruct (further rest) as [[c r]|]; [|done]. by rewrite (comparisons_cons k t).
Qed.

(** What the clauses ask of a row. *)
Definition term_holds (r : UsageRow) (t : Term) : bool := compare_sql t.1.2 (column t.1.1 r) (bind_value t.2).

Lemma numbered_at pre t l : numbered (map snd (pre ++ t :: l)) (Z.of_nat (length pre) + 1) = bind_value (t : Term).2.
Proof.
  unfold numbered. replace (Z.to_nat (Z.of_nat (length pre) + 1 - 1)) with (length pre) by lia.
  rewrite map_app, lookup_app_r by (by rewrite length_map). rewrite length_map, Nat.sub_diag. done.
Qed.

Lemma comparisons_hold r more l : forall pre,
  forallb (holds (map snd (pre ++ l) ++ more) r) (comparisons (length pre) l) = forallb (term_holds r) l.
Proof.
  induction l as [|t l IH]; intros pre; [done|]. rewrite comparisons_cons. cbn [forallb]. f_equal.
  - unfold holds, term_holds. f_equal. rewrite <- (numbered_at pre t l). unfold numbered.
    rewrite lookup_app_l; [done|]. rewrite length_map, length_app. cbn. lia.
  - rewrite <- (IH (pre ++ [t])), <- app_assoc, length_app. cbn [app length]. by rewrite Nat.add_1_r.
Qed.

Lemma optional_holds {A} name op (bind : A -> FilterBind) value r :
  forallb (term_holds r) (optional_term name op bind value)
  = is_none_or value (fun v => compare_sql op (column name r) (bind_value (bind v))).
Proof. destruct value; [|done]. cbn. by rewrite andb_true_r. Qed.

Lemma terms_hold f r : forallb (term_holds r) (filter_terms f) = filter_matches f r.
Proof.
  unfold filter_terms, text_columns. cbn [map concat fst snd]. rewrite !forallb_app, !optional_holds. cbn [forallb].
  unfold filter_matches. rewrite !andb_true_r, <- !andb_assoc.
  repeat match goal with |- (_ && _) = (_ && _) => apply (f_equal2 andb) end; try done.
  - change (column "upstream_model_id" r) with (sql_text (ue_upstream_model_id (uw_event r))).
    by destruct (uf_upstream_model_id f), (ue_upstream_model_id (uw_event r)).
  - change (column "source_id" r) with (sql_text (uw_source_id r)). by destruct (uf_source_id f), (uw_source_id r).
  - change (column "virtual_key_id" r) with (sql_int (ue_virtual_key_id (uw_event r))).
    destruct (uf_virtual_key_id f); [|done]. by destruct (ue_virtual_key_id (uw_event r)).
  - by destruct (uf_status_code f) as [code|]; [apply (Z.eqb_sym code)|].
Qed.

(** ** Whole statements *)

Definition order_words (k : Z) : list string :=
  ["ORDER"; "BY"; "created_at"; "DESC,"; "request_id"; "DESC"; "LIMIT"; placeholder k].

Lemma placeholder_word k : sall (fun a => negb (Ascii.eqb a " "%char)) (placeholder k) = true /\ placeholder k <> "".
Proof.
  unfold placeholder. change ("$" +:+ dec k) with (String "$" (dec k)). cbn [sall]. by rewrite dec_without.
Qed.

Lemma tail_words W k :
  words (" " +:+ W +:+ " ORDER BY created_at DESC, request_id DESC LIMIT " +:+ placeholder k) = words W ++ order_words k.
Proof.
  change (" " +:+ W +:+ " ORDER BY created_at DESC, request_id DESC LIMIT " +:+ placeholder k)
    with ("" +:+ String " " (W +:+ String " " ("ORDER BY created_at DESC, request_id DESC LIMIT" +:+ String " " (placeholder k)))).
  rewrite !words_app. destruct (placeholder_word k). rewrite (words_one (placeholder k)) by done. done.
Qed.

Lemma run_select_spec W k limit binds rows cs :
  (words W = [] /\ cs = [] \/ exists toks, words W = "WHERE" :: toks
     /\ conditions (toks ++ order_words k) = Some (cs, order_words k)) ->
  1 <= k <= I64_MAX -> numbered binds k = SqlInt limit ->
  run_select (usage_event_select +:+ " " +:+ W +:+ " ORDER BY created_at DESC, request_id DESC LIMIT " +:+ placeholder k) binds rows
  = Some (firstn (Z.to_nat limit)
      (@sort_by _ _ (newest_first text_order) usage_key (filter (fun r => forallb (holds binds r) cs = true) rows))).
Proof.
  intros HW Hk Hl. unfold run_select. rewrite strip_prefix_app. cbn [mbind option_bind]. rewrite tail_words.
  destruct HW as [[-> ->]|(toks & -> & Hc)].
  - unfold order_words. cbn [app]. change ("ORDER" =?s "WHERE") with false. cbn [mbind option_bind fst snd].
    rewrite number_placeholder by done. cbn [mbind option_bind]. by rewrite Hl.
  - cbn [app]. change ("WHERE" =?s "WHERE") with true. cbn match. rewrite Hc. unfold order_words. cbn [mbind option_bind fst snd].
    rewrite number_placeholder by done. cbn [mbind option_bind]. by rewrite Hl.
Qed.

(** The words of the clauses, before something that follows them. *)
Lemma where_words l rest : Forall term_ok l -> Z.of_nat (length l) <= I64_MAX -> l <> [] ->
  exists toks, words ("WHERE " +:+ join " AND " (imap clause_text l)) = "WHERE" :: toks
    /\ conditions (toks ++ rest) = (fun cr => (comparisons 0 l ++ cr.1, cr.2)) <$> further rest.
Proof.
  intros Hok Hl Hne. exists (words (join " AND " (imap clause_text l))). split.
  - change ("WHERE " +:+ join " AND " (imap clause_text l)) with ("WHERE" +:+ String " " (join " AND " (imap clause_text l))).
    by rewrite words_cons.
  - by apply (conditions_joined l 0).
Qed.

Definition cursor_text (n : Z) : string :=
  "(created_at, request_id) < (" +:+ placeholder (n + 1) +:+ ", " +:+ placeholder (n + 2) +:+ ")".

Lemma cursor_conditions n k : 0 <= n -> n + 2 <= I64_MAX ->
  conditions (words (cursor_text n) ++ order_words k) = Some ([KeyBefore (n + 1) (n + 2)], order_words k).
Proof.
  intros H0 Hn. destruct (placeholder_word (n + 1)) as [S1 N1], (placeholder_word (n + 2)) as [S2 N2].
  assert (words (cursor_text n)
    = ["(created_at,"; "request_id)"; "<"; "(" +:+ placeholder (n + 1) +:+ ","; placeholder (n + 2) +:+ ")"]) as ->.
  { replace (cursor_text n) with ("(created_at, request_id) <" +:+ String " " ("(" +:+ placeholder (n + 1) +:+ ","
      +:+ String " " (placeholder (n + 2) +:+ ")"))) by done.
    rewrite words_app. change (words "(created_at, request_id) <") with ["(created_at,"; "request_id)"; "<"]. cbn [app].
    do 3 f_equal.
    replace ("(" +:+ placeholder (n + 1) +:+ "," +:+ String " " (placeholder (n + 2) +:+ ")"))
      with (("(" +:+ placeholder (n + 1) +:+ ",") +:+ String " " (placeholder (n + 2) +:+ ")"))
      by (rewrite !string_app_assoc; done).
    rewrite words_cons, words_one; [done|..].
    - by rewrite sall_app, S2.
    - by destruct (placeholder (n + 2)).
    - change ("(" +:+ placeholder (n + 1) +:+ ",") with (String "(" (placeholder (n + 1) +:+ ",")). cbn [sall].
      by rewrite sall_app, S1.
    - done. }
  unfold order_words. cbn [app conditions]. change ("(created_at," =?s "(created_at,") with true. cbn match.
  change ("(" +:+ placeholder (n + 1) +:+ ",") with (String "(" (placeholder (n + 1) +:+ ",")).
  assert (strip_prefix "(" (String "(" (placeholder (n + 1) +:+ ",")) = Some (placeholder (n + 1) +:+ ",")) as ->
    by apply (strip_prefix_app "(").
  cbn [mbind option_bind]. rewrite !strip_suffix_app. cbn [mbind option_bind]. rewrite !number_placeholder by lia. done.
Qed.

(** ** The statements of [UsageReport] *)

Lemma filter_binds f : (filter_sql f).2 = map snd (filter_terms f).
Proof. by rewrite filter_sql_of. Qed.

Lemma where_text f :
  (filter_sql f).1 = if bool_decide (filter_terms f = []) then "" else "WHERE " +:+ join " AND " (imap clause_text (filter_terms f)).
Proof. rewrite filter_sql_of. cbn. by destruct (filter_terms f). Qed.

Lemma plain_where f k :
  words (filter_sql f).1 = [] /\ comparisons 0 (filter_terms f) = []
  \/ exists toks, words (filter_sql f).1 = "WHERE" :: toks
      /\ conditions (toks ++ order_words k) = Some (comparisons 0 (filter_terms f), order_words k).
Proof.
  rewrite where_text. pose proof (filter_terms_length f). case_bool_decide as Hf; [left; by rewrite Hf|right].
  destruct (where_words (filter_terms f) (order_words k)) as (toks & Hw & Hc);
    [apply filter_terms_ok|by transitivity 14; [lia|]|done|].
  exists toks. split; [done|]. rewrite Hc. cbn. by rewrite app_nil_r.
Qed.

Lemma cursor_where f k :
  let n := Z.of_nat (length (filter_terms f)) in
  exists toks,
    words ((filter_sql f).1 +:+ " " +:+ (if is_empty (filter_sql f).1 then "WHERE" else "AND") +:+ " " +:+ cursor_text n)
    = "WHERE" :: toks
    /\ conditions (toks ++ order_words k) = Some (comparisons 0 (filter_terms f) ++ [KeyBefore (n + 1) (n + 2)], order_words k).
Proof.
  cbn zeta. rewrite where_text. pose proof (filter_terms_length f) as Hl.
  assert (Z.of_nat (length (filter_terms f)) + 2 <= I64_MAX) as Hn by (unfold I64_MAX; lia).
  case_bool_decide as Hf.
  - rewrite Hf. cbn [is_empty length Z.of_nat]. exists (words (cursor_text 0)). split; [done|].
    by apply (cursor_conditions 0).
  - set (W := join " AND " (imap clause_text (filter_terms f))).
    assert (is_empty ("WHERE " +:+ W) = false) as -> by done.
    set (n := Z.of_nat (length (filter_terms f))) in *.
    destruct (where_words (filter_terms f) (("AND" :: words (cursor_text n)) ++ order_words k)) as (toks & Hw & Hc);
      [apply filter_terms_ok|subst n; lia|done|].
    exists (toks ++ "AND" :: words (cursor_text n)). split.
    + change (words (("WHERE " +:+ W) +:+ String " " ("AND" +:+ String " " (cursor_text n)))
        = "WHERE" :: toks ++ "AND" :: words (cursor_text n)).
      rewrite words_app. unfold W. by rewrite Hw, words_cons.
    + rewrite <- app_assoc, Hc. cbn [app further]. change ("AND" =?s "AND") with true. cbn match.
      rewrite cursor_conditions by lia. done.
Qed.

(** The conditions hold of the rows after the cursor that match the filter. *)
Lemma conditions_select f cursor more r :
  let n := Z.of_nat (length (filter_terms f)) in
  more !! 0%nat = (BindTime ∘ uc_created_at) <$> cursor \/ cursor = None ->
  more !! 1%nat = (BindText ∘ uc_request_id) <$> cursor \/ cursor = None ->
  forallb (holds (map snd (filter_terms f) ++ more) r)
    (comparisons 0 (filter_terms f) ++ (if is_some cursor then [KeyBefore (n + 1) (n + 2)] else []))
  = filter_matches f r && @past _ _ (newest_first text_order) usage_key (cursor_position <$> cursor) r.
Proof.
  cbn zeta. intros H0 H1. rewrite forallb_app.
  pose proof (comparisons_hold r more (filter_terms f) []) as Hh. cbn [app length] in Hh. rewrite Hh, terms_hold. f_equal.
  destruct cursor as [c|]; [|done]. destruct H0 as [H0|]; [|done]. destruct H1 as [H1|]; [|done].
  cbn [is_some forallb holds]. rewrite andb_true_r. unfold numbered.
  replace (Z.to_nat (Z.of_nat (length (filter_terms f)) + 1 - 1)) with (length (map snd (filter_terms f)) + 0)%nat
    by (rewrite length_map; lia).
  replace (Z.to_nat (Z.of_nat (length (filter_terms f)) + 2 - 1)) with (length (map snd (filter_terms f)) + 1)%nat
    by (rewrite length_map; lia).
  rewrite !lookup_app_r, !Nat.add_sub', H0, H1 by lia. done.
Qed.

(** Which conditions a statement with this cursor has. *)
Definition select_conditions (f : UsageFilter) (cursor : option UsageCursor) : list Condition :=
  let n := Z.of_nat (length (filter_terms f)) in
  comparisons 0 (filter_terms f) ++ (if is_some cursor then [KeyBefore (n + 1) (n + 2)] else []).

Lemma select_run f cursor more W k limit rows :
  1 <= k <= I64_MAX -> numbered (map snd (filter_terms f) ++ more) k = SqlInt limit ->
  (more !! 0%nat = (BindTime ∘ uc_created_at) <$> cursor /\ more !! 1%nat = (BindText ∘ uc_request_id) <$> cursor
   \/ cursor = None) ->
  (words W = [] /\ select_conditions f cursor = []
   \/ exists toks, words W = "WHERE" :: toks
        /\ conditions (toks ++ order_words k) = Some (select_conditions f cursor, order_words k)) ->
  run_select (usage_event_select +:+ " " +:+ W +:+ " ORDER BY created_at DESC, request_id DESC LIMIT " +:+ placeholder k)
    (map snd (filter_terms f) ++ more) rows
  = Some (firstn (Z.to_nat limit)
      (@rows_after _ _ (newest_first text_order) usage_key (filter_matches f) (cursor_position <$> cursor) rows)).
Proof.
  intros Hk Hlimit Hmore HW. rewrite (run_select_spec _ _ _ _ _ _ HW Hk Hlimit). unfold rows_after.
  do 3 f_equal. apply list_filter_iff. intros r. unfold select_conditions. rewrite conditions_select; [done|tauto..].
Qed.

(** C37. The statements of the usage events are put together from the filters
    that are given: the clauses, their values and the numbers of the
    placeholders are collected one by one, and the page adds the cursor and
    the limit.  Read as PostgreSQL reads them, with the values bound to them,
    the statement of a page selects one row more than the page among the rows
    that match the filter and come after the cursor, newest first, and the
    statement of an export the first rows that match: no clause is lost and no
    placeholder stands for another value, whatever filters are given. *)
Theorem usage_statements_are_correct f cursor limit rows :
  let wanted cursor :=
    @rows_after _ _ (newest_first text_order) usage_key (filter_matches f) (cursor_position <$> cursor) rows in
  run_select (page_sql f cursor limit).1 (page_sql f cursor limit).2 rows
    = Some (firstn (Z.to_nat (limit + 1)) (wanted cursor))
  /\ run_select (export_sql f limit).1 (export_sql f limit).2 rows = Some (firstn (Z.to_nat limit) (wanted None)).
Proof.
  cbn zeta. pose proof (filter_terms_length f) as Hlen. unfold page_sql, export_sql.
  pose proof (plain_where f) as Hplain. pose proof (cursor_where f) as Hcursor. pose proof (filter_binds f) as Hbinds.
  destruct (filter_sql f) as [where_sql binds]. cbn [fst snd] in *. subst binds. rewrite length_map.
  set (n := length (filter_terms f)) in *.
  assert (forall more i b k, more !! i = Some b -> k = Z.of_nat n + Z.of_nat i + 1 ->
    numbered (map snd (filter_terms f) ++ more) k = bind_value b) as Hnum.
  { intros more i b k Hi ->. unfold numbered. replace (Z.to_nat _) with (length (map snd (filter_terms f)) + i)%nat
      by (rewrite length_map; subst n; lia). by rewrite lookup_app_r, Nat.add_sub', Hi by lia. }
  split.
  - destruct cursor as [c|]; cbn [is_some].
    + apply select_run; [unfold I64_MAX; lia|apply (Hnum _ 2%nat (BindI64 (limit + 1))); [done|lia]|by left|right].
      apply Hcursor.
    + apply select_run; [unfold I64_MAX; lia|apply (Hnum _ 0%nat (BindI64 (limit + 1))); [done|lia]|by right|].
      unfold select_conditions. cbn [is_some]. rewrite app_nil_r. apply Hplain.
  - apply (select_run f None); [unfold I64_MAX; lia|apply (Hnum _ 0%nat (BindI64 limit)); [done|lia]|by right|].
    unfold select_conditions. cbn [is_some]. rewrite app_nil_r. apply Hplain.
Qed.
End Meaning.
