(* ===== verification/Quota.v ===== *)
(** * Upstream quota: [src/src/control_plane/quota]

    What is left on the accounts of three providers.  [list] and [get] read the
    accounts with their sources, ask each provider for its quota and turn the
    answer into resources and a status; nothing is stored.

    [quota_request] is everything [fetch_provider_quota] does up to sending,
    [quota_answer] everything after, and the parsers are those of
    [providers.rs].  Every operation also yields the requests it sent, each with
    the account it was sent for.  The HTTP exchange and the clocks are answers of [QuotaEnv],
    one per account, as the accounts are asked concurrently; [QuotaTime] are the
    conversions of [chrono].  Numbers are [F64]. *)

From Stdlib Require Import ZArith Lia Ascii SpecFloat.
From stdpp Require Import base gmap list strings.
From S2P Require Import Prelude.
From S2P Require Import RustStr.
From S2P Require Import BTree.
From S2P Require Import Json.
From S2P Require Import F64.
From S2P Require Import SourceUrl.
From S2P Require Import Cleanup.
From S2P Require Import Presets.
From S2P Require Import PresetDiff.
From S2P Require Import ModelCatalog.
From S2P Require Import Discovery.
From S2P Require Import Secrets.

Definition QUOTA_TIMEOUT_MS : Z := 10000.
Definition MAX_QUOTA_RESPONSE_BYTES : Z := 1024 * 1024.
Definition MINIMAX_GLOBAL_QUOTA_URL : string := "https://www.minimax.io/v1/token_plan/remains".
Definition MINIMAX_CN_QUOTA_URL : string := "https://www.minimaxi.com/v1/token_plan/remains".

(** ** Types *)

Record QuotaAccountView : Type := mkQuotaAccountView {
  qv_account_id : string;
  qv_account_display_name : string;
  qv_source_id : string;
  qv_source_display_name : string;
  qv_provider_id : string;
  qv_enabled : bool;
}.

Record QuotaResource : Type := mkQuotaResource {
  qr_resource_type : string;
  qr_key : string;
  qr_label : string;
  qr_unit : string;
  qr_used : option f64;
  qr_remaining : option f64;
  qr_limit : option f64;
  qr_reset_at : option Z;
}.

Record QuotaRefreshError : Type := mkQuotaRefreshError {
  qe_code : string;
  qe_message : string;
  qe_http_status : option Z;
}.

Record UpstreamQuotaSnapshot : Type := mkQuotaSnapshot {
  us_account : QuotaAccountView;
  us_status : string;
  us_resources : list QuotaResource;
  us_fetched_at : option Z;
  us_attempted_at : Z;
  us_latency_ms : Z;
  us_stale : bool;
  us_refresh_error : option QuotaRefreshError;
  us_raw : option Value;
}.

Record FetchFailure : Type := mkFetchFailure {
  ff_status : string;
  ff_code : string;
  ff_message : string;
  ff_http_status : option Z;
}.

Record ProviderQuota : Type := mkProviderQuota {
  pq_resources : list QuotaResource;
  pq_status_override : option string;
  pq_raw : Value;
}.

Record QuotaTarget : Type := mkQuotaTarget {
  qt_account_id : string;
  qt_source_id : string;
  qt_account_display_name : string;
  qt_credential_env : option string;
  qt_credential_ciphertext : option string;
  qt_account_enabled : bool;
  qt_source_display_name : string;
  qt_provider_preset_id : string;
  qt_base_url : string;
  qt_auth_config : Value;
  qt_source_enabled : bool;
}.

(** ** Values of the providers *)

(** [DateTime::from_timestamp_millis], [from_timestamp] and
    [now.checked_add_signed(Duration::milliseconds(..))]. *)
Class QuotaTime : Type := {
  from_timestamp_millis : Z -> option Z;
  from_timestamp : Z -> option Z;
  add_millis : Z -> Z -> option Z;
}.

Definition number (value : Value) : option f64 :=
  opt_filter is_finite (opt_or (as_f64 value) (as_str value ≫= parse_f64)).

Definition integer (value : Value) : option Z :=
  opt_or (as_i64 value) (as_str value ≫= parse_int I64_MIN I64_MAX).

Definition parse_failure : FetchFailure :=
  mkFetchFailure "refresh_failed" "invalid_quota_response"
    "upstream quota response does not match the expected schema" None.

(** The status shown: the lowest of the percentages left. *)
Definition is_percent_window (r : QuotaResource) : bool :=
  (qr_resource_type r =?s "window") && (qr_unit r =?s "percent").

Definition lowest (l : list f64) : option f64 :=
  match l with [] => None | x :: l => Some (fold_left f_min l x) end.

Definition quota_status (resources : list QuotaResource) : string :=
  match lowest (omap qr_remaining (List.filter is_percent_window resources)) with
  | Some value => if f_le value f0 then "exhausted" else if f_lt value f20 then "low" else "ok"
  | None => "ok"
  end.

(** ** DeepSeek *)

Definition deepseek_balance (entry : Value) : option QuotaResource :=
  (get entry "currency" ≫= as_str) ≫= fun currency =>
  (get entry "total_balance" ≫= number) ≫= fun total =>
  Some (mkQuotaResource "balance" ("balance_" +:+ to_ascii_lowercase currency) (currency +:+ " 余额") currency
          None (Some total) None None).

Definition parse_deepseek (raw : Value) : result ProviderQuota FetchFailure :=
  let available := unwrap_or (get raw "is_available" ≫= as_bool) true in
  let? balances := ok_or (get raw "balance_infos" ≫= as_array) parse_failure in
  let resources := omap deepseek_balance balances in
  if bool_decide (resources = []) && available then Err parse_failure
  else Ok (mkProviderQuota resources (if available then None else Some "exhausted") raw).

Section Parsers.
Context `{Rfc3339} `{QuotaTime}.

Definition parse_reset_time (value : Value) : option Z := as_str value ≫= parse_from_rfc3339.

Definition parse_absolute_time (value : Value) : option Z :=
  match as_str value ≫= parse_from_rfc3339 with
  | Some t => Some t
  | None =>
      integer value ≫= fun raw =>
      if 10000000000 <? raw then from_timestamp_millis raw
      else if 1000000000 <? raw then from_timestamp raw else None
  end.

(** ** Kimi *)

Definition checked_mul (a b : Z) : option Z :=
  if (I64_MIN <=? a * b) && (a * b <=? I64_MAX) then Some (a * b) else None.

Definition kimi_window_minutes (window : Value) : option Z :=
  (get window "duration" ≫= integer) ≫= fun duration =>
  if duration <=? 0 then None
  else
    (get window "timeUnit" ≫= as_str) ≫= fun unit =>
    if unit =?s "TIME_UNIT_MINUTE" then Some duration
    else if unit =?s "TIME_UNIT_HOUR" then checked_mul duration 60
    else if unit =?s "TIME_UNIT_DAY" then checked_mul duration (24 * 60)
    else if (unit =?s "TIME_UNIT_SECOND") && (Z.rem duration 60 =? 0) then Some (Z.quot duration 60)
    else None.

(** [(x / limit * 100.0).clamp(0.0, 100.0)]. *)
Definition percent_of (x limit : f64) : f64 := f_clamp (f_mul (f_div x limit) f100) f0 f100.

Definition kimi_resource (detail : Value) (key label : string) : option QuotaResource :=
  (get detail "limit" ≫= number) ≫= fun limit =>
  if f_le limit f0 then None
  else
    let raw_used := get detail "used" ≫= number in
    let raw_remaining := get detail "remaining" ≫= number in
    opt_or raw_used (f_sub limit <$> raw_remaining) ≫= fun used =>
    opt_or raw_remaining (f_sub limit <$> raw_used) ≫= fun remaining =>
    Some (mkQuotaResource "window" key label "percent" (Some (percent_of used limit)) (Some (percent_of remaining limit))
            (Some f100) (opt_or (get detail "resetTime") (get detail "reset_time") ≫= parse_reset_time)).

(** The loop over [limits]: the first five-hour window that can be read. *)
Fixpoint kimi_five_hours (limits : list Value) : option QuotaResource :=
  match limits with
  | [] => None
  | limit :: limits =>
      if negb (bool_decide ((get limit "window" ≫= kimi_window_minutes) = Some 300)) then kimi_five_hours limits
      else match get limit "detail" ≫= fun detail => kimi_resource detail "5h" "5 小时" with
           | Some resource => Some resource
           | None => kimi_five_hours limits
           end
  end.

Definition parse_kimi (raw : Value) : result ProviderQuota FetchFailure :=
  let five_hours :=
    match get raw "limits" ≫= as_array with Some limits => kimi_five_hours limits | None => None end in
  let week := get raw "usage" ≫= fun detail => kimi_resource detail "7d" "7 天" in
  let resources := option_list five_hours ++ option_list week in
  if bool_decide (resources = []) then Ok (mkProviderQuota resources (Some "unsupported") raw)
  else Ok (mkProviderQuota resources None raw).

(** ** MiniMax *)

Definition minimax_remaining (value : Value) (weekly : bool) : option f64 :=
  let prefix := if weekly then "current_weekly" else "current_interval" in
  match get value (prefix +:+ "_remaining_percent") ≫= number with
  | Some percent => Some (f_clamp percent f0 f100)
  | None =>
      (get value (prefix +:+ "_total_count") ≫= number) ≫= fun total =>
      if f_le total f0 then None
      else
        let used := unwrap_or (opt_or (get value (prefix +:+ "_usage_count")) (get value (prefix +:+ "_used_count"))
                                 ≫= number) f0 in
        Some (f_clamp (f_sub f100 (f_mul (f_div used total) f100)) f0 f100)
  end.

Definition minimax_reset (value : Value) (weekly : bool) (now : Z) : option Z :=
  match get value (if weekly then "weekly_end_time" else "end_time") ≫= parse_absolute_time with
  | Some end_ => Some end_
  | None =>
      (get value (if weekly then "weekly_remains_time" else "remains_time") ≫= integer) ≫= fun millis =>
      add_millis now (Z.max millis 0)
  end.

Definition minimax_resource (selected : Value) (weekly : bool) (now : Z) : option QuotaResource :=
  (fun remaining =>
     mkQuotaResource "window" (if weekly then "7d" else "5h") (if weekly then "7 天" else "5 小时") "percent"
       (Some (f_clamp (f_sub f100 remaining) f0 f100)) (Some remaining) (Some f100) (minimax_reset selected weekly now))
  <$> minimax_remaining selected weekly.

Definition minimax_error : FetchFailure :=
  mkFetchFailure "refresh_failed" "minimax_quota_error" "MiniMax quota API returned an application error" None.

Definition parse_minimax (raw : Value) (now : Z) : result ProviderQuota FetchFailure :=
  let status_code :=
    unwrap_or (opt_or (get raw "status_code" ≫= integer)
                 (get raw "base_resp" ≫= fun resp => get resp "status_code" ≫= integer)) 0 in
  if negb (status_code =? 0) then
    if status_code =? 2062 then Ok (mkProviderQuota [] (Some "unsupported") raw) else Err minimax_error
  else
    let? items := ok_or (opt_or (get raw "model_remains" ≫= as_array)
                           (get raw "data" ≫= fun data => get data "model_remains" ≫= as_array)) parse_failure in
    let? selected := ok_or (opt_or
        (List.find (fun item => bool_decide ((get item "model_name" ≫= as_str) = Some "general")) items) (head items))
      parse_failure in
    let resources := option_list (minimax_resource selected false now) ++ option_list (minimax_resource selected true now) in
    if bool_decide (resources = []) then Err parse_failure else Ok (mkProviderQuota resources None raw).

Definition parse_provider_quota (provider_id : string) (raw : Value) (now : Z) : result ProviderQuota FetchFailure :=
  if provider_id =?s "deepseek" then parse_deepseek raw
  else if provider_id =?s "kimi_code" then parse_kimi raw
  else if provider_id =?s "minimax" then parse_minimax raw now
  else Ok (mkProviderQuota [] (Some "unsupported") raw).
End Parsers.

(** ** The request *)

Definition invalid_quota_url : FetchFailure :=
  mkFetchFailure "refresh_failed" "invalid_quota_url" "upstream quota URL is invalid" None.
Definition quota_url_blocked : FetchFailure :=
  mkFetchFailure "refresh_failed" "source_url_blocked" "quota URL is blocked by server policy" None.

Definition transport_failure (error : HttpFailure) : FetchFailure :=
  match error with
  | HfPolicyViolation => quota_url_blocked
  | HfTimeout => mkFetchFailure "refresh_failed" "upstream_timeout" "upstream quota request timed out" None
  | HfConnect => mkFetchFailure "refresh_failed" "upstream_connect_failed" "upstream quota connection failed" None
  | HfOther => mkFetchFailure "refresh_failed" "upstream_request_failed" "upstream quota request failed" None
  end.

Definition secret_failure (error : SecretResolverError) : FetchFailure :=
  mkFetchFailure "auth_error" (secret_error_code error) (secret_public_message error) None.

Section Request.
Context `{UrlCrates} `{PresetSerde} `{HttpNames}.

Definition join_source_url (base_url endpoint : string) : result Url FetchFailure :=
  let? base := ok_or (url_parse base_url) invalid_quota_url in
  if negb ((url_scheme base =?s "http") || (url_scheme base =?s "https")) || negb (is_some (url_host_str base))
     || negb (is_empty (url_username base)) || is_some (url_password base) || is_some (url_query base)
     || is_some (url_fragment base)
  then Err invalid_quota_url
  else ok_or (url_parse (trim_end_matches "/"%char (url_text base) +:+ endpoint)) invalid_quota_url.

Definition quota_url (target : QuotaTarget) : result Url FetchFailure :=
  let preset := qt_provider_preset_id target in
  if preset =?s "deepseek" then join_source_url (qt_base_url target) "/user/balance"
  else if preset =?s "kimi_code" then join_source_url (qt_base_url target) "/v1/usages"
  else if preset =?s "minimax" then
    let? base := ok_or (url_parse (qt_base_url target)) invalid_quota_url in
    let host := to_ascii_lowercase (unwrap_or (url_host_str base) "") in
    ok_or (url_parse (if ends_with host "minimaxi.com" then MINIMAX_CN_QUOTA_URL else MINIMAX_GLOBAL_QUOTA_URL))
      invalid_quota_url
  else Err invalid_quota_url.

Definition invalid_header (message : string) : FetchFailure :=
  mkFetchFailure "refresh_failed" "invalid_header_template" message None.

Fixpoint default_headers (headers : list (string * string)) : result (list (string * string)) FetchFailure :=
  match headers with
  | [] => Ok []
  | (name, value) :: headers =>
      let? name := ok_or (header_name name) (invalid_header "source header template is invalid") in
      let? headers := default_headers headers in
      Ok ((name, value) :: headers)
  end.

(** [fetch_provider_quota] up to [send]. *)
Definition quota_request (policy : SourceUrlPolicy) (target : QuotaTarget) (credential : string)
    : result DiscoveryRequest FetchFailure :=
  let? url := quota_url target in
  let? auth := ok_or (auth_from_value (qt_auth_config target))
    (mkFetchFailure "refresh_failed" "invalid_auth_config" "source authentication configuration is invalid" None) in
  let? _ := map_err (fun _ => quota_url_blocked) (validate_request_url policy url) in
  let? headers := default_headers (sa_default_headers auth) in
  let? credential_name := ok_or (header_name (ch_header (sa_credential_header auth)))
    (invalid_header "source credential header is invalid") in
  Ok (mkDiscoveryRequest Get url
        (headers ++ [(credential_name, ch_prefix (sa_credential_header auth) +:+ credential)]) None (Some QUOTA_TIMEOUT_MS)).
End Request.

(** ** The answer *)

Definition quota_response_too_large (status : Z) : FetchFailure :=
  mkFetchFailure "refresh_failed" "quota_response_too_large" "upstream quota response is too large" (Some status).

Definition append_quota_chunk (body chunk : string) (status : Z) : result string FetchFailure :=
  if MAX_QUOTA_RESPONSE_BYTES <? slen body + slen chunk then Err (quota_response_too_large status)
  else Ok (body +:+ chunk).

(** The loop of [read_quota_body]. *)
Fixpoint read_quota_body (status : Z) (broken : option HttpFailure) (chunks : list string) (body : string)
    : result string FetchFailure :=
  match chunks with
  | [] => match broken with Some error => Err (transport_failure error) | None => Ok body end
  | chunk :: chunks =>
      let? body := append_quota_chunk body chunk status in
      read_quota_body status broken chunks body
  end.

Definition upstream_failure (status : Z) : FetchFailure :=
  if (status =? 401) || (status =? 403)
  then mkFetchFailure "auth_error" "upstream_auth_failed" "upstream rejected the account credential" (Some status)
  else mkFetchFailure "refresh_failed" "upstream_http_error" "upstream quota endpoint returned a non-success status"
         (Some status).

Section Service.
Context `{UrlCrates} `{PresetSerde} `{HttpNames} `{SerdeJson} `{Rfc3339} `{QuotaTime} `{Crypto}.

Definition quota_answer (provider_id : string) (now : Z) (answer : result DiscoveryResponse HttpFailure)
    : result ProviderQuota FetchFailure :=
  let? response := map_err transport_failure answer in
  let status := dp_status response in
  if negb ((200 <=? status) && (status <? 300)) then Err (upstream_failure status)
  else if is_some_and (dp_content_length response) (fun size => MAX_QUOTA_RESPONSE_BYTES <? size)
  then Err (quota_response_too_large status)
  else
    let? bytes := read_quota_body status (dp_broken response) (dp_chunks response) "" in
    let? raw := ok_or (from_slice bytes)
      (mkFetchFailure "refresh_failed" "invalid_quota_response" "upstream quota response is not valid JSON" (Some status)) in
    parse_provider_quota provider_id raw now.

(** What the fetch of one account sees of the outside: its clocks and the end of
    its request. *)
Class QuotaEnv : Type := {
  qn_attempted_at : string -> Z;
  qn_fetched_at : string -> Z;
  qn_parsed_at : string -> Z;
  qn_latency_ms : string -> Z;
  qn_exchange : string -> DiscoveryRequest -> result DiscoveryResponse HttpFailure;
}.

Context {quota_env : QuotaEnv}.
Context (policy : SourceUrlPolicy) (secrets : SecretResolver) (env_var : string -> option string).

Definition account_view (target : QuotaTarget) : QuotaAccountView :=
  mkQuotaAccountView (qt_account_id target) (qt_account_display_name target) (qt_source_id target)
    (qt_source_display_name target) (qt_provider_preset_id target) (qt_account_enabled target && qt_source_enabled target).

Definition failed_snapshot (target : QuotaTarget) (failure : FetchFailure) : UpstreamQuotaSnapshot :=
  let id := qt_account_id target in
  mkQuotaSnapshot (account_view target) (ff_status failure) [] None (qn_attempted_at id) (qn_latency_ms id) false
    (Some (mkQuotaRefreshError (ff_code failure) (ff_message failure) (ff_http_status failure))) None.

Definition supported (preset : string) : bool := existsb (String.eqb preset) ["deepseek"; "minimax"; "kimi_code"].

(** The requests that were sent, each for an account. *)
Abbreviation Sent := (list (string * DiscoveryRequest)).

Definition fetch_provider_quota (target : QuotaTarget) (credential : string) : result ProviderQuota FetchFailure * Sent :=
  let id := qt_account_id target in
  match quota_request policy target credential with
  | Ok request =>
      (quota_answer (qt_provider_preset_id target) (qn_parsed_at id) (qn_exchange id request), [(id, request)])
  | Err failure => (Err failure, [])
  end.

Definition fetched_snapshot (target : QuotaTarget) (include_raw : bool) (provider : ProviderQuota) : UpstreamQuotaSnapshot :=
  let id := qt_account_id target in
  let status := match pq_status_override provider with
                | Some status => status
                | None => quota_status (pq_resources provider)
                end in
  mkQuotaSnapshot (account_view target) status (pq_resources provider) (Some (qn_fetched_at id)) (qn_attempted_at id)
    (qn_latency_ms id) false None (if include_raw then Some (pq_raw provider) else None).

Definition fetch_snapshot (target : QuotaTarget) (include_raw : bool) : UpstreamQuotaSnapshot * Sent :=
  let id := qt_account_id target in
  let account := account_view target in
  if negb (qt_account_enabled target) || negb (qt_source_enabled target)
  then (mkQuotaSnapshot account "disabled" [] None (qn_attempted_at id) (qn_latency_ms id) false None None, [])
  else if negb (supported (qt_provider_preset_id target))
  then (mkQuotaSnapshot account "unsupported" [] (Some (qn_fetched_at id)) (qn_attempted_at id) (qn_latency_ms id) false
          None None, [])
  else
    match resolve_account env_var secrets (qt_source_id target) (qt_account_id target) (qt_credential_env target)
            (qt_credential_ciphertext target) None with
    | Err error => (failed_snapshot target (secret_failure error), [])
    | Ok credential =>
        let '(fetched, sent) := fetch_provider_quota target credential in
        (match fetched with
         | Ok provider => fetched_snapshot target include_raw provider
         | Err failure => failed_snapshot target failure
         end, sent)
    end.

(** ** The accounts *)

Definition target_of (id : string) (a : AccountRow) (s : SourceRecord) : QuotaTarget :=
  mkQuotaTarget id (ax_source_id a) (ax_display_name a) (ax_credential_env a) (ax_credential_ciphertext a) (ax_enabled a)
    (so_display_name s) (so_provider_preset_id s) (so_base_url s) (so_auth_config s) (so_enabled s).

Definition get_target (db : CatalogDb) (account_id : string) : option QuotaTarget :=
  cd_accounts db !! account_id ≫= fun a => cd_sources db !! ax_source_id a ≫= fun s => Some (target_of account_id a s).

Definition target_key (t : QuotaTarget) : string * (string * string) :=
  (qt_source_display_name t, (qt_account_display_name t, qt_account_id t)).

(** The texts are in the order of the database's collation. *)
Definition list_targets (text_order : Ordered string) (db : CatalogDb) : list QuotaTarget :=
  @sort_by _ _ (@prod_Ordered _ _ text_order (@prod_Ordered _ _ text_order text_order)) target_key
    (omap (fun kv => get_target db kv.1) (map_to_list (cd_accounts db))).

(** [join_all]: the requests of different accounts go out in any order. *)
Definition list_quotas (text_order : Ordered string) (db : CatalogDb) : list UpstreamQuotaSnapshot * Sent :=
  let answers := map (fun target => fetch_snapshot target false) (list_targets text_order db) in
  (map fst answers, concat (map snd answers)).

Definition get_quota (db : CatalogDb) (account_id : string) : option UpstreamQuotaSnapshot * Sent :=
  match get_target db account_id with
  | None => (None, [])
  | Some target => let '(snapshot, sent) := fetch_snapshot target true in (Some snapshot, sent)
  end.
End Service.
