(* ===== verification/QuotaProps.v ===== *)
(** * What is shown of the upstream quota

    The percentages the parsers produce are numbers between 0 and 100, whatever
    the provider sent; the status is the one of the lowest percentage left; a
    request is sent only for an account that is enabled and supported, to an
    address the policy admits; a failed fetch shows fixed texts only, and the
    list of quotas is what the single lookups say, in order. *)

From Stdlib Require Import ZArith Lia Ascii SpecFloat.
From Stdlib Require Import Sorted.
From stdpp Require Import base gmap list strings.
From S2P Require Import Prelude.
From S2P Require Import RustStr.
From S2P Require Import BTree.
From S2P Require Import Json.
From S2P Require Import F64.
From S2P Require Import SourceUrl.
From S2P Require Import Cleanup.
From S2P Require Import CleanupDone.
From S2P Require Import Presets.
From S2P Require Import PresetDiff.
From S2P Require Import ModelCatalog.
From S2P Require Import Discovery.
From S2P Require Import Secrets.
From S2P Require Import Quota.

(** ** The numbers *)

Lemma number_finite v x : number v = Some x -> is_finite x = true.
Proof. unfold number, opt_filter. destruct (opt_or _ _) as [y|]; [|done]. destruct (is_finite y) eqn:E; [|done]. by intros [= <-]. Qed.

Lemma number_at_finite e k x : (get e k ≫= number) = Some x -> is_finite x = true.
Proof. destruct (get e k) as [v|]; [|done]. apply number_finite. Qed.

Abbreviation percent x := (F64.in_range f0 f100 x).

Lemma clamp_percent x : is_nan x = false -> percent (f_clamp x f0 f100).
Proof. intros Hx. by apply f_clamp_range. Qed.

Lemma percent_of_range x limit : is_nan x = false -> nonzero limit = true -> percent (percent_of x limit).
Proof. intros Hx Hl. apply clamp_percent, f_mul_not_nan; [by apply f_div_not_nan|done]. Qed.

Lemma complement_percent x : is_nan x = false -> percent (f_clamp (f_sub f100 x) f0 f100).
Proof. intros Hx. by apply clamp_percent, f_sub_not_nan. Qed.

(** What a resource may say: a balance that is a number, or a window with its
    percentages in order. *)
Inductive resource_ok (r : QuotaResource) : Prop :=
| BalanceOk x : qr_resource_type r = "balance" -> qr_used r = None -> qr_remaining r = Some x -> qr_limit r = None ->
    is_finite x = true -> resource_ok r
| WindowOk u m : qr_resource_type r = "window" -> qr_unit r = "percent" ->
    qr_used r = Some u -> qr_remaining r = Some m -> qr_limit r = Some f100 -> percent u -> percent m -> resource_ok r.

Section Parsed.
Context `{Rfc3339} `{QuotaTime}.

Lemma deepseek_balance_ok e r : deepseek_balance e = Some r -> resource_ok r.
Proof.
  unfold deepseek_balance. destruct (get e "currency" ≫= as_str); [|done]. cbn [mbind option_bind].
  destruct (get e "total_balance" ≫= number) as [x|] eqn:E; [|done]. intros [= <-].
  eapply BalanceOk; try done. by eapply number_at_finite.
Qed.

Lemma kimi_resource_ok detail key label r : kimi_resource detail key label = Some r -> resource_ok r.
Proof.
  unfold kimi_resource. destruct (get detail "limit" ≫= number) as [limit|] eqn:El; [|done]. cbn [mbind option_bind].
  apply number_at_finite in El. destruct (f_le limit f0) eqn:Epos; [done|].
  pose proof (positive_nonzero _ El Epos) as Hnz.
  destruct (get detail "used" ≫= number) as [u|] eqn:Eu, (get detail "remaining" ≫= number) as [m|] eqn:Em; cbn; try done;
    try apply number_at_finite in Eu; try apply number_at_finite in Em; intros [= <-]; eapply WindowOk; try done;
    apply percent_of_range; auto using finite_not_nan, f_sub_not_nan.
Qed.

Lemma kimi_five_hours_ok limits r : kimi_five_hours limits = Some r -> resource_ok r.
Proof.
  induction limits as [|l limits IH]; cbn [kimi_five_hours]; [done|]. destruct (negb _); [done|].
  destruct (get l "detail" ≫= _) as [r'|] eqn:E; [|done]. intros [= <-].
  destruct (get l "detail"); [|done]. by eapply kimi_resource_ok.
Qed.

Lemma minimax_remaining_ok v weekly x : minimax_remaining v weekly = Some x -> percent x.
Proof.
  unfold minimax_remaining. set (prefix := if weekly then _ else _).
  destruct (get v (prefix +:+ "_remaining_percent") ≫= number) as [p|] eqn:Ep.
  { intros [= <-]. apply clamp_percent, finite_not_nan. by eapply number_at_finite. }
  destruct (get v (prefix +:+ "_total_count") ≫= number) as [total|] eqn:Et; [|done]. cbn [mbind option_bind].
  apply number_at_finite in Et. destruct (f_le total f0) eqn:Epos; [done|]. intros [= <-].
  apply complement_percent, f_mul_not_nan; [|done]. apply f_div_not_nan; [|by apply positive_nonzero].
  destruct (opt_or _ _) as [w|]; [|done]. cbn. destruct (number w) as [y|] eqn:Ey; [|done]. cbn.
  by eapply finite_not_nan, number_finite.
Qed.

Lemma minimax_resource_ok v weekly now r : minimax_resource v weekly now = Some r -> resource_ok r.
Proof.
  unfold minimax_resource. destruct (minimax_remaining v weekly) as [m|] eqn:E; [|done]. cbn. intros [= <-].
  pose proof (minimax_remaining_ok _ _ _ E) as Hm. eapply WindowOk; try done. apply complement_percent, Hm.
Qed.

Lemma elem_of_two {A} (x : A) (o p : option A) : x ∈ option_list o ++ option_list p -> o = Some x \/ p = Some x.
Proof.
  rewrite elem_of_app. intros [Hx|Hx].
  - left. destruct o; [|by apply elem_of_nil in Hx]. by apply list_elem_of_singleton in Hx as ->.
  - right. destruct p; [|by apply elem_of_nil in Hx]. by apply list_elem_of_singleton in Hx as ->.
Qed.

Lemma parse_deepseek_ok raw q : parse_deepseek raw = Ok q -> Forall resource_ok (pq_resources q).
Proof.
  unfold parse_deepseek. destruct (get raw "balance_infos" ≫= as_array) as [balances|]; cbn [ok_or rbind]; [|done].
  destruct (_ && _); [done|]. intros [= <-]. apply Forall_forall. intros r (e & _ & Hr)%list_elem_of_omap.
  by eapply deepseek_balance_ok.
Qed.

Lemma parse_kimi_ok raw q : parse_kimi raw = Ok q -> Forall resource_ok (pq_resources q).
Proof.
  unfold parse_kimi. intros Hq. apply Forall_forall. intros r Hr.
  assert (pq_resources q = option_list (match get raw "limits" ≫= as_array with
                                        | Some limits => kimi_five_hours limits | None => None end)
            ++ option_list (get raw "usage" ≫= fun detail => kimi_resource detail "7d" "7 天")) as Heq
    by (by destruct (bool_decide _); injection Hq as <-).
  rewrite Heq in Hr. apply elem_of_two in Hr as [Hr|Hr].
  - destruct (get raw "limits" ≫= as_array); [by eapply kimi_five_hours_ok|done].
  - destruct (get raw "usage"); [by eapply kimi_resource_ok|done].
Qed.

Lemma parse_minimax_ok raw now q : parse_minimax raw now = Ok q -> Forall resource_ok (pq_resources q).
Proof.
  unfold parse_minimax. destruct (negb _); [destruct (_ =? 2062); [intros [= <-]; constructor|done]|].
  destruct (opt_or _ _) as [items|]; cbn [ok_or rbind]; [|done].
  destruct (opt_or _ _) as [selected|]; cbn [ok_or rbind]; [|done].
  destruct (bool_decide _); [done|]. intros [= <-]. apply Forall_forall.
  intros r [Hr|Hr]%elem_of_two; by eapply minimax_resource_ok.
Qed.

Lemma parsed_resources_ok provider_id raw now q :
  parse_provider_quota provider_id raw now = Ok q -> Forall resource_ok (pq_resources q).
Proof.
  unfold parse_provider_quota. destruct (_ =?s _); [apply parse_deepseek_ok|].
  destruct (_ =?s _); [apply parse_kimi_ok|]. destruct (_ =?s _); [apply parse_minimax_ok|].
  intros [= <-]. constructor.
Qed.
End Parsed.

(** ** The status *)

(** Some percent window has less left than [p] says. *)
Definition some_window (p : f64 -> bool) (resources : list QuotaResource) : Prop :=
  exists r m, r ∈ resources /\ is_percent_window r = true /\ qr_remaining r = Some m /\ p m = true.

Definition remaining_percents (resources : list QuotaResource) : list f64 :=
  omap qr_remaining (List.filter is_percent_window resources).

Lemma elem_of_remaining m resources :
  m ∈ remaining_percents resources <-> exists r, r ∈ resources /\ is_percent_window r = true /\ qr_remaining r = Some m.
Proof.
  unfold remaining_percents. rewrite list_elem_of_omap. split.
  - intros (r & Hr & Hm). apply list_elem_of_In, filter_In in Hr as [Hr Hw]. apply list_elem_of_In in Hr. eauto.
  - intros (r & Hr & Hw & Hm). exists r. split; [|done]. apply list_elem_of_In, filter_In. by rewrite <- list_elem_of_In.
Qed.

Lemma some_window_elem p resources :
  some_window p resources <-> exists m, m ∈ remaining_percents resources /\ p m = true.
Proof.
  split.
  - intros (r & m & Hr & Hw & Hm & Hp). exists m. split; [|done]. apply elem_of_remaining. eauto.
  - intros (m & (r & Hr & Hw & Hm)%elem_of_remaining & Hp). by exists r, m.
Qed.

(** A number is below [bound] if the lowest one is. *)
Lemma lowest_below (p : f64 -> bool) l m : lowest l = Some m -> Forall (fun x => is_nan x = false) l ->
  (forall x y, is_nan x = false -> is_nan y = false -> f_le x y = true -> p y = true -> p x = true) ->
  (exists x, x ∈ l /\ p x = true) <-> p m = true.
Proof.
  destruct l as [|x l]; [done|]. cbn [lowest]. intros [= <-] Hl Hp. pose proof Hl as Hall.
  apply Forall_cons in Hl as [Hx Hl]. destruct (fold_min_spec l x Hx Hl) as (Hn & Hin & Hle). split.
  - intros (y & Hy & Hpy). rewrite Forall_forall in Hall. eapply Hp; [done|by apply (Hall y)|by apply Hle|done].
  - intros Hm. by exists (fold_left f_min l x).
Qed.

Lemma below_zero_mono x y : is_nan x = false -> is_nan y = false -> f_le x y = true -> f_le y f0 = true -> f_le x f0 = true.
Proof. intros Hx Hy. by apply f_le_trans. Qed.

Lemma below_twenty_mono x y : is_nan x = false -> is_nan y = false -> f_le x y = true -> f_lt y f20 = true -> f_lt x f20 = true.
Proof.
  intros Hx Hy Hxy. rewrite <- !not_false_iff_true, !f_lt_le by done. intros Hy20 Hx20. apply Hy20. by eapply f_le_trans, Hxy.
Qed.

Lemma remaining_numbers resources : Forall resource_ok resources ->
  Forall (fun x => is_nan x = false) (remaining_percents resources).
Proof.
  intros Hall. apply Forall_forall. intros m (r & Hr & _ & Hm)%elem_of_remaining. rewrite Forall_forall in Hall.
  destruct (Hall r Hr) as [x _ _ Hx _ Hf|u m' _ _ _ Hm' _ _ [Hn _]]; [|congruence].
  rewrite Hx in Hm. injection Hm as <-. by apply finite_not_nan.
Qed.

(** Whatever a provider answers, what is shown of it is sound.  The
    percentages are percentages: every window of a parsed quota has its used and
    remaining part as numbers (never NaN or infinite) between 0 and 100 of the
    limit 100, although they are quotients of numbers the provider chose, and
    every balance is a finite number.  The status is that of the worst window:
    exhausted exactly when some window has nothing left, low exactly when none
    is exhausted but some has less than 20 percent left, and ok otherwise. *)
Theorem parsed_quota_correct `{Rfc3339} `{QuotaTime} (provider_id : string) (raw : Value) (now : Z) (q : ProviderQuota) :
  parse_provider_quota provider_id raw now = Ok q ->
  let nothing_left := some_window (fun m => f_le m f0) (pq_resources q) in
  let little_left := some_window (fun m => f_lt m f20) (pq_resources q) in
  let status := quota_status (pq_resources q) in
  Forall resource_ok (pq_resources q)
  /\ (status = "exhausted" <-> nothing_left) /\ (status = "low" <-> ~ nothing_left /\ little_left)
  /\ (status = "ok" <-> ~ nothing_left /\ ~ little_left).
Proof.
  intros Hq%parsed_resources_ok. cbv zeta. split; [done|]. apply remaining_numbers in Hq.
  rewrite !some_window_elem. unfold quota_status.
  fold (remaining_percents (pq_resources q)). destruct (lowest (remaining_percents (pq_resources q))) as [m|] eqn:El.
  - rewrite (lowest_below (fun m => f_le m f0) _ m), (lowest_below (fun m => f_lt m f20) _ m)
      by eauto using below_zero_mono, below_twenty_mono.
    destruct (f_le m f0), (f_lt m f20); naive_solver.
  - destruct (remaining_percents _); [|done]. set_solver.
Qed.

(** ** The request *)

Section Requests.
Context `{UrlCrates} `{PresetSerde} `{HttpNames} `{SerdeJson} `{Rfc3339} `{QuotaTime} `{Crypto}.
Context (policy : SourceUrlPolicy) (secrets : SecretResolver) (env_var : string -> option string).

(** Where a quota is read: at the source's own base URL, or at MiniMax's. *)
Inductive quota_address (target : QuotaTarget) (url : Url) : Prop :=
| AtSource base endpoint : url_parse (qt_base_url target) = Some base ->
    url_username base = "" -> url_password base = None -> url_query base = None -> url_fragment base = None ->
    (qt_provider_preset_id target, endpoint) ∈ [("deepseek", "/user/balance"); ("kimi_code", "/v1/usages")] ->
    url_parse (trim_end_matches "/"%char (url_text base) +:+ endpoint) = Some url -> quota_address target url
| AtMinimax official : qt_provider_preset_id target = "minimax" ->
    official ∈ [MINIMAX_GLOBAL_QUOTA_URL; MINIMAX_CN_QUOTA_URL] -> url_parse official = Some url ->
    quota_address target url.

(** A request that may be sent for the account: the only thing of the account
    it carries beyond the source's configured headers is the account's own
    credential, last, in the configured header. *)
Definition safe_quota_request (target : QuotaTarget) (q : DiscoveryRequest) : Prop :=
  qt_account_enabled target = true /\ qt_source_enabled target = true
  /\ qt_provider_preset_id target ∈ ["deepseek"; "minimax"; "kimi_code"]
  /\ dq_method q = Get /\ dq_body q = None /\ dq_timeout_ms q = Some 10000
  /\ quota_address target (dq_url q) /\ validate_request_url policy (dq_url q) = Ok tt
  /\ exists auth credential name, auth_from_value (qt_auth_config target) = Some auth
     /\ resolve_account env_var secrets (qt_source_id target) (qt_account_id target) (qt_credential_env target)
          (qt_credential_ciphertext target) None = Ok credential
     /\ header_name (ch_header (sa_credential_header auth)) = Some name
     /\ exists configured, dq_headers q = configured ++ [(name, ch_prefix (sa_credential_header auth) +:+ credential)]
        /\ map snd configured = map snd (sa_default_headers auth).

Lemma join_source_url_ok target endpoint url :
  (qt_provider_preset_id target, endpoint) ∈ [("deepseek", "/user/balance"); ("kimi_code", "/v1/usages")] ->
  join_source_url (qt_base_url target) endpoint = Ok url -> quota_address target url.
Proof.
  intros He. unfold join_source_url. destruct (url_parse (qt_base_url target)) as [base|] eqn:Eb; cbn [ok_or rbind]; [|done].
  destruct (_ || _) eqn:Ec; [done|]. apply orb_false_iff in Ec as [Ec Hf]. apply orb_false_iff in Ec as [Ec Hq].
  apply orb_false_iff in Ec as [Ec Hp]. apply orb_false_iff in Ec as [_ Hu].
  destruct (url_parse (_ +:+ _)) as [u|] eqn:Eu; [|done]. cbn. intros [= <-].
  eapply AtSource; try done.
  - by destruct (url_username base).
  - by destruct (url_password base).
  - by destruct (url_query base).
  - by destruct (url_fragment base).
Qed.

Lemma quota_url_ok target url : quota_url target = Ok url -> quota_address target url.
Proof.
  unfold quota_url. destruct (String.eqb_spec (qt_provider_preset_id target) "deepseek") as [Ed|].
  { apply join_source_url_ok. rewrite Ed. set_solver. }
  destruct (String.eqb_spec (qt_provider_preset_id target) "kimi_code") as [Ek|].
  { apply join_source_url_ok. rewrite Ek. set_solver. }
  destruct (String.eqb_spec (qt_provider_preset_id target) "minimax") as [Em|]; [|done].
  destruct (url_parse (qt_base_url target)) as [base|]; cbn [ok_or rbind]; [|done].
  destruct (ends_with _ _); destruct (url_parse _) as [u|] eqn:Eu; try done; cbn; intros [= <-];
    (eapply AtMinimax; [done| |exact Eu]; set_solver).
Qed.

Lemma default_headers_values headers r : default_headers headers = Ok r -> map snd r = map snd headers.
Proof.
  revert r. induction headers as [|[n v] headers IH]; intros r; cbn [default_headers]; [by intros [= <-]|].
  destruct (header_name n); cbn [ok_or rbind]; [|done]. destruct (default_headers headers) as [r'|]; cbn [rbind]; [|done].
  intros [= <-]. cbn. f_equal. by apply IH.
Qed.

Lemma supported_presets preset : supported preset = true -> preset ∈ ["deepseek"; "minimax"; "kimi_code"].
Proof. unfold supported. rewrite existsb_exists. intros (x & Hx & ->%String.eqb_eq). by apply list_elem_of_In. Qed.

(** The request a fetch sends, if it gets that far. *)
Definition target_request (target : QuotaTarget) : result DiscoveryRequest FetchFailure :=
  let? credential := map_err secret_failure
    (resolve_account env_var secrets (qt_source_id target) (qt_account_id target) (qt_credential_env target)
       (qt_credential_ciphertext target) None) in
  quota_request policy target credential.

Lemma target_request_ok target q :
  qt_account_enabled target = true -> qt_source_enabled target = true -> supported (qt_provider_preset_id target) = true ->
  target_request target = Ok q -> safe_quota_request target q.
Proof.
  intros Ha Hs Hp. unfold target_request. destruct (resolve_account _ _ _ _ _ _ _) as [credential|] eqn:Ec; cbn [map_err rbind]; [|done].
  unfold quota_request. destruct (quota_url target) as [url|] eqn:Eu; cbn [rbind]; [|done].
  destruct (auth_from_value _) as [auth|] eqn:Eauth; cbn [ok_or rbind]; [|done].
  destruct (validate_request_url policy url) as [[]|] eqn:Ev; cbn [map_err rbind]; [|done].
  destruct (default_headers _) as [headers|] eqn:Eh; cbn [rbind]; [|done].
  destruct (header_name _) as [name|] eqn:En; cbn [ok_or rbind]; [|done]. intros [= <-].
  unfold safe_quota_request. cbn [dq_method dq_body dq_timeout_ms dq_url dq_headers].
  split; [done|]. split; [done|]. split; [by apply supported_presets|]. split; [done|]. split; [done|]. split; [done|].
  split; [by apply quota_url_ok|]. split; [done|]. exists auth, credential, name. split; [done|]. split; [done|].
  split; [done|]. exists headers. split; [done|]. by apply default_headers_values.
Qed.

Context {quota_env : QuotaEnv}.

(** What a fetch sends: one safe request, or nothing. *)
Lemma fetch_sends target include_raw :
  let sent := (fetch_snapshot policy secrets env_var target include_raw).2 in
  sent = [] \/ exists q, sent = [(qt_account_id target, q)] /\ safe_quota_request target q.
Proof.
  cbv zeta. unfold fetch_snapshot.
  destruct (qt_account_enabled target) eqn:Ha; [|by left]. destruct (qt_source_enabled target) eqn:Hs; [|by left]. cbn [negb orb].
  destruct (supported _) eqn:Hp; [|by left]. cbn [negb].
  destruct (resolve_account _ _ _ _ _ _ _) as [credential|] eqn:Ec; [|by left]. unfold fetch_provider_quota.
  destruct (quota_request policy target credential) as [q|] eqn:Eq; [|by left]. right. exists q. split; [done|].
  apply target_request_ok; [done..|]. unfold target_request. by rewrite Ec.
Qed.

Lemma get_target_id db id t : get_target db id = Some t -> qt_account_id t = id.
Proof.
  unfold get_target. destruct (cd_accounts db !! id) as [a|]; [|done]. cbn. destruct (cd_sources db !! _); [|done].
  by intros [= <-].
Qed.

Lemma elem_of_targets text_order db t : t ∈ list_targets text_order db <-> get_target db (qt_account_id t) = Some t.
Proof.
  unfold list_targets. rewrite elem_of_sort_by, list_elem_of_omap. split.
  - intros ([id a] & _ & Ht). cbn in Ht. by rewrite (get_target_id _ _ _ Ht).
  - intros Ht. destruct (cd_accounts db !! qt_account_id t) as [a|] eqn:Ea; [|by unfold get_target in Ht; rewrite Ea in Ht].
    exists (qt_account_id t, a). by rewrite elem_of_map_to_list.
Qed.

Lemma omap_target_ids db (l : list (string * AccountRow)) : NoDup (map fst l) ->
  NoDup (map qt_account_id (omap (fun kv => get_target db kv.1) l)).
Proof.
  induction l as [|[id a] l IH]; cbn [map omap list_omap fst]; [constructor|]. intros [Hn Hd]%NoDup_cons.
  destruct (get_target db id) as [t|] eqn:Et; [|by apply IH]. cbn [map]. apply NoDup_cons. split; [|by apply IH].
  rewrite (get_target_id _ _ _ Et). intros (u & Hu & Hin)%list_elem_of_fmap. destruct Hn.
  apply list_elem_of_omap in Hin as ([id' a'] & Hin & Hg). cbn in Hg. apply get_target_id in Hg as <-.
  apply list_elem_of_fmap. eexists. split; [|exact Hin]. done.
Qed.

Lemma targets_distinct text_order db : NoDup (map qt_account_id (list_targets text_order db)).
Proof. unfold list_targets. rewrite sort_by_perm. apply omap_target_ids, NoDup_fst_map_to_list. Qed.

(** The requests of a list of fetches are of its accounts, each once. *)
Lemma fetches_send l :
  NoDup (map qt_account_id l) ->
  let sent := concat (map snd (map (fun target => fetch_snapshot policy secrets env_var target false) l)) in
  NoDup (map fst sent)
  /\ forall id q, (id, q) ∈ sent -> exists target, target ∈ l /\ qt_account_id target = id /\ safe_quota_request target q.
Proof.
  induction l as [|t l IH]; cbn [map concat]; [split; [constructor|by intros ?? ?%elem_of_nil]|].
  intros [Ht Hd]%NoDup_cons. destruct (IH Hd) as [Hn Hs]. cbv zeta. cbn [map].
  destruct (fetch_sends t false) as [->|(q & -> & Hq)].
  - split; [done|]. intros id q Hin. destruct (Hs _ _ Hin) as (target & ? & ?). exists target. by split; [right|].
  - split.
    + cbn. apply NoDup_cons. split; [|done]. intros ([id q'] & E & Hin)%list_elem_of_fmap. cbn in E. subst id.
      destruct (Hs _ _ Hin) as (target & Hin' & Hid & _). destruct Ht. rewrite <- Hid. by apply list_elem_of_fmap_2.
    + intros id q' [[= -> ->]|Hin]%elem_of_cons; [exists t; by split; [left|]|].
      destruct (Hs _ _ Hin) as (target & ? & ?). exists target. by split; [right|].
Qed.

(** C36. Quota requests are safe.  Listing the quotas sends at most one request
    for each account, asking for one account at most one and for that account
    only; and every request that is sent, whatever becomes of its answer, is a
    safe one: it is for an enabled account of an enabled source of a supported
    provider, a GET without body and with a timeout, to the source's own base
    URL (without user information, query or fragment) or MiniMax's official
    address, as the policy admits it, with that account's own credential and
    nothing else that is not configured. *)
Theorem quota_requests_are_safe (text_order : Ordered string) (db : CatalogDb) :
  let listed := (list_quotas policy secrets env_var text_order db).2 in
  NoDup (map fst listed)
  /\ (forall id q, (id, q) ∈ listed -> exists target, get_target db id = Some target /\ safe_quota_request target q)
  /\ forall id, let sent := (get_quota policy secrets env_var db id).2 in
       (length sent <= 1)%nat
       /\ forall k q, (k, q) ∈ sent -> k = id /\ exists target, get_target db id = Some target /\ safe_quota_request target q.
Proof.
  cbv zeta. unfold list_quotas. cbn [snd].
  destruct (fetches_send (list_targets text_order db) (targets_distinct _ _)) as [Hn Hs]. split; [done|]. split.
  - intros id q (target & Hin%elem_of_targets & <- & Hq)%Hs. by exists target.
  - intros id. unfold get_quota. destruct (get_target db id) as [t|] eqn:Et; cbn [snd].
    2:{ split; [cbn; lia|by intros ?? ?%elem_of_nil]. }
    destruct (fetch_snapshot policy secrets env_var t true) as [snapshot sent] eqn:Ef. cbn [snd].
    pose proof (fetch_sends t true) as Hsent. rewrite Ef in Hsent. cbv zeta in Hsent. cbn [snd] in Hsent.
    destruct Hsent as [->|(q & -> & Hq)]; (split; [cbn; lia|]); intros k q'; [by intros ?%elem_of_nil|].
    intros [= -> ->]%list_elem_of_singleton. split; [by apply get_target_id in Et|by exists t].
Qed.
End Requests.

(** ** What is shown *)

(** The texts a failed fetch may show. *)
Definition quota_messages : list (string * string) :=
  [("invalid_quota_response", "upstream quota response does not match the expected schema");
   ("invalid_quota_response", "upstream quota response is not valid JSON");
   ("minimax_quota_error", "MiniMax quota API returned an application error");
   ("invalid_quota_url", "upstream quota URL is invalid");
   ("source_url_blocked", "quota URL is blocked by server policy");
   ("upstream_timeout", "upstream quota request timed out");
   ("upstream_connect_failed", "upstream quota connection failed");
   ("upstream_request_failed", "upstream quota request failed");
   ("invalid_auth_config", "source authentication configuration is invalid");
   ("invalid_header_template", "source header template is invalid");
   ("invalid_header_template", "source credential header is invalid");
   ("quota_response_too_large", "upstream quota response is too large");
   ("upstream_auth_failed", "upstream rejected the account credential");
   ("upstream_http_error", "upstream quota endpoint returned a non-success status")]
  ++ map (fun e => (secret_error_code e, secret_public_message e))
       [CredentialUnavailable; AmbiguousCredential; MasterKeyUnavailable; InvalidMasterKeyConfig; InvalidCiphertext;
        DecryptionFailed; InvalidPlaintext].

Definition known_failure (f : FetchFailure) : bool :=
  existsb (String.eqb (ff_status f)) ["auth_error"; "refresh_failed"]
  && existsb (fun p => (p.1 =?s ff_code f) && (p.2 =?s ff_message f)) quota_messages.

(** A value, or a failure with a known text. *)
Definition fails_known {A} (r : result A FetchFailure) : Prop :=
  match r with Ok _ => True | Err f => known_failure f = true end.

Lemma known_ok {A} (r : A) : fails_known (Ok r).
Proof. done. Qed.

Lemma known_bind {A B} (r : result A FetchFailure) (f : A -> result B FetchFailure) :
  fails_known r -> (forall a, fails_known (f a)) -> fails_known (rbind r f).
Proof. destruct r; cbn; auto. Qed.

Lemma known_ok_or {A} (o : option A) f : known_failure f = true -> fails_known (ok_or o f).
Proof. by destruct o. Qed.

Lemma known_map_err {A E} (r : result A E) f : (forall e, known_failure (f e) = true) -> fails_known (map_err f r).
Proof. destruct r; cbn; auto. Qed.

Lemma known_transport e : known_failure (transport_failure e) = true.
Proof. by destruct e. Qed.

Lemma known_secret e : known_failure (secret_failure e) = true.
Proof. by destruct e. Qed.

Lemma known_upstream status : known_failure (upstream_failure status) = true.
Proof. unfold upstream_failure. by destruct (_ || _). Qed.

Create HintDb known.
#[export] Hint Resolve known_ok known_bind known_ok_or known_map_err known_transport known_secret known_upstream : known.

(** Splits the conditions on the way. *)
Ltac known :=
  repeat first
    [ progress intros
    | apply known_bind
    | match goal with |- fails_known (match ?x with _ => _ end) => destruct x end
    | match goal with |- fails_known (Err _) => first [reflexivity | unfold fails_known; apply known_upstream | unfold fails_known; apply known_transport] end
    | solve [auto with known] ].

Lemma known_body status broken chunks body : fails_known (read_quota_body status broken chunks body).
Proof.
  revert body. induction chunks as [|c chunks IH]; intros body; cbn [read_quota_body]; [known|].
  unfold append_quota_chunk. known.
Qed.

Section Shown.
Context `{UrlCrates} `{PresetSerde} `{HttpNames} `{SerdeJson} `{Rfc3339} `{QuotaTime} `{Crypto}.
Context (policy : SourceUrlPolicy) (secrets : SecretResolver) (env_var : string -> option string).

Lemma known_headers headers : fails_known (default_headers headers).
Proof. induction headers as [|[n v] headers IH]; cbn [default_headers]; [done|known]. Qed.

Lemma known_url target : fails_known (quota_url target).
Proof. unfold quota_url, join_source_url. known. Qed.

Lemma known_request target : fails_known (target_request policy secrets env_var target).
Proof. unfold target_request, quota_request. known; first [apply known_url|apply known_headers]. Qed.

Lemma known_parse preset raw now : fails_known (parse_provider_quota preset raw now).
Proof. unfold parse_provider_quota, parse_deepseek, parse_kimi, parse_minimax. known. Qed.

Lemma known_answer preset now answer : fails_known (quota_answer preset now answer).
Proof. unfold quota_answer. known; first [apply known_body|apply known_parse]. Qed.
Lemma parse_keeps preset raw now q : parse_provider_quota preset raw now = Ok q ->
  pq_raw q = raw /\ pq_status_override q ∈ [None; Some "exhausted"; Some "unsupported"].
Proof.
  unfold parse_provider_quota, parse_deepseek, parse_kimi, parse_minimax.
  repeat match goal with
         | |- rbind (ok_or ?o _) _ = _ -> _ => destruct o; cbn [ok_or rbind]
         | |- (if ?b then _ else _) = _ -> _ => destruct b
         end; try done; intros [= <-]; cbn; (split; [done|]); repeat case_match; set_solver.
Qed.

Lemma read_quota_body_ok status broken chunks body r : read_quota_body status broken chunks body = Ok r ->
  slen body <= MAX_QUOTA_RESPONSE_BYTES ->
  broken = None /\ r = body +:+ concat_chunks chunks /\ slen r <= MAX_QUOTA_RESPONSE_BYTES.
Proof.
  revert body. induction chunks as [|c chunks IH]; intros body; cbn [read_quota_body concat_chunks foldr].
  { destruct broken; [done|]. intros [= <-]. by rewrite string_app_nil_r. }
  unfold append_quota_chunk. destruct (Z.ltb_spec MAX_QUOTA_RESPONSE_BYTES (slen body + slen c)); cbn [rbind]; [done|].
  intros Hr _. apply IH in Hr as (? & -> & ?); [|by rewrite slen_app]. split; [done|]. by rewrite string_app_assoc in *.
Qed.

(** An answer that is accepted: complete, successful, small and JSON. *)
Definition accepted (response : DiscoveryResponse) (raw : Value) : Prop :=
  200 <= dp_status response < 300 /\ dp_broken response = None
  /\ slen (concat_chunks (dp_chunks response)) <= 1024 * 1024 /\ from_slice (concat_chunks (dp_chunks response)) = Some raw.

Lemma quota_answer_ok preset now answer q : quota_answer preset now answer = Ok q ->
  exists response, answer = Ok response /\ accepted response (pq_raw q)
    /\ parse_provider_quota preset (pq_raw q) now = Ok q.
Proof.
  unfold quota_answer. destruct answer as [response|]; cbn [map_err rbind]; [|done].
  destruct (negb _) eqn:Es; [done|]. apply negb_false_iff, andb_true_iff in Es as [?%Z.leb_le ?%Z.ltb_lt].
  destruct (is_some_and _ _); [done|]. destruct (read_quota_body _ _ _ _) as [body|] eqn:Eb; cbn [rbind]; [|done].
  apply read_quota_body_ok in Eb as (Hb & -> & Hlen); [|done]. destruct (from_slice _) as [raw|] eqn:Er; cbn [ok_or rbind]; [|done].
  intros Hq. destruct (parse_keeps _ _ _ _ Hq) as [Hraw _]. exists response. split; [done|]. rewrite Hraw. by split.
Qed.

Context {quota_env : QuotaEnv}.

(** What a snapshot may show when its fetch did not fail. *)
Definition shown_ok (target : QuotaTarget) (include_raw : bool) (s : UpstreamQuotaSnapshot) : Prop :=
  us_status s ∈ ["disabled"; "unsupported"; "exhausted"; "low"; "ok"]
  /\ Forall resource_ok (us_resources s)
  /\ forall raw, us_raw s = Some raw -> include_raw = true /\ exists q response,
       target_request policy secrets env_var target = Ok q
       /\ qn_exchange (qt_account_id target) q = Ok response /\ accepted response raw.

Lemma quota_status_values resources : quota_status resources ∈ ["exhausted"; "low"; "ok"].
Proof. unfold quota_status. repeat case_match; set_solver. Qed.

Lemma fetched_ok target include_raw q response provider : target_request policy secrets env_var target = Ok q ->
  qn_exchange (qt_account_id target) q = Ok response -> accepted response (pq_raw provider) ->
  parse_provider_quota (qt_provider_preset_id target) (pq_raw provider) (qn_parsed_at (qt_account_id target)) = Ok provider ->
  forall account fetched attempted latency,
  shown_ok target include_raw
    (mkQuotaSnapshot account (match pq_status_override provider with Some status => status
                              | None => quota_status (pq_resources provider) end)
       (pq_resources provider) fetched attempted latency false None (if include_raw then Some (pq_raw provider) else None)).
Proof.
  intros Hq Hx Ha Hp account fetched attempted latency. destruct (parse_keeps _ _ _ _ Hp) as [_ Ho]. split; [|split]; cbn.
  - destruct (pq_status_override provider); [set_solver|]. pose proof (quota_status_values (pq_resources provider)). set_solver.
  - by eapply parsed_resources_ok.
  - intros raw. destruct include_raw; [|done]. intros [= <-]. split; [done|]. by exists q, response.
Qed.

(** A quota snapshot shows one of two things.  After a failure it shows no
    resource, no fetch time and no upstream value, only a status of two and a
    code with its message from a fixed list, so nothing the upstream sent and
    no credential can appear in it.  Otherwise its status is one of five, its
    resources are sound, and the upstream value appears only where it was asked
    for and then is the whole of an answer of the account's own request that
    was successful, complete and at most 1 MiB. *)
Theorem quota_snapshot_is_sound (target : QuotaTarget) (include_raw : bool) :
  let s := (fetch_snapshot policy secrets env_var target include_raw).1 in
  us_account s = account_view target /\ us_stale s = false
  /\ match us_refresh_error s with
     | Some e => us_resources s = [] /\ us_raw s = None /\ us_fetched_at s = None
         /\ us_status s ∈ ["auth_error"; "refresh_failed"] /\ (qe_code e, qe_message e) ∈ quota_messages
     | None => shown_ok target include_raw s
     end.
Proof.
  cbv zeta. unfold fetch_snapshot. destruct (_ || _).
  { split; [done|]. split; [done|]. cbn. split; [set_solver|]. split; [constructor|]. by intros raw. }
  destruct (negb (supported _)).
  { split; [done|]. split; [done|]. cbn. split; [set_solver|]. split; [constructor|]. by intros raw. }
  assert (forall f, known_failure f = true -> let s := failed_snapshot target f in us_account s = account_view target /\ us_stale s = false
    /\ us_resources s = [] /\ us_raw s = None /\ us_fetched_at s = None
    /\ us_status s ∈ ["auth_error"; "refresh_failed"] /\ (ff_code f, ff_message f) ∈ quota_messages) as Hfail.
  { intros f Hf.
    apply andb_true_iff in Hf as [Hs Hm]. apply existsb_exists in Hs as (x & Hx & Hs%String.eqb_eq).
    apply existsb_exists in Hm as ([c m] & Hm & [Hc%String.eqb_eq Hm'%String.eqb_eq]%andb_true_iff).
    cbn in Hc, Hm'. subst. cbn. split_and!; try done; by apply list_elem_of_In. }
  unfold fetch_provider_quota. pose proof (known_request target) as Hreq. unfold target_request in Hreq.
  destruct (resolve_account _ _ _ _ _ _ _) as [credential|e] eqn:Ec; cbn [map_err rbind] in Hreq.
  2: { by apply Hfail. }
  destruct (quota_request _ _ _) as [q|f] eqn:Eq.
  2: { by apply Hfail. }
  pose proof (known_answer (qt_provider_preset_id target) (qn_parsed_at (qt_account_id target)) (qn_exchange (qt_account_id target) q)) as Hans.
  destruct (quota_answer _ _ _) as [provider|f] eqn:E; [|by apply Hfail].
  split; [done|]. split; [done|]. cbn [us_refresh_error fetched_snapshot].
  apply quota_answer_ok in E as (response & Hx & Ha & Hp). eapply fetched_ok; try done. unfold target_request. by rewrite Ec.
Qed.
End Shown.

(** ** The list *)

Section Listed.
Context `{UrlCrates} `{PresetSerde} `{HttpNames} `{SerdeJson} `{Rfc3339} `{QuotaTime} `{Crypto} {quota_env : QuotaEnv}.
Context (policy : SourceUrlPolicy) (secrets : SecretResolver) (env_var : string -> option string).

Definition without_raw (s : UpstreamQuotaSnapshot) : UpstreamQuotaSnapshot :=
  mkQuotaSnapshot (us_account s) (us_status s) (us_resources s) (us_fetched_at s) (us_attempted_at s) (us_latency_ms s)
    (us_stale s) (us_refresh_error s) None.

Lemma fetch_without_raw target :
  fetch_snapshot policy secrets env_var target false
  = (without_raw (fetch_snapshot policy secrets env_var target true).1, (fetch_snapshot policy secrets env_var target true).2).
Proof. unfold fetch_snapshot, fetch_provider_quota, fetched_snapshot. repeat case_match; by simplify_eq. Qed.

Lemma fetch_account target include_raw :
  us_account (fetch_snapshot policy secrets env_var target include_raw).1 = account_view target.
Proof. unfold fetch_snapshot, fetch_provider_quota. repeat case_match; by simplify_eq. Qed.

Definition quota_key (s : UpstreamQuotaSnapshot) : string * (string * string) :=
  (qv_source_display_name (us_account s), (qv_account_display_name (us_account s), qv_account_id (us_account s))).

(** The list of quotas is complete and says what the single lookups say: it
    has exactly one snapshot for every account with a source, the one [get]
    gives for it without the upstream value, in the order of the source's name,
    the account's name and the account's id. *)
Theorem quota_list_is_complete (text_order : Ordered string) (db : CatalogDb) :
  let l := (list_quotas policy secrets env_var text_order db).1 in
  NoDup (map (fun s => qv_account_id (us_account s)) l)
  /\ (forall s, s ∈ l <-> exists id s', (get_quota policy secrets env_var db id).1 = Some s' /\ s = without_raw s')
  /\ StronglySorted (@klt _ (@prod_Ordered _ _ text_order (@prod_Ordered _ _ text_order text_order))) (map quota_key l).
Proof.
  cbv zeta. assert ((list_quotas policy secrets env_var text_order db).1
    = map (fun t => (fetch_snapshot policy secrets env_var t false).1) (list_targets text_order db)) as ->
    by (unfold list_quotas; cbn [fst]; by rewrite map_map).
  split; [|split].
  - rewrite map_map, (List.map_ext _ qt_account_id); [apply targets_distinct|]. intros t. by rewrite fetch_account.
  - intros s. rewrite list_elem_of_fmap. unfold get_quota. split.
    + intros (t & -> & Ht%elem_of_targets). exists (qt_account_id t). rewrite Ht, fetch_without_raw.
      destruct (fetch_snapshot _ _ _ t true) as [s' sent]. by exists s'.
    + intros (id & s' & Hs & ->). destruct (get_target db id) as [t|] eqn:Et; [|done].
      destruct (fetch_snapshot _ _ _ t true) as [s2 sent] eqn:Ef. cbn in Hs. injection Hs as <-.
      exists t. split; [by rewrite fetch_without_raw, Ef|]. apply elem_of_targets. by rewrite (get_target_id _ _ _ Et).
  - rewrite map_map. rewrite (List.map_ext _ target_key); [|intros t; unfold quota_key; by rewrite fetch_account].
    apply sort_by_strict. apply (NoDup_fmap_1 (fun k => k.2.2)). rewrite map_map. cbn [target_key snd].
    apply omap_target_ids, NoDup_fst_map_to_list.
Qed.
End Listed.

(** ** Concrete quotas *)

Definition num (n : N) : Value := VNumber (PosInt n).

Definition example_quota_time : QuotaTime :=
  {| from_timestamp_millis := Some; from_timestamp := fun s => Some (s * 1000); add_millis := fun now ms => Some (now + ms) |}.

#[local] Existing Instances example_rfc example_quota_time.

(** A quarter of the window is left, and a tenth of a percent of the week. *)
Definition kimi_answer : Value :=
  VObject [("limits", VArray [VObject [("detail", VObject [("limit", VString "200"); ("remaining", num 50)]);
                                       ("window", VObject [("duration", num 5); ("timeUnit", VString "TIME_UNIT_HOUR")])]]);
           ("usage", VObject [("limit", num 1000); ("used", num 999)])].

Example kimi_shown : match parse_provider_quota "kimi_code" kimi_answer 0 with
  | Ok q => map (fun r => (qr_key r, qr_used r)) (pq_resources q) = [("5h", Some (f_of_int 75)); ("7d", parse_f64 "99.9")]
            /\ quota_status (pq_resources q) = "low"
  | Err _ => False end.
Proof. vm_compute. split; reflexivity. Qed.

Example minimax_shown : match parse_provider_quota "minimax"
    (VObject [("model_remains", VArray [VObject [("current_interval_remaining_percent", VNumber (Float "-3.5"));
                                                 ("end_time", num 2000000000)]])]) 0 with
  | Ok q => map qr_remaining (pq_resources q) = [Some f0] /\ map qr_reset_at (pq_resources q) = [Some 2000000000000]
            /\ quota_status (pq_resources q) = "exhausted"
  | Err _ => False end.
Proof. vm_compute. repeat split; reflexivity. Qed.

(** Numbers of any size stay percentages. *)
Example huge_numbers : match parse_provider_quota "kimi_code"
    (VObject [("usage", VObject [("limit", VString "1e-300"); ("used", VString "1e300")])]) 0 with
  | Ok q => map qr_used (pq_resources q) = [Some f100] /\ map qr_remaining (pq_resources q) = [Some f0]
  | Err _ => False end.
Proof. vm_compute. split; reflexivity. Qed.

Lemma parsed_quota_correct_witness : exists q, parse_provider_quota "kimi_code" kimi_answer 0 = Ok q
  /\ pq_resources q <> [] /\ Forall resource_ok (pq_resources q).
Proof.
  destruct (parse_provider_quota "kimi_code" kimi_answer 0) as [q|] eqn:E; [|vm_compute in E; discriminate].
  exists q. split; [reflexivity|]. split; [intros Hq; vm_compute in E; injection E as <-; discriminate Hq|].
  exact (proj1 (parsed_quota_correct "kimi_code" kimi_answer 0 q E)).
Defined.

(** The network answers the right address only. *)
Definition kimi_network (_ : string) (q : DiscoveryRequest) : result DiscoveryResponse HttpFailure :=
  if url_text (dq_url q) =?s "https://upstream/v1/usages"
  then Ok (mkDiscoveryResponse 200 None [Concrete.print kimi_answer] None) else Err HfTimeout.

Definition example_quota_env : QuotaEnv :=
  {| qn_attempted_at := fun _ => 0; qn_fetched_at := fun _ => 1; qn_parsed_at := fun _ => 1; qn_latency_ms := fun _ => 5;
     qn_exchange := kimi_network |}.

(** Two accounts, of which one is disabled. *)
Definition example_quota_account (enabled : bool) : AccountRow :=
  mkAccountRow "source" "Account" (Some "KEY") None enabled 100
    (mkHealthColumns "unknown" "unknown" (Some 0) 0 None None None None None None None) 0 0.
Definition example_quota_db : CatalogDb :=
  mkCatalogDb ∅ ∅
    {[ "source" := mkSourceRecord "source" "Source" "kimi_code" 1 (VObject []) "https://upstream" (VObject []) (VObject [])
                     (VObject []) true 0 0 ]}
    {[ "account" := example_quota_account true; "off" := example_quota_account false ]} ∅ ∅ [] [].

Lemma quota_requests_are_safe_witness :
  let crates := any_url in let serde := example_serde in let names : HttpNames := Some in let json := json_concrete in
  let crypto := mock_crypto in let env_var := fun name : string => Some (name +:+ "-secret") in
  let env := example_quota_env in
  let answers := list_quotas example_policy mock_resolver env_var string_Ordered example_quota_db in
  map us_status answers.1 = ["low"; "disabled"] /\ map fst answers.2 = ["account"]
  /\ Forall (fun kq => exists target, get_target example_quota_db kq.1 = Some target
       /\ safe_quota_request example_policy mock_resolver env_var target kq.2) answers.2.
Proof.
  intros crates serde names json crypto env_var env answers. split; [vm_compute; reflexivity|]. split; [vm_compute; reflexivity|].
  apply Forall_forall. intros [id q] Hin.
  exact (proj1 (proj2 (quota_requests_are_safe example_policy mock_resolver env_var string_Ordered example_quota_db)) id q Hin).
Defined.
