(* ===== verification/Validation.v ===== *)
(** * The inputs of the control plane: [src/src/control_plane/types.rs],
      [error.rs] and the checks of [validation.rs] that read no table

    The write requests and views of the API, the error type of every operation
    with its codes and texts, and the input checks with all their messages.
    The message of a [serde_json] or of a database error is a parameter. *)

From Stdlib Require Import ZArith Lia.
From stdpp Require Import base list strings.
From S2P Require Import Prelude.
From S2P Require Import RustStr.
From S2P Require Import Protocol.
From S2P Require Import BTree.
From S2P Require Import Tx.
From S2P Require Import Config.
From S2P Require Import SourceUrl.
From S2P Require Import Json.
From S2P Require Import Catalog.
From S2P Require Import Presets.
From S2P Require Import PresetDiff.
From S2P Require Import ModelCatalog.
From S2P Require Import Snapshot.
From S2P Require Import Secrets.

(** ** Requests and views *)

Record SourceWrite : Type := mkSourceWrite {
  sw_id : string;
  sw_display_name : string;
  sw_provider_preset_id : string;
  sw_provider_preset_version : Z;              (** [i32] *)
  sw_base_url : string;
  sw_endpoints : Endpoints;
  sw_auth_config : Value;
  sw_protocol_capabilities : Value;
  sw_enabled : bool;
}.

Record SourceCreateWrite : Type := mkSourceCreateWrite {
  sn_id : string;
  sn_display_name : string;
  sn_provider_preset_id : string;
  sn_provider_preset_version : option Z;
  sn_base_url : option string;
  sn_endpoints : option Endpoints;
  sn_endpoint_overrides : Endpoints;
  sn_auth_config : option Value;
  sn_protocol_capabilities : option Value;
  sn_enabled : bool;
}.

Record AccountWrite : Type := mkAccountWrite {
  aw_id : string;
  aw_source_id : string;
  aw_display_name : string;
  aw_credential_env : option string;
  aw_credential_ciphertext : option string;
  aw_enabled : bool;
  aw_weight : Z;                               (** [i32] *)
}.

Record AccountView : Type := mkAccountView {
  av_id : string;
  av_source_id : string;
  av_display_name : string;
  av_credential_env : option string;
  av_credential_configured : bool;
  av_enabled : bool;
  av_weight : Z;
  av_health_status : string;
  av_health_source : string;
  av_health_updated_at : option Z;
  av_consecutive_failures : Z;
  av_cooldown_until : option Z;
  av_last_error : option string;
  av_last_success_at : option Z;
  av_last_probe_at : option Z;
  av_last_probe_status : option string;
  av_last_probe_error : option string;
  av_created_at : Z;
  av_updated_at : Z;
}.

Record LogicalModelWrite : Type := mkLogicalModelWrite {
  lw_id : string;
  lw_public_name : string;
  lw_display_name : string;
  lw_status : CatalogStatus;
  lw_metadata : Value;
  lw_field_sources : Value;
  lw_enabled : bool;
}.

(** The view of a logical model has every column the control plane writes: it
    is also the row. *)
Record LogicalModelView : Type := mkLogicalModelView {
  lv_id : string;
  lv_public_name : string;
  lv_display_name : string;
  lv_status : CatalogStatus;
  lv_metadata : Value;
  lv_field_sources : Value;
  lv_enabled : bool;
  lv_request_timeout_ms : option Z;            (** [i64] *)
  lv_max_retries : option Z;                   (** [i32] *)
  lv_confirmed_at : option Z;
  lv_unavailable_at : option Z;
  lv_created_at : Z;
  lv_updated_at : Z;
}.

Record ModelRoutingLineWrite : Type := mkModelRoutingLineWrite {
  rl_source_id : string;
  rl_account_id : string;
  rl_upstream_model_id : string;
}.

#[global] Instance ModelRoutingLineWrite_eq_dec : EqDecision ModelRoutingLineWrite.
Proof. solve_decision. Defined.

Record ModelRoutingWrite : Type := mkModelRoutingWrite {
  rw_public_name : string;
  rw_display_name : string;
  rw_enabled : bool;
  rw_lines : list ModelRoutingLineWrite;
  rw_request_timeout_ms : option Z;
  rw_max_retries : option Z;
}.

Record ModelRoutingLineView : Type := mkModelRoutingLineView {
  rv_source_id : string;
  rv_account_id : string;
  rv_upstream_model_id : string;
  rv_protocols : list Protocol;
}.

Record ModelRoutingView : Type := mkModelRoutingView {
  mv_logical_model : LogicalModelView;
  mv_lines : list ModelRoutingLineView;
  mv_protocols : list Protocol;
  mv_strategy : string;
  mv_request_timeout_ms : option Z;
  mv_max_retries : option Z;
}.

Record ModelBindingWrite : Type := mkModelBindingWrite {
  bw_logical_model_id : string;
  bw_source_id : string;
  bw_account_id : string;
  bw_upstream_model_id : string;
  bw_protocol : Protocol;
  bw_status : CatalogStatus;
  bw_enabled : bool;
  bw_priority : Z;                             (** [i32] *)
}.

(** Also the row of [model_bindings]. *)
Record ModelBindingView : Type := mkModelBindingView {
  bv_id : Z;
  bv_logical_model_id : string;
  bv_source_id : string;
  bv_account_id : string;
  bv_upstream_model_id : string;
  bv_protocol : Protocol;
  bv_status : CatalogStatus;
  bv_enabled : bool;
  bv_priority : Z;
  bv_confirmed_at : option Z;
  bv_unavailable_at : option Z;
  bv_created_at : Z;
  bv_updated_at : Z;
}.

Record RouteWrite : Type := mkRouteWrite {
  tw_id : string;
  tw_logical_model_id : string;
  tw_protocols : list Protocol;
  tw_strategy : string;
  tw_allow_lossy_conversion : bool;
  tw_enabled : bool;
}.

Record RouteView : Type := mkRouteView {
  tv_id : string;
  tv_logical_model_id : string;
  tv_public_name : string;
  tv_protocols : Value;
  tv_strategy : string;
  tv_allow_lossy_conversion : bool;
  tv_enabled : bool;
  tv_created_at : Z;
  tv_updated_at : Z;
}.

Record Mutation (T : Type) : Type := mkMutation { mu_record : T; mu_snapshot : RuntimeSnapshot }.
#[global] Arguments mkMutation {T} mu_record mu_snapshot.
#[global] Arguments mu_record {T} m.
#[global] Arguments mu_snapshot {T} m.

Definition default_custom_preset : string := "custom".
Definition default_preset_version : Z := 1.

(** ** Errors *)

(** The texts of the database and of [serde_json], by what was read. *)
Class ErrorTexts : Type := {
  database_text : SqlxError -> string;
  matrix_error : Value -> string;
  endpoints_error : Value -> string;
  protocols_error : Value -> string;
  preset_error : Value -> string;
  snapshot_error : Value -> string;
}.

Inductive ControlPlaneError : Type :=
| CpDatabase (error : SqlxError) | CpJson (error : string) | CpNotFound (message : string)
| CpConflict (message : string) | CpValidation (errors : list string)
| CpCredential (error : SecretResolverError) | CpNoCiphertext.

Definition control_error_code (self : ControlPlaneError) : string :=
  match self with
  | CpDatabase _ => "database_error"
  | CpJson _ | CpValidation _ => "validation_failed"
  | CpNotFound _ => "not_found"
  | CpConflict _ => "conflict"
  | CpCredential error => secret_error_code error
  | CpNoCiphertext => "no_ciphertext"
  end.

Section Texts.
Context `{ErrorTexts}.

(** [Display]; [message] gives the same text. *)
Definition control_error_message (self : ControlPlaneError) : string :=
  match self with
  | CpDatabase error => "database error: " +:+ database_text error
  | CpJson error => "JSON error: " +:+ error
  | CpNotFound message | CpConflict message => message
  | CpValidation errors => join "; " errors
  | CpCredential error => secret_public_message error
  | CpNoCiphertext => "account does not have an encrypted credential"
  end.

(** [From<sqlx::Error>]: a duplicate key is a conflict, a violated reference or
    check a validation error. *)
Definition of_sqlx (value : SqlxError) : ControlPlaneError :=
  match value with
  | UniqueViolation => CpConflict (database_text value)
  | ForeignKeyViolation | CheckViolation => CpValidation [database_text value]
  | RowNotFound => CpDatabase value
  end.

(** [From<CatalogError>]. *)
Definition of_catalog (error : CatalogError) : ControlPlaneError :=
  match error with
  | CtDatabase error => CpDatabase error
  | CtJson error => CpJson error
  | CtNotFound message => CpNotFound message
  | CtInvalidMetadata message | CtInvalidState message | CtImmutableVersionConflict message =>
      CpValidation [message]
  end.
End Texts.

(** ** Reading a protocol matrix *)

(** A unit variant: its name, or an object with the name and [null]. *)
Definition unit_variant {A} (of_name : string -> option A) (v : Value) : option A :=
  match v with
  | VString name => of_name name
  | VObject [(name, VNull)] => of_name name
  | _ => None
  end.

Definition ProtocolMode_of_name (name : string) : option ProtocolMode :=
  if name =?s "native" then Some PNative
  else if name =?s "adapter" then Some PAdapter
  else if name =?s "unsupported" then Some PUnsupported else None.

(** An optional field with [#[serde(default)]]: missing and [null] are [None]. *)
Definition option_field {A} (read : Value -> option A) (m : Map) (key : string) : option (option A) :=
  match hm_get m key with
  | None | Some VNull => Some None
  | Some v => option_map Some (read v)
  end.

(** The untagged [Repr]: a mode, or its fields. *)
Definition ProtocolCapability_from_value (v : Value) : option ProtocolCapability :=
  match unit_variant ProtocolMode_of_name v with
  | Some mode => Some (mkProtocolCapability mode None None)
  | None =>
      match v with
      | VObject m =>
          match hm_get m "mode" ≫= unit_variant ProtocolMode_of_name,
                option_field Protocol_from_value m "source_protocol", option_field as_str m "adapter" with
          | Some mode, Some source_protocol, Some adapter => Some (mkProtocolCapability mode source_protocol adapter)
          | _, _, _ => None
          end
      | _ => None
      end
  end.

(** [from_value::<ProtocolCapabilityMatrix>]. *)
Fixpoint matrix_from_fields (l : Map) : option ProtocolCapabilityMatrix :=
  match l with
  | [] => Some []
  | (name, v) :: l =>
      match Protocol_of_name name, ProtocolCapability_from_value v, matrix_from_fields l with
      | Some p, Some capability, Some m => Some (hm_insert m p capability)
      | _, _, _ => None
      end
  end.
Definition matrix_from_value (v : Value) : option ProtocolCapabilityMatrix :=
  match v with VObject m => matrix_from_fields m | _ => None end.

(** ** Input checks *)

(** [if errors.is_empty() { Ok(()) } else { Err(Validation(errors)) }]. *)
Definition no_errors (errors : list string) : result unit ControlPlaneError :=
  match errors with [] => Ok tt | _ => Err (CpValidation errors) end.

(** What is pushed when a condition holds. *)
Definition when (b : bool) (message : string) : list string := if b then [message] else [].

Definition validate_resource_id (path body kind : string) : result unit ControlPlaneError :=
  if negb (path =?s body) then Err (CpValidation [kind +:+ " id in path and body must match"]) else Ok tt.

(** What it pushes. *)
Definition validate_nonempty (value field : string) : list string :=
  when (is_empty (trim value)) (field +:+ " must not be empty").

Definition normalize_object (value : Value) (field : string) : result Value ControlPlaneError :=
  match value with
  | VNull => Ok (VObject [])
  | VObject _ => Ok value
  | _ => Err (CpValidation [field +:+ " must be a JSON object"])
  end.

(** [!value.is_null() && !value.is_object()]. *)
Definition not_an_object (value : Value) : bool := negb (is_null value) && negb (is_object value).

Definition source_url_validation_message (field : string) (error : SourceUrlPolicyError) : string :=
  match error with
  | InvalidUrl => field +:+ " must be an http(s) URL without credentials, query, or fragment"
  | _ => field +:+ " is blocked by the server Source URL policy"
  end.

Definition err_of {A E} (r : result A E) : option E := match r with Ok _ => None | Err e => Some e end.

Section SourceInput.
Context `{BuildCfg} `{UrlCrates} `{ErrorTexts}.

(** The provider and the configuration the source is checked as. *)
Definition source_as_provider (input : SourceWrite) (matrix : ProtocolCapabilityMatrix) : ProviderConfig :=
  mkProviderConfig (sw_id input) (sw_display_name input) (sw_base_url input) [] [] (sw_endpoints input)
    Capabilities_default matrix [].
Definition source_as_config (input : SourceWrite) (matrix : ProtocolCapabilityMatrix) : GatewayConfig :=
  mkGatewayConfig "127.0.0.1:0" [source_as_provider input matrix] [] [].

Definition validate_source_input (input : SourceWrite) (source_url_policy : SourceUrlPolicy)
    : result unit ControlPlaneError :=
  let matrix := matrix_from_value (sw_protocol_capabilities input) in
  no_errors
    (validate_nonempty (sw_id input) "source.id"
     ++ validate_nonempty (sw_display_name input) "source.display_name"
     ++ validate_nonempty (sw_provider_preset_id input) "source.provider_preset_id"
     ++ when (sw_provider_preset_version input <=? 0) "source.provider_preset_version must be positive"
     ++ match validate_base_url source_url_policy (sw_base_url input) with
        | Err error => [source_url_validation_message "source.base_url" error]
        | Ok _ => []
        end
     ++ when (not_an_object (sw_auth_config input)) "source.auth_config must be a JSON object"
     ++ when (not_an_object (sw_protocol_capabilities input))
          "source.protocol_capabilities must be a JSON object"
     ++ flat_map (fun e : Protocol * string =>
          when (is_empty (trim e.2)) ("source.endpoints." +:+ Protocol_to_string e.1 +:+ " must not be empty"))
          (sw_endpoints input)
     ++ match matrix with
        | Some _ => []
        | None => ["source.protocol_capabilities is invalid: " +:+ matrix_error (sw_protocol_capabilities input)]
        end
     ++ unwrap_or (err_of (Config.validate (source_as_config input (unwrap_or matrix [])))) []).

(** The default of the field, [null], passes the shape check but is not a
    matrix: an input without capabilities is refused. *)
Lemma null_capabilities_refused input policy :
  sw_protocol_capabilities input = VNull ->
  exists errors, validate_source_input input policy = Err (CpValidation errors)
    /\ "source.protocol_capabilities is invalid: " +:+ matrix_error VNull ∈ errors.
Proof.
  intros Hn. unfold validate_source_input. rewrite Hn. cbn [matrix_from_value].
  match goal with |- context [no_errors ?l] => set (errors := l) end.
  assert ("source.protocol_capabilities is invalid: " +:+ matrix_error VNull ∈ errors) as Hin
    by (unfold errors; rewrite !elem_of_app; do 8 right; left; left).
  exists errors. split; [|done]. destruct errors; [by apply elem_of_nil in Hin|done].
Qed.
End SourceInput.

Definition validate_account_input (input : AccountWrite) : result unit ControlPlaneError :=
  let env_set := is_some_and (aw_credential_env input) not_blank in
  let encrypted_set := is_some_and (aw_credential_ciphertext input) not_blank in
  no_errors
    (validate_nonempty (aw_id input) "account.id"
     ++ validate_nonempty (aw_source_id input) "account.source_id"
     ++ validate_nonempty (aw_display_name input) "account.display_name"
     ++ when (aw_weight input <=? 0) "account.weight must be positive"
     ++ when (Bool.eqb env_set encrypted_set)
          "account must set exactly one of credential_env or credential_ciphertext").

Definition validate_logical_model_input (input : LogicalModelWrite) : result unit ControlPlaneError :=
  no_errors
    (validate_nonempty (lw_id input) "logical_model.id"
     ++ validate_nonempty (lw_public_name input) "logical_model.public_name"
     ++ validate_nonempty (lw_display_name input) "logical_model.display_name"
     ++ when (not_an_object (lw_metadata input)) "logical_model.metadata must be a JSON object"
     ++ when (not_an_object (lw_field_sources input)) "logical_model.field_sources must be a JSON object").

Definition validate_binding_input_shape (input : ModelBindingWrite) : result unit ControlPlaneError :=
  no_errors
    (validate_nonempty (bw_logical_model_id input) "model_binding.logical_model_id"
     ++ validate_nonempty (bw_source_id input) "model_binding.source_id"
     ++ validate_nonempty (bw_account_id input) "model_binding.account_id"
     ++ validate_nonempty (bw_upstream_model_id input) "model_binding.upstream_model_id").

(** [Vec::dedup]. *)
Fixpoint dedup {A} `{EqDecision A} (l : list A) : list A :=
  match l with
  | x :: (y :: _) as l' => if decide (x = y) then dedup l' else x :: dedup l'
  | _ => l
  end.

Definition validate_route_input_shape (input : RouteWrite) : result unit ControlPlaneError :=
  let deduplicated := dedup (sort_by Protocol_to_string (tw_protocols input)) in
  no_errors
    (validate_nonempty (tw_id input) "route.id"
     ++ validate_nonempty (tw_logical_model_id input) "route.logical_model_id"
     ++ validate_nonempty (tw_strategy input) "route.strategy"
     ++ when (bool_decide (tw_protocols input = [])) "route.protocols must contain at least one protocol"
     ++ when (negb (Nat.eqb (length deduplicated) (length (tw_protocols input))))
          "route.protocols must not contain duplicates").

Definition validate_status_transition (current next : CatalogStatus) (kind : string)
    : result unit ControlPlaneError :=
  if negb (can_transition_to current next)
  then Err (CpValidation [kind +:+ " status cannot transition from " +:+ CatalogStatus_debug current +:+ " to "
              +:+ CatalogStatus_debug next +:+ "; move unavailable records to pending before reconfirming"])
  else Ok tt.

(** ** Feature capabilities from metadata: [bindings.rs] *)

Definition CapabilitySupport_of_name (name : string) : option CapabilitySupport :=
  if name =?s "supported" then Some Supported
  else if name =?s "unsupported" then Some Unsupported
  else if name =?s "unknown" then Some Unknown else None.

Definition FEATURE_KEYS : list string :=
  ["tools"; "thinking"; "web_search"; "structured_output"; "streaming"; "usage"].

Definition feature_support (metadata : Value) (key : string) : option (string * CapabilitySupport) :=
  match Json.get metadata key ≫= as_str with
  | Some name => option_map (pair key) (CapabilitySupport_of_name name)
  | None => None
  end.

Definition derive_feature_capabilities (metadata : Value) : list (string * CapabilitySupport) :=
  let capabilities :=
    bt_collect (omap (feature_support metadata) FEATURE_KEYS) in
  match opt_filter (forallb (fun v => is_some (as_str v))) (Json.get metadata "input_modalities" ≫= as_array) with
  | Some modalities =>
      let supports_images := existsb (fun v => bool_decide (as_str v = Some "image")) modalities in
      bt_insert capabilities "vision" (if supports_images then Supported else Unsupported)
  | None => capabilities
  end.
