(* ===== verification/ControlDb.v ===== *)
(** * The tables of the control plane: [src/src/control_plane/repository.rs],
      [service.rs], the checks of [validation.rs] that read tables, and the
      query of [snapshot.rs]

    The tables with the statements on them.  A statement fails exactly where a
    constraint of the schema ([src/migrations]) rejects it: a trigger, a
    [CHECK], a unique key and a foreign key, in this order.  A write
    transaction ends in [finish_write]: the whole control plane is checked, the
    revision is advanced and the next snapshot is built, or nothing happens.
    Transactions are serializable, so a sequence of operations is a sequence of
    states.  A binding's id is the next value of its sequence. *)

From Stdlib Require Import ZArith Lia.
From stdpp Require Import base list strings gmap.
From S2P Require Import Prelude.
From S2P Require Import RustStr.
From S2P Require Import Protocol.
From S2P Require Import BTree.
From S2P Require Import Tx.
From S2P Require Import Config.
From S2P Require Import SourceUrl.
From S2P Require Import Json.
From S2P Require Import Catalog.
From S2P Require Import Presets.
From S2P Require Import PresetDiff.
From S2P Require Import ModelCatalog.
From S2P Require Import Snapshot.
From S2P Require Import Secrets.
From S2P Require Import Validation.

(** ** Tables *)

Record RouteRow : Type := mkRouteRow {
  ro_id : string;
  ro_logical_model_id : string;
  ro_model_pattern : string;
  ro_protocols : Value;
  ro_strategy : string;
  ro_allow_lossy_conversion : bool;
  ro_enabled : bool;
  ro_created_at : Z;
  ro_updated_at : Z;
}.

(** A row of [account_health_events] as an operator's change writes it. *)
Record HealthEventRow : Type := mkHealthEventRow {
  hv_account_id : string;
  hv_status : string;
  hv_source : string;
  hv_observed_at : Z;
  hv_cooldown_until : option Z;
  hv_consecutive_failures : Z;
}.

Record ControlDb : Type := mkControlDb {
  db_catalog : CatalogDb;
  db_logical_models : gmap string LogicalModelView;
  db_bindings : gmap Z ModelBindingView;
  db_routes : gmap string RouteRow;
  db_health_events : list HealthEventRow;
  db_binding_seq : Z;
  db_revision : Z;                          (** [runtime_snapshot_state] *)
  db_updated_at : Z;
}.

Definition set_catalog (db : ControlDb) (t : CatalogDb) : ControlDb :=
  mkControlDb t (db_logical_models db) (db_bindings db) (db_routes db) (db_health_events db)
    (db_binding_seq db) (db_revision db) (db_updated_at db).
Definition set_logical_models (db : ControlDb) t : ControlDb :=
  mkControlDb (db_catalog db) t (db_bindings db) (db_routes db) (db_health_events db)
    (db_binding_seq db) (db_revision db) (db_updated_at db).
Definition set_bindings (db : ControlDb) t (seq : Z) : ControlDb :=
  mkControlDb (db_catalog db) (db_logical_models db) t (db_routes db) (db_health_events db)
    seq (db_revision db) (db_updated_at db).
Definition set_routes (db : ControlDb) t : ControlDb :=
  mkControlDb (db_catalog db) (db_logical_models db) (db_bindings db) t (db_health_events db)
    (db_binding_seq db) (db_revision db) (db_updated_at db).
Definition set_health_events (db : ControlDb) t : ControlDb :=
  mkControlDb (db_catalog db) (db_logical_models db) (db_bindings db) (db_routes db) t
    (db_binding_seq db) (db_revision db) (db_updated_at db).
Definition set_revision (db : ControlDb) (revision updated_at : Z) : ControlDb :=
  mkControlDb (db_catalog db) (db_logical_models db) (db_bindings db) (db_routes db) (db_health_events db)
    (db_binding_seq db) revision updated_at.

Definition set_sources_table (c : CatalogDb) t : CatalogDb :=
  mkCatalogDb (cd_provider_presets c) (cd_model_presets c) t (cd_accounts c) (cd_source_models c)
    (cd_capabilities c) (cd_runs c) (cd_tests c).
Definition set_accounts_table (c : CatalogDb) t : CatalogDb :=
  mkCatalogDb (cd_provider_presets c) (cd_model_presets c) (cd_sources c) t (cd_source_models c)
    (cd_capabilities c) (cd_runs c) (cd_tests c).

Definition db_sources (db : ControlDb) : gmap string SourceRecord := cd_sources (db_catalog db).
Definition db_accounts (db : ControlDb) : gmap string AccountRow := cd_accounts (db_catalog db).
Definition set_sources (db : ControlDb) t : ControlDb := set_catalog db (set_sources_table (db_catalog db) t).
Definition set_accounts (db : ControlDb) t : ControlDb := set_catalog db (set_accounts_table (db_catalog db) t).

Abbreviation ControlTx := (Tx ControlDb ControlPlaneError).

(** The clocks, the random ids and PostgreSQL's choice of a row under [LIMIT 1]
    without [ORDER BY]. *)
Class ControlEnv : Type := {
  ce_now : Z;                               (** [NOW()] *)
  ce_utc : Z;                               (** [Utc::now()] *)
  ce_clock : Z;                             (** [clock_timestamp()] *)
  ce_model_uuid : string;                   (** [Uuid::new_v4()] *)
  ce_route_uuid : string;
  ce_any : list string -> option string;
}.

(** One of the rows, if there is one. *)
Class AnyRow `{ControlEnv} : Prop := {
  any_in : forall l x, ce_any l = Some x -> x ∈ l;
  any_none : forall l, ce_any l = None -> l = [];
}.

(** [ControlPlane]: its address and its URL policy; the pool is the state. *)
Record ControlPlane : Type := mkControlPlane {
  cp_listen_addr : string;
  cp_source_url_policy : SourceUrlPolicy;
}.

(** ** Statements *)

Definition values {K A} `{Countable K} (m : gmap K A) : list A := (map_to_list m).*2.

Section Statements.
Context `{ErrorTexts}.

Definition sql_fail {A} (error : SqlxError) : ControlTx A := tx_fail (of_sqlx error).

(** A constraint: the statement fails unless it holds. *)
Definition sql_check (f : ControlDb -> bool) (error : SqlxError) : ControlTx unit := fun db =>
  if f db then Ok (tt, db) else sql_fail error db.

(** A query whose result decides. *)
Definition tx_query {A} (f : ControlDb -> result A ControlPlaneError) : ControlTx A := fun db => tx_of (f db) db.

(** A repository operation inside the transaction. *)
Definition in_catalog {A} (m : CatalogTx A) : ControlTx A := fun db =>
  match m (db_catalog db) with
  | Ok (x, c) => Ok (x, set_catalog db c)
  | Err e => Err (of_catalog e)
  end.

Definition preset_present (db : ControlDb) (id : string) (version : Z) : bool :=
  is_some (cd_provider_presets (db_catalog db) !! (id, version)).

Definition insert_source (row : SourceRecord) : ControlTx unit :=
  let$ _ := sql_check (fun db => negb (is_some (db_sources db !! so_id row))) UniqueViolation in
  let$ _ := sql_check (fun db => preset_present db (so_provider_preset_id row) (so_provider_preset_version row))
              ForeignKeyViolation in
  tx_write (fun db => set_sources db (<[so_id row := row]> (db_sources db))).

(** [UPDATE sources SET .. WHERE id = $1 RETURNING ..]. *)
Definition update_source_row (id : string) (f : SourceRecord -> SourceRecord) : ControlTx SourceRecord :=
  let$ row := tx_query (fun db => ok_or (db_sources db !! id) (of_sqlx RowNotFound)) in
  let$ _ := tx_write (fun db => set_sources db (<[id := f row]> (db_sources db))) in
  tx_ret (f row).

(** Runs and tests forget accounts that are gone ([ON DELETE SET NULL]). *)
Definition forget_run (gone : string -> bool) (r : DiscoveryRunRecord) : DiscoveryRunRecord :=
  mkDiscoveryRunRecord (dr_id r) (dr_source_id r) (opt_filter (fun a => negb (gone a)) (dr_account_id r))
    (dr_provider_preset_id r) (dr_provider_preset_version r) (dr_status r) (dr_raw_snapshot r) (dr_diff r)
    (dr_discovered_model_count r) (dr_http_status r) (dr_latency_ms r) (dr_error_code r) (dr_error_message r)
    (dr_requested_by r) (dr_started_at r) (dr_completed_at r).
Definition forget_test (gone : string -> bool) (r : ConnectionTestRecord) : ConnectionTestRecord :=
  mkConnectionTestRecord (cr_id r) (cr_source_id r) (opt_filter (fun a => negb (gone a)) (cr_account_id r))
    (cr_protocol r) (cr_upstream_protocol r) (cr_mode r) (cr_status r) (cr_http_status r) (cr_latency_ms r)
    (cr_error_code r) (cr_error_message r) (cr_requested_by r) (cr_tested_at r).

(** The cascade of a deleted source: its accounts, models, capabilities, runs
    and tests, and the bindings and events that refer to them. *)
Definition catalog_without_source (c : CatalogDb) (id : string) : CatalogDb :=
  let gone := fun a => is_some_and (cd_accounts c !! a) (fun row => ax_source_id row =?s id) in
  mkCatalogDb (cd_provider_presets c) (cd_model_presets c) (delete id (cd_sources c))
    (filter (fun kv => ax_source_id kv.2 <> id) (cd_accounts c))
    (filter (fun kv => kv.1.1 <> id) (cd_source_models c))
    (filter (fun kv => kv.1.1.1 <> id) (cd_capabilities c))
    (map (forget_run gone) (filter (fun r => dr_source_id r <> id) (cd_runs c)))
    (map (forget_test gone) (filter (fun r => cr_source_id r <> id) (cd_tests c))).

Definition without_source (db : ControlDb) (id : string) : ControlDb :=
  let accounts := filter (fun kv => ax_source_id kv.2 <> id) (db_accounts db) in
  mkControlDb (catalog_without_source (db_catalog db) id) (db_logical_models db)
    (filter (fun kv => bv_source_id kv.2 <> id) (db_bindings db)) (db_routes db)
    (filter (fun e => is_Some (accounts !! hv_account_id e)) (db_health_events db))
    (db_binding_seq db) (db_revision db) (db_updated_at db).

(** The number of deleted rows is 1 or 0. *)
Definition delete_source_row (id : string) : ControlTx bool := fun db =>
  match db_sources db !! id with
  | Some _ => Ok (true, without_source db id)
  | None => Ok (false, db)
  end.

Definition insert_account (id : string) (row : AccountRow) : ControlTx unit :=
  let$ _ := sql_check (fun db => negb (is_some (db_accounts db !! id))) UniqueViolation in
  let$ _ := sql_check (fun db => is_some (db_sources db !! ax_source_id row)) ForeignKeyViolation in
  tx_write (fun db => set_accounts db (<[id := row]> (db_accounts db))).

(** [model_bindings] refers to an account together with its source. *)
Definition account_unbound (id source_id : string) (db : ControlDb) : bool :=
  forallb (fun b => negb (bv_account_id b =?s id) || (bv_source_id b =?s source_id)) (values (db_bindings db)).

(** [UPDATE accounts ... WHERE id = $1]; whether a row was changed. *)
Definition update_account_row (id : string) (f : AccountRow -> AccountRow) : ControlTx bool :=
  let$ old := tx_read (fun db => db_accounts db !! id) in
  match old with
  | None => tx_ret false
  | Some old =>
      let row := f old in
      let$ _ := sql_check (fun db => is_some (db_sources db !! ax_source_id row)
                                     && account_unbound id (ax_source_id row) db) ForeignKeyViolation in
      let$ _ := tx_write (fun db => set_accounts db (<[id := row]> (db_accounts db))) in
      tx_ret true
  end.

(** A deleted account takes its bindings and events with it; runs and tests
    forget it. *)
Definition without_account (db : ControlDb) (id : string) : ControlDb :=
  let c := db_catalog db in
  mkControlDb
    (mkCatalogDb (cd_provider_presets c) (cd_model_presets c) (cd_sources c) (delete id (cd_accounts c))
       (cd_source_models c) (cd_capabilities c) (map (forget_run (String.eqb id)) (cd_runs c))
       (map (forget_test (String.eqb id)) (cd_tests c)))
    (db_logical_models db) (filter (fun kv => bv_account_id kv.2 <> id) (db_bindings db)) (db_routes db)
    (filter (fun e => hv_account_id e <> id) (db_health_events db))
    (db_binding_seq db) (db_revision db) (db_updated_at db).

Definition delete_account_row (id : string) : ControlTx bool := fun db =>
  match db_accounts db !! id with
  | Some _ => Ok (true, without_account db id)
  | None => Ok (false, db)
  end.

(** *** Logical models *)

(** The [CHECK]s of a row with a status and its times. *)
Definition status_times_ok (status : CatalogStatus) (confirmed_at unavailable_at : option Z) : bool :=
  (negb (bool_decide (status = CsConfirmed)) || is_some confirmed_at)
  && (negb (bool_decide (status = CsUnavailable)) || is_some unavailable_at).

Definition logical_model_ok (row : LogicalModelView) : bool :=
  status_times_ok (lv_status row) (lv_confirmed_at row) (lv_unavailable_at row)
  && is_object (lv_metadata row) && is_object (lv_field_sources row)
  && is_none_or (lv_request_timeout_ms row) (fun t => 0 <? t) && is_none_or (lv_max_retries row) (fun r => 0 <=? r).

Definition name_free (row : LogicalModelView) (db : ControlDb) : bool :=
  forallb (fun m => negb (lv_public_name m =?s lv_public_name row) || (lv_id m =?s lv_id row))
    (values (db_logical_models db)).

Definition put_logical_model (row : LogicalModelView) : ControlTx unit :=
  let$ _ := sql_check (fun _ => logical_model_ok row) CheckViolation in
  let$ _ := sql_check (name_free row) UniqueViolation in
  tx_write (fun db => set_logical_models db (<[lv_id row := row]> (db_logical_models db))).

Definition insert_logical_model (row : LogicalModelView) : ControlTx unit :=
  let$ _ := sql_check (fun _ => logical_model_ok row) CheckViolation in
  let$ _ := sql_check (fun db => negb (is_some (db_logical_models db !! lv_id row))) UniqueViolation in
  put_logical_model row.

Definition without_logical_model (db : ControlDb) (id : string) : ControlDb :=
  mkControlDb (db_catalog db) (delete id (db_logical_models db))
    (filter (fun kv => bv_logical_model_id kv.2 <> id) (db_bindings db))
    (filter (fun kv => ro_logical_model_id kv.2 <> id) (db_routes db))
    (db_health_events db) (db_binding_seq db) (db_revision db) (db_updated_at db).

Definition delete_logical_model_row (id : string) : ControlTx bool := fun db =>
  match db_logical_models db !! id with
  | Some _ => Ok (true, without_logical_model db id)
  | None => Ok (false, db)
  end.

(** *** Bindings *)

Definition find_source_model (db : ControlDb) (source_id upstream_model_id : string) : option SourceModelRecord :=
  cd_source_models (db_catalog db) !! (source_id, upstream_model_id).
Definition find_capability (db : ControlDb) (source_id upstream_model_id : string) (protocol : Protocol)
    : option SourceModelCapabilityRecord :=
  cd_capabilities (db_catalog db) !! (source_id, upstream_model_id, protocol).

Definition model_serving (sm : SourceModelRecord) : bool :=
  bool_decide (sm_confirmation_status sm = CsConfirmed) && bool_decide (sm_availability_status sm = CaAvailable).
Definition capability_serving (cap : SourceModelCapabilityRecord) : bool :=
  bool_decide (mc_status cap = CsConfirmed) && is_routable (mc_mode cap).

(** The query of the trigger [validate_confirmed_model_binding]. *)
Definition binding_routable (db : ControlDb) (row : ModelBindingView) : bool :=
  is_some_and (db_logical_models db !! bv_logical_model_id row)
    (fun lm => bool_decide (lv_status lm = CsConfirmed) && lv_enabled lm)
  && is_some_and (db_sources db !! bv_source_id row) so_enabled
  && is_some_and (db_accounts db !! bv_account_id row)
       (fun a => (ax_source_id a =?s bv_source_id row) && ax_enabled a)
  && is_some_and (find_source_model db (bv_source_id row) (bv_upstream_model_id row)) model_serving
  && is_some_and (find_capability db (bv_source_id row) (bv_upstream_model_id row) (bv_protocol row))
       capability_serving.

Definition active (row : ModelBindingView) : bool :=
  bool_decide (bv_status row = CsConfirmed) && bv_enabled row.

Definition binding_trigger (row : ModelBindingView) (db : ControlDb) : bool :=
  negb (active row) || binding_routable db row.

Definition same_line (a b : ModelBindingView) : bool :=
  (bv_logical_model_id a =?s bv_logical_model_id b) && (bv_source_id a =?s bv_source_id b)
  && (bv_account_id a =?s bv_account_id b) && (bv_upstream_model_id a =?s bv_upstream_model_id b)
  && Protocol_eqb (bv_protocol a) (bv_protocol b).

Definition line_free (row : ModelBindingView) (db : ControlDb) : bool :=
  forallb (fun b => negb (same_line b row) || (bv_id b =? bv_id row)) (values (db_bindings db)).

Definition binding_references (row : ModelBindingView) (db : ControlDb) : bool :=
  is_some (db_logical_models db !! bv_logical_model_id row)
  && is_some (find_source_model db (bv_source_id row) (bv_upstream_model_id row))
  && is_some (find_capability db (bv_source_id row) (bv_upstream_model_id row) (bv_protocol row))
  && is_some_and (db_accounts db !! bv_account_id row) (fun a => ax_source_id a =?s bv_source_id row).

Definition put_binding (row : ModelBindingView) (seq : ControlDb -> Z) : ControlTx unit :=
  let$ _ := sql_check (binding_trigger row) CheckViolation in
  let$ _ := sql_check (fun _ => status_times_ok (bv_status row) (bv_confirmed_at row) (bv_unavailable_at row))
              CheckViolation in
  let$ _ := sql_check (line_free row) UniqueViolation in
  let$ _ := sql_check (binding_references row) ForeignKeyViolation in
  tx_write (fun db => set_bindings db (<[bv_id row := row]> (db_bindings db)) (seq db)).

(** An inserted row takes the next id. *)
Definition insert_binding (row : Z -> ModelBindingView) : ControlTx ModelBindingView :=
  let$ last := tx_read db_binding_seq in
  let$ _ := put_binding (row (last + 1)) (fun _ => last + 1) in
  tx_ret (row (last + 1)).

(** [UPDATE .. RETURNING], which fails without a row. *)
Definition update_binding (row : ModelBindingView) : ControlTx unit :=
  let$ _ := sql_check (fun db => is_some (db_bindings db !! bv_id row)) RowNotFound in
  put_binding row db_binding_seq.

Definition delete_binding_row (id : Z) : ControlTx bool := fun db =>
  match db_bindings db !! id with
  | Some _ => Ok (true, set_bindings db (delete id (db_bindings db)) (db_binding_seq db))
  | None => Ok (false, db)
  end.

(** *** Routes *)

Definition put_route (row : RouteRow) : ControlTx unit :=
  let$ _ := sql_check (fun db => is_some (db_logical_models db !! ro_logical_model_id row)) ForeignKeyViolation in
  tx_write (fun db => set_routes db (<[ro_id row := row]> (db_routes db))).

Definition insert_route (row : RouteRow) : ControlTx unit :=
  let$ _ := sql_check (fun db => negb (is_some (db_routes db !! ro_id row))) UniqueViolation in
  put_route row.

Definition delete_route_row (id : string) : ControlTx bool := fun db =>
  match db_routes db !! id with
  | Some _ => Ok (true, set_routes db (delete id (db_routes db)))
  | None => Ok (false, db)
  end.
End Statements.

(** ** The checks that read tables *)

(** PostgreSQL's [?]: a text that is an element or a key of the value. *)
Definition json_has (v : Value) (key : string) : bool :=
  match v with
  | VArray l => existsb (fun v => bool_decide (v = VString key)) l
  | VObject m => existsb (fun kv => kv.1 =?s key) m
  | VString s => s =?s key
  | _ => false
  end.

(** [ORDER BY]: a sort by insertion; [before a b] when [a] may stand before
    [b]. *)
Section OrderBy.
Context {A : Type} (before : A -> A -> bool).
Fixpoint insert_before (x : A) (l : list A) : list A :=
  match l with
  | [] => [x]
  | y :: l' => if before x y then x :: l else y :: insert_before x l'
  end.
Definition order_by (l : list A) : list A := foldr insert_before [] l.

Lemma insert_before_perm x l : insert_before x l ≡ₚ x :: l.
Proof.
  induction l as [|y l IH]; cbn; [done|]. destruct (before x y); [done|]. rewrite IH. apply Permutation_swap.
Qed.
Lemma order_by_perm l : order_by l ≡ₚ l.
Proof. induction l as [|x l IH]; cbn; [done|]. by rewrite insert_before_perm, IH. Qed.
Lemma elem_of_order_by x l : x ∈ order_by l <-> x ∈ l.
Proof. by rewrite order_by_perm. Qed.
End OrderBy.

(** The first column that differs decides. *)
Definition then_cmp (c d : comparison) : comparison := match c with Eq => d | _ => c end.
Definition first (c : comparison) : bool := match c with Gt => false | _ => true end.

Section Checks.
Context `{ErrorTexts} `{ControlEnv} `{BuildCfg} `{UrlCrates} `{Collation}.

Definition validation {A} (message : string) : ControlTx A := tx_fail (CpValidation [message]).

(** Outside a transaction. *)
Definition validate_custom_preset_not_shadowing_builtin (source_id provider_preset_id : string) (db : ControlDb)
    : result unit ControlPlaneError :=
  if negb (provider_preset_id =?s "custom") then Ok tt
  else if existsb (fun kv => (kv.1.1 =?s source_id) && negb (kv.1.1 =?s "custom"))
            (map_to_list (cd_provider_presets (db_catalog db)))
  then Err (CpValidation ["source '" +:+ source_id
              +:+ "' matches a built-in provider preset; use provider_preset_id '" +:+ source_id
              +:+ "' instead of 'custom'"])
  else Ok tt.

Definition sources_by_id (db : ControlDb) : list SourceRecord :=
  order_by (fun a b => first (collate (so_id a) (so_id b))) (values (db_sources db)).

Definition validate_persisted_source_urls (policy : SourceUrlPolicy) (db : ControlDb) : result unit ControlPlaneError :=
  no_errors (flat_map (fun s =>
    match validate_base_url policy (so_base_url s) with
    | Err error => [source_url_validation_message ("source '" +:+ so_id s +:+ "' base_url") error]
    | Ok _ => []
    end) (sources_by_id db)).

(** The joined row of [validate_binding_reference]. *)
Record BindingValidationRow : Type := mkBindingValidationRow {
  vr_logical_status : CatalogStatus;
  vr_logical_enabled : bool;
  vr_source_enabled : bool;
  vr_account_source_id : string;
  vr_account_enabled : bool;
  vr_model_confirmation : CatalogStatus;
  vr_model_availability : CatalogAvailability;
  vr_capability_status : CatalogStatus;
  vr_capability_mode : SourceProtocolMode;
}.

Definition binding_validation_row (input : ModelBindingWrite) (db : ControlDb) : option BindingValidationRow :=
  match db_logical_models db !! bw_logical_model_id input, db_sources db !! bw_source_id input,
        db_accounts db !! bw_account_id input,
        find_source_model db (bw_source_id input) (bw_upstream_model_id input),
        find_capability db (bw_source_id input) (bw_upstream_model_id input) (bw_protocol input) with
  | Some lm, Some s, Some a, Some sm, Some cap =>
      Some (mkBindingValidationRow (lv_status lm) (lv_enabled lm) (so_enabled s) (ax_source_id a) (ax_enabled a)
              (sm_confirmation_status sm) (sm_availability_status sm) (mc_status cap) (mc_mode cap))
  | _, _, _, _, _ => None
  end.

(** The family of a source. *)
Definition family (db : ControlDb) (source_id : string) : option string :=
  so_provider_preset_id <$> db_sources db !! source_id.

(** The families the query selects from, duplicates included. *)
Definition other_families (db : ControlDb) (input : ModelBindingWrite) : list string :=
  omap (fun b =>
    if (bv_logical_model_id b =?s bw_logical_model_id input) && active b
       && negb (bv_source_id b =?s bw_source_id input)
    then family db (bv_source_id b) else None) (values (db_bindings db)).

Definition validate_binding_family_constraint (input : ModelBindingWrite) (db : ControlDb)
    : result unit ControlPlaneError :=
  match ce_any (other_families db input) with
  | Some existing =>
      match family db (bw_source_id input) with
      | Some new =>
          if negb (new =?s existing)
          then Err (CpValidation ["cross-family binding rejected: logical model '" +:+ bw_logical_model_id input
                      +:+ "' already has enabled bindings from provider family '" +:+ existing
                      +:+ "'; cannot add binding from family '" +:+ new +:+ "'"])
          else Ok tt
      | None => Ok tt
      end
  | None => Ok tt
  end.

Definition validate_binding_reference (input : ModelBindingWrite) (db : ControlDb) : result unit ControlPlaneError :=
  let? row := ok_or (binding_validation_row input db)
                (CpValidation ["model binding references a missing LogicalModel, Source, Account, SourceModel, or SourceModelCapability"]) in
  if negb (vr_account_source_id row =?s bw_source_id input)
  then Err (CpValidation ["account '" +:+ bw_account_id input +:+ "' does not belong to source '"
              +:+ bw_source_id input +:+ "'"])
  else if bool_decide (bw_status input = CsConfirmed) && bw_enabled input then
    let? _ := no_errors
      (when (negb (bool_decide (vr_logical_status row = CsConfirmed)) || negb (vr_logical_enabled row))
         "confirmed enabled binding requires a confirmed enabled LogicalModel"
       ++ when (negb (vr_source_enabled row)) "confirmed enabled binding requires an enabled Source"
       ++ when (negb (vr_account_enabled row)) "confirmed enabled binding requires an enabled Account"
       ++ when (negb (bool_decide (vr_model_confirmation row = CsConfirmed))
                || negb (bool_decide (vr_model_availability row = CaAvailable)))
            "confirmed enabled binding requires a confirmed available SourceModel"
       ++ when (negb (bool_decide (vr_capability_status row = CsConfirmed))
                || negb (is_routable (vr_capability_mode row)))
            "confirmed enabled binding requires a confirmed native or adapter capability") in
    validate_binding_family_constraint input db
  else Ok tt.

(** The enabled routes of the model, other than [input], that serve
    [protocol]. *)
Definition conflicting_routes (db : ControlDb) (input : RouteWrite) (protocol : Protocol) : list string :=
  omap (fun r =>
    if (ro_logical_model_id r =?s tw_logical_model_id input) && negb (ro_id r =?s tw_id input)
       && ro_enabled r && json_has (ro_protocols r) (Protocol_to_string protocol)
    then Some (ro_id r) else None) (values (db_routes db)).

(** The [EXISTS] query: a confirmed binding of the model for [protocol] whose
    source model and capability serve. *)
Definition protocol_bound (db : ControlDb) (logical_model_id : string) (protocol : Protocol) : bool :=
  existsb (fun b =>
    (bv_logical_model_id b =?s logical_model_id) && Protocol_eqb (bv_protocol b) protocol
    && bool_decide (bv_status b = CsConfirmed)
    && is_some_and (find_source_model db (bv_source_id b) (bv_upstream_model_id b)) model_serving
    && is_some_and (find_capability db (bv_source_id b) (bv_upstream_model_id b) (bv_protocol b)) capability_serving)
    (values (db_bindings db)).

Definition validate_route_reference (input : RouteWrite) (db : ControlDb) : result unit ControlPlaneError :=
  if negb (is_some (db_logical_models db !! tw_logical_model_id input))
  then Err (CpNotFound ("logical model '" +:+ tw_logical_model_id input +:+ "' not found"))
  else
    no_errors (flat_map (fun protocol =>
      (if tw_enabled input then
         match ce_any (conflicting_routes db input protocol) with
         | Some conflict => ["route protocol " +:+ Protocol_to_string protocol
                              +:+ " conflicts with enabled route '" +:+ conflict +:+ "'"]
         | None => []
         end
       else [])
      ++ when (negb (protocol_bound db (tw_logical_model_id input) protocol))
           ("route protocol " +:+ Protocol_to_string protocol +:+ " has no confirmed, available model binding"))
      (tw_protocols input)).

(** *** Capability chains *)

Definition capability_before (a b : SourceModelCapabilityRecord) : bool :=
  first (then_cmp (collate (mc_source_id a) (mc_source_id b))
          (then_cmp (collate (mc_upstream_model_id a) (mc_upstream_model_id b))
             (protocol_rank (mc_protocol a) ?= protocol_rank (mc_protocol b)))).

(** A routable capability with the endpoints of its source, in order. *)
Definition capability_rows (db : ControlDb) : list (SourceModelCapabilityRecord * Value) :=
  omap (fun cap =>
    if capability_serving cap then pair cap <$> (so_endpoints <$> db_sources db !! mc_source_id cap) else None)
    (order_by capability_before (values (cd_capabilities (db_catalog db)))).

Definition chain_name (cap : SourceModelCapabilityRecord) : string :=
  mc_source_id cap +:+ "/" +:+ mc_upstream_model_id cap +:+ "/" +:+ Protocol_to_string (mc_protocol cap).

Definition chain_adapter_errors (cap : SourceModelCapabilityRecord) (adapter_name : string) (source_protocol : Protocol)
    : list string :=
  match adapter_definition adapter_name with
  | Some definition =>
      if Protocol_eqb (ad_from_protocol definition) (mc_protocol cap)
         && Protocol_eqb (ad_to_protocol definition) source_protocol
      then []
      else ["adapter '" +:+ adapter_name +:+ "' implements " +:+ Protocol_to_string (ad_from_protocol definition)
              +:+ " -> " +:+ Protocol_to_string (ad_to_protocol definition) +:+ ", not "
              +:+ Protocol_to_string (mc_protocol cap) +:+ " -> " +:+ Protocol_to_string source_protocol]
  | None => ["unknown adapter '" +:+ adapter_name +:+ "'"]
  end.

(** The upstream protocol with the errors pushed on the way to it; [None] when
    the row ends there. *)
Definition chain_upstream (db : ControlDb) (cap : SourceModelCapabilityRecord) : list string * option Protocol :=
  match mc_mode cap with
  | SmNative => ([], Some (mc_protocol cap))
  | SmAdapter =>
      match mc_source_protocol cap, mc_adapter cap with
      | None, _ => (["capability " +:+ chain_name cap +:+ " requires source_protocol"], None)
      | Some _, None => (["capability " +:+ chain_name cap +:+ " requires adapter"], None)
      | Some source_protocol, Some adapter_name =>
          let source_native :=
            is_some_and (find_capability db (mc_source_id cap) (mc_upstream_model_id cap) source_protocol)
              (fun s => bool_decide (mc_status s = CsConfirmed) && bool_decide (mc_mode s = SmNative)) in
          (chain_adapter_errors cap adapter_name source_protocol
           ++ when (negb source_native)
                ("adapter capability " +:+ chain_name cap +:+ " requires confirmed native source protocol "
                   +:+ Protocol_to_string source_protocol),
           Some source_protocol)
      end
  | SmUnknown | SmUnsupported => ([], None)
  end.

Definition chain_errors (db : ControlDb) (row : SourceModelCapabilityRecord * Value) : list string :=
  let '(cap, stored) := row in
  match Snapshot.endpoints_from_value stored with
  | None => ["source '" +:+ mc_source_id cap +:+ "'.endpoints is invalid: " +:+ endpoints_error stored]
  | Some endpoints =>
      let '(errors, upstream) := chain_upstream db cap in
      errors ++
      match upstream with
      | None => []
      | Some upstream =>
          when (negb (is_some_and (hm_get endpoints upstream) not_blank))
            ("source '" +:+ mc_source_id cap +:+ "' has no endpoint for upstream protocol "
               +:+ Protocol_to_string upstream)
      end
  end.

Definition validate_capability_chains (db : ControlDb) : result unit ControlPlaneError :=
  no_errors (flat_map (chain_errors db) (capability_rows db)).

(** ** The query of [build_snapshot] *)

(** A row of the join with the columns of its order. *)
Record JoinedRow : Type := mkJoinedRow {
  jr_route : RouteRow;
  jr_model : LogicalModelView;
  jr_binding : ModelBindingView;
  jr_source : SourceRecord;
  jr_account : AccountRow;
  jr_capability : SourceModelCapabilityRecord;
}.

(** The tables joined to a route and a binding, and the [WHERE]. *)
Definition join_row (db : ControlDb) (r : RouteRow) (b : ModelBindingView) : option JoinedRow :=
  match db_logical_models db !! ro_logical_model_id r, db_sources db !! bv_source_id b,
        db_accounts db !! bv_account_id b,
        find_source_model db (bv_source_id b) (bv_upstream_model_id b),
        find_capability db (bv_source_id b) (bv_upstream_model_id b) (bv_protocol b) with
  | Some lm, Some s, Some a, Some sm, Some cap =>
      if (bv_logical_model_id b =?s lv_id lm) && (ax_source_id a =?s bv_source_id b)
         && ro_enabled r && lv_enabled lm && bool_decide (lv_status lm = CsConfirmed)
         && bv_enabled b && bool_decide (bv_status b = CsConfirmed)
         && model_serving sm && capability_serving cap
      then Some (mkJoinedRow r lm b s a cap) else None
  | _, _, _, _, _ => None
  end.

Definition mode_rank (mode : SourceProtocolMode) : Z := match mode with SmNative => 0 | _ => 1 end.

(** [ORDER BY r.id, b.protocol, b.priority DESC, CASE cap.mode .., b.id]. *)
Definition joined_before (x y : JoinedRow) : bool :=
  first (then_cmp (collate (ro_id (jr_route x)) (ro_id (jr_route y)))
    (then_cmp (protocol_rank (bv_protocol (jr_binding x)) ?= protocol_rank (bv_protocol (jr_binding y)))
      (then_cmp (bv_priority (jr_binding y) ?= bv_priority (jr_binding x))
        (then_cmp (mode_rank (mc_mode (jr_capability x)) ?= mode_rank (mc_mode (jr_capability y)))
          (bv_id (jr_binding x) ?= bv_id (jr_binding y)))))).

Definition joined_rows (db : ControlDb) : list JoinedRow :=
  order_by joined_before
    (flat_map (fun r => omap (join_row db r) (values (db_bindings db))) (values (db_routes db))).

Definition snapshot_row (j : JoinedRow) : SnapshotRow :=
  let r := jr_route j in let lm := jr_model j in let b := jr_binding j in
  let s := jr_source j in let a := jr_account j in let cap := jr_capability j in
  mkSnapshotRow (ro_id r) (ro_strategy r) (lv_request_timeout_ms lm) (lv_max_retries lm) (lv_public_name lm)
    (lv_display_name lm) (ro_protocols r) (ro_allow_lossy_conversion r) (bv_id b) (bv_source_id b)
    (so_provider_preset_id s) (so_display_name s) (so_base_url s) (so_endpoints s) (bv_account_id b)
    (ax_display_name a) (ax_credential_env a) (ax_credential_ciphertext a) (ax_enabled a) (so_enabled s)
    (ax_weight a) (bv_upstream_model_id b) (bv_protocol b) (mc_mode cap) (mc_source_protocol cap) (mc_adapter cap)
    (mc_feature_capabilities cap).

Definition snapshot_rows (db : ControlDb) : list SnapshotRow := map snapshot_row (joined_rows db).

(** ** The end of a write transaction *)

(** [build_snapshot] on the tables of the transaction. *)
Definition build_from (self : ControlPlane) (db : ControlDb) : result RuntimeSnapshot ControlPlaneError :=
  map_err CpValidation
    (build_snapshot snapshot_error (snapshot_rows db) (cp_listen_addr self) (db_revision db) (db_updated_at db)).

(** Every check of the control plane. *)
Definition validate_all (self : ControlPlane) (db : ControlDb) : result unit ControlPlaneError :=
  let? _ := validate_persisted_source_urls (cp_source_url_policy self) db in
  validate_capability_chains db.

Definition finish_write (self : ControlPlane) : ControlTx RuntimeSnapshot :=
  let$ _ := tx_query (validate_all self) in
  let$ _ := tx_write (fun db => set_revision db (db_revision db + 1) ce_clock) in
  tx_query (build_from self).

Definition finish_mutation {T} (self : ControlPlane) (record : T) : ControlTx (Mutation T) :=
  let$ snapshot := finish_write self in
  tx_ret (mkMutation record snapshot).

(** [load_snapshot_in_transaction]. *)
Definition load_snapshot (self : ControlPlane) (db : ControlDb) : result RuntimeSnapshot ControlPlaneError :=
  let? _ := validate_all self db in
  build_from self db.

(** *** [repository.rs] *)

Definition account_view (id : string) (row : AccountRow) : AccountView :=
  let h := ax_health row in
  mkAccountView id (ax_source_id row) (ax_display_name row) (ax_credential_env row)
    (is_some (ax_credential_env row) || is_some (ax_credential_ciphertext row)) (ax_enabled row) (ax_weight row)
    (hx_status h) (hx_source h) (hx_updated_at h) (hx_consecutive_failures h) (hx_cooldown_until h) (hx_last_error h)
    (hx_last_success_at h) (hx_last_probe_at h) (hx_last_probe_status h) (hx_last_probe_error h)
    (ax_created_at row) (ax_updated_at row).

(** A row or its [NotFound]. *)
Definition found {A} (kind id : string) (o : option A) : result A ControlPlaneError :=
  ok_or o (CpNotFound (kind +:+ " '" +:+ id +:+ "' not found")).

Definition fetch_source (id : string) (db : ControlDb) : result SourceRecord ControlPlaneError :=
  found "source" id (db_sources db !! id).
Definition fetch_account (id : string) (db : ControlDb) : result AccountView ControlPlaneError :=
  found "account" id (account_view id <$> db_accounts db !! id).
Definition fetch_logical_model (id : string) (db : ControlDb) : result LogicalModelView ControlPlaneError :=
  found "logical model" id (db_logical_models db !! id).
Definition fetch_model_binding (id : Z) (db : ControlDb) : result ModelBindingView ControlPlaneError :=
  found "model binding" (dec id) (db_bindings db !! id).

Definition route_view (r : RouteRow) (public_name : string) : RouteView :=
  mkRouteView (ro_id r) (ro_logical_model_id r) public_name (ro_protocols r) (ro_strategy r)
    (ro_allow_lossy_conversion r) (ro_enabled r) (ro_created_at r) (ro_updated_at r).

Definition fetch_route (id : string) (db : ControlDb) : result RouteView ControlPlaneError :=
  found "route" id
    (match db_routes db !! id with
     | Some r => (fun lm => route_view r (lv_public_name lm)) <$> db_logical_models db !! ro_logical_model_id r
     | None => None
     end).

Definition ensure_source_exists (id : string) (db : ControlDb) : result unit ControlPlaneError :=
  if is_some (db_sources db !! id) then Ok tt else Err (CpNotFound ("source '" +:+ id +:+ "' not found")).

(** The columns an operator's enable or disable resets. *)
Definition manual_health (enabled : bool) (observed_at : Z) (h : HealthColumns) : HealthColumns :=
  mkHealthColumns (if enabled then "unknown" else "disabled") "manual" (Some observed_at) 0 None None None None
    (hx_last_probe_at h) (hx_last_probe_status h) None.

Definition set_health (row : AccountRow) (h : HealthColumns) : AccountRow :=
  mkAccountRow (ax_source_id row) (ax_display_name row) (ax_credential_env row) (ax_credential_ciphertext row)
    (ax_enabled row) (ax_weight row) h (ax_created_at row) (ax_updated_at row).

Definition manual_event (enabled : bool) (observed_at : Z) (account_id : string) : HealthEventRow :=
  mkHealthEventRow account_id (if enabled then "unknown" else "disabled") "manual" observed_at None 0.

Definition apply_manual_health_transition (account_id : string) (enabled : bool) (observed_at : Z) : ControlTx unit :=
  let$ _ := update_account_row account_id (fun row => set_health row (manual_health enabled observed_at (ax_health row))) in
  let$ _ := sql_check (fun db => is_some (db_accounts db !! account_id)) ForeignKeyViolation in
  tx_write (fun db => set_health_events db (db_health_events db ++ [manual_event enabled observed_at account_id])).

Definition apply_manual_health_transition_for_source (source_id : string) (enabled : bool) (observed_at : Z)
    : ControlTx unit :=
  let mine := fun row => ax_source_id row =?s source_id in
  let$ _ := tx_write (fun db => set_accounts db
    ((fun row => if mine row then set_health row (manual_health enabled observed_at (ax_health row)) else row)
       <$> db_accounts db)) in
  tx_write (fun db => set_health_events db
    (db_health_events db
     ++ map (manual_event enabled observed_at)
          (filter (fun kv => mine kv.2 = true) (map_to_list (db_accounts db))).*1)).
End Checks.
