(* ===== verification/Backup.v ===== *)
(** * Export and restore of the control plane

    [export_control_plane] and [restore_control_plane] of
    [src/src/infra/ops.rs], over the tables of [ControlDb], the audit log of
    [Cleanup] and the table [backup_runs] ([BackupDb]).

    PostgreSQL's conversion of rows to and from JSON is the class [RowJson]:
    [select_rows] is [SELECT to_jsonb(r)] of a table in its order, [insert_row]
    the insert of [jsonb_populate_record] with [ON CONFLICT DO NOTHING].  The
    serialisation of the configuration in the fingerprint is [SnapshotJson]. *)

From Stdlib Require Import ZArith Lia Ascii.
From stdpp Require Import base gmap list strings.
From S2P Require Import Prelude.
From S2P Require Import RustStr.
From S2P Require Import BTree.
From S2P Require Import Tx.
From S2P Require Import Protocol.
From S2P Require Import Config.
From S2P Require Import Routing.
From S2P Require Import SourceUrl.
From S2P Require Import Json.
From S2P Require Import Redaction.
From S2P Require Import Ops.
From S2P Require Import Cleanup.
From S2P Require Import Catalog.
From S2P Require Import Presets.
From S2P Require Import ModelCatalog.
From S2P Require Import Snapshot.
From S2P Require Import VirtualKeys.
From S2P Require Import Secrets.
From S2P Require Import Validation.
From S2P Require Import ControlDb.

Definition CURRENT_SCHEMA_VERSION : Z := 28.
Definition CURRENT_MIGRATION_VERSION : Z := 28.
Definition MAX_EXPORT_ROWS : Z := 100000.

(** ** Data *)

Inductive ExportTable : Type :=
| TProviderPresets | TModelPresets | TSources | TAccounts | TSourceModels | TCapabilities | TLogicalModels
| TBindings | TRoutes | TProviders | TVirtualKeys.

#[global] Instance ExportTable_eq_dec : EqDecision ExportTable.
Proof. solve_decision. Defined.

Record SchemaMetadata : Type := mkSchemaMetadata { sm_schema_version : Z; sm_migration_version : Z }.

Record RuntimeSnapshotMetadata : Type := mkSnapshotMetadata {
  rs_revision : Z;
  rs_generated_at : Z;
  rs_fingerprint : string;
}.

Record ControlPlaneExport : Type := mkExport {
  ex_format : string;
  ex_version : Z;
  ex_exported_at : Z;
  ex_timezone : string;
  ex_schema_version : Z;
  ex_migration_version : Z;
  ex_credentials : Value;
  ex_runtime_snapshot : RuntimeSnapshotMetadata;
  ex_row_counts : Value;
  ex_provider_presets : list Value;
  ex_model_presets : list Value;
  ex_sources : list Value;
  ex_accounts : list Value;
  ex_source_models : list Value;
  ex_source_model_capabilities : list Value;
  ex_logical_models : list Value;
  ex_model_bindings : list Value;
  ex_routes : list Value;
  ex_providers : list Value;
  ex_virtual_keys : list Value;
}.

Definition export_rows (e : ControlPlaneExport) (t : ExportTable) : list Value :=
  match t with
  | TProviderPresets => ex_provider_presets e | TModelPresets => ex_model_presets e | TSources => ex_sources e
  | TAccounts => ex_accounts e | TSourceModels => ex_source_models e
  | TCapabilities => ex_source_model_capabilities e | TLogicalModels => ex_logical_models e
  | TBindings => ex_model_bindings e | TRoutes => ex_routes e | TProviders => ex_providers e
  | TVirtualKeys => ex_virtual_keys e
  end.

(** The order of the check of an import. *)
Definition export_tables : list ExportTable :=
  [TProviderPresets; TModelPresets; TSources; TAccounts; TSourceModels; TCapabilities; TLogicalModels; TBindings;
   TRoutes; TProviders; TVirtualKeys].

Inductive BackupStatus : Type := BackupRunning | BackupSucceeded | BackupFailed.

Record BackupRun : Type := mkBackupRun {
  br_operation : string;
  br_status : BackupStatus;
  br_requested_by : string;
  br_schema_version : Z;
  br_migration_version : Z;
  br_checksum : option string;
  br_metadata : Value;
  br_error_code : option string;
  br_error_message : option string;
  br_started_at : Z;
  br_completed_at : option Z;
}.

(** The tables; [bk_keys] are the rows of [virtual_keys] and [bk_providers]
    those of the legacy [providers], as JSON. *)
Record BackupDb : Type := mkBackupDb {
  bk_schema : option SchemaMetadata;
  bk_control : ControlDb;
  bk_providers : list Value;
  bk_keys : list Value;
  bk_ops : RetentionDb;
  bk_runs : gmap string BackupRun;
}.

Definition with_control (c : ControlDb) (db : BackupDb) : BackupDb :=
  mkBackupDb (bk_schema db) c (bk_providers db) (bk_keys db) (bk_ops db) (bk_runs db).
Definition with_providers (p : list Value) (db : BackupDb) : BackupDb :=
  mkBackupDb (bk_schema db) (bk_control db) p (bk_keys db) (bk_ops db) (bk_runs db).
Definition with_ops (o : RetentionDb) (db : BackupDb) : BackupDb :=
  mkBackupDb (bk_schema db) (bk_control db) (bk_providers db) (bk_keys db) o (bk_runs db).
Definition with_backups (r : gmap string BackupRun) (db : BackupDb) : BackupDb :=
  mkBackupDb (bk_schema db) (bk_control db) (bk_providers db) (bk_keys db) (bk_ops db) r.

Abbreviation Bx := (Tx BackupDb OpsError).

(** [impl From<sqlx::Error> for OpsError] and [impl From<ControlPlaneError>]. *)
Section Errors.
Context `{ErrorTexts}.

Definition ops_of_sqlx (error : SqlxError) : OpsError :=
  match error with
  | UniqueViolation => OpsConflict "operation already exists"
  | ForeignKeyViolation | CheckViolation => OpsValidation "operation data violates a database constraint"
  | RowNotFound => OpsDatabase (database_text error)
  end.

Definition ops_of_control (error : ControlPlaneError) : OpsError :=
  match error with
  | CpNotFound message => OpsNotFound message
  | CpConflict message => OpsConflict message
  | CpValidation errors => OpsValidation (join "; " errors)
  | CpJson error => OpsJson error
  | CpDatabase error => OpsDatabase (database_text error)
  | CpCredential error => OpsValidation (secret_public_message error)
  | CpNoCiphertext => OpsValidation "account does not have an encrypted credential"
  end.
End Errors.

(** ** The fingerprint *)

Class SnapshotJson : Type := {
  config_to_value : GatewayConfig -> option Value;
  models_to_value : list PublishedModel -> Value;
  effective_to_value : Capabilities -> Value;
}.

Section Fingerprint.
Context `{SnapshotJson} `{SerdeJson} `{Sha256}.

(** [sha256_json] of a value: lower-case hexadecimal. *)
Definition sha256_json (value : Value) : result string OpsError :=
  let? bytes := ok_or (to_string value) (OpsJson "serialization failed") in
  Ok (hex_lower (sha256 bytes)).

Definition opt_i64 (o : option Z) : Value := match o with Some n => of_i64 n | None => VNull end.
Definition opt_str (o : option string) : Value := match o with Some s => VString s | None => VNull end.
Definition protocol_value (p : Protocol) : Value := VString (Protocol_to_string p).

Definition binding_value (binding : RuntimeBinding) : Value :=
  json_object [("binding_id", of_i64 (rb_binding_id binding)); ("source_id", VString (rb_source_id binding));
    ("provider_id", VString (rb_provider_id binding)); ("account_id", VString (rb_account_id binding));
    ("upstream_model_id", VString (rb_upstream_model_id binding));
    ("protocol_upstream", protocol_value (rb_protocol_upstream binding));
    ("upstream_endpoint", VString (rb_upstream_endpoint binding)); ("mode", VString (rb_mode binding));
    ("adapter", opt_str (rb_adapter binding));
    ("effective_capabilities", effective_to_value (rb_effective_capabilities binding));
    ("degraded_features", VArray (map VString (rb_degraded_features binding)))].

Definition route_value (route : RuntimeRoute) : Value :=
  json_object [("route_id", VString (rr_route_id route)); ("strategy", VString (rr_strategy route));
    ("request_timeout_ms", opt_i64 (rr_request_timeout_ms route)); ("max_retries", opt_i64 (rr_max_retries route));
    ("model", VString (rr_model route)); ("protocol", protocol_value (rr_protocol route));
    ("allow_lossy_conversion", VBool (rr_allow_lossy_conversion route));
    ("bindings", VArray (map binding_value (rr_bindings route)))].

Definition runtime_snapshot_fingerprint (snapshot : RuntimeSnapshot) : result string OpsError :=
  let? config := ok_or (config_to_value (ss_config snapshot)) (OpsJson "serialization failed") in
  let config := on_object (fun object => bt_remove object "listen_addr") config in
  let routes := match runtime_routes (ss_resolver snapshot) with
                | Some routes => map route_value routes
                | None => []
                end in
  sha256_json (json_object [("config", config); ("models", models_to_value (ss_models snapshot));
                            ("routes", VArray routes)]).

Definition runtime_snapshot_metadata (snapshot : RuntimeSnapshot) : result RuntimeSnapshotMetadata OpsError :=
  let? fingerprint := runtime_snapshot_fingerprint snapshot in
  Ok (mkSnapshotMetadata (ss_revision snapshot) (ss_generated_at snapshot) fingerprint).
End Fingerprint.

(** ** The check of an import *)

Definition is_ascii_hexdigit (a : ascii) : bool := byte_in a 48 57 || byte_in a 65 70 || byte_in a 97 102.

Fixpoint validate_rows (rows : list Value) : result unit OpsError :=
  match rows with
  | [] => Ok tt
  | row :: rows =>
      if negb (is_object row) then Err (OpsValidation "control-plane export rows must be JSON objects")
      else let? _ := reject_plaintext_secret_fields row in validate_rows rows
  end.

Fixpoint validate_tables (tables : list (list Value)) : result unit OpsError :=
  match tables with
  | [] => Ok tt
  | rows :: tables =>
      if MAX_EXPORT_ROWS <? Z.of_nat (length rows)
      then Err (OpsValidation ("control-plane export exceeds " +:+ dec MAX_EXPORT_ROWS +:+ " rows"))
      else let? _ := validate_rows rows in validate_tables tables
  end.

Definition validate_export_shape (export : ControlPlaneExport) : result unit OpsError :=
  if negb (ex_format export =?s "my-ai-gateway.control-plane") || negb (ex_version export =? 1)
  then Err (OpsValidation "unsupported control-plane export format or version")
  else if negb (ex_timezone export =?s "UTC") then Err (OpsValidation "control-plane exports must use UTC")
  else if (ex_schema_version export <=? 0) || (ex_migration_version export <=? 0)
  then Err (OpsValidation "control-plane export schema metadata is invalid")
  else if negb (slen (rs_fingerprint (ex_runtime_snapshot export)) =? 64)
       || negb (sall is_ascii_hexdigit (rs_fingerprint (ex_runtime_snapshot export)))
  then Err (OpsValidation "control-plane runtime snapshot fingerprint is invalid")
  else validate_tables (map (export_rows export) export_tables).

(** ** Export *)

Class RowJson : Type := {
  select_rows : ExportTable -> BackupDb -> list Value;
  insert_row : ExportTable -> Value -> BackupDb -> result BackupDb SqlxError;
}.

Section Operations.
Context `{ErrorTexts} `{ControlEnv} `{BuildCfg} `{UrlCrates} `{Collation} `{UrlEdit} `{SnapshotJson} `{SerdeJson}
  `{Sha256} `{RowJson} {env : OpsEnv BackupDb}.

Abbreviation Job := (Om BackupDb).

(** A transaction on the audit log. *)
Definition on_ops {A} (tx : Rx A) : Bx A := fun db =>
  match tx (bk_ops db) with Ok (x, o) => Ok (x, with_ops o db) | Err e => Err e end.

Definition backup_audit_tx (operation_id action status actor : string) (details : Value)
    (error_code error_message : option string) (now : Z) : Bx unit :=
  on_ops (append_audit_tx operation_id action status actor details error_code error_message now).

Definition backup_audit (operation_id action status actor : string) (details : Value)
    (error_code error_message : option string) : Job unit :=
  o_tx (backup_audit_tx operation_id action status actor details error_code error_message).

Definition schema_metadata : Job SchemaMetadata :=
  let# metadata := o_read bk_schema in
  let# metadata := o_of (ok_or metadata (OpsValidation "schema metadata is not initialized")) in
  if (CURRENT_SCHEMA_VERSION <? sm_schema_version metadata) || (CURRENT_MIGRATION_VERSION <? sm_migration_version metadata)
  then o_of (Err (OpsValidation "database schema/migration is newer than this gateway"))
  else o_ret metadata.

Definition insert_backup (id operation actor : string) (metadata : SchemaMetadata) (now : Z) : Bx unit := fun db =>
  match bk_runs db !! id with
  | Some _ => Err (ops_of_sqlx UniqueViolation)
  | None =>
      Ok (tt, with_backups (<[id := mkBackupRun operation BackupRunning actor (sm_schema_version metadata)
        (sm_migration_version metadata) None (VObject []) None None now None]> (bk_runs db)) db)
  end.

Definition update_backup (id : string) (f : BackupRun -> BackupRun) (db : BackupDb) : BackupDb :=
  match bk_runs db !! id with
  | Some run => with_backups (<[id := f run]> (bk_runs db)) db
  | None => db
  end.

Definition backup_succeeded (checksum : string) (metadata : Value) (now : Z) (r : BackupRun) : BackupRun :=
  mkBackupRun (br_operation r) BackupSucceeded (br_requested_by r) (br_schema_version r) (br_migration_version r)
    (Some checksum) metadata (br_error_code r) (br_error_message r) (br_started_at r) (Some now).
Definition backup_failed (code message : string) (now : Z) (r : BackupRun) : BackupRun :=
  mkBackupRun (br_operation r) BackupFailed (br_requested_by r) (br_schema_version r) (br_migration_version r)
    (br_checksum r) (br_metadata r) (Some code) (Some message) (br_started_at r) (Some now).

(** [mark_backup_failed]; what goes wrong here is ignored. *)
Definition mark_backup_failed (id : string) (error : OpsError) : Job unit :=
  let code := error_code error in
  let message := public_error_message error in
  let# _ := o_try (o_write (fun now => update_backup id (backup_failed code message now))) in
  let# _ := o_try (backup_audit id "backup.operation.failed" "failed" "system"
    (json_object [("error_code", VString code)]) (Some code) (Some message)) in
  o_ret tt.

(** What an export makes of a row. *)
Definition export_account_row (row : Value) : Value :=
  let credential_env := unwrap_or (get row "credential_env") VNull in
  sanitize_account_row
    (on_object (fun object => bt_insert object "credential_env" credential_env) (sanitize_json row)).

Definition export_row (t : ExportTable) (row : Value) : Value :=
  match t with
  | TSources => sanitize_source_row (sanitize_json row)
  | TAccounts => export_account_row row
  | TVirtualKeys => sanitize_virtual_key_row row
  | _ => sanitize_json row
  end.

Definition table_rows (t : ExportTable) : Job (list Value) := o_read (select_rows t).

Fixpoint read_tables (tables : list ExportTable) : Job (list (list Value)) :=
  match tables with
  | [] => o_ret []
  | t :: tables =>
      let# rows := table_rows t in
      let# rest := read_tables tables in
      o_ret (map (export_row t) rows :: rest)
  end.

Definition table_name (t : ExportTable) : string :=
  match t with
  | TProviderPresets => "provider_presets" | TModelPresets => "model_presets" | TSources => "sources"
  | TAccounts => "accounts" | TSourceModels => "source_models" | TCapabilities => "source_model_capabilities"
  | TLogicalModels => "logical_models" | TBindings => "model_bindings" | TRoutes => "routes"
  | TProviders => "providers" | TVirtualKeys => "virtual_keys"
  end.

(** Serialization does not change the order of the fields: [export_tables] is
    also the order the tables are read in. *)
Definition build_control_plane_export (self : ControlPlane) (metadata : SchemaMetadata) : Job ControlPlaneExport :=
  let# snapshot := o_read (fun db => map_err ops_of_control (load_snapshot self (bk_control db))) in
  let# snapshot := o_of snapshot in
  let# runtime := o_of (runtime_snapshot_metadata snapshot) in
  let# tables := read_tables export_tables in
  let row_counts := json_object
    (zip_with (fun t rows => (table_name t, of_i64 (Z.of_nat (length rows)))) export_tables tables) in
  if existsb (fun rows => MAX_EXPORT_ROWS <? Z.of_nat (length rows)) tables
  then o_of (Err (OpsValidation ("control-plane export exceeds " +:+ dec MAX_EXPORT_ROWS +:+ " rows in one table")))
  else
    let# now := o_ask op_now in
    let table := fun (i : nat) => nth i tables [] in
    o_ret (mkExport "my-ai-gateway.control-plane" 1 now "UTC" (sm_schema_version metadata)
      (sm_migration_version metadata)
      (json_object [("mode", VString "secret_ref_only");
                    ("description", VString "credential values and ciphertext are never exported")])
      runtime row_counts (table 0%nat) (table 1%nat) (table 2%nat) (table 3%nat) (table 4%nat) (table 5%nat)
      (table 6%nat) (table 7%nat) (table 8%nat) (table 9%nat) (table 10%nat)).

(** The checksum is that of the serialized export, a parameter. *)
Context (export_to_value : ControlPlaneExport -> Value).

Definition export_checksum (export : ControlPlaneExport) : result string OpsError := sha256_json (export_to_value export).

Definition export_control_plane (self : ControlPlane) (requested_by : string)
    : Job (string * string * ControlPlaneExport) :=
  let# backup_id := o_ask op_uuid in
  let actor := sanitize_actor requested_by in
  let# metadata := schema_metadata in
  let# _ := o_tx (insert_backup backup_id "control_plane_export" actor metadata) in
  let# result := o_try (build_control_plane_export self metadata) in
  match result with
  | Ok export =>
      let# checksum := o_of (export_checksum export) in
      let# _ := o_write (fun now => update_backup backup_id (backup_succeeded checksum
        (json_object [("runtime_snapshot_fingerprint", VString (rs_fingerprint (ex_runtime_snapshot export)));
                      ("row_counts", ex_row_counts export)]) now)) in
      let# _ := backup_audit backup_id "backup.control_plane_export" "succeeded" actor
        (json_object [("checksum", VString checksum); ("schema_version", of_i64 (sm_schema_version metadata));
                      ("migration_version", of_i64 (sm_migration_version metadata))]) None None in
      o_ret (backup_id, checksum, export)
  | Err error =>
      let# _ := mark_backup_failed backup_id error in
      o_of (Err error)
  end.

(** ** Restore *)

Definition delete_sources (db : ControlDb) : ControlDb :=
  fold_left without_source (map_to_list (db_sources db)).*1 db.
Definition delete_accounts (db : ControlDb) : ControlDb :=
  fold_left without_account (map_to_list (db_accounts db)).*1 db.
Definition delete_logical_models (db : ControlDb) : ControlDb :=
  fold_left without_logical_model (map_to_list (db_logical_models db)).*1 db.

(** [clear_control_plane_tx]: the children first. *)
Definition clear_control_plane (db : BackupDb) : BackupDb :=
  let c := bk_control db in
  let c := set_routes c ∅ in
  let c := set_bindings c ∅ (db_binding_seq c) in
  let c := delete_logical_models c in
  let c := set_catalog c (set_capabilities (db_catalog c) ∅) in
  let c := set_catalog c (set_source_models (db_catalog c) ∅) in
  let c := delete_accounts c in
  let c := delete_sources c in
  with_providers [] (with_control c db).

(** What a restore binds for a row: no ciphertext comes in, whatever the
    export says. *)
Definition restore_row (t : ExportTable) (row : Value) : Value :=
  match t with
  | TAccounts =>
      on_object (fun object =>
        let object := bt_insert (bt_remove object "credential") "credential_ciphertext" VNull in
        match hm_get object "credential_env" with
        | Some VNull => bt_remove object "credential_env"
        | _ => object
        end) (sanitize_json row)
  | _ => sanitize_json row
  end.

Fixpoint restore_table (t : ExportTable) (rows : list Value) : Bx unit :=
  match rows with
  | [] => tx_ret tt
  | row :: rows => fun db =>
      match insert_row t (restore_row t row) db with
      | Ok db => restore_table t rows db
      | Err error => Err (ops_of_sqlx error)
      end
  end.

(** The tables in the order of their references. *)
Definition restore_order : list ExportTable :=
  [TProviderPresets; TModelPresets; TSources; TProviders; TAccounts; TSourceModels; TCapabilities; TLogicalModels;
   TBindings; TRoutes].

Fixpoint restore_tables (export : ControlPlaneExport) (tables : list ExportTable) : Bx unit :=
  match tables with
  | [] => tx_ret tt
  | t :: tables => let$ _ := restore_table t (export_rows export t) in restore_tables export tables
  end.

(** Virtual keys are counted and skipped. *)
Definition restore_virtual_keys (rows : list Value) : Z := fold_left (fun skipped _ => skipped + 1) rows 0.

Definition restore_snapshot_state (metadata : RuntimeSnapshotMetadata) : Bx unit := fun db =>
  if rs_revision metadata <? 0 then Err (OpsValidation "runtime snapshot revision must not be negative")
  else Ok (tt, with_control (set_revision (bk_control db) (rs_revision metadata) (rs_generated_at metadata)) db).

(** [setval(..., COALESCE(MAX(id), 1))]; the ids of virtual keys stay. *)
Definition reset_sequences (db : BackupDb) : BackupDb :=
  let c := bk_control db in
  let ids := (map_to_list (db_bindings c)).*1 in
  let last := match ids with [] => 1 | id :: ids => fold_left Z.max ids id end in
  with_control (set_bindings c (db_bindings c) last) db.

Definition control_rows (c : ControlDb) : nat :=
  base.size (db_sources c) + base.size (db_accounts c) + base.size (db_logical_models c) + base.size (db_bindings c)
  + base.size (db_routes c).

Definition snapshot_mismatch : OpsError :=
  OpsSnapshot "restored control plane does not produce the exported runtime snapshot".

(** The transaction of [restore_rows]. *)
Definition restore_rows_tx (self : ControlPlane) (export : ControlPlaneExport) (replace : bool)
    (operation_id actor : string) (now : Z) : Bx (RuntimeSnapshot * Z) :=
  let$ non_empty := tx_read (fun db => negb (Nat.eqb (control_rows (bk_control db)) 0)) in
  let$ _ := (if non_empty && negb replace
             then tx_fail (OpsConflict "destination control plane is not empty; pass replace=true explicitly")
             else tx_ret tt) in
  let$ _ := tx_write (if replace then clear_control_plane else fun db => db) in
  let$ _ := restore_tables export restore_order in
  let skipped := restore_virtual_keys (ex_virtual_keys export) in
  let$ _ := restore_snapshot_state (ex_runtime_snapshot export) in
  let$ _ := tx_write reset_sequences in
  let$ snapshot := tx_read (fun db => map_err ops_of_control (load_snapshot self (bk_control db))) in
  let$ snapshot := tx_of snapshot in
  let$ fingerprint := tx_of (runtime_snapshot_fingerprint snapshot) in
  let$ _ := (if negb (fingerprint =?s rs_fingerprint (ex_runtime_snapshot export)) then tx_fail snapshot_mismatch
             else tx_ret tt) in
  let$ _ := backup_audit_tx operation_id "backup.restore.started" "progress" actor
    (json_object [("replace", VBool replace)]) None None now in
  tx_ret (snapshot, skipped).

Record RestoreResult : Type := mkRestoreResult {
  rr_backup_id : string;
  rr_verified : bool;
  rr_snapshot : RuntimeSnapshot;
  rr_skipped_virtual_keys : Z;
}.

Definition restore_control_plane (self : ControlPlane) (export : ControlPlaneExport) (replace : bool)
    (requested_by : string) : Job RestoreResult :=
  let# _ := o_of (validate_export_shape export) in
  let# metadata := schema_metadata in
  if (sm_schema_version metadata <? ex_schema_version export)
     || (sm_migration_version metadata <? ex_migration_version export)
  then o_of (Err (OpsValidation "export was created by a newer schema/migration than this database"))
  else
    let# backup_id := o_ask op_uuid in
    let actor := sanitize_actor requested_by in
    let# _ := o_tx (insert_backup backup_id "restore" actor metadata) in
    let# restored := o_try (o_tx (restore_rows_tx self export replace backup_id actor)) in
    match restored with
    | Err error => let# _ := mark_backup_failed backup_id error in o_of (Err error)
    | Ok (snapshot, skipped) =>
        let# fingerprint := o_of (runtime_snapshot_fingerprint snapshot) in
        if negb (fingerprint =?s rs_fingerprint (ex_runtime_snapshot export)) then
          let# _ := mark_backup_failed backup_id snapshot_mismatch in
          o_of (Err snapshot_mismatch)
        else
          let# checksum := o_of (export_checksum export) in
          let# _ := o_write (fun now => update_backup backup_id (backup_succeeded checksum
            (json_object [("verified", VBool true); ("runtime_snapshot_fingerprint", VString fingerprint);
                          ("skipped_virtual_keys", of_i64 skipped);
                          ("source_schema_version", of_i64 (ex_schema_version export));
                          ("source_migration_version", of_i64 (ex_migration_version export))]) now)) in
          let# _ := backup_audit backup_id "backup.restore" "succeeded" actor
            (json_object [("verified", VBool true); ("schema_version", of_i64 (ex_schema_version export));
                          ("migration_version", of_i64 (ex_migration_version export))]) None None in
          o_ret (mkRestoreResult backup_id true snapshot skipped)
    end.

(** [import_control_plane] of [src/src/api/ops.rs] after a successful restore:
    the snapshot is offered to the live configuration, and the answer of
    [reload_snapshot] is dropped. *)
Definition publish_restored (live : RuntimeSnapshot) (result : RestoreResult) : RuntimeSnapshot :=
  (reload_snapshot live (rr_snapshot result)).2.
End Operations.
