(* ===== verification/ControlPlane.v ===== *)
(** * The operations of the control plane: [src/src/control_plane/sources.rs],
      [accounts.rs], [models.rs], [bindings.rs] and [routes.rs]

    Each operation checks its input, runs one write transaction and returns the
    changed record with the snapshot that replaces the published one. *)

From Stdlib Require Import ZArith Lia.
From stdpp Require Import base list strings gmap.
From S2P Require Import Prelude.
From S2P Require Import RustStr.
From S2P Require Import Protocol.
From S2P Require Import BTree.
From S2P Require Import Tx.
From S2P Require Import Config.
From S2P Require Import SourceUrl.
From S2P Require Import Json.
From S2P Require Import Catalog.
From S2P Require Import Presets.
From S2P Require Import PresetDiff.
From S2P Require Import ModelCatalog.
From S2P Require Import Snapshot.
From S2P Require Import Secrets.
From S2P Require Import Validation.
From S2P Require Import ControlDb.

Section Operations.
Context `{ErrorTexts} `{ControlEnv} `{BuildCfg} `{UrlCrates} `{Collation} `{PresetSerde} (self : ControlPlane).

(** The outcome of an operation: its result and the tables after it. *)
Definition Outcome (T : Type) : Type := (result T ControlPlaneError * ControlDb)%type.

(** Checks before the transaction is opened. *)
Definition checked {T} (check : result unit ControlPlaneError) (m : ControlTx T) (db : ControlDb) : Outcome T :=
  match check with Ok _ => run_tx m db | Err e => (Err e, db) end.

Definition not_found {T} (kind id : string) : ControlTx T :=
  tx_fail (CpNotFound (kind +:+ " '" +:+ id +:+ "' not found")).
Definition conflict {T} (kind id : string) : ControlTx T :=
  tx_fail (CpConflict (kind +:+ " '" +:+ id +:+ "' already exists")).

(** A deletion: the statement, then the end of the transaction. *)
Definition delete_op (kind id : string) (statement : ControlTx bool) : ControlTx RuntimeSnapshot :=
  let$ deleted := statement in
  if (deleted : bool) then finish_write self else not_found kind id.

(** ** Sources *)

(** [to_value(&HashMap<Protocol, String>)]. *)
Definition endpoints_to_value (endpoints : Endpoints) : Value :=
  VObject (bt_collect (map (fun e => (Protocol_to_string e.1, VString e.2)) endpoints)).

Definition create_source (input : SourceWrite) : ControlDb -> Outcome (Mutation SourceRecord) :=
  checked (validate_source_input input (cp_source_url_policy self))
    (let$ exists_ := tx_read (fun db => is_some (db_sources db !! sw_id input)) in
     if (exists_ : bool) then conflict "source" (sw_id input) else
     let$ preset := tx_query (fun db =>
       ok_or (cd_provider_presets (db_catalog db) !! (sw_provider_preset_id input, sw_provider_preset_version input))
         (CpNotFound ("provider preset '" +:+ sw_provider_preset_id input +:+ "@"
                        +:+ dec (sw_provider_preset_version input) +:+ "' not found"))) in
     let$ auth := tx_of (normalize_object (sw_auth_config input) "source auth_config") in
     let$ capabilities := tx_of (normalize_object (sw_protocol_capabilities input) "source protocol_capabilities") in
     let record := mkSourceRecord (sw_id input) (sw_display_name input) (sw_provider_preset_id input)
                     (sw_provider_preset_version input) (pv_definition preset) (sw_base_url input)
                     (endpoints_to_value (sw_endpoints input)) auth capabilities (sw_enabled input) ce_now ce_now in
     let$ _ := insert_source record in
     finish_mutation self record).

(** [endpoint_overrides] are absolute paths. *)
Definition override_errors (input : SourceCreateWrite) : list string :=
  flat_map (fun e : Protocol * string =>
    when (negb (starts_with e.2 "/") || starts_with e.2 "//")
      ("source.endpoint_overrides." +:+ Protocol_to_string e.1 +:+ " must be an absolute path"))
    (sn_endpoint_overrides input).

(** [ORDER BY version DESC LIMIT 1] among the versions of a preset that
    [keep] admits. *)
Definition latest_version (keep : ProviderPresetRecord -> bool) (db : ControlDb) : option ProviderPresetRecord :=
  foldr (fun r best =>
    if keep r then
      match best with Some b => if pv_version b <? pv_version r then Some r else best | None => Some r end
    else best) None (values (cd_provider_presets (db_catalog db))).

Definition requested_preset (input : SourceCreateWrite) (db : ControlDb) : option ProviderPresetRecord :=
  match sn_provider_preset_version input with
  | Some version => cd_provider_presets (db_catalog db) !! (sn_provider_preset_id input, version)
  | None => latest_version (fun r => pv_id r =?s sn_provider_preset_id input) db
  end.

(** The definition a managed preset stores; [None] for an unreadable custom
    one. *)
Definition requested_definition (input : SourceCreateWrite) (preset : ProviderPresetRecord)
    : result (option ProviderPresetDefinition) ControlPlaneError :=
  let invalid := fun error => CpValidation ["provider preset '" +:+ sn_provider_preset_id input +:+ "@"
                   +:+ dec (pv_version preset) +:+ "' is invalid: " +:+ error] in
  match preset_from_value (pv_definition preset) with
  | Some definition =>
      let? _ := map_err (fun e => invalid (CatalogError_text e)) (preset_validate definition) in
      Ok (Some definition)
  | None =>
      if sn_provider_preset_id input =?s "custom" then Ok None
      else Err (invalid (preset_error (pv_definition preset)))
  end.

(** [unwrap_or_else] of a value the definition supplies; the [expect] holds,
    because a missing definition needs the value. *)
Definition effective_source (input : SourceCreateWrite) (version : Z) (definition : option ProviderPresetDefinition)
    : SourceWrite :=
  let endpoints :=
    match sn_endpoints input, definition with
    | Some endpoints, _ => endpoints
    | None, Some d => fold_left (fun m e => hm_insert m e.1 (pt_endpoint e.2)) (pd_protocols d) []
    | None, None => []
    end in
  mkSourceWrite (sn_id input) (sn_display_name input) (sn_provider_preset_id input) version
    (match sn_base_url input, definition with
     | Some base_url, _ => base_url
     | None, Some d => pd_default_base_url d
     | None, None => ""
     end)
    (hm_extend endpoints (sn_endpoint_overrides input))
    (match sn_auth_config input with
     | Some auth => auth
     | None => match definition with Some d => auth_snapshot d | None => VObject [] end
     end)
    (match sn_protocol_capabilities input with
     | Some capabilities => capabilities
     | None => match definition with Some d => protocol_capabilities_snapshot d | None => VObject [] end
     end)
    (sn_enabled input).

Definition create_source_from_request (input : SourceCreateWrite) (db : ControlDb) : Outcome (Mutation SourceRecord) :=
  let effective :=
    let? _ := no_errors
      (validate_nonempty (sn_id input) "source.id"
       ++ validate_nonempty (sn_display_name input) "source.display_name"
       ++ validate_nonempty (sn_provider_preset_id input) "source.provider_preset_id"
       ++ when (is_some_and (sn_provider_preset_version input) (fun v => v <=? 0))
            "source.provider_preset_version must be positive"
       ++ override_errors input) in
    let? _ := validate_custom_preset_not_shadowing_builtin (sn_id input) (sn_provider_preset_id input) db in
    let? preset := ok_or (requested_preset input db)
      (CpNotFound ("provider preset '" +:+ sn_provider_preset_id input +:+ "'"
         +:+ match sn_provider_preset_version input with Some v => "@" +:+ dec v | None => "" end +:+ " not found")) in
    let? definition := requested_definition input preset in
    if negb (is_some definition) && (negb (is_some (sn_base_url input)) || negb (is_some (sn_endpoints input)))
    then Err (CpValidation ["custom Source creation requires base_url and endpoints"])
    else Ok (effective_source input (pv_version preset) definition) in
  match effective with
  | Ok effective => create_source effective db
  | Err e => (Err e, db)
  end.

Definition set_source (display_name base_url : string) (endpoints auth capabilities : Value) (enabled : bool) (now : Z)
    (row : SourceRecord) : SourceRecord :=
  mkSourceRecord (so_id row) display_name (so_provider_preset_id row) (so_provider_preset_version row)
    (so_provider_preset_snapshot row) base_url endpoints auth capabilities enabled (so_created_at row) now.

Definition update_source (id : string) (input : SourceWrite) : ControlDb -> Outcome (Mutation SourceRecord) :=
  checked (let? _ := validate_resource_id id (sw_id input) "source" in
           validate_source_input input (cp_source_url_policy self))
    (let$ row := tx_query (fetch_source id) in
     if negb ((so_provider_preset_id row =?s sw_provider_preset_id input)
              && (so_provider_preset_version row =? sw_provider_preset_version input))
     then validation "a Source provider preset snapshot is immutable after creation"
     else
       let$ auth := tx_of (normalize_object (sw_auth_config input) "source auth_config") in
       let$ capabilities := tx_of (normalize_object (sw_protocol_capabilities input) "source protocol_capabilities") in
       let$ record := update_source_row id
         (set_source (sw_display_name input) (sw_base_url input) (endpoints_to_value (sw_endpoints input)) auth
            capabilities (sw_enabled input) ce_now) in
       let$ _ := if negb (Bool.eqb (so_enabled row) (sw_enabled input))
                 then apply_manual_health_transition_for_source id (sw_enabled input) ce_utc else tx_ret tt in
       finish_mutation self record).

Definition set_enabled_source (enabled : bool) (now : Z) (row : SourceRecord) : SourceRecord :=
  set_source (so_display_name row) (so_base_url row) (so_endpoints row) (so_auth_config row)
    (so_protocol_capabilities row) enabled now row.

Definition set_source_enabled (id : string) (enabled : bool) : ControlDb -> Outcome (Mutation SourceRecord) :=
  run_tx
    (let$ row := tx_query (fetch_source id) in
     let$ record := update_source_row id (set_enabled_source enabled ce_now) in
     let$ _ := if negb (Bool.eqb (so_enabled row) enabled)
               then apply_manual_health_transition_for_source id enabled ce_utc else tx_ret tt in
     finish_mutation self record).

Definition delete_source (id : string) : ControlDb -> Outcome RuntimeSnapshot :=
  run_tx (delete_op "source" id (delete_source_row id)).

(** ** Accounts *)

Context `{Crypto} `{SerdeJson}.

Definition set_ciphertext (now : Z) (rotated : string) (row : AccountRow) : AccountRow :=
  mkAccountRow (ax_source_id row) (ax_display_name row) (ax_credential_env row) (Some rotated) (ax_enabled row)
    (ax_weight row) (ax_health row) (ax_created_at row) now.

Definition rotate_account_credential (id : string) (secrets : SecretResolver) (nonce : option string)
    : ControlDb -> Outcome RuntimeSnapshot :=
  run_tx
    (let$ row := tx_query (fun db => ok_or (db_accounts db !! id) (CpNotFound "account not found")) in
     let$ ciphertext := tx_of (ok_or (ax_credential_ciphertext row) CpNoCiphertext) in
     let$ rotated := tx_of (map_err CpCredential (rotate_for_account secrets nonce (ax_source_id row) id ciphertext)) in
     let$ _ := update_account_row id (set_ciphertext ce_now rotated) in
     finish_write self).

(** The health of a new row, from the defaults of the schema. *)
Definition default_health : HealthColumns :=
  mkHealthColumns "unknown" "unknown" (Some ce_now) 0 None None None None None None None.

Definition create_account (input : AccountWrite) : ControlDb -> Outcome (Mutation AccountView) :=
  checked (validate_account_input input)
    (let$ exists_ := tx_read (fun db => is_some (db_accounts db !! aw_id input)) in
     if (exists_ : bool) then conflict "account" (aw_id input) else
     let$ _ := tx_query (ensure_source_exists (aw_source_id input)) in
     let$ _ := insert_account (aw_id input)
       (mkAccountRow (aw_source_id input) (aw_display_name input) (aw_credential_env input)
          (aw_credential_ciphertext input) (aw_enabled input) (aw_weight input) default_health ce_now ce_now) in
     let$ _ := if negb (aw_enabled input) then apply_manual_health_transition (aw_id input) false ce_utc
               else tx_ret tt in
     let$ record := tx_query (fetch_account (aw_id input)) in
     finish_mutation self record).

Definition set_account (input : AccountWrite) (now : Z) (row : AccountRow) : AccountRow :=
  mkAccountRow (aw_source_id input) (aw_display_name input) (aw_credential_env input)
    (aw_credential_ciphertext input) (aw_enabled input) (aw_weight input) (ax_health row) (ax_created_at row) now.

Definition update_account (id : string) (input : AccountWrite) : ControlDb -> Outcome (Mutation AccountView) :=
  checked (let? _ := validate_resource_id id (aw_id input) "account" in validate_account_input input)
    (let$ _ := tx_query (ensure_source_exists (aw_source_id input)) in
     let$ previous := tx_read (fun db => db_accounts db !! id) in
     let$ changed := update_account_row id (set_account input ce_now) in
     if negb changed then not_found "account" id else
     let$ _ :=
       if is_some_and previous (fun row => negb (ax_source_id row =?s aw_source_id input)
                                           || negb (Bool.eqb (ax_enabled row) (aw_enabled input)))
       then apply_manual_health_transition id (aw_enabled input) ce_utc else tx_ret tt in
     let$ record := tx_query (fetch_account id) in
     finish_mutation self record).

Definition set_enabled_account (enabled : bool) (now : Z) (row : AccountRow) : AccountRow :=
  mkAccountRow (ax_source_id row) (ax_display_name row) (ax_credential_env row) (ax_credential_ciphertext row)
    enabled (ax_weight row) (ax_health row) (ax_created_at row) now.

Definition set_account_enabled (id : string) (enabled : bool) : ControlDb -> Outcome (Mutation AccountView) :=
  run_tx
    (let$ changed := update_account_row id (set_enabled_account enabled ce_now) in
     if negb changed then not_found "account" id else
     let$ _ := apply_manual_health_transition id enabled ce_utc in
     let$ record := tx_query (fetch_account id) in
     finish_mutation self record).

Definition delete_account (id : string) : ControlDb -> Outcome RuntimeSnapshot :=
  run_tx (delete_op "account" id (delete_account_row id)).

(** ** Logical models *)

Definition create_logical_model (input : LogicalModelWrite) : ControlDb -> Outcome (Mutation LogicalModelView) :=
  checked (validate_logical_model_input input)
    (let$ exists_ := tx_read (fun db => is_some (db_logical_models db !! lw_id input)) in
     if (exists_ : bool) then conflict "logical model" (lw_id input) else
     let$ metadata := tx_of (normalize_object (lw_metadata input) "logical model metadata") in
     let$ field_sources := tx_of (normalize_object (lw_field_sources input) "logical model field_sources") in
     let record := mkLogicalModelView (lw_id input) (lw_public_name input) (lw_display_name input) (lw_status input)
                     metadata field_sources (lw_enabled input) None None
                     (then_some (bool_decide (lw_status input = CsConfirmed)) ce_utc)
                     (then_some (bool_decide (lw_status input = CsUnavailable)) ce_utc) ce_now ce_now in
     let$ _ := insert_logical_model record in
     finish_mutation self record).

(** [CASE WHEN status='confirmed' THEN COALESCE(confirmed_at,NOW()) ELSE confirmed_at END]. *)
Definition confirmed_time (status : CatalogStatus) (confirmed_at : option Z) (now : Z) : option Z :=
  if bool_decide (status = CsConfirmed) then opt_or confirmed_at (Some now) else confirmed_at.

Definition update_logical_model (id : string) (input : LogicalModelWrite)
    : ControlDb -> Outcome (Mutation LogicalModelView) :=
  checked (let? _ := validate_resource_id id (lw_id input) "logical model" in validate_logical_model_input input)
    (let$ row := tx_query (fetch_logical_model id) in
     let$ _ := tx_of (validate_status_transition (lv_status row) (lw_status input) "logical model") in
     let$ metadata := tx_of (normalize_object (lw_metadata input) "logical model metadata") in
     let$ field_sources := tx_of (normalize_object (lw_field_sources input) "logical model field_sources") in
     let record := mkLogicalModelView id (lw_public_name input) (lw_display_name input) (lw_status input)
                     metadata field_sources (lw_enabled input) (lv_request_timeout_ms row) (lv_max_retries row)
                     (confirmed_time (lw_status input) (lv_confirmed_at row) ce_now)
                     (then_some (bool_decide (lw_status input = CsUnavailable)) ce_now) (lv_created_at row) ce_now in
     let$ _ := put_logical_model record in
     finish_mutation self record).

Definition set_enabled_model (row : LogicalModelView) (enabled : bool) (now : Z) : LogicalModelView :=
  mkLogicalModelView (lv_id row) (lv_public_name row) (lv_display_name row) (lv_status row) (lv_metadata row)
    (lv_field_sources row) enabled (lv_request_timeout_ms row) (lv_max_retries row) (lv_confirmed_at row)
    (lv_unavailable_at row) (lv_created_at row) now.

Definition set_logical_model_enabled (id : string) (enabled : bool)
    : ControlDb -> Outcome (Mutation LogicalModelView) :=
  run_tx
    (let$ row := tx_query (fetch_logical_model id) in
     let record := set_enabled_model row enabled ce_now in
     let$ _ := put_logical_model record in
     finish_mutation self record).

Definition delete_logical_model (id : string) : ControlDb -> Outcome RuntimeSnapshot :=
  run_tx (delete_op "logical model" id (delete_logical_model_row id)).

(** ** Capabilities and bindings *)

(** A [NULL] metadata is no source model; the column has none. *)
Definition upsert_source_model_capability (input : SourceModelCapabilityInput)
    : ControlDb -> Outcome (Mutation SourceModelCapabilityRecord) :=
  run_tx
    (let$ model := tx_query (fun db =>
       ok_or (find_source_model db (ci_source_id input) (ci_upstream_model_id input))
         (CpValidation ["source model " +:+ ci_source_id input +:+ "/" +:+ ci_upstream_model_id input +:+ " not found"])) in
     let resolved :=
       match ci_feature_capabilities input with
       | [] =>
           mkSourceModelCapabilityInput (ci_source_id input) (ci_upstream_model_id input) (ci_protocol input)
             (ci_status input) (ci_mode input) (ci_source_protocol input) (ci_adapter input)
             (derive_feature_capabilities (sm_metadata model)) (ci_field_source input) (ci_observed_at input)
       | _ => input
       end in
     let$ record := in_catalog (upsert_source_model_capability_conn resolved ce_utc ce_now) in
     finish_mutation self record).

Definition new_binding (input : ModelBindingWrite) (id : Z) : ModelBindingView :=
  mkModelBindingView id (bw_logical_model_id input) (bw_source_id input) (bw_account_id input)
    (bw_upstream_model_id input) (bw_protocol input) (bw_status input) (bw_enabled input) (bw_priority input)
    (then_some (bool_decide (bw_status input = CsConfirmed)) ce_utc)
    (then_some (bool_decide (bw_status input = CsUnavailable)) ce_utc) ce_now ce_now.

Definition create_model_binding (input : ModelBindingWrite) : ControlDb -> Outcome (Mutation ModelBindingView) :=
  checked (validate_binding_input_shape input)
    (let$ _ := tx_query (validate_binding_reference input) in
     let$ record := insert_binding (new_binding input) in
     finish_mutation self record).

Definition set_binding (row : ModelBindingView) (input : ModelBindingWrite) (id : Z) : ModelBindingView :=
  mkModelBindingView id (bw_logical_model_id input) (bw_source_id input) (bw_account_id input)
    (bw_upstream_model_id input) (bw_protocol input) (bw_status input) (bw_enabled input) (bw_priority input)
    (confirmed_time (bw_status input) (bv_confirmed_at row) ce_now)
    (then_some (bool_decide (bw_status input = CsUnavailable)) ce_now) (bv_created_at row) ce_now.

Definition update_model_binding (id : Z) (input : ModelBindingWrite) : ControlDb -> Outcome (Mutation ModelBindingView) :=
  checked (validate_binding_input_shape input)
    (let$ row := tx_query (fetch_model_binding id) in
     let$ _ := tx_of (validate_status_transition (bv_status row) (bw_status input) "model binding") in
     let$ _ := tx_query (validate_binding_reference input) in
     let record := set_binding row input id in
     let$ _ := update_binding record in
     finish_mutation self record).

(** The write a stored binding stands for. *)
Definition binding_write (row : ModelBindingView) (enabled : bool) : ModelBindingWrite :=
  mkModelBindingWrite (bv_logical_model_id row) (bv_source_id row) (bv_account_id row) (bv_upstream_model_id row)
    (bv_protocol row) (bv_status row) enabled (bv_priority row).

Definition set_enabled_binding (row : ModelBindingView) (id : Z) (enabled : bool) : ModelBindingView :=
  mkModelBindingView id (bv_logical_model_id row) (bv_source_id row) (bv_account_id row) (bv_upstream_model_id row)
    (bv_protocol row) (bv_status row) enabled (bv_priority row) (bv_confirmed_at row) (bv_unavailable_at row)
    (bv_created_at row) ce_now.

Definition set_model_binding_enabled (id : Z) (enabled : bool) : ControlDb -> Outcome (Mutation ModelBindingView) :=
  run_tx
    (let$ row := tx_query (fetch_model_binding id) in
     let$ _ := if enabled then tx_query (validate_binding_reference (binding_write row enabled)) else tx_ret tt in
     let record := set_enabled_binding row id enabled in
     let$ _ := update_binding record in
     finish_mutation self record).

Definition delete_model_binding (id : Z) : ControlDb -> Outcome RuntimeSnapshot :=
  run_tx (delete_op "model binding" (dec id) (delete_binding_row id)).

(** ** Routes *)

(** [to_value(&Vec<Protocol>)]. *)
Definition protocols_to_value (protocols : list Protocol) : Value :=
  VArray (map (fun p => VString (Protocol_to_string p)) protocols).

(** The public name of a model; [fetch_one] fails without a row. *)
Definition public_name_of (logical_model_id : string) (db : ControlDb) : result string ControlPlaneError :=
  ok_or (lv_public_name <$> db_logical_models db !! logical_model_id) (of_sqlx RowNotFound).

Definition create_route (input : RouteWrite) : ControlDb -> Outcome (Mutation RouteView) :=
  checked (validate_route_input_shape input)
    (let$ exists_ := tx_read (fun db => is_some (db_routes db !! tw_id input)) in
     if (exists_ : bool) then conflict "route" (tw_id input) else
     let$ _ := tx_query (validate_route_reference input) in
     let$ public_name := tx_query (public_name_of (tw_logical_model_id input)) in
     let$ _ := insert_route (mkRouteRow (tw_id input) (tw_logical_model_id input) public_name
                 (protocols_to_value (tw_protocols input)) (tw_strategy input) (tw_allow_lossy_conversion input)
                 (tw_enabled input) ce_now ce_now) in
     let$ record := tx_query (fetch_route (tw_id input)) in
     finish_mutation self record).

Definition update_route (id : string) (input : RouteWrite) : ControlDb -> Outcome (Mutation RouteView) :=
  checked (let? _ := validate_resource_id id (tw_id input) "route" in validate_route_input_shape input)
    (let$ _ := tx_query (validate_route_reference input) in
     let$ public_name := tx_query (public_name_of (tw_logical_model_id input)) in
     let$ row := tx_read (fun db => db_routes db !! id) in
     match row with
     | None => not_found "route" id
     | Some row =>
         let$ _ := put_route (mkRouteRow id (tw_logical_model_id input) public_name
                     (protocols_to_value (tw_protocols input)) (tw_strategy input) (tw_allow_lossy_conversion input)
                     (tw_enabled input) (ro_created_at row) ce_now) in
         let$ record := tx_query (fetch_route id) in
         finish_mutation self record
     end).

Definition set_enabled_route (row : RouteRow) (enabled : bool) : RouteRow :=
  mkRouteRow (ro_id row) (ro_logical_model_id row) (ro_model_pattern row) (ro_protocols row) (ro_strategy row)
    (ro_allow_lossy_conversion row) enabled (ro_created_at row) ce_now.

Definition set_route_enabled (id : string) (enabled : bool) : ControlDb -> Outcome (Mutation RouteView) :=
  run_tx
    (let$ current := tx_query (fetch_route id) in
     let$ _ :=
       if enabled then
         let$ protocols := tx_of (ok_or (protocols_from_value (tv_protocols current))
                                   (CpJson (protocols_error (tv_protocols current)))) in
         tx_query (validate_route_reference
           (mkRouteWrite (tv_id current) (tv_logical_model_id current) protocols (tv_strategy current)
              (tv_allow_lossy_conversion current) enabled))
       else tx_ret tt in
     let$ row := tx_query (fun db => ok_or (db_routes db !! id) (of_sqlx RowNotFound)) in
     let$ _ := put_route (set_enabled_route row enabled) in
     let$ record := tx_query (fetch_route id) in
     finish_mutation self record).

Definition delete_route (id : string) : ControlDb -> Outcome RuntimeSnapshot :=
  run_tx (delete_op "route" id (delete_route_row id)).
End Operations.
