(* ===== verification/ModelRouting.v ===== *)
(** * Editing a model as a whole: [src/src/control_plane/model_routing.rs]

    [write_model_routing] compiles the list of a model's lines (source, account,
    upstream model) into bindings and one route in a single transaction;
    [fetch_model_routing] reads the list back from the tables. *)

From Stdlib Require Import ZArith Lia.
From stdpp Require Import base list strings gmap.
From S2P Require Import Prelude.
From S2P Require Import RustStr.
From S2P Require Import Protocol.
From S2P Require Import BTree.
From S2P Require Import Tx.
From S2P Require Import Config.
From S2P Require Import SourceUrl.
From S2P Require Import Json.
From S2P Require Import Catalog.
From S2P Require Import Presets.
From S2P Require Import PresetDiff.
From S2P Require Import ModelCatalog.
From S2P Require Import Snapshot.
From S2P Require Import Secrets.
From S2P Require Import Validation.
From S2P Require Import ControlDb.
From S2P Require Import ControlPlane.

Section Routing.
Context `{ErrorTexts} `{ControlEnv} `{BuildCfg} `{UrlCrates} `{Collation} (self : ControlPlane).

(** ** The input *)

Definition line_errors (lines : list ModelRoutingLineWrite) (position : nat) (line : ModelRoutingLineWrite) : list string :=
  let name := "lines[" +:+ dec (Z.of_nat position) +:+ "]" in
  when (existsb (fun value => is_empty (trim value))
          [rl_source_id line; rl_account_id line; rl_upstream_model_id line])
    (name +:+ " source, account and upstream model are required")
  ++ when (bool_decide (line ∈ take position lines)) (name +:+ " duplicates an upstream line").

Definition validate_model_routing (id : string) (input : ModelRoutingWrite) : result unit ControlPlaneError :=
  let? _ := validate_logical_model_input
    (mkLogicalModelWrite id (rw_public_name input) (rw_display_name input) CsConfirmed (VObject []) (VObject [])
       (rw_enabled input)) in
  no_errors
    (when (rw_enabled input && bool_decide (rw_lines input = []))
       "an enabled logical model requires at least one upstream line"
     ++ when (is_some_and (rw_request_timeout_ms input) (fun value => value <=? 0))
          "request_timeout_ms must be a positive integer or null"
     ++ when (is_some_and (rw_max_retries input) (fun value => value <? 0))
          "max_retries must be a nonnegative integer or null"
     ++ concat (imap (line_errors (rw_lines input)) (rw_lines input))).

(** ** Reading *)

Record RoutingBindingRow : Type := mkRoutingBindingRow {
  br_source_id : string;
  br_account_id : string;
  br_upstream_model_id : string;
  br_protocol : Protocol;
  br_routable : bool;
}.

(** [EXISTS(SELECT 1 FROM routes ..)]. *)
Definition route_serves (db : ControlDb) (logical_model_id : string) (protocol : Protocol) : bool :=
  existsb (fun r => (ro_logical_model_id r =?s logical_model_id) && ro_enabled r
                    && json_has (ro_protocols r) (Protocol_to_string protocol)) (values (db_routes db)).

(** The joined row of a binding, with [COALESCE(.., FALSE)]. *)
Definition routing_row (db : ControlDb) (b : ModelBindingView) : option RoutingBindingRow :=
  match db_sources db !! bv_source_id b, db_accounts db !! bv_account_id b with
  | Some s, Some a =>
      if ax_source_id a =?s bv_source_id b then
        Some (mkRoutingBindingRow (bv_source_id b) (bv_account_id b) (bv_upstream_model_id b) (bv_protocol b)
                (bv_enabled b && bool_decide (bv_status b = CsConfirmed) && so_enabled s && ax_enabled a
                 && is_some_and (find_source_model db (bv_source_id b) (bv_upstream_model_id b)) model_serving
                 && is_some_and (find_capability db (bv_source_id b) (bv_upstream_model_id b) (bv_protocol b))
                      capability_serving
                 && route_serves db (bv_logical_model_id b) (bv_protocol b)))
      else None
  | _, _ => None
  end.

(** [ORDER BY b.priority DESC, b.id]. *)
Definition priority_before (a b : ModelBindingView) : bool :=
  first (then_cmp (bv_priority b ?= bv_priority a) (bv_id a ?= bv_id b)).

Definition model_bindings (db : ControlDb) (id : string) : list ModelBindingView :=
  order_by priority_before (filter (fun b => bv_logical_model_id b = id) (values (db_bindings db))).

Definition routing_rows (db : ControlDb) (id : string) : list RoutingBindingRow :=
  omap (routing_row db) (model_bindings db id).

Definition same_routing_line (row : RoutingBindingRow) (line : ModelRoutingLineView) : bool :=
  (rv_source_id line =?s br_source_id row) && (rv_account_id line =?s br_account_id row)
  && (rv_upstream_model_id line =?s br_upstream_model_id row).

Definition has_protocol (protocols : list Protocol) (p : Protocol) : bool := existsb (Protocol_eqb p) protocols.

Definition line_of_row (row : RoutingBindingRow) : ModelRoutingLineView :=
  mkModelRoutingLineView (br_source_id row) (br_account_id row) (br_upstream_model_id row) [].

Definition push_protocol (p : Protocol) (line : ModelRoutingLineView) : ModelRoutingLineView :=
  mkModelRoutingLineView (rv_source_id line) (rv_account_id line) (rv_upstream_model_id line)
    (rv_protocols line ++ [p]).

(** The loop body: the row's line is the first equal one, or a new one; a
    routable protocol is added to it and to the model once. *)
Definition add_routing_row (acc : list ModelRoutingLineView * list Protocol) (row : RoutingBindingRow)
    : list ModelRoutingLineView * list Protocol :=
  let '(lines, protocols) := acc in
  let lines := if existsb (same_routing_line row) lines then lines else lines ++ [line_of_row row] in
  match List.find (same_routing_line row) lines with
  | Some line =>
      if br_routable row && negb (has_protocol (rv_protocols line) (br_protocol row))
      then (unwrap_or (update_first (same_routing_line row) (push_protocol (br_protocol row)) lines) lines,
            if has_protocol protocols (br_protocol row) then protocols else protocols ++ [br_protocol row])
      else (lines, protocols)
  | None => (lines, protocols)
  end.

Definition sort_line (line : ModelRoutingLineView) : ModelRoutingLineView :=
  mkModelRoutingLineView (rv_source_id line) (rv_account_id line) (rv_upstream_model_id line)
    (sort_by Protocol_to_string (rv_protocols line)).

(** The strategies of the model's routes, without duplicates. *)
Definition route_strategy (db : ControlDb) (id : string) : string :=
  match remove_dups (map ro_strategy (filter (fun r => ro_logical_model_id r = id) (values (db_routes db)))) with
  | [] => "ordered_fallback"
  | [strategy] => strategy
  | _ => "mixed"
  end.

Definition fetch_model_routing (id : string) (db : ControlDb) : result ModelRoutingView ControlPlaneError :=
  let? model := fetch_logical_model id db in
  let '(lines, protocols) := fold_left add_routing_row (routing_rows db id) ([], []) in
  Ok (mkModelRoutingView model (map sort_line lines) (sort_by Protocol_to_string protocols) (route_strategy db id)
        (lv_request_timeout_ms model) (lv_max_retries model)).

(** ** Writing *)

(** [SELECT cap.protocol .. ORDER BY cap.protocol]. *)
Definition line_serves (db : ControlDb) (line : ModelRoutingLineWrite) (protocol : Protocol) : bool :=
  is_some_and (db_sources db !! rl_source_id line) so_enabled
  && is_some_and (db_accounts db !! rl_account_id line)
       (fun a => (ax_source_id a =?s rl_source_id line) && ax_enabled a)
  && is_some_and (find_source_model db (rl_source_id line) (rl_upstream_model_id line)) model_serving
  && is_some_and (find_capability db (rl_source_id line) (rl_upstream_model_id line) protocol) capability_serving.

Definition line_protocols (line : ModelRoutingLineWrite) (db : ControlDb) : list Protocol :=
  filter (fun p => line_serves db line p = true) Protocol_ALL.

(** [-(position as i32)]. *)
Definition line_priority (position : nat) : Z := wrap_i 32 (- wrap_i 32 (Z.of_nat position)).

Definition line_binding (id : string) (position : nat) (line : ModelRoutingLineWrite) (protocol : Protocol)
    : ModelBindingWrite :=
  mkModelBindingWrite id (rl_source_id line) (rl_account_id line) (rl_upstream_model_id line) protocol CsConfirmed true
    (line_priority position).

(** The row of the [INSERT]: its times are the database's. *)
Definition line_row (binding : ModelBindingWrite) (id : Z) : ModelBindingView :=
  mkModelBindingView id (bw_logical_model_id binding) (bw_source_id binding) (bw_account_id binding)
    (bw_upstream_model_id binding) (bw_protocol binding) CsConfirmed true (bw_priority binding) (Some ce_now) None
    ce_now ce_now.

Fixpoint write_line_protocols (id : string) (position : nat) (line : ModelRoutingLineWrite) (line_protocols : list Protocol)
    (protocols : list Protocol) : ControlTx (list Protocol) :=
  match line_protocols with
  | [] => tx_ret protocols
  | protocol :: line_protocols =>
      let binding := line_binding id position line protocol in
      let$ _ := tx_query (validate_binding_reference binding) in
      let$ _ := insert_binding (line_row binding) in
      write_line_protocols id position line line_protocols
        (if has_protocol protocols protocol then protocols else protocols ++ [protocol])
  end.

Fixpoint write_lines (id : string) (position : nat) (lines : list ModelRoutingLineWrite) (protocols : list Protocol)
    : ControlTx (list Protocol) :=
  match lines with
  | [] => tx_ret protocols
  | line :: lines =>
      let$ found := tx_read (line_protocols line) in
      match found with
      | [] => validation ("lines[" +:+ dec (Z.of_nat position) +:+ "] requires an enabled source/account and a confirmed available source model with a confirmed routable protocol")
      | _ =>
          let$ protocols := write_line_protocols id position line found protocols in
          write_lines id (S position) lines protocols
      end
  end.

(** The model row before its lines are written: enabled, so that its bindings
    may be. *)
Definition set_status (row : LogicalModelView) (status : CatalogStatus) : LogicalModelView :=
  mkLogicalModelView (lv_id row) (lv_public_name row) (lv_display_name row) status (lv_metadata row)
    (lv_field_sources row) (lv_enabled row) (lv_request_timeout_ms row) (lv_max_retries row) (lv_confirmed_at row)
    (lv_unavailable_at row) (lv_created_at row) (lv_updated_at row).

Definition created_model (id : string) (input : ModelRoutingWrite) (status : CatalogStatus) : LogicalModelView :=
  mkLogicalModelView id (rw_public_name input) (rw_display_name input) status (VObject []) (VObject []) true
    (rw_request_timeout_ms input) (rw_max_retries input)
    (then_some (bool_decide (status = CsConfirmed)) ce_now) (then_some (bool_decide (status = CsUnavailable)) ce_now)
    ce_now ce_now.

Definition edited_model (row : LogicalModelView) (input : ModelRoutingWrite) (status : CatalogStatus) : LogicalModelView :=
  mkLogicalModelView (lv_id row) (rw_public_name input) (rw_display_name input) status (lv_metadata row)
    (lv_field_sources row) true (rw_request_timeout_ms input) (rw_max_retries input)
    (confirmed_time status (lv_confirmed_at row) ce_now)
    (if bool_decide (status = CsUnavailable) then lv_unavailable_at row else None) (lv_created_at row) ce_now.

Definition set_model_enabled (row : LogicalModelView) (enabled : bool) : LogicalModelView :=
  mkLogicalModelView (lv_id row) (lv_public_name row) (lv_display_name row) (lv_status row) (lv_metadata row)
    (lv_field_sources row) enabled (lv_request_timeout_ms row) (lv_max_retries row) (lv_confirmed_at row)
    (lv_unavailable_at row) (lv_created_at row) (lv_updated_at row).

(** The transitions of the status: saving lines reconfirms an unavailable
    model by way of [pending]. *)
Definition reconfirm (row : LogicalModelView) (next_status : CatalogStatus) : ControlTx LogicalModelView :=
  if bool_decide (lv_status row = CsUnavailable) && bool_decide (next_status = CsConfirmed) then
    let$ _ := tx_of (validate_status_transition (lv_status row) CsPending "logical model") in
    let pending := set_status row CsPending in
    let$ _ := put_logical_model pending in
    let$ _ := tx_of (validate_status_transition CsPending next_status "logical model") in
    tx_ret pending
  else
    let$ _ := tx_of (validate_status_transition (lv_status row) next_status "logical model") in
    tx_ret row.

(** [SELECT id FROM routes .. ORDER BY id LIMIT 1]. *)
Definition first_route (id : string) (db : ControlDb) : option string :=
  head (order_by (fun a b => first (collate a b))
          (map ro_id (filter (fun r => ro_logical_model_id r = id) (values (db_routes db))))).

Definition clear_model (id : string) (db : ControlDb) : ControlDb :=
  set_bindings (set_routes db (filter (fun kv => ro_logical_model_id kv.2 <> id) (db_routes db)))
    (filter (fun kv => bv_logical_model_id kv.2 <> id) (db_bindings db)) (db_binding_seq db).

Definition write_route (id : string) (input : ModelRoutingWrite) (route_id : string) (protocols : list Protocol)
    : ControlTx unit :=
  let route := mkRouteWrite route_id id protocols "ordered_fallback" false true in
  let$ _ := tx_query (validate_route_reference route) in
  insert_route (mkRouteRow route_id id (rw_public_name input) (protocols_to_value protocols) "ordered_fallback" false
                  true ce_now ce_now).

Definition write_model_row (id : string) (input : ModelRoutingWrite) (create : bool) (current : option LogicalModelView)
    : ControlTx LogicalModelView :=
  let next_status :=
    match rw_lines input with
    | [] => unwrap_or (lv_status <$> current) CsConfirmed
    | _ => CsConfirmed
    end in
  let$ current := match current with
                  | Some row => tx_bind (reconfirm row next_status) (fun row => tx_ret (Some row))
                  | None => tx_ret None
                  end in
  let row := match create, current with
             | false, Some row => edited_model row input next_status
             | _, _ => created_model id input next_status
             end in
  let$ _ := if create then insert_logical_model row else put_logical_model row in
  tx_ret row.

Definition write_model_routing (id : string) (input : ModelRoutingWrite) (create : bool)
    : ControlDb -> Outcome (Mutation ModelRoutingView) :=
  checked (validate_model_routing id input)
    (let$ current := tx_read (fun db => db_logical_models db !! id) in
     if negb create && negb (is_some current) then not_found "logical model" id else
     let$ row := write_model_row id input create current in
     let$ route_id := tx_read (first_route id) in
     let$ _ := tx_write (clear_model id) in
     let$ protocols := write_lines id 0 (rw_lines input) [] in
     let$ _ := match protocols with
               | [] => tx_ret tt
               | _ => write_route id input (unwrap_or route_id ("model-routing-" +:+ ce_route_uuid))
                        (sort_by Protocol_to_string protocols)
               end in
     let$ _ := put_logical_model (set_model_enabled row (rw_enabled input)) in
     let$ record := tx_query (fetch_model_routing id) in
     finish_mutation self record).

Definition create_model_routing (input : ModelRoutingWrite) : ControlDb -> Outcome (Mutation ModelRoutingView) :=
  write_model_routing ("model-" +:+ ce_model_uuid) input true.
Definition put_model_routing (id : string) (input : ModelRoutingWrite) : ControlDb -> Outcome (Mutation ModelRoutingView) :=
  write_model_routing id input false.
End Routing.
