(* ===== verification/Import.v ===== *)
(** * Importing a configuration: [src/src/control_plane/import.rs] and
      [initialize_from_config] of [service.rs]

    A [GatewayConfig] becomes rows of the control plane: a source per provider,
    a logical model per model a route serves, and for each account of the route
    and each protocol a confirmed capability and a binding. *)

From Stdlib Require Import ZArith Lia.
From stdpp Require Import base list strings gmap.
From S2P Require Import Prelude.
From S2P Require Import RustStr.
From S2P Require Import Protocol.
From S2P Require Import BTree.
From S2P Require Import Tx.
From S2P Require Import Config.
From S2P Require Import SourceUrl.
From S2P Require Import Json.
From S2P Require Import Catalog.
From S2P Require Import Presets.
From S2P Require Import PresetDiff.
From S2P Require Import ModelCatalog.
From S2P Require Import Snapshot.
From S2P Require Import Validation.
From S2P Require Import ControlDb.
From S2P Require Import ControlPlane.

(** ** Derived serialisation *)

Definition CapabilityMode_to_string (mode : CapabilityMode) : string :=
  match mode with CNative => "native" | CTranslated => "translated" | CUnsupported => "unsupported" end.

Definition Capabilities_to_value (c : Capabilities) : Value :=
  object_of (map (fun kv => (kv.1, VString (CapabilityMode_to_string kv.2)))
    [("streaming", cap_streaming c); ("tools", cap_tools c); ("tool_streaming", cap_tool_streaming c);
     ("thinking", cap_thinking c); ("web_search", cap_web_search c); ("file_search", cap_file_search c);
     ("vision", cap_vision c); ("usage", cap_usage c)]).

Definition ProtocolMode_to_string (mode : ProtocolMode) : string :=
  match mode with PNative => "native" | PAdapter => "adapter" | PUnsupported => "unsupported" end.

(** [skip_serializing_if = "Option::is_none"]. *)
Definition some_field {A} (key : string) (o : option A) (f : A -> Value) : list (string * Value) :=
  match o with Some x => [(key, f x)] | None => [] end.

Definition ProtocolCapability_to_value (c : ProtocolCapability) : Value :=
  object_of (("mode", VString (ProtocolMode_to_string (pc_mode c)))
    :: some_field "source_protocol" (pc_source_protocol c) (fun p => VString (Protocol_to_string p))
    ++ some_field "adapter" (pc_adapter c) VString).

Definition matrix_to_value (m : ProtocolCapabilityMatrix) : Value :=
  object_of (map (fun e => (Protocol_to_string e.1, ProtocolCapability_to_value e.2)) m).

(** ** The models of a route *)

Definition expand_route_models (route : RouteConfig) (config : GatewayConfig) : result (list string) ControlPlaneError :=
  let? provider := ok_or (Config.provider config (rt_provider_id route))
    (CpValidation ["route '" +:+ rt_id route +:+ "' references unknown provider '" +:+ rt_provider_id route +:+ "'"]) in
  let models :=
    if rt_model route =?s "*" then Config.pv_models provider
    else match strip_suffix "*" (rt_model route) with
         | Some prefix => List.filter (fun model => starts_with model prefix) (Config.pv_models provider)
         | None => [rt_model route]
         end in
  match dedup (sort_by id models) with
  | [] => Err (CpValidation ["route '" +:+ rt_id route +:+ "' pattern '" +:+ rt_model route
                 +:+ "' matched no provider models"])
  | models => Ok models
  end.

Definition logical_model_id (public_name : string) : string := "logical:" +:+ public_name.

Section ImportConfig.
Context `{ErrorTexts} `{ControlEnv} `{BuildCfg} `{UrlCrates} `{Collation} `{PresetSerde} (self : ControlPlane).

(** The loops of the import. *)
Fixpoint for_all {A} (f : A -> ControlTx unit) (l : list A) : ControlTx unit :=
  match l with [] => tx_ret tt | x :: l => let$ _ := f x in for_all f l end.

Definition resolve_import_provider_preset (provider : ProviderConfig) (db : ControlDb) : string * Z * Value :=
  match latest_version (fun r => (pv_id r =?s Config.pv_id provider) && negb (pv_id r =?s "custom")) db with
  | Some r => (Config.pv_id provider, pv_version r, pv_definition r)
  | None =>
      ("custom", 1,
       object_of [("base_url", VString (Config.pv_base_url provider)); ("endpoints", endpoints_to_value (Config.pv_endpoints provider));
                  ("protocol_capabilities", matrix_to_value (Config.pv_protocol_capabilities provider));
                  ("native_protocols", protocols_to_value (Config.pv_native_protocols provider));
                  ("capabilities", Capabilities_to_value (Config.pv_capabilities provider))])
  end.

Definition import_provider (provider : ProviderConfig) : ControlTx unit :=
  let$ preset := tx_read (resolve_import_provider_preset provider) in
  let '(preset_id, preset_version, preset_snapshot) := preset in
  let$ auth_config :=
    if preset_id =?s "custom" then tx_ret (VObject [])
    else tx_of (match preset_from_value preset_snapshot with
                | Some definition => Ok (auth_snapshot definition)
                | None => Err (CpJson (preset_error preset_snapshot))
                end) in
  insert_source (mkSourceRecord (Config.pv_id provider) (Config.pv_name provider) preset_id preset_version preset_snapshot
    (Config.pv_base_url provider) (endpoints_to_value (Config.pv_endpoints provider)) auth_config
    (matrix_to_value (Config.pv_protocol_capabilities provider)) true ce_now ce_now).

Definition import_account (account : AccountConfig) : ControlTx unit :=
  insert_account (ac_id account)
    (mkAccountRow (ac_provider_id account) (ac_display_name account) (ac_credential_env account) None
       (ac_enabled account) (wrap_i 32 (ac_weight account)) default_health ce_now ce_now).

(** [INSERT .. ON CONFLICT (public_name) DO UPDATE]; the id of the row. *)
Definition import_logical_model (public_name : string) : ControlTx string :=
  let$ existing := tx_read (fun db =>
    List.find (fun m => lv_public_name m =?s public_name) (values (db_logical_models db))) in
  match existing with
  | Some m =>
      let$ _ := put_logical_model
        (mkLogicalModelView (lv_id m) (lv_public_name m) public_name CsConfirmed (lv_metadata m) (lv_field_sources m) true
           (lv_request_timeout_ms m) (lv_max_retries m) (opt_or (lv_confirmed_at m) (Some ce_now)) (lv_unavailable_at m)
           (lv_created_at m) ce_now) in
      tx_ret (lv_id m)
  | None =>
      let$ _ := insert_logical_model
        (mkLogicalModelView (logical_model_id public_name) public_name public_name CsConfirmed (VObject []) (VObject [])
           true None None (Some ce_now) None ce_now ce_now) in
      tx_ret (logical_model_id public_name)
  end.

Definition ensure_imported_source_model (source_id upstream_model_id : string) : ControlTx unit :=
  let snapshot := object_of [("origin", VString "GATEWAY_CONFIG_JSON")] in
  let$ _ := sql_check (fun db => is_some (db_sources db !! source_id)) ForeignKeyViolation in
  tx_write (fun db =>
    let c := db_catalog db in
    let row :=
      match cd_source_models c !! (source_id, upstream_model_id) with
      | Some m =>
          mkSourceModelRecord (sm_source_id m) (sm_upstream_model_id m) CsConfirmed CaAvailable snapshot (sm_metadata m)
            (sm_field_sources m) (sm_matched_model_preset_id m) (sm_matched_model_preset_version m)
            (sm_first_discovered_at m) (sm_last_discovered_at m) (opt_or (sm_confirmed_at m) (Some ce_now)) None
            (sm_created_at m) ce_now
      | None =>
          mkSourceModelRecord source_id upstream_model_id CsConfirmed CaAvailable snapshot (VObject []) (VObject [])
            None None ce_now ce_now (Some ce_now) None ce_now ce_now
      end in
    set_catalog db (ModelCatalog.set_source_models c (<[(source_id, upstream_model_id) := row]> (cd_source_models c)))).

(** The [INSERT .. ON CONFLICT] of both capability statements. *)
Definition put_imported_capability (source_id upstream_model_id : string) (protocol : Protocol) (mode : SourceProtocolMode)
    (source_protocol : option Protocol) (adapter : option string) (features : Value) : ControlTx unit :=
  let key := (source_id, upstream_model_id, protocol) in
  let$ _ := sql_check (fun _ =>
    match mode with
    | SmAdapter => is_some source_protocol && negb (bool_decide (source_protocol = Some protocol))
                   && is_some_and adapter (fun a => negb (is_empty (trim_start_matches (chr 32) a)))
    | _ => negb (is_some source_protocol) && negb (is_some adapter)
    end) CheckViolation in
  let$ _ := sql_check (fun db => is_some (find_source_model db source_id upstream_model_id)) ForeignKeyViolation in
  tx_write (fun db =>
    let c := db_catalog db in
    let old := cd_capabilities c !! key in
    let row :=
      mkSourceModelCapabilityRecord source_id upstream_model_id protocol CsConfirmed mode source_protocol adapter features
        "user" (unwrap_or (mc_observed_at <$> old) ce_now)
        (opt_or (old ≫= mc_confirmed_at) (Some ce_now)) None ce_now in
    set_catalog db (set_capabilities c (<[key := row]> (cd_capabilities c)))).

Definition ensure_imported_native_capability (source_id upstream_model_id : string) (protocol : Protocol)
    (features : Value) : ControlTx unit :=
  put_imported_capability source_id upstream_model_id protocol SmNative None None features.

Definition ensure_imported_capability (config : GatewayConfig) (account : AccountConfig)
    (logical_model upstream_model_id : string) (protocol : Protocol) (capability : ProtocolCapability) : ControlTx unit :=
  let provider_id := ac_provider_id account in
  let features := Capabilities_to_value (Config.capabilities config provider_id (Some (ac_id account)) logical_model) in
  match pc_mode capability with
  | PNative => put_imported_capability provider_id upstream_model_id protocol SmNative None None features
  | PAdapter =>
      let$ source_protocol := tx_of (ok_or (pc_source_protocol capability)
        (CpValidation ["imported adapter capability " +:+ provider_id +:+ "/" +:+ Protocol_to_string protocol
                         +:+ " is missing source_protocol"])) in
      let$ _ := ensure_imported_native_capability provider_id upstream_model_id source_protocol features in
      put_imported_capability provider_id upstream_model_id protocol SmAdapter (Some source_protocol)
        (pc_adapter capability) features
  | PUnsupported =>
      validation ("route import cannot bind unsupported protocol " +:+ Protocol_to_string protocol +:+ " on source '"
                    +:+ provider_id +:+ "'")
  end.

(** [INSERT .. ON CONFLICT DO UPDATE] of a binding.  The trigger checks the row
    of the [INSERT] as well as the updated one. *)
Definition put_imported_binding (input : ModelBindingWrite) : ControlTx unit :=
  let row := fun id => mkModelBindingView id (bw_logical_model_id input) (bw_source_id input) (bw_account_id input)
    (bw_upstream_model_id input) (bw_protocol input) CsConfirmed (bw_enabled input) (bw_priority input) (Some ce_now) None
    ce_now ce_now in
  let$ _ := sql_check (fun db => binding_trigger (row 0) db) CheckViolation in
  let$ existing := tx_read (fun db => List.find (fun b => same_line b (row 0)) (values (db_bindings db))) in
  match existing with
  | None => let$ _ := insert_binding row in tx_ret tt
  | Some b =>
      update_binding
        (mkModelBindingView (bv_id b) (bv_logical_model_id b) (bv_source_id b) (bv_account_id b) (bv_upstream_model_id b)
           (bv_protocol b) CsConfirmed (bw_enabled input) (Z.max (bv_priority b) (bw_priority input))
           (opt_or (bv_confirmed_at b) (Some ce_now)) (bv_unavailable_at b) (bv_created_at b) ce_now)
  end.

(** [10_000] for the primary account, [1_000 - index as i32] for a fallback. *)
Definition import_priority (index : nat) : Z :=
  match index with O => 10000 | _ => wrap_i 32 (1000 - wrap_i 32 (Z.of_nat index)) end.

Definition import_line (config : GatewayConfig) (route : RouteConfig) (logical_id logical_model : string) (index : nat)
    (account_id : string) : ControlTx unit :=
  let$ account := tx_of (ok_or (Config.account config account_id)
    (CpValidation ["route '" +:+ rt_id route +:+ "' references unknown account '" +:+ account_id +:+ "'"])) in
  let upstream_model_id := unwrap_or (hm_get (ac_model_map account) logical_model) logical_model in
  let$ _ := ensure_imported_source_model (ac_provider_id account) upstream_model_id in
  for_all (fun protocol =>
    let capability := Config.protocol_capability config (ac_provider_id account) (Some (ac_id account)) logical_model
                        protocol in
    let$ _ := ensure_imported_capability config account logical_model upstream_model_id protocol capability in
    put_imported_binding
      (mkModelBindingWrite logical_id (ac_provider_id account) (ac_id account) upstream_model_id protocol CsConfirmed
         (ac_enabled account) (import_priority index))) (rt_protocols route).

(** The body of the loop over the models of a route, with the position of the
    model among [count]. *)
Definition import_model (config : GatewayConfig) (route : RouteConfig) (count : nat) (indexed : nat * string)
    : ControlTx unit :=
  let '(model_index, logical_model) := indexed in
  let$ logical_id := import_logical_model logical_model in
  let route_id :=
    if Nat.eqb count 1 then rt_id route else rt_id route +:+ ":" +:+ dec (Z.of_nat model_index) in
  let$ _ := insert_route (mkRouteRow route_id logical_id logical_model (protocols_to_value (rt_protocols route))
              (rt_strategy route) (rt_allow_lossy_conversion route) true ce_now ce_now) in
  for_all (fun line => import_line config route logical_id logical_model line.1 line.2)
    (imap pair (rt_primary_account_id route :: rt_fallback_accounts route)).

Definition import_route (config : GatewayConfig) (route : RouteConfig) : ControlTx unit :=
  let$ models := tx_of (expand_route_models route config) in
  for_all (import_model config route (length models)) (imap pair models).

Definition import_gateway_config (config : GatewayConfig) : ControlTx unit :=
  let$ _ := for_all import_provider (gc_providers config) in
  let$ _ := for_all import_account (gc_accounts config) in
  for_all (import_route config) (gc_routes config).

(** ** [service.rs] *)

(** [is_empty] and the count of [initialize_from_config]. *)
Definition row_count (db : ControlDb) : nat :=
  size (db_sources db) + size (db_accounts db) + size (db_logical_models db) + size (db_bindings db)
  + size (db_routes db).
Definition control_plane_is_empty (db : ControlDb) : bool := Nat.eqb (row_count db) 0.

(** The four [DELETE]s with their cascades: what refers to a deleted row goes
    with it. *)
Definition delete_all (db : ControlDb) : ControlDb :=
  let c := db_catalog db in
  mkControlDb (mkCatalogDb (cd_provider_presets c) (cd_model_presets c) ∅ ∅ ∅ ∅ [] []) ∅ ∅ ∅ [] (db_binding_seq db)
    (db_revision db) (db_updated_at db).

Definition config_errors (config : GatewayConfig) : list string :=
  unwrap_or (err_of (Config.validate config)) []
  ++ concat (imap (fun index provider =>
       match validate_base_url (cp_source_url_policy self) (Config.pv_base_url provider) with
       | Err error => [source_url_validation_message ("providers[" +:+ dec (Z.of_nat index) +:+ "].base_url") error]
       | Ok _ => []
       end) (gc_providers config)).

Definition check_config (config : GatewayConfig) : result unit ControlPlaneError :=
  let? _ := no_errors (config_errors config) in
  if existsb (fun account => is_some (ac_credential account)) (gc_accounts config)
  then Err (CpValidation ["GATEWAY_CONFIG_JSON cannot import plaintext account credentials; use credential_env"])
  else Ok tt.

Definition initialize_from_config (config : GatewayConfig) (force : bool)
    : ControlDb -> Outcome (option RuntimeSnapshot) :=
  checked (check_config config)
    (let$ empty := tx_read control_plane_is_empty in
     if negb empty && negb force then tx_ret None
     else
       let$ _ := if force && negb empty then tx_write delete_all else tx_ret tt in
       let$ _ := import_gateway_config config in
       let$ snapshot := finish_write self in
       tx_ret (Some snapshot)).
End ImportConfig.
