(* ===== verification/ControlReads.v ===== *)
(** * The reads of the control plane: the [list_] and [get_] operations of
      [src/src/control_plane]

    Each is one statement on the tables of [ControlDb], in the order of its
    [ORDER BY]. *)

From Stdlib Require Import ZArith Lia.
From stdpp Require Import base list strings gmap.
From S2P Require Import Prelude.
From S2P Require Import RustStr.
From S2P Require Import Protocol.
From S2P Require Import BTree.
From S2P Require Import Tx.
From S2P Require Import Json.
From S2P Require Import Catalog.
From S2P Require Import Presets.
From S2P Require Import PresetDiff.
From S2P Require Import ModelCatalog.
From S2P Require Import Snapshot.
From S2P Require Import Secrets.
From S2P Require Import Validation.
From S2P Require Import ControlDb.
From S2P Require Import ModelRouting.

Section Reads.
Context `{Collation}.

(** [ORDER BY id] on a text. *)
Definition by_id {A} (id : A -> string) : list A -> list A := order_by (fun x y => first (collate (id x) (id y))).

Definition list_sources (db : ControlDb) : list SourceRecord := by_id so_id (values (db_sources db)).
Definition get_source (id : string) (db : ControlDb) : result SourceRecord ControlPlaneError := fetch_source id db.

Definition list_accounts (db : ControlDb) : list AccountView :=
  by_id av_id (map (fun kv => account_view kv.1 kv.2) (map_to_list (db_accounts db))).
Definition get_account (id : string) (db : ControlDb) : result AccountView ControlPlaneError := fetch_account id db.

Definition list_logical_models (db : ControlDb) : list LogicalModelView := by_id lv_id (values (db_logical_models db)).
Definition get_logical_model (id : string) (db : ControlDb) : result LogicalModelView ControlPlaneError :=
  fetch_logical_model id db.

Definition list_model_bindings (db : ControlDb) : list ModelBindingView :=
  order_by (fun x y => bv_id x <=? bv_id y) (values (db_bindings db)).
Definition get_model_binding (id : Z) (db : ControlDb) : result ModelBindingView ControlPlaneError :=
  fetch_model_binding id db.

Definition list_source_model_capabilities (source_id upstream_model_id : string) (db : ControlDb)
    : list SourceModelCapabilityRecord :=
  order_by (fun x y => protocol_rank (mc_protocol x) <=? protocol_rank (mc_protocol y))
    (filter (fun r => mc_source_id r = source_id /\ mc_upstream_model_id r = upstream_model_id)
       (values (cd_capabilities (db_catalog db)))).

(** The join drops a route without its model. *)
Definition list_routes (db : ControlDb) : list RouteView :=
  by_id tv_id
    (omap (fun r => (fun lm => route_view r (lv_public_name lm)) <$> db_logical_models db !! ro_logical_model_id r)
       (values (db_routes db))).
Definition get_route (id : string) (db : ControlDb) : result RouteView ControlPlaneError := fetch_route id db.

Definition get_model_routing (id : string) (db : ControlDb) : result ModelRoutingView ControlPlaneError :=
  fetch_model_routing id db.
End Reads.
