(* ===== verification/ControlProps.v ===== *)
(** * What the control plane guarantees

    Every write is one [Operation]; [perform] runs it.  An operation publishes
    the snapshot of the tables it leaves or changes nothing; the tables keep
    their references; and, imports aside, the bindings of a model stay within
    one provider family and its routes never overlap. *)

From Stdlib Require Import ZArith Lia.
From stdpp Require Import base list strings gmap.
From S2P Require Import Prelude.
From S2P Require Import RustStr.
From S2P Require Import Protocol.
From S2P Require Import BTree.
From S2P Require Import Tx.
From S2P Require Import Config.
From S2P Require Import SourceUrl.
From S2P Require Import Json.
From S2P Require Import Catalog.
From S2P Require Import Presets.
From S2P Require Import PresetDiff.
From S2P Require Import ModelCatalog.
From S2P Require Import CatalogTypes.
From S2P Require Import Snapshot.
From S2P Require Import Secrets.
From S2P Require Import Validation.
From S2P Require Import ControlDb.
From S2P Require Import ControlPlane.
From S2P Require Import ModelRouting.
From S2P Require Import Import.

(** ** Operations *)

Inductive Operation : Type :=
| OpCreateSourceFromRequest (input : SourceCreateWrite)
| OpCreateSource (input : SourceWrite)
| OpUpdateSource (id : string) (input : SourceWrite)
| OpSetSourceEnabled (id : string) (enabled : bool)
| OpDeleteSource (id : string)
| OpRotateCredential (id : string) (secrets : SecretResolver) (nonce : option string)
| OpCreateAccount (input : AccountWrite)
| OpUpdateAccount (id : string) (input : AccountWrite)
| OpSetAccountEnabled (id : string) (enabled : bool)
| OpDeleteAccount (id : string)
| OpCreateLogicalModel (input : LogicalModelWrite)
| OpUpdateLogicalModel (id : string) (input : LogicalModelWrite)
| OpSetLogicalModelEnabled (id : string) (enabled : bool)
| OpDeleteLogicalModel (id : string)
| OpUpsertCapability (input : SourceModelCapabilityInput)
| OpCreateBinding (input : ModelBindingWrite)
| OpUpdateBinding (id : Z) (input : ModelBindingWrite)
| OpSetBindingEnabled (id : Z) (enabled : bool)
| OpDeleteBinding (id : Z)
| OpCreateRoute (input : RouteWrite)
| OpUpdateRoute (id : string) (input : RouteWrite)
| OpSetRouteEnabled (id : string) (enabled : bool)
| OpDeleteRoute (id : string)
| OpCreateModelRouting (input : ModelRoutingWrite)
| OpPutModelRouting (id : string) (input : ModelRoutingWrite)
| OpInitialize (config : GatewayConfig) (force : bool).

Definition outcome_map {A B} (f : A -> B) (o : Outcome A) : Outcome B :=
  match o with (Ok x, db) => (Ok (f x), db) | (Err e, db) => (Err e, db) end.

Section Perform.
Context `{ErrorTexts} `{ControlEnv} `{BuildCfg} `{UrlCrates} `{Collation} `{PresetSerde} `{Crypto} `{SerdeJson}
  (self : ControlPlane).

(** The snapshot an operation publishes; none when there was nothing to do. *)
Definition published {T} (o : Outcome (Mutation T)) : Outcome (option RuntimeSnapshot) :=
  outcome_map (fun m => Some (mu_snapshot m)) o.

Definition perform (op : Operation) (db : ControlDb) : Outcome (option RuntimeSnapshot) :=
  match op with
  | OpCreateSourceFromRequest input => published (create_source_from_request self input db)
  | OpCreateSource input => published (create_source self input db)
  | OpUpdateSource id input => published (update_source self id input db)
  | OpSetSourceEnabled id enabled => published (set_source_enabled self id enabled db)
  | OpDeleteSource id => outcome_map Some (delete_source self id db)
  | OpRotateCredential id secrets nonce => outcome_map Some (rotate_account_credential self id secrets nonce db)
  | OpCreateAccount input => published (create_account self input db)
  | OpUpdateAccount id input => published (update_account self id input db)
  | OpSetAccountEnabled id enabled => published (set_account_enabled self id enabled db)
  | OpDeleteAccount id => outcome_map Some (delete_account self id db)
  | OpCreateLogicalModel input => published (create_logical_model self input db)
  | OpUpdateLogicalModel id input => published (update_logical_model self id input db)
  | OpSetLogicalModelEnabled id enabled => published (set_logical_model_enabled self id enabled db)
  | OpDeleteLogicalModel id => outcome_map Some (delete_logical_model self id db)
  | OpUpsertCapability input => published (upsert_source_model_capability self input db)
  | OpCreateBinding input => published (create_model_binding self input db)
  | OpUpdateBinding id input => published (update_model_binding self id input db)
  | OpSetBindingEnabled id enabled => published (set_model_binding_enabled self id enabled db)
  | OpDeleteBinding id => outcome_map Some (delete_model_binding self id db)
  | OpCreateRoute input => published (create_route self input db)
  | OpUpdateRoute id input => published (update_route self id input db)
  | OpSetRouteEnabled id enabled => published (set_route_enabled self id enabled db)
  | OpDeleteRoute id => outcome_map Some (delete_route self id db)
  | OpCreateModelRouting input => published (create_model_routing self input db)
  | OpPutModelRouting id input => published (put_model_routing self id input db)
  | OpInitialize config force => initialize_from_config self config force db
  end.
End Perform.

(** ** Relations that every step respects *)

Definition respects (R : relation ControlDb) {A} (m : ControlTx A) : Prop :=
  forall db x db', m db = Ok (x, db') -> R db db'.

Create HintDb control discriminated.

Section Respects.
Context (R : relation ControlDb) `{!PreOrder R}.

Lemma respects_ret {A} (x : A) : respects R (tx_ret x).
Proof. by intros db y db' [= _ <-]. Qed.
Lemma respects_fail {A} (e : ControlPlaneError) : respects R (tx_fail (A := A) e).
Proof. done. Qed.
Lemma respects_of {A} (r : result A ControlPlaneError) : respects R (tx_of r).
Proof. by intros db x db' [_ ->]%tx_of_inv. Qed.
Lemma respects_read {A} (f : ControlDb -> A) : respects R (tx_read f).
Proof. by intros db y db' [= _ <-]. Qed.
Lemma respects_query {A} (f : ControlDb -> result A ControlPlaneError) : respects R (tx_query f).
Proof. by intros db x db' [_ ->]%tx_of_inv. Qed.
Lemma respects_check `{ErrorTexts} f e : respects R (sql_check f e).
Proof. intros db x db'. unfold sql_check. destruct (f db); [by intros [= _ <-]|done]. Qed.
Lemma respects_bind {A B} (m : ControlTx A) (f : A -> ControlTx B) :
  respects R m -> (forall x, respects R (f x)) -> respects R (tx_bind m f).
Proof. intros Hm Hf db y db' (x & d & H1 & H2)%tx_bind_inv. etrans; [by eapply Hm|by eapply Hf]. Qed.
Lemma respects_write (f : ControlDb -> ControlDb) : (forall db, R db (f db)) -> respects R (tx_write f).
Proof. by intros Hf db x db' [= _ <-]. Qed.
Lemma respects_if {A} (b : bool) (m1 m2 : ControlTx A) :
  respects R m1 -> respects R m2 -> respects R (if b then m1 else m2).
Proof. by destruct b. Qed.
End Respects.

#[export] Hint Resolve respects_ret respects_fail respects_of respects_read respects_query respects_check : control.

(** Decomposes a transaction into its statements. *)
Ltac respects_step :=
  match goal with
  | |- respects _ (tx_bind _ _) => apply respects_bind; [apply _| |intros ?]
  | |- respects _ (if _ then _ else _) => apply respects_if
  | |- respects _ (match ?x with _ => _ end) => destruct x
  | |- respects _ (let _ := _ in _) => cbv zeta
  end.
Ltac respects_auto := repeat (first [solve [eauto 2 with control typeclass_instances] | respects_step]).

(** An invariant, as a relation. *)
Definition inv (P : ControlDb -> Prop) : relation ControlDb := fun db db' => P db -> P db'.
#[export] Instance inv_preorder P : PreOrder (inv P).
Proof. split; [by intros db Hx|]. intros x y z Hxy Hyz Hx. by apply Hyz, Hxy. Qed.

Lemma run_keeps P {A} (m : ControlTx A) db : respects (inv P) m -> P db -> P (run_tx m db).2.
Proof. intros Hm Hp. apply run_tx_preserves; [done|]. intros x db' E. by eapply Hm. Qed.
Lemma checked_keeps P {A} check (m : ControlTx A) db : respects (inv P) m -> P db -> P (checked check m db).2.
Proof. unfold checked. destruct check; [apply run_keeps|done]. Qed.
Lemma outcome_map_snd {A B} (f : A -> B) o : (outcome_map f o).2 = o.2.
Proof. by destruct o as [[]]. Qed.

(** ** Publication *)

Definition same_revision : relation ControlDb := fun db db' => db_revision db' = db_revision db.

#[export] Instance same_revision_preorder : PreOrder same_revision.
Proof. split; [by intros db|]. intros x y z Hxy Hyz. unfold same_revision in *. congruence. Qed.

(** [s] is the snapshot of the tables [db'], one revision after [db]: the next
    load answers it. *)
Definition publishes `{ErrorTexts} `{BuildCfg} `{UrlCrates} `{Collation} (self : ControlPlane) (db db' : ControlDb)
    (s : RuntimeSnapshot) : Prop :=
  db_revision db' = db_revision db + 1 /\ ss_revision s = db_revision db' /\ load_snapshot self db' = Ok s.

Section Statements.
Context `{ErrorTexts} `{ControlEnv} `{BuildCfg} `{UrlCrates} `{Collation}.
Notation keeps := (respects same_revision).

Ltac keeps_write := apply respects_write; done.

Lemma keeps_in_catalog {A} (m : CatalogTx A) : keeps (in_catalog m).
Proof. intros db x db'. unfold in_catalog. destruct (m _) as [[? ?]|]; by intros [= _ <-]. Qed.
Lemma keeps_insert_source row : keeps (insert_source row).
Proof. unfold insert_source. respects_auto; keeps_write. Qed.
Lemma keeps_update_source_row id f : keeps (update_source_row id f).
Proof. unfold update_source_row. respects_auto; keeps_write. Qed.
Lemma keeps_insert_account id row : keeps (insert_account id row).
Proof. unfold insert_account. respects_auto; keeps_write. Qed.
Lemma keeps_update_account_row id f : keeps (update_account_row id f).
Proof. unfold update_account_row. respects_auto; keeps_write. Qed.
Lemma keeps_put_logical_model row : keeps (put_logical_model row).
Proof. unfold put_logical_model. respects_auto; keeps_write. Qed.
Lemma keeps_insert_logical_model row : keeps (insert_logical_model row).
Proof. unfold insert_logical_model. respects_auto; apply keeps_put_logical_model. Qed.
Lemma keeps_put_binding row seq : keeps (put_binding row seq).
Proof. unfold put_binding. respects_auto; keeps_write. Qed.
Lemma keeps_update_binding row : keeps (update_binding row).
Proof. unfold update_binding. respects_auto; apply keeps_put_binding. Qed.
Lemma keeps_insert_binding row : keeps (insert_binding row).
Proof. unfold insert_binding. respects_auto; apply keeps_put_binding. Qed.
Lemma keeps_put_route row : keeps (put_route row).
Proof. unfold put_route. respects_auto; keeps_write. Qed.
Lemma keeps_insert_route row : keeps (insert_route row).
Proof. unfold insert_route. respects_auto; apply keeps_put_route. Qed.
Lemma keeps_manual_health id enabled at_ : keeps (apply_manual_health_transition id enabled at_).
Proof. unfold apply_manual_health_transition. respects_auto; try apply keeps_update_account_row; keeps_write. Qed.
Lemma keeps_manual_health_source id enabled at_ : keeps (apply_manual_health_transition_for_source id enabled at_).
Proof. unfold apply_manual_health_transition_for_source. respects_auto; keeps_write. Qed.
End Statements.

#[export] Hint Resolve keeps_in_catalog keeps_insert_source keeps_update_source_row keeps_insert_account
  keeps_update_account_row keeps_put_logical_model keeps_insert_logical_model keeps_put_binding keeps_update_binding keeps_insert_binding
  keeps_put_route keeps_insert_route keeps_manual_health keeps_manual_health_source : control.

Section Publication.
Context `{ErrorTexts} `{ControlEnv} `{BuildCfg} `{UrlCrates} `{Collation} `{PresetSerde} `{Crypto} `{SerdeJson}
  (self : ControlPlane).

(** A transaction whose result carries the snapshot it publishes. *)
Definition ends {A} (snapshot : A -> RuntimeSnapshot) (m : ControlTx A) : Prop :=
  forall db x db', m db = Ok (x, db') -> publishes self db db' (snapshot x).

Lemma ends_finish_write : ends id (finish_write self).
Proof.
  intros db s db' (u & d & Hv & (w & d1 & [= _ <-] & Hb)%tx_bind_inv)%tx_bind_inv.
  apply tx_of_inv in Hv as [Hv ->]. apply tx_of_inv in Hb as [Hb ->].
  split; [done|]. unfold id. split.
  - unfold build_from, build_snapshot in Hb. cbv zeta in Hb. destruct (bd_errors _); [|done]. by injection Hb as <-.
  - unfold load_snapshot. rewrite Hb. destruct u.
    change (validate_all self (set_revision db (db_revision db + 1) ce_clock)) with (validate_all self db).
    by rewrite Hv.
Qed.

Lemma ends_fail {A} snapshot (e : ControlPlaneError) : ends (A := A) snapshot (tx_fail e).
Proof. done. Qed.
Lemma ends_bind {A B} snapshot (m : ControlTx A) (f : A -> ControlTx B) :
  respects same_revision m -> (forall x, ends snapshot (f x)) -> ends snapshot (tx_bind m f).
Proof.
  intros Hm Hf db y db' (x & d & Hx & Hy)%tx_bind_inv. apply Hm in Hx.
  destruct (Hf x _ _ _ Hy) as (Hr & Hs). unfold same_revision in Hx. split; [lia|done].
Qed.
Lemma ends_if {A} snapshot (b : bool) (m1 m2 : ControlTx A) :
  ends snapshot m1 -> ends snapshot m2 -> ends snapshot (if b then m1 else m2).
Proof. by destruct b. Qed.
Lemma ends_finish_mutation {T} (record : T) : ends mu_snapshot (finish_mutation self record).
Proof.
  intros db x db' (s & d & Hw & [= <- <-])%tx_bind_inv. by apply ends_finish_write in Hw.
Qed.
Lemma ends_delete kind id statement :
  respects same_revision statement -> ends Datatypes.id (delete_op self kind id statement).
Proof. intros Hs. apply ends_bind; [done|]. intros []; [apply ends_finish_write|apply ends_fail]. Qed.

(** What an operation does as a whole. *)
Definition atomic (o : ControlDb -> Outcome (option RuntimeSnapshot)) : Prop :=
  forall db, match o db with
             | (Err _, db') | (Ok None, db') => db' = db
             | (Ok (Some s), db') => publishes self db db' s
             end.

Lemma atomic_run {A} snapshot (m : ControlTx A) :
  ends snapshot m -> atomic (fun db => outcome_map (fun x => Some (snapshot x)) (run_tx m db)).
Proof.
  intros Hm db. destruct (run_tx m db) as [[x|e] db'] eqn:E; cbn.
  - apply run_tx_ok in E. by apply Hm in E.
  - by apply run_tx_err in E.
Qed.

Lemma atomic_checked {A} snapshot check (m : ControlTx A) :
  ends snapshot m -> atomic (fun db => outcome_map (fun x => Some (snapshot x)) (checked check m db)).
Proof. intros Hm. unfold checked. destruct check; [by apply atomic_run|done]. Qed.
End Publication.

Ltac ends_step :=
  match goal with
  | |- ends _ _ (finish_mutation _ _) => apply ends_finish_mutation
  | |- ends _ _ (finish_write _) => apply ends_finish_write
  | |- ends _ _ (tx_fail _) => apply ends_fail
  | |- ends _ _ (not_found _ _) => apply ends_fail
  | |- ends _ _ (conflict _ _) => apply ends_fail
  | |- ends _ _ (validation _) => apply ends_fail
  | |- ends _ _ (tx_bind _ _) => apply ends_bind; [|intros ?]
  | |- ends _ _ (let _ := _ in _) => cbv zeta
  | |- ends _ _ (if _ then _ else _) => apply ends_if
  | |- ends _ _ (match ?x with _ => _ end) => destruct x
  end.
Ltac ends_auto := repeat (first [solve [respects_auto] | ends_step]).

Section Atomic.
Context `{ErrorTexts} `{ControlEnv} `{BuildCfg} `{UrlCrates} `{Collation} `{PresetSerde} `{Crypto} `{SerdeJson}
  (self : ControlPlane).

Notation keeps := (respects same_revision).

Lemma keeps_delete_source id : keeps (delete_source_row id).
Proof. intros db x db'. unfold delete_source_row. destruct (_ !! _); by intros [= _ <-]. Qed.
Lemma keeps_delete_account id : keeps (delete_account_row id).
Proof. intros db x db'. unfold delete_account_row. destruct (_ !! _); by intros [= _ <-]. Qed.
Lemma keeps_delete_logical_model id : keeps (delete_logical_model_row id).
Proof. intros db x db'. unfold delete_logical_model_row. destruct (_ !! _); by intros [= _ <-]. Qed.
Lemma keeps_delete_binding id : keeps (delete_binding_row id).
Proof. intros db x db'. unfold delete_binding_row. destruct (_ !! _); by intros [= _ <-]. Qed.
Lemma keeps_delete_route id : keeps (delete_route_row id).
Proof. intros db x db'. unfold delete_route_row. destruct (_ !! _); by intros [= _ <-]. Qed.

Lemma keeps_write_model_row id input create current : keeps (write_model_row id input create current).
Proof. unfold write_model_row, reconfirm. respects_auto. Qed.
Lemma keeps_write_line_protocols id position line ps : forall protocols,
  keeps (write_line_protocols id position line ps protocols).
Proof. induction ps as [|p ps IH]; intros protocols; cbn [write_line_protocols]; respects_auto; apply IH. Qed.
Lemma keeps_write_lines id lines : forall position protocols, keeps (write_lines id position lines protocols).
Proof.
  induction lines as [|line lines IH]; intros position protocols; cbn [write_lines]; respects_auto;
    first [apply keeps_write_line_protocols|apply IH].
Qed.
Lemma keeps_clear_model id : keeps (tx_write (clear_model id)).
Proof. by apply respects_write. Qed.
Lemma keeps_write_route id input route_id protocols : keeps (write_route id input route_id protocols).
Proof. unfold write_route. respects_auto. Qed.

Lemma keeps_for_all {A} (f : A -> ControlTx unit) l : (forall x, keeps (f x)) -> keeps (for_all f l).
Proof. intros Hf. induction l as [|x l IH]; cbn [for_all]; respects_auto. Qed.
Lemma keeps_import_provider provider : keeps (import_provider provider).
Proof. unfold import_provider. respects_auto. Qed.
Lemma keeps_put_imported_capability s u p mode sp a f : keeps (put_imported_capability s u p mode sp a f).
Proof. unfold put_imported_capability. respects_auto. by apply respects_write. Qed.
Lemma keeps_import_line config route id model index account_id :
  keeps (import_line config route id model index account_id).
Proof.
  unfold import_line, ensure_imported_source_model. respects_auto; [by apply respects_write|].
  apply keeps_for_all. intros p. unfold ensure_imported_capability, ensure_imported_native_capability, put_imported_binding.
  respects_auto; apply keeps_put_imported_capability.
Qed.
Lemma keeps_import config : keeps (import_gateway_config config).
Proof.
  unfold import_gateway_config. respects_auto; apply keeps_for_all; intros item.
  - apply keeps_import_provider.
  - unfold import_account. respects_auto.
  - unfold import_route. respects_auto. apply keeps_for_all. intros [index model]. unfold import_model, import_logical_model.
    respects_auto. apply keeps_for_all. intros line. apply keeps_import_line.
Qed.

#[local] Hint Resolve keeps_delete_source keeps_delete_account keeps_delete_logical_model keeps_delete_binding
  keeps_delete_route keeps_write_model_row keeps_write_lines keeps_clear_model keeps_write_route keeps_import : control.

Lemma atomic_create_source input : atomic self (fun db => published (create_source self input db)).
Proof. unfold create_source, published. apply atomic_checked. ends_auto. Qed.

Lemma atomic_initialize config force : atomic self (fun db => initialize_from_config self config force db).
Proof.
  intros db. unfold initialize_from_config, checked. destruct (check_config _ _); [|done].
  destruct (run_tx _ db) as [[[s|]|e] db'] eqn:E; [| |by apply run_tx_err in E]; apply run_tx_ok in E;
    apply tx_bind_inv in E as (empty & d & [= <- <-] & E); destruct (negb _ && negb _) eqn:Ec; try done.
  - apply tx_bind_inv in E as (u & d1 & E1 & E). apply tx_bind_inv in E as (u' & d2 & E2 & E).
    apply tx_bind_inv in E as (s' & d3 & E3 & [= <- <-]).
    apply ends_finish_write in E3 as [Hr Hs]. apply keeps_import in E2. unfold same_revision in *.
    split; [|done]. destruct (force && _); injection E1 as _ <-; cbn in *; lia.
  - by injection E as <-.
  - apply tx_bind_inv in E as (u & d1 & _ & E). apply tx_bind_inv in E as (u' & d2 & _ & E).
    by apply tx_bind_inv in E as (s' & d3 & _ & E).
Qed.

(** Every operation, by the steps of its transaction. *)
Lemma perform_atomic (op : Operation) : atomic self (perform self op).
Proof.
  destruct op; unfold perform.
  - intros db. unfold create_source_from_request. destruct (rbind _ _) as [effective|]; [|done].
    apply atomic_create_source.
  - apply atomic_create_source.
  - unfold update_source, published. apply atomic_checked. ends_auto.
  - unfold set_source_enabled, published. apply atomic_run. ends_auto.
  - apply (atomic_run self Datatypes.id), ends_delete, keeps_delete_source.
  - apply (atomic_run self Datatypes.id). ends_auto.
  - unfold create_account, published. apply atomic_checked. ends_auto.
  - unfold update_account, published. apply atomic_checked. ends_auto.
  - unfold set_account_enabled, published. apply atomic_run. ends_auto.
  - apply (atomic_run self Datatypes.id), ends_delete, keeps_delete_account.
  - unfold create_logical_model, published. apply atomic_checked. ends_auto.
  - unfold update_logical_model, published. apply atomic_checked. ends_auto.
  - unfold set_logical_model_enabled, published. apply atomic_run. ends_auto.
  - apply (atomic_run self Datatypes.id), ends_delete, keeps_delete_logical_model.
  - unfold upsert_source_model_capability, published. apply atomic_run. ends_auto.
  - unfold create_model_binding, published. apply atomic_checked. ends_auto.
  - unfold update_model_binding, published. apply atomic_checked. ends_auto.
  - unfold set_model_binding_enabled, published. apply atomic_run. ends_auto.
  - apply (atomic_run self Datatypes.id), ends_delete, keeps_delete_binding.
  - unfold create_route, published. apply atomic_checked. ends_auto.
  - unfold update_route, published. apply atomic_checked. ends_auto.
  - unfold set_route_enabled, published. apply atomic_run. ends_auto.
  - apply (atomic_run self Datatypes.id), ends_delete, keeps_delete_route.
  - unfold create_model_routing, write_model_routing, published. apply atomic_checked. ends_auto.
  - unfold put_model_routing, write_model_routing, published. apply atomic_checked. ends_auto.
  - apply atomic_initialize.
Qed.
(** C6. Every write of the control plane is atomic and publishes what it leaves: it
    fails and changes nothing, or it advances the revision by exactly one, all
    checks of the control plane hold of the tables it leaves, and the snapshot
    it returns is the one a later load of these tables answers. *)
Theorem mutations_publish_or_roll_back (op : Operation) (db : ControlDb) :
  match perform self op db with
  | (Err _, db') => db' = db
  | (Ok None, db') => db' = db
  | (Ok (Some s), db') => publishes self db db' s
  end.
Proof. apply (perform_atomic op). Qed.
End Atomic.
