(* ===== verification/ControlTypes.v ===== *)
(** * The tables of the control plane keep their type

    [tables_ok] is what the schema promises: rows stand under their keys,
    references lead to rows, names and lines are unique ([control_ok]), and the
    columns that repeat keys, name presets or attribute runs, tests and health
    events fit ([rows_ok]).  Every statement keeps both, so every operation does
    ([StatementsOk], [perform_keeps]), imports included. *)

From Stdlib Require Import ZArith Lia.
From stdpp Require Import base list strings gmap.
From S2P Require Import Prelude.
From S2P Require Import RustStr.
From S2P Require Import Protocol.
From S2P Require Import BTree.
From S2P Require Import Tx.
From S2P Require Import Config.
From S2P Require Import SourceUrl.
From S2P Require Import Json.
From S2P Require Import Catalog.
From S2P Require Import Presets.
From S2P Require Import PresetDiff.
From S2P Require Import ModelCatalog.
From S2P Require Import CatalogTypes.
From S2P Require Import Discovery.
From S2P Require Import Snapshot.
From S2P Require Import Secrets.
From S2P Require Import Validation.
From S2P Require Import ControlDb.
From S2P Require Import ControlPlane.
From S2P Require Import ModelRouting.
From S2P Require Import Import.
From S2P Require Import ControlProps.

(** ** The type of the tables *)

Definition model_row_ok (db : ControlDb) (id : string) (m : LogicalModelView) : Prop :=
  lv_id m = id /\ logical_model_ok m = true.
Definition binding_row_ok (db : ControlDb) (id : Z) (b : ModelBindingView) : Prop :=
  bv_id b = id /\ id <= db_binding_seq db /\ binding_references b db = true
  /\ status_times_ok (bv_status b) (bv_confirmed_at b) (bv_unavailable_at b) = true.
Definition route_row_ok (db : ControlDb) (id : string) (r : RouteRow) : Prop :=
  ro_id r = id /\ is_Some (db_logical_models db !! ro_logical_model_id r).

Record control_ok (db : ControlDb) : Prop := {
  co_accounts : forall id a, db_accounts db !! id = Some a -> is_Some (db_sources db !! ax_source_id a);
  co_source_models : forall s u m, find_source_model db s u = Some m -> is_Some (db_sources db !! s);
  co_capabilities : forall s u p c, find_capability db s u p = Some c -> is_Some (find_source_model db s u);
  co_models : forall id m, db_logical_models db !! id = Some m -> model_row_ok db id m;
  co_names : forall id id' m m', db_logical_models db !! id = Some m -> db_logical_models db !! id' = Some m' ->
    lv_public_name m = lv_public_name m' -> id = id';
  co_bindings : forall id b, db_bindings db !! id = Some b -> binding_row_ok db id b;
  co_lines : forall id id' b b', db_bindings db !! id = Some b -> db_bindings db !! id' = Some b' ->
    same_line b b' = true -> id = id';
  co_routes : forall id r, db_routes db !! id = Some r -> route_row_ok db id r;
}.

(** ** Lookups in lists of rows *)

Lemma elem_of_values {K A} `{Countable K} (m : gmap K A) x : x ∈ values m <-> exists k, m !! k = Some x.
Proof.
  unfold values. rewrite list_elem_of_fmap. split.
  - intros ([k y] & -> & Hin%elem_of_map_to_list). eauto.
  - intros [k Hk%elem_of_map_to_list]. by exists (k, x).
Qed.

Lemma forallb_values {K A} `{Countable K} (p : A -> bool) (m : gmap K A) :
  forallb p (values m) = true <-> forall k x, m !! k = Some x -> p x = true.
Proof.
  rewrite forallb_forall. setoid_rewrite <- list_elem_of_In. setoid_rewrite elem_of_values. firstorder.
Qed.

Lemma is_some_Some {A} (o : option A) : is_some o = true <-> is_Some o.
Proof. destruct o; cbn; split; try done; by intros [? ?]. Qed.

Lemma is_some_and_Some {A} (o : option A) p : is_some_and o p = true <-> exists x, o = Some x /\ p x = true.
Proof. destruct o; cbn; split; [eauto|by intros (? & [= <-] & ?)|done|by intros (? & ? & _)]. Qed.

Lemma same_line_eq a b : same_line a b = true <->
  bv_logical_model_id a = bv_logical_model_id b /\ bv_source_id a = bv_source_id b
  /\ bv_account_id a = bv_account_id b /\ bv_upstream_model_id a = bv_upstream_model_id b
  /\ bv_protocol a = bv_protocol b.
Proof.
  unfold same_line. rewrite !andb_true_iff, !String.eqb_eq. unfold Protocol_eqb. rewrite bool_decide_eq_true. tauto.
Qed.

(** What the references of a binding say. *)
Definition refers (db : ControlDb) (b : ModelBindingView) : Prop :=
  is_Some (db_logical_models db !! bv_logical_model_id b)
  /\ is_Some (find_source_model db (bv_source_id b) (bv_upstream_model_id b))
  /\ is_Some (find_capability db (bv_source_id b) (bv_upstream_model_id b) (bv_protocol b))
  /\ exists a, db_accounts db !! bv_account_id b = Some a /\ ax_source_id a = bv_source_id b.

Lemma binding_references_refers b db : binding_references b db = true <-> refers db b.
Proof.
  unfold binding_references, refers. rewrite !andb_true_iff, !is_some_Some, is_some_and_Some.
  setoid_rewrite String.eqb_eq. tauto.
Qed.

Lemma binding_source_exists db id b :
  control_ok db -> db_bindings db !! id = Some b -> is_Some (db_sources db !! bv_source_id b).
Proof.
  intros Hok Hb. destruct (co_bindings _ Hok _ _ Hb) as (_ & _ & Hr & _).
  apply binding_references_refers in Hr as (_ & [m Hm] & _). by eapply co_source_models.
Qed.

Abbreviation typed := (inv control_ok).

(** A statement after its checks. *)
Lemma sql_check_inv `{ErrorTexts} f e db u db' : sql_check f e db = Ok (u, db') -> f db = true /\ db' = db.
Proof. unfold sql_check. destruct (f db); [by intros [= _ ->]|done]. Qed.

Ltac tx_inv :=
  repeat match goal with
  | E : tx_bind _ _ _ = Ok _ |- _ => apply tx_bind_inv in E as (? & ? & ? & E)
  | E : sql_check _ _ _ = Ok _ |- _ => apply sql_check_inv in E as [? ->]
  | E : tx_read _ _ = Ok _ |- _ => injection E as <- <-
  | E : tx_ret _ _ = Ok _ |- _ => injection E as <- <-
  | E : tx_write _ _ = Ok _ |- _ => injection E as <- <-
  | E : tx_of _ _ = Ok _ |- _ => apply tx_of_inv in E as [? ->]
  | E : tx_query _ _ = Ok _ |- _ => apply tx_of_inv in E as [? ->]
  end.

(** ** Statements *)

Section Typed.
Context `{ErrorTexts} `{ControlEnv} `{BuildCfg} `{UrlCrates} `{Collation} `{PresetSerde}.

(** Rows whose references are untouched. *)
Lemma refers_mono db db' b :
  (forall k, is_Some (db_logical_models db !! k) -> is_Some (db_logical_models db' !! k)) ->
  (forall s u, is_Some (find_source_model db s u) -> is_Some (find_source_model db' s u)) ->
  (forall s u p, is_Some (find_capability db s u p) -> is_Some (find_capability db' s u p)) ->
  (forall a, db_accounts db !! bv_account_id b = Some a -> ax_source_id a = bv_source_id b ->
     exists a', db_accounts db' !! bv_account_id b = Some a' /\ ax_source_id a' = bv_source_id b) ->
  refers db b -> refers db' b.
Proof.
  intros Hl Hs Hc Ha (R1 & R2 & R3 & a & R4 & R5). split_and!; eauto.
Qed.

Lemma insert_is_Some {K A} `{Countable K} (m : gmap K A) k x j : is_Some (m !! j) -> is_Some (<[k:=x]> m !! j).
Proof. rewrite lookup_insert_is_Some'. by right. Qed.

Lemma typed_put_sources db id row :
  typed db (set_sources db (<[id := row]> (db_sources db))).
Proof.
  intros Hok. split; cbn; try apply Hok.
  - intros k a Ha. by eapply insert_is_Some, co_accounts.
  - intros s u m Hm. eapply insert_is_Some. by eapply (co_source_models db).
Qed.

Lemma typed_insert_source row : respects typed (insert_source row).
Proof. intros db x db' E. unfold insert_source in E. tx_inv. apply typed_put_sources. Qed.
Lemma typed_update_source_row id f : respects typed (update_source_row id f).
Proof. intros db x db' E. unfold update_source_row in E. tx_inv. apply typed_put_sources. Qed.

(** An account is written whose source exists and holds its bindings. *)
Lemma typed_put_account db id row :
  is_Some (db_sources db !! ax_source_id row) ->
  (forall k b, db_bindings db !! k = Some b -> bv_account_id b = id -> bv_source_id b = ax_source_id row) ->
  typed db (set_accounts db (<[id := row]> (db_accounts db))).
Proof.
  intros Hs Hb Hok. split; cbn; try apply Hok.
  - intros k a [[<- <-]|[_ Ha]]%lookup_insert_Some; [done|]. by eapply co_accounts.
  - intros k b Hk. pose proof (co_bindings _ Hok _ _ Hk) as (Hi & Hq & Hr & Ht). split_and!; try done.
    apply binding_references_refers. apply binding_references_refers in Hr. revert Hr.
    apply refers_mono; try done. intros a Ha Ha'. cbn. destruct (decide (bv_account_id b = id)) as [He|Hne].
    + rewrite He, lookup_insert_eq. exists row. split; [done|]. symmetry. by eapply Hb.
    + rewrite lookup_insert_ne by done. eauto.
Qed.

Lemma account_unbound_spec id source_id db :
  account_unbound id source_id db = true ->
  forall k b, db_bindings db !! k = Some b -> bv_account_id b = id -> bv_source_id b = source_id.
Proof.
  unfold account_unbound. rewrite forallb_values. intros Hall k b Hk He. specialize (Hall k b Hk).
  apply orb_true_iff in Hall as [Hn|Hs%String.eqb_eq]; [|done]. by rewrite He, String.eqb_refl in Hn.
Qed.

Lemma typed_insert_account id row : respects typed (insert_account id row).
Proof.
  intros db x db' E Hok. unfold insert_account in E. tx_inv. rename select (is_some _ = true) into Hs.
  apply typed_put_account; [by apply is_some_Some| |done]. intros k b Hk He.
  destruct (co_bindings _ Hok _ _ Hk) as (_ & _ & Hr & _).
  apply binding_references_refers in Hr as (_ & _ & _ & a & Ha & _). rewrite He in Ha.
  rename select (negb _ = true) into Hn. by rewrite Ha in Hn.
Qed.

Lemma typed_update_account_row id f : respects typed (update_account_row id f).
Proof.
  intros db x db' E. unfold update_account_row in E. tx_inv. destruct (db_accounts db !! id) as [old|]; tx_inv; [|by intros ?].
  rename select (_ && _ = true) into Hc. apply andb_true_iff in Hc as [Hs Hu].
  apply typed_put_account; [by apply is_some_Some|]. by apply account_unbound_spec.
Qed.

Lemma name_free_spec row db :
  name_free row db = true ->
  forall k m, db_logical_models db !! k = Some m -> lv_public_name m = lv_public_name row -> lv_id m = lv_id row.
Proof.
  unfold name_free. rewrite forallb_values. intros Hall k m Hk He. specialize (Hall k m Hk).
  apply orb_true_iff in Hall as [Hn|Hs%String.eqb_eq]; [|done]. by rewrite He, String.eqb_refl in Hn.
Qed.

Lemma typed_put_logical_model row : respects typed (put_logical_model row).
Proof.
  intros db x db' E Hok. unfold put_logical_model in E. tx_inv. rename select (logical_model_ok _ = true) into Hc.
  rename select (name_free _ _ = true) into Hn. pose proof (name_free_spec _ _ Hn) as Hfree.
  split; cbn; try apply Hok.
  - intros id m [[<- <-]|[_ Hm]]%lookup_insert_Some; [done|]. by apply (co_models _ Hok).
  - intros id id' m m' [[<- <-]|[Hne Hm]]%lookup_insert_Some [[<- <-]|[Hne' Hm']]%lookup_insert_Some He; [done|..].
    + rewrite <- (Hfree _ _ Hm'); [|done]. by apply (co_models _ Hok) in Hm' as [-> _].
    + rewrite <- (Hfree _ _ Hm); [|done]. by apply (co_models _ Hok) in Hm as [-> _].
    + by eapply co_names.
  - intros k b Hk. pose proof (co_bindings _ Hok _ _ Hk) as (Hi & Hq & Hr & Ht). split_and!; try done.
    apply binding_references_refers. apply binding_references_refers in Hr. revert Hr.
    apply refers_mono; try done; [|eauto]. intros j. apply insert_is_Some.
  - intros k r Hk. apply (co_routes _ Hok) in Hk as [Hi Hl]. split; [done|]. by apply insert_is_Some.
Qed.

Lemma typed_insert_logical_model row : respects typed (insert_logical_model row).
Proof.
  intros db x db' E. unfold insert_logical_model in E. tx_inv. by eapply typed_put_logical_model.
Qed.

Lemma line_free_spec row db :
  line_free row db = true ->
  forall k b, db_bindings db !! k = Some b -> same_line b row = true -> bv_id b = bv_id row.
Proof.
  unfold line_free. rewrite forallb_values. intros Hall k b Hk He. specialize (Hall k b Hk).
  rewrite He in Hall. by apply Z.eqb_eq.
Qed.

Lemma same_line_sym a b : same_line a b = true -> same_line b a = true.
Proof. rewrite !same_line_eq. intuition. Qed.

Lemma typed_put_binding db row seq u db' :
  put_binding row seq db = Ok (u, db') -> bv_id row <= seq db -> db_binding_seq db <= seq db -> typed db db'.
Proof.
  intros E Hid Hseq Hok. unfold put_binding in E. tx_inv.
  rename select (status_times_ok _ _ _ = true) into Ht. rename select (line_free _ _ = true) into Hl.
  rename select (binding_references _ _ = true) into Hr. pose proof (line_free_spec _ _ Hl) as Hfree.
  split; cbn; try apply Hok.
  - intros k b [[<- <-]|[_ Hb]]%lookup_insert_Some; [done|]. pose proof (co_bindings _ Hok _ _ Hb) as (Hi & Hq & Hb').
    split_and!; try apply Hb'; try done. cbn. lia.
  - intros id id' b b' [[<- <-]|[Hne Hb]]%lookup_insert_Some [[<- <-]|[Hne' Hb']]%lookup_insert_Some He; [done|..].
    + apply same_line_sym in He. rewrite <- (Hfree _ _ Hb' He). by apply (co_bindings _ Hok) in Hb' as [-> _].
    + rewrite <- (Hfree _ _ Hb He). by apply (co_bindings _ Hok) in Hb as [-> _].
    + by eapply co_lines.
Qed.

Lemma typed_insert_binding row : (forall id, bv_id (row id) = id) -> respects typed (insert_binding row).
Proof.
  intros Hrow db x db' E. unfold insert_binding in E. apply tx_bind_inv in E as (last & d & [= <- <-] & E).
  apply tx_bind_inv in E as ([] & d & E & [= <- <-]). eapply typed_put_binding; [exact E| |]; cbn; [rewrite Hrow|]; lia.
Qed.

Lemma typed_update_binding row : respects typed (update_binding row).
Proof.
  intros db [] db' E Hok. unfold update_binding in E. apply tx_bind_inv in E as (u & d & [Hs ->]%sql_check_inv & E).
  eapply typed_put_binding; [exact E| |done|done]. apply is_some_Some in Hs as [b Hb].
  by apply (co_bindings _ Hok) in Hb as (_ & Hq & _).
Qed.

Lemma typed_put_route row : respects typed (put_route row).
Proof.
  intros db x db' E Hok. unfold put_route in E. tx_inv. rename select (is_some _ = true) into Hs.
  split; cbn; try apply Hok. intros k r [[<- <-]|[_ Hr]]%lookup_insert_Some; [|by apply (co_routes _ Hok)].
  split; [done|]. by apply is_some_Some.
Qed.
Lemma typed_insert_route row : respects typed (insert_route row).
Proof. intros db x db' E. unfold insert_route in E. tx_inv. by eapply typed_put_route. Qed.

(** Only rows without references left go. *)
Lemma typed_clear_model id db : typed db (clear_model id db).
Proof.
  intros Hok. split; cbn; try apply Hok.
  - intros k b [Hb _]%map_lookup_filter_Some. by apply (co_bindings _ Hok).
  - intros k k' b b' [Hb _]%map_lookup_filter_Some [Hb' _]%map_lookup_filter_Some. by apply (co_lines _ Hok).
  - intros k r [Hr _]%map_lookup_filter_Some. by apply (co_routes _ Hok).
Qed.

Lemma typed_without_source id db : typed db (without_source db id).
Proof.
  intros Hok. assert (forall s, s <> id -> is_Some (db_sources db !! s) -> is_Some (delete id (db_sources db) !! s)) as Hdel
    by (intros s Hs Hx; by rewrite lookup_delete_ne).
  split; cbn; try apply Hok.
  - intros k a [Ha Hne]%map_lookup_filter_Some. apply Hdel; [done|]. by eapply co_accounts.
  - intros s u m [Hm Hne]%map_lookup_filter_Some. apply Hdel; [done|]. by eapply (co_source_models db).
  - intros s u p c [Hc Hne]%map_lookup_filter_Some. destruct (co_capabilities _ Hok _ _ _ _ Hc) as [m Hm].
    exists m. by apply map_lookup_filter_Some.
  - intros k b [Hb Hne]%map_lookup_filter_Some. pose proof (co_bindings _ Hok _ _ Hb) as (Hi & Hq & Hr & Ht).
    split_and!; try done. apply binding_references_refers in Hr as (R1 & [m R2] & [c R3] & a & R4 & R5).
    apply binding_references_refers. split_and!; [done| | |].
    + exists m. by apply map_lookup_filter_Some.
    + exists c. by apply map_lookup_filter_Some.
    + exists a. split; [|done]. apply map_lookup_filter_Some. split; [done|]. cbn in *. by rewrite R5.
  - intros k k' b b' [Hb _]%map_lookup_filter_Some [Hb' _]%map_lookup_filter_Some. by apply (co_lines _ Hok).
Qed.

Lemma typed_without_account id db : typed db (without_account db id).
Proof.
  intros Hok. split; cbn; try apply Hok.
  - intros k a [_ Ha]%lookup_delete_Some. by eapply co_accounts.
  - intros k b [Hb Hne]%map_lookup_filter_Some. pose proof (co_bindings _ Hok _ _ Hb) as (Hi & Hq & Hr & Ht).
    split_and!; try done. apply binding_references_refers in Hr as (R1 & R2 & R3 & a & R4 & R5).
    apply binding_references_refers. split_and!; try done. exists a. split; [|done]. cbn in *. by rewrite lookup_delete_ne.
  - intros k k' b b' [Hb _]%map_lookup_filter_Some [Hb' _]%map_lookup_filter_Some. by apply (co_lines _ Hok).
Qed.

Lemma typed_without_logical_model id db : typed db (without_logical_model db id).
Proof.
  intros Hok. split; cbn; try apply Hok.
  - intros k m [_ Hm]%lookup_delete_Some. by apply (co_models _ Hok).
  - intros k k' m m' [_ Hm]%lookup_delete_Some [_ Hm']%lookup_delete_Some. by eapply (co_names _ Hok).
  - intros k b [Hb Hne]%map_lookup_filter_Some. pose proof (co_bindings _ Hok _ _ Hb) as (Hi & Hq & Hr & Ht).
    split_and!; try done. apply binding_references_refers in Hr as (R1 & R).
    apply binding_references_refers. split; [|done]. cbn in *. by rewrite lookup_delete_ne.
  - intros k k' b b' [Hb _]%map_lookup_filter_Some [Hb' _]%map_lookup_filter_Some. by apply (co_lines _ Hok).
  - intros k r [Hr Hne]%map_lookup_filter_Some. apply (co_routes _ Hok) in Hr as [Hi Hl]. split; [done|].
    cbn in *. by rewrite lookup_delete_ne.
Qed.

Lemma typed_delete_source id : respects typed (delete_source_row id).
Proof.
  intros db x db'. unfold delete_source_row. destruct (_ !! _); intros [= _ <-]; [apply typed_without_source|by intros ?].
Qed.
Lemma typed_delete_account id : respects typed (delete_account_row id).
Proof.
  intros db x db'. unfold delete_account_row. destruct (_ !! _); intros [= _ <-]; [apply typed_without_account|by intros ?].
Qed.
Lemma typed_delete_logical_model id : respects typed (delete_logical_model_row id).
Proof.
  intros db x db'. unfold delete_logical_model_row.
  destruct (_ !! _); intros [= _ <-]; [apply typed_without_logical_model|by intros ?].
Qed.
Lemma typed_delete_binding id : respects typed (delete_binding_row id).
Proof.
  intros db x db'. unfold delete_binding_row. destruct (_ !! _); intros [= _ <-] Hok; [|done]. split; cbn; try apply Hok.
  - intros k b [_ Hb]%lookup_delete_Some. by apply (co_bindings _ Hok).
  - intros k k' b b' [_ Hb]%lookup_delete_Some [_ Hb']%lookup_delete_Some. by apply (co_lines _ Hok).
Qed.
Lemma typed_delete_route id : respects typed (delete_route_row id).
Proof.
  intros db x db'. unfold delete_route_row. destruct (_ !! _); intros [= _ <-] Hok; [|done]. split; cbn; try apply Hok.
  intros k row [_ Hr]%lookup_delete_Some. by apply (co_routes _ Hok).
Qed.

Lemma typed_health_events db events : typed db (set_health_events db events).
Proof. intros Hok. by split; apply Hok. Qed.
Lemma typed_set_revision db revision updated_at : typed db (set_revision db revision updated_at).
Proof. intros Hok. by split; apply Hok. Qed.

Lemma typed_manual_health id enabled at_ : respects typed (apply_manual_health_transition id enabled at_).
Proof.
  unfold apply_manual_health_transition. respects_auto; [apply typed_update_account_row|].
  apply respects_write. intros db. apply typed_health_events.
Qed.

Lemma typed_manual_health_source id enabled at_ : respects typed (apply_manual_health_transition_for_source id enabled at_).
Proof.
  unfold apply_manual_health_transition_for_source. respects_auto; apply respects_write; intros db;
    [|apply typed_health_events]. intros Hok. split; cbn; try apply Hok.
  - intros k a. rewrite lookup_fmap_Some. intros (a' & <- & Ha). apply (co_accounts _ Hok) in Ha.
    by destruct (ax_source_id a' =?s id).
  - intros k b Hk. pose proof (co_bindings _ Hok _ _ Hk) as (Hi & Hq & Hr & Ht). split_and!; try done.
    apply binding_references_refers. apply binding_references_refers in Hr. revert Hr. apply refers_mono; try done.
    intros a Ha He. cbn. rewrite lookup_fmap, Ha. cbn. eexists. split; [done|]. by destruct (ax_source_id a =?s id).
Qed.

(** A capability of a known source model is written. *)
Lemma typed_put_capability db s u p row :
  is_Some (find_source_model db s u) ->
  typed db (set_catalog db (set_capabilities (db_catalog db) (<[(s, u, p) := row]> (cd_capabilities (db_catalog db))))).
Proof.
  intros Hm Hok. split; cbn; try apply Hok.
  - intros s' u' p' c. unfold find_capability. cbn. intros [[[= <- <- <-] _]|[_ Hc]]%lookup_insert_Some; [done|].
    by eapply (co_capabilities db).
  - intros k b Hk. pose proof (co_bindings _ Hok _ _ Hk) as (Hi & Hq & Hr & Ht). split_and!; try done.
    apply binding_references_refers. apply binding_references_refers in Hr. revert Hr. apply refers_mono; try done; [|eauto].
    intros s' u' p'. unfold find_capability. cbn. apply insert_is_Some.
Qed.

Lemma typed_upsert_capability input utc now :
  respects typed (in_catalog (upsert_source_model_capability_conn input utc now)).
Proof.
  intros db x db' E Hok. unfold in_catalog in E. destruct (upsert_source_model_capability_conn _ _ _ _) as [[rec c]|] eqn:Eu;
    [|done]. injection E as <- <-. apply upsert_inv in Eu as (_ & _ & _ & Eu).
  destruct (_ && _ && _); [by destruct db; subst c|]. destruct Eu as (_ & Hm & _ & ->). by apply typed_put_capability.
Qed.

Lemma typed_import_source_model source_id upstream_model_id :
  respects typed (ensure_imported_source_model source_id upstream_model_id).
Proof.
  intros db x db' E Hok. unfold ensure_imported_source_model in E. tx_inv. rename select (is_some _ = true) into Hs.
  apply is_some_Some in Hs. split; cbn; try apply Hok.
  - intros s u m. unfold find_source_model. cbn. intros [[[= <- <-] _]|[_ Hm]]%lookup_insert_Some; [done|].
    by eapply (co_source_models db).
  - intros s u p c Hc. unfold find_source_model. cbn. apply insert_is_Some. by eapply (co_capabilities db).
  - intros k b Hk. pose proof (co_bindings _ Hok _ _ Hk) as (Hi & Hq & Hr & Ht). split_and!; try done.
    apply binding_references_refers. apply binding_references_refers in Hr. revert Hr. apply refers_mono; try done; [|eauto].
    intros s u. unfold find_source_model. cbn. apply insert_is_Some.
Qed.

Lemma typed_import_capability s u p mode sp adapter features :
  respects typed (put_imported_capability s u p mode sp adapter features).
Proof.
  intros db x db' E. unfold put_imported_capability in E. tx_inv. rename select (is_some _ = true) into Hs.
  by apply typed_put_capability, is_some_Some.
Qed.
Lemma typed_delete_all db : typed db (delete_all db).
Proof. intros _. split; cbn; try (intros *; unfold find_source_model, find_capability; cbn; by rewrite lookup_empty). Qed.

End Typed.

(** ** Columns and references of the rows

    What [control_ok] does not say: the columns of a row repeat its key, presets
    exist, statuses have their times, and runs, tests and health events refer to
    rows. *)

Definition source_row_ok (db : ControlDb) (id : string) (s : SourceRecord) : Prop :=
  so_id s = id /\ preset_present db (so_provider_preset_id s) (so_provider_preset_version s) = true.
Definition source_model_row_ok (c : CatalogDb) (k : string * string) (m : SourceModelRecord) : Prop :=
  k = (sm_source_id m, sm_upstream_model_id m)
  /\ preset_exists c (sm_matched_model_preset_id m) (sm_matched_model_preset_version m) = true
  /\ (sm_confirmation_status m = CsConfirmed -> is_Some (sm_confirmed_at m))
  /\ (sm_availability_status m = CaUnavailable -> is_Some (sm_unavailable_at m)).

(** A source, and an account if there is one. *)
Definition attributed (c : CatalogDb) (source : string) (account : option string) : Prop :=
  is_Some (cd_sources c !! source) /\ forall a, account = Some a -> is_Some (cd_accounts c !! a).

Record rows_ok (db : ControlDb) : Prop := {
  ty_sources : forall id s, db_sources db !! id = Some s -> source_row_ok db id s;
  ty_source_models : forall k m, cd_source_models (db_catalog db) !! k = Some m -> source_model_row_ok (db_catalog db) k m;
  ty_capabilities : forall k r, cd_capabilities (db_catalog db) !! k = Some r -> capability_row_ok (db_catalog db) k r;
  ty_runs : forall r, r ∈ cd_runs (db_catalog db) ->
    attributed (db_catalog db) (dr_source_id r) (dr_account_id r)
    /\ preset_present db (dr_provider_preset_id r) (dr_provider_preset_version r) = true;
  ty_tests : forall r, r ∈ cd_tests (db_catalog db) -> attributed (db_catalog db) (cr_source_id r) (cr_account_id r);
  ty_health : forall e, e ∈ db_health_events db -> is_Some (db_accounts db !! hv_account_id e);
}.

(** The type of the tables. *)
Record tables_ok (db : ControlDb) : Prop := { to_control : control_ok db; to_rows : rows_ok db }.

Section Rows.
Context `{ErrorTexts} `{ControlEnv} `{BuildCfg} `{UrlCrates} `{Collation} `{PresetSerde}.

Abbreviation full := (inv tables_ok).

(** A statement known to keep [control_ok] need only keep the rows. *)
Lemma full_of {A} (m : ControlTx A) :
  respects typed m -> (forall db x db', m db = Ok (x, db') -> tables_ok db -> rows_ok db') -> respects full m.
Proof. intros Ht Hr db x db' E Hok. split; [by eapply Ht; [|apply Hok]|by eapply Hr]. Qed.

(** Statements that leave the catalogue and the health events. *)
Definition same_rows : relation ControlDb := fun db db' =>
  db_catalog db' = db_catalog db /\ db_health_events db' = db_health_events db.
#[export] Instance same_rows_preorder : PreOrder same_rows.
Proof. split; [done|]. intros x y z [] []. unfold same_rows. split; congruence. Qed.

Lemma same_rows_ok db db' : same_rows db db' -> rows_ok db -> rows_ok db'.
Proof.
  intros [Hc Hh] [R1 R2 R3 R4 R5 R6]. split; rewrite ?Hc, ?Hh; try done.
  - unfold db_sources, source_row_ok, preset_present in *. by rewrite Hc.
  - unfold preset_present in *. by rewrite Hc.
  - unfold db_accounts in *. by rewrite Hc.
Qed.

Lemma full_same {A} (m : ControlTx A) : respects typed m -> respects same_rows m -> respects full m.
Proof. intros Ht Hs. apply full_of; [done|]. intros db x db' E Hok. eapply same_rows_ok; [by eapply Hs|apply Hok]. Qed.

Ltac same := apply full_same; [eauto using typed_put_logical_model, typed_insert_logical_model, typed_insert_binding,
  typed_update_binding, typed_put_route, typed_insert_route, typed_delete_logical_model, typed_delete_binding, typed_delete_route|].
Ltac same_write := respects_auto; apply respects_write; done.

Lemma full_put_logical_model row : respects full (put_logical_model row).
Proof. same. unfold put_logical_model. same_write. Qed.
Lemma full_insert_logical_model row : respects full (insert_logical_model row).
Proof. same. unfold insert_logical_model, put_logical_model. same_write. Qed.
Lemma full_insert_binding row : (forall id, bv_id (row id) = id) -> respects full (insert_binding row).
Proof. intros Hrow. same. unfold insert_binding, put_binding. same_write. Qed.
Lemma full_update_binding row : respects full (update_binding row).
Proof. same. unfold update_binding, put_binding. same_write. Qed.
Lemma full_put_route row : respects full (put_route row).
Proof. same. unfold put_route. same_write. Qed.
Lemma full_insert_route row : respects full (insert_route row).
Proof. same. unfold insert_route, put_route. same_write. Qed.
Lemma full_delete_logical_model id : respects full (delete_logical_model_row id).
Proof. same. intros db x db'. unfold delete_logical_model_row. by destruct (_ !! _); intros [= _ <-]. Qed.
Lemma full_delete_binding id : respects full (delete_binding_row id).
Proof. same. intros db x db'. unfold delete_binding_row. by destruct (_ !! _); intros [= _ <-]. Qed.
Lemma full_delete_route id : respects full (delete_route_row id).
Proof. same. intros db x db'. unfold delete_route_row. by destruct (_ !! _); intros [= _ <-]. Qed.
Lemma full_clear_model id : respects full (tx_write (clear_model id)).
Proof. apply full_same; apply respects_write; intros db; [apply typed_clear_model|done]. Qed.
Lemma full_set_revision (revision : ControlDb -> Z) updated_at :
  respects full (tx_write (fun db => set_revision db (revision db) updated_at)).
Proof. apply full_same; apply respects_write; intros db; [apply typed_set_revision|done]. Qed.

(** Sources and accounts are only added or replaced. *)
Lemma attributed_mono c c' source account :
  (forall s, is_Some (cd_sources c !! s) -> is_Some (cd_sources c' !! s)) ->
  (forall a, is_Some (cd_accounts c !! a) -> is_Some (cd_accounts c' !! a)) ->
  attributed c source account -> attributed c' source account.
Proof. intros Hs Ha [R1 R2]. split; [by apply Hs|]. intros a E. by apply Ha, R2. Qed.

Lemma rows_put_source db id row :
  source_row_ok db id row -> rows_ok db -> rows_ok (set_sources db (<[id := row]> (db_sources db))).
Proof.
  intros Hrow [R1 R2 R3 R4 R5 R6]. split; cbn; try done.
  - by intros j s [[<- <-]|[_ Hs]]%lookup_insert_Some; [|apply R1].
  - intros k r Hr. destruct (R3 k r Hr). by split.
  - intros r Hr. destruct (R4 r Hr) as [Ha Hp]. split; [|done]. revert Ha. apply attributed_mono; cbn; [|done].
    intros s. apply insert_is_Some.
  - intros r Hr. generalize (R5 r Hr). apply attributed_mono; cbn; [|done]. intros s. apply insert_is_Some.
Qed.

Lemma full_insert_source row : respects full (insert_source row).
Proof.
  apply full_of; [apply typed_insert_source|]. intros db x db' E Hok. unfold insert_source in E. tx_inv.
  by apply rows_put_source; [|apply Hok].
Qed.
Lemma full_update_source_row id f :
  (forall row, so_id (f row) = so_id row /\ so_provider_preset_id (f row) = so_provider_preset_id row
     /\ so_provider_preset_version (f row) = so_provider_preset_version row) ->
  respects full (update_source_row id f).
Proof.
  intros Hf. apply full_of; [apply typed_update_source_row|]. intros db x db' E Hok. unfold update_source_row in E. tx_inv.
  rename select (ok_or _ _ = Ok _) into Hr. destruct (db_sources db !! id) as [row|] eqn:Er; [|done]. injection Hr as <-.
  apply rows_put_source; [|apply Hok]. destruct (Hf row) as (Hi & Hp & Hv). unfold source_row_ok. rewrite Hi, Hp, Hv.
  by apply (ty_sources _ (to_rows _ Hok)).
Qed.

(** The accounts of the table are replaced by others under the same keys, or
    added. *)
Lemma rows_put_accounts db accounts :
  (forall a, is_Some (db_accounts db !! a) -> is_Some (accounts !! a)) -> rows_ok db -> rows_ok (set_accounts db accounts).
Proof.
  intros Ha [R1 R2 R3 R4 R5 R6]. split; cbn; try done.
  - intros k r Hr. destruct (R3 k r Hr). by split.
  - intros r Hr. destruct (R4 r Hr) as [Hr' Hp]. split; [|done]. revert Hr'. by apply attributed_mono.
  - intros r Hr. generalize (R5 r Hr). by apply attributed_mono.
  - intros e He. apply Ha, R6, He.
Qed.

Lemma full_insert_account id row : respects full (insert_account id row).
Proof.
  apply full_of; [apply typed_insert_account|]. intros db x db' E Hok. unfold insert_account in E. tx_inv.
  apply rows_put_accounts; [|apply Hok]. intros a. apply insert_is_Some.
Qed.
Lemma full_update_account_row id f : respects full (update_account_row id f).
Proof.
  apply full_of; [apply typed_update_account_row|]. intros db x db' E Hok. unfold update_account_row in E. tx_inv.
  destruct (db_accounts db !! id) as [old|]; tx_inv; [|apply Hok]. apply rows_put_accounts; [|apply Hok].
  intros a. apply insert_is_Some.
Qed.

Lemma rows_health_events db events :
  (forall e, e ∈ events -> is_Some (db_accounts db !! hv_account_id e)) -> rows_ok db ->
  rows_ok (set_health_events db (db_health_events db ++ events)).
Proof. intros He []. split; cbn; try done. intros e [?|?]%elem_of_app; auto. Qed.

Lemma full_manual_health id enabled at_ : respects full (apply_manual_health_transition id enabled at_).
Proof.
  apply full_of; [apply typed_manual_health|]. unfold apply_manual_health_transition.
  intros db x db' (b & d & E & Ew)%tx_bind_inv Hok. apply (full_update_account_row _ _ _ _ _ E) in Hok. tx_inv.
  rename select (is_some _ = true) into Hs. apply rows_health_events; [|apply Hok].
  intros e ->%list_elem_of_singleton. by apply is_some_Some.
Qed.

Lemma full_manual_health_source id enabled at_ : respects full (apply_manual_health_transition_for_source id enabled at_).
Proof.
  apply full_of; [apply typed_manual_health_source|]. unfold apply_manual_health_transition_for_source.
  intros db x db' E Hok. tx_inv.
  apply rows_health_events.
  - intros e (a & -> & Ha)%list_elem_of_fmap. apply list_elem_of_fmap in Ha as ([j row] & -> & [_ Hj]%list_elem_of_filter).
    apply elem_of_map_to_list in Hj. by eexists.
  - apply rows_put_accounts; [|apply Hok]. intros a [row Ha]. rewrite lookup_fmap, Ha. by eexists.
Qed.

(** *** Deletions *)

Lemma attributed_forget (gone : string -> bool) (c c' : CatalogDb) source account :
  (is_Some (cd_sources c !! source) -> is_Some (cd_sources c' !! source)) ->
  (forall a, gone a = false -> is_Some (cd_accounts c !! a) -> is_Some (cd_accounts c' !! a)) ->
  attributed c source account -> attributed c' source (opt_filter (fun a => negb (gone a)) account).
Proof.
  intros Hs Ha [R1 R2]. split; [by apply Hs|]. intros a. destruct account as [b|]; [|done]. cbn.
  destruct (gone b) eqn:Eg; cbn; [done|]. intros [= <-]. by apply Ha, R2.
Qed.

Lemma rows_without_source db id : control_ok db -> rows_ok db -> rows_ok (without_source db id).
Proof.
  intros Hok [R1 R2 R3 R4 R5 R6].
  set (gone := fun a => is_some_and (cd_accounts (db_catalog db) !! a) (fun row => ax_source_id row =?s id)).
  assert (forall a, gone a = false -> is_Some (cd_accounts (db_catalog db) !! a) ->
    is_Some (cd_accounts (catalog_without_source (db_catalog db) id) !! a)) as Hacc.
  { intros a Hg [row Hrow]. exists row. cbn. apply map_lookup_filter_Some. split; [done|]. cbn. intros He.
    unfold gone in Hg. rewrite Hrow in Hg. cbn in Hg. by rewrite He, String.eqb_refl in Hg. }
  split; cbn.
  - intros j s [_ Hs]%lookup_delete_Some. by apply R1.
  - intros k m [Hm _]%map_lookup_filter_Some. by apply R2.
  - intros k r [Hr Hne]%map_lookup_filter_Some. destruct (R3 k r Hr) as [[m Hm] ? ? ? ? ?]. split; try done.
    exists m. by apply map_lookup_filter_Some.
  - intros r' (r & -> & [Hne Hr]%list_elem_of_filter)%list_elem_of_fmap. destruct (R4 r Hr) as [Ha Hp]. split; [|done].
    revert Ha. apply (attributed_forget gone); [|done]. cbn. by rewrite lookup_delete_ne.
  - intros r' (r & -> & [Hne Hr]%list_elem_of_filter)%list_elem_of_fmap. generalize (R5 r Hr).
    apply (attributed_forget gone); [|done]. cbn. by rewrite lookup_delete_ne.
  - by intros e [He _]%list_elem_of_filter.
Qed.

Lemma rows_without_account db id : rows_ok db -> rows_ok (without_account db id).
Proof.
  intros [R1 R2 R3 R4 R5 R6].
  assert (forall a, (id =?s a) = false -> is_Some (cd_accounts (db_catalog db) !! a) ->
    is_Some (delete id (cd_accounts (db_catalog db)) !! a)) as Hacc
    by (intros a Hg%String.eqb_neq Ha; by rewrite lookup_delete_ne).
  split; cbn; try done.
  - intros k r Hr. destruct (R3 k r Hr). by split.
  - intros r' (r & -> & Hr)%list_elem_of_fmap. destruct (R4 r Hr) as [Ha Hp]. split; [|done].
    revert Ha. by apply (attributed_forget (String.eqb id)).
  - intros r' (r & -> & Hr)%list_elem_of_fmap. generalize (R5 r Hr). by apply (attributed_forget (String.eqb id)).
  - intros e [Hne He]%list_elem_of_filter. destruct (R6 e He) as [row Hrow]. exists row. by rewrite lookup_delete_ne.
Qed.

Lemma full_delete_source id : respects full (delete_source_row id).
Proof.
  apply full_of; [apply typed_delete_source|]. intros db x db' E [Hc Hr]. unfold delete_source_row in E.
  destruct (_ !! _); injection E as _ <-; [by apply rows_without_source|done].
Qed.
Lemma full_delete_account id : respects full (delete_account_row id).
Proof.
  apply full_of; [apply typed_delete_account|]. intros db x db' E [Hc Hr]. unfold delete_account_row in E.
  destruct (_ !! _); injection E as _ <-; [by apply rows_without_account|done].
Qed.
Lemma full_delete_all : respects full (tx_write delete_all).
Proof.
  apply full_of; [apply respects_write; apply typed_delete_all|]. intros db x db' [= _ <-] _.
  split; cbn; intros *; rewrite ?lookup_empty; try done; by intros ?%elem_of_nil.
Qed.

(** *** Models and capabilities *)

Lemma rows_put_capability db k row :
  capability_row_ok (db_catalog db) k row -> rows_ok db ->
  rows_ok (set_catalog db (set_capabilities (db_catalog db) (<[k := row]> (cd_capabilities (db_catalog db))))).
Proof.
  intros Hrow [R1 R2 R3 R4 R5 R6]. split; cbn; try done.
  intros j r [[<- <-]|[_ Hr]]%lookup_insert_Some; [destruct Hrow|destruct (R3 j r Hr)]; by split.
Qed.

Lemma full_upsert_capability input utc now :
  respects full (in_catalog (upsert_source_model_capability_conn input utc now)).
Proof.
  apply full_of; [apply typed_upsert_capability|]. intros db x db' E [Hc Hr]. unfold in_catalog in E.
  destruct (upsert_source_model_capability_conn _ _ _ _) as [[rec c]|] eqn:Eu; [|done]. injection E as <- <-.
  pose proof (upsert_row_ok _ _ _ _ _ _ Eu (ty_capabilities _ Hr)) as Hrec. apply upsert_inv in Eu as (_ & _ & _ & Eu).
  destruct (_ && _ && _); [by destruct db; subst c|]. destruct Eu as (_ & _ & _ & ->). by apply rows_put_capability.
Qed.

Lemma full_import_source_model source_id upstream_model_id :
  respects full (ensure_imported_source_model source_id upstream_model_id).
Proof.
  apply full_of; [apply typed_import_source_model|]. intros db x db' E [Hc Hr]. unfold ensure_imported_source_model in E.
  tx_inv. destruct Hr as [R1 R2 R3 R4 R5 R6]. split; cbn; try done.
  - intros k m [[<- <-]|[_ Hm]]%lookup_insert_Some; [|by apply R2].
    destruct (cd_source_models (db_catalog db) !! (source_id, upstream_model_id)) as [old|] eqn:Eo.
    + destruct (R2 _ _ Eo) as (Hk & Hp & _ & _). split_and!; [done|done| |done]. intros _. cbn.
      destruct (sm_confirmed_at old); by eexists.
    + split_and!; [done|done| |done]. by eexists.
  - intros k r Hk. destruct (R3 k r Hk) as [Hm ? ? ? ? ?]. split; try done. cbn. by apply insert_is_Some.
Qed.

Lemma full_import_capability s u p mode sp adapter features :
  mode <> SmUnknown -> respects full (put_imported_capability s u p mode sp adapter features).
Proof.
  intros Hmode. apply full_of; [apply typed_import_capability|]. intros db x db' E [Hc Hr]. unfold put_imported_capability in E.
  tx_inv. rename select (is_some _ = true) into Hs. apply is_some_Some in Hs. apply rows_put_capability; [|done].
  rename select (match mode with _ => _ end = true) into Hcheck.
  assert ((mode = SmAdapter <-> is_Some sp) /\ (is_Some sp <-> is_Some adapter)) as [Ha Hb].
  { destruct mode, sp, adapter; cbn in Hcheck; try done; rewrite ?andb_false_r in Hcheck; try done;
      split; split; (done || by eexists || by intros [? ?]). }
  split; cbn; try done. intros _. split; [done|]. destruct (_ ≫= _); by eexists.
Qed.
End Rows.

(** ** Operations

    An operation keeps what its statements keep. *)

Record StatementsOk `{ErrorTexts} `{ControlEnv} `{BuildCfg} (P : ControlDb -> Prop) : Prop := {
  st_insert_source row : respects (inv P) (insert_source row);
  st_update_source_row id f :
    (forall row, so_id (f row) = so_id row /\ so_provider_preset_id (f row) = so_provider_preset_id row
       /\ so_provider_preset_version (f row) = so_provider_preset_version row) ->
    respects (inv P) (update_source_row id f);
  st_delete_source id : respects (inv P) (delete_source_row id);
  st_insert_account id row : respects (inv P) (insert_account id row);
  st_update_account_row id f : respects (inv P) (update_account_row id f);
  st_delete_account id : respects (inv P) (delete_account_row id);
  st_manual_health id enabled at_ : respects (inv P) (apply_manual_health_transition id enabled at_);
  st_manual_health_source id enabled at_ : respects (inv P) (apply_manual_health_transition_for_source id enabled at_);
  st_put_logical_model row : respects (inv P) (put_logical_model row);
  st_insert_logical_model row : respects (inv P) (insert_logical_model row);
  st_delete_logical_model id : respects (inv P) (delete_logical_model_row id);
  st_insert_binding row : (forall id, bv_id (row id) = id) -> respects (inv P) (insert_binding row);
  st_update_binding row : respects (inv P) (update_binding row);
  st_delete_binding id : respects (inv P) (delete_binding_row id);
  st_put_route row : respects (inv P) (put_route row);
  st_insert_route row : respects (inv P) (insert_route row);
  st_delete_route id : respects (inv P) (delete_route_row id);
  st_clear_model id : respects (inv P) (tx_write (clear_model id));
  st_set_revision (revision : ControlDb -> Z) updated_at :
    respects (inv P) (tx_write (fun db => set_revision db (revision db) updated_at));
  st_upsert_capability input utc now : respects (inv P) (in_catalog (upsert_source_model_capability_conn input utc now));
  st_import_source_model s u : respects (inv P) (ensure_imported_source_model s u);
  st_import_capability s u p mode sp adapter features : mode <> SmUnknown ->
    respects (inv P) (put_imported_capability s u p mode sp adapter features);
  st_delete_all : respects (inv P) (tx_write delete_all);
}.

#[export] Hint Resolve typed_insert_source typed_update_source_row typed_insert_account typed_update_account_row
  typed_put_logical_model typed_insert_logical_model typed_insert_binding typed_update_binding typed_put_route
  typed_insert_route typed_delete_source typed_delete_account typed_delete_logical_model typed_delete_binding
  typed_delete_route typed_manual_health typed_manual_health_source typed_upsert_capability : control.

Section Operations.
Context `{ErrorTexts} `{ControlEnv} `{BuildCfg} `{UrlCrates} `{Collation} `{PresetSerde} `{Crypto} `{SerdeJson}
  (self : ControlPlane) (P : ControlDb -> Prop) (ok : StatementsOk P).

Abbreviation kept := (respects (inv P)).

#[local] Hint Resolve st_insert_source st_delete_source st_insert_account st_update_account_row st_delete_account
  st_manual_health st_manual_health_source st_put_logical_model st_insert_logical_model st_delete_logical_model
  st_insert_binding st_update_binding st_delete_binding st_put_route st_insert_route st_delete_route st_clear_model
  st_set_revision st_upsert_capability st_import_source_model st_delete_all : control.
#[local] Hint Extern 1 (respects _ (update_source_row _ _)) => (apply (st_update_source_row _ ok); done) : control.
#[local] Hint Extern 1 (respects _ (put_imported_capability _ _ _ _ _ _ _)) =>
  (apply (st_import_capability _ ok); done) : control.

Lemma ops_finish_write : kept (finish_write self).
Proof. unfold finish_write. respects_auto. Qed.
Lemma ops_finish_mutation {T} (record : T) : kept (finish_mutation self record).
Proof. unfold finish_mutation. respects_auto. apply ops_finish_write. Qed.
#[local] Hint Resolve ops_finish_write ops_finish_mutation : control.

Lemma ops_delete_op kind id statement : kept statement -> kept (delete_op self kind id statement).
Proof. intros Hs. unfold delete_op, not_found. respects_auto. Qed.

Lemma ops_write_line_protocols id position line ps : forall protocols,
  kept (write_line_protocols id position line ps protocols).
Proof. induction ps as [|p ps IH]; intros protocols; cbn [write_line_protocols]; respects_auto. Qed.
Lemma ops_write_lines id lines : forall position protocols, kept (write_lines id position lines protocols).
Proof.
  induction lines as [|line lines IH]; intros position protocols; cbn [write_lines]; unfold validation; respects_auto.
  apply ops_write_line_protocols.
Qed.
#[local] Hint Resolve ops_write_lines : control.

Lemma ops_write_model_routing id input create db :
  P db -> P (write_model_routing self id input create db).2.
Proof. apply checked_keeps. unfold write_model_row, reconfirm, write_route, not_found. respects_auto. Qed.

(** *** Import *)

Lemma ops_for_all {A} (f : A -> ControlTx unit) l : (forall x, kept (f x)) -> kept (for_all f l).
Proof. intros Hf. induction l as [|x l IH]; cbn [for_all]; respects_auto. Qed.

Lemma ops_import config : kept (import_gateway_config config).
Proof.
  unfold import_gateway_config. respects_auto; apply ops_for_all; intros item.
  - unfold import_provider. respects_auto.
  - unfold import_account. respects_auto.
  - unfold import_route. respects_auto. apply ops_for_all. intros [index model]. unfold import_model, import_logical_model.
    respects_auto. apply ops_for_all. intros line. unfold import_line. respects_auto. apply ops_for_all. intros p.
    unfold ensure_imported_capability, ensure_imported_native_capability, put_imported_binding, validation. respects_auto.
Qed.

Lemma ops_create_source input db : P db -> P (create_source self input db).2.
Proof. apply checked_keeps. unfold conflict. respects_auto. Qed.

Lemma ops_initialize config force db : P db -> P (initialize_from_config self config force db).2.
Proof.
  apply checked_keeps. respects_auto. apply ops_import.
Qed.

Lemma perform_keeps op db : P db -> P (perform self op db).2.
Proof.
  destruct op; unfold perform, published; rewrite ?outcome_map_snd;
    try first [ apply checked_keeps; cbv zeta; unfold conflict, not_found, validation; respects_auto; fail
              | apply run_keeps; cbv zeta; unfold conflict, not_found, validation; respects_auto; fail
              | apply run_keeps, ops_delete_op; respects_auto; fail
              | apply ops_write_model_routing | apply ops_initialize ].
  intros Hok. unfold create_source_from_request. destruct (rbind _ _) as [effective|]; [|done].
  by apply ops_create_source.
Qed.
End Operations.

(** The two invariants. *)
Lemma statements_typed `{ErrorTexts} `{ControlEnv} `{BuildCfg} : StatementsOk control_ok.
Proof.
  split; intros *; auto with control; try by apply respects_write; intros db;
    auto using typed_clear_model, typed_set_revision, typed_delete_all.
  - apply typed_import_source_model.
  - intros _. apply typed_import_capability.
Qed.

Lemma statements_full `{ErrorTexts} `{ControlEnv} `{BuildCfg} : StatementsOk tables_ok.
Proof.
  split; intros *; auto using full_insert_source, full_update_source_row, full_delete_source, full_insert_account,
    full_update_account_row, full_delete_account, full_manual_health, full_manual_health_source,
    full_put_logical_model, full_insert_logical_model, full_delete_logical_model, full_insert_binding,
    full_update_binding, full_delete_binding, full_put_route, full_insert_route, full_delete_route,
    full_clear_model, full_set_revision, full_upsert_capability, full_import_source_model, full_import_capability,
    full_delete_all.
Qed.

(** ** Sequences of operations *)

(** One write of the control plane, under any clock and any choice of rows. *)
Inductive control_step `{ErrorTexts} `{BuildCfg} `{UrlCrates} `{Collation} `{PresetSerde} `{Crypto} `{SerdeJson}
    (self : ControlPlane) : ControlDb -> ControlDb -> Prop :=
| control_operation (env : ControlEnv) op db : control_step self db (perform self op db).2.

(** C10. The tables of the control plane keep their type: after any sequence of
    operations of the control plane, imports and failures included, every row
    stands under its key; every reference leads to a row (of a source to its
    preset; of accounts, models, capabilities, bindings, routes, discovery runs,
    connection tests and health events to what they belong to, where a binding's
    account belongs to its source and its capability exists); public names and
    binding lines are unique; a capability names an adapter and a source protocol
    exactly in its adapter mode; and a confirmed or unavailable row has its
    time. *)
Theorem control_tables_stay_typed `{ErrorTexts} `{BuildCfg} `{UrlCrates} `{Collation} `{PresetSerde} `{Crypto}
    `{SerdeJson} (self : ControlPlane) (db db' : ControlDb) (Hsteps : rtc (control_step self) db db')
    (Hok : tables_ok db) :
  tables_ok db'.
Proof. induction Hsteps as [|x y z [env op d] _ IH]; [done|]. apply IH. by apply perform_keeps; [apply statements_full|]. Qed.

(** ** A concrete control plane *)

Definition example_errors : ErrorTexts :=
  {| database_text := fun _ => "database"; matrix_error := fun _ => "matrix"; endpoints_error := fun _ => "endpoints";
     protocols_error := fun _ => "protocols"; preset_error := fun _ => "preset"; snapshot_error := fun _ => "row" |}.
Definition example_control_env : ControlEnv :=
  {| ce_now := 7; ce_utc := 7; ce_clock := 7; ce_model_uuid := "1"; ce_route_uuid := "1"; ce_any := head |}.
Definition example_plane : ControlPlane := mkControlPlane "127.0.0.1:0" example_policy.

Definition example_control_source (id preset : string) : SourceRecord :=
  mkSourceRecord id id preset 1 (VObject []) "https://upstream"
    (endpoints_to_value [(OpenAiResponses, "/v1/responses")]) (VObject []) (VObject []) true 0 0.
Definition example_control_account (source : string) : AccountRow :=
  mkAccountRow source "Account" (Some "KEY") None true 100
    (mkHealthColumns "unknown" "unknown" (Some 0) 0 None None None None None None None) 0 0.
Definition example_control_model (source : string) : SourceModelRecord :=
  mkSourceModelRecord source "m1" CsConfirmed CaAvailable (VObject []) (VObject []) (VObject []) None None 0 0 (Some 0) None 0 0.

(** Two sources of two provider families, each with an account and the model
    ["m1"], nothing routed yet. *)
Definition example_control_db : ControlDb :=
  mkControlDb
    (mkCatalogDb
       {[ ("anthropic", 1) := mkProviderPresetRecord "anthropic" 1 "Anthropic" (VObject []) 0;
          ("openai", 1) := mkProviderPresetRecord "openai" 1 "OpenAI" (VObject []) 0 ]} ∅
       {[ "a" := example_control_source "a" "anthropic"; "b" := example_control_source "b" "openai" ]}
       {[ "ka" := example_control_account "a"; "kb" := example_control_account "b" ]}
       {[ ("a", "m1") := example_control_model "a"; ("b", "m1") := example_control_model "b" ]} ∅ [] [])
    ∅ ∅ ∅ [] 0 0 0.

Definition example_native (source : string) : SourceModelCapabilityInput :=
  mkSourceModelCapabilityInput source "m1" OpenAiResponses CsConfirmed SmNative None None [] MsUser 12.
Definition example_routing : ModelRoutingWrite :=
  mkModelRoutingWrite "gpt" "GPT" true [mkModelRoutingLineWrite "a" "ka" "m1"] None None.
Definition example_family_crossing : ModelBindingWrite :=
  mkModelBindingWrite "model-1" "b" "kb" "m1" OpenAiResponses CsConfirmed true 0.
Definition example_operations : list Operation :=
  [OpUpsertCapability (example_native "a"); OpUpsertCapability (example_native "b");
   OpCreateModelRouting example_routing; OpCreateBinding example_family_crossing;
   OpSetAccountEnabled "ka" false].

Section Example.
Local Existing Instances example_errors any_url example_serde json_concrete mock_crypto example_control_env.
#[local] Instance example_build : BuildCfg := false.
#[local] Instance example_collation : Collation := str_cmp.

Definition example_after (ops : list Operation) : ControlDb :=
  fold_left (fun db op => (perform example_plane op db).2) ops example_control_db.

(** The first three operations and the last succeed; the binding at the source
    of the other family is refused. *)
Definition example_outcome (n : nat) (op : Operation) : result (option Z) string :=
  match (perform example_plane op (example_after (take n example_operations))).1 with
  | Ok s => Ok (ss_revision <$> s)
  | Err e => Err (control_error_message e)
  end.
Example example_outcomes :
  imap example_outcome example_operations
  = [Ok (Some 1); Ok (Some 2); Ok (Some 3);
     Err "cross-family binding rejected: logical model 'model-1' already has enabled bindings from provider family 'anthropic'; cannot add binding from family 'openai'";
     Ok (Some 4)].
Proof. vm_compute. reflexivity. Qed.

Lemma example_steps ops db :
  rtc (control_step example_plane) db (fold_left (fun db op => (perform example_plane op db).2) ops db).
Proof. revert db. induction ops as [|op ops IH]; intros db; cbn; [done|]. eapply rtc_l; [apply control_operation|apply IH]. Qed.

Lemma example_control_ok : control_ok example_control_db.
Proof.
  split; cbn; try (intros *; unfold find_capability; cbn; by rewrite lookup_empty).
  - intros id a. rewrite lookup_insert_Some, lookup_singleton_Some.
    intros [[<- <-]|[_ [<- <-]]]; eexists; vm_compute; reflexivity.
  - intros s u m. unfold find_source_model. cbn. rewrite lookup_insert_Some, lookup_singleton_Some.
    intros [[[= <- <-] <-]|[_ [[= <- <-] <-]]]; eexists; vm_compute; reflexivity.
Qed.

Lemma example_tables_ok : tables_ok example_control_db.
Proof.
  split; [apply example_control_ok|]. split; cbn; try (intros *; by rewrite ?lookup_empty, ?elem_of_nil).
  - intros id s. rewrite lookup_insert_Some, lookup_singleton_Some.
    intros [[<- <-]|[_ [<- <-]]]; split; vm_compute; reflexivity.
  - intros k m. rewrite lookup_insert_Some, lookup_singleton_Some.
    intros [[<- <-]|[_ [<- <-]]]; (split_and!; [reflexivity|vm_compute; reflexivity|by eexists|done]).
Qed.

Lemma control_tables_stay_typed_witness :
  tables_ok (example_after example_operations)
  /\ size (db_bindings (example_after example_operations)) = 1%nat.
Proof.
  split; [|vm_compute; reflexivity].
  apply (control_tables_stay_typed example_plane example_control_db); [apply example_steps|apply example_tables_ok].
Defined.
End Example.
