(* ===== verification/ControlInvariants.v ===== *)
(** * One family per model, no overlapping routes

    The bindings of a logical model that are confirmed and enabled belong to
    one provider family, as [validate_binding_family_constraint] demands "to
    prevent silent cross-provider fallback"; the enabled routes of a model serve
    disjoint protocols.  Every operation but the import of a configuration keeps
    both; an import checks neither against the tables, and does cross families
    ([import_crosses_families]). *)

From Stdlib Require Import ZArith Lia.
From stdpp Require Import base list strings gmap.
From S2P Require Import Prelude.
From S2P Require Import RustStr.
From S2P Require Import Protocol.
From S2P Require Import BTree.
From S2P Require Import Tx.
From S2P Require Import Config.
From S2P Require Import SourceUrl.
From S2P Require Import Json.
From S2P Require Import Catalog.
From S2P Require Import Presets.
From S2P Require Import PresetDiff.
From S2P Require Import ModelCatalog.
From S2P Require Import CatalogTypes.
From S2P Require Import Discovery.
From S2P Require Import Snapshot.
From S2P Require Import Secrets.
From S2P Require Import Validation.
From S2P Require Import ControlDb.
From S2P Require Import ControlPlane.
From S2P Require Import ModelRouting.
From S2P Require Import Import.
From S2P Require Import ControlProps.
From S2P Require Import ControlTypes.

Definition single_family (db : ControlDb) : Prop :=
  forall id id' b b', db_bindings db !! id = Some b -> db_bindings db !! id' = Some b' ->
    active b = true -> active b' = true -> bv_logical_model_id b = bv_logical_model_id b' ->
    family db (bv_source_id b) = family db (bv_source_id b').

Definition serves (r : RouteRow) (p : Protocol) : bool := json_has (ro_protocols r) (Protocol_to_string p).

Definition routes_disjoint (db : ControlDb) : Prop :=
  forall id id' r r' p, db_routes db !! id = Some r -> db_routes db !! id' = Some r' ->
    ro_enabled r = true -> ro_enabled r' = true -> ro_logical_model_id r = ro_logical_model_id r' ->
    serves r p = true -> serves r' p = true -> id = id'.

(** The column holds what was written. *)
Definition stored_protocols (r : RouteRow) : Prop := exists ps, ro_protocols r = protocols_to_value ps.

Record control_inv (db : ControlDb) : Prop := {
  ci_ok : control_ok db;
  ci_family : single_family db;
  ci_routes : routes_disjoint db;
  ci_stored : forall id r, db_routes db !! id = Some r -> stored_protocols r;
}.

(** A control plane without bindings and routes. *)
Lemma empty_control_inv db : control_ok db -> db_bindings db = ∅ -> db_routes db = ∅ -> control_inv db.
Proof.
  intros Hok Hb Hr. split; [done| | |].
  - intros id id' b b'. by rewrite Hb, lookup_empty.
  - intros id id' r r' p. by rewrite Hr, lookup_empty.
  - intros id r. by rewrite Hr, lookup_empty.
Qed.

(** ** Statements that add no binding and no route *)

Record fewer (db db' : ControlDb) : Prop := {
  fw_bindings : db_bindings db' ⊆ db_bindings db;
  fw_family : forall id b, db_bindings db' !! id = Some b -> family db' (bv_source_id b) = family db (bv_source_id b);
  fw_routes : db_routes db' ⊆ db_routes db;
}.

Lemma fewer_refl db : fewer db db.
Proof. by split. Qed.

Definition shrinks : relation ControlDb := fun db db' => control_ok db -> control_ok db' /\ fewer db db'.

#[export] Instance shrinks_preorder : PreOrder shrinks.
Proof.
  split; [intros db Hok; split; [done|apply fewer_refl]|]. intros x y z Hxy Hyz Hx.
  destruct (Hxy Hx) as [Hy [B1 F1 R1]]. destruct (Hyz Hy) as [Hz [B2 F2 R2]]. split; [done|]. split.
  - by etrans.
  - intros id b Hb. rewrite (F2 _ _ Hb). eapply F1. by eapply lookup_weaken.
  - by etrans.
Qed.

Lemma fewer_inv db db' : control_ok db' -> fewer db db' -> inv control_inv db db'.
Proof.
  intros Hok [Hb Hf Hr] [_ Hfam Hroutes Hst]. split; [done| | |].
  - intros id id' b b' Hid Hid' Ha Ha' Hl. rewrite (Hf _ _ Hid), (Hf _ _ Hid').
    eapply (Hfam id id'); eauto using lookup_weaken.
  - intros id id' r r' p Hid Hid'. eapply Hroutes; by eapply lookup_weaken.
  - intros id r Hid. eapply Hst. by eapply lookup_weaken.
Qed.

Lemma shrinks_inv {A} (m : ControlTx A) : respects shrinks m -> respects (inv control_inv) m.
Proof. intros Hm db x db' E Hi. destruct (Hm _ _ _ E (ci_ok _ Hi)) as [Hok Hf]. by eapply fewer_inv. Qed.

(** A typed statement that leaves sources, bindings and routes. *)
Lemma shrinks_same db db' :
  inv control_ok db db' -> db_bindings db' = db_bindings db -> db_routes db' = db_routes db ->
  (forall s, is_Some (db_sources db !! s) -> family db' s = family db s) -> shrinks db db'.
Proof.
  intros Ht Hb Hr Hs Hok. split; [by apply Ht|]. split; rewrite ?Hb, ?Hr; try done.
  intros id b Hid. apply Hs. by eapply binding_source_exists.
Qed.

(** What a statement that touches none of them leaves. *)
Definition untouched : relation ControlDb := fun db db' =>
  db_bindings db' = db_bindings db /\ db_routes db' = db_routes db /\ db_sources db' = db_sources db.
#[export] Instance untouched_preorder : PreOrder untouched.
Proof. split; [done|]. intros x y z (?&?&?) (?&?&?). unfold untouched. split_and!; congruence. Qed.

Lemma untouched_shrinks {A} (m : ControlTx A) :
  respects (inv control_ok) m -> respects untouched m -> respects shrinks m.
Proof.
  intros Ht Hu db x db' E. destruct (Hu _ _ _ E) as (Hb & Hr & Hs). apply shrinks_same; try done; [by eapply Ht|].
  intros s _. unfold family. by rewrite Hs.
Qed.

Section Shrinks.
Context `{ErrorTexts} `{ControlEnv} `{BuildCfg} `{UrlCrates} `{Collation} `{PresetSerde}.

Ltac unchanged := apply respects_write; done.

Lemma shrinks_insert_account id row : respects shrinks (insert_account id row).
Proof. apply untouched_shrinks; [apply typed_insert_account|]. unfold insert_account. respects_auto; unchanged. Qed.
Lemma shrinks_update_account_row id f : respects shrinks (update_account_row id f).
Proof. apply untouched_shrinks; [apply typed_update_account_row|]. unfold update_account_row. respects_auto; unchanged. Qed.
Lemma shrinks_put_logical_model row : respects shrinks (put_logical_model row).
Proof. apply untouched_shrinks; [apply typed_put_logical_model|]. unfold put_logical_model. respects_auto; unchanged. Qed.
Lemma shrinks_insert_logical_model row : respects shrinks (insert_logical_model row).
Proof.
  apply untouched_shrinks; [apply typed_insert_logical_model|]. unfold insert_logical_model, put_logical_model.
  respects_auto; unchanged.
Qed.
Lemma shrinks_manual_health id enabled at_ : respects shrinks (apply_manual_health_transition id enabled at_).
Proof.
  apply untouched_shrinks; [apply typed_manual_health|]. unfold apply_manual_health_transition, update_account_row.
  respects_auto; unchanged.
Qed.
Lemma shrinks_manual_health_source id enabled at_ :
  respects shrinks (apply_manual_health_transition_for_source id enabled at_).
Proof.
  apply untouched_shrinks; [apply typed_manual_health_source|]. unfold apply_manual_health_transition_for_source.
  respects_auto; unchanged.
Qed.
Lemma shrinks_upsert_capability input utc now :
  respects shrinks (in_catalog (upsert_source_model_capability_conn input utc now)).
Proof.
  apply untouched_shrinks; [apply typed_upsert_capability|]. intros db x db'. unfold in_catalog.
  destruct (upsert_source_model_capability_conn _ _ _ _) as [[rec c]|] eqn:Eu; [|done]. intros [= _ <-].
  apply upsert_inv in Eu as (_ & _ & _ & Eu). destruct (_ && _ && _); [by subst c|]. by destruct Eu as (_ & _ & _ & ->).
Qed.

(** The preset of a source is never changed. *)
Lemma shrinks_insert_source row : respects shrinks (insert_source row).
Proof.
  intros db x db' E. pose proof (typed_insert_source row _ _ _ E) as Ht. unfold insert_source in E. tx_inv.
  apply shrinks_same; [done..|]. intros s [a Hs]. unfold family, db_sources in *. cbn. rewrite lookup_insert_ne; [done|].
  intros <-. rename select (negb _ = true) into Hn. by rewrite Hs in Hn.
Qed.
Lemma shrinks_update_source_row id f :
  (forall row, so_provider_preset_id (f row) = so_provider_preset_id row) -> respects shrinks (update_source_row id f).
Proof.
  intros Hf db x db' E. pose proof (typed_update_source_row id f _ _ _ E) as Ht. unfold update_source_row in E. tx_inv.
  destruct (db_sources _ !! id) as [row|] eqn:Er; [|done]. rename select (ok_or _ _ = _) into Eq. injection Eq as <-.
  apply shrinks_same; [done..|]. intros s _. unfold family, db_sources in *. cbn.
  destruct (decide (id = s)) as [<-|]; [|by rewrite lookup_insert_ne].
  rewrite lookup_insert_eq, Er. cbn. by rewrite Hf.
Qed.

Lemma shrinks_delete_source id : respects shrinks (delete_source_row id).
Proof.
  intros db x db' E Hok. split; [by eapply typed_delete_source|]. unfold delete_source_row in E.
  destruct (db_sources db !! id); injection E as _ <-; [|apply fewer_refl].
  split; [apply map_filter_subseteq| |done]. intros k b [_ Hne]%map_lookup_filter_Some.
  unfold family, db_sources. cbn in *. by rewrite lookup_delete_ne.
Qed.
Lemma shrinks_delete_account id : respects shrinks (delete_account_row id).
Proof.
  intros db x db' E Hok. split; [by eapply typed_delete_account|]. unfold delete_account_row in E.
  destruct (db_accounts db !! id); injection E as _ <-; [|apply fewer_refl]. split; [apply map_filter_subseteq|done|done].
Qed.
Lemma shrinks_delete_logical_model id : respects shrinks (delete_logical_model_row id).
Proof.
  intros db x db' E Hok. split; [by eapply typed_delete_logical_model|]. unfold delete_logical_model_row in E.
  destruct (db_logical_models db !! id); injection E as _ <-; [|apply fewer_refl].
  split; [apply map_filter_subseteq|done|apply map_filter_subseteq].
Qed.
Lemma shrinks_delete_binding id : respects shrinks (delete_binding_row id).
Proof.
  intros db x db' E Hok. split; [by eapply typed_delete_binding|]. unfold delete_binding_row in E.
  destruct (db_bindings db !! id); injection E as _ <-; [|apply fewer_refl]. split; [apply delete_subseteq|done|done].
Qed.
Lemma shrinks_delete_route id : respects shrinks (delete_route_row id).
Proof.
  intros db x db' E Hok. split; [by eapply typed_delete_route|]. unfold delete_route_row in E.
  destruct (db_routes db !! id); injection E as _ <-; [|apply fewer_refl]. split; [done|done|apply delete_subseteq].
Qed.
Lemma shrinks_clear_model id : respects shrinks (tx_write (clear_model id)).
Proof.
  apply respects_write. intros db Hok. split; [by apply typed_clear_model|].
  split; [apply map_filter_subseteq|done|apply map_filter_subseteq].
Qed.
Lemma shrinks_finish_write (self : ControlPlane) : respects shrinks (finish_write self).
Proof.
  apply untouched_shrinks; [apply (ops_finish_write _ _ statements_typed)|]. unfold finish_write. respects_auto. unchanged.
Qed.
End Shrinks.

#[export] Hint Resolve shrinks_insert_account shrinks_update_account_row shrinks_put_logical_model
  shrinks_insert_logical_model shrinks_manual_health shrinks_manual_health_source shrinks_upsert_capability
  shrinks_insert_source shrinks_delete_source shrinks_delete_account shrinks_delete_logical_model
  shrinks_delete_binding shrinks_delete_route shrinks_clear_model shrinks_finish_write shrinks_inv : control.

(** ** Validated writes *)

Lemma no_errors_ok l u : no_errors l = Ok u -> l = [].
Proof. by destruct l. Qed.

Lemma when_nil b m : when b m = [] -> b = false.
Proof. by destruct b. Qed.

Section Writes.
Context `{ErrorTexts} `{ControlEnv} `{!AnyRow} `{BuildCfg} `{UrlCrates} `{Collation} `{PresetSerde}.

(** An accepted active binding is of the family of the model's bindings at
    other sources. *)
Lemma validated_family input db u b' id' :
  validate_binding_reference input db = Ok u -> control_ok db -> single_family db ->
  bw_status input = CsConfirmed -> bw_enabled input = true ->
  db_bindings db !! id' = Some b' -> active b' = true -> bv_logical_model_id b' = bw_logical_model_id input ->
  family db (bv_source_id b') = family db (bw_source_id input).
Proof.
  intros Hv Hok Hfam Hst Hen Hb' Ha' Hl'. destruct (decide (bv_source_id b' = bw_source_id input)) as [->|Hne]; [done|].
  unfold validate_binding_reference in Hv. destruct (binding_validation_row input db) as [row|] eqn:Er; [|done].
  cbn [ok_or rbind] in Hv. destruct (negb _); [done|]. rewrite Hst, Hen in Hv. cbn [andb] in Hv.
  rewrite bool_decide_true in Hv by done. destruct (no_errors _); [|done]. cbn [rbind] in Hv.
  unfold validate_binding_family_constraint in Hv.
  destruct (binding_source_exists _ _ _ Hok Hb') as [s' Hs'].
  assert (so_provider_preset_id s' ∈ other_families db input) as Hin.
  { unfold other_families. apply list_elem_of_omap. exists b'. split; [apply elem_of_values; eauto|].
    rewrite Hl', String.eqb_refl, Ha'. cbn. destruct (String.eqb_spec (bv_source_id b') (bw_source_id input)); [done|].
    cbn. unfold family. by rewrite Hs'. }
  destruct (ce_any (other_families db input)) as [existing|] eqn:Ec.
  2:{ apply any_none in Ec. by rewrite Ec in Hin; apply elem_of_nil in Hin. }
  apply any_in, list_elem_of_omap in Ec as (b2 & (id2 & Hb2)%elem_of_values & Hf2).
  destruct (_ && _ && _) eqn:Eb; [|done]. apply andb_true_iff in Eb as [[El%String.eqb_eq Ea]%andb_true_iff _].
  rewrite (Hfam id' id2 b' b2) by congruence. rewrite Hf2.
  unfold binding_validation_row in Er. destruct (db_sources db !! bw_source_id input) as [s|] eqn:Es;
    [|by destruct (db_logical_models db !! _)].
  unfold family in Hv |- *. rewrite Es in Hv |- *. cbn in Hv |- *.
  destruct (String.eqb_spec (so_provider_preset_id s) existing) as [->|]; [done|done].
Qed.

(** The row of a validated input. *)
Definition validated (db : ControlDb) (row : ModelBindingView) : Prop :=
  active row = true -> exists input u, validate_binding_reference input db = Ok u
    /\ bw_status input = CsConfirmed /\ bw_enabled input = true
    /\ bw_logical_model_id input = bv_logical_model_id row /\ bw_source_id input = bv_source_id row.

Lemma put_binding_inv row seq db u db' :
  put_binding row seq db = Ok (u, db') -> bv_id row <= seq db -> db_binding_seq db <= seq db ->
  validated db row -> inv control_inv db db'.
Proof.
  intros E Hid Hseq Hv [Hok Hfam Hroutes Hps]. pose proof (typed_put_binding _ _ _ _ _ E Hid Hseq Hok) as Hok'.
  unfold put_binding in E. tx_inv. split; [done| |done|done].
  assert (forall id b, db_bindings db !! id = Some b -> active b = true -> active row = true ->
    bv_logical_model_id b = bv_logical_model_id row -> family db (bv_source_id b) = family db (bv_source_id row)) as Hrow.
  { intros id b Hb Ha Harow Hl. destruct (Hv Harow) as (input & u' & Hval & Hst & Hen & Hil & <-).
    eapply validated_family; eauto. congruence. }
  intros id id' b b'. cbn. unfold family, db_sources. cbn.
  intros [[<- <-]|[_ Hb]]%lookup_insert_Some [[<- <-]|[_ Hb']]%lookup_insert_Some Ha Ha' Hl; [done|..].
  - symmetry. by eapply Hrow.
  - by eapply Hrow.
  - by eapply (Hfam id id').
Qed.

Lemma insert_binding_inv row db b db' :
  insert_binding row db = Ok (b, db') -> (forall id, bv_id (row id) = id) -> (forall id, validated db (row id)) ->
  inv control_inv db db'.
Proof.
  intros E Hrow Hv. unfold insert_binding in E. apply tx_bind_inv in E as (last & d & [= <- <-] & E).
  apply tx_bind_inv in E as ([] & d & E & [= <- <-]).
  eapply put_binding_inv; [exact E| | |]; cbn; [rewrite Hrow; lia|lia|done].
Qed.

Lemma update_binding_inv row db u db' :
  update_binding row db = Ok (u, db') -> validated db row -> inv control_inv db db'.
Proof.
  intros E Hv Hi. unfold update_binding in E. apply tx_bind_inv in E as (u' & d & [Hs ->]%sql_check_inv & E).
  eapply put_binding_inv; [exact E| |done|done|done]. apply is_some_Some in Hs as [b Hb].
  by apply (co_bindings _ (ci_ok _ Hi)) in Hb as (_ & Hq & _).
Qed.

Lemma validated_write input db u row :
  validate_binding_reference input db = Ok u ->
  bv_logical_model_id row = bw_logical_model_id input -> bv_source_id row = bw_source_id input ->
  bv_status row = bw_status input -> bv_enabled row = bw_enabled input -> validated db row.
Proof.
  intros Hv Hl Hs Hst Hen Ha. exists input, u. unfold active in Ha. rewrite Hst, Hen in Ha.
  apply andb_true_iff in Ha as [Hc%bool_decide_eq_true He]. by rewrite Hl, Hs.
Qed.

(** *** Routes *)

Lemma json_has_protocols ps p : json_has (protocols_to_value ps) (Protocol_to_string p) = true <-> p ∈ ps.
Proof.
  unfold json_has, protocols_to_value. rewrite existsb_exists. split.
  - intros (v & Hv & He%bool_decide_eq_true). apply list_elem_of_In, list_elem_of_fmap in Hv as (q & -> & Hq).
    injection He as He. by apply Protocol_to_string_inj in He as ->.
  - intros Hp. exists (VString (Protocol_to_string p)). rewrite bool_decide_true by done. split; [|done].
    apply list_elem_of_In, (list_elem_of_fmap_2 (fun p => VString (Protocol_to_string p))), Hp.
Qed.

Lemma json_has_stored v ps p :
  protocols_from_value v = Some ps -> json_has v (Protocol_to_string p) = true -> p ∈ ps.
Proof.
  destruct v as [| | | |l|]; try done. cbn [protocols_from_value json_has]. revert ps.
  induction l as [|v l IH]; intros ps; cbn [protocols_from_values existsb]; [by intros [= <-]|].
  destruct (Protocol_from_value v) as [q|] eqn:Eq; [|done]. destruct (protocols_from_values l) as [qs|]; [|done].
  intros [= <-] [Hv%bool_decide_eq_true|Hl]%orb_true_iff; [|by apply list_elem_of_further, IH]. subst v.
  destruct p; injection Eq as <-; apply list_elem_of_here.
Qed.

(** A written route that is enabled was validated for all it serves. *)
Lemma put_route_inv row db u db' :
  put_route row db = Ok (u, db') ->
  (ro_enabled row = true -> exists input v, validate_route_reference input db = Ok v /\ tw_enabled input = true
     /\ tw_id input = ro_id row /\ tw_logical_model_id input = ro_logical_model_id row
     /\ forall p, serves row p = true -> p ∈ tw_protocols input) ->
  (control_inv db -> stored_protocols row) ->
  inv control_inv db db'.
Proof.
  intros E Hv Hstored Hi. pose proof (Hstored Hi) as Hcol. destruct Hi as [Hok Hfam Hroutes Hst]. pose proof (typed_put_route _ _ _ _ E Hok) as Hok'. unfold put_route in E. tx_inv.
  assert (forall id r p, db_routes db !! id = Some r -> ro_enabled r = true -> ro_enabled row = true ->
    ro_logical_model_id r = ro_logical_model_id row -> serves r p = true -> serves row p = true -> id = ro_id row) as Hrow.
  { intros id r p Hr Her Herow Hl Hs Hsrow. destruct (Hv Herow) as (input & v & Hval & Hen & Hid & Hil & Hps).
    unfold validate_route_reference in Hval. destruct (negb _); [done|]. apply no_errors_ok in Hval.
    destruct (co_routes _ Hok _ _ Hr) as [Hrid _].
    destruct (decide (id = ro_id row)) as [|Hne]; [done|exfalso].
    apply Hps in Hsrow. rewrite <- Hil in Hl. rewrite <- Hid in Hne. clear Hv Hps.
    assert (forall l, flat_map (fun protocol =>
      (if tw_enabled input then match ce_any (conflicting_routes db input protocol) with
         | Some conflict => ["route protocol " +:+ Protocol_to_string protocol +:+ " conflicts with enabled route '" +:+ conflict +:+ "'"]
         | None => [] end else [])
      ++ when (negb (protocol_bound db (tw_logical_model_id input) protocol))
           ("route protocol " +:+ Protocol_to_string protocol +:+ " has no confirmed, available model binding")) l = [] ->
      p ∈ l -> False) as Hfalse; [|by eapply Hfalse].
    induction l as [|q l IH]; [by intros _ ?%elem_of_nil|]. cbn [flat_map]. intros [Hq Hl']%app_nil [<-|Hin]%elem_of_cons;
      [|by apply IH]. apply app_nil in Hq as [Hq _]. rewrite Hen in Hq.
    assert (id ∈ conflicting_routes db input p) as Hin.
    { unfold conflicting_routes. apply list_elem_of_omap. exists r. split; [apply elem_of_values; eauto|].
      rewrite Hl, String.eqb_refl, Her, Hrid. unfold serves in Hs. rewrite Hs.
      destruct (String.eqb_spec id (tw_id input)); [done|done]. }
    destruct (ce_any _) eqn:Ec; [done|]. apply any_none in Ec. rewrite Ec in Hin. by apply elem_of_nil in Hin. }
  split; [done|done| |cbn; by intros id r [[_ <-]|[_ Hr]]%lookup_insert_Some; [|by eapply Hst]].
  intros id id' r r' p. cbn.
  intros [[<- <-]|[_ Hr]]%lookup_insert_Some [[<- <-]|[_ Hr']]%lookup_insert_Some He He' Hl Hs Hs'; [done|..].
  - symmetry. by eapply Hrow.
  - by eapply Hrow.
  - by eapply (Hroutes id id').
Qed.
End Writes.

#[export] Hint Extern 1 (respects shrinks (update_source_row _ _)) => (apply shrinks_update_source_row; done) : control.

(** ** Operations *)

Definition is_import (op : Operation) : bool := match op with OpInitialize _ _ => true | _ => false end.

Section Operations.
Context `{ErrorTexts} `{ControlEnv} `{!AnyRow} `{BuildCfg} `{UrlCrates} `{Collation} `{PresetSerde} `{Crypto} `{SerdeJson}
  (self : ControlPlane).
Notation keeps := (respects (inv control_inv)).

Lemma keeps_end {T} (record : T) : keeps (finish_mutation self record).
Proof. unfold finish_mutation. respects_auto. Qed.
#[local] Hint Resolve keeps_end : control.

Lemma keeps_delete_op kind id statement : respects shrinks statement -> keeps (delete_op self kind id statement).
Proof. intros Hs. unfold delete_op, not_found. respects_auto. Qed.

(** The rest of a transaction after a statement known to keep the invariant. *)
Lemma keeps_then {A B} (m : ControlTx A) (f : A -> ControlTx B) db x db' :
  tx_bind m f db = Ok (x, db') -> (forall y, keeps (f y)) ->
  (forall y d, m db = Ok (y, d) -> inv control_inv db d) -> inv control_inv db db'.
Proof. intros (y & d & Hy & E)%tx_bind_inv Hf Hm Hi. eapply Hf; [exact E|]. by eapply Hm. Qed.

Lemma keeps_create_binding input :
  keeps (let$ _ := tx_query (validate_binding_reference input) in
         let$ record := insert_binding (new_binding input) in finish_mutation self record).
Proof.
  intros db x db' (u & d & [Hv ->]%tx_of_inv & E)%tx_bind_inv. eapply keeps_then; [exact E|intros y; exact (keeps_end _)|].
  intros y d Hi. eapply insert_binding_inv; [exact Hi|done|]. intros id. by eapply validated_write.
Qed.

Lemma keeps_update_binding_op id input :
  keeps (let$ row := tx_query (fetch_model_binding id) in
         let$ _ := tx_of (validate_status_transition (bv_status row) (bw_status input) "model binding") in
         let$ _ := tx_query (validate_binding_reference input) in
         let$ _ := update_binding (set_binding row input id) in finish_mutation self (set_binding row input id)).
Proof.
  intros db x db' E. apply tx_bind_inv in E as (row & d & [_ ->]%tx_of_inv & E).
  apply tx_bind_inv in E as (u & d & [_ ->]%tx_of_inv & E). apply tx_bind_inv in E as (v & d & [Hv ->]%tx_of_inv & E).
  eapply keeps_then; [exact E|intros y; exact (keeps_end _)|]. intros y d Hi. eapply update_binding_inv; [exact Hi|].
  by eapply validated_write.
Qed.

Lemma keeps_enable_binding id (enabled : bool) :
  keeps (let$ row := tx_query (fetch_model_binding id) in
         let$ _ := if enabled then tx_query (validate_binding_reference (binding_write row enabled)) else tx_ret tt in
         let$ _ := update_binding (set_enabled_binding row id enabled) in
         finish_mutation self (set_enabled_binding row id enabled)).
Proof.
  intros db x db' E. apply tx_bind_inv in E as (row & d & [_ ->]%tx_of_inv & E).
  apply tx_bind_inv in E as (u & d & Hv & E). assert (d = db) as ->.
  { destruct enabled; [by apply tx_of_inv in Hv as [_ ->]|by injection Hv as _ <-]. }
  eapply keeps_then; [exact E|intros y; exact (keeps_end _)|]. intros y d Hi. eapply update_binding_inv; [exact Hi|].
  destruct enabled; [apply tx_of_inv in Hv as [Hv _]; by eapply validated_write|].
  intros Ha. unfold active in Ha. by rewrite andb_false_r in Ha.
Qed.

Lemma careful_line_protocols id position line ps : forall protocols,
  keeps (write_line_protocols id position line ps protocols).
Proof.
  induction ps as [|p ps IH]; intros protocols; cbn [write_line_protocols]; [respects_auto|]. cbv zeta.
  intros db x db' (u & d & [Hv ->]%tx_of_inv & E)%tx_bind_inv. eapply keeps_then; [exact E|intros y; apply IH|].
  intros y d Hi. eapply insert_binding_inv; [exact Hi|done|]. intros k. by eapply validated_write.
Qed.
Lemma careful_lines id lines : forall position protocols, keeps (write_lines id position lines protocols).
Proof.
  induction lines as [|line lines IH]; intros position protocols; cbn [write_lines]; unfold validation; respects_auto.
  apply careful_line_protocols.
Qed.

(** A route as a validated input describes it. *)
Lemma put_input_route input pattern created updated db u v db' :
  validate_route_reference input db = Ok v ->
  put_route (mkRouteRow (tw_id input) (tw_logical_model_id input) pattern (protocols_to_value (tw_protocols input))
    (tw_strategy input) (tw_allow_lossy_conversion input) (tw_enabled input) created updated) db = Ok (u, db') ->
  inv control_inv db db'.
Proof.
  intros Hv E. eapply put_route_inv; [exact E| |by eexists]. intros He. exists input, v. split_and!; try done.
  intros p. apply json_has_protocols.
Qed.

Lemma careful_route id input route_id protocols : keeps (write_route id input route_id protocols).
Proof.
  intros db x db' E. unfold write_route in E. cbv zeta in E. apply tx_bind_inv in E as (u & d & [Hv ->]%tx_of_inv & E).
  unfold insert_route in E. apply tx_bind_inv in E as (u' & d & [_ ->]%sql_check_inv & E).
  by eapply (put_input_route _ _ _ _ _ _ _ _ Hv).
Qed.
#[local] Hint Resolve careful_lines careful_route : control.

Lemma keeps_create_route input :
  keeps (let$ exists_ := tx_read (fun db => is_some (db_routes db !! tw_id input)) in
     if (exists_ : bool) then conflict "route" (tw_id input) else
     let$ _ := tx_query (validate_route_reference input) in
     let$ public_name := tx_query (public_name_of (tw_logical_model_id input)) in
     let$ _ := insert_route (mkRouteRow (tw_id input) (tw_logical_model_id input) public_name
                 (protocols_to_value (tw_protocols input)) (tw_strategy input) (tw_allow_lossy_conversion input)
                 (tw_enabled input) ce_now ce_now) in
     let$ record := tx_query (fetch_route (tw_id input)) in
     finish_mutation self record).
Proof.
  intros db x db' E. apply tx_bind_inv in E as (b & d & [= <- <-] & E). destruct (is_some _); [done|].
  apply tx_bind_inv in E as (u & d & [Hv ->]%tx_of_inv & E). apply tx_bind_inv in E as (name & d & [_ ->]%tx_of_inv & E).
  eapply keeps_then; [exact E|intros r0; cbv beta; respects_auto|]. intros r1 d1 Hi. unfold insert_route in Hi.
  apply tx_bind_inv in Hi as (u' & d' & [_ ->]%sql_check_inv & Hi). by eapply put_input_route.
Qed.

Lemma keeps_update_route id input :
  id = tw_id input ->
  keeps (let$ _ := tx_query (validate_route_reference input) in
     let$ public_name := tx_query (public_name_of (tw_logical_model_id input)) in
     let$ row := tx_read (fun db => db_routes db !! id) in
     match row with
     | None => not_found "route" id
     | Some row =>
         let$ _ := put_route (mkRouteRow id (tw_logical_model_id input) public_name
                     (protocols_to_value (tw_protocols input)) (tw_strategy input) (tw_allow_lossy_conversion input)
                     (tw_enabled input) (ro_created_at row) ce_now) in
         let$ record := tx_query (fetch_route id) in
         finish_mutation self record
     end).
Proof.
  intros -> db x db' E. apply tx_bind_inv in E as (u & d & [Hv ->]%tx_of_inv & E).
  apply tx_bind_inv in E as (name & d & [_ ->]%tx_of_inv & E). apply tx_bind_inv in E as (row & d & [= <- <-] & E).
  destruct (db_routes db !! tw_id input) as [row|]; [|done]. eapply keeps_then; [exact E|intros r0; cbv beta; respects_auto|].
  intros y d Hi. by eapply put_input_route.
Qed.

Lemma keeps_enable_route id (enabled : bool) :
  keeps (let$ current := tx_query (fetch_route id) in
     let$ _ :=
       if enabled then
         let$ protocols := tx_of (ok_or (protocols_from_value (tv_protocols current))
                                   (CpJson (protocols_error (tv_protocols current)))) in
         tx_query (validate_route_reference
           (mkRouteWrite (tv_id current) (tv_logical_model_id current) protocols (tv_strategy current)
              (tv_allow_lossy_conversion current) enabled))
       else tx_ret tt in
     let$ row := tx_query (fun db => ok_or (db_routes db !! id) (of_sqlx RowNotFound)) in
     let$ _ := put_route (set_enabled_route row enabled) in
     let$ record := tx_query (fetch_route id) in
     finish_mutation self record).
Proof.
  intros db x db' E. apply tx_bind_inv in E as (view & d & [Hf ->]%tx_of_inv & E).
  apply tx_bind_inv in E as (u & d & Hv & E).
  assert (d = db /\ (enabled = true -> exists ps v, protocols_from_value (tv_protocols view) = Some ps
    /\ validate_route_reference (mkRouteWrite (tv_id view) (tv_logical_model_id view) ps (tv_strategy view)
         (tv_allow_lossy_conversion view) true) db = Ok v)) as [-> Hval].
  { destruct enabled; [|injection Hv as _ <-; by split]. apply tx_bind_inv in Hv as (ps & d' & [Hps ->]%tx_of_inv & Hv).
    apply tx_of_inv in Hv as [Hv ->]. split; [done|]. intros _.
    destruct (protocols_from_value _) as [ps'|]; [|done]. injection Hps as ->. eauto. }
  apply tx_bind_inv in E as (row & d & [Hr ->]%tx_of_inv & E). destruct (db_routes db !! id) as [row'|] eqn:Er; [|done].
  injection Hr as ->. unfold fetch_route in Hf. rewrite Er in Hf.
  destruct (db_logical_models db !! ro_logical_model_id row) as [lm|]; [|done]. injection Hf as <-.
  eapply keeps_then; [exact E|intros r0; cbv beta; respects_auto|]. intros r1 d1 Hi. eapply put_route_inv; [exact Hi| |intros Hc; by apply (ci_stored _ Hc) in Er].
  intros He. cbn in He. subst enabled. destruct (Hval eq_refl) as (ps & v & Hps & Hv').
  exists (mkRouteWrite (ro_id row) (ro_logical_model_id row) ps (ro_strategy row) (ro_allow_lossy_conversion row) true), v.
  split_and!; try done. intros p. by apply json_has_stored.
Qed.

Lemma keeps_write_model_routing id input create db :
  control_inv db -> control_inv (write_model_routing self id input create db).2.
Proof. apply checked_keeps. unfold write_model_row, reconfirm, not_found. respects_auto. Qed.

Lemma keeps_create_source input db : control_inv db -> control_inv (create_source self input db).2.
Proof. apply checked_keeps. unfold conflict. respects_auto. Qed.

Lemma perform_inv op db : is_import op = false -> control_inv db -> control_inv (perform self op db).2.
Proof.
  destruct op; intros Hop; try done; unfold perform, published; rewrite ?outcome_map_snd;
    try first [ apply checked_keeps; cbv zeta; unfold conflict, not_found, validation; respects_auto; fail
              | apply run_keeps; cbv zeta; unfold conflict, not_found, validation; respects_auto; fail
              | apply run_keeps, keeps_delete_op; respects_auto; fail
              | apply keeps_write_model_routing | apply keeps_create_source ].
  - intros Hi. unfold create_source_from_request. destruct (rbind _ _) as [effective|]; [|done].
    by apply keeps_create_source.
  - apply checked_keeps, keeps_create_binding.
  - apply checked_keeps, keeps_update_binding_op.
  - apply run_keeps, keeps_enable_binding.
  - apply checked_keeps, keeps_create_route.
  - unfold update_route, checked. destruct (rbind _ _) as [|e] eqn:Ec; [|done]. apply run_keeps, keeps_update_route.
    unfold validate_resource_id in Ec. by destruct (String.eqb_spec id (tw_id input)).
  - apply run_keeps, keeps_enable_route.
Qed.
End Operations.

(** ** Sequences of operations *)

(** A write of the control plane other than an import, under any clock and any
    choice of rows. *)
Inductive careful_step `{ErrorTexts} `{BuildCfg} `{UrlCrates} `{Collation} `{PresetSerde} `{Crypto} `{SerdeJson}
    (self : ControlPlane) : ControlDb -> ControlDb -> Prop :=
| careful_operation (env : ControlEnv) (any : AnyRow) op db :
    is_import op = false -> careful_step self db (perform self op db).2.

Lemma careful_steps_inv `{ErrorTexts} `{BuildCfg} `{UrlCrates} `{Collation} `{PresetSerde} `{Crypto} `{SerdeJson}
    (self : ControlPlane) db db' :
  rtc (careful_step self) db db' -> control_inv db -> control_inv db'.
Proof. induction 1 as [|x y z [env any op d Hop] _ IH]; [done|]. intros Hi. by apply IH, perform_inv. Qed.


(** C9. A request for a model and a protocol meets one route: after any sequence of
    operations without an import, enabled routes of a logical model serve
    disjoint protocols. *)
Theorem enabled_routes_never_overlap `{ErrorTexts} `{BuildCfg} `{UrlCrates} `{Collation} `{PresetSerde} `{Crypto}
    `{SerdeJson} (self : ControlPlane) (db db' : ControlDb) (Hsteps : rtc (careful_step self) db db')
    (Hi : control_inv db) :
  routes_disjoint db'.
Proof. by eapply ci_routes, careful_steps_inv. Qed.

(** ** The concrete control plane *)

Section Example.
Local Existing Instances example_errors any_url example_serde json_concrete mock_crypto example_control_env
  example_build example_collation.

#[local] Instance example_any : AnyRow.
Proof.
  split.
  - intros [|y l] x; cbn; [done|]. intros [= ->]. by left.
  - by intros [|y l].
Qed.

Lemma example_careful ops db :
  forallb (fun op => negb (is_import op)) ops = true ->
  rtc (careful_step example_plane) db (fold_left (fun db op => (perform example_plane op db).2) ops db).
Proof.
  revert db. induction ops as [|op ops IH]; intros db; cbn; [done|]. intros [Hop%negb_true_iff Hops]%andb_true_iff.
  eapply rtc_l; [apply (careful_operation _ _ example_any _ _ Hop)|by apply IH].
Qed.

Lemma example_control_inv : control_inv example_control_db.
Proof. apply empty_control_inv; [apply example_control_ok|done..]. Qed.


Lemma enabled_routes_never_overlap_witness :
  routes_disjoint (example_after example_operations)
  /\ map ro_enabled (values (db_routes (example_after example_operations))) = [true].
Proof.
  split; [|vm_compute; reflexivity].
  apply (enabled_routes_never_overlap example_plane example_control_db);
    [apply example_careful; reflexivity|apply example_control_inv].
Defined.

(** A configuration whose fallback account is of another provider. *)
Definition crossing_provider (id : string) : ProviderConfig :=
  mkProviderConfig id id "https://upstream" ["m1"] [OpenAiResponses] [(OpenAiResponses, "/v1/responses")]
    Capabilities_native [] [].
Definition crossing_account (id provider : string) : AccountConfig :=
  mkAccountConfig id provider id (Some "KEY") None None true 100 [] (Some Capabilities_native) [] [].
Definition crossing_config : GatewayConfig :=
  mkGatewayConfig "127.0.0.1:1" [crossing_provider "openai"; crossing_provider "own"]
    [crossing_account "ka" "openai"; crossing_account "kb" "own"]
    [mkRouteConfig "r" "m1" "openai" [OpenAiResponses] "ka" ["kb"] "ordered_fallback" "native" None false].
Definition example_presets : ControlDb :=
  mkControlDb
    (mkCatalogDb {[ ("openai", 1) := mkProviderPresetRecord "openai" 1 "OpenAI" (VObject []) 0;
                    ("custom", 1) := mkProviderPresetRecord "custom" 1 "Custom" (VObject []) 0 ]} ∅ ∅ ∅ ∅ ∅ [] [])
    ∅ ∅ ∅ [] 0 0 0.
Definition example_imported : ControlDb := (perform example_plane (OpInitialize crossing_config false) example_presets).2.

(** The import of a configuration does not make the check: the model falls back
    from one provider family to another. *)
Lemma import_crosses_families : ~ single_family example_imported.
Proof.
  intros Hf. assert (exists b, db_bindings example_imported !! 1 = Some b) as [b Hb] by (eexists; vm_compute; reflexivity).
  assert (exists b, db_bindings example_imported !! 2 = Some b) as [b' Hb'] by (eexists; vm_compute; reflexivity).
  pose proof (Hf 1 2 b b' Hb Hb') as Hsame. vm_compute in Hb, Hb'. injection Hb as <-. injection Hb' as <-.
  specialize (Hsame eq_refl eq_refl eq_refl). vm_compute in Hsame. discriminate Hsame.
Qed.
End Example.
