(* ===== verification/ControlSnapshot.v ===== *)
(** * From the tables to a resolved route

    A published snapshot is read off the tables: the lines of a resolved route
    are the bindings of the tables that may serve it, in the order of their
    priority; the accounts and the sources it names are rows of the tables. *)

From Stdlib Require Import ZArith Lia Sorting.Sorted.
From stdpp Require Import base list strings gmap.
From S2P Require Import Prelude.
From S2P Require Import RustStr.
From S2P Require Import Protocol.
From S2P Require Import BTree.
From S2P Require Import Tx.
From S2P Require Import Config.
From S2P Require Import Routing.
From S2P Require Import SourceUrl.
From S2P Require Import Json.
From S2P Require Import Catalog.
From S2P Require Import Presets.
From S2P Require Import PresetDiff.
From S2P Require Import ModelCatalog.
From S2P Require Import CatalogTypes.
From S2P Require Import Discovery.
From S2P Require Import Snapshot.
From S2P Require Import Secrets.
From S2P Require Import Validation.
From S2P Require Import ControlDb.
From S2P Require Import ControlPlane.
From S2P Require Import ModelRouting.
From S2P Require Import Import.
From S2P Require Import ControlProps.
From S2P Require Import ControlTypes.
From S2P Require Import ControlInvariants.

(** ** The routes of a build are the groups of its rows *)

Lemma update_first_split {A} (p : A -> bool) (f : A -> A) l l' :
  update_first p f l = Some l' ->
  exists l1 x l2, l = l1 ++ x :: l2 /\ p x = true /\ Forall (fun y => p y = false) l1 /\ l' = l1 ++ f x :: l2.
Proof.
  revert l'. induction l as [|x l IH]; intros l'; cbn; [done|]. destruct (p x) eqn:Ex.
  - intros [= <-]. by exists [], x, l.
  - destruct (update_first p f l) as [l0|]; cbn; [|done]. intros [= <-].
    destruct (IH l0 eq_refl) as (l1 & y & l2 & -> & Hy & Hl & ->). exists (x :: l1), y, l2.
    split_and!; [done|done|by constructor|done].
Qed.

Definition route_key (r : RuntimeRoute) : string * string * Protocol := (rr_route_id r, rr_model r, rr_protocol r).
Definition pub_key (p : SnapshotRow * Line) : string * string * Protocol :=
  (sr_route_id p.1, sr_public_name p.1, sr_protocol p.1).
Definition pub_binding (p : SnapshotRow * Line) : RuntimeBinding := row_binding p.1 p.2.

Record groups (pubs : list (SnapshotRow * Line)) (routes : list RuntimeRoute) : Prop := {
  gr_bindings : forall r, r ∈ routes ->
    rr_bindings r = map pub_binding (filter (fun p => pub_key p = route_key r) pubs);
  gr_keys : forall p, p ∈ pubs -> pub_key p ∈ map route_key routes;
  gr_nodup : NoDup (map route_key routes);
}.


Lemma same_route_key row line r : same_route row r = true <-> route_key r = pub_key (row, line).
Proof.
  unfold same_route, route_key, pub_key. cbn. rewrite !andb_true_iff, !String.eqb_eq, Protocol_eqb_eq. split.
  - by intros [[-> ->] ->].
  - by intros [= -> -> ->].
Qed.

Lemma groups_push pubs routes row line :
  groups pubs routes ->
  groups (pubs ++ [(row, line)])
    (update_or_push (same_route row) (push_binding (row_binding row line)) (row_route row (row_binding row line)) routes).
Proof.
  intros [Hb Hk Hnd]. assert (forall r, route_key r <> pub_key (row, line) ->
    filter (fun p => pub_key p = route_key r) (pubs ++ [(row, line)])
    = filter (fun p => pub_key p = route_key r) pubs) as Hother.
  { intros r Hne. rewrite filter_app, filter_cons_False, filter_nil, app_nil_r by congruence. done. }
  assert (forall r, route_key r = pub_key (row, line) ->
    filter (fun p => pub_key p = route_key r) (pubs ++ [(row, line)])
    = filter (fun p => pub_key p = route_key r) pubs ++ [(row, line)]) as Hthis.
  { intros r He. by rewrite filter_app, filter_cons_True, filter_nil by congruence. }
  unfold update_or_push. destruct (update_first _ _ routes) as [l'|] eqn:E; cbn [unwrap_or].
  - apply update_first_split in E as (l1 & x & l2 & -> & Hx & _ & ->). apply (same_route_key _ line) in Hx.
    assert (forall r, r ∈ l1 ++ l2 -> route_key r <> pub_key (row, line)) as Hne.
    { intros r Hr He. rewrite map_app in Hnd. cbn in Hnd. rewrite <- Hx in He. apply NoDup_app in Hnd as (_ & H1 & H2).
      apply NoDup_cons in H2 as [H2 _]. apply elem_of_app in Hr as [Hr|Hr].
      - apply (H1 (route_key r)); [by apply list_elem_of_fmap_2|]. rewrite He. apply list_elem_of_here.
      - apply H2. rewrite <- He. by apply list_elem_of_fmap_2. }
    assert (map route_key (l1 ++ push_binding (row_binding row line) x :: l2) = map route_key (l1 ++ x :: l2)) as Hm
      by (by rewrite !map_app).
    split.
    + intros r Hr. apply elem_of_app in Hr as [Hr|[->|Hr]%elem_of_cons].
      * rewrite Hother by (apply Hne, elem_of_app; by left). apply Hb, elem_of_app. by left.
      * change (route_key (push_binding (row_binding row line) x)) with (route_key x). rewrite Hthis by done.
        rewrite map_app. cbn. f_equal. apply Hb, elem_of_app. right. apply list_elem_of_here.
      * rewrite Hother by (apply Hne, elem_of_app; by right). apply Hb, elem_of_app. right. by apply list_elem_of_further.
    + rewrite Hm. intros p [Hp| ->%list_elem_of_singleton]%elem_of_app; [by apply Hk|].
      rewrite <- Hx. apply list_elem_of_fmap_2, elem_of_app. right. apply list_elem_of_here.
    + by rewrite Hm.
  - apply update_first_none in E. rewrite Forall_forall in E.
    assert (forall r, r ∈ routes -> route_key r <> pub_key (row, line)) as Hne.
    { intros r Hr He. apply (same_route_key _ line) in He. by rewrite E in He. }
    split.
    + intros r [Hr| ->%list_elem_of_singleton]%elem_of_app; [rewrite Hother by auto; by apply Hb|].
      rewrite Hthis by done. rewrite map_app. cbn.
      destruct (filter _ pubs) as [|p l] eqn:Ef; [done|].
      assert (p ∈ filter (fun p => pub_key p = route_key (row_route row (row_binding row line))) pubs) as [Hp Hin]%list_elem_of_filter
        by (rewrite Ef; apply list_elem_of_here).
      apply Hk, list_elem_of_fmap in Hin as (r & He & Hr). destruct (Hne r Hr). by rewrite <- He, Hp.
    + intros p [Hp| ->%list_elem_of_singleton]%elem_of_app; rewrite map_app; apply elem_of_app; [left; by apply Hk|right].
      apply list_elem_of_here.
    + rewrite map_app. apply NoDup_app. split_and!; [done| |apply NoDup_singleton].
      intros k Hk' ->%list_elem_of_singleton. apply list_elem_of_fmap in Hk' as (r & He & Hr). by apply (Hne r Hr).
Qed.

Section Built.
Context `{BuildCfg} (de_error : Value -> string).

Definition pub (row : SnapshotRow) : option (SnapshotRow * Line) :=
  match row_line de_error row with Ok line => Some (row, line) | Err _ => None end.

(** An account without the models it maps, a provider without its models: what
    the row says. *)
Definition unmapped (a : AccountConfig) : AccountConfig :=
  mkAccountConfig (ac_id a) (ac_provider_id a) (ac_display_name a) (ac_credential_env a) (ac_credential_ciphertext a)
    (ac_credential a) (ac_enabled a) (ac_weight a) (ac_protocol_capabilities a) (ac_capabilities a)
    (ac_model_overrides a) [].
Definition unlisted (p : ProviderConfig) : ProviderConfig :=
  mkProviderConfig (Config.pv_id p) (pv_name p) (pv_base_url p) [] (pv_native_protocols p) (pv_endpoints p)
    (pv_capabilities p) (pv_protocol_capabilities p) (pv_model_overrides p).

Record built (rows : list SnapshotRow) (b : Builder) : Prop := {
  bu_groups : groups (omap pub rows) (bd_routes b);
  bu_accounts : forall a, a ∈ (bd_accounts b).*2 -> exists row line,
    (row, line) ∈ omap pub rows /\ unmapped a = row_account row;
  bu_providers : forall p, p ∈ (bd_providers b).*2 -> exists row line,
    (row, line) ∈ omap pub rows /\ unlisted p = row_provider row line;
  bu_clean : forall row e, row ∈ rows -> row_line de_error row <> Err (Some e);
}.

Lemma unlisted_add_model model p : unlisted (add_model model p) = unlisted p.
Proof. unfold add_model. by destruct (contains _ _). Qed.

Lemma hm_insert_values {V} (m : list (string * V)) k v x : x ∈ (hm_insert m k v).*2 -> x ∈ m.*2 \/ x = v.
Proof.
  induction m as [|[k' v'] m IH]; cbn [hm_insert fst].
  - cbn. rewrite list_elem_of_singleton. by right.
  - case_bool_decide; cbn; rewrite !elem_of_cons; [tauto|]. intros [->|Hx]; [tauto|]. apply IH in Hx. tauto.
Qed.

Lemma or_insert_values {V} (m : list (string * V)) k v x : x ∈ (or_insert m k v).*2 -> x ∈ m.*2 \/ x = v.
Proof. unfold or_insert. destruct (hm_contains m k); [by left|apply hm_insert_values]. Qed.

Lemma hm_get_values {V} (m : list (string * V)) k v : hm_get m k = Some v -> v ∈ m.*2.
Proof. intros Hg%hm_get_Some_in. apply list_elem_of_fmap. by exists (k, v). Qed.

(** A clean end had no error before. *)
Lemma add_row_clean b row : bd_errors (add_row de_error b row) = [] -> bd_errors b = [].
Proof.
  unfold add_row. destruct (row_line de_error row) as [line|[e|]]; cbn; [|by intros [? ?]%app_nil|done].
  unfold publish. destruct (_ <=? 0); cbn; [by intros [? ?]%app_nil|]. destruct (is_some_and _ _); cbn; [by intros [? ?]%app_nil|done].
Qed.

Lemma add_row_built rows b row :
  bd_errors (add_row de_error b row) = [] -> built rows b -> built (rows ++ [row]) (add_row de_error b row).
Proof.
  intros He [Hg Ha Hp Hc]. unfold add_row in *. destruct (row_line de_error row) as [line|[e|]] eqn:El.
  2:{ cbn in He. by apply app_nil in He as [_ ?]. }
  2:{ assert (pub row = None) as Hpub by (unfold pub; by rewrite El).
      split; rewrite ?omap_app; cbn; rewrite ?Hpub, ?app_nil_r; try done.
      intros row' e [Hin| ->%list_elem_of_singleton]%elem_of_app; [by eapply Hc|]. by rewrite El. }
  assert (omap pub (rows ++ [row]) = omap pub rows ++ [(row, line)]) as Hpub
    by (rewrite omap_app; cbn; unfold pub at 2; by rewrite El).
  assert (forall x, x ∈ omap pub rows -> x ∈ omap pub (rows ++ [row])) as Hold
    by (intros x Hx; rewrite Hpub; apply elem_of_app; by left).
  assert ((row, line) ∈ omap pub (rows ++ [row])) as Hnew
    by (rewrite Hpub; apply elem_of_app; right; apply list_elem_of_here).
  assert (forall row' e, row' ∈ rows ++ [row] -> row_line de_error row' <> Err (Some e)) as Hclean.
  { intros row' e [Hin| ->%list_elem_of_singleton]%elem_of_app; [by eapply Hc|]. by rewrite El. }
  unfold publish in *. cbv zeta in *. set (providers0 := or_insert (bd_providers b) _ _) in *.
  assert (forall p, p ∈ providers0.*2 -> exists row' line',
    (row', line') ∈ omap pub (rows ++ [row]) /\ unlisted p = row_provider row' line') as Hp0.
  { intros p [Hin| ->]%or_insert_values; [|by exists row, line].
    destruct (Hp p Hin) as (r & l & Hr & Hl). exists r, l. split; [by apply Hold|done]. }
  destruct (sr_weight row <=? 0); [cbn in He; by apply app_nil in He as [_ ?]|].
  set (accounts := or_insert (bd_accounts b) _ _) in *.
  assert (forall a, a ∈ accounts.*2 -> exists row' line',
    (row', line') ∈ omap pub (rows ++ [row]) /\ unmapped a = row_account row') as Ha0.
  { intros a [Hin| ->]%or_insert_values; [|by exists row, line].
    destruct (Ha a Hin) as (r & l & Hr & Hl). exists r, l. split; [by apply Hold|done]. }
  destruct (is_some_and _ _); [cbn in He; by apply app_nil in He as [_ ?]|].
  split; cbn [bd_routes bd_accounts bd_providers]; [rewrite Hpub; by apply groups_push| | |done].
  - intros a. destruct (is_some _); [apply Ha0|]. intros [Hin| ->]%hm_insert_values; [by apply Ha0|].
    unfold unmapped, map_model. cbn. destruct (hm_get accounts _) as [a|] eqn:Eg; cbn [unwrap_or];
      [apply hm_get_values, Ha0 in Eg; exact Eg|by exists row, line].
  - intros p [Hin| ->]%hm_insert_values; [by apply Hp0|]. rewrite unlisted_add_model.
    destruct (hm_get providers0 _) as [p|] eqn:Eg; cbn [unwrap_or];
      [apply hm_get_values, Hp0 in Eg; exact Eg|by exists row, line].
Qed.

Lemma rows_built rows :
  bd_errors (fold_left (add_row de_error) rows Builder_new) = [] ->
  built rows (fold_left (add_row de_error) rows Builder_new).
Proof.
  induction rows as [|row rows IH] using rev_ind.
  - intros _. split; cbn; try (by intros ? ?%elem_of_nil); [split; cbn|]; try (by intros ? ?%elem_of_nil); [apply NoDup_nil_2|].
    by intros ? ? ?%elem_of_nil.
  - rewrite fold_left_app. cbn. intros He. apply add_row_built; [done|]. apply IH. by eapply add_row_clean.
Qed.
End Built.

(** ** Orders *)

(** A comparison that orders: what PostgreSQL requires of a collation and of a
    column type. *)
Class CmpLaws {A} (cmp : A -> A -> comparison) : Prop := {
  cmp_opp : forall x y, cmp y x = CompOpp (cmp x y);
  cmp_trans : forall x y z, cmp x y <> Gt -> cmp y z <> Gt -> cmp x z <> Gt;
}.

#[export] Instance Z_compare_laws : CmpLaws Z.compare.
Proof. split; [intros x y; apply Z.compare_antisym|intros x y z; rewrite !Z.compare_le_iff; lia]. Qed.

#[export] Instance kcmp_laws {K} `{Ordered K} : CmpLaws (kcmp (K := K)).
Proof.
  split; [intros x y; apply kcmp_antisym|]. intros x y z Hxy Hyz.
  destruct (kcmp x y) eqn:E1; [apply kcmp_eq in E1 as ->; done| |done].
  destruct (kcmp y z) eqn:E2; [apply kcmp_eq in E2 as <-; by rewrite E1| |done].
  by rewrite (kcmp_trans x y z E1 E2).
Qed.

Section Laws.
Context {A : Type}.

Lemma cmp_refl (cmp : A -> A -> comparison) `{!CmpLaws cmp} x : cmp x x = Eq.
Proof. pose proof (cmp_opp x x) as Ho. by destruct (cmp x x). Qed.

#[export] Instance flip_laws (cmp : A -> A -> comparison) `{!CmpLaws cmp} : CmpLaws (fun x y => cmp y x).
Proof. split; [intros x y; apply cmp_opp|intros x y z Hxy Hyz; by eapply cmp_trans]. Qed.

#[export] Instance on_laws {B} (f : B -> A) (cmp : A -> A -> comparison) `{!CmpLaws cmp} :
  CmpLaws (fun x y => cmp (f x) (f y)).
Proof. split; [intros x y; apply cmp_opp|intros x y z; apply cmp_trans]. Qed.

(** A tie between the ends is a tie in the middle. *)
Lemma cmp_squeeze (cmp : A -> A -> comparison) `{!CmpLaws cmp} x y z :
  cmp x y <> Gt -> cmp y z <> Gt -> cmp x z = Eq -> cmp x y = Eq /\ cmp y z = Eq.
Proof.
  intros Hxy Hyz Hxz. assert (cmp z x <> Gt) as Hzx by (rewrite (cmp_opp x z), Hxz; done).
  pose proof (cmp_trans y z x Hyz Hzx) as H1. pose proof (cmp_trans z x y Hzx Hxy) as H2.
  rewrite (cmp_opp x y) in H1. rewrite (cmp_opp y z) in H2.
  destruct (cmp x y), (cmp y z); cbn in *; split; congruence.
Qed.

#[export] Instance then_laws (c d : A -> A -> comparison) `{!CmpLaws c, !CmpLaws d} :
  CmpLaws (fun x y => then_cmp (c x y) (d x y)).
Proof.
  split.
  - intros x y. rewrite (cmp_opp (cmp := c) x y), (cmp_opp (cmp := d) x y). by destruct (c x y).
  - intros x y z Hxy Hyz. assert (c x y <> Gt) as Cxy by (by destruct (c x y)).
    assert (c y z <> Gt) as Cyz by (by destruct (c y z)). pose proof (cmp_trans x y z Cxy Cyz) as Cxz.
    destruct (c x z) eqn:Exz; [|done|done]. destruct (cmp_squeeze c x y z Cxy Cyz Exz) as [E1 E2].
    rewrite E1 in Hxy. rewrite E2 in Hyz. cbn in *. by apply (cmp_trans x y z).
Qed.

Definition before_of (cmp : A -> A -> comparison) (x y : A) : bool := first (cmp x y).
Definition ordered (cmp : A -> A -> comparison) : list A -> Prop := StronglySorted (fun x y => cmp x y <> Gt).

Lemma first_true c : first c = true <-> c <> Gt.
Proof. by destruct c. Qed.

Lemma insert_ordered (cmp : A -> A -> comparison) `{!CmpLaws cmp} x k :
  ordered cmp k -> ordered cmp (insert_before (before_of cmp) x k).
Proof.
  unfold ordered. induction 1 as [|y k Hk IH Hy]; cbn [insert_before]; [repeat constructor|].
  unfold before_of at 1. destruct (first (cmp x y)) eqn:E.
  - apply first_true in E. constructor; [by constructor|]. constructor; [done|].
    eapply Forall_impl; [exact Hy|]. intros z Hz. by eapply cmp_trans.
  - constructor; [done|]. rewrite (insert_before_perm _ _ _). constructor; [|done].
    rewrite (cmp_opp x y). by destruct (cmp x y).
Qed.

Lemma order_by_ordered (cmp : A -> A -> comparison) `{!CmpLaws cmp} l : ordered cmp (order_by (before_of cmp) l).
Proof. induction l as [|x l IH]; [constructor|]. by apply insert_ordered. Qed.

Lemma ordered_filter (cmp : A -> A -> comparison) P `{!forall x, Decision (P x)} l :
  ordered cmp l -> ordered cmp (filter P l).
Proof.
  induction 1 as [|x l Hl IH Hx]; [by constructor|]. rewrite filter_cons. destruct (decide (P x)); [|done].
  constructor; [done|]. apply Forall_forall. intros y [_ Hy]%list_elem_of_filter. by rewrite Forall_forall in Hx; apply Hx.
Qed.
End Laws.

(** ** The rows of the query *)

(** What the query finds: an enabled route and a binding of its model, both
    confirmed and enabled, with a source, an account of this source, and a
    source model and a capability that serve. *)
Record joined (db : ControlDb) (j : JoinedRow) : Prop := {
  jn_route : db_routes db !! ro_id (jr_route j) = Some (jr_route j);
  jn_route_enabled : ro_enabled (jr_route j) = true;
  jn_binding : db_bindings db !! bv_id (jr_binding j) = Some (jr_binding j);
  jn_active : active (jr_binding j) = true;
  jn_model : db_logical_models db !! ro_logical_model_id (jr_route j) = Some (jr_model j);
  jn_of_model : bv_logical_model_id (jr_binding j) = lv_id (jr_model j);
  jn_model_confirmed : lv_status (jr_model j) = CsConfirmed /\ lv_enabled (jr_model j) = true;
  jn_source : db_sources db !! bv_source_id (jr_binding j) = Some (jr_source j);
  jn_account : db_accounts db !! bv_account_id (jr_binding j) = Some (jr_account j);
  jn_of_source : ax_source_id (jr_account j) = bv_source_id (jr_binding j);
  jn_source_model : exists sm,
    find_source_model db (bv_source_id (jr_binding j)) (bv_upstream_model_id (jr_binding j)) = Some sm
    /\ model_serving sm = true;
  jn_capability :
    find_capability db (bv_source_id (jr_binding j)) (bv_upstream_model_id (jr_binding j)) (bv_protocol (jr_binding j))
    = Some (jr_capability j);
  jn_serving : capability_serving (jr_capability j) = true;
}.

Lemma join_row_joined db r b j :
  db_routes db !! ro_id r = Some r -> db_bindings db !! bv_id b = Some b -> join_row db r b = Some j ->
  joined db j /\ jr_route j = r /\ jr_binding j = b.
Proof.
  intros Hr Hb. unfold join_row. destruct (db_logical_models db !! _) as [lm|] eqn:El; [|done].
  destruct (db_sources db !! _) as [s|] eqn:Es; [|done]. destruct (db_accounts db !! _) as [a|] eqn:Ea; [|done].
  destruct (find_source_model _ _ _) as [sm|] eqn:Em; [|done]. destruct (find_capability _ _ _ _) as [cap|] eqn:Ec; [|done].
  destruct (_ && _) eqn:E; [|done]. intros [= <-]. bool_to_prop. split; [|done]. split; cbn; try done.
  - unfold active. rewrite bool_decide_true by done. done.
  - by exists sm.
Qed.

Lemma joined_join_row db j : joined db j -> join_row db (jr_route j) (jr_binding j) = Some j.
Proof.
  intros [Hr Her Hb Hact Hm Hofm [Hst Hen] Hs Ha Hofs (sm & Hsm & Hser) Hc Hcs]. unfold join_row.
  rewrite Hm, Hs, Ha, Hsm, Hc, Hofm, Hofs, Her, Hen, Hst, Hser, Hcs, !String.eqb_refl.
  unfold active in Hact. apply andb_true_iff in Hact as [Ha1%bool_decide_eq_true Ha2].
  rewrite Ha1, Ha2, !bool_decide_true by done. by destruct j.
Qed.

Section Query.
Context `{Collation} (db : ControlDb) (Hok : control_ok db).

Lemma route_row_key r : r ∈ values (db_routes db) -> db_routes db !! ro_id r = Some r.
Proof. intros [k Hk]%elem_of_values. by destruct (co_routes _ Hok _ _ Hk) as [-> _]. Qed.
Lemma binding_row_key b : b ∈ values (db_bindings db) -> db_bindings db !! bv_id b = Some b.
Proof. intros [k Hk]%elem_of_values. by destruct (co_bindings _ Hok _ _ Hk) as [-> _]. Qed.

Lemma elem_of_joined_rows j : j ∈ joined_rows db <-> joined db j.
Proof.
  unfold joined_rows. rewrite elem_of_order_by, list_elem_of_In, in_flat_map. setoid_rewrite <- list_elem_of_In.
  setoid_rewrite list_elem_of_omap. split.
  - intros (r & Hr & b & Hb & Hj). by eapply join_row_joined; [apply route_row_key|apply binding_row_key|].
  - intros Hj. exists (jr_route j). split; [apply elem_of_values; eexists; apply Hj|]. exists (jr_binding j).
    split; [apply elem_of_values; eexists; apply Hj|by apply joined_join_row].
Qed.

Lemma values_nodup {K A} `{Countable K} (m : gmap K A) (key : A -> K) :
  (forall k x, m !! k = Some x -> key x = k) -> NoDup (values m).
Proof.
  intros Hkey. unfold values. apply NoDup_fmap_2_strong; [|apply NoDup_map_to_list].
  intros [k x] [k' x'] Hx%elem_of_map_to_list Hx'%elem_of_map_to_list Heq. cbn in Heq. subst x'.
  by rewrite <- (Hkey _ _ Hx), <- (Hkey _ _ Hx').
Qed.

Lemma flat_map_bind {A B} (f : A -> list B) l : flat_map f l = l ≫= f.
Proof. induction l as [|x l IH]; [done|]. cbn. by rewrite IH. Qed.

Lemma omap_nodup {A B} (f : A -> option B) l :
  (forall x x' y, x ∈ l -> x' ∈ l -> f x = Some y -> f x' = Some y -> x = x') -> NoDup l -> NoDup (omap f l).
Proof.
  intros Hf. induction 1 as [|x l Hx Hl IH]; cbn; [constructor|].
  assert (NoDup (omap f l)) as Ho by (apply IH; intros a a' y Ha Ha'; apply Hf; by apply list_elem_of_further).
  destruct (f x) as [y|] eqn:E; [|done]. constructor; [|done]. intros (x' & Hx' & E')%list_elem_of_omap.
  rewrite <- (Hf x x' y) in Hx'; try done; [apply list_elem_of_here|by apply list_elem_of_further].
Qed.

Lemma joined_rows_nodup : NoDup (joined_rows db).
Proof.
  unfold joined_rows. rewrite order_by_perm, flat_map_bind.
  assert (forall r, r ∈ values (db_routes db) -> forall b, b ∈ values (db_bindings db) -> forall j, join_row db r b = Some j ->
    jr_route j = r /\ jr_binding j = b) as Hj.
  { intros r Hr b Hb j E. eapply join_row_joined; [by apply route_row_key|by apply binding_row_key|done]. }
  apply NoDup_bind.
  - intros r r' j Hr Hr' (b & Hb & E)%list_elem_of_omap (b' & Hb' & E')%list_elem_of_omap.
    destruct (Hj _ Hr _ Hb _ E) as [<- _]. by destruct (Hj _ Hr' _ Hb' _ E') as [<- _].
  - intros r Hr. apply omap_nodup.
    + intros b b' j Hb Hb' E E'. destruct (Hj _ Hr _ Hb _ E) as [_ <-]. by destruct (Hj _ Hr _ Hb' _ E') as [_ <-].
    + apply (values_nodup _ bv_id). intros k b Hk. by destruct (co_bindings _ Hok _ _ Hk).
  - apply (values_nodup _ ro_id). intros k r Hk. by destruct (co_routes _ Hok _ _ Hk).
Qed.
End Query.

(** ** The lines of a resolved route *)

#[local] Instance RouteRow_eq_dec : EqDecision RouteRow.
Proof. solve_decision. Defined.

(** The protocols of a route, as they are read. *)
Definition offers (r : RouteRow) (p : Protocol) : bool :=
  is_some_and (protocols_from_value (ro_protocols r)) (existsb (Protocol_eqb p)).

(** The rows that may serve a request for [model] in [protocol]. *)
Definition eligible (protocol : Protocol) (model : string) (j : JoinedRow) : Prop :=
  lv_public_name (jr_model j) = model /\ bv_protocol (jr_binding j) = protocol /\ offers (jr_route j) protocol = true.
#[export] Instance eligible_dec protocol model j : Decision (eligible protocol model j).
Proof. unfold eligible. apply _. Defined.

Lemma protocols_read_back ps : protocols_from_value (protocols_to_value ps) = Some ps.
Proof.
  unfold protocols_to_value, protocols_from_value. induction ps as [|p ps IH]; cbn [map protocols_from_values]; [done|].
  rewrite IH. by destruct p.
Qed.

Lemma existsb_protocol p ps : existsb (Protocol_eqb p) ps = true <-> p ∈ ps.
Proof.
  rewrite existsb_exists. setoid_rewrite Protocol_eqb_eq. setoid_rewrite <- list_elem_of_In. split; [by intros (q & Hq & ->)|].
  intros Hp. by exists p.
Qed.

(** The protocols of a stored route are the ones it serves. *)
Lemma stored_offers r p : stored_protocols r -> offers r p = true <-> serves r p = true.
Proof.
  intros [ps Hps]. unfold offers, serves. rewrite Hps, protocols_read_back. cbn [is_some_and].
  by rewrite existsb_protocol, json_has_protocols.
Qed.

Section Lines.
Context `{BuildCfg} (de_error : Value -> string).

(** A row is only skipped for its protocol or its mode. *)
Lemma row_not_skipped row ps :
  protocols_from_value (sr_route_protocols row) = Some ps -> sr_protocol row ∈ ps -> is_routable (sr_mode row) = true ->
  row_line de_error row <> Err None.
Proof.
  intros Hps Hin Hmode. unfold row_line. rewrite Hps. apply existsb_protocol in Hin as ->. cbn [negb].
  destruct (endpoints_from_value _); [|done].
  assert (row_upstream row <> Err None) as Hup
    by (unfold row_upstream; destruct (sr_mode row); try done; by destruct (sr_source_protocol row)).
  destruct (row_upstream row) as [[up mode]|e]; cbn [rbind]; [|congruence]. destruct (opt_filter _ _); [|done].
  destruct (capabilities_from_catalog _); cbn [rbind map_err]; [|done].
  assert (row_adapter row up <> Err None) as Had.
  { unfold row_adapter. destruct (sr_mode row); try done. destruct (sr_adapter row); [|done].
    destruct (adapter_definition _); [|done]. by destruct (_ || _). }
  destruct (row_adapter row up); cbn [rbind]; [|congruence]. by destruct (intersect_capabilities _ _ _).
Qed.

(** A row without an error is published exactly when its route offers its
    protocol. *)
Lemma row_published j :
  capability_serving (jr_capability j) = true -> (forall e, row_line de_error (snapshot_row j) <> Err (Some e)) ->
  is_Some (pub de_error (snapshot_row j)) <-> offers (jr_route j) (bv_protocol (jr_binding j)) = true.
Proof.
  intros Hser Hclean. unfold pub, offers. destruct (protocols_from_value (ro_protocols (jr_route j))) as [ps|] eqn:Hps; cbn [is_some_and].
  - rewrite existsb_protocol. split.
    + unfold row_line. cbn [sr_route_protocols snapshot_row sr_protocol]. rewrite Hps, <- existsb_protocol.
      destruct (existsb _ ps); [done|]. by intros [? ?].
    + intros Hin. apply andb_true_iff in Hser as [_ Hmode].
      pose proof (row_not_skipped (snapshot_row j) ps Hps Hin Hmode) as Hskip.
      destruct (row_line _ _) as [line|[e|]]; [by eexists|by destruct (Hclean e)|done].
  - split; [|done]. unfold row_line. cbn [sr_route_protocols snapshot_row]. rewrite Hps. by intros [? ?].
Qed.

(** The published rows of a key are the rows a predicate selects, when both
    agree on every row. *)
Lemma published_filter (J : list JoinedRow) key (P : JoinedRow -> Prop) `{!forall j, Decision (P j)} :
  (forall j, j ∈ J -> (exists p, pub de_error (snapshot_row j) = Some p /\ pub_key p = key) <-> P j) ->
  map rb_binding_id (map pub_binding (filter (fun p => pub_key p = key) (omap (pub de_error) (map snapshot_row J))))
  = map (fun j => bv_id (jr_binding j)) (filter P J).
Proof.
  induction J as [|j J IH]; intros HP; [done|]. cbn [map omap list_omap].
  assert (forall j', j' ∈ J -> (exists p, pub de_error (snapshot_row j') = Some p /\ pub_key p = key) <-> P j') as HP'
    by (intros j' Hj'; apply HP; by apply list_elem_of_further).
  specialize (HP j (list_elem_of_here _ _)). specialize (IH HP').
  destruct (pub de_error (snapshot_row j)) as [[row line]|] eqn:Ep.
  - assert (row = snapshot_row j) as -> by (unfold pub in Ep; destruct (row_line _ _); [by injection Ep as <- _|done]).
    rewrite !filter_cons. destruct (decide (pub_key _ = key)) as [Hk|Hk].
    + rewrite decide_True by (apply HP; eauto). cbn [map]. f_equal. exact IH.
    + rewrite decide_False; [exact IH|]. intros (p & [= <-] & Hp)%HP. done.
  - rewrite (filter_cons_False P); [exact IH|]. by intros (p & ? & _)%HP.
Qed.
End Lines.

(** Where routes do not overlap, the rows that may serve a request belong to one
    route and, where models stay in one family, to one provider. *)
Lemma eligible_same_route db protocol model j j' :
  control_inv db -> joined db j -> joined db j' -> eligible protocol model j -> eligible protocol model j' ->
  jr_route j = jr_route j'.
Proof.
  intros [Hok _ Hdis Hst] Hj Hj' (Hn & _ & Hs) (Hn' & _ & Hs').
  apply stored_offers in Hs; [|eapply Hst, jn_route; exact Hj]. apply stored_offers in Hs'; [|eapply Hst, jn_route; exact Hj'].
  assert (ro_logical_model_id (jr_route j) = ro_logical_model_id (jr_route j')) as Hm
    by (eapply (co_names _ Hok); [apply Hj|apply Hj'|congruence]).
  assert (ro_id (jr_route j) = ro_id (jr_route j')) as Hid by (exact (Hdis _ _ _ _ protocol (jn_route _ _ Hj) (jn_route _ _ Hj') (jn_route_enabled _ _ Hj) (jn_route_enabled _ _ Hj')
          Hm Hs Hs')).
  pose proof (jn_route _ _ Hj) as Hr. pose proof (jn_route _ _ Hj') as Hr'. rewrite Hid, Hr' in Hr. by injection Hr.
Qed.

Lemma route_same_family db x y :
  control_inv db -> joined db x -> joined db y -> jr_route x = jr_route y ->
  so_provider_preset_id (jr_source x) = so_provider_preset_id (jr_source y).
Proof.
  intros Hi Hx Hy Hroute. assert (family db (bv_source_id (jr_binding x)) = family db (bv_source_id (jr_binding y))) as Hfam.
  { eapply (ci_family _ Hi); [apply Hx|apply Hy|apply Hx|apply Hy|].
    rewrite (jn_of_model _ _ Hx), (jn_of_model _ _ Hy). pose proof (jn_model _ _ Hx) as Mx.
    rewrite Hroute, (jn_model _ _ Hy) in Mx. by injection Mx as ->. }
  unfold family in Hfam. rewrite (jn_source _ _ Hx), (jn_source _ _ Hy) in Hfam. by injection Hfam.
Qed.

(** A published row has the key of a route exactly when it may serve the
    requests of that route. *)
Lemma published_key `{BuildCfg} (de_error : Value -> string) db j j0 line0 protocol model :
  joined db j -> joined db j0 -> capability_serving (jr_capability j) = true ->
  (forall e, row_line de_error (snapshot_row j) <> Err (Some e)) ->
  pub de_error (snapshot_row j0) = Some (snapshot_row j0, line0) -> lv_public_name (jr_model j0) = model ->
  bv_protocol (jr_binding j0) = protocol ->
  (exists p, pub de_error (snapshot_row j) = Some p /\ pub_key p = pub_key (snapshot_row j0, line0))
  <-> eligible protocol model j /\ jr_route j = jr_route j0.
Proof.
  intros Hj Hj0 Hser Hclean Hpub0 Hn0 Hp0. pose proof (row_published de_error j Hser Hclean) as Hpub. split.
  - intros (p & Hpj & Hkey). assert (is_Some (pub de_error (snapshot_row j))) as Hs%Hpub by (by eexists).
    unfold pub in Hpj. destruct (row_line _ _); [|done]. injection Hpj as <-. unfold pub_key in Hkey. cbn in Hkey.
    injection Hkey as Hid Hn Hpr. split; [split_and!; congruence|].
    pose proof (jn_route _ _ Hj) as Hr. pose proof (jn_route _ _ Hj0) as Hr0. rewrite Hid, Hr0 in Hr. by injection Hr.
  - intros [(Hn & Hpr & Hs) Hsame]. rewrite <- Hpr in Hs. apply Hpub in Hs as [p Hpj]. exists p. split; [done|].
    unfold pub in Hpj. destruct (row_line _ (snapshot_row j)); [|done]. injection Hpj as <-. unfold pub_key. cbn.
    by rewrite Hsame, Hn, Hn0, Hpr, Hp0.
Qed.

(** [ORDER BY] of the query, as a comparison. *)
Definition joined_cmp `{Collation} (x y : JoinedRow) : comparison :=
  then_cmp (collate (ro_id (jr_route x)) (ro_id (jr_route y)))
    (then_cmp (protocol_rank (bv_protocol (jr_binding x)) ?= protocol_rank (bv_protocol (jr_binding y)))
      (then_cmp (bv_priority (jr_binding y) ?= bv_priority (jr_binding x))
        (then_cmp (mode_rank (mc_mode (jr_capability x)) ?= mode_rank (mc_mode (jr_capability y)))
          (bv_id (jr_binding x) ?= bv_id (jr_binding y))))).

#[export] Instance joined_cmp_laws `{Collation} `{!CmpLaws (collate : string -> string -> comparison)} : CmpLaws joined_cmp.
Proof.
  unfold joined_cmp.
  apply (then_laws (fun x y => collate (ro_id (jr_route x)) (ro_id (jr_route y)))); [exact (on_laws (fun j => ro_id (jr_route j)) collate)|].
  apply (then_laws (fun x y => protocol_rank (bv_protocol (jr_binding x)) ?= protocol_rank (bv_protocol (jr_binding y))));
    [exact (on_laws (fun j => protocol_rank (bv_protocol (jr_binding j))) Z.compare)|].
  apply (then_laws (fun x y => bv_priority (jr_binding y) ?= bv_priority (jr_binding x)));
    [exact (flip_laws (fun x y => bv_priority (jr_binding x) ?= bv_priority (jr_binding y)) (CmpLaws0 := on_laws (fun j => bv_priority (jr_binding j)) Z.compare))|].
  apply (then_laws (fun x y => mode_rank (mc_mode (jr_capability x)) ?= mode_rank (mc_mode (jr_capability y))));
    [exact (on_laws (fun j => mode_rank (mc_mode (jr_capability j))) Z.compare)|].
  exact (on_laws (fun j => bv_id (jr_binding j)) Z.compare).
Qed.

Lemma joined_rows_ordered `{Collation} `{!CmpLaws (collate : string -> string -> comparison)} db :
  ordered joined_cmp (joined_rows db).
Proof. apply (order_by_ordered joined_cmp). Qed.

(** Among the rows of one route and one protocol the order is by priority. *)
Lemma ordered_priorities `{Collation} `{!CmpLaws (collate : string -> string -> comparison)} js :
  ordered joined_cmp js ->
  (forall x y, x ∈ js -> y ∈ js -> jr_route x = jr_route y /\ bv_protocol (jr_binding x) = bv_protocol (jr_binding y)) ->
  StronglySorted (fun x y => bv_priority (jr_binding y) <= bv_priority (jr_binding x)) js.
Proof.
  induction 1 as [|x l Hl IH Hx]; intros Hsame; [constructor|]. constructor.
  - apply IH. intros y z Hy Hz. apply Hsame; by apply list_elem_of_further.
  - apply Forall_forall. intros y Hy. rewrite Forall_forall in Hx. specialize (Hx y Hy). unfold joined_cmp in Hx.
    destruct (Hsame x y) as [Hr Hp]; [apply list_elem_of_here|by apply list_elem_of_further|].
    rewrite Hr, Hp, (cmp_refl (collate : string -> string -> comparison)), Z.compare_refl in Hx. cbn [then_cmp] in Hx.
    destruct (Z.compare_spec (bv_priority (jr_binding y)) (bv_priority (jr_binding x))); cbn in Hx; [lia|lia|done].
Qed.

(** A published row is one of the query. *)
Lemma published_row `{BuildCfg} `{Collation} (de_error : Value -> string) db key p : control_ok db ->
  p ∈ filter (fun p => pub_key p = key) (omap (pub de_error) (snapshot_rows db)) ->
  exists j line, joined db j /\ pub de_error (snapshot_row j) = Some (snapshot_row j, line)
    /\ pub_key (snapshot_row j, line) = key.
Proof.
  intros Hok [Hkey (row & (j & -> & Hj)%list_elem_of_fmap & Hpr)%list_elem_of_omap]%list_elem_of_filter.
  exists j. unfold pub in *. destruct (row_line _ _) as [line|]; [|done]. injection Hpr as <-. exists line.
  split_and!; [by apply elem_of_joined_rows|done|done].
Qed.

(** C5. The lines of a resolved route are the bindings of the tables that may serve
    it: of a snapshot loaded from tables of the right type (and a collation that
    is a linear order), the primary line and
    the fallbacks of a resolved request are, by id and each once, the rows of the
    query that may serve it and belong to one enabled route of the model, all of
    them, in descending priority.  That is every row that may serve the request,
    and all lines are of one provider preset, if besides the invariants of
    [control_inv] hold of the tables, as they do as long as nothing was imported;
    after an import a model may have several routes for a protocol, of which one
    is taken, and lines of several providers. *)
Theorem resolved_lines_are_the_bindings `{ErrorTexts} `{BuildCfg} `{UrlCrates} `{Collation}
    `{!CmpLaws (collate : string -> string -> comparison)} (self : ControlPlane) (db : ControlDb) (s : RuntimeSnapshot)
    (protocol : Protocol) (model : string) (r : ResolvedRoute) (Hok : control_ok db)
    (Hload : load_snapshot self db = Ok s) (Hr : resolve_detailed (ss_resolver s) protocol model = Ok r) :
  exists id route js, rs_binding_id r = Some id
    /\ db_routes db !! ro_id route = Some route /\ ro_enabled route = true
    /\ map sb_binding_id (primary_binding r id :: rs_fallback_bindings r) = map (fun j => bv_id (jr_binding j)) js
    /\ (forall j, j ∈ js <-> joined db j /\ eligible protocol model j /\ jr_route j = route)
    /\ NoDup (map (fun j => bv_id (jr_binding j)) js)
    /\ StronglySorted (fun x y => bv_priority (jr_binding y) <= bv_priority (jr_binding x)) js
    /\ (control_inv db ->
         (forall j, joined db j -> eligible protocol model j -> j ∈ js)
         /\ forall x y, x ∈ js -> y ∈ js -> so_provider_preset_id (jr_source x) = so_provider_preset_id (jr_source y)).
Proof.
  unfold load_snapshot in Hload. destruct (validate_all self db); cbn [rbind] in Hload; [|done].
  unfold build_from, build_snapshot in Hload. cbv zeta in Hload.
  destruct (bd_errors _) eqn:Ee; [|done]. injection Hload as <-. set (rows := snapshot_rows db) in *.
  pose proof (rows_built snapshot_error rows Ee) as [[Hb Hk _] _ _ Hclean].
  unfold resolve_detailed in Hr. cbn [ss_resolver rv_runtime_routes RouteResolver_from_runtime] in Hr.
  unfold resolve_runtime_route in Hr. destruct (List.find _ _) as [rroute|] eqn:Ef; [|done].
  apply List.find_some in Ef as [Hin Hm]. apply list_elem_of_In in Hin. apply andb_true_iff in Hm as [Hp%Protocol_eqb_eq Hm%String.eqb_eq].
  specialize (Hb rroute Hin). destruct (rr_bindings rroute) as [|primary rest] eqn:Eb; [done|]. injection Hr as <-.
  assert (exists j0 line0, joined db j0 /\ pub snapshot_error (snapshot_row j0) = Some (snapshot_row j0, line0)
    /\ pub_key (snapshot_row j0, line0) = route_key rroute) as (j0 & line0 & Hj0 & Hpub0 & Hkey0).
  { destruct (filter _ _) as [|p l] eqn:El; [done|].
    eapply (published_row snapshot_error db (route_key rroute) p Hok). fold rows. rewrite El. apply list_elem_of_here. }
  assert (lv_public_name (jr_model j0) = model /\ bv_protocol (jr_binding j0) = protocol) as [Hn0 Hpr0]
    by (unfold pub_key, route_key in Hkey0; cbn in Hkey0; by injection Hkey0 as _ -> ->).
  set (js := filter (fun j => eligible protocol model j /\ jr_route j = jr_route j0) (joined_rows db)).
  assert (forall j, j ∈ js <-> joined db j /\ eligible protocol model j /\ jr_route j = jr_route j0) as Hjs
    by (intros j; unfold js; rewrite list_elem_of_filter, elem_of_joined_rows by done; tauto).
  assert (map rb_binding_id (primary :: rest) = map (fun j => bv_id (jr_binding j)) js) as Hids.
  { rewrite Hb, <- Hkey0. apply published_filter. intros j Hj. apply (published_key _ db); try done.
    - by apply elem_of_joined_rows.
    - apply elem_of_joined_rows in Hj; [apply Hj|done].
    - intros e. apply Hclean. by apply list_elem_of_fmap_2. }
  exists (rb_binding_id primary), (jr_route j0), js. split_and!; [done|apply Hj0|apply Hj0| |done| | |].
  - rewrite <- Hids. cbn. by rewrite map_map.
  - apply NoDup_fmap_2_strong; [|apply NoDup_filter, joined_rows_nodup; done]. intros x y Hx Hy Hid.
    apply Hjs in Hx as (Hx & _ & Rx), Hy as (Hy & _ & Ry).
    pose proof (jn_binding _ _ Hx) as Bx. rewrite Hid, (jn_binding _ _ Hy) in Bx. injection Bx as Bx.
    pose proof (joined_join_row _ _ Hx) as Jx. rewrite Rx, <- Ry, <- Bx, (joined_join_row _ _ Hy) in Jx. by injection Jx.
  - apply ordered_priorities; [apply ordered_filter, joined_rows_ordered|].
    intros x y (_ & (_ & -> & _) & ->)%Hjs (_ & (_ & -> & _) & ->)%Hjs. done.
  - intros Hi. assert (eligible protocol model j0) as He0.
    { assert (j0 ∈ joined_rows db) as Hin0 by by apply elem_of_joined_rows.
      apply (published_key snapshot_error db j0 j0 line0); try done; [apply Hj0| |by eexists].
      intros e. apply Hclean. by apply list_elem_of_fmap_2. }
    split.
    + intros j Hj He. apply Hjs. split_and!; [done|done|]. by eapply eligible_same_route.
    + intros x y (Hx & _ & Rx)%Hjs (Hy & _ & Ry)%Hjs. eapply route_same_family; [done..|congruence].
Qed.

(** The accounts and the sources of a snapshot are rows of the tables: an
    account has the credential, the weight and the source of its own row and is
    enabled exactly when both the row and its source are; a provider has the
    address of its own source.  Nothing else is published. *)
Theorem published_accounts_are_rows `{ErrorTexts} `{BuildCfg} `{UrlCrates} `{Collation} (self : ControlPlane)
    (db : ControlDb) (s : RuntimeSnapshot) (Hok : control_ok db) (Hload : load_snapshot self db = Ok s) :
  (forall a, a ∈ gc_accounts (ss_config s) -> exists row source j,
     joined db j /\ db_accounts db !! ac_id a = Some row /\ db_sources db !! ac_provider_id a = Some source
     /\ ac_provider_id a = ax_source_id row /\ ac_credential_env a = ax_credential_env row
     /\ ac_credential_ciphertext a = ax_credential_ciphertext row /\ ac_weight a = ax_weight row
     /\ ac_enabled a = ax_enabled row && so_enabled source)
  /\ (forall p, p ∈ gc_providers (ss_config s) -> exists source,
     db_sources db !! Config.pv_id p = Some source /\ Config.pv_base_url p = so_base_url source).
Proof.
  unfold load_snapshot in Hload. destruct (validate_all self db); cbn [rbind] in Hload; [|done].
  unfold build_from, build_snapshot in Hload. cbv zeta in Hload.
  destruct (bd_errors _) eqn:Ee; [|done]. injection Hload as <-. cbn [ss_config gc_accounts gc_providers].
  pose proof (rows_built snapshot_error _ Ee) as [_ Ha Hp _].
  assert (forall row line, (row, line) ∈ omap (pub snapshot_error) (snapshot_rows db) ->
    exists j, joined db j /\ row = snapshot_row j) as Hrow.
  { intros row line (row' & Hin & Hpub)%list_elem_of_omap. unfold pub in Hpub.
    destruct (row_line _ row'); [|done]. injection Hpub as -> _.
    apply list_elem_of_fmap in Hin as (j & -> & Hj). exists j. split; [by apply elem_of_joined_rows|done]. }
  split.
  - intros x (row & line & (j & Hj & ->)%Hrow & He)%elem_of_sort_by%Ha. exists (jr_account j), (jr_source j), j.
    unfold unmapped, row_account in He. cbn in He. injection He as -> -> _ -> -> _ -> -> _ _ _.
    split_and!; try done; [apply Hj|apply Hj|symmetry; apply Hj].
  - intros p (row & line & (j & Hj & ->)%Hrow & He)%elem_of_sort_by%Hp. exists (jr_source j).
    unfold unlisted, row_provider in He. cbn in He. injection He as -> _ -> _ _ _ _ _. split; [apply Hj|done].
Qed.

Section Example.
Local Existing Instances example_errors any_url example_serde json_concrete mock_crypto example_control_env
  example_build example_collation.

Definition example_loaded : result RuntimeSnapshot ControlPlaneError :=
  load_snapshot example_plane (example_after (take 3 example_operations)).

Lemma resolved_lines_are_the_bindings_witness :
  exists s r id js, example_loaded = Ok s /\ resolve_detailed (ss_resolver s) OpenAiResponses "gpt" = Ok r
    /\ map sb_binding_id (primary_binding r id :: rs_fallback_bindings r) = map (fun j => bv_id (jr_binding j)) js
    /\ (forall j, joined (example_after (take 3 example_operations)) j -> eligible OpenAiResponses "gpt" j -> j ∈ js).
Proof.
  assert (match example_loaded with
          | Ok s => match resolve_detailed (ss_resolver s) OpenAiResponses "gpt" with Ok _ => True | Err _ => False end
          | Err _ => False
          end) as Hok by (vm_compute; exact I).
  destruct example_loaded as [s|] eqn:El; [|destruct Hok].
  destruct (resolve_detailed _ _ _) as [r|] eqn:Er; [|destruct Hok].
  assert (CmpLaws (collate : string -> string -> comparison)) as Hlaws by exact (kcmp_laws (K := string)).
  assert (control_inv (example_after (take 3 example_operations))) as Hi
    by (eapply careful_steps_inv; [apply example_careful; reflexivity|apply example_control_inv]).
  pose proof El as Eload. unfold example_loaded in Eload.
  destruct (resolved_lines_are_the_bindings example_plane (example_after (take 3 example_operations)) s OpenAiResponses "gpt"
    r (ci_ok _ Hi) Eload Er) as (id & route & js & _ & _ & _ & Hids & _ & _ & _ & Hall).
  exists s, r, id, js. split; [reflexivity|]. split; [exact Er|]. split; [exact Hids|]. exact (proj1 (Hall Hi)).
Defined.

(** After the account is disabled it is still published, as disabled. *)
Lemma published_accounts_are_rows_witness :
  exists s a, load_snapshot example_plane (example_after example_operations) = Ok s
    /\ a ∈ gc_accounts (ss_config s) /\ ac_enabled a = false
    /\ exists row, db_accounts (example_after example_operations) !! ac_id a = Some row /\ ax_enabled row = false.
Proof.
  assert (match load_snapshot example_plane (example_after example_operations) with
          | Ok s => map (fun a => (ac_id a, ac_enabled a)) (gc_accounts (ss_config s)) = [("ka", false)]
          | Err _ => False
          end) as Hok by (vm_compute; reflexivity).
  destruct (load_snapshot _ _) as [s|] eqn:El; [|destruct Hok].
  assert (control_ok (example_after example_operations)) as Hi
    by (eapply ci_ok, careful_steps_inv; [apply example_careful; reflexivity|apply example_control_inv]).
  destruct (published_accounts_are_rows example_plane (example_after example_operations) s Hi El) as [Ha _].
  destruct (gc_accounts (ss_config s)) as [|a l] eqn:Ea; [discriminate Hok|]. injection Hok as Hid Hen _.
  destruct (Ha a (list_elem_of_here _ _)) as (row & source & j & _ & Hrow & Hsource & _ & _ & _ & _ & He).
  exists s, a. split; [reflexivity|]. split; [rewrite Ea; apply list_elem_of_here|]. split; [exact Hen|]. exists row.
  split; [exact Hrow|]. rewrite Hid in Hrow. vm_compute in Hrow. injection Hrow as <-. reflexivity.
Defined.
End Example.
