(* ===== verification/BackupProps.v ===== *)
(** * What exports and restores guarantee

    Exports carry no credential and can be imported back; a restore is all or
    nothing, verified against the exported fingerprint, brings in no ciphertext
    and leaves virtual keys alone.  [RowJsonLaws] is what the theorems rely on
    of PostgreSQL's row conversion: rows are objects with the columns of their
    table, and an insert touches its own table only. *)

From Stdlib Require Import ZArith Lia Ascii.
From stdpp Require Import base gmap list strings.
From S2P Require Import Prelude.
From S2P Require Import RustStr.
From S2P Require Import BTree.
From S2P Require Import Tx.
From S2P Require Import Protocol.
From S2P Require Import Config.
From S2P Require Import Routing.
From S2P Require Import SourceUrl.
From S2P Require Import Json.
From S2P Require Import Redaction.
From S2P Require Import Ops.
From S2P Require Import Cleanup.
From S2P Require Import Catalog.
From S2P Require Import Presets.
From S2P Require Import ModelCatalog.
From S2P Require Import Snapshot.
From S2P Require Import VirtualKeys.
From S2P Require Import Secrets.
From S2P Require Import Validation.
From S2P Require Import ControlDb.
From S2P Require Import ControlTypes.
From S2P Require Import Backup.

Definition not_text (o : option Value) : Prop := match o with Some (VString _) => False | _ => True end.
Definition scalar (o : option Value) : Prop := match o with Some (VObject _ | VArray _) => False | _ => True end.

Class RowJsonLaws `{RowJson} : Prop := {
  rows_are_objects t db row : row ∈ select_rows t db -> is_object row = true;
  (** [accounts.credential_env] is a text column *)
  env_is_scalar db row : row ∈ select_rows TAccounts db -> scalar (get row "credential_env");
  (** both are [JSONB] objects *)
  source_columns db row : row ∈ select_rows TSources db ->
    not_text (get row "auth_config") /\ not_text (get row "provider_preset_snapshot");
  (** the columns of [virtual_keys] hold no credential but the two removed *)
  keys_are_plain db row : row ∈ select_rows TVirtualKeys db -> reject_plaintext_secret_fields row = Ok tt;
  insert_accounts row db db' id a :
    insert_row TAccounts row db = Ok db' -> get row "credential_ciphertext" = Some VNull ->
    db_accounts (bk_control db') !! id = Some a ->
    db_accounts (bk_control db) !! id = Some a \/ ax_credential_ciphertext a = None;
  insert_others t row db db' : insert_row t row db = Ok db' -> t <> TAccounts ->
    db_accounts (bk_control db') = db_accounts (bk_control db);
  insert_keeps_keys t row db db' : insert_row t row db = Ok db' -> bk_keys db' = bk_keys db;
}.

(** ** Rows of an export *)

Section Rows.
Context `{UrlCrates} `{UrlEdit}.

Lemma on_object_object f row : is_object (on_object f row) = is_object row.
Proof. by destruct row. Qed.

Lemma sanitize_json_object row : is_object (sanitize_json row) = is_object row.
Proof. by destruct row. Qed.

Lemma export_row_object t row : is_object (export_row t row) = is_object row.
Proof.
  destruct t; cbn [export_row]; unfold export_account_row, sanitize_source_row, sanitize_account_row,
    sanitize_virtual_key_row; by rewrite ?on_object_object, ?sanitize_json_object.
Qed.

Lemma scalar_accepted v : scalar (Some v) -> reject_plaintext_secret_fields v = Ok tt.
Proof. by destruct v. Qed.

Lemma export_account_accepted row :
  scalar (get row "credential_env") -> reject_plaintext_secret_fields (export_account_row row) = Ok tt.
Proof.
  intros Hs. unfold export_account_row. apply sanitize_account_row_accepted.
  apply on_object_accepted; [|apply sanitized_json_is_accepted]. intros m Hm. apply bt_insert_Forall; [done|].
  split; [done|]. cbn [snd]. destruct (get row "credential_env") as [v|]; [by apply scalar_accepted|done].
Qed.

Lemma sanitize_virtual_key_accepted row :
  reject_plaintext_secret_fields row = Ok tt -> reject_plaintext_secret_fields (sanitize_virtual_key_row row) = Ok tt.
Proof. apply on_object_accepted. intros m Hm. by do 2 apply bt_remove_Forall. Qed.

Lemma virtual_key_removed row :
  get (sanitize_virtual_key_row row) "key_hash" = None /\ get (sanitize_virtual_key_row row) "key_ciphertext" = None.
Proof.
  destruct row as [| | | | |m]; try done. cbn [sanitize_virtual_key_row on_object get].
  split; (destruct (hm_get _ _) as [v|] eqn:Hv; [|done]); apply hm_get_Some_in in Hv; exfalso.
  - apply bt_remove_in in Hv as [[_ Hne]%bt_remove_in _]. by apply Hne.
  - apply bt_remove_in in Hv as [_ Hne]. by apply Hne.
Qed.

Context `{!RowJson} `{!RowJsonLaws}.

Lemma export_row_accepted t db row :
  row ∈ select_rows t db -> reject_plaintext_secret_fields (export_row t row) = Ok tt.
Proof.
  intros Hrow. destruct t; cbn [export_row]; try apply sanitized_json_is_accepted.
  - apply sanitize_source_row_accepted, sanitized_json_is_accepted.
  - by eapply export_account_accepted, env_is_scalar.
  - by eapply sanitize_virtual_key_accepted, keys_are_plain.
Qed.
End Rows.

(** ** Sources *)

Section Sources.
Context `{UrlCrates} `{UrlEdit} `{!UrlEditLaws}.

(** An entry of a clean object. *)
Definition clean_entry (kv : string * Value) : Prop :=
  if is_sensitive_key kv.1 then kv.2 = VString REDACTED
  else clean kv.2 /\ match kv.2 with VString s => looks_like_secret s = false | _ => True end.

Lemma clean_object m : clean (VObject m) <-> Forall clean_entry m.
Proof.
  cbn [clean]. induction m as [|[k v] m IH]; cbn; [by split|]. rewrite Forall_cons, <- IH. unfold clean_entry at 1. cbn.
  destruct (is_sensitive_key k); tauto.
Qed.

Lemma hm_get_insert_other {V} (m : list (string * V)) k j v : j <> k -> hm_get (bt_insert m k v) j = hm_get m j.
Proof.
  intros Hne. induction m as [|[i w] m IH]; cbn [bt_insert].
  - rewrite hm_get_cons, bool_decide_eq_false_2; [done|congruence].
  - destruct (kcmp k i) eqn:E.
    + apply kcmp_eq in E as ->. rewrite !hm_get_cons, !bool_decide_eq_false_2 by congruence. done.
    + rewrite hm_get_cons, bool_decide_eq_false_2 by congruence. done.
    + rewrite !hm_get_cons, IH. done.
Qed.

Lemma hm_get_remove_other {V} (m : list (string * V)) k j : j <> k -> hm_get (bt_remove m k) j = hm_get m j.
Proof.
  intros Hne. induction m as [|[i w] m IH]; [done|]. unfold bt_remove in *. cbn [List.filter fst].
  destruct (kcmp i k) eqn:E; rewrite !hm_get_cons, ?IH; [|done|done].
  apply kcmp_eq in E as ->. rewrite bool_decide_eq_false_2 by congruence. done.
Qed.

Lemma sanitize_field_other m key j : j <> key -> hm_get (sanitize_field m key) j = hm_get m j.
Proof.
  intros Hne. unfold sanitize_field. destruct (hm_get m key); [|done].
  by rewrite hm_get_insert_other, hm_get_remove_other.
Qed.

Lemma sanitize_not_text v : not_text (Some v) -> not_text (Some (sanitize_json v)).
Proof. by destruct v. Qed.

Lemma sanitize_field_clean m key :
  is_sensitive_key key = false -> not_text (hm_get m key) -> Forall clean_entry m ->
  Forall clean_entry (sanitize_field m key).
Proof.
  intros Hk Ht Hm. unfold sanitize_field. destruct (hm_get m key) as [v|]; [|done].
  apply bt_insert_Forall; [by apply bt_remove_Forall|]. unfold clean_entry. cbn [fst snd]. rewrite Hk.
  split; [apply sanitized_json_is_clean|]. apply sanitize_not_text in Ht. by destruct (sanitize_json v).
Qed.

Lemma get_sanitized_not_text row key :
  is_sensitive_key key = false -> not_text (get row key) -> not_text (get (sanitize_json row) key).
Proof.
  intros Hk. destruct row as [| | | | |m]; try done. cbn [sanitize_json get].
  induction m as [|[j v] m IH]; [done|]. cbn [map]. rewrite hm_get_cons.
  destruct (is_sensitive_key j) eqn:Ej; rewrite hm_get_cons; case_bool_decide as Hj; try exact IH.
  - congruence.
  - intros Ht. apply sanitize_not_text in Ht. by destruct (sanitize_json v).
Qed.

Lemma sanitize_source_clean row :
  not_text (get row "auth_config") -> not_text (get row "provider_preset_snapshot") ->
  clean (sanitize_source_row (sanitize_json row)).
Proof.
  intros Ha%get_sanitized_not_text Hp%get_sanitized_not_text; [|done|done].
  pose proof (sanitized_json_is_clean row) as Hc. unfold sanitize_source_row.
  destruct (sanitize_json row) as [| | | | |m]; try done. cbn [on_object get fold_left] in *.
  apply clean_object in Hc. apply clean_object.
  apply sanitize_field_clean; [done|by rewrite sanitize_field_other|]. by apply sanitize_field_clean.
Qed.
End Sources.

(** ** Exports *)

Section Exports.
Context `{ErrorTexts} `{ControlEnv} `{BuildCfg} `{UrlCrates} `{Collation} `{UrlEdit} `{SnapshotJson} `{SerdeJson}
  `{Sha256} `{RowJson} {env : OpsEnv BackupDb}.

Lemma read_tables_inv tables s lists s' :
  read_tables tables s = (Ok lists, s') ->
  Forall2 (fun t rows => exists db, rows = map (export_row t) (select_rows t db)) tables lists.
Proof.
  revert s lists s'. induction tables as [|t tables IH]; intros s lists s'; cbn [read_tables].
  - intros [= <- _]. constructor.
  - intros (rows & s1 & (db & ->)%o_read_inv & (rest & s2 & Hrest & [= <- _])%o_bind_inv)%o_bind_inv.
    constructor; [by exists db|by eapply IH].
Qed.

(** The rows of a built export come from the tables, each through
    [export_row], and there are not too many of them. *)
Lemma build_export_inv self metadata s e s' :
  build_control_plane_export self metadata s = (Ok e, s') ->
  ex_format e = "my-ai-gateway.control-plane" /\ ex_version e = 1 /\ ex_timezone e = "UTC"
  /\ ex_schema_version e = sm_schema_version metadata /\ ex_migration_version e = sm_migration_version metadata
  /\ (exists snapshot, runtime_snapshot_fingerprint snapshot = Ok (rs_fingerprint (ex_runtime_snapshot e)))
  /\ forall t, (exists db, export_rows e t = map (export_row t) (select_rows t db))
        /\ Z.of_nat (length (export_rows e t)) <= MAX_EXPORT_ROWS.
Proof.
  intros (r & s1 & _ & (snapshot & s2 & _ & (runtime & s3 & [Hrt _]%o_of_inv & (tables & s4 & Ht & He)%o_bind_inv)
    %o_bind_inv)%o_bind_inv)%o_bind_inv.
  destruct (existsb _ tables) eqn:Ex; [by apply o_of_inv in He as [? _]|].
  apply o_bind_inv in He as (now & s5 & _ & [= <- _]). cbn.
  apply read_tables_inv in Ht.
  assert (exists fingerprint, runtime_snapshot_fingerprint snapshot = Ok fingerprint
    /\ rs_fingerprint runtime = fingerprint) as (fp & Hfp & Hrfp).
  { unfold runtime_snapshot_metadata in Hrt. destruct (runtime_snapshot_fingerprint snapshot); [|done].
    cbn in Hrt. injection Hrt as <-. by eexists. }
  split_and!; [done..|by exists snapshot; rewrite Hfp, Hrfp|].
  assert (forall rows, rows ∈ tables -> Z.of_nat (length rows) <= MAX_EXPORT_ROWS) as Hlen.
  { intros rows Hrows. apply Z.nlt_ge. intros Hlt. apply not_true_iff_false in Ex. apply Ex, existsb_exists.
    exists rows. split; [by apply list_elem_of_In|lia]. }
  unfold export_tables in Ht.
  repeat match goal with Hf : Forall2 _ (_ :: _) _ |- _ => apply Forall2_cons_inv_l in Hf as (? & ? & [? ?] & ? & ?); subst end.
  match goal with Hf : Forall2 _ [] _ |- _ => apply Forall2_nil_inv_l in Hf; subst end.
  intros t. split; [destruct t; cbn; by eexists|]. apply Hlen. destruct t; cbn; repeat constructor.
Qed.

Lemma hex_lower_digits s : sall is_ascii_hexdigit (hex_lower s) = true.
Proof.
  assert (forall n, 0 <= n < 16 -> is_ascii_hexdigit (hex_digit n) = true) as Hd.
  { intros n Hn. assert (List.In n (map Z.of_nat (seq 0 16))) as Hin.
    { apply in_map_iff. exists (Z.to_nat n). split; [lia|]. apply in_seq. lia. }
    clear Hn. cbn in Hin. repeat (destruct Hin as [<-|Hin]; [reflexivity|]). done. }
  induction s as [|a s IH]; [done|]. cbn [hex_lower sall]. pose proof (byte_val_range a).
  rewrite !Hd, IH; [done| |]; [apply Z.mod_pos_bound; lia|].
  split; [apply Z.div_pos; lia|apply Z.div_lt_upper_bound; lia].
Qed.

Lemma hex_lower_length s : slen (hex_lower s) = 2 * slen s.
Proof. induction s as [|a s IH]; [done|]. cbn [hex_lower]. rewrite !slen_cons, IH. lia. Qed.

Lemma validate_rows_ok rows :
  Forall (fun row => is_object row = true /\ reject_plaintext_secret_fields row = Ok tt) rows -> validate_rows rows = Ok tt.
Proof. induction 1 as [|row rows [Ho Hr] _ IH]; [done|]. cbn. rewrite Ho, Hr. exact IH. Qed.

Lemma validate_tables_ok tables :
  Forall (fun rows => Z.of_nat (length rows) <= MAX_EXPORT_ROWS
    /\ Forall (fun row => is_object row = true /\ reject_plaintext_secret_fields row = Ok tt) rows) tables ->
  validate_tables tables = Ok tt.
Proof.
  induction 1 as [|rows tables [Hlen Hrows] _ IH]; [done|]. cbn [validate_tables].
  rewrite (proj2 (Z.ltb_ge _ _)) by lia. by rewrite validate_rows_ok.
Qed.

(** An export can be imported: whatever the tables hold, an export the
    gateway builds passes every check of the import, down to the search for
    plaintext credentials at every depth of every row. *)
Theorem exports_are_importable `{!RowJsonLaws} self metadata s e s' :
  (forall bytes, slen (sha256 bytes) = 32) ->
  0 < sm_schema_version metadata -> 0 < sm_migration_version metadata ->
  build_control_plane_export self metadata s = (Ok e, s') -> validate_export_shape e = Ok tt.
Proof.
  intros Hsha Hs Hm (Hf & Hv & Hu & Hes & Hem & (snapshot & Hfp) & Hrows)%build_export_inv.
  assert (slen (rs_fingerprint (ex_runtime_snapshot e)) = 64 /\ sall is_ascii_hexdigit (rs_fingerprint (ex_runtime_snapshot e)) = true)
    as [Hlen Hhex].
  { unfold runtime_snapshot_fingerprint in Hfp. destruct (config_to_value _); [|done]. cbn [ok_or rbind] in Hfp.
    unfold sha256_json in Hfp. destruct (to_string _); [|done]. cbn [ok_or rbind] in Hfp. injection Hfp as <-.
    rewrite hex_lower_length, Hsha, hex_lower_digits. done. }
  unfold validate_export_shape. rewrite Hf, Hv, Hu, Hes, Hem, Hlen, Hhex. cbn [String.eqb negb orb Z.eqb].
  rewrite !(proj2 (Z.leb_gt _ _)) by lia. cbn [orb].
  change (validate_tables (map (export_rows e) export_tables) = Ok tt).
  apply validate_tables_ok, Forall_map, Forall_forall. intros t _. unfold compose.
  destruct (Hrows t) as [(db & Hr) Hl]. split; [done|]. rewrite Hr. apply Forall_map, Forall_forall. intros row Hrow.
  unfold compose. rewrite export_row_object. split; [by eapply rows_are_objects|by eapply export_row_accepted].
Qed.

(** C13. An export carries no credential: accounts come without ciphertext,
    virtual keys without their hash and recovery copy, and in every other row,
    at every depth, the value of a sensitive key is the redaction mark, no member
    of an object looks like a key or token, and no string that parses as a URL
    has user information, a credential in its query or a fragment. *)
Theorem exports_carry_no_credentials `{!UrlEditLaws} `{!RowJsonLaws} self metadata s e s' :
  build_control_plane_export self metadata s = (Ok e, s') ->
  (forall row, row ∈ ex_accounts e -> get row "credential_ciphertext" = None)
  /\ (forall row, row ∈ ex_virtual_keys e -> get row "key_hash" = None /\ get row "key_ciphertext" = None)
  /\ forall t row, t <> TAccounts -> t <> TVirtualKeys -> row ∈ export_rows e t -> clean row.
Proof.
  intros (_ & _ & _ & _ & _ & _ & Hrows)%build_export_inv.
  assert (forall t row, row ∈ export_rows e t -> exists db r, row = export_row t r /\ r ∈ select_rows t db) as Hin.
  { intros t row Hrow. destruct (Hrows t) as [(db & Hr) _]. rewrite Hr in Hrow.
    apply list_elem_of_fmap in Hrow as (r & -> & Hr'). by exists db, r. }
  split_and!.
  - intros row (db & r & -> & _)%(Hin TAccounts). apply account_export_has_no_ciphertext.
  - intros row (db & r & -> & _)%(Hin TVirtualKeys). apply virtual_key_removed.
  - intros t row Ha Hk (db & r & -> & Hr)%Hin. destruct t; cbn [export_row]; try done; try apply sanitized_json_is_clean.
    destruct (source_columns _ _ Hr). by apply sanitize_source_clean.
Qed.
End Exports.

(** ** Restores *)

Section Restores.
Context `{ErrorTexts} `{ControlEnv} `{BuildCfg} `{UrlCrates} `{Collation} `{UrlEdit} `{SnapshotJson} `{SerdeJson}
  `{Sha256} `{RowJson} {env : OpsEnv BackupDb}.

(** What every insert preserves, the restore of the tables preserves. *)
Lemma restore_tables_preserve (P : BackupDb -> Prop) export tables db x db' :
  (forall t row db db', t ∈ tables -> row ∈ export_rows export t -> P db ->
     insert_row t (restore_row t row) db = Ok db' -> P db') ->
  P db -> restore_tables export tables db = Ok (x, db') -> P db'.
Proof.
  assert (forall t rows db x db', (forall row db db', row ∈ rows -> P db -> insert_row t (restore_row t row) db = Ok db' -> P db') ->
    P db -> restore_table t rows db = Ok (x, db') -> P db') as Htable.
  { intros t rows. induction rows as [|row rows IH]; intros d y d' Hi Hd; cbn [restore_table]; [by intros [= _ <-]|].
    destruct (insert_row t (restore_row t row) d) as [d1|] eqn:E; [|done]. apply IH.
    - intros r ??? . apply Hi. by right.
    - eapply Hi; [by left|exact Hd|exact E]. }
  revert db x. induction tables as [|t tables IH]; intros db x Hi Hd; cbn [restore_tables]; [by intros [= _ <-]|].
  intros ([] & d1 & Hd1 & Hd2)%tx_bind_inv.
  eapply (IH d1); [|by eapply Htable; [|exact Hd|exact Hd1]; intros; eapply Hi; [left|..]|exact Hd2].
  intros t' ??? Ht'. apply Hi. by right.
Qed.

(** The result of the transaction, step by step. *)
Lemma restore_rows_inv self export replace op actor now db snapshot skipped db' :
  restore_rows_tx self export replace op actor now db = Ok ((snapshot, skipped), db') ->
  exists db1 db2 db3, (control_rows (bk_control db) = 0%nat \/ replace = true)
    /\ db1 = (if replace then clear_control_plane db else db)
    /\ restore_tables export restore_order db1 = Ok (tt, db2)
    /\ db3 = reset_sequences (with_control (set_revision (bk_control db2) (rs_revision (ex_runtime_snapshot export))
                                (rs_generated_at (ex_runtime_snapshot export))) db2)
    /\ load_snapshot self (bk_control db3) = Ok snapshot
    /\ runtime_snapshot_fingerprint snapshot = Ok (rs_fingerprint (ex_runtime_snapshot export))
    /\ bk_control db' = bk_control db3 /\ bk_keys db' = bk_keys db3
    /\ 0 <= rs_revision (ex_runtime_snapshot export).
Proof.
  intros (ne & d & [= <- <-] & (u & d0 & Hne & (? & db1 & [= _ <-] & (u2 & db2 & Hres & (? & d3 & Hst &
    (? & d4 & [= _ <-] & (r & d5 & [= <- <-] & (snap & d6 & [Hl ->]%tx_of_inv & (fp & d7 & [Hfp ->]%tx_of_inv &
    (? & d8 & Hcmp & (? & d9 & Ha & [= <- <- <-])%tx_bind_inv)%tx_bind_inv)%tx_bind_inv)%tx_bind_inv)%tx_bind_inv)%tx_bind_inv)
    %tx_bind_inv)%tx_bind_inv)%tx_bind_inv)%tx_bind_inv)%tx_bind_inv.
  unfold restore_snapshot_state in Hst. destruct (Z.ltb_spec (rs_revision (ex_runtime_snapshot export)) 0) as [|Hrev]; [done|].
  injection Hst as _ <-. destruct (fp =?s _) eqn:Ef; cbn in Hcmp; [|done]. injection Hcmp as _ <-.
  apply String.eqb_eq in Ef as ->.
  assert (d0 = db) as -> by (destruct (negb _ && negb replace); [done|by injection Hne]).
  do 3 eexists. split.
  { destruct (Nat.eqb_spec (control_rows (bk_control db)) 0) as [Hz|Hz]; [by left|]. destruct replace; [by right|done]. }
  unfold tx_write in *. destruct u2. split; [reflexivity|].
  split; [destruct replace; exact Hres|]. split; [reflexivity|]. split.
  { unfold map_err in Hl. by destruct (load_snapshot _ _); [injection Hl as ->|]. }
  split; [done|]. unfold backup_audit_tx, on_ops in Ha. destruct (append_audit_tx _ _ _ _ _ _ _ _ _) as [[y o]|]; [|done].
  by injection Ha as _ <-.
Qed.

Lemma restored_revision self export replace op actor now db snapshot skipped db' :
  restore_rows_tx self export replace op actor now db = Ok ((snapshot, skipped), db') ->
  load_snapshot self (bk_control db') = Ok snapshot
  /\ runtime_snapshot_fingerprint snapshot = Ok (rs_fingerprint (ex_runtime_snapshot export))
  /\ ss_revision snapshot = rs_revision (ex_runtime_snapshot export).
Proof.
  intros (db1 & db2 & db3 & _ & -> & _ & -> & Hl & Hfp & Hc & _ & _)%restore_rows_inv. rewrite Hc.
  split_and!; [done|done|]. unfold load_snapshot in Hl. destruct (validate_all _ _); cbn [rbind] in Hl; [|done].
  unfold build_from, build_snapshot in Hl. destruct (bd_errors _) in Hl; [|done]. cbn [map_err] in Hl. by injection Hl as <-.
Qed.

(** The accounts of the cleared tables. *)
Lemma without_accounts_none ids : forall c id,
  id ∈ ids \/ db_accounts c !! id = None -> db_accounts (fold_left without_account ids c) !! id = None.
Proof.
  induction ids as [|i ids IH]; intros c id Hid; cbn [fold_left]; [by destruct Hid as [?%elem_of_nil|]|].
  apply IH. destruct (decide (id = i)) as [->|Hne].
  - right. unfold db_accounts, without_account. cbn. apply lookup_delete_eq.
  - destruct Hid as [[?|?]%elem_of_cons|Hn]; [done|by left|]. right. unfold db_accounts, without_account in *. cbn.
    by rewrite lookup_delete_ne.
Qed.

Lemma without_sources_none ids : forall c id,
  db_accounts c !! id = None -> db_accounts (fold_left without_source ids c) !! id = None.
Proof.
  induction ids as [|i ids IH]; intros c id Hn; cbn [fold_left]; [done|]. apply IH.
  unfold db_accounts, without_source, catalog_without_source in *. cbn. by apply map_lookup_filter_None; left.
Qed.

Lemma cleared_accounts db id : db_accounts (bk_control (clear_control_plane db)) !! id = None.
Proof.
  unfold clear_control_plane. cbn [with_providers with_control bk_control]. unfold delete_sources.
  apply without_sources_none. unfold delete_accounts. apply without_accounts_none.
  match goal with |- _ \/ db_accounts ?c !! id = None => destruct (db_accounts c !! id) as [a|] eqn:E end; [|by right].
  left. apply elem_of_map_to_list in E. by apply (list_elem_of_fmap_2 fst) in E.
Qed.

Lemma hm_get_bt_insert {V} (m : list (string * V)) k v : hm_get (bt_insert m k v) k = Some v.
Proof.
  induction m as [|[i w] m IH]; cbn [bt_insert].
  - by rewrite hm_get_cons, bool_decide_eq_true_2.
  - destruct (kcmp k i) eqn:E; rewrite hm_get_cons; [by rewrite bool_decide_eq_true_2..|].
    rewrite bool_decide_eq_false_2; [done|]. intros ->. by rewrite kcmp_refl in E.
Qed.

Lemma restored_account_ciphertext row :
  is_object row = true -> get (restore_row TAccounts row) "credential_ciphertext" = Some VNull.
Proof.
  destruct row as [| | | | |m]; try done. intros _. cbn [restore_row sanitize_json on_object].
  set (object := bt_insert _ "credential_ciphertext" VNull).
  assert (hm_get object "credential_ciphertext" = Some VNull) as Ho by apply hm_get_bt_insert.
  destruct (hm_get object "credential_env") as [[]|]; cbn [get]; try done. by rewrite hm_get_remove_other.
Qed.

Lemma validated_rows_are_objects export t row :
  validate_export_shape export = Ok tt -> row ∈ export_rows export t -> is_object row = true.
Proof.
  unfold validate_export_shape. destruct (_ || _); [done|]. destruct (negb _); [done|]. destruct (_ || _); [done|].
  destruct (_ || _); [done|]. intros Hv.
  assert (forall tables rows row, validate_tables tables = Ok tt -> rows ∈ tables -> row ∈ rows -> is_object row = true) as Hall.
  { clear. induction tables as [|r tables IH]; intros rows row; cbn [validate_tables]; [by intros _ ?%elem_of_nil|].
    destruct (_ <? _); [done|]. destruct (validate_rows r) as [[]|] eqn:Er; cbn [rbind]; [|done].
    intros Ht [->|Hin]%elem_of_cons; [|by apply IH]. clear IH Ht. revert row Er.
    induction r as [|x r IH]; intros row; cbn [validate_rows]; [by intros _ ?%elem_of_nil|].
    destruct (is_object x) eqn:Ex; cbn [negb]; [|done].
    destruct (reject_plaintext_secret_fields x) as [[]|]; cbn [rbind]; [|done].
    intros Hr [->|Hin]%elem_of_cons; [done|by apply IH]. }
  apply (Hall _ _ _ Hv). apply list_elem_of_fmap. exists t. split; [done|]. unfold export_tables.
  destruct t; repeat constructor.
Qed.

Lemma skipped_keys rows n : fold_left (fun skipped (_ : Value) => skipped + 1) rows n = n + Z.of_nat (length rows).
Proof. revert n. induction rows as [|r rows IH]; intros n; cbn [fold_left length]; [lia|]. rewrite IH. lia. Qed.

(** A restore brings in no credential: afterwards no account of the
    control plane has ciphertext, whatever a hand-edited export holds, and the
    virtual keys of the database are what they were, the exported ones being
    counted and skipped. *)
Theorem restores_bring_no_credentials `{!RowJsonLaws} self export replace op actor now db snapshot skipped db' :
  validate_export_shape export = Ok tt ->
  restore_rows_tx self export replace op actor now db = Ok ((snapshot, skipped), db') ->
  (forall id a, db_accounts (bk_control db') !! id = Some a -> ax_credential_ciphertext a = None)
  /\ bk_keys db' = bk_keys db /\ skipped = Z.of_nat (length (ex_virtual_keys export)).
Proof.
  intros Hv Hr. assert (skipped = restore_virtual_keys (ex_virtual_keys export)) as ->.
  { unfold restore_rows_tx in Hr. repeat (apply tx_bind_inv in Hr as (? & ? & _ & Hr)). by injection Hr as _ <- _. }
  apply restore_rows_inv in Hr as (db1 & db2 & db3 & He & Hd1 & Hres & Hd3 & _ & _ & Hc & Hk & _).
  assert (forall id, db_accounts (bk_control db1) !! id = None) as Hempty.
  { intros id. subst db1. destruct replace; [apply cleared_accounts|]. destruct He as [Hz|]; [|done].
    unfold control_rows in Hz. assert (base.size (db_accounts (bk_control db)) = 0%nat) as Hs by lia.
    apply map_size_empty_inv in Hs. by rewrite Hs. }
  assert ((forall id a, db_accounts (bk_control db2) !! id = Some a -> ax_credential_ciphertext a = None)
    /\ bk_keys db2 = bk_keys db) as [Ha Hkeys].
  { eapply (restore_tables_preserve (fun d => (forall id a, db_accounts (bk_control d) !! id = Some a -> ax_credential_ciphertext a = None)
      /\ bk_keys d = bk_keys db)); [|split|exact Hres].
    - intros t row d d' _ Hrow [Ha Hkd] Hi. split; [|by rewrite (insert_keeps_keys _ _ _ _ Hi)].
      intros id a Hid. destruct (decide (t = TAccounts)) as [->|Hne].
      + eapply insert_accounts in Hid as [Hid|?]; [by eapply Ha|done|exact Hi|].
        apply restored_account_ciphertext. by eapply validated_rows_are_objects.
      + rewrite (insert_others _ _ _ _ Hi Hne) in Hid. by eapply Ha.
    - intros id a Hid. by rewrite Hempty in Hid.
    - subst db1. by destruct replace. }
  subst db3. split_and!.
  - rewrite Hc. exact Ha.
  - rewrite Hk. exact Hkeys.
  - unfold restore_virtual_keys. rewrite skipped_keys. lia.
Qed.

Context (export_to_value : ControlPlaneExport -> Value).

(** The control plane is the one before, or one verified against the export. *)
Definition restored (self : ControlPlane) (export : ControlPlaneExport) (c : ControlDb) : Prop :=
  exists snapshot, load_snapshot self c = Ok snapshot
    /\ runtime_snapshot_fingerprint snapshot = Ok (rs_fingerprint (ex_runtime_snapshot export))
    /\ ss_revision snapshot = rs_revision (ex_runtime_snapshot export).

Definition same_or_restored self export (d d' : BackupDb) : Prop :=
  bk_control d' = bk_control d \/ restored self export (bk_control d').

#[local] Instance same_or_restored_preorder self export : PreOrder (same_or_restored self export).
Proof.
  split; [by left|]. unfold same_or_restored. intros d1 d2 d3 H12 [->|H23]; [exact H12|by right].
Qed.

Section AllOrNothing.
Context (self : ControlPlane) (export : ControlPlaneExport).
Hypothesis others : forall k d, same_or_restored self export d (op_others k d).

Abbreviation R := (same_or_restored self export).

Lemma backup_read {A} (f : BackupDb -> A) : keeps R (o_read f).
Proof. apply keeps_read; [typeclasses eauto|exact others]. Qed.

Lemma backup_bind {A B} (m : Om BackupDb A) (f : A -> Om BackupDb B) :
  keeps R m -> (forall x, keeps R (f x)) -> keeps R (o_bind m f).
Proof. intros Hm Hf. by apply keeps_bind; [typeclasses eauto| |]. Qed.

Lemma backup_step {A} (tx : Z -> Bx A) :
  (forall now d x d', tx now d = Ok (x, d') -> R d d') -> keeps R (o_tx tx).
Proof. intros Htx. by apply keeps_tx; [typeclasses eauto|exact others|]. Qed.

Lemma keeps_audit op action status actor details code message :
  keeps R (backup_audit op action status actor details code message).
Proof.
  apply backup_step. intros now d x d'. unfold backup_audit_tx, on_ops.
  destruct (append_audit_tx _ _ _ _ _ _ _ _ _) as [[y o]|]; [|done]. intros [= _ <-]. by left.
Qed.

Lemma keeps_update id f : keeps R (o_write (fun now => update_backup id (f now))).
Proof.
  apply backup_step. intros now d x d' [= _ <-]. unfold update_backup. destruct (bk_runs d !! id); by left.
Qed.

Ltac job :=
  repeat first
    [ apply backup_bind; [|intros ?]
    | apply keeps_try | apply keeps_of; typeclasses eauto | apply keeps_ret; typeclasses eauto
    | apply keeps_ask; typeclasses eauto | apply backup_read | apply keeps_audit | apply keeps_update
    | match goal with |- keeps _ (if ?b then _ else _) => destruct b end ].

Lemma keeps_mark_failed id error : keeps R (mark_backup_failed id error).
Proof. unfold mark_backup_failed. job. Qed.

Lemma keeps_insert_backup id operation actor metadata : keeps R (o_tx (insert_backup id operation actor metadata)).
Proof.
  apply backup_step. intros now d x d'. unfold insert_backup. destruct (bk_runs d !! id); [done|]. intros [= _ <-]. by left.
Qed.

(** C14. A restore is all or nothing: whether it succeeds or fails, and
    wherever the database fails, the control plane it leaves is the one that was
    there or one whose snapshot loads, has the exported fingerprint and carries
    the exported revision. *)
Theorem restore_is_all_or_nothing replace requested_by s :
  same_or_restored self export (op_db s)
    (op_db (restore_control_plane export_to_value self export replace requested_by s).2).
Proof.
  assert (keeps R (restore_control_plane export_to_value self export replace requested_by)) as Hk; [|apply Hk].
  unfold restore_control_plane, schema_metadata. apply backup_bind; [job|intros _].
  apply backup_bind; [job|intros metadata]. destruct (_ || _); [job|]. apply backup_bind; [job|intros id].
  apply backup_bind; [apply keeps_insert_backup|intros _]. apply backup_bind.
  { apply keeps_try, backup_step. intros now d [snapshot skipped] d' Hr%restored_revision. right. by exists snapshot. }
  intros [[snapshot skipped]|error]; [|apply backup_bind; [apply keeps_mark_failed|intros _; job]].
  apply backup_bind; [job|intros fingerprint]. destruct (negb _); [|job].
  apply backup_bind; [apply keeps_mark_failed|intros _; job].
Qed.
End AllOrNothing.

(** What a restore hands to the caller. *)
Lemma restore_result self export replace requested_by s result s' :
  restore_control_plane export_to_value self export replace requested_by s = (Ok result, s') ->
  ss_revision (rr_snapshot result) = rs_revision (ex_runtime_snapshot export).
Proof.
  unfold restore_control_plane. intros (? & s1 & _ & (metadata & s2 & _ & Hr)%o_bind_inv)%o_bind_inv.
  destruct (_ || _); [by apply o_of_inv in Hr as [? _]|].
  apply o_bind_inv in Hr as (id & s3 & _ & (? & s4 & _ & (restored & s5 & Htry & Hr)%o_bind_inv)%o_bind_inv).
  unfold o_try in Htry. destruct (o_tx _ _) as [o s6] eqn:Ho. injection Htry as <- <-.
  destruct o as [[snapshot skipped]|error].
  2:{ by apply o_bind_inv in Hr as (? & ? & _ & [? _]%o_of_inv). }
  apply o_tx_inv in Ho as (now & d & (_ & _ & Hrev)%restored_revision).
  apply o_bind_inv in Hr as (fp & s7 & _ & Hr). destruct (negb _).
  { by apply o_bind_inv in Hr as (? & ? & _ & [? _]%o_of_inv). }
  apply o_bind_inv in Hr as (? & ? & _ & (? & ? & _ & (? & ? & _ & [= <- _])%o_bind_inv)%o_bind_inv). exact Hrev.
Qed.

(** A restore of an older export is verified and committed, but the live
    configuration ignores it: its revision is behind the one already live. *)
Theorem older_export_is_not_published self export replace requested_by s result s' live :
  restore_control_plane export_to_value self export replace requested_by s = (Ok result, s') ->
  rs_revision (ex_runtime_snapshot export) < ss_revision live -> publish_restored live result = live.
Proof.
  intros Hr%restore_result Hlt. unfold publish_restored, reload_snapshot.
  by rewrite (proj2 (Z.leb_gt _ _)) by lia.
Qed.
End Restores.

(** ** Examples *)

Definition account_json (kv : string * AccountRow) : Value :=
  VObject [("credential_ciphertext", opt_str (ax_credential_ciphertext kv.2));
           ("credential_env", opt_str (ax_credential_env kv.2)); ("id", VString kv.1)].
Definition example_key_row : Value :=
  VObject [("id", of_i64 1); ("key_ciphertext", VString "sealed"); ("key_hash", VString "hash")].
Definition example_source_row : Value :=
  VObject [("auth_config", VObject [("x-api-key", VString "sk-0123456789abcdef")]); ("id", VString "a")].

Definition example_json : RowJson :=
  {| select_rows t db :=
       match t with
       | TAccounts => map account_json (map_to_list (db_accounts (bk_control db)))
       | TVirtualKeys => [example_key_row]
       | TSources => [example_source_row]
       | _ => []
       end;
     insert_row t row db :=
       match t, get row "id" ≫= as_str with
       | TAccounts, Some id =>
           Ok (with_control (set_accounts (bk_control db) (<[id :=
             mkAccountRow "a" "A" (get row "credential_env" ≫= as_str) (get row "credential_ciphertext" ≫= as_str) true 1
               (mkHealthColumns "unknown" "unknown" None 0 None None None None None None None) 0 0]> (db_accounts (bk_control db)))) db)
       | _, _ => Ok db
       end |}.

Lemma example_json_laws : @RowJsonLaws example_json.
Proof.
  split; cbn.
  - intros t db row. destruct t; try by intros ?%elem_of_nil.
    + by intros ->%list_elem_of_singleton.
    + by intros (kv & -> & _)%list_elem_of_fmap.
    + by intros ->%list_elem_of_singleton.
  - intros db row (kv & -> & _)%list_elem_of_fmap. cbn. by destruct (ax_credential_env kv.2).
  - by intros db row ->%list_elem_of_singleton.
  - by intros db row ->%list_elem_of_singleton.
  - intros row db db' id a Hi Hc. destruct (get row "id" ≫= as_str) as [i|]; injection Hi as <-; [|by left].
    cbn. intros [[_ <-]|[_ Ha]]%lookup_insert_Some; [right|by left]. cbn. by rewrite Hc.
  - intros t row db db' Hi Hne. destruct t; try done; by injection Hi as <-.
  - intros t row db db' Hi. destruct t, (get row "id" ≫= as_str); by injection Hi as <-.
Qed.

Section Examples.
Local Existing Instances example_errors example_control_env json_concrete example_json example_edit example_urls.
#[local] Instance backup_build : BuildCfg := false.
#[local] Instance backup_collation : Collation := str_cmp.
#[local] Instance backup_sha : Sha256 := fun _ => "0123456789abcdef0123456789abcdef".
#[local] Instance backup_snapshot : SnapshotJson :=
  {| config_to_value c := Some (VObject [("listen_addr", VString "here")]);
     models_to_value m := VArray []; effective_to_value c := VNull |}.
#[local] Instance backup_env : OpsEnv BackupDb :=
  {| op_now k := Z.of_nat k; op_uuid k := "backup"; op_others k d := d; op_fault k := None |}.

(** One account with ciphertext, no source that could be routed. *)
Definition example_control : ControlDb :=
  mkControlDb (mkCatalogDb ∅ ∅ ∅ {[ "ka" := mkAccountRow "a" "A" None (Some "sealed") true 1
      (mkHealthColumns "unknown" "unknown" None 0 None None None None None None None) 0 0 ]} ∅ ∅ [] [])
    ∅ ∅ ∅ [] 0 7 0.
Definition empty_retention : RetentionDb := mkRetentionDb ∅ ∅ ∅ ∅ ∅ 0 ∅ ∅ ∅ ∅.
Definition example_backup : BackupDb :=
  mkBackupDb (Some (mkSchemaMetadata 28 28)) example_control [] [example_key_row] empty_retention ∅.

Definition example_export : result ControlPlaneExport OpsError :=
  (build_control_plane_export example_plane (mkSchemaMetadata 28 28) (mkOpsState 0 example_backup)).1.

Example example_exported_account :
  (ex_accounts <$> rok example_export)
  = Some [VObject [("credential", VObject [("kind", VString "redacted")]); ("credential_env", VNull); ("id", VString "ka")]].
Proof. vm_compute. reflexivity. Qed.

(** An account without any credential is exported like an encrypted one: the
    sanitizer has already turned the [NULL] into a text. *)
Example account_without_credential_is_redacted :
  get (export_account_row (VObject [("credential_ciphertext", VNull); ("credential_env", VNull); ("id", VString "k")]))
    "credential" = Some (VObject [("kind", VString "redacted")]).
Proof. vm_compute. reflexivity. Qed.

Definition example_exported : ControlPlaneExport :=
  Eval vm_compute in
    match example_export with
    | Ok e => e
    | Err _ => mkExport "" 0 0 "" 0 0 VNull (mkSnapshotMetadata 0 0 "") VNull [] [] [] [] [] [] [] [] [] [] []
    end.

Definition example_job : Om BackupDb ControlPlaneExport :=
  build_control_plane_export example_plane (mkSchemaMetadata 28 28).

Lemma example_export_ok : exists s, example_job (mkOpsState 0 example_backup) = (Ok example_exported, s).
Proof. eexists. vm_compute. reflexivity. Qed.

Lemma exports_are_importable_witness : validate_export_shape example_exported = Ok tt.
Proof.
  destruct example_export_ok as [s E].
  exact (exports_are_importable (H9 := example_json_laws) example_plane (mkSchemaMetadata 28 28)
    (mkOpsState 0 example_backup) example_exported s (fun _ => eq_refl) eq_refl eq_refl E).
Defined.

Lemma exports_carry_no_credentials_witness :
  (forall row, row ∈ ex_accounts example_exported -> get row "credential_ciphertext" = None)
  /\ clean (VObject [("auth_config", VObject [("x-api-key", VString REDACTED)]); ("id", VString "a")]).
Proof.
  destruct example_export_ok as [s E].
  destruct (exports_carry_no_credentials (H9 := example_edit_laws) (H10 := example_json_laws) example_plane
    (mkSchemaMetadata 28 28) (mkOpsState 0 example_backup) example_exported s E) as (Ha & _ & Hc).
  split; [exact Ha|]. apply (Hc TSources); [done|done|]. by left.
Defined.

Definition example_restore : result ((RuntimeSnapshot * Z) * BackupDb) OpsError :=
  restore_rows_tx example_plane example_exported true "backup" "operator" 1 example_backup.

Lemma restores_bring_no_credentials_witness :
  match example_restore with
  | Ok ((_, skipped), db') =>
      (forall id a, db_accounts (bk_control db') !! id = Some a -> ax_credential_ciphertext a = None)
      /\ bk_keys db' = [example_key_row] /\ skipped = 1
  | Err _ => False
  end.
Proof.
  assert (is_ok example_restore = true) as Hok by (vm_compute; reflexivity).
  destruct example_restore as [[[snapshot skipped] db']|error] eqn:Er; [|discriminate Hok].
  exact (restores_bring_no_credentials (H9 := example_json_laws) example_plane example_exported true "backup"
    "operator" 1 example_backup snapshot skipped db' ltac:(vm_compute; reflexivity) Er).
Defined.

Lemma restore_is_all_or_nothing_witness :
  same_or_restored example_plane example_exported example_backup
    (op_db (restore_control_plane (fun _ => VNull) example_plane example_exported true "operator"
      (mkOpsState 0 example_backup)).2).
Proof.
  exact (restore_is_all_or_nothing (fun _ => VNull) example_plane example_exported
    (fun k d => or_introl eq_refl) true "operator" (mkOpsState 0 example_backup)).
Defined.
End Examples.
