(* ===== verification/World.v ===== *)
(** * Effects of the data plane

    The code of [src/src/proxy] is [async] and talks to clocks, the database, the
    network and the random part of the system time.  An effect is a function
    of the [World]; what the environment answers is a parameter ([Env]),
    indexed by the number of effects performed so far, so a theorem quantifies
    over every behaviour of the upstreams, the clocks and the database.  The
    world keeps the state the gateway owns: the health registry, and a log of
    what was sent, slept and written. *)

From Stdlib Require Import ZArith Lia.
From stdpp Require Import base list strings.
From S2P Require Import Prelude.
From S2P Require Import RustStr.
From S2P Require Import SourceUrl.
From S2P Require Import Protocol.
From S2P Require Import Config.
From S2P Require Import Health.
From S2P Require Import Json.
From S2P Require Import Usage.
From S2P Require Import Stream.
From S2P Require Import Accounting.
From S2P Require Import Http.
From S2P Require Import VirtualKeys.
From S2P Require Import Secrets.

(** The kinds of [reqwest::Error] the gateway tells apart. *)
Inductive ReqwestError : Type := PolicyViolation | RequestTimedOut | OtherError.

Record UpstreamRequest : Type := mkUpstreamRequest {
  uq_url : string;
  uq_headers : HeaderMap;
  uq_body : string;
}.

Record UpstreamResponse : Type := mkUpstreamResponse {
  up_status : Z;
  up_headers : HeaderMap;
  up_stream : Z;                (** identifies the live body *)
}.

Class Env : Type := {
  env_utc : nat -> Z;                                      (** [chrono::Utc::now()] *)
  env_instant : nat -> Z;                                  (** [Instant::now()] *)
  env_subsec_nanos : nat -> Z;                             (** of [SystemTime::now()] *)
  env_fault : nat -> option DbFault;                       (** of a health query *)
  env_usage_fault : nat -> option DbFault;                 (** of a usage write *)
  env_auth_fault : nat -> option DbFault;                  (** of a key query *)
  env_crates : UrlCrates;
  env_policy : SourceUrlPolicy;                            (** of the HTTP client *)
  env_send : nat -> UpstreamRequest -> result UpstreamResponse ReqwestError;
  env_bytes : nat -> UpstreamResponse -> result string ReqwestError;
  env_elapsed : nat -> bool;                               (** a [timeout] fires first *)
  env_crypto : Crypto;
  env_secrets : SecretResolver;                            (** of the process *)
  env_var : string -> option string;                       (** [std::env::var] *)
  (** [DateTime::parse_from_rfc2822], as nanoseconds since the epoch. *)
  env_parse_rfc2822 : string -> option Z;
}.

#[export] Existing Instance env_crates.
#[export] Existing Instance env_crypto.

(** A streamed response whose usage is written when its body ends
    ([wrap_stream_usage]). *)
Record PendingStream : Type := mkPendingStream {
  ps_event : UsageEvent;
  ps_attempts : list UsageAttempt;
  ps_request_body : string;
  ps_request_started : Z;
}.

Record World : Type := mkWorld {
  w_tick : nat;
  w_health : HealthRegistry;
  w_keys : KeyTable;
  w_usage : UsageTables;
  w_streams : list PendingStream;
  w_sent : list UpstreamRequest;
  w_slept : list Z;
  w_credential_failures : list string;       (** accounts of recorded security events *)
}.

Definition M (A : Type) : Type := World -> A * World.
Definition ret {A} (x : A) : M A := fun w => (x, w).
Definition bind {A B} (m : M A) (f : A -> M B) : M B := fun w => let '(x, w') := m w in f x w'.
Notation "'let!' x ':=' m 'in' k" := (bind m (fun x => k))
  (at level 10, x name, m at level 100, k at level 200) : gw_scope.

(** Every effect takes the next answer of the environment. *)
Definition ask {A} (f : nat -> A) : M A := fun w =>
  (f (w_tick w), mkWorld (S (w_tick w)) (w_health w) (w_keys w) (w_usage w) (w_streams w)
                   (w_sent w) (w_slept w) (w_credential_failures w)).

Definition get_world : M World := fun w => (w, w).
Definition put_health (h : HealthRegistry) : M unit := fun w =>
  (tt, mkWorld (w_tick w) h (w_keys w) (w_usage w) (w_streams w) (w_sent w) (w_slept w)
         (w_credential_failures w)).
Definition put_keys (t : KeyTable) : M unit := fun w =>
  (tt, mkWorld (w_tick w) (w_health w) t (w_usage w) (w_streams w) (w_sent w) (w_slept w)
         (w_credential_failures w)).
Definition put_usage (t : UsageTables) : M unit := fun w =>
  (tt, mkWorld (w_tick w) (w_health w) (w_keys w) t (w_streams w) (w_sent w) (w_slept w)
         (w_credential_failures w)).
Definition log_stream (p : PendingStream) : M unit := fun w =>
  (tt, mkWorld (w_tick w) (w_health w) (w_keys w) (w_usage w) (w_streams w ++ [p]) (w_sent w)
         (w_slept w) (w_credential_failures w)).
Definition log_sent (r : UpstreamRequest) : M unit := fun w =>
  (tt, mkWorld (w_tick w) (w_health w) (w_keys w) (w_usage w) (w_streams w) (w_sent w ++ [r])
         (w_slept w) (w_credential_failures w)).
Definition sleep (d : Z) : M unit := fun w =>
  (tt, mkWorld (w_tick w) (w_health w) (w_keys w) (w_usage w) (w_streams w) (w_sent w)
         (w_slept w ++ [d]) (w_credential_failures w)).
Definition log_credential_failure (account_id : string) : M unit := fun w =>
  (tt, mkWorld (w_tick w) (w_health w) (w_keys w) (w_usage w) (w_streams w) (w_sent w) (w_slept w)
         (w_credential_failures w ++ [account_id])).

Section Effects.
Context `{Env} `{Chrono} `{PgTime}.

Definition utc_now : M Z := ask env_utc.
Definition instant_now : M Z := ask env_instant.

(** The health operations of [src/src/infra/health.rs] at the next instant. *)
Definition health_is_available (account_id : string) : M bool :=
  let! fault := ask env_fault in let! now := utc_now in let! w := get_world in
  ret (is_available (w_health w) fault now account_id).

Definition health_get (account_id : string) : M AccountHealth :=
  let! fault := ask env_fault in let! now := utc_now in let! w := get_world in
  ret (get_health (w_health w) fault now account_id).

Definition health_mark_failure (account_id code message : string) : M bool :=
  let! fault := ask env_fault in let! now := utc_now in let! w := get_world in
  let '(started, h) := mark_failure_with_details (w_health w) fault now account_id "passive"
                         (Some code) (Some message) in
  let! _ := put_health h in ret started.

Definition health_mark_success (account_id : string) : M unit :=
  let! fault := ask env_fault in let! now := utc_now in let! w := get_world in
  put_health (mark_success (w_health w) fault now account_id).
End Effects.

(** An environment for examples: the clocks stand still, nothing fails, a
    credential variable holds its own name, and the upstreams answer with [send]. *)
Definition calm_env (now : Z) (send : UpstreamRequest -> result UpstreamResponse ReqwestError)
    (bytes : UpstreamResponse -> string) : Env := {|
  env_utc _ := now;
  env_instant _ := now;
  env_subsec_nanos _ := 0;
  env_fault _ := None;
  env_usage_fault _ := None;
  env_auth_fault _ := None;
  env_crates := example_crates;
  env_policy := example_policy;
  env_send _ := send;
  env_bytes _ up := Ok (bytes up);
  env_elapsed _ := false;
  env_crypto := mock_crypto;
  env_secrets := mock_resolver;
  env_var name := if starts_with name "GATEWAY_" then None else Some name;
  env_parse_rfc2822 _ := None;
|}.
