(* ===== verification/Auth.v ===== *)
(** * Identities: [src/src/auth.rs] and [src/src/proxy/attribution.rs]

    The admin key, the data-plane authorization by static key or virtual key,
    and the client a request is attributed to. *)

From Stdlib Require Import ZArith Lia Ascii.
From stdpp Require Import base list strings gmap.
From S2P Require Import Prelude.
From S2P Require Import RustStr.
From S2P Require Import Protocol.
From S2P Require Import Config.
From S2P Require Import Health.
From S2P Require Import Json.
From S2P Require Import Usage.
From S2P Require Import Accounting.
From S2P Require Import Http.
From S2P Require Import VirtualKeys.
From S2P Require Import World.

(** [supplied_key]. *)
Definition supplied_key (headers : HeaderMap) : option string :=
  opt_or ((header_get headers "authorization" ≫= to_str) ≫= strip_prefix "Bearer ")
    (header_get headers "x-api-key" ≫= to_str).

Record AdminAuth : Type := mkAdminAuth { aa_key_digest : option string }.

Inductive AuthIdentity : Type :=
| StaticApiKey
| VirtualKey (id : Z) (name prefix : string).

(** [AuthIdentity::virtual_key_id]. *)
Definition virtual_key_id (self : AuthIdentity) : option Z :=
  match self with VirtualKey id _ _ => Some id | StaticApiKey => None end.

Definition default_client_source (self : AuthIdentity) : string :=
  match self with
  | StaticApiKey => "static_api_key"
  | VirtualKey _ name prefix => if is_empty name then prefix else name
  end.

Section Auth.
Context `{Sha256}.

Definition key_digest (key : string) : string := sha256 key.

(** [ct_eq] compares the digests in constant time. *)
Definition key_matches_digest (expected supplied : string) : bool :=
  expected =?s key_digest supplied.

Definition AdminAuth_from_key (key : option string) : AdminAuth :=
  mkAdminAuth (option_map key_digest key).

(** [from_env]; [admin_key] is the variable [GATEWAY_ADMIN_KEY]. *)
Definition AdminAuth_from_env (admin_key : option string) : AdminAuth :=
  AdminAuth_from_key (opt_filter (fun key => negb (is_empty key)) admin_key).

Definition is_configured (self : AdminAuth) : bool := is_some (aa_key_digest self).

(** [AdminAuth::authorized]. *)
Definition admin_authorized (self : AdminAuth) (headers : HeaderMap) : bool :=
  match aa_key_digest self, supplied_key headers with
  | Some expected, Some supplied => key_matches_digest expected supplied
  | _, _ => false
  end.

Context `{Env}.

(** [Database::authenticate_virtual_key_with_identity], where a failed
    transaction is an error, with or without its update. *)
Definition authenticate (raw : string) (model : option string)
    : M (option (Z * string * string)) :=
  let! fault := ask env_auth_fault in
  let! now := utc_now in
  let! w := get_world in
  if fails_before fault then ret None
  else
    let '(found, t) := authenticate_virtual_key (w_keys w) now raw model in
    let! _u := put_keys t in
    ret (if fails_after fault then None else found).

(** [authorized_with_db]; [api_key] is the variable [GATEWAY_API_KEY] and
    [database] tells whether there is one. *)
Definition authorized_with_db (api_key : option string) (database : bool) (headers : HeaderMap)
    (model : option string) : M (option AuthIdentity) :=
  let static_ok :=
    is_some_and api_key (fun expected =>
      is_some_and (supplied_key headers) (key_matches_digest (key_digest expected))) in
  if static_ok then ret (Some StaticApiKey)
  else if negb database then
    ret (if negb (is_some api_key) then Some StaticApiKey else None)
  else
    match supplied_key headers with
    | None => ret None
    | Some key =>
        let! found := authenticate key model in
        ret (option_map (fun k => let '(id, name, prefix) := k in VirtualKey id name prefix) found)
    end.
End Auth.

(** ** Client attribution *)

Definition KNOWN_CLIENT_USER_AGENTS : list (string * string) :=
  [("kimi-code-cli", "kimi-code-cli"); ("kimi-code", "kimi-code"); ("kimi_code", "kimi-code");
   ("codex_app_server_daemon", "codex-cli"); ("codex_cli_rs", "codex-cli");
   ("AsyncAnthropic/", "anthropic-sdk"); ("Anthropic/", "anthropic-sdk");
   ("AsyncOpenAI/", "openai-sdk"); ("OpenAI/", "openai-sdk")].

Definition known_client_user_agent (user_agent : string) : option string :=
  let head := match split_once "("%char user_agent with Some (h, _) => h | None => user_agent end in
  match split_whitespace_next head with
  | None => None
  | Some token =>
      let product := trim_end_matches "/"%char token in
      if is_empty product then None
      else option_map snd (List.find (fun entry => (product =?s fst entry)
                                        || starts_with product (fst entry)) KNOWN_CLIENT_USER_AGENTS)
  end.

(** A header of visible text, trimmed and not empty. *)
Definition text_header (headers : HeaderMap) (name : string) : option string :=
  opt_filter (fun value => negb (is_empty value)) (option_map trim (header_get headers name ≫= to_str)).

Definition client_source_from_headers (headers : HeaderMap) (auth : option AuthIdentity) : string :=
  match text_header headers "x-client-source" with
  | Some value => value
  | None =>
      match auth with
      | Some identity => default_client_source identity
      | None =>
          unwrap_or (text_header headers "user-agent" ≫= known_client_user_agent) "unknown"
      end
  end.

Example kimi_user_agent : known_client_user_agent "kimi-code-cli/1.2 (web)" = Some "kimi-code-cli".
Proof. vm_compute. reflexivity. Qed.

(** ** Properties *)

Section AuthSpec.
Context `{Sha256} `{Env}.

(** What justifies an identity, given the keys at the time of the query. *)
Definition justified (api_key : option string) (database : bool) (headers : HeaderMap)
    (model : option string) (t : KeyTable) (now : Z) (identity : AuthIdentity) : Prop :=
  match identity with
  | StaticApiKey =>
      (exists expected supplied, api_key = Some expected /\ supplied_key headers = Some supplied
         /\ sha256 supplied = sha256 expected)
      \/ (database = false /\ api_key = None)
  | VirtualKey id name prefix =>
      database = true /\ exists raw row, supplied_key headers = Some raw
        /\ kt_rows t !! id = Some row /\ vk_key_hash row = hash_key raw
        /\ grants row model now /\ vk_name row = name /\ vk_key_prefix row = prefix
  end.

Definition static_match (api_key : option string) (headers : HeaderMap) : bool :=
  is_some_and api_key (fun expected =>
    is_some_and (supplied_key headers) (key_matches_digest (key_digest expected))).

Lemma static_match_spec api_key headers :
  static_match api_key headers = true <->
  exists expected supplied, api_key = Some expected /\ supplied_key headers = Some supplied
    /\ sha256 supplied = sha256 expected.
Proof.
  unfold static_match, key_matches_digest, key_digest. destruct api_key as [e|]; cbn;
    [destruct (supplied_key headers) as [s|]; cbn|]; split; try done.
  - intros E%String.eqb_eq. eauto.
  - intros (? & ? & [= <-] & [= <-] & E). by apply String.eqb_eq.
  - by intros (? & ? & _ & ? & _).
  - by intros (? & ? & ? & _).
Qed.

Lemma authorized_with_db_static api_key database headers model w :
  static_match api_key headers = true ->
  authorized_with_db api_key database headers model w = (Some StaticApiKey, w).
Proof. intros Hs. unfold authorized_with_db. fold (static_match api_key headers). by rewrite Hs. Qed.

Lemma authenticate_result raw model w :
  let '(r, w') := authenticate raw model w in
  w_sent w' = w_sent w
  /\ (forall k, r = Some k -> (authenticate_virtual_key (w_keys w) (env_utc (S (w_tick w))) raw model).1 = Some k)
  /\ (r = None -> env_auth_fault (w_tick w) = None ->
        (authenticate_virtual_key (w_keys w) (env_utc (S (w_tick w))) raw model).1 = None).
Proof.
  unfold authenticate, utc_now, ask, bind, get_world. cbn [w_tick w_keys].
  destruct (env_auth_fault (w_tick w)) as [[]|]; cbn [fails_before fails_after]; [done| |];
    destruct (authenticate_virtual_key _ _ raw model) as [found t]; cbn; by split_and!.
Qed.
End AuthSpec.

Lemma authorized_with_db_spec `{Sha256} `{Env} (api_key : option string) (database : bool)
    (headers : HeaderMap) (model : option string) (w : World)
    (Hok : table_ok (w_keys w)) :
  let '(r, w') := authorized_with_db api_key database headers model w in
  let allowed := justified api_key database headers model (w_keys w) (env_utc (S (w_tick w))) in
  w_sent w' = w_sent w
  /\ (forall identity, r = Some identity -> allowed identity)
  /\ (r = None -> env_auth_fault (w_tick w) = None -> forall identity, ~ allowed identity).
Proof.
  destruct (static_match api_key headers) eqn:Hs.
  { rewrite authorized_with_db_static by done. split_and!; try done. intros ? [= <-]. left.
    by apply static_match_spec. }
  assert (Hns : ~ exists expected supplied, api_key = Some expected
    /\ supplied_key headers = Some supplied /\ sha256 supplied = sha256 expected)
    by (rewrite <- static_match_spec; congruence).
  unfold authorized_with_db. fold (static_match api_key headers). rewrite Hs.
  destruct database; cbn [negb].
  - destruct (supplied_key headers) as [key|] eqn:Hk.
    + unfold bind. pose proof (authenticate_result key model w) as Ha.
      destruct (authenticate key model w) as [r w']. destruct Ha as (Hsent & Hsome & Hnone).
      split_and!; [done| |].
      * intros identity. destruct r as [[[id name] prefix]|]; cbn; [|done]. intros [= <-].
        specialize (Hsome _ eq_refl). apply authenticate_iff in Hsome as (row & Hrow); [|done].
        split; [done|]. exists key, row. rewrite grants_iff. destruct Hrow as (? & ? & ? & ? & ? & ? & ?). by split_and!.
      * intros Hr Hf. destruct r as [[[? ?] ?]|]; cbn in Hr; [done|].
        specialize (Hnone eq_refl Hf). intros [|id name prefix] Hj; cbn [justified] in Hj.
        -- destruct Hj as [?|[? _]]; [rewrite Hk in *; tauto|done].
        -- destruct Hj as (_ & raw & row & Hraw & Hrow). rewrite Hk in Hraw. injection Hraw as <-.
           assert (Hiff : (authenticate_virtual_key (w_keys w) (env_utc (S (w_tick w))) key model).1
             = Some (id, name, prefix)).
           { apply authenticate_iff; [done|]. exists row.
             rewrite grants_iff in Hrow. destruct Hrow as (? & ? & (? & ? & ?) & ? & ?). by split_and!. }
           congruence.
    + split_and!; try done. intros _ _ [|id name prefix] Hj; cbn [justified] in Hj.
      * destruct Hj as [(e & s & _ & Hsup & _)|[? _]]; congruence.
      * destruct Hj as (_ & raw & row & Hraw & _). congruence.
  - split_and!; [done| |].
    + destruct api_key; cbn; [done|]. intros ? [= <-]. by right.
    + destruct api_key; cbn; [|done]. intros _ _ [|id name prefix] Hj; cbn [justified] in Hj.
      * destruct Hj as [?|[_ ?]]; [tauto|done].
      * by destruct Hj as [? _].
Qed.

(** C23. Authorization is sound and complete.  An identity is only handed out
    for the static key, for an active virtual key (enabled, not revoked, not
    expired, not rotated out) whose models and scopes allow the request, or when
    the gateway has neither a database nor a static key; the digests are
    compared, not the keys.  If the key query does not fail, a request that is
    turned away has no such justification.  Nothing is sent upstream. *)
Theorem authorization_correct `{Sha256} `{Env} (api_key : option string) (database : bool)
    (headers : HeaderMap) (model : option string) (w : World)
    (Hok : table_ok (w_keys w)) :
  let '(r, w') := authorized_with_db api_key database headers model w in
  let allowed := justified api_key database headers model (w_keys w) (env_utc (S (w_tick w))) in
  w_sent w' = w_sent w
  /\ (forall identity, r = Some identity -> allowed identity)
  /\ (r = None -> env_auth_fault (w_tick w) = None -> forall identity, ~ allowed identity).
Proof. by apply authorized_with_db_spec. Qed.

Definition example_auth_world : World :=
  mkWorld 0 (mkHealthRegistry HealthConfig_default None ∅) example_table (mkUsageTables ∅ ∅) [] [] []
    [].
Definition example_auth_headers : HeaderMap := [("authorization", "Bearer gw_secret")].

Lemma authorization_correct_witness :
  let sha : Sha256 := fun s => s in
  let env := calm_env 0 (fun _ => Err OtherError) (fun _ => EmptyString) in
  let r := (authorized_with_db None true example_auth_headers (Some "m") example_auth_world).1 in
  r = Some (VirtualKey 1 "k" "gw_12345678")
  /\ justified None true example_auth_headers (Some "m") example_table 0
       (VirtualKey 1 "k" "gw_12345678").
Proof.
  intros sha env r. split; [vm_compute; reflexivity|].
  refine (proj1 (proj2 (@authorization_correct sha env None true example_auth_headers (Some "m")
            example_auth_world example_table_ok)) _ _).
  vm_compute. reflexivity.
Defined.
