(* ===== verification/RequestAudit.v ===== *)
(** * The request audit of the admin API: [src/src/infra/audit.rs]

    What is kept of an admin request: who asked, for what, and which fields the
    body had, but none of their values.  The row is one statement,
    [append_pool]; its table is in [AdminGate], with the middleware that writes
    it. *)

From Stdlib Require Import ZArith Lia Ascii.
From stdpp Require Import base list strings.
From S2P Require Import Prelude.
From S2P Require Import RustStr.
From S2P Require Import Json.
From S2P Require Import BTree.
From S2P Require Import Http.
From S2P Require Import Redaction.

Definition MAX_ACTOR_LEN : nat := 128.
Definition MAX_REQUEST_ID_LEN : nat := 128.
Definition MAX_RESOURCE_ID_LEN : nat := 256.
Definition MAX_DIFF_FIELDS : nat := 128.

Definition SENSITIVE_MARKERS : list string :=
  ["authorization"; "api_key"; "apikey"; "credential"; "ciphertext"; "secret"; "password"; "token"; "key_hash"; "prompt";
   "response"; "signature"; "thinking"; "body"].

Definition is_sensitive_key (key : string) : bool :=
  let key := to_ascii_lowercase key in existsb (contains_str key) SENSITIVE_MARKERS.

(** [http::Method]. *)
Inductive Method : Type := GET | POST | PUT | PATCH | DELETE | HEAD | OPTIONS | OtherMethod (name : string).

(** ** The summary of a body *)

Definition json_type (value : Value) : string :=
  match value with
  | VNull => "null"
  | VBool _ => "boolean"
  | VNumber _ => "number"
  | VString _ => "string"
  | VArray _ => "array"
  | VObject _ => "object"
  end.

Definition field_path (prefix key : string) : string := if is_empty prefix then key else prefix +:+ "." +:+ key.

Fixpoint collect_fields (value : Value) (prefix : string) (acc : Map * list string) {struct value} : Map * list string :=
  match value with
  | VObject object =>
      (fix each (object : Map) (acc : Map * list string) : Map * list string :=
         match object with
         | [] => acc
         | (key, value) :: object =>
             let path := field_path prefix key in
             if is_sensitive_key key then each object (acc.1, acc.2 ++ [path])
             else
               let acc := if is_object value then collect_fields value path acc
                          else (bt_insert acc.1 path (VString (json_type value)), acc.2) in
               if (MAX_DIFF_FIELDS <=? length acc.1)%nat then acc else each object acc
         end) object acc
  | _ => if is_empty prefix then acc else (bt_insert acc.1 prefix (VString (json_type value)), acc.2)
  end.

(** [Vec::dedup]: of equal neighbours one remains. *)
Fixpoint dedup (l : list string) : list string :=
  match l with
  | x :: (y :: _) as rest => if x =?s y then dedup rest else x :: dedup rest
  | _ => l
  end.

Definition summarize_diff (value : Value) : Value :=
  let '(fields, sensitive) := collect_fields value "" ([], []) in
  let fields := if (MAX_DIFF_FIELDS <? length fields)%nat then [("_truncated", VString "true")] else fields in
  let sensitive := firstn MAX_DIFF_FIELDS (dedup (sort_by id sensitive)) in
  json_object
    [("changed_fields", VArray (map (fun kv => VString kv.1) fields));
     ("field_types", VObject fields);
     ("sensitive_fields", VArray (map VString sensitive))].

Fixpoint sanitize_value (value : Value) (key : option string) {struct value} : Value :=
  if is_some_and key is_sensitive_key then VString "[REDACTED]"
  else
    match value with
    | VObject object => VObject (map (fun kv => (kv.1, sanitize_value kv.2 (Some kv.1))) object)
    | VArray values => VArray (map (fun v => sanitize_value v None) values)
    | VString value => VString (if 1024 <? slen value then take_chars 1024 value else value)
    | value => value
    end.

Definition sanitize_diff (value : Value) : Value := sanitize_value value None.

(** ** The context of a request *)

Record AuditContext : Type := mkAuditContext {
  ac_request_id : string;
  ac_actor : string;
  ac_action : string;
  ac_resource_type : string;
  ac_resource_id : option string;
  ac_resource : option string;
  ac_diff : Value;
}.

Definition sanitize_actor (value : string) : string :=
  let value := trim value in
  if is_empty value then "admin_api"
  else
    let sanitized := trim (take_chars MAX_ACTOR_LEN (drop_controls value)) in
    if is_empty sanitized then "admin_api" else sanitized.

Definition sanitize_resource_id (value : string) : string := take_chars MAX_RESOURCE_ID_LEN (drop_controls value).

Definition sanitize_label (value fallback : string) : string :=
  let value := take_chars MAX_RESOURCE_ID_LEN (drop_controls value) in
  if is_empty (trim value) then fallback else value.

Section Context.
(** What [Uuid::new_v4] would give for this request. *)
Context (uuid : string).

Definition sanitize_request_id (value : string) : string :=
  let value := trim value in
  if is_empty value then uuid
  else
    let sanitized := take_chars MAX_REQUEST_ID_LEN (drop_controls value) in
    if is_empty (trim sanitized) then uuid else sanitized.

(** [AuditContext::new]. *)
Definition new_context (request_id actor action resource_type : string) (resource_id : option string) (diff : Value)
    : AuditContext :=
  let resource_type := sanitize_label resource_type "admin" in
  let resource_id := sanitize_resource_id <$> resource_id in
  mkAuditContext (sanitize_request_id request_id) (sanitize_actor actor) (sanitize_label action "admin.write")
    resource_type resource_id
    (Some (match resource_id with Some id => resource_type +:+ "/" +:+ id | None => resource_type end))
    (sanitize_diff diff).

(** ** Classification of a path *)

Definition trim_matches (c : ascii) (s : string) : string := trim_end_matches c (trim_start_matches c s).

Definition path_segments (path : string) : list string :=
  List.filter (fun segment => negb (is_empty segment)) (split_char "/"%char (trim_matches "/"%char path)).

Fixpoint after_admin (segments : list string) : option (list string) :=
  match segments with
  | [] => None
  | segment :: rest => if segment =?s "admin" then Some rest else after_admin rest
  end.

Definition nested_resource (parts : list string) (resource : string) : string * option string * option string :=
  (resource, parts !! 1%nat, parts !! 2%nat).

Definition resource_of (parts : list string) : string * option string * option string :=
  let first := unwrap_or (parts !! 0%nat) "admin" in
  if first =?s "sources" then nested_resource parts "source"
  else if first =?s "accounts" then nested_resource parts "account"
  else if first =?s "logical-models" then nested_resource parts "logical_model"
  else if first =?s "model-routings" then nested_resource parts "logical_model"
  else if first =?s "model-bindings" then nested_resource parts "model_binding"
  else if first =?s "routes" then nested_resource parts "route"
  else if first =?s "keys" then nested_resource parts "virtual_key"
  else if first =?s "control-plane" then ("control_plane", parts !! 1%nat, parts !! 1%nat)
  else if first =?s "backup" then ("backup", parts !! 1%nat, parts !! 1%nat)
  else if first =?s "retention" then ("retention", parts !! 2%nat, parts !! 1%nat)
  else if first =?s "config" then ("config", None, parts !! 1%nat)
  else if first =?s "health" then ("health", parts !! 1%nat, parts !! 2%nat)
  else (first, parts !! 1%nat, parts !! 2%nat).

Definition enabled_action (resource : string) (payload : option Value) : string :=
  let enabled := unwrap_or (payload ≫= fun value => get value "enabled" ≫= as_bool) true in
  resource +:+ "." +:+ (if enabled then "enable" else "disable").

(** The match on resource, suffix and method, arm by arm. *)
Definition action_of (resource_type : string) (suffix : option string) (method : Method) (payload : option Value) : string :=
  let at_ (resource word : string) := (resource_type =?s resource) && is_some_and suffix (String.eqb word) in
  if at_ "source" "enabled" then enabled_action "source" payload
  else if at_ "account" "enabled" then enabled_action "account" payload
  else if at_ "logical_model" "enabled" then enabled_action "logical_model" payload
  else if at_ "model_binding" "enabled" then enabled_action "model_binding" payload
  else if at_ "route" "enabled" then enabled_action "route" payload
  else if at_ "virtual_key" "revoke" then "virtual_key.revoke"
  else if at_ "virtual_key" "rotate" then "virtual_key.rotate"
  else if at_ "virtual_key" "value" && (match method with GET => true | _ => false end) then "virtual_key.reveal"
  else if at_ "source" "discoveries" then "source.discovery"
  else if at_ "source" "connection-tests" then "source.connection_test"
  else if at_ "source" "models" && (match method with PATCH => true | _ => false end) then "source_model.update"
  else if at_ "source" "confirm" then "source_model.confirm"
  else if at_ "account" "probe" || at_ "health" "probe" then "account.probe"
  else if at_ "control_plane" "import" then "control_plane.import"
  else if at_ "backup" "import" then "control_plane.import"
  else if at_ "config" "reload" then "config.reload"
  else if at_ "retention" "policies" && (match method with PUT => true | _ => false end) then "retention.policy.update"
  else if (at_ "retention" "cleanup" || at_ "retention" "runs") && (match method with POST => true | _ => false end)
  then "retention.cleanup"
  else
    match method with
    | POST => resource_type +:+ ".create"
    | PUT | PATCH => resource_type +:+ ".update"
    | DELETE => resource_type +:+ ".delete"
    | _ => resource_type +:+ ".write"
    end.

Definition classify_path (method : Method) (path : string) (payload : option Value) : string * string * option string :=
  let segments := path_segments path in
  let parts := unwrap_or (after_admin segments) segments in
  let '(resource_type, resource_id, suffix) := resource_of parts in
  (action_of resource_type suffix method payload, resource_type, resource_id).

(** ** From the request *)

Definition header_text (headers : HeaderMap) (name : string) : option string := header_get headers name ≫= to_str.

Definition payload_text (payload : option Value) (key : string) : option string :=
  payload ≫= fun value => get value key ≫= as_str.

Definition resource_id_from_payload (resource_type : string) (payload : option Value) : option string :=
  payload_text payload (if resource_type =?s "source_model" then "upstream_model_id" else "id").

Definition or_else {A} (o : option A) (rest : option A) : option A := match o with Some _ => o | None => rest end.

Definition context_from_request (method : Method) (path : string) (headers : HeaderMap) (payload : option Value)
    : AuditContext :=
  let '(action, resource_type, path_resource_id) := classify_path method path payload in
  let actor :=
    unwrap_or
      (or_else (payload_text payload "requested_by")
        (or_else (payload_text payload "actor")
          (or_else (header_text headers "x-admin-actor")
            (or_else (header_text headers "x-actor") (header_text headers "x-requested-by")))))
      "admin_api" in
  let request_id :=
    unwrap_or
      (or_else (header_text headers "x-request-id")
        (or_else (payload_text payload "request_id") (payload_text payload "operation_id"))) "" in
  let resource_id := or_else path_resource_id (resource_id_from_payload resource_type payload) in
  new_context request_id actor action resource_type resource_id
    (match payload with Some value => summarize_diff value | None => VObject [] end).
End Context.

(** ** The row *)

Definition normalize_result (value : string) : string * string :=
  if (value =?s "success") || (value =?s "succeeded") then ("succeeded", "success")
  else if value =?s "conflict" then ("failed", "conflict")
  else if (value =?s "rollback") || (value =?s "rolled_back") then ("failed", "rollback")
  else ("failed", "failure").

Definition result_for_status (status : string) : string :=
  if (status =?s "409") || (status =?s "conflict") then "conflict"
  else if (status =?s "422") || (status =?s "rollback") then "rollback"
  else "failure".

Definition code_char (a : ascii) : bool :=
  byte_in a 48 57 || byte_in a 65 90 || byte_in a 97 122 || Ascii.eqb a "_"%char || Ascii.eqb a "-"%char.

Definition sanitize_error_code (value : option string) : option string :=
  value ≫= fun value =>
    let value := trim value in
    if is_empty value || (64 <? slen value) || negb (sall code_char value) then Some "admin_operation_failed" else Some value.

Definition sanitize_error_message (value : option string) : option string :=
  (fun _ => "admin operation failed") <$> value.

Definition details_for (context : AuditContext) (result : string) : Value :=
  json_object
    [("resource", match ac_resource context with Some resource => VString resource | None => VNull end);
     ("result", VString result); ("diff", ac_diff context)].

(** The columns [append_pool] writes. *)
Record AuditInsert : Type := mkAuditInsert {
  ai_operation_id : string;
  ai_action : string;
  ai_status : string;
  ai_actor : string;
  ai_details : Value;
  ai_error_code : option string;
  ai_error_message : option string;
  ai_request_id : string;
  ai_resource_type : string;
  ai_resource_id : option string;
  ai_resource : option string;
  ai_result : string;
  ai_diff : Value;
  ai_completed : bool;   (** whether [completed_at] is set *)
}.

Definition audit_insert (context : AuditContext) (result : string) (error_code error_message : option string) : AuditInsert :=
  let '(status, result) := normalize_result result in
  mkAuditInsert (ac_request_id context) (ac_action context) status (ac_actor context) (details_for context result)
    (sanitize_error_code error_code) (sanitize_error_message error_message) (ac_request_id context)
    (ac_resource_type context) (ac_resource_id context) (ac_resource context) result (ac_diff context)
    (existsb (String.eqb status) ["succeeded"; "failed"; "cancelled"]).
