(* ===== verification/AdminGate.v ===== *)
(** * The gate of the admin API: [src/src/app.rs]

    Which handler a request reaches, the admin key it needs, and the middleware
    that keeps an audit row of it.  The handlers are parameters: a handler runs
    on a world and leaves one.

    [axum] and its router are not part of the repository; what the table of
    routes means is [find_route]: at each segment a route with that segment
    goes before one with a parameter, which stands for any segment that is not
    empty. *)

From Stdlib Require Import ZArith Lia Ascii.
From stdpp Require Import base list strings.
From S2P Require Import Prelude.
From S2P Require Import RustStr.
From S2P Require Import Json.
From S2P Require Import Http.
From S2P Require Import VirtualKeys.
From S2P Require Import Auth.
From S2P Require Import RequestAudit.

(** ** Routes *)

Inductive Segment : Type := Static (word : string) | Param.

Definition segment_of (word : string) : Segment := if starts_with word "{" then Param else Static word.
Definition segments (path : string) : list string := split_char "/"%char (unwrap_or (strip_prefix "/" path) path).
Definition pattern (path : string) : list Segment := map segment_of (segments path).

Abbreviation Methods := (list (Method * string)).

(** The patterns that go on after this segment. *)
Definition after_static {A} (word : string) (routes : list (list Segment * A)) : list (list Segment * A) :=
  omap (fun r => match r.1 with Static w :: rest => if w =?s word then Some (rest, r.2) else None | _ => None end) routes.
Definition after_param {A} (word : string) (routes : list (list Segment * A)) : list (list Segment * A) :=
  if is_empty word then []
  else omap (fun r => match r.1 with Param :: rest => Some (rest, r.2) | _ => None end) routes.

Fixpoint find_route {A} (routes : list (list Segment * A)) (words : list string) : option A :=
  match words with
  | [] => List.find (fun r => match r.1 with [] => true | _ => false end) routes ≫= fun r => Some r.2
  | word :: words =>
      match find_route (after_static word routes) words with
      | Some a => Some a
      | None => match after_param word routes with [] => None | routes => find_route routes words end
      end
  end.

(** The routes of [application_with_body_limit] and of [discovery::routes]. *)
Definition admin_routes : list (string * Methods) :=
  [("/admin/keys", [(GET, "keys::list_keys"); (POST, "keys::create_key")]);
   ("/admin/keys/{id}", [(GET, "keys::get_key"); (DELETE, "keys::revoke_key")]);
   ("/admin/keys/{id}/rotate", [(POST, "keys::rotate_key")]);
   ("/admin/keys/{id}/value", [(GET, "keys::reveal_key")]);
   ("/admin/keys/{id}/revoke", [(POST, "keys::revoke_key")]);
   ("/admin/usage/summary", [(GET, "usage::usage_summary")]);
   ("/admin/usage/timeseries", [(GET, "usage::usage_timeseries")]);
   ("/admin/usage/breakdown", [(GET, "usage::usage_breakdown")]);
   ("/admin/usage/events", [(GET, "usage::usage_events")]);
   ("/admin/usage/filter-options", [(GET, "filter_options::usage_options")]);
   ("/admin/usage/export", [(GET, "usage::usage_export")]);
   ("/admin/usage/aggregate", [(GET, "usage::usage_aggregate")]);
   ("/admin/usage/events/{request_id}", [(GET, "usage::usage_event_detail")]);
   ("/admin/upstream-quotas", [(GET, "upstream_quota::list_upstream_quotas")]);
   ("/admin/upstream-quotas/refresh", [(POST, "upstream_quota::refresh_upstream_quotas")]);
   ("/admin/upstream-quotas/{id}", [(GET, "upstream_quota::get_upstream_quota")]);
   ("/admin/upstream-quotas/{id}/refresh", [(POST, "upstream_quota::refresh_upstream_quota")]);
   ("/admin/retention/policies", [(GET, "ops::list_retention_policies"); (PUT, "ops::update_retention_policies")]);
   ("/admin/retention", [(GET, "ops::list_retention_policies"); (PUT, "ops::update_retention_policies")]);
   ("/admin/retention/cleanup", [(GET, "ops::list_retention_cleanups"); (POST, "ops::start_retention_cleanup")]);
   ("/admin/retention/runs", [(GET, "ops::list_retention_cleanups"); (POST, "ops::start_retention_cleanup")]);
   ("/admin/retention/cleanup/{id}", [(GET, "ops::get_retention_cleanup")]);
   ("/admin/retention/runs/{id}", [(GET, "ops::get_retention_cleanup")]);
   ("/admin/retention/cleanup/{id}/cancel", [(POST, "ops::cancel_retention_cleanup")]);
   ("/admin/retention/cleanup/{id}/retry", [(POST, "ops::retry_retention_cleanup")]);
   ("/admin/retention/runs/{id}/cancel", [(POST, "ops::cancel_retention_cleanup")]);
   ("/admin/retention/runs/{id}/retry", [(POST, "ops::retry_retention_cleanup")]);
   ("/admin/control-plane/export", [(GET, "ops::export_control_plane")]);
   ("/admin/control-plane/import", [(POST, "ops::import_control_plane")]);
   ("/admin/backup/export", [(GET, "ops::export_control_plane")]);
   ("/admin/backup/import", [(POST, "ops::import_control_plane")]);
   ("/admin/audit", [(GET, "ops::list_audit_logs")]);
   ("/admin/events", [(GET, "events::list_events")]);
   ("/admin/events/filter-options", [(GET, "filter_options::event_options")]);
   ("/admin/backups/{id}", [(GET, "ops::get_backup_run")]);
   ("/admin/backups", [(GET, "ops::list_backup_runs")]);
   ("/admin/backup/{id}", [(GET, "ops::get_backup_run")]);
   ("/admin/ops/schema", [(GET, "ops::ops_schema_metadata")]);
   ("/admin/schema", [(GET, "ops::ops_schema_metadata")]);
   ("/admin/sources", [(GET, "admin::list_sources"); (POST, "admin::create_source")]);
   ("/admin/sources/{id}",
     [(GET, "admin::get_source"); (PUT, "admin::update_source"); (DELETE, "admin::delete_source")]);
   ("/admin/sources/{id}/enabled", [(PUT, "admin::set_source_enabled")]);
   ("/admin/sources/{source_id}/models/{upstream_model_id}/capabilities", [(GET, "admin::list_source_model_capabilities")]);
   ("/admin/sources/{source_id}/models/{upstream_model_id}/capabilities/{protocol}",
     [(PUT, "admin::upsert_source_model_capability")]);
   ("/admin/accounts", [(GET, "admin::list_accounts"); (POST, "admin::create_account")]);
   ("/admin/accounts/{id}",
     [(GET, "admin::get_account"); (PUT, "admin::update_account"); (DELETE, "admin::delete_account")]);
   ("/admin/accounts/{id}/enabled", [(PUT, "admin::set_account_enabled")]);
   ("/admin/credentials/encrypt", [(POST, "keys::encrypt_credential")]);
   ("/admin/accounts/{id}/credentials/rotate", [(POST, "keys::rotate_account_credential")]);
   ("/admin/logical-models", [(GET, "admin::list_logical_models"); (POST, "admin::create_logical_model")]);
   ("/admin/logical-models/{id}",
     [(GET, "admin::get_logical_model"); (PUT, "admin::update_logical_model"); (DELETE, "admin::delete_logical_model")]);
   ("/admin/logical-models/{id}/routing", [(GET, "admin::get_model_routing"); (PUT, "admin::put_model_routing")]);
   ("/admin/model-routings", [(POST, "admin::create_model_routing")]);
   ("/admin/logical-models/{id}/enabled", [(PUT, "admin::set_logical_model_enabled")]);
   ("/admin/model-bindings", [(GET, "admin::list_model_bindings"); (POST, "admin::create_model_binding")]);
   ("/admin/model-bindings/{id}",
     [(GET, "admin::get_model_binding"); (PUT, "admin::update_model_binding"); (DELETE, "admin::delete_model_binding")]);
   ("/admin/model-bindings/{id}/enabled", [(PUT, "admin::set_model_binding_enabled")]);
   ("/admin/routes", [(GET, "admin::list_routes"); (POST, "admin::create_route")]);
   ("/admin/routes/{id}", [(GET, "admin::get_route"); (PUT, "admin::update_route"); (DELETE, "admin::delete_route")]);
   ("/admin/routes/{id}/enabled", [(PUT, "admin::set_route_enabled")]);
   ("/admin/config/reload", [(POST, "admin::reload_config")]);
   ("/admin/capabilities", [(GET, "admin::admin_capabilities")]);
   ("/admin/health", [(GET, "health_admin::admin_health")]);
   ("/admin/health/probe", [(POST, "health_admin::admin_health_probe")]);
   ("/admin/health/probes", [(POST, "health_admin::admin_health_probes")]);
   ("/admin/health/{id}", [(GET, "health_admin::admin_account_health")]);
   ("/admin/health/{id}/probe", [(POST, "health_admin::admin_account_probe")]);
   ("/admin/accounts/{id}/probe", [(POST, "health_admin::admin_account_probe")]);
   ("/admin/routes/{protocol}/{model}", [(GET, "admin::resolve_route")])].

Definition discovery_routes : list (string * Methods) :=
  [("/admin/provider-presets", [(GET, "discovery::list_provider_presets")]);
   ("/admin/sources/{source_id}/preset-diff", [(GET, "discovery::source_preset_diff")]);
   ("/admin/sources/{source_id}/connection-tests", [(POST, "discovery::test_connection")]);
   ("/admin/sources/{source_id}/discoveries", [(POST, "discovery::discover_models")]);
   ("/admin/sources/{source_id}/discoveries/latest", [(GET, "discovery::latest_discovery")]);
   ("/admin/sources/{source_id}/models",
     [(GET, "discovery::list_source_models"); (PATCH, "discovery::edit_source_model")]);
   ("/admin/sources/{source_id}/models/confirm", [(POST, "discovery::confirm_source_models")])].

Definition route_table : list (list Segment * Methods) :=
  map (fun r => (pattern r.1, r.2)) (admin_routes ++ discovery_routes).

#[global] Instance Method_eq_dec : EqDecision Method.
Proof. solve_decision. Defined.

(** [get(..)] also answers [HEAD]. *)
Definition handler_for (methods : Methods) (method : Method) : option string :=
  let find m := List.find (fun mh => bool_decide (mh.1 = m)) methods ≫= fun mh => Some mh.2 in
  match method with HEAD => find GET | _ => find method end.

(** ** Requests *)

Inductive IncomingBody : Type := BodyRead (bytes : string) | BodyBroken.

Record Request : Type := mkRequest {
  rq_method : Method;
  rq_path : string;
  rq_headers : HeaderMap;
  rq_body : IncomingBody;
}.

Definition set_body (rq : Request) (bytes : string) : Request :=
  mkRequest (rq_method rq) (rq_path rq) (rq_headers rq) (BodyRead bytes).

Definition DEFAULT_MAX_REQUEST_BODY_BYTES : Z := 32 * 1024 * 1024.
Definition AUDIT_BODY_BYTES : Z := 4 * 1024 * 1024.
Definition USIZE_MAX : Z := 2 ^ 64 - 1.

(** [max_request_body_bytes_from_env]; the variable is missing, a text, or not
    UTF-8. *)
Inductive EnvVar : Type := NotPresent | Present (value : string) | NotUnicode.

Definition max_request_body_bytes_from_env (var : EnvVar) : result Z string :=
  let invalid := "GATEWAY_MAX_REQUEST_BODY_BYTES must be a positive integer in bytes" in
  match var with
  | NotPresent => Ok DEFAULT_MAX_REQUEST_BODY_BYTES
  | Present raw =>
      match parse_uint USIZE_MAX raw with
      | Some limit => if 0 <? limit then Ok limit else Err invalid
      | None => Err invalid
      end
  | NotUnicode => Err invalid
  end.

(** [to_bytes(body, limit).unwrap_or_default()]: a body that is too long or
    breaks off is an empty one. *)
Definition to_bytes_or_default (body : IncomingBody) (limit : Z) : string :=
  match body with BodyRead bytes => if slen bytes <=? limit then bytes else "" | BodyBroken => "" end.

Definition should_audit_admin_request (method : Method) (path : string) : bool :=
  match method with
  | HEAD | OPTIONS => false
  | GET =>
      match split_char "/"%char (trim_matches "/"%char path) with
      | [a; k; _; v] => (a =?s "admin") && (k =?s "keys") && (v =?s "value")
      | _ => false
      end
  | _ => true
  end.

(** ** The layers *)

(** What happens in the course of a request. *)
Inductive GateEvent : Type :=
| Ran (handler : option string) (context : option AuditContext) (rq : Request)   (** [None]: method not allowed *)
| Audited (row : AuditInsert).

Section Gate.
Context `{Sha256} `{SerdeJson} {W : Type}.
Context (auth : AdminAuth) (has_db : bool).
(** The handler of a route, with the task-local context it runs in. *)
Context (handler : option string -> option AuditContext -> Request -> W -> Response * W).
(** The insert of a row together with its observation. *)
Context (insert : AuditInsert -> W -> W).

Definition unauthorized : Response := error_response 401 "unauthorized" "admin key required".

(** [next.run(request)]: the method router of the route. *)
Definition run_route (methods : Methods) (context : option AuditContext) (rq : Request) (w : W)
    : Response * W * list GateEvent :=
  let target := handler_for methods (rq_method rq) in
  (handler target context rq w, [Ran target context rq]).

(** The status of the response decides what is recorded. *)
Definition audit_row (context : AuditContext) (response : Response) : AuditInsert :=
  if is_success (rp_status response) then audit_insert context "success" None None
  else audit_insert context (result_for_status (dec (rp_status response))) None None.

Definition audit_middleware (uuid : string) (methods : Methods) (rq : Request) (w : W) : Response * W * list GateEvent :=
  if negb (should_audit_admin_request (rq_method rq) (rq_path rq)) then run_route methods None rq w
  else
    let bytes := to_bytes_or_default (rq_body rq) AUDIT_BODY_BYTES in
    let payload := from_slice bytes in
    let context := context_from_request uuid (rq_method rq) (rq_path rq) (rq_headers rq) payload in
    let rq := set_body rq bytes in
    let '(response, w, events) := run_route methods (Some context) rq w in
    if has_db then
      let row := audit_row context response in (response, insert row w, events ++ [Audited row])
    else (response, w, events).

Definition require_admin_auth (uuid : string) (methods : Methods) (rq : Request) (w : W) : Response * W * list GateEvent :=
  if negb (admin_authorized auth (rq_headers rq)) then (unauthorized, w, [])
  else audit_middleware uuid methods rq w.

(** The console is served under ["/admin/"]; [Redirect::permanent]. *)
Definition redirect_admin_console_root (rq : Request) : option Response :=
  if rq_path rq =?s "/admin" then Some (mkResponse 308 [("location", "/admin/")] (BodyBytes "") None None) else None.

(** A request for one of the admin routes; [None]: the router passes it on to
    the data plane or the console. *)
Definition admin_request (uuid : string) (rq : Request) (w : W) : option (Response * W * list GateEvent) :=
  match redirect_admin_console_root rq with
  | Some response => Some (response, w, [])
  | None => find_route route_table (segments (rq_path rq)) ≫= fun methods => Some (require_admin_auth uuid methods rq w)
  end.
End Gate.
