(* ===== verification/AuditProps.v ===== *)
(** * What the request audit keeps, and what it guards

    The audit row of a request is a function of its shape: no value of the body
    is in it.  It fits its table.  A handler of the admin API only runs for a
    request with the admin key, and whatever may change something, or reveals a
    key, leaves a row. *)

From Stdlib Require Import ZArith Lia Ascii.
From stdpp Require Import base list sets strings.
From S2P Require Import Prelude.
From S2P Require Import RustStr.
From S2P Require Import Json.
From S2P Require Import BTree.
From S2P Require Import Http.
From S2P Require Import Redaction.
From S2P Require Import VirtualKeys.
From S2P Require Import Auth.
From S2P Require Import Events.
From S2P Require Import RequestAudit.
From S2P Require Import AdminGate.

(** ** Values are not kept *)

(** A body without its values: what is under a sensitive key, and the texts,
    numbers and elements elsewhere. *)
Fixpoint erase (value : Value) : Value :=
  match value with
  | VNull => VNull
  | VBool _ => VBool false
  | VNumber _ => VNumber (PosInt 0)
  | VString _ => VString ""
  | VArray _ => VArray []
  | VObject object => VObject (map (fun kv => (kv.1, if RequestAudit.is_sensitive_key kv.1 then VNull else erase kv.2)) object)
  end.

Lemma erase_type value : json_type (erase value) = json_type value /\ is_object (erase value) = is_object value.
Proof. by destruct value. Qed.

Lemma collect_erase value : forall prefix acc, collect_fields (erase value) prefix acc = collect_fields value prefix acc.
Proof.
  induction value as [|b|n|s|l _|object IH] using Value_nested_ind; intros prefix acc; try done.
  cbn [erase collect_fields]. revert acc. induction IH as [|[key value] object Hv _ IHo]; intros acc; [done|].
  cbn [map fst snd] in *. destruct (RequestAudit.is_sensitive_key key); [apply IHo|].
  destruct (erase_type value) as [-> ->]. rewrite Hv. by destruct (_ <=? _)%nat.
Qed.

Lemma summarize_erase value : summarize_diff (erase value) = summarize_diff value.
Proof. unfold summarize_diff. by rewrite collect_erase. Qed.

(** The members of a body that are read, besides its shape: they name the
    actor, the request and the resource, and say what is switched. *)
Definition IDENTIFYING : list string :=
  ["requested_by"; "actor"; "request_id"; "operation_id"; "id"; "upstream_model_id"].

Definition same_identity (v w : Value) : Prop :=
  (forall key, key ∈ IDENTIFYING -> get v key ≫= as_str = get w key ≫= as_str)
  /\ get v "enabled" ≫= as_bool = get w "enabled" ≫= as_bool.

(** C25. Of the values of a request the audit keeps the few that identify it:
    two requests of the same method to the same path with the same headers and
    request id, which ended alike (the same result, error code and error message), whose
    bodies have the same field names and the same types outside of sensitive
    fields, name the same actor, request and resource, and agree on the boolean
    [enabled] (by which an action is called enable or disable), leave the same
    audit row whatever else they carry.  So neither a credential nor a prompt nor
    any other text, number, list or boolean of a body, and nothing at all of what
    is under a sensitive field name, ends up in the row or influences it. *)
Theorem audit_rows_keep_no_value uuid method path headers v w result error_code error_message :
  erase v = erase w -> same_identity v w ->
  audit_insert (context_from_request uuid method path headers (Some v)) result error_code error_message
  = audit_insert (context_from_request uuid method path headers (Some w)) result error_code error_message.
Proof.
  intros He [Hid Hen].
  assert (forall key, key ∈ IDENTIFYING -> payload_text (Some v) key = payload_text (Some w) key) as Ht
    by (intros key Hkey; by apply Hid).
  assert (forall r, resource_id_from_payload r (Some v) = resource_id_from_payload r (Some w)) as Hr.
  { intros r. unfold resource_id_from_payload. destruct (r =?s "source_model"); apply Ht; unfold IDENTIFYING; set_solver. }
  assert (forall m p, classify_path m p (Some v) = classify_path m p (Some w)) as Hc.
  { intros m p. unfold classify_path, action_of, enabled_action. cbn [mbind option_bind]. by rewrite Hen. }
  f_equal. unfold context_from_request. rewrite Hc. destruct (classify_path method path (Some w)) as [[action rt] id].
  rewrite Hr, !(Ht "requested_by"), !(Ht "actor"), !(Ht "request_id"), !(Ht "operation_id")
    by (unfold IDENTIFYING; set_solver).
  by rewrite <- (summarize_erase v), He, summarize_erase.
Qed.

(** ** Rows fit the table *)

Lemma trim_start_suffix s : exists pre, s = pre +:+ trim_start s.
Proof.
  enough (forall n s, (String.length s <= n)%nat -> exists pre, s = pre +:+ trim_start s) as H by by eapply H.
  clear s. intros n. induction n as [|n IH]; intros s Hn.
  { destruct s; [by exists ""|cbn in Hn; lia]. }
  destruct s as [|a s]; [by exists ""|]. cbn [trim_start]. cbn in Hn. destruct (ws1 a).
  { destruct (IH s) as [pre Hp]; [lia|]. exists (String a pre). by rewrite Hp at 1. }
  destruct s as [|b s]; [by exists ""|]. cbn in Hn. destruct (ws2 a b).
  { destruct (IH s) as [pre Hp]; [lia|]. exists (String a (String b pre)). by rewrite Hp at 1. }
  destruct s as [|c s]; [by exists ""|]. cbn in Hn. destruct (ws3 a b c); [|by exists ""].
  destruct (IH s) as [pre Hp]; [lia|]. exists (String a (String b (String c pre))). by rewrite Hp at 1.
Qed.

Lemma trim_end_prefix s : exists suf, s = trim_end s +:+ suf.
Proof.
  induction s as [|a s [suf IH]]; [by exists ""|]. cbn [trim_end].
  destruct (is_empty (trim_start (String a s))); [by exists (String a s)|]. exists suf. by rewrite IH at 1.
Qed.

Lemma trim_part s : exists pre suf, s = pre +:+ trim s +:+ suf.
Proof.
  destruct (trim_start_suffix s) as [pre Hp], (trim_end_prefix (trim_start s)) as [suf Hs]. exists pre, suf.
  unfold trim. rewrite <- Hs. exact Hp.
Qed.

Lemma char_count_app s t : char_count (s +:+ t) = char_count s + char_count t.
Proof. induction s as [|a s IH]; [done|]. change (String a s +:+ t) with (String a (s +:+ t)). cbn [char_count]. lia. Qed.

Lemma trim_char_count s : char_count (trim s) <= char_count s.
Proof.
  destruct (trim_part s) as (pre & suf & Hs). rewrite Hs at 2. rewrite !char_count_app.
  pose proof (char_count_nonneg pre). pose proof (char_count_nonneg suf). lia.
Qed.

Lemma trim_printable s : printable s -> printable (trim s).
Proof.
  unfold printable. destruct (trim_part s) as (pre & suf & Hs). rewrite Hs at 1. rewrite !sall_app, !andb_true_iff. tauto.
Qed.

(** A text of at most [n] characters without control characters. *)
Definition short (n : nat) (s : string) : Prop := char_count s <= Z.of_nat n /\ printable s.

Lemma short_cut n s : short n (take_chars n (drop_controls s)).
Proof. split; [apply char_count_take|apply sall_take, drop_controls_printable]. Qed.

Lemma short_trim n s : short n s -> short n (trim s).
Proof. intros [Hl Hp]. split; [etrans; [apply trim_char_count|done]|by apply trim_printable]. Qed.

Lemma short_le n m s : (n <= m)%nat -> short n s -> short m s.
Proof. intros Hle [Hl Hp]. split; [lia|done]. Qed.

Lemma short_label value fallback : short 256 fallback -> short 256 (sanitize_label value fallback).
Proof. unfold sanitize_label. intros Hf. destruct (is_empty _); [done|apply short_cut]. Qed.

Lemma short_actor value : short 128 (RequestAudit.sanitize_actor value).
Proof.
  unfold RequestAudit.sanitize_actor. destruct (is_empty (trim value)); [by split|]. destruct (is_empty (trim (take_chars _ _))); [by split|].
  apply short_trim, short_cut.
Qed.

Lemma short_request_id uuid value : short 128 uuid -> short 128 (sanitize_request_id uuid value).
Proof.
  unfold sanitize_request_id. intros Hu. destruct (is_empty (trim value)); [done|]. destruct (is_empty (trim _)); [done|].
  apply short_cut.
Qed.

Lemma short_app n m s t : short n s -> short m t -> short (n + m) (s +:+ t).
Proof.
  intros [Hs Ps] [Ht Pt]. split; [rewrite char_count_app; lia|]. unfold printable in *. by rewrite sall_app, Ps, Pt.
Qed.

(** The types of the fields, also after a text too long was cut. *)
Definition TYPE_NAMES : list string := ["null"; "boolean"; "number"; "string"; "array"; "object"].
Definition type_name (v : Value) : Prop := exists s, v = VString s /\ s ∈ TYPE_NAMES.

Lemma json_type_name v : type_name (VString (json_type v)).
Proof. exists (json_type v). split; [done|]. unfold TYPE_NAMES. destruct v; set_solver. Qed.

Definition small (acc : Map * list string) : Prop :=
  (length acc.1 <= MAX_DIFF_FIELDS)%nat /\ Forall (fun kv => type_name kv.2) acc.1.

Lemma small_insert (acc : Map * list string) path v : (length acc.1 < MAX_DIFF_FIELDS)%nat -> small acc ->
  small (bt_insert acc.1 path (VString (json_type v)), acc.2).
Proof.
  intros Hl [_ Ht]. split; cbn [fst].
  - pose proof (bt_insert_length_le acc.1 path (VString (json_type v))). lia.
  - apply bt_insert_Forall; [done|apply json_type_name].
Qed.

(** The loop stops at the limit, so there are never more. *)
Lemma collect_small value : forall prefix acc, (length acc.1 < MAX_DIFF_FIELDS)%nat -> small acc ->
  small (collect_fields value prefix acc).
Proof.
  assert (forall v (prefix : string) acc, (length acc.1 < MAX_DIFF_FIELDS)%nat -> small acc ->
    small (if is_empty prefix then acc else (bt_insert acc.1 prefix (VString (json_type v)), acc.2))) as Hleaf.
  { intros v prefix acc Hl Hs. destruct (is_empty prefix); [done|by apply small_insert]. }
  induction value as [|b|n|s|l _|object IH] using Value_nested_ind; intros prefix acc Hl Hs;
    cbn [collect_fields]; [by apply (Hleaf VNull)|by apply (Hleaf (VBool b))|by apply (Hleaf (VNumber n))
      |by apply (Hleaf (VString s))|by apply (Hleaf (VArray l))|].
  revert acc Hl Hs. induction IH as [|[key value] object Hv _ IHo]; intros acc Hl Hs; [done|].
  cbn [fst snd] in *. destruct (RequestAudit.is_sensitive_key key); [by apply IHo|].
  assert (small (if is_object value then collect_fields value (field_path prefix key) acc
    else (bt_insert acc.1 (field_path prefix key) (VString (json_type value)), acc.2))) as Hn.
  { destruct (is_object value); [by apply Hv|by apply small_insert]. }
  destruct (Nat.leb_spec MAX_DIFF_FIELDS (length (if is_object value then collect_fields value (field_path prefix key) acc
    else (bt_insert acc.1 (field_path prefix key) (VString (json_type value)), acc.2)).1)); [exact Hn|].
  by apply IHo.
Qed.

Lemma json_object_sorted (m : Map) : bt_wf m -> json_object m = VObject m.
Proof. intros Hm. unfold json_object. by rewrite bt_collect_id. Qed.

(** What a stored summary looks like. *)
Definition stored_summary (diff : Value) : Prop :=
  diff = VObject [] \/ exists changed types sensitive,
    diff = VObject [("changed_fields", VArray changed); ("field_types", VObject types); ("sensitive_fields", VArray sensitive)]
    /\ (length changed = length types /\ length types <= MAX_DIFF_FIELDS /\ length sensitive <= MAX_DIFF_FIELDS)%nat
    /\ Forall (fun kv => type_name kv.2 \/ kv.2 = VString "[REDACTED]") types.

Lemma sanitize_type kv : type_name kv.2 ->
  type_name (sanitize_value kv.2 (Some kv.1)) \/ sanitize_value kv.2 (Some kv.1) = VString "[REDACTED]".
Proof.
  destruct kv as [k v]. cbn [fst snd]. intros (s & -> & Hs). cbn [sanitize_value is_some_and].
  destruct (RequestAudit.is_sensitive_key k); [by right|left]. unfold TYPE_NAMES in Hs.
  assert ((1024 <? slen s) = false) as -> by (revert s Hs; apply Forall_forall; by repeat constructor). by exists s.
Qed.

Lemma summary_stored value : stored_summary (sanitize_diff (summarize_diff value)).
Proof.
  right. unfold summarize_diff.
  pose proof (collect_small value "" ([], []) ltac:(cbn; unfold MAX_DIFF_FIELDS; lia) ltac:(split; [cbn; lia|constructor])) as [Hl Ht].
  destruct (collect_fields value "" ([], [])) as [fields sensitive]. cbn [fst] in Hl, Ht.
  rewrite (proj2 (Nat.ltb_ge _ _) Hl), json_object_sorted.
  2: { repeat (apply bt_wf_cons; split); [apply bt_wf_nil|..]; repeat (apply Forall_cons; split); try apply Forall_nil;
       vm_compute; done. }
  unfold sanitize_diff. cbn [sanitize_value is_some_and map fst snd].
  rewrite (eq_refl : RequestAudit.is_sensitive_key "changed_fields" = false), (eq_refl : RequestAudit.is_sensitive_key "field_types" = false),
    (eq_refl : RequestAudit.is_sensitive_key "sensitive_fields" = false).
  eexists _, _, _. split; [reflexivity|]. split.
  - rewrite !length_map, length_firstn. split; [done|]. split; [exact Hl|lia].
  - apply Forall_map. eapply Forall_impl; [exact Ht|]. intros kv. apply sanitize_type.
Qed.

(** What [audit_logs] accepts, and the sizes its readers count on. *)
Record row_fits (r : AuditInsert) : Prop := {
  rf_status : ai_status r ∈ ["started"; "progress"; "succeeded"; "failed"; "cancel_requested"; "cancelled"];
  rf_result : ai_result r ∈ ["success"; "failure"; "conflict"; "rollback"];
  rf_agree : ai_status r = "succeeded" <-> ai_result r = "success";
  rf_completed : ai_completed r = true;
  rf_ids : ai_operation_id r = ai_request_id r /\ short 128 (ai_request_id r);
  rf_actor : short 128 (ai_actor r);
  rf_action : short 256 (ai_action r);
  rf_resource_type : short 256 (ai_resource_type r);
  rf_resource_id : forall id, ai_resource_id r = Some id -> short 256 id;
  rf_resource : forall s, ai_resource r = Some s -> short 513 s;
  rf_error_code : forall code, ai_error_code r = Some code -> 0 < slen code <= 64 /\ sall code_char code = true;
  rf_error_message : forall s, ai_error_message r = Some s -> s = "admin operation failed";
  rf_details : is_object (ai_details r) = true;
  rf_diff : stored_summary (ai_diff r);
}.

Lemma error_code_fits value code : sanitize_error_code value = Some code -> 0 < slen code <= 64 /\ sall code_char code = true.
Proof.
  destruct value as [value|]; [|done]. unfold sanitize_error_code. cbn [mbind option_bind]. set (t := trim value).
  destruct (is_empty t) eqn:Et; [intros [= <-]; by vm_compute|]. cbn [orb].
  destruct (Z.ltb_spec 64 (slen t)); [intros [= <-]; by vm_compute|]. cbn [orb].
  destruct (sall code_char t) eqn:Es; [|intros [= <-]; by vm_compute]. intros [= <-]. split; [|done].
  clearbody t. destruct t; [done|]. rewrite slen_cons in *. unfold slen in *. lia.
Qed.

Lemma normalize_result_cases result : normalize_result result ∈
  [("succeeded", "success"); ("failed", "conflict"); ("failed", "rollback"); ("failed", "failure")].
Proof.
  unfold normalize_result. destruct (_ || _); [set_solver|]. destruct (_ =?s _); [set_solver|].
  destruct (_ || _); set_solver.
Qed.

Lemma audit_row_ok uuid method path headers payload result error_code error_message :
  short 128 uuid ->
  row_fits (audit_insert (context_from_request uuid method path headers payload) result error_code error_message).
Proof.
  intros Hu. unfold context_from_request. destruct (classify_path method path payload) as [[action rt] id].
  set (actor := unwrap_or _ "admin_api"). set (request_id := unwrap_or _ ""). set (rid := or_else id _).
  set (diff := match payload with Some value => summarize_diff value | None => VObject [] end).
  assert (stored_summary (sanitize_diff diff)) as Hd by (destruct payload; [apply summary_stored|by left]).
  assert (short 256 (sanitize_label rt "admin")) as Hrt by (apply short_label; by split).
  unfold audit_insert. pose proof (normalize_result_cases result) as Hr. destruct (normalize_result result) as [status res].
  constructor; cbn [ai_status ai_result ai_completed ai_operation_id ai_request_id ai_actor ai_action ai_resource_type
    ai_resource_id ai_resource ai_error_code ai_error_message ai_details ai_diff new_context ac_request_id ac_actor
    ac_action ac_resource_type ac_resource_id ac_resource ac_diff].
  1-4: repeat (apply elem_of_cons in Hr as [[= -> ->]|Hr]; [first [done|set_solver]|]); by apply elem_of_nil in Hr.
  - split; [done|by apply short_request_id].
  - apply short_actor.
  - apply short_label. by split.
  - exact Hrt.
  - intros i Hi. destruct rid; [|done]. injection Hi as <-. apply short_cut.
  - intros s [= <-]. destruct rid as [i|]; cbn [fmap option_fmap option_map]; [|by eapply short_le; [|exact Hrt]; lia].
    change 513%nat with (256 + (1 + 256))%nat. apply short_app; [done|]. apply short_app; [by split|apply short_cut].
  - apply error_code_fits.
  - intros s. by destruct error_message as [m|]; [intros [= <-]|].
  - done.
  - exact Hd.
Qed.

(** Whatever a request holds, its audit row is one the table takes, so the
    audit of a change is not lost to a constraint: the status and the result
    are of the allowed words and agree, every text is without control
    characters and within a fixed number of characters, an error is a short
    code and a fixed message, and the summary lists at most 128 fields and 128
    sensitive ones, each field with the name of its type and never a value. *)
Theorem audit_rows_fit_the_table uuid method path headers payload result error_code error_message :
  short 128 uuid ->
  row_fits (audit_insert (context_from_request uuid method path headers payload) result error_code error_message).
Proof. apply audit_row_ok. Qed.

(** ** The gate *)

Section Gate.
Context `{Sha256} `{SerdeJson} {W : Type}.
Context (auth : AdminAuth) (has_db : bool).
Context (handler : option string -> option AuditContext -> Request -> W -> Response * W).
Context (insert : AuditInsert -> W -> W).

Abbreviation serve := (admin_request auth has_db handler insert).

(** Requests that may change something, and the read that shows a key. *)
Definition sensitive_request (rq : Request) (target : option string) : bool :=
  match rq_method rq with GET => bool_decide (target = Some "keys::reveal_key") | HEAD | OPTIONS => false | _ => true end.

Lemma find_route_matches {A} (words : list string) : forall (routes : list (list Segment * A)) a,
  find_route routes words = Some a -> exists p, (p, a) ∈ routes
    /\ Forall2 (fun s w => match s with Static word => word = w | Param => w <> "" end) p words.
Proof.
  induction words as [|w words IH]; intros routes a; cbn [find_route].
  - destruct (List.find _ routes) as [[p b]|] eqn:E; [|done]. intros [= <-]. apply List.find_some in E as [Hin Hp].
    destruct p; [|done]. exists []. split; [by apply list_elem_of_In|constructor].
  - destruct (find_route (after_static w routes) words) as [b|] eqn:E.
    + intros [= <-]. apply IH in E as (p & Hin & Hp). unfold after_static in Hin.
      apply list_elem_of_omap in Hin as ([q c] & Hin & Hq). cbn [fst snd] in Hq.
      destruct q as [|[u|] q]; [done| |done]. destruct (String.eqb_spec u w) as [->|]; [|done]. injection Hq as -> ->.
      exists (Static w :: p). split; [done|]. by constructor.
    + clear E. unfold after_param. destruct (String.eqb_spec w "") as [->|Hw]; [done|]. rewrite (proj2 (String.eqb_neq _ _) Hw : is_empty w = false).
      set (rest := omap _ routes). destruct rest as [|r rest'] eqn:Er; [done|]. rewrite <- Er. intros Hf.
      apply IH in Hf as (p & Hin & Hp). unfold rest in Hin. apply list_elem_of_omap in Hin as ([q c] & Hin & Hq). cbn [fst snd] in Hq.
      destruct q as [|[u|] q]; [done|done|]. injection Hq as -> ->. exists (Param :: p). split; [done|]. by constructor.
Qed.

Lemma split_char_join c s : join (bstr c) (split_char c s) = s.
Proof.
  induction s as [|a s IH]; [done|]. cbn [split_char]. destruct (Ascii.eqb_spec a c) as [->|].
  - destruct (split_char c s) as [|x l] eqn:E; [by destruct s as [|b s]; cbn in E; [|destruct (Ascii.eqb b c); [|destruct (split_char c s)]]|].
    cbn [join] in *. by rewrite IH.
  - destruct (split_char c s) as [|x l] eqn:E; [by destruct s as [|b s]; cbn in E; [|destruct (Ascii.eqb b c); [|destruct (split_char c s)]]|].
    destruct l; cbn [join] in *; [by rewrite IH|]. by rewrite <- IH.
Qed.

Lemma trim_end_matches_other c x a : a <> c -> trim_end_matches c (x +:+ bstr a) = x +:+ bstr a.
Proof.
  intros Hne. induction x as [|b x IH].
  - change ("" +:+ bstr a) with (bstr a). cbn. by destruct (Ascii.eqb_spec a c).
  - change (String b x +:+ bstr a) with (String b (x +:+ bstr a)). cbn [trim_end_matches]. rewrite IH.
    by destruct x.
Qed.

Definition reveal_pattern : list Segment := [Static "admin"; Static "keys"; Param; Static "value"].

Lemma reveal_route : Forall (fun r => handler_for r.2 GET = Some "keys::reveal_key" -> r.1 = reveal_pattern) route_table.
Proof. unfold route_table. repeat constructor; vm_compute; try discriminate; reflexivity. Qed.

(** A key is only shown to a request that is audited. *)
Lemma reveal_is_audited path methods :
  find_route route_table (segments path) = Some methods -> handler_for methods GET = Some "keys::reveal_key" ->
  should_audit_admin_request GET path = true.
Proof.
  intros Hf Hh. apply find_route_matches in Hf as (p & Hin & Hp).
  pose proof reveal_route as Hr. rewrite Forall_forall in Hr. specialize (Hr _ Hin Hh). cbn [fst] in Hr. subst p.
  unfold reveal_pattern in Hp. repeat (apply Forall2_cons_inv_l in Hp as (? & ? & ? & Hp & ?); subst).
  apply Forall2_nil_inv_l in Hp. subst. unfold segments in *.
  set (rest := unwrap_or (strip_prefix "/" path) path) in *.
  match goal with H : split_char _ rest = _ |- _ => rename H into Hs end.
  assert (trim_matches "/" path = rest) as Ht.
  { pose proof (split_char_join "/" rest) as Hj. rewrite Hs in Hj. cbn [join] in Hj.
    assert (trim_start_matches "/" path = rest) as Hts.
    { unfold rest in *. destruct (strip_prefix "/" path) as [r|] eqn:E; cbn [unwrap_or] in *.
      - apply strip_prefix_Some in E as ->. rewrite <- Hj. done.
      - rewrite <- Hj. done. }
    unfold trim_matches. rewrite Hts, <- Hj.
    match goal with |- context [bstr "/" +:+ ?x +:+ bstr "/" +:+ "value"] =>
      replace ("admin" +:+ bstr "/" +:+ "keys" +:+ bstr "/" +:+ x +:+ bstr "/" +:+ "value")
        with (("admin" +:+ bstr "/" +:+ "keys" +:+ bstr "/" +:+ x +:+ bstr "/" +:+ "valu") +:+ bstr "e")
        by (rewrite !string_app_assoc; done) end.
    by apply trim_end_matches_other. }
  unfold should_audit_admin_request. rewrite Ht, Hs. done.
Qed.

Lemma status_result context response :
  ai_result (audit_row context response) = "success" <-> is_success (rp_status response) = true.
Proof.
  unfold audit_row. destruct (is_success _); [done|]. unfold result_for_status, audit_insert.
  destruct (_ || _); [done|]. by destruct (_ || _).
Qed.

(** A body the audit reads whole is passed on as it was. *)
Definition body_kept (body : IncomingBody) : Prop := exists bytes, body = BodyRead bytes /\ slen bytes <= AUDIT_BODY_BYTES.

(** C24. The gate of the admin API.  A request to an admin route (under a generated
    request id of at most 128 characters) is answered with 401 (or redirected to
    the console) and then nothing has run and nothing is stored; or it bears the admin key, and exactly one handler runs, that of its
    route and method, on the request itself as long as its body is read, and
    its response is the answer.  Of its own the middleware writes at most one
    audit row, after the handler and only if the gateway has a database: it does
    so precisely once after a request that may change something and after any
    that shows a stored key, and that row is one the table takes, whose result is
    success precisely if the answer was.  (Rows a handler writes itself, as those
    of retention and backup do, are part of what the handler does; the insert of
    the middleware's row is tried once, and what becomes of it is not seen.) *)
Theorem admin_gate_is_closed uuid rq w response w' events :
  short 128 uuid -> serve uuid rq w = Some (response, w', events) ->
  (events = [] /\ w' = w
   /\ (response = unauthorized /\ admin_authorized auth (rq_headers rq) = false
       \/ redirect_admin_console_root rq = Some response))
  \/ (admin_authorized auth (rq_headers rq) = true
      /\ exists methods target context rq' rows,
        find_route route_table (segments (rq_path rq)) = Some methods /\ target = handler_for methods (rq_method rq)
        /\ events = Ran target context rq' :: rows /\ response = (handler target context rq' w).1
        /\ (rq' = rq \/ exists bytes, rq' = set_body rq bytes) /\ (body_kept (rq_body rq) -> rq' = rq)
        /\ (rows = [] /\ w' = (handler target context rq' w).2
            \/ exists row, rows = [Audited row] /\ w' = insert row (handler target context rq' w).2 /\ row_fits row
                /\ (ai_result row = "success" <-> is_success (rp_status response) = true))
        /\ (has_db = true -> sensitive_request rq target = true -> rows <> [])
        /\ (has_db = false -> rows = [])).
Proof.
  intros Hu. unfold admin_request. destruct (redirect_admin_console_root rq) as [r|] eqn:Er.
  { intros [= <- <- <-]. left. auto. }
  destruct (find_route _ _) as [methods|] eqn:Ef; [|done]. cbn [mbind option_bind]. unfold require_admin_auth.
  destruct (admin_authorized auth (rq_headers rq)) eqn:Ea; cbn [negb]; [|intros [= <- <- <-]; left; auto].
  intros Hs. right. split; [done|]. unfold audit_middleware, run_route in Hs.
  destruct (should_audit_admin_request _ _) eqn:Eaudit; cbn [negb] in Hs.
  - set (bytes := to_bytes_or_default (rq_body rq) AUDIT_BODY_BYTES) in *.
    set (context := context_from_request _ _ _ _ _) in *. cbn [rq_method set_body] in Hs.
    exists methods, (handler_for methods (rq_method rq)), (Some context), (set_body rq bytes).
    destruct (handler (handler_for methods (rq_method rq)) (Some context) (set_body rq bytes) w) as [resp w1] eqn:Eh.
    assert (body_kept (rq_body rq) -> set_body rq bytes = rq) as Hbody.
    { intros (b & Hb & Hl). unfold bytes. rewrite Hb. cbn [to_bytes_or_default]. rewrite (proj2 (Z.leb_le _ _) Hl).
      unfold set_body. rewrite <- Hb. by destruct rq. }
    destruct has_db; injection Hs as <- <- <-.
    + exists [Audited (audit_row context resp)]. do 4 (split; [done|]). split; [right; by eexists|]. split; [done|].
      split; [|by split]. right. eexists. do 2 (split; [done|]). split; [|apply status_result].
      unfold audit_row. destruct (is_success _); by apply audit_row_ok.
    + exists []. do 4 (split; [done|]). split; [right; by eexists|]. split; [done|]. split; [left; by split|by split].
  - exists methods, (handler_for methods (rq_method rq)), None, rq, [].
    destruct (handler (handler_for methods (rq_method rq)) None rq w) as [resp w1] eqn:Eh. injection Hs as <- <- <-.
    do 4 (split; [done|]). split; [by left|]. split; [done|]. split; [left; by split|]. split; [|done]. intros _ Hsens.
    unfold sensitive_request in Hsens.
    destruct (rq_method rq) eqn:Em; try discriminate Hsens; try discriminate Eaudit. apply bool_decide_eq_true in Hsens.
    by rewrite (reveal_is_audited _ _ Ef Hsens) in Eaudit.
Qed.
End Gate.

(** ** Examples *)

Definition example_audit_uuid : string := "00000000-0000-4000-8000-000000000000".
Definition example_digest : Sha256 := fun s => s.

(** Two bodies for a new account, with different credentials and names. *)
Definition example_payload (name key prompt : string) : Value :=
  VObject [("api_key", VString key); ("enabled", VBool false); ("id", VString "acct");
           ("nested", VObject [("name", VString name); ("prompt", VArray [VString prompt])])].

Lemma audit_rows_keep_no_value_witness :
  audit_insert (context_from_request example_audit_uuid PUT "/admin/accounts/a/enabled" []
    (Some (example_payload "x" "sk-1" "hello"))) "success" None None
  = audit_insert (context_from_request example_audit_uuid PUT "/admin/accounts/a/enabled" []
    (Some (example_payload "yy" "sk-22" "bye"))) "success" None None.
Proof.
  apply (audit_rows_keep_no_value example_audit_uuid PUT "/admin/accounts/a/enabled" []
    (example_payload "x" "sk-1" "hello") (example_payload "yy" "sk-22" "bye") "success" None None); [reflexivity|].
  split; [|reflexivity]. intros key Hkey. unfold IDENTIFYING in Hkey.
  repeat (apply elem_of_cons in Hkey as [->|Hkey]; [reflexivity|]). by apply elem_of_nil in Hkey.
Defined.

Lemma audit_rows_fit_the_table_witness :
  row_fits (audit_insert (context_from_request example_audit_uuid POST "/admin/accounts" [("x-admin-actor", "ops")]
    (Some (example_payload "x" "sk-1" "hello"))) "409" (Some "conflict!") None).
Proof.
  apply (audit_rows_fit_the_table example_audit_uuid POST "/admin/accounts" [("x-admin-actor", "ops")]
    (Some (example_payload "x" "sk-1" "hello")) "409" (Some "conflict!") None).
  split; [vm_compute; discriminate|vm_compute; reflexivity].
Defined.

(** A world that is the list of what was done. *)
Definition example_handler (target : option string) (_ : option AuditContext) (_ : Request) (w : list string)
    : Response * list string :=
  (mkResponse 200 [] (BodyBytes "") None None, w ++ [unwrap_or target "405"]).
Definition example_insert (row : AuditInsert) (w : list string) : list string := w ++ [ai_action row].
Definition example_reveal (key : string) : Request :=
  mkRequest GET "/admin/keys/7/value" [("x-api-key", key)] (BodyRead "").
Definition example_gate (key : string) : option (Response * list string * list GateEvent) :=
  @admin_request example_digest json_concrete (list string) (mkAdminAuth (Some "admin")) true example_handler example_insert
    example_audit_uuid (example_reveal key) [].

(** The reveal of a key leaves a row; without the key nothing happens. *)
Lemma admin_gate_is_closed_witness :
  option_map (fun r => r.1.2) (example_gate "admin") = Some ["keys::reveal_key"; "virtual_key.reveal"]
  /\ option_map (fun r => (rp_status r.1.1, r.1.2)) (example_gate "guess") = Some (401, [])
  /\ exists row, option_map snd (example_gate "admin")
       = Some [Ran (Some "keys::reveal_key")
                 (Some (context_from_request example_audit_uuid GET "/admin/keys/7/value" [("x-api-key", "admin")] None))
                 (example_reveal "admin"); Audited row] /\ row_fits row.
Proof.
  split; [vm_compute; reflexivity|]. split; [vm_compute; reflexivity|].
  destruct (example_gate "admin") as [[[response w'] events]|] eqn:E; [|vm_compute in E; discriminate E].
  assert (short 128 example_audit_uuid) as Hu by (split; [vm_compute; discriminate|vm_compute; reflexivity]).
  pose proof (@admin_gate_is_closed example_digest json_concrete (list string) (mkAdminAuth (Some "admin")) true
    example_handler example_insert example_audit_uuid (example_reveal "admin") [] response w' events Hu E) as Hgate.
  vm_compute in E. injection E as <- <- <-.
  destruct Hgate as [(He & _)|(_ & methods & target & context & rq' & rows & _ & _ & He & _ & _ & _ & Hrows & _)];
    [discriminate He|]. injection He as <- <- <- <-.
  destruct Hrows as [[Hn _]|(row & Hrow & _ & Hfit & _)]; [discriminate Hn|]. exists row. split; [|exact Hfit].
  rewrite <- Hrow. vm_compute. reflexivity.
Defined.

(** The suffix of a path is its third segment, so what comes after it does not
    count: the rotation of a credential and the confirmation of models are
    recorded as creations. *)
Example rotation_is_recorded_as_creation :
  ac_action (context_from_request example_audit_uuid POST "/admin/accounts/a/credentials/rotate" [] None) = "account.create"
  /\ ac_action (context_from_request example_audit_uuid POST "/admin/sources/s/models/confirm" [] None) = "source.create".
Proof. vm_compute. done. Qed.
