(* ===== verification/KeysApi.v ===== *)
(** * The handlers of virtual keys: [src/src/api/keys.rs]

    Creation, rotation, revocation, the lists, and the reveal of a key: the
    table of [VirtualKeys] with the encryption of [Secrets].  A handler is one
    transaction, so it is a function of the table.  A key is followed from its
    creation to its reveal. *)

From Stdlib Require Import ZArith Lia Ascii.
From stdpp Require Import base list sets strings gmap relations.
From S2P Require Import Prelude.
From S2P Require Import RustStr.
From S2P Require Import Health.
From S2P Require Import Json.
From S2P Require Import Redaction.
From S2P Require Import Http.
From S2P Require Import VirtualKeys.
From S2P Require Import Secrets.
From S2P Require Import Auth.
From S2P Require Import RequestAudit.
From S2P Require Import AdminGate.

Record CreateKeyRequest : Type := mkCreateKeyRequest { cr_name : string; cr_allowed_models : list string }.

Record RotateKeyRequest : Type := mkRotateKeyRequest {
  rr_overlap_secs : Z;
  rr_expires_at : option Z;
  rr_name : option string;
  rr_allowed_models : option (list string);
  rr_scopes : option (list string);
  rr_key_group : option (option string);
}.

(** The columns of [VIRTUAL_KEY_COLUMNS]; the two times of the row are not
    kept in [VirtualKeyRow]. *)
Record VirtualKeyRecord : Type := mkVirtualKeyRecord {
  vr_id : Z;
  vr_name : string;
  vr_key_prefix : string;
  vr_key_recoverable : bool;
  vr_allowed_models : Value;
  vr_scopes : Value;
  vr_key_group : option string;
  vr_enabled : bool;
  vr_times : Z * Z;          (** [created_at], [updated_at] *)
  vr_last_used_at : option Z;
  vr_expires_at : option Z;
  vr_revoked_at : option Z;
  vr_replaced_by_id : option Z;
  vr_overlap_until : option Z;
  vr_origin : string;
}.

(** The derived code of [serde] and the extractors of [axum], the text of a
    database error, and the two times of a row. *)
Class KeyJson : Type := {
  record_json : VirtualKeyRecord -> Value;
  key_instant_json : Z -> Value;
  read_create_key : Request -> result CreateKeyRequest Response;
  read_rotate_key : Request -> result RotateKeyRequest string;
  key_id : Request -> result Z Response;
  key_database_text : DbError -> string;
  key_times : Z -> Z * Z;
}.

Section Handlers.
Context `{Sha256} `{Crypto} `{SerdeJson} `{Chrono} `{KeyJson}.
(** The state of the gateway: the admin key, whether there is a database, and
    the master keys. *)
Context (admin_auth : AdminAuth) (database : bool) (secrets : SecretResolver).

(** [virtual_key_select]. *)
Definition key_record (id : Z) (row : VirtualKeyRow) : VirtualKeyRecord :=
  mkVirtualKeyRecord id (vk_name row) (vk_key_prefix row) (is_some (vk_key_ciphertext row)) (vk_allowed_models row)
    (vk_scopes row) (vk_key_group row) (vk_enabled row) (key_times id) (vk_last_used_at row) (vk_expires_at row)
    (vk_revoked_at row) (vk_replaced_by_id row) (vk_overlap_until row) (vk_origin row).

(** [ORDER BY id DESC]. *)
Fixpoint insert_desc (kv : Z * VirtualKeyRow) (l : list (Z * VirtualKeyRow)) : list (Z * VirtualKeyRow) :=
  match l with
  | [] => [kv]
  | x :: rest => if x.1 <=? kv.1 then kv :: l else x :: insert_desc kv rest
  end.
Definition list_virtual_keys (t : KeyTable) : list VirtualKeyRecord :=
  map (fun kv => key_record kv.1 kv.2) (foldr insert_desc [] (map_to_list (kt_rows t))).
Definition get_virtual_key (t : KeyTable) (id : Z) : option VirtualKeyRecord := key_record id <$> kt_rows t !! id.
Definition get_virtual_key_ciphertext (t : KeyTable) (id : Z) : option (string * option string) :=
  (fun row => (vk_key_prefix row, vk_key_ciphertext row)) <$> kt_rows t !! id.

Definition KeyHandler : Type := KeyTable -> Response * KeyTable.
Definition key_answer (response : Response) : KeyHandler := fun t => (response, t).

(** The first lines of the handlers; [fault] is the error of the statement, if
    the database fails. *)
Definition with_database (rq : Request) (k : KeyHandler) : KeyHandler :=
  if negb (admin_authorized admin_auth (rq_headers rq)) then key_answer unauthorized
  else if negb database then key_answer (error_response 503 "database_unavailable" "DATABASE_URL is not configured")
  else k.

(** [encrypted_virtual_key_material] for a random identifier and nonce. *)
Definition encrypted_virtual_key_material (uuid : string) (nonce : option string)
    : result (VirtualKeyMaterial * string) Response :=
  if negb (has_master_key secrets)
  then Err (error_response 503 "master_key_unavailable"
              "credential master key is required to create recoverable Virtual Keys")
  else
    let material := generate_virtual_key_material uuid in
    match encrypt secrets nonce (km_raw material) (virtual_key_aad (km_prefix material)) with
    | Ok ciphertext => Ok (material, ciphertext)
    | Err error => Err (error_response 422 (secret_error_code error) (secret_public_message error))
    end.

Definition create_key (uuid : string) (nonce : option string) (rq : Request) : KeyHandler :=
  match read_create_key rq with
  | Err response => key_answer response
  | Ok request =>
      with_database rq (fun t =>
        match encrypted_virtual_key_material uuid nonce with
        | Err response => (response, t)
        | Ok (material, ciphertext) =>
            match create_virtual_key_with_material t (cr_name request) (cr_allowed_models request)
                    [VIRTUAL_KEY_INVOKE_SCOPE] None None "created" material (Some ciphertext) with
            | (Ok (id, key), t) =>
                (json_response 201
                   (json_object [("id", of_i64 id); ("key", VString key); ("name", VString (cr_name request));
                                 ("allowed_models", string_array (cr_allowed_models request))]), t)
            | (Err error, t) => (error_response 500 "key_create_failed" (key_database_text error), t)
            end
        end)
  end.

Definition key_not_found : Response := error_response 404 "key_not_found" "virtual key not found".

Definition with_key_id (rq : Request) (k : Z -> KeyHandler) : KeyHandler :=
  match key_id rq with Err response => key_answer response | Ok id => k id end.

Definition reveal_key (fault : bool) (rq : Request) : KeyHandler :=
  with_key_id rq (fun id => with_database rq (fun t =>
    if fault then (error_response 500 "key_get_failed" "failed to fetch virtual key", t)
    else
      match get_virtual_key_ciphertext t id with
      | None => (key_not_found, t)
      | Some (_, None) =>
          (error_response 409 "key_not_recoverable"
             "this Virtual Key predates recoverable storage; rotate it to obtain a viewable key", t)
      | Some (prefix, Some ciphertext) =>
          match resolve_virtual_key (fun _ => None) secrets prefix ciphertext with
          | Ok key => (json_response 200 (json_object [("data", json_object [("id", of_i64 id); ("key", VString key)])]), t)
          | Err error => (error_response 503 (secret_error_code error) (secret_public_message error), t)
          end
      end)).

Definition list_keys (fault : option DbError) (rq : Request) : KeyHandler :=
  with_database rq (fun t =>
    match fault with
    | Some error => (error_response 500 "key_list_failed" (key_database_text error), t)
    | None => (json_response 200 (json_object [("data", VArray (map record_json (list_virtual_keys t)))]), t)
    end).

Definition get_key (fault : option DbError) (rq : Request) : KeyHandler :=
  with_key_id rq (fun id => with_database rq (fun t =>
    match fault with
    | Some error => (error_response 500 "key_get_failed" (key_database_text error), t)
    | None =>
        match get_virtual_key t id with
        | Some key => (json_response 200 (json_object [("data", record_json key)]), t)
        | None => (key_not_found, t)
        end
    end)).

Definition virtual_key_error_response (error : VirtualKeyError) : Response :=
  match error with
  | KeyNotFound => key_not_found
  | KeyConflict message => error_response 409 "key_conflict" message
  | KeyValidation message => error_response 400 "key_validation_failed" message
  | KeyDatabase error => error_response 500 "key_operation_failed" (key_database_text error)
  end.

Definition rotation_json (rotation : VirtualKeyRotation) : Value :=
  json_object
    [("old_id", of_i64 (rn_old_id rotation)); ("new_id", of_i64 (rn_new_id rotation));
     ("key_prefix", VString (rn_key_prefix rotation)); ("key", VString (rn_key rotation));
     ("overlap_until", match rn_overlap_until rotation with Some t => key_instant_json t | None => VNull end)].

Definition rotation_options (request : RotateKeyRequest) : VirtualKeyRotationOptions :=
  mkVirtualKeyRotationOptions (from_secs (rr_overlap_secs request)) (rr_expires_at request) (rr_name request)
    (rr_allowed_models request) (rr_scopes request) (rr_key_group request).

Definition rotate_key (now : Z) (uuid : string) (nonce : option string) (rq : Request) : KeyHandler :=
  with_key_id rq (fun id => with_database rq (fun t =>
    match read_rotate_key rq with
    | Err message => (error_response 400 "invalid_json" message, t)
    | Ok request =>
        match (match rr_scopes request with Some scopes => validate_virtual_key_scopes scopes | None => Ok tt end) with
        | Err message => (error_response 400 "key_validation_failed" message, t)
        | Ok _ =>
            match encrypted_virtual_key_material uuid nonce with
            | Err response => (response, t)
            | Ok (material, ciphertext) =>
                match rotate_virtual_key_with_material t now id (rotation_options request) material (Some ciphertext) with
                | (Ok rotation, t) => (json_response 200 (rotation_json rotation), t)
                | (Err error, t) => (virtual_key_error_response error, t)
                end
            end
        end
    end)).

Definition revoke_key (now : Z) (fault : option DbError) (rq : Request) : KeyHandler :=
  with_key_id rq (fun id => with_database rq (fun t =>
    match fault with
    | Some error => (error_response 500 "key_revoke_failed" (key_database_text error), t)
    | None =>
        match VirtualKeys.revoke_virtual_key t now id with
        | (true, t) => (json_response 200 (json_object [("id", of_i64 id); ("revoked", VBool true)]), t)
        | (false, t) => (error_response 404 "key_not_found" "virtual key not found or already revoked", t)
        end
    end)).
End Handlers.

(** ** Rows keep their secret *)

Definition same_secret (row row' : VirtualKeyRow) : Prop :=
  vk_key_prefix row' = vk_key_prefix row /\ vk_key_ciphertext row' = vk_key_ciphertext row.

Definition secrets_kept (t t' : KeyTable) : Prop := forall id row, kt_rows t !! id = Some row ->
  exists row', kt_rows t' !! id = Some row' /\ same_secret row row'.

#[global] Instance secrets_kept_preorder : PreOrder secrets_kept.
Proof.
  split.
  - intros t id row Hr. by exists row.
  - intros t1 t2 t3 H12 H23 id row Hr. destruct (H12 id row Hr) as (r2 & E2 & Hp2 & Hc2).
    destruct (H23 id r2 E2) as (r3 & E3 & Hp3 & Hc3). exists r3. split; [done|]. split; congruence.
Qed.

Lemma secrets_kept_insert t id row next :
  kt_rows t !! id = None -> secrets_kept t (mkKeyTable (<[id := row]> (kt_rows t)) next).
Proof. intros Hn i r Hr. exists r. cbn. rewrite lookup_insert_ne; [done|]. intros ->. congruence. Qed.

Lemma secrets_kept_update t id row row' next :
  kt_rows t !! id = Some row -> same_secret row row' -> secrets_kept t (mkKeyTable (<[id := row']> (kt_rows t)) next).
Proof.
  intros Hrow Hs i r Hr. destruct (decide (id = i)) as [<-|Hne].
  - exists row'. cbn. rewrite lookup_insert_eq. simplify_eq. done.
  - exists r. cbn. by rewrite lookup_insert_ne.
Qed.

Section Steps.
Context `{Sha256} `{Chrono}.

Lemma insert_key_kept t row id t' : table_ok t -> insert_key t row = Ok (id, t') ->
  secrets_kept t t' /\ kt_rows t' !! id = Some row.
Proof.
  intros Hok Hi. destruct (insert_key_ok _ _ _ _ Hok Hi) as (_ & -> & Hn & Hrows & _). destruct t' as [rows next].
  cbn in Hrows. subst rows. split; [by apply secrets_kept_insert|]. cbn. apply lookup_insert_eq.
Qed.

(** A rotation keeps the row it replaces and stores the new material. *)
Lemma rotated_kept t row id new k old old' : table_ok t -> insert_key t row = Ok (new, k) ->
  kt_rows t !! id = Some old -> same_secret old old' ->
  secrets_kept t (mkKeyTable (<[id := old']> (kt_rows k)) (kt_next_id k))
  /\ <[id := old']> (kt_rows k) !! new = Some row.
Proof.
  intros Hok Hi Hold Hs. destruct (insert_key_ok _ _ _ _ Hok Hi) as (_ & _ & Hn & _).
  destruct (insert_key_kept _ _ _ _ Hok Hi) as [Hk Hnew]. destruct (Hk _ _ Hold) as (old2 & Hold2 & Hs2).
  assert (id <> new) as Hne by congruence. split; [|by rewrite lookup_insert_ne].
  etrans; [exact Hk|]. eapply secrets_kept_update; [exact Hold2|]. destruct Hs, Hs2. split; congruence.
Qed.

Lemma rotate_kept t now id options material cipher : table_ok t ->
  let r := rotate_virtual_key_with_material t now id options material cipher in
  secrets_kept t r.2
  /\ (forall rotation, r.1 = Ok rotation -> rn_key rotation = km_raw material /\ exists row,
        kt_rows r.2 !! rn_new_id rotation = Some row
        /\ vk_key_prefix row = km_prefix material /\ vk_key_ciphertext row = cipher).
Proof.
  intros Hok. cbv zeta. unfold rotate_virtual_key_with_material. cbv zeta.
  destruct (_ <? _); [done|]. destruct (kt_rows t !! id) as [old|] eqn:Hold; [|done]. destruct (_ || _); [done|].
  destruct (is_some_and _ _); [done|]. destruct (is_some _); [done|].
  destruct (if ro_overlap options =? 0 then _ else _) as [overlap|]; [|done].
  destruct (insert_key t _) as [[new k]|e] eqn:Hi; [|done]. cbn [fst snd].
  destruct (rotated_kept _ _ _ _ _ _ (set_replaced old new overlap now) Hok Hi Hold) as [Hk Hnew]; [done|].
  split; [exact Hk|]. intros rotation [= <-]. split; [done|]. eexists. split; [exact Hnew|done].
Qed.

Lemma key_step_secrets t t' : table_ok t -> key_step t t' -> secrets_kept t t'.
Proof.
  intros Hok [name models scopes exp group origin material cipher|now id|now id options material cipher|now raw model].
  - unfold create_virtual_key_with_material. destruct (insert_key t _) as [[id u]|e] eqn:E; [|done].
    by apply (insert_key_kept _ _ _ _ Hok) in E as [Hk _].
  - unfold revoke_virtual_key. destruct (kt_rows t !! id) as [row|] eqn:Hr; [|done].
    destruct (_ && _); [|done]. by eapply secrets_kept_update.
  - by apply rotate_kept.
  - unfold authenticate_virtual_key, authenticate_virtual_key_with_identity_scope.
    destruct (find_active t _ now) as [[id row]|] eqn:E; [|done]. apply find_active_row in E as (Hr & _ & _).
    destruct (_ || _); [done|]. by eapply secrets_kept_update.
Qed.

Lemma key_steps_secrets t t' : table_ok t -> rtc key_step t t' -> secrets_kept t t'.
Proof.
  intros Hok Hs. induction Hs as [t|t1 t2 t3 H12 _ IH]; [done|]. destruct (key_step_ok _ _ Hok H12) as [Hok2 _].
  etrans; [by apply key_step_secrets|by apply IH].
Qed.
End Steps.

(** ** Reveal *)

Section Reveal.
Context `{Sha256} `{CryptoLaws} `{SerdeJson} `{Chrono} `{KeyJson}.
Context (auth : AdminAuth) (secrets secrets' : SecretResolver) (uuid nonce : string).

(** [Uuid::simple]: 32 hexadecimal digits. *)
Definition hex_byte (a : ascii) : bool := byte_in a 48 57 || byte_in a 97 102.
Definition uuid_simple (s : string) : Prop := sall hex_byte s = true /\ slen s = 32.

Context (uuid_ok : uuid_simple uuid) (nonce_ok : slen nonce = NONCE_LEN).
Context (keys_ok : resolver_ok secrets) (keys_kept : kr_keys secrets ⊆ kr_keys secrets').

Abbreviation raw := ("gw_" +:+ uuid).

Lemma raw_text : credential_text raw.
Proof.
  destruct uuid_ok as [Hhex Hlen]. split; [done|]. split.
  - unfold is_utf8. apply String.eqb_eq, from_utf8_lossy_ascii. unfold is_ascii.
    change raw with (String "g" (String "w" (String "_" uuid))). cbn [sall].
    rewrite (sall_impl hex_byte); [done| |exact Hhex]. intros a. unfold hex_byte, byte_in. intros Ha. bool_to_prop. lia.
  - change raw with (String "g" (String "w" (String "_" uuid))). rewrite !slen_cons, Hlen. unfold SAFE_PLAINTEXT_LEN. lia.
Qed.

Lemma material_encrypts material ciphertext :
  encrypted_virtual_key_material secrets uuid (Some nonce) = Ok (material, ciphertext) ->
  material = generate_virtual_key_material uuid
  /\ resolve_virtual_key (fun _ => None) secrets' (km_prefix material) ciphertext = Ok raw.
Proof.
  unfold encrypted_virtual_key_material. destruct (has_master_key secrets) eqn:Hm; [|done]. cbn [negb].
  destruct (encrypt _ _ _ _) as [c|e] eqn:He; [|done]. intros [= <- <-]. split; [done|].
  cbn [km_raw km_prefix generate_virtual_key_material] in *.
  destruct (encrypt_ok secrets nonce raw (virtual_key_aad (String.substring 0 11 raw)) keys_ok Hm nonce_ok raw_text) as (key & payload & _ & _ & Hlen & He').
  pose proof He as Hc. rewrite He' in Hc. injection Hc as <-.
  unfold resolve_virtual_key, resolve_refs. cbn [opt_filter]. unfold not_blank, is_empty. rewrite canonical_trim.
  - rewrite (proj2 (String.eqb_neq _ "")) by done. cbn [negb].
    eapply (decrypt_encrypted secrets secrets' nonce); [done|done|done|apply raw_text|exact He|].
    intros k Hk. by eapply lookup_weaken.
  - apply b64url_encode_ne. intros ->. change (0 = slen raw + 16) in Hlen. unfold slen in Hlen. lia.
Qed.

(** What a reveal of this key answers from now on. *)
Definition revealed_as (t : KeyTable) (id : Z) (key : string) : Prop :=
  forall t2 rq, rtc key_step t t2 -> key_id rq = Ok id -> admin_authorized auth (rq_headers rq) = true ->
  reveal_key auth true secrets' false rq t2
  = (json_response 200 (json_object [("data", json_object [("id", of_i64 id); ("key", VString key)])]), t2).

Lemma stored_is_revealed t id row ciphertext : table_ok t -> kt_rows t !! id = Some row ->
  vk_key_ciphertext row = Some ciphertext ->
  resolve_virtual_key (fun _ => None) secrets' (vk_key_prefix row) ciphertext = Ok raw -> revealed_as t id raw.
Proof.
  intros Hok Hrow Hcipher Hresolve t2 rq Hsteps Hid Hauth. unfold reveal_key, with_key_id, with_database.
  rewrite Hid, Hauth. cbn [negb]. destruct (key_steps_secrets _ _ Hok Hsteps id row Hrow) as (row2 & Hrow2 & Hp & Hc).
  unfold get_virtual_key_ciphertext. rewrite Hrow2. cbn [fmap option_fmap option_map]. by rewrite Hp, Hc, Hcipher, Hresolve.
Qed.

Definition shows (response : Response) (id_field : string) (id : Z) (key : string) : Prop :=
  exists body, rp_body response = BodyJson body /\ get body id_field = Some (of_i64 id) /\ get body "key" = Some (VString key).

Lemma material_fails response :
  encrypted_virtual_key_material secrets uuid (Some nonce) = Err response -> 400 <= rp_status response.
Proof.
  unfold encrypted_virtual_key_material. destruct (negb _); [by intros [= <-]|].
  destruct (encrypt _ _ _ _); [done|]. by intros [= <-].
Qed.

Lemma created_key_is_revealed t rq request : table_ok t -> read_create_key rq = Ok request ->
  let r := create_key auth true secrets uuid (Some nonce) rq t in
  rp_status r.1 = 201 -> exists id, shows r.1 "id" id raw /\ revealed_as r.2 id raw
    /\ forall now, exists name prefix, (authenticate_virtual_key r.2 now raw None).1 = Some (id, name, prefix).
Proof.
  intros Hok Hread. cbv zeta. unfold create_key, with_database. rewrite Hread.
  destruct (negb (admin_authorized _ _)); [done|]. cbn [negb].
  destruct (encrypted_virtual_key_material _ _ _) as [[material ciphertext]|response] eqn:Hm;
    [|apply material_fails in Hm; cbn [fst]; lia].
  apply material_encrypts in Hm as [-> Hresolve].
  unfold create_virtual_key_with_material. destruct (insert_key t _) as [[id t']|e] eqn:Hi; [|done].
  intros _. cbn [fst snd]. destruct (insert_key_ok _ _ _ _ Hok Hi) as (Hok' & _).
  destruct (insert_key_kept _ _ _ _ Hok Hi) as [_ Hrow]. exists id. split; [|split].
  - eexists. split; [done|]. by split.
  - eapply stored_is_revealed; [done|exact Hrow|done|exact Hresolve].
  - intros now. eexists _, _. apply authenticate_iff; [done|]. eexists. split; [exact Hrow|].
    cbn [vk_key_hash vk_allowed_models vk_scopes vk_name vk_key_prefix km_hash generate_virtual_key_material].
    split_and!; try done. by destruct (cr_allowed_models request).
Qed.

Lemma rotated_key_is_revealed t rq now old : table_ok t -> key_id rq = Ok old ->
  let r := rotate_key auth true secrets now uuid (Some nonce) rq t in
  rp_status r.1 = 200 -> exists id, shows r.1 "new_id" id raw /\ revealed_as r.2 id raw.
Proof.
  intros Hok Hid. cbv zeta. unfold rotate_key, with_key_id, with_database. rewrite Hid.
  destruct (negb (admin_authorized _ _)); [done|]. cbn [negb].
  destruct (read_rotate_key rq) as [request|m]; [|done].
  destruct (match rr_scopes request with Some scopes => _ | None => _ end); [|done].
  destruct (encrypted_virtual_key_material _ _ _) as [[material ciphertext]|response] eqn:Hm;
    [|apply material_fails in Hm; cbn [fst]; lia].
  apply material_encrypts in Hm as [-> Hresolve].
  set (rotate := rotate_virtual_key_with_material t now old (rotation_options request)
    (generate_virtual_key_material uuid) (Some ciphertext)).
  destruct (rotate_kept t now old (rotation_options request) (generate_virtual_key_material uuid) (Some ciphertext) Hok)
    as [_ Hrot].
  pose proof (proj1 (key_step_ok _ _ Hok (StepRotate t now old (rotation_options request)
    (generate_virtual_key_material uuid) (Some ciphertext)))) as Hok'. fold rotate in Hrot, Hok'.
  destruct rotate as [[rotation|e] t']; [|by destruct e].
  intros _. cbn [fst snd] in *. destruct (Hrot _ eq_refl) as (Hkey & row & Hrow & Hp & Hc). exists (rn_new_id rotation).
  split.
  - eexists. split; [done|]. split; [done|]. cbn. by rewrite Hkey.
  - eapply stored_is_revealed; [done|exact Hrow|exact Hc|]. by rewrite Hp.
Qed.

(** A virtual key can be recovered exactly.  When a client is given a new key,
    on creation or rotation, then whatever happens to the table afterwards
    (revocations, rotations, requests), and after any extension of the master
    keys, the reveal of its id answers precisely the key that was given; and a
    created key authenticates as the key of its id. *)
Theorem keys_are_revealed_as_given (t : KeyTable) (rq : Request) :
  table_ok t ->
  (forall request, read_create_key rq = Ok request ->
     let r := create_key auth true secrets uuid (Some nonce) rq t in
     rp_status r.1 = 201 -> exists id, shows r.1 "id" id raw /\ revealed_as r.2 id raw
       /\ forall now, exists name prefix, (authenticate_virtual_key r.2 now raw None).1 = Some (id, name, prefix))
  /\ (forall now old, key_id rq = Ok old ->
     let r := rotate_key auth true secrets now uuid (Some nonce) rq t in
     rp_status r.1 = 200 -> exists id, shows r.1 "new_id" id raw /\ revealed_as r.2 id raw).
Proof. intros Hok. split; [intros request; by apply created_key_is_revealed|intros now old; by apply rotated_key_is_revealed]. Qed.
End Reveal.

(** ** Examples *)

Definition example_key_json : KeyJson :=
  {| record_json r := VString (vr_key_prefix r); key_instant_json t := of_i64 t;
     read_create_key _ := Ok (mkCreateKeyRequest "ci" ["gpt"]);
     read_rotate_key _ := Ok (mkRotateKeyRequest 60 None None None None None);
     key_id rq := match parse_int I64_MIN I64_MAX (rq_path rq) with
                  | Some id => Ok id | None => Err (error_response 400 "path" "") end;
     key_database_text _ := "database"; key_times _ := (0, 0) |}.

Definition example_new_uuid : string := "0123456789abcdef0123456789abcdef".
Definition example_admin : AdminAuth := mkAdminAuth (Some "admin").
Definition example_key_request (path : string) : Request :=
  mkRequest POST path [("x-api-key", "admin")] (BodyRead "").

(** A key is created and, after its revocation, revealed with rotated master
    keys. *)
Lemma keys_are_revealed_as_given_witness :
  let kh : Sha256 := fun s => s in
  let r := @create_key kh mock_crypto example_key_json example_admin true mock_resolver example_new_uuid
             (Some "nonce-nonce-") (example_key_request "/admin/keys") example_table in
  rp_status r.1 = 201
  /\ exists id, @reveal_key kh mock_crypto json_concrete example_key_json example_admin true mock_rotated false
         (example_key_request (dec id)) (revoke_virtual_key r.2 5 id).2
       = (json_response 200 (json_object [("data", json_object [("id", of_i64 id);
            ("key", VString ("gw_" +:+ example_new_uuid))])]), (revoke_virtual_key r.2 5 id).2).
Proof.
  intros kh r. assert (rp_status r.1 = 201) as Hs by (vm_compute; reflexivity). split; [exact Hs|].
  destruct (@keys_are_revealed_as_given kh mock_crypto mock_laws json_concrete chrono_exact example_key_json example_admin
    mock_resolver mock_rotated example_new_uuid "nonce-nonce-" ltac:(split; reflexivity) ltac:(reflexivity) mock_resolver_ok
    mock_extends example_table (example_key_request "/admin/keys") example_table_ok) as [Hcreate _].
  destruct (Hcreate (mkCreateKeyRequest "ci" ["gpt"]) eq_refl Hs) as (id & Hshows & Hreveal & _).
  assert (id = 2) as ->.
  { destruct Hshows as (body & Hb & Hid & _). vm_compute in Hb. injection Hb as <-.
    vm_compute in Hid. destruct id as [|p|p]; try discriminate Hid. injection Hid as Hp. lia. }
  exists 2. apply Hreveal; [|reflexivity|reflexivity]. apply rtc_once, StepRevoke.
Defined.
