(* ===== verification/AdminApi.v ===== *)
(** * The handlers of the control plane: [src/src/api/admin.rs],
      [helpers.rs] and the credential handlers of [keys.rs]

    A handler checks the key and the database, reads its input, runs one
    operation of the control plane, and answers; after a write it first hands
    the snapshot of the write to [reload_snapshot].  Other handlers may run
    between the two, so a handler yields a [Handling]: what it does after its
    transaction.  The system events they record, which cannot fail them, are
    left out. *)

From Stdlib Require Import ZArith Lia.
From stdpp Require Import base list strings gmap.
From S2P Require Import Prelude.
From S2P Require Import RustStr.
From S2P Require Import Protocol.
From S2P Require Import BTree.
From S2P Require Import Tx.
From S2P Require Import Config.
From S2P Require Import Routing.
From S2P Require Import SourceUrl.
From S2P Require Import Json.
From S2P Require Import Redaction.
From S2P Require Import Catalog.
From S2P Require Import Presets.
From S2P Require Import PresetDiff.
From S2P Require Import ModelCatalog.
From S2P Require Import Snapshot.
From S2P Require Import Capabilities.
From S2P Require Import Http.
From S2P Require Import VirtualKeys.
From S2P Require Import Secrets.
From S2P Require Import Validation.
From S2P Require Import ControlDb.
From S2P Require ControlPlane.
From S2P Require ModelRouting.
From S2P Require Import ControlReads.
From S2P Require Import Auth.
From S2P Require Import AdminGate.

(** [SourceModelCapabilityWrite]. *)
Record SourceModelCapabilityWrite : Type := mkSourceModelCapabilityWrite {
  cw_status : CatalogStatus;
  cw_mode : SourceProtocolMode;
  cw_source_protocol : option Protocol;
  cw_adapter : option string;
  cw_feature_capabilities : list (string * CapabilitySupport);
}.

Record EncryptCredentialRequest : Type := mkEncryptCredentialRequest {
  er_source_id : string;
  er_account_id : string;
  er_plaintext : string;
}.

(** The derived code of [serde] and the extractors of [axum]: a payload or the
    text of its rejection, a path parameter or the response to it. *)
Class AdminJson : Type := {
  source_json : SourceRecord -> Value;
  account_json : AccountView -> Value;
  logical_model_json : LogicalModelView -> Value;
  model_routing_json : ModelRoutingView -> Value;
  binding_json : ModelBindingView -> Value;
  capability_json : SourceModelCapabilityRecord -> Value;
  route_json : RouteView -> Value;
  matrix_json : CapabilityMatrixResponse -> Value;
  resolved_json : ResolvedRoute -> Value;
  resolution_error_json : RouteResolutionError -> Value;
  instant_json : Z -> Value;
  read_source_create : Request -> result SourceCreateWrite string;
  read_source : Request -> result SourceWrite string;
  read_enabled : Request -> result bool string;
  read_account : Request -> result AccountWrite string;
  read_logical_model : Request -> result LogicalModelWrite string;
  read_model_routing : Request -> result ModelRoutingWrite string;
  read_binding : Request -> result ModelBindingWrite string;
  read_capability : Request -> result SourceModelCapabilityWrite string;
  read_route : Request -> result RouteWrite string;
  read_credential : Request -> result EncryptCredentialRequest Response;
  path_text : string -> result string Response;
  path_number : string -> result Z Response;
}.

(** What a handler does after its transaction: answer, or publish a snapshot
    and answer. *)
Inductive Handling : Type :=
| Respond (response : Response)
| Publish (snapshot : RuntimeSnapshot) (response : Response).

Section Handlers.
Context `{ErrorTexts} `{ControlEnv} `{BuildCfg} `{UrlCrates} `{Collation} `{PresetSerde} `{Crypto} `{SerdeJson} `{Sha256}
  `{AdminJson}.
(** [AppState]: the admin key, the control plane if there is a database, the
    master keys; and the nonce the next encryption draws. *)
Context (admin_auth : AdminAuth) (control_plane : option ControlPlane) (secrets : SecretResolver) (nonce : option string).

(** A handler on the live snapshot and the tables. *)
Definition Handler : Type := RuntimeSnapshot -> ControlDb -> Handling * ControlDb.

Definition answer (response : Response) : Handler := fun _ db => (Respond response, db).

(** ** [helpers.rs] *)

Definition database_unavailable (message : string) : Response := error_response 503 "database_unavailable" message.

Definition admin_control_plane (rq : Request) : result ControlPlane Response :=
  if negb (admin_authorized admin_auth (rq_headers rq)) then Err unauthorized
  else ok_or control_plane (database_unavailable "DATABASE_URL is not configured").

Definition control_plane_status (error : ControlPlaneError) : Z :=
  match error with
  | CpNotFound _ => 404
  | CpConflict _ => 409
  | CpValidation _ | CpJson _ | CpCredential _ | CpNoCiphertext => 422
  | CpDatabase _ => 500
  end.

Definition control_plane_error (error : ControlPlaneError) : Response :=
  error_response (control_plane_status error) (control_error_code error) (control_error_message error).

Definition admin_result {T} (json : T -> Value) (result : result T ControlPlaneError) : Response :=
  match result with
  | Ok record => json_response 200 (json_object [("data", json record)])
  | Err error => control_plane_error error
  end.

Definition mutation_result {T} (json : T -> Value) (status : Z) (operation : ControlDb -> ControlPlane.Outcome (Mutation T)) : Handler :=
  fun _ db =>
    match operation db with
    | (Ok mutation, db) =>
        let snapshot := mu_snapshot mutation in
        (Publish snapshot
           (json_response status
              (json_object [("data", json (mu_record mutation)); ("snapshot_revision", of_i64 (ss_revision snapshot));
                            ("snapshot_generated_at", instant_json (ss_generated_at snapshot))])), db)
    | (Err error, db) => (Respond (control_plane_error error), db)
    end.

Definition delete_result (operation : ControlDb -> ControlPlane.Outcome RuntimeSnapshot) : Handler := fun _ db =>
  match operation db with
  | (Ok snapshot, db) => (Publish snapshot (mkResponse 204 [] (BodyBytes "") None None), db)
  | (Err error, db) => (Respond (control_plane_error error), db)
  end.

Definition json_payload {T} (payload : result T string) : result T Response :=
  map_err (error_response 400 "invalid_json") payload.

(** The first lines of every handler. *)
Definition with_control_plane (rq : Request) (k : ControlPlane -> Handler) : Handler :=
  match admin_control_plane rq with Ok cp => k cp | Err response => answer response end.
Definition with_payload {T} (payload : result T string) (k : T -> Handler) : Handler :=
  match json_payload payload with Ok input => k input | Err response => answer response end.
Definition reading {T} (json : T -> Value) (read : ControlDb -> result T ControlPlaneError) : Handler :=
  fun _ db => (Respond (admin_result json (read db)), db).
Definition array {T} (json : T -> Value) (l : list T) : Value := VArray (map json l).

(** ** [admin.rs] *)

Definition list_sources (rq : Request) : Handler :=
  with_control_plane rq (fun _ => reading (array source_json) (fun db => Ok (ControlReads.list_sources db))).
Definition get_source (id : string) (rq : Request) : Handler :=
  with_control_plane rq (fun _ => reading source_json (ControlReads.get_source id)).
Definition create_source (rq : Request) : Handler :=
  with_control_plane rq (fun cp => with_payload (read_source_create rq) (fun input =>
    mutation_result source_json 201 (ControlPlane.create_source_from_request cp input))).
Definition update_source (id : string) (rq : Request) : Handler :=
  with_control_plane rq (fun cp => with_payload (read_source rq) (fun input =>
    mutation_result source_json 200 (ControlPlane.update_source cp id input))).
Definition set_source_enabled (id : string) (rq : Request) : Handler :=
  with_control_plane rq (fun cp => with_payload (read_enabled rq) (fun enabled =>
    mutation_result source_json 200 (ControlPlane.set_source_enabled cp id enabled))).
Definition delete_source (id : string) (rq : Request) : Handler :=
  with_control_plane rq (fun cp => delete_result (ControlPlane.delete_source cp id)).

Definition list_accounts (rq : Request) : Handler :=
  with_control_plane rq (fun _ => reading (array account_json) (fun db => Ok (ControlReads.list_accounts db))).
Definition get_account (id : string) (rq : Request) : Handler :=
  with_control_plane rq (fun _ => reading account_json (ControlReads.get_account id)).
Definition create_account (rq : Request) : Handler :=
  with_control_plane rq (fun cp => with_payload (read_account rq) (fun input =>
    mutation_result account_json 201 (ControlPlane.create_account cp input))).
Definition update_account (id : string) (rq : Request) : Handler :=
  with_control_plane rq (fun cp => with_payload (read_account rq) (fun input =>
    mutation_result account_json 200 (ControlPlane.update_account cp id input))).
Definition set_account_enabled (id : string) (rq : Request) : Handler :=
  with_control_plane rq (fun cp => with_payload (read_enabled rq) (fun enabled =>
    mutation_result account_json 200 (ControlPlane.set_account_enabled cp id enabled))).
Definition delete_account (id : string) (rq : Request) : Handler :=
  with_control_plane rq (fun cp => delete_result (ControlPlane.delete_account cp id)).

Definition list_logical_models (rq : Request) : Handler :=
  with_control_plane rq (fun _ =>
    reading (array logical_model_json) (fun db => Ok (ControlReads.list_logical_models db))).
Definition get_logical_model (id : string) (rq : Request) : Handler :=
  with_control_plane rq (fun _ => reading logical_model_json (ControlReads.get_logical_model id)).
Definition create_logical_model (rq : Request) : Handler :=
  with_control_plane rq (fun cp => with_payload (read_logical_model rq) (fun input =>
    mutation_result logical_model_json 201 (ControlPlane.create_logical_model cp input))).
Definition get_model_routing (id : string) (rq : Request) : Handler :=
  with_control_plane rq (fun _ => reading model_routing_json (ControlReads.get_model_routing id)).
Definition create_model_routing (rq : Request) : Handler :=
  with_control_plane rq (fun cp => with_payload (read_model_routing rq) (fun input =>
    mutation_result model_routing_json 201 (ModelRouting.create_model_routing cp input))).
Definition put_model_routing (id : string) (rq : Request) : Handler :=
  with_control_plane rq (fun cp => with_payload (read_model_routing rq) (fun input =>
    mutation_result model_routing_json 200 (ModelRouting.put_model_routing cp id input))).
Definition update_logical_model (id : string) (rq : Request) : Handler :=
  with_control_plane rq (fun cp => with_payload (read_logical_model rq) (fun input =>
    mutation_result logical_model_json 200 (ControlPlane.update_logical_model cp id input))).
Definition set_logical_model_enabled (id : string) (rq : Request) : Handler :=
  with_control_plane rq (fun cp => with_payload (read_enabled rq) (fun enabled =>
    mutation_result logical_model_json 200 (ControlPlane.set_logical_model_enabled cp id enabled))).
Definition delete_logical_model (id : string) (rq : Request) : Handler :=
  with_control_plane rq (fun cp => delete_result (ControlPlane.delete_logical_model cp id)).

Definition list_model_bindings (rq : Request) : Handler :=
  with_control_plane rq (fun _ => reading (array binding_json) (fun db => Ok (ControlReads.list_model_bindings db))).
Definition get_model_binding (id : Z) (rq : Request) : Handler :=
  with_control_plane rq (fun _ => reading binding_json (ControlReads.get_model_binding id)).
Definition create_model_binding (rq : Request) : Handler :=
  with_control_plane rq (fun cp => with_payload (read_binding rq) (fun input =>
    mutation_result binding_json 201 (ControlPlane.create_model_binding cp input))).
Definition update_model_binding (id : Z) (rq : Request) : Handler :=
  with_control_plane rq (fun cp => with_payload (read_binding rq) (fun input =>
    mutation_result binding_json 200 (ControlPlane.update_model_binding cp id input))).
Definition set_model_binding_enabled (id : Z) (rq : Request) : Handler :=
  with_control_plane rq (fun cp => with_payload (read_enabled rq) (fun enabled =>
    mutation_result binding_json 200 (ControlPlane.set_model_binding_enabled cp id enabled))).
Definition delete_model_binding (id : Z) (rq : Request) : Handler :=
  with_control_plane rq (fun cp => delete_result (ControlPlane.delete_model_binding cp id)).

Definition list_source_model_capabilities (source_id upstream_model_id : string) (rq : Request) : Handler :=
  with_control_plane rq (fun _ =>
    reading (array capability_json)
      (fun db => Ok (ControlReads.list_source_model_capabilities source_id upstream_model_id db))).

Definition capability_input (source_id upstream_model_id : string) (protocol : Protocol) (write : SourceModelCapabilityWrite)
    : SourceModelCapabilityInput :=
  mkSourceModelCapabilityInput source_id upstream_model_id protocol (cw_status write) (cw_mode write)
    (cw_source_protocol write) (cw_adapter write) (cw_feature_capabilities write) MsUser ce_utc.

Definition upsert_source_model_capability (source_id upstream_model_id protocol : string) (rq : Request) : Handler :=
  with_control_plane rq (fun cp =>
    match Protocol_from_str protocol with
    | Err _ => answer (error_response 422 "validation_failed" ("unknown protocol '" +:+ protocol +:+ "'"))
    | Ok protocol =>
        with_payload (read_capability rq) (fun write =>
          mutation_result capability_json 200
            (ControlPlane.upsert_source_model_capability cp (capability_input source_id upstream_model_id protocol write)))
    end).

Definition list_routes (rq : Request) : Handler :=
  with_control_plane rq (fun _ => reading (array route_json) (fun db => Ok (ControlReads.list_routes db))).
Definition get_route (id : string) (rq : Request) : Handler :=
  with_control_plane rq (fun _ => reading route_json (ControlReads.get_route id)).
Definition create_route (rq : Request) : Handler :=
  with_control_plane rq (fun cp => with_payload (read_route rq) (fun input =>
    mutation_result route_json 201 (ControlPlane.create_route cp input))).
Definition update_route (id : string) (rq : Request) : Handler :=
  with_control_plane rq (fun cp => with_payload (read_route rq) (fun input =>
    mutation_result route_json 200 (ControlPlane.update_route cp id input))).
Definition set_route_enabled (id : string) (rq : Request) : Handler :=
  with_control_plane rq (fun cp => with_payload (read_enabled rq) (fun enabled =>
    mutation_result route_json 200 (ControlPlane.set_route_enabled cp id enabled))).
Definition delete_route (id : string) (rq : Request) : Handler :=
  with_control_plane rq (fun cp => delete_result (ControlPlane.delete_route cp id)).

Definition admin_capabilities_response (authorized : bool) (live : RuntimeSnapshot) : Response :=
  if negb authorized then unauthorized
  else
    match from_runtime_snapshot (ss_config live) (ss_resolver live) (ss_models live) (ss_revision live)
            (ss_generated_at live) with
    | Ok response => json_response 200 (matrix_json response)
    | Err error => error_response 500 (matrix_error_code error) (matrix_error_text error)
    end.
Definition admin_capabilities (rq : Request) : Handler := fun live db =>
  (Respond (admin_capabilities_response (admin_authorized admin_auth (rq_headers rq)) live), db).

Definition reload_config_inner : Handler := fun _ db =>
  match control_plane with
  | None => (Respond (database_unavailable "DATABASE_URL is not configured"), db)
  | Some cp =>
      match load_snapshot cp db with
      | Ok snapshot =>
          (Publish snapshot
             (json_response 200
                (json_object [("status", VString "reloaded"); ("snapshot_revision", of_i64 (ss_revision snapshot));
                              ("snapshot_generated_at", instant_json (ss_generated_at snapshot))])), db)
      | Err error => (Respond (control_plane_error error), db)
      end
  end.
Definition reload_config (rq : Request) : Handler :=
  if negb (admin_authorized admin_auth (rq_headers rq)) then answer unauthorized else reload_config_inner.

Definition resolve_route (protocol model : string) (rq : Request) : Handler := fun live db =>
  (Respond
     (if negb (admin_authorized admin_auth (rq_headers rq)) then unauthorized
      else
        match Protocol_from_str protocol with
        | Err _ =>
            json_response 400
              (json_object [("error", json_object [("code", VString "unknown_protocol"); ("message", VString "unknown protocol")])])
        | Ok protocol =>
            match resolve_detailed (ss_resolver live) protocol model with
            | Ok route => json_response 200 (resolved_json route)
            | Err error =>
                json_response (if re_code error =?s "route_not_found" then 404 else 422)
                  (json_object [("error", resolution_error_json error)])
            end
        end), db).

(** ** [keys.rs]: credentials of accounts *)

Definition missing_admin_key : Response := error_response 401 "unauthorized" "missing or invalid admin key".

Definition encrypt_credential (rq : Request) : Handler :=
  match read_credential rq with
  | Err response => answer response
  | Ok request =>
      answer
        (if negb (admin_authorized admin_auth (rq_headers rq)) then missing_admin_key
         else if negb (has_master_key secrets)
         then error_response 503 "master_key_unavailable" "credential master key is not configured"
         else
           match encrypt_for_account secrets nonce (er_source_id request) (er_account_id request) (er_plaintext request) with
           | Ok ciphertext =>
               json_response 200
                 (json_object [("data", json_object [("ciphertext", VString ciphertext);
                                                     ("key_version", VString (kr_active_version secrets))])])
           | Err error => error_response 422 (secret_error_code error) (secret_public_message error)
           end)
  end.

Definition rotate_account_credential (account_id : string) (rq : Request) : Handler :=
  if negb (admin_authorized admin_auth (rq_headers rq)) then answer missing_admin_key
  else
    match control_plane with
    | None => answer (database_unavailable "database is not configured")
    | Some cp => fun _ db =>
        match ControlPlane.rotate_account_credential cp account_id secrets nonce db with
        | (Ok snapshot, db) =>
            (Publish snapshot
               (json_response 200
                  (json_object [("data", json_object [("account_id", VString account_id);
                                                      ("key_version", VString (kr_active_version secrets))])])), db)
        | (Err (CpDatabase _), db) =>
            (Respond (error_response 500 "database_error" "failed to rotate account credential"), db)
        | (Err error, db) => (Respond (control_plane_error error), db)
        end
    end.

(** ** Dispatch *)

Definition text_param (words : list string) (i : nat) (k : string -> Handler) : Handler :=
  match path_text (unwrap_or (words !! i) "") with Ok id => k id | Err response => answer response end.
Definition number_param (words : list string) (i : nat) (k : Z -> Handler) : Handler :=
  match path_number (unwrap_or (words !! i) "") with Ok id => k id | Err response => answer response end.

(** The handlers by the names of [AdminGate.admin_routes]; [words] are the
    segments of the path. *)
Definition handlers (words : list string) (rq : Request) : list (string * Handler) :=
  let text := text_param words in
  let number := number_param words in
  [("admin::list_sources", list_sources rq); ("admin::create_source", create_source rq);
   ("admin::get_source", text 2%nat (fun id => get_source id rq));
   ("admin::update_source", text 2%nat (fun id => update_source id rq));
   ("admin::set_source_enabled", text 2%nat (fun id => set_source_enabled id rq));
   ("admin::delete_source", text 2%nat (fun id => delete_source id rq));
   ("admin::list_accounts", list_accounts rq); ("admin::create_account", create_account rq);
   ("admin::get_account", text 2%nat (fun id => get_account id rq));
   ("admin::update_account", text 2%nat (fun id => update_account id rq));
   ("admin::set_account_enabled", text 2%nat (fun id => set_account_enabled id rq));
   ("admin::delete_account", text 2%nat (fun id => delete_account id rq));
   ("admin::list_logical_models", list_logical_models rq); ("admin::create_logical_model", create_logical_model rq);
   ("admin::get_logical_model", text 2%nat (fun id => get_logical_model id rq));
   ("admin::update_logical_model", text 2%nat (fun id => update_logical_model id rq));
   ("admin::set_logical_model_enabled", text 2%nat (fun id => set_logical_model_enabled id rq));
   ("admin::delete_logical_model", text 2%nat (fun id => delete_logical_model id rq));
   ("admin::get_model_routing", text 2%nat (fun id => get_model_routing id rq));
   ("admin::create_model_routing", create_model_routing rq);
   ("admin::put_model_routing", text 2%nat (fun id => put_model_routing id rq));
   ("admin::list_model_bindings", list_model_bindings rq); ("admin::create_model_binding", create_model_binding rq);
   ("admin::get_model_binding", number 2%nat (fun id => get_model_binding id rq));
   ("admin::update_model_binding", number 2%nat (fun id => update_model_binding id rq));
   ("admin::set_model_binding_enabled", number 2%nat (fun id => set_model_binding_enabled id rq));
   ("admin::delete_model_binding", number 2%nat (fun id => delete_model_binding id rq));
   ("admin::list_source_model_capabilities",
     text 2%nat (fun source_id => text 4%nat (fun model => list_source_model_capabilities source_id model rq)));
   ("admin::upsert_source_model_capability",
     text 2%nat (fun source_id => text 4%nat (fun model => text 6%nat (fun protocol =>
       upsert_source_model_capability source_id model protocol rq))));
   ("admin::list_routes", list_routes rq); ("admin::create_route", create_route rq);
   ("admin::get_route", text 2%nat (fun id => get_route id rq));
   ("admin::update_route", text 2%nat (fun id => update_route id rq));
   ("admin::set_route_enabled", text 2%nat (fun id => set_route_enabled id rq));
   ("admin::delete_route", text 2%nat (fun id => delete_route id rq));
   ("admin::admin_capabilities", admin_capabilities rq); ("admin::reload_config", reload_config rq);
   ("admin::resolve_route",
     text 2%nat (fun protocol => text 3%nat (fun model => resolve_route protocol model rq)));
   ("keys::encrypt_credential", encrypt_credential rq);
   ("keys::rotate_account_credential", text 2%nat (fun id => rotate_account_credential id rq))].

(** The handler a request of the admin API reaches, if it is one of these. *)
Definition admin_handler (rq : Request) : option Handler :=
  let words := segments (rq_path rq) in
  find_route route_table words ≫= fun methods =>
  handler_for methods (rq_method rq) ≫= fun name => hm_get (handlers words rq) name.
End Handlers.
