(* ===== verification/AdminPublish.v ===== *)
(** * What the admin API leaves live

    The handlers of [AdminApi] as a system: each runs its transaction, and
    later, with other handlers in between, publishes its snapshot and answers.
    Around them the import handler of [OpsApi] replaces the tables and publishes
    too, and everything else that writes tables of the control plane (the
    discovery, confirmation and probe handlers of [ProbeApi], account health)
    commits without publishing.  However they interleave, when all have answered
    the gateway routes by the tables of the revision they are at. *)

From Stdlib Require Import ZArith Lia.
From stdpp Require Import base list sets strings gmap.
From S2P Require Import Prelude.
From S2P Require Import RustStr.
From S2P Require Import Protocol.
From S2P Require Import BTree.
From S2P Require Import Tx.
From S2P Require Import Config.
From S2P Require Import Routing.
From S2P Require Import SourceUrl.
From S2P Require Import Json.
From S2P Require Import Catalog.
From S2P Require Import Presets.
From S2P Require Import PresetDiff.
From S2P Require Import ModelCatalog.
From S2P Require Import CatalogProps.
From S2P Require Import CatalogTypes.
From S2P Require Import Discovery.
From S2P Require Import Snapshot.
From S2P Require Import Http.
From S2P Require Import VirtualKeys.
From S2P Require Import Secrets.
From S2P Require Import Validation.
From S2P Require Import ControlDb.
From S2P Require Import ControlPlane.
From S2P Require Import ModelRouting.
From S2P Require Import Import.
From S2P Require Import ControlProps.
From S2P Require Import ControlTypes.
From S2P Require Import Auth.
From S2P Require Import RequestAudit.
From S2P Require Import AdminGate.
From S2P Require Import AdminApi.

(** ** The system *)

(** The tables, the live snapshot, the handlers that have yet to publish, and
    the responses sent.  [gw_versions] only records: the tables as each
    commit at the present revision left them. *)
Record Gateway : Type := mkGateway {
  gw_db : ControlDb;
  gw_live : RuntimeSnapshot;
  gw_waiting : list (RuntimeSnapshot * Response);
  gw_answers : list Response;
  gw_versions : list ControlDb;
}.

(** A request arrives and its handler runs its transaction, at these times and
    with this nonce; a restore replaces the tables, and its handler is to
    publish this snapshot; something else commits this change and publishes
    nothing; a waiting handler publishes and answers; a waiting handler is
    dropped, as when its client is gone. *)
Inductive GatewayAction : Type :=
| Arrive (env : ControlEnv) (nonce : option string) (rq : Request)
| Restored (db : ControlDb) (snapshot : RuntimeSnapshot) (response : Response)
| Elsewhere (change : ControlDb -> ControlDb)
| Finish (i : nat)
| Dropped (i : nat).

(** The tables after a commit. *)
Definition committed (g : Gateway) (db : ControlDb) : list ControlDb :=
  if db_revision db =? db_revision (gw_db g) then gw_versions g ++ [db] else [db].

Section System.
Context `{ErrorTexts} `{BuildCfg} `{UrlCrates} `{Collation} `{PresetSerde} `{Crypto} `{SerdeJson} `{Sha256} `{AdminJson}.
Context (admin_auth : AdminAuth) (self : ControlPlane) (secrets : SecretResolver).

(** The handler of a request, if it is one of [AdminApi]; the handlers of
    [OpsApi] and [ProbeApi] are the actions [Restored] and [Elsewhere]. *)
Definition handle (env : ControlEnv) (nonce : option string) (rq : Request) : option Handler :=
  @admin_handler _ env _ _ _ _ _ _ _ _ admin_auth (Some self) secrets nonce rq.

Definition gateway_step (action : GatewayAction) (g : Gateway) : Gateway :=
  match action with
  | Arrive env nonce rq =>
      match handle env nonce rq with
      | None => g
      | Some h =>
          match h (gw_live g) (gw_db g) with
          | (Respond response, db) => mkGateway db (gw_live g) (gw_waiting g) (gw_answers g ++ [response]) (committed g db)
          | (Publish snapshot response, db) =>
              mkGateway db (gw_live g) (gw_waiting g ++ [(snapshot, response)]) (gw_answers g) (committed g db)
          end
      end
  | Restored db snapshot response =>
      mkGateway db (gw_live g) (gw_waiting g ++ [(snapshot, response)]) (gw_answers g) (committed g db)
  | Elsewhere change =>
      let db := change (gw_db g) in
      mkGateway db (gw_live g) (gw_waiting g) (gw_answers g) (committed g db)
  | Finish i =>
      match gw_waiting g !! i with
      | Some (snapshot, response) =>
          mkGateway (gw_db g) (reload_snapshot (gw_live g) snapshot).2 (delete i (gw_waiting g)) (gw_answers g ++ [response])
            (gw_versions g)
      | None => g
      end
  | Dropped i => mkGateway (gw_db g) (gw_live g) (delete i (gw_waiting g)) (gw_answers g) (gw_versions g)
  end.

Definition gateway_run (actions : list GatewayAction) (g : Gateway) : Gateway :=
  fold_left (fun g action => gateway_step action g) actions g.

(** ** Handlers publish what they leave *)

(** Nothing changed, or the snapshot to publish is that of the tables, which
    are as before or one revision on. *)
Definition follows (db : ControlDb) (h : Handling * ControlDb) : Prop :=
  match h with
  | (Respond _, db') => db' = db
  | (Publish s _, db') => (db' = db \/ db_revision db' = db_revision db + 1) /\ load_snapshot self db' = Ok s
  end.

Lemma follows_publishes db db' s r : publishes self db db' s -> follows db (Publish s r, db').
Proof. intros (Hr & _ & Hl). split; [by right|done]. Qed.

Section Handlers.
Context `{ControlEnv} (nonce : option string) (live : RuntimeSnapshot) (db : ControlDb) (rq : Request).

Lemma follows_answer response : follows db (answer response live db).
Proof. done. Qed.

Lemma follows_reading {T} (json : T -> Value) read : follows db (reading json read live db).
Proof. done. Qed.

Lemma follows_with_control_plane (k : ControlPlane -> Handler) :
  follows db (k self live db) -> follows db (with_control_plane admin_auth (Some self) rq k live db).
Proof. unfold with_control_plane, admin_control_plane. by destruct (negb _). Qed.

Lemma follows_with_payload {T} (payload : result T string) (k : T -> Handler) :
  (forall input, follows db (k input live db)) -> follows db (with_payload payload k live db).
Proof. unfold with_payload. by destruct payload; cbn. Qed.

Lemma follows_text words i k : (forall id, follows db (k id live db)) -> follows db (text_param words i k live db).
Proof. unfold text_param. by destruct (path_text _). Qed.

Lemma follows_number words i k : (forall id, follows db (k id live db)) -> follows db (number_param words i k live db).
Proof. unfold number_param. by destruct (path_number _). Qed.

Lemma follows_mutation {T} (json : T -> Value) status operation op :
  published (operation db) = perform self op db -> follows db (mutation_result json status operation live db).
Proof.
  intros Hop. pose proof (perform_atomic self op db) as Hat. rewrite <- Hop in Hat. unfold mutation_result.
  destruct (operation db) as [[m|e] db']; cbn in Hat; [by apply follows_publishes|exact Hat].
Qed.

Lemma follows_delete operation op :
  outcome_map Some (operation db) = perform self op db -> follows db (delete_result operation live db).
Proof.
  intros Hop. pose proof (perform_atomic self op db) as Hat. rewrite <- Hop in Hat. unfold delete_result.
  destruct (operation db) as [[s|e] db']; cbn in Hat; [by apply follows_publishes|exact Hat].
Qed.
End Handlers.

(** The operation a handler runs. *)
Ltac by_operation live db :=
  match goal with |- follows _ ?h => match h with
  | context [ControlPlane.create_source_from_request _ ?x] => apply (follows_mutation live db _ _ _ (OpCreateSourceFromRequest x)); reflexivity
  | context [ControlPlane.update_source _ ?x ?y] => apply (follows_mutation live db _ _ _ (OpUpdateSource x y)); reflexivity
  | context [ControlPlane.set_source_enabled _ ?x ?y] => apply (follows_mutation live db _ _ _ (OpSetSourceEnabled x y)); reflexivity
  | context [ControlPlane.create_account _ ?x] => apply (follows_mutation live db _ _ _ (OpCreateAccount x)); reflexivity
  | context [ControlPlane.update_account _ ?x ?y] => apply (follows_mutation live db _ _ _ (OpUpdateAccount x y)); reflexivity
  | context [ControlPlane.set_account_enabled _ ?x ?y] => apply (follows_mutation live db _ _ _ (OpSetAccountEnabled x y)); reflexivity
  | context [ControlPlane.create_logical_model _ ?x] => apply (follows_mutation live db _ _ _ (OpCreateLogicalModel x)); reflexivity
  | context [ControlPlane.update_logical_model _ ?x ?y] => apply (follows_mutation live db _ _ _ (OpUpdateLogicalModel x y)); reflexivity
  | context [ControlPlane.set_logical_model_enabled _ ?x ?y] => apply (follows_mutation live db _ _ _ (OpSetLogicalModelEnabled x y)); reflexivity
  | context [ControlPlane.upsert_source_model_capability _ ?x] => apply (follows_mutation live db _ _ _ (OpUpsertCapability x)); reflexivity
  | context [ControlPlane.create_model_binding _ ?x] => apply (follows_mutation live db _ _ _ (OpCreateBinding x)); reflexivity
  | context [ControlPlane.update_model_binding _ ?x ?y] => apply (follows_mutation live db _ _ _ (OpUpdateBinding x y)); reflexivity
  | context [ControlPlane.set_model_binding_enabled _ ?x ?y] => apply (follows_mutation live db _ _ _ (OpSetBindingEnabled x y)); reflexivity
  | context [ControlPlane.create_route _ ?x] => apply (follows_mutation live db _ _ _ (OpCreateRoute x)); reflexivity
  | context [ControlPlane.update_route _ ?x ?y] => apply (follows_mutation live db _ _ _ (OpUpdateRoute x y)); reflexivity
  | context [ControlPlane.set_route_enabled _ ?x ?y] => apply (follows_mutation live db _ _ _ (OpSetRouteEnabled x y)); reflexivity
  | context [ModelRouting.create_model_routing _ ?x] => apply (follows_mutation live db _ _ _ (OpCreateModelRouting x)); reflexivity
  | context [ModelRouting.put_model_routing _ ?x ?y] => apply (follows_mutation live db _ _ _ (OpPutModelRouting x y)); reflexivity
  | context [ControlPlane.delete_source _ ?x] => apply (follows_delete live db _ (OpDeleteSource x)); reflexivity
  | context [ControlPlane.delete_account _ ?x] => apply (follows_delete live db _ (OpDeleteAccount x)); reflexivity
  | context [ControlPlane.delete_logical_model _ ?x] => apply (follows_delete live db _ (OpDeleteLogicalModel x)); reflexivity
  | context [ControlPlane.delete_model_binding _ ?x] => apply (follows_delete live db _ (OpDeleteBinding x)); reflexivity
  | context [ControlPlane.delete_route _ ?x] => apply (follows_delete live db _ (OpDeleteRoute x)); reflexivity
  end end.

Ltac handler live db :=
  repeat first [apply follows_with_control_plane
               | apply follows_with_payload; intros ? | apply follows_text; intros ? | apply follows_number; intros ?];
  first [by_operation live db | apply follows_reading | idtac].

Section Handlers.
Context `{ControlEnv} (nonce : option string).

Lemma follows_reload live db rq : follows db (reload_config admin_auth (Some self) rq live db).
Proof.
  unfold reload_config, reload_config_inner. destruct (negb _); [done|].
  destruct (load_snapshot self db) as [s|e] eqn:El; [|done]. split; [by left|done].
Qed.

Lemma follows_rotate id live db rq :
  follows db (rotate_account_credential admin_auth (Some self) secrets nonce id rq live db).
Proof.
  unfold rotate_account_credential. destruct (negb _); [done|].
  pose proof (perform_atomic self (OpRotateCredential id secrets nonce) db) as Hat. cbn [perform] in Hat.
  destruct (ControlPlane.rotate_account_credential self id secrets nonce db) as [[s|e] db']; cbn in Hat;
    [by apply follows_publishes|]. by destruct e.
Qed.

Lemma handlers_follow words rq live db :
  Forall (fun nh => follows db (nh.2 live db)) (handlers admin_auth (Some self) secrets nonce words rq).
Proof.
  unfold handlers. repeat apply Forall_cons_2; try apply Forall_nil_2; cbn [snd];
    unfold list_sources, create_source, get_source, update_source, set_source_enabled, delete_source, list_accounts,
      create_account, get_account, update_account, set_account_enabled, delete_account, list_logical_models,
      create_logical_model, get_logical_model, update_logical_model, set_logical_model_enabled, delete_logical_model,
      get_model_routing, create_model_routing, put_model_routing, list_model_bindings, create_model_binding,
      get_model_binding, update_model_binding, set_model_binding_enabled, delete_model_binding,
      list_source_model_capabilities, list_routes, create_route, get_route, update_route, set_route_enabled, delete_route;
    handler live db.
  - destruct (Protocol_from_str _) as [protocol|e]; [|done]. handler live db.
  - done.
  - apply follows_reload.
  - done.
  - unfold encrypt_credential. by destruct (read_credential rq).
  - apply follows_rotate.
Qed.
End Handlers.

Lemma handle_follows env nonce rq h live db : handle env nonce rq = Some h -> follows db (h live db).
Proof.
  unfold handle, admin_handler. destruct (find_route _ _) as [methods|]; [|done]. cbn [mbind option_bind].
  destruct (handler_for _ _) as [name|]; [|done]. cbn [mbind option_bind]. intros Eh.
  pose proof (@handlers_follow env nonce (segments (rq_path rq)) rq live db) as Hall.
  rewrite Forall_forall in Hall. apply (Hall (name, h)). by apply hm_get_Some_in.
Qed.

Lemma load_revision db s : load_snapshot self db = Ok s -> ss_revision s = db_revision db.
Proof.
  unfold load_snapshot. destruct (validate_all self db); cbn [rbind]; [|done]. unfold build_from, build_snapshot. cbv zeta.
  destruct (bd_errors _); [|done]. by intros [= <-].
Qed.

(** ** Runs *)

(** The snapshots that are live or will be published. *)
Definition candidates (g : Gateway) : list RuntimeSnapshot := gw_live g :: map fst (gw_waiting g).

(** None is newer than the tables, and one of the same revision is of a version
    of them. *)
Definition never_ahead (g : Gateway) : Prop := forall s, s ∈ candidates g ->
  ss_revision s <= db_revision (gw_db g)
  /\ (ss_revision s = db_revision (gw_db g) -> exists v, v ∈ gw_versions g /\ load_snapshot self v = Ok s).

(** One of them is of the tables' revision. *)
Definition up_to_date (g : Gateway) : Prop := exists s, s ∈ candidates g /\ ss_revision s = db_revision (gw_db g).

(** What is assumed of an action: no handler is dropped between its commit and
    its publication; a restore moves the revision forward and publishes the
    snapshot of what it restored; other commits leave the revision alone, as
    only the handlers, restores and other processes move it. *)
Definition action_ok (action : GatewayAction) (g : Gateway) : Prop :=
  match action with
  | Dropped _ => False
  | Restored db snapshot _ => db_revision (gw_db g) < db_revision db /\ load_snapshot self db = Ok snapshot
  | Elsewhere change => db_revision (change (gw_db g)) = db_revision (gw_db g)
  | Arrive _ _ _ | Finish _ => True
  end.
Fixpoint undisturbed (actions : list GatewayAction) (g : Gateway) : Prop :=
  match actions with
  | [] => True
  | action :: actions => action_ok action g /\ undisturbed actions (gateway_step action g)
  end.

(** A snapshot of the tables a commit leaves joins the candidates. *)
Lemma commit_ahead g db waiting answers :
  never_ahead g -> db_revision (gw_db g) <= db_revision db ->
  (forall p, p ∈ waiting -> p ∈ gw_waiting g \/ load_snapshot self db = Ok p.1) ->
  never_ahead (mkGateway db (gw_live g) waiting answers (committed g db)).
Proof.
  intros Hg Hrev Hw x Hx. unfold candidates in Hx. cbn [gw_live gw_waiting gw_db gw_versions] in *.
  assert (x ∈ candidates g \/ load_snapshot self db = Ok x) as [Hc|Hl].
  { apply elem_of_cons in Hx as [->|Hx]; [left; by left|]. apply list_elem_of_fmap in Hx as (p & -> & Hp).
    destruct (Hw p Hp); [left; right; by apply list_elem_of_fmap_2|by right]. }
  - destruct (Hg x Hc) as [Hle Heq]. split; [lia|]. intros Hx'. assert (db_revision db = db_revision (gw_db g)) as Hsame by lia.
    destruct (Heq ltac:(lia)) as (v & Hv & Hload). exists v. split; [|done]. unfold committed. rewrite Hsame, Z.eqb_refl.
    apply elem_of_app. by left.
  - pose proof (load_revision _ _ Hl). split; [lia|]. intros _. exists db. split; [|done]. unfold committed.
    destruct (_ =? _); [apply elem_of_app; right|]; apply list_elem_of_here.
Qed.

Lemma appended_waiting g (s : RuntimeSnapshot) (r : Response) db :
  load_snapshot self db = Ok s -> forall p, p ∈ gw_waiting g ++ [(s, r)] -> p ∈ gw_waiting g \/ load_snapshot self db = Ok p.1.
Proof. intros Hl p [Hp|Hp%list_elem_of_singleton]%elem_of_app; [by left|subst p; by right]. Qed.

Lemma arrive_ahead env nonce rq g : never_ahead g -> never_ahead (gateway_step (Arrive env nonce rq) g).
Proof.
  intros Hg. cbn [gateway_step]. destruct (handle env nonce rq) as [h|] eqn:Eh; [|done].
  pose proof (handle_follows env nonce rq h (gw_live g) (gw_db g) Eh) as Hf.
  destruct (h (gw_live g) (gw_db g)) as [[r|s r] db']; cbn in Hf.
  - subst db'. apply commit_ahead; [done|done|]. intros p Hp. by left.
  - destruct Hf as [Hr Hl]. apply commit_ahead; [done|destruct Hr as [->|Hr]; lia|by apply appended_waiting].
Qed.

Lemma restored_ahead db s r g : action_ok (Restored db s r) g -> never_ahead g -> never_ahead (gateway_step (Restored db s r) g).
Proof. intros [Hr Hl] Hg. apply commit_ahead; [done|lia|by apply appended_waiting]. Qed.

Lemma elsewhere_ahead change g : action_ok (Elsewhere change) g -> never_ahead g -> never_ahead (gateway_step (Elsewhere change) g).
Proof. intros Hr Hg. apply commit_ahead; [done|by rewrite Hr|]. intros p Hp. by left. Qed.

Lemma reload_cases live s : (reload_snapshot live s).2 = live /\ ss_revision s < ss_revision live
  \/ (reload_snapshot live s).2 = s /\ ss_revision live <= ss_revision s.
Proof. unfold reload_snapshot. cbn [snd]. destruct (Z.leb_spec (ss_revision live) (ss_revision s)); [right|left]; done. Qed.

Lemma delete_elem {A} (l : list A) i x : x ∈ delete i l -> x ∈ l.
Proof.
  revert i. induction l as [|y l IH]; intros [|i] Hx; cbn in *; [done|done|by right|].
  apply elem_of_cons in Hx as [->|Hx]; [by left|right; by eapply IH].
Qed.

Lemma elem_of_delete_or {A} (l : list A) i x y : l !! i = Some y -> x ∈ l -> x = y \/ x ∈ delete i l.
Proof.
  revert i. induction l as [|z l IH]; intros [|i] Hi Hx; cbn in *; try done.
  - injection Hi as ->. by apply elem_of_cons in Hx.
  - apply elem_of_cons in Hx as [->|Hx]; [right; by left|]. destruct (IH i Hi Hx); [by left|right; by right].
Qed.

Lemma finish_ahead i g : never_ahead g -> never_ahead (gateway_step (Finish i) g).
Proof.
  intros Hg. cbn [gateway_step]. destruct (gw_waiting g !! i) as [[s r]|] eqn:Ei; [|done]. intros x Hx. apply Hg.
  unfold candidates in *. cbn [gw_live gw_waiting] in *. apply elem_of_cons in Hx as [->|Hx].
  - destruct (reload_cases (gw_live g) s) as [[-> _]|[-> _]]; [by left|right].
    apply list_elem_of_fmap. exists (s, r). split; [done|by eapply list_elem_of_lookup_2].
  - right. apply list_elem_of_fmap in Hx as (p & -> & Hp). apply list_elem_of_fmap_2. by eapply delete_elem.
Qed.

(** A commit that publishes is up to date, one at the same revision stays so. *)
Lemma published_current g db s r versions :
  load_snapshot self db = Ok s ->
  up_to_date (mkGateway db (gw_live g) (gw_waiting g ++ [(s, r)]) (gw_answers g) versions).
Proof.
  intros Hl. exists s. split; [|by apply load_revision]. unfold candidates. cbn [gw_live gw_waiting].
  rewrite map_app, app_comm_cons. apply elem_of_app. right. by left.
Qed.

Lemma arrive_current env nonce rq g : up_to_date g -> up_to_date (gateway_step (Arrive env nonce rq) g).
Proof.
  intros (x & Hx & Hr). cbn [gateway_step]. destruct (handle env nonce rq) as [h|] eqn:Eh; [|by exists x].
  pose proof (handle_follows env nonce rq h (gw_live g) (gw_db g) Eh) as Hf.
  destruct (h (gw_live g) (gw_db g)) as [[r|s r] db']; cbn in Hf; [subst db'; by exists x|].
  destruct Hf as [_ Hl]. by apply published_current.
Qed.

Lemma finish_current i g : never_ahead g -> up_to_date g -> up_to_date (gateway_step (Finish i) g).
Proof.
  intros Hg (x & Hx & Hr). cbn [gateway_step]. destruct (gw_waiting g !! i) as [[s r]|] eqn:Ei; [|by exists x].
  assert (s ∈ candidates g) as Hs.
  { right. apply list_elem_of_fmap. exists (s, r). split; [done|by eapply list_elem_of_lookup_2]. }
  pose proof (proj1 (Hg _ Hs)) as Hsle. pose proof (proj1 (Hg (gw_live g) ltac:(by left))) as Hlle.
  assert (x = gw_live g \/ x = s -> ss_revision (reload_snapshot (gw_live g) s).2 = db_revision (gw_db g)) as Hnew.
  { destruct (reload_cases (gw_live g) s) as [[-> Hlt]|[-> Hle]]; intros [->| ->]; lia. }
  unfold candidates in *. apply elem_of_cons in Hx as [->|Hx].
  - exists (reload_snapshot (gw_live g) s).2. split; [by left|]. apply Hnew. by left.
  - apply list_elem_of_fmap in Hx as (p & -> & Hp). destruct (elem_of_delete_or _ _ _ _ Ei Hp) as [->|Hp'].
    + exists (reload_snapshot (gw_live g) s).2. split; [by left|]. apply Hnew. by right.
    + exists p.1. split; [|done]. right. cbn [gw_waiting]. by apply list_elem_of_fmap_2.
Qed.

Lemma gateway_step_inv action g :
  action_ok action g -> never_ahead g /\ up_to_date g -> never_ahead (gateway_step action g) /\ up_to_date (gateway_step action g).
Proof.
  intros Hok [Hg Hu]. destruct action as [env nonce rq|db s r|change|i|i].
  - split; [by apply arrive_ahead|by apply arrive_current].
  - split; [by apply restored_ahead|apply published_current, Hok].
  - split; [by apply elsewhere_ahead|]. destruct Hu as (x & Hx & Hr). exists x. split; [done|].
    cbn [gateway_step gw_db]. cbn in Hok. congruence.
  - split; [by apply finish_ahead|by apply finish_current].
  - destruct Hok.
Qed.

Lemma run_inv actions : forall g, undisturbed actions g -> never_ahead g /\ up_to_date g ->
  never_ahead (gateway_run actions g) /\ up_to_date (gateway_run actions g).
Proof.
  induction actions as [|a actions IH]; intros g Hd Hg; [done|]. destruct Hd as [Ha Hd]. apply IH; [done|].
  by apply gateway_step_inv.
Qed.

(** Every request that arrived is answered or waiting. *)
Definition accounted (g : Gateway) : nat := (length (gw_waiting g) + length (gw_answers g))%nat.
Definition is_arrival (action : GatewayAction) : bool :=
  match action with
  | Arrive env nonce rq => is_some (handle env nonce rq)
  | Restored _ _ _ => true
  | _ => false
  end.

Lemma run_accounted actions : forall g, undisturbed actions g ->
  accounted (gateway_run actions g) = (accounted g + length (List.filter is_arrival actions))%nat.
Proof.
  induction actions as [|a actions IH]; intros g Hd; [cbn; lia|]. destruct Hd as [Ha Hd].
  change (gateway_run (a :: actions) g) with (gateway_run actions (gateway_step a g)). rewrite IH by done.
  destruct a as [env nonce rq|db s r|change|i|i]; cbn [gateway_step List.filter is_arrival]; [| | | |destruct Ha].
  - destruct (handle env nonce rq) as [h|]; cbn [is_some]; [|done].
    destruct (h (gw_live g) (gw_db g)) as [[r|s r] db']; unfold accounted; cbn [gw_waiting gw_answers length];
      rewrite length_app; cbn [length]; lia.
  - unfold accounted. cbn [gw_waiting gw_answers length]. rewrite length_app. cbn [length]. lia.
  - done.
  - destruct (gw_waiting g !! i) as [[s r]|] eqn:Ei; [|done]. unfold accounted. cbn [gw_waiting gw_answers].
    rewrite length_app. pose proof (length_delete (gw_waiting g) i (mk_is_Some _ _ Ei)). 
    apply lookup_lt_Some in Ei. cbn [length]. lia.
Qed.

(** The versions are of the tables' revision, and all the same when nothing
    commits elsewhere. *)
Definition is_elsewhere (action : GatewayAction) : bool := match action with Elsewhere _ => true | _ => false end.

Lemma committed_revisions g db :
  Forall (fun v => db_revision v = db_revision (gw_db g)) (gw_versions g) ->
  Forall (fun v => db_revision v = db_revision db) (committed g db).
Proof.
  intros Hv. unfold committed. destruct (Z.eqb_spec (db_revision db) (db_revision (gw_db g))) as [E|_]; [|by repeat constructor].
  apply Forall_app. split; [by rewrite E|by repeat constructor].
Qed.

Lemma run_revisions actions : forall g,
  Forall (fun v => db_revision v = db_revision (gw_db g)) (gw_versions g) ->
  Forall (fun v => db_revision v = db_revision (gw_db (gateway_run actions g))) (gw_versions (gateway_run actions g)).
Proof.
  induction actions as [|a actions IH]; intros g Hv; [done|]. apply IH.
  destruct a as [env nonce rq|db s r|change|i|i]; cbn [gateway_step]; try (by apply committed_revisions); [| |done].
  - destruct (handle env nonce rq) as [h|]; [|done].
    destruct (h (gw_live g) (gw_db g)) as [[r|s r] db']; by apply committed_revisions.
  - by destruct (gw_waiting g !! i) as [[s r]|].
Qed.

Lemma run_one_version actions : forall g,
  undisturbed actions g -> existsb is_elsewhere actions = false ->
  Forall (eq (gw_db g)) (gw_versions g) -> Forall (eq (gw_db (gateway_run actions g))) (gw_versions (gateway_run actions g)).
Proof.
  induction actions as [|a actions IH]; intros g Hd He Hv; [done|]. destruct Hd as [Ha Hd].
  cbn [existsb] in He. apply orb_false_iff in He as [He' He]. apply IH; [done..|].
  assert (forall db, db = gw_db g \/ db_revision (gw_db g) < db_revision db -> Forall (eq db) (committed g db)) as Hone.
  { intros db [->|Hr]; unfold committed; [rewrite Z.eqb_refl; apply Forall_app; by repeat constructor|].
    rewrite (proj2 (Z.eqb_neq _ _)) by lia. by repeat constructor. }
  destruct a as [env nonce rq|db s r|change|i|i]; cbn [gateway_step]; [| |done| |done].
  - destruct (handle env nonce rq) as [h|] eqn:Eh; [|done].
    pose proof (handle_follows env nonce rq h (gw_live g) (gw_db g) Eh) as Hf.
    destruct (h (gw_live g) (gw_db g)) as [[r|s r] db']; cbn in Hf; [apply (Hone db'); by left|]. apply (Hone db').
    destruct Hf as [[->|Hr] _]; [by left|right; lia].
  - apply (Hone db). right. apply Ha.
  - by destruct (gw_waiting g !! i) as [[s r]|].
Qed.

End System.

(** ** Examples *)

Definition unsupported {A} (_ : Request) : result A string := Err "unsupported".

Definition example_admin_json : AdminJson :=
  {| source_json _ := VNull; account_json a := VString (av_id a); logical_model_json _ := VNull;
     model_routing_json _ := VNull; binding_json _ := VNull; capability_json _ := VNull; route_json _ := VNull;
     matrix_json _ := VNull; resolved_json _ := VNull; resolution_error_json e := VString (re_code e);
     instant_json t := of_i64 t;
     read_source_create := unsupported; read_source := unsupported;
     read_enabled rq := match rq_body rq with BodyRead "true" => Ok true | BodyRead "false" => Ok false | _ => Err "invalid" end;
     read_account := unsupported; read_logical_model := unsupported; read_model_routing := unsupported;
     read_binding := unsupported; read_capability := unsupported; read_route := unsupported;
     read_credential _ := Err (error_response 400 "invalid_json" "");
     path_text s := Ok s; path_number s := match parse_int I64_MIN I64_MAX s with Some n => Ok n | None => Err (error_response 400 "path" "") end |}.

Section Example.
Local Existing Instances example_errors any_url example_serde json_concrete mock_crypto example_control_env example_admin_json.
#[local] Instance example_publish_build : BuildCfg := false.
#[local] Instance example_publish_collation : Collation := str_cmp.
#[local] Instance example_publish_digest : Sha256 := fun s => s.

(** The tables of three operations, and their snapshot live. *)
Definition example_tables_db : ControlDb :=
  fold_left (fun db op => (perform example_plane op db).2) (take 3 example_operations) example_control_db.
Definition example_live : RuntimeSnapshot :=
  match load_snapshot example_plane example_tables_db with
  | Ok s => s
  | Err _ => mkRuntimeSnapshot (mkGatewayConfig "" [] [] []) (RouteResolver_new (mkGatewayConfig "" [] [] [])) [] 0 0
  end.
Definition example_gateway : Gateway := mkGateway example_tables_db example_live [] [] [example_tables_db].

Definition switch_account (enabled : string) : GatewayAction :=
  Arrive example_control_env None (mkRequest PUT "/admin/accounts/ka/enabled" [("x-api-key", "admin")] (BodyRead enabled)).

Abbreviation example_run := (gateway_run (mkAdminAuth (Some "admin")) example_plane SecretResolver_empty).

(** A source model is marked unavailable, as a discovery does that misses it. *)
Definition model_vanishes (db : ControlDb) : ControlDb :=
  set_catalog db (ModelCatalog.set_source_models (db_catalog db)
    (missing_row 9 9 <$> cd_source_models (db_catalog db))).

(** An account is disabled and enabled again; the second publishes first. *)
Definition example_crossing : list GatewayAction := [switch_account "false"; switch_account "true"; Finish 1; Finish 0].


(** A handler that is dropped after its transaction leaves the gateway behind:
    the account is disabled in the tables and still routed to. *)
Example dropped_handler_leaves_the_old_snapshot :
  let g := example_run [switch_account "false"; Dropped 0] example_gateway in
  gw_waiting g = [] /\ db_revision (gw_db g) = 4 /\ ss_revision (gw_live g) = 3.
Proof. vm_compute. done. Qed.

(** What a discovery finds is routed by only when something else publishes. *)
Definition reload_config_request : GatewayAction :=
  Arrive example_control_env None (mkRequest POST "/admin/config/reload" [("x-api-key", "admin")] (BodyRead "")).

Example discoveries_wait_for_a_publication :
  let routes g := length (unwrap_or (rv_runtime_routes (ss_resolver (gw_live g))) []) in
  let g := example_run [Elsewhere model_vanishes] example_gateway in
  routes g = 1%nat /\ routes (example_run [reload_config_request; Finish 0] g) = 0%nat.
Proof. vm_compute. done. Qed.
End Example.
