(* ===== verification/ProbeApi.v ===== *)
(** * Probes, connection tests and the discovery API

    What [src/src/infra/health.rs] does with a connection test, and the handlers
    of [src/src/api/health_admin.rs] and [discovery.rs]: the account health
    they report, the probes they run, and the catalogue they show and change.

    The tables of the control plane, the log of requests and the health registry
    are one state.  Its registry has the joined rows of accounts and sources as
    a table of its own, as in [Health].

    A batch of probes records one test for every account it could test and
    touches no other account; the health report agrees with the availability the
    data plane routes by. *)

From Stdlib Require Import ZArith Lia Ascii.
From stdpp Require Import base list strings gmap.
From S2P Require Import Prelude.
From S2P Require Import RustStr.
From S2P Require Import Protocol.
From S2P Require Import BTree.
From S2P Require Import Tx.
From S2P Require Import Config.
From S2P Require Import Health.
From S2P Require Import HealthProps.
From S2P Require Import SourceUrl.
From S2P Require Import Json.
From S2P Require Import Redaction.
From S2P Require Import Catalog.
From S2P Require Import Presets.
From S2P Require Import PresetDiff.
From S2P Require Import ModelCatalog.
From S2P Require Import Discovery.
From S2P Require Import Snapshot.
From S2P Require Import Http.
From S2P Require Import VirtualKeys.
From S2P Require Import Secrets.
From S2P Require Import Validation.
From S2P Require Import ControlDb.
From S2P Require ControlPlane.
From S2P Require Import ControlReads.
From S2P Require Import Auth.
From S2P Require Import RequestAudit.
From S2P Require Import AdminGate.
From S2P Require Import AdminApi.

(** ** Queries of the catalogue *)

Section Queries.
Context `{Collation}.

(** [ORDER BY id, version DESC]. *)
Definition list_provider_presets (db : CatalogDb) : list ProviderPresetRecord :=
  order_by (fun x y => match collate (pv_id x) (pv_id y) with
                       | Lt => true | Gt => false | Eq => pv_version y <=? pv_version x end)
    (map snd (map_to_list (cd_provider_presets db))).

Definition list_source_models (source_id : string) (confirmation : option CatalogStatus)
    (availability : option CatalogAvailability) (db : CatalogDb) : list SourceModelRecord :=
  order_by (fun x y => first (collate (sm_upstream_model_id x) (sm_upstream_model_id y)))
    (List.filter (fun m => (sm_source_id m =?s source_id)
       && is_none_or confirmation (fun status => bool_decide (sm_confirmation_status m = status))
       && is_none_or availability (fun status => bool_decide (sm_availability_status m = status)))
       (map snd (map_to_list (cd_source_models db)))).

(** [ORDER BY completed_at DESC, id DESC LIMIT 1]. *)
Definition latest_discovery_run (source_id : string) (db : CatalogDb) : option DiscoveryRunRecord :=
  head (order_by (fun x y => (dr_completed_at y <? dr_completed_at x)
                             || ((dr_completed_at x =? dr_completed_at y) && (dr_id y <=? dr_id x)))
          (List.filter (fun run => dr_source_id run =?s source_id) (cd_runs db))).

(** ** Queries of the health registry: [infra/db/health.rs] *)

Record HealthAccountMetadata : Type := mkHealthAccountMetadata {
  hm_id : string;
  hm_source_id : string;
  hm_display_name : string;
  hm_enabled : bool;
}.

Definition account_metadata (id : string) (row : AccountRow) : HealthAccountMetadata :=
  mkHealthAccountMetadata id (ax_source_id row) (ax_display_name row) (ax_enabled row).

Definition health_accounts_metadata (db : CatalogDb) : list HealthAccountMetadata :=
  by_id hm_id (map (fun kv => account_metadata kv.1 kv.2) (map_to_list (cd_accounts db))).

Definition health_account_metadata (account_id : string) (db : CatalogDb) : option HealthAccountMetadata :=
  account_metadata account_id <$> cd_accounts db !! account_id.

Definition account_source_id (account_id : string) (db : CatalogDb) : option string :=
  ax_source_id <$> cd_accounts db !! account_id.

(** [from_value::<BTreeMap<Protocol, Value>>]. *)
Definition protocol_values (v : Value) : option (list (Protocol * Value)) :=
  match v with
  | VObject m => bt_collect <$> mapM (fun kv => (fun p => (p, kv.2)) <$> protocol_of_name kv.1) m
  | _ => None
  end.

(** Whether a capability names a mode that serves requests; one without a mode
    counts as serving. *)
Definition mode_serves (capability : option Value) : bool :=
  is_none_or (capability ≫= fun value => opt_or (get value "mode") (Some value) ≫= as_str)
    (fun mode => negb (one_of mode ["unknown"; "unsupported"])).

(** The protocol a source is probed with. *)
Definition probe_protocol (source : SourceRecord) : option Protocol :=
  let endpoints := unwrap_or (endpoints_from_value (so_endpoints source)) [] in
  let capabilities := unwrap_or (protocol_values (so_protocol_capabilities source)) [] in
  List.find (fun protocol =>
    is_some_and (bt_get endpoints protocol) (fun endpoint => negb (is_empty (trim endpoint)))
    && mode_serves (bt_get capabilities protocol)) Protocol_ALL.

Definition probe_target (db : CatalogDb) (id : string) (row : AccountRow) : option (string * string * Protocol) :=
  match cd_sources db !! ax_source_id row with
  | Some source =>
      if ax_enabled row && so_enabled source && negb (so_provider_preset_id source =?s "custom")
      then (fun protocol => (id, ax_source_id row, protocol)) <$> probe_protocol source
      else None
  | None => None
  end.

Definition health_probe_targets (db : CatalogDb) : list (string * string * Protocol) :=
  omap (fun kv => probe_target db kv.1 kv.2) (by_id fst (map_to_list (cd_accounts db))).

Definition health_probe_protocol (account_id : string) (db : CatalogDb) : option Protocol :=
  snd <$> List.find (fun target => target.1.1 =?s account_id) (health_probe_targets db).
End Queries.

(** [all_health]; the registry reads its clock for each account. *)
Definition all_health `{Chrono} (self : HealthRegistry) (fault : option DbFault) (now : string -> Z)
    : gmap string AccountHealth :=
  let stale_after := hc_stale_after (Health.hr_config self) in
  match Health.hr_database self with
  | Some db =>
      match fault with
      | Some _ => ∅
      | None => map_imap (fun id row => Some (health_from_row row (now id) stale_after)) (Health.db_accounts db)
      end
  | None => map_imap (fun id state => Some (memory_health state (now id) stale_after)) (Health.hr_state self)
  end.

(** ** Probes *)

Inductive ProbeError : Type :=
| DatabaseRequired | PeDatabase | PeDiscovery (error : DiscoveryServiceError) | AccountNotFound (account_id : string).

Definition probe_error_code (self : ProbeError) : string :=
  match self with
  | DatabaseRequired => "database_unavailable"
  | PeDatabase => "database_error"
  | PeDiscovery error => discovery_error_code error
  | AccountNotFound _ => "not_found"
  end.

Definition probe_error_message (self : ProbeError) : string :=
  match self with
  | DatabaseRequired => "health probes require PostgreSQL"
  | PeDatabase => "health probe database operation failed"
  | PeDiscovery error => public_message error
  | AccountNotFound account_id => "account '" +:+ account_id +:+ "' not found"
  end.

Record ProbeOutcome : Type := mkProbeOutcome {
  po_account_id : string;
  po_protocol : Protocol;
  po_connection_test : ModelCatalog.ConnectionTestRecord;
  po_health : AccountHealth;
}.

(** The state of the process and the database, and what is asked of the outside:
    the clock of the registry, faults of its statements, and whether a query
    fails; numbered, with the answers of [DiscoveryEnv], by the effects so far. *)
Record ProbeState : Type := mkProbeState {
  ps_tick : nat;
  ps_control : ControlDb;
  ps_sent : list DiscoveryRequest;
  ps_health : HealthRegistry;
}.

Class ProbeEnv : Type := {
  pe_now : nat -> Z;
  pe_fault : nat -> option DbFault;
  pe_query_fails : nat -> bool;
}.

Definition Pm (A : Type) : Type := ProbeState -> A * ProbeState.
Definition p_ret {A} (x : A) : Pm A := fun s => (x, s).
Definition p_bind {A B} (m : Pm A) (f : A -> Pm B) : Pm B := fun s => let '(x, s) := m s in f x s.
Notation "'let&' x ':=' m 'in' k" := (p_bind m (fun x => k))
  (at level 10, x pattern, m at level 100, k at level 200) : gw_scope.

Definition p_tick {A} (f : nat -> ProbeState -> A) : Pm A := fun s =>
  (f (ps_tick s) s, mkProbeState (S (ps_tick s)) (ps_control s) (ps_sent s) (ps_health s)).

(** A run of the discovery service, or of a repository operation. *)
Definition p_service {A} (m : Dm A) : Pm (result A DiscoveryServiceError) := fun s =>
  let '(r, d) := m (mkDiscoveryState (ps_tick s) (db_catalog (ps_control s)) (ps_sent s)) in
  (r, mkProbeState (ds_tick d) (set_catalog (ps_control s) (ds_db d)) (ds_sent d) (ps_health s)).

Definition p_catalog {A} (op : Z -> CatalogDb -> result A CatalogError * CatalogDb) (now : nat -> Z)
    : Pm (result A CatalogError) := fun s =>
  let '(r, db) := op (now (ps_tick s)) (db_catalog (ps_control s)) in
  (r, mkProbeState (S (ps_tick s)) (set_catalog (ps_control s) db) (ps_sent s) (ps_health s)).

(** What the registry reads of a test. *)
Definition observed_test (record : ModelCatalog.ConnectionTestRecord) : Health.ConnectionTestRecord :=
  Health.mkConnectionTestRecord (cr_id record) (cr_account_id record) (cr_status record) (cr_error_code record)
    (cr_error_message record) (cr_latency_ms record).

Section Probes.
Context `{DiscoveryEnv} `{ProbeEnv} `{UrlCrates} `{PresetSerde} `{HttpNames} `{SerdeJson} {text : SerdeText} `{Collation}
  `{Chrono} `{PgTime}.

(** A query of the registry, which may fail. *)
Definition p_query {A} (q : CatalogDb -> A) : Pm (option A) :=
  p_tick (fun n s => if pe_query_fails n then None else Some (q (db_catalog (ps_control s)))).

Definition apply_test (record : ModelCatalog.ConnectionTestRecord) : Pm unit := fun s =>
  let n := ps_tick s in
  (tt, mkProbeState (S n) (ps_control s) (ps_sent s)
         (apply_connection_test (ps_health s) (pe_fault n) (pe_now n) (observed_test record))).

Definition current_health (account_id : string) : Pm AccountHealth :=
  p_tick (fun n s => get_health (ps_health s) (pe_fault n) (pe_now n) account_id).

Definition database_configured (s : ProbeState) : bool := is_some (Health.hr_database (ps_health s)).

Definition probe_account (account_id : string) (protocol : Protocol) (model : option string) (requested_by : string)
    : Pm (result ProbeOutcome ProbeError) := fun s =>
  if negb (database_configured s) then (Err DatabaseRequired, s)
  else
    (let& source_id := p_query (account_source_id account_id) in
     match source_id with
     | None => p_ret (Err PeDatabase)
     | Some None => p_ret (Err (AccountNotFound account_id))
     | Some (Some source_id) =>
         let& record := p_service (test_connection source_id account_id protocol model requested_by) in
         match record with
         | Err error => p_ret (Err (PeDiscovery error))
         | Ok record =>
             let& _ := apply_test record in
             let& health := current_health account_id in
             p_ret (Ok (mkProbeOutcome account_id protocol record health))
         end
     end) s.
End Probes.

(** ** Requests *)

Record ConnectionTestRequest : Type := mkConnectionTestRequest {
  tq_account_id : string;
  tq_protocol : Protocol;
  tq_model : option string;
  tq_requested_by : option string;
}.

(** [DiscoveryRequest] of the handler; a request of the service is
    [Discovery.DiscoveryRequest]. *)
Record DiscoverModelsRequest : Type := mkDiscoverModelsRequest {
  gq_account_id : string;
  gq_requested_by : option string;
}.

Record SourceModelsQuery : Type := mkSourceModelsQuery {
  sq_confirmation_status : option CatalogStatus;
  sq_availability_status : option CatalogAvailability;
}.

(** [EditSourceModelRequest] and [ConfirmSourceModelRequest]. *)
Record EditSourceModelRequest : Type := mkEditSourceModelRequest {
  eq_upstream_model_id : string;
  eq_metadata : option MetadataValues;
}.

(** [HealthProbeRequest]; a batch has [account_ids] instead. *)
Record HealthProbeRequest : Type := mkHealthProbeRequest {
  pq_account_id : option string;
  pq_protocol : option Protocol;
  pq_model : option string;
  pq_requested_by : option string;
}.

Record HealthProbesRequest : Type := mkHealthProbesRequest {
  bq_account_ids : option (list string);
  bq_protocol : option Protocol;
  bq_model : option string;
  bq_requested_by : option string;
}.

Definition default_actor : string := "admin_api".
Definition default_probe_actor : string := "admin_health_probe".

(** The derived code of [serde] and the extractors of [axum]: a payload with the
    text of its rejection, or nothing if it cannot be read; a default is filled
    in by the handlers below. *)
Class ProbeJson : Type := {
  source_path : Request -> result string Response;
  body_of : Request -> result string Response;
  models_query : Request -> result SourceModelsQuery Response;
  read_test_request : string -> option ConnectionTestRequest;
  read_discover_request : string -> option DiscoverModelsRequest;
  read_edit_request : string -> option EditSourceModelRequest;
  read_confirm_request : string -> option (list EditSourceModelRequest);
  read_probe_request : Request -> result HealthProbeRequest string;
  read_probes_request : Request -> result HealthProbesRequest string;
  preset_record_json : ProviderPresetRecord -> Value;
  preset_diff_json : ProviderPresetDiff -> Value;
  test_json : ModelCatalog.ConnectionTestRecord -> Value;
  execution_json : DiscoveryExecution -> Value;
  discovery_run_json : DiscoveryRunRecord -> Value;
  diff_of_json : Value -> result DiscoveryDiff string;
  discovery_diff_json : DiscoveryDiff -> Value;
  model_json : SourceModelRecord -> Value;
  health_json : AccountHealth -> Value;
  outcome_json : ProbeOutcome -> Value;
  moment_json : Z -> Value;
}.

(** ** Responses *)

Definition ok_json (value : Value) : Response := json_response 200 value.
Definition data_json (value : Value) : Response := ok_json (json_object [("data", value)]).

Definition service_error_response (error : DiscoveryServiceError) : Response :=
  let code := discovery_error_code error in
  error_response (if code =?s "not_found" then 404 else if code =?s "database_error" then 500 else 422)
    code (public_message error).

Definition catalog_error_response (error : CatalogError) : Response :=
  match error with
  | CtNotFound message => error_response 404 "not_found" message
  | CtInvalidMetadata message | CtInvalidState message => error_response 422 "invalid_catalog_state" message
  | CtImmutableVersionConflict message => error_response 409 "immutable_version_conflict" message
  | CtDatabase UniqueViolation => error_response 409 "catalog_conflict" "catalog record already exists"
  | CtDatabase _ | CtJson _ => error_response 500 "database_error" "catalog database operation failed"
  end.

Definition probe_error_response (error : ProbeError) : Response :=
  let code := probe_error_code error in
  error_response
    (if code =?s "not_found" then 404
     else if code =?s "database_unavailable" then 503
     else if code =?s "database_error" then 500
     else if one_of code ["source_url_blocked"; "invalid_source_url"; "invalid_provider_preset"; "invalid_header_template";
                          "credential_unavailable"; "protocol_unsupported"] then 422
     else 502) code (probe_error_message error).

Definition health_database_error (message : string) : Response := error_response 500 "database_error" message.

Definition MAX_ADMIN_JSON_BYTES : Z := 1024 * 1024.

Definition parse_json {T} (read : string -> option T) (body : string) : result T Response :=
  if MAX_ADMIN_JSON_BYTES <? slen body
  then Err (error_response 413 "request_too_large" "admin request body exceeds the size limit")
  else ok_or (read body) (error_response 400 "invalid_json" "request body is not valid for this operation").

(** ** Handlers *)

Definition ProbeHandler : Type := Pm Response.

Section Handlers.
Context `{DiscoveryEnv} `{ProbeEnv} `{UrlCrates} `{PresetSerde} `{HttpNames} `{SerdeJson} {text : SerdeText} `{Collation}
  `{Chrono} `{PgTime} `{Sha256} `{ErrorTexts} `{ProbeJson}.
(** The admin key, whether there is a database, and the control plane. *)
Context (admin_auth : AdminAuth) (database : bool) (control_plane : option ControlPlane).

Definition authorized_database (rq : Request) : bool := admin_authorized admin_auth (rq_headers rq) && database.

Definition authorization_or_database_error (rq : Request) : Response :=
  if negb (admin_authorized admin_auth (rq_headers rq)) then unauthorized
  else if negb database then database_unavailable "DATABASE_URL is not configured"
  else error_response 500 "catalog_unavailable" "catalog service is unavailable".

(** The extractors, then the first lines of every handler. *)
Definition with_catalog (rq : Request) (k : ProbeHandler) : ProbeHandler :=
  if authorized_database rq then k else p_ret (authorization_or_database_error rq).

Definition extract {A} (extractor : result A Response) (k : A -> ProbeHandler) : ProbeHandler :=
  match extractor with Ok x => k x | Err response => p_ret response end.

Definition catalog_read {A} (q : CatalogDb -> A) : Pm A := fun s => (q (db_catalog (ps_control s)), s).

Definition catalog_answer {A} (json : A -> Value) (r : result A CatalogError) : Response :=
  match r with Ok x => data_json (json x) | Err error => catalog_error_response error end.

(** *** [discovery.rs] *)

Definition get_provider_presets (rq : Request) : ProbeHandler :=
  with_catalog rq (
    let& presets := catalog_read ProbeApi.list_provider_presets in
    p_ret (data_json (array preset_record_json presets))).

(** The difference always exists ([PresetDiff.provider_preset_diff_correct]). *)
Definition source_preset_diff (rq : Request) : ProbeHandler :=
  extract (source_path rq) (fun source_id => with_catalog rq (
    let& source := catalog_read (ModelCatalog.get_source source_id) in
    match source with
    | Err error => p_ret (catalog_error_response error)
    | Ok source =>
        let& latest := catalog_read (latest_provider_preset (so_provider_preset_id source)) in
        match latest with
        | Err error => p_ret (catalog_error_response error)
        | Ok latest =>
            p_ret (data_json (unwrap_or (preset_diff_json <$> provider_preset_diff source latest) VNull))
        end
    end)).

Definition test_connection_handler (rq : Request) : ProbeHandler :=
  extract (source_path rq) (fun source_id => extract (body_of rq) (fun body => with_catalog rq (
    extract (parse_json read_test_request body) (fun request =>
      let& result := p_service (test_connection source_id (tq_account_id request) (tq_protocol request) (tq_model request)
                                  (unwrap_or (tq_requested_by request) default_actor)) in
      match result with
      | Ok record => let& _ := apply_test record in p_ret (data_json (test_json record))
      | Err error => p_ret (service_error_response error)
      end)))).

Definition discover_models (rq : Request) : ProbeHandler :=
  extract (source_path rq) (fun source_id => extract (body_of rq) (fun body => with_catalog rq (
    extract (parse_json read_discover_request body) (fun request =>
      let& result := p_service (discover source_id (gq_account_id request)
                                  (unwrap_or (gq_requested_by request) default_actor)) in
      p_ret match result with
            | Ok execution => data_json (execution_json execution)
            | Err error => service_error_response error
            end)))).

Definition latest_discovery (rq : Request) : ProbeHandler :=
  extract (source_path rq) (fun source_id => with_catalog rq (
    let& run := catalog_read (latest_discovery_run source_id) in
    p_ret match run with
          | Some run =>
              match diff_of_json (dr_diff run) with
              | Ok diff =>
                  ok_json (json_object [("data", discovery_run_json run); ("diff", discovery_diff_json diff);
                                        ("last_discovered_at", moment_json (dr_completed_at run))])
              | Err error => catalog_error_response (CtJson error)
              end
          | None => error_response 404 "discovery_not_found" "source has no discovery history"
          end)).

Definition get_source_models (rq : Request) : ProbeHandler :=
  extract (source_path rq) (fun source_id => extract (models_query rq) (fun query => with_catalog rq (
    let& models := catalog_read (list_source_models source_id (sq_confirmation_status query) (sq_availability_status query)) in
    p_ret (data_json (array model_json models))))).

Definition edit_source_model (rq : Request) : ProbeHandler :=
  extract (source_path rq) (fun source_id => extract (body_of rq) (fun body => with_catalog rq (
    extract (parse_json read_edit_request body) (fun request =>
      let& model := p_catalog (update_source_model_user_overrides source_id (eq_upstream_model_id request)
                                 (unwrap_or (eq_metadata request) [])) dv_utc in
      p_ret (catalog_answer model_json model))))).

Definition confirm_models (rq : Request) : ProbeHandler :=
  extract (source_path rq) (fun source_id => extract (body_of rq) (fun body => with_catalog rq (
    extract (parse_json read_confirm_request body) (fun models =>
      let confirmations :=
        map (fun m => mkSourceModelConfirmation (eq_upstream_model_id m) (unwrap_or (eq_metadata m) [])) models in
      let& models := p_catalog (confirm_source_models source_id confirmations) dv_utc in
      p_ret (catalog_answer (array model_json) models))))).

(** *** [health_admin.rs] *)

Definition with_admin (rq : Request) (k : ProbeHandler) : ProbeHandler :=
  if admin_authorized admin_auth (rq_headers rq) then k else p_ret unauthorized.

(** Where the accounts come from: the control plane, the database or the live
    configuration. *)
Definition listed_accounts (live : RuntimeSnapshot) : Pm (result (list HealthAccountMetadata) Response) :=
  if is_some control_plane then fun s =>
    (Ok (map (fun a => mkHealthAccountMetadata (av_id a) (av_source_id a) (av_display_name a) (av_enabled a))
           (ControlReads.list_accounts (ps_control s))), s)
  else if database then
    let& accounts := p_query health_accounts_metadata in
    p_ret (ok_or accounts (health_database_error "failed to list accounts for health API"))
  else
    p_ret (Ok (map (fun a => mkHealthAccountMetadata (ac_id a) (ac_provider_id a) (ac_display_name a) (ac_enabled a))
                 (gc_accounts (ss_config live)))).

(** The health of an account without an entry. *)
Definition absent_health (enabled database_configured : bool) : AccountHealth :=
  mkAccountHealth (enabled && negb database_configured) true 0 0 (if enabled then "unknown" else "disabled") "unknown"
    true None None None None None None None.

Definition reported_health (health_map : gmap string AccountHealth) (database_configured : bool)
    (account : HealthAccountMetadata) : AccountHealth :=
  default (absent_health (hm_enabled account) database_configured) (health_map !! hm_id account).

Definition account_row_json (account : HealthAccountMetadata) (health : AccountHealth) : Value :=
  let time t := match t with Some t => moment_json t | None => VNull end in
  json_object
    [("account_id", VString (hm_id account)); ("provider_id", VString (hm_source_id account));
     ("source_id", VString (hm_source_id account)); ("source", VString (ah_source health));
     ("display_name", VString (hm_display_name account)); ("enabled", VBool (hm_enabled account));
     ("health_status", VString (ah_status health)); ("health_source", VString (ah_source health));
     ("health_updated_at", time (ah_updated_at health)); ("updated_at", time (ah_updated_at health));
     ("stale", VBool (ah_stale health)); ("cooldown_until", time (ah_cooldown_until health));
     ("consecutive_failures", of_i64 (ah_consecutive_failures health)); ("health", health_json health)].

(** The clock as the registry reads it for each account. *)
Definition health_table (clock : string -> Z) : Pm (gmap string AccountHealth) :=
  p_tick (fun n s => all_health (ps_health s) (pe_fault n) clock).

Definition admin_health (live : RuntimeSnapshot) (clock : string -> Z) (rq : Request) : ProbeHandler :=
  with_admin rq (
    let& health_map := health_table clock in
    let& accounts := listed_accounts live in
    match accounts with
    | Err response => p_ret response
    | Ok accounts => fun s =>
        (ok_json (json_object
           [("fact_source", VString (if database_configured s then "postgresql" else "memory"));
            ("stale_after_secs", of_i64 (hc_stale_after (Health.hr_config (ps_health s)) / NS_PER_SEC));
            ("data", VArray (map (fun account =>
               account_row_json account (reported_health health_map (database_configured s) account)) accounts))]), s)
    end).

Definition account_not_found : Response := error_response 404 "not_found" "account not found".

Definition found_account (live : RuntimeSnapshot) (account_id : string) : Pm (result HealthAccountMetadata Response) :=
  if is_some control_plane then fun s =>
    (match ControlReads.get_account account_id (ps_control s) with
     | Ok a => Ok (mkHealthAccountMetadata (av_id a) (av_source_id a) (av_display_name a) (av_enabled a))
     | Err (CpNotFound _) => Err account_not_found
     | Err error => Err (control_plane_error error)
     end, s)
  else if database then
    let& account := p_query (health_account_metadata account_id) in
    p_ret match account with
          | Some (Some account) => Ok account
          | Some None => Err account_not_found
          | None => Err (health_database_error "failed to read account for health API")
          end
  else
    p_ret match account (ss_config live) account_id with
          | Some a => Ok (mkHealthAccountMetadata (ac_id a) (ac_provider_id a) (ac_display_name a) (ac_enabled a))
          | None => Err account_not_found
          end.

Definition admin_account_health (live : RuntimeSnapshot) (account_id : result string Response) (rq : Request) : ProbeHandler :=
  extract account_id (fun account_id => with_admin rq (
    let& health := current_health account_id in
    let& account := found_account live account_id in
    p_ret match account with
          | Err response => response
          | Ok account =>
              data_json (json_object
                [("account_id", VString (hm_id account)); ("source_id", VString (hm_source_id account));
                 ("display_name", VString (hm_display_name account)); ("enabled", VBool (hm_enabled account));
                 ("health", health_json health); ("stale", VBool (ah_stale health)); ("source", VString (ah_source health));
                 ("updated_at", match ah_updated_at health with Some t => moment_json t | None => VNull end)])
          end)).

(** The protocol of a probe: the requested one, or that of the account's target;
    [None] if the query for it fails. *)
Definition chosen_protocol (requested : option Protocol) (account_id : string) : Pm (option Protocol) := fun s =>
  match requested with
  | Some protocol => (Some protocol, s)
  | None =>
      if database_configured s
      then let '(found, s) := p_query (health_probe_protocol account_id) s in
           ((fun protocol => unwrap_or protocol OpenAiChatCompletions) <$> found, s)
      else (Some OpenAiChatCompletions, s)
  end.

Definition probe_request (payload : result HealthProbeRequest string) (rq : Request) : ProbeHandler :=
  with_admin rq (extract (json_payload payload) (fun request =>
    match opt_filter (fun id => negb (is_empty (trim id))) (pq_account_id request) with
    | None => p_ret (error_response 422 "account_required" "account_id is required for a health probe")
    | Some account_id =>
        let& protocol := chosen_protocol (pq_protocol request) account_id in
        match protocol with
        | None => p_ret (health_database_error "failed to determine health probe protocol")
        | Some protocol =>
            let& outcome := probe_account account_id protocol (pq_model request)
                              (unwrap_or (pq_requested_by request) default_probe_actor) in
            p_ret match outcome with
                  | Ok outcome => data_json (outcome_json outcome)
                  | Err error => probe_error_response error
                  end
        end
    end)).

Definition admin_health_probe (rq : Request) : ProbeHandler := probe_request (read_probe_request rq) rq.

(** The account of the path replaces that of the payload. *)
Definition admin_account_probe (account_id : result string Response) (rq : Request) : ProbeHandler :=
  extract account_id (fun account_id =>
    probe_request
      (let? request := read_probe_request rq in
       Ok (mkHealthProbeRequest (Some account_id) (pq_protocol request) (pq_model request) (pq_requested_by request))) rq).

(** One account after the other; a failed query for the protocol means the
    default. *)
Fixpoint probe_all (protocol : option Protocol) (model : option string) (requested_by : string) (account_ids : list string)
    : Pm (list ProbeOutcome * list (string * ProbeError)) :=
  match account_ids with
  | [] => p_ret ([], [])
  | account_id :: account_ids =>
      let& protocol1 := chosen_protocol protocol account_id in
      let& outcome := probe_account account_id (unwrap_or protocol1 OpenAiChatCompletions) model requested_by in
      let& rest := probe_all protocol model requested_by account_ids in
      p_ret match outcome with
            | Ok outcome => (outcome :: rest.1, rest.2)
            | Err error => (rest.1, (account_id, error) :: rest.2)
            end
  end.

Definition probe_ids (account_ids : option (list string)) : Pm (option (list string)) :=
  match account_ids with
  | Some (id :: ids) => p_ret (Some (id :: ids))
  | _ =>
      let& targets := p_query health_probe_targets in
      p_ret (map (fun target => target.1.1) <$> targets)
  end.

Definition probe_error_json (error : string * ProbeError) : Value :=
  json_object [("account_id", VString error.1); ("code", VString (probe_error_code error.2));
               ("message", VString (probe_error_message error.2))].

Definition admin_health_probes (rq : Request) : ProbeHandler :=
  with_admin rq (extract (json_payload (read_probes_request rq)) (fun request => fun s =>
    if negb (database_configured s)
    then (database_unavailable "health probes require PostgreSQL", s)
    else
      (let& ids := probe_ids (bq_account_ids request) in
       match ids with
       | None => p_ret (health_database_error "failed to list health probe targets")
       | Some ids =>
           let& outcomes := probe_all (bq_protocol request) (bq_model request)
                              (unwrap_or (bq_requested_by request) default_probe_actor) ids in
           p_ret (ok_json (json_object [("data", VArray (map outcome_json outcomes.1));
                                        ("errors", VArray (map probe_error_json outcomes.2))]))
       end) s)).
End Handlers.

(** ** Entries of the registry *)

Section Entries.
Context `{Chrono} `{PgTime}.

(** What a report of an account depends on. *)
Definition health_entry (self : HealthRegistry) (id : string) :=
  (Health.hr_config self, (fun db => Health.db_accounts db !! id) <$> Health.hr_database self, Health.hr_state self !! id).

Lemma get_health_entry self self' fault now id :
  health_entry self id = health_entry self' id -> get_health self fault now id = get_health self' fault now id.
Proof.
  unfold health_entry, get_health, account_health. intros [= Hc Hd Hs]. rewrite Hc, Hs.
  destruct (Health.hr_database self), (Health.hr_database self'); try done. injection Hd as ->. done.
Qed.

Lemma apply_test_other self fault now record other : Health.ct_account_id record <> Some other ->
  health_entry (apply_connection_test self fault now record) other = health_entry self other.
Proof.
  intros Hne. unfold apply_connection_test. destruct (Health.ct_account_id record) as [acc|]; [|done].
  assert (acc <> other) as Hacc by congruence.
  unfold health_entry, mark_success_with_source, mark_probe_failure. destruct (_ =?s _).
  - destruct (Health.hr_database self) as [db|] eqn:Hdb; cbn; [|by rewrite lookup_insert_ne].
    unfold record_account_health_success. destruct fault as [[]|]; cbn; try done;
      (destruct (Health.db_accounts db !! acc) as [row|]; cbn; [|done]); (destruct (_ || _); cbn; [done|]);
      by rewrite lookup_insert_ne.
  - destruct (Health.hr_database self) as [db|] eqn:Hdb; cbn.
    + unfold record_account_health_failure. destruct fault as [[]|]; cbn; try done;
        (destruct (Health.db_accounts db !! acc) as [row|]; cbn; [|done]); (destruct (_ || _); cbn; [done|]);
        (destruct (row_failure_transition _ _ _ _ _ _) as [[[? ?] ?] ?]; cbn); by rewrite lookup_insert_ne.
    + unfold mark_memory_failure. destruct (memory_failure _ _ _ _ _) as [m' b]. cbn. by rewrite Hdb, lookup_insert_ne.
Qed.

Lemma apply_test_database self fault now record :
  is_some (Health.hr_database (apply_connection_test self fault now record)) = is_some (Health.hr_database self).
Proof.
  unfold apply_connection_test, mark_success_with_source, mark_probe_failure, mark_memory_failure.
  destruct (Health.ct_account_id record); [|done]. destruct (Health.hr_database self) eqn:E; destruct (_ =?s _); try done.
  by destruct (memory_failure _ _ _ _ _).
Qed.

(** The enabled flags of an account are not touched. *)
Lemma apply_test_writable self fault now record id :
  writable self id -> writable (apply_connection_test self fault now record) id.
Proof.
  intros Hw. destruct (decide (Health.ct_account_id record = Some id)) as [Hid|Hid].
  - unfold apply_connection_test. rewrite Hid. unfold writable, mark_success_with_source, mark_probe_failure in *.
    destruct (Health.hr_database self) as [db|] eqn:Hdb.
    + destruct Hw as (row & Hrow & He & Hs).
      destruct (_ =?s _); unfold with_database; cbn; unfold record_account_health_success, record_account_health_failure;
        destruct fault as [[]|]; cbn; rewrite ?Hrow, ?He, ?Hs; cbn;
        try (destruct (row_failure_transition _ _ _ _ _ _) as [[[? ?] ?] ?]; cbn);
        rewrite ?lookup_insert_eq; by eexists.
    + destruct (_ =?s _); unfold mark_memory_failure; cbn.
      * by rewrite lookup_insert_eq.
      * unfold memory_failure. destruct (cooldown_active now _); [|destruct (_ <=? _)]; cbn; rewrite ?Hdb, lookup_insert_eq; exact Hw.
  - pose proof (apply_test_other self fault now record id Hid) as He. unfold health_entry in He. injection He as _ Hd Hs.
    unfold writable in *. rewrite Hs. destruct (Health.hr_database self), (Health.hr_database (apply_connection_test _ _ _ _)); try done.
    injection Hd as Hd. by rewrite Hd.
Qed.
End Entries.

(** ** One probe *)

Section Probes.
Context `{DiscoveryEnv} `{ProbeEnv} `{UrlCrates} `{PresetSerde} `{HttpNames} `{SerdeJson} {text : SerdeText} `{Collation}
  `{Chrono} `{PgTime}.

(** A recorded test is of the account and protocol it was run for. *)
Definition test_of (account_id : string) (protocol : Protocol) (r : result ModelCatalog.ConnectionTestRecord DiscoveryServiceError)
    (_ : DiscoveryState) : Prop :=
  match r with Ok record => cr_account_id record = Some account_id /\ cr_protocol record = protocol | Err _ => True end.

Lemma wp_test_of input id s account_id protocol : ti_account_id input = Some account_id -> ti_protocol input = protocol ->
  wp (d_db (run_tx (record_connection_test input id))) (test_of account_id protocol) s.
Proof.
  intros Ha Hp. unfold wp, d_db. destruct (run_tx _ (ds_db s)) as [[record|e] db'] eqn:E; cbn; [|done].
  apply run_tx_ok in E. unfold record_connection_test in E. destruct (_ : bool); [done|].
  destruct (ModelCatalog.get_source _ _); cbn [rbind] in E; [|done]. destruct (account_checked _ _ _); cbn [rbind] in E; [|done].
  injection E as <- _. by split.
Qed.

Lemma wp_failure_of source_id account_id protocol upstream mode requested_by tested_at latency failure s :
  wp (record_connection_failure source_id (Some account_id) protocol upstream mode requested_by tested_at latency failure)
    (test_of account_id protocol) s.
Proof. apply wp_ask; intros id s1 _. by apply wp_test_of. Qed.

Lemma wp_test_connection source_id account_id protocol model requested_by s :
  wp (test_connection source_id account_id protocol model requested_by) (test_of account_id protocol) s.
Proof.
  unfold test_connection. apply wp_query; [intros source _|done]. do 4 (apply wp_of; [intros ? _|done]).
  apply wp_of; [intros auth _|done]. apply wp_ask; intros started s1 _. apply wp_ask; intros tested_at s2 _.
  destruct (_ || _); [apply wp_ask; intros ? ? _; apply wp_failure_of|]. apply wp_read.
  destruct (discovery_credential _ _ _) as [credential|e].
  2: { destruct e; try done. apply wp_ask; intros ? ? _; apply wp_failure_of. }
  apply wp_of; [intros q _|done]. apply wp_bind. unfold wp at 1, d_send. cbn.
  destruct (dv_send _ q) as [response|e]; [|apply wp_ask; intros ? ? _; apply wp_failure_of].
  apply wp_ask; intros now s3 _. destruct (negb _); [apply wp_failure_of|]. apply wp_ask; intros id s4 _. by apply wp_test_of.
Qed.

(** What a recorded test says: success for a 2xx answer, or one of the fixed
    failures. *)
Definition test_shape (record : ModelCatalog.ConnectionTestRecord) : Prop :=
  (cr_status record = "succeeded" /\ exists status, cr_http_status record = Some status /\ 200 <= status < 300)
  \/ (cr_status record = "failed" /\ exists code message, cr_error_code record = Some code
        /\ cr_error_message record = Some message /\ safe_failure (mkSafeFailure code message None) = true).

(** The outcome of a probe in the state it was made in. *)
Definition outcome_ok (self : HealthRegistry) (o : ProbeOutcome) : Prop :=
  let test := po_connection_test o in
  cr_account_id test = Some (po_account_id o) /\ cr_protocol test = po_protocol o /\ test_shape test
  /\ (cr_status test = "succeeded" -> (forall n, pe_fault n = None) -> writable self (po_account_id o) ->
      ah_available (po_health o) = true /\ ah_consecutive_failures (po_health o) = 0).

Definition add_tests (db : ControlDb) (tests : list ModelCatalog.ConnectionTestRecord) : ControlDb :=
  set_catalog db (set_tests (db_catalog db) (cd_tests (db_catalog db) ++ tests)).

Lemma add_tests_nil db : add_tests db [] = db.
Proof. unfold add_tests. rewrite app_nil_r. by destruct db as [[]]. Qed.
Lemma add_tests_app db l1 l2 : add_tests (add_tests db l1) l2 = add_tests db (l1 ++ l2).
Proof. unfold add_tests. cbn. by rewrite app_assoc. Qed.
Lemma set_catalog_same db : set_catalog db (db_catalog db) = db.
Proof. by destruct db. Qed.

(** What probes of some accounts leave: tests appended, requests sent, and every
    other account as it was. *)
Definition probed (ids : list string) (tests : list ModelCatalog.ConnectionTestRecord) (s s' : ProbeState) : Prop :=
  ps_control s' = add_tests (ps_control s) tests
  /\ (exists sent, ps_sent s' = ps_sent s ++ sent /\ (length sent <= length ids)%nat)
  /\ (forall other, other ∉ ids -> health_entry (ps_health s') other = health_entry (ps_health s) other)
  /\ (forall id, writable (ps_health s) id -> writable (ps_health s') id)
  /\ database_configured s' = database_configured s.

(** Only the numbering moved on. *)
Definition idle (s s' : ProbeState) : Prop :=
  ps_control s' = ps_control s /\ ps_sent s' = ps_sent s /\ ps_health s' = ps_health s.

Lemma probed_idle ids s s' : idle s s' -> probed ids [] s s'.
Proof.
  intros (Hc & Hs & Hh). unfold probed, database_configured. rewrite Hc, Hs, Hh, add_tests_nil. split_and!; try done.
  exists []. rewrite app_nil_r. split; [done|cbn; lia].
Qed.

Lemma probed_trans ids1 ids2 tests1 tests2 s1 s2 s3 :
  probed ids1 tests1 s1 s2 -> probed ids2 tests2 s2 s3 -> probed (ids1 ++ ids2) (tests1 ++ tests2) s1 s3.
Proof.
  intros (Hc & (l1 & Hl1 & Hn1) & Ho & Hw & Hd) (Hc' & (l2 & Hl2 & Hn2) & Ho' & Hw' & Hd'). unfold probed. split_and!.
  - by rewrite Hc', Hc, add_tests_app.
  - exists (l1 ++ l2). rewrite Hl2, Hl1, app_assoc, !length_app. split; [done|lia].
  - intros other Hn. rewrite Ho', Ho; [done| |]; set_solver.
  - auto.
  - congruence.
Qed.

Definition tests_of (r : result ProbeOutcome ProbeError) : list ModelCatalog.ConnectionTestRecord :=
  match r with Ok o => [po_connection_test o] | Err _ => [] end.

(** A connection test and its effect on the registry. *)
Lemma service_test source_id account_id protocol model requested_by s r s1 :
  p_service (test_connection source_id account_id protocol model requested_by) s = (r, s1) ->
  match r with
  | Err _ => ps_control s1 = ps_control s
  | Ok record => ps_control s1 = add_tests (ps_control s) [record] /\ cr_account_id record = Some account_id
                 /\ cr_protocol record = protocol /\ test_shape record
  end
  /\ (exists sent, ps_sent s1 = ps_sent s ++ sent /\ (length sent <= 1)%nat) /\ ps_health s1 = ps_health s.
Proof.
  unfold p_service. destruct (test_connection _ _ _ _ _ _) as [x d] eqn:E. intros [= <- <-]. cbn.
  pose proof (wp_test_connection source_id account_id protocol model requested_by
    (mkDiscoveryState (ps_tick s) (db_catalog (ps_control s)) (ps_sent s))) as Hof. unfold wp in Hof. rewrite E in Hof. cbn in Hof.
  apply connection_test_is_recorded_safely in E as [Hsent Hout]. cbn in Hout.
  assert (exists sent, ds_sent d = ps_sent s ++ sent /\ (length sent <= 1)%nat) as Hs.
  { destruct Hsent as [->|(q & -> & _)]; [exists []|exists [q]]; rewrite ?app_nil_r; (split; [done|cbn; lia]). }
  split; [|done]. destruct x as [record|e]; [|by rewrite Hout, set_catalog_same].
  destruct Hof as [Ha Hp]. destruct Hout as [-> Hshape]. split; [done|]. split; [done|]. split; [done|].
  unfold test_shape. destruct Hshape as [(? & _ & _ & ?)|?]; [by left|by right].
Qed.

Lemma apply_test_probed account_id record s : cr_account_id record = Some account_id ->
  probed [account_id] [] s (apply_test record s).2.
Proof.
  intros Ha. unfold apply_test, probed, database_configured. cbn. rewrite add_tests_nil. split_and!; try done.
  - exists []. rewrite app_nil_r. split; [done|cbn; lia].
  - intros other Hn. apply apply_test_other. cbn. rewrite Ha. intros [= ->]. apply Hn. by left.
  - intros id. apply apply_test_writable.
  - apply apply_test_database.
Qed.

Lemma applied_success self now record later account_id : cr_account_id record = Some account_id ->
  cr_status record = "succeeded" -> writable self account_id ->
  let h := get_health (apply_connection_test self None now (observed_test record)) None later account_id in
  ah_available h = true /\ ah_consecutive_failures h = 0.
Proof.
  intros Ha Hs Hw. unfold apply_connection_test. cbn. rewrite Ha, Hs. cbn.
  destruct (success_closes_breaker _ _ self account_id "probe" (Some (cr_id record)) (Some (Z.max (cr_latency_ms record) 0))
    now later Hw) as (? & ? & _). by split.
Qed.

Lemma probe_account_probed account_id protocol model requested_by s r s' :
  probe_account account_id protocol model requested_by s = (r, s') ->
  probed [account_id] (tests_of r) s s'
  /\ match r with Ok o => po_account_id o = account_id /\ po_protocol o = protocol /\ outcome_ok (ps_health s) o | Err _ => True end.
Proof.
  unfold probe_account. destruct (negb _); [intros [= <- <-]; split; [by apply probed_idle|done]|].
  unfold p_bind at 1, p_query, p_tick.
  set (s1 := mkProbeState (S (ps_tick s)) (ps_control s) (ps_sent s) (ps_health s)).
  assert (idle s s1) as Hidle by done.
  destruct (if pe_query_fails (ps_tick s) then None else _) as [[source_id|]|];
    try (intros [= <- <-]; split; [by apply probed_idle|done]).
  unfold p_bind at 1. destruct (p_service _ s1) as [x s2] eqn:E. apply service_test in E as (Hc & (sent & Hsent & Hlen) & Hh).
  destruct x as [record|e].
  2: { intros [= <- <-]. split; [|done]. unfold probed, database_configured. cbn [tests_of]. rewrite Hc, Hsent, Hh, add_tests_nil.
       split_and!; try done. by exists sent. }
  destruct Hc as (Hc & Ha & Hp & Hshape). unfold p_bind, current_health, p_tick. destruct (apply_test record s2) as [u s3] eqn:Et.
  pose proof (apply_test_probed account_id record s2 Ha) as Happ. rewrite Et in Happ. cbn [snd] in Happ.
  intros [= <- <-]. cbn [tests_of po_account_id po_protocol po_connection_test].
  destruct Happ as (Hc3 & (l & Hl & _) & Ho & Hw & Hd). rewrite add_tests_nil in Hc3. split.
  - unfold probed, database_configured. cbn. rewrite Hc3, Hc. split_and!; try done.
    + exists sent. split; [|done]. pose proof (f_equal (fun s => ps_sent s.2) Et) as Hs3. cbn in Hs3. by rewrite <- Hs3, Hsent.
    + intros other Hn. by rewrite Ho, Hh.
    + intros id Hid. apply Hw. by rewrite Hh.
    + unfold database_configured in Hd. by rewrite Hd, Hh.
  - split; [done|]. split; [done|]. unfold outcome_ok. cbn [po_connection_test po_account_id po_protocol po_health].
    split; [done|]. split; [done|]. split; [done|]. intros Hst Hnf Hwr.
    pose proof (f_equal (fun s => ps_health s.2) Et) as Hs3. cbn in Hs3. rewrite <- Hs3, !Hnf, Hh.
    apply (applied_success (ps_health s) _ record _ account_id Ha Hst Hwr).
Qed.

(** ** A batch *)

Lemma chosen_protocol_idle requested account_id s : idle s (chosen_protocol requested account_id s).2.
Proof. unfold chosen_protocol. destruct requested; [done|]. by destruct (database_configured s). Qed.

Lemma probe_all_probed protocol model requested_by ids : forall s outcomes errors s',
  probe_all protocol model requested_by ids s = ((outcomes, errors), s') ->
  probed ids (map po_connection_test outcomes) s s'
  /\ map po_account_id outcomes ++ map fst errors ≡ₚ ids
  /\ map po_account_id outcomes `sublist_of` ids /\ map fst errors `sublist_of` ids
  /\ Forall (fun o => (forall p, protocol = Some p -> po_protocol o = p)
        /\ exists self, outcome_ok self o /\ forall id, writable (ps_health s) id -> writable self id) outcomes.
Proof.
  induction ids as [|id ids IH]; intros s outcomes errors s'; cbn [probe_all].
  { intros [= <- <- <-]. split; [by apply probed_idle|]. split_and!; constructor. }
  unfold p_bind. pose proof (chosen_protocol_idle protocol id s) as Hidle.
  destruct (chosen_protocol protocol id s) as [p s1] eqn:Ep. cbn [snd] in Hidle.
  destruct (probe_account id _ model requested_by s1) as [r s2] eqn:Eo. apply probe_account_probed in Eo as [Hprobed Hr].
  destruct (probe_all protocol model requested_by ids s2) as [[os es] s3] eqn:Ea.
  apply IH in Ea as (Hrest & Hperm & Hsub1 & Hsub2 & Hall).
  assert (ps_health s1 = ps_health s) as Hh1 by apply Hidle.
  assert (forall i, writable (ps_health s) i -> writable (ps_health s2) i) as Hw2.
  { intros i Hi. apply Hprobed. by rewrite Hh1. }
  pose proof (probed_trans _ _ _ _ _ _ _ (probed_idle [] _ _ Hidle) Hprobed) as Hstep.
  pose proof (probed_trans _ _ _ _ _ _ _ Hstep Hrest) as Htotal. cbn [app] in Htotal.
  assert (Forall (fun o => (forall p, protocol = Some p -> po_protocol o = p)
        /\ exists self, outcome_ok self o /\ forall id, writable (ps_health s) id -> writable self id) os) as Hos.
  { eapply Forall_impl; [exact Hall|]. intros o (Ho & self & Hok & Hw). split; [done|]. exists self. split; [done|]. auto. }
  destruct r as [o|e]; intros [= <- <- <-]; cbn [tests_of app map fst] in Htotal |- *.
  - destruct Hr as (Ha & Hp & Hok). rewrite Ha. split; [exact Htotal|]. split; [by rewrite Hperm|].
    split; [by constructor|]. split; [by constructor|]. constructor; [|done]. split.
    + intros p0 ->. cbn in Ep. injection Ep as <- _. by rewrite Hp.
    + exists (ps_health s1). split; [done|]. by rewrite Hh1.
  - split; [exact Htotal|]. split; [by rewrite <- Permutation_middle, Hperm|]. split_and!; [by constructor|by constructor|done].
Qed.
End Probes.

Section Handlers.
Context `{DiscoveryEnv} `{ProbeEnv} `{UrlCrates} `{PresetSerde} `{HttpNames} `{SerdeJson} {text : SerdeText} `{Collation}
  `{Chrono} `{PgTime} `{Sha256} `{ErrorTexts} `{ProbeJson}.
Context (auth : AdminAuth).

(** The accounts a batch is for: those it names, or all that can be probed. *)
Definition batch_ids (request : HealthProbesRequest) (db : CatalogDb) : list string :=
  match bq_account_ids request with
  | Some (id :: ids) => id :: ids
  | _ => map (fun target => target.1.1) (health_probe_targets db)
  end.

Definition batch_body (outcomes : list ProbeOutcome) (errors : list (string * ProbeError)) : Value :=
  json_object [("data", VArray (map outcome_json outcomes)); ("errors", VArray (map probe_error_json errors))].

Lemma probe_ids_idle account_ids s ids s' : probe_ids account_ids s = (Some ids, s') ->
  idle s s' /\ ids = match account_ids with
                    | Some (id :: ids) => id :: ids
                    | _ => map (fun target => target.1.1) (health_probe_targets (db_catalog (ps_control s)))
                    end.
Proof.
  unfold probe_ids, p_bind, p_query, p_tick. destruct account_ids as [[|id l]|]; [| by intros [= <- <-] |];
    (destruct (pe_query_fails _); cbn; [done|]; by intros [= <- <-]).
Qed.

(** C22. A batch of probes is exact.  When the endpoint for probes answers 200, every
    account asked for, or else every account that can be probed, has exactly one
    outcome or one error, in the order of the request.  The tables gain exactly
    the connection tests of the outcomes, in order, each of its own account and
    of the protocol asked for, as succeeded only for a 2xx answer and otherwise
    with one of the fixed failures; at most one request was sent per account;
    and the health of every other account, under any later clock or fault, is
    what it was.  Without database faults an enabled account whose test
    succeeded is reported available, with no failures. *)
Theorem probe_batch_is_exact rq request s response s' :
  admin_authorized auth (rq_headers rq) = true -> read_probes_request rq = Ok request ->
  admin_health_probes auth rq s = (response, s') -> rp_status response = 200 ->
  let ids := batch_ids request (db_catalog (ps_control s)) in
  exists outcomes errors,
    response = ok_json (batch_body outcomes errors)
    /\ map po_account_id outcomes ++ map fst errors ≡ₚ ids
    /\ map po_account_id outcomes `sublist_of` ids /\ map fst errors `sublist_of` ids
    /\ ps_control s' = add_tests (ps_control s) (map po_connection_test outcomes)
    /\ (exists sent, ps_sent s' = ps_sent s ++ sent /\ (length sent <= length ids)%nat)
    /\ (forall o, o ∈ outcomes -> let test := po_connection_test o in
          cr_account_id test = Some (po_account_id o) /\ cr_protocol test = po_protocol o /\ test_shape test
          /\ (forall p, bq_protocol request = Some p -> po_protocol o = p)
          /\ (cr_status test = "succeeded" -> (forall n, pe_fault n = None) -> writable (ps_health s) (po_account_id o) ->
              ah_available (po_health o) = true /\ ah_consecutive_failures (po_health o) = 0))
    /\ (forall other fault now, other ∉ ids ->
          get_health (ps_health s') fault now other = get_health (ps_health s) fault now other).
Proof.
  intros Hauth Hread Hrun H200. cbv zeta. unfold admin_health_probes, with_admin in Hrun. rewrite Hauth, Hread in Hrun.
  cbn [json_payload map_err extract] in Hrun. destruct (negb _); [by injection Hrun as <- _|]. unfold p_bind at 1 in Hrun.
  destruct (probe_ids _ s) as [[ids|] s1] eqn:Ei; [|by injection Hrun as <- _].
  apply probe_ids_idle in Ei as [Hidle Hids]. unfold p_bind in Hrun.
  destruct (probe_all _ _ _ ids s1) as [[outcomes errors] s2] eqn:Ea. injection Hrun as <- <-. exists outcomes, errors.
  assert (batch_ids request (db_catalog (ps_control s)) = ids) as -> by (unfold batch_ids; by rewrite Hids).
  apply probe_all_probed in Ea as (Hp & Hperm & Hsub1 & Hsub2 & Hall).
  pose proof (probed_trans _ _ _ _ _ _ _ (probed_idle [] _ _ Hidle) Hp) as (Hc & Hsent & Ho & _). cbn [app] in *.
  split; [done|]. split; [done|]. split; [done|]. split; [done|]. split; [done|]. split; [done|]. split.
  - intros o Hin. rewrite Forall_forall in Hall. apply Hall in Hin as (Hproto & self & (Ha & Hpr & Hshape & Hok) & Hw).
    split; [done|]. split; [done|]. split; [done|]. split; [done|]. intros Hst Hnf Hwr. apply Hok; [done..|].
    apply Hw. destruct Hidle as (_ & _ & ->). exact Hwr.
  - intros other fault now Hn. by apply get_health_entry, Ho.
Qed.
End Handlers.

(** ** Targets *)

Section Targets.
Context `{Collation}.

(** Every target is an enabled account of an enabled source that is no custom
    one, once, with the first protocol that has an endpoint and is not declared
    unserved. *)
Lemma probe_targets_sound db : NoDup (map (fun target => target.1.1) (health_probe_targets db))
  /\ forall id source_id protocol, (id, source_id, protocol) ∈ health_probe_targets db -> exists row source,
       cd_accounts db !! id = Some row /\ ax_source_id row = source_id /\ cd_sources db !! source_id = Some source
       /\ ax_enabled row = true /\ so_enabled source = true /\ so_provider_preset_id source <> "custom"
       /\ probe_protocol source = Some protocol.
Proof.
  assert (forall id row t, probe_target db id row = Some t -> t.1.1 = id /\ exists source,
    cd_sources db !! ax_source_id row = Some source /\ t.1.2 = ax_source_id row /\ ax_enabled row = true
    /\ so_enabled source = true /\ so_provider_preset_id source <> "custom" /\ probe_protocol source = Some t.2) as Ht.
  { intros id row t. unfold probe_target. destruct (cd_sources db !! _) as [source|]; [|done].
    destruct (ax_enabled row) eqn:?; [|done]. destruct (so_enabled source) eqn:?; [|done].
    destruct (String.eqb_spec (so_provider_preset_id source) "custom"); [done|]. cbn [andb negb].
    destruct (probe_protocol source) eqn:?; [|done]. intros [= <-]. split; [done|]. by exists source. }
  unfold health_probe_targets. split.
  - assert (NoDup (map fst (by_id fst (map_to_list (cd_accounts db))))) as Hnd.
    { unfold by_id. rewrite order_by_perm. apply NoDup_fst_map_to_list. }
    induction (by_id fst (map_to_list (cd_accounts db))) as [|[id row] l IH]; [constructor|].
    cbn [map fst] in Hnd. apply NoDup_cons in Hnd as [Hn Hnd]. cbn. destruct (probe_target db id row) as [t|] eqn:Et; [|auto].
    cbn. apply NoDup_cons. split; [|auto]. apply Ht in Et as [-> _]. intros Hin. apply Hn.
    apply list_elem_of_fmap in Hin as (t' & Hid & Hin). apply list_elem_of_omap in Hin as ([id' row'] & Hin & Ht').
    apply Ht in Ht' as [Hid' _]. apply list_elem_of_fmap. exists (id', row'). cbn in *. split; [congruence|done].
  - intros id source_id protocol Hin. apply list_elem_of_omap in Hin as ([id' row] & Hin & Ht'). cbn [fst snd] in *.
    apply Ht in Ht' as (Hid & source & Hs & Hsid & He & Hse & Hcu & Hp). cbn in Hid, Hsid, Hp. subst.
    unfold by_id in Hin. rewrite order_by_perm, elem_of_map_to_list in Hin. by exists row, source.
Qed.
End Targets.

(** ** The health report *)

Section Report.
Context `{DiscoveryEnv} `{ProbeEnv} `{UrlCrates} `{PresetSerde} `{HttpNames} `{SerdeJson} {text : SerdeText} `{Collation}
  `{Chrono} `{PgTime} `{Sha256} `{ErrorTexts} `{ProbeJson}.
Context (auth : AdminAuth) (database : bool) (control_plane : option ControlPlane).

Lemma all_health_lookup self fault clock id :
  all_health self fault clock !! id
  = match Health.hr_database self, fault with
    | Some _, Some _ => None
    | Some db, None => (fun row => health_from_row row (clock id) (hc_stale_after (Health.hr_config self))) <$> Health.db_accounts db !! id
    | None, _ => (fun st => memory_health st (clock id) (hc_stale_after (Health.hr_config self))) <$> Health.hr_state self !! id
    end.
Proof.
  unfold all_health. destruct (Health.hr_database self) as [db|]; [destruct fault|]; [apply lookup_empty|..];
    rewrite map_lookup_imap; by destruct (_ !! id).
Qed.

(** What is reported of an account, and what the data plane decides by. *)
Lemma reported_available self fault clock a :
  let health_map := all_health self fault clock in
  let known := is_some (health_map !! hm_id a) in
  let reported := reported_health health_map (is_some (Health.hr_database self)) a in
  (known = true -> reported = get_health self fault (clock (hm_id a)) (hm_id a))
  /\ ah_available reported = is_available self fault (clock (hm_id a)) (hm_id a) && (hm_enabled a || known).
Proof.
  cbv zeta. unfold reported_health. rewrite all_health_lookup. unfold get_health, is_available, account_health.
  destruct (Health.hr_database self) as [db|]; [destruct fault as [f|]|].
  - split; [done|]. cbn. by rewrite andb_false_r.
  - destruct (Health.db_accounts db !! hm_id a) as [row|]; cbn; (split; [done|]); [by rewrite orb_true_r, andb_true_r|by rewrite andb_false_r].
  - destruct (Health.hr_state self !! hm_id a) as [st|]; cbn; (split; [done|]);
      [by rewrite orb_true_r, andb_true_r|by rewrite andb_true_r, orb_false_r].
Qed.

(** The health page agrees with the data plane.  It lists the accounts of its
    source once each, and for each of them what [get_health] says of an account
    the registry knows; an account is shown as available exactly if the
    registry would let the data plane use it, at the same clock and with the
    same fault, except that a disabled account without an entry, which the data
    plane does not ask about, is not. *)
Theorem health_report_agrees_with_routing live clock rq s response s' :
  admin_authorized auth (rq_headers rq) = true ->
  admin_health auth database control_plane live clock rq s = (response, s') -> rp_status response = 200 ->
  let fault := pe_fault (ps_tick s) in
  let known a := is_some (all_health (ps_health s) fault clock !! hm_id a) in
  ps_control s' = ps_control s /\ ps_health s' = ps_health s
  /\ exists accounts report,
       (is_some control_plane || database = true ->
          accounts ≡ₚ map (fun kv => account_metadata kv.1 kv.2) (map_to_list (db_accounts (ps_control s))))
       /\ (exists fields, response = ok_json (json_object (fields ++ [("data", VArray (map (fun a => account_row_json a (report a)) accounts))])))
       /\ (forall a, known a = true -> report a = get_health (ps_health s) fault (clock (hm_id a)) (hm_id a))
       /\ (forall a, ah_available (report a)
             = is_available (ps_health s) fault (clock (hm_id a)) (hm_id a) && (hm_enabled a || known a)).
Proof.
  intros Hauth Hrun H200. cbv zeta. unfold admin_health, with_admin in Hrun. rewrite Hauth in Hrun.
  unfold p_bind at 1, health_table, p_tick in Hrun. unfold p_bind in Hrun.
  destruct (listed_accounts _ _ _ _) as [[accounts|r] s1] eqn:El.
  2: { exfalso. unfold listed_accounts in El. destruct (is_some control_plane); [done|]. destruct database; [|done].
       unfold p_bind, p_query, p_tick in El. cbn in El. destruct (pe_query_fails _); [|done]. injection El as <- _. by injection Hrun as <- _. }
  assert (ps_control s1 = ps_control s /\ ps_health s1 = ps_health s /\ (is_some control_plane || database = true ->
    accounts ≡ₚ map (fun kv => account_metadata kv.1 kv.2) (map_to_list (db_accounts (ps_control s))))) as (Hc & Hh & Hacc).
  { unfold listed_accounts in El. destruct (is_some control_plane).
    - injection El as <- <-. split; [done|]. split; [done|]. intros _. unfold ControlReads.list_accounts, by_id. cbn [ps_control].
      rewrite order_by_perm, map_map. done.
    - destruct database.
      + unfold p_bind, p_query, p_tick in El. cbn in El. destruct (pe_query_fails _); [done|]. injection El as <- <-.
        split; [done|]. split; [done|]. intros _. unfold health_accounts_metadata, by_id. by rewrite order_by_perm.
      + injection El as <- <-. done. }
  injection Hrun as <- <-. split; [done|]. split; [done|].
  exists accounts, (reported_health (all_health (ps_health s) (pe_fault (ps_tick s)) clock) (database_configured s1)).
  split; [done|]. split; [by eexists [_; _]|]. unfold database_configured. rewrite Hh.
  split; intros a; by apply reported_available.
Qed.
End Report.

(** ** Examples *)

Definition example_probe_json (request : HealthProbesRequest) : ProbeJson :=
  {| source_path rq := Ok (rq_path rq); body_of rq := Ok ""; models_query _ := Ok (mkSourceModelsQuery None None);
     read_test_request _ := None; read_discover_request _ := None; read_edit_request _ := None;
     read_confirm_request _ := None; read_probe_request _ := Err "no probe"; read_probes_request _ := Ok request;
     preset_record_json p := VString (pv_id p); preset_diff_json _ := VNull; test_json t := of_i64 (cr_id t);
     execution_json _ := VNull; discovery_run_json r := of_i64 (dr_id r); diff_of_json _ := Ok (mkDiscoveryDiff [] [] []);
     discovery_diff_json _ := VNull; model_json m := VString (sm_upstream_model_id m);
     health_json h := VString (ah_status h); outcome_json o := VString (po_account_id o); moment_json t := of_i64 t |}.

Definition example_probe_env : ProbeEnv :=
  {| pe_now n := from_secs (Z.of_nat n); pe_fault _ := None; pe_query_fails _ := false |}.

(** Two enabled accounts, one with a variable for its credential, the other
    with a stored one. *)
Definition example_health_rows : gmap string AccountHealthRow :=
  let row id := mkAccountHealthRow id true true "healthy" "passive" None 0 None None None (Some 0) None None None 0 in
  {[ "account" := row "account"; "sealed" := row "sealed" ]}.

Definition example_probe_state : ProbeState :=
  let accounts := <["sealed" := example_account_row None (Some "envelope")]> (cd_accounts example_accounts) in
  let catalog := mkCatalogDb ∅ ∅ (cd_sources example_accounts) accounts ∅ ∅ [] [] in
  mkProbeState 0 (mkControlDb catalog ∅ ∅ ∅ [] 0 0 0) []
    (mkHealthRegistry HealthConfig_default (Some (Health.mkDatabase example_health_rows [])) ∅).

Section Examples.
Local Existing Instances json_concrete any_url example_serde chrono_exact pg_micros example_probe_env.
Local Instance example_probe_names : HttpNames := Some.
Local Instance example_probe_text : SerdeText := fun _ => "".
Local Instance example_probe_order : Collation := str_cmp.
Local Instance example_probe_sha : Sha256 := fun s => s.
Local Instance example_probe_service : DiscoveryEnv := example_service "{}".

Definition example_batch : HealthProbesRequest := mkHealthProbesRequest (Some ["account"; "nobody"]) None None None.
Definition example_probe_request : Request := mkRequest POST "/admin/health/probes" [("x-api-key", "admin")] (BodyRead "").
Local Instance example_batch_json : ProbeJson := example_probe_json example_batch.

Definition example_batch_run : Response * ProbeState :=
  admin_health_probes (mkAdminAuth (Some "admin")) example_probe_request example_probe_state.

(** One of the two accounts exists; its test succeeds. *)
Lemma probe_batch_is_exact_witness :
  rp_status example_batch_run.1 = 200
  /\ exists outcomes errors, example_batch_run.1 = ok_json (batch_body outcomes errors)
       /\ map po_account_id outcomes ++ map fst errors ≡ₚ ["account"; "nobody"]
       /\ cd_tests (db_catalog (ps_control example_batch_run.2)) = map po_connection_test outcomes
       /\ map cr_status (cd_tests (db_catalog (ps_control example_batch_run.2))) = ["succeeded"].
Proof.
  assert (rp_status example_batch_run.1 = 200) as Hs by (vm_compute; reflexivity). split; [exact Hs|].
  assert (admin_authorized (mkAdminAuth (Some "admin")) (rq_headers example_probe_request) = true) as Ha by (vm_compute; reflexivity).
  assert (admin_health_probes (mkAdminAuth (Some "admin")) example_probe_request example_probe_state
    = (example_batch_run.1, example_batch_run.2)) as Hrun by apply surjective_pairing.
  destruct (@probe_batch_is_exact example_probe_service example_probe_env any_url example_serde example_probe_names json_concrete
    example_probe_order chrono_exact pg_micros example_probe_sha example_batch_json (mkAdminAuth (Some "admin")) example_probe_request example_batch example_probe_state
    example_batch_run.1 example_batch_run.2 Ha eq_refl Hrun Hs)
    as (outcomes & errors & Hr & Hperm & _ & _ & Hc & _).
  exists outcomes, errors. split; [exact Hr|]. split; [exact Hperm|]. split.
  - rewrite Hc. reflexivity.
  - vm_compute. reflexivity.
Defined.

(** Probes that send nothing count as failures: the credential of the account is
    stored encrypted, which probes do not read; after three of them, nothing
    having been sent, the breaker of the healthy account is open. *)
Example unsent_probes_open_the_breaker :
  let self := ps_health example_probe_state in
  let after := (probe_all (Some OpenAiChatCompletions) None "admin" ["sealed"; "sealed"; "sealed"] example_probe_state).2 in
  is_available self None (from_secs 20) "sealed" = true /\ ps_sent after = []
  /\ map cr_error_code (cd_tests (db_catalog (ps_control after)))
     = [Some "credential_unavailable"; Some "credential_unavailable"; Some "credential_unavailable"]
  /\ is_available (ps_health after) None (from_secs 20) "sealed" = false.
Proof. vm_compute. auto. Qed.
End Examples.
