(* ===== verification/OpsApi.v ===== *)
(** * The handlers of the operations: [src/src/api/ops.rs]

    Retention policies, cleanup runs, exports, imports and their lists, on the
    jobs of [Cleanup] and [Backup].  A handler runs its job, between whose
    statements other clients may commit, and turns the outcome into a
    response.  A download of the control plane can be uploaded again as it is,
    and the forms of a policy update say the same. *)

From Stdlib Require Import ZArith Lia Ascii.
From stdpp Require Import base list strings gmap.
From S2P Require Import Prelude.
From S2P Require Import RustStr.
From S2P Require Import BTree.
From S2P Require Import Tx.
From S2P Require Import Config.
From S2P Require Import SourceUrl.
From S2P Require Import Json.
From S2P Require Import Redaction.
From S2P Require Import Ops.
From S2P Require Import Cleanup.
From S2P Require Import ModelCatalog.
From S2P Require Import Snapshot.
From S2P Require Import Http.
From S2P Require Import VirtualKeys.
From S2P Require Import Validation.
From S2P Require Import ControlDb.
From S2P Require Import Backup.
From S2P Require Import ControlTypes.
From S2P Require Import BackupProps.
From S2P Require Import Auth.
From S2P Require Import RequestAudit.
From S2P Require Import AdminGate.
From S2P Require Import AdminApi.

Abbreviation QueryParams := (list (string * string)).

(** The derived code of [serde] and the extractors of [axum]: the body or the
    response of its rejection, the parameters of the query, the path. *)
Class OperationJson : Type := {
  body_bytes : Request -> result string Response;
  query_params : Request -> result QueryParams Response;
  path_id : Request -> result string Response;
  policy_json : RetentionPolicy -> Value;
  run_json : CleanupRun -> Value;
  audit_log_json : Z * AuditLog -> Value;
  backup_run_json : string * BackupRun -> Value;
  export_instant_json : Z -> Value;
  read_cleanup_request : string -> option CleanupRequest;
  read_export : Value -> option ControlPlaneExport;
}.

(** ** Lists of the repository *)

Section Lists.
Context `{Collation}.

(** [ORDER BY time DESC, id DESC] on a text id. *)
Definition latest_first {A} (time : A -> Z) (id : A -> string) : list A -> list A :=
  order_by (fun x y => (time y <? time x) || ((time x =? time y) && first (collate (id y) (id x)))).

Definition clamp_limit (limit : Z) : nat := Z.to_nat (Z.max 1 (Z.min 500 limit)).

Definition list_cleanups (limit : Z) (db : RetentionDb) : list CleanupRun :=
  firstn (clamp_limit limit) (latest_first cr_created_at Cleanup.cr_id (map snd (map_to_list (rd_runs db)))).

Definition list_audit_logs (operation_id : option string) (limit : Z) (db : RetentionDb) : list (Z * AuditLog) :=
  firstn (clamp_limit limit)
    (order_by (fun x y => (al_created_at y.2 <? al_created_at x.2)
                          || ((al_created_at x.2 =? al_created_at y.2) && (y.1 <=? x.1)))
       (List.filter (fun row => is_none_or operation_id (String.eqb (al_operation_id row.2))) (map_to_list (rd_audit db)))).

Definition get_backup_run (id : string) (db : BackupDb) : option (string * BackupRun) := pair id <$> bk_runs db !! id.

Definition list_backup_runs (limit : Z) (db : BackupDb) : list (string * BackupRun) :=
  firstn (clamp_limit limit) (latest_first (fun r => br_started_at r.2) fst (map_to_list (bk_runs db))).
End Lists.

(** ** Responses *)

Definition ops_error_status (error : OpsError) : Z :=
  match error with
  | OpsNotFound _ => 404
  | OpsConflict _ => 409
  | OpsValidation _ | OpsJson _ | OpsSnapshot _ => 422
  | OpsDatabase _ => 500
  end.

Definition ops_error_code (error : OpsError) : string :=
  match error with
  | OpsNotFound _ => "not_found"
  | OpsConflict _ => "operation_conflict"
  | OpsValidation _ | OpsJson _ => "invalid_operation"
  | OpsSnapshot _ => "snapshot_verification_failed"
  | OpsDatabase _ => "operation_failed"
  end.

Definition ops_error_message (error : OpsError) : string :=
  match error with
  | OpsDatabase _ => "database operation failed"
  | OpsJson error => "JSON error: " +:+ error
  | OpsValidation message | OpsNotFound message | OpsConflict message | OpsSnapshot message => message
  end.

Definition ops_error_response (error : OpsError) : Response :=
  error_response (ops_error_status error) (ops_error_code error) (ops_error_message error).

(** [json!({"version":"v1","timezone":"UTC", ..})]. *)
Definition ops_envelope (fields : list (string * Value)) : Value :=
  json_object (("version", VString "v1") :: ("timezone", VString "UTC") :: fields).

Definition invalid_operation (message : string) : Response := error_response 422 "invalid_operation" message.
Definition payload_too_large (message : string) : Response := error_response 413 "payload_too_large" message.
Definition ops_not_found (message : string) : Response := error_response 404 "not_found" message.

(** ** Payloads *)

Definition as_i32 (value : Value) : option Z :=
  as_i64 value ≫= fun n => if (- 2 ^ 31 <=? n) && (n <=? I32_MAX) then Some n else None.

(** [from_value::<RetentionPolicyWrite>]: the derived code also takes the fields
    as an array in their order. *)
Definition policy_write_of (policy_key retention_days enabled : option Value) : option RetentionPolicyWrite :=
  (policy_key ≫= as_str) ≫= fun key =>
  (retention_days ≫= as_i32) ≫= fun days =>
  (match enabled with None => Some true | Some enabled => as_bool enabled end) ≫= fun enabled =>
  Some (mkPolicyWrite key days enabled).

Definition read_policy_write (value : Value) : option RetentionPolicyWrite :=
  match value with
  | VObject object =>
      policy_write_of (hm_get object "policy_key") (hm_get object "retention_days") (hm_get object "enabled")
  | VArray [key; days] => policy_write_of (Some key) (Some days) None
  | VArray [key; days; enabled] => policy_write_of (Some key) (Some days) (Some enabled)
  | _ => None
  end.

(** The compact map: [{"usage_events": {"retention_days": 90}}]. *)
Fixpoint compact_policies (object : Map) : result (list RetentionPolicyWrite) Response :=
  match object with
  | [] => Ok []
  | (key, value) :: object =>
      if key =?s "requested_by" then compact_policies object
      else
        let? policy := ok_or (as_object value) (invalid_operation "retention policy map values must be objects") in
        let? policy := ok_or (read_policy_write (VObject (bt_insert policy "policy_key" (VString key))))
                             (invalid_operation "retention policy map value is invalid") in
        let? policies := compact_policies object in
        Ok (policy :: policies)
  end.

(** What [update_retention_policies] reads from its payload. *)
Definition read_policies (payload : Value) : result (list RetentionPolicyWrite) Response :=
  match get payload "policies" with
  | Some values =>
      ok_or (as_array values ≫= mapM read_policy_write)
            (invalid_operation "policies must be an array of retention policy objects")
  | None =>
      if is_some (get payload "policy_key")
      then ok_or ((fun policy => [policy]) <$> read_policy_write payload)
                 (invalid_operation "retention policy object is invalid")
      else
        let? object := ok_or (as_object payload) (invalid_operation "retention policy payload is invalid") in
        compact_policies object
  end.

Definition requested_by (payload : Value) : string :=
  unwrap_or (get payload "requested_by" ≫= as_str) "admin_api".

(** The limit of a list. *)
Definition list_limit (query : QueryParams) : result Z Response :=
  match hm_get query "limit" with
  | Some value =>
      ok_or (opt_filter (fun n => (1 <=? n) && (n <=? 500)) (parse_int I64_MIN I64_MAX value))
            (error_response 400 "invalid_operation" "limit must be between 1 and 500")
  | None => Ok 100
  end.

(** ** Handlers *)

(** A handler on the state of a job. *)
Definition OpsHandler (D : Type) : Type := OpsState D -> Response * OpsState D.

Definition ops_answer {D} (response : Response) : OpsHandler D := fun s => (response, s).

(** [match job.await { Ok(x) => .., Err(error) => ops_error_response(error) }]. *)
Definition ops_job {D A} (job : Om D A) (k : A -> Response) : OpsHandler D := fun s =>
  match job s with
  | (Ok x, s) => (k x, s)
  | (Err error, s) => (ops_error_response error, s)
  end.

Definition extracted {A D} (extractor : result A Response) (k : A -> OpsHandler D) : OpsHandler D :=
  match extractor with Ok x => k x | Err response => ops_answer response end.

Section Repository.
Context `{Sha256}.
(** The admin key, and whether there is a database. *)
Context (admin_auth : AdminAuth) (database : bool).

(** [ops_repository]. *)
Definition ops_repository (rq : Request) : result unit Response :=
  if negb (admin_authorized admin_auth (rq_headers rq)) then Err unauthorized
  else if negb database then Err (database_unavailable "DATABASE_URL is not configured")
  else Ok tt.

Definition with_repository {D} (rq : Request) (k : OpsHandler D) : OpsHandler D :=
  match ops_repository rq with Ok _ => k | Err response => ops_answer response end.

Section Retention.
Context `{UrlCrates} `{UrlEdit} `{Rfc3339} `{SerdeJson} `{Collation} `{OperationJson} {env : OpsEnv RetentionDb}.

Definition policies_response (data : list RetentionPolicy) : Response :=
  json_response 200 (ops_envelope [("data", VArray (map policy_json data))]).

Definition run_body (run : CleanupRun) : Value :=
  ops_envelope [("operation_id", VString (Cleanup.cr_id run)); ("data", run_json run)].

(** [ACCEPTED] as long as the run goes on. *)
Definition run_response (run : CleanupRun) : Response :=
  json_response (match Cleanup.cr_status run with Running => 202 | _ => 200 end) (run_body run).

Definition list_retention_policies (rq : Request) : OpsHandler RetentionDb :=
  with_repository rq (ops_job Cleanup.list_retention_policies policies_response).

Definition update_retention_policies (rq : Request) : OpsHandler RetentionDb :=
  extracted (body_bytes rq) (fun body => with_repository rq (
    if 1024 * 1024 <? slen body then ops_answer (payload_too_large "request body exceeds 1 MiB")
    else
      match from_slice body with
      | None => ops_answer (error_response 400 "invalid_json" "request body is not valid JSON")
      | Some payload =>
          match read_policies payload with
          | Err response => ops_answer response
          | Ok policies =>
              ops_job (Cleanup.update_retention_policies policies (requested_by payload)) policies_response
          end
      end)).

Definition start_retention_cleanup (rq : Request) : OpsHandler RetentionDb :=
  extracted (body_bytes rq) (fun body => with_repository rq (
    if 1024 * 1024 <? slen body then ops_answer (payload_too_large "request body exceeds 1 MiB")
    else
      match (if is_empty body then Some default_request else read_cleanup_request body) with
      | None => ops_answer (error_response 400 "invalid_json" "cleanup request is invalid")
      | Some request => ops_job (start_cleanup request) run_response
      end)).

Definition list_retention_cleanups (rq : Request) : OpsHandler RetentionDb :=
  extracted (query_params rq) (fun query => with_repository rq (extracted (list_limit query) (fun limit =>
    ops_job (o_read (list_cleanups limit)) (fun data =>
      json_response 200 (ops_envelope [("data", VArray (map run_json data))]))))).

Definition get_retention_cleanup (rq : Request) : OpsHandler RetentionDb :=
  extracted (path_id rq) (fun id => with_repository rq (
    ops_job (get_cleanup id) (fun run =>
      match run with
      | Some run => json_response 200 (run_body run)
      | None => ops_not_found "cleanup operation not found"
      end))).

Definition cancel_retention_cleanup (rq : Request) : OpsHandler RetentionDb :=
  extracted (path_id rq) (fun id => with_repository rq (
    ops_job (cancel_cleanup id "admin_api") (fun run => json_response 200 (run_body run)))).

Definition retry_retention_cleanup (rq : Request) : OpsHandler RetentionDb :=
  extracted (path_id rq) (fun id => with_repository rq (ops_job (retry_cleanup id "admin_api") run_response)).

Definition list_audit (rq : Request) : OpsHandler RetentionDb :=
  extracted (query_params rq) (fun query => with_repository rq (extracted (list_limit query) (fun limit =>
    ops_job (o_read (list_audit_logs (hm_get query "operation_id") limit)) (fun data =>
      json_response 200 (ops_envelope [("data", VArray (map audit_log_json data))]))))).
End Retention.

Section BackupHandlers.
Context `{ErrorTexts} `{ControlEnv} `{BuildCfg} `{UrlCrates} `{Collation} `{UrlEdit} `{SnapshotJson} `{SerdeJson}
  `{RowJson} `{OperationJson} {env : OpsEnv BackupDb}.
Context (export_to_value : ControlPlaneExport -> Value) (control_plane : option ControlPlane).

(** The body of a download. *)
Definition export_payload (result : string * string * ControlPlaneExport) : Value :=
  let '(backup_id, checksum, export) := result in
  ops_envelope [("backup_id", VString backup_id); ("checksum", VString checksum); ("data", export_to_value export)].

Definition export_response (result : string * string * ControlPlaneExport) : Response :=
  mkResponse 200 [("content-type", "application/json"); ("content-disposition", "attachment; filename=control-plane.json")]
    (BodyJson (export_payload result)) None None.

Definition export_control_plane (rq : Request) : OpsHandler BackupDb :=
  with_repository rq (
    match control_plane with
    | None => ops_answer (database_unavailable "DATABASE_URL is not configured")
    | Some cp => ops_job (Backup.export_control_plane export_to_value cp "admin_api") export_response
    end).

(** What an import reads: whether to replace, who asked, and the export, whose
    checksum is compared if one is given. *)
Definition read_import (payload : Value) : result (bool * string * ControlPlaneExport) Response :=
  let replace := unwrap_or (get payload "replace" ≫= as_bool) false in
  let? export := ok_or (read_export (unwrap_or (get payload "data") payload))
                       (invalid_operation "control-plane export shape is invalid") in
  let? _ := match get payload "checksum" ≫= as_str with
            | Some expected =>
                match export_checksum export_to_value export with
                | Ok actual =>
                    if actual =?s expected then Ok tt
                    else Err (error_response 422 "checksum_mismatch" "control-plane export checksum does not match")
                | Err _ => Err (invalid_operation "control-plane export checksum cannot be computed")
                end
            | None => Ok tt
            end in
  Ok (replace, requested_by payload, export).

Definition restore_response (result : RestoreResult) : Response :=
  json_response 200 (ops_envelope
    [("backup_id", VString (rr_backup_id result)); ("verified", VBool (rr_verified result));
     ("snapshot_revision", of_i64 (ss_revision (rr_snapshot result)));
     ("snapshot_generated_at", export_instant_json (ss_generated_at (rr_snapshot result)));
     ("skipped_virtual_keys", of_i64 (rr_skipped_virtual_keys result))]).

(** A handler that may publish a snapshot before it answers. *)
Definition ImportHandler : Type := OpsState BackupDb -> Handling * OpsState BackupDb.

Definition respond (handler : OpsHandler BackupDb) : ImportHandler := fun s =>
  let '(response, s) := handler s in (Respond response, s).

Definition restored (job : Om BackupDb RestoreResult) : ImportHandler := fun s =>
  match job s with
  | (Ok result, s) => (Publish (rr_snapshot result) (restore_response result), s)
  | (Err error, s) => (Respond (ops_error_response error), s)
  end.

Definition import_body (body : string) : ImportHandler :=
  if 16 * 1024 * 1024 <? slen body
  then respond (ops_answer (payload_too_large "control-plane export exceeds 16 MiB"))
  else
    match from_slice body with
    | None => respond (ops_answer (error_response 400 "invalid_json" "control-plane export is not valid JSON"))
    | Some payload =>
        match read_import payload with
        | Err response => respond (ops_answer response)
        | Ok (replace, requested_by, export) =>
            match control_plane with
            | None => respond (ops_answer (database_unavailable "DATABASE_URL is not configured"))
            | Some cp => restored (restore_control_plane export_to_value cp export replace requested_by)
            end
        end
    end.

Definition import_control_plane (rq : Request) : ImportHandler :=
  match body_bytes rq with
  | Err response => respond (ops_answer response)
  | Ok body =>
      match ops_repository rq with
      | Err response => respond (ops_answer response)
      | Ok _ => import_body body
      end
  end.

Definition backup_run (rq : Request) : OpsHandler BackupDb :=
  extracted (path_id rq) (fun id => with_repository rq (
    ops_job (o_read (get_backup_run id)) (fun run =>
      match run with
      | Some run => json_response 200 (ops_envelope [("data", backup_run_json run)])
      | None => ops_not_found "backup operation not found"
      end))).

Definition backup_runs (rq : Request) : OpsHandler BackupDb :=
  extracted (query_params rq) (fun query => with_repository rq (extracted (list_limit query) (fun limit =>
    ops_job (o_read (list_backup_runs limit)) (fun data =>
      json_response 200 (ops_envelope [("data", VArray (map backup_run_json data))]))))).
End BackupHandlers.
End Repository.

(** ** Downloads *)

Section Downloads.
Context `{ErrorTexts} `{ControlEnv} `{BuildCfg} `{UrlCrates} `{Collation} `{UrlEdit} `{SnapshotJson} `{SerdeJson}
  `{Sha256} `{RowJson} `{!RowJsonLaws} `{OperationJson} {env : OpsEnv BackupDb}.
Context (auth : AdminAuth) (database : bool) (export_to_value : ControlPlaneExport -> Value).

Abbreviation download := (OpsApi.export_control_plane auth database export_to_value).
Abbreviation upload := (import_control_plane auth true export_to_value).

(** The versions a migrated database has. *)
Definition migrated (db : BackupDb) : Prop := forall metadata, bk_schema db = Some metadata ->
  0 < sm_schema_version metadata /\ 0 < sm_migration_version metadata.

Lemma ops_error_status_high error : 400 <= ops_error_status error.
Proof. destruct error; cbn; lia. Qed.

Lemma ops_job_ok {D A} (job : Om D A) (k : A -> Response) s response s' :
  ops_job job k s = (response, s') -> rp_status response < 400 ->
  exists x, job s = (Ok x, s') /\ response = k x.
Proof.
  unfold ops_job. destruct (job s) as [[x|e] s2]; intros [= <- <-]; [by exists x|].
  pose proof (ops_error_status_high e). cbn. lia.
Qed.

Lemma schema_metadata_migrated s metadata s' :
  (forall k d, migrated d -> migrated (op_others k d)) -> migrated (op_db s) ->
  schema_metadata s = (Ok metadata, s') -> 0 < sm_schema_version metadata /\ 0 < sm_migration_version metadata.
Proof.
  intros Hothers Hs (o & s1 & Ho & (m & s2 & [Hsome ->]%o_of_inv & Hm)%o_bind_inv)%o_bind_inv.
  destruct (_ || _); [by apply o_of_inv in Hm as [? _]|]. injection Hm as -> _.
  unfold o_read, o_tx in Ho. destruct (op_fault _); [done|]. injection Ho as Ho _.
  destruct o as [m'|]; [|done]. injection Hsome as ->. by apply (Hothers (op_tick s) (op_db s) Hs).
Qed.

(** What a successful export has read and summed up. *)
Lemma exported_inv self actor s id checksum e s' :
  (forall k d, migrated d -> migrated (op_others k d)) -> migrated (op_db s) ->
  Backup.export_control_plane export_to_value self actor s = (Ok (id, checksum, e), s') ->
  export_checksum export_to_value e = Ok checksum
  /\ exists metadata s1 s2, 0 < sm_schema_version metadata /\ 0 < sm_migration_version metadata
       /\ build_control_plane_export self metadata s1 = (Ok e, s2).
Proof.
  intros Hothers Hs. unfold Backup.export_control_plane. intros (uuid & s1 & Huuid & Hx)%o_bind_inv.
  injection Huuid as <- <-. apply o_bind_inv in Hx as (metadata & s2 & Hm & (? & s3 & _ & Hx)%o_bind_inv).
  apply o_bind_inv in Hx as (result & s4 & Hb & Hx). unfold o_try in Hb.
  destruct (build_control_plane_export self metadata s3) as [r s5] eqn:Eb. injection Hb as <- <-.
  destruct r as [export|error]; [|by apply o_bind_inv in Hx as (? & ? & _ & ?)].
  apply o_bind_inv in Hx as (c & s6 & [Hc ->]%o_of_inv & (? & ? & _ & (? & ? & _ & [= <- <- <- _])%o_bind_inv)%o_bind_inv).
  split; [done|]. apply schema_metadata_migrated in Hm as [? ?]; [|done..]. by exists metadata, s3, s5.
Qed.

(** C15. A download of the control plane can be uploaded as it is, while it is
    small enough.  On a database with the schema of the migrations, when the
    export endpoint answers 200, its body is an export that passes every check
    of an import, whatever the tables held.  If that body is then sent with the
    admin key to the import endpoint of any gateway that has a database, is at
    most 16 MiB, arrives at the handler at all (the server stops HTTP bodies
    over 2 MB before it), and [serde_json] reads back the text and the value it
    wrote, then it is neither refused as JSON, nor for its shape or its
    checksum: the restore runs on precisely the export that was built, and what
    the restore does is the answer. *)
Theorem downloads_are_importable cp cp' rq s response s1 :
  (forall bytes, slen (sha256 bytes) = 32) ->
  (forall k d, migrated d -> migrated (op_others k d)) -> migrated (op_db s) ->
  download (Some cp) rq s = (response, s1) -> rp_status response = 200 ->
  exists id checksum e,
    response = export_response export_to_value (id, checksum, e) /\ validate_export_shape e = Ok tt
    /\ forall rq' body,
         read_export (export_to_value e) = Some e ->
         from_slice body = Some (export_payload export_to_value (id, checksum, e)) ->
         slen body <= 16 * 1024 * 1024 -> body_bytes rq' = Ok body -> admin_authorized auth (rq_headers rq') = true ->
         upload (Some cp') rq' = restored (restore_control_plane export_to_value cp' e false "admin_api").
Proof.
  intros Hsha Hothers Hs Hd H200. unfold OpsApi.export_control_plane, with_repository in Hd.
  destruct (ops_repository _ _ _) as [[]|r] eqn:Er.
  2: { injection Hd as <- _. unfold ops_repository in Er. destruct (negb (admin_authorized _ _)); [by injection Er as <-|].
       destruct (negb database); [by injection Er as <-|done]. }
  apply ops_job_ok in Hd as ([[id checksum] e] & Hjob & ->); [|lia].
  apply exported_inv in Hjob as (Hsum & metadata & s2 & s3 & Hm1 & Hm2 & Hbuild); [|done..].
  exists id, checksum, e. split; [done|]. split; [by eapply exports_are_importable|].
  intros rq' body Hserde Hbody Hlen Hread Hauth. unfold import_control_plane, ops_repository. rewrite Hread, Hauth. cbn [negb].
  unfold import_body. rewrite (proj2 (Z.ltb_ge _ _) Hlen), Hbody.
  assert (read_import export_to_value (export_payload export_to_value (id, checksum, e)) = Ok (false, "admin_api", e)) as ->; [|done].
  unfold read_import. 
  change (get (export_payload export_to_value (id, checksum, e)) "data") with (Some (export_to_value e)).
  change (get (export_payload export_to_value (id, checksum, e)) "checksum") with (Some (VString checksum)).
  cbn [unwrap_or]. rewrite Hserde. cbn [ok_or rbind mbind option_bind as_str].
  by rewrite Hsum, String.eqb_refl.
Qed.
End Downloads.

(** ** Policy updates *)

Definition policy_fields (p : RetentionPolicyWrite) : list (string * Value) :=
  [("enabled", VBool (pw_enabled p)); ("retention_days", of_i64 (pw_retention_days p))].

(** [{"policies": [{"policy_key": .., "retention_days": .., "enabled": ..}]}]. *)
Definition array_form (policies : list RetentionPolicyWrite) : Value :=
  VObject [("policies", VArray (map (fun p => VObject (policy_fields p ++ [("policy_key", VString (pw_policy_key p))])) policies))].

(** [{"usage_events": {"retention_days": .., "enabled": ..}}]. *)
Definition compact_form (policies : list RetentionPolicyWrite) : Value :=
  json_object (map (fun p => (pw_policy_key p, VObject (policy_fields p))) policies).

Definition days_i32 (p : RetentionPolicyWrite) : Prop := - 2 ^ 31 <= pw_retention_days p <= I32_MAX.

Lemma read_policy_fields p m : days_i32 p -> hm_get m "policy_key" = Some (VString (pw_policy_key p)) ->
  hm_get m "retention_days" = Some (of_i64 (pw_retention_days p)) -> hm_get m "enabled" = Some (VBool (pw_enabled p)) ->
  read_policy_write (VObject m) = Some p.
Proof.
  unfold days_i32, I32_MAX. intros Hd Hk Hr He. unfold read_policy_write. rewrite Hk, Hr, He. unfold policy_write_of, as_i32.
  cbn [mbind option_bind as_str as_bool]. rewrite as_i64_of_i64 by (unfold I64_MAX; lia). cbn [mbind option_bind].
  rewrite !(proj2 (Z.leb_le _ _)) by (unfold I32_MAX; lia). by destruct p.
Qed.

Lemma array_form_read policies : Forall days_i32 policies -> read_policies (array_form policies) = Ok policies.
Proof.
  intros Hd. unfold read_policies, array_form.
  change (get (VObject [("policies", ?v)]) "policies") with (Some v). cbn [as_array mbind option_bind].
  assert (mapM read_policy_write (map (fun p => VObject (policy_fields p ++ [("policy_key", VString (pw_policy_key p))])) policies)
    = Some policies) as ->; [|done].
  induction Hd as [|p policies Hp _ IH]; [done|]. cbn [map mapM]. rewrite (read_policy_fields p) by done.
  cbn [mbind option_bind]. unfold mret, option_ret in *. by rewrite IH.
Qed.

Definition compact_entry (p : RetentionPolicyWrite) : string * Value := (pw_policy_key p, VObject (policy_fields p)).

Lemma compact_entries_read m : forall policies, map compact_entry policies = m -> Forall days_i32 policies ->
  Forall (fun p => pw_policy_key p <> "requested_by") policies -> compact_policies m = Ok policies.
Proof.
  induction m as [|[key value] m IH]; intros [|p policies] Hm; try done.
  injection Hm as Hk Hv Hm. intros [Hd Hds]%Forall_cons [Hne Hnes]%Forall_cons. cbn [compact_policies].
  rewrite <- Hk. rewrite (proj2 (String.eqb_neq _ _) Hne), <- Hv. cbn [as_object ok_or rbind].
  rewrite (read_policy_fields p) by done. cbn [ok_or rbind]. by rewrite (IH policies).
Qed.

Lemma retention_key_plain key : key ∈ RETENTION_KEYS -> key <> "requested_by" /\ key <> "policies" /\ key <> "policy_key".
Proof. unfold RETENTION_KEYS. intros Hk. repeat (apply elem_of_cons in Hk as [->|Hk]; [done|]). by apply elem_of_nil in Hk. Qed.

(** The array form and the compact form of an update say the same: the
    policies of the array, in another order at most. *)
Theorem policy_forms_agree policies :
  Forall (fun p => pw_policy_key p ∈ RETENTION_KEYS /\ days_i32 p) policies -> NoDup (map pw_policy_key policies) ->
  read_policies (array_form policies) = Ok policies
  /\ exists policies', read_policies (compact_form policies) = Ok policies' /\ policies' ≡ₚ policies.
Proof.
  intros [Hkeys Hdays]%Forall_and Hnd. split; [by apply array_form_read|].
  assert (NoDup (map compact_entry policies).*1) as Hnd'.
  { rewrite <- list_fmap_compose. exact Hnd. }
  assert (bt_collect (map compact_entry policies) ≡ₚ map compact_entry policies) as Hp.
  { apply NoDup_Permutation; [eapply NoDup_fmap_1, bt_wf_nodup, bt_collect_wf|by eapply NoDup_fmap_1|].
    intros [k v]. by apply bt_collect_in. }
  destruct (Permutation_map_inv _ _ Hp) as (policies' & Hm & Hperm).
  exists policies'. split; [|by symmetry].
  assert (forall key, key ∈ ["policies"; "policy_key"] -> get (compact_form policies) key = None) as Hnone.
  { intros key Hk. change (hm_get (bt_collect (map compact_entry policies)) key = None).
    destruct (hm_get _ key) as [v|] eqn:Eg; [|done]. apply hm_get_Some_in in Eg.
    rewrite Hp in Eg. apply list_elem_of_fmap in Eg as (p & [= -> _] & Hin).
    eapply Forall_forall in Hkeys; [|exact Hin]. apply retention_key_plain in Hkeys. set_solver. }
  unfold read_policies. rewrite !Hnone by set_solver. cbn [is_some].
  change (compact_form policies) with (VObject (bt_collect (map compact_entry policies))). cbn [as_object ok_or rbind].
  apply compact_entries_read; [by rewrite <- Hm|by rewrite <- Hperm|]. rewrite <- Hperm. eapply Forall_impl; [exact Hkeys|].
  intros p Hk. by apply retention_key_plain in Hk as [? _].
Qed.

(** ** A body that was not read *)

(** The audit layer passes on a body over its limit, or one that breaks off, as
    an empty one, and then a cleanup with the default options is started. *)
Lemma lost_body_starts_a_cleanup `{Sha256} `{UrlCrates} `{UrlEdit} `{Rfc3339} `{OperationJson} {env : OpsEnv RetentionDb}
    auth rq s :
  (forall rq', rq_body rq' = BodyRead "" -> body_bytes rq' = Ok "") -> admin_authorized auth (rq_headers rq) = true ->
  (rq_body rq = BodyBroken \/ exists bytes, rq_body rq = BodyRead bytes /\ AUDIT_BODY_BYTES < slen bytes) ->
  start_retention_cleanup auth true (set_body rq (to_bytes_or_default (rq_body rq) AUDIT_BODY_BYTES)) s
  = ops_job (start_cleanup default_request) run_response s.
Proof.
  intros Hread Hauth Hbody. assert (to_bytes_or_default (rq_body rq) AUDIT_BODY_BYTES = "") as ->.
  { destruct Hbody as [->|(bytes & -> & Hlen)]; [done|]. cbn. by rewrite (proj2 (Z.leb_gt _ _) Hlen). }
  unfold start_retention_cleanup. rewrite Hread by done. unfold extracted, with_repository, ops_repository.
  change (rq_headers (set_body rq "")) with (rq_headers rq). by rewrite Hauth.
Qed.

(** ** Examples *)

Definition read_z (v : Value) : Z :=
  match v with VNumber (PosInt n) => Z.of_N n | VNumber (NegInt p) => Z.neg p | _ => 0 end.
Definition read_text (v : Value) : string := unwrap_or (as_str v) "".
Definition read_list (v : Value) : list Value := unwrap_or (as_array v) [].

(** An encoding of exports. *)
Definition example_to_value (e : ControlPlaneExport) : Value :=
  VArray
    [VString (ex_format e); of_i64 (ex_version e); of_i64 (ex_exported_at e); VString (ex_timezone e);
     of_i64 (ex_schema_version e); of_i64 (ex_migration_version e); ex_credentials e;
     of_i64 (rs_revision (ex_runtime_snapshot e)); of_i64 (rs_generated_at (ex_runtime_snapshot e));
     VString (rs_fingerprint (ex_runtime_snapshot e)); ex_row_counts e; VArray (ex_provider_presets e);
     VArray (ex_model_presets e); VArray (ex_sources e); VArray (ex_accounts e); VArray (ex_source_models e);
     VArray (ex_source_model_capabilities e); VArray (ex_logical_models e); VArray (ex_model_bindings e);
     VArray (ex_routes e); VArray (ex_providers e); VArray (ex_virtual_keys e)].

Definition example_read_export (v : Value) : option ControlPlaneExport :=
  match v with
  | VArray [f; v; t; z; s; m; c; r; g; p; n; pp; mp; so; ac; sm; ca; lm; mb; ro; pr; vk] =>
      Some (mkExport (read_text f) (read_z v) (read_z t) (read_text z) (read_z s) (read_z m) c
              (mkSnapshotMetadata (read_z r) (read_z g) (read_text p)) n (read_list pp) (read_list mp) (read_list so)
              (read_list ac) (read_list sm) (read_list ca) (read_list lm) (read_list mb) (read_list ro) (read_list pr)
              (read_list vk))
  | _ => None
  end.

Lemma read_z_of_i64 n : read_z (of_i64 n) = n.
Proof. destruct n; cbn; lia. Qed.

Lemma example_export_read e : example_read_export (example_to_value e) = Some e.
Proof. destruct e as [????????? ???????????]. cbn -[read_z of_i64]. rewrite !read_z_of_i64. by destruct ex_runtime_snapshot. Qed.

Definition example_ops_json : OperationJson :=
  {| body_bytes rq := match rq_body rq with BodyRead bytes => Ok bytes | BodyBroken => Err (error_response 400 "body" "") end;
     query_params rq := Ok []; path_id rq := Ok (rq_path rq); policy_json p := VString (rp_policy_key p);
     run_json r := VString (Cleanup.cr_id r); audit_log_json r := of_i64 r.1; backup_run_json r := VString r.1;
     export_instant_json t := of_i64 t; read_cleanup_request body := None; read_export := example_read_export |}.

Section Examples.
Local Existing Instances example_errors example_control_env json_concrete example_json example_edit backup_build
  backup_collation example_urls backup_sha backup_snapshot backup_env example_ops_json.

Definition example_ops_admin : AdminAuth := mkAdminAuth (Some (sha256 "admin")).
Definition example_ops_request (body : string) : Request :=
  mkRequest POST "/admin/control-plane/import" [("x-api-key", "admin")] (BodyRead body).

Definition example_download : Response * OpsState BackupDb :=
  OpsApi.export_control_plane example_ops_admin true example_to_value (Some example_plane) (example_ops_request "")
    (mkOpsState 0 example_backup).

(** The example is downloaded and uploaded again. *)
Lemma downloads_are_importable_witness :
  rp_status example_download.1 = 200
  /\ exists e body, rp_body example_download.1 = BodyJson body
       /\ get body "data" = Some (example_to_value e)
       /\ import_control_plane example_ops_admin true example_to_value (Some example_plane)
            (example_ops_request (unwrap_or (to_string body) ""))
          = restored (restore_control_plane example_to_value example_plane e false "admin_api").
Proof.
  assert (rp_status example_download.1 = 200) as Hs by (vm_compute; reflexivity). split; [exact Hs|].
  assert (OpsApi.export_control_plane example_ops_admin true example_to_value (Some example_plane) (example_ops_request "")
    (mkOpsState 0 example_backup) = (example_download.1, example_download.2)) as Hd by apply surjective_pairing.
  assert (migrated example_backup) as Hm.
  { intros m Hm. change (Some (mkSchemaMetadata 28 28) = Some m) in Hm. injection Hm as <-. by split. }
  destruct (@downloads_are_importable example_errors backup_build example_urls backup_collation
    example_edit backup_snapshot json_concrete backup_sha example_json example_json_laws example_ops_json backup_env
    example_ops_admin true example_to_value example_plane example_plane (example_ops_request "")
    (mkOpsState 0 example_backup) example_download.1 example_download.2 (fun _ => eq_refl) (fun _ _ H => H) Hm Hd Hs)
    as (id & checksum & e & Hr & _ & Hup).
  assert (exists v, rp_body example_download.1 = BodyJson v /\ from_slice (unwrap_or (to_string v) "") = Some v
    /\ slen (unwrap_or (to_string v) "") <= 16 * 1024 * 1024) as (v & Hv & Hread & Hlen).
  { eexists. split; [vm_compute; reflexivity|]. split; [vm_compute; reflexivity|]. vm_compute. discriminate. }
  rewrite Hr in Hv. injection Hv as <-. exists e, (export_payload example_to_value (id, checksum, e)). rewrite Hr.
  split; [reflexivity|]. split; [reflexivity|].
  apply (Hup (example_ops_request _) _ (example_export_read e) Hread Hlen eq_refl). vm_compute. reflexivity.
Defined.
End Examples.
