(* ===== verification/ReportApi.v ===== *)
(** * The reports of the admin API

    The handlers of [src/src/api/usage.rs], [events.rs], [filter_options.rs] and
    [upstream_quota.rs], which only read: the parsers and queries of
    [UsageReport], [EventFeed] and [Quota], and the options offered for a
    filter ([src/src/infra/db/filter_options.rs]).  An export is complete or
    refused, and the options of a filter select events. *)

From Stdlib Require Import ZArith Lia Ascii Sorting.Sorted.
From stdpp Require Import base list strings gmap sorting.
From S2P Require Import Prelude.
From S2P Require Import RustStr.
From S2P Require Import BTree.
From S2P Require Import Keyset.
From S2P Require Import Config.
From S2P Require Import Health.
From S2P Require Import SourceUrl.
From S2P Require Import Json.
From S2P Require Import Redaction.
From S2P Require Import Events.
From S2P Require Import Cleanup.
From S2P Require Import Presets.
From S2P Require Import ModelCatalog.
From S2P Require Import Discovery.
From S2P Require Import Usage.
From S2P Require Import Accounting.
From S2P Require Import EventFeed.
From S2P Require Import Http.
From S2P Require Import VirtualKeys.
From S2P Require Import Secrets.
From S2P Require Import UsageReport.
From S2P Require Import UsageReportProps.
From S2P Require Import Quota.
From S2P Require Import Auth.
From S2P Require Import RequestAudit.
From S2P Require Import AdminGate.
From S2P Require Import AdminApi.

(** ** Filter options *)

Inductive UsageOptionField : Type :=
| OptLogicalModel | OptUpstreamModel | OptProvider | OptSource | OptAccount | OptClientSource | OptVirtualKey.

Definition UsageOptionField_parse (value : string) : option UsageOptionField :=
  if value =?s "logical_model" then Some OptLogicalModel
  else if value =?s "upstream_model" then Some OptUpstreamModel
  else if value =?s "provider" then Some OptProvider
  else if value =?s "source_id" then Some OptSource
  else if value =?s "account" then Some OptAccount
  else if value =?s "client_source" then Some OptClientSource
  else if value =?s "virtual_key" then Some OptVirtualKey
  else None.

(** The column as a text; a [NULL] is [None]. *)
Definition option_column (field : UsageOptionField) (r : UsageRow) : option string :=
  let e := uw_event r in
  match field with
  | OptLogicalModel => Some (ue_logical_model e)
  | OptUpstreamModel => ue_upstream_model_id e
  | OptProvider => Some (ue_provider_id e)
  | OptSource => uw_source_id r
  | OptAccount => Some (ue_account_id e)
  | OptClientSource => Some (ue_client_source e)
  | OptVirtualKey => dec <$> ue_virtual_key_id e
  end.

(** [lower] of PostgreSQL depends on the locale of the database. *)
Class PgText : Type := { pg_lower : string -> string }.

(** [btrim(s) <> '']: there is something else than spaces. *)
Definition not_spaces (s : string) : bool := negb (sall (fun a => byte_in a 32 32) s).

Section Options.
Context `{PgText}.

(** What the [WHERE] clause asks of a time and a value. *)
Definition option_matches (from to : option Z) (search : string) (tv : Z * string) : bool :=
  is_none_or from (fun t => t <=? tv.1) && is_none_or to (fun t => tv.1 <? t)
  && not_spaces tv.2 && contains_str (pg_lower tv.2) (pg_lower search).

(** [SELECT DISTINCT value COLLATE C .. ORDER BY value LIMIT limit+1]. *)
Definition distinct_options (from to : option Z) (search : string) (limit : Z) (values : list (Z * string)) : list string :=
  firstn (Z.to_nat (clamp 1 100 limit + 1))
    (sort_by id (remove_dups (map snd (List.filter (option_matches from to search) values)))).

Definition usage_filter_options (t : ReportTables) (field : UsageOptionField) (from to : option Z) (search : string)
    (limit : Z) : list string :=
  distinct_options from to search limit
    (omap (fun r => pair (uw_created_at r) <$> option_column field r) (map snd (map_to_list (rt_events t)))).

Definition event_type_options (rows : list UnifiedRow) (from to : option Z) (search : string) (limit : Z) : list string :=
  distinct_options from to search limit (map (fun r => (un_occurred_at r, un_event_type r)) rows).
End Options.

Record OptionsQuery : Type := mkOptionsQuery {
  oq_from : option Z;
  oq_to : option Z;
  oq_search : string;
  oq_limit : Z;
}.

Section Parser.
Context `{Rfc3339}.

(** [parse_query]; the keys in the order the map yields them. *)
Definition parse_options_query (query : Query) : result OptionsQuery string :=
  match List.find (fun kv => negb (one_of kv.1 ["field"; "from"; "to"; "q"; "limit"])) query with
  | Some (key, _) => Err ("unsupported parameter: " +:+ key)
  | None =>
      let? from := parse_time query "from" in
      let? to := parse_time query "to" in
      if match from, to with Some from, Some to => to <=? from | _, _ => false end
      then Err "from must be earlier than to"
      else
        let search := trim (unwrap_or (hm_get query "q") "") in
        if (256 <? char_count search) || has_control search
        then Err "q must contain at most 256 printable characters"
        else
          let? limit := bounded I64_MIN I64_MAX 1 100 query "limit" "limit must be between 1 and 100" in
          Ok (mkOptionsQuery from to search (unwrap_or limit 50))
  end.
End Parser.

Definition options_response (data : list string) (query : OptionsQuery) : Response :=
  json_response 200 (json_object
    [("data", VArray (map VString (firstn (Z.to_nat (oq_limit query)) data)));
     ("has_more", VBool (oq_limit query <? Z.of_nat (length data)))]).

Definition invalid_options_query (message : string) : Response := error_response 400 "invalid_filter_options_query" message.
Definition options_failed : Response := error_response 500 "filter_options_failed" "filter options query failed".

(** ** Handlers *)

(** The derived code of [serde] and the extractors of [axum]. *)
Class ReportJson : Type := {
  report_query : Request -> result Query Response;
  report_path : Request -> result string Response;
  usage_row_json : UsageRow -> Value;
  attempt_json : UsageAttempt -> Value;
  stats_json : UsageStats -> Value;
  series_json : Z * UsageStats -> Value;
  breakdown_json : UsageBreakdown -> Value;
  event_json : EventRecord -> Value;
  sum_error : string;        (** a sum that is no [BIGINT] *)
}.

Section Handlers.
Context `{Sha256} `{SerdeJson} `{Rfc3339} `{EventTime} `{PgStatistics} `{PgText} `{ReportJson} (text_order : Ordered string).
Context (admin_auth : AdminAuth).

(** What the database answers a statement: an error as text, or the rows. *)
Definition Answered (A : Type) : Type := result A string.

(** The first lines of every handler. *)
Definition authorized_report (rq : Request) (database : bool) (k : Response) : Response :=
  if negb (admin_authorized admin_auth (rq_headers rq)) then unauthorized
  else if negb database then database_unavailable "DATABASE_URL is not configured" else k.

Definition usage_range (f : UsageFilter) : Value :=
  let time t := match t with Some t => VString (to_rfc3339 t) | None => VNull end in
  json_object [("from", time (uf_from f)); ("to", time (uf_to f)); ("boundary", VString "[from,to)")].

Definition invalid_usage_query (message : string) : Response := error_response 400 "invalid_usage_query" message.

Definition usage_envelope (f : UsageFilter) (fields : list (string * Value)) : Value :=
  json_object (("version", VString "v1") :: ("timezone", VString "UTC") :: ("range", usage_range f) :: fields).

(** A handler of a usage query on the tables, if there are any. *)
Definition usage_handler (tables : option ReportTables) (rq : Request) (k : ReportTables -> UsageQuery -> Response) : Response :=
  match report_query rq with
  | Err response => response
  | Ok query =>
      authorized_report rq (is_some tables)
        match tables, parse_usage_query query with
        | Some tables, Ok query => k tables query
        | _, Err message => invalid_usage_query message
        | None, _ => database_unavailable "DATABASE_URL is not configured"
        end
  end.

(** A sum out of range is an error of the database. *)
Definition report {A} (answer : Answered (option A)) (code : string) (k : A -> Response) : Response :=
  match answer with
  | Ok (Some data) => k data
  | Ok None => error_response 500 code sum_error
  | Err error => error_response 500 code error
  end.

(** [fault] is what the database says when a statement fails. *)
Definition faulty {A} (fault : option string) (data : A) : Answered A :=
  match fault with Some error => Err error | None => Ok data end.

Definition usage_summary (tables : option ReportTables) (fault : option string) (rq : Request) : Response :=
  usage_handler tables rq (fun t q =>
    report (faulty fault (UsageReport.usage_aggregate t (uq_filter q))) "usage_summary_failed" (fun data =>
      json_response 200 (usage_envelope (uq_filter q) [("data", stats_json data)]))).

Definition usage_timeseries (tables : option ReportTables) (fault : option string) (rq : Request) : Response :=
  usage_handler tables rq (fun t q =>
    report (faulty fault (UsageReport.usage_timeseries t (uq_filter q) (uq_granularity q))) "usage_timeseries_failed" (fun data =>
      json_response 200 (usage_envelope (uq_filter q)
        [("granularity", VString (uq_granularity q)); ("data", VArray (map series_json data))]))).

Definition usage_breakdown (tables : option ReportTables) (fault : option string) (rq : Request) : Response :=
  usage_handler tables rq (fun t q =>
    report (faulty fault (UsageReport.usage_breakdown text_order t (uq_filter q) (uq_breakdown q))) "usage_breakdown_failed"
      (fun data => json_response 200 (usage_envelope (uq_filter q)
        [("dimension", VString (uq_breakdown q)); ("data", VArray (map breakdown_json data))]))).

Definition usage_events (tables : option ReportTables) (fault : option string) (rq : Request) : Response :=
  usage_handler tables rq (fun t q =>
    report (faulty fault (Some (list_usage_events_page text_order t (uq_filter q) (uq_limit q) (uq_cursor q)))) "usage_events_failed"
      (fun page => json_response 200 (usage_envelope (uq_filter q)
        [("data", VArray (map usage_row_json (up_data page)));
         ("page", json_object [("limit", of_i64 (uq_limit q)); ("has_more", VBool (up_has_more page));
            ("next_cursor", match up_next_cursor page with Some c => VString c | None => VNull end)])]))).

(** Three statements, each with a fault of its own. *)
Definition usage_aggregate (tables : option ReportTables) (faults : option string * option string * option string) (rq : Request)
    : Response :=
  usage_handler tables rq (fun t q =>
    let '(fault1, fault2, fault3) := faults in
    report (faulty fault1 (UsageReport.usage_aggregate t (uq_filter q))) "usage_aggregate_failed" (fun aggregate =>
    report (faulty fault2 (UsageReport.usage_timeseries t (uq_filter q) (uq_granularity q))) "usage_timeseries_failed" (fun series =>
    report (faulty fault3 (UsageReport.usage_breakdown text_order t (uq_filter q) (uq_breakdown q))) "usage_breakdown_failed"
      (fun breakdown => json_response 200 (usage_envelope (uq_filter q)
        [("granularity", VString (uq_granularity q)); ("breakdown_dimension", VString (uq_breakdown q));
         ("aggregate", stats_json aggregate); ("timeseries", VArray (map series_json series));
         ("breakdown", VArray (map breakdown_json breakdown))]))))).

Definition EXPORT_LIMIT : Z := 10000.

Definition export_too_large : Response :=
  error_response 422 "export_too_large"
    ("export exceeds " +:+ dec EXPORT_LIMIT +:+ " rows; narrow the time range or add filters").

Definition download (content_type disposition : string) (body : Body) : Response :=
  mkResponse 200 [("content-type", content_type); ("content-disposition", disposition)] body None None.

Definition usage_export (tables : option ReportTables) (fault : option string) (rq : Request)
    : Response :=
  usage_handler tables rq (fun t q =>
    report (faulty fault (Some (export_usage_events text_order t (uq_filter q) (EXPORT_LIMIT + 1)))) "usage_export_failed"
      (fun events =>
         if EXPORT_LIMIT <? Z.of_nat (length events) then export_too_large
         else if uq_format q =?s "csv" then
           download "text/csv; charset=utf-8" "attachment; filename=usage-events.csv"
             (BodyBytes (usage_events_csv events))
         else
           download "application/json" "attachment; filename=usage-events.json"
             (BodyJson (usage_envelope (uq_filter q) [("data", VArray (map usage_row_json events))])))).

Definition event_not_found : Response := error_response 404 "event_not_found" "usage event not found".

Definition usage_event_detail (tables : option ReportTables) (faults : option string * option string) (rq : Request) : Response :=
  match report_path rq with
  | Err response => response
  | Ok request_id =>
      authorized_report rq (is_some tables)
        match tables with
        | None => database_unavailable "DATABASE_URL is not configured"
        | Some t =>
            match faulty faults.1 (get_usage_event_detail t request_id) with
            | Err error => error_response 500 "event_detail_failed" error
            | Ok None => event_not_found
            | Ok (Some event) =>
                match faulty faults.2 (list_attempts_for_event t request_id) with
                | Err error => error_response 500 "event_detail_failed" error
                | Ok attempts =>
                    json_response 200 (json_object
                      [("version", VString "v1"); ("data", usage_row_json event);
                       ("attempts", VArray (map attempt_json attempts))])
                end
            end
        end
  end.

(** [list_events] of [events.rs]; without tables the recorder is disabled. *)
Definition list_events `{UrlCrates} `{UrlEdit} `{FeedDb} (tables : option FeedTables) (fault : option Events.DbError) (rq : Request) : Response :=
  match report_query rq with
  | Err response => response
  | Ok query =>
      authorized_report rq (is_some tables)
        match parse_event_query query with
        | Err message => error_response 400 "invalid_event_query" message
        | Ok q =>
            let f := eq_filter q in
            match EventFeed.list_events text_order tables fault f (eq_limit q) (eq_cursor q) with
            | Err _ => error_response 500 "events_query_failed" "event query failed"
            | Ok page =>
                let time t := match t with Some t => VString (to_rfc3339 t) | None => VNull end in
                json_response 200 (json_object
                  [("version", VString "v1"); ("timezone", VString "UTC");
                   ("fact_source", VString "postgresql_unified_read_model");
                   ("range", json_object
                      [("from", time (ef_from f)); ("since", time (ef_since f)); ("to", time (ef_to f));
                       ("boundary", VString (if is_some (ef_since f) then "(since,to)" else "[from,to)"))]);
                   ("data", VArray (map event_json (pg_data page)));
                   ("page", json_object
                      [("limit", of_i64 (eq_limit q)); ("has_more", VBool (pg_has_more page));
                       ("next_cursor", match pg_next_cursor page with Some c => VString c | None => VNull end)])])
            end
        end
  end.

Definition usage_options (tables : option ReportTables) (fault : option string) (rq : Request) : Response :=
  match report_query rq with
  | Err response => response
  | Ok params =>
      authorized_report rq (is_some tables)
        match tables, hm_get params "field" ≫= UsageOptionField_parse with
        | _, None => invalid_options_query "unsupported or missing usage field"
        | tables, Some field =>
            match parse_options_query params, tables with
            | Err message, _ => invalid_options_query message
            | Ok _, None => database_unavailable "DATABASE_URL is not configured"
            | Ok q, Some t =>
                match faulty fault (usage_filter_options t field (oq_from q) (oq_to q) (oq_search q) (oq_limit q)) with
                | Ok data => options_response data q
                | Err _ => options_failed
                end
            end
        end
  end.

Definition event_options `{FeedDb} (tables : option FeedTables) (fault : option string) (rq : Request) : Response :=
  match report_query rq with
  | Err response => response
  | Ok params =>
      authorized_report rq (is_some tables)
        (if negb (is_some_and (hm_get params "field") (String.eqb "event_type"))
         then invalid_options_query "field must be event_type"
         else
           match parse_options_query params, tables with
           | Err message, _ => invalid_options_query message
           | Ok _, None => database_unavailable "DATABASE_URL is not configured"
           | Ok q, Some t =>
               match faulty fault (event_type_options (unified_events t) (oq_from q) (oq_to q) (oq_search q) (oq_limit q)) with
               | Ok data => options_response data q
               | Err _ => options_failed
               end
           end)
  end.
End Handlers.

Section QuotaHandlers.
Context `{UrlCrates} `{PresetSerde} `{HttpNames} `{SerdeJson} `{Rfc3339} `{QuotaTime} `{Crypto} {quota_env : QuotaEnv}.
Context (policy : SourceUrlPolicy) (secrets : SecretResolver) (env_var : string -> option string).
Context (text_order : Ordered string) (quota_json : UpstreamQuotaSnapshot -> Value).

Definition quota_database_error : Response := error_response 500 "quota_database_error" "upstream quota database query failed".

(** [upstream_quota.rs]: the tables, if there are any, and whether the query
    for the accounts fails; the answer, and the requests that were sent. *)
Definition list_upstream_quotas (tables : option CatalogDb) (fault : bool) : Response * list (string * DiscoveryRequest) :=
  match tables with
  | None => (database_unavailable "DATABASE_URL is not configured", [])
  | Some db =>
      if fault then (quota_database_error, [])
      else let '(snapshots, sent) := list_quotas policy secrets env_var text_order db in
           (json_response 200 (json_object [("data", VArray (map quota_json snapshots))]), sent)
  end.

Definition get_upstream_quota (tables : option CatalogDb) (fault : bool) (account_id : string)
    : Response * list (string * DiscoveryRequest) :=
  match tables with
  | None => (database_unavailable "DATABASE_URL is not configured", [])
  | Some db =>
      if fault then (quota_database_error, [])
      else
        match get_quota policy secrets env_var db account_id with
        | (Some snapshot, sent) => (json_response 200 (json_object [("data", quota_json snapshot)]), sent)
        | (None, sent) => (error_response 404 "quota_account_not_found" "upstream account not found", sent)
        end
  end.
End QuotaHandlers.

(** ** Exports *)

Section Exports.
Context `{Sha256} `{Rfc3339} `{EventTime} `{ReportJson} (text_order : Ordered string) (auth : AdminAuth).

#[local] Existing Instance newest_first.

Abbreviation export := (usage_export text_order auth).

(** The lookahead of one row tells whether the limit is exceeded. *)
Lemma lookahead {A} (l : list A) limit : 0 <= limit ->
  (limit <? Z.of_nat (length (firstn (Z.to_nat (limit + 1)) l))) = (limit <? Z.of_nat (length l))
  /\ (Z.of_nat (length l) <= limit -> firstn (Z.to_nat (limit + 1)) l = l).
Proof.
  intros Hl. split; [|intros Hs; apply firstn_all2; lia]. rewrite length_firstn.
  apply eq_true_iff_eq. rewrite !Z.ltb_lt. lia.
Qed.

(** C39. A usage export is complete or refused.  An authorized export of a valid
    query answers 422 precisely if more than 10000 events match; otherwise its
    body holds every matching event exactly once, newest first, and never a
    part of them: a CSV body, read by the rules of RFC 4180, is the header and
    one record per event with precisely its values, and a JSON body is the array
    of the events. *)
Theorem usage_export_is_complete t rq query q :
  events_keyed t -> report_query rq = Ok query -> parse_usage_query query = Ok q ->
  admin_authorized auth (rq_headers rq) = true ->
  let matching := filtered t (uq_filter q) in
  (EXPORT_LIMIT < Z.of_nat (length matching) /\ export (Some t) None rq = export_too_large)
  \/ (Z.of_nat (length matching) <= EXPORT_LIMIT
      /\ exists events, events ≡ₚ matching /\ StronglySorted klt (map usage_key events)
          /\ rp_status (export (Some t) None rq) = 200
          /\ if uq_format q =?s "csv"
             then exists csv, rp_body (export (Some t) None rq) = BodyBytes csv
                    /\ csv_read AtStart "" [] csv = Some (csv_columns :: map csv_values events)
             else exists body, rp_body (export (Some t) None rq) = BodyJson body
                    /\ get body "data" = Some (VArray (map usage_row_json events))).
Proof.
  intros Hk Hquery Hparse Hauth matching.
  set (all := selected_rows text_order t (uq_filter q) None).
  assert (all ≡ₚ matching) as Hp by apply wanted_perm.
  destruct (lookahead all EXPORT_LIMIT ltac:(done)) as [Hmore Hall].
  assert (export (Some t) None rq
    = let events := export_usage_events text_order t (uq_filter q) (EXPORT_LIMIT + 1) in
      if EXPORT_LIMIT <? Z.of_nat (length events) then export_too_large
      else if uq_format q =?s "csv" then
        download "text/csv; charset=utf-8" "attachment; filename=usage-events.csv" (BodyBytes (usage_events_csv events))
      else
        download "application/json" "attachment; filename=usage-events.json"
          (BodyJson (usage_envelope (uq_filter q) [("data", VArray (map usage_row_json events))]))) as ->.
  { unfold usage_export, usage_handler, authorized_report. by rewrite Hquery, Hauth, Hparse. }
  cbv zeta. unfold export_usage_events. fold all. rewrite Hmore, <- Hp.
  destruct (Z.ltb_spec EXPORT_LIMIT (Z.of_nat (length all))) as [Hlt|Hle]; [by left|right].
  rewrite (Hall Hle). split; [done|]. exists all. split; [done|].
  split; [by apply wanted_strict, stored_keys_distinct|]. destruct (_ =?s _).
  - split; [done|]. eexists. split; [done|]. apply csv_export_reads_back.
  - split; [done|]. by eexists.
Qed.
End Exports.

(** ** Filter options *)

(** What the rows of a field hold. *)
Definition offered `{PgText} (from to : option Z) (search : string) (values : list (Z * string)) (v : string) : Prop :=
  exists t, (t, v) ∈ values /\ option_matches from to search (t, v) = true.

Lemma sorted_firstn {K} `{Ordered K} n (l : list K) : StronglySorted klt l -> StronglySorted klt (firstn n l).
Proof. intros Hs. rewrite <- (firstn_skipn n l) in Hs. by apply StronglySorted_app in Hs as (_ & ? & _). Qed.

Lemma distinct_options_spec `{PgText} from to search limit values : 1 <= limit <= 100 ->
  let data := distinct_options from to search limit values in
  let shown := firstn (Z.to_nat limit) data in
  StronglySorted klt shown
  /\ (forall v, v ∈ shown -> offered from to search values v)
  /\ (forall v, offered from to search values v -> v ∈ shown \/ limit < Z.of_nat (length data) /\ Forall (fun w => klt w v) shown).
Proof.
  intros Hl data shown. unfold data, distinct_options in *. unfold clamp in *. rewrite Z.min_r, Z.max_r in * by lia.
  set (all := sort_by id (remove_dups (map snd (List.filter (option_matches from to search) values)))) in *.
  assert (forall v, v ∈ all <-> offered from to search values v) as Hin.
  { intros v. unfold all. rewrite sort_by_perm, elem_of_remove_dups. change (map snd) with (fmap (M:=list) (@snd Z string)).
    rewrite list_elem_of_fmap. unfold offered. setoid_rewrite list_elem_of_In. setoid_rewrite List.filter_In. split.
    - intros ([t w] & -> & ? & ?). by exists t.
    - intros (t & ? & ?). by exists (t, v). }
  assert (StronglySorted klt all) as Hs.
  { rewrite <- (map_id all). apply sort_by_strict. rewrite map_id. apply NoDup_remove_dups. }
  assert (shown = firstn (Z.to_nat limit) all) as Hshown.
  { unfold shown, data. rewrite firstn_firstn. by rewrite Nat.min_l by lia. }
  rewrite Hshown. split; [by apply sorted_firstn|]. split.
  - intros v Hv. apply Hin. rewrite <- (firstn_skipn (Z.to_nat limit) all). apply elem_of_app. by left.
  - intros v Hv%Hin. rewrite <- (firstn_skipn (Z.to_nat limit) all) in Hv. apply elem_of_app in Hv as [Hv|Hv]; [by left|right].
    split.
    + rewrite length_firstn. assert (0 < length (skipn (Z.to_nat limit) all))%nat as Hn by (destruct (skipn _ _); [by apply elem_of_nil in Hv|cbn; lia]).
      rewrite length_skipn in Hn. lia.
    + rewrite <- (firstn_skipn (Z.to_nat limit) all) in Hs. apply StronglySorted_app in Hs as (Hlt & _ & _).
      apply Forall_forall. intros w Hw. by apply Hlt.
Qed.

Definition field_name (field : UsageOptionField) : string :=
  match field with
  | OptLogicalModel => "logical_model" | OptUpstreamModel => "upstream_model" | OptProvider => "provider"
  | OptSource => "source_id" | OptAccount => "account" | OptClientSource => "client_source" | OptVirtualKey => "virtual_key"
  end.

(** The usage query of a client that picks an option: its range and the value. *)
Definition picked (params : Query) (field : UsageOptionField) (v : string) : Query :=
  (field_name field, v) :: List.filter (fun kv => one_of kv.1 ["from"; "to"]) params.

Lemma hm_get_kept {V} (p : string -> bool) (m : list (string * V)) k :
  hm_get (List.filter (fun kv => p kv.1) m) k = if p k then hm_get m k else None.
Proof.
  induction m as [|[j v] m IH]; [by destruct (p k)|]. cbn [List.filter fst]. rewrite hm_get_cons.
  destruct (p j) eqn:Ej; [rewrite hm_get_cons|]; case_bool_decide as Hjk; subst; rewrite ?IH, ?Ej; try done.
Qed.

Section Options.
Context `{Rfc3339} `{EventTime} `{PgText}.

(** Ids of virtual keys are drawn from a sequence. *)
Definition key_ids_positive (t : ReportTables) : Prop := forall id r k, rt_events t !! id = Some r ->
  ue_virtual_key_id (uw_event r) = Some k -> 1 <= k <= I64_MAX.

Lemma picked_get params field v key :
  hm_get (picked params field v) key
  = if field_name field =?s key then Some v else if one_of key ["from"; "to"] then hm_get params key else None.
Proof.
  unfold picked. rewrite hm_get_cons, (hm_get_kept (fun k => one_of k ["from"; "to"])).
  case_bool_decide as Hk; [by rewrite Hk, String.eqb_refl|]. by rewrite (proj2 (String.eqb_neq _ _) Hk).
Qed.

(** The filter a pick parses to. *)
Definition picked_filter (field : UsageOptionField) (from to : option Z) (v : string) : UsageFilter :=
  let at_ (b : bool) := if b then Some v else None in
  mkUsageFilter from to (at_ (match field with OptLogicalModel => true | _ => false end))
    (at_ (match field with OptUpstreamModel => true | _ => false end)) (at_ (match field with OptProvider => true | _ => false end))
    (at_ (match field with OptSource => true | _ => false end)) (at_ (match field with OptClientSource => true | _ => false end))
    (at_ (match field with OptAccount => true | _ => false end)) None None
    (match field with OptVirtualKey => parse_int I64_MIN I64_MAX v | _ => None end) None None None.

Lemma parse_picked params field q v : parse_options_query params = Ok q ->
  (field = OptVirtualKey -> exists k, v = dec k /\ 1 <= k <= I64_MAX) ->
  exists q', parse_usage_query (picked params field v) = Ok q' /\ uq_filter q' = picked_filter field (oq_from q) (oq_to q) v.
Proof.
  unfold parse_options_query. destruct (List.find _ params) as [[? ?]|]; [done|].
  destruct (parse_time params "from") as [from|] eqn:Ef; [|done]. destruct (parse_time params "to") as [to|] eqn:Et; [|done].
  cbn [rbind]. destruct (match from, to with Some from, Some to => to <=? from | _, _ => false end) eqn:Er; [done|].
  destruct (_ || _); [done|]. destruct (bounded _ _ _ _ params _ _) as [limit|]; [|done]. cbn [rbind]. intros [= <-] Hkey.
  assert (forall key, one_of key ["from"; "to"] = true -> parse_time (picked params field v) key = parse_time params key) as Htime.
  { intros key Hk. unfold parse_time. rewrite picked_get, Hk. destruct (String.eqb_spec (field_name field) key) as [E|]; [|done].
    subst key. by destruct field. }
  unfold parse_usage_query. rewrite !Htime, Ef, Et by done. cbn [rbind]. rewrite Er. unfold bounded, status_filter, word.
  rewrite !picked_get. destruct field; cbn -[parse_int I64_MIN I64_MAX]; try by eexists.
  destruct (Hkey eq_refl) as (k & -> & Hk). rewrite parse_int_dec by (unfold I64_MIN; lia).
  rewrite !(proj2 (Z.leb_le _ _)) by lia. cbn -[parse_int I64_MIN I64_MAX dec]. eexists. split; [done|]. unfold picked_filter.
  by rewrite parse_int_dec by (unfold I64_MIN; lia).
Qed.

Lemma picked_filter_matches field from to v r : option_column field r = Some v ->
  (field = OptVirtualKey -> exists k, v = dec k /\ 1 <= k <= I64_MAX) ->
  is_none_or from (fun t => t <=? uw_created_at r) = true -> is_none_or to (fun t => uw_created_at r <? t) = true ->
  filter_matches (picked_filter field from to v) r = true.
Proof.
  intros Hv Hkey Hf Ht. unfold filter_matches, picked_filter. cbn [uf_from uf_to]. rewrite Hf, Ht.
  destruct field; cbn -[parse_int I64_MIN I64_MAX dec] in Hv |- *; unfold column_is;
    try (injection Hv as ->); try rewrite Hv; cbn -[parse_int I64_MIN I64_MAX dec]; try by rewrite String.eqb_refl.
  destruct (Hkey eq_refl) as (k & -> & Hk). rewrite parse_int_dec by (unfold I64_MIN; lia).
  destruct (ue_virtual_key_id _) as [k'|]; [|done]. injection Hv as ->%dec_inj. cbn. by rewrite Z.eqb_refl.
Qed.

Lemma options_limit params q : parse_options_query params = Ok q -> 1 <= oq_limit q <= 100.
Proof.
  unfold parse_options_query. destruct (List.find _ params) as [[? ?]|]; [done|].
  destruct (parse_time params "from"); [|done]. destruct (parse_time params "to"); [|done]. cbn [rbind].
  destruct (match _, _ with Some _, Some _ => _ | _, _ => _ end); [done|]. destruct (_ || _); [done|].
  unfold bounded. destruct (hm_get params "limit"); [|by intros [= <-]; cbn].
  destruct (parse_int _ _ _) as [n|]; [|done]. destruct ((1 <=? n) && (n <=? 100)) eqn:En; [|done].
  intros [= <-]. cbn. bool_to_prop. lia.
Qed.

(** The times and values the statement ranges over. *)
Lemma option_values t field tm v :
  (tm, v) ∈ omap (fun r => pair (uw_created_at r) <$> option_column field r) (map snd (map_to_list (rt_events t)))
  <-> exists id r, rt_events t !! id = Some r /\ uw_created_at r = tm /\ option_column field r = Some v.
Proof.
  rewrite list_elem_of_omap. split.
  - intros (r & ([id r'] & -> & Hr%elem_of_map_to_list)%list_elem_of_fmap & Hv). cbn in *.
    destruct (option_column field r') eqn:E; [|done]. injection Hv as <- <-. by exists id, r'.
  - intros (id & r & Hr & <- & Hv). exists r. rewrite Hv. split; [|done]. apply list_elem_of_fmap. exists (id, r).
    by rewrite elem_of_map_to_list.
Qed.

(** C40. Filter options are sound and complete.  The options offered for a field
    are distinct, in order and at most as many as asked for; sending one back
    as the parameter of that name, with the same range, is a valid usage query
    that selects at least one event; and every value an event of the range has
    in that field, unless it is blank or does not contain the search text, is
    offered, or else comes after all that are shown and the answer says that
    there are more. *)
Theorem filter_options_select_events t field params q :
  key_ids_positive t -> parse_options_query params = Ok q ->
  let data := usage_filter_options t field (oq_from q) (oq_to q) (oq_search q) (oq_limit q) in
  let shown := firstn (Z.to_nat (oq_limit q)) data in
  StronglySorted klt shown
  /\ (forall v, v ∈ shown -> exists q' r, parse_usage_query (picked params field v) = Ok q'
        /\ r ∈ filtered t (uq_filter q') /\ option_column field r = Some v)
  /\ (forall id r v, rt_events t !! id = Some r -> option_column field r = Some v ->
        option_matches (oq_from q) (oq_to q) (oq_search q) (uw_created_at r, v) = true ->
        v ∈ shown \/ oq_limit q < Z.of_nat (length data) /\ Forall (fun w => klt w v) shown).
Proof.
  intros Hids Hparse. cbv zeta. pose proof (options_limit _ _ Hparse) as Hl.
  unfold usage_filter_options. set (values := omap _ _). pose proof (option_values t field) as Hvalues. fold values in Hvalues.
  destruct (distinct_options_spec (oq_from q) (oq_to q) (oq_search q) (oq_limit q) values Hl) as (Hs & Hsound & Hcomplete).
  split; [exact Hs|]. split.
  - intros v (tm & (id & r & Hr & <- & Hv)%Hvalues & Hm)%Hsound. unfold option_matches in Hm.
    rewrite !andb_true_iff in Hm. destruct Hm as [[[Hf Ht] _] _]. cbn [fst] in *.
    assert (field = OptVirtualKey -> exists k, v = dec k /\ 1 <= k <= I64_MAX) as Hkey.
    { intros ->. cbn in Hv. destruct (ue_virtual_key_id (uw_event r)) as [k|] eqn:Ek; [|done]. injection Hv as <-.
      exists k. split; [done|]. by eapply Hids. }
    destruct (parse_picked params field q v Hparse Hkey) as (q' & Hq' & Hfilter). exists q', r. split; [done|].
    split; [|done]. unfold filtered. rewrite Hfilter. apply list_elem_of_filter. split; [by apply picked_filter_matches|].
    apply list_elem_of_fmap. exists (id, r). by rewrite elem_of_map_to_list.
  - intros id r v Hr Hv Hm. apply Hcomplete. exists (uw_created_at r). split; [|done]. apply Hvalues. by exists id, r.
Qed.
End Options.

(** ** Examples *)

Definition example_report_json (query : Query) : ReportJson :=
  {| report_query _ := Ok query; report_path rq := Ok (rq_path rq); usage_row_json r := VString (ue_request_id (uw_event r));
     attempt_json a := of_i64 (ua_attempt_no a); stats_json s := of_i64 (st_logical_requests s);
     series_json s := of_i64 s.1; breakdown_json b := of_i64 (st_logical_requests (ub_stats b));
     event_json e := VString (ev_event_id e); sum_error := "out of range" |}.

Definition example_report_times : Rfc3339 :=
  {| to_rfc3339 t := dec t; serialize_time t := dec t; parse_from_rfc3339 s := parse_int I64_MIN I64_MAX s |}.

Definition example_report_request : Request := mkRequest GET "/admin/usage/export" [("x-api-key", "admin")] (BodyRead "").

(** The three events are exported as CSV. *)
Lemma usage_export_is_complete_witness :
  let export := @usage_export (fun s => s) example_report_times example_time
                  (example_report_json [("format", "csv")]) string_Ordered (mkAdminAuth (Some "admin"))
                  (Some example_reports) None example_report_request in
  rp_status export = 200
  /\ exists csv events, rp_body export = BodyBytes csv /\ length events = 3%nat
       /\ csv_read AtStart "" [] csv = Some (csv_columns :: map (@csv_values example_report_times) events).
Proof.
  intros export.
  destruct (@usage_export_is_complete (fun s => s) example_report_times example_time
    (example_report_json [("format", "csv")]) string_Ordered (mkAdminAuth (Some "admin")) example_reports example_report_request
    [("format", "csv")] (mkUsageQuery every_event "hour" "logical_model" 100 None "csv") example_reports_keyed eq_refl
    ltac:(vm_compute; reflexivity) ltac:(vm_compute; reflexivity)) as [[Hlt _]|(_ & events & Hp & _ & Hs & csv & Hb & Hr)].
  - exfalso. vm_compute in Hlt. discriminate Hlt.
  - split; [exact Hs|]. exists csv, events. split; [exact Hb|]. split; [|exact Hr]. apply Permutation_length in Hp.
    rewrite Hp. vm_compute. reflexivity.
Defined.

Definition example_pg_text : PgText := {| pg_lower := to_ascii_lowercase |}.

(** The models of the example, and what the first selects. *)
Lemma filter_options_select_events_witness :
  let options := @usage_filter_options example_pg_text example_reports OptLogicalModel None None "P" 50 in
  options = ["gpt"; "opus"]
  /\ exists q' r, @parse_usage_query example_report_times example_time (picked [("q", " P ")] OptLogicalModel "gpt") = Ok q'
       /\ r ∈ filtered example_reports (uq_filter q').
Proof.
  intros options. assert (options = ["gpt"; "opus"]) as Ho by (vm_compute; reflexivity). split; [exact Ho|].
  destruct (@filter_options_select_events example_report_times example_time example_pg_text example_reports OptLogicalModel
    [("q", " P ")] (mkOptionsQuery None None "P" 50)) as (_ & Hsound & _).
  - intros id r k Hr Hk. exfalso. apply elem_of_map_to_list in Hr.
    assert (Forall (fun kr => ue_virtual_key_id (uw_event kr.2) = None) (map_to_list (rt_events example_reports))) as Hall
      by (vm_compute; repeat constructor).
    rewrite Forall_forall in Hall. specialize (Hall _ Hr). cbn in Hall. congruence.
  - vm_compute. reflexivity.
  - destruct (Hsound "gpt") as (q' & r & Hq & Hr & _).
    + cbn [oq_from oq_to oq_search oq_limit]. fold options. rewrite Ho. vm_compute. left.
    + exists q', r. split; [exact Hq|exact Hr].
Defined.
