(* ===== verification/Transport.v ===== *)
(** * Upstream transport: [src/src/proxy/transport.rs] and [src/src/proxy/forward.rs] *)

From Stdlib Require Import ZArith Lia Ascii.
From stdpp Require Import base list strings.
From S2P Require Import Prelude.
From S2P Require Import RustStr.
From S2P Require Import SourceUrl.
From S2P Require Import Protocol.
From S2P Require Import Config.
From S2P Require Import Health.
From S2P Require Import Json.
From S2P Require Import Usage.
From S2P Require Import Stream.
From S2P Require Import Native.
From S2P Require Import Http.
From S2P Require Import Secrets.
From S2P Require Import World.

Inductive TransportError : Type :=
| MissingEndpoint | SourceUrlBlocked | RequestFailed | TimedOut (termination : StreamTermination).

Definition transport_message (self : TransportError) : string :=
  match self with
  | MissingEndpoint => "provider endpoint is not configured"
  | SourceUrlBlocked => "upstream source URL is blocked by server policy"
  | RequestFailed => "upstream request failed"
  | TimedOut termination => term_message termination
  end.

Definition transport_status_code (self : TransportError) : Z :=
  match self with
  | TimedOut termination => term_status_code termination
  | MissingEndpoint | SourceUrlBlocked | RequestFailed => 599
  end.

Definition map_reqwest_error (error : ReqwestError) : TransportError :=
  match error with
  | PolicyViolation => SourceUrlBlocked
  | RequestTimedOut => TimedOut ConnectionTimeout
  | OtherError => RequestFailed
  end.

(** ** Rewriting the model of a request *)

Record PreparedModelRequest : Type := mkPreparedModelRequest {
  pm_body : string;
  pm_upstream_model_id : string;
}.

Definition prepare_model_request `{SerdeJson} (body requested_model upstream_model_id : string)
    : PreparedModelRequest :=
  let unchanged := mkPreparedModelRequest body requested_model in
  if upstream_model_id =?s requested_model then unchanged else
  match from_slice body with
  | None => unchanged
  | Some payload =>
      match as_object payload with
      | None => unchanged
      | Some object =>
          match to_string (VObject (hm_insert object "model" (VString upstream_model_id))) with
          | None => unchanged
          | Some serialized_body => mkPreparedModelRequest serialized_body upstream_model_id
          end
      end
  end.

(** ** Deadlines *)
Section Deadlines.
Context `{InstantRange}.

Definition send_total_deadline (request_started : Z) (config : StreamConfig) : option Z :=
  deadline_after request_started (sc_total_timeout config).

Definition earliest_send_timeout (now request_started : Z) (config : StreamConfig)
    : option (Z * StreamTermination) :=
  let total := deadline_after request_started (sc_total_timeout config) in
  let connection := deadline_after now (sc_connection_timeout config) in
  match total, connection with
  | None, None => None
  | Some deadline, None => Some (sat_sub deadline now, TotalTimeout)
  | None, Some deadline => Some (sat_sub deadline now, ConnectionTimeout)
  | Some total_deadline, Some connection_deadline =>
      if total_deadline <=? connection_deadline
      then Some (sat_sub total_deadline now, TotalTimeout)
      else Some (sat_sub connection_deadline now, ConnectionTimeout)
  end.
End Deadlines.

(** ** Headers *)

Definition forwarded_request_header (name : string) : bool :=
  negb (one_of name ["host"; "content-length"; "authorization"; "x-api-key"; "accept-encoding"]).

(** The headers of the upstream request; [RequestBuilder::header] appends. *)
Definition upstream_headers (request_headers : HeaderMap) (credential : option string)
    (protocol : Protocol) : HeaderMap :=
  List.filter (fun kv => forwarded_request_header kv.1) request_headers
  ++ match credential with
     | Some credential =>
         if bool_decide (protocol = AnthropicMessages) then [("x-api-key", credential)]
         else [("authorization", "Bearer " +:+ credential)]
     | None => []
     end.

Definition forwarded_response_header (name : string) : bool :=
  negb (one_of name ["connection"; "keep-alive"; "transfer-encoding"; "content-length"]).

Definition response_headers (upstream : HeaderMap) : HeaderMap :=
  fold_left (fun h kv => if forwarded_response_header kv.1 then header_insert h kv.1 kv.2 else h)
    upstream [].

(** [StatusCode::from_u16]. *)
Definition status_from_u16 (status : Z) : Z :=
  if (100 <=? status) && (status <=? 999) then status else 502.

(** ** Forwarding *)

(** A computation that stops at its first error. *)
Definition bind_ok {A B} (m : M (result A TransportError)) (k : A -> M (result B TransportError))
    : M (result B TransportError) :=
  let! r := m in match r with Ok x => k x | Err e => ret (Err e) end.

Section Forward.
Context `{Env} `{SerdeJson} `{Tokenizer} `{InstantRange} `{BuildCfg}.

(** [request.send()] under the optional timeout. *)
Definition send_with_timeout (request : UpstreamRequest)
    (send_timeout : option (Z * StreamTermination)) : M (result UpstreamResponse TransportError) :=
  match send_timeout with
  | None => let! _ := log_sent request in let! r := ask (fun n => env_send n request) in
            ret (map_err map_reqwest_error r)
  | Some (duration, termination) =>
      if duration =? 0 then ret (Err (TimedOut termination)) else
      let! _ := log_sent request in let! elapsed := ask env_elapsed in
      if elapsed then ret (Err (TimedOut termination))
      else let! r := ask (fun n => env_send n request) in ret (map_err map_reqwest_error r)
  end.

(** [upstream.bytes()] under the total deadline. *)
Definition read_body (upstream : UpstreamResponse) (request_started : Z) (config : StreamConfig)
    : M (result string TransportError) :=
  match send_total_deadline request_started config with
  | Some _ =>
      let! elapsed := ask env_elapsed in
      if elapsed then ret (Err (TimedOut TotalTimeout))
      else let! r := ask (fun n => env_bytes n upstream) in ret (map_err map_reqwest_error r)
  | None => let! r := ask (fun n => env_bytes n upstream) in ret (map_err map_reqwest_error r)
  end.

(** [client.post(url)] accepts the URL. *)
Definition url_allowed (url : string) : bool := is_ok (parse_request_url env_policy url).

Definition request_is_streaming (body : string) : bool :=
  unwrap_or (from_slice body ≫= fun v => get v "stream" ≫= as_bool) false.

Definition forward_url_with_config (url : string) (account : AccountConfig)
    (credential : option string) (protocol : Protocol) (request_headers : HeaderMap)
    (body : string) (stream_config : StreamConfig) (request_started : Z)
    : M (result Response TransportError) :=
  let is_streaming := request_is_streaming body in
  if negb (url_allowed url) then ret (Err SourceUrlBlocked) else
  let headers := upstream_headers request_headers (opt_or credential (ac_credential account))
                   protocol in
  let! now := instant_now in
  bind_ok (send_with_timeout (mkUpstreamRequest url headers body)
             (earliest_send_timeout now request_started stream_config)) (fun upstream =>
  let status := status_from_u16 (up_status upstream) in
  let resp_headers := response_headers (up_headers upstream) in
  if negb is_streaming then
    bind_ok (read_body upstream request_started stream_config) (fun bytes =>
    let '(report, identity) := observe_json_response (is_success status) body bytes in
    ret (Ok (mkResponse status resp_headers (BodyBytes bytes) (Some report) (Some identity))))
  else
    ret (Ok (mkResponse status resp_headers
                (BodyStream (mkStreamHandle (up_stream upstream) protocol stream_config
                               request_started)) None None))).

Definition forward_with_config (provider : ProviderConfig) (account : AccountConfig)
    (credential : option string) (protocol : Protocol) (request_headers : HeaderMap)
    (body : string) (stream_config : StreamConfig) (request_started : Z)
    : M (result Response TransportError) :=
  match hm_get (pv_endpoints provider) protocol with
  | None => ret (Err MissingEndpoint)
  | Some endpoint =>
      forward_url_with_config (trim_end_matches "/"%char (pv_base_url provider) +:+ endpoint) account
        credential protocol request_headers body stream_config request_started
  end.

Definition dispatch_adapter (upstream_endpoint : option string) (account : AccountConfig)
    (credential : option string) (protocol_upstream : Protocol) (headers : HeaderMap)
    (body : string) (stream_config : StreamConfig) (request_started : Z)
    : M (result Response TransportError) :=
  match upstream_endpoint with
  | Some endpoint =>
      if cfg_test then
        forward_url_with_config endpoint account credential protocol_upstream headers body
          stream_config request_started
      else ret (Err RequestFailed)
  | None => ret (Err RequestFailed)
  end.

Definition resolve_credential (account : AccountConfig) : M (option string) :=
  match resolve_account_credential_result env_var env_secrets account with
  | Ok credential => ret credential
  | Err _ => let! _ := log_credential_failure (ac_id account) in ret None
  end.

Definition forward_fallback (provider : ProviderConfig) (account : AccountConfig)
    (protocol : Protocol) (mode : string) (upstream_endpoint : option string)
    (headers : HeaderMap) (body : string) (stream_config : StreamConfig) (request_started : Z)
    : M (result Response TransportError) :=
  let! credential := resolve_credential account in
  if mode =?s "adapter" then
    dispatch_adapter upstream_endpoint account credential protocol headers body stream_config
      request_started
  else match upstream_endpoint with
  | Some endpoint =>
      forward_url_with_config endpoint account credential protocol headers body stream_config
        request_started
  | None =>
      forward_with_config provider account credential protocol headers body stream_config
        request_started
  end.
End Forward.

(** ** Properties *)

(** Rewriting the model: the body sent upstream is the client's body
    byte for byte and the recorded model the requested one, or the body sent
    is a JSON object that differs from the client's only in its top-level
    [model], which is the recorded upstream model.  The hypothesis is that
    [serde_json] reads back the object it serialised. *)
Theorem prepare_model_request_spec `{SerdeJson} (body requested upstream : string)
    (Hrt : forall object s, from_slice body = Some (VObject object) ->
       to_string (VObject (hm_insert object "model" (VString upstream))) = Some s ->
       from_slice s = Some (VObject (hm_insert object "model" (VString upstream)))) :
  let r := prepare_model_request body requested upstream in
  (pm_body r = body /\ pm_upstream_model_id r = requested)
  \/ (pm_upstream_model_id r = upstream
      /\ exists object sent, from_slice body = Some (VObject object)
         /\ from_slice (pm_body r) = Some (VObject sent)
         /\ hm_get sent "model" = Some (VString upstream)
         /\ forall key, key <> "model" -> hm_get sent key = hm_get object key).
Proof.
  unfold prepare_model_request. destruct (upstream =?s requested); [by left|].
  destruct (from_slice body) as [payload|] eqn:Hp; [|by left].
  destruct payload as [| | | | |object]; try by left. cbn [as_object].
  destruct (to_string _) as [s|] eqn:Hs; [|by left]. right. cbn. split; [done|].
  exists object, (hm_insert object "model" (VString upstream)).
  split_and!; [done|by apply Hrt| |].
  - by rewrite hm_get_insert, bool_decide_true.
  - intros key Hk. by rewrite hm_get_insert, bool_decide_false.
Qed.

Lemma prepare_model_request_spec_witness :
  let js := json_concrete in
  let body := Concrete.print (VObject [("model", VString "m"); ("n", VNumber (PosInt 1))]) in
  exists object sent, from_slice body = Some (VObject object)
    /\ from_slice (pm_body (prepare_model_request body "m" "up")) = Some (VObject sent)
    /\ hm_get sent "model" = Some (VString "up").
Proof.
  intros js body.
  destruct (prepare_model_request_spec body "m" "up") as [[Hb _]|(_ & o & sent & H1 & H2 & H3 & _)].
  - intros object s Ho. vm_compute in Ho. injection Ho as <-. intros Hs. vm_compute in Hs.
    injection Hs as <-. vm_compute. reflexivity.
  - exfalso. vm_compute in Hb. discriminate.
  - by exists o, sent.
Defined.

Lemma forwarded_not_auth name :
  forwarded_request_header name = true -> name <> "authorization" /\ name <> "x-api-key".
Proof. intros Hf. split; intros ->; vm_compute in Hf; discriminate. Qed.

(** The credentials of a request: only the account's own, in the header of
    the protocol. *)
Definition only_own_credential (credential : option string) (protocol : Protocol) (h : HeaderMap)
    : Prop :=
  forall name value, (name, value) ∈ h -> name = "authorization" \/ name = "x-api-key" ->
  exists c, credential = Some c
    /\ (name, value) = if bool_decide (protocol = AnthropicMessages) then ("x-api-key", c)
                       else ("authorization", "Bearer " +:+ c).

Lemma upstream_headers_credential rh credential protocol :
  only_own_credential credential protocol (upstream_headers rh credential protocol).
Proof.
  intros name value Hin Hname. unfold upstream_headers in Hin. apply elem_of_app in Hin as [Hin|Hin].
  - apply list_elem_of_In, List.filter_In in Hin as [_ Hf]. cbn in Hf.
    apply forwarded_not_auth in Hf. destruct Hf, Hname; done.
  - destruct credential as [c|]; [|by apply not_elem_of_nil in Hin]. exists c. split; [done|].
    destruct (bool_decide _); by apply list_elem_of_singleton in Hin.
Qed.

Section SentCredentials.
Context `{Env} `{SerdeJson} `{Tokenizer} `{InstantRange} `{BuildCfg}.

(** [m] only appends requests that satisfy [P] to the log. *)
Definition sends {A} (P : UpstreamRequest -> Prop) (m : M A) : Prop :=
  forall w, exists l, w_sent (m w).2 = w_sent w ++ l /\ Forall P l.

Lemma sends_ret {A} P (x : A) : sends P (ret x).
Proof. intros w. exists []. by rewrite app_nil_r. Qed.

Lemma sends_ask {A} P (f : nat -> A) : sends P (ask f).
Proof. intros w. exists []. by rewrite app_nil_r. Qed.

Lemma sends_log P r : P r -> sends P (log_sent r).
Proof. intros Hr w. exists [r]. by split; [|constructor]. Qed.

(** The value [m] returns satisfies [Q]. *)
Definition returns {A} (Q : A -> Prop) (m : M A) : Prop := forall w, Q (m w).1.

Lemma sends_bind_returns {A B} P Q (m : M A) (k : A -> M B) :
  sends P m -> returns Q m -> (forall x, Q x -> sends P (k x)) -> sends P (bind m k).
Proof.
  intros Hm Hq Hk w. unfold bind. destruct (Hm w) as (l1 & E1 & F1). specialize (Hq w).
  destruct (m w) as [x w1]. destruct (Hk x Hq w1) as (l2 & E2 & F2). exists (l1 ++ l2).
  cbn [snd] in *. rewrite E2, E1, app_assoc. split; [done|]. by apply Forall_app.
Qed.

Lemma sends_bind {A B} P (m : M A) (k : A -> M B) :
  sends P m -> (forall x, sends P (k x)) -> sends P (bind m k).
Proof. intros Hm Hk. apply (sends_bind_returns P (fun _ => True)); [done|done|auto]. Qed.

Lemma sends_bind_ok {A B} P m (k : A -> M (result B TransportError)) :
  sends P m -> (forall x, sends P (k x)) -> sends P (bind_ok m k).
Proof.
  intros Hm Hk. apply sends_bind; [done|]. intros [x|e]; [apply Hk|apply sends_ret].
Qed.

Lemma sends_send P request timeout : P request -> sends P (send_with_timeout request timeout).
Proof.
  intros Hr. unfold send_with_timeout. destruct timeout as [[d term]|].
  - destruct (_ =? _); [apply sends_ret|]. apply sends_bind; [by apply sends_log|]. intros _.
    apply sends_bind; [apply sends_ask|]. intros []; [apply sends_ret|].
    apply sends_bind; [apply sends_ask|]. intros r. apply sends_ret.
  - apply sends_bind; [by apply sends_log|]. intros _.
    apply sends_bind; [apply sends_ask|]. intros r. apply sends_ret.
Qed.

Lemma sends_read P up started config : sends P (read_body up started config).
Proof.
  unfold read_body. destruct (send_total_deadline _ _).
  - apply sends_bind; [apply sends_ask|]. intros []; [apply sends_ret|].
    apply sends_bind; [apply sends_ask|]. intros r. apply sends_ret.
  - apply sends_bind; [apply sends_ask|]. intros r. apply sends_ret.
Qed.

Lemma sends_forward_url P url account credential protocol rh body config started :
  (url_allowed url = true -> P (mkUpstreamRequest url
       (upstream_headers rh (opt_or credential (ac_credential account)) protocol) body)) ->
  sends P (forward_url_with_config url account credential protocol rh body config started).
Proof.
  intros HP. unfold forward_url_with_config. destruct (url_allowed url) eqn:Hallowed; cbn [negb]; [|apply sends_ret].
  apply sends_bind; [apply sends_ask|]. intros now.
  apply sends_bind_ok; [by apply sends_send, HP|]. intros up.
  destruct (negb _); [|apply sends_ret].
  apply sends_bind_ok; [apply sends_read|]. intros bytes.
  destruct (observe_json_response _ _ _). apply sends_ret.
Qed.

Definition own_credential (account : AccountConfig) (resolved : option string) : Prop :=
  resolve_account_credential_result env_var env_secrets account = Ok resolved.

Definition own_credential_request (account : AccountConfig) (protocol : Protocol)
    (r : UpstreamRequest) : Prop :=
  exists resolved, (own_credential account resolved \/ resolved = None)
    /\ only_own_credential (opt_or resolved (ac_credential account)) protocol (uq_headers r)
    /\ is_ok (parse_request_url env_policy (uq_url r)) = true.

(** C28. Client credentials never reach an upstream: whatever the client
    sends, in every request an attempt sends the [authorization] and
    [x-api-key] headers are the credential the account's references resolve to
    (or its inline credential, or none), in the one header its protocol
    expects; and the request's URL passed the source URL policy. *)
Theorem upstream_requests_use_own_credential provider account protocol mode endpoint rh body
    config started (w : World) :
  exists l, w_sent (forward_fallback provider account protocol mode endpoint rh body config
                      started w).2 = w_sent w ++ l
    /\ Forall (own_credential_request account protocol) l.
Proof.
  assert (forall resolved url, own_credential account resolved \/ resolved = None ->
    sends (own_credential_request account protocol)
      (forward_url_with_config url account resolved protocol rh body config started)) as Hurl.
  { intros resolved url Hr. apply sends_forward_url. intros Hurl. exists resolved. split; [done|].
    split; [apply upstream_headers_credential|exact Hurl]. }
  revert w. unfold forward_fallback.
  apply (sends_bind_returns _ (fun resolved => own_credential account resolved
                                               \/ resolved = None)).
  - unfold resolve_credential. destruct (resolve_account_credential_result _ _ _); [apply sends_ret|].
    intros w. exists []. by rewrite app_nil_r.
  - intros w. unfold resolve_credential, own_credential.
    destruct (resolve_account_credential_result _ _ _); cbn; auto.
  - intros resolved Hr. destruct (mode =?s "adapter").
    + unfold dispatch_adapter. destruct endpoint; [|apply sends_ret].
      destruct cfg_test; [by apply Hurl|apply sends_ret].
    + destruct endpoint; [by apply Hurl|]. unfold forward_with_config.
      destruct (hm_get _ _); [by apply Hurl|apply sends_ret].
Qed.
End SentCredentials.

(** The send timeout respects both limits: it is set exactly when one of
    them is, never exceeds the connection timeout nor what is left of the
    request's total time, is zero once the total deadline has passed, and
    names the limit that expires first (the total one on a tie). *)
Theorem earliest_send_timeout_spec `{InstantRange} (now started : Z) (config : StreamConfig)
    (Htime : started <= now)
    (Hconn : 0 <= sc_connection_timeout config)
    (Htotal : 0 <= sc_total_timeout config)
    (Hmax : now + sc_connection_timeout config + sc_total_timeout config <= INSTANT_MAX) :
  match earliest_send_timeout now started config with
  | None => sc_connection_timeout config = 0 /\ sc_total_timeout config = 0
  | Some (d, termination) =>
      0 <= d
      /\ (sc_connection_timeout config <> 0 -> d <= sc_connection_timeout config)
      /\ (sc_total_timeout config <> 0 ->
          now + d <= Z.max now (started + sc_total_timeout config)
          /\ (started + sc_total_timeout config <= now -> d = 0 /\ termination = TotalTimeout))
      /\ ((termination = TotalTimeout /\ sc_total_timeout config <> 0
           /\ d = Z.max 0 (started + sc_total_timeout config - now))
          \/ (termination = ConnectionTimeout /\ d = sc_connection_timeout config
              /\ sc_connection_timeout config <> 0))
  end.
Proof.
  unfold earliest_send_timeout, deadline_after, checked_add, sat_sub.
  destruct (Z.eqb_spec (sc_total_timeout config) 0) as [Ht|Ht];
    destruct (Z.eqb_spec (sc_connection_timeout config) 0) as [Hc|Hc];
    rewrite ?(proj2 (Z.leb_le (now + sc_connection_timeout config) INSTANT_MAX)) by lia;
    rewrite ?(proj2 (Z.leb_le (started + sc_total_timeout config) INSTANT_MAX)) by lia.
  1: done.
  3: destruct (Z.leb_spec (started + sc_total_timeout config)
                 (now + sc_connection_timeout config)).
  all: repeat match goal with |- _ /\ _ => split | |- _ -> _ => intros ? end;
    first [lia | done | exfalso; lia | left; split_and!; first [lia | done]
          | right; split_and!; first [lia | done]].
Qed.

Lemma earliest_send_timeout_spec_witness :
  @earliest_send_timeout (10 ^ 30) 5 0 StreamConfig_default = Some (from_secs 120, ConnectionTimeout)
  /\ 0 <= from_secs 120.
Proof.
  split; [vm_compute; reflexivity|].
  assert (Hs := @earliest_send_timeout_spec (10 ^ 30) 5 0 StreamConfig_default).
  change (@earliest_send_timeout (10 ^ 30) 5 0 StreamConfig_default)
    with (Some (from_secs 120, ConnectionTimeout)) in Hs.
  apply Hs; vm_compute; discriminate.
Defined.

(** Forwarded response headers: hop-by-hop headers and the length are
    dropped, every other header name of the upstream response is kept, with
    the last of its values. *)
Theorem response_headers_spec (upstream : HeaderMap) (name : string) :
  header_get (response_headers upstream) name =
  if forwarded_response_header name then header_get (rev upstream) name else None.
Proof.
  unfold response_headers, header_get. induction upstream as [|[n v] upstream IH] using rev_ind.
  { cbn. by destruct (forwarded_response_header name). }
  rewrite fold_left_app, rev_app_distr. cbn [fold_left rev app fst snd].
  rewrite hm_get_cons. destruct (decide (n = name)) as [->|Hn].
  - rewrite bool_decide_true by done. destruct (forwarded_response_header name) eqn:Hf; [|by rewrite IH].
    by rewrite header_insert_get, bool_decide_true.
  - rewrite bool_decide_false by done. destruct (forwarded_response_header n); [|done].
    by rewrite header_insert_get, bool_decide_false.
Qed.
