(* ===== verification/Fallback.v ===== *)
(** * Fallback candidates: [src/src/proxy/fallback.rs]

    Which accounts can serve a request besides the primary one, and the
    weighted choice among them. *)

From Stdlib Require Import ZArith Lia.
From stdpp Require Import base list strings.
From S2P Require Import Prelude.
From S2P Require Import RustStr.
From S2P Require Import Protocol.
From S2P Require Import Config.
From S2P Require Import Routing.
From S2P Require Import Health.
From S2P Require Import Json.
From S2P Require Import Usage.
From S2P Require Import Stream.
From S2P Require Import Http.
From S2P Require Import World.

Record FallbackCandidate : Type := mkFallbackCandidate {
  fc_account : AccountConfig;
  fc_provider : ProviderConfig;
  fc_provider_id : string;
  fc_source_id : string;
  fc_upstream_model : string;
  fc_protocol_upstream : Protocol;
  fc_mode : string;
  fc_upstream_endpoint : option string;
  fc_degraded_features : list string;
}.

(** A [for] loop that pushes at most one element per turn. *)
Fixpoint collect {A B} (f : A -> M (option B)) (l : list A) : M (list B) :=
  match l with
  | [] => ret []
  | x :: l =>
      let! o := f x in
      let! rest := collect f l in
      ret (option_list o ++ rest)
  end.

Section Candidates.
Context `{Env} `{Chrono} `{PgTime}.

(** The body of the loop over [route.fallback_bindings]. *)
Definition binding_candidate (config : GatewayConfig) (route : ResolvedRoute)
    (binding : ResolvedBinding) : M (option FallbackCandidate) :=
  if (sb_account_id binding =?s rs_primary_account_id route)
     && (negb (rs_strategy route =?s "ordered_fallback")
         || (sb_upstream_model_id binding =?s rs_upstream_model_id route)) then ret None else
  match account config (sb_account_id binding) with
  | None => ret None
  | Some acc =>
      if negb (ac_enabled acc) then ret None else
      let! available := health_is_available (ac_id acc) in
      if negb available then ret None else
      match provider config (sb_source_id binding) with
      | None => ret None
      | Some prov =>
          ret (Some (mkFallbackCandidate acc prov (sb_provider_id binding) (sb_source_id binding)
            (sb_upstream_model_id binding) (sb_protocol_upstream binding) (sb_mode binding)
            (Some (sb_upstream_endpoint binding)) (sb_degraded_features binding)))
      end
  end.

(** The body of the loop over [route.fallback_accounts]. *)
Definition account_candidate (config : GatewayConfig) (route : ResolvedRoute) (model : string)
    (protocol : Protocol) (id : string) : M (option FallbackCandidate) :=
  if id =?s rs_primary_account_id route then ret None else
  match account config id with
  | None => ret None
  | Some acc =>
      if negb (ac_enabled acc) then ret None else
      let! available := health_is_available (ac_id acc) in
      if negb available then ret None else
      match provider config (ac_provider_id acc) with
      | None => ret None
      | Some prov =>
          if negb (ac_provider_id acc =?s rs_source_id route)
             && negb (ProtocolMode_eqb (pc_mode (protocol_capability config (pv_id prov)
                                                   (Some (ac_id acc)) model protocol)) PNative)
          then ret None
          else
            ret (Some (mkFallbackCandidate acc prov (pv_id prov) (pv_id prov)
              (unwrap_or (hm_get (ac_model_map acc) model) model) (rs_protocol_upstream route)
              (rs_mode route) None (rs_degraded_features route)))
      end
  end.

Definition is_native (c : FallbackCandidate) : bool := fc_mode c =?s "native".

Definition available_fallback_candidates (config : GatewayConfig) (route : ResolvedRoute)
    (model : string) (protocol : Protocol) : M (list FallbackCandidate) :=
  match rs_fallback_bindings route with
  | _ :: _ =>
      let! available := collect (binding_candidate config route) (rs_fallback_bindings route) in
      ret (if negb (rs_strategy route =?s "ordered_fallback") && existsb is_native available
           then List.filter is_native available else available)
  | [] => collect (account_candidate config route model protocol) (rs_fallback_accounts route)
  end.
End Candidates.

(** ** The weighted choice *)

Definition add_u32 (a b : Z) : Z := wrap_u 32 (a + b).

Definition effective_weight (c : FallbackCandidate) : Z := Z.max (ac_weight (fc_account c)) 1.

Definition weight_total (weights : list Z) : Z := fold_left add_u32 weights 0.

(** The scan for the first cursor above the tick; index 0 when there is
    none. *)
Fixpoint select_index (weights : list Z) (tick cursor : Z) (i : nat) : nat :=
  match weights with
  | [] => 0
  | w :: weights =>
      let cursor := add_u32 cursor w in
      if tick <? cursor then i else select_index weights tick cursor (S i)
  end.

Definition weighted_index (weights : list Z) (nanos : Z) : nat :=
  select_index weights (nanos mod Z.max (weight_total weights) 1) 0 0.

Section Select.
Context `{Env} `{Chrono} `{PgTime}.

Definition select_fallback_candidate (config : GatewayConfig) (route : ResolvedRoute)
    (model : string) (protocol : Protocol) : M (option FallbackCandidate) :=
  let! available := available_fallback_candidates config route model protocol in
  match available with
  | [] => ret None
  | _ :: _ =>
      let! nanos := ask env_subsec_nanos in
      ret (available !! weighted_index (map effective_weight available) nanos)
  end.
End Select.

(** [FallbackCandidate::primary]. *)
Definition FallbackCandidate_primary (route : ResolvedRoute) (account : AccountConfig)
    (provider : ProviderConfig) (model : string) : FallbackCandidate :=
  mkFallbackCandidate account provider (rs_provider_id route) (rs_source_id route)
    (match rs_binding_id route with
     | None => unwrap_or (hm_get (ac_model_map account) model) (rs_upstream_model_id route)
     | Some _ => rs_upstream_model_id route
     end)
    (rs_protocol_upstream route) (rs_mode route) (Some (rs_upstream_endpoint route))
    (rs_degraded_features route).

(** ** The weighted choice is proportional *)

Fixpoint sum (l : list Z) : Z := match l with [] => 0 | w :: l => w + sum l end.

Lemma sum_app l l' : sum (l ++ l') = sum l + sum l'.
Proof. induction l; cbn; lia. Qed.

Lemma sum_nonneg l : Forall (fun w => 1 <= w) l -> 0 <= sum l.
Proof. induction 1; cbn; lia. Qed.

Lemma fold_add_u32 l : forall a,
  0 <= a -> Forall (fun w => 1 <= w) l -> a + sum l < 2 ^ 32 -> fold_left add_u32 l a = a + sum l.
Proof.
  induction l as [|w l IH]; intros a Ha Hl Hs; cbn in *; [lia|].
  apply Forall_cons in Hl as [Hw Hl]. pose proof (sum_nonneg l Hl).
  unfold add_u32 at 2. rewrite wrap_u_small by lia. rewrite IH; [lia|lia|done|lia].
Qed.

Lemma select_index_spec l : forall tick cursor i,
  0 <= cursor <= tick -> Forall (fun w => 1 <= w) l -> cursor + sum l < 2 ^ 32 ->
  tick < cursor + sum l ->
  exists j, select_index l tick cursor i = (i + j)%nat /\ (j < length l)%nat
    /\ cursor + sum (take j l) <= tick < cursor + sum (take (S j) l).
Proof.
  induction l as [|w l IH]; intros tick cursor i Hc Hl Hs Ht; cbn in *; [lia|].
  apply Forall_cons in Hl as [Hw Hl]. pose proof (sum_nonneg l Hl).
  unfold add_u32. rewrite wrap_u_small by lia. destruct (Z.ltb_spec tick (cursor + w)).
  - exists 0%nat. rewrite take_0. cbn [sum take length]. rewrite take_0. cbn [sum]. split_and!; lia.
  - destruct (IH tick (cursor + w) (S i)) as (j & -> & Hj & Hb); [lia|done|lia|lia|].
    exists (S j). cbn in *. split_and!; lia.
Qed.

Lemma sum_take_mono l : Forall (fun w => 1 <= w) l ->
  forall j k, (j <= k)%nat -> sum (take j l) <= sum (take k l).
Proof.
  induction 1 as [|w l Hw Hl IH]; intros j k Hjk; [by destruct j, k|].
  destruct j as [|j], k as [|k]; cbn; try lia.
  - assert (0 <= sum (take k l)) by (apply sum_nonneg; by apply Forall_take). lia.
  - specialize (IH j k ltac:(lia)). lia.
Qed.

(** The weighted choice is proportional: among candidates whose weights
    do not overflow [u32], candidate [i] is chosen exactly for the clock ticks
    of its own interval, whose length is its weight (a zero weight counts as
    one), so over a full cycle every candidate is chosen weight-many times;
    some candidate is always chosen. *)
Theorem weighted_choice_proportional (weights : list Z) (nanos : Z) (i : nat)
    (Hw : Forall (fun w => 1 <= w) weights)
    (Hfit : sum weights < 2 ^ 32)
    (Hne : weights <> []) :
  let tick := nanos mod sum weights in
  (weighted_index weights nanos < length weights)%nat
  /\ (weighted_index weights nanos = i <->
      sum (take i weights) <= tick < sum (take (S i) weights)).
Proof.
  intros tick. pose proof (sum_nonneg weights Hw) as Hpos.
  assert (0 < sum weights) as Hgt.
  { destruct Hw as [|w l Hw Hl]; [done|]. cbn. pose proof (sum_nonneg l Hl). lia. }
  assert (weighted_index weights nanos = select_index weights tick 0 0) as ->.
  { unfold weighted_index, weight_total. rewrite fold_add_u32 by (first [done | lia]).
    rewrite Z.max_l by lia. done. }
  pose proof (Z.mod_pos_bound nanos (sum weights) Hgt) as Hb. fold tick in Hb.
  destruct (select_index_spec weights tick 0 0) as (j & -> & Hj & Hjb); [lia|done|lia|lia|].
  cbn [Nat.add]. rewrite Z.add_0_l in Hjb. split; [done|]. split; [by intros <-|].
  intros Hi. destruct (lt_eq_lt_dec i j) as [[Hlt|Heq]|Hlt]; [|done|].
  - pose proof (sum_take_mono weights Hw (S i) j ltac:(lia)). lia.
  - pose proof (sum_take_mono weights Hw (S j) i ltac:(lia)). lia.
Qed.

Lemma weighted_choice_proportional_witness :
  weighted_index [100; 300] 123456 = 1%nat
  /\ (weighted_index [100; 300]%Z 123456%Z < 2)%nat.
Proof.
  split; [vm_compute; reflexivity|].
  refine (proj1 (weighted_choice_proportional [100; 300] 123456 0 _ _ _)).
  - repeat constructor; lia.
  - vm_compute. reflexivity.
  - discriminate.
Defined.

(** Weights that overflow: three accounts with valid (positive [i32])
    weights whose [u32] sum wraps to zero are not chosen by weight at all -
    the first one is chosen at every clock reading. *)
Theorem weight_overflow_starves (nanos : Z) :
  weighted_index [2 ^ 31 - 1; 2 ^ 31 - 1; 2] nanos = 0%nat.
Proof.
  unfold weighted_index.
  change (Z.max (weight_total [2 ^ 31 - 1; 2 ^ 31 - 1; 2]) 1) with 1. by rewrite Z.mod_1_r.
Qed.
