(* ===== verification/Policy.v ===== *)
(** * Attempts and retry policy: [src/src/proxy/policy.rs] and [src/src/proxy/attempt.rs] *)

From Stdlib Require Import ZArith Lia Ascii.
From stdpp Require Import base list strings.
From S2P Require Import Prelude.
From S2P Require Import RustStr.
From S2P Require Import Protocol.
From S2P Require Import Config.
From S2P Require Import Routing.
From S2P Require Import Health.
From S2P Require Import Json.
From S2P Require Import Usage.
From S2P Require Import Stream.
From S2P Require Import Native.
From S2P Require Import Observe.
From S2P Require Import Accounting.
From S2P Require Import Http.
From S2P Require Import VirtualKeys.
From S2P Require Import World.
From S2P Require Import Transport.
From S2P Require Import Fallback.

Definition MAX_SAME_ACCOUNT_RETRY_AFTER : Z := from_secs 2.

Definition primary_unavailable_reason (health : AccountHealth) : string :=
  if ah_status health =?s "disabled" then "account_disabled"
  else if ah_status health =?s "cooling_down" then "account_cooling_down"
  else if ah_status health =?s "unhealthy" then "account_unhealthy"
  else "account_unavailable".

Definition is_retryable (status : Z) : bool :=
  (status =? 408) || (status =? 429) || is_server_error status.

Definition transport_error_status (error : TransportError) : Z :=
  match error with TimedOut _ => 504 | _ => 502 end.

(** The status an attempt is recorded with. *)
Definition http_code (status : Z) : string := "upstream_http_" +:+ dec status.

Record AttemptContext : Type := mkAttemptContext {
  cx_headers : HeaderMap;
  cx_body : string;
  cx_model : string;
  cx_protocol : Protocol;
  cx_request_id : string;
  cx_stream_config : StreamConfig;
  cx_started : Z;
}.

Record AttemptResult : Type := mkAttemptResult {
  at_result : result Response TransportError;
  at_usage : UsageAttempt;
  at_request_body : string;
}.

Section Policy.
Context `{Env} `{SerdeJson} `{Tokenizer} `{InstantRange} `{BuildCfg} `{Chrono} `{PgTime}.

Definition retry_after_delay (headers : HeaderMap) : M (option Z) :=
  match header_get headers "retry-after" ≫= to_str with
  | None => ret None
  | Some value =>
      let value := trim value in
      let keep delay := if delay <=? MAX_SAME_ACCOUNT_RETRY_AFTER then Some delay else None in
      match parse_uint U64_MAX value with
      | Some seconds => ret (keep (from_secs seconds))
      | None =>
          match env_parse_rfc2822 value with
          | None => ret None
          | Some retry_at =>
              let! now := utc_now in
              ret (to_std (retry_at - now) ≫= keep)
          end
      end
  end.

Definition record_response_health (account_id : string) (status : Z) : M unit :=
  if is_retryable status then
    let! started := health_mark_failure account_id (http_code status)
                      "retryable upstream response" in
    ret tt
  else if is_success status then health_mark_success account_id
  else ret tt.

(** [AttemptContext::execute]. *)
Definition execute (cx : AttemptContext) (candidate : FallbackCandidate) (attempt_no : nat)
    : M AttemptResult :=
  let prepared := prepare_model_request (cx_body cx) (cx_model cx) (fc_upstream_model candidate) in
  let! started := instant_now in
  let! result := forward_fallback (fc_provider candidate) (fc_account candidate)
    (fc_protocol_upstream candidate) (fc_mode candidate) (fc_upstream_endpoint candidate)
    (cx_headers cx) (pm_body prepared) (cx_stream_config cx) (cx_started cx) in
  let! finished := instant_now in
  let latency_ms := elapsed_ms started finished in
  let account_id := ac_id (fc_account candidate) in
  let usage status_code success :=
    mkUsageAttempt (wrap_i 32 (Z.of_nat attempt_no)) (fc_provider_id candidate)
      (fc_source_id candidate) account_id (Some (pm_upstream_model_id prepared)) status_code
      success latency_ms in
  match result with
  | Ok response =>
      let status := rp_status response in
      let! _u := record_response_health account_id status in
      ret (mkAttemptResult result (usage status (is_success status)) (pm_body prepared))
  | Err error =>
      let! _u := health_mark_failure account_id "upstream_transport_error"
                   "upstream request failed" in
      ret (mkAttemptResult result (usage (transport_status_code error) false) (pm_body prepared))
  end.
End Policy.
