(* ===== verification/Proxy.v ===== *)
(** * Candidate policies and settlement: [src/src/proxy/weighted.rs],
      [src/src/proxy/ordered.rs] and [src/src/proxy/completion.rs]

    Both policies end in [RequestCompletion::finish], except for the two early
    errors of the weighted one; what they hand to it is the record
    [Outcome]. *)

From Stdlib Require Import ZArith Lia Ascii.
From stdpp Require Import base list strings gmap.
From S2P Require Import Prelude.
From S2P Require Import RustStr.
From S2P Require Import Protocol.
From S2P Require Import Config.
From S2P Require Import Routing.
From S2P Require Import Health.
From S2P Require Import Json.
From S2P Require Import Usage.
From S2P Require Import Stream.
From S2P Require Import Native.
From S2P Require Import Observe.
From S2P Require Import Accounting.
From S2P Require Import Http.
From S2P Require Import VirtualKeys.
From S2P Require Import World.
From S2P Require Import Transport.
From S2P Require Import Fallback.
From S2P Require Import Policy.

Record FinalUpstream : Type := mkFinalUpstream {
  fu_provider_id : string;
  fu_source_id : string;
  fu_account_id : string;
  fu_upstream_model_id : string;
  fu_protocol : Protocol;
  fu_mode : string;
  fu_degraded : bool;
}.

Definition FinalUpstream_route (route : ResolvedRoute) : FinalUpstream :=
  mkFinalUpstream (rs_provider_id route) (rs_source_id route) (rs_primary_account_id route)
    (rs_upstream_model_id route) (rs_protocol_upstream route) (rs_mode route) (is_degraded route).

Definition FinalUpstream_candidate (c : FallbackCandidate) : FinalUpstream :=
  mkFinalUpstream (fc_provider_id c) (fc_source_id c) (ac_id (fc_account c)) (fc_upstream_model c)
    (fc_protocol_upstream c) (fc_mode c) (negb (bool_decide (fc_degraded_features c = []))).

Record RequestCompletion : Type := mkRequestCompletion {
  rc_db : bool;                        (** [state.db.is_some()] *)
  rc_route : ResolvedRoute;
  rc_request_id : string;
  rc_virtual_key_id : option Z;
  rc_client_source : string;
  rc_model : string;
  rc_protocol : Protocol;
  rc_is_streamed : bool;
  rc_started : Z;
}.

Record Outcome : Type := mkOutcome {
  oc_response : Response;
  oc_upstream : FinalUpstream;
  oc_attempts : list UsageAttempt;
  oc_request_body : string;
  oc_fallback_reason : option string;
  oc_error_summary : option string;
}.

Definition is_event_stream (response : Response) : bool :=
  is_some_and (header_get (rp_headers response) "content-type" ≫= to_str)
    (fun value => contains_str (to_ascii_lowercase value) "text/event-stream").

Section Completion.
Context `{Env} `{SerdeJson}.

Definition completion_event (c : RequestCompletion) (o : Outcome) (now : Z) : UsageEvent :=
  let response := oc_response o in
  let upstream := oc_upstream o in
  let identity := unwrap_or (rp_identity response) ResponseIdentity_default in
  mkUsageEvent (rc_request_id c) (rc_virtual_key_id c) (fu_provider_id upstream)
    (fu_account_id upstream) (rc_model c) (rc_model c) (Some (fu_upstream_model_id upstream))
    (fu_source_id upstream) (rc_client_source c) (Protocol_to_string (rc_protocol c))
    (Protocol_to_string (fu_protocol upstream)) (fu_mode upstream) (rp_status response)
    (is_success (rp_status response))
    (wrap_i 32 (Z.of_nat (length (oc_attempts o) - 1)))
    (elapsed_ms (rc_started c) now) None (unwrap_or (rp_usage response) UsageReport_missing)
    (fu_degraded upstream) (Some (rs_route_id (rc_route c))) (rc_is_streamed c)
    (opt_or (oc_error_summary o)
       (if negb (is_success (rp_status response))
        then Some ("HTTP " +:+ dec (rp_status response)) else None))
    (oc_fallback_reason o) (ri_model identity) (requested_reasoning_effort (oc_request_body o))
    (ri_reasoning_effort identity).

(** [RequestCompletion::finish]. *)
Definition finish (c : RequestCompletion) (o : Outcome) : M Response :=
  if rc_db c then
    let! now := instant_now in
    let event := completion_event c o now in
    if is_event_stream (oc_response o) then
      let! _u := log_stream (mkPendingStream event (oc_attempts o) (oc_request_body o)
                               (rc_started c)) in
      ret (oc_response o)
    else
      let! fault := ask env_usage_fault in
      let! w := get_world in
      let! _u := put_usage (insert_usage_with_attempts (w_usage w) fault event
                              (oc_attempts o)).2 in
      ret (oc_response o)
  else ret (oc_response o).
End Completion.

Section Weighted.
Context `{Env} `{SerdeJson} `{Tokenizer} `{InstantRange} `{BuildCfg} `{Chrono} `{PgTime}.

(** The error responses of the data plane for one request. *)
Definition cx_error (cx : AttemptContext) (status : Z) (code message : string) : Response :=
  data_plane_error_response (cx_protocol cx) status code message (cx_request_id cx).

Definition transport_response (cx : AttemptContext) (error : TransportError) : Response :=
  cx_error cx (transport_error_status error) "upstream_request_failed" (transport_message error).

Definition unavailable_response (cx : AttemptContext) (account : AccountConfig) : Response :=
  cx_error cx 503 (if ac_enabled account then "account_cooling_down" else "account_disabled")
    "primary account is unavailable and no fallback succeeded".

(** The primary account cannot serve: one fallback, or nothing. *)
Definition weighted_unavailable (config : GatewayConfig) (cx : AttemptContext)
    (route : ResolvedRoute) (account : AccountConfig) (reason : string) : M Outcome :=
  let! selected := select_fallback_candidate config route (cx_model cx) (cx_protocol cx) in
  match selected with
  | None =>
      ret (mkOutcome (unavailable_response cx account) (FinalUpstream_route route) []
             (cx_body cx) (Some reason) None)
  | Some candidate =>
      let! attempted := execute cx candidate 0 in
      let response :=
        match at_result attempted with
        | Ok response => response
        | Err (TimedOut t) => transport_response cx (TimedOut t)
        | Err _ => unavailable_response cx account
        end in
      ret (mkOutcome response (FinalUpstream_candidate candidate) [at_usage attempted]
             (at_request_body attempted) (Some reason) None)
  end.

(** What is left to do after the first attempt on the primary account:
    response, attempts, final candidate and fallback reason. *)
Definition weighted_after_primary (config : GatewayConfig) (cx : AttemptContext)
    (route : ResolvedRoute) (primary : FallbackCandidate) (attempted : AttemptResult)
    : M (Response * list UsageAttempt * FallbackCandidate * option string) :=
  let attempts := [at_usage attempted] in
  match at_result attempted with
  | Ok response =>
      if is_retryable (rp_status response) then
        let reason := Some (http_code (rp_status response)) in
        let! retry_after :=
          (if rp_status response =? 429 then retry_after_delay (rp_headers response)
           else ret None) in
        let! available := select_fallback_candidate config route (cx_model cx) (cx_protocol cx) in
        match opt_filter (fun _ => negb (is_some available)) retry_after with
        | Some delay =>
            let! _u := sleep delay in
            let! retried := execute cx primary (length attempts) in
            let response := match at_result retried with
                            | Ok response => response
                            | Err error => transport_response cx error
                            end in
            ret (response, attempts ++ [at_usage retried], primary, reason)
        | None =>
            let! selected :=
              select_fallback_candidate config route (cx_model cx) (cx_protocol cx) in
            match selected with
            | Some fallback =>
                let! second := execute cx fallback (length attempts) in
                ret (match at_result second with Ok r => r | Err _ => response end,
                     attempts ++ [at_usage second], fallback, reason)
            | None => ret (response, attempts, primary, reason)
            end
        end
      else ret (response, attempts, primary, None)
  | Err error =>
      let reason := Some "upstream_transport_error" in
      let! selected := select_fallback_candidate config route (cx_model cx) (cx_protocol cx) in
      match selected with
      | Some fallback =>
          let! second := execute cx fallback (length attempts) in
          let response := match at_result second with
                          | Ok response => response
                          | Err error => transport_response cx error
                          end in
          ret (response, attempts ++ [at_usage second], fallback, reason)
      | None => ret (transport_response cx error, attempts, primary, reason)
      end
  end.

Definition weighted_primary (config : GatewayConfig) (cx : AttemptContext)
    (route : ResolvedRoute) (account : AccountConfig) (provider : ProviderConfig) : M Outcome :=
  let primary := FallbackCandidate_primary route account provider (cx_model cx) in
  let! attempted := execute cx primary 0 in
  let! r := weighted_after_primary config cx route primary attempted in
  let '(response, attempts, final_candidate, fallback_reason) := r in
  ret (mkOutcome response (FinalUpstream_candidate final_candidate) attempts (cx_body cx)
         (if (1 <? Z.of_nat (length attempts)) then fallback_reason else None) None).

(** [Err] is the response of the two early errors, which skip the
    settlement. *)
Definition weighted_outcome (config : GatewayConfig) (cx : AttemptContext)
    (route : ResolvedRoute) : M (result Outcome Response) :=
  match provider config (rs_source_id route) with
  | None =>
      ret (Err (cx_error cx 502 "provider_not_found" "route references an unknown provider"))
  | Some prov =>
      match account config (rs_primary_account_id route) with
      | None =>
          ret (Err (cx_error cx 502 "account_not_found" "route references an unknown account"))
      | Some acc =>
          let! health := health_get (ac_id acc) in
          let unavailable_reason :=
            if negb (ac_enabled acc) then Some "account_disabled"
            else if negb (ah_available health) then Some (primary_unavailable_reason health)
            else None in
          match unavailable_reason with
          | Some reason => let! o := weighted_unavailable config cx route acc reason in ret (Ok o)
          | None => let! o := weighted_primary config cx route acc prov in ret (Ok o)
          end
      end
  end.

Definition proxy_weighted (config : GatewayConfig) (cx : AttemptContext)
    (completion : RequestCompletion) : M Response :=
  let! r := weighted_outcome config cx (rc_route completion) in
  match r with Ok o => finish completion o | Err response => ret response end.
End Weighted.

Section Ordered.
Context `{Env} `{SerdeJson} `{Tokenizer} `{InstantRange} `{BuildCfg} `{Chrono} `{PgTime}.

(** The loop state of [proxy_ordered]. *)
Record OrderedState : Type := mkOrderedState {
  os_attempts : list UsageAttempt;
  os_last_response : option Response;
  os_final_candidate : option FallbackCandidate;
  os_request_body : string;
  os_total_timeout : bool;
  os_fallback_reason : option string;
}.

(** [value as usize + 1] of an [i32]; no limit is [usize::MAX]. *)
Definition attempt_limit (max_retries : option Z) : Z :=
  match max_retries with
  | Some value => wrap_u 64 (wrap_u 64 value + 1)
  | None => U64_MAX
  end.

(** The response of one attempt, whether the next line is tried, and the
    updated total-timeout flag and fallback reason. *)
Definition ordered_result (cx : AttemptContext) (s : OrderedState)
    (r : result Response TransportError) : Response * bool * bool * option string :=
  match r with
  | Ok response =>
      let retryable := is_retryable (rp_status response) in
      (response, retryable, os_total_timeout s,
       if retryable then opt_or (os_fallback_reason s) (Some (http_code (rp_status response)))
       else os_fallback_reason s)
  | Err error =>
      let total_timeout := match error with TimedOut TotalTimeout => true | _ => false end in
      (cx_error cx (transport_error_status error)
         (if total_timeout then "gateway_total_timeout" else "upstream_request_failed")
         (transport_message error),
       negb total_timeout, total_timeout,
       opt_or (os_fallback_reason s) (Some "upstream_transport_error"))
  end.

Fixpoint ordered_loop (cx : AttemptContext) (limit : Z) (candidates : list FallbackCandidate)
    (s : OrderedState) : M OrderedState :=
  match candidates with
  | [] => ret s
  | candidate :: rest =>
      if limit <=? Z.of_nat (length (os_attempts s)) then ret s else
      let! available := health_is_available (ac_id (fc_account candidate)) in
      if negb available then ordered_loop cx limit rest s else
      let! now := instant_now in
      let total := sc_total_timeout (cx_stream_config cx) in
      if negb (total =? 0) && (total <=? sat_sub now (cx_started cx)) then
        ret (mkOrderedState (os_attempts s)
               (Some (cx_error cx 504 "gateway_total_timeout" (term_message TotalTimeout)))
               (os_final_candidate s) (os_request_body s) true (os_fallback_reason s))
      else
        let! attempted := execute cx candidate (length (os_attempts s)) in
        let '(response, retryable, total_timeout, reason) :=
          ordered_result cx s (at_result attempted) in
        let s := mkOrderedState (os_attempts s ++ [at_usage attempted]) (Some response)
                   (Some candidate) (at_request_body attempted) total_timeout reason in
        if retryable then ordered_loop cx limit rest s else ret s
  end.

Definition starts_account (reason : option string) : bool :=
  is_some_and reason (fun reason => starts_with reason "account_").

(** The primary line, when it can serve, and the reason when it cannot. *)
Definition ordered_primary (config : GatewayConfig) (cx : AttemptContext) (route : ResolvedRoute)
    : M (list FallbackCandidate * option string) :=
  match account config (rs_primary_account_id route), provider config (rs_source_id route) with
  | Some acc, Some prov =>
      let! health := health_get (ac_id acc) in
      if ac_enabled acc && ah_available health then
        ret ([FallbackCandidate_primary route acc prov (cx_model cx)], None)
      else
        ret ([], Some (if ac_enabled acc then primary_unavailable_reason health
                       else "account_disabled"))
  | _, _ => ret ([], None)
  end.

Definition ordered_outcome (config : GatewayConfig) (cx : AttemptContext)
    (route : ResolvedRoute) : M Outcome :=
  let! p := ordered_primary config cx route in
  let '(primary, reason) := p in
  let! fallbacks := available_fallback_candidates config route (cx_model cx) (cx_protocol cx) in
  let! s := ordered_loop cx (attempt_limit (rs_max_retries route)) (primary ++ fallbacks)
              (mkOrderedState [] None None (cx_body cx) false reason) in
  let response := unwrap_or (os_last_response s)
    (cx_error cx 503 "route_unavailable" "no upstream line is currently available") in
  let upstream := match os_final_candidate s with
                  | Some c => FinalUpstream_candidate c
                  | None => FinalUpstream_route route
                  end in
  ret (mkOutcome response upstream (os_attempts s) (os_request_body s)
         (if (1 <? Z.of_nat (length (os_attempts s))) || starts_account (os_fallback_reason s)
          then os_fallback_reason s else None)
         (if os_total_timeout s then Some "gateway_total_timeout" else None)).

Definition proxy_ordered (config : GatewayConfig) (cx : AttemptContext)
    (completion : RequestCompletion) : M Response :=
  let! o := ordered_outcome config cx (rc_route completion) in finish completion o.
End Ordered.
