(* ===== verification/ProxyProps.v ===== *)
(** * Properties of the candidate policies

    Every theorem holds for all answers of the environment: upstream
    responses, clocks, timers and database faults. *)

From Stdlib Require Import ZArith Lia Ascii.
From stdpp Require Import base list strings gmap.
From S2P Require Import Prelude.
From S2P Require Import RustStr.
From S2P Require Import Protocol.
From S2P Require Import Config.
From S2P Require Import Routing.
From S2P Require Import Health.
From S2P Require Import Json.
From S2P Require Import Usage.
From S2P Require Import Stream.
From S2P Require Import Native.
From S2P Require Import Observe.
From S2P Require Import Accounting.
From S2P Require Import Http.
From S2P Require Import VirtualKeys.
From S2P Require Import Secrets.
From S2P Require Import World.
From S2P Require Import Transport.
From S2P Require Import Fallback.
From S2P Require Import Policy.
From S2P Require Import Proxy.

Section Specs.
Context `{Env} `{SerdeJson} `{Tokenizer} `{InstantRange} `{BuildCfg} `{Chrono} `{PgTime}.

(** Specifications: whatever world [m] starts in, its result satisfies [Q]
    and it sends at most [n] requests.  [m] is a total function of the world,
    so this is total correctness. *)
Record spec {A} (n : nat) (Q : A -> Prop) (m : M A) : Prop := {
  sp_result : forall w, Q (m w).1;
  sp_sent : forall w, (length (w_sent (m w).2) <= length (w_sent w) + n)%nat;
}.

Lemma spec_weaken {A} n n' (Q Q' : A -> Prop) m :
  spec n Q m -> (n <= n')%nat -> (forall x, Q x -> Q' x) -> spec n' Q' m.
Proof. intros [Hq Hs] Hn HQ. split; [auto|]. intros w. specialize (Hs w). lia. Qed.

Lemma spec_ret {A} (Q : A -> Prop) x : Q x -> spec 0 Q (ret x).
Proof. intros Hx. split; [done|]. intros w. cbn. lia. Qed.

Lemma spec_bind {A B} n1 n2 (Q1 : A -> Prop) (Q2 : B -> Prop) m k :
  spec n1 Q1 m -> (forall x, Q1 x -> spec n2 Q2 (k x)) -> spec (n1 + n2) Q2 (bind m k).
Proof.
  intros [Hq1 Hs1] Hk. split; intros w; unfold bind; specialize (Hq1 w); specialize (Hs1 w);
    destruct (m w) as [x w1]; cbn [fst snd] in *; destruct (Hk x Hq1) as [Hq2 Hs2];
    specialize (Hq2 w1); specialize (Hs2 w1); [done|lia].
Qed.

(** The first computation sends nothing. *)
Lemma spec_bind0 {A B} n (Q1 : A -> Prop) (Q2 : B -> Prop) m k :
  spec 0 Q1 m -> (forall x, Q1 x -> spec n Q2 (k x)) -> spec n Q2 (bind m k).
Proof. intros Hm Hk. apply (spec_bind 0 n Q1 Q2 m k Hm Hk). Qed.

Definition any {A} (_ : A) : Prop := True.

Lemma spec_ask {A} (f : nat -> A) : spec 0 any (ask f).
Proof. split; [done|]. intros w. cbn. lia. Qed.
Lemma spec_get : spec 0 any get_world.
Proof. split; [done|]. intros w. cbn. lia. Qed.
Lemma spec_put_health h : spec 0 any (put_health h).
Proof. split; [done|]. intros w. cbn. lia. Qed.
Lemma spec_sleep d : spec 0 any (sleep d).
Proof. split; [done|]. intros w. cbn. lia. Qed.
Lemma spec_credential_failure a : spec 0 any (log_credential_failure a).
Proof. split; [done|]. intros w. cbn. lia. Qed.
Lemma spec_log_sent r : spec 1 any (log_sent r).
Proof. split; [done|]. intros w. cbn. rewrite length_app. cbn. lia. Qed.

Lemma spec_available id : spec 0 any (health_is_available id).
Proof.
  unfold health_is_available. eapply spec_bind0; [apply spec_ask|]. intros f _.
  eapply spec_bind0; [apply spec_ask|]. intros now _. eapply spec_bind0; [apply spec_get|].
  intros w _. by apply spec_ret.
Qed.

Lemma spec_get_health id : spec 0 any (health_get id).
Proof.
  unfold health_get. eapply spec_bind0; [apply spec_ask|]. intros f _.
  eapply spec_bind0; [apply spec_ask|]. intros now _. eapply spec_bind0; [apply spec_get|].
  intros w _. by apply spec_ret.
Qed.

Lemma spec_mark_failure id code msg : spec 0 any (health_mark_failure id code msg).
Proof.
  unfold health_mark_failure. eapply spec_bind0; [apply spec_ask|]. intros f _.
  eapply spec_bind0; [apply spec_ask|]. intros now _. eapply spec_bind0; [apply spec_get|].
  intros w _. destruct (mark_failure_with_details _ _ _ _ _ _ _) as [started h].
  eapply spec_bind0; [apply spec_put_health|]. intros _ _. by apply spec_ret.
Qed.

Lemma spec_mark_success id : spec 0 any (health_mark_success id).
Proof.
  unfold health_mark_success. eapply spec_bind0; [apply spec_ask|]. intros f _.
  eapply spec_bind0; [apply spec_ask|]. intros now _. eapply spec_bind0; [apply spec_get|].
  intros w _. apply spec_put_health.
Qed.

(** The errors of a forwarded request: only the two timeouts of the send
    phase, besides the fixed ones. *)
Definition send_error (e : TransportError) : Prop :=
  match e with TimedOut t => t = TotalTimeout \/ t = ConnectionTimeout | _ => True end.
Definition send_result {A} (r : result A TransportError) : Prop :=
  match r with Ok _ => True | Err e => send_error e end.

Lemma send_map_err {A} (r : result A ReqwestError) : send_result (map_err map_reqwest_error r).
Proof. destruct r as [|[]]; cbn; auto. Qed.

Lemma spec_bind_ok {A B} n1 n2 (m : M (result A TransportError)) (k : A -> M (result B TransportError)) :
  spec n1 send_result m -> (forall x, spec n2 send_result (k x)) ->
  spec (n1 + n2) send_result (bind_ok m k).
Proof.
  intros Hm Hk. eapply spec_bind; [exact Hm|]. intros [x|e] He; [apply Hk|].
  eapply spec_weaken; [by apply (spec_ret send_result)|lia|done].
Qed.

Lemma earliest_timeout_kind now started config d t :
  earliest_send_timeout now started config = Some (d, t) -> t = TotalTimeout \/ t = ConnectionTimeout.
Proof. unfold earliest_send_timeout. intros Ht. repeat case_match; simplify_eq; auto. Qed.

Lemma spec_send request timeout :
  match timeout with Some (_, t) => t = TotalTimeout \/ t = ConnectionTimeout | None => True end ->
  spec 1 send_result (send_with_timeout request timeout).
Proof.
  intros Ht. unfold send_with_timeout. destruct timeout as [[d t]|].
  - destruct (_ =? _); [eapply spec_weaken; [by apply (spec_ret send_result)|lia|done]|].
    apply (spec_bind 1 0 any); [apply spec_log_sent|]. intros _ _.
    eapply spec_bind0; [apply spec_ask|]. intros [] _; [by apply spec_ret|].
    eapply spec_bind0; [apply spec_ask|]. intros r _. apply spec_ret, send_map_err.
  - apply (spec_bind 1 0 any); [apply spec_log_sent|]. intros _ _.
    eapply spec_bind0; [apply spec_ask|]. intros r _. apply spec_ret, send_map_err.
Qed.

Lemma spec_read up started config : spec 0 send_result (read_body up started config).
Proof.
  unfold read_body. destruct (send_total_deadline _ _).
  - eapply spec_bind0; [apply spec_ask|]. intros [] _; [apply spec_ret; cbn; auto|].
    eapply spec_bind0; [apply spec_ask|]. intros r _. apply spec_ret, send_map_err.
  - eapply spec_bind0; [apply spec_ask|]. intros r _. apply spec_ret, send_map_err.
Qed.

Lemma spec_one_ret {A} (r : result A TransportError) : send_result r -> spec 1 send_result (ret r).
Proof. intros Hr. eapply spec_weaken; [by apply (spec_ret send_result)|lia|done]. Qed.

Lemma spec_forward_url url account credential protocol rh body config started :
  spec 1 send_result
    (forward_url_with_config url account credential protocol rh body config started).
Proof.
  unfold forward_url_with_config. destruct (negb (url_allowed url)); [by apply spec_one_ret|].
  eapply spec_bind0; [apply spec_ask|]. intros now _.
  apply (spec_bind_ok 1 0).
  - apply spec_send. destruct (earliest_send_timeout _ _ _) as [[d t]|] eqn:E; [|done].
    by eapply earliest_timeout_kind.
  - intros up. destruct (negb _); [|by apply spec_ret].
    apply (spec_bind_ok 0 0); [apply spec_read|]. intros bytes.
    destruct (observe_json_response _ _ _). by apply spec_ret.
Qed.

Lemma spec_forward provider account protocol mode endpoint rh body config started :
  spec 1 send_result
    (forward_fallback provider account protocol mode endpoint rh body config started).
Proof.
  unfold forward_fallback. apply (spec_bind0 1 any).
  - unfold resolve_credential. destruct (resolve_account_credential_result _ _ _); [by apply spec_ret|].
    eapply spec_bind0; [apply spec_credential_failure|]. intros _ _. by apply spec_ret.
  - intros credential _. destruct (mode =?s "adapter").
    + unfold dispatch_adapter. destruct endpoint; [|by apply spec_one_ret].
      destruct cfg_test; [apply spec_forward_url|by apply spec_one_ret].
    + destruct endpoint; [apply spec_forward_url|]. unfold forward_with_config.
      destruct (hm_get _ _); [apply spec_forward_url|by apply spec_one_ret].
Qed.

(** ** One attempt *)

(** The usage row of an attempt agrees with its result. *)
Definition attempt_ok (candidate : FallbackCandidate) (n : nat) (r : AttemptResult) : Prop :=
  ua_attempt_no (at_usage r) = wrap_i 32 (Z.of_nat n)
  /\ ua_account_id (at_usage r) = ac_id (fc_account candidate)
  /\ match at_result r with
     | Ok response => ua_status_code (at_usage r) = rp_status response
                      /\ ua_success (at_usage r) = is_success (rp_status response)
     | Err e => send_error e /\ ua_status_code (at_usage r) = transport_status_code e
                /\ ua_success (at_usage r) = false
     end.

Lemma spec_response_health id status : spec 0 any (record_response_health id status).
Proof.
  unfold record_response_health. destruct (is_retryable status).
  - eapply spec_bind0; [apply spec_mark_failure|]. intros _ _. by apply spec_ret.
  - destruct (is_success status); [apply spec_mark_success|by apply spec_ret].
Qed.

Lemma spec_execute cx candidate n : spec 1 (attempt_ok candidate n) (execute cx candidate n).
Proof.
  unfold execute. cbv zeta. eapply spec_bind0; [apply spec_ask|]. intros started _.
  apply (spec_bind 1 0 send_result); [apply spec_forward|]. intros result Hr.
  eapply spec_bind0; [apply spec_ask|]. intros finished _.
  destruct result as [response|e].
  - eapply spec_bind0; [apply spec_response_health|]. intros _ _. by apply spec_ret.
  - eapply spec_bind0; [apply spec_mark_failure|]. intros _ _. by apply spec_ret.
Qed.

(** A transport error counts as a retryable status. *)
Lemma send_error_retryable e : send_error e -> is_retryable (transport_status_code e) = true.
Proof. destruct e; cbn; try done. by intros [->| ->]. Qed.

Lemma send_error_not_success e : send_error e -> is_success (transport_status_code e) = false.
Proof. destruct e; cbn; try done. by intros [->| ->]. Qed.

(** ** Candidate selection sends nothing *)

Lemma spec_collect {A B} (f : A -> M (option B)) l :
  (forall x, spec 0 any (f x)) -> spec 0 any (collect f l).
Proof.
  intros Hf. induction l as [|x l IH]; cbn [collect]; [by apply spec_ret|].
  eapply spec_bind0; [apply Hf|]. intros o _. eapply spec_bind0; [exact IH|]. intros rest _.
  by apply spec_ret.
Qed.

Lemma spec_binding_candidate config route b : spec 0 any (binding_candidate config route b).
Proof.
  unfold binding_candidate. destruct (_ && _); [by apply spec_ret|].
  destruct (account config _); [|by apply spec_ret]. destruct (negb _); [by apply spec_ret|].
  eapply spec_bind0; [apply spec_available|]. intros av _. destruct (negb av); [by apply spec_ret|].
  destruct (provider config _); by apply spec_ret.
Qed.

Lemma spec_account_candidate config route model protocol id :
  spec 0 any (account_candidate config route model protocol id).
Proof.
  unfold account_candidate. destruct (_ =?s _); [by apply spec_ret|].
  destruct (account config _); [|by apply spec_ret]. destruct (negb _); [by apply spec_ret|].
  eapply spec_bind0; [apply spec_available|]. intros av _. destruct (negb av); [by apply spec_ret|].
  destruct (provider config _); [|by apply spec_ret]. destruct (_ && _); by apply spec_ret.
Qed.

Lemma spec_candidates config route model protocol :
  spec 0 any (available_fallback_candidates config route model protocol).
Proof.
  unfold available_fallback_candidates. destruct (rs_fallback_bindings route).
  - apply spec_collect, spec_account_candidate.
  - eapply spec_bind0; [apply spec_collect, spec_binding_candidate|]. intros av _. by apply spec_ret.
Qed.

Lemma spec_select config route model protocol :
  spec 0 any (select_fallback_candidate config route model protocol).
Proof.
  unfold select_fallback_candidate. eapply spec_bind0; [apply spec_candidates|].
  intros [|c l] _; [by apply spec_ret|]. eapply spec_bind0; [apply spec_ask|]. intros nanos _.
  by apply spec_ret.
Qed.

Lemma spec_retry_after h : spec 0 any (retry_after_delay h).
Proof.
  unfold retry_after_delay. destruct (_ ≫= to_str); [|by apply spec_ret].
  destruct (parse_uint _ _); [by apply spec_ret|]. destruct (env_parse_rfc2822 _); [|by apply spec_ret].
  eapply spec_bind0; [apply spec_ask|]. intros now _. by apply spec_ret.
Qed.

(** ** Specifications whose budget depends on the result *)

Record specd {A} (n : A -> nat) (Q : A -> Prop) (m : M A) : Prop := {
  sd_result : forall w, Q (m w).1;
  sd_sent : forall w, (length (w_sent (m w).2) <= length (w_sent w) + n (m w).1)%nat;
}.

Lemma specd_ret {A} n (Q : A -> Prop) x : Q x -> specd n Q (ret x).
Proof. intros Hx. split; [done|]. intros w. cbn. lia. Qed.

Lemma specd_bind {A B} n1 (n' n : B -> nat) (Q1 : A -> Prop) (Q : B -> Prop) m k :
  spec n1 Q1 m ->
  (forall x, Q1 x -> specd n' (fun y => Q y /\ (n1 + n' y <= n y)%nat) (k x)) ->
  specd n Q (bind m k).
Proof.
  intros [Hq1 Hs1] Hk. split; intros w; unfold bind; specialize (Hq1 w); specialize (Hs1 w);
    destruct (m w) as [x w1]; cbn [fst snd] in *; destruct (Hk x Hq1) as [Hq2 Hs2];
    specialize (Hq2 w1) as [HQ Hle]; specialize (Hs2 w1); [done|lia].
Qed.

Lemma specd_weaken {A} (n n' : A -> nat) (Q Q' : A -> Prop) m :
  specd n Q m -> (forall x, Q x -> Q' x /\ (n x <= n' x)%nat) -> specd n' Q' m.
Proof.
  intros [Hq Hs] HQ. split; intros w; specialize (Hq w); specialize (Hs w);
    destruct (HQ _ Hq); [done|lia].
Qed.

Lemma specd_bind0 {A B} (n : B -> nat) (Q1 : A -> Prop) (Q : B -> Prop) m k :
  spec 0 Q1 m -> (forall x, Q1 x -> specd n Q (k x)) -> specd n Q (bind m k).
Proof.
  intros Hm Hk. eapply (specd_bind 0 n n); [exact Hm|]. intros x Hx.
  eapply specd_weaken; [by apply Hk|]. intros y Hy. split; [split; [done|lia]|lia].
Qed.

Lemma specd_then {A B} (n1 : A -> nat) (n : B -> nat) (Q1 : A -> Prop) (Q : B -> Prop) m k :
  specd n1 Q1 m ->
  (forall x, Q1 x -> specd (fun y => n y - n1 x)%nat (fun y => Q y /\ (n1 x <= n y)%nat) (k x)) ->
  specd n Q (bind m k).
Proof.
  intros [Hq1 Hs1] Hk. split; intros w; unfold bind; specialize (Hq1 w); specialize (Hs1 w);
    destruct (m w) as [x w1]; cbn [fst snd] in *; destruct (Hk x Hq1) as [Hq2 Hs2];
    specialize (Hq2 w1) as [HQ Hle]; specialize (Hs2 w1); [done|lia].
Qed.

(** ** Attempt histories *)

(** The attempts are numbered from zero, and each one but the last failed in
    a way worth retrying. *)
Definition retried (a : UsageAttempt) : Prop :=
  is_retryable (ua_status_code a) = true /\ ua_success a = false.
Definition numbered (attempts : list UsageAttempt) : Prop :=
  map ua_attempt_no attempts
  = map (fun i => wrap_i 32 (Z.of_nat i)) (seq 0 (length attempts)).
Definition history (attempts : list UsageAttempt) : Prop :=
  numbered attempts /\ Forall retried (removelast attempts).

Lemma numbered_snoc l a :
  numbered l -> ua_attempt_no a = wrap_i 32 (Z.of_nat (length l)) -> numbered (l ++ [a]).
Proof.
  unfold numbered. intros Hl Ha. rewrite length_app, Nat.add_comm. cbn [length Nat.add].
  rewrite seq_S, !map_app, Hl. cbn [map Nat.add]. by rewrite Ha.
Qed.

Lemma history_snoc l a :
  numbered l -> Forall retried l -> ua_attempt_no a = wrap_i 32 (Z.of_nat (length l)) ->
  history (l ++ [a]).
Proof. intros Hn Hr Ha. split; [by apply numbered_snoc|]. by rewrite removelast_last. Qed.

Lemma retried_no_success l : Forall retried l -> existsb ua_success l = false.
Proof. induction 1 as [|a l [_ Ha] _ IH]; cbn [existsb]; [done|]. by rewrite Ha, IH. Qed.

Lemma existsb_snoc {A} (f : A -> bool) l x : existsb f (l ++ [x]) = existsb f l || f x.
Proof. rewrite existsb_app. cbn [existsb]. by rewrite orb_false_r. Qed.

Lemma retryable_not_success status : is_retryable status = true -> is_success status = false.
Proof. unfold is_retryable, is_success, is_server_error. intros; bool_to_prop; lia. Qed.

Lemma cx_error_status cx status code message : rp_status (cx_error cx status code message) = status.
Proof. unfold cx_error, data_plane_error_response. by destruct (header_value_ok _). Qed.

Lemma transport_error_not_success cx e : is_success (rp_status (transport_response cx e)) = false.
Proof. unfold transport_response. rewrite cx_error_status. by destruct e. Qed.

(** What a policy hands to the settlement: the history of its attempts, at
    most [limit] of them, and the client is told of success exactly when an
    attempt succeeded. *)
Record outcome_ok (limit : Z) (o : Outcome) : Prop := {
  ok_limit : Z.of_nat (length (oc_attempts o)) <= limit;
  ok_history : history (oc_attempts o);
  ok_success : is_success (rp_status (oc_response o)) = existsb ua_success (oc_attempts o);
}.
Definition requests (o : Outcome) : nat := length (oc_attempts o).

(** ** The weighted policy *)

Lemma attempt_retried candidate n r :
  attempt_ok candidate n r ->
  match at_result r with Ok response => is_retryable (rp_status response) = true | Err _ => True end ->
  retried (at_usage r).
Proof.
  intros (_ & _ & Hr) Hret. unfold retried. destruct (at_result r) as [response|e].
  - destruct Hr as [-> ->]. split; [done|]. by apply retryable_not_success.
  - destruct Hr as (He & -> & ->). split; [|done]. by apply send_error_retryable.
Qed.

Lemma attempt_success candidate n r response :
  attempt_ok candidate n r ->
  match at_result r with
  | Ok own => response = own
  | Err _ => is_success (rp_status response) = false
  end -> is_success (rp_status response) = ua_success (at_usage r).
Proof.
  intros (_ & _ & Hr) Hresp. destruct (at_result r); [subst; by destruct Hr as [_ ->]|].
  by destruct Hr as (_ & _ & ->).
Qed.

Lemma one_attempt_ok candidate r response u body reason summary :
  attempt_ok candidate 0 r ->
  match at_result r with
  | Ok own => response = own
  | Err _ => is_success (rp_status response) = false
  end -> outcome_ok 2 (mkOutcome response u [at_usage r] body reason summary).
Proof.
  intros Hr Hresp. split; cbn [oc_attempts oc_response length existsb].
  - lia.
  - apply (history_snoc []); [done|constructor|]. by destruct Hr.
  - rewrite orb_false_r. by eapply attempt_success.
Qed.

Lemma two_attempts_ok c1 c2 r1 r2 response u body reason summary :
  attempt_ok c1 0 r1 -> retried (at_usage r1) -> attempt_ok c2 1 r2 ->
  match at_result r2 with
  | Ok own => response = own
  | Err _ => is_success (rp_status response) = false
  end -> outcome_ok 2 (mkOutcome response u [at_usage r1; at_usage r2] body reason summary).
Proof.
  intros Hr1 Hret Hr2 Hresp. split; cbn [oc_attempts oc_response length existsb].
  - lia.
  - apply (history_snoc [at_usage r1]); [|by apply Forall_singleton|by destruct Hr2].
    apply (numbered_snoc []); [done|by destruct Hr1].
  - rewrite orb_false_r, (proj2 Hret). by eapply attempt_success.
Qed.

(** What [weighted_after_primary] returns. *)
Definition after_primary_ok (r : Response * list UsageAttempt * FallbackCandidate * option string)
    : Prop :=
  let '(response, attempts, _, _) := r in
  (1 <= length attempts)%nat /\ forall u body reason summary, outcome_ok 2 (mkOutcome response u attempts body reason summary).
Definition later_requests (r : Response * list UsageAttempt * FallbackCandidate * option string)
    : nat := length (snd (fst (fst r))) - 1.

Ltac last_ret := apply specd_ret; split; [|unfold later_requests; cbn; lia].

Lemma specd_after_primary config cx route primary attempted :
  attempt_ok primary 0 attempted ->
  specd later_requests after_primary_ok (weighted_after_primary config cx route primary attempted).
Proof.
  intros Hp. unfold weighted_after_primary. cbv zeta. pose proof (attempt_retried _ _ _ Hp) as Hret.
  assert (Hone : forall response c reason,
    match at_result attempted with
    | Ok own => response = own
    | Err _ => is_success (rp_status response) = false
    end -> specd later_requests after_primary_ok (ret (response, [at_usage attempted], c, reason))).
  { intros response c reason Hresp. apply specd_ret. split; [cbn; lia|]. intros u body re su.
    exact (one_attempt_ok _ _ _ u body re su Hp Hresp). }
  assert (Htwo : forall c2 (f : AttemptResult -> Response) c reason,
    retried (at_usage attempted) ->
    (forall r2, match at_result r2 with
                | Ok own => f r2 = own
                | Err _ => is_success (rp_status (f r2)) = false
                end) ->
    specd later_requests after_primary_ok
      (bind (execute cx c2 (length [at_usage attempted])) (fun r2 =>
         ret (f r2, [at_usage attempted] ++ [at_usage r2], c, reason)))).
  { intros c2 f c reason Hre Hf. eapply (specd_bind 1 (fun _ => 0%nat)); [apply spec_execute|].
    intros r2 Hr2. last_ret. split; [cbn; lia|]. intros u body re su.
    exact (two_attempts_ok _ _ _ _ _ u body re su Hp Hre Hr2 (Hf r2)). }
  assert (Hterr : forall r2, match at_result r2 with
    | Ok own => match at_result r2 with Ok r => r | Err e => transport_response cx e end = own
    | Err _ => is_success (rp_status match at_result r2 with
                                     | Ok r => r | Err e => transport_response cx e end) = false
    end).
  { intros r2. destruct (at_result r2); [done|]. apply transport_error_not_success. }
  destruct (at_result attempted) as [response|e] eqn:Er.
  - destruct (is_retryable (rp_status response)) eqn:Eret; [|by apply Hone].
    eapply specd_bind0; [destruct (_ =? 429); [apply spec_retry_after|by apply spec_ret]|].
    intros delay _. eapply specd_bind0; [apply spec_select|]. intros available _.
    destruct (opt_filter _ delay).
    + eapply specd_bind0; [apply spec_sleep|]. intros _ _. apply Htwo; [by apply Hret|exact Hterr].
    + eapply specd_bind0; [apply spec_select|]. intros [fallback|] _; [|by apply Hone].
      apply Htwo; [by apply Hret|]. intros r2. destruct (at_result r2); [done|].
      by apply retryable_not_success.
  - eapply specd_bind0; [apply spec_select|]. intros [fallback|] _.
    + apply Htwo; [by apply Hret|exact Hterr].
    + apply Hone. apply transport_error_not_success.
Qed.

Definition weighted_ok (r : result Outcome Response) : Prop :=
  match r with
  | Ok o => outcome_ok 2 o
  | Err response => rp_status response = 502
  end.
Definition weighted_requests (r : result Outcome Response) : nat :=
  match r with Ok o => requests o | Err _ => 0 end.

Lemma specd_weighted_unavailable config cx route account reason :
  specd requests (outcome_ok 2) (weighted_unavailable config cx route account reason).
Proof.
  unfold weighted_unavailable. eapply specd_bind0; [apply spec_select|]. intros [c|] _.
  - eapply (specd_bind 1 (fun _ => 0%nat)); [apply spec_execute|]. intros r Hr. apply specd_ret.
    split; [|cbn; lia]. eapply one_attempt_ok; [exact Hr|]. destruct (at_result r) as [|[]]; try done;
      try (unfold unavailable_response; by rewrite cx_error_status).
    apply transport_error_not_success.
  - apply specd_ret. split; cbn -[is_success unavailable_response]; [lia|done|].
    unfold unavailable_response. by rewrite cx_error_status.
Qed.

Lemma specd_weighted_primary config cx route account provider :
  specd requests (outcome_ok 2) (weighted_primary config cx route account provider).
Proof.
  unfold weighted_primary. cbv zeta.
  eapply (specd_bind 1 (fun o => requests o - 1)%nat); [apply spec_execute|].
  intros attempted Hp. eapply specd_then; [by apply specd_after_primary|].
  intros [[[response attempts] final] reason] Hr. apply specd_ret.
  destruct Hr as [Hlen Hr]. split; [split|]; [apply Hr| |]; cbn in *; lia.
Qed.

Lemma specd_weighted config cx route :
  specd weighted_requests weighted_ok (weighted_outcome config cx route).
Proof.
  assert (Hlift : forall m, specd requests (outcome_ok 2) m ->
    specd weighted_requests weighted_ok (bind m (fun o => ret (Ok o)))).
  { intros m Hm. eapply specd_then; [exact Hm|]. intros o Ho. by apply specd_ret. }
  unfold weighted_outcome. cbv zeta. destruct (provider config _) as [prov|].
  - destruct (account config _) as [acc|]; [|apply specd_ret; apply cx_error_status].
    eapply specd_bind0; [apply spec_get_health|]. intros health _.
    destruct (negb (ac_enabled acc)); [|destruct (negb (ah_available health))]; apply Hlift;
      [apply specd_weighted_unavailable|apply specd_weighted_unavailable|apply specd_weighted_primary].
  - apply specd_ret. apply cx_error_status.
Qed.

(** ** The ordered policy *)

Definition no_success (response : option Response) : Prop :=
  match response with Some r => is_success (rp_status r) = false | None => True end.

(** Before an iteration of the loop. *)
Record loop_inv (limit : Z) (s : OrderedState) : Prop := {
  li_numbered : numbered (os_attempts s);
  li_retried : Forall retried (os_attempts s);
  li_limit : Z.of_nat (length (os_attempts s)) <= limit;
  li_timeout : os_total_timeout s = false;
  li_response : no_success (os_last_response s);
  li_first : os_last_response s = None -> os_attempts s = [];
}.

(** After the loop. *)
Record loop_post (limit : Z) (s : OrderedState) : Prop := {
  lp_limit : Z.of_nat (length (os_attempts s)) <= limit;
  lp_history : history (os_attempts s);
  lp_timeout : os_total_timeout s = true -> option_map rp_status (os_last_response s) = Some 504;
  lp_success : match os_last_response s with
               | Some r => is_success (rp_status r) = existsb ua_success (os_attempts s)
               | None => os_attempts s = []
               end;
}.

Lemma history_retried l : numbered l -> Forall retried l -> history l.
Proof.
  intros Hn Hr. split; [done|]. destruct l as [|a l] using rev_ind; [done|].
  rewrite removelast_last. by apply Forall_app in Hr as [? _].
Qed.

Lemma loop_inv_post limit s : loop_inv limit s -> loop_post limit s.
Proof.
  intros [Hn Hr Hl Ht Hresp Hf]. split; [done|by apply history_retried|by rewrite Ht|].
  destruct (os_last_response s); [|by apply Hf]. by rewrite (retried_no_success _ Hr).
Qed.

(** One more attempt: the loop goes on when it is to be retried, and ends
    with a correct state when it is not. *)
Lemma ordered_step limit cx candidate s attempted body :
  loop_inv limit s -> Z.of_nat (length (os_attempts s)) < limit ->
  attempt_ok candidate (length (os_attempts s)) attempted ->
  let '(response, retryable, total_timeout, reason) :=
    ordered_result cx s (at_result attempted) in
  let s' := mkOrderedState (os_attempts s ++ [at_usage attempted]) (Some response)
              (Some candidate) body total_timeout reason in
  if retryable then loop_inv limit s' else loop_post limit s'.
Proof.
  intros [Hn Hr Hl Ht Hresp Hf] Hlt Hok. pose proof (attempt_retried _ _ _ Hok) as Hret.
  assert (Hlen : Z.of_nat (length (os_attempts s ++ [at_usage attempted])) <= limit)
    by (rewrite length_app; cbn; lia).
  destruct Hok as (Hno & _ & Hres). unfold ordered_result.
  destruct (at_result attempted) as [response|e].
  - destruct (is_retryable (rp_status response)) eqn:E; split; cbn [os_attempts os_last_response
      os_total_timeout no_success]; try done.
    + by apply numbered_snoc.
    + apply Forall_app. split; [done|]. apply Forall_singleton. by apply Hret.
    + by apply retryable_not_success.
    + by apply history_snoc.
    + by rewrite Ht.
    + rewrite existsb_snoc, (retried_no_success _ Hr). destruct Hres as [_ ->]. done.
  - destruct Hres as (He & Hcode & Hsucc).
    assert (Hnot : forall st code m, st = 502 \/ st = 504 ->
      is_success (rp_status (cx_error cx st code m)) = false)
      by (intros st code m Hst; rewrite cx_error_status; by destruct Hst as [-> | ->]).
    destruct (match e with TimedOut TotalTimeout => true | _ => false end) eqn:E; split;
      cbn [os_attempts os_last_response os_total_timeout no_success option_map]; try done.
    + by apply history_snoc.
    + intros _. rewrite cx_error_status. by destruct e as [| | |[]].
    + rewrite existsb_snoc, (retried_no_success _ Hr), Hsucc. apply Hnot. destruct e; cbn; auto.
    + by apply numbered_snoc.
    + apply Forall_app. split; [done|]. apply Forall_singleton. by apply Hret.
    + apply Hnot. destruct e; cbn; auto.
Qed.

Lemma specd_ordered_loop cx limit candidates : forall s,
  loop_inv limit s ->
  specd (fun y => length (os_attempts y) - length (os_attempts s))%nat
    (fun y => loop_post limit y /\ (length (os_attempts s) <= length (os_attempts y))%nat)
    (ordered_loop cx limit candidates s).
Proof.
  induction candidates as [|c rest IH]; intros s Hs; cbn [ordered_loop];
    [apply specd_ret; split; [by apply loop_inv_post|done]|].
  destruct (limit <=? _) eqn:El; [apply specd_ret; split; [by apply loop_inv_post|done]|].
  eapply specd_bind0; [apply spec_available|]. intros av _. destruct (negb av); [by apply IH|].
  eapply specd_bind0; [apply spec_ask|]. intros now _. cbv zeta.
  destruct (negb _ && _).
  - apply specd_ret. destruct Hs as [Hn Hr Hl Ht Hresp Hf]. split; [|done].
    split; cbn [os_attempts os_last_response os_total_timeout option_map]; [done|
      by apply history_retried|by rewrite cx_error_status|].
    by rewrite cx_error_status, (retried_no_success _ Hr).
  - eapply (specd_bind 1 (fun y => length (os_attempts y) - S (length (os_attempts s)))%nat);
      [apply spec_execute|].
    intros attempted Hok. apply Z.leb_gt in El.
    pose proof (ordered_step limit cx c s attempted (at_request_body attempted) Hs El Hok) as Hstep.
    destruct (ordered_result cx s _) as [[[response retryable] total] reason]. cbv zeta in Hstep.
    destruct retryable.
    + eapply specd_weaken; [apply IH; exact Hstep|]. cbn [os_attempts]. intros y [Hy Hle].
      rewrite length_app in *. cbn [length] in *. split; [split; [split; [done|lia]|lia]|lia].
    + apply specd_ret. cbn [os_attempts]. rewrite length_app. cbn [length].
      split; [split; [done|lia]|lia].
Qed.

(** A total timeout is reported as such. *)
Definition ordered_ok (limit : Z) (o : Outcome) : Prop :=
  outcome_ok limit o /\
  (oc_error_summary o = Some "gateway_total_timeout" -> rp_status (oc_response o) = 504).

Lemma attempt_limit_nonneg r : 0 <= attempt_limit r.
Proof. destruct r; cbn; [|unfold U64_MAX; lia]. unfold wrap_u. apply Z.mod_pos_bound. lia. Qed.

Lemma specd_ordered config cx route :
  specd requests (ordered_ok (attempt_limit (rs_max_retries route))) (ordered_outcome config cx route).
Proof.
  unfold ordered_outcome. apply (specd_bind0 _ any).
  { unfold ordered_primary. destruct (account config _); [|by apply spec_ret].
    destruct (provider config _); [|by apply spec_ret]. eapply spec_bind0; [apply spec_get_health|].
    intros health _. destruct (_ && _); by apply spec_ret. }
  intros [primary reason] _. eapply specd_bind0; [apply spec_candidates|]. intros fallbacks _.
  eapply specd_then.
  - apply specd_ordered_loop. split; cbn; try done. pose proof (attempt_limit_nonneg (rs_max_retries route)). lia.
  - intros s [[Hl Hh Ht Hs] _]. apply specd_ret. unfold requests.
    cbn [oc_attempts os_attempts length]. split; [|lia]. split; [split|]; cbn [oc_attempts oc_response oc_error_summary]; [done|done| |].
    + destruct (os_last_response s); [done|]. rewrite Hs. cbn [unwrap_or]. by rewrite cx_error_status.
    + intros Hsum. destruct (os_total_timeout s); [|done]. specialize (Ht eq_refl).
      by destruct (os_last_response s); simplify_eq/=.
Qed.

(** Settlement hands the response over unchanged. *)
Lemma finish_response c o w : (finish c o w).1 = oc_response o.
Proof.
  unfold finish. destruct (rc_db c); [|done]. unfold bind, instant_now, ask.
  by destruct (is_event_stream _).
Qed.

(** The two early errors: exactly for dangling references, and without an
    effect. *)
Lemma weighted_dangling config cx route w :
  let dangling := provider config (rs_source_id route) = None \/ account config (rs_primary_account_id route) = None in
  match weighted_outcome config cx route w with
  | (Ok _, _) => ~ dangling
  | (Err _, w') => w' = w /\ dangling
  end.
Proof.
  unfold weighted_outcome. cbv zeta. destruct (provider _ _) as [prov|]; [|by split; [|left]].
  destruct (account _ _) as [acc|]; [|by split; [|right]]. unfold bind. destruct (health_get _ w) as [health w1].
  destruct (negb (ac_enabled acc)); [|destruct (negb (ah_available health))];
    cbv beta iota zeta;
    match goal with |- context [weighted_unavailable ?a ?b ?c ?d ?e ?f] => destruct (weighted_unavailable a b c d e f)
    | |- context [weighted_primary ?a ?b ?c ?d ?e ?f] => destruct (weighted_primary a b c d e f) end; by intros [].
Qed.

(** C4. The weighted policy, for every behaviour of the upstreams, the
    clocks and the database: at most two attempts are made and at most one
    request is sent per attempt; attempts are numbered from zero, a second
    attempt only follows a retryable first one; the client is told of success
    exactly when some attempt succeeded; and a route whose source or primary
    account is not in the configuration, and no other, ends before any attempt:
    nothing is sent and the answer is 502. *)
Theorem weighted_policy_correct (config : GatewayConfig) (cx : AttemptContext)
    (completion : RequestCompletion) (w : World) :
  let '(r, w') := weighted_outcome config cx (rc_route completion) w in
  (proxy_weighted config cx completion w).1
    = match r with Ok o => oc_response o | Err response => response end
  /\ match r with
     | Ok o =>
         (length (oc_attempts o) <= 2)%nat
         /\ (length (w_sent w') <= length (w_sent w) + length (oc_attempts o))%nat
         /\ numbered (oc_attempts o)
         /\ Forall retried (removelast (oc_attempts o))
         /\ is_success (rp_status (oc_response o)) = existsb ua_success (oc_attempts o)
     | Err response => rp_status response = 502 /\ w' = w
     end
  /\ (is_ok r = false <-> provider config (rs_source_id (rc_route completion)) = None
        \/ account config (rs_primary_account_id (rc_route completion)) = None).
Proof.
  pose proof (weighted_dangling config cx (rc_route completion) w) as Hd.
  destruct (specd_weighted config cx (rc_route completion)) as [Hq Hs].
  specialize (Hq w). specialize (Hs w). unfold proxy_weighted, bind.
  destruct (weighted_outcome _ _ _ w) as [[o|response] w']; cbn [fst snd weighted_requests weighted_ok] in *.
  - split; [apply finish_response|]. destruct Hq as [Hl [Hn Hr] Hsucc]. unfold requests in Hs.
    split; [split_and!; [lia|done|done|done|done]|]. split; [done|by intros ?%Hd].
  - destruct Hd as [-> Hd]. split; [done|]. by split.
Qed.

(** C3. The ordered policy, for every behaviour of the upstreams, the clocks
    and the database: it makes at most [max_retries + 1] attempts (skipped
    lines do not count) and sends at most one request per attempt; attempts
    are numbered from zero and every attempt but the last ended in a
    retryable failure, so it stops at the first conclusive answer; the client
    is told of success exactly when some attempt succeeded; and usage that
    records a gateway total timeout goes with a 504. *)
Theorem ordered_policy_correct (config : GatewayConfig) (cx : AttemptContext)
    (completion : RequestCompletion) (w : World) :
  let route := rc_route completion in
  let '(o, w') := ordered_outcome config cx route w in
  (proxy_ordered config cx completion w).1 = oc_response o
  /\ Z.of_nat (length (oc_attempts o)) <= attempt_limit (rs_max_retries route)
  /\ (forall v, rs_max_retries route = Some v -> 0 <= v < 2 ^ 31 ->
        attempt_limit (rs_max_retries route) = v + 1)
  /\ (length (w_sent w') <= length (w_sent w) + length (oc_attempts o))%nat
  /\ numbered (oc_attempts o)
  /\ Forall retried (removelast (oc_attempts o))
  /\ is_success (rp_status (oc_response o)) = existsb ua_success (oc_attempts o)
  /\ (oc_error_summary o = Some "gateway_total_timeout" -> rp_status (oc_response o) = 504).
Proof.
  intros route. destruct (specd_ordered config cx route) as [Hq Hs].
  specialize (Hq w). specialize (Hs w). unfold proxy_ordered, bind. fold route.
  destruct (ordered_outcome _ _ _ w) as [o w']. cbn [fst snd] in *.
  destruct Hq as [[Hl [Hn Hr] Hsucc] Hsum]. unfold requests in Hs.
  split_and!; try done; [apply finish_response|].
  intros v -> Hv. cbn [attempt_limit]. rewrite (wrap_u_small 64 v), wrap_u_small; [done|lia|lia].
Qed.
End Specs.
