(* ===== verification/Settlement.v ===== *)
(** * Admission and settlement: [src/src/proxy/settlement.rs]

    A request that may be accounted holds a permit of a semaphore from before
    its first upstream attempt until its usage is written; at shutdown [drain]
    sets a flag and acquires every permit.  The operations interleave freely,
    so they are steps of a transition system, one per atomic action: a load or
    store of [closing], an acquisition or a release.

    Requests are interchangeable, so the state counts how many are at each
    point of [try_reserve], of the handler and of the spawned write task.  The
    semaphores are tokio's: an acquisition takes a free permit, [acquire_many]
    collects free permits until it has them all, and a dropped permit is free
    again. *)

From Stdlib Require Import ZArith Lia.
From stdpp Require Import base list relations.
From S2P Require Import Prelude.

Definition MAX_OUTSTANDING_ACCOUNTED_REQUESTS : nat := 64.
Definition MAX_CONCURRENT_WRITES : nat := 8.

Inductive AdmissionError : Type := Saturated | Closing.

(** [drain]: not called, collecting permits, returned. *)
Inductive Drain : Type := NotDraining | Collecting (taken : nat) | Drained.

Record Settlement : Type := mkSettlement {
  st_closing : bool;
  st_permits : nat;              (** free permits of [inner.permits] *)
  st_writes : nat;               (** free permits of [inner.writes] *)
  st_checked : nat;              (** in [try_reserve], after the first load *)
  st_acquired : nat;             (** in [try_reserve], holding a permit *)
  st_granted : nat;              (** [try_reserve] returned a permit *)
  st_spawned : nat;              (** write tasks waiting for a write permit *)
  st_writing : nat;              (** write tasks that write *)
  st_drain : Drain;
}.

(** [SettlementManager::with_limits]. *)
Definition settlement_new (capacity writes : nat) : Settlement :=
  mkSettlement false capacity writes 0 0 0 0 0 NotDraining.

(** [try_reserve] in terms of its three observations: the flag, whether a
    permit was free, and the flag again. *)
Definition try_reserve (closing_before acquired closing_after : bool)
    : result unit AdmissionError :=
  if closing_before then Err Closing
  else if negb acquired then Err Saturated
  else if closing_after then Err Closing
  else Ok tt.

(** What a step shows: the result of a call of [try_reserve], a write task that
    starts or ends its write, the return of [drain]. *)
Inductive Event : Type :=
| Internal | Reserved (r : result unit AdmissionError) | WriteStarted | WriteDone | DrainReturned.

Section Steps.
Variable capacity : nat.

Inductive settlement_step : Settlement -> Event -> Settlement -> Prop :=
| reserve_closing p w c a g s wr d :
    settlement_step (mkSettlement true p w c a g s wr d)
      (Reserved (try_reserve true false false)) (mkSettlement true p w c a g s wr d)
| reserve_check p w c a g s wr d :
    settlement_step (mkSettlement false p w c a g s wr d)
      Internal (mkSettlement false p w (S c) a g s wr d)
| reserve_saturated cl w c a g s wr d :
    settlement_step (mkSettlement cl 0 w (S c) a g s wr d)
      (Reserved (try_reserve false false false)) (mkSettlement cl 0 w c a g s wr d)
| reserve_acquire cl p w c a g s wr d :
    settlement_step (mkSettlement cl (S p) w (S c) a g s wr d)
      Internal (mkSettlement cl p w c (S a) g s wr d)
| reserve_recheck cl p w c a g s wr d :
    settlement_step (mkSettlement cl p w c (S a) g s wr d)
      (Reserved (try_reserve false true cl))
      (if cl then mkSettlement cl (S p) w c a g s wr d else mkSettlement cl p w c a (S g) s wr d)
| permit_dropped cl p w c a g s wr d :
    settlement_step (mkSettlement cl p w c a (S g) s wr d)
      Internal (mkSettlement cl (S p) w c a g s wr d)
| permit_spawn cl p w c a g s wr d :
    settlement_step (mkSettlement cl p w c a (S g) s wr d)
      Internal (mkSettlement cl p w c a g (S s) wr d)
| task_write cl p w c a g s wr d :
    settlement_step (mkSettlement cl p (S w) c a g (S s) wr d)
      WriteStarted (mkSettlement cl p w c a g s (S wr) d)
| task_done cl p w c a g s wr d :
    settlement_step (mkSettlement cl p w c a g s (S wr) d)
      WriteDone (mkSettlement cl (S p) (S w) c a g s wr d)
| drain_close cl p w c a g s wr :
    settlement_step (mkSettlement cl p w c a g s wr NotDraining)
      Internal (mkSettlement true p w c a g s wr (Collecting 0))
| drain_collect cl p w c a g s wr taken :
    (taken < capacity)%nat ->
    settlement_step (mkSettlement cl (S p) w c a g s wr (Collecting taken))
      Internal (mkSettlement cl p w c a g s wr (Collecting (S taken)))
| drain_return cl p w c a g s wr :
    settlement_step (mkSettlement cl p w c a g s wr (Collecting capacity))
      DrainReturned (mkSettlement cl (capacity + p) w c a g s wr Drained).

Inductive settlement_trace : Settlement -> list Event -> Settlement -> Prop :=
| st_nil s : settlement_trace s [] s
| st_cons s e s' l s'' :
    settlement_step s e s' -> settlement_trace s' l s'' -> settlement_trace s (e :: l) s''.
End Steps.

(** ** Invariant *)

Definition drain_taken (d : Drain) : nat := match d with Collecting n => n | _ => 0 end.

(** Requests that hold a permit. *)
Definition outstanding (s : Settlement) : nat :=
  st_acquired s + st_granted s + st_spawned s + st_writing s.

Record settlement_inv (capacity writes : nat) (s : Settlement) : Prop := {
  si_permits : (st_permits s + outstanding s + drain_taken (st_drain s) = capacity)%nat;
  si_writes : (st_writes s + st_writing s = writes)%nat;
  si_closing : st_drain s <> NotDraining -> st_closing s = true;
  si_drained : st_drain s = Drained -> (st_granted s + st_spawned s + st_writing s = 0)%nat;
}.

Section Invariant.
Context (capacity writes : nat).

Lemma settlement_inv_new : settlement_inv capacity writes (settlement_new capacity writes).
Proof. split; cbn; try done; lia. Qed.

Lemma settlement_inv_step s e s' :
  settlement_inv capacity writes s -> settlement_step capacity s e s' ->
  settlement_inv capacity writes s'.
Proof.
  unfold outstanding. intros [Hp Hw Hc Hd] Hs. destruct Hs; unfold outstanding in *; cbn in *;
    try destruct cl; split; unfold outstanding; cbn; try done; try lia; try (by auto);
    try (intros E; specialize (Hd E); lia).
  intros E. assert (false = true) as [=] by (apply Hc; congruence).
Qed.

Lemma settlement_inv_trace s l s' :
  settlement_inv capacity writes s -> settlement_trace capacity s l s' ->
  settlement_inv capacity writes s'.
Proof. intros Hi Ht. induction Ht; [done|]. apply IHHt. by eapply settlement_inv_step. Qed.

(** After [drain] has returned nothing is granted, started or written. *)
Definition quiet (e : Event) : Prop :=
  match e with
  | Internal => True
  | Reserved r => is_ok r = false
  | WriteStarted | WriteDone | DrainReturned => False
  end.

Lemma drained_quiet s l s' :
  settlement_inv capacity writes s -> st_drain s = Drained -> settlement_trace capacity s l s' ->
  Forall quiet l /\ st_drain s' = Drained.
Proof.
  intros Hi Hd Ht. induction Ht as [|s e s' l s'' Hs Ht IH]; [done|].
  assert (quiet e /\ st_drain s' = Drained) as [He Hd'].
  { destruct Hi as [_ _ Hc Hdr]. specialize (Hdr Hd). assert (st_closing s = true) as Hcl
      by (apply Hc; congruence). destruct Hs; cbn in *; simplify_eq; try lia; done. }
  destruct IH as [Hl Hd'']; [by eapply settlement_inv_step|done|]. by split; [constructor|].
Qed.

(** ** Progress of a drain *)

(** Steps left until the drain can return. *)
Definition drain_work (s : Settlement) : nat :=
  2 * (4 * st_acquired s + 4 * st_granted s + 3 * st_spawned s + 2 * st_writing s)
  + st_permits s.

Lemma drain_progress s taken :
  (0 < writes)%nat -> settlement_inv capacity writes s -> st_drain s = Collecting taken ->
  (exists e s', settlement_step capacity s e s' /\ st_drain s' = Drained)
  \/ (exists e s' taken', settlement_step capacity s e s' /\ st_drain s' = Collecting taken'
        /\ (drain_work s' < drain_work s)%nat).
Proof.
  intros Hw [Hp Hwr Hc _] Hd. destruct s as [cl p w c a g sp wr d]. unfold outstanding in *. cbn in *.
  subst d. specialize (Hc ltac:(congruence)). subst cl. cbn in *.
  destruct p as [|p].
  2:{ right. do 3 eexists. split; [apply drain_collect; lia|]. unfold drain_work. cbn. split; [done|lia]. }
  destruct wr as [|wr].
  2:{ right. do 3 eexists. split; [apply task_done|]. unfold drain_work. cbn. split; [done|lia]. }
  destruct sp as [|sp].
  2:{ destruct w as [|w]; [lia|]. right. do 3 eexists. split; [apply task_write|].
      unfold drain_work. cbn. split; [done|lia]. }
  destruct g as [|g].
  2:{ right. do 3 eexists. split; [apply permit_spawn|]. unfold drain_work. cbn. split; [done|lia]. }
  destruct a as [|a].
  2:{ right. do 3 eexists. split; [apply reserve_recheck|]. unfold drain_work. cbn. split; [done|lia]. }
  left. assert (taken = capacity) as -> by lia. do 2 eexists. split; [apply drain_return|done].
Qed.

Lemma drain_terminates n : forall s taken,
  (0 < writes)%nat -> settlement_inv capacity writes s -> st_drain s = Collecting taken ->
  (drain_work s < n)%nat ->
  exists l s', settlement_trace capacity s l s' /\ st_drain s' = Drained.
Proof.
  induction n as [|n IH]; intros s taken Hw Hi Hd Hn; [lia|].
  destruct (drain_progress s taken Hw Hi Hd) as [(e & s' & Hs & Hd')|(e & s' & t' & Hs & Hd' & Hlt)].
  - exists [e], s'. split; [|done]. eapply st_cons; [exact Hs|constructor].
  - destruct (IH s' t' Hw) as (l & s'' & Ht & Hd''); [by eapply settlement_inv_step|done|lia|].
    exists (e :: l), s''. split; [|done]. by eapply st_cons.
Qed.
End Invariant.

(** ** Properties *)

(** Admission is bounded: in every interleaving, at most [capacity]
    requests hold a permit and at most [writes] usage writes run at the same
    time, and no permit is lost or duplicated. *)
Theorem settlement_bounded (capacity writes : nat) (l : list Event) (s : Settlement)
    (Hreach : settlement_trace capacity (settlement_new capacity writes) l s) :
  (outstanding s <= capacity)%nat
  /\ (st_writing s <= writes)%nat
  /\ (st_permits s + outstanding s + drain_taken (st_drain s) = capacity)%nat.
Proof.
  destruct (settlement_inv_trace _ _ _ _ _ (settlement_inv_new capacity writes) Hreach).
  split_and!; lia.
Qed.

(** A request is admitted and starts writing while [drain] collects; the drain
    returns after the write. *)
Definition example_events : list Event :=
  [Internal; Internal; Reserved (Ok tt); Internal; Internal; Internal; WriteStarted; WriteDone;
   Internal; DrainReturned].
Definition example_drained : Settlement := mkSettlement true 1 1 1 0 0 0 0 Drained.

Lemma example_run : settlement_trace 1 (settlement_new 1 1) example_events example_drained.
Proof.
  eapply st_cons; [apply reserve_check|]. eapply st_cons; [apply reserve_acquire|].
  eapply st_cons; [apply reserve_recheck|]. eapply st_cons; [apply reserve_check|].
  eapply st_cons; [apply permit_spawn|]. eapply st_cons; [apply drain_close|].
  eapply st_cons; [apply task_write|]. eapply st_cons; [apply task_done|].
  eapply st_cons; [apply drain_collect; lia|]. eapply st_cons; [apply drain_return|]. apply st_nil.
Qed.

Lemma settlement_bounded_witness :
  settlement_trace 1 (settlement_new 1 1) example_events example_drained
  /\ (outstanding example_drained <= 1)%nat.
Proof. split; [apply example_run|]. apply (settlement_bounded 1 1 example_events), example_run. Defined.

(** Shutdown is safe: when [drain] has returned, no admitted request is
    left and every usage write has ended; from then on no request is admitted
    and no write runs, even for calls of [try_reserve] that had already passed
    their first check. *)
Theorem drain_waits_for_settlement (capacity writes : nat) (l l' : list Event) (s s' : Settlement)
    (Hreach : settlement_trace capacity (settlement_new capacity writes) l s)
    (Hdrained : st_drain s = Drained)
    (Hlater : settlement_trace capacity s l' s') :
  (st_granted s + st_spawned s + st_writing s = 0)%nat
  /\ (st_granted s' + st_spawned s' + st_writing s' = 0)%nat
  /\ Forall quiet l'.
Proof.
  pose proof (settlement_inv_trace _ _ _ _ _ (settlement_inv_new capacity writes) Hreach) as Hi.
  destruct (drained_quiet _ _ _ _ _ Hi Hdrained Hlater) as [Hq Hd'].
  pose proof (settlement_inv_trace _ _ _ _ _ Hi Hlater) as Hi'.
  split_and!; [by apply (si_drained _ _ _ Hi)|by apply (si_drained _ _ _ Hi')|done].
Qed.

(** The second caller of [example_run] acquires a permit after the drain. *)
Definition example_late : list Event := [Internal; Reserved (Err Closing)].

Lemma drain_waits_for_settlement_witness :
  settlement_trace 1 (settlement_new 1 1) example_events example_drained
  /\ Forall quiet example_late.
Proof.
  split; [apply example_run|].
  apply (drain_waits_for_settlement 1 1 example_events example_late example_drained
           (mkSettlement true 1 1 0 0 0 0 0 Drained)); [apply example_run|reflexivity|].
  eapply st_cons; [apply reserve_acquire|]. eapply st_cons; [apply reserve_recheck|]. apply st_nil.
Defined.

(** Shutdown is not blocked: from every reachable state in which a drain
    waits, the requests in flight can run to completion and let it return,
    provided writes are possible at all. *)
Theorem drain_can_finish (capacity writes : nat) (l : list Event) (s : Settlement) (taken : nat)
    (Hwrites : (0 < writes)%nat)
    (Hreach : settlement_trace capacity (settlement_new capacity writes) l s)
    (Hwait : st_drain s = Collecting taken) :
  exists l' s', settlement_trace capacity s l' s' /\ st_drain s' = Drained.
Proof.
  eapply drain_terminates; [exact Hwrites| |exact Hwait|apply Nat.lt_succ_diag_r].
  eapply settlement_inv_trace; [apply settlement_inv_new|exact Hreach].
Qed.

Lemma drain_can_finish_witness :
  exists l' s', settlement_trace 1 (mkSettlement true 1 1 0 0 0 0 0 (Collecting 0)) l' s'
    /\ st_drain s' = Drained.
Proof.
  apply (drain_can_finish 1 1 [Internal] _ 0); [lia| |reflexivity].
  eapply st_cons; [apply drain_close|]. apply st_nil.
Defined.
