(* ===== verification/Service.v ===== *)
(** * The data-plane entry point: [src/src/proxy/service.rs]

    [proxy] checks a request in a fixed order (JSON, authorization, model,
    route, admission) and hands it to one of the two candidate policies.
    [finish_proxy] only records metrics and returns its response. *)

From Stdlib Require Import ZArith Lia Ascii.
From stdpp Require Import base list strings gmap.
From S2P Require Import Prelude.
From S2P Require Import RustStr.
From S2P Require Import Protocol.
From S2P Require Import Config.
From S2P Require Import Routing.
From S2P Require Import Health.
From S2P Require Import Json.
From S2P Require Import Snapshot.
From S2P Require Import Usage.
From S2P Require Import Stream.
From S2P Require Import Native.
From S2P Require Import Observe.
From S2P Require Import Accounting.
From S2P Require Import Http.
From S2P Require Import VirtualKeys.
From S2P Require Import Secrets.
From S2P Require Import World.
From S2P Require Import Auth.
From S2P Require Import Transport.
From S2P Require Import Fallback.
From S2P Require Import Policy.
From S2P Require Import Proxy.
From S2P Require Import ProxyProps.
From S2P Require Import Settlement.

(** What the handler observes of its process: fresh request
    ids, and the settlement manager shared with the other requests. *)
Class Process : Type := {
  pr_uuid : nat -> string;
  pr_closing : nat -> bool;
  pr_permit : nat -> bool;
}.

(** The part of [AppState] the handler reads: whether there is a database, and
    the live configuration and resolver. *)
Record Gateway : Type := mkGateway {
  gy_db : bool;
  gy_config : GatewayConfig;
  gy_resolver : RouteResolver;
}.

Record Admission : Type := mkAdmission {
  ad_context : AttemptContext;
  ad_completion : RequestCompletion;
}.

Definition route_error_status (error : RouteResolutionError) : Z :=
  if re_code error =?s "route_not_found" then 404
  else if (re_code error =?s "account_disabled") || (re_code error =?s "account_cooling_down") then 503
  else 422.

Definition admission_code (reason : AdmissionError) : string :=
  match reason with
  | Saturated => "settlement_capacity_exhausted"
  | Closing => "gateway_shutting_down"
  end.

(** A request timeout of the route replaces the configured total timeout. *)
Definition request_config (config : StreamConfig) (route : ResolvedRoute) : StreamConfig :=
  match rs_request_timeout_ms route with
  | Some timeout_ms =>
      mkStreamConfig (sc_heartbeat_interval config) (sc_connection_timeout config)
        (sc_first_event_timeout config) (sc_idle_timeout config) (from_millis (wrap_u 64 timeout_ms))
  | None => config
  end.

Definition payload_model (payload : Value) : option string := get payload "model" ≫= as_str.
Definition payload_streamed (payload : Value) : bool :=
  unwrap_or (get payload "stream" ≫= as_bool) false.

Section Service.
Context `{Process} `{Env} `{SerdeJson} `{Tokenizer} `{InstantRange} `{BuildCfg} `{Chrono} `{PgTime}
  `{Sha256}.

(** [state.settlements.try_reserve()]: its three observations. *)
Definition reserve : M (result unit AdmissionError) :=
  let! before := ask pr_closing in
  let! acquired := ask pr_permit in
  let! after := ask pr_closing in
  ret (try_reserve before acquired after).

(** The checks of [proxy], up to the choice of a policy. *)
Definition check_request (st : Gateway) (headers : HeaderMap) (body : string) (protocol : Protocol)
    : M (result Admission Response) :=
  let! started := instant_now in
  let! request_id := ask pr_uuid in
  let reject status code message :=
    ret (Err (data_plane_error_response protocol status code message request_id)) in
  match from_slice body with
  | None => reject 400 "invalid_json" "request body must be valid JSON"
  | Some payload =>
      let! identity :=
        authorized_with_db (env_var "GATEWAY_API_KEY") (gy_db st) headers (payload_model payload) in
      match identity with
      | None => reject 401 "unauthorized" "invalid or revoked virtual key"
      | Some identity =>
          match opt_filter (fun value => negb (is_empty value)) (payload_model payload) with
          | None => reject 400 "missing_required_parameter" "missing required field: model"
          | Some model =>
              match resolve_detailed (gy_resolver st) protocol model with
              | Err error => reject (route_error_status error) (re_code error) (re_message error)
              | Ok route =>
                  let! admission := (if gy_db st then reserve else ret (Ok tt)) in
                  match admission with
                  | Err reason =>
                      reject 503 (admission_code reason) "stream accounting capacity is unavailable"
                  | Ok _ =>
                      ret (Ok (mkAdmission
                        (mkAttemptContext headers body model protocol request_id
                           (request_config (StreamConfig_from_env env_var) route) started)
                        (mkRequestCompletion (gy_db st) route request_id (virtual_key_id identity)
                           (client_source_from_headers headers (Some identity)) model protocol
                           (payload_streamed payload) started)))
                  end
              end
          end
      end
  end.

Definition proxy (st : Gateway) (headers : HeaderMap) (body : string) (protocol : Protocol)
    : M Response :=
  let! admitted := check_request st headers body protocol in
  match admitted with
  | Err response => ret response
  | Ok a =>
      if rs_strategy (rc_route (ad_completion a)) =?s "ordered_fallback"
      then proxy_ordered (gy_config st) (ad_context a) (ad_completion a)
      else proxy_weighted (gy_config st) (ad_context a) (ad_completion a)
  end.
End Service.

(** ** Properties *)

(** The computation sends nothing and leaves health and accounting alone. *)
Definition unchanged (w w' : World) : Prop :=
  w_sent w' = w_sent w /\ w_usage w' = w_usage w /\ w_streams w' = w_streams w
  /\ w_health w' = w_health w /\ w_slept w' = w_slept w.
Definition quietly {A} (m : M A) : Prop := forall w, unchanged w (m w).2.

Lemma quietly_ret {A} (x : A) : quietly (ret x).
Proof. by intros w. Qed.
Lemma quietly_ask {A} (f : nat -> A) : quietly (ask f).
Proof. by intros w. Qed.
Lemma quietly_get : quietly get_world.
Proof. by intros w. Qed.
Lemma quietly_keys t : quietly (put_keys t).
Proof. by intros w. Qed.
Lemma quietly_bind {A B} (m : M A) (k : A -> M B) :
  quietly m -> (forall x, quietly (k x)) -> quietly (bind m k).
Proof.
  intros Hm Hk w. unfold bind. specialize (Hm w). destruct (m w) as [x w1]. specialize (Hk x w1).
  cbn [snd] in *. unfold unchanged in *. intuition congruence.
Qed.
Create HintDb quietly.
#[export] Hint Resolve quietly_ret quietly_ask quietly_get quietly_keys quietly_bind : quietly.

(** Runs a computation step by step: each [bind] of [m] yields its value and
    the next world. *)
Lemma bind_inv {A B} (m : M A) (k : A -> M B) w : bind m k w = k (m w).1 (m w).2.
Proof. unfold bind. by destruct (m w). Qed.

Section ServiceSpec.
Context `{Process} `{Env} `{SerdeJson} `{Tokenizer} `{InstantRange} `{BuildCfg} `{Chrono} `{PgTime}
  `{Sha256}.

Lemma quietly_authenticate raw model : quietly (authenticate raw model).
Proof.
  unfold authenticate, utc_now. repeat (apply quietly_bind; [auto with quietly|intros]).
  destruct (fails_before _); [auto with quietly|]. destruct (authenticate_virtual_key _ _ _ _).
  apply quietly_bind; auto with quietly.
Qed.

Lemma quietly_authorized api_key db headers model :
  quietly (authorized_with_db api_key db headers model).
Proof.
  unfold authorized_with_db. cbv zeta. destruct (is_some_and _ _); [apply quietly_ret|].
  destruct (negb db); [apply quietly_ret|]. destruct (supplied_key headers); [|apply quietly_ret].
  apply quietly_bind; [apply quietly_authenticate|intros; apply quietly_ret].
Qed.

Lemma quietly_reserve : quietly reserve.
Proof. unfold reserve. repeat (apply quietly_bind; [apply quietly_ask|intros]). apply quietly_ret. Qed.

Lemma quietly_checks st headers body protocol : quietly (check_request st headers body protocol).
Proof.
  unfold check_request, instant_now. apply quietly_bind; [apply quietly_ask|intros started].
  apply quietly_bind; [apply quietly_ask|intros request_id]. cbv zeta.
  destruct (from_slice body); [|apply quietly_ret].
  apply quietly_bind; [apply quietly_authorized|intros [identity|]]; [|apply quietly_ret].
  destruct (opt_filter _ _); [|apply quietly_ret].
  destruct (resolve_detailed _ _ _); [|apply quietly_ret].
  apply quietly_bind; [destruct (gy_db st); [apply quietly_reserve|apply quietly_ret]|].
  intros []; apply quietly_ret.
Qed.

(** The world in which the key of a request is checked. *)
Definition auth_world (w : World) : World := (ask pr_uuid (instant_now w).2).2.

Definition auth_result (st : Gateway) (headers : HeaderMap) (payload : Value) (w : World)
    : option AuthIdentity :=
  (authorized_with_db (env_var "GATEWAY_API_KEY") (gy_db st) headers (payload_model payload)
     (auth_world w)).1.

(** What the checks decide. *)
Definition checks_spec (st : Gateway) (headers : HeaderMap) (body : string) (protocol : Protocol)
    (w : World) (r : result Admission Response) : Prop :=
  match r with
  | Ok a =>
      let c := ad_completion a in
      exists payload identity,
        from_slice body = Some payload
        /\ payload_model payload = Some (rc_model c) /\ rc_model c <> EmptyString
        /\ auth_result st headers payload w = Some identity
        /\ rc_virtual_key_id c = virtual_key_id identity
        /\ resolve_detailed (gy_resolver st) protocol (rc_model c) = Ok (rc_route c)
        /\ cx_body (ad_context a) = body /\ cx_headers (ad_context a) = headers
        /\ cx_protocol (ad_context a) = protocol
  | Err response =>
      (from_slice body = None /\ rp_status response = 400)
      \/ exists payload, from_slice body = Some payload
           /\ ((auth_result st headers payload w = None /\ rp_status response = 401)
               \/ (exists identity, auth_result st headers payload w = Some identity)
                  /\ (((payload_model payload = None \/ payload_model payload = Some EmptyString)
                       /\ rp_status response = 400)
                      \/ exists model, payload_model payload = Some model /\ model <> EmptyString
                           /\ ((exists e, resolve_detailed (gy_resolver st) protocol model = Err e
                                  /\ rp_status response = route_error_status e)
                               \/ (is_ok (resolve_detailed (gy_resolver st) protocol model) = true
                                   /\ gy_db st = true /\ rp_status response = 503))))
  end.

Lemma reject_status protocol status code message request_id :
  rp_status (data_plane_error_response protocol status code message request_id) = status.
Proof. unfold data_plane_error_response. by destruct (header_value_ok _). Qed.

Lemma filter_model_none o :
  opt_filter (fun value => negb (is_empty value)) o = None -> o = None \/ o = Some EmptyString.
Proof. destruct o as [[|]|]; cbn; auto; done. Qed.

Lemma filter_model_some o model :
  opt_filter (fun value => negb (is_empty value)) o = Some model ->
  o = Some model /\ model <> EmptyString.
Proof. destruct o as [[|]|]; cbn; intros; simplify_eq; done. Qed.

Lemma checks_correct st headers body protocol w :
  checks_spec st headers body protocol w (check_request st headers body protocol w).1.
Proof.
  unfold check_request. rewrite bind_inv. set (started := (instant_now w).1). rewrite bind_inv.
  fold (auth_world w). set (request_id := (ask pr_uuid (instant_now w).2).1). cbv zeta.
  destruct (from_slice body) as [payload|] eqn:Hp; [|left; split; [done|apply reject_status]].
  rewrite bind_inv. fold (auth_result st headers payload w).
  destruct (auth_result st headers payload w) as [identity|] eqn:Ha.
  2:{ right. exists payload. split; [done|]. left. split; [done|apply reject_status]. }
  destruct (opt_filter _ (payload_model payload)) as [model|] eqn:Hm.
  2:{ right. exists payload. split; [done|]. right. split; [eauto|]. left.
      split; [by apply filter_model_none|apply reject_status]. }
  apply filter_model_some in Hm as [Hm Hne].
  destruct (resolve_detailed _ _ model) as [route|e] eqn:Hr.
  2:{ right. exists payload. split; [done|]. right. split; [eauto|]. right. exists model.
      split; [done|]. split; [done|]. left. exists e. split; [done|apply reject_status]. }
  rewrite bind_inv. destruct ((if gy_db st then reserve else ret (Ok tt)) _).1 as [u|reason] eqn:Hadm.
  - exists payload, identity. by split_and!.
  - right. exists payload. split; [done|]. right. split; [eauto|]. right. exists model.
    split; [done|]. split; [done|]. right. rewrite Hr. split; [done|].
    destruct (gy_db st); [|done]. split; [done|apply reject_status].
Qed.
End ServiceSpec.

(** A request is checked before anything is sent upstream, in the order
    JSON, authorization, model, route, admission, each failure with its own
    status (400, 401, 400, 404/503/422, 503); a rejected request changes neither
    health nor accounting, and an admitted one carries the identity, the model
    and the resolved route that were checked. *)
Theorem proxy_checks_before_upstream `{Process} `{Env} `{SerdeJson} `{Tokenizer} `{InstantRange}
    `{BuildCfg} `{Chrono} `{PgTime} `{Sha256} (st : Gateway) (headers : HeaderMap) (body : string)
    (protocol : Protocol) (w : World) :
  let '(r, w') := check_request st headers body protocol w in
  unchanged w w'
  /\ checks_spec st headers body protocol w r
  /\ proxy st headers body protocol w =
     match r with
     | Err response => (response, w')
     | Ok a =>
         (if rs_strategy (rc_route (ad_completion a)) =?s "ordered_fallback"
          then proxy_ordered else proxy_weighted)
           (gy_config st) (ad_context a) (ad_completion a) w'
     end.
Proof.
  pose proof (quietly_checks st headers body protocol w) as Hq.
  pose proof (checks_correct st headers body protocol w) as Hc.
  unfold proxy. rewrite bind_inv. destruct (check_request st headers body protocol w) as [r w']. cbn [fst snd] in *.
  split; [done|]. split; [done|]. destruct r as [a|response]; [|done]. by destruct (_ =?s _).
Qed.

(** C1. Nothing reaches an upstream without authorization: if handling a
    request sends anything, over a key table whose hashes are unique and whose ids
    are below its sequence, then its body is JSON with a non-empty model that
    resolves to a route, and its credential justified an identity for that model
    at the time its key was looked up (the fourth observation of the request,
    after its start, its id and the end of the query): a static key that
    matches, or a virtual key of the table that at this very time is enabled, not
    revoked, not expired, not past the overlap of a rotation, and allowed the
    model and the scope; or the gateway has neither a database nor a static
    key. *)
Theorem upstream_requires_authorization `{Process} `{Env} `{SerdeJson} `{Tokenizer} `{InstantRange}
    `{BuildCfg} `{Chrono} `{PgTime} `{Sha256} (st : Gateway) (headers : HeaderMap) (body : string)
    (protocol : Protocol) (w : World)
    (Hok : table_ok (w_keys w))
    (Hsent : w_sent (proxy st headers body protocol w).2 <> w_sent w) :
  exists payload model identity route,
    from_slice body = Some payload
    /\ payload_model payload = Some model /\ model <> EmptyString
    /\ justified (env_var "GATEWAY_API_KEY") (gy_db st) headers (Some model) (w_keys w) (env_utc (3 + w_tick w)) identity
    /\ resolve_detailed (gy_resolver st) protocol model = Ok route.
Proof.
  pose proof (quietly_checks st headers body protocol w) as Hq.
  pose proof (checks_correct st headers body protocol w) as Hc.
  unfold proxy in Hsent. rewrite bind_inv in Hsent.
  destruct (check_request st headers body protocol w) as [[a|response] w']; cbn [fst snd] in *.
  - destruct Hc as (payload & identity & Hp & Hm & Hne & Ha & _ & Hr & _).
    exists payload, (rc_model (ad_completion a)), identity, (rc_route (ad_completion a)).
    pose proof (authorized_with_db_spec (env_var "GATEWAY_API_KEY") (gy_db st) headers
      (payload_model payload) (auth_world w) Hok) as Hspec.
    unfold auth_result in Ha. destruct (authorized_with_db _ _ _ _ (auth_world w)) as [r w1].
    destruct Hspec as (_ & Hj & _). apply Hj in Ha. rewrite Hm in Ha. by split_and!.
  - destruct Hq as [Hs _]. cbn in Hsent. congruence.
Qed.

(** [s] is a snapshot some rows of the control plane build. *)
Definition publishable `{BuildCfg} (s : RuntimeSnapshot) : Prop :=
  exists de_error rows listen_addr revision generated_at,
    build_snapshot de_error rows listen_addr revision generated_at = Ok s.

(** The two internal errors of the weighted policy cannot happen behind a
    published snapshot: for a route its resolver returns, the policy always
    reaches settlement with an outcome. *)
Theorem published_routes_are_served `{Env} `{SerdeJson} `{Tokenizer} `{InstantRange} `{BuildCfg}
    `{Chrono} `{PgTime} (s : RuntimeSnapshot) (protocol : Protocol) (cx : AttemptContext)
    (completion : RequestCompletion) (w : World)
    (Hbuild : publishable s)
    (Hroute : resolve_detailed (ss_resolver s) protocol (rc_model completion) = Ok (rc_route completion)) :
  exists o, (weighted_outcome (ss_config s) cx (rc_route completion) w).1 = Ok o
    /\ (proxy_weighted (ss_config s) cx completion w).1 = oc_response o.
Proof.
  destruct Hbuild as (de_error & rows & listen_addr & revision & generated_at & Hbuild).
  destruct (published_line _ _ _ _ _ _ _ _ _ Hbuild Hroute) as [[Hacc Hprov] _].
  unfold proxy_weighted. rewrite bind_inv.
  assert (Hok : is_ok (weighted_outcome (ss_config s) cx (rc_route completion) w).1 = true).
  { unfold weighted_outcome. cbv zeta. destruct (provider _ _) as [prov|]; [|done].
    destruct (account _ _) as [acc|]; [|done]. rewrite bind_inv.
    destruct (negb (ac_enabled acc)); [|destruct (negb (ah_available _))]; by rewrite bind_inv. }
  destruct (weighted_outcome _ _ _ w) as [[o|r] w']; cbn [fst snd] in *; [|done].
  exists o. split; [done|apply finish_response].
Qed.

(** A request end to end: two accounts behind an ordered route, where the
    first one answers 500 and the second one 200. *)
Definition example_accounts : list AccountConfig :=
  map (fun id => mkAccountConfig id "source" id (Some id) None None true 100 [] None [] []) ["a"; "b"].
Definition example_gateway_config : GatewayConfig :=
  mkGatewayConfig "127.0.0.1:1" [mkProviderConfig "source" "p" "http://upstream" []
    [OpenAiChatCompletions] [(OpenAiChatCompletions, "/v1")] Capabilities_native [] []]
    example_accounts [].
Definition example_gateway : Gateway :=
  mkGateway true example_gateway_config
    (RouteResolver_from_runtime example_gateway_config [example_runtime_route "ordered_fallback" None]).
Definition example_process : Process := {|
  pr_uuid _ := "req-1"; pr_closing _ := false; pr_permit _ := true |}.
Definition example_upstream (request : UpstreamRequest) : result UpstreamResponse ReqwestError :=
  Ok (mkUpstreamResponse
        (if is_some_and (header_get (uq_headers request) "authorization") (String.eqb "Bearer a")
         then 500 else 200) [] 0).
Definition example_body : string :=
  let q := bstr (chr 34) in "{" +:+ q +:+ "model" +:+ q +:+ ":" +:+ q +:+ "m" +:+ q +:+ "}".

Definition example_proxy (api_key : string) : Response * World :=
  let process := example_process in
  let env := calm_env 0 example_upstream (fun _ => "{}") in
  let js := json_concrete in let tok := tokenizer_bytes in
  let range : InstantRange := 10 ^ 30 in let cfg : BuildCfg := false in
  let chrono := chrono_exact in let pg := pg_micros in let sha : Sha256 := fun s => s in
  proxy example_gateway [("authorization", "Bearer " +:+ api_key)] example_body OpenAiChatCompletions
    example_auth_world.

Example example_proxy_falls_back :
  let '(response, w) := example_proxy "gw_secret" in
  rp_status response = 200
  /\ map uq_url (w_sent w) = ["http://upstream/v1"; "http://upstream/v1"]
  /\ map (fun uq => header_get (uq_headers uq) "authorization") (w_sent w)
     = [Some "Bearer a"; Some "Bearer b"]
  /\ map (fun kv => (ua_attempt_no kv.2, ua_account_id kv.2, ua_status_code kv.2))
       (map_to_list (ut_attempts (w_usage w))) = [(0, "a", 500); (1, "b", 200)].
Proof. vm_compute. repeat split. Qed.

Example example_proxy_rejects :
  rp_status (example_proxy "gw_other").1 = 401 /\ w_sent (example_proxy "gw_other").2 = [].
Proof. vm_compute. repeat split. Qed.

Lemma upstream_requires_authorization_witness :
  w_sent (example_proxy "gw_secret").2 <> []
  /\ let sha : Sha256 := fun s => s in
     exists identity,
       justified None true [("authorization", "Bearer gw_secret")] (Some "m") example_table 0 identity.
Proof.
  assert (Hsent : w_sent (example_proxy "gw_secret").2 <> []).
  { intros E. apply (f_equal (@length _)) in E. vm_compute in E. discriminate E. }
  split; [exact Hsent|]. intros sha.
  destruct (@upstream_requires_authorization example_process
    (calm_env 0 example_upstream (fun _ => "{}")) json_concrete tokenizer_bytes (10 ^ 30) false
    chrono_exact pg_micros sha example_gateway [("authorization", "Bearer gw_secret")] example_body
    OpenAiChatCompletions example_auth_world example_table_ok Hsent)
    as (payload & model & identity & route & Hp & Hm & _ & Hj & _).
  exists identity. vm_compute in Hp. injection Hp as <-. vm_compute in Hm. injection Hm as <-.
  exact Hj.
Defined.

Lemma published_routes_are_served_witness :
  exists s route o, example_build = Ok s
    /\ (@weighted_outcome (calm_env 0 example_upstream (fun _ => "{}")) json_concrete tokenizer_bytes
          (10 ^ 30) false chrono_exact pg_micros (ss_config s)
          (mkAttemptContext [] example_body "m" OpenAiChatCompletions "req" StreamConfig_default 0) route
          example_auth_world).1 = Ok o.
Proof.
  destruct example_build as [s|] eqn:E; [|vm_compute in E; discriminate E].
  destruct (resolve_detailed (H := false) (ss_resolver s) OpenAiChatCompletions "m") as [r|] eqn:Er.
  - destruct (@published_routes_are_served (calm_env 0 example_upstream (fun _ => "{}")) json_concrete
      tokenizer_bytes (10 ^ 30) false chrono_exact pg_micros s OpenAiChatCompletions
      (mkAttemptContext [] example_body "m" OpenAiChatCompletions "req" StreamConfig_default 0)
      (mkRequestCompletion true r "req" None "c" "m" OpenAiChatCompletions false 0) example_auth_world
      (ex_intro _ (fun _ => "") (ex_intro _ example_rows (ex_intro _ "127.0.0.1:1" (ex_intro _ 7
         (ex_intro _ 0 E))))) Er) as (o & Ho & _).
    exists s, r, o. split; [reflexivity|exact Ho].
  - exfalso. vm_compute in E. injection E as <-. vm_compute in Er. discriminate Er.
Defined.
