(* ===== verification/DataApi.v ===== *)
(** * The endpoints of the data plane: [src/src/api/proxy.rs]

    The list of models, the three endpoints that hand a body to [proxy], and the
    health check.  The metrics page is a text of the recorder. *)

From Stdlib Require Import ZArith Lia Ascii.
From stdpp Require Import base list strings gmap.
From S2P Require Import Prelude.
From S2P Require Import RustStr.
From S2P Require Import Protocol.
From S2P Require Import Config.
From S2P Require Import Routing.
From S2P Require Import Health.
From S2P Require Import Catalog.
From S2P Require Import Json.
From S2P Require Import Redaction.
From S2P Require Import Snapshot.
From S2P Require Import Usage.
From S2P Require Import Stream.
From S2P Require Import Native.
From S2P Require Import Accounting.
From S2P Require Import Http.
From S2P Require Import VirtualKeys.
From S2P Require Import Secrets.
From S2P Require Import World.
From S2P Require Import Auth.
From S2P Require Import Service.

Section DataApi.
Context `{Process} `{Env} `{SerdeJson} `{Tokenizer} `{InstantRange} `{BuildCfg} `{Chrono} `{PgTime} `{Sha256}.
(** [AppState]: whether there is a database, and the live snapshot. *)
Context (db : bool) (live : RuntimeSnapshot) (instant_json : Z -> Value).

(** The routes and configuration the handlers of [proxy] see. *)
Definition gateway : Gateway := mkGateway db (ss_config live) (ss_resolver live).

Definition healthz : Response :=
  json_response 200 (json_object
    [("status", VString "ok"); ("sources", of_i64 (Z.of_nat (length (gc_providers (ss_config live)))));
     ("accounts", of_i64 (Z.of_nat (length (gc_accounts (ss_config live)))));
     ("snapshot_revision", of_i64 (ss_revision live)); ("snapshot_generated_at", instant_json (ss_generated_at live))]).

(** The inner loop: the first account that is enabled and available. *)
Fixpoint any_available (account_ids : list string) : M bool :=
  match account_ids with
  | [] => ret false
  | account_id :: account_ids =>
      if is_some_and (account (ss_config live) account_id) ac_enabled
      then
        let! available := health_is_available account_id in
        if available then ret true else any_available account_ids
      else any_available account_ids
  end.

Fixpoint healthy_models (models : list PublishedModel) : M (list PublishedModel) :=
  match models with
  | [] => ret []
  | model :: models =>
      let! healthy := any_available (pm_account_ids model) in
      let! rest := healthy_models models in
      ret (if healthy then model :: rest else rest)
  end.

Definition model_entry (model : PublishedModel) : Value :=
  json_object [("id", VString (pm_id model)); ("object", VString "model"); ("owned_by", VString "gateway")].

Definition models_response (data : list PublishedModel) : Response :=
  json_response 200 (json_object [("object", VString "list"); ("data", VArray (map model_entry data))]).

Definition models (headers : HeaderMap) : M Response :=
  let! request_id := ask pr_uuid in
  let! identity := authorized_with_db (env_var "GATEWAY_API_KEY") db headers None in
  match identity with
  | None =>
      ret (data_plane_error_response OpenAiChatCompletions 401 "unauthorized" "invalid or revoked virtual key" request_id)
  | Some _ =>
      let! data := healthy_models (ss_models live) in
      ret (models_response data)
  end.

Definition body_rejection (status : Z) : string * string :=
  if status =? 413
  then ("request_too_large",
        "request body exceeds the gateway size limit; reduce image/history size or increase "
          +:+ "GATEWAY_MAX_REQUEST_BODY_BYTES and the ingress body limit")
  else ("request_body_read_failed", "failed to read request body").

(** The body of the extractor, or the status of its rejection. *)
Definition proxy_with_body (headers : HeaderMap) (body : result string Z) (protocol : Protocol) : M Response :=
  match body with
  | Ok body => proxy gateway headers body protocol
  | Err status =>
      let! request_id := ask pr_uuid in
      ret (data_plane_error_response protocol status (body_rejection status).1 (body_rejection status).2 request_id)
  end.

Definition chat_completions (headers : HeaderMap) (body : result string Z) : M Response :=
  proxy_with_body headers body OpenAiChatCompletions.
Definition responses (headers : HeaderMap) (body : result string Z) : M Response :=
  proxy_with_body headers body OpenAiResponses.
Definition messages (headers : HeaderMap) (body : result string Z) : M Response :=
  proxy_with_body headers body AnthropicMessages.
End DataApi.

(** ** What is listed *)

Section Listed.
Context `{Env} `{Chrono}.
Context (live : RuntimeSnapshot).

(** The registry found the account available, or not, when it was asked. *)
Definition asked (w : World) (account_id : string) (answer : bool) : Prop :=
  exists n, is_available (w_health w) (env_fault n) (env_utc (S n)) account_id = answer.

Definition enabled_account (account_id : string) : bool := is_some_and (account (ss_config live) account_id) ac_enabled.

Definition usable (w : World) (model : PublishedModel) : Prop :=
  exists id, id ∈ pm_account_ids model /\ enabled_account id = true /\ asked w id true.
Definition unusable (w : World) (model : PublishedModel) : Prop :=
  forall id, id ∈ pm_account_ids model -> enabled_account id = true -> asked w id false.

Lemma asked_unchanged w w' id answer : unchanged w w' -> asked w' id answer -> asked w id answer.
Proof. intros (_ & _ & _ & Hh & _) [n Hn]. exists n. by rewrite <- Hh. Qed.

Lemma unchanged_trans w1 w2 w3 : unchanged w1 w2 -> unchanged w2 w3 -> unchanged w1 w3.
Proof. unfold unchanged. intuition congruence. Qed.

Lemma any_available_spec ids : forall w,
  let '(r, w') := any_available live ids w in
  unchanged w w'
  /\ if r then exists id, id ∈ ids /\ enabled_account id = true /\ asked w id true
     else forall id, id ∈ ids -> enabled_account id = true -> asked w id false.
Proof.
  induction ids as [|id ids IH]; intros w; cbn [any_available].
  { split; [done|]. intros id Hid. by apply elem_of_nil in Hid. }
  fold (enabled_account id). destruct (enabled_account id) eqn:He.
  - rewrite bind_inv. unfold health_is_available, utc_now. rewrite !bind_inv. cbn [ask fst snd ret get_world w_tick].
    set (w1 := mkWorld _ _ _ _ _ _ _ _). assert (unchanged w w1) as Hw1 by done.
    destruct (is_available _ _ _ id) eqn:Ea; cbn.
    + split; [done|]. exists id. split; [by left|]. split; [done|]. by exists (w_tick w).
    + specialize (IH w1). destruct (any_available live ids w1) as [r w']. destruct IH as [Hw' IH].
      split; [by eapply unchanged_trans|]. destruct r.
      * destruct IH as (i & ? & ? & Hi). exists i. split; [by right|]. split; [done|]. by eapply asked_unchanged.
      * intros i [->|Hi]%elem_of_cons Hen; [by exists (w_tick w)|]. eapply asked_unchanged; [exact Hw1|auto].
  - specialize (IH w). destruct (any_available live ids w) as [r w']. destruct IH as [Hw' IH]. split; [done|]. destruct r.
    + destruct IH as (i & ? & ?). exists i. split; [by right|done].
    + intros i [->|Hi]%elem_of_cons Hen; [congruence|auto].
Qed.

Lemma healthy_models_spec ms : forall w,
  let '(listed, w') := healthy_models live ms w in
  unchanged w w' /\ listed `sublist_of` ms
  /\ Forall (usable w) listed /\ forall m, m ∈ ms -> m ∈ listed \/ unusable w m.
Proof.
  induction ms as [|m ms IH]; intros w; cbn [healthy_models].
  { split; [done|]. split; [constructor|]. split; [constructor|]. intros m Hm. by apply elem_of_nil in Hm. }
  rewrite bind_inv. pose proof (any_available_spec (pm_account_ids m) w) as Ha.
  destruct (any_available live (pm_account_ids m) w) as [healthy w1]. destruct Ha as [Hw1 Ha]. cbn [fst snd].
  rewrite bind_inv. specialize (IH w1). destruct (healthy_models live ms w1) as [rest w2].
  destruct IH as (Hw2 & Hsub & Hall & Hex). cbn [ret fst snd]. split; [by eapply unchanged_trans|].
  assert (Forall (usable w) rest) as Hall'.
  { eapply Forall_impl; [exact Hall|]. intros m' (i & ? & ? & ?). exists i. split; [done|]. split; [done|].
    by eapply asked_unchanged. }
  assert (forall m', m' ∈ ms -> m' ∈ rest \/ unusable w m') as Hex'.
  { intros m' Hm'. destruct (Hex m' Hm') as [?|Hu]; [by left|right]. intros i Hi He. eapply asked_unchanged; [exact Hw1|]. by apply Hu. }
  destruct healthy; (split; [by constructor|]); (split; [try constructor; done|]); intros m' [->|Hm']%elem_of_cons.
  - left. by left.
  - destruct (Hex' m' Hm'); [left; by right|by right].
  - by right.
  - auto.
Qed.
End Listed.

(** C2. The list of models is what can be used.  Without a valid key the endpoint
    answers 401; otherwise it lists models of the live snapshot in its order,
    each once; every listed model is resolved by some protocol and has an
    enabled account the registry found available when it was asked, and of a
    published model that is not listed every enabled account was found
    unavailable.  Nothing is sent, and neither health nor accounting changes. *)
Theorem model_list_is_exact `{Process} `{Env} `{BuildCfg} `{Chrono} `{Sha256} (db : bool) (live : RuntimeSnapshot) (headers : HeaderMap) (w w' : World) (response : Response)
    (Hbuild : publishable live) (Hrun : models db live headers w = (response, w')) :
  unchanged w w'
  /\ match (authorized_with_db (env_var "GATEWAY_API_KEY") db headers None (ask pr_uuid w).2).1 with
     | None => rp_status response = 401
     | Some _ => exists listed, response = models_response listed
         /\ listed `sublist_of` ss_models live /\ NoDup (map pm_id listed)
         /\ (forall m, m ∈ listed -> usable live w m
               /\ exists protocol, is_ok (resolve_detailed (ss_resolver live) protocol (pm_id m)) = true)
         /\ (forall m, m ∈ ss_models live -> m ∈ listed \/ unusable live w m)
     end.
Proof.
  unfold models in Hrun. rewrite !bind_inv in Hrun. set (w1 := (ask pr_uuid w).2) in *.
  assert (unchanged w w1) as Hw1 by done.
  pose proof (quietly_authorized (env_var "GATEWAY_API_KEY") db headers None w1) as Hauth.
  destruct (authorized_with_db _ _ _ _ w1) as [[identity|] w2]; cbn [fst snd] in *.
  2: { injection Hrun as <- <-. split; [by eapply unchanged_trans|apply reject_status]. }
  rewrite bind_inv in Hrun. pose proof (healthy_models_spec live (ss_models live) w2) as Hspec.
  destruct (healthy_models live (ss_models live) w2) as [listed w3]. destruct Hspec as (Hw3 & Hsub & Hall & Hex).
  injection Hrun as <- <-. pose proof (unchanged_trans _ _ _ Hw1 Hauth) as Hw2. split; [by eapply unchanged_trans|].
  exists listed. destruct Hbuild as (de_error & rows & addr & revision & generated_at & Hbuild).
  apply published_models_routable in Hbuild as [Hnd Hres].
  split; [done|]. split; [done|]. split; [eapply sublist_NoDup; [exact Hnd|by apply (fmap_sublist pm_id)]|]. split.
  - intros m Hm. rewrite Forall_forall in Hall. destruct (Hall m Hm) as (i & ? & ? & ?). split.
    + exists i. split; [done|]. split; [done|]. by eapply asked_unchanged.
    + apply Hres. apply list_elem_of_fmap_2. eapply elem_of_sublist; [exact Hm|exact Hsub].
  - intros m Hm. destruct (Hex m Hm) as [?|Hu]; [by left|right]. intros i Hi He. eapply asked_unchanged; [exact Hw2|]. by apply Hu.
Qed.

Definition example_models (live : RuntimeSnapshot) : Response * World :=
  @models example_process (calm_env 0 example_upstream (fun _ => "{}")) chrono_exact (fun s => s) true live
    [("authorization", "Bearer gw_secret")] example_auth_world.

(** Both accounts of the example are unknown to the registry: its model is
    listed. *)
Lemma model_list_is_exact_witness :
  exists live listed, example_build = Ok live /\ (example_models live).1 = models_response listed /\ listed <> []
    /\ forall m, m ∈ listed -> exists protocol, is_ok (resolve_detailed (H := false) (ss_resolver live) protocol (pm_id m)) = true.
Proof.
  destruct example_build as [live|] eqn:E; [|vm_compute in E; discriminate E].
  exists live. assert (@publishable false live) as Hb.
  { exists (fun _ => ""), example_rows, "127.0.0.1:1", 7, 0. exact E. }
  assert (example_models live = ((example_models live).1, (example_models live).2)) as Hrun by apply surjective_pairing.
  assert ((example_models live).1 <> models_response [] /\ rp_status (example_models live).1 = 200) as [Hne Hs].
  { clear -E. vm_compute in E. injection E as <-. split; [|vm_compute; reflexivity]. intros F.
    apply (f_equal rp_body) in F. vm_compute in F. discriminate F. }
  pose proof (@model_list_is_exact example_process (calm_env 0 example_upstream (fun _ => "{}")) false
    chrono_exact (fun s => s) true live [("authorization", "Bearer gw_secret")] example_auth_world
    (example_models live).2 (example_models live).1 Hb Hrun) as [_ Hspec].
  match type of Hspec with match ?r with _ => _ end => destruct r as [identity|] end; [|rewrite Hs in Hspec; discriminate Hspec].
  destruct Hspec as (listed & Hr & _ & _ & Hres & _). exists listed. split; [reflexivity|]. split; [exact Hr|].
  split; [intros ->; exact (Hne Hr)|]. intros m Hm. exact (proj2 (Hres m Hm)).
Defined.
