(* ===== verification/Runtime.v ===== *)
(** * The process: [src/src/runtime.rs]

    Starting the gateway ([run] up to the listener) on the tables it finds, and
    the command line of the operations ([run_ops_cli]).  Both connect first,
    which replays every migration ([migrate]).  A start then installs the
    built-in presets, imports the configuration of the environment where it may,
    and serves what the tables say; starting again changes only what the
    replayed migrations repair, and once that is repaired nothing.

    The tables are those of a database that has been migrated before: of a new
    one, as its first migration leaves them.  So the scripts that run once
    (0022, 0023, 0026 and 0027 look for their own version) have run, the tables
    exist, and the legacy table [providers], which nothing writes, is empty.
    [migrate] is what the scripts do to the tables of the control plane each
    time; they also replay repairs of the usage, audit and key tables, which
    are not part of [ControlDb].

    Connecting, binding and the like are answers of [StartEnv]; the events that
    are recorded on the way cannot fail a start and are left out. *)

From Stdlib Require Import ZArith Lia Ascii.
From stdpp Require Import base list strings gmap.
From S2P Require Import Prelude.
From S2P Require Import RustStr.
From S2P Require Import Protocol.
From S2P Require Import BTree.
From S2P Require Import Tx.
From S2P Require Import Config.
From S2P Require Import SourceUrl.
From S2P Require Import Json.
From S2P Require Import Health.
From S2P Require Import Redaction.
From S2P Require Import Ops.
From S2P Require Import Cleanup.
From S2P Require Import Catalog.
From S2P Require Import Presets.
From S2P Require Import PresetDiff.
From S2P Require Import ModelCatalog.
From S2P Require Import CatalogProps.
From S2P Require Import Discovery.
From S2P Require Import Snapshot.
From S2P Require Import Secrets.
From S2P Require Import Http.
From S2P Require Import VirtualKeys.
From S2P Require Import Validation.
From S2P Require Import ControlDb.
From S2P Require Import ControlPlane.
From S2P Require Import Import.
From S2P Require Import ControlProps.
From S2P Require Import ControlTypes.
From S2P Require Import Backup.
From S2P Require Import Auth.
From S2P Require Import AdminGate.
From S2P Require Import OpsApi.

(** ** The migrations *)

(** [btrim(s) = '']. *)
Definition blank (s : string) : bool := is_empty (trim_start_matches (chr 32) s).

(** 0012: the health columns of an account. *)
Definition health_unset (h : HealthColumns) : bool :=
  negb (is_some (hx_updated_at h)) || (hx_consecutive_failures h <? 0) || blank (hx_source h).

Definition status_known (h : HealthColumns) : bool :=
  one_of (hx_status h) ["unknown"; "healthy"; "cooling_down"; "unhealthy"; "disabled"].

Definition fill_health (row : AccountRow) (h : HealthColumns) : HealthColumns :=
  if health_unset h
  then
    mkHealthColumns (hx_status h) (if blank (hx_source h) then "unknown" else hx_source h)
      (Some (unwrap_or (opt_or (hx_updated_at h) (hx_last_success_at h)) (ax_updated_at row)))
      (Z.max (hx_consecutive_failures h) 0) (hx_failure_window_started_at h) (hx_cooldown_until h) (hx_last_error h)
      (hx_last_success_at h) (hx_last_probe_at h) (hx_last_probe_status h) (hx_last_probe_error h)
  else h.

Definition reset_status (h : HealthColumns) : HealthColumns :=
  if status_known h then h
  else
    mkHealthColumns "unknown" (hx_source h) (hx_updated_at h) (hx_consecutive_failures h) (hx_failure_window_started_at h)
      (hx_cooldown_until h) (hx_last_error h) (hx_last_success_at h) (hx_last_probe_at h) (hx_last_probe_status h)
      (hx_last_probe_error h).

Definition repair_account (row : AccountRow) : AccountRow :=
  mkAccountRow (ax_source_id row) (ax_display_name row) (ax_credential_env row) (ax_credential_ciphertext row)
    (ax_enabled row) (ax_weight row) (reset_status (fill_health row (ax_health row))) (ax_created_at row) (ax_updated_at row).

(** The vendors whose sources are repaired. *)
Definition vendors : list string := ["minimax"; "deepseek"; "kimi_code"].

(** 0017: a custom source that is called like a vendor gets the latest preset
    of the vendor. *)
Definition vendor_preset (c : CatalogDb) (s : SourceRecord) : option ProviderPresetRecord :=
  if (so_provider_preset_id s =?s "custom") && one_of (so_id s) vendors
  then match latest_provider_preset (so_id s) c with Ok p => Some p | Err _ => None end
  else None.

Definition restore_preset (now : Z) (c : CatalogDb) (s : SourceRecord) : SourceRecord :=
  match vendor_preset c s with
  | Some p =>
      mkSourceRecord (so_id s) (so_display_name s) (pv_id p) (pv_version p) (pv_definition p) (so_base_url s)
        (so_endpoints s) (so_auth_config s) (so_protocol_capabilities s) (so_enabled s) (so_created_at s) now
  | None => s
  end.

(** 0021: a source of a vendor whose authentication is empty gets that of its
    preset. *)
Definition vendor_auth (c : CatalogDb) (s : SourceRecord) : option Value :=
  if one_of (so_provider_preset_id s) vendors && bool_decide (so_auth_config s = VObject [])
  then
    match cd_provider_presets c !! (so_provider_preset_id s, so_provider_preset_version s) with
    | Some p =>
        match get (pv_definition p) "credential_header" with
        | Some (VObject header) =>
            Some (VObject [("credential_header", VObject header);
                           ("default_headers", unwrap_or (get (pv_definition p) "default_headers") (VObject []))])
        | _ => None
        end
    | None => None
    end
  else None.

Definition restore_auth (now : Z) (c : CatalogDb) (s : SourceRecord) : SourceRecord :=
  match vendor_auth c s with
  | Some auth =>
      mkSourceRecord (so_id s) (so_display_name s) (so_provider_preset_id s) (so_provider_preset_version s)
        (so_provider_preset_snapshot s) (so_base_url s) (so_endpoints s) auth (so_protocol_capabilities s) (so_enabled s)
        (so_created_at s) now
  | None => s
  end.

(** 0003: the preset of custom sources. *)
Definition add_custom_preset (now : Z) (c : CatalogDb) : CatalogDb :=
  match cd_provider_presets c !! ("custom", 1) with
  | Some _ => c
  | None =>
      set_provider_presets c
        (<[("custom", 1) := mkProviderPresetRecord "custom" 1 "Custom" (VObject []) now]> (cd_provider_presets c))
  end.

(** [Database::migrate], in one transaction, whose clock stands at [now]. *)
Definition migrate_catalog (now : Z) (c : CatalogDb) : CatalogDb :=
  let c := add_custom_preset now c in
  let c := set_accounts_table c (repair_account <$> cd_accounts c) in
  let c := set_sources_table c (restore_preset now c <$> cd_sources c) in
  set_sources_table c (restore_auth now c <$> cd_sources c).

Definition migrate (now : Z) (db : ControlDb) : ControlDb := set_catalog db (migrate_catalog now (db_catalog db)).

(** There is nothing to repair. *)
Record settled (c : CatalogDb) : Prop := {
  se_custom : is_Some (cd_provider_presets c !! ("custom", 1));
  se_accounts : map_Forall (fun _ row => health_unset (ax_health row) = false /\ status_known (ax_health row) = true)
                  (cd_accounts c);
  se_sources : map_Forall (fun _ s => vendor_preset c s = None /\ vendor_auth c s = None) (cd_sources c);
}.

#[export] Instance settled_dec c : Decision (settled c).
Proof.
  refine (cast_if (decide (is_Some (cd_provider_presets c !! ("custom", 1))
    /\ map_Forall (fun _ row => health_unset (ax_health row) = false /\ status_known (ax_health row) = true) (cd_accounts c)
    /\ map_Forall (fun _ s => vendor_preset c s = None /\ vendor_auth c s = None) (cd_sources c)))).
  - destruct_and?. by split.
  - intros []. tauto.
Defined.

(** ** Starting *)

Inductive StartError : Type :=
| StBodyLimit (message : string) | StConnect (error : string) | StDatabaseRequired | StUrlPolicy (error : SourceUrlPolicyError)
| StConfigJson (error : string) | StImportWithoutConfig | StPresets (error : CatalogError) | StControl (error : ControlPlaneError)
| StListenAddr | StHealth | StHttpClient | StBind.

(** The environment of a start: its variables, and what the libraries answer. *)
Class StartEnv : Type := {
  st_var : string -> EnvVar;                               (** [std::env::var] *)
  st_connect : string -> result unit string;               (** connecting, and the transaction of the migrations *)
  st_migrated_at : Z;                                      (** its [NOW()] *)
  st_read_config : string -> result GatewayConfig string;  (** [serde_json::from_str] *)
  st_socket_addr : string -> bool;                         (** [listen_addr.parse::<SocketAddr>()] *)
  st_health_read : bool;
  st_http_client : bool;
  st_bind : bool;
}.

(** The parts of [AppState] that are decided here. *)
Record Started : Type := mkStarted {
  sd_snapshot : RuntimeSnapshot;
  sd_control : ControlPlane;
  sd_health : HealthConfig;
  sd_admin_auth : AdminAuth;
  sd_secrets : SecretResolver;
  sd_body_limit : Z;
}.

(** Reading the master keys may panic. *)
Inductive Start : Type := Serving (gateway : Started) | NotStarted (error : StartError) | StartPanicked.

Section Startup.
Context `{ErrorTexts} `{ControlEnv} `{BuildCfg} `{UrlCrates} `{Collation} `{PresetSerde} `{SerdeJson} `{Crypto} `{Sha256}
  {env : StartEnv}.

(** [std::env::var(name).ok()]. *)
Definition var_ok (name : string) : option string := match st_var name with Present value => Some value | _ => None end.

(** [SourceUrlPolicy::from_env]. *)
Definition policy_from_env : result SourceUrlPolicy SourceUrlPolicyError :=
  match st_var "GATEWAY_SOURCE_URL_ALLOWLIST" with
  | Present value => from_allowlist value
  | NotPresent => Ok SourceUrlPolicy_default
  | NotUnicode => Err InvalidAllowlist
  end.

(** [Database::connect_from_env] and [connect]: the migrated tables; those of
    a transaction that fails are rolled back. *)
Definition connect_from_env (db : ControlDb) : result unit StartError * ControlDb :=
  match var_ok "DATABASE_URL" with
  | None => (Err StDatabaseRequired, db)
  | Some url =>
      match st_connect url with
      | Err error => (Err (StConnect error), db)
      | Ok _ => (Ok tt, migrate st_migrated_at db)
      end
  end.

Definition force_import : bool :=
  is_some_and (var_ok "GATEWAY_CONFIG_IMPORT") (fun value => one_of value ["1"; "true"; "TRUE"; "yes"]).

(** The configuration to import, if any. *)
Definition bootstrap_config (should_import : bool) : result (option GatewayConfig) StartError :=
  if should_import
  then
    match opt_filter (fun raw => negb (is_empty (trim raw))) (var_ok "GATEWAY_CONFIG_JSON") with
    | Some raw => map_err StConfigJson (let? config := st_read_config raw in Ok (Some config))
    | None => if force_import then Err StImportWithoutConfig else Ok None
    end
  else Ok None.

Definition listen_addr (bootstrap : option GatewayConfig) : string :=
  match var_ok "GATEWAY_LISTEN_ADDR", bootstrap with
  | Some explicit, _ => explicit
  | None, Some config => gc_listen_addr config
  | None, None => "127.0.0.1:8787"
  end.

(** What is read before the tables are written, the migrations apart. *)
Definition start_settings (db : ControlDb) : result (Z * SourceUrlPolicy * option GatewayConfig) StartError * ControlDb :=
  match map_err StBodyLimit (max_request_body_bytes_from_env (st_var "GATEWAY_MAX_REQUEST_BODY_BYTES")) with
  | Err error => (Err error, db)
  | Ok limit =>
      let '(connected, db) := connect_from_env db in
      (let? _ := connected in
       let? policy := map_err StUrlPolicy policy_from_env in
       let? bootstrap := bootstrap_config (force_import || control_plane_is_empty db) in
       Ok (limit, policy, bootstrap), db)
  end.

(** The first snapshot: of an import, or of the tables. *)
Definition first_snapshot (cp : ControlPlane) (bootstrap : option GatewayConfig) (db : ControlDb)
    : result RuntimeSnapshot ControlPlaneError * ControlDb :=
  match bootstrap with
  | Some config =>
      match initialize_from_config cp config force_import db with
      | (Ok (Some snapshot), db) => (Ok snapshot, db)
      | (Ok None, db) => (load_snapshot cp db, db)
      | (Err error, db) => (Err error, db)
      end
  | None => (load_snapshot cp db, db)
  end.

(** What is checked after the snapshot is built. *)
Definition assemble (snapshot : RuntimeSnapshot) (cp : ControlPlane) (limit : Z) : Start :=
  if negb (st_socket_addr (cp_listen_addr cp)) then NotStarted StListenAddr
  else if negb st_health_read then NotStarted StHealth
  else
    match SecretResolver_from_env var_ok with
    | Panic => StartPanicked
    | Returns secrets =>
        if negb st_http_client then NotStarted StHttpClient
        else if negb st_bind then NotStarted StBind
        else
          Serving (mkStarted snapshot cp (HealthConfig_normalized (HealthConfig_from_env var_ok))
                     (AdminAuth_from_env (var_ok "GATEWAY_ADMIN_KEY"))
                     (match secrets with Ok secrets => secrets | Err _ => SecretResolver_empty end) limit)
    end.

Definition run (db : ControlDb) : Start * ControlDb :=
  match start_settings db with
  | (Err error, db) => (NotStarted error, db)
  | (Ok (limit, policy, bootstrap), db) =>
      let '(installed, catalog) := install_builtin_presets ce_now (db_catalog db) in
      let db := set_catalog db catalog in
      match installed with
      | Err error => (NotStarted (StPresets error), db)
      | Ok _ =>
          let cp := mkControlPlane (listen_addr bootstrap) policy in
          match first_snapshot cp bootstrap db with
          | (Err error, db) => (NotStarted (StControl error), db)
          | (Ok snapshot, db) => (assemble snapshot cp limit, db)
          end
      end
  end.
End Startup.

(** ** What the migrations leave *)

(** A row that was repaired needs no repair. *)
Lemma latest_id id c p : latest_provider_preset id c = Ok p -> pv_id p = id.
Proof.
  unfold latest_provider_preset. intros Hp.
  assert (forall l, match foldr (fun (kv : (string * Z) * ProviderPresetRecord) best =>
       if pv_id kv.2 =?s id then
         match best with
         | Some b => if pv_version b <? pv_version kv.2 then Some kv.2 else Some b
         | None => Some kv.2
         end
       else best) None l with Some q => pv_id q = id | None => True end) as Hall.
  { induction l as [|kv l IH]; cbn [foldr]; [done|]. destruct (String.eqb_spec (pv_id kv.2) id) as [Hk|]; [|done].
    destruct (foldr _ None l) as [b|]; [|done]. by destruct (_ <? _). }
  specialize (Hall (map_to_list (cd_provider_presets c))). destruct (foldr _ None _); [|done]. by injection Hp as <-.
Qed.

Lemma vendor_not_custom id : one_of id vendors = true -> (id =?s "custom") = false.
Proof. destruct (String.eqb_spec id "custom") as [->|]; [by vm_compute|done]. Qed.

Lemma restored_preset now c s : vendor_preset c (restore_preset now c s) = None.
Proof.
  unfold restore_preset. destruct (vendor_preset c s) as [p|] eqn:E; [|done]. revert E. unfold vendor_preset.
  destruct ((_ =?s _) && one_of (so_id s) vendors) eqn:Ec; [|done]. apply andb_true_iff in Ec as [_ Hv].
  destruct (latest_provider_preset (so_id s) c) as [q|] eqn:Eq; [|done]. intros [= <-]. apply latest_id in Eq.
  cbn [so_provider_preset_id so_id]. by rewrite Eq, (vendor_not_custom _ Hv).
Qed.

Lemma restored_auth now c s : vendor_auth c (restore_auth now c s) = None.
Proof.
  unfold restore_auth. destruct (vendor_auth c s) as [auth|] eqn:E; [|done]. revert E. unfold vendor_auth at 1.
  destruct (_ && _); [|done]. destruct (cd_provider_presets c !! _) as [p|]; [|done].
  destruct (get (pv_definition p) "credential_header") as [[]|]; [done..| |done]. intros [= <-].
  unfold vendor_auth. cbn [so_auth_config]. rewrite bool_decide_false by done. by rewrite andb_false_r.
Qed.

(** What a source is repaired to depends on the presets only. *)
Lemma vendor_preset_presets c c' s : cd_provider_presets c' = cd_provider_presets c -> vendor_preset c' s = vendor_preset c s.
Proof. intros Hc. unfold vendor_preset, latest_provider_preset. by rewrite Hc. Qed.
Lemma vendor_auth_presets c c' s : cd_provider_presets c' = cd_provider_presets c -> vendor_auth c' s = vendor_auth c s.
Proof. intros Hc. unfold vendor_auth. by rewrite Hc. Qed.

Lemma auth_keeps_preset now c s : vendor_preset c (restore_auth now c s) = vendor_preset c s.
Proof. unfold restore_auth. by destruct (vendor_auth c s). Qed.

Lemma repaired_source now c c' c'' s :
  cd_provider_presets c' = cd_provider_presets c -> cd_provider_presets c'' = cd_provider_presets c ->
  let s' := restore_auth now c' (restore_preset now c s) in vendor_preset c'' s' = None /\ vendor_auth c'' s' = None.
Proof.
  cbv zeta. intros Hc Hc'. split.
  - rewrite (vendor_preset_presets c') by congruence. rewrite auth_keeps_preset, (vendor_preset_presets c) by done.
    apply restored_preset.
  - rewrite (vendor_auth_presets c') by congruence. apply restored_auth.
Qed.

Lemma repaired_account row :
  health_unset (ax_health (repair_account row)) = false /\ status_known (ax_health (repair_account row)) = true.
Proof.
  assert (forall h, health_unset (reset_status h) = health_unset h) as Hr by (intros h; unfold reset_status; by destruct (status_known h)).
  unfold repair_account. cbn [ax_health]. rewrite Hr. split.
  - unfold fill_health. destruct (health_unset (ax_health row)) eqn:E; [|done]. unfold health_unset.
    cbn [hx_updated_at hx_consecutive_failures hx_source is_some negb orb].
    rewrite (proj2 (Z.ltb_ge (Z.max _ _) _)) by lia. cbn [orb].
    by destruct (blank (hx_source _)) eqn:Eb.
  - unfold reset_status. by destruct (status_known (fill_health _ _)) eqn:E.
Qed.

Lemma custom_added now c : is_Some (cd_provider_presets (add_custom_preset now c) !! ("custom", 1)).
Proof.
  unfold add_custom_preset. destruct (cd_provider_presets c !! ("custom", 1)) eqn:E; [by rewrite E|].
  cbn [cd_provider_presets set_provider_presets]. by rewrite lookup_insert_eq.
Qed.

Lemma migrate_settled now db : settled (db_catalog (migrate now db)).
Proof.
  cbn [db_catalog migrate set_catalog]. unfold migrate_catalog. set (c := add_custom_preset now (db_catalog db)).
  split; cbn [cd_provider_presets cd_accounts cd_sources set_sources_table set_accounts_table].
  - apply custom_added.
  - intros id row [row0 [<- _]]%lookup_fmap_Some. apply repaired_account.
  - intros id s [s0 [<- [s1 [<- _]]%lookup_fmap_Some]]%lookup_fmap_Some. apply repaired_source; done.
Qed.

Lemma fmap_fixed {V} (f : V -> V) (m : gmap string V) : map_Forall (fun _ x => f x = x) m -> f <$> m = m.
Proof. intros Hm. apply map_eq. intros k. rewrite lookup_fmap. destruct (m !! k) as [x|] eqn:E; [|done]. cbn. f_equal. by eapply Hm. Qed.

Lemma settled_account row : health_unset (ax_health row) = false -> status_known (ax_health row) = true -> repair_account row = row.
Proof.
  intros Hh Hs. unfold repair_account, fill_health. rewrite Hh. unfold reset_status. rewrite Hs. by destruct row.
Qed.

Lemma settled_migrate now db : settled (db_catalog db) -> migrate now db = db.
Proof.
  intros [[p Hp] Ha Hs]. unfold migrate, migrate_catalog.
  assert (add_custom_preset now (db_catalog db) = db_catalog db) as -> by (unfold add_custom_preset; by rewrite Hp).
  assert (repair_account <$> cd_accounts (db_catalog db) = cd_accounts (db_catalog db)) as ->.
  { apply fmap_fixed. intros id row [Hh Hk]%Ha. by apply settled_account. }
  replace (set_accounts_table (db_catalog db) (cd_accounts (db_catalog db))) with (db_catalog db) by (by destruct (db_catalog db)).
  assert (restore_preset now (db_catalog db) <$> cd_sources (db_catalog db) = cd_sources (db_catalog db)) as ->.
  { apply fmap_fixed. intros id s [Hv _]%Hs. unfold restore_preset. by rewrite Hv. }
  replace (set_sources_table (db_catalog db) (cd_sources (db_catalog db))) with (db_catalog db) by (by destruct (db_catalog db)).
  assert (restore_auth now (db_catalog db) <$> cd_sources (db_catalog db) = cd_sources (db_catalog db)) as ->.
  { apply fmap_fixed. intros id s [_ Hv]%Hs. unfold restore_auth. by rewrite Hv. }
  by destruct db as [[]].
Qed.

(** The repairs add and remove no row of what makes the control plane empty. *)
Lemma migrate_empty now db : control_plane_is_empty (migrate now db) = control_plane_is_empty db.
Proof.
  unfold control_plane_is_empty, row_count, db_sources, db_accounts, migrate, migrate_catalog.
  cbn [db_catalog db_logical_models db_bindings db_routes set_catalog cd_sources cd_accounts set_sources_table set_accounts_table].
  rewrite !map_size_fmap. unfold add_custom_preset. by destruct (cd_provider_presets (db_catalog db) !! _).
Qed.

(** ** What a start leaves *)

Definition same_presets : relation ControlDb := fun db db' =>
  cd_provider_presets (db_catalog db') = cd_provider_presets (db_catalog db)
  /\ cd_model_presets (db_catalog db') = cd_model_presets (db_catalog db).

#[export] Instance same_presets_preorder : PreOrder same_presets.
Proof. split; [by intros db|]. intros x y z [? ?] [? ?]. split; congruence. Qed.

Section Imports.
Context `{ErrorTexts} `{ControlEnv} `{BuildCfg} `{UrlCrates} `{Collation} `{PresetSerde}.

Notation preset_free := (respects same_presets).
Ltac leaves_presets := respects_auto; apply respects_write; done.

Lemma presets_insert_source row : preset_free (insert_source row).
Proof. unfold insert_source. leaves_presets. Qed.
Lemma presets_insert_account id row : preset_free (insert_account id row).
Proof. unfold insert_account. leaves_presets. Qed.
Lemma presets_put_logical_model row : preset_free (put_logical_model row).
Proof. unfold put_logical_model. leaves_presets. Qed.
Lemma presets_put_binding row seq : preset_free (put_binding row seq).
Proof. unfold put_binding. leaves_presets. Qed.
Lemma presets_insert_route row : preset_free (insert_route row).
Proof. unfold insert_route, put_route. leaves_presets. Qed.
Lemma presets_put_capability s u p mode sp a f : preset_free (put_imported_capability s u p mode sp a f).
Proof. unfold put_imported_capability. leaves_presets. Qed.
#[local] Hint Resolve presets_insert_source presets_insert_account presets_put_logical_model presets_put_binding
  presets_insert_route presets_put_capability : control.

Lemma presets_for_all {A} (f : A -> ControlTx unit) l : (forall x, preset_free (f x)) -> preset_free (for_all f l).
Proof. intros Hf. induction l as [|x l IH]; cbn [for_all]; respects_auto. Qed.

Lemma presets_import_line config route id model index account_id :
  preset_free (import_line config route id model index account_id).
Proof.
  unfold import_line, ensure_imported_source_model. respects_auto; [by apply respects_write|].
  apply presets_for_all. intros p. unfold ensure_imported_capability, ensure_imported_native_capability, put_imported_binding,
    insert_binding, update_binding. respects_auto.
Qed.

(** An import does not touch the presets. *)
Lemma presets_import config : preset_free (import_gateway_config config).
Proof.
  unfold import_gateway_config. respects_auto; apply presets_for_all; intros item.
  - unfold import_provider. respects_auto.
  - unfold import_account. respects_auto.
  - unfold import_route. respects_auto. apply presets_for_all. intros [index model]. unfold import_model, import_logical_model,
      insert_logical_model. respects_auto. apply presets_for_all. intros line. apply presets_import_line.
Qed.

Lemma presets_initialize self config force db : same_presets db (initialize_from_config self config force db).2.
Proof.
  unfold initialize_from_config, checked. destruct (check_config _ _); [|done].
  apply (run_tx_preserves (fun db' => same_presets db db')); [done|]. intros x db' Hx.
  assert (preset_free (let$ empty := tx_read control_plane_is_empty in
     if negb empty && negb force then tx_ret None
     else
       let$ _ := if force && negb empty then tx_write delete_all else tx_ret tt in
       let$ _ := import_gateway_config config in
       let$ snapshot := finish_write self in
       tx_ret (Some snapshot))) as Hfree.
  { respects_auto; [apply respects_write; done|apply presets_import|]. unfold finish_write. leaves_presets. }
  by apply Hfree in Hx.
Qed.
End Imports.

Section StartProps.
Context `{ErrorTexts} `{ControlEnv} `{BuildCfg} `{UrlCrates} `{Collation} `{PresetSerde} `{SerdeJson} `{Crypto} `{Sha256}.

(** Nothing but presets was added. *)
Definition only_presets (db db' : ControlDb) : Prop :=
  presets_extend (db_catalog db) (db_catalog db') /\ db' = set_catalog db (db_catalog db').

Lemma only_presets_refl db : only_presets db db.
Proof. split; [reflexivity|]. by destruct db. Qed.

Lemma only_presets_catalog db catalog : presets_extend (db_catalog db) catalog -> only_presets db (set_catalog db catalog).
Proof. by split. Qed.

Lemma first_snapshot_loads {env : StartEnv} cp bootstrap db s db' :
  first_snapshot cp bootstrap db = (Ok s, db') -> load_snapshot cp db' = Ok s.
Proof.
  unfold first_snapshot. destruct bootstrap as [config|]; [|by intros [= ? <-]].
  pose proof (atomic_initialize cp config force_import db) as Ha. cbv beta in Ha.
  destruct (initialize_from_config _ _ _ _) as [[[s'|]|e] d]; intros [= ? <-]; [|done].
  destruct Ha as (_ & _ & Hl). congruence.
Qed.

Lemma first_snapshot_presets {env : StartEnv} cp bootstrap db : same_presets db (first_snapshot cp bootstrap db).2.
Proof.
  unfold first_snapshot. destruct bootstrap as [config|]; [|done].
  pose proof (presets_initialize cp config force_import db) as Hp.
  by destruct (initialize_from_config _ _ _ _) as [[[s'|]|e] d].
Qed.

Lemma first_snapshot_failed {env : StartEnv} cp bootstrap db e db' : first_snapshot cp bootstrap db = (Err e, db') -> db' = db.
Proof.
  unfold first_snapshot. destruct bootstrap as [config|]; [|by intros [= _ <-]].
  pose proof (atomic_initialize cp config force_import db) as Ha. cbv beta in Ha.
  by destruct (initialize_from_config _ _ _ _) as [[[s'|]|e'] d]; intros [= _ <-].
Qed.

Lemma installed_same db db' : same_presets db db' -> builtins_installed (db_catalog db) -> builtins_installed (db_catalog db').
Proof.
  intros [Hp Hm] (ps & ms & Hps & Hms & Hall & Hall'). exists ps, ms. split; [done|]. split; [done|]. split.
  - eapply Forall_impl; [exact Hall|]. intros p. unfold provider_installed. by rewrite Hp.
  - eapply Forall_impl; [exact Hall'|]. intros m. unfold model_installed. by rewrite Hm.
Qed.

Lemma installed_migrate now db : builtins_installed (db_catalog db) -> builtins_installed (db_catalog (migrate now db)).
Proof.
  assert (cd_provider_presets (db_catalog db) ⊆ cd_provider_presets (db_catalog (migrate now db))) as Hsub.
  { cbn. unfold add_custom_preset. destruct (_ !! _) eqn:E; [done|]. by apply insert_subseteq. }
  assert (cd_model_presets (db_catalog (migrate now db)) = cd_model_presets (db_catalog db)) as Hm.
  { cbn. unfold add_custom_preset. by destruct (_ !! _). }
  intros (ps & ms & Hps & Hms & Hall & Hall'). exists ps, ms. split; [done|]. split; [done|]. split.
  - eapply Forall_impl; [exact Hall|]. intros q (Hv & Ho & row & Hrow & Hr). split; [done|]. split; [done|].
    exists row. split; [by eapply lookup_weaken|done].
  - eapply Forall_impl; [exact Hall'|]. intros m. unfold model_installed. by rewrite Hm.
Qed.

Notation migrated env db := (migrate (st_migrated_at (StartEnv := env)) db).

Lemma connected {env : StartEnv} db :
  match connect_from_env db with
  | (Ok _, db1) => db1 = migrated env db
  | (Err error, db1) => db1 = db /\ forall e, error <> StControl e
  end.
Proof. unfold connect_from_env. destruct (var_ok _) as [url|]; [|done]. by destruct (st_connect url). Qed.

(** What is read leaves the migrated tables; without the right to import it
    finds no configuration. *)
Lemma settings {env : StartEnv} db :
  match start_settings db with
  | (Ok (_, _, bootstrap), db1) =>
      db1 = migrated env db /\ (control_plane_is_empty db = false -> force_import = false -> bootstrap = None)
  | (Err error, db1) => (db1 = db \/ db1 = migrated env db) /\ forall e, error <> StControl e
  end.
Proof.
  unfold start_settings. destruct (max_request_body_bytes_from_env _) as [limit|]; [|by split; [left|]]. cbn [map_err].
  pose proof (connected db) as Hc. destruct (connect_from_env db) as [[u|e] db1]; cbn [rbind]; [subst db1|by destruct Hc; split; [left|]].
  rewrite migrate_empty. destruct policy_from_env as [policy|]; [|by split; [right|]]. cbn [map_err rbind].
  destruct (bootstrap_config _) as [bootstrap|e] eqn:Eb; cbn [rbind].
  - split; [done|]. intros He Hf. revert Eb. rewrite He, Hf. by intros [= <-].
  - split; [by right|]. intros x ->. revert Eb. unfold bootstrap_config. destruct (_ || _); [|done].
    destruct (opt_filter _ _) as [raw|]; [by destruct (st_read_config raw)|]. by destruct force_import.
Qed.

Lemma assemble_serving {env : StartEnv} s cp limit g : assemble s cp limit = Serving g -> sd_snapshot g = s /\ sd_control g = cp.
Proof.
  unfold assemble. destruct (negb _); [done|]. destruct (negb _); [done|]. destruct (SecretResolver_from_env _); [done|].
  destruct (negb _); [done|]. destruct (negb _); [done|]. by intros [= <-].
Qed.

(** A start on tables with the presets and no right to import migrates them and
    loads them. *)
Lemma plain_start {env : StartEnv} db : control_plane_is_empty db = false -> force_import = false ->
  builtins_installed (db_catalog db) ->
  ((run db).2 = db \/ (run db).2 = migrated env db)
  /\ forall g, (run db).1 = Serving g ->
       (run db).2 = migrated env db /\ load_snapshot (sd_control g) (migrated env db) = Ok (sd_snapshot g).
Proof.
  intros He Hf Hi. unfold run. pose proof (settings db) as Hs.
  destruct (start_settings db) as [[[[limit policy] bootstrap]|e] db1]; [|by destruct Hs].
  destruct Hs as [-> Hb]. rewrite (Hb He Hf). rewrite (install_again _ _ (installed_migrate _ _ Hi)).
  replace (set_catalog _ (db_catalog (migrated env db))) with (migrated env db) by (by destruct (migrated env db)).
  cbn [first_snapshot]. destruct (load_snapshot _ (migrated env db)) as [s|e] eqn:El; [|by split; [right|]].
  split; [by right|]. cbn [fst snd]. intros g [-> ->]%assemble_serving. done.
Qed.

(** C16. Starting is safe to repeat.  Whatever becomes of a start, tables with
    content are left as they are, apart from the repairs of the migrations that
    every start replays and presets that are added, unless an import is forced;
    if the snapshot cannot be built, nothing of an import remains; and where
    there is nothing to repair, no row is changed by the migrations.  A
    gateway that starts serves the snapshot its tables answer to the next load.
    Starting it again on these tables, if they have content, in any environment
    that does not force an import, changes nothing but what the migrations
    repair, and nothing at all if there is nothing to repair; when it serves,
    it serves the snapshot of the tables it leaves, in which there is nothing
    to repair any more, so that every later such start changes nothing; and if there
    was nothing to repair and the listen address and URL policy are the same, it
    serves the very same snapshot.  The tables are those of the control plane,
    of a database that some start has migrated before; nothing else writes to
    them during a start. *)
Theorem startup_is_repeatable (env env' : StartEnv) db outcome db1 :
  run (env := env) db = (outcome, db1) ->
  (control_plane_is_empty db = false -> force_import (env := env) = false -> db1 = db \/ only_presets (migrated env db) db1)
  /\ (forall error, outcome = NotStarted (StControl error) -> only_presets (migrated env db) db1)
  /\ (settled (db_catalog db) -> migrated env db = db)
  /\ (forall g, outcome = Serving g ->
        load_snapshot (sd_control g) db1 = Ok (sd_snapshot g)
        /\ (control_plane_is_empty db1 = false -> force_import (env := env') = false ->
            let '(outcome', db2) := run (env := env') db1 in
            (db2 = db1 \/ db2 = migrated env' db1)
            /\ (settled (db_catalog db1) -> db2 = db1)
            /\ forall g', outcome' = Serving g' ->
                 load_snapshot (sd_control g') db2 = Ok (sd_snapshot g')
                 /\ settled (db_catalog db2)
                 /\ (settled (db_catalog db1) -> sd_control g' = sd_control g -> sd_snapshot g' = sd_snapshot g))).
Proof.
  intros Hrun. pose proof (settled_migrate (st_migrated_at (StartEnv := env)) db) as Hsettled.
  unfold run in Hrun. pose proof (settings (env := env) db) as Hset.
  destruct (start_settings (env := env) db) as [[[[limit policy] bootstrap]|e] db0].
  2: { injection Hrun as <- <-. destruct Hset as [Hdb He]. split; [|by split; [intros x [= ->]; destruct (He x)|]].
       intros _ _. destruct Hdb as [->| ->]; [by left|right; apply only_presets_refl]. }
  destruct Hset as [-> Hboot]. pose proof (install_extends ce_now (db_catalog (migrated env db))) as Hext.
  destruct (install_builtin_presets ce_now (db_catalog (migrated env db))) as [[u|e] catalog] eqn:Ei; cbn [snd] in Hext.
  2: { injection Hrun as <- <-. by split; [intros; right; apply only_presets_catalog|]. }
  pose proof (install_ok _ _ _ _ Ei) as Hinst. set (cp := mkControlPlane _ policy) in Hrun.
  pose proof (first_snapshot_presets (env := env) cp bootstrap (set_catalog (migrated env db) catalog)) as Hsame.
  destruct (first_snapshot (env := env) cp bootstrap (set_catalog (migrated env db) catalog)) as [[s|e] d] eqn:Ef;
    injection Hrun as <- <-; cbn [snd] in Hsame.
  2: { apply first_snapshot_failed in Ef as ->. split; [by intros; right; apply only_presets_catalog|].
       split; [|done]. by intros; apply only_presets_catalog. }
  pose proof (first_snapshot_loads _ _ _ _ _ Ef) as Hload. split; [|split; [|split; [done|]]].
  - intros He Hf. right. rewrite (Hboot He Hf) in Ef. injection Ef as _ <-. by apply only_presets_catalog.
  - intros error Ha. unfold assemble in Ha. destruct (negb _); [done|]. destruct (negb _); [done|].
    destruct (SecretResolver_from_env _); [done|]. destruct (negb _); [done|]. by destruct (negb _).
  - intros g Hg%assemble_serving. destruct Hg as [-> ->]. split; [exact Hload|]. intros He Hf.
    destruct (plain_start (env := env') d He Hf) as [Hd Hs]; [by eapply installed_same|].
    destruct (run (env := env') d) as [outcome' db2]. cbn [fst snd] in *. split; [done|]. split.
    + intros Hsd. destruct Hd as [->| ->]; [done|by apply settled_migrate].
    + intros g' Hg'. destruct (Hs g' Hg') as [-> Hl]. split; [done|]. split; [apply migrate_settled|].
      intros Hsd Hcp. rewrite (settled_migrate _ _ Hsd), Hcp in Hl. congruence.
Qed.
End StartProps.

(** ** Examples *)

(** A machine on which everything works, with some variables. *)
Definition example_start (vars : list (string * string)) (config : GatewayConfig) : StartEnv :=
  {| st_var name := match hm_get vars name with Some value => Present value | None => NotPresent end;
     st_connect _ := Ok tt; st_migrated_at := 5; st_read_config _ := Ok config; st_socket_addr _ := true; st_health_read := true;
     st_http_client := true; st_bind := true |}.

Definition example_import : GatewayConfig :=
  mkGatewayConfig "0.0.0.0:80" [mkProviderConfig "p" "P" "https://api.deepseek.com" ["m"] [OpenAiChatCompletions]
    [(OpenAiChatCompletions, "/v1")] Capabilities_native [] []] [] [].

Section Examples.
Local Existing Instances example_errors example_control_env any_url blank_serde json_concrete mock_crypto.
Local Instance example_start_cfg : BuildCfg := false.
Local Instance example_start_order : Collation := str_cmp.
Local Instance example_start_sha : Sha256 := fun s => s.

Definition example_vars : list (string * string) :=
  [("DATABASE_URL", "postgres://"); ("GATEWAY_CONFIG_JSON", "{}"); ("GATEWAY_SOURCE_URL_ALLOWLIST", "upstream")].
Definition example_env : StartEnv := example_start example_vars example_import.
(** A migrated database. *)
Definition example_migrated : ControlDb :=
  mkControlDb (mkCatalogDb {[ ("custom", 1) := mkProviderPresetRecord "custom" 1 "Custom" (VObject []) 0 ]} ∅ ∅ ∅ ∅ ∅ [] [])
    ∅ ∅ ∅ [] 0 0 0.
Definition example_first : Start * ControlDb := run (env := example_env) example_migrated.
Definition example_listening : StartEnv := example_start (("GATEWAY_LISTEN_ADDR", "0.0.0.0:80") :: example_vars) example_import.

Definition started_at (s : Start) : option string :=
  match s with Serving g => Some (cp_listen_addr (sd_control g)) | _ => None end.

(** The first start imports the configuration, the second one loads it. *)
Lemma startup_is_repeatable_witness :
  exists g g', example_first.1 = Serving g /\ (run (env := example_listening) example_first.2).1 = Serving g'
    /\ sd_snapshot g' = sd_snapshot g /\ (run (env := example_listening) example_first.2).2 = example_first.2.
Proof.
  assert (run (env := example_env) example_migrated = (example_first.1, example_first.2)) as Hrun by apply surjective_pairing.
  destruct (startup_is_repeatable example_env example_listening example_migrated example_first.1 example_first.2 Hrun)
    as (_ & _ & _ & Hs).
  assert (exists g, example_first.1 = Serving g) as [g Hg] by (eexists; vm_compute; reflexivity).
  assert (control_plane_is_empty example_first.2 = false) as He by (vm_compute; reflexivity).
  assert (force_import (env := example_listening) = false) as Hf by (vm_compute; reflexivity).
  assert (exists g', (run (env := example_listening) example_first.2).1 = Serving g'
    /\ sd_control g' = match example_first.1 with Serving g => sd_control g | _ => sd_control g' end) as (g' & Hg' & Hc)
    by (eexists; split; vm_compute; reflexivity).
  assert (settled (db_catalog example_first.2)) as Hset by (apply (bool_decide_unpack _); vm_compute; exact I).
  rewrite Hg in Hc. destruct (Hs g Hg) as [_ Hagain]. specialize (Hagain He Hf).
  destruct (run (env := example_listening) example_first.2) as [outcome' db2]. destruct Hagain as (_ & Hdb & Hserves).
  destruct (Hserves g' Hg') as (_ & _ & Hsame).
  exists g, g'. split; [exact Hg|]. split; [exact Hg'|]. split; [exact (Hsame Hset Hc)|exact (Hdb Hset)].
Defined.

(** An ordinary start rewrites a custom source that is called like a vendor:
    its preset and the snapshot of it.  The next start changes nothing more. *)
Definition example_own_source : SourceRecord :=
  mkSourceRecord "deepseek" "Own" "custom" 1 (VObject [("base_url", VString "https://upstream/own")]) "https://upstream/own"
    (VObject []) (VObject [("credential_header", VObject [])]) (VObject []) true 1 1.
Definition example_with_own : ControlDb :=
  set_sources example_first.2 (<["deepseek" := example_own_source]> (db_sources example_first.2)).

Example start_rewrites_a_source :
  let db := (run (env := example_listening) example_with_own).2 in
  (fun s => (so_provider_preset_id s, so_provider_preset_version s, so_updated_at s)) <$> db_sources db !! "deepseek"
    = Some ("deepseek", 3, 5)
  /\ bool_decide (so_provider_preset_snapshot <$> db_sources db !! "deepseek"
                  = Some (so_provider_preset_snapshot example_own_source)) = false
  /\ bool_decide (settled (db_catalog example_with_own)) = false /\ bool_decide (settled (db_catalog db)) = true.
Proof. vm_compute. auto. Qed.

(** The listen address of an imported configuration is not kept: the first
    start uses it, the next one does not read the configuration any more. *)
Example imported_listen_address_is_lost :
  started_at example_first.1 = Some "0.0.0.0:80"
  /\ started_at (run (env := example_env) example_first.2).1 = Some "127.0.0.1:8787".
Proof. vm_compute. auto. Qed.
End Examples.

(** ** The command line of the operations *)

Inductive CliError : Type := CliText (message : string) | CliOps (error : OpsError) | CliStart (error : StartError).

(** What a command prints, or writes to a file. *)
Inductive CliOutput : Type := Printed (value : Value) | Written (path : string) (value : Value).

Inductive CliJob : Type := RetentionJob (job : Om RetentionDb CliOutput) | BackupJob (job : Om BackupDb CliOutput).

(** The texts of errors, and the file system. *)
Class CliEnv : Type := {
  cl_int_error : string -> string;
  cl_json_error : string -> string;
  cl_shape_error : Value -> string;
  cl_read_file : string -> result string string;
}.

Definition ops_cli_usage : string :=
  "usage: cargo run -- ops <retention-cleanup|retention-cancel|retention-retry|retention-policies|retention-policy-set|"
  +:+ "control-plane-export|control-plane-import>".

(** [args.windows(2)]: the value after the first occurrence that has one. *)
Fixpoint cli_option (args : list string) (name : string) : option string :=
  match args with
  | option :: ((value :: _) as rest) => if option =?s name then Some value else cli_option rest name
  | _ => None
  end.

Section Cli.
Context `{ErrorTexts} `{ControlEnv} `{BuildCfg} `{UrlCrates} `{Collation} `{UrlEdit} `{SnapshotJson} `{SerdeJson} `{Sha256}
  `{RowJson} `{Rfc3339} `{OperationJson} {start_env : StartEnv} `{CliEnv} {renv : OpsEnv RetentionDb} {benv : OpsEnv BackupDb}.
Context (export_to_value : ControlPlaneExport -> Value).

Definition parse_i32 (value : string) : result Z CliError :=
  ok_or (parse_int (- 2 ^ 31) I32_MAX value) (CliText (cl_int_error value)).

(** One option with a value. *)
Definition set_cleanup_option (option value : string) (r : CleanupRequest) : result CleanupRequest CliError :=
  if option =?s "--batch-size"
  then let? n := parse_i32 value in
       Ok (mkCleanupRequest (cq_dry_run r) n (cq_max_batches r) (cq_operation_id r) (cq_requested_by r) (cq_policy_keys r))
  else if option =?s "--max-batches"
  then let? n := parse_i32 value in
       Ok (mkCleanupRequest (cq_dry_run r) (cq_batch_size r) n (cq_operation_id r) (cq_requested_by r) (cq_policy_keys r))
  else if option =?s "--operation-id"
  then Ok (mkCleanupRequest (cq_dry_run r) (cq_batch_size r) (cq_max_batches r) (Some value) (cq_requested_by r) (cq_policy_keys r))
  else Ok (mkCleanupRequest (cq_dry_run r) (cq_batch_size r) (cq_max_batches r) (cq_operation_id r) (Some value) (cq_policy_keys r)).

Fixpoint cleanup_options (args : list string) (r : CleanupRequest) : result CleanupRequest CliError :=
  match args with
  | [] => Ok r
  | option :: args =>
      if option =?s "--dry-run"
      then cleanup_options args
             (mkCleanupRequest true (cq_batch_size r) (cq_max_batches r) (cq_operation_id r) (cq_requested_by r) (cq_policy_keys r))
      else if one_of option ["--batch-size"; "--max-batches"; "--operation-id"; "--requested-by"]
      then
        match args with
        | [] => Err (CliText (option +:+ " requires a value"))
        | value :: args => let? r := set_cleanup_option option value r in cleanup_options args r
        end
      else Err (CliText ("unknown retention-cleanup option '" +:+ option +:+ "'"))
  end.

Definition printing {D A} (job : Om D A) (print : A -> CliOutput) : Om D CliOutput := o_bind job (fun x => o_ret (print x)).

(** The control plane of the export and the import. *)
Definition cli_control_plane : result ControlPlane CliError :=
  let? policy := map_err (fun error => CliStart (StUrlPolicy error)) policy_from_env in
  Ok (mkControlPlane (unwrap_or (var_ok "GATEWAY_LISTEN_ADDR") "127.0.0.1:8787") policy).

(** What an import reads from its file. *)
Definition read_cli_import (args : list string) (payload : Value) : result (bool * string * ControlPlaneExport) CliError :=
  let replace := unwrap_or (get payload "replace" ≫= as_bool) false || existsb (String.eqb "--replace") args in
  let requested_by := unwrap_or (get payload "requested_by" ≫= as_str) "cli" in
  let value := unwrap_or (get payload "data") payload in
  let? export := ok_or (read_export value) (CliText (cl_shape_error value)) in
  let? _ := match get payload "checksum" ≫= as_str with
            | Some expected =>
                let? actual := map_err CliOps (export_checksum export_to_value export) in
                if actual =?s expected then Ok tt else Err (CliText "control-plane export checksum does not match")
            | None => Ok tt
            end in
  Ok (replace, requested_by, export).

Definition cli_policies (data : list RetentionPolicy) : CliOutput :=
  Printed (ops_envelope [("data", VArray (map policy_json data))]).
Definition cli_run (run : CleanupRun) : CliOutput := Printed (run_body run).

Definition cli_restored (result : RestoreResult) : CliOutput :=
  Printed (ops_envelope
    [("backup_id", VString (rr_backup_id result)); ("verified", VBool (rr_verified result));
     ("snapshot_revision", of_i64 (ss_revision (rr_snapshot result)));
     ("snapshot_generated_at", export_instant_json (ss_generated_at (rr_snapshot result)));
     ("skipped_virtual_keys", of_i64 (rr_skipped_virtual_keys result))]).

(** The command and its arguments, once there is a database. *)
Definition cli_command (command : string) (args : list string) : result CliJob CliError :=
  if command =?s "retention-cleanup"
  then let? request := cleanup_options args default_request in Ok (RetentionJob (printing (start_cleanup request) cli_run))
  else if one_of command ["retention-cancel"; "retention-retry"]
  then
    let? id := ok_or (head args) (CliText "operation id is required") in
    Ok (RetentionJob (printing (if command =?s "retention-cancel" then cancel_cleanup id "cli" else retry_cleanup id "cli") cli_run))
  else if command =?s "retention-policies"
  then Ok (RetentionJob (printing Cleanup.list_retention_policies cli_policies))
  else if command =?s "retention-policy-set"
  then
    let? key := ok_or (head args) (CliText "policy key is required") in
    let? days := ok_or (args !! 1%nat) (CliText "retention days are required") in
    let? days := parse_i32 days in
    let enabled := negb (existsb (String.eqb "--disabled") (command :: args)) in
    Ok (RetentionJob (printing (Cleanup.update_retention_policies [mkPolicyWrite key days enabled] "cli") cli_policies))
  else if command =?s "control-plane-export"
  then
    let? cp := cli_control_plane in
    Ok (BackupJob (printing (Backup.export_control_plane export_to_value cp "cli") (fun result =>
      match cli_option (command :: args) "--output" with
      | Some path => Written path (export_payload export_to_value result)
      | None => Printed (export_payload export_to_value result)
      end)))
  else if command =?s "control-plane-import"
  then
    let? path := ok_or (cli_option (command :: args) "--input") (CliText "--input is required") in
    let? bytes := map_err CliText (cl_read_file path) in
    let? payload := ok_or (from_slice bytes) (CliText (cl_json_error bytes)) in
    let? import := read_cli_import (command :: args) payload in
    let '(replace, requested_by, export) := import in
    let? cp := cli_control_plane in
    Ok (BackupJob (printing (restore_control_plane export_to_value cp export replace requested_by) cli_restored))
  else Err (CliText ops_cli_usage).

(** The job, and the migrated tables it starts from. *)
Definition run_ops_cli (args : list string) (db : ControlDb) : result CliJob CliError * ControlDb :=
  match args with
  | [] => (Err (CliText ops_cli_usage), db)
  | command :: args =>
      match connect_from_env db with
      | (Err StDatabaseRequired, db) => (Err (CliText "DATABASE_URL is required for gateway ops"), db)
      | (Err error, db) => (Err (CliStart error), db)
      | (Ok _, db) => (cli_command command args, db)
      end
  end.

(** The two ways to import read a file alike: one refuses what the other
    refuses, and otherwise both restore the same export; on the command line
    [--replace] also asks for a replacement. *)
Theorem cli_import_agrees_with_api args payload :
  match read_import export_to_value payload, read_cli_import args payload with
  | Ok (replace, _, export), Ok (replace', _, export') =>
      export' = export /\ replace' = replace || existsb (String.eqb "--replace") args
  | Err _, Err _ => True
  | _, _ => False
  end.
Proof.
  unfold read_import, read_cli_import. destruct (read_export _) as [export|]; [|done]. cbn [ok_or rbind].
  destruct (get payload "checksum" ≫= as_str) as [expected|]; [|done].
  destruct (export_checksum _ export) as [actual|]; [|done]. cbn [map_err rbind]. by destruct (actual =?s expected).
Qed.

(** The arguments that say a request. *)
Definition cleanup_args (r : CleanupRequest) : list string :=
  (if cq_dry_run r then ["--dry-run"] else [])
  ++ ["--batch-size"; dec (cq_batch_size r); "--max-batches"; dec (cq_max_batches r)]
  ++ match cq_operation_id r with Some id => ["--operation-id"; id] | None => [] end
  ++ match cq_requested_by r with Some by_ => ["--requested-by"; by_] | None => [] end.

(** Every request without a choice of policies can be said on the command
    line, and is read back as it is. *)
Theorem cleanup_args_read_back r :
  - 2 ^ 31 <= cq_batch_size r <= I32_MAX -> - 2 ^ 31 <= cq_max_batches r <= I32_MAX -> cq_policy_keys r = None ->
  cleanup_options (cleanup_args r) default_request = Ok r.
Proof.
  destruct r as [dry batch batches id by_ keys]. cbn [cq_batch_size cq_max_batches cq_policy_keys]. intros Hb Hm ->.
  unfold cleanup_args, parse_i32. destruct dry, id as [id|], by_ as [by_|];
    cbn -[parse_int dec I32_MAX Z.pow]; unfold parse_i32; rewrite !parse_int_dec by done; reflexivity.
Qed.
End Cli.
